(* ===== verification/_CoqProject ===== *)
-Q . S2P
Prelude.v
Convert.v
Inet.v
Heap.v
RingBuffer.v
LeaseChain.v
HashTable.v
Mdb6.v
Mdb6Pool.v
Mdb6Address.v
Packet.v
Options.v
OptionStore.v
NsName.v
Expr.v
ExprType.v
ExprScope.v
OptionReply.v
Fqdn.v
OptionSpaces.v
Relay.v
FailoverLease.v
FailoverQueue.v
FailoverState.v
Mdb.v
MdbQueue.v
MdbClient.v
MdbPool.v
Dhcp.v
DhcpSafe.v
DhcToken.v
ConfLex.v
Print.v
ConfParse.v
LeaseFile.v
LexText.v
LeaseText.v
LeaseTrip.v
