(* ===== verification/Prelude.v ===== *)
(** * A verification of the core of ISC DHCP

    ISC DHCP is a DHCP server, client and relay agent in C.  This library
    translates its data structures, its wire formats and its failover protocol
    into executable definitions, one file per component, and proves what makes
    them correct.  A definition keeps the name of the C function or type it
    translates (a failover function without its prefix [dhcp_failover_]).

    ** How C is modelled

    Integers are [Z], with the wrap-around of their width written out ([u8],
    [u16], [u32], [s32] of this file).  A buffer is a list of octets, and an
    access outside of it, like a null pointer that is followed, is the outcome
    [Undef]; [log_fatal] and a failed assertion are the outcome [Fatal]; a
    function that returns gives [Ret].  A theorem whose conclusion says [Ret]
    so also says that memory is respected and that the process goes on.  State
    is passed explicitly; linked structures are finite maps from pointers to
    records.  What the operating system, the allocator, the random generator or
    the database answers is a parameter, usually a function from the number or
    the history of the requests, so that theorems hold for all answers.

    Loops that are not structural take fuel.  The fuel is computed from the data
    (the size of the array, of the heap of leases, the number of addresses), and
    the theorems that say that a function returns [Ret] show it to be enough:
    running out is [Undef].

    ** The components

    - [Prelude]: this file, outcomes, integers, octets, big-endian numbers, and
      the hint database [dhcp].
    - [Convert] (omapip/convert.c): octets to integers and back, printing.
    - [Inet] (common/inet.c): addresses, masks, and the division of a range of
      addresses into networks.
    - [Heap] (common/heap.c): the priority queue, over the class
      [PriorityOrder] of its comparison.
    - [RingBuffer] (omapip/buffer.c): the chains of ring buffers of an OMAPI
      connection; a connection is related to the octets waiting in it.
    - [LeaseChain] (server/leasechain.c): the sorted array of leases that is a
      doubly linked list as well, with reference counts.
    - [HashTable] (omapip/hash.c): the hash functions and the tables; a table is
      related to a stack of entries for each key.
    - [Mdb6] (server/mdb6.c): the leases of IPv6 addresses and prefixes, their pools
      and identity associations, with reference counts; it uses [Heap] for the
      leases in use and for the others.  [Mdb6Pool] proves that the operations keep
      a pool consistent, [Mdb6Address] how addresses are chosen.
    - [Mdb] (server/mdb.c, server/class.c): the leases of IPv4 addresses, with the
      queues of their pools, the lists by client and the billing of classes;
      transitions of leases, timers and the start of the server.  The lease file, the
      peer and the statements that run answer through the record [world].
      [MdbQueue] has the queues, [MdbClient] the lists of clients and the billing,
      [MdbPool] the operations that change all of them.
    - [Dhcp] (server/dhcp.c): the messages of DHCPv4 clients on the database of [Mdb]: the
      network of a packet, the lease of a client, fixed addresses, permits, the
      allocation of a lease, and the handlers up to the answer that they give; what the
      configuration says is the record [config].  [DhcpSafe] has its theorems.  The
      fuel of its loops is the number of leases, or of hosts.
    - [DhcToken] and [ConfLex] (includes/dhctoken.h, common/conflex.c): the keywords and the
      lexer of the configuration and of the lease file, on text in memory; [LexText]
      has the theory of texts and of the tokens that they are read as.
    - [ConfParse] (common/parse.c): the parsers that the lease file uses, with error recovery.
    - [Print] (common/print.c) and [LeaseFile] (server/db.c, server/confpars.c): the
      declarations of leases as they are written and read.  [LeaseText] and [LeaseTrip]
      have the theorems.  The fuel of the lexer and of the parsers is what is left of the text.
    - [Packet] (common/packet.c, common/ethernet.c): checksums, and the headers
      of the frames that are sent and received.
    - [Options] (common/options.c): the stores of options, one per option space
      (hash tables or linked lists), and the parser that fills them from a
      packet, with the spaces enclosed in options.
    - [OptionStore] (common/options.c): [store_options], which writes the options
      of a reply into up to three fields of a packet and splits long values.
    - [OptionReply] (common/options.c): [cons_options], which decides the room
      and the order of the options of a reply; it uses [OptionStore], and its
      theorems join it with the parser of [Options].
    - [Fqdn] (common/options.c): the FQDN option, taken apart into suboptions and
      put together from them.
    - [OptionSpaces] (common/tables.c, server/stables.c, common/options.c): the
      option spaces of DHCPv4 with their tables, and the functions that make an
      option of the options of a space; it has [Fqdn] as the decoder of one
      space.
    - [NsName] (common/ns_name.c): domain names as text, on the wire, and in
      messages where pointers compress them.
    - [Expr] (common/tree.c, common/execute.c, [set_option] and [get_option] of
      common/options.c): the expressions and statements of the configuration,
      their evaluation, variables and scopes.  [ExprType] has the types of
      expressions, [ExprScope] the options that the groups around a client give it.
    - [Relay] (relay/dhcrelay.c): the DHCPv4 relay agent, with the option that it
      adds to requests and strips from replies.
    - [FailoverLease] (server/failover.c): which server answers a client, which
      may hand out a lease, which updates are accepted, and the balancing of
      the pools.
    - [FailoverQueue] (server/failover.c): the queues of leases to be announced
      to the peer and of those that wait for its ack, as two singly linked
      lists through the leases, related by [rep] to two lists.
    - [FailoverState] (server/failover.c): the state machine of an endpoint.  It
      reaches the queues through the class [UpdateQueues]; its theorems rest on
      the laws [UpdateQueuesLaws], which [peer_queues_laws] proves of the queues
      of [FailoverQueue].

    ** What the theorems show

    Data structures refine an abstract value: the operations of [LeaseChain],
    [RingBuffer], [HashTable] and [FailoverQueue] act on it as a list, a queue of
    octets, a stack per key and two lists do, and keep the invariant that relates the
    two; [Heap] refines a multiset of which it gives a least element, and its callback
    knows the place of each element.  A pool of IPv6 leases stays consistent along every
    sequence of operations ([pool_stays_consistent]), its leases expire when they have
    ended and not before ([leases_expire]), and a new lease has the first address of a
    sequence that is available ([create_lease6_first]).  The database of IPv4 leases
    stays consistent whatever is superseded, released and abandoned and whenever its
    timers run, and announces to a peer what it has written and committed
    ([database_consistent]); a timer leaves no lease behind whose time has come
    ([pool_timer_expires]).  The loop over a queue has twice the number of the leases as
    fuel, since a lease that expires may be put on the same queue again.  A packet of a
    client, with at least four octets in the options that hold addresses, is handled by
    the server within its memory; the handler keeps the database consistent, and offers
    or acknowledges only addresses that the client may use and that no other client has
    ([dhcp_serves_safely]); a lease that it allocates is the best that the pools offer
    ([allocate_lease_best]).  The leases that are written to the lease file are those
    that are read when the server starts ([lease_file_roundtrip]), and the lexer knows
    exactly the keywords of its table ([intern_exact]).  [Packet], [Inet] and [Convert]
    have round trips and exactness; the decoder of packets stays within any input.  The
    stores of [Options] refine a finite map from codes to chains of values.  The parser
    of options returns, within the packet, for every packet: for any option spaces that
    are configured consistently ([parse_option_buffer_safe]) and for those built into
    the program ([v4_parse_safe]).  What [cons_options] writes, the parser reads back:
    each option that is stored arrives whole, and all that the priority list names do
    when there is room ([reply_roundtrip]); the FQDN option and the options of relay
    agents have round trips of their own.  A request that a relay agent forwards leads
    the reply of a server back to the interface of the client ([relay_roundtrip]), and,
    if its interfaces have addresses, no packet makes the relay agent leave its buffer
    or forward a request without end ([do_relay4_safe]).  Lists of domain names survive
    compression ([name_list_roundtrip]), and a message whose pointers form a loop does
    not keep the reader busy ([unpack_terminates]).  An expression that passes the
    typing of [ExprType], which accepts less than the tests of the code do, is evaluated
    without a fault and gives a value of that type or none, with its height as fuel
    ([well_typed_evaluates]); the options that the groups of a configuration set, append
    and prepend are those that a reading of the groups from the outside to the inside
    gives ([options_in_scope]).  The fuel of the parser is the length of the packet,
    that of [store_options] the length of the value, that of the encapsulation the
    nesting of the spaces.  For failover, the two servers share the clients and the
    leases without overlap, a rebalance leaves neither far ahead of the other, in
    partner-down the time limits of the protocol are kept, no update is lost by the
    queues, every event is handled but a state
    of the peer that conflict-done does not expect, and a server does not serve clients while it knows
    the peer to serve alone or to resolve conflicts, along every sequence of events.

    ** What is not modelled

    Input and output on sockets and devices, the LDAP and DNS libraries, the OMAPI
    object plumbing, logging and tracing.  Of the options, the printing and the DHCPv6
    writer are left out; of the expressions, printing, reference counts and the [let]
    statement; of the relay agent, DHCPv6; of the lease database, the declarations of
    hosts and subnets; of the lease file, all declarations but those of IPv4 leases.  Of
    the DHCPv4 server, the replies that [ack_lease] and [nak_lease] build (and with them
    the activation of a lease), DHCPINFORM, lease queries, BOOTP and DHCPv4 over DHCPv6
    are left out.  The DHCPv6 server, the client, the wire format of failover messages
    and the declarations of the configuration are not modelled: they read and write most
    of the state of the process, of which the components above are the parts that have
    invariants of their own. *)

From stdpp Require Import base list numbers option gmap.
From Stdlib Require Import ZArith Lia.

#[local] Open Scope Z_scope.

(** ** Outcomes of C code

    A C function either returns, stops the process through [log_fatal] (or a
    failed assertion), or accesses memory outside of an object.  The three
    cases are kept apart so that a theorem that says [Ret] also says that the
    code does not exit and does not read or write out of bounds. *)

Inductive outcome (A : Type) : Type :=
| Ret (a : A)
| Fatal
| Undef.
Arguments Ret {A} a.
Arguments Fatal {A}.
Arguments Undef {A}.

#[export] Instance outcome_ret : MRet outcome := fun A a => Ret a.
#[export] Instance outcome_bind : MBind outcome := fun A B f m =>
  match m with
  | Ret a => f a
  | Fatal => Fatal
  | Undef => Undef
  end.

#[export] Instance outcome_eq_dec {A} `{EqDecision A} : EqDecision (outcome A).
Proof. solve_decision. Defined.

Lemma bind_ret {A B} (a : A) (f : A -> outcome B) : (x ← Ret a; f x) = f a.
Proof. reflexivity. Qed.

Lemma bind_Ret_inv {A B} (m : outcome A) (f : A -> outcome B) (b : B) :
  (x ← m; f x) = Ret b -> exists a, m = Ret a /\ f a = Ret b.
Proof. destruct m; cbn; intros H; try discriminate; eauto. Qed.

(** ** Machine integers *)

Definition u8 (z : Z) : Z := z mod 2 ^ 8.
Definition u16 (z : Z) : Z := z mod 2 ^ 16.
Definition u32 (z : Z) : Z := z mod 2 ^ 32.
Definition u64 (z : Z) : Z := z mod 2 ^ 64.
Definition s8 (z : Z) : Z := (z + 2 ^ 7) mod 2 ^ 8 - 2 ^ 7.
Definition s16 (z : Z) : Z := (z + 2 ^ 15) mod 2 ^ 16 - 2 ^ 15.
Definition s32 (z : Z) : Z := (z + 2 ^ 31) mod 2 ^ 32 - 2 ^ 31.

Definition is_byte (z : Z) : Prop := 0 <= z < 256.
#[export] Instance is_byte_dec z : Decision (is_byte z).
Proof. unfold is_byte. apply _. Defined.

Definition is_bytes (l : list Z) : Prop := Forall is_byte l.
#[export] Instance is_bytes_dec l : Decision (is_bytes l).
Proof. unfold is_bytes. apply _. Defined.

Definition Zlen {A} (l : list A) : Z := Z.of_nat (length l).

Lemma u8_small z : is_byte z -> u8 z = z.
Proof. unfold is_byte, u8. intros. apply Z.mod_small. lia. Qed.

Lemma u8_byte z : is_byte (u8 z).
Proof. unfold is_byte, u8. change 256 with (2 ^ 8). apply Z.mod_pos_bound. lia. Qed.

Lemma u16_small z : 0 <= z < 2 ^ 16 -> u16 z = z.
Proof. intros. apply Z.mod_small. lia. Qed.

Lemma u32_small z : 0 <= z < 2 ^ 32 -> u32 z = z.
Proof. intros. apply Z.mod_small. lia. Qed.

Lemma s32_small z : - 2 ^ 31 <= z < 2 ^ 31 -> s32 z = z.
Proof. intros. unfold s32. rewrite Z.mod_small by lia. lia. Qed.

Lemma u16_range z : 0 <= u16 z < 2 ^ 16.
Proof. apply Z.mod_pos_bound. lia. Qed.

Lemma u32_range z : 0 <= u32 z < 2 ^ 32.
Proof. apply Z.mod_pos_bound. lia. Qed.

Lemma s8_small z : 0 <= z < 128 -> s8 z = z.
Proof. intros. unfold s8. rewrite Z.mod_small; lia. Qed.

Lemma s8_large z : 128 <= z < 256 -> s8 z = z - 256.
Proof.
  intros. unfold s8. replace (z + 2 ^ 7) with ((z - 128) + 1 * 2 ^ 8) by lia.
  rewrite Z.mod_add, Z.mod_small; lia.
Qed.

(** ** Arrays

    [rd] and [wr] are the checked accesses [a[i]] and [a[i] = v]. *)

Definition nthZ (l : list Z) (i : Z) : Z := nth (Z.to_nat i) l 0.

Definition rdA {A} (l : list A) (i : Z) : outcome A :=
  if bool_decide (0 <= i) then
    match l !! Z.to_nat i with Some v => Ret v | None => Undef end
  else Undef.

Definition wrA {A} (l : list A) (i : Z) (v : A) : outcome (list A) :=
  if bool_decide (0 <= i < Zlen l) then Ret (<[Z.to_nat i := v]> l) else Undef.

Abbreviation rd := (@rdA Z).
Abbreviation wr := (@wrA Z).

Lemma Zlen_nonneg {A} (l : list A) : 0 <= Zlen l.
Proof. unfold Zlen. lia. Qed.

Lemma Zlen_insert {A} (l : list A) i (v : A) : Zlen (<[i:=v]> l) = Zlen l.
Proof. unfold Zlen. by rewrite length_insert. Qed.

Lemma rdA_lookup {A} (l : list A) i (v : A) :
  0 <= i -> l !! Z.to_nat i = Some v -> rdA l i = Ret v.
Proof. intros ? H. unfold rdA. rewrite bool_decide_true by done. by rewrite H. Qed.

Lemma rdA_Ret {A} (l : list A) i (v : A) :
  rdA l i = Ret v -> 0 <= i < Zlen l /\ l !! Z.to_nat i = Some v.
Proof.
  unfold rdA, Zlen. case_bool_decide; [|done].
  destruct (l !! Z.to_nat i) eqn:E; intros H'; simplify_eq.
  apply lookup_lt_Some in E as ?. split; [lia|done].
Qed.

Lemma rd_in l i : 0 <= i < Zlen l -> rd l i = Ret (nthZ l i).
Proof.
  intros H. unfold Zlen in H. apply rdA_lookup; [lia|].
  unfold nthZ. destruct (l !! Z.to_nat i) eqn:E.
  - by rewrite (nth_lookup_Some _ _ _ _ E).
  - apply lookup_ge_None in E. lia.
Qed.

Lemma wrA_in {A} (l : list A) i (v : A) :
  0 <= i < Zlen l -> wrA l i v = Ret (<[Z.to_nat i := v]> l).
Proof. intros. unfold wrA. by rewrite bool_decide_true. Qed.

Lemma nthZ_lookup l i v : l !! Z.to_nat i = Some v -> nthZ l i = v.
Proof. apply nth_lookup_Some. Qed.

Lemma lookup_nthZ l i : 0 <= i < Zlen l -> l !! Z.to_nat i = Some (nthZ l i).
Proof. intros H. by apply rd_in, rdA_Ret in H as [_ ?]. Qed.

Lemma nthZ_byte l i : is_bytes l -> is_byte (nthZ l i).
Proof.
  intros H. unfold nthZ. destruct (l !! Z.to_nat i) eqn:E.
  - rewrite (nth_lookup_Some _ _ _ _ E). by eapply Forall_lookup_1.
  - rewrite nth_lookup, E. unfold is_byte. cbn. lia.
Qed.

Lemma nthZ_insert_eq l i v : 0 <= i < Zlen l -> nthZ (<[Z.to_nat i := v]> l) i = v.
Proof. intros H. unfold Zlen in H. apply nthZ_lookup, list_lookup_insert_eq. lia. Qed.

Lemma nthZ_insert_ne l i j v :
  0 <= i -> 0 <= j -> i <> j -> nthZ (<[Z.to_nat i := v]> l) j = nthZ l j.
Proof.
  intros. unfold nthZ. rewrite !nth_lookup, list_lookup_insert_ne; [done|lia].
Qed.

Lemma is_bytes_insert l i v : is_bytes l -> is_byte v -> is_bytes (<[i:=v]> l).
Proof. intros. by apply Forall_insert. Qed.

Lemma is_bytes_app l1 l2 : is_bytes (l1 ++ l2) <-> is_bytes l1 /\ is_bytes l2.
Proof. apply Forall_app. Qed.

Lemma is_bytes_take n l : is_bytes l -> is_bytes (take n l).
Proof. apply Forall_take. Qed.

Lemma is_bytes_drop n l : is_bytes l -> is_bytes (drop n l).
Proof. apply Forall_drop. Qed.

Lemma is_bytes_replicate n v : is_byte v -> is_bytes (replicate n v).
Proof. intros. by apply Forall_replicate. Qed.

(** [memcpy (&dst[off], src, length src)]. *)
Definition memcpy {A} (dst : list A) (off : Z) (src : list A) : outcome (list A) :=
  if bool_decide (0 <= off /\ off + Zlen src <= Zlen dst) then
    Ret (take (Z.to_nat off) dst ++ src ++ drop (Z.to_nat off + length src) dst)
  else Undef.

(** The [n] bytes at [src[off]], as [memcpy] reads them. *)
Definition memread {A} (src : list A) (off n : Z) : outcome (list A) :=
  if bool_decide (0 <= off /\ 0 <= n /\ off + n <= Zlen src) then
    Ret (take (Z.to_nat n) (drop (Z.to_nat off) src))
  else Undef.

Lemma memcpy_length {A} (dst : list A) off src l :
  memcpy dst off src = Ret l -> length l = length dst.
Proof.
  unfold memcpy, Zlen. case_bool_decide; [|done]. intros [= <-].
  rewrite !length_app, length_take, length_drop. lia.
Qed.

Lemma memread_in {A} (src : list A) off n :
  0 <= off -> 0 <= n -> off + n <= Zlen src ->
  memread src off n = Ret (take (Z.to_nat n) (drop (Z.to_nat off) src)).
Proof. intros. unfold memread. by rewrite bool_decide_true. Qed.

Lemma memread_mid {A} (pre x post : list A) n :
  n = Zlen x -> memread (pre ++ x ++ post) (Zlen pre) n = Ret x.
Proof.
  intros ->. unfold memread, Zlen. rewrite bool_decide_true by (rewrite !length_app; lia).
  rewrite !Nat2Z.id, drop_app_length, take_app_length. done.
Qed.

(** ** Loops

    [for_up n i body s] is [for (k = i; k < i + n; k++) s = body(k, s)]. *)

Fixpoint for_up {S} (n : nat) (i : Z) (body : Z -> S -> outcome S) (s : S) : outcome S :=
  match n with
  | O => Ret s
  | S n' => s' ← body i s; for_up n' (i + 1) body s'
  end.

(** The Hoare rule of the loop, for bodies that return under the invariant. *)
Lemma for_up_inv {S} (P : Z -> S -> Prop) n i body (s : S) :
  P i s ->
  (forall k s, i <= k < i + Z.of_nat n -> P k s ->
     exists s', body k s = Ret s' /\ P (k + 1) s') ->
  exists s', for_up n i body s = Ret s' /\ P (i + Z.of_nat n) s'.
Proof.
  revert i s. induction n as [|n IH]; intros i s Hi Hstep; cbn [for_up].
  - exists s. rewrite Z.add_0_r. eauto.
  - destruct (Hstep i s) as (s1 & -> & H1); [lia|done|]. cbn.
    destruct (IH (i + 1) s1 H1) as (s2 & -> & H2).
    { intros k s' ? ?. apply Hstep; [lia|done]. }
    exists s2. split; [done|]. by replace (i + Z.of_nat (Datatypes.S n)) with (i + 1 + Z.of_nat n) by lia.
Qed.

(** A loop whose number of iterations is only bounded by a measure: the
    combinator runs [step] at most [2 ^ n] times and stops at the first
    result.  The depth [n] is the logarithm of the fuel, so the bound can be
    as large as an address space and the loop still evaluates. *)
Fixpoint while_log {S R} (n : nat) (step : S -> S + R) (s : S) : S + R :=
  match n with
  | O => step s
  | S n' => match while_log n' step s with
            | inl s' => while_log n' step s'
            | inr r => inr r
            end
  end.

(** Rule of the loop: an invariant, a measure that falls below its bound and
    that every continuing step decreases, and a postcondition on results. *)
Lemma while_log_inv {S R} (I : S -> Prop) (m : S -> Z) (Q : R -> Prop) step :
  (forall s, I s -> match step s with
                    | inl s' => I s' /\ 0 <= m s' < m s
                    | inr r => Q r end) ->
  forall n s, I s ->
  match while_log n step s with
  | inl s' => I s' /\ 0 <= m s' /\ m s' + 2 ^ Z.of_nat n <= m s
  | inr r => Q r
  end.
Proof.
  intros Hstep n. induction n as [|n IH]; intros s Hs; cbn [while_log].
  - specialize (Hstep s Hs). destruct (step s); [|done].
    destruct Hstep. rewrite Nat2Z.inj_0. cbn. split; [done|lia].
  - specialize (IH s Hs) as H1. destruct (while_log n step s) as [s1|r]; [|done].
    destruct H1 as (I1 & ? & ?). specialize (IH s1 I1) as H2.
    destruct (while_log n step s1) as [s2|r]; [|done].
    destruct H2 as (? & ? & ?). rewrite Nat2Z.inj_succ, Z.pow_succ_r by lia. split; [done|lia].
Qed.

Lemma while_log_total {S R} (I : S -> Prop) (m : S -> Z) (Q : R -> Prop) step n s :
  (forall s, I s -> match step s with
                    | inl s' => I s' /\ 0 <= m s' < m s
                    | inr r => Q r end) ->
  I s -> m s < 2 ^ Z.of_nat n ->
  exists r, while_log n step s = inr r /\ Q r.
Proof.
  intros Hstep Hs Hm. pose proof (while_log_inv I m Q step Hstep n s Hs) as H.
  destruct (while_log n step s); [|eauto]. destruct H as (_ & ? & ?). lia.
Qed.

(** ** Big-endian byte strings *)

Fixpoint be_val (l : list Z) : Z :=
  match l with
  | [] => 0
  | b :: l' => b * 256 ^ Zlen l' + be_val l'
  end.

Fixpoint be_enc (n : nat) (v : Z) : list Z :=
  match n with
  | O => []
  | S n' => (v / 256 ^ Z.of_nat n') mod 256 :: be_enc n' v
  end.

Lemma pow256_pos n : 0 <= n -> 0 < 256 ^ n.
Proof. intros. apply Z.pow_pos_nonneg; lia. Qed.

Lemma pow256_eq n : 0 <= n -> 256 ^ n = 2 ^ (8 * n).
Proof. intros. rewrite Z.pow_mul_r by lia. done. Qed.

Lemma Zlen_cons {A} (x : A) l : Zlen (x :: l) = Zlen l + 1.
Proof. unfold Zlen. cbn [length]. lia. Qed.

Lemma Zlen_app {A} (l1 l2 : list A) : Zlen (l1 ++ l2) = Zlen l1 + Zlen l2.
Proof. unfold Zlen. rewrite length_app. lia. Qed.

Lemma pow256_cons {A} (x : A) l : 256 ^ Zlen (x :: l) = 256 * 256 ^ Zlen l.
Proof. rewrite Zlen_cons, Z.pow_add_r by (pose proof (Zlen_nonneg l); lia). lia. Qed.

Lemma be_val_range l : is_bytes l -> 0 <= be_val l < 256 ^ Zlen l.
Proof.
  induction 1 as [|b l Hb Hl IH]; cbn [be_val]; [unfold Zlen; cbn; lia|].
  rewrite pow256_cons. unfold is_byte in Hb.
  pose proof (pow256_pos _ (Zlen_nonneg l)). nia.
Qed.

Lemma be_val_app l1 l2 : be_val (l1 ++ l2) = be_val l1 * 256 ^ Zlen l2 + be_val l2.
Proof.
  induction l1 as [|b l1 IH]; cbn [be_val app]; [lia|].
  rewrite IH, Zlen_app, Z.pow_add_r by apply Zlen_nonneg. lia.
Qed.

Lemma be_val_snoc l b : be_val (l ++ [b]) = be_val l * 256 + b.
Proof.
  rewrite be_val_app. change (be_val [b]) with (b * 256 ^ 0 + 0). change (Zlen [b]) with 1. lia.
Qed.

Lemma be_val_inj l1 l2 :
  is_bytes l1 -> is_bytes l2 -> length l1 = length l2 -> be_val l1 = be_val l2 -> l1 = l2.
Proof.
  intros H1. revert l2. induction H1 as [|b l Hb Hl IH]; intros [|b2 l2] H2 Hlen Heq; try done.
  apply Forall_cons in H2 as [Hb2 Hl2]. cbn [be_val] in Heq.
  assert (Zlen l = Zlen l2) as E by (unfold Zlen; cbn in Hlen; lia). rewrite E in Heq.
  pose proof (be_val_range l Hl) as R1. pose proof (be_val_range l2 Hl2) as R2. rewrite E in R1.
  assert (b = b2) as ->.
  { destruct (Z.lt_trichotomy b b2) as [?|[?|?]]; [|done|]; exfalso; nia. }
  f_equal. apply IH; [done| |lia]. cbn in Hlen. lia.
Qed.

Lemma be_enc_length n v : length (be_enc n v) = n.
Proof. induction n; cbn; congruence. Qed.

Lemma be_enc_bytes n v : is_bytes (be_enc n v).
Proof.
  induction n; cbn; constructor; [|done]. apply Z.mod_pos_bound. lia.
Qed.

Lemma be_val_enc n v : be_val (be_enc n v) = v mod 256 ^ Z.of_nat n.
Proof.
  induction n as [|n IH]; cbn [be_enc be_val].
  - by rewrite Z.mod_1_r.
  - unfold Zlen. rewrite be_enc_length, IH.
    rewrite Nat2Z.inj_succ, Z.pow_succ_r by lia.
    pose proof (pow256_pos (Z.of_nat n) ltac:(lia)).
    rewrite (Z.mul_comm 256), Z.rem_mul_r by lia. lia.
Qed.

Lemma be_enc_val l : is_bytes l -> be_enc (length l) (be_val l) = l.
Proof.
  intros H. apply be_val_inj; [apply be_enc_bytes|done|apply be_enc_length|].
  rewrite be_val_enc. apply Z.mod_small, be_val_range, H.
Qed.

(** Bitwise operations act on big-endian values byte by byte. *)
Lemma testbit_add_pow a x k i :
  0 <= k -> 0 <= x < 2 ^ k -> 0 <= i ->
  Z.testbit (a * 2 ^ k + x) i = if bool_decide (i < k) then Z.testbit x i else Z.testbit a (i - k).
Proof.
  intros Hk Hx Hi. case_bool_decide as E.
  - rewrite <- (Z.mod_pow2_bits_low _ k) by lia.
    rewrite Z.add_comm, Z.mod_add, Z.mod_small by lia. done.
  - replace i with ((i - k) + k) at 1 by lia.
    rewrite <- Z.div_pow2_bits by lia. f_equal.
    rewrite Z.add_comm, Z.div_add, Z.div_small by lia. lia.
Qed.

Section Bitwise.
Context (op : Z -> Z -> Z) (opb : bool -> bool -> bool).
Hypothesis op_spec : forall a b i, Z.testbit (op a b) i = opb (Z.testbit a i) (Z.testbit b i).
Hypothesis op_nonneg : forall a b, 0 <= a -> 0 <= b -> 0 <= op a b.
Hypothesis opb_ff : opb false false = false.

Lemma op_pow_range a b k : 0 <= k -> 0 <= a < 2 ^ k -> 0 <= b < 2 ^ k -> 0 <= op a b < 2 ^ k.
  Proof.
    intros Hk Ha Hb. split; [apply op_nonneg; lia|].
    assert (op a b = op a b mod 2 ^ k) as ->; [|apply Z.mod_pos_bound; lia].
    apply Z.bits_inj'. intros i Hi. destruct (decide (i < k)).
    - by rewrite Z.mod_pow2_bits_low by lia.
    - rewrite Z.mod_pow2_bits_high, op_spec by lia.
      rewrite <- (Z.mod_small a (2 ^ k)), <- (Z.mod_small b (2 ^ k)) by lia.
      by rewrite !Z.mod_pow2_bits_high by lia.
  Qed.

Lemma op_add_pow a x b y k :
    0 <= k -> 0 <= x < 2 ^ k -> 0 <= y < 2 ^ k ->
    op (a * 2 ^ k + x) (b * 2 ^ k + y) = op a b * 2 ^ k + op x y.
  Proof.
    intros Hk Hx Hy. pose proof (op_pow_range x y k Hk Hx Hy). apply Z.bits_inj'. intros i Hi.
    rewrite op_spec, !testbit_add_pow by lia. case_bool_decide; by rewrite op_spec.
  Qed.

Lemma be_val_zip l1 l2 :
    is_bytes l1 -> is_bytes l2 -> length l1 = length l2 ->
    be_val (zip_with op l1 l2) = op (be_val l1) (be_val l2).
  Proof.
    intros H1. revert l2. induction H1 as [|b l Hb Hl IH]; intros [|b2 l2] H2 Hlen; try done.
    - cbn. symmetry. apply Z.bits_inj'. intros i Hi. by rewrite op_spec, !Z.testbit_0_l.
    - apply Forall_cons in H2 as [Hb2 Hl2]. cbn [zip_with be_val]. cbn in Hlen.
      rewrite IH by (done || lia). unfold Zlen. rewrite length_zip_with, Nat.min_l by lia.
      replace (length l2) with (length l) by lia.
      pose proof (be_val_range l Hl) as R1. pose proof (be_val_range l2 Hl2) as R2.
      unfold Zlen in R1, R2. replace (length l2) with (length l) in R2 by lia.
      rewrite pow256_eq in * by lia. symmetry. apply op_add_pow; lia.
  Qed.
End Bitwise.

Lemma be_val_land l1 l2 :
  is_bytes l1 -> is_bytes l2 -> length l1 = length l2 ->
  be_val (zip_with Z.land l1 l2) = Z.land (be_val l1) (be_val l2).
Proof.
  apply (be_val_zip Z.land andb); [apply Z.land_spec| |done].
  intros. apply Z.land_nonneg. lia.
Qed.

Lemma be_val_lor l1 l2 :
  is_bytes l1 -> is_bytes l2 -> length l1 = length l2 ->
  be_val (zip_with Z.lor l1 l2) = Z.lor (be_val l1) (be_val l2).
Proof.
  apply (be_val_zip Z.lor orb); [apply Z.lor_spec| |done].
  intros. by apply Z.lor_nonneg.
Qed.

Lemma land_byte a b : is_byte a -> is_byte b -> is_byte (Z.land a b).
Proof.
  unfold is_byte. intros. change 256 with (2 ^ 8).
  apply (op_pow_range Z.land andb); try lia; [apply Z.land_spec|intros; apply Z.land_nonneg; lia].
Qed.

Lemma lor_byte a b : is_byte a -> is_byte b -> is_byte (Z.lor a b).
Proof.
  unfold is_byte. intros. change 256 with (2 ^ 8).
  apply (op_pow_range Z.lor orb); try lia; [apply Z.lor_spec|intros; by apply Z.lor_nonneg].
Qed.

(** Comparing byte strings of one length lexicographically is comparing
    their values. *)
Lemma be_val_lex p1 b1 s1 p2 b2 s2 :
  is_bytes s1 -> is_bytes s2 -> length s1 = length s2 -> p1 = p2 ->
  is_byte b1 -> is_byte b2 -> b1 < b2 ->
  be_val (p1 ++ b1 :: s1) < be_val (p2 ++ b2 :: s2).
Proof.
  intros H1 H2 Hlen -> Hb1 Hb2 Hlt. rewrite !be_val_app. cbn [be_val].
  assert (Zlen s1 = Zlen s2) as E by (unfold Zlen; lia).
  rewrite !Zlen_cons, E. pose proof (be_val_range s1 H1) as R1.
  pose proof (be_val_range s2 H2) as R2. rewrite E in R1. nia.
Qed.

Lemma drop_S_drop {A} (l : list A) n : drop (S n) l = drop 1 (drop n l).
Proof. rewrite drop_drop. f_equal. lia. Qed.

(** Octets of a big-endian value, and what overwriting one does to it. *)
Lemma nthZ_be_val l i :
  is_bytes l -> 0 <= i < Zlen l -> nthZ l i = (be_val l / 256 ^ (Zlen l - 1 - i)) mod 256.
Proof.
  intros Hl Hi. pose proof (lookup_nthZ l i Hi) as Hlk.
  rewrite <- (take_drop_middle l _ _ Hlk) at 2. rewrite be_val_app. cbn [be_val].
  rewrite Zlen_cons.
  assert (Zlen (drop (S (Z.to_nat i)) l) = Zlen l - 1 - i) as ->
    by (unfold Zlen in *; rewrite length_drop; lia).
  pose proof (be_val_range _ (is_bytes_drop (S (Z.to_nat i)) l Hl)) as R.
  assert (Zlen (drop (S (Z.to_nat i)) l) = Zlen l - 1 - i) as E
    by (unfold Zlen in *; rewrite length_drop; lia).
  rewrite E in R. rewrite Z.pow_add_r by lia. set (P := 256 ^ (Zlen l - 1 - i)) in *.
  assert (0 < P) by (apply pow256_pos; lia).
  match goal with |- _ = ((?a * (P * ?c) + (?b * P + ?r)) / P) mod 256 =>
    replace (a * (P * c) + (b * P + r)) with (r + (a * c + b) * P) by lia end.
  rewrite Z.div_add, Z.div_small, Z.add_0_l by lia. change (256 ^ 1) with 256.
  rewrite Z.add_comm, Z.mod_add by lia. symmetry. apply Z.mod_small.
  apply nthZ_byte, Hl.
Qed.

Lemma be_val_insert l i v :
  0 <= i < Zlen l ->
  be_val (<[Z.to_nat i := v]> l) = be_val l + (v - nthZ l i) * 256 ^ (Zlen l - 1 - i).
Proof.
  intros Hi. pose proof (lookup_nthZ l i Hi) as Hlk. unfold Zlen in Hi.
  rewrite insert_take_drop by lia.
  rewrite <- (take_drop_middle l _ _ Hlk) at 3. rewrite !be_val_app. cbn [be_val].
  rewrite !Zlen_cons.
  assert (Zlen (drop (S (Z.to_nat i)) l) = Zlen l - 1 - i) as ->
    by (unfold Zlen; rewrite length_drop; lia).
  lia.
Qed.

Lemma be_val_take n l :
  (n <= length l)%nat -> is_bytes l ->
  be_val (take n l) = be_val l / 256 ^ (Zlen l - Z.of_nat n).
Proof.
  intros Hn Hl. rewrite <- (take_drop n l) at 2. rewrite be_val_app.
  assert (Zlen (drop n l) = Zlen l - Z.of_nat n) as E by (unfold Zlen; rewrite length_drop; lia).
  pose proof (be_val_range _ (is_bytes_drop n l Hl)) as R. rewrite E in *.
  rewrite Z.add_comm, Z.div_add, Z.div_small by lia. lia.
Qed.

Lemma be_val_drop n l :
  (n <= length l)%nat -> is_bytes l ->
  be_val (drop n l) = be_val l mod 256 ^ (Zlen l - Z.of_nat n).
Proof.
  intros Hn Hl. rewrite <- (take_drop n l) at 2. rewrite be_val_app.
  assert (Zlen (drop n l) = Zlen l - Z.of_nat n) as E by (unfold Zlen; rewrite length_drop; lia).
  pose proof (be_val_range _ (is_bytes_drop n l Hl)) as R. rewrite E in *.
  rewrite Z.add_comm, Z.mod_add, Z.mod_small by lia. done.
Qed.

Lemma is_bytes_zip_with f l1 l2 :
  (forall x y, is_byte x -> is_byte y -> is_byte (f x y)) ->
  is_bytes l1 -> is_bytes l2 -> is_bytes (zip_with f l1 l2).
Proof.
  intros Hf H1. revert l2. induction H1 as [|x l1 Hx H1 IH]; intros [|y l2] H2; try constructor.
  - apply Hf; [done|]. by apply Forall_cons in H2 as [? _].
  - apply IH. by apply Forall_cons in H2 as [_ ?].
Qed.

(** A property of all octets, checked by evaluation. *)
Lemma byte_forall (P : Z -> bool) :
  forallb P (seqZ 0 256) = true -> forall x, is_byte x -> P x = true.
Proof.
  intros H x Hx. rewrite forallb_forall in H. apply H.
  apply list_elem_of_In, elem_of_seqZ. unfold is_byte in Hx. lia.
Qed.

Lemma lt_mul_div a b c : 0 < b -> a < b * c <-> a / b < c.
Proof.
  intros Hb. split; intros H; [by apply Z.div_lt_upper_bound|].
  pose proof (Z.div_mod a b ltac:(lia)). pose proof (Z.mod_pos_bound a b Hb). nia.
Qed.

Lemma le_mul_div a b c : 0 < b -> b * c <= a <-> c <= a / b.
Proof. intros Hb. pose proof (lt_mul_div a b c Hb). lia. Qed.

Lemma ltb_mul_div a b c : 0 < b -> (a <? b * c) = (a / b <? c).
Proof.
  intros Hb. pose proof (lt_mul_div a b c Hb).
  destruct (Z.ltb_spec a (b * c)), (Z.ltb_spec (a / b) c); lia.
Qed.

(** ** Prefix masks *)

Lemma lor_disjoint a b k : 0 <= k -> a mod 2 ^ k = 0 -> 0 <= b < 2 ^ k -> Z.lor a b = a + b.
Proof.
  intros Hk Ha Hb. apply Z.bits_inj'. intros i Hi.
  rewrite (Z.div_mod a (2 ^ k)), Ha, Z.add_0_r by (apply Z.pow_nonzero; lia).
  rewrite (Z.mul_comm (2 ^ k)), Z.lor_spec, testbit_add_pow by lia.
  rewrite <- (Z.add_0_r (a / 2 ^ k * 2 ^ k)), testbit_add_pow by lia.
  case_bool_decide; [by rewrite Z.testbit_0_l|].
  replace b with (b mod 2 ^ k) by (apply Z.mod_small; lia).
  rewrite Z.mod_pow2_bits_high by lia. by rewrite orb_false_r.
Qed.

Lemma ldiff_prefix v w h :
  0 <= h <= w -> 0 <= v < 2 ^ w -> Z.ldiff v (2 ^ w - 2 ^ h) = v mod 2 ^ h.
Proof.
  intros Hh Hv. apply Z.bits_inj'. intros i Hi. rewrite Z.ldiff_spec.
  replace (2 ^ w - 2 ^ h) with ((2 ^ (w - h) - 1) * 2 ^ h + 0)
    by (rewrite Z.mul_sub_distr_r, <- Z.pow_add_r by lia; replace (w - h + h) with w by lia; lia).
  pose proof (Z.pow_pos_nonneg 2 h ltac:(lia) ltac:(lia)).
  rewrite testbit_add_pow by lia. case_bool_decide.
  - rewrite Z.testbit_0_l, andb_true_r. symmetry. apply Z.mod_pow2_bits_low. lia.
  - rewrite Z.mod_pow2_bits_high by lia. destruct (decide (i < w)).
    + rewrite Z.sub_1_r, <- Z.ones_equiv.
      rewrite Z.ones_spec_low by lia. apply andb_false_r.
    + rewrite <- (Z.mod_small v (2 ^ w)) by lia. by rewrite Z.mod_pow2_bits_high by lia.
Qed.

Lemma land_prefix v w h :
  0 <= h <= w -> 0 <= v < 2 ^ w -> Z.land v (2 ^ w - 2 ^ h) = v - v mod 2 ^ h.
Proof.
  intros Hh Hv. rewrite <- (ldiff_prefix v w h) by lia.
  assert (Z.ldiff v (2 ^ w - 2 ^ h) + Z.land v (2 ^ w - 2 ^ h) = v); [|lia].
  rewrite Z.add_nocarry_lor; [apply Z.lor_ldiff_and|].
  apply Z.bits_inj'. intros i Hi. rewrite Z.land_spec, Z.ldiff_spec, Z.land_spec, Z.bits_0.
  by destruct (Z.testbit v i), (Z.testbit (2 ^ w - 2 ^ h) i).
Qed.

(** ** Tactics *)

(** Prove a decidable closed goal by evaluating its decision. *)
Ltac decide_true := apply (bool_decide_unpack _); vm_compute; exact I.

(** ** Hints *)
Create HintDb dhcp.
#[export] Hint Resolve u8_byte nthZ_byte is_bytes_insert is_bytes_take is_bytes_drop
  be_enc_bytes land_byte lor_byte Zlen_nonneg : dhcp.
Create Rewrite HintDb dhcp.
#[export] Hint Rewrite @Zlen_insert @length_insert @Zlen_cons @Zlen_app : dhcp.
