(* ===== verification/Convert.v ===== *)
(** * Conversions between integers and octet strings (omapip/convert.c)

    The [get] functions read a big-endian integer at the start of a buffer,
    the [put] functions store one there, and [converted_length] and
    [binary_to_ascii] print an integer in a base of at most 16.  A buffer is
    the list of the octets from the pointer on; reading or writing past its
    end is [Undef]. *)

From stdpp Require Import base list numbers.
From Stdlib Require Import ZArith Lia.
From S2P Require Import Prelude.
#[local] Open Scope Z_scope.

Module Convert.

Definition getULong (buf : list Z) : outcome Z :=
  bs ← memread buf 0 4; Ret (be_val bs).

(** [ntohl] is unsigned; the conversion to [int32_t] reinterprets it. *)
Definition getLong (buf : list Z) : outcome Z :=
  bs ← memread buf 0 4; Ret (s32 (be_val bs)).

Definition getUShort (buf : list Z) : outcome Z :=
  bs ← memread buf 0 2; Ret (be_val bs).

(** [ntohs] returns a [uint16_t], which is widened to [int32_t]. *)
Definition getShort (buf : list Z) : outcome Z :=
  bs ← memread buf 0 2; Ret (be_val bs).

Definition getUChar (obuf : list Z) : outcome Z := rd obuf 0.

Definition putULong (obuf : list Z) (val : Z) : outcome (list Z) :=
  memcpy obuf 0 (be_enc 4 (u32 val)).

Definition putLong (obuf : list Z) (val : Z) : outcome (list Z) :=
  memcpy obuf 0 (be_enc 4 (u32 val)).

Definition putUShort (obuf : list Z) (val : Z) : outcome (list Z) :=
  memcpy obuf 0 (be_enc 2 (u16 val)).

Definition putShort (obuf : list Z) (val : Z) : outcome (list Z) :=
  memcpy obuf 0 (be_enc 2 (u16 val)).

Definition putUChar (obuf : list Z) (val : Z) : outcome (list Z) :=
  wr obuf 0 (u8 val).

(** The number a width selects, shared by the two functions below; [None] is
    their early [return 0]. *)
Definition get_number (buf : list Z) (width : Z) : outcome (option Z) :=
  if width =? 1 then n ← getUChar buf; Ret (Some n)
  else if width =? 2 then n ← getUShort buf; Ret (Some n)
  else if width =? 4 then n ← getULong buf; Ret (Some n)
  else Ret None.

(** One turn of the [do ... while (newcolumn > column)] loop. *)
Definition column_step (number base : Z) (s : Z * Z) : (Z * Z) + Z :=
  let '(column, power) := s in
  if number <? column then inr power
  else
    let newcolumn := u32 (column * base) in
    if column <? newcolumn then inl (newcolumn, power + 1) else inr (power + 1).

Definition converted_length (buf : list Z) (base width : Z) : outcome Z :=
  if 16 <? base then Ret 0
  else
    num ← get_number buf width;
    match num with
    | None => Ret 0
    | Some number =>
      match while_log 33 (column_step number base) (base, 1) with
      | inr power => Ret power
      | inl _ => Undef
      end
    end.

Definition h2a : list Z :=
  [48; 49; 50; 51; 52; 53; 54; 55; 56; 57; 97; 98; 99; 100; 101; 102].

(** [for (i = power - 1; i >= 0; i--)], with [n] = [i + 1]. *)
Fixpoint digits_down (n : nat) (base number : Z) (outbuf : list Z) : outcome (list Z) :=
  match n with
  | O => Ret outbuf
  | S i =>
    if base =? 0 then Undef
    else
      c ← rd h2a (number mod base);
      outbuf' ← wr outbuf (Z.of_nat i) c;
      digits_down i base (number / base) outbuf'
  end.

Definition binary_to_ascii (outbuf inbuf : list Z) (base width : Z) : outcome (Z * list Z) :=
  power ← converted_length inbuf base width;
  if 16 <? base then Ret (0, outbuf)
  else
    num ← get_number inbuf width;
    match num with
    | None => Ret (0, outbuf)
    | Some number =>
      outbuf' ← digits_down (Z.to_nat power) base number outbuf;
      Ret (power, outbuf')
    end.

(** ** Reading back what was printed *)

Definition digit_value (c : Z) : Z := if c <=? 57 then c - 48 else c - 87.

Definition ascii_value (base : Z) (l : list Z) : Z :=
  foldl (fun acc c => acc * base + digit_value c) 0 l.

(** ** Lemmas *)

Lemma memread_memcpy (buf src buf' : list Z) :
  memcpy buf 0 src = Ret buf' -> memread buf' 0 (Zlen src) = Ret src.
Proof.
  intros H. pose proof (memcpy_length _ _ _ _ H) as Hl. revert H.
  unfold memcpy. case_bool_decide as Hb; [|done]. intros [= <-].
  rewrite memread_in; unfold Zlen in *; [|lia..|].
  - change (Z.to_nat 0) with 0%nat. rewrite drop_0, Nat2Z.id. cbn [take app].
    f_equal. by rewrite take_app_length.
  - rewrite Hl. lia.
Qed.

Lemma memcpy_0_total (buf src : list Z) :
  Zlen src <= Zlen buf -> exists buf', memcpy buf 0 src = Ret buf'.
Proof. intros. unfold memcpy. rewrite bool_decide_true by lia. eauto. Qed.

Lemma put_get n (buf : list Z) v :
  (n <= length buf)%nat ->
  exists buf', memcpy buf 0 (be_enc n v) = Ret buf' /\
    length buf' = length buf /\
    memread buf' 0 (Z.of_nat n) = Ret (be_enc n v).
Proof.
  intros Hn. destruct (memcpy_0_total buf (be_enc n v)) as [buf' H].
  { unfold Zlen. rewrite be_enc_length. lia. }
  exists buf'. split; [done|]. split; [by eapply memcpy_length|].
  apply memread_memcpy in H. unfold Zlen in H. by rewrite be_enc_length in H.
Qed.

Lemma get_number_range buf width n :
  is_bytes buf -> get_number buf width = Ret (Some n) -> 0 <= n < 2 ^ 32.
Proof.
  intros Hb. unfold get_number, getUChar, getUShort, getULong.
  assert (forall k m, (x ← (bs ← memread buf 0 k; Ret (be_val bs)); Ret (Some x)) = Ret (Some m) ->
     0 <= k <= 4 -> 0 <= m < 2 ^ 32) as Hmem.
  { intros k m H Hk. unfold memread in H. case_bool_decide; [|done].
    cbn [mbind outcome_bind] in H. change (Z.to_nat 0) with 0%nat in H. rewrite drop_0 in H.
    injection H as <-.
    pose proof (be_val_range (take (Z.to_nat k) buf) (is_bytes_take _ _ Hb)) as R.
    assert (256 ^ Zlen (take (Z.to_nat k) buf) <= 256 ^ 4) as Hp.
    { apply Z.pow_le_mono_r; [lia|]. unfold Zlen. rewrite length_take. lia. }
    change (256 ^ 4) with (2 ^ 32) in Hp. lia. }
  repeat case_match; intros H'; try done.
  - apply bind_Ret_inv in H' as (v & Hv & [= <-]). apply rdA_Ret in Hv as [_ Hv].
    eapply Forall_lookup_1 in Hv; [|done]. unfold is_byte in Hv. lia.
  - eapply Hmem; [done|lia].
  - eapply Hmem; [done|lia].
Qed.

(** The invariant of the column loop: until it wraps, the column is the power
    of the base; once it has wrapped, the true power exceeds 32 bits. *)
Definition column_inv (number base : Z) (s : Z * Z) : Prop :=
  let '(column, power) := s in
  1 <= power /\ 1 <= column < 2 ^ 32 /\
  (column = base ^ power \/ 2 ^ 32 <= base ^ power) /\
  (power = 1 \/ 2 ^ 28 <= number \/ base ^ (power - 1) <= number) /\
  (2 ^ 28 <= number \/ column = base ^ power).

Lemma column_loop number base :
  2 <= base <= 16 -> 0 <= number < 2 ^ 32 ->
  exists power, while_log 33 (column_step number base) (base, 1) = inr power /\
    1 <= power /\ number < base ^ power /\
    (power = 1 \/ 2 ^ 28 <= number \/ base ^ (power - 1) <= number).
Proof.
  intros Hb Hn.
  apply (while_log_total (column_inv number base) (fun s => 2 ^ 32 - fst s)).
  - intros [column power] (Hp & Hc & Hpow & Hlow & Hbig). unfold column_step.
    destruct (Z.ltb_spec number column); [intuition lia|].
    assert (base ^ (power + 1) = base ^ power * base) as Hs by (rewrite Z.pow_add_r; lia).
    assert (column < 2 ^ 28 -> u32 (column * base) = column * base) as Hnw
      by (intros; apply u32_small; nia).
    pose proof (u32_range (column * base)) as Hr.
    destruct (Z.ltb_spec column (u32 (column * base))) as [Hlt|Hge].
    + split; [|cbn; lia]. unfold column_inv. rewrite Hs. replace (power + 1 - 1) with power by lia.
      split_and!; try lia.
      * destruct Hpow as [->|Hw]; [|right; nia].
        destruct (Z.lt_ge_cases (base ^ power * base) (2 ^ 32)) as [Hsm|]; [|by right].
        left. apply u32_small. nia.
    + rewrite Hs. replace (power + 1 - 1) with power by lia. split; [lia|]. split.
      * destruct Hpow as [->|Hw]; [|nia].
        destruct (Z.lt_ge_cases (base ^ power * base) (2 ^ 32)) as [Hsm|]; [|nia].
        rewrite u32_small in Hge by nia. nia.
      * destruct Hbig as [?| ->]; lia.
  - unfold column_inv. rewrite Z.pow_1_r. lia.
  - cbn [fst]. change (Z.of_nat 33) with 33. lia.
Qed.

Lemma h2a_digit d : 0 <= d < 16 -> exists c, rd h2a d = Ret c /\ digit_value c = d.
Proof.
  intros H. assert (d = 0 \/ d = 1 \/ d = 2 \/ d = 3 \/ d = 4 \/ d = 5 \/ d = 6 \/ d = 7 \/
    d = 8 \/ d = 9 \/ d = 10 \/ d = 11 \/ d = 12 \/ d = 13 \/ d = 14 \/ d = 15) as C by lia.
  repeat (destruct C as [->|C]; [eexists; split; reflexivity|]).
  subst. eexists; split; reflexivity.
Qed.

Lemma ascii_value_snoc base l c :
  ascii_value base (l ++ [c]) = ascii_value base l * base + digit_value c.
Proof. unfold ascii_value. by rewrite foldl_app. Qed.

Lemma digits_down_spec n base number outbuf :
  2 <= base <= 16 -> 0 <= number -> (n <= length outbuf)%nat ->
  exists out, digits_down n base number outbuf = Ret out /\
    length out = length outbuf /\ drop n out = drop n outbuf /\
    ascii_value base (take n out) = number mod base ^ Z.of_nat n.
Proof.
  intros Hb. revert number outbuf. induction n as [|i IH]; intros number outbuf Hn Hl; cbn [digits_down].
  - exists outbuf. rewrite take_0. cbn. rewrite Z.mod_1_r. done.
  - destruct (Z.eqb_spec base 0); [lia|].
    destruct (h2a_digit (number mod base)) as (c & -> & Hc).
    { pose proof (Z.mod_pos_bound number base). lia. }
    cbn [mbind outcome_bind]. rewrite wrA_in by (unfold Zlen; lia). cbn [mbind outcome_bind].
    rewrite Nat2Z.id.
    destruct (IH (number / base) (<[i:=c]> outbuf)) as (out & -> & Hlen & Hdrop & Hval).
    { apply Z.div_pos; lia. } { rewrite length_insert. lia. }
    rewrite length_insert in Hlen. exists out. split; [done|]. split; [done|].
    assert (out !! i = Some c) as Hi.
    { rewrite <- (Nat.add_0_r i), <- lookup_drop, Hdrop, lookup_drop, Nat.add_0_r.
      apply list_lookup_insert_eq. lia. }
    split.
    + replace (Datatypes.S i) with (i + 1)%nat by lia.
      rewrite <- !drop_drop, Hdrop, !drop_drop. rewrite drop_insert_lt by lia. done.
    + erewrite take_S_r by done. rewrite ascii_value_snoc, Hval, Hc.
      rewrite Nat2Z.inj_succ, Z.pow_succ_r by lia.
      rewrite Z.rem_mul_r by (try apply Z.pow_nonzero; lia). lia.
Qed.

(** ** Properties *)

(** Every [put] function followed by the [get] function of the same width
    returns the stored value reduced to the width (unsigned) or to the signed
    32-bit range, and the buffer keeps its length. *)
Theorem put_get_roundtrip (buf : list Z) (v : Z) (H : (4 <= length buf)%nat) :
  (exists b, putULong buf v = Ret b /\ length b = length buf /\ getULong b = Ret (u32 v)) /\
  (exists b, putLong buf v = Ret b /\ length b = length buf /\ getLong b = Ret (s32 v)) /\
  (exists b, putUShort buf v = Ret b /\ length b = length buf /\ getUShort b = Ret (u16 v)) /\
  (exists b, putUChar buf v = Ret b /\ length b = length buf /\ getUChar b = Ret (u8 v)).
Proof.
  unfold putULong, putLong, putUShort, putUChar, getULong, getLong, getUShort, getUChar.
  destruct (put_get 4 buf (u32 v)) as (b4 & E4 & L4 & R4); [lia|].
  destruct (put_get 2 buf (u16 v)) as (b2 & E2 & L2 & R2); [lia|].
  change (Z.of_nat 4) with 4 in R4. change (Z.of_nat 2) with 2 in R2.
  split_and!.
  - exists b4. rewrite E4, R4. cbn [mbind outcome_bind]. rewrite be_val_enc.
    split_and!; [done..|]. f_equal. apply Z.mod_small, u32_range.
  - exists b4. rewrite E4, R4. cbn [mbind outcome_bind]. rewrite be_val_enc.
    split_and!; [done..|]. f_equal. change (256 ^ Z.of_nat 4) with (2 ^ 32).
    unfold s32, u32. rewrite Zmod_mod, Zplus_mod_idemp_l. done.
  - exists b2. rewrite E2, R2. cbn [mbind outcome_bind]. rewrite be_val_enc.
    split_and!; [done..|]. f_equal. apply Z.mod_small, u16_range.
  - rewrite wrA_in by (unfold Zlen; lia). eexists. split; [done|].
    rewrite length_insert. split; [done|]. rewrite rd_in.
    + by rewrite nthZ_insert_eq by (unfold Zlen; lia).
    + rewrite Zlen_insert. unfold Zlen. lia.
Qed.

Lemma put_get_roundtrip_witness :
  exists b, putULong [0; 0; 0; 0; 7] 305419896 = Ret b /\ getULong b = Ret (u32 305419896).
Proof.
  destruct (put_get_roundtrip [0; 0; 0; 0; 7] 305419896 ltac:(cbn; lia)) as [(b & H1 & _ & H2) _].
  exists b. split; [exact H1 | exact H2].
Defined.

(** [binary_to_ascii] prints the number: for a base from 2 to 16 and a
    buffer that holds the digits, it writes [converted_length] digits whose
    value in the base is the number, and leaves the rest of the buffer. *)
Theorem binary_to_ascii_value (outbuf inbuf : list Z) (base width number power : Z)
    (Hin : is_bytes inbuf) (Hbase : 2 <= base <= 16)
    (Hnum : get_number inbuf width = Ret (Some number))
    (Hlen : converted_length inbuf base width = Ret power)
    (Hroom : power <= Zlen outbuf) :
  exists out, binary_to_ascii outbuf inbuf base width = Ret (power, out) /\
    length out = length outbuf /\
    ascii_value base (take (Z.to_nat power) out) = number /\
    drop (Z.to_nat power) out = drop (Z.to_nat power) outbuf.
Proof.
  pose proof (get_number_range _ _ _ Hin Hnum) as Hn.
  destruct (column_loop number base Hbase Hn) as (p & Hloop & Hp & Hlt & _).
  assert (p = power) as ->.
  { revert Hlen. unfold converted_length. destruct (Z.ltb_spec 16 base); [lia|].
    rewrite Hnum. cbn [mbind outcome_bind]. rewrite Hloop. by intros [= ->]. }
  destruct (digits_down_spec (Z.to_nat power) base number outbuf) as (out & Hd & Hl & Hdr & Hv);
    [done|lia|unfold Zlen in Hroom; lia|].
  exists out. unfold binary_to_ascii. rewrite Hlen. cbn [mbind outcome_bind].
  destruct (Z.ltb_spec 16 base); [lia|]. rewrite Hnum. cbn [mbind outcome_bind].
  rewrite Hd. cbn [mbind outcome_bind]. split_and!; try done.
  rewrite Hv, Z2Nat.id by lia. apply Z.mod_small. lia.
Qed.

Lemma binary_to_ascii_value_witness :
  exists out, binary_to_ascii (replicate 12 0) [192; 168; 0; 1] 16 4 = Ret (8, out) /\
    ascii_value 16 (take 8 out) = 3232235521.
Proof.
  destruct (binary_to_ascii_value (replicate 12 0) [192; 168; 0; 1] 16 4 3232235521 8)
    as (out & H1 & _ & H2 & _).
  - repeat constructor; lia.
  - lia.
  - reflexivity.
  - reflexivity.
  - vm_compute; discriminate.
  - exists out. split; [exact H1 | exact H2].
Defined.

(** [converted_length] returns for every base from 2 to 16: the length it
    returns is enough for the number, and below 2^28 it is also minimal. *)
Theorem converted_length_bounds (inbuf : list Z) (base width number : Z)
    (Hin : is_bytes inbuf) (Hbase : 2 <= base <= 16)
    (Hnum : get_number inbuf width = Ret (Some number)) :
  exists power, converted_length inbuf base width = Ret power /\
    1 <= power /\ number < base ^ power /\
    (number < 2 ^ 28 -> power = 1 \/ base ^ (power - 1) <= number).
Proof.
  destruct (column_loop number base Hbase (get_number_range _ _ _ Hin Hnum))
    as (p & Hloop & Hp & Hlt & Hmin).
  exists p. unfold converted_length. destruct (Z.ltb_spec 16 base); [lia|].
  rewrite Hnum. cbn [mbind outcome_bind]. rewrite Hloop. split_and!; try done. lia.
Qed.

Lemma converted_length_bounds_witness :
  exists power, converted_length [1; 0] 10 2 = Ret power /\ 256 < 10 ^ power.
Proof.
  destruct (converted_length_bounds [1; 0] 10 2 256) as (p & H1 & _ & H2 & _).
  - repeat constructor; lia.
  - lia.
  - reflexivity.
  - exists p. split; [exact H1 | exact H2].
Defined.

(** The loop of [converted_length] treats a product that wraps to a larger
    value as one more column: the ten-digit 4294967295 is given eleven. *)
Theorem converted_length_wraps : converted_length [255; 255; 255; 255] 10 4 = Ret 11.
Proof. reflexivity. Qed.

(** [getShort] does not sign-extend: it does not invert [putShort]. *)
Theorem getShort_unsigned :
  exists b, putShort [0; 0] (-1) = Ret b /\ getShort b = Ret 65535.
Proof. eexists. split; reflexivity. Qed.

End Convert.
