(* ===== verification/Inet.v ===== *)
(** * Internet addresses (common/inet.c, includes/inet.h)

    A [struct iaddr] is a length and a buffer of sixteen octets, of which the
    first [ia_len] are the address in network order.  Every function is
    modelled on that representation, with the reads and writes of the buffer
    checked; the theorems speak of the number the address denotes
    ([ia_val]).  Automatic variables that the C code leaves uninitialised are
    arguments ([junk]), so the theorems hold for any contents. *)

From stdpp Require Import base list numbers strings pretty.
From Stdlib Require Import ZArith Lia.
From S2P Require Import Prelude.
#[local] Open Scope Z_scope.

Module Inet.

Record iaddr : Type := Iaddr { ia_len : Z; iabuf : list Z }.

Record iaddrmatch : Type := Iaddrmatch { m_addr : iaddr; m_mask : iaddr }.

Record iaddrcidrnet : Type := Cidrnet { lo_addr : iaddr; cidr_bits : Z }.

Inductive isc_result : Type := ISC_R_SUCCESS | ISC_R_NOMEMORY | DHCP_R_INVALIDARG.

Definition sizeof_iabuf : Z := 16.

(** A loop shared by the functions below:
    [for (i = 0; i < n; i++) rv.iabuf[i] = f(a[i], b[i])]. *)
Definition zip_loop (f : Z -> Z -> Z) (n : Z) (a b rv : list Z) : outcome (list Z) :=
  for_up (Z.to_nat n) 0
    (fun i rv => x ← rd a i; y ← rd b i; wr rv i (f x y)) rv.

Definition subnet_number (junk : list Z) (addr mask : iaddr) : outcome iaddr :=
  if sizeof_iabuf <? ia_len addr then Fatal
  else if negb (ia_len addr =? ia_len mask) then Fatal
  else
    buf ← zip_loop Z.land (ia_len addr) (iabuf addr) (iabuf mask) junk;
    Ret (Iaddr (ia_len addr) buf).

(** The loop of [ip_addr] from [i] = [n - 1] down to 0. *)
Fixpoint ip_addr_loop (n : nat) (j : Z) (mask : list Z) (habuf : list Z) (rv : iaddr)
  : outcome iaddr :=
  match n with
  | O => Ret rv
  | S i =>
    m ← rd mask (Z.of_nat i + j);
    h ← rd habuf (Z.of_nat i);
    if negb (m =? 0) then
      if Z.lxor m 255 <? h then Ret (Iaddr 0 (iabuf rv))
      else if existsb (fun hk => negb (hk =? 0)) (take i habuf) then Ret (Iaddr 0 (iabuf rv))
      else
        r ← rd (iabuf rv) (Z.of_nat i + j);
        buf ← wr (iabuf rv) (Z.of_nat i + j) (Z.lor r h);
        Ret (Iaddr (ia_len rv) buf)
    else
      buf ← wr (iabuf rv) (Z.of_nat i + j) h;
      ip_addr_loop i j mask habuf (Iaddr (ia_len rv) buf)
  end.

Definition ip_addr (subnet mask : iaddr) (host_address : Z) : outcome iaddr :=
  if sizeof_iabuf <? ia_len subnet then Fatal
  else if negb (ia_len subnet =? ia_len mask) then Fatal
  else
    let habuf := be_enc 4 host_address in
    ip_addr_loop 4 (ia_len subnet - 4) (iabuf mask) habuf subnet.

Definition broadcast_addr (junk : list Z) (subnet mask : iaddr) : outcome iaddr :=
  if sizeof_iabuf <? ia_len subnet then Fatal
  else if negb (ia_len subnet =? ia_len mask) then Fatal
  else
    buf ← zip_loop (fun s m => Z.lor s (Z.land (Z.lnot m) 255))
            (ia_len subnet) (iabuf subnet) (iabuf mask) junk;
    Ret (Iaddr (ia_len subnet) buf).

Definition host_addr (junk : list Z) (addr mask : iaddr) : outcome Z :=
  if sizeof_iabuf <? ia_len addr then Fatal
  else if negb (ia_len addr =? ia_len mask) then Fatal
  else
    buf ← zip_loop (fun a m => Z.land a (Z.lnot m))
            (ia_len addr) (iabuf addr) (iabuf mask) junk;
    swaddr ← memread buf (ia_len addr - 4) 4;
    Ret (be_val swaddr).

Definition addr_eq (addr1 addr2 : iaddr) : outcome bool :=
  if sizeof_iabuf <? ia_len addr1 then Fatal
  else if negb (ia_len addr1 =? ia_len addr2) then Ret false
  else
    b1 ← memread (iabuf addr1) 0 (ia_len addr1);
    b2 ← memread (iabuf addr2) 0 (ia_len addr1);
    Ret (bool_decide (b1 = b2)).

Fixpoint match_loop (n : nat) (i : Z) (a net mask : list Z) : outcome bool :=
  match n with
  | O => Ret true
  | S n' =>
    x ← rd a i; m ← rd mask i; y ← rd net i;
    if negb (Z.land x m =? y) then Ret false else match_loop n' (i + 1) a net mask
  end.

Definition addr_match (addr : iaddr) (mt : iaddrmatch) : outcome bool :=
  if negb (ia_len addr =? ia_len (m_addr mt)) then Ret false
  else match_loop (Z.to_nat (ia_len addr)) 0 (iabuf addr) (iabuf (m_addr mt)) (iabuf (m_mask mt)).

Fixpoint cmp_loop (n : nat) (i : Z) (a b : list Z) : outcome Z :=
  match n with
  | O => Ret 0
  | S n' =>
    x ← rd a i; y ← rd b i;
    if x <? y then Ret (-1) else if y <? x then Ret 1 else cmp_loop n' (i + 1) a b
  end.

Definition addr_cmp (a1 a2 : iaddr) : outcome Z :=
  if negb (ia_len a1 =? ia_len a2) then Ret 0
  else cmp_loop (Z.to_nat (ia_len a1)) 0 (iabuf a1) (iabuf a2).

(** The loop of [addr_or] and [addr_and], with the [all_zero] flag. *)
Definition flag_loop (f : Z -> Z -> Z) (n : Z) (a b rv : list Z) : outcome (list Z * bool) :=
  for_up (Z.to_nat n) 0
    (fun i '(rv, all_zero) =>
       x ← rd a i; y ← rd b i;
       rv' ← wr rv i (f x y);
       Ret (rv', if f x y =? 0 then all_zero else false)) (rv, true).

(** Both return the flag and the contents of [*result]. *)
Definition addr_or (result a1 a2 : iaddr) : outcome (bool * iaddr) :=
  if negb (ia_len a1 =? ia_len a2) then Ret (false, result)
  else
    r ← flag_loop Z.lor (ia_len a1) (iabuf a1) (iabuf a2) (iabuf result);
    Ret (negb (snd r), Iaddr (ia_len a1) (fst r)).

Definition addr_and (result a1 a2 : iaddr) : outcome (bool * iaddr) :=
  if negb (ia_len a1 =? ia_len a2) then Ret (false, result)
  else
    r ← flag_loop Z.land (ia_len a1) (iabuf a1) (iabuf a2) (iabuf result);
    Ret (negb (snd r), Iaddr (ia_len a1) (fst r)).

(** [for (i = 1; i <= zero_bytes; i++)]: are the low-order octets zero? *)
Fixpoint zero_loop (n : nat) (i : Z) (len : Z) (buf : list Z) : outcome bool :=
  match n with
  | O => Ret true
  | S n' =>
    x ← rd buf (len - i);
    if negb (x =? 0) then Ret false else zero_loop n' (i + 1) len buf
  end.

(** [byte] is a plain [char], which is signed on the supported platforms;
    [>>] on it is the arithmetic shift. *)
Definition is_cidr_mask_valid (addr : iaddr) (bits : Z) : outcome bool :=
  if bits <? 0 then Ret false
  else if ia_len addr * 8 <? bits then Ret false
  else
    let zero_bits := ia_len addr * 8 - bits in
    let zero_bytes := zero_bits / 8 in
    ok ← zero_loop (Z.to_nat zero_bytes) 1 (ia_len addr) (iabuf addr);
    if negb ok then Ret false
    else
      let shift_bits := zero_bits mod 8 in
      if shift_bits =? 0 then Ret true
      else
        x ← rd (iabuf addr) (ia_len addr - zero_bytes - 1);
        let byte := s8 x in
        Ret (Z.shiftl (Z.shiftr byte shift_bits) shift_bits =? byte).

(** ** range2cidr *)

(** [addr.iabuf[ofs]] in the two places where [ofs] can be -1: the octet
    before the buffer is whatever [oob] is. *)
Definition iabuf_read (oob : Z) (buf : list Z) (ofs : Z) : outcome Z :=
  if ofs =? -1 then Ret oob else rd buf ofs.

(** [while ((ofs >= 0) && (tmp > 255))], with [n] = [ofs + 1]. *)
Fixpoint carry_loop (oob : Z) (n : nat) (tmp : Z) (buf : list Z) : outcome (Z * Z * list Z) :=
  match n with
  | O => Ret (-1, tmp, buf)
  | S ofs =>
    if 255 <? tmp then
      buf' ← wr buf (Z.of_nat ofs) (tmp - 256);
      x ← iabuf_read oob buf' (Z.of_nat ofs - 1);
      carry_loop oob ofs (x + 1) buf'
    else Ret (Z.of_nat ofs, tmp, buf)
  end.

Record r2c_state : Type := R2C {
  r_addr : iaddr;
  r_bit : Z;
  r_mask : iaddr;
  r_result : list iaddrcidrnet   (** [*result], newest first *)
}.

Section Range2cidr.
  (** [dmalloc_ok k]: does the [k]-th allocation succeed?  [oob] and [junk]
      stand for memory whose contents are not determined. *)
Context (dmalloc_ok : nat -> bool) (oob : Z) (junk : iaddr) (hi : iaddr).

(** Bitwise-OR the mask with [(1 << bit)]. *)
Definition or_mask_bit (mask : iaddr) (ofs val : Z) : outcome iaddr :=
    if 0 <=? ofs then
      m ← rd (iabuf mask) ofs;
      buf ← wr (iabuf mask) ofs (u8 (Z.lor m val));
      Ret (Iaddr (ia_len mask) buf)
    else Ret mask.

(** See if the network is too big. *)
Definition net_too_big (addr mask : iaddr) (ofs : Z) : outcome bool :=
    end_addr ← addr_or junk addr mask;
    if ofs <? 0 then Ret true
    else
      c ← addr_cmp (snd end_addr) hi;
      if 0 <? c then Ret true
      else nz ← addr_and junk addr mask; Ret (fst nz).

(** The new starting address, [(1 << bit)] further; [None] when it has gone
    past the last address. *)
Definition next_addr (addr : iaddr) (ofs val : Z) : outcome (option iaddr) :=
    x ← iabuf_read oob (iabuf addr) ofs;
    r ← carry_loop oob (Z.to_nat (ofs + 1)) (x + val) (iabuf addr);
    let '(ofs', tmp, buf) := r in
    if ofs' <? 0 then Ret None
    else
      buf' ← wr buf ofs' (u8 tmp);
      Ret (Some (Iaddr (ia_len addr) buf')).

Definition range2cidr_body (s : r2c_state)
    : outcome (r2c_state + (isc_result * list iaddrcidrnet)) :=
    let addr := r_addr s in let bit := r_bit s in let mask := r_mask s in
    c ← addr_cmp addr hi;
    if 0 <? c then Ret (inr (ISC_R_SUCCESS, r_result s))
    else
      let ofs := ia_len addr - bit / 8 - 1 in
      let val := Z.shiftl 1 (bit mod 8) in
      mask' ← or_mask_bit mask ofs val;
      too_big ← net_too_big addr mask' ofs;
      if too_big : bool then
        if negb (dmalloc_ok (length (r_result s))) then Ret (inr (ISC_R_NOMEMORY, []))
        else
          let result' := Cidrnet addr (ia_len addr * 8 - bit) :: r_result s in
          next ← next_addr addr ofs val;
          match next with
          | None => Ret (inr (ISC_R_SUCCESS, result'))
          | Some addr' =>
            Ret (inl (R2C addr' 0 (Iaddr (ia_len mask) (replicate 16 0)) result'))
          end
      else Ret (inl (R2C addr (bit + 1) mask' (r_result s))).

Definition range2cidr_step (s : r2c_state)
    : r2c_state + outcome (isc_result * list iaddrcidrnet) :=
    match range2cidr_body s with
    | Ret (inl s') => inl s'
    | Ret (inr r) => inr (Ret r)
    | Fatal => inr Fatal
    | Undef => inr Undef
    end.

End Range2cidr.

(** The loop has at most [2 ^ 128] addresses to go through and 129 bit
    positions for each, which is below [2 ^ 140]. *)
Definition range2cidr (dmalloc_ok : nat -> bool) (oob : Z) (junk : iaddr)
    (result : option (list iaddrcidrnet)) (lo hi : option iaddr)
    : outcome (isc_result * option (list iaddrcidrnet)) :=
  match result, lo, hi with
  | Some [], Some lo, Some hi =>
    if negb (ia_len lo =? ia_len hi) then Ret (DHCP_R_INVALIDARG, result)
    else
      c ← addr_cmp lo hi;
      let '(lo, hi) := if 0 <? c then (hi, lo) else (lo, hi) in
      match while_log 140 (range2cidr_step dmalloc_ok oob junk hi)
              (R2C lo 0 (Iaddr (ia_len lo) (replicate 16 0)) []) with
      | inr (Ret (r, nets)) => Ret (r, Some nets)
      | inr Fatal => Fatal
      | inr Undef => Undef
      | inl _ => Undef
      end
  | _, _, _ => Ret (DHCP_R_INVALIDARG, result)
  end.

Definition free_iaddrcidrnetlist (result : option (list iaddrcidrnet))
  : isc_result * option (list iaddrcidrnet) :=
  match result with
  | None | Some [] => (DHCP_R_INVALIDARG, result)
  | Some (_ :: _) => (ISC_R_SUCCESS, Some [])
  end.

(** ** Printing *)

(** [inet_ntop] is the C library's: [false] is [AF_INET], [true] [AF_INET6]. *)
Section Print.
Context (inet_ntop : bool -> list Z -> string).

Definition piaddr (addr : iaddr) : outcome string :=
    if ia_len addr =? 0 then Ret "<null address>"%string
    else if ia_len addr =? 4 then Ret (inet_ntop false (take 4 (iabuf addr)))
    else if ia_len addr =? 16 then Ret (inet_ntop true (take 16 (iabuf addr)))
    else Fatal.

Definition piaddrcidr (addr : iaddr) (bits : Z) : outcome (option string) :=
    if ia_len addr * 8 <? bits then Ret None
    else s ← piaddr addr; Ret (Some (s +:+ "/" +:+ pretty bits)%string).

(** One turn of [for (mw = mask->len * 8; mw > 0; )]. *)
Definition mask_width_step (mask : iaddr) (mw : Z) : Z + outcome Z :=
    if mw <=? 0 then inr (Ret mw)
    else
      let oct := (mw - 1) / 8 in
      let bit := Z.shiftr 128 ((mw - 1) mod 8) in
      match rd (iabuf mask) oct with
      | Ret x =>
        if x =? 0 then inl (mw - 8)
        else if negb (Z.land x bit =? 0) then inr (Ret mw)
        else inl (mw - 1)
      | Fatal => inr Fatal
      | Undef => inr Undef
      end.

Definition piaddrmask (addr mask : iaddr) : outcome (option string) :=
    if negb (ia_len addr =? 4) && negb (ia_len addr =? 16) then Fatal
    else if negb (ia_len addr =? ia_len mask) then Fatal
    else
      match while_log 8 (mask_width_step mask) (ia_len mask * 8) with
      | inr (Ret mw) => if mw <? 0 then Fatal else piaddrcidr addr mw
      | inr Fatal => Fatal
      | inr Undef => Undef
      | inl _ => Undef
      end.

End Print.

(** ** What an address denotes *)

Definition ia_wf (a : iaddr) : Prop :=
  length (iabuf a) = 16%nat /\ is_bytes (iabuf a) /\ 0 <= ia_len a <= 16.
#[export] Instance ia_wf_dec a : Decision (ia_wf a).
Proof. unfold ia_wf. apply _. Defined.

Definition ia_bytes (a : iaddr) : list Z := take (Z.to_nat (ia_len a)) (iabuf a).
Definition ia_val (a : iaddr) : Z := be_val (ia_bytes a).

(** The netmask of [p] bits for an address of [len] octets. *)
Definition prefix_mask (len p : Z) : Z := 2 ^ (8 * len) - 2 ^ (8 * len - p).

(** -1, 0 or 1 as [memcmp]-style comparisons return it. *)
Definition sgn_cmp (x y : Z) : Z := Z.sgn (x - y).

(** ** Lemmas on the loops *)

Lemma ia_bytes_length a : ia_wf a -> length (ia_bytes a) = Z.to_nat (ia_len a).
Proof. intros (? & _ & ?). unfold ia_bytes. rewrite length_take. lia. Qed.

Lemma ia_bytes_bytes a : ia_wf a -> is_bytes (ia_bytes a).
Proof. intros (_ & ? & _). by apply is_bytes_take. Qed.

Lemma ia_val_range a : ia_wf a -> 0 <= ia_val a < 2 ^ (8 * ia_len a).
Proof.
  intros H. pose proof (be_val_range _ (ia_bytes_bytes a H)) as R.
  unfold Zlen in R. rewrite ia_bytes_length in R by done.
  destruct H as (_ & _ & ?). rewrite Z2Nat.id, pow256_eq in R by lia. exact R.
Qed.

Lemma zip_loop_spec f n a b rv :
  0 <= n -> n <= Zlen a -> n <= Zlen b -> n <= Zlen rv ->
  exists rv', zip_loop f n a b rv = Ret rv' /\ length rv' = length rv /\
    take (Z.to_nat n) rv' = zip_with f (take (Z.to_nat n) a) (take (Z.to_nat n) b) /\
    drop (Z.to_nat n) rv' = drop (Z.to_nat n) rv.
Proof.
  intros Hn Ha Hb Hr. unfold zip_loop.
  destruct (for_up_inv (fun k rv' => length rv' = length rv /\
     take (Z.to_nat k) rv' = zip_with f (take (Z.to_nat k) a) (take (Z.to_nat k) b) /\
     drop (Z.to_nat k) rv' = drop (Z.to_nat k) rv)
     (Z.to_nat n) 0 (fun i rv => x ← rd a i; y ← rd b i; wr rv i (f x y)) rv)
    as (rv' & -> & H); [by rewrite !take_0| |].
  - intros k s Hk (Hl & Ht & Hd). rewrite Z2Nat.id in Hk by lia.
    rewrite !rd_in by lia. cbn [mbind outcome_bind].
    rewrite wrA_in by (unfold Zlen in *; lia). eexists. split; [done|].
    rewrite length_insert. split; [done|].
    rewrite Z2Nat.inj_add by lia. change (Z.to_nat 1) with 1%nat. rewrite Nat.add_1_r. split.
    + rewrite (take_S_r a _ _ (lookup_nthZ a k ltac:(lia))).
      rewrite (take_S_r b _ _ (lookup_nthZ b k ltac:(lia))).
      rewrite zip_with_app by (rewrite !length_take; unfold Zlen in *; lia).
      erewrite take_S_r by (apply list_lookup_insert_eq; unfold Zlen in *; lia).
      rewrite take_insert_ge by lia. by rewrite Ht.
    + rewrite drop_insert_lt by lia. by rewrite !(drop_S_drop _ (Z.to_nat k)), Hd.
  - exists rv'. rewrite Z.add_0_l, Nat2Z.id in H. tauto.
Qed.

Lemma flag_loop_spec f n a b rv :
  0 <= n -> n <= Zlen a -> n <= Zlen b -> n <= Zlen rv ->
  exists rv', flag_loop f n a b rv = Ret (rv', forallb (Z.eqb 0) (take (Z.to_nat n) rv')) /\
    length rv' = length rv /\
    take (Z.to_nat n) rv' = zip_with f (take (Z.to_nat n) a) (take (Z.to_nat n) b) /\
    drop (Z.to_nat n) rv' = drop (Z.to_nat n) rv.
Proof.
  intros Hn Ha Hb Hr. unfold flag_loop.
  destruct (for_up_inv (fun k '(rv', z) => length rv' = length rv /\
     take (Z.to_nat k) rv' = zip_with f (take (Z.to_nat k) a) (take (Z.to_nat k) b) /\
     drop (Z.to_nat k) rv' = drop (Z.to_nat k) rv /\
     z = forallb (Z.eqb 0) (take (Z.to_nat k) rv'))
     (Z.to_nat n) 0 (fun i '(rv, all_zero) =>
       x ← rd a i; y ← rd b i; rv' ← wr rv i (f x y);
       Ret (rv', if f x y =? 0 then all_zero else false)) (rv, true))
    as ([rv' z] & -> & H); [by rewrite !take_0| |].
  - intros k [s z] Hk (Hl & Ht & Hd & ->). rewrite Z2Nat.id in Hk by lia.
    rewrite !rd_in by lia. cbn [mbind outcome_bind].
    rewrite wrA_in by (unfold Zlen in *; lia). eexists. split; [done|]. cbv beta iota.
    rewrite length_insert. split; [done|].
    rewrite Z2Nat.inj_add by lia. change (Z.to_nat 1) with 1%nat. rewrite Nat.add_1_r.
    rewrite (take_S_r a _ _ (lookup_nthZ a k ltac:(lia))).
    rewrite (take_S_r b _ _ (lookup_nthZ b k ltac:(lia))).
    rewrite zip_with_app by (rewrite !length_take; unfold Zlen in *; lia).
    erewrite take_S_r by (apply list_lookup_insert_eq; unfold Zlen in *; lia).
    rewrite take_insert_ge by lia. rewrite forallb_app, Ht. split; [done|].
    split; [rewrite drop_insert_lt by lia; by rewrite !(drop_S_drop _ (Z.to_nat k)), Hd|].
    cbn [forallb]. rewrite andb_true_r, (Z.eqb_sym 0).
    by destruct (f _ _ =? 0); rewrite ?andb_true_r, ?andb_false_r.
  - rewrite Z.add_0_l, Nat2Z.id in H. destruct H as (? & ? & ? & ->). exists rv'. tauto.
Qed.

Lemma all_zero_be_val l :
  is_bytes l -> forallb (Z.eqb 0) l = (be_val l =? 0).
Proof.
  induction 1 as [|b l Hb Hl IH]; [done|]. cbn [forallb be_val]. rewrite IH.
  pose proof (be_val_range l Hl). unfold is_byte in Hb.
  pose proof (pow256_pos _ (Zlen_nonneg l)).
  destruct (Z.eqb_spec 0 b) as [<-|]; cbn [andb]; [f_equal; lia|].
  symmetry. apply Z.eqb_neq. nia.
Qed.

Lemma drop_nthZ l i : 0 <= i < Zlen l -> drop (Z.to_nat i) l = nthZ l i :: drop (Z.to_nat (i + 1)) l.
Proof.
  intros H. rewrite (drop_S _ _ _ (lookup_nthZ l i H)). f_equal. f_equal. lia.
Qed.

Lemma cmp_loop_spec n i a b :
  is_bytes a -> is_bytes b -> 0 <= i -> i + Z.of_nat n <= Zlen a -> i + Z.of_nat n <= Zlen b ->
  cmp_loop n i a b = Ret (sgn_cmp (be_val (take n (drop (Z.to_nat i) a)))
                                  (be_val (take n (drop (Z.to_nat i) b)))).
Proof.
  intros Ha Hb. revert i. induction n as [|n IH]; intros i Hi Hla Hlb; cbn [cmp_loop].
  { by rewrite !take_0. }
  rewrite !rd_in by lia. cbn [mbind outcome_bind].
  rewrite (drop_nthZ a i), (drop_nthZ b i) by lia. cbn [take].
  assert (length (take n (drop (Z.to_nat (i + 1)) a)) = n) as L1
    by (rewrite length_take, length_drop; unfold Zlen in *; lia).
  assert (length (take n (drop (Z.to_nat (i + 1)) b)) = n) as L2
    by (rewrite length_take, length_drop; unfold Zlen in *; lia).
  unfold sgn_cmp. destruct (Z.ltb_spec (nthZ a i) (nthZ b i)).
  { f_equal. symmetry. apply Z.sgn_neg_iff.
    pose proof (be_val_lex [] (nthZ a i) (take n (drop (Z.to_nat (i + 1)) a))
                 [] (nthZ b i) (take n (drop (Z.to_nat (i + 1)) b))) as Hlt.
    cbn [app] in Hlt. specialize (Hlt ltac:(auto with dhcp) ltac:(auto with dhcp) ltac:(lia) eq_refl
      ltac:(auto with dhcp) ltac:(auto with dhcp) ltac:(lia)). lia. }
  destruct (Z.ltb_spec (nthZ b i) (nthZ a i)).
  { f_equal. symmetry. apply Z.sgn_pos_iff.
    pose proof (be_val_lex [] (nthZ b i) (take n (drop (Z.to_nat (i + 1)) b))
                 [] (nthZ a i) (take n (drop (Z.to_nat (i + 1)) a))) as Hlt.
    cbn [app] in Hlt. specialize (Hlt ltac:(auto with dhcp) ltac:(auto with dhcp) ltac:(lia) eq_refl
      ltac:(auto with dhcp) ltac:(auto with dhcp) ltac:(lia)). lia. }
  rewrite IH by lia. unfold sgn_cmp. cbn [be_val]. unfold Zlen. rewrite L1, L2.
  replace (nthZ b i) with (nthZ a i) by lia. do 2 f_equal. lia.
Qed.

Lemma addr_cmp_val a b :
  ia_wf a -> ia_wf b -> ia_len a = ia_len b ->
  addr_cmp a b = Ret (sgn_cmp (ia_val a) (ia_val b)).
Proof.
  intros (La & Ba & Ra) (Lb & Bb & Rb) E. unfold addr_cmp. rewrite E, Z.eqb_refl. cbn [negb].
  rewrite cmp_loop_spec by (unfold Zlen; done || lia).
  unfold ia_val, ia_bytes. rewrite E. done.
Qed.

Lemma addr_bitop f r a b :
  ia_wf r -> ia_wf a -> ia_wf b -> ia_len a = ia_len b ->
  (forall x y, is_byte x -> is_byte y -> is_byte (f x y)) ->
  (forall l1 l2, is_bytes l1 -> is_bytes l2 -> length l1 = length l2 ->
     be_val (zip_with f l1 l2) = f (be_val l1) (be_val l2)) ->
  exists buf, flag_loop f (ia_len a) (iabuf a) (iabuf b) (iabuf r) =
      Ret (buf, ia_val (Iaddr (ia_len a) buf) =? 0) /\
    ia_wf (Iaddr (ia_len a) buf) /\
    ia_val (Iaddr (ia_len a) buf) = f (ia_val a) (ia_val b).
Proof.
  intros (Lr & Br & Rr) Ha Hb E Hf Hz. pose proof (ia_bytes_length a Ha) as La'.
  pose proof (ia_bytes_length b Hb) as Lb'.
  pose proof (ia_bytes_bytes a Ha) as Ba'. pose proof (ia_bytes_bytes b Hb) as Bb'.
  destruct Ha as (La & Ba & Ra), Hb as (Lb & Bb & Rb).
  destruct (flag_loop_spec f (ia_len a) (iabuf a) (iabuf b) (iabuf r)) as (buf & -> & Hl & Ht & Hd);
    [unfold Zlen; lia..|].
  unfold ia_bytes in *. rewrite <- E in *.
  exists buf. unfold ia_val, ia_bytes. cbn [ia_len iabuf]. rewrite E.
  rewrite E in Ht. rewrite Ht. rewrite <- E. rewrite <- E in Ht.
  assert (is_bytes (zip_with f (take (Z.to_nat (ia_len a)) (iabuf a))
                               (take (Z.to_nat (ia_len a)) (iabuf b)))) as Hbz
    by (by apply is_bytes_zip_with).
  rewrite all_zero_be_val by done. split_and!; [done| |apply Hz; [done..|congruence]].
  split_and!; cbn [ia_len iabuf]; [congruence| |lia..].
  rewrite <- (take_drop (Z.to_nat (ia_len a)) buf), Ht, Hd. apply is_bytes_app. auto with dhcp.
Qed.

(** An address stored back: [take] sees a write below the length. *)
Lemma ia_val_insert len buf i v :
  length buf = 16%nat -> len <= 16 -> 0 <= i < len ->
  ia_val (Iaddr len (<[Z.to_nat i := v]> buf)) =
  ia_val (Iaddr len buf) + (v - nthZ buf i) * 256 ^ (len - 1 - i).
Proof.
  intros Hl Hlen Hi. unfold ia_val, ia_bytes. cbn [ia_len iabuf].
  assert (Zlen (take (Z.to_nat len) buf) = len) as E by (unfold Zlen; rewrite length_take; lia).
  rewrite take_insert_lt by lia. rewrite be_val_insert by lia. rewrite E.
  unfold nthZ. rewrite !nth_lookup, lookup_take_lt by lia. done.
Qed.

Lemma ia_nth a i :
  ia_wf a -> 0 <= i < ia_len a -> nthZ (iabuf a) i = (ia_val a / 256 ^ (ia_len a - 1 - i)) mod 256.
Proof.
  intros (Hl & Hb & Hr) Hi. unfold ia_val, ia_bytes.
  assert (Zlen (take (Z.to_nat (ia_len a)) (iabuf a)) = ia_len a) as E
    by (unfold Zlen; rewrite length_take; lia).
  transitivity (nthZ (take (Z.to_nat (ia_len a)) (iabuf a)) i).
  - unfold nthZ. rewrite !nth_lookup, lookup_take_lt by lia. done.
  - rewrite nthZ_be_val, E by (auto with dhcp || lia). done.
Qed.

Lemma ia_wf_insert len buf i v :
  ia_wf (Iaddr len buf) -> is_byte v -> ia_wf (Iaddr len (<[i := v]> buf)).
Proof.
  intros (Hl & Hb & Hr) Hv. unfold ia_wf in *. cbn [ia_len iabuf] in *.
  rewrite length_insert. split_and!; try done; try lia. by apply is_bytes_insert.
Qed.

Lemma lxor_255 m : is_byte m -> Z.lxor m 255 = 255 - m.
Proof.
  intros H. apply Z.eqb_eq.
  by apply (byte_forall (fun m => Z.lxor m 255 =? 255 - m)).
Qed.

Lemma lnot_255 m : is_byte m -> Z.land (Z.lnot m) 255 = 255 - m.
Proof.
  intros H. apply Z.eqb_eq.
  by apply (byte_forall (fun m => Z.land (Z.lnot m) 255 =? 255 - m)).
Qed.

(** The octet of a prefix mask at [k] octets from the low end. *)
Lemma prefix_octet len h k :
  0 <= h <= 8 * len -> 0 <= k < len ->
  (8 * (k + 1) <= h -> (2 ^ (8 * len) - 2 ^ h) / 256 ^ k mod 256 = 0) /\
  (8 * k <= h < 8 * (k + 1) -> (2 ^ (8 * len) - 2 ^ h) / 256 ^ k mod 256 = 256 - 2 ^ (h - 8 * k)).
Proof.
  intros Hh Hk. rewrite pow256_eq by lia.
  assert (forall e, 8 * k <= e -> 2 ^ e = 2 ^ (e - 8 * k) * 2 ^ (8 * k)) as Hsp.
  { intros e He. rewrite <- Z.pow_add_r by lia. f_equal. lia. }
  split; intros Hc; rewrite (Hsp (8 * len)), (Hsp h), <- Z.mul_sub_distr_r by lia;
    rewrite Z.div_mul by (apply Z.pow_nonzero; lia);
    assert (forall e, 8 <= e -> 2 ^ e = 2 ^ (e - 8) * 256) as H8
      by (intros e He; change 256 with (2 ^ 8); rewrite <- Z.pow_add_r by lia; f_equal; lia);
    rewrite (H8 (8 * len - 8 * k)) by lia.
  - rewrite (H8 (h - 8 * k)), <- Z.mul_sub_distr_r by lia. apply Z.mod_mul. lia.
  - assert (0 < 2 ^ (h - 8 * k) < 256).
    { split; [apply Z.pow_pos_nonneg; lia|]. change 256 with (2 ^ 8). apply Z.pow_lt_mono_r; lia. }
    replace (2 ^ (8 * len - 8 * k - 8) * 256 - 2 ^ (h - 8 * k))
      with (256 - 2 ^ (h - 8 * k) + (2 ^ (8 * len - 8 * k - 8) - 1) * 256) by lia.
    rewrite Z.mod_add, Z.mod_small by lia. done.
Qed.

(** The octets the loop of [ip_addr] reads [k] places from the low end. *)
Lemma host_octet host i :
  0 <= host < 2 ^ 32 -> (i < 4)%nat ->
  nthZ (be_enc 4 host) (Z.of_nat i) = (host / 256 ^ (3 - Z.of_nat i)) mod 256.
Proof.
  intros Hhost Hi.
  rewrite nthZ_be_val by (auto with dhcp || unfold Zlen; rewrite be_enc_length; lia).
  unfold Zlen. rewrite be_enc_length, be_val_enc.
  rewrite (Z.mod_small host) by (change (256 ^ Z.of_nat 4) with (2 ^ 32); lia).
  repeat f_equal; lia.
Qed.

Lemma host_upper host i :
  0 <= host < 2 ^ 32 -> (i < 4)%nat ->
  existsb (fun hk => negb (hk =? 0)) (take i (be_enc 4 host)) =
  negb (host <? 256 ^ (4 - Z.of_nat i)).
Proof.
  intros Hhost Hi.
  assert (forall l, existsb (fun hk => negb (hk =? 0)) l = negb (forallb (Z.eqb 0) l)) as Hneg.
  { induction l as [|x l IH]; [done|]. cbn [existsb forallb]. rewrite IH, (Z.eqb_sym 0), negb_andb. done. }
  rewrite Hneg, all_zero_be_val by auto with dhcp. f_equal.
  rewrite be_val_take by (rewrite ?be_enc_length; auto with dhcp; lia).
  unfold Zlen. rewrite be_enc_length, be_val_enc.
  rewrite (Z.mod_small host) by (change (256 ^ Z.of_nat 4) with (2 ^ 32); lia).
  change (Z.of_nat 4) with 4. pose proof (pow256_pos (4 - Z.of_nat i) ltac:(lia)) as Hp.
  destruct (Z.ltb_spec host (256 ^ (4 - Z.of_nat i))).
  - rewrite Z.div_small by lia. done.
  - apply Z.eqb_neq. enough (1 <= host / 256 ^ (4 - Z.of_nat i)) by lia.
    apply Z.div_le_lower_bound; lia.
Qed.

(** The octet of an aligned number combined with host bits below its
    alignment. *)
Lemma lor_aligned_octet v h k hb :
  0 <= k -> 8 * k <= h < 8 * (k + 1) -> v mod 2 ^ h = 0 -> 0 <= hb < 2 ^ (h - 8 * k) ->
  Z.lor ((v / 256 ^ k) mod 256) hb = (v / 256 ^ k) mod 256 + hb.
Proof.
  intros Hk Hh Hv Hhb. apply (lor_disjoint _ _ (h - 8 * k)); [lia| |done].
  assert (v = v / 2 ^ h * 2 ^ h) as E.
  { rewrite (Z.div_mod v (2 ^ h)) at 1 by (apply Z.pow_nonzero; lia). lia. }
  replace (2 ^ h) with (2 ^ (h - 8 * k) * 256 ^ k) in E
    by (rewrite pow256_eq, <- Z.pow_add_r by lia; f_equal; lia).
  rewrite E, Z.mul_assoc, Z.div_mul by (apply Z.pow_nonzero; lia).
  rewrite Z.mod_mod_divide; [apply Z.mod_mul, Z.pow_nonzero; lia|].
  exists (2 ^ (8 * (k + 1) - h)). change 256 with (2 ^ 8). rewrite <- Z.pow_add_r by lia. f_equal. lia.
Qed.

Lemma aligned_octet v h k :
  0 <= k -> 8 * (k + 1) <= h -> v mod 2 ^ h = 0 -> (v / 256 ^ k) mod 256 = 0.
Proof.
  intros Hk Hh Hv. rewrite (Z.div_mod v (2 ^ h)), Hv, Z.add_0_r by (apply Z.pow_nonzero; lia).
  replace (2 ^ h) with (2 ^ (h - 8 * (k + 1)) * 256 * 256 ^ k).
  - replace (2 ^ (h - 8 * (k + 1)) * 256 * 256 ^ k * (v / (2 ^ (h - 8 * (k + 1)) * 256 * 256 ^ k)))
      with (2 ^ (h - 8 * (k + 1)) * (v / (2 ^ (h - 8 * (k + 1)) * 256 * 256 ^ k)) * 256 * 256 ^ k)
      by lia.
    rewrite Z.div_mul by (apply Z.pow_nonzero; lia). apply Z.mod_mul. lia.
  - rewrite pow256_eq by lia. change 256 with (2 ^ 8). rewrite <- !Z.pow_add_r by lia. f_equal. lia.
Qed.

(** The loop of [ip_addr] after [k] low-order octets have been filled in. *)
Section IpAddrLoop.
Context (subnet mask : iaddr) (host h : Z).
Hypothesis mask_wf : ia_wf mask.
Hypothesis same_len : ia_len mask = ia_len subnet.
Hypothesis len_ge_4 : 4 <= ia_len subnet.
Hypothesis h_range : 0 <= h <= 8 * ia_len subnet.
Hypothesis mask_val : ia_val mask = 2 ^ (8 * ia_len subnet) - 2 ^ h.
Hypothesis subnet_aligned : ia_val subnet mod 2 ^ h = 0.
Hypothesis host_range : 0 <= host < 2 ^ 32.

Lemma mask_octet k :
    0 <= k < ia_len subnet ->
    nthZ (iabuf mask) (ia_len subnet - 1 - k) =
    (2 ^ (8 * ia_len subnet) - 2 ^ h) / 256 ^ k mod 256.
  Proof.
    intros Hk. rewrite ia_nth by (done || lia). rewrite mask_val. repeat f_equal; lia.
  Qed.

Lemma ip_addr_loop_spec n rv :
    (n <= 4)%nat -> 8 * (4 - Z.of_nat n) <= h ->
    ia_wf rv -> ia_len rv = ia_len subnet ->
    ia_val rv = ia_val subnet + host mod 256 ^ (4 - Z.of_nat n) ->
    exists r, ip_addr_loop n (ia_len subnet - 4) (iabuf mask) (be_enc 4 host) rv = Ret r /\
      (host < 2 ^ h -> ia_wf r /\ ia_len r = ia_len subnet /\ ia_val r = ia_val subnet + host) /\
      (2 ^ h <= host -> ia_len r = 0).
  Proof.
    revert rv. induction n as [|i IH]; intros rv Hn Hlow Hrv Lrv Vrv; cbn [ip_addr_loop].
    { exists rv. split; [done|]. change (4 - Z.of_nat 0) with 4 in *.
      assert (2 ^ 32 <= 2 ^ h) by (apply Z.pow_le_mono_r; lia).
      rewrite Vrv, Z.mod_small by (change (256 ^ 4) with (2 ^ 32); lia). split; [done|lia]. }
    pose proof mask_wf as (Lm & Bm & Rm). pose proof Hrv as (Lr & Br & Rr).
    set (k := 3 - Z.of_nat i) in *.
    replace (4 - Z.of_nat (S i)) with k in * by (subst k; lia).
    assert (Z.of_nat i + (ia_len subnet - 4) = ia_len subnet - 1 - k) as -> by (subst k; lia).
    rewrite (rd_in (iabuf mask)) by (unfold Zlen; lia). cbn [mbind outcome_bind].
    rewrite (rd_in (be_enc 4 host)) by (unfold Zlen; rewrite be_enc_length; lia).
    rewrite (rd_in (iabuf rv)) by (unfold Zlen; lia). cbn [mbind outcome_bind].
    rewrite !wrA_in by (unfold Zlen; lia). cbn [mbind outcome_bind].
    rewrite mask_octet, host_octet, host_upper by lia. fold k.
    replace (4 - Z.of_nat i) with (k + 1) by (subst k; lia).
    pose proof (pow256_pos k ltac:(lia)) as HPk.
    assert (host mod 256 ^ (k + 1) = host mod 256 ^ k + (host / 256 ^ k) mod 256 * 256 ^ k) as Hmod.
    { rewrite Z.pow_add_r, Z.rem_mul_r by lia. change (256 ^ 1) with 256. lia. }
    assert (is_byte ((host / 256 ^ k) mod 256)) as Hhb by (apply Z.mod_pos_bound; lia).
    assert (nthZ (iabuf rv) (ia_len subnet - 1 - k) = (ia_val subnet / 256 ^ k) mod 256) as Hrd.
    { rewrite ia_nth by (done || lia). rewrite Vrv.
      replace (ia_len rv - 1 - (ia_len subnet - 1 - k)) with k by lia. f_equal.
      assert (ia_val subnet mod 256 ^ k = 0) as H0.
      { rewrite pow256_eq by lia. apply Z.mod_divide; [apply Z.pow_nonzero; lia|].
        apply Z.divide_trans with (2 ^ h); [|apply Z.mod_divide; [apply Z.pow_nonzero; lia|done]].
        exists (2 ^ (h - 8 * k)). rewrite <- Z.pow_add_r by lia. f_equal. lia. }
      rewrite (Z.div_mod (ia_val subnet) (256 ^ k)) at 1 by lia.
      rewrite H0, Z.add_0_r, Z.mul_comm, Z.add_comm, Z.div_add, Z.div_small by
        (try apply Z.mod_pos_bound; lia). done. }
    destruct (prefix_octet (ia_len subnet) h k h_range ltac:(lia)) as [Hzero Hpart].
    destruct (Z.le_gt_cases (8 * (k + 1)) h) as [Hge|Hlt].
    - rewrite Hzero by lia. cbn [Z.eqb negb].
      apply IH; cbn [ia_len]; rewrite ?Lrv; try lia.
      + rewrite <- Lrv. by apply ia_wf_insert; [destruct rv|].
      + replace (4 - Z.of_nat i) with (k + 1) by (subst k; lia).
        rewrite ia_val_insert, Hrd by lia. rewrite <- Lrv.
        replace (ia_val (Iaddr (ia_len rv) (iabuf rv))) with (ia_val rv) by (by destruct rv).
        rewrite Vrv, Hmod, Lrv. replace (ia_len subnet - 1 - (ia_len subnet - 1 - k)) with k by lia.
        rewrite (aligned_octet (ia_val subnet) h k) by (done || lia). lia.
    - rewrite Hpart by lia. set (e := h - 8 * k) in *.
      assert (2 ^ h = 2 ^ e * 256 ^ k) as Eh.
      { rewrite pow256_eq, <- Z.pow_add_r by (subst e; lia). f_equal. subst e. lia. }
      assert (0 < 2 ^ e < 256) as He.
      { split; [apply Z.pow_pos_nonneg; lia|]. change 256 with (2 ^ 8).
        apply Z.pow_lt_mono_r; subst e; lia. }
      pose proof (Z.div_mod host (256 ^ k) ltac:(lia)) as Hdm.
      assert (0 <= host / 256 ^ k) as Hq0 by (apply Z.div_pos; lia).
      assert ((host / 256 ^ k) mod 256 <= host / 256 ^ k) as Hle by (apply Z.mod_le; lia).
      rewrite Z.pow_add_r by lia. change (256 ^ 1) with 256.
      rewrite (ltb_mul_div host (256 ^ k) 256) by lia.
      pose proof (lt_mul_div host (256 ^ k) (2 ^ e) HPk). rewrite Eh.
      destruct (Z.eqb_spec (256 - 2 ^ e) 0); [lia|]. cbn [negb].
      rewrite lxor_255 by (unfold is_byte; lia). unfold is_byte in Hhb.
      destruct (Z.ltb_spec (255 - (256 - 2 ^ e)) ((host / 256 ^ k) mod 256)) as [Hbig|Hsmall].
      { eexists. split; [done|]. cbn [ia_len]. split; [lia|done]. }
      destruct (Z.ltb_spec (host / 256 ^ k) 256) as [Hup|Hup]; cbn [negb].
      2: { eexists. split; [done|]. cbn [ia_len]. split; [lia|done]. }
      rewrite (Z.mod_small (host / 256 ^ k)) in * by lia.
      eexists. split; [done|]. cbn [ia_len].
      split; [intros _|lia].
      rewrite Hrd, (lor_aligned_octet (ia_val subnet) h) by (done || subst e; lia).
      pose proof (Z.mod_pos_bound (ia_val subnet / 256 ^ k) 256 ltac:(lia)).
      split_and!; [|done|].
      + apply ia_wf_insert; [by destruct rv|].
        rewrite <- (lor_aligned_octet (ia_val subnet) h) by (done || subst e; lia).
        apply lor_byte; unfold is_byte; lia.
      + rewrite ia_val_insert, Hrd by lia.
        replace (ia_val (Iaddr (ia_len rv) (iabuf rv))) with (ia_val rv) by (by destruct rv).
        rewrite Vrv, Lrv. replace (ia_len subnet - 1 - (ia_len subnet - 1 - k)) with k by lia. lia.
  Qed.
End IpAddrLoop.

(** ** Network and host parts *)

Lemma zip_loop_val f op junk a m :
  length junk = 16%nat -> is_bytes junk -> ia_wf a -> ia_wf m -> ia_len a = ia_len m ->
  (forall x y, is_byte x -> is_byte y -> is_byte (f x y)) ->
  (forall l1 l2, is_bytes l1 -> is_bytes l2 -> length l1 = length l2 ->
     be_val (zip_with f l1 l2) = op (Zlen l1) (be_val l1) (be_val l2)) ->
  exists buf, zip_loop f (ia_len a) (iabuf a) (iabuf m) junk = Ret buf /\
    ia_wf (Iaddr (ia_len a) buf) /\
    ia_val (Iaddr (ia_len a) buf) = op (ia_len a) (ia_val a) (ia_val m).
Proof.
  intros Hj Hjb Ha Hm E Hf Hop. pose proof (ia_bytes_length a Ha) as La'.
  pose proof (ia_bytes_length m Hm) as Lm'. pose proof (ia_bytes_bytes a Ha) as Ba'.
  pose proof (ia_bytes_bytes m Hm) as Bm'.
  destruct Ha as (La & Ba & Ra), Hm as (Lm & Bm & Rm).
  destruct (zip_loop_spec f (ia_len a) (iabuf a) (iabuf m) junk) as (buf & -> & Hl & Ht & Hd);
    [unfold Zlen; lia..|].
  unfold ia_bytes in *. rewrite <- E in *.
  exists buf. unfold ia_val, ia_bytes. cbn [ia_len iabuf]. rewrite <- E, Ht.
  split_and!; [done| |].
  { split_and!; cbn [ia_len iabuf]; [congruence| |lia..].
    rewrite <- (take_drop (Z.to_nat (ia_len a)) buf), Ht, Hd. apply is_bytes_app.
    split; [by apply is_bytes_zip_with|auto with dhcp]. }
  rewrite Hop by (done || congruence). f_equal. unfold Zlen. lia.
Qed.

Lemma be_val_map_255 l :
  be_val (map (fun m => 255 - m) l) = 256 ^ Zlen l - 1 - be_val l.
Proof.
  induction l as [|x l IH]; [done|]. cbn [map be_val].
  assert (Zlen (map (fun m => 255 - m) l) = Zlen l) as -> by (unfold Zlen; by rewrite length_map).
  rewrite IH, pow256_cons. lia.
Qed.

Lemma broadcast_octets l1 l2 :
  is_bytes l1 -> is_bytes l2 -> length l1 = length l2 ->
  be_val (zip_with (fun s m => Z.lor s (Z.land (Z.lnot m) 255)) l1 l2) =
  Z.lor (be_val l1) (256 ^ Zlen l1 - 1 - be_val l2).
Proof.
  intros H1 H2 Hl. replace (256 ^ Zlen l1 - 1 - be_val l2)
    with (be_val (map (fun m => 255 - m) l2)) by (rewrite be_val_map_255; unfold Zlen; by rewrite Hl).
  rewrite <- be_val_lor; [|done| |by rewrite length_map].
  - f_equal. revert l1 H1 Hl. induction H2 as [|m l2 Hm H2 IH]; intros [|x l1] H1 Hl; try done.
    apply Forall_cons in H1 as [_ H1]. cbn [zip_with map]. rewrite lnot_255 by done.
    f_equal. apply IH; [done|]. cbn in Hl. lia.
  - apply Forall_map. eapply Forall_impl; [done|]. unfold is_byte. cbn. lia.
Qed.

Lemma host_octets l1 l2 :
  is_bytes l1 -> is_bytes l2 -> length l1 = length l2 ->
  be_val (zip_with (fun a m => Z.land a (Z.lnot m)) l1 l2) = Z.ldiff (be_val l1) (be_val l2).
Proof.
  intros H1 H2 Hl. rewrite <- (be_val_zip Z.ldiff (fun a b => a && negb b)); try done.
  - f_equal. revert l2 H2 Hl. induction H1 as [|x l1 Hx H1 IH]; intros [|y l2] H2 Hl; try done.
    cbn [zip_with]. rewrite Z.ldiff_land. f_equal. apply Forall_cons in H2 as [_ H2].
    apply IH; [done|]. cbn in Hl. lia.
  - apply Z.ldiff_spec.
  - intros. apply Z.ldiff_nonneg. lia.
Qed.

Lemma land_lnot_byte a m : is_byte a -> is_byte m -> is_byte (Z.land a (Z.lnot m)).
Proof.
  unfold is_byte. intros Ha Hm. rewrite <- Z.ldiff_land. change 256 with (2 ^ 8).
  apply (op_pow_range Z.ldiff (fun a b => a && negb b)); try lia; [apply Z.ldiff_spec|].
  intros. apply Z.ldiff_nonneg. lia.
Qed.

Lemma lor_lnot_byte a m : is_byte a -> is_byte m -> is_byte (Z.lor a (Z.land (Z.lnot m) 255)).
Proof. intros Ha Hm. rewrite lnot_255 by done. apply lor_byte; [done|]. unfold is_byte in *. lia. Qed.

Lemma subnet_number_val junk a m :
  length junk = 16%nat -> is_bytes junk -> ia_wf a -> ia_wf m -> ia_len a = ia_len m ->
  exists r, subnet_number junk a m = Ret r /\ ia_len r = ia_len a /\
    ia_wf r /\ ia_val r = Z.land (ia_val a) (ia_val m).
Proof.
  intros Hj Hjb Ha Hm E. unfold subnet_number, sizeof_iabuf.
  pose proof Ha as (_ & _ & Ra). destruct (Z.ltb_spec 16 (ia_len a)); [lia|].
  rewrite <- E, Z.eqb_refl. cbn [negb].
  destruct (zip_loop_val Z.land (fun _ => Z.land) junk a m) as (buf & -> & Hb & Hv);
    auto using land_byte, be_val_land.
  cbn [mbind outcome_bind]. eexists. split; [done|]. done.
Qed.

Lemma broadcast_addr_val junk a m :
  length junk = 16%nat -> is_bytes junk -> ia_wf a -> ia_wf m -> ia_len a = ia_len m ->
  exists r, broadcast_addr junk a m = Ret r /\ ia_len r = ia_len a /\
    ia_wf r /\ ia_val r = Z.lor (ia_val a) (2 ^ (8 * ia_len a) - 1 - ia_val m).
Proof.
  intros Hj Hjb Ha Hm E. unfold broadcast_addr, sizeof_iabuf.
  pose proof Ha as (_ & _ & Ra). destruct (Z.ltb_spec 16 (ia_len a)); [lia|].
  rewrite <- E, Z.eqb_refl. cbn [negb].
  destruct (zip_loop_val (fun s m => Z.lor s (Z.land (Z.lnot m) 255))
    (fun n x y => Z.lor x (256 ^ n - 1 - y)) junk a m) as (buf & -> & Hb & Hv);
    auto using lor_lnot_byte, broadcast_octets.
  cbn [mbind outcome_bind]. eexists. split; [done|]. rewrite pow256_eq in Hv by lia. done.
Qed.

Lemma host_addr_val junk a m :
  length junk = 16%nat -> is_bytes junk -> ia_wf a -> ia_wf m -> ia_len a = ia_len m -> 4 <= ia_len a ->
  host_addr junk a m = Ret (Z.ldiff (ia_val a) (ia_val m) mod 2 ^ 32).
Proof.
  intros Hj Hjb Ha Hm E H4. unfold host_addr, sizeof_iabuf.
  pose proof Ha as (_ & _ & Ra). destruct (Z.ltb_spec 16 (ia_len a)); [lia|].
  rewrite <- E, Z.eqb_refl. cbn [negb].
  destruct (zip_loop_val (fun a m => Z.land a (Z.lnot m)) (fun _ => Z.ldiff) junk a m)
    as (buf & -> & (Hl & Hb & _) & Hv); auto using land_lnot_byte, host_octets.
  cbn [iabuf] in Hl, Hb.
  cbn [mbind outcome_bind]. rewrite memread_in by (unfold Zlen; lia). cbn [mbind outcome_bind].
  rewrite <- Hv. unfold ia_val, ia_bytes. cbn [ia_len iabuf]. f_equal.
  assert (take (Z.to_nat 4) (drop (Z.to_nat (ia_len a - 4)) buf) =
          drop (Z.to_nat (ia_len a - 4)) (take (Z.to_nat (ia_len a)) buf)) as ->.
  { rewrite take_drop_commute. do 2 f_equal. lia. }
  rewrite be_val_drop by (auto with dhcp; rewrite length_take; lia).
  f_equal. unfold Zlen. rewrite length_take, Hl.
  replace (Z.of_nat (Z.to_nat (ia_len a) `min` 16) - Z.of_nat (Z.to_nat (ia_len a - 4))) with 4 by lia.
  done.
Qed.

(** ** CIDR blocks *)

Lemma zero_loop_val n k a :
  ia_wf a -> 0 <= k -> k + Z.of_nat n <= ia_len a ->
  zero_loop n (k + 1) (ia_len a) (iabuf a) =
  Ret ((ia_val a / 256 ^ k) mod 256 ^ Z.of_nat n =? 0).
Proof.
  intros Ha. pose proof Ha as (La & Ba & Ra). revert k.
  induction n as [|n IH]; intros k Hk Hn; cbn [zero_loop].
  { change (256 ^ Z.of_nat 0) with 1. by rewrite Z.mod_1_r. }
  rewrite rd_in by (unfold Zlen; lia). cbn [mbind outcome_bind].
  rewrite ia_nth by (done || lia). replace (ia_len a - 1 - (ia_len a - (k + 1))) with k by lia.
  rewrite Nat2Z.inj_succ, Z.pow_succ_r, Z.rem_mul_r by (try apply pow256_pos; lia).
  rewrite Z.div_div by (try apply Z.pow_nonzero; lia).
  replace (256 ^ k * 256) with (256 ^ (k + 1)) by (rewrite Z.pow_add_r; lia).
  rewrite IH by lia.
  pose proof (Z.mod_pos_bound (ia_val a / 256 ^ k) 256 ltac:(lia)).
  pose proof (Z.mod_pos_bound (ia_val a / 256 ^ (k + 1)) (256 ^ Z.of_nat n)
                ltac:(apply pow256_pos; lia)).
  destruct (Z.eqb_spec ((ia_val a / 256 ^ k) mod 256) 0) as [->|]; cbn [negb]; f_equal; lia.
Qed.

Lemma shift_back x s : is_byte x -> 0 <= s < 8 ->
  (Z.shiftl (Z.shiftr (s8 x) s) s =? s8 x) = (x mod 2 ^ s =? 0).
Proof.
  intros Hx Hs. assert (s = 0 \/ s = 1 \/ s = 2 \/ s = 3 \/ s = 4 \/ s = 5 \/ s = 6 \/ s = 7) as C by lia.
  apply Bool.eqb_prop.
  repeat destruct C as [->|C]; try subst s; revert x Hx;
  match goal with |- forall x, is_byte x -> eqb (Z.shiftl (Z.shiftr (s8 x) ?s) ?s =? s8 x) _ = true =>
    apply (byte_forall (fun x => eqb (Z.shiftl (Z.shiftr (s8 x) s) s =? s8 x) (x mod 2 ^ s =? 0)))
  end; vm_compute; reflexivity.
Qed.

Lemma is_cidr_mask_valid_val a bits :
  ia_wf a -> 0 <= bits <= 8 * ia_len a ->
  is_cidr_mask_valid a bits = Ret (ia_val a mod 2 ^ (8 * ia_len a - bits) =? 0).
Proof.
  intros Ha Hb. unfold is_cidr_mask_valid. pose proof Ha as (La & Ba & Ra).
  destruct (Z.ltb_spec bits 0); [lia|]. destruct (Z.ltb_spec (ia_len a * 8) bits); [lia|].
  replace (ia_len a * 8 - bits) with (8 * ia_len a - bits) by lia.
  set (z := 8 * ia_len a - bits). assert (0 <= z <= 8 * ia_len a) as Hz by (subst z; lia).
  pose proof (Z.div_mod z 8 ltac:(lia)) as Hdm. pose proof (Z.mod_pos_bound z 8 ltac:(lia)) as Hs.
  set (q := z / 8) in *. set (r := z mod 8) in *.
  replace 1 with (0 + 1) at 1 by lia. rewrite zero_loop_val by (done || lia).
  cbn [mbind outcome_bind]. change (256 ^ 0) with 1. rewrite Z.div_1_r, Z2Nat.id by lia.
  assert (2 ^ z = 256 ^ q * 2 ^ r) as Ez
    by (rewrite pow256_eq, <- Z.pow_add_r by lia; f_equal; lia).
  rewrite Ez, Z.rem_mul_r by (try apply Z.pow_nonzero; try apply Z.pow_pos_nonneg; lia).
  pose proof (Z.mod_pos_bound (ia_val a) (256 ^ q) ltac:(apply pow256_pos; lia)) as R1.
  pose proof (Z.mod_pos_bound (ia_val a / 256 ^ q) (2 ^ r) ltac:(apply Z.pow_pos_nonneg; lia)) as R2.
  pose proof (pow256_pos q ltac:(lia)) as R3.
  destruct (Z.eqb_spec (ia_val a mod 256 ^ q) 0) as [E0|E0]; cbn [negb].
  2: { f_equal. symmetry. apply Z.eqb_neq. nia. }
  rewrite E0, Z.add_0_l.
  assert ((256 ^ q * ((ia_val a / 256 ^ q) mod 2 ^ r) =? 0) = ((ia_val a / 256 ^ q) mod 2 ^ r =? 0)) as ->
    by (destruct (Z.eqb_spec ((ia_val a / 256 ^ q) mod 2 ^ r) 0) as [->|]; [lia|apply Z.eqb_neq; nia]).
  destruct (Z.eqb_spec r 0) as [E|E]; [by rewrite E, Z.mod_1_r|].
  rewrite rd_in by (unfold Zlen; lia). cbn [mbind outcome_bind].
  rewrite shift_back by (auto with dhcp || lia). rewrite ia_nth by (done || lia).
  replace (ia_len a - 1 - (ia_len a - q - 1)) with q by lia.
  rewrite Z.mod_mod_divide; [done|].
  exists (2 ^ (8 - r)). change 256 with (2 ^ 8). rewrite <- Z.pow_add_r by lia. f_equal. lia.
Qed.

(** The carry propagates an addition through the octets above. *)
Lemma carry_loop_spec oob n v buf tmp :
  is_bytes buf -> (n <= length buf)%nat -> 1 <= v <= 255 ->
  (n = 0%nat \/ tmp = nthZ buf (Z.of_nat n - 1) + v) ->
  exists ofs tmp' buf', carry_loop oob n tmp buf = Ret (ofs, tmp', buf') /\
    length buf' = length buf /\ is_bytes buf' /\
    ((0 <= ofs < Z.of_nat n /\ is_byte tmp' /\
      be_val (take n (<[Z.to_nat ofs := tmp']> buf')) = be_val (take n buf) + v /\
      drop n buf' = drop n buf) \/
     (ofs = -1 /\ 256 ^ Z.of_nat n <= be_val (take n buf) + v)).
Proof.
  revert v buf tmp. induction n as [|i IH]; intros v buf tmp Hb Hn Hv Htmp; cbn [carry_loop].
  { eexists _, _, _. split_and!; [done..|]. right. change (256 ^ Z.of_nat 0) with 1.
    rewrite take_0. cbn [be_val]. lia. }
  destruct Htmp as [| ->]; [lia|]. rewrite Nat2Z.inj_succ. replace (Z.succ (Z.of_nat i) - 1) with (Z.of_nat i) by lia.
  set (x := nthZ buf (Z.of_nat i)). assert (is_byte x) as Hx by (apply nthZ_byte, Hb).
  assert (buf !! i = Some x) as Hi.
  { pose proof (lookup_nthZ buf (Z.of_nat i) ltac:(unfold Zlen; lia)) as H'. by rewrite Nat2Z.id in H'. }
  rewrite (take_S_r _ _ _ Hi), be_val_snoc.
  unfold is_byte in Hx. destruct (Z.ltb_spec 255 (x + v)) as [Hc|Hc].
  - rewrite wrA_in by (unfold Zlen; lia). cbn [mbind outcome_bind]. rewrite Nat2Z.id.
    assert (is_bytes (<[i:=x + v - 256]> buf)) as Hb' by (apply is_bytes_insert; [done|unfold is_byte; lia]).
    assert (exists y, iabuf_read oob (<[i:=x + v - 256]> buf) (Z.of_nat i - 1) = Ret y /\
       (i = 0%nat \/ y = nthZ (<[i:=x + v - 256]> buf) (Z.of_nat i - 1))) as (y & -> & Hy).
    { unfold iabuf_read. destruct (Z.eqb_spec (Z.of_nat i - 1) (-1)); [exists oob; split; [done|lia]|].
      rewrite rd_in by (rewrite Zlen_insert; unfold Zlen; lia). eauto. }
    cbn [mbind outcome_bind].
    destruct (IH 1 (<[i:=x + v - 256]> buf) (y + 1)) as (ofs & tmp' & buf' & -> & Hl & Hbb & Hcase);
      [done|rewrite length_insert; lia|lia|destruct Hy as [| ->]; [by left|by right]|].
    rewrite length_insert in Hl. rewrite !(take_insert_ge buf) in Hcase by lia.
    eexists _, _, _. split; [done|]. split_and!; [done..|].
    rewrite Z.pow_succ_r by lia.
    destruct Hcase as [(Ho & Ht & Hv' & Hd)|(Ho & Hov)]; [left|right; lia].
    assert (buf' !! i = Some (x + v - 256)) as Hi'.
    { rewrite <- (Nat.add_0_r i), <- lookup_drop, Hd, lookup_drop, Nat.add_0_r.
      apply list_lookup_insert_eq. lia. }
    split_and!; try lia; [done| |].
    + erewrite take_S_r by (rewrite list_lookup_insert_ne by lia; exact Hi').
      rewrite be_val_snoc, Hv'. lia.
    + rewrite !(drop_S_drop _ i), Hd, <- !drop_S_drop, drop_insert_lt by lia. done.
  - eexists _, _, _. split; [done|]. split_and!; [done..|]. left. rewrite Nat2Z.id.
    split_and!; try done; try lia; [unfold is_byte; lia|].
    erewrite take_S_r by (apply list_lookup_insert_eq; lia).
    rewrite take_insert_ge, be_val_snoc by lia. lia.
Qed.

(** The list of networks, newest first, tiles [[lo, e)] with blocks of width
    [w]: every block is aligned, starts where the rest ends, and none could be
    doubled without being misaligned or passing [hi]. *)
Fixpoint tiles (w hi lo : Z) (nets : list iaddrcidrnet) (e : Z) : Prop :=
  match nets with
  | [] => e = lo
  | n :: rest =>
    let a := ia_val (lo_addr n) in
    let k := w - cidr_bits n in
    ia_wf (lo_addr n) /\ 8 * ia_len (lo_addr n) = w /\ 0 <= cidr_bits n <= w /\
    a + 2 ^ k = e /\ a mod 2 ^ k = 0 /\
    (k = w \/ a mod 2 ^ (k + 1) <> 0 \/ hi < a + 2 ^ (k + 1) - 1) /\
    tiles w hi lo rest a
  end.

Definition in_net (x : Z) (n : iaddrcidrnet) : Prop :=
  ia_val (lo_addr n) <= x < ia_val (lo_addr n) + 2 ^ (8 * ia_len (lo_addr n) - cidr_bits n).

Lemma tiles_le w hi lo nets e : tiles w hi lo nets e -> lo <= e.
Proof.
  revert e. induction nets as [|n nets IH]; intros e; cbn [tiles]; [lia|].
  intros (_ & _ & ? & <- & _ & _ & Hr). apply IH in Hr.
  pose proof (Z.pow_pos_nonneg 2 (w - cidr_bits n) ltac:(lia) ltac:(lia)). lia.
Qed.

Lemma tiles_cover w hi lo nets e x :
  tiles w hi lo nets e -> lo <= x < e <-> Exists (in_net x) nets.
Proof.
  revert e. induction nets as [|n nets IH]; intros e; cbn [tiles].
  { intros ->. rewrite Exists_nil. lia. }
  intros (_ & Hl & ? & <- & _ & _ & Hr). rewrite Exists_cons, <- (IH _ Hr). unfold in_net.
  rewrite Hl. pose proof (tiles_le _ _ _ _ _ Hr). lia.
Qed.

(** The octet that the loop sets in the mask. *)
Lemma mask_bit_octet bit :
  0 <= bit ->
  ((2 ^ bit - 1) / 256 ^ (bit / 8)) mod 256 = 2 ^ (bit mod 8) - 1 /\
  Z.lor (2 ^ (bit mod 8) - 1) (Z.shiftl 1 (bit mod 8)) = 2 ^ (bit mod 8 + 1) - 1 /\
  is_byte (2 ^ (bit mod 8 + 1) - 1) /\
  Z.shiftl 1 (bit mod 8) * 256 ^ (bit / 8) = 2 ^ bit /\
  1 <= Z.shiftl 1 (bit mod 8) <= 128.
Proof.
  intros Hb. pose proof (Z.div_mod bit 8 ltac:(lia)) as E.
  pose proof (Z.mod_pos_bound bit 8 ltac:(lia)) as R.
  assert (0 <= bit / 8) as Q by (apply Z.div_pos; lia).
  rewrite Z.shiftl_1_l. set (q := bit / 8) in *. set (r := bit mod 8) in *.
  assert (2 ^ r * 256 ^ q = 2 ^ bit) as Ep
    by (rewrite pow256_eq, <- Z.pow_add_r by lia; f_equal; lia).
  pose proof (pow256_pos q Q) as HP.
  assert (1 <= 2 ^ r <= 128) as Hr.
  { split; [pose proof (Z.pow_pos_nonneg 2 r); lia|]. change 128 with (2 ^ 7). apply Z.pow_le_mono_r; lia. }
  rewrite (Z.pow_add_r 2 r 1) by lia. change (2 ^ 1) with 2.
  split_and!; try (unfold is_byte; lia).
  - rewrite <- Ep. replace (2 ^ r * 256 ^ q - 1) with (256 ^ q - 1 + (2 ^ r - 1) * 256 ^ q) by lia.
    rewrite Z.div_add, Z.div_small, Z.add_0_l, Z.mod_small by lia. done.
  - rewrite Z.lor_comm, (lor_disjoint _ _ r); [lia|lia|apply Z.mod_same; lia|lia].
Qed.

Lemma ia_val_split len n buf :
  Z.of_nat n <= len -> len <= Zlen buf ->
  ia_val (Iaddr len buf) =
  be_val (take n buf) * 256 ^ (len - Z.of_nat n) +
  be_val (take (Z.to_nat (len - Z.of_nat n)) (drop n buf)).
Proof.
  intros Hn Hl. unfold ia_val, ia_bytes. cbn [ia_len iabuf].
  replace (Z.to_nat len) with (n + Z.to_nat (len - Z.of_nat n))%nat by lia.
  rewrite <- take_take_drop, be_val_app. f_equal. f_equal. f_equal.
  unfold Zlen in *. rewrite length_take, length_drop. lia.
Qed.

Lemma be_val_replicate_0 n : be_val (replicate n 0) = 0.
Proof. induction n as [|n IH]; [done|]. cbn [replicate be_val]. rewrite IH. lia. Qed.

(** One turn of the loop of [range2cidr]. *)
Section Range2cidrStep.
Context (dmalloc_ok : nat -> bool) (oob : Z) (junk hi : iaddr) (lo : Z).
Hypothesis junk_wf : ia_wf junk.
Hypothesis hi_wf : ia_wf hi.
Let L := ia_len hi.

Lemma or_mask_bit_spec mask bit :
  ia_wf mask -> ia_len mask = L -> ia_val mask = 2 ^ bit - 1 -> 0 <= bit <= 8 * L ->
  exists mask', or_mask_bit mask (L - bit / 8 - 1) (Z.shiftl 1 (bit mod 8)) = Ret mask' /\
    ia_wf mask' /\ ia_len mask' = L /\
    (bit < 8 * L -> ia_val mask' = 2 ^ (bit + 1) - 1).
Proof.
  intros Hm El Ev Hbit. pose proof Hm as (Lm & Bm & Rm). unfold or_mask_bit.
  destruct (mask_bit_octet bit ltac:(lia)) as (E1 & E2 & E3 & E4 & E5).
  assert (0 <= bit / 8) by (apply Z.div_pos; lia).
  destruct (Z.leb_spec 0 (L - bit / 8 - 1)) as [Ho|Ho].
  - rewrite rd_in by (unfold Zlen; lia). cbn [mbind outcome_bind].
    rewrite wrA_in by (unfold Zlen; lia). cbn [mbind outcome_bind].
    assert (nthZ (iabuf mask) (L - bit / 8 - 1) = 2 ^ (bit mod 8) - 1) as En.
    { rewrite ia_nth by (done || lia). rewrite Ev, El.
      by replace (L - 1 - (L - bit / 8 - 1)) with (bit / 8) by lia. }
    rewrite En, E2, u8_small by done. eexists. split; [done|]. cbn [ia_len].
    split_and!; [by apply ia_wf_insert; [destruct mask|]|done|]. intros _.
    rewrite ia_val_insert, En by lia.
    replace (ia_val (Iaddr (ia_len mask) (iabuf mask))) with (ia_val mask) by (by destruct mask).
    rewrite Ev, El. replace (L - 1 - (L - bit / 8 - 1)) with (bit / 8) by lia.
    rewrite !Z.pow_add_r by (try apply Z.mod_pos_bound; lia).
    rewrite Z.shiftl_1_l in E4. lia.
  - eexists. split; [done|]. split_and!; [done..|]. intros.
    exfalso. pose proof (Z.div_lt_upper_bound bit 8 L). lia.
Qed.

Lemma net_too_big_spec addr mask bit :
  ia_wf addr -> ia_len addr = L -> ia_wf mask -> ia_len mask = L -> 0 <= bit <= 8 * L ->
  (bit < 8 * L -> ia_val mask = 2 ^ (bit + 1) - 1) ->
  exists b, net_too_big junk hi addr mask (L - bit / 8 - 1) = Ret b /\
    if b then bit = 8 * L \/ ia_val addr mod 2 ^ (bit + 1) <> 0 \/
              ia_val hi < ia_val addr + 2 ^ (bit + 1) - 1
    else bit < 8 * L /\ ia_val addr mod 2 ^ (bit + 1) = 0 /\
         ia_val addr + 2 ^ (bit + 1) - 1 <= ia_val hi.
Proof.
  intros Ha Ela Hm Elm Hbit Hval. unfold net_too_big, addr_or, addr_and.
  rewrite Ela, Elm, Z.eqb_refl. cbn [negb]. rewrite <- Ela.
  destruct (addr_bitop Z.lor junk addr mask) as (b1 & -> & Hw1 & V1);
    auto using lor_byte, be_val_lor; [lia|]. cbn [mbind outcome_bind fst snd].
  destruct (addr_bitop Z.land junk addr mask) as (b2 & -> & Hw2 & V2);
    auto using land_byte, be_val_land; [lia|]. cbn [mbind outcome_bind fst snd].
  pose proof (Z.div_mod bit 8 ltac:(lia)). pose proof (Z.mod_pos_bound bit 8 ltac:(lia)).
  rewrite Ela in *.
  destruct (Z.ltb_spec (L - bit / 8 - 1) 0); [exists true; split; [done|left; lia]|].
  specialize (Hval ltac:(lia)). rewrite Hval in *.
  rewrite addr_cmp_val by (done || cbn [ia_len]; fold L; lia). cbn [mbind outcome_bind].
  rewrite V1. unfold sgn_cmp.
  pose proof (Z.pow_pos_nonneg 2 (bit + 1) ltac:(lia) ltac:(lia)).
  assert (Z.land (ia_val addr) (2 ^ (bit + 1) - 1) = ia_val addr mod 2 ^ (bit + 1)) as Eland
    by (rewrite Z.sub_1_r, <- Z.ones_equiv; apply Z.land_ones; lia).
  assert (ia_val addr mod 2 ^ (bit + 1) = 0 ->
          Z.lor (ia_val addr) (2 ^ (bit + 1) - 1) = ia_val addr + (2 ^ (bit + 1) - 1)) as Elor
    by (intros; apply (lor_disjoint _ _ (bit + 1)); lia).
  destruct (Z.ltb_spec 0 (Z.sgn (Z.lor (ia_val addr) (2 ^ (bit + 1) - 1) - ia_val hi))).
  { exists true. split; [done|]. lia. }
  eexists. split; [done|]. rewrite V2, Eland.
  destruct (Z.eqb_spec (ia_val addr mod 2 ^ (bit + 1)) 0) as [E0|]; cbn [negb]; [|by auto].
  rewrite (Elor E0) in *. lia.
Qed.

Lemma next_addr_spec addr bit :
  ia_wf addr -> ia_len addr = L -> 0 <= bit <= 8 * L ->
  ia_val addr + 2 ^ bit <= 2 ^ (8 * L) ->
  exists r, next_addr oob addr (L - bit / 8 - 1) (Z.shiftl 1 (bit mod 8)) = Ret r /\
    match r with
    | None => ia_val addr + 2 ^ bit = 2 ^ (8 * L)
    | Some addr' => ia_wf addr' /\ ia_len addr' = L /\ ia_val addr' = ia_val addr + 2 ^ bit
    end.
Proof.
  intros Ha El Hbit Hle. pose proof Ha as (La & Ba & Ra). unfold next_addr.
  destruct (mask_bit_octet bit ltac:(lia)) as (_ & _ & _ & E4 & E5).
  pose proof (Z.div_mod bit 8 ltac:(lia)). pose proof (Z.mod_pos_bound bit 8 ltac:(lia)).
  set (q := bit / 8) in *. set (val := Z.shiftl 1 (bit mod 8)) in *.
  assert (exists x, iabuf_read oob (iabuf addr) (L - q - 1) = Ret x /\
     (Z.to_nat (L - q - 1 + 1) = 0%nat \/
      x + val = nthZ (iabuf addr) (Z.of_nat (Z.to_nat (L - q - 1 + 1)) - 1) + val))
    as (x & -> & Hx).
  { unfold iabuf_read. destruct (Z.eqb_spec (L - q - 1) (-1)); [exists oob; split; [done|left; lia]|].
    rewrite rd_in by (unfold Zlen; lia). eexists. split; [done|]. right. f_equal. f_equal. lia. }
  cbn [mbind outcome_bind].
  set (n := Z.to_nat (L - q - 1 + 1)) in *. assert (Z.of_nat n = L - q) as En by lia.
  destruct (carry_loop_spec oob n val (iabuf addr) (x + val))
    as (ofs & tmp & buf & -> & Hl & Hb & Hc); [done|lia|lia|done|]. cbn [mbind outcome_bind].
  pose proof (ia_val_split L n (iabuf addr) ltac:(lia) ltac:(unfold Zlen; lia)) as Hsplit.
  replace (ia_val (Iaddr L (iabuf addr))) with (ia_val addr) in Hsplit by (rewrite <- El; by destruct addr).
  rewrite En in Hsplit. replace (L - (L - q)) with q in Hsplit by lia.
  destruct Hc as [(Ho & Ht & Hv & Hd)|(-> & Hov)].
  - destruct (Z.ltb_spec ofs 0); [lia|].
    rewrite wrA_in by (unfold Zlen; lia). cbn [mbind outcome_bind].
    eexists. split; [done|]. cbn [ia_len]. rewrite u8_small by done.
    split_and!; [|done|].
    + apply ia_wf_insert; [|done]. split_and!; cbn [ia_len iabuf]; [lia|done|lia..].
    + rewrite El, (ia_val_split L n) by (unfold Zlen; rewrite ?length_insert; lia).
      rewrite En, Hv, drop_insert_lt, Hd by lia. replace (L - (L - q)) with q by lia. lia.
  - cbn. eexists. split; [done|]. cbn.
    pose proof (be_val_range (take (Z.to_nat q) (drop n (iabuf addr))) ltac:(auto with dhcp)).
    assert (2 ^ (8 * L) = 256 ^ Z.of_nat n * 256 ^ q) as Ep
      by (rewrite <- Z.pow_add_r, pow256_eq by lia; f_equal; lia).
    pose proof (pow256_pos q ltac:(lia)). nia.
Qed.

Definition r2c_inv (s : r2c_state) : Prop :=
  ia_wf (r_addr s) /\ ia_len (r_addr s) = L /\
  ia_wf (r_mask s) /\ ia_len (r_mask s) = L /\ ia_val (r_mask s) = 2 ^ r_bit s - 1 /\
  0 <= r_bit s <= 8 * L /\ ia_val (r_addr s) mod 2 ^ r_bit s = 0 /\
  (ia_val (r_addr s) + 2 ^ r_bit s <= ia_val hi + 1 \/
   r_bit s = 0 /\ ia_val (r_addr s) = ia_val hi + 1) /\
  tiles (8 * L) (ia_val hi) lo (r_result s) (ia_val (r_addr s)).

Definition r2c_measure (s : r2c_state) : Z :=
  (ia_val hi + 1 - ia_val (r_addr s)) * (8 * L + 2) + (8 * L + 1 - r_bit s).

Definition r2c_post (r : outcome (isc_result * list iaddrcidrnet)) : Prop :=
  match r with
  | Ret (ISC_R_SUCCESS, nets) => tiles (8 * L) (ia_val hi) lo nets (ia_val hi + 1)
  | Ret (ISC_R_NOMEMORY, nets) => nets = [] /\ exists k, dmalloc_ok k = false
  | _ => False
  end.

Lemma range2cidr_step_spec s :
  r2c_inv s ->
  match range2cidr_step dmalloc_ok oob junk hi s with
  | inl s' => r2c_inv s' /\ 0 <= r2c_measure s' < r2c_measure s
  | inr r => r2c_post r
  end.
Proof.
  destruct s as [addr bit mask res]. unfold r2c_inv, r2c_measure. cbn [r_addr r_bit r_mask r_result].
  intros (Ha & Ela & Hm & Elm & Vm & Hbit & Hal & Hfit & Ht).
  pose proof (ia_val_range hi hi_wf) as Rhi. fold L in Rhi.
  pose proof hi_wf as (_ & _ & RL). fold L in RL.
  unfold range2cidr_step, range2cidr_body. cbn [r_addr r_bit r_mask r_result].
  rewrite addr_cmp_val by (done || lia). cbn [mbind outcome_bind]. unfold sgn_cmp.
  pose proof (Z.pow_pos_nonneg 2 bit ltac:(lia) ltac:(lia)) as Hp.
  destruct (Z.ltb_spec 0 (Z.sgn (ia_val addr - ia_val hi))) as [Hgt|Hle].
  { cbn. by replace (ia_val hi + 1) with (ia_val addr) by lia. }
  rewrite Ela. destruct (or_mask_bit_spec mask bit) as (mask' & -> & Hm' & Elm' & Vm'); [done..|].
  cbn [mbind outcome_bind].
  destruct (net_too_big_spec addr mask' bit) as (tb & -> & Htb); [done..|]. cbn [mbind outcome_bind].
  destruct tb.
  - destruct (dmalloc_ok (length res)) eqn:Ealloc; cbn [negb]; [|split; [done|by eexists]].
    destruct (next_addr_spec addr bit) as (nx & -> & Hnx); [done..|lia|]. cbn [mbind outcome_bind].
    assert (tiles (8 * L) (ia_val hi) lo (Cidrnet addr (L * 8 - bit) :: res) (ia_val addr + 2 ^ bit)) as Ht'.
    { cbn [tiles lo_addr cidr_bits]. replace (8 * L - (L * 8 - bit)) with bit by lia.
      split_and!; [done|lia..|done|done|done]. }
    destruct nx as [addr'|].
    + destruct Hnx as (Ha' & Ela' & Va'). cbn [r_addr r_bit r_mask r_result].
      assert (ia_wf (Iaddr (ia_len mask) (replicate 16 0))) as Hz.
      { split_and!; cbn [ia_len iabuf]; [done|apply is_bytes_replicate; unfold is_byte; lia|lia..]. }
      rewrite Va'. change (2 ^ 0) with 1. split; [|nia].
      split_and!; try done; try lia; [|by rewrite Z.mod_1_r].
      unfold ia_val, ia_bytes. cbn [ia_len iabuf]. rewrite take_replicate.
      rewrite be_val_replicate_0. done.
    + cbn. replace (ia_val hi + 1) with (ia_val addr + 2 ^ bit) by lia. exact Ht'.
  - destruct Htb as (Hb & Hmod & Hend). cbn [r_addr r_bit r_mask r_result].
    specialize (Vm' Hb). split; [|nia]. split_and!; try done; lia.
Qed.

End Range2cidrStep.

Lemma range2cidr_loop dmalloc_ok oob junk lo hi :
  ia_wf junk -> ia_wf lo -> ia_wf hi -> ia_len lo = ia_len hi -> ia_val lo <= ia_val hi ->
  exists r, while_log 140 (range2cidr_step dmalloc_ok oob junk hi)
    (R2C lo 0 (Iaddr (ia_len lo) (replicate 16 0)) []) = inr r /\
    r2c_post dmalloc_ok hi (ia_val lo) r.
Proof.
  intros Hj Hlo Hhi Hlen Hle.
  apply (while_log_total (r2c_inv hi (ia_val lo)) (r2c_measure hi)).
  - intros s Hs. by apply range2cidr_step_spec.
  - pose proof Hlo as (_ & _ & R). unfold r2c_inv. cbn [r_addr r_bit r_mask r_result tiles].
    change (2 ^ 0) with 1. split_and!; try done; try lia; [| |by rewrite Z.mod_1_r].
    + split_and!; cbn [ia_len iabuf]; [done|apply is_bytes_replicate; unfold is_byte; lia|lia..].
    + unfold ia_val, ia_bytes. cbn [ia_len iabuf]. by rewrite take_replicate, be_val_replicate_0.
  - unfold r2c_measure. cbn [r_addr r_bit].
    pose proof (ia_val_range hi Hhi). pose proof (ia_val_range lo Hlo). pose proof Hhi as (_ & _ & R).
    assert (2 ^ (8 * ia_len hi) <= 2 ^ 128) by (apply Z.pow_le_mono_r; lia).
    change (Z.of_nat 140) with 140. nia.
Qed.

Lemma r2c_post_cases dmalloc_ok lo hi r :
  ia_len lo = ia_len hi -> r2c_post dmalloc_ok hi (ia_val lo) r ->
  exists res, match r with
              | Ret (x, nets) => Ret (x, Some nets) | Fatal => Fatal | Undef => Undef end = Ret res /\
    ((exists nets, res = (ISC_R_SUCCESS, Some nets) /\
        tiles (8 * ia_len lo) (ia_val hi) (ia_val lo) nets (ia_val hi + 1) /\
        forall x, ia_val lo <= x <= ia_val hi <-> Exists (in_net x) nets) \/
     (res = (ISC_R_NOMEMORY, Some []) /\ exists k, dmalloc_ok k = false)).
Proof.
  intros Hlen Hr. destruct r as [[[] nets]| |]; try done; eexists; (split; [done|]).
  - left. exists nets. rewrite Hlen. split_and!; [done..|]. intros x.
    rewrite <- (tiles_cover _ _ _ _ _ x Hr). lia.
  - right. destruct Hr as [-> ?]. done.
Qed.

(** ** Properties *)

(** C26: [range2cidr] returns for every pair of addresses of one length (given in
    either order) and any contents of the octets it reads outside of the
    buffer: either an allocation failed and the list is empty, or the list
    tiles the range exactly with aligned, maximal networks, so an address is
    in the range if and only if it is in a network of the list. *)
Theorem range2cidr_exact (dmalloc_ok : nat -> bool) (oob : Z) (junk lo hi : iaddr)
    (Hj : ia_wf junk) (Hlo : ia_wf lo) (Hhi : ia_wf hi) (Hlen : ia_len lo = ia_len hi) :
  let first := Z.min (ia_val lo) (ia_val hi) in
  let last := Z.max (ia_val lo) (ia_val hi) in
  exists res, range2cidr dmalloc_ok oob junk (Some []) (Some lo) (Some hi) = Ret res /\
    ((exists nets, res = (ISC_R_SUCCESS, Some nets) /\
        tiles (8 * ia_len lo) last first nets (last + 1) /\
        forall x, first <= x <= last <-> Exists (in_net x) nets) \/
     (res = (ISC_R_NOMEMORY, Some []) /\ exists k, dmalloc_ok k = false)).
Proof.
  cbv zeta. unfold range2cidr. rewrite <- Hlen, Z.eqb_refl. cbn [negb].
  rewrite addr_cmp_val by done. cbn [mbind outcome_bind]. unfold sgn_cmp.
  destruct (Z.ltb_spec 0 (Z.sgn (ia_val lo - ia_val hi))) as [Hgt|Hle].
  - rewrite Z.min_r, Z.max_l by lia.
    destruct (range2cidr_loop dmalloc_ok oob junk hi lo) as (r & -> & Hr); [done..|lia|].
    rewrite Hlen. by apply r2c_post_cases.
  - rewrite Z.min_l, Z.max_r by lia.
    destruct (range2cidr_loop dmalloc_ok oob junk lo hi) as (r & -> & Hr); [done..|lia|].
    by apply r2c_post_cases.
Qed.

Lemma range2cidr_exact_witness :
  exists nets,
    range2cidr (fun _ => true) 99 (Iaddr 4 (replicate 16 7)) (Some [])
      (Some (Iaddr 4 ([10; 0; 1; 127] ++ replicate 12 0)))
      (Some (Iaddr 4 ([10; 0; 0; 0] ++ replicate 12 0))) = Ret (ISC_R_SUCCESS, Some nets) /\
    Exists (in_net 167772200) nets.
Proof.
  pose proof (range2cidr_exact (fun _ => true) 99 (Iaddr 4 (replicate 16 7))
    (Iaddr 4 ([10; 0; 1; 127] ++ replicate 12 0)) (Iaddr 4 ([10; 0; 0; 0] ++ replicate 12 0))
    ltac:(decide_true) ltac:(decide_true) ltac:(decide_true) eq_refl) as H.
  destruct H as (res & E & [(nets & Er & _ & Hx)|(_ & k & Hk)]).
  - exists nets. rewrite Er in E. split; [exact E|]. apply Hx. vm_compute. split; discriminate.
  - discriminate Hk.
Defined.

(** [ip_addr] inverts the split of an address into its network and host
    parts: for a network number, a prefix mask and a host number that fits,
    it returns the address whose [subnet_number] is the network and whose
    [host_addr] is the host; for a host number that does not fit it returns
    the address of length 0. *)
Theorem ip_addr_roundtrip (junk : list Z) (subnet mask : iaddr) (p host : Z)
    (Hj : length junk = 16%nat) (Hjb : is_bytes junk) (Hs : ia_wf subnet) (Hm : ia_wf mask)
    (Hlen : ia_len mask = ia_len subnet) (H4 : 4 <= ia_len subnet)
    (Hp : 0 <= p <= 8 * ia_len subnet)
    (Hmask : ia_val mask = prefix_mask (ia_len subnet) p)
    (Hnet : ia_val subnet mod 2 ^ (8 * ia_len subnet - p) = 0)
    (Hhost : 0 <= host < 2 ^ 32) :
  exists r, ip_addr subnet mask host = Ret r /\
    (host < 2 ^ (8 * ia_len subnet - p) ->
       ia_len r = ia_len subnet /\ ia_val r = ia_val subnet + host /\
       host_addr junk r mask = Ret host /\
       exists net, subnet_number junk r mask = Ret net /\ ia_val net = ia_val subnet) /\
    (2 ^ (8 * ia_len subnet - p) <= host -> ia_len r = 0).
Proof.
  set (h := 8 * ia_len subnet - p) in *. unfold ip_addr, sizeof_iabuf.
  pose proof Hs as (_ & _ & Rs). destruct (Z.ltb_spec 16 (ia_len subnet)); [lia|].
  rewrite Hlen, Z.eqb_refl. cbn [negb].
  destruct (ip_addr_loop_spec subnet mask host h Hm Hlen H4 ltac:(subst h; lia) Hmask Hnet Hhost 4 subnet)
    as (r & -> & Hok & Hbad);
    [lia|subst h; lia|done|done|change (256 ^ (4 - Z.of_nat 4)) with 1; rewrite Z.mod_1_r; lia|].
  exists r. split; [done|]. split; [|done]. intros Hfit.
  destruct (Hok Hfit) as (Hr & Lr & Vr). pose proof (ia_val_range r Hr) as Rr. rewrite Lr in Rr.
  assert (ia_val r mod 2 ^ h = host) as Hmod.
  { rewrite Vr, Z.add_mod, Hnet, Z.add_0_l, Z.mod_mod by (apply Z.pow_nonzero; subst h; lia).
    apply Z.mod_small. lia. }
  assert (ia_val mask = 2 ^ (8 * ia_len subnet) - 2 ^ h) as Vm by exact Hmask.
  split_and!; [done..| |].
  - rewrite host_addr_val by (done || lia). rewrite Vm, ldiff_prefix, Hmod by (subst h; lia).
    f_equal. apply Z.mod_small. lia.
  - destruct (subnet_number_val junk r mask) as (net & -> & _ & _ & Vn); [done..|lia|].
    exists net. split; [done|]. rewrite Vn, Vm, land_prefix, Hmod by (subst h; lia). lia.
Qed.

Lemma ip_addr_roundtrip_witness :
  exists r, ip_addr (Iaddr 4 ([192; 168; 4; 0] ++ replicate 12 0))
                    (Iaddr 4 ([255; 255; 252; 0] ++ replicate 12 0)) 513 = Ret r /\
    ia_val r = 3232236544 + 513.
Proof.
  destruct (ip_addr_roundtrip (replicate 16 9) (Iaddr 4 ([192; 168; 4; 0] ++ replicate 12 0))
    (Iaddr 4 ([255; 255; 252; 0] ++ replicate 12 0)) 22 513) as (r & E & Hok & _);
    [reflexivity|decide_true|decide_true|decide_true|reflexivity
    |cbn; lia|cbn; lia|reflexivity|reflexivity|lia|].
  exists r. split; [exact E|]. apply Hok. reflexivity.
Defined.

(** [subnet_number] and [broadcast_addr] return for addresses of one length
    and compute the bitwise and, respectively the or with the complement, of
    the numbers; with a prefix mask these are the first and the last address
    of the network that contains the address. *)
Theorem network_bounds (junk : list Z) (addr mask : iaddr) (p : Z)
    (Hj : length junk = 16%nat) (Hjb : is_bytes junk) (Ha : ia_wf addr) (Hm : ia_wf mask)
    (Hlen : ia_len addr = ia_len mask) (Hp : 0 <= p <= 8 * ia_len addr)
    (Hmask : ia_val mask = prefix_mask (ia_len addr) p) :
  exists net bc, subnet_number junk addr mask = Ret net /\
    broadcast_addr junk net mask = Ret bc /\
    ia_len net = ia_len addr /\ ia_len bc = ia_len addr /\
    ia_val net <= ia_val addr <= ia_val bc /\
    ia_val net mod 2 ^ (8 * ia_len addr - p) = 0 /\
    ia_val bc = ia_val net + 2 ^ (8 * ia_len addr - p) - 1.
Proof.
  set (h := 8 * ia_len addr - p) in *. pose proof (ia_val_range addr Ha) as Ra.
  assert (ia_val mask = 2 ^ (8 * ia_len addr) - 2 ^ h) as Vm by exact Hmask.
  destruct (subnet_number_val junk addr mask) as (net & -> & Ln & Wn & Vn); [done..|].
  destruct (broadcast_addr_val junk net mask) as (bc & Eb & Lb & Wb & Vb); [done..|lia|].
  rewrite Vm, land_prefix in Vn by (subst h; lia).
  assert (ia_val net mod 2 ^ h = 0) as Hal.
  { rewrite Vn, Zminus_mod_idemp_r, Z.sub_diag by (apply Z.pow_nonzero; subst h; lia). apply Zmod_0_l. }
  pose proof (Z.mod_pos_bound (ia_val addr) (2 ^ h) ltac:(apply Z.pow_pos_nonneg; subst h; lia)).
  rewrite Ln, Vm in Vb.
  replace (2 ^ (8 * ia_len addr) - 1 - (2 ^ (8 * ia_len addr) - 2 ^ h)) with (2 ^ h - 1) in Vb by lia.
  rewrite (lor_disjoint _ _ h) in Vb by (subst h; lia).
  exists net, bc. split_and!; try done; lia.
Qed.

Lemma network_bounds_witness :
  exists net bc,
    subnet_number (replicate 16 1) (Iaddr 4 ([10; 1; 77; 3] ++ replicate 12 0))
      (Iaddr 4 ([255; 255; 240; 0] ++ replicate 12 0)) = Ret net /\
    broadcast_addr (replicate 16 1) net (Iaddr 4 ([255; 255; 240; 0] ++ replicate 12 0)) = Ret bc /\
    ia_val bc = ia_val net + 4095.
Proof.
  destruct (network_bounds (replicate 16 1) (Iaddr 4 ([10; 1; 77; 3] ++ replicate 12 0))
    (Iaddr 4 ([255; 255; 240; 0] ++ replicate 12 0)) 20)
    as (net & bc & E1 & E2 & _ & _ & _ & _ & E3);
    [reflexivity|decide_true|decide_true|decide_true|reflexivity|cbn; lia|reflexivity|].
  exists net, bc. split; [exact E1|]. split; [exact E2|]. rewrite E3. cbn [ia_len].
  change (2 ^ (8 * 4 - 20)) with 4096. lia.
Defined.

(** [is_cidr_mask_valid] accepts exactly the prefix lengths of the address
    below which all bits are zero; no length outside of [0, 8 * len] is
    accepted. *)
Theorem is_cidr_mask_valid_iff (addr : iaddr) (bits : Z) (Ha : ia_wf addr) :
  exists b, is_cidr_mask_valid addr bits = Ret b /\
    (b = true <-> 0 <= bits <= 8 * ia_len addr /\
                  ia_val addr mod 2 ^ (8 * ia_len addr - bits) = 0).
Proof.
  destruct (decide (0 <= bits <= 8 * ia_len addr)) as [Hr|Hr].
  - rewrite is_cidr_mask_valid_val by done. eexists. split; [done|]. rewrite Z.eqb_eq. tauto.
  - exists false. split; [|intuition lia || done]. unfold is_cidr_mask_valid.
    destruct (Z.ltb_spec bits 0); [done|]. destruct (Z.ltb_spec (ia_len addr * 8) bits); [done|lia].
Qed.

Lemma is_cidr_mask_valid_iff_witness :
  exists b, is_cidr_mask_valid (Iaddr 4 ([127; 0; 0; 1] ++ replicate 12 0)) 8 = Ret b /\ b = false.
Proof.
  destruct (is_cidr_mask_valid_iff (Iaddr 4 ([127; 0; 0; 1] ++ replicate 12 0)) 8 ltac:(decide_true))
    as (b & E & H).
  exists b. split; [exact E|]. destruct b; [|reflexivity]. destruct H as [H _].
  destruct (H eq_refl) as [_ H']. vm_compute in H'. discriminate H'.
Defined.

(** [addr_cmp] orders addresses of one length by the numbers they denote,
    and [addr_eq] decides their equality. *)
Theorem addr_order (a b : iaddr) (Ha : ia_wf a) (Hb : ia_wf b) (Hlen : ia_len a = ia_len b) :
  addr_cmp a b = Ret (Z.sgn (ia_val a - ia_val b)) /\
  addr_eq a b = Ret (ia_val a =? ia_val b).
Proof.
  split; [by apply addr_cmp_val|]. unfold addr_eq, sizeof_iabuf.
  pose proof Ha as (La & Ba & Ra). pose proof Hb as (Lb & Bb & Rb).
  destruct (Z.ltb_spec 16 (ia_len a)); [lia|]. rewrite Hlen, Z.eqb_refl. cbn [negb].
  rewrite !memread_in by (unfold Zlen; lia). cbn [mbind outcome_bind].
  change (drop (Z.to_nat 0) (iabuf a)) with (iabuf a). change (drop (Z.to_nat 0) (iabuf b)) with (iabuf b).
  f_equal. fold (ia_bytes b). rewrite <- Hlen. fold (ia_bytes a). unfold ia_val.
  destruct (Z.eqb_spec (be_val (ia_bytes a)) (be_val (ia_bytes b))) as [E|E].
  - apply bool_decide_true. apply be_val_inj; auto using ia_bytes_bytes.
    rewrite !ia_bytes_length by done. by rewrite Hlen.
  - apply bool_decide_false. congruence.
Qed.

Lemma addr_order_witness :
  addr_cmp (Iaddr 4 ([10; 0; 0; 9] ++ replicate 12 0)) (Iaddr 4 ([10; 0; 1; 0] ++ replicate 12 5)) = Ret (-1).
Proof.
  destruct (addr_order (Iaddr 4 ([10; 0; 0; 9] ++ replicate 12 0))
    (Iaddr 4 ([10; 0; 1; 0] ++ replicate 12 5)) ltac:(decide_true) ltac:(decide_true) eq_refl) as [H _].
  exact H.
Defined.

End Inet.
