(* ===== verification/Heap.v ===== *)
(** * Priority queues (common/heap.c)

    The binary heap that orders the leases of an IPv6 pool by expiry.  Slot 0
    of the array is unused, so the parent of slot [i] is [i / 2].  The array
    keeps its allocated size and its uninitialised slots ([None]); an access
    outside of it, or the use of an uninitialised slot as an element, is
    [Undef], and a failed [REQUIRE] or [INSIST] is [Fatal].  [size],
    [size_increment], [last] and the indices are unsigned int: the two additions
    that can exceed it wrap ([uint_add]).  The [index]
    callback is modelled by the map [heap_index] from elements to the last
    index reported for them. *)

From stdpp Require Import base list numbers gmap.
From Stdlib Require Import Lia.
From S2P Require Import Prelude.

Module Heap.

Inductive isc_result : Type := ISC_R_SUCCESS | ISC_R_NOMEMORY.

Definition SIZE_INCREMENT : nat := 1024.

(** The sum of two unsigned int. *)
Definition uint_add (a b : nat) : nat := Z.to_nat (u32 (Z.of_nat a + Z.of_nat b)).

Lemma uint_add_small a b : (Z.of_nat a + Z.of_nat b < 2 ^ 32)%Z -> uint_add a b = a + b.
Proof. intros Hs. unfold uint_add. rewrite u32_small by lia. lia. Qed.

Definition heap_parent (i : nat) : nat := i / 2.
Definition heap_left (i : nat) : nat := 2 * i.

Section Operations.
Context {A : Type} `{Countable A}.

Record isc_heap : Type := IscHeap {
  size : nat;
  size_increment : nat;
  last : nat;
  array : list (option A);
  has_index : bool;             (** [heap->index != NULL] *)
  heap_index : gmap A nat       (** what the callback has recorded *)
}.

(** [compare] reads the elements' current priorities. *)
Context (compare : A -> A -> bool).

Definition slot (arr : list (option A)) (i : nat) : outcome A :=
  match arr !! i with
  | Some (Some x) => Ret x
  | _ => Undef
  end.

Definition set_slot (arr : list (option A)) (i : nat) (x : A) : outcome (list (option A)) :=
  if bool_decide (i < length arr)%nat then Ret (<[i := Some x]> arr) else Undef.

(** [if (heap->index != NULL) (heap->index)(x, i)] *)
Definition note_index (hi : bool) (m : gmap A nat) (x : A) (i : nat) : gmap A nat :=
  if hi then <[x := i]> m else m.

Definition with_array (h : isc_heap) (arr : list (option A)) (m : gmap A nat) : isc_heap :=
  IscHeap (size h) (size_increment h) (last h) arr (has_index h) m.

Definition with_last (h : isc_heap) (n : nat) : isc_heap :=
  IscHeap (size h) (size_increment h) n (array h) (has_index h) (heap_index h).

Definition isc_heap_create (alloc : bool) (index : bool) (size_inc : nat)
  : isc_result * option isc_heap :=
  if alloc then
    (ISC_R_SUCCESS,
     Some (IscHeap 0 (if Nat.eqb size_inc 0 then SIZE_INCREMENT else size_inc) 0 [] index ∅))
  else (ISC_R_NOMEMORY, None).

Definition isc_heap_destroy (h : isc_heap) : option isc_heap := None.

(** A new size that has wrapped is too small for the slots that are copied. *)
Definition resize (alloc : bool) (h : isc_heap) : outcome (bool * isc_heap) :=
  if alloc then
    let new_size := uint_add (size h) (size_increment h) in
    if Nat.leb (length (array h)) new_size then
      Ret (true, IscHeap new_size (size_increment h) (last h)
                   (array h ++ replicate (new_size - length (array h)) None)
                   (has_index h) (heap_index h))
    else Undef
  else Ret (false, h).

Definition HEAPCONDITION (arr : list (option A)) (i : nat) : outcome bool :=
  if Nat.eqb i 1 then Ret true
  else x ← slot arr i; y ← slot arr (heap_parent i); Ret (negb (compare x y)).

Definition INSIST (b : outcome bool) : outcome unit :=
  ok ← b; if ok : bool then Ret tt else Fatal.

(** The [for] loop of [float_up]; [i] halves at every turn, so [i] itself is
    enough fuel. *)
Fixpoint float_up_loop (fuel : nat) (hi : bool) (arr : list (option A)) (m : gmap A nat)
    (i : nat) (elt : A) : outcome (list (option A) * gmap A nat * nat) :=
  if Nat.ltb 1 i then
    match fuel with
    | O => Undef
    | S fuel' =>
      y ← slot arr (heap_parent i);
      if compare elt y then
        arr' ← set_slot arr i y;
        float_up_loop fuel' hi arr' (note_index hi m y i) (heap_parent i) elt
      else Ret (arr, m, i)
    end
  else Ret (arr, m, i).

(** The common end of [float_up] and [sink_down]. *)
Definition place (h : isc_heap) (r : list (option A) * gmap A nat * nat) (elt : A)
  : outcome isc_heap :=
  let '(arr, m, i) := r in
  arr' ← set_slot arr i elt;
  _ ← INSIST (HEAPCONDITION arr' i);
  Ret (with_array h arr' (note_index (has_index h) m elt i)).

Definition float_up (h : isc_heap) (i : nat) (elt : A) : outcome isc_heap :=
  r ← float_up_loop i (has_index h) (array h) (heap_index h) i elt;
  place h r elt.

(** The [while (i <= half_size)] loop of [sink_down]; [i] at least doubles,
    so [size] turns are enough. *)
Fixpoint sink_down_loop (fuel : nat) (hi : bool) (arr : list (option A)) (m : gmap A nat)
    (sz i : nat) (elt : A) : outcome (list (option A) * gmap A nat * nat) :=
  if Nat.leb i (sz / 2) then
    match fuel with
    | O => Undef
    | S fuel' =>
      let j := heap_left i in
      j' ← (if Nat.ltb j sz then
              x ← slot arr (j + 1); y ← slot arr j;
              Ret (if compare x y then j + 1 else j)
            else Ret j);
      y ← slot arr j';
      if compare elt y then Ret (arr, m, i)
      else
        arr' ← set_slot arr i y;
        sink_down_loop fuel' hi arr' (note_index hi m y i) sz j' elt
    end
  else Ret (arr, m, i).

Definition sink_down (h : isc_heap) (i : nat) (elt : A) : outcome isc_heap :=
  r ← sink_down_loop (last h) (has_index h) (array h) (heap_index h) (last h) i elt;
  place h r elt.

Definition isc_heap_insert (alloc : bool) (h : isc_heap) (elt : A)
  : outcome (isc_result * isc_heap) :=
  let i := uint_add (last h) 1 in
  let h1 := with_last h i in
  r ← (if Nat.leb (size h1) (last h1) then resize alloc h1 else Ret (true, h1));
  let '(ok, h2) := r in
  if ok : bool then h3 ← float_up h2 i elt; Ret (ISC_R_SUCCESS, h3)
  else Ret (ISC_R_NOMEMORY, h2).

Definition isc_heap_delete (h : isc_heap) (index : nat) : outcome isc_heap :=
  if negb (Nat.leb 1 index && Nat.leb index (last h)) then Fatal
  else if Nat.eqb index (last h) then Ret (with_last h (last h - 1))
  else
    elt ← slot (array h) (last h);
    let h1 := with_last h (last h - 1) in
    x ← slot (array h1) index;
    let less := compare elt x in
    arr ← set_slot (array h1) index elt;
    let h2 := with_array h1 arr (heap_index h1) in
    if less then float_up h2 index elt else sink_down h2 index elt.

Definition isc_heap_increased (h : isc_heap) (index : nat) : outcome isc_heap :=
  if negb (Nat.leb 1 index && Nat.leb index (last h)) then Fatal
  else elt ← slot (array h) index; float_up h index elt.

Definition isc_heap_decreased (h : isc_heap) (index : nat) : outcome isc_heap :=
  if negb (Nat.leb 1 index && Nat.leb index (last h)) then Fatal
  else elt ← slot (array h) index; sink_down h index elt.

Definition isc_heap_element (h : isc_heap) (index : nat) : outcome A :=
  if negb (Nat.leb 1 index && Nat.leb index (last h)) then Fatal
  else slot (array h) index.

(** [for (i = 1; i <= heap->last; i++) (action)(heap->array[i], uap)], with
    the state the action works on passed along. *)
Fixpoint foreach_loop {S} (n i : nat) (arr : list (option A)) (action : A -> S -> S) (s : S)
  : outcome S :=
  match n with
  | O => Ret s
  | Datatypes.S n' => x ← slot arr i; foreach_loop n' (i + 1) arr action (action x s)
  end.

Definition isc_heap_foreach {S} (h : isc_heap) (action : A -> S -> S) (s : S) : outcome S :=
  foreach_loop (last h) 1 (array h) action s.

(** ** Invariants *)

(** The elements of the heap, in array order. *)
Definition contents (h : isc_heap) : list (option A) := take (last h) (drop 1 (array h)).

Definition at_slot (arr : list (option A)) (i : nat) (x : A) : Prop := arr !! i = Some (Some x).

(** Sizes for which the array can grow while it has less than 2^31 elements.  (With
    an increment of 1 the first element would be written outside of the array.) *)
Definition sizes_ok (h : isc_heap) : Prop :=
  2 <= size_increment h /\ (Z.of_nat (size_increment h) <= 2 ^ 31)%Z /\ (Z.of_nat (size h) < 2 ^ 32)%Z.

(** The invariant of the comment on [HEAPCONDITION], with the slots that must
    exist for it to make sense. *)
Record heap_ok (h : isc_heap) : Prop := HeapOk {
  ok_alloc : length (array h) = size h;
  ok_inc : sizes_ok h;
  ok_last : last h = 0 \/ last h < size h;
  ok_filled : forall k, 1 <= k <= last h -> exists x, at_slot (array h) k x;
  ok_order : forall k x y, 2 <= k <= last h ->
     at_slot (array h) k x -> at_slot (array h) (heap_parent k) y -> compare x y = false;
  ok_index : has_index h = true -> forall k x, 1 <= k <= last h ->
     at_slot (array h) k x -> heap_index h !! x = Some k
}.

End Operations.
Arguments isc_heap A {_ _}.
Arguments IscHeap {A _ _}.

(** What a client promises of its comparison: "higher priority" is a strict
    weak order. *)
Class PriorityOrder {A} (compare : A -> A -> bool) : Prop := {
  compare_asym : forall x y, compare x y = true -> compare y x = false;
  compare_negtrans : forall x y z,
    compare x y = false -> compare y z = false -> compare x z = false
}.

(** ** Lemmas: moving the hole *)

Section Holes.
Context {A : Type} `{Countable A}.
Implicit Types (arr : list (option A)) (m : gmap A nat) (i j k n : nat) (x y elt : A).

Lemma slot_at arr i x : at_slot arr i x -> slot arr i = Ret x.
Proof. unfold slot. by intros ->. Qed.

Lemma set_slot_in arr i x : i < length arr -> set_slot arr i x = Ret (<[i := Some x]> arr).
Proof. intros. unfold set_slot. by rewrite bool_decide_true. Qed.

Lemma at_insert arr i k x y :
  at_slot (<[i := Some y]> arr) k x <->
  (k = i /\ x = y /\ i < length arr) \/ (k <> i /\ at_slot arr k x).
Proof.
  unfold at_slot. destruct (decide (k = i)) as [->|Hne].
  - destruct (decide (i < length arr)) as [Hl|Hl].
    + rewrite list_lookup_insert_eq by done. intuition congruence.
    + rewrite list_insert_ge by lia. rewrite lookup_ge_None_2 by lia. intuition congruence.
  - rewrite list_lookup_insert_ne by done. intuition congruence.
Qed.

Lemma at_lt arr k x : at_slot arr k x -> k < length arr.
Proof. apply lookup_lt_Some. Qed.

Lemma at_fun arr k x y : at_slot arr k x -> at_slot arr k y -> x = y.
Proof. unfold at_slot. congruence. Qed.

(** Moving [y] from [j] to the hole [i] and the hole to [j] is a swap. *)
Lemma move_perm arr i j n elt y :
  i <> j -> i < n -> j < n -> n <= length arr -> at_slot arr j y ->
  take n (<[j := Some elt]> (<[i := Some y]> arr)) ≡ₚ take n (<[i := Some elt]> arr).
Proof.
  intros Hne Hi Hj Hn Hy.
  rewrite !take_insert_lt by done. set (l := take n arr).
  assert (l !! j = Some (Some y)) as Hlj by (unfold l; by rewrite lookup_take_lt by done).
  assert (i < length l) as Hli by (unfold l; rewrite length_take; lia).
  rewrite <- (Permutation_insert_swap (<[i := Some elt]> l) i j (Some elt) (Some y)).
  - by rewrite list_insert_insert_eq.
  - by rewrite list_lookup_insert_eq.
  - by rewrite list_lookup_insert_ne.
Qed.

(** All slots but the hole are filled, and the recorded indices are right. *)
Definition filled (arr : list (option A)) (lst i : nat) : Prop :=
  forall k, 1 <= k <= lst -> k <> i -> exists x, at_slot arr k x.

Definition indexed (arr : list (option A)) (m : gmap A nat) (lst i : nat) (elt : A) : Prop :=
  forall k x, 1 <= k <= lst -> k <> i -> at_slot arr k x -> x <> elt /\ m !! x = Some k.

Lemma move_filled arr lst i j y :
  i < length arr -> filled arr lst i -> filled (<[i := Some y]> arr) lst j.
Proof.
  intros Hi Hf k Hk Hkj. destruct (decide (k = i)) as [->|Hne].
  - exists y. apply at_insert. auto.
  - destruct (Hf k Hk Hne) as [x Hx]. exists x. apply at_insert. auto.
Qed.

Lemma move_indexed arr m lst i j y elt :
  1 <= j <= lst -> i <> j -> at_slot arr j y ->
  indexed arr m lst i elt -> indexed (<[i := Some y]> arr) (<[y := i]> m) lst j elt.
Proof.
  intros Hj Hne Hy Hi k x Hk Hkj [(-> & -> & _)|(Hki & Hx)]%at_insert.
  - split; [|by rewrite lookup_insert_eq]. by destruct (Hi j y Hj ltac:(auto) Hy).
  - destruct (Hi k x Hk Hki Hx) as [? Hmx]. split; [done|].
    destruct (Hi j y Hj ltac:(auto) Hy) as [_ Hmy].
    rewrite lookup_insert_ne; [done|]. intros ->. rewrite Hmx in Hmy. by simplify_eq.
Qed.

Lemma indexed_done arr m lst i elt :
  i < length arr -> indexed arr m lst i elt ->
  forall k x, 1 <= k <= lst -> at_slot (<[i := Some elt]> arr) k x -> <[elt := i]> m !! x = Some k.
Proof.
  intros Hi Hx k x Hk [(-> & -> & _)|(Hki & Hkx)]%at_insert; [by rewrite lookup_insert_eq|].
  destruct (Hx k x Hk Hki Hkx) as [? ?]. by rewrite lookup_insert_ne.
Qed.

End Holes.

(** ** Lemmas: the two loops *)

Section Loops.
Context {A : Type} `{Countable A} (compare : A -> A -> bool) {ord : PriorityOrder compare}.
Implicit Types (arr : list (option A)) (m : gmap A nat) (i j k n lst : nat) (x y elt : A).

(** The order holds between all slots away from the hole [i]. *)
Definition order_except arr lst i : Prop :=
  forall k x y, 2 <= k <= lst -> k <> i -> heap_parent k <> i ->
    at_slot arr k x -> at_slot arr (heap_parent k) y -> compare x y = false.

(** The children of the hole are below the parent of the hole. *)
Definition grand_order arr lst i : Prop :=
  forall k x y, k <= lst -> heap_parent k = i -> 2 <= i ->
    at_slot arr k x -> at_slot arr (heap_parent i) y -> compare x y = false.

(** The children of the hole are below [elt]. *)
Definition below arr lst i elt : Prop :=
  forall k x, k <= lst -> heap_parent k = i -> at_slot arr k x -> compare x elt = false.

(** [elt] is below the parent of the hole. *)
Definition above arr i elt : Prop :=
  2 <= i -> forall y, at_slot arr (heap_parent i) y -> compare elt y = false.

Lemma parent_lt i : 2 <= i -> 1 <= heap_parent i < i.
Proof.
  intros Hi. unfold heap_parent. pose proof (Nat.div_mod_eq i 2).
  pose proof (Nat.mod_upper_bound i 2). lia.
Qed.

Lemma children i k : heap_parent k = i -> k = heap_left i \/ k = heap_left i + 1.
Proof.
  unfold heap_parent, heap_left. intros <-. pose proof (Nat.div_mod_eq k 2).
  pose proof (Nat.mod_upper_bound k 2). lia.
Qed.

Lemma parent_left i : heap_parent (heap_left i) = i.
Proof. unfold heap_parent, heap_left. rewrite Nat.mul_comm. by apply Nat.div_mul. Qed.

Lemma parent_right i : heap_parent (heap_left i + 1) = i.
Proof.
  unfold heap_parent, heap_left. rewrite Nat.mul_comm, Nat.div_add_l by lia. cbn. lia.
Qed.

Lemma child_ge k i : heap_parent k = i -> 1 <= i -> i < k /\ 2 <= k.
Proof. intros ?%children. unfold heap_left in *. lia. Qed.

(** Moving the parent down into the hole. *)
Lemma up_step arr lst i elt y :
  2 <= i <= lst -> i < length arr -> at_slot arr (heap_parent i) y -> compare elt y = true ->
  order_except arr lst i -> grand_order arr lst i -> below arr lst i elt ->
  order_except (<[i := Some y]> arr) lst (heap_parent i) /\
  grand_order (<[i := Some y]> arr) lst (heap_parent i) /\
  below (<[i := Some y]> arr) lst (heap_parent i) elt.
Proof.
  intros Hi Hlen Hy Hlt Ho Hg Hb. pose proof (parent_lt i ltac:(lia)) as Hp.
  split_and!.
  - intros k x z Hk Hk1 Hk2 Hkx Hkz. pose proof (parent_lt k ltac:(lia)).
    apply at_insert in Hkx as [(-> & _)|(Hki & Hkx)]; [done|].
    apply at_insert in Hkz as [(Epk & -> & _)|(Hpk & Hkz)].
    + apply (Hg k x y); auto; lia.
    + by apply (Ho k x z).
  - intros k x z Hk Hpk Hpi Hkx Hkz. pose proof (parent_lt (heap_parent i) Hpi).
    apply at_insert in Hkz as [(? & _)|(Hne & Hkz)]; [lia|].
    assert (compare y z = false) as Hyz by (apply (Ho (heap_parent i) y z); auto; lia).
    apply at_insert in Hkx as [(-> & -> & _)|(Hki & Hkx)]; [done|].
    apply compare_negtrans with y; [|done]. pose proof (child_ge k (heap_parent i)).
    apply (Ho k x y); rewrite ?Hpk; auto; lia.
  - intros k x Hk Hpk Hkx. apply compare_asym in Hlt.
    apply at_insert in Hkx as [(-> & -> & _)|(Hki & Hkx)]; [done|].
    apply compare_negtrans with y; [|done]. pose proof (child_ge k (heap_parent i)).
    apply (Ho k x y); rewrite ?Hpk; auto; lia.
Qed.

(** What both loops return: the hole at [i'], the contents permuted. *)
Definition moved arr m lst i elt (hi : bool) arr' m' i' : Prop :=
  length arr' = length arr /\ 1 <= i' <= lst /\ filled arr' lst i' /\ arr' !! 0 = arr !! 0 /\
  take (lst + 1) (<[i' := Some elt]> arr') ≡ₚ take (lst + 1) (<[i := Some elt]> arr) /\
  (hi = true -> indexed arr m lst i elt -> indexed arr' m' lst i' elt).

Lemma moved_refl arr m lst i elt hi :
  1 <= i <= lst -> filled arr lst i -> moved arr m lst i elt hi arr m i.
Proof. intros. split_and!; try done; lia. Qed.

Lemma moved_step arr m lst i j elt y hi arr' m' i' :
  1 <= i <= lst -> 1 <= j <= lst -> i <> j -> lst < length arr -> at_slot arr j y ->
  moved (<[i := Some y]> arr) (note_index hi m y i) lst j elt hi arr' m' i' ->
  moved arr m lst i elt hi arr' m' i'.
Proof.
  intros Hi Hj Hne Hlen Hy (Hl & Hi' & Hf & H0 & Hp & Hx). split_and!; try done; try lia.
  - by rewrite length_insert in Hl.
  - rewrite H0. by rewrite list_lookup_insert_ne by lia.
  - rewrite Hp. apply move_perm; auto; lia.
  - intros -> Hidx. apply Hx; [done|]. by apply move_indexed.
Qed.

Lemma float_up_loop_spec fuel hi arr m lst i elt :
  i <= fuel -> 1 <= i <= lst -> lst < length arr -> filled arr lst i ->
  order_except arr lst i -> grand_order arr lst i -> below arr lst i elt ->
  exists arr' m' i', float_up_loop compare fuel hi arr m i elt = Ret (arr', m', i') /\
    moved arr m lst i elt hi arr' m' i' /\
    order_except arr' lst i' /\ below arr' lst i' elt /\ above arr' i' elt.
Proof.
  revert arr m i. induction fuel as [|fuel IH]; intros arr m i Hfuel Hi Hlen Hf Ho Hg Hb;
    [lia|]. cbn [float_up_loop]. destruct (Nat.ltb_spec 1 i).
  2: { eexists _, _, _. split; [done|]. split; [by apply moved_refl|]. split_and!; auto.
       intros Hc. lia. }
  pose proof (parent_lt i ltac:(lia)) as Hp.
  destruct (Hf (heap_parent i)) as [y Hy]; [lia..|]. rewrite (slot_at _ _ _ Hy).
  cbn [mbind outcome_bind]. destruct (compare elt y) eqn:Ec.
  - rewrite set_slot_in by lia. cbn [mbind outcome_bind].
    destruct (up_step arr lst i elt y) as (Ho' & Hg' & Hb'); auto; [lia..|].
    destruct (IH (<[i := Some y]> arr) (note_index hi m y i) (heap_parent i))
      as (arr' & m' & i' & -> & Hm & Hrest); auto.
    { lia. } { lia. } { rewrite length_insert. lia. } { apply move_filled; [lia|done]. }
    eexists _, _, _. split; [done|]. split; [|done].
    apply (moved_step _ _ _ _ (heap_parent i) _ y); auto; lia.
  - eexists _, _, _. split; [done|]. split; [by apply moved_refl|]. split_and!; auto.
    intros _ z Hz. by rewrite (at_fun _ _ _ _ Hz Hy).
Qed.

(** Moving the smaller child up into the hole. *)
Lemma down_step arr lst i j elt y :
  1 <= i -> i < length arr -> heap_parent j = i -> j <= lst -> at_slot arr j y ->
  (forall k x, k <= lst -> heap_parent k = i -> at_slot arr k x -> compare x y = false) ->
  compare elt y = false -> order_except arr lst i -> grand_order arr lst i ->
  order_except (<[i := Some y]> arr) lst j /\
  grand_order (<[i := Some y]> arr) lst j /\
  above (<[i := Some y]> arr) j elt.
Proof.
  intros Hi Hlen Hpj Hj Hy Hmin Hnlt Ho Hg. pose proof (child_ge j i Hpj Hi) as Hji.
  split_and!.
  - intros k x z Hk Hk1 Hk2 Hkx Hkz. pose proof (parent_lt k ltac:(lia)).
    apply at_insert in Hkx as [(-> & -> & _)|(Hki & Hkx)].
    + apply at_insert in Hkz as [(? & _)|(_ & Hkz)]; [lia|]. by apply (Hg j y z); auto; lia.
    + apply at_insert in Hkz as [(Epk & -> & _)|(Hpk & Hkz)].
      * apply (Hmin k x); auto; lia.
      * by apply (Ho k x z).
  - intros k x z Hk Hpk _ Hkx Hkz. pose proof (child_ge k j Hpk ltac:(lia)).
    rewrite Hpj in Hkz. apply at_insert in Hkz as [(_ & -> & _)|(? & _)]; [|done].
    apply at_insert in Hkx as [(? & _)|(_ & Hkx)]; [lia|].
    apply (Ho k x y); rewrite ?Hpk; auto; lia.
  - intros _ z. rewrite Hpj. intros [(_ & -> & _)|(? & _)]%at_insert; done.
Qed.

(** The child the loop picks is the smaller one. *)
Lemma pick_child arr lst i :
  1 <= i -> i <= lst / 2 -> filled arr lst i ->
  exists j y,
    (if Nat.ltb (heap_left i) lst then
       x ← slot arr (heap_left i + 1); y ← slot arr (heap_left i);
       Ret (if compare x y then heap_left i + 1 else heap_left i)
     else Ret (heap_left i)) = Ret j /\
    heap_parent j = i /\ j <= lst /\ at_slot arr j y /\
    (forall k x, k <= lst -> heap_parent k = i -> at_slot arr k x -> compare x y = false).
Proof.
  intros Hi Hhalf Hf.
  assert (heap_left i <= lst) as Hl
    by (unfold heap_left; pose proof (Nat.div_mod_eq lst 2); lia).
  assert (forall x, compare x x = false) as Hirr.
  { intros x. destruct (compare x x) eqn:E; [|done]. by apply compare_asym in E as E'; congruence. }
  destruct (Hf (heap_left i)) as [yl Hyl]; [unfold heap_left in *; lia..|].
  destruct (Nat.ltb_spec (heap_left i) lst).
  - destruct (Hf (heap_left i + 1)) as [yr Hyr]; [unfold heap_left in *; lia..|].
    rewrite (slot_at _ _ _ Hyr), (slot_at _ _ _ Hyl). cbn [mbind outcome_bind].
    destruct (compare yr yl) eqn:E.
    + exists (heap_left i + 1), yr. split_and!; auto using parent_right; [lia|].
      intros k x Hk [-> | ->]%children Hx.
      * rewrite (at_fun _ _ _ _ Hx Hyl). by apply compare_asym.
      * by rewrite (at_fun _ _ _ _ Hx Hyr).
    + exists (heap_left i), yl. split_and!; auto using parent_left.
      intros k x Hk [-> | ->]%children Hx.
      * by rewrite (at_fun _ _ _ _ Hx Hyl).
      * by rewrite (at_fun _ _ _ _ Hx Hyr).
  - exists (heap_left i), yl. split_and!; auto using parent_left.
    intros k x Hk [-> | ->]%children Hx; [|lia]. by rewrite (at_fun _ _ _ _ Hx Hyl).
Qed.

Lemma sink_down_loop_spec fuel hi arr m lst i elt :
  lst < fuel + i -> 1 <= i <= lst -> lst < length arr -> filled arr lst i ->
  order_except arr lst i -> grand_order arr lst i -> above arr i elt ->
  exists arr' m' i', sink_down_loop compare fuel hi arr m lst i elt = Ret (arr', m', i') /\
    moved arr m lst i elt hi arr' m' i' /\
    order_except arr' lst i' /\ below arr' lst i' elt /\ above arr' i' elt.
Proof.
  revert arr m i. induction fuel as [|fuel IH]; intros arr m i Hfuel Hi Hlen Hf Ho Hg Ha;
    [lia|]. cbn [sink_down_loop]. destruct (Nat.leb_spec i (lst / 2)) as [Hle|Hgt].
  2: { eexists _, _, _. split; [done|]. split; [by apply moved_refl|]. split_and!; auto.
       intros k x Hk Hpk _. exfalso. revert Hgt. rewrite <- Hpk. apply Nat.le_ngt.
       by apply Nat.Div0.div_le_mono. }
  destruct (pick_child arr lst i) as (j & y & -> & Hpj & Hj & Hy & Hmin); [lia|done|done|].
  cbn [mbind outcome_bind]. rewrite (slot_at _ _ _ Hy). cbn [mbind outcome_bind].
  pose proof (child_ge j i Hpj ltac:(lia)) as Hji. destruct (compare elt y) eqn:Ec.
  - eexists _, _, _. split; [done|]. split; [by apply moved_refl|]. split_and!; auto.
    intros k x Hk Hpk Hx. apply compare_negtrans with y; [by apply (Hmin k)|by apply compare_asym].
  - rewrite set_slot_in by lia. cbn [mbind outcome_bind].
    destruct (down_step arr lst i j elt y) as (Ho' & Hg' & Ha'); auto; [lia..|].
    destruct (IH (<[i := Some y]> arr) (note_index hi m y i) j)
      as (arr' & m' & i' & -> & Hm & Hrest); auto.
    { lia. } { lia. } { rewrite length_insert. lia. } { apply move_filled; [lia|done]. }
    eexists _, _, _. split; [done|]. split; [|done].
    apply (moved_step _ _ _ _ j _ y); auto; lia.
Qed.

(** ** Lemmas: the operations *)

Lemma prefix_contents (X Y : list (option A)) lst :
  1 <= lst -> lst < length X -> X !! 0 = Y !! 0 ->
  take (lst + 1) X ≡ₚ take (lst + 1) Y -> take lst (drop 1 X) ≡ₚ take lst (drop 1 Y).
Proof.
  intros Hl HX H0 Hp. replace (lst + 1) with (S lst) in Hp by lia.
  destruct X as [|x X]; [cbn in HX; lia|]. destruct Y as [|y Y]; [done|].
  cbn in H0. injection H0 as ->. cbn [take drop] in *. by apply Permutation_cons_inv in Hp.
Qed.

Lemma place_spec (h : isc_heap A) arr m i elt arr' m' i' :
  length arr = size h -> sizes_ok h -> last h < size h -> 1 <= i <= last h ->
  moved arr m (last h) i elt (has_index h) arr' m' i' ->
  order_except arr' (last h) i' -> below arr' (last h) i' elt -> above arr' i' elt ->
  (has_index h = true -> indexed arr m (last h) i elt) ->
  exists h', place compare h (arr', m', i') elt = Ret h' /\ heap_ok compare h' /\
    last h' = last h /\ size h' = size h /\ has_index h' = has_index h /\
    contents h' ≡ₚ take (last h) (drop 1 (<[i := Some elt]> arr)).
Proof.
  intros Hsz Hinc Hlast Hi (Hl & Hi' & Hf & H0 & Hp & Hx) Ho Hb Ha Hidx. unfold place.
  rewrite set_slot_in by lia. cbn [mbind outcome_bind].
  assert (at_slot (<[i' := Some elt]> arr') i' elt) as Hat by (apply at_insert; left; split_and!; [done|done|lia]).
  assert (INSIST (HEAPCONDITION compare (<[i' := Some elt]> arr') i') = Ret tt) as ->.
  { unfold HEAPCONDITION. destruct (Nat.eqb_spec i' 1); [done|].
    pose proof (parent_lt i' ltac:(lia)). destruct (Hf (heap_parent i')) as [y Hy]; [lia..|].
    rewrite (slot_at _ _ _ Hat). cbn [mbind outcome_bind].
    rewrite (slot_at _ _ y) by (apply at_insert; right; split; [lia|done]).
    cbn [mbind outcome_bind]. rewrite (Ha ltac:(lia) y Hy). done. }
  cbn [mbind outcome_bind]. eexists. split; [done|].
  unfold with_array, contents. cbn [last size has_index array]. split_and!; try done.
  2: { apply prefix_contents; [lia|rewrite length_insert; lia| |done].
       by rewrite !list_lookup_insert_ne by lia. }
  constructor; cbn [last size has_index array size_increment heap_index];
    [rewrite length_insert; lia|done|lia| | |].
  - intros k Hk. destruct (decide (k = i')) as [->|Hne]; [by exists elt|].
    destruct (Hf k Hk Hne) as [x Hkx]. exists x. apply at_insert. auto.
  - intros k x y Hk Hkx Hky. pose proof (parent_lt k ltac:(lia)).
    apply at_insert in Hkx as [(-> & -> & _)|(Hki & Hkx)];
      apply at_insert in Hky as [(Ep & -> & _)|(Hpk & Hky)]; try lia.
    + apply (Ha ltac:(lia) y Hky).
    + apply (Hb k x); auto; lia.
    + by apply (Ho k x y).
  - intros Hhi. unfold note_index. rewrite Hhi. apply indexed_done; [lia|].
    by apply Hx, Hidx.
Qed.

Lemma root_min (h : isc_heap A) x k y :
  heap_ok compare h -> at_slot (array h) 1 x -> 1 <= k <= last h -> at_slot (array h) k y ->
  compare y x = false.
Proof.
  intros Hok Hx. revert y. induction k as [k IH] using lt_wf_ind; intros y Hk Hy.
  destruct (decide (k = 1)) as [->|Hne].
  - rewrite (at_fun _ _ _ _ Hy Hx). destruct (compare x x) eqn:E; [|done].
    by apply compare_asym in E as E'; congruence.
  - pose proof (parent_lt k ltac:(lia)) as Hp.
    destruct (ok_filled _ _ Hok (heap_parent k) ltac:(lia)) as [z Hz].
    apply compare_negtrans with z.
    + apply (ok_order _ _ Hok k y z); [lia|done..].
    + apply (IH (heap_parent k)); [lia|lia|done].
Qed.

Lemma resize_room (h : isc_heap A) :
  length (array h) = size h -> sizes_ok h -> last h = 0 \/ last h < size h -> (Z.of_nat (last h) + 1 < 2 ^ 31)%Z ->
  uint_add (last h) 1 = last h + 1 /\
  exists h2, (if Nat.leb (size h) (last h + 1) then resize true (with_last h (last h + 1))
              else Ret (true, with_last h (last h + 1))) = Ret (true, h2) /\
    length (array h2) = size h2 /\ last h2 = last h + 1 /\ last h2 < size h2 /\
    sizes_ok h2 /\ has_index h2 = has_index h /\
    heap_index h2 = heap_index h /\
    (forall k, k < size h -> array h2 !! k = array h !! k).
Proof.
  intros Ha (Hi & Hw & Hs) Hl Hr. split; [apply uint_add_small; lia|]. unfold sizes_ok. destruct (Nat.leb_spec (size h) (last h + 1)).
  - unfold resize, with_last. cbn [last size array has_index heap_index size_increment]. rewrite uint_add_small by lia.
    destruct (Nat.leb_spec (length (array h)) (size h + size_increment h)); [|lia]. eexists. split; [done|].
    cbn [last size array has_index heap_index size_increment].
    rewrite length_app, length_replicate. split_and!; try lia; try done.
    intros k Hk. rewrite lookup_app_l by lia. done.
  - eexists. split; [done|]. unfold with_last.
    cbn [last size array has_index heap_index size_increment]. split_and!; try lia; done.
Qed.

Lemma resize_ok (h : isc_heap A) :
  heap_ok compare h -> (Z.of_nat (last h) + 1 < 2 ^ 31)%Z ->
  uint_add (last h) 1 = last h + 1 /\
  exists h2, (if Nat.leb (size h) (last h + 1) then resize true (with_last h (last h + 1))
              else Ret (true, with_last h (last h + 1))) = Ret (true, h2) /\
    length (array h2) = size h2 /\ last h2 = last h + 1 /\ last h2 < size h2 /\
    sizes_ok h2 /\ has_index h2 = has_index h /\
    heap_index h2 = heap_index h /\
    (forall k, k < size h -> array h2 !! k = array h !! k).
Proof. intros [Ha Hi Hl _ _ _]. by apply resize_room. Qed.

Lemma contents_snoc (arr : list (option A)) n (e : option A) :
  n + 1 < length arr ->
  take (n + 1) (drop 1 (<[n + 1 := e]> arr)) = take n (drop 1 arr) ++ [e].
Proof.
  intros Hn. rewrite drop_insert_ge by lia. replace (n + 1 - 1) with n by lia.
  replace (n + 1) with (S n) by lia. erewrite take_S_r.
  - rewrite take_insert_ge by lia. done.
  - apply list_lookup_insert_eq. rewrite length_drop. lia.
Qed.

Lemma contents_ext (X Y : list (option A)) n :
  (forall k, 1 <= k <= n -> X !! k = Y !! k) -> take n (drop 1 X) = take n (drop 1 Y).
Proof.
  intros Hk. apply list_eq. intros j. destruct (decide (j < n)).
  - rewrite !lookup_take_lt, !lookup_drop by done. apply Hk. lia.
  - rewrite !lookup_take_ge by lia. done.
Qed.

Lemma perm_insert (l : list (option A)) i a b :
  l !! i = Some a -> b :: l ≡ₚ a :: <[i := b]> l.
Proof.
  intros Hi. rewrite <- (Permutation_insert_swap (b :: l) 0 (S i) b a); done.
Qed.

(** The array after the last element has been copied over [index]: what the
    loops need of it, with the hole at [index]. *)
Lemma delete_hole (h : isc_heap A) index x elt :
  heap_ok compare h -> 1 <= index <= last h -> index <> last h ->
  at_slot (array h) index x -> at_slot (array h) (last h) elt ->
  let arr := <[index := Some elt]> (array h) in
  let lst := last h - 1 in
  filled arr lst index /\ order_except arr lst index /\ grand_order arr lst index /\
  (compare elt x = true -> below arr lst index elt) /\
  (compare elt x = false -> above arr index elt) /\
  (has_index h = true -> indexed arr (heap_index h) lst index elt) /\
  contents h ≡ₚ Some x :: take lst (drop 1 (<[index := Some elt]> arr)).
Proof.
  intros [Hal Hinc Hlast Hfill Hord Hidx] Hi Hne Hx Helt. cbv zeta.
  set (arr := <[index := Some elt]> (array h)).
  assert (forall k y, k <> index -> at_slot arr k y -> at_slot (array h) k y) as Hold.
  { intros k y Hk [(? & _)|(_ & ?)]%at_insert; done. }
  split_and!.
  - intros k Hk Hki. destruct (Hfill k ltac:(lia)) as [y Hy]. exists y. apply at_insert. auto.
  - intros k y z Hk Hk1 Hk2 Hy Hz. apply (Hord k y z); [lia|by apply Hold..].
  - intros k y z Hk Hpk Hi2 Hy Hz. pose proof (child_ge k index Hpk ltac:(lia)).
    pose proof (parent_lt index Hi2).
    apply compare_negtrans with x.
    + apply (Hord k y x); [lia|apply Hold; [lia|done]|by rewrite Hpk].
    + apply (Hord index x z); [lia|done|apply Hold; [lia|done]].
  - intros Hlt k y Hk Hpk Hy. pose proof (child_ge k index Hpk ltac:(lia)).
    apply compare_negtrans with x; [|by apply compare_asym].
    apply (Hord k y x); [lia|apply Hold; [lia|done]|by rewrite Hpk].
  - intros Hge Hi2 y Hy. pose proof (parent_lt index Hi2).
    apply compare_negtrans with x; [done|].
    apply (Hord index x y); [lia|done|apply Hold; [lia|done]].
  - intros Hhi k y Hk Hki Hy%Hold; [|done].
    pose proof (Hidx Hhi k y ltac:(lia) Hy) as Ek.
    pose proof (Hidx Hhi (last h) elt ltac:(lia) Helt) as El.
    split; [|done]. intros ->. rewrite Ek in El. simplify_eq. lia.
  - unfold contents, arr. rewrite list_insert_insert_eq.
    rewrite drop_insert_ge, take_insert_lt by lia.
    replace (last h) with (S (last h - 1)) at 1 by lia.
    erewrite take_S_r by (rewrite lookup_drop; replace (1 + (last h - 1)) with (last h) by lia; exact Helt).
    rewrite <- Permutation_cons_append. apply perm_insert.
    rewrite lookup_take_lt, lookup_drop by lia. replace (1 + (index - 1)) with index by lia. exact Hx.
Qed.

(** ** Properties *)

(** Inserting into a well-formed heap (with memory available) keeps the
    heap order, the bounds of the array and the indices reported to the
    client, passes the code's own assertions, and adds exactly the element. *)
Lemma isc_heap_insert_ok (h : isc_heap A) (elt : A)
    (Hok : heap_ok compare h) (Hroom : (Z.of_nat (last h) + 1 < 2 ^ 31)%Z)
    (Hnew : has_index h = true ->
            forall k x, 1 <= k <= last h -> at_slot (array h) k x -> x <> elt) :
  exists h', isc_heap_insert compare true h elt = Ret (ISC_R_SUCCESS, h') /\
    heap_ok compare h' /\ last h' = last h + 1 /\
    contents h' ≡ₚ Some elt :: contents h.
Proof.
  destruct (resize_ok h Hok Hroom) as (Eu & h2 & E2 & Hlen & Hl2 & Hlt & Hinc & Hhi & Hm & Harr).
  unfold isc_heap_insert. rewrite Eu. cbn zeta. change (last (with_last h (last h + 1))) with (last h + 1).
  change (size (with_last h (last h + 1))) with (size h). rewrite E2. cbn [mbind outcome_bind].
  assert (forall k x, 1 <= k <= last h -> at_slot (array h) k x -> at_slot (array h2) k x) as Hto.
  { intros k x Hk Hx. unfold at_slot. rewrite Harr; [done|]. destruct (ok_last _ _ Hok); lia. }
  assert (forall k x, 1 <= k <= last h -> at_slot (array h2) k x -> at_slot (array h) k x) as Hfrom.
  { intros k x Hk Hx. unfold at_slot. rewrite <- Harr; [done|]. destruct (ok_last _ _ Hok); lia. }
  unfold float_up.
  destruct (float_up_loop_spec (last h + 1) (has_index h2) (array h2) (heap_index h2) (last h2) (last h + 1) elt)
    as (arr' & m' & i' & -> & Hmv & Ho & Hb & Ha); try lia.
  { intros k Hk Hne. destruct (ok_filled _ _ Hok k ltac:(lia)) as [x Hx]. exists x. apply Hto; [lia|done]. }
  { intros k x y Hk Hk1 _ Hx Hy. pose proof (parent_lt k ltac:(lia)).
    apply (ok_order _ _ Hok k x y); [lia|apply Hfrom; [lia|done]..]. }
  { intros k x y Hk Hpk. pose proof (child_ge k _ Hpk ltac:(lia)). lia. }
  { intros k x Hk Hpk. pose proof (child_ge k _ Hpk ltac:(lia)). lia. }
  cbn [mbind outcome_bind].
  destruct (place_spec h2 (array h2) (heap_index h2) (last h + 1) elt arr' m' i')
    as (h' & -> & Hok' & Hl' & _ & _ & Hc); auto; try lia.
  { intros Hidx k x Hk Hne Hx. rewrite Hhi in Hidx. apply Hfrom in Hx; [|lia].
    split; [by apply (Hnew Hidx k x); [lia|]|]. rewrite Hm. apply (ok_index _ _ Hok Hidx); [lia|done]. }
  cbn [mbind outcome_bind]. exists h'. split_and!; [done|done|lia|].
  rewrite Hc, Hl2, contents_snoc by lia. unfold contents. rewrite <- Permutation_cons_append.
  rewrite (contents_ext (array h2) (array h)); [done|]. intros k Hk.
  apply Harr. destruct (ok_last _ _ Hok); lia.
Qed.

(** Deleting an index of a well-formed heap removes exactly the element at
    that index and leaves a well-formed heap with one element less. *)
Lemma isc_heap_delete_ok (h : isc_heap A) (index : nat) (x : A)
    (Hok : heap_ok compare h) (Hi : 1 <= index <= last h) (Hx : at_slot (array h) index x) :
  exists h', isc_heap_delete compare h index = Ret h' /\
    heap_ok compare h' /\ last h' = last h - 1 /\
    contents h ≡ₚ Some x :: contents h'.
Proof.
  unfold isc_heap_delete. destruct (Nat.leb_spec 1 index), (Nat.leb_spec index (last h)); try lia.
  cbn [andb negb]. destruct (Nat.eqb_spec index (last h)) as [->|Hne].
  - destruct Hok as [Hal Hinc Hlast Hfill Hord Hidx]. eexists. split; [done|]. unfold with_last, contents. cbn [last array]. split_and!; [|done|].
    + constructor; cbn [last array size size_increment has_index heap_index]; auto; try lia.
      * intros k Hk. apply Hfill. lia.
      * intros k y z Hk. apply Hord. lia.
      * intros Hhi k y Hk. apply Hidx; [done|lia].
    + replace (last h) with (S (last h - 1)) at 1 by lia.
      erewrite take_S_r; [by rewrite <- Permutation_cons_append|].
      rewrite lookup_drop. replace (1 + (last h - 1)) with (last h) by lia. exact Hx.
  - destruct (ok_filled _ _ Hok (last h) ltac:(lia)) as [elt Helt]. rewrite (slot_at _ _ _ Helt).
    cbn [mbind outcome_bind]. change (array (with_last h (last h - 1))) with (array h).
    rewrite (slot_at _ _ _ Hx). cbn [mbind outcome_bind].
    rewrite set_slot_in by (by eapply at_lt). cbn [mbind outcome_bind].
    destruct (delete_hole h index x elt Hok Hi Hne Hx Helt) as (Hf & Ho & Hg & Hb & Ha & Hid & Hc).
    set (h2 := with_array _ _ _) in *.
    assert (length (array h2) = size h2) as Hlen2 by (cbn; rewrite length_insert; apply (ok_alloc _ _ Hok)).
    pose proof (ok_inc _ _ Hok) as Hinc. pose proof (ok_last _ _ Hok) as Hlast.
    pose proof (ok_alloc _ _ Hok) as Hal.
    assert (exists arr' m' i', (if compare elt x
        then float_up_loop compare index (has_index h2) (array h2) (heap_index h2) index elt
        else sink_down_loop compare (last h2) (has_index h2) (array h2) (heap_index h2) (last h2) index elt)
        = Ret (arr', m', i') /\
      moved (array h2) (heap_index h2) (last h2) index elt (has_index h2) arr' m' i' /\
      order_except arr' (last h2) i' /\ below arr' (last h2) i' elt /\ above arr' i' elt)
      as (arr' & m' & i' & Hloop & Hmv & Ho' & Hb' & Ha').
    { destruct (compare elt x) eqn:E.
      - apply float_up_loop_spec; auto; cbn; rewrite ?length_insert; lia.
      - apply sink_down_loop_spec; auto; cbn; rewrite ?length_insert; lia. }
    destruct (place_spec h2 (array h2) (heap_index h2) index elt arr' m' i')
      as (h' & Hpl & Hok' & Hl' & _ & _ & Hc'); auto; try (cbn; lia).
    exists h'. split_and!; [|done|done|].
    + unfold float_up, sink_down. destruct (compare elt x); rewrite Hloop; cbn [mbind outcome_bind]; exact Hpl.
    + rewrite Hc, Hc'. done.
Qed.

(** The element at index 1 of a non-empty well-formed heap, which
    [isc_heap_element] returns, has a priority no other element exceeds. *)
Theorem isc_heap_top (h : isc_heap A) (Hok : heap_ok compare h) (Hne : 1 <= last h) :
  exists x, isc_heap_element h 1 = Ret x /\ Some x ∈ contents h /\
    forall y, Some y ∈ contents h -> compare y x = false.
Proof.
  destruct (ok_filled _ _ Hok 1 ltac:(lia)) as [x Hx].
  exists x. unfold isc_heap_element. destruct (Nat.leb_spec 1 (last h)); [|lia]. cbn [andb negb Nat.leb].
  rewrite (slot_at _ _ _ Hx). split; [done|]. unfold contents. split.
  - apply list_elem_of_lookup. exists 0. rewrite lookup_take_lt, lookup_drop by lia. exact Hx.
  - intros y (k & Hk)%list_elem_of_lookup.
    assert (k < last h) as Hlt by (apply lookup_lt_Some in Hk; rewrite length_take in Hk; lia).
    rewrite lookup_take_lt, lookup_drop in Hk by done.
    apply (root_min h x (1 + k) y); [done|done|lia|exact Hk].
Qed.

(** After the client has raised (lowered) the priority of the element at
    an index, so that the order may fail only towards its parent (its
    children), [isc_heap_increased] ([isc_heap_decreased]) restores the heap
    with the same elements. *)
Theorem isc_heap_repriority_ok (h : isc_heap A) (index : nat) (elt : A)
    (Hal : length (array h) = size h) (Hinc : sizes_ok h) (Hlast : last h < size h)
    (Hi : 1 <= index <= last h) (Helt : at_slot (array h) index elt)
    (Hfill : filled (array h) (last h) index)
    (Ho : order_except (array h) (last h) index) (Hg : grand_order (array h) (last h) index)
    (Hidx : has_index h = true -> indexed (array h) (heap_index h) (last h) index elt) :
  (below (array h) (last h) index elt ->
     exists h', isc_heap_increased compare h index = Ret h' /\ heap_ok compare h' /\
       contents h' ≡ₚ contents h) /\
  (above (array h) index elt ->
     exists h', isc_heap_decreased compare h index = Ret h' /\ heap_ok compare h' /\
       contents h' ≡ₚ contents h).
Proof.
  unfold isc_heap_increased, isc_heap_decreased.
  destruct (Nat.leb_spec 1 index), (Nat.leb_spec index (last h)); try lia. cbn [andb negb].
  rewrite (slot_at _ _ _ Helt). cbn [mbind outcome_bind].
  assert (forall r, moved (array h) (heap_index h) (last h) index elt (has_index h) r.1.1 r.1.2 r.2 ->
    order_except r.1.1 (last h) r.2 -> below r.1.1 (last h) r.2 elt -> above r.1.1 r.2 elt ->
    exists h', place compare h r elt = Ret h' /\ heap_ok compare h' /\ contents h' ≡ₚ contents h) as Hpl.
  { intros [[arr' m'] i'] Hmv Ho' Hb' Ha'. cbn [fst snd] in *.
    destruct (place_spec h (array h) (heap_index h) index elt arr' m' i')
      as (h' & Hp & Hok' & _ & _ & _ & Hc); auto.
    exists h'. split_and!; [done..|]. rewrite Hc. unfold contents. by rewrite list_insert_id. }
  split; intros Hside; unfold float_up, sink_down.
  - destruct (float_up_loop_spec index (has_index h) (array h) (heap_index h) (last h) index elt)
      as (arr' & m' & i' & -> & Hmv & Ho' & Hb' & Ha'); auto; try lia.
    by apply (Hpl (arr', m', i')).
  - destruct (sink_down_loop_spec (last h) (has_index h) (array h) (heap_index h) (last h) index elt)
      as (arr' & m' & i' & -> & Hmv & Ho' & Hb' & Ha'); auto; try lia.
    by apply (Hpl (arr', m', i')).
Qed.

End Loops.

(** ** Witnesses *)

#[export] Instance nat_ltb_order : PriorityOrder Nat.ltb.
Proof.
  split.
  - intros x y. rewrite Nat.ltb_lt, Nat.ltb_ge. lia.
  - intros x y z. rewrite !Nat.ltb_ge. lia.
Qed.

Definition heap3 : isc_heap nat :=
  IscHeap 4 4 3 [None; Some 2; Some 9; Some 5] true {[2 := 1; 9 := 2; 5 := 3]}.

Lemma heap3_ok : heap_ok Nat.ltb heap3.
Proof.
  assert (forall k, 1 <= k <= 3 -> k = 1 \/ k = 2 \/ k = 3) as Hc by lia.
  constructor; cbn [heap3 array size size_increment last has_index heap_index].
  - reflexivity.
  - unfold sizes_ok. cbn. lia.
  - lia.
  - intros k [-> |[-> | ->]]%Hc; eexists; reflexivity.
  - intros k x y Hk Hx Hy. destruct (Hc k ltac:(lia)) as [-> |[-> | ->]]; [lia| |];
      vm_compute in Hx, Hy; injection Hx as <-; injection Hy as <-; reflexivity.
  - intros _ k x [-> |[-> | ->]]%Hc Hx; vm_compute in Hx; injection Hx as <-; reflexivity.
Qed.

Lemma isc_heap_top_witness :
  exists x, isc_heap_element heap3 1 = Ret x /\ Some x ∈ contents heap3.
Proof.
  destruct (isc_heap_top Nat.ltb heap3 heap3_ok) as (x & E & Hin & _); [cbn; lia|].
  exists x. split; [exact E|exact Hin].
Defined.

Lemma isc_heap_repriority_ok_witness :
  exists h', isc_heap_increased Nat.ltb
      (IscHeap 4 4 3 [None; Some 2; Some 1; Some 5] false ∅) 2 = Ret h' /\ heap_ok Nat.ltb h'.
Proof.
  destruct (isc_heap_repriority_ok Nat.ltb (IscHeap 4 4 3 [None; Some 2; Some 1; Some 5] false ∅) 2 1)
    as [Hup _]; cbn [array size size_increment last has_index]; try lia; try reflexivity; [unfold sizes_ok; cbn; lia|..].
  - intros k Hk Hne. assert (k = 1 \/ k = 3) as [-> | ->] by lia; eexists; reflexivity.
  - intros k x y Hk Hk1 Hk2 Hx Hy. assert (k = 3) as -> by (destruct k as [|[|[|[|]]]]; lia).
    vm_compute in Hx, Hy. injection Hx as <-. injection Hy as <-. reflexivity.
  - intros k x y Hk Hpk. apply children in Hpk. unfold heap_left in Hpk. lia.
  - destruct Hup as (h' & E & Hok & _).
    + intros k x Hk Hpk. cbn in Hk. apply children in Hpk. unfold heap_left in Hpk. lia.
    + exists h'. split; [exact E|exact Hok].
Defined.

(** An insertion that finds no memory returns the error but has already
    counted the element: [last] now includes a slot that was never written. *)
Theorem isc_heap_insert_nomemory_counts :
  isc_heap_insert Nat.ltb false (IscHeap 0 2 0 [] true ∅) 7 =
  Ret (ISC_R_NOMEMORY, IscHeap 0 2 1 [] true ∅).
Proof. reflexivity. Qed.

(** With a size increment of 1 the array grows to one slot, and the first
    insertion writes slot 1, which is outside of it. *)
Theorem isc_heap_increment_1_overflows :
  isc_heap_insert Nat.ltb true (IscHeap 0 1 0 [] true ∅) 7 = Undef.
Proof. reflexivity. Qed.

(** ** The callback

    The indices a run reports do not depend on those recorded before: they are a
    log that is laid over them. *)

Section Callback.
Context {A : Type} `{Countable A} (compare : A -> A -> bool).
Implicit Types (arr : list (option A)) (m log : gmap A nat) (i j k n lst : nat) (x y z elt : A) (h : isc_heap A).

Definition with_index h m : isc_heap A := IscHeap (size h) (size_increment h) (last h) (array h) (has_index h) m.

Definition logged h m : isc_heap A := with_index h (heap_index h ∪ m).

Lemma note_log hi log m y i : note_index hi (log ∪ m) y i = note_index hi log y i ∪ m.
Proof. destruct hi; [|done]. apply insert_union_l. Qed.

Lemma note_empty hi m y i : note_index hi m y i = note_index hi ∅ y i ∪ m.
Proof. rewrite <- note_log. by rewrite (left_id_L ∅ (∪)). Qed.

Lemma float_up_loop_log fuel : forall hi arr m i elt,
  float_up_loop compare fuel hi arr m i elt = (r ← float_up_loop compare fuel hi arr ∅ i elt; Ret (r.1.1, r.1.2 ∪ m, r.2)).
Proof.
  induction fuel as [|fuel IH]; intros hi arr m i elt; cbn [float_up_loop]; (destruct (Nat.ltb 1 i); [|cbn [mbind outcome_bind fst snd]; by rewrite (left_id_L ∅ (∪))]); [done|].
  destruct (slot arr (heap_parent i)) as [y| |]; [|done..]. cbn [mbind outcome_bind]. destruct (compare elt y); [|cbn [mbind outcome_bind fst snd]; by rewrite (left_id_L ∅ (∪))].
  destruct (set_slot arr i y) as [arr'| |]; [|done..]. cbn [mbind outcome_bind]. rewrite (IH _ _ (note_index hi m y i)), (IH _ _ (note_index hi ∅ y i)).
  destruct (float_up_loop _ _ _ _ _ _ _) as [[[a g] j]| |]; [|done..]. cbn [mbind outcome_bind fst snd]. by rewrite (note_empty hi m), (assoc_L (∪)).
Qed.

Lemma sink_down_loop_log fuel : forall hi arr m sz i elt,
  sink_down_loop compare fuel hi arr m sz i elt = (r ← sink_down_loop compare fuel hi arr ∅ sz i elt; Ret (r.1.1, r.1.2 ∪ m, r.2)).
Proof.
  induction fuel as [|fuel IH]; intros hi arr m sz i elt; cbn [sink_down_loop]; (destruct (Nat.leb i (sz / 2)); [|cbn [mbind outcome_bind fst snd]; by rewrite (left_id_L ∅ (∪))]); [done|].
  destruct (if Nat.ltb _ _ then _ else _) as [j| |]; [|done..]. cbn [mbind outcome_bind].
  destruct (slot arr j) as [y| |]; [|done..]. cbn [mbind outcome_bind]. destruct (compare elt y); [cbn [mbind outcome_bind fst snd]; by rewrite (left_id_L ∅ (∪))|].
  destruct (set_slot arr i y) as [arr'| |]; [|done..]. cbn [mbind outcome_bind]. rewrite (IH _ _ (note_index hi m y i)), (IH _ _ (note_index hi ∅ y i)).
  destruct (sink_down_loop _ _ _ _ _ _ _ _) as [[[a g] k]| |]; [|done..]. cbn [mbind outcome_bind fst snd]. by rewrite (note_empty hi m), (assoc_L (∪)).
Qed.

Lemma place_log h m arr log i elt :
  place compare (with_index h m) (arr, log ∪ m, i) elt = (h' ← place compare (with_index h ∅) (arr, log, i) elt; Ret (logged h' m)).
Proof.
  unfold place. destruct (set_slot arr i elt) as [arr'| |]; [|done..]. cbn [mbind outcome_bind]. destruct (INSIST _) as [[]| |]; [|done..]. cbn [mbind outcome_bind].
  change (has_index (with_index h m)) with (has_index h). change (has_index (with_index h ∅)) with (has_index h). by rewrite note_log.
Qed.

Lemma float_up_log h m i elt : float_up compare (with_index h m) i elt = (h' ← float_up compare (with_index h ∅) i elt; Ret (logged h' m)).
Proof.
  unfold float_up. change (float_up_loop compare i (has_index (with_index h m)) (array (with_index h m)) (heap_index (with_index h m)) i elt) with (float_up_loop compare i (has_index h) (array h) m i elt).
  change (float_up_loop compare i (has_index (with_index h ∅)) (array (with_index h ∅)) (heap_index (with_index h ∅)) i elt) with (float_up_loop compare i (has_index h) (array h) ∅ i elt).
  rewrite float_up_loop_log. destruct (float_up_loop _ _ _ _ _ _ _) as [[[a g] j]| |]; [|done..]. apply place_log.
Qed.

Lemma sink_down_log h m i elt : sink_down compare (with_index h m) i elt = (h' ← sink_down compare (with_index h ∅) i elt; Ret (logged h' m)).
Proof.
  unfold sink_down. change (sink_down_loop compare (last (with_index h m)) (has_index (with_index h m)) (array (with_index h m)) (heap_index (with_index h m)) (last (with_index h m)) i elt) with (sink_down_loop compare (last h) (has_index h) (array h) m (last h) i elt).
  change (sink_down_loop compare (last (with_index h ∅)) (has_index (with_index h ∅)) (array (with_index h ∅)) (heap_index (with_index h ∅)) (last (with_index h ∅)) i elt) with (sink_down_loop compare (last h) (has_index h) (array h) ∅ (last h) i elt).
  rewrite sink_down_loop_log. destruct (sink_down_loop _ _ _ _ _ _ _ _) as [[[a g] j]| |]; [|done..]. apply place_log.
Qed.

Lemma isc_heap_insert_log h m elt :
  isc_heap_insert compare true (with_index h m) elt = (r ← isc_heap_insert compare true (with_index h ∅) elt; Ret (r.1, logged r.2 m)).
Proof.
  unfold isc_heap_insert. change (last (with_index h m)) with (last h). change (last (with_index h ∅)) with (last h). cbn zeta. set (i := uint_add (last h) 1).
  assert (exists o, forall m, (if Nat.leb (size (with_last (with_index h m) i)) (last (with_last (with_index h m) i)) then resize true (with_last (with_index h m) i)
            else Ret (true, with_last (with_index h m) i)) = match o with Some g => Ret (true, with_index g m) | None => Undef end) as [o E].
  { cbn [size last with_last with_index]. destruct (Nat.leb (size h) i); [|by exists (Some (with_last h i))].
    unfold resize. cbn [size array size_increment with_last with_index]. destruct (Nat.leb _ _); [|by exists None].
    by exists (Some (IscHeap (uint_add (size h) (size_increment h)) (size_increment h) i
      (array h ++ replicate (uint_add (size h) (size_increment h) - length (array h)) None) (has_index h) ∅)). }
  rewrite !E. destruct o as [g|]; [|done]. cbn [mbind outcome_bind]. rewrite float_up_log. destruct (float_up _ _ _ _); done.
Qed.

Lemma isc_heap_delete_log h m i :
  isc_heap_delete compare (with_index h m) i = (h' ← isc_heap_delete compare (with_index h ∅) i; Ret (logged h' m)).
Proof.
  unfold isc_heap_delete. change (last (with_index h m)) with (last h). change (last (with_index h ∅)) with (last h). destruct (negb _); [done|].
  destruct (Nat.eqb i (last h)); [cbn [mbind outcome_bind]; unfold logged; cbn [heap_index with_last with_index]; by rewrite (left_id_L ∅ (∪))|].
  change (array (with_last (with_index h m) (last h - 1))) with (array h). change (array (with_last (with_index h ∅) (last h - 1))) with (array h).
  change (array (with_index h m)) with (array h). change (array (with_index h ∅)) with (array h).
  destruct (slot (array h) (last h)) as [elt| |]; [|done..]. cbn [mbind outcome_bind]. cbn zeta. destruct (slot (array h) i) as [x| |]; [|done..]. cbn [mbind outcome_bind].
  destruct (set_slot (array h) i elt) as [arr| |]; [|done..]. cbn [mbind outcome_bind].
  set (g := with_array (with_last h (last h - 1)) arr (heap_index h)).
  change (with_array (with_last (with_index h m) (last h - 1)) arr (heap_index (with_last (with_index h m) (last h - 1)))) with (with_index g m).
  change (with_array (with_last (with_index h ∅) (last h - 1)) arr (heap_index (with_last (with_index h ∅) (last h - 1)))) with (with_index g ∅).
  destruct (compare elt x); [apply float_up_log|apply sink_down_log].
Qed.

Lemma isc_heap_increased_log h m i :
  isc_heap_increased compare (with_index h m) i = (h' ← isc_heap_increased compare (with_index h ∅) i; Ret (logged h' m)).
Proof.
  unfold isc_heap_increased. change (last (with_index h m)) with (last h). change (last (with_index h ∅)) with (last h). destruct (negb _); [done|].
  change (array (with_index h m)) with (array h). change (array (with_index h ∅)) with (array h). destruct (slot (array h) i) as [x| |]; [|done..]. apply float_up_log.
Qed.

Lemma isc_heap_decreased_log h m i :
  isc_heap_decreased compare (with_index h m) i = (h' ← isc_heap_decreased compare (with_index h ∅) i; Ret (logged h' m)).
Proof.
  unfold isc_heap_decreased. change (last (with_index h m)) with (last h). change (last (with_index h ∅)) with (last h). destruct (negb _); [done|].
  change (array (with_index h m)) with (array h). change (array (with_index h ∅)) with (array h). destruct (slot (array h) i) as [x| |]; [|done..]. apply sink_down_log.
Qed.

End Callback.

(** Only elements of the heap have their index reported. *)
Section Reported.
Context {A : Type} `{Countable A} (compare : A -> A -> bool).
Implicit Types (arr : list (option A)) (m log : gmap A nat) (i j k n lst : nat) (x y z elt : A) (h : isc_heap A).

Lemma slot_Ret arr i x : slot arr i = Ret x -> at_slot arr i x.
Proof. unfold slot, at_slot. destruct (arr !! i) as [[y|]|]; intros E; [by injection E as ->|done..]. Qed.

Lemma set_slot_Ret arr i x arr' : set_slot arr i x = Ret arr' -> arr' = <[i := Some x]> arr.
Proof. unfold set_slot. case_bool_decide; intros E; [by injection E|done]. Qed.

Lemma move_dom arr m hi lst i j y m' z :
  i <> j -> 1 <= j <= lst -> at_slot arr j y ->
  (m' !! z <> note_index hi m y i !! z -> exists k, 1 <= k <= lst /\ k <> j /\ at_slot (<[i := Some y]> arr) k z) ->
  m' !! z <> m !! z -> exists k, 1 <= k <= lst /\ k <> i /\ at_slot arr k z.
Proof.
  intros Hne Hj Hy IH Hz. destruct (decide (z = y)) as [->|Hzy]; [by exists j|].
  destruct IH as (k & Hk & Hkj & [(-> & -> & _)|(Hki & Hkz)]%at_insert); [|done|by exists k].
  unfold note_index. destruct hi; [by rewrite lookup_insert_ne by done|done].
Qed.

Lemma float_up_loop_dom fuel lst z : forall hi arr m i elt arr' m' i',
  float_up_loop compare fuel hi arr m i elt = Ret (arr', m', i') -> 1 <= i <= lst ->
  m' !! z <> m !! z -> exists k, 1 <= k <= lst /\ k <> i /\ at_slot arr k z.
Proof.
  induction fuel as [|fuel IH]; intros hi arr m i elt arr' m' i' E Hi; cbn [float_up_loop] in E; (destruct (Nat.ltb_spec 1 i); [|injection E as -> -> ->; done]); [done|].
  destruct (slot arr (heap_parent i)) as [y| |] eqn:Ey; [|done..]. cbn [mbind outcome_bind] in E. apply slot_Ret in Ey. destruct (compare elt y); [|injection E as -> -> ->; done].
  destruct (set_slot arr i y) as [arr2| |] eqn:Es; [|done..]. cbn [mbind outcome_bind] in E. apply set_slot_Ret in Es. subst arr2. pose proof (parent_lt i ltac:(lia)).
  apply (move_dom arr m hi lst i (heap_parent i) y); [lia|lia|done|]. eapply IH; [exact E|lia].
Qed.

Lemma sink_down_loop_dom fuel z : forall hi arr m sz i elt arr' m' i',
  sink_down_loop compare fuel hi arr m sz i elt = Ret (arr', m', i') -> 1 <= i <= sz ->
  m' !! z <> m !! z -> exists k, 1 <= k <= sz /\ k <> i /\ at_slot arr k z.
Proof.
  induction fuel as [|fuel IH]; intros hi arr m sz i elt arr' m' i' E Hi; cbn [sink_down_loop] in E; (destruct (Nat.leb_spec i (sz / 2)) as [Hle|]; [|injection E as -> -> ->; done]); [done|].
  assert (heap_left i <= sz) as Hl by (unfold heap_left; pose proof (Nat.div_mod_eq sz 2); lia).
  assert (forall j, (if Nat.ltb (heap_left i) sz then x ← slot arr (heap_left i + 1); y ← slot arr (heap_left i); Ret (if compare x y then heap_left i + 1 else heap_left i) else Ret (heap_left i)) = Ret j -> i < j <= sz) as Hj.
  { intros j. unfold heap_left in *. destruct (Nat.ltb_spec (2 * i) sz); [|intros Ej; injection Ej as <-; lia].
    destruct (slot arr (2 * i + 1)) as [x| |]; [|done..]. destruct (slot arr (2 * i)) as [y| |]; [|done..]. cbn [mbind outcome_bind]. intros Ej. injection Ej as <-. destruct (compare x y); lia. }
  destruct (if Nat.ltb _ _ then _ else _) as [j| |] eqn:Ej; [|done..]. cbn [mbind outcome_bind] in E. specialize (Hj j eq_refl).
  destruct (slot arr j) as [y| |] eqn:Ey; [|done..]. cbn [mbind outcome_bind] in E. apply slot_Ret in Ey. destruct (compare elt y); [injection E as -> -> ->; done|].
  destruct (set_slot arr i y) as [arr2| |] eqn:Es; [|done..]. cbn [mbind outcome_bind] in E. apply set_slot_Ret in Es. subst arr2.
  apply (move_dom arr m hi sz i j y); [lia|lia|done|]. eapply IH; [exact E|lia].
Qed.

Lemma at_contents arr k n x : 1 <= k <= n -> at_slot arr k x -> Some x ∈ take n (drop 1 arr).
Proof.
  intros Hk Hx. apply list_elem_of_lookup. exists (k - 1). rewrite lookup_take_lt, lookup_drop by lia. replace (1 + (k - 1)) with k by lia. exact Hx.
Qed.

Lemma contents_at arr n x : Some x ∈ take n (drop 1 arr) -> exists k, 1 <= k <= n /\ at_slot arr k x.
Proof.
  intros (k & Hk)%list_elem_of_lookup. assert (k < n) by (apply lookup_lt_Some in Hk; rewrite length_take in Hk; lia).
  rewrite lookup_take_lt, lookup_drop in Hk by done. exists (1 + k). split; [lia|exact Hk].
Qed.

Lemma place_dom h arr m i elt h' z :
  place compare h (arr, m, i) elt = Ret h' -> heap_index h' !! z <> m !! z -> z = elt.
Proof.
  unfold place. destruct (set_slot arr i elt) as [arr'| |]; [|done..]. cbn [mbind outcome_bind]. destruct (INSIST _) as [[]| |]; [|done..]. cbn [mbind outcome_bind].
  intros E. injection E as <-. cbn [heap_index with_array]. unfold note_index. destruct (has_index h); [|done]. destruct (decide (z = elt)); [done|]. by rewrite lookup_insert_ne.
Qed.

Lemma float_up_dom h i elt h' z : float_up compare h i elt = Ret h' -> 1 <= i <= last h -> i < length (array h) ->
  heap_index h' !! z <> heap_index h !! z -> Some z ∈ take (last h) (drop 1 (<[i := Some elt]> (array h))).
Proof.
  unfold float_up. destruct (float_up_loop _ _ _ _ _ _ _) as [[[a g] j]| |] eqn:E; [|done..]. cbn [mbind outcome_bind]. intros Ep Hi Hl Hz.
  destruct (decide (z = elt)) as [->|Hne]; [apply (at_contents _ i); [lia|]; apply at_insert; by left|].
  destruct (decide (g !! z = heap_index h !! z)) as [Eg|Hg]; [exfalso; apply Hne, (place_dom _ _ _ _ _ _ _ Ep); by rewrite Eg|].
  destruct (float_up_loop_dom _ (last h) z _ _ _ _ _ _ _ _ E Hi Hg) as (k & Hk & Hki & Hkz). apply (at_contents _ k); [lia|]. apply at_insert. by right.
Qed.

Lemma sink_down_dom h i elt h' z : sink_down compare h i elt = Ret h' -> 1 <= i <= last h -> i < length (array h) ->
  heap_index h' !! z <> heap_index h !! z -> Some z ∈ take (last h) (drop 1 (<[i := Some elt]> (array h))).
Proof.
  unfold sink_down. destruct (sink_down_loop _ _ _ _ _ _ _ _) as [[[a g] j]| |] eqn:E; [|done..]. cbn [mbind outcome_bind]. intros Ep Hi Hl Hz.
  destruct (decide (z = elt)) as [->|Hne]; [apply (at_contents _ i); [lia|]; apply at_insert; by left|].
  destruct (decide (g !! z = heap_index h !! z)) as [Eg|Hg]; [exfalso; apply Hne, (place_dom _ _ _ _ _ _ _ Ep); by rewrite Eg|].
  destruct (sink_down_loop_dom _ z _ _ _ _ _ _ _ _ _ E Hi Hg) as (k & Hk & Hki & Hkz). apply (at_contents _ k); [lia|]. apply at_insert. by right.
Qed.

End Reported.

(** ** Heaps whose order is not known

    A client that changes the priority of an element before it deletes it may lose
    the order.  The array stays a heap without an order: [heap_shape]. *)

Section Shape.
Context {A : Type} `{Countable A} (compare : A -> A -> bool).
Implicit Types (arr : list (option A)) (m log : gmap A nat) (i j k n lst : nat) (x y z elt : A) (h : isc_heap A).

Definition unordered (x y : A) : bool := false.

#[export] Instance unordered_order : PriorityOrder unordered.
Proof. by split. Qed.

Definition heap_shape h : Prop := heap_ok unordered h.

Lemma heap_ok_shape h : heap_ok compare h -> heap_shape h.
Proof. intros [? ? ? ? _ ?]. by constructor. Qed.

Lemma float_up_loop_shape fuel hi arr m lst i elt :
  i <= fuel -> 1 <= i <= lst -> lst < length arr -> filled arr lst i ->
  exists arr' m' i', float_up_loop compare fuel hi arr m i elt = Ret (arr', m', i') /\
    moved arr m lst i elt hi arr' m' i' /\ above compare arr' i' elt.
Proof.
  revert arr m i. induction fuel as [|fuel IH]; intros arr m i Hfuel Hi Hlen Hf; [lia|]. cbn [float_up_loop]. destruct (Nat.ltb_spec 1 i).
  2: { eexists _, _, _. split; [done|]. split; [by apply moved_refl|]. intros Hc. lia. }
  pose proof (parent_lt i ltac:(lia)) as Hp. destruct (Hf (heap_parent i)) as [y Hy]; [lia..|]. rewrite (slot_at _ _ _ Hy). cbn [mbind outcome_bind]. destruct (compare elt y) eqn:Ec.
  - rewrite set_slot_in by lia. cbn [mbind outcome_bind].
    destruct (IH (<[i := Some y]> arr) (note_index hi m y i) (heap_parent i)) as (arr' & m' & i' & -> & Hm & Ha).
    { lia. } { lia. } { rewrite length_insert. lia. } { apply move_filled; [lia|done]. }
    eexists _, _, _. split; [done|]. split; [|done]. apply (moved_step _ _ _ _ (heap_parent i) _ y); auto; lia.
  - eexists _, _, _. split; [done|]. split; [by apply moved_refl|]. intros _ z Hz. by rewrite (at_fun _ _ _ _ Hz Hy).
Qed.

Lemma pick_some arr lst i :
  1 <= i -> i <= lst / 2 -> filled arr lst i ->
  exists j y,
    (if Nat.ltb (heap_left i) lst then x ← slot arr (heap_left i + 1); y ← slot arr (heap_left i); Ret (if compare x y then heap_left i + 1 else heap_left i) else Ret (heap_left i)) = Ret j /\
    heap_parent j = i /\ j <= lst /\ at_slot arr j y.
Proof.
  intros Hi Hhalf Hf. assert (heap_left i <= lst) as Hl by (unfold heap_left; pose proof (Nat.div_mod_eq lst 2); lia).
  destruct (Hf (heap_left i)) as [yl Hyl]; [unfold heap_left in *; lia..|]. destruct (Nat.ltb_spec (heap_left i) lst).
  - destruct (Hf (heap_left i + 1)) as [yr Hyr]; [unfold heap_left in *; lia..|]. rewrite (slot_at _ _ _ Hyr), (slot_at _ _ _ Hyl). cbn [mbind outcome_bind]. destruct (compare yr yl).
    + exists (heap_left i + 1), yr. split_and!; auto using parent_right; lia.
    + exists (heap_left i), yl. split_and!; auto using parent_left.
  - exists (heap_left i), yl. split_and!; auto using parent_left.
Qed.

Lemma sink_down_loop_shape fuel hi arr m lst i elt :
  lst < fuel + i -> 1 <= i <= lst -> lst < length arr -> filled arr lst i ->
  exists arr' m' i', sink_down_loop compare fuel hi arr m lst i elt = Ret (arr', m', i') /\
    moved arr m lst i elt hi arr' m' i' /\ (above compare arr i elt -> above compare arr' i' elt).
Proof.
  revert arr m i. induction fuel as [|fuel IH]; intros arr m i Hfuel Hi Hlen Hf; [lia|]. cbn [sink_down_loop]. destruct (Nat.leb_spec i (lst / 2)) as [Hle|Hgt].
  2: { eexists _, _, _. split; [done|]. split; [by apply moved_refl|done]. }
  destruct (pick_some arr lst i) as (j & y & -> & Hpj & Hj & Hy); [lia|done|done|].
  cbn [mbind outcome_bind]. rewrite (slot_at _ _ _ Hy). cbn [mbind outcome_bind]. pose proof (child_ge j i Hpj ltac:(lia)) as Hji. destruct (compare elt y) eqn:Ec.
  - eexists _, _, _. split; [done|]. split; [by apply moved_refl|done].
  - rewrite set_slot_in by lia. cbn [mbind outcome_bind].
    destruct (IH (<[i := Some y]> arr) (note_index hi m y i) j) as (arr' & m' & i' & -> & Hm & Ha).
    { lia. } { lia. } { rewrite length_insert. lia. } { apply move_filled; [lia|done]. }
    eexists _, _, _. split; [done|]. split; [apply (moved_step _ _ _ _ j _ y); auto; lia|]. intros _. apply Ha.
    intros _ z. rewrite Hpj. intros [(_ & -> & _)|(? & _)]%at_insert; done.
Qed.

Lemma place_shape h arr m i elt arr' m' i' :
  length arr = size h -> sizes_ok h -> last h < size h -> 1 <= i <= last h ->
  moved arr m (last h) i elt (has_index h) arr' m' i' -> above compare arr' i' elt ->
  (has_index h = true -> indexed arr m (last h) i elt) ->
  exists h', place compare h (arr', m', i') elt = Ret h' /\ heap_shape h' /\ last h' = last h /\
    contents h' ≡ₚ take (last h) (drop 1 (<[i := Some elt]> arr)).
Proof.
  intros Hsz Hinc Hlast Hi Hmv Ha Hidx. pose proof Hmv as (Hl & Hi' & Hf & _).
  destruct (place_spec unordered h arr m i elt arr' m' i') as (h' & Hp & Hok & Hla & _ & _ & Hc); [done..|by intros ?|by intros ?|by intros ?|done|].
  exists h'. split; [|done]. unfold place in *. rewrite set_slot_in in * by lia. cbn [mbind outcome_bind] in *.
  assert (at_slot (<[i' := Some elt]> arr') i' elt) as Hat by (apply at_insert; left; split_and!; [done|done|lia]).
  assert (INSIST (HEAPCONDITION compare (<[i' := Some elt]> arr') i') = Ret tt) as ->.
  { unfold HEAPCONDITION. destruct (Nat.eqb_spec i' 1); [done|].
    pose proof (parent_lt i' ltac:(lia)). destruct (Hf (heap_parent i')) as [y Hy]; [lia..|].
    rewrite (slot_at _ _ _ Hat). cbn [mbind outcome_bind]. rewrite (slot_at _ _ y) by (apply at_insert; right; split; [lia|done]).
    cbn [mbind outcome_bind]. rewrite (Ha ltac:(lia) y Hy). done. }
  destruct (INSIST (HEAPCONDITION unordered _ _)) as [[]| |]; done.
Qed.

Lemma isc_heap_insert_shape h elt :
  heap_shape h -> (Z.of_nat (last h) + 1 < 2 ^ 31)%Z -> (has_index h = true -> forall k x, 1 <= k <= last h -> at_slot (array h) k x -> x <> elt) ->
  exists h', isc_heap_insert compare true h elt = Ret (ISC_R_SUCCESS, h') /\ heap_shape h' /\ last h' = last h + 1 /\ contents h' ≡ₚ Some elt :: contents h.
Proof.
  intros Hok Hroom Hnew. destruct (resize_ok unordered h Hok Hroom) as (Eu & h2 & E2 & Hlen & Hl2 & Hlt & Hinc & Hhi & Hm & Harr).
  unfold isc_heap_insert. rewrite Eu. cbn zeta. change (last (with_last h (last h + 1))) with (last h + 1). change (size (with_last h (last h + 1))) with (size h).
  rewrite E2. cbn [mbind outcome_bind].
  assert (forall k, 1 <= k <= last h -> array h2 !! k = array h !! k) as Heq by (intros k Hk; apply Harr; destruct (ok_last _ _ Hok); lia).
  unfold float_up. destruct (float_up_loop_shape (last h + 1) (has_index h2) (array h2) (heap_index h2) (last h2) (last h + 1) elt) as (arr' & m' & i' & -> & Hmv & Ha); try lia.
  { intros k Hk Hne. unfold at_slot. rewrite Heq by lia. apply (ok_filled _ _ Hok). lia. }
  cbn [mbind outcome_bind].
  destruct (place_shape h2 (array h2) (heap_index h2) (last h + 1) elt arr' m' i') as (h' & -> & Hok' & Hl' & Hc); auto; try lia.
  { intros Hidx k x Hk Hne Hx. rewrite Hhi in Hidx. unfold at_slot in Hx. rewrite Heq in Hx by lia.
    split; [by apply (Hnew Hidx k x); [lia|]|]. rewrite Hm. apply (ok_index _ _ Hok Hidx); [lia|done]. }
  cbn [mbind outcome_bind]. exists h'. split_and!; [done|done|lia|].
  rewrite Hc, Hl2, contents_snoc by lia. unfold contents. rewrite <- Permutation_cons_append. rewrite (contents_ext (array h2) (array h)); [done|]. intros k Hk. apply Heq. lia.
Qed.

(** Deleting the root, or an element that the last one has precedence over. *)
Lemma isc_heap_delete_shape h index x :
  heap_shape h -> 1 <= index <= last h -> at_slot (array h) index x ->
  (index = 1 \/ index = last h \/ forall elt, at_slot (array h) (last h) elt -> compare elt x = true) ->
  exists h', isc_heap_delete compare h index = Ret h' /\ heap_shape h' /\ last h' = last h - 1 /\ contents h ≡ₚ Some x :: contents h'.
Proof.
  intros Hok Hi Hx Hside. destruct (isc_heap_delete_ok unordered h index x Hok Hi Hx) as (g & Eg & Hg & Hlg & Hcg).
  unfold isc_heap_delete in *. destruct (negb _); [done|]. destruct (Nat.eqb_spec index (last h)) as [->|Hne]; [by exists g|]. clear g Eg Hg Hlg Hcg.
  destruct (ok_filled _ _ Hok (last h) ltac:(lia)) as [elt Helt]. rewrite (slot_at _ _ _ Helt). cbn [mbind outcome_bind].
  change (array (with_last h (last h - 1))) with (array h). rewrite (slot_at _ _ _ Hx). cbn [mbind outcome_bind]. rewrite set_slot_in by (by eapply at_lt). cbn [mbind outcome_bind].
  destruct (delete_hole unordered h index x elt Hok Hi Hne Hx Helt) as (Hf & _ & _ & _ & _ & Hid & Hc). set (h2 := with_array _ _ _) in *.
  pose proof (ok_inc _ _ Hok) as Hinc. pose proof (ok_last _ _ Hok) as Hlast. pose proof (ok_alloc _ _ Hok) as Hal.
  assert (length (array h2) = size h2) as Hlen2 by (cbn; rewrite length_insert; done).
  assert (exists arr' m' i', (if compare elt x then float_up_loop compare index (has_index h2) (array h2) (heap_index h2) index elt
      else sink_down_loop compare (last h2) (has_index h2) (array h2) (heap_index h2) (last h2) index elt) = Ret (arr', m', i') /\
    moved (array h2) (heap_index h2) (last h2) index elt (has_index h2) arr' m' i' /\ above compare arr' i' elt) as (arr' & m' & i' & Hloop & Hmv & Ha').
  { destruct (compare elt x) eqn:E.
    - apply float_up_loop_shape; auto; cbn; rewrite ?length_insert; lia.
    - destruct (sink_down_loop_shape (last h2) (has_index h2) (array h2) (heap_index h2) (last h2) index elt) as (a & m' & i' & -> & Hmv & Ha); auto; try (cbn; rewrite ?length_insert; lia).
      exists a, m', i'. split_and!; [done..|]. apply Ha. destruct Hside as [->|[->|Hside]]; [intros Hc1; lia|done|]. by rewrite Hside in E. }
  destruct (place_shape h2 (array h2) (heap_index h2) index elt arr' m' i') as (h' & Hpl & Hok' & Hl' & Hc'); auto; try (cbn; lia).
  exists h'. split_and!; [|done|done|].
  + unfold float_up, sink_down. destruct (compare elt x); rewrite Hloop; cbn [mbind outcome_bind]; exact Hpl.
  + rewrite Hc, Hc'. done.
Qed.

End Shape.

(** ** What clients use

    A client keeps the indices of the elements itself, here in [m]: the callback
    writes those that an operation logs. *)

Section Client.
Context {A : Type} `{Countable A} (compare : A -> A -> bool) {ord : PriorityOrder compare}.
Implicit Types (arr : list (option A)) (m log : gmap A nat) (i j k n lst : nat) (x y z elt : A) (h : isc_heap A).

Lemma logged_with_index h m : with_index (with_index h ∅) m = with_index h m.
Proof. done. Qed.

Lemma contents_index h m m' :
  (forall x, Some x ∈ contents h -> m' !! x = m !! x) -> heap_ok compare (with_index h m) -> heap_ok compare (with_index h m').
Proof.
  intros Hm [? ? ? Hf Ho Hi]. constructor; cbn [with_index last size array size_increment has_index heap_index] in *; [done..|].
  intros Hhi k x Hk Hx. rewrite Hm; [by apply Hi|]. by apply (at_contents _ k).
Qed.

Lemma contents_order (c' : A -> A -> bool) h :
  (forall x y, Some x ∈ contents h -> Some y ∈ contents h -> c' x y = compare x y) -> heap_ok compare h -> heap_ok c' h.
Proof.
  intros Hc [? ? ? Hf Ho Hi]. constructor; try done. intros k x y Hk Hx Hy. pose proof (parent_lt k ltac:(lia)).
  rewrite Hc; [by apply (Ho k)|apply (at_contents _ k); [lia|done]|apply (at_contents _ (heap_parent k)); [lia|done]].
Qed.

Lemma contents_nodup h m : has_index h = true -> heap_ok compare (with_index h m) -> NoDup (contents h).
Proof.
  intros Hhi [_ _ Hl Hf _ Hi]. cbn [with_index last size array size_increment has_index heap_index] in *. apply NoDup_alt. intros i j o Ei Ej.
  assert (forall i, contents h !! i = Some o -> exists x, o = Some x /\ i < last h /\ at_slot (array h) (1 + i) x) as K.
  { intros k Ek. assert (k < last h) as Hk by (apply lookup_lt_Some in Ek; unfold contents in Ek; rewrite length_take in Ek; lia).
    unfold contents in Ek. rewrite lookup_take_lt, lookup_drop in Ek by done. destruct (Hf (1 + k) ltac:(lia)) as [x Hx]. unfold at_slot in Hx. rewrite Ek in Hx. injection Hx as ->. by exists x. }
  destruct (K i Ei) as (x & -> & Hi1 & Hx). destruct (K j Ej) as (y & E & Hj1 & Hy). injection E as <-.
  pose proof (Hi Hhi (1 + i) x ltac:(lia) Hx) as E1. pose proof (Hi Hhi (1 + j) x ltac:(lia) Hy) as E2. rewrite E1 in E2. injection E2. lia.
Qed.

Lemma contents_indexed h m x : has_index h = true -> heap_ok compare (with_index h m) -> Some x ∈ contents h ->
  exists k, m !! x = Some k /\ 1 <= k <= last h /\ at_slot (array h) k x.
Proof.
  intros Hhi Hok (k & Hk & Hx)%contents_at. exists k. split; [|done]. by apply (ok_index _ _ Hok).
Qed.

(** A heap operation starting from an empty log. *)
Lemma insert_has h elt r h' : isc_heap_insert compare true h elt = Ret (r, h') -> has_index h' = has_index h.
Proof.
  unfold isc_heap_insert, float_up, place. cbn zeta. destruct (if Nat.leb _ _ then _ else _) as [[ok h2]| |] eqn:E; [|done..]. cbn [mbind outcome_bind].
  assert (has_index h2 = has_index h) as Eh.
  { destruct (Nat.leb _ _); [unfold resize in E; destruct (Nat.leb _ _); [|done]|]; injection E as <- <-; done. }
  destruct ok; [|intros [= <- <-]; done]. destruct (float_up_loop _ _ _ _ _ _ _) as [[[a g] j]| |]; [|done..]. cbn [mbind outcome_bind].
  destruct (set_slot _ _ _); [|done..]. cbn [mbind outcome_bind]. destruct (INSIST _); [|done..]. cbn [mbind outcome_bind]. by intros [= <- <-].
Qed.

Lemma place_has h r elt h' : place compare h r elt = Ret h' -> has_index h' = has_index h.
Proof.
  destruct r as [[a g] j]. unfold place. destruct (set_slot _ _ _); [|done..]. cbn [mbind outcome_bind]. destruct (INSIST _); [|done..]. cbn [mbind outcome_bind]. by intros [= <-].
Qed.

Lemma delete_has h i h' : isc_heap_delete compare h i = Ret h' -> has_index h' = has_index h.
Proof.
  unfold isc_heap_delete, float_up, sink_down. destruct (negb _); [done|]. destruct (Nat.eqb _ _); [by intros [= <-]|]. destruct (slot (array h) (last h)); [|by intros ?..]. cbn [mbind outcome_bind]. cbn zeta.
  destruct (slot _ i); [|by intros ?..]. cbn [mbind outcome_bind]. destruct (set_slot _ _ _); [|by intros ?..]. cbn [mbind outcome_bind].
  destruct (compare _ _); [destruct (float_up_loop _ _ _ _ _ _ _)|destruct (sink_down_loop _ _ _ _ _ _ _ _)]; try (by intros ?); cbn [mbind outcome_bind]; intros E; by apply place_has in E.
Qed.

Lemma contents_with_index h m : contents (with_index h m) = contents h.
Proof. done. Qed.

Lemma insert_dom h elt r h' z : heap_index h = ∅ -> isc_heap_insert compare true h elt = Ret (r, h') -> contents h' ≡ₚ Some elt :: contents h ->
  (exists m, heap_shape (with_index h m)) -> (Z.of_nat (last h) + 1 < 2 ^ 31)%Z -> Some z ∉ contents h' -> heap_index h' !! z = None.
Proof.
  intros He E Hc [m Hok] Hroom Hz. destruct Hok as [Hal Hin Hla _ _ _]. cbn [with_index last size array size_increment] in *.
  destruct (resize_room h Hal Hin Hla Hroom) as (Eu & h2 & E2 & Hlen & Hl2 & Hlt & Hinc & Hhi & Hm & Harr).
  unfold isc_heap_insert in E. rewrite Eu in E. cbn zeta in E. change (last (with_last h (last h + 1))) with (last h + 1) in E. change (size (with_last h (last h + 1))) with (size h) in E.
  rewrite E2 in E. cbn [mbind outcome_bind] in E.
  destruct (float_up compare h2 (last h + 1) elt) as [h3| |] eqn:E3; [|done..]. cbn [mbind outcome_bind] in E. injection E as <- <-.
  destruct (decide (heap_index h3 !! z = heap_index h2 !! z)) as [Eq|Hne]; [by rewrite Eq, Hm, He|].
  apply (float_up_dom compare _ _ _ _ _ E3) in Hne; [|lia|lia]. rewrite Hl2, contents_snoc, elem_of_app in Hne by lia. exfalso. apply Hz. rewrite Hc.
  destruct Hne as [Hne|Hne]; [|by apply list_elem_of_singleton in Hne as ->; left].
  right. unfold contents. erewrite contents_ext; [exact Hne|]. intros k Hk. symmetry. apply Harr. lia.
Qed.

Lemma delete_dom h index x h' z : heap_index h = ∅ -> isc_heap_delete compare h index = Ret h' -> contents h ≡ₚ Some x :: contents h' ->
  (exists m, heap_shape (with_index h m)) -> 1 <= index <= last h -> at_slot (array h) index x -> Some z ∉ contents h' -> heap_index h' !! z = None.
Proof.
  intros He E Hc [m Hok] Hi Hx Hz. unfold isc_heap_delete in E. destruct (negb _); [done|]. destruct (Nat.eqb_spec index (last h)) as [->|Hne]; [injection E as <-; cbn [heap_index with_last]; by rewrite He|].
  destruct (ok_filled _ _ Hok (last h) ltac:(cbn; lia)) as [elt Helt]. cbn [with_index array] in Helt. rewrite (slot_at _ _ _ Helt) in E. cbn [mbind outcome_bind] in E.
  change (array (with_last h (last h - 1))) with (array h) in E. rewrite (slot_at _ _ _ Hx) in E. cbn [mbind outcome_bind] in E. rewrite set_slot_in in E by (by eapply at_lt). cbn [mbind outcome_bind] in E.
  destruct (delete_hole unordered (with_index h m) index x elt Hok Hi Hne Hx Helt) as (_ & _ & _ & _ & _ & _ & Hc2). cbn zeta in Hc2. cbn [with_index last array] in Hc2. rewrite contents_with_index in Hc2.
  destruct (decide (heap_index h' !! z = None)) as [|Hn]; [done|]. exfalso. apply Hz.
  assert (Some z ∈ take (last h - 1) (drop 1 (<[index := Some elt]> (<[index := Some elt]> (array h))))) as Hin.
  { pose proof (at_lt _ _ _ Hx). set (h2 := with_array _ _ _) in E. assert (heap_index h' !! z <> heap_index h2 !! z) by (cbn; by rewrite He, lookup_empty).
    destruct (compare elt x); [eapply (float_up_dom compare h2)|eapply (sink_down_dom compare h2)]; try done; cbn; rewrite ?length_insert; lia. }
  rewrite Hc in Hc2. apply Permutation_cons_inv in Hc2. by rewrite Hc2.
Qed.

End Client.

Section ClientOperations.
Context {A : Type} `{Countable A} (compare : A -> A -> bool).
Implicit Types (arr : list (option A)) (m log : gmap A nat) (i j k n lst : nat) (x y z elt : A) (h : isc_heap A).

(** Indices are reported for elements only. *)
Definition log_ok h : Prop := forall z, Some z ∉ contents h -> heap_index h !! z = None.

Lemma new_element h m elt : Some elt ∉ contents h ->
  has_index (with_index h m) = true -> forall k x, 1 <= k <= last (with_index h m) -> at_slot (array (with_index h m)) k x -> x <> elt.
Proof. intros Hn _ k x Hk Hx ->. apply Hn. by apply (at_contents _ k). Qed.

Lemma insert_client (c : A -> A -> bool) h m elt g :
  isc_heap_insert compare true (with_index h m) elt = Ret (ISC_R_SUCCESS, g) -> (Z.of_nat (last h) + 1 < 2 ^ 31)%Z -> heap_ok c (with_index h m) -> heap_ok c g -> has_index h = true -> contents g ≡ₚ Some elt :: contents h ->
  exists h', isc_heap_insert compare true (with_index h ∅) elt = Ret (ISC_R_SUCCESS, h') /\ g = logged h' m /\ has_index h' = true /\ log_ok h'.
Proof.
  intros E Hroom Hok Hg Hhi Hc. rewrite isc_heap_insert_log in E. destruct (isc_heap_insert compare true (with_index h ∅) elt) as [[r h']| |] eqn:E0; [|done..]. cbn [mbind outcome_bind fst snd] in E. injection E as -> <-.
  exists h'. split_and!; [done|done|by rewrite (insert_has _ _ _ _ _ E0)|]. intros z Hz. eapply (insert_dom compare); [|exact E0|done| |done|done]; [done|]. exists m. rewrite logged_with_index. by eapply heap_ok_shape.
Qed.

Lemma delete_client (c : A -> A -> bool) h m index x g :
  isc_heap_delete compare (with_index h (<[x := index]> m)) index = Ret g -> heap_ok c (with_index h (<[x := index]> m)) -> heap_ok c g -> has_index h = true ->
  1 <= index <= last h -> at_slot (array h) index x -> contents h ≡ₚ Some x :: contents g ->
  exists h', isc_heap_delete compare (with_index h ∅) index = Ret h' /\ heap_ok c (logged h' m) /\ has_index h' = true /\ log_ok h' /\ contents g = contents h' /\ last g = last h'.
Proof.
  intros E Hok Hg Hhi Hi Hx Hc. pose proof (contents_nodup c h _ Hhi Hok) as Hnd. rewrite isc_heap_delete_log in E.
  destruct (isc_heap_delete compare (with_index h ∅) index) as [h'| |] eqn:E0; [|done..]. cbn [mbind outcome_bind] in E. injection E as <-.
  change (contents (logged h' (<[x:=index]> m))) with (contents h') in *. rewrite Hc in Hnd. apply NoDup_cons in Hnd as [Hnx _].
  exists h'. split_and!; [done| |by rewrite (delete_has _ _ _ _ E0)| |done|done].
  - eapply (contents_index c h'); [|exact Hg]. intros z Hz. rewrite !lookup_union, lookup_insert_ne; [done|]. intros ->. done.
  - intros z Hz. eapply (delete_dom compare); [|exact E0|done| | |done|done]; [done| |done]. exists (<[x := index]> m). rewrite logged_with_index. by eapply heap_ok_shape.
Qed.

Lemma client_insert {ord : PriorityOrder compare} h m elt :
  heap_ok compare (with_index h m) -> has_index h = true -> (Z.of_nat (last h) + 1 < 2 ^ 31)%Z -> Some elt ∉ contents h ->
  exists h', isc_heap_insert compare true (with_index h ∅) elt = Ret (ISC_R_SUCCESS, h') /\
    heap_ok compare (logged h' m) /\ has_index h' = true /\ last h' = last h + 1 /\ contents h' ≡ₚ Some elt :: contents h /\ log_ok h'.
Proof.
  intros Hok Hhi Hroom Hn. destruct (isc_heap_insert_ok compare (with_index h m) elt Hok Hroom (new_element h m elt Hn)) as (g & E & Hg & Hl & Hc).
  destruct (insert_client compare h m elt g E Hroom Hok Hg Hhi Hc) as (h' & E' & -> & Hhi' & Hlog). by exists h'.
Qed.

Lemma client_insert_shape h m elt :
  heap_shape (with_index h m) -> has_index h = true -> (Z.of_nat (last h) + 1 < 2 ^ 31)%Z -> Some elt ∉ contents h ->
  exists h', isc_heap_insert compare true (with_index h ∅) elt = Ret (ISC_R_SUCCESS, h') /\
    heap_shape (logged h' m) /\ has_index h' = true /\ last h' = last h + 1 /\ contents h' ≡ₚ Some elt :: contents h /\ log_ok h'.
Proof.
  intros Hok Hhi Hroom Hn. destruct (isc_heap_insert_shape compare (with_index h m) elt Hok Hroom (new_element h m elt Hn)) as (g & E & Hg & Hl & Hc).
  destruct (insert_client unordered h m elt g E Hroom Hok Hg Hhi Hc) as (h' & E' & -> & Hhi' & Hlog). by exists h'.
Qed.

Lemma client_delete {ord : PriorityOrder compare} h m index x :
  heap_ok compare (with_index h (<[x := index]> m)) -> has_index h = true -> 1 <= index <= last h -> at_slot (array h) index x ->
  exists h', isc_heap_delete compare (with_index h ∅) index = Ret h' /\
    heap_ok compare (logged h' m) /\ has_index h' = true /\ last h' = last h - 1 /\ contents h ≡ₚ Some x :: contents h' /\ log_ok h'.
Proof.
  intros Hok Hhi Hi Hx. destruct (isc_heap_delete_ok compare (with_index h (<[x := index]> m)) index x Hok Hi Hx) as (g & E & Hg & Hl & Hc).
  destruct (delete_client compare h m index x g E Hok Hg Hhi Hi Hx Hc) as (h' & E' & Hok' & Hhi' & Hlog & Ec & El). rewrite Ec in Hc. rewrite El in Hl. by exists h'.
Qed.

Lemma client_delete_shape h m index x :
  heap_shape (with_index h (<[x := index]> m)) -> has_index h = true -> 1 <= index <= last h -> at_slot (array h) index x ->
  (index = 1 \/ index = last h \/ forall elt, at_slot (array h) (last h) elt -> compare elt x = true) ->
  exists h', isc_heap_delete compare (with_index h ∅) index = Ret h' /\
    heap_shape (logged h' m) /\ has_index h' = true /\ last h' = last h - 1 /\ contents h ≡ₚ Some x :: contents h' /\ log_ok h'.
Proof.
  intros Hok Hhi Hi Hx Hs. destruct (isc_heap_delete_shape compare (with_index h (<[x := index]> m)) index x Hok Hi Hx Hs) as (g & E & Hg & Hl & Hc).
  destruct (delete_client unordered h m index x g E Hok Hg Hhi Hi Hx Hc) as (h' & E' & Hok' & Hhi' & Hlog & Ec & El). rewrite Ec in Hc. rewrite El in Hl. by exists h'.
Qed.

End ClientOperations.

(** A client that changes the priority of one element, from the order [c0] to
    [compare]. *)
Section Repriority.
Context {A : Type} `{Countable A} (c0 compare : A -> A -> bool) {ord0 : PriorityOrder c0} {ord : PriorityOrder compare}.
Implicit Types (m : gmap A nat) (i k : nat) (x y z elt : A) (h : isc_heap A).

Lemma repriority_log h m index elt :
  heap_ok c0 (with_index h m) -> has_index h = true -> 1 <= index <= last h -> at_slot (array h) index elt ->
  (forall x y, x <> elt -> y <> elt -> compare x y = c0 x y) ->
  ((forall x, c0 x elt = false -> compare x elt = false) -> exists g, isc_heap_increased compare (with_index h m) index = Ret g /\ heap_ok compare g /\ contents g ≡ₚ contents h) /\
  ((forall y, c0 elt y = false -> compare elt y = false) -> exists g, isc_heap_decreased compare (with_index h m) index = Ret g /\ heap_ok compare g /\ contents g ≡ₚ contents h).
Proof.
  intros Hok Hhi Hi Hx Hc. destruct Hok as [Hal Hinc Hla Hf Ho Hid]. cbn [with_index last size array size_increment has_index heap_index] in *.
  assert (forall k x, 1 <= k <= last h -> k <> index -> at_slot (array h) k x -> x <> elt) as Hne.
  { intros k x Hk Hki Hkx ->. pose proof (Hid Hhi k elt Hk Hkx) as E1. pose proof (Hid Hhi index elt Hi Hx) as E2. rewrite E1 in E2. by injection E2. }
  destruct (isc_heap_repriority_ok compare (with_index h m) index elt) as [Hup Hdown]; cbn [with_index last size array size_increment has_index heap_index]; try done; try lia.
  - intros k Hk _. by apply Hf.
  - intros k x y Hk Hk1 Hk2 Hkx Hky. pose proof (parent_lt k ltac:(lia)). rewrite Hc; [by apply (Ho k)|by apply (Hne k); [lia|..]|by apply (Hne (heap_parent k)); [lia|..]].
  - intros k x y Hk Hpk Hi2 Hkx Hky. pose proof (child_ge k index Hpk ltac:(lia)). pose proof (parent_lt index Hi2).
    rewrite Hc; [|by apply (Hne k); [lia|lia|]|by apply (Hne (heap_parent index)); [lia|lia|]].
    apply (compare_negtrans x elt y); [apply (Ho k); [lia|done|by rewrite Hpk]|apply (Ho index); [lia|done|done]].
  - intros _ k x Hk Hki Hkx. split; [by apply (Hne k)|by apply Hid].
  - split.
    + intros Hcx. apply Hup. intros k x Hk Hpk Hkx. pose proof (child_ge k index Hpk ltac:(lia)). apply Hcx, (Ho k); [cbn in Hk; lia|done|by rewrite Hpk].
    + intros Hcy. apply Hdown. intros Hi2 y Hy. apply Hcy, (Ho index); [lia|done|done].
Qed.

Lemma client_increased h m index elt :
  heap_ok c0 (with_index h m) -> has_index h = true -> 1 <= index <= last h -> at_slot (array h) index elt ->
  (forall x y, x <> elt -> y <> elt -> compare x y = c0 x y) -> (forall x, c0 x elt = false -> compare x elt = false) ->
  exists h', isc_heap_increased compare (with_index h ∅) index = Ret h' /\ heap_ok compare (logged h' m) /\ has_index h' = true /\ last h' = last h /\ contents h' ≡ₚ contents h /\ log_ok h'.
Proof.
  intros Hok Hhi Hi Hx Hc Hcx. destruct (repriority_log h m index elt Hok Hhi Hi Hx Hc) as [Hup _]. destruct (Hup Hcx) as (g & E & Hg & Hcg).
  rewrite isc_heap_increased_log in E. destruct (isc_heap_increased compare (with_index h ∅) index) as [h'| |] eqn:E0; [|done..]. cbn [mbind outcome_bind] in E. injection E as <-.
  change (contents (logged h' m)) with (contents h') in Hcg. exists h'. unfold isc_heap_increased in E0. destruct (negb _); [done|]. cbn [with_index array] in E0. rewrite (slot_at _ _ _ Hx) in E0. cbn [mbind outcome_bind] in E0.
  assert (last h' = last h /\ has_index h' = has_index h) as [El Eh].
  { unfold float_up in E0. destruct (float_up_loop _ _ _ _ _ _ _) as [[[a g] j]| |]; [|done..]. cbn [mbind outcome_bind] in E0. unfold place in E0. destruct (set_slot _ _ _); [|done..]. cbn [mbind outcome_bind] in E0.
    destruct (INSIST _); [|done..]. cbn [mbind outcome_bind] in E0. by injection E0 as <-. }
  split_and!; [done|done|by rewrite Eh|done|done|]. intros z Hz. destruct (decide (heap_index h' !! z = None)) as [|Hn]; [done|]. exfalso. apply Hz. rewrite Hcg.
  apply (float_up_dom compare _ _ _ _ z E0) in Hi as K; [|by eapply at_lt|by cbn; rewrite lookup_empty]. cbn [with_index last array] in K. by rewrite list_insert_id in K.
Qed.

Lemma client_decreased h m index elt :
  heap_ok c0 (with_index h m) -> has_index h = true -> 1 <= index <= last h -> at_slot (array h) index elt ->
  (forall x y, x <> elt -> y <> elt -> compare x y = c0 x y) -> (forall y, c0 elt y = false -> compare elt y = false) ->
  exists h', isc_heap_decreased compare (with_index h ∅) index = Ret h' /\ heap_ok compare (logged h' m) /\ has_index h' = true /\ last h' = last h /\ contents h' ≡ₚ contents h /\ log_ok h'.
Proof.
  intros Hok Hhi Hi Hx Hc Hcy. destruct (repriority_log h m index elt Hok Hhi Hi Hx Hc) as [_ Hdown]. destruct (Hdown Hcy) as (g & E & Hg & Hcg).
  rewrite isc_heap_decreased_log in E. destruct (isc_heap_decreased compare (with_index h ∅) index) as [h'| |] eqn:E0; [|done..]. cbn [mbind outcome_bind] in E. injection E as <-.
  change (contents (logged h' m)) with (contents h') in Hcg. exists h'. unfold isc_heap_decreased in E0. destruct (negb _); [done|]. cbn [with_index array] in E0. rewrite (slot_at _ _ _ Hx) in E0. cbn [mbind outcome_bind] in E0.
  assert (last h' = last h /\ has_index h' = has_index h) as [El Eh].
  { unfold sink_down in E0. destruct (sink_down_loop _ _ _ _ _ _ _ _) as [[[a g] j]| |]; [|done..]. cbn [mbind outcome_bind] in E0. unfold place in E0. destruct (set_slot _ _ _); [|done..]. cbn [mbind outcome_bind] in E0.
    destruct (INSIST _); [|done..]. cbn [mbind outcome_bind] in E0. by injection E0 as <-. }
  split_and!; [done|done|by rewrite Eh|done|done|]. intros z Hz. destruct (decide (heap_index h' !! z = None)) as [|Hn]; [done|]. exfalso. apply Hz. rewrite Hcg.
  apply (sink_down_dom compare _ _ _ _ z E0) in Hi as K; [|by eapply at_lt|by cbn; rewrite lookup_empty]. cbn [with_index last array] in K. by rewrite list_insert_id in K.
Qed.

End Repriority.

(** C29: A heap whose comparison is a strict weak order is a priority queue of its elements.
    For a well-formed heap with a size increment from 2 to 2^31 (an increment of 1 writes
    the first element outside of the array: [isc_heap_increment_1_overflows], heap.c:123)
    and a size of 32 bits, an insertion, with memory available, fewer than 2^31 - 1 elements
    before it (so that neither the count nor the size of the array wraps) and, when indices
    are reported, an element that is not there already, adds exactly the element; a deletion
    at an index of the heap removes exactly the element there; both keep the order, the
    bounds of the array, the code's own assertions and the indices reported to the client;
    and the element at index 1 of a heap that is not empty is one that none has precedence
    over. *)
Theorem isc_heap_refines {A} `{Countable A} (compare : A -> A -> bool) {ord : PriorityOrder compare} (h : isc_heap A)
    (Hok : heap_ok compare h) :
  (forall elt, (Z.of_nat (last h) + 1 < 2 ^ 31)%Z -> (has_index h = true -> Some elt ∉ contents h) ->
     exists h', isc_heap_insert compare true h elt = Ret (ISC_R_SUCCESS, h') /\ heap_ok compare h' /\ contents h' ≡ₚ Some elt :: contents h) /\
  (forall index x, 1 <= index <= last h -> at_slot (array h) index x ->
     exists h', isc_heap_delete compare h index = Ret h' /\ heap_ok compare h' /\ contents h ≡ₚ Some x :: contents h') /\
  (1 <= last h -> exists x, isc_heap_element h 1 = Ret x /\ Some x ∈ contents h /\ forall y, Some y ∈ contents h -> compare y x = false).
Proof.
  split_and!.
  - intros elt Hroom Hn. destruct (isc_heap_insert_ok compare h elt Hok Hroom) as (h' & E & Hok' & _ & Hc); [|by exists h'].
    intros Hhi k x Hk Hx ->. apply (Hn Hhi). by apply (at_contents _ k).
  - intros index x Hi Hx. destruct (isc_heap_delete_ok compare h index x Hok Hi Hx) as (h' & E & Hok' & _ & Hc). by exists h'.
  - by apply isc_heap_top.
Qed.

Lemma isc_heap_refines_witness :
  (exists h', isc_heap_insert Nat.ltb true heap3 1 = Ret (ISC_R_SUCCESS, h') /\ heap_ok Nat.ltb h') /\
  (exists h', isc_heap_delete Nat.ltb heap3 1 = Ret h' /\ heap_ok Nat.ltb h').
Proof.
  destruct (isc_heap_refines Nat.ltb heap3 heap3_ok) as (Hi & Hd & _). split.
  - destruct (Hi 1) as (h' & E & Hok & _); [done| |by exists h']. intros _. refine (bool_decide_unpack _ _). by vm_compute.
  - destruct (Hd 1 2) as (h' & E & Hok & _); [cbn; lia|done|by exists h'].
Defined.

End Heap.
