(* ===== verification/RingBuffer.v ===== *)
(** * OMAPI connection buffers (omapip/buffer.c, includes/omapip/buffer.h)

    A connection keeps its pending input and output in chains of ring buffers
    of [OMAPI_BUF_SIZE] octets.  A chain is a list here (each buffer is
    referenced by its predecessor or the connection only).  The system calls
    [read] and [write], the allocator, the socket library and the dst library
    are parameters; the calls that reach them are recorded in the outcome.
    Only the build without TRACING is modelled. *)

From stdpp Require Import base list numbers.
From Stdlib Require Import ZArith Lia.
From S2P Require Import Prelude.
#[local] Open Scope Z_scope.

Module RingBuffer.

Inductive isc_result : Type :=
| ISC_R_SUCCESS | ISC_R_NOMEMORY | ISC_R_NOTCONNECTED | ISC_R_NOMORE | ISC_R_UNEXPECTED
| ISC_R_INPROGRESS | ISC_R_NOCONN | ISC_R_NORESOURCES | ISC_R_NOSPACE | ISC_R_IOERROR
| ISC_R_SHUTTINGDOWN | DHCP_R_INVALIDARG | DHCP_R_NOTYET.

#[export] Instance isc_result_eq_dec : EqDecision isc_result.
Proof. solve_decision. Defined.

Inductive errno : Type :=
| EWOULDBLOCK | EAGAIN | EPIPE | EFBIG | EDQUOT | ENOSPC | EIO | EINVAL | ECONNRESET | EOTHER.

Inductive omapi_connection_state : Type :=
| omapi_connection_unconnected | omapi_connection_connecting | omapi_connection_connected
| omapi_connection_disconnecting | omapi_connection_closed.

Definition OMAPI_BUF_SIZE : Z := 4048.

Record omapi_buffer : Type := OmapiBuffer { head : Z; tail : Z; buf : list Z }.

Definition BUFFER_BYTES_FREE (x : omapi_buffer) : Z :=
  if head x <? tail x then OMAPI_BUF_SIZE - (tail x - head x) else head x - tail x.

Definition BYTES_IN_BUFFER (x : omapi_buffer) : Z :=
  if head x <? tail x then tail x - head x - 1
  else OMAPI_BUF_SIZE - (head x - tail x) - 1.

(** A buffer from [omapi_buffer_new]: zeroed, with the head on the last slot. *)
Definition omapi_buffer_new : omapi_buffer :=
  OmapiBuffer (OMAPI_BUF_SIZE - 1) 0 (replicate (Z.to_nat OMAPI_BUF_SIZE) 0).

(** A digest context of the dst library: the octets it has been given. *)
Abbreviation context := (option (list Z)).

Record connection : Type := Connection {
  state : omapi_connection_state;
  bytes_needed : Z;
  in_bytes : Z;
  inbufs : list omapi_buffer;
  out_bytes : Z;
  outbufs : list omapi_buffer;
  in_key : bool;
  in_context : context;
  out_key : bool;
  out_context : context;
  outer_io : bool;          (** [c->outer] is an I/O object *)
  pokes : Z;                (** calls of [isc_socket_fdwatchpoke] *)
  allocs : nat              (** calls of [omapi_buffer_new] *)
}.

Definition set_out (c : connection) (n : Z) (l : list omapi_buffer) (ctx : context) (a : nat)
  : connection :=
  Connection (state c) (bytes_needed c) (in_bytes c) (inbufs c) n l (in_key c) (in_context c)
    (out_key c) ctx (outer_io c) (pokes c) a.

Definition set_in (c : connection) (n : Z) (l : list omapi_buffer) (ctx : context) (a : nat)
  : connection :=
  Connection (state c) (bytes_needed c) n l (out_bytes c) (outbufs c) (in_key c) ctx
    (out_key c) (out_context c) (outer_io c) (pokes c) a.

Definition poke (c : connection) : connection :=
  Connection (state c) (bytes_needed c) (in_bytes c) (inbufs c) (out_bytes c) (outbufs c)
    (in_key c) (in_context c) (out_key c) (out_context c) (outer_io c) (pokes c + 1) (allocs c).

Section Operations.
(** [alloc_ok n]: does the [n]-th call of the allocator succeed? *)
Context (alloc_ok : nat -> bool).
(** [dst_context_create] on the current value of the context pointer. *)
Context (dst_context_create : context -> outcome (isc_result * context)).

(** [omapi_connection_sign_data] in the modes the buffers use: create the
    context if [SIG_MODE_INIT] is set, then add the data. *)
Definition sign_data (mode_init : bool) (ctx : context) (data : list Z)
  : outcome (isc_result * context) :=
  r ← (if mode_init then dst_context_create ctx else Ret (ISC_R_SUCCESS, ctx));
  match r with
  | (ISC_R_SUCCESS, ctx') =>
    if Zlen data =? 0 then Ret (ISC_R_SUCCESS, ctx')
    else match ctx' with
         | Some d => Ret (ISC_R_SUCCESS, Some (d ++ data))
         | None => Undef
         end
  | _ => Ret r
  end.

(** The room at the tail up to the head or the end of the array. *)
Definition tail_room (b : omapi_buffer) : Z :=
  if head b <? tail b then OMAPI_BUF_SIZE - tail b else head b - tail b.

(** Store octets at the tail and advance it. *)
Definition buffer_put (b : omapi_buffer) (data : list Z) : outcome omapi_buffer :=
  a ← memcpy (buf b) (tail b) data;
  let t := tail b + Zlen data in
  Ret (OmapiBuffer (head b) (if t =? OMAPI_BUF_SIZE then 0 else t) a).

(** The position and length of the contiguous octets after the head. *)
Definition first_byte (b : omapi_buffer) : Z :=
  if head b =? OMAPI_BUF_SIZE - 1 then 0 else head b + 1.

Definition head_run (b : omapi_buffer) : Z :=
  if tail b <? first_byte b then OMAPI_BUF_SIZE - first_byte b else tail b - first_byte b.

Definition set_head (b : omapi_buffer) (h : Z) : omapi_buffer := OmapiBuffer h (tail b) (buf b).

(** One turn of the loop of [omapi_connection_copyin] on a buffer with room:
    the status, the connection, the buffer, the octets copied and
    [sig_flags & SIG_MODE_INIT]. *)
Definition copyin_turn (c : connection) (b : omapi_buffer) (data : list Z) (init : bool)
  : outcome (isc_result * connection * omapi_buffer * Z * bool) :=
  let copy_len := Z.min (tail_room b) (Zlen data) in
  let chunk := take (Z.to_nat copy_len) data in
  let init' := if out_key c then init || negb (bool_decide (is_Some (out_context c))) else init in
  r ← (if out_key c then sign_data init' (out_context c) chunk
       else Ret (ISC_R_SUCCESS, out_context c));
  match r with
  | (ISC_R_SUCCESS, ctx) =>
    b' ← buffer_put b chunk;
    Ret (ISC_R_SUCCESS, set_out c (u32 (out_bytes c + copy_len)) (outbufs c) ctx (allocs c),
         b', copy_len, init')
  | (err, ctx) => Ret (err, set_out c (out_bytes c) (outbufs c) ctx (allocs c), b, 0, init')
  end.

(** The loop of [omapi_connection_copyin]: [prev] are the full buffers before
    the last one, [b].  Every turn copies at least one octet, so the length of
    the data is enough fuel. *)
Fixpoint copyin_loop (fuel : nat) (c : connection) (prev : list omapi_buffer) (b : omapi_buffer)
    (data : list Z) (init : bool) : outcome (isc_result * connection) :=
  let finish c prev b := set_out c (out_bytes c) (prev ++ [b]) (out_context c) (allocs c) in
  match data with
  | [] => Ret (ISC_R_SUCCESS, finish c prev b)
  | _ :: _ =>
    match fuel with
    | O => Undef
    | S fuel' =>
      let full := BUFFER_BYTES_FREE b =? 0 in
      let c1 := if full then set_out c (out_bytes c) (outbufs c) (out_context c) (S (allocs c))
                else c in
      if full && negb (alloc_ok (allocs c)) then Ret (ISC_R_NOMEMORY, finish c1 prev b)
      else
        let prev1 := if full then prev ++ [b] else prev in
        let b1 := if full then omapi_buffer_new else b in
        r ← copyin_turn c1 b1 data init;
        match r with
        | (ISC_R_SUCCESS, c2, b2, copy_len, init') =>
          copyin_loop fuel' c2 prev1 b2 (drop (Z.to_nat copy_len) data) init'
        | (err, c2, b2, _, _) => Ret (err, finish c2 prev1 b2)
        end
    end
  end.

Definition leave (r : isc_result * connection) : isc_result * connection :=
  let '(status, c) := r in
  (status, if negb (out_bytes c =? 0) && outer_io c then poke c else c).

Definition omapi_connection_copyin (c : connection) (data : list Z)
  : outcome (isc_result * connection) :=
  match state c with
  | omapi_connection_disconnecting | omapi_connection_closed => Ret (ISC_R_NOTCONNECTED, c)
  | _ =>
    match rev (outbufs c) with
    | b :: prev =>
      r ← copyin_loop (length data) c (rev prev) b data false; Ret (leave r)
    | [] =>
      let c1 := set_out c (out_bytes c) [] (out_context c) (S (allocs c)) in
      if alloc_ok (allocs c) then
        r ← copyin_loop (length data) c1 [] omapi_buffer_new data false; Ret (leave r)
      else Ret (leave (ISC_R_NOMEMORY, c1))
    end
  end.

(** The loop of [omapi_connection_copyout]: [done] are the buffers already
    passed, [bufs] the current one and its successors, [out] what has been
    copied ([None] when [bufp] is null). *)
Fixpoint copyout_loop (fuel : nat) (c : connection) (done bufs : list omapi_buffer)
    (bytes_remaining : Z) (out : option (list Z)) (init : bool)
  : outcome (isc_result * connection * option (list Z)) :=
  let finish c bufs := set_in c (in_bytes c) (done ++ bufs) (in_context c) (allocs c) in
  if bytes_remaining =? 0 then Ret (ISC_R_SUCCESS, finish c bufs, out)
  else
    match fuel with
    | O => Undef
    | S fuel' =>
      match bufs with
      | [] => Ret (ISC_R_UNEXPECTED, finish c bufs, out)
      | b :: rest =>
        if BYTES_IN_BUFFER b =? 0 then
          copyout_loop fuel' c (done ++ [b]) rest bytes_remaining out init
        else
          let n := Z.min (head_run b) bytes_remaining in
          chunk ← memread (buf b) (first_byte b) n;
          let signing := in_key c && bool_decide (is_Some out) in
          let init' := if signing then init || negb (bool_decide (is_Some (in_context c))) else init in
          r ← (if signing then sign_data init' (in_context c) chunk
               else Ret (ISC_R_SUCCESS, in_context c));
          match r with
          | (ISC_R_SUCCESS, ctx) =>
            let b' := set_head b (first_byte b + n - 1) in
            let c' := set_in c (u32 (in_bytes c - n)) (inbufs c) ctx (allocs c) in
            let out' := (fun o => o ++ chunk) <$> out in
            if BYTES_IN_BUFFER b' =? 0 then
              copyout_loop fuel' c' (done ++ [b']) rest (bytes_remaining - n) out' init'
            else copyout_loop fuel' c' done (b' :: rest) (bytes_remaining - n) out' init'
          | (err, ctx) => Ret (err, finish (set_in c (in_bytes c) (inbufs c) ctx (allocs c)) bufs, out)
          end
      end
    end.

(** Get rid of the buffers that were emptied. *)
Fixpoint drop_empty (bufs : list omapi_buffer) : list omapi_buffer :=
  match bufs with
  | b :: rest => if BYTES_IN_BUFFER b =? 0 then drop_empty rest else bufs
  | [] => []
  end.

(** [want] is false for a null destination: the octets are discarded. *)
Definition omapi_connection_copyout (c : connection) (want : bool) (size : Z)
  : outcome (isc_result * connection * option (list Z)) :=
  let out := if want then Some [] else None in
  if in_bytes c <? size then Ret (ISC_R_NOMORE, c, out)
  else
    r ← copyout_loop (Z.to_nat size + length (inbufs c)) c [] (inbufs c) size out false;
    match r with
    | (ISC_R_SUCCESS, c', out') =>
      Ret (ISC_R_SUCCESS, set_in c' (in_bytes c') (drop_empty (inbufs c')) (in_context c') (allocs c'), out')
    | _ => Ret r
    end.

Definition omapi_connection_require (c : connection) (bytes : Z) : isc_result * connection :=
  let c' := Connection (state c) bytes (in_bytes c) (inbufs c) (out_bytes c) (outbufs c) (in_key c)
              (in_context c) (out_key c) (out_context c) (outer_io c) (pokes c) (allocs c) in
  (if bytes <=? in_bytes c then ISC_R_SUCCESS else DHCP_R_NOTYET, c').

End Operations.

(** ** Writing to the socket *)

Section Writer.
(** What [write] does with the octets offered to it on its [n]-th call: the
    number it takes, or an error. *)
Context (sys_write : nat -> list Z -> Z + errno).

Definition write_error (e : errno) : isc_result :=
  match e with
  | EWOULDBLOCK | EAGAIN => ISC_R_INPROGRESS
  | EPIPE => ISC_R_NOCONN
  | EFBIG | EDQUOT => ISC_R_NORESOURCES
  | ENOSPC => ISC_R_NOSPACE
  | EIO => ISC_R_IOERROR
  | EINVAL => DHCP_R_INVALIDARG
  | ECONNRESET => ISC_R_SHUTTINGDOWN
  | EOTHER => ISC_R_UNEXPECTED
  end.

(** [sent] are the octets the socket has taken so far. *)
Fixpoint writer_loop (fuel calls : nat) (c : connection) (done bufs : list omapi_buffer)
    (sent : list Z) : outcome (isc_result * connection * list Z) :=
  let finish c bufs := set_out c (out_bytes c) (done ++ bufs) (out_context c) (allocs c) in
  if out_bytes c =? 0 then Ret (ISC_R_SUCCESS, finish c bufs, sent)
  else
    match fuel with
    | O => Undef
    | S fuel' =>
      match bufs with
      | [] => Ret (ISC_R_UNEXPECTED, finish c bufs, sent)
      | b :: rest =>
        if BYTES_IN_BUFFER b =? 0 then writer_loop fuel' calls c (done ++ [b]) rest sent
        else
          let n := head_run b in
          data ← memread (buf b) (first_byte b) n;
          match sys_write calls data with
          | inr e => Ret (write_error e, finish c bufs, sent)
          | inl w =>
            if w =? 0 then Ret (ISC_R_INPROGRESS, finish c bufs, sent)
            else
              let b' := set_head b (first_byte b + w - 1) in
              let c' := set_out c (u32 (out_bytes c - w)) (outbufs c) (out_context c) (allocs c) in
              let sent' := sent ++ take (Z.to_nat w) data in
              if negb (w =? n) then Ret (ISC_R_INPROGRESS, finish c' (b' :: rest), sent')
              else if BYTES_IN_BUFFER b' =? 0 then
                writer_loop fuel' (S calls) c' (done ++ [b']) rest sent'
              else writer_loop fuel' (S calls) c' done (b' :: rest) sent'
          end
      end
    end.

Definition omapi_connection_writer (c : connection) : outcome (isc_result * connection * list Z) :=
  if out_bytes c =? 0 then Ret (ISC_R_SUCCESS, c, [])
  else
    r ← writer_loop (Z.to_nat (out_bytes c) + length (outbufs c)) 0 c [] (outbufs c) [];
    match r with
    | (ISC_R_SUCCESS, c', sent) =>
      Ret (ISC_R_SUCCESS,
           set_out c' (out_bytes c') (drop_empty (outbufs c')) (out_context c') (allocs c'), sent)
    | _ => Ret r
    end.

End Writer.

(** ** Reading from the socket *)

Inductive reader_event : Type := Disconnect (force : bool) | Signal_ready.

Section Reader.
Context (alloc_ok : nat -> bool).
(** What the [n]-th [read] of at most [len] octets delivers. *)
Context (sys_read : nat -> Z -> list Z + errno).

Inductive read_stop : Type := Stop_again | Stop_return (r : isc_result) (ev : list reader_event).

Definition read_error (e : errno) : read_stop :=
  match e with
  | EWOULDBLOCK => Stop_again
  | EIO => Stop_return ISC_R_IOERROR []
  | EINVAL => Stop_return DHCP_R_INVALIDARG []
  | ECONNRESET => Stop_return ISC_R_SHUTTINGDOWN [Disconnect true]
  | _ => Stop_return ISC_R_UNEXPECTED []
  end.

(** The [while (bytes_to_read)] loop on the last buffer; the octets read so
    far are counted in [in_bytes]. *)
Fixpoint reader_loop (fuel calls : nat) (b : omapi_buffer) (n_in bytes_to_read : Z)
  : outcome (read_stop * omapi_buffer * Z) :=
  if bytes_to_read =? 0 then Ret (Stop_again, b, n_in)
  else
    match fuel with
    | O => Undef
    | S fuel' =>
      let read_len := tail_room b in
      match sys_read calls read_len with
      | inr e => Ret (read_error e, b, n_in)
      | inl data =>
        if Zlen data =? 0 then Ret (Stop_return ISC_R_SHUTTINGDOWN [Disconnect false], b, n_in)
        else
          b' ← buffer_put b data;
          let n_in' := u32 (n_in + Zlen data) in
          if Zlen data <? read_len then Ret (Stop_again, b', n_in')
          else reader_loop fuel' (S calls) b' n_in' (bytes_to_read - Zlen data)
      end
    end.

Definition reader_finish (c : connection) (prev : list omapi_buffer) (a : nat)
    (r : read_stop * omapi_buffer * Z) : isc_result * connection * list reader_event :=
  let '(stop, b, n_in) := r in
  let c' := set_in c n_in (prev ++ [b]) (in_context c) a in
  match stop with
  | Stop_again =>
    (ISC_R_SUCCESS, c', if bytes_needed c <=? n_in then [Signal_ready] else [])
  | Stop_return res ev => (res, c', ev)
  end.

Definition omapi_connection_reader (c : connection)
  : outcome (isc_result * connection * list reader_event) :=
  if (OMAPI_BUF_SIZE - 1 <=? in_bytes c) && (bytes_needed c <? in_bytes c)
  then Ret (ISC_R_SUCCESS, c, [])
  else
    let run prev b a :=
      r ← reader_loop (Z.to_nat OMAPI_BUF_SIZE) 0 b (in_bytes c) (BUFFER_BYTES_FREE b);
      Ret (reader_finish c prev a r) in
    match rev (inbufs c) with
    | b :: prev =>
      if BUFFER_BYTES_FREE b =? 0 then
        if alloc_ok (allocs c) then run (inbufs c) omapi_buffer_new (S (allocs c))
        else Ret (ISC_R_NOMEMORY,
                  set_in c (in_bytes c) (inbufs c) (in_context c) (S (allocs c)), [])
      else run (rev prev) b (allocs c)
    | [] =>
      if alloc_ok (allocs c) then run [] omapi_buffer_new (S (allocs c))
      else Ret (ISC_R_NOMEMORY,
                set_in c (in_bytes c) (inbufs c) (in_context c) (S (allocs c)), [])
    end.

End Reader.

(** ** Values on the wire *)

Inductive omapi_typed_data : Type :=
| omapi_datatype_int (n : Z)
| omapi_datatype_string (s : list Z)
| omapi_datatype_data (s : list Z)
| omapi_datatype_object (o : option nat).

Section Values.
Context (alloc_ok : nat -> bool).
Context (dst_context_create : context -> outcome (isc_result * context)).
(** [omapi_object_handle] of an object. *)
Context (omapi_object_handle : nat -> isc_result * Z).

Abbreviation copyin := (omapi_connection_copyin alloc_ok dst_context_create).
Abbreviation copyout := (omapi_connection_copyout dst_context_create).

Definition omapi_connection_get_uint32 (c : connection)
  : outcome (isc_result * connection * option Z) :=
  r ← copyout c true 4;
  match r with
  | (ISC_R_SUCCESS, c', Some inbuf) => Ret (ISC_R_SUCCESS, c', Some (be_val inbuf))
  | (st, c', _) => Ret (st, c', None)
  end.

Definition omapi_connection_put_uint32 (c : connection) (value : Z)
  : outcome (isc_result * connection) := copyin c (be_enc 4 (u32 value)).

Definition omapi_connection_get_uint16 (c : connection)
  : outcome (isc_result * connection * option Z) :=
  r ← copyout c true 2;
  match r with
  | (ISC_R_SUCCESS, c', Some inbuf) => Ret (ISC_R_SUCCESS, c', Some (be_val inbuf))
  | (st, c', _) => Ret (st, c', None)
  end.

Definition omapi_connection_put_uint16 (c : connection) (value : Z)
  : outcome (isc_result * connection) := copyin c (be_enc 2 (u16 value)).

(** [status = f; if (status != ISC_R_SUCCESS) return status; k] *)
Definition and_then (m : outcome (isc_result * connection))
    (k : connection -> outcome (isc_result * connection)) : outcome (isc_result * connection) :=
  r ← m;
  match r with
  | (ISC_R_SUCCESS, c') => k c'
  | _ => Ret r
  end.

Definition omapi_connection_put_handle (c : connection) (h : option nat)
  : outcome (isc_result * connection) :=
  let '(status, handle) := match h with
                           | Some o => omapi_object_handle o
                           | None => (ISC_R_SUCCESS, 0)
                           end in
  match status with
  | ISC_R_SUCCESS =>
    and_then (omapi_connection_put_uint32 c 4) (fun c => omapi_connection_put_uint32 c handle)
  | _ => Ret (status, c)
  end.

Definition omapi_connection_write_typed_data (c : connection) (data : option omapi_typed_data)
  : outcome (isc_result * connection) :=
  match data with
  | None => omapi_connection_put_uint32 c 0
  | Some (omapi_datatype_int n) =>
    and_then (omapi_connection_put_uint32 c 4) (fun c => omapi_connection_put_uint32 c n)
  | Some (omapi_datatype_string s) | Some (omapi_datatype_data s) =>
    and_then (omapi_connection_put_uint32 c (Zlen s))
      (fun c => if Zlen s =? 0 then Ret (ISC_R_SUCCESS, c) else copyin c s)
  | Some (omapi_datatype_object o) => omapi_connection_put_handle c o
  end.

(** [name] is the string without its terminator. *)
Definition omapi_connection_put_name (c : connection) (name : list Z)
  : outcome (isc_result * connection) :=
  and_then (omapi_connection_put_uint16 c (Zlen name)) (fun c => copyin c name).

Definition omapi_connection_put_string (c : connection) (string : option (list Z))
  : outcome (isc_result * connection) :=
  let s := match string with Some s => s | None => [] end in
  and_then (omapi_connection_put_uint32 c (Zlen s))
    (fun c => if Zlen s =? 0 then Ret (ISC_R_SUCCESS, c) else copyin c s).

Definition omapi_connection_put_named_uint32 (c : connection) (name : list Z) (value : Z)
  : outcome (isc_result * connection) :=
  and_then (omapi_connection_put_name c name)
    (fun c => and_then (omapi_connection_put_uint32 c 4)
                (fun c => omapi_connection_put_uint32 c value)).

End Values.

(** ** The queue a chain of buffers implements *)

(** The octets of a buffer, oldest first. *)
Definition contents (b : omapi_buffer) : list Z :=
  if head b <? tail b
  then take (Z.to_nat (tail b - head b - 1)) (drop (Z.to_nat (head b + 1)) (buf b))
  else drop (Z.to_nat (head b + 1)) (buf b) ++ take (Z.to_nat (tail b)) (buf b).

Definition queue (bufs : list omapi_buffer) : list Z := concat (map contents bufs).

Definition buffer_wf (b : omapi_buffer) : Prop :=
  Zlen (buf b) = OMAPI_BUF_SIZE /\ 0 <= head b < OMAPI_BUF_SIZE /\ 0 <= tail b < OMAPI_BUF_SIZE.

Definition chain_wf (bufs : list omapi_buffer) : Prop := Forall buffer_wf bufs.

(** The counters agree with the chains and stay below 2^32. *)
Definition conn_wf (c : connection) : Prop :=
  chain_wf (inbufs c) /\ chain_wf (outbufs c) /\
  in_bytes c = Zlen (queue (inbufs c)) /\ out_bytes c = Zlen (queue (outbufs c)) /\
  in_bytes c < 2 ^ 32 /\ out_bytes c < 2 ^ 32.

(** ** Lemmas on one buffer *)

Lemma contents_length b : buffer_wf b -> Zlen (contents b) = BYTES_IN_BUFFER b.
Proof.
  intros (Hl & Hh & Ht). unfold contents, BYTES_IN_BUFFER, Zlen in *.
  destruct (Z.ltb_spec (head b) (tail b)).
  - rewrite length_take, length_drop. lia.
  - rewrite length_app, length_take, length_drop. lia.
Qed.

Lemma new_wf : buffer_wf omapi_buffer_new /\ contents omapi_buffer_new = [].
Proof. split; [|reflexivity]. unfold buffer_wf, OMAPI_BUF_SIZE. cbn [head tail buf omapi_buffer_new].
  unfold Zlen. rewrite length_replicate. unfold OMAPI_BUF_SIZE. lia. Qed.

(** The array after octets [d] are stored at position [t], seen from a
    position before, at the end of, or after the stored octets. *)
Section Splice.
Context {A : Type} (l d : list A) (t : nat).
Hypothesis fits : (t + length d <= length l)%nat.
Abbreviation spliced := (take t l ++ d ++ drop (t + length d) l).

Lemma splice_length : length spliced = length l.
Proof. rewrite !length_app, length_take, length_drop. lia. Qed.

Lemma splice_take : take (t + length d) spliced = take t l ++ d.
Proof.
  rewrite app_assoc, take_app_length'; [done|]. rewrite length_app, length_take. lia.
Qed.

Lemma splice_drop i : (t + length d <= i)%nat -> drop i spliced = drop i l.
Proof.
  intros Hi. rewrite app_assoc, drop_app_ge; rewrite length_app, length_take; [|lia].
  rewrite drop_drop. f_equal. lia.
Qed.

Lemma splice_drop_low i : (i <= t)%nat ->
  drop i spliced = take (t - i) (drop i l) ++ d ++ drop (t + length d) l.
Proof.
  intros Hi. rewrite drop_app_le by (rewrite length_take; lia). f_equal.
  by rewrite skipn_firstn_comm.
Qed.
End Splice.

Lemma buffer_put_spec b data :
  buffer_wf b -> Zlen data <= tail_room b ->
  exists b', buffer_put b data = Ret b' /\ buffer_wf b' /\
    contents b' = contents b ++ data /\ head b' = head b.
Proof.
  intros (Hl & Hh & Ht) Hd. unfold buffer_put, memcpy. pose proof (Zlen_nonneg data) as Hd0.
  assert (tail b + Zlen data <= OMAPI_BUF_SIZE) as Hfit
    by (unfold tail_room in Hd; destruct (Z.ltb_spec (head b) (tail b)); lia).
  rewrite bool_decide_true by lia. cbn [mbind outcome_bind]. eexists. split; [done|].
  unfold buffer_wf, contents, tail_room in *. cbn [head tail buf]. unfold Zlen in *.
  rewrite splice_length by lia.
  split; [destruct (Z.eqb_spec (tail b + Z.of_nat (length data)) OMAPI_BUF_SIZE); lia|].
  split; [|done].
  destruct (Z.ltb_spec (head b) (tail b)), (Z.eqb_spec (tail b + Z.of_nat (length data)) OMAPI_BUF_SIZE).
  - rewrite (proj2 (Z.ltb_ge _ _)) by lia. rewrite splice_drop_low by lia.
    rewrite (drop_ge (buf b) (_ + _)) by lia. rewrite take_0, !app_nil_r. do 2 f_equal. lia.
  - rewrite (proj2 (Z.ltb_lt _ _)) by lia. rewrite splice_drop_low by lia.
    rewrite app_assoc, take_app_length'; [do 2 f_equal; lia|].
    rewrite length_app, length_take, length_drop. lia.
  - lia.
  - rewrite (proj2 (Z.ltb_ge _ _)) by lia. rewrite splice_drop by lia.
    replace (Z.to_nat (tail b + Z.of_nat (length data))) with (Z.to_nat (tail b) + length data)%nat by lia.
    by rewrite splice_take, app_assoc by lia.
Qed.

(** Free and used octets partition all but one of the slots. *)
Lemma free_in b : BUFFER_BYTES_FREE b + BYTES_IN_BUFFER b = OMAPI_BUF_SIZE - 1.
Proof.
  unfold BUFFER_BYTES_FREE, BYTES_IN_BUFFER. destruct (Z.ltb_spec (head b) (tail b)); lia.
Qed.

Lemma tail_room_range b :
  buffer_wf b -> 0 <= tail_room b <= BUFFER_BYTES_FREE b /\
  (BUFFER_BYTES_FREE b <> 0 -> 0 < tail_room b).
Proof.
  intros (Hl & Hh & Ht). unfold tail_room, BUFFER_BYTES_FREE.
  destruct (Z.ltb_spec (head b) (tail b)); lia.
Qed.

Lemma BUFFER_BYTES_FREE_nonneg b : buffer_wf b -> 0 <= BUFFER_BYTES_FREE b.
Proof. intros H. apply tail_room_range in H. lia. Qed.

Lemma contents_nil b : buffer_wf b -> BYTES_IN_BUFFER b = 0 -> contents b = [].
Proof.
  intros Hb H0. apply contents_length in Hb. rewrite H0 in Hb. unfold Zlen in Hb.
  apply nil_length_inv. lia.
Qed.

Lemma head_run_range b :
  buffer_wf b -> BYTES_IN_BUFFER b <> 0 ->
  0 <= first_byte b /\ 0 < head_run b <= BYTES_IN_BUFFER b /\
  first_byte b + head_run b <= OMAPI_BUF_SIZE.
Proof.
  intros (Hl & Hh & Ht). unfold head_run, first_byte, BYTES_IN_BUFFER.
  destruct (Z.eqb_spec (head b) (OMAPI_BUF_SIZE - 1)), (Z.ltb_spec (head b) (tail b));
  repeat match goal with |- context [?x <? ?y] => destruct (Z.ltb_spec x y) end; lia.
Qed.

(** The octets after the head, and what advancing the head leaves. *)
Lemma take_head b n :
  buffer_wf b -> BYTES_IN_BUFFER b <> 0 -> 0 < n <= head_run b ->
  buffer_wf (set_head b (first_byte b + n - 1)) /\
  exists chunk, memread (buf b) (first_byte b) n = Ret chunk /\ Zlen chunk = n /\
    contents b = chunk ++ contents (set_head b (first_byte b + n - 1)).
Proof.
  intros Hb H0 Hn. pose proof (head_run_range b Hb H0) as (Hf & Hr & He).
  destruct Hb as (Hl & Hh & Ht). split.
  { unfold buffer_wf, set_head; cbn [head tail buf]. lia. }
  rewrite memread_in by lia. eexists. split; [done|].
  unfold Zlen in *. rewrite length_take, length_drop. split; [lia|].
  unfold contents, set_head; cbn [head tail buf]. unfold head_run, BYTES_IN_BUFFER in *.
  set (f := first_byte b) in *.
  assert (f = if head b =? OMAPI_BUF_SIZE - 1 then 0 else head b + 1) as Ef by done.
  replace (Z.to_nat (f + n - 1 + 1)) with (Z.to_nat n + Z.to_nat f)%nat by lia.
  rewrite Nat.add_comm, <- drop_drop.
  destruct (Z.eqb_spec (head b) (OMAPI_BUF_SIZE - 1)) as [E|E].
  - rewrite Ef in *. change (Z.to_nat 0) with 0%nat. rewrite drop_0.
    rewrite (proj2 (Z.ltb_ge (head b) _)) in * by lia.
    rewrite (proj2 (Z.ltb_ge (tail b) _)) in * by lia.
    rewrite (proj2 (Z.ltb_lt _ (tail b))) by lia. rewrite drop_ge by lia. cbn [app].
    replace (Z.to_nat (tail b)) with (Z.to_nat n + Z.to_nat (tail b - (0 + n - 1) - 1))%nat by lia.
    by rewrite take_take_drop.
  - rewrite <- Ef. destruct (Z.ltb_spec (head b) (tail b)) as [Hlt|Hge].
    + rewrite (proj2 (Z.ltb_ge (tail b) f)) in * by lia.
      rewrite (proj2 (Z.ltb_lt _ (tail b))) by lia.
      replace (Z.to_nat (tail b - head b - 1)) with (Z.to_nat n + Z.to_nat (tail b - (f + n - 1) - 1))%nat by lia.
      by rewrite take_take_drop.
    + rewrite (proj2 (Z.ltb_lt (tail b) f)) in * by lia.
      rewrite (proj2 (Z.ltb_ge _ (tail b))) by lia.
      by rewrite app_assoc, take_drop.
Qed.

(** ** Lemmas on chains *)

Lemma queue_app l1 l2 : queue (l1 ++ l2) = queue l1 ++ queue l2.
Proof. unfold queue. by rewrite map_app, concat_app. Qed.

Lemma queue_cons b l : queue (b :: l) = contents b ++ queue l.
Proof. done. Qed.

Lemma queue_single b : queue [b] = contents b.
Proof. unfold queue. cbn. apply app_nil_r. Qed.

Lemma chain_wf_app l1 l2 : chain_wf (l1 ++ l2) <-> chain_wf l1 /\ chain_wf l2.
Proof. apply Forall_app. Qed.

Lemma chain_wf_single b : chain_wf [b] <-> buffer_wf b.
Proof. apply Forall_singleton. Qed.

Lemma chain_wf_cons b l : chain_wf (b :: l) <-> buffer_wf b /\ chain_wf l.
Proof. apply Forall_cons_iff. Qed.

Lemma drop_empty_queue l :
  chain_wf l -> queue (drop_empty l) = queue l /\ chain_wf (drop_empty l).
Proof.
  induction 1 as [|b l Hb Hl IH]; [by split; [|constructor]|]. cbn [drop_empty].
  destruct (Z.eqb_spec (BYTES_IN_BUFFER b) 0) as [E|E]; [|by rewrite chain_wf_cons].
  by rewrite queue_cons, (contents_nil b Hb E).
Qed.

(** What signing the octets [d] makes of a context. *)
Definition signed (key : bool) (ctx : context) (d : list Z) : context :=
  if key then (fun s => s ++ d) <$> ctx else ctx.

Lemma signed_app key ctx d1 d2 : signed key (signed key ctx d1) d2 = signed key ctx (d1 ++ d2).
Proof. destruct key, ctx; cbn; [by rewrite app_assoc|done..]. Qed.

Lemma signed_nil key ctx : signed key ctx [] = ctx.
Proof. destruct key, ctx; cbn; [by rewrite app_nil_r|done..]. Qed.

(** A context is there when there is a key: no context has to be created. *)
Definition ready (key : bool) (ctx : context) : Prop := key = true -> is_Some ctx.

Lemma ready_signed key ctx d : ready key ctx -> ready key (signed key ctx d).
Proof. unfold ready. intros H Hk. destruct key; [|done]. destruct (H Hk) as [x ->]. by eexists. Qed.

Section Copying.
Context (alloc_ok : nat -> bool).
Context (dst_context_create : context -> outcome (isc_result * context)).

Lemma init_ready key ctx :
  ready key ctx -> (if key then false || negb (bool_decide (is_Some ctx)) else false) = false.
Proof. intros H. destruct key; [|done]. by rewrite bool_decide_true by by apply H. Qed.

Lemma sign_ready key ctx d :
  ready key ctx ->
  (if key then sign_data dst_context_create false ctx d else Ret (ISC_R_SUCCESS, ctx))
  = Ret (ISC_R_SUCCESS, signed key ctx d).
Proof.
  intros H. destruct key; [|done]. destruct (H eq_refl) as [x ->]. unfold sign_data. cbn.
  destruct (Z.eqb_spec (Zlen d) 0) as [E|E]; [|done].
  destruct d; [by rewrite app_nil_r|]. rewrite Zlen_cons in E. pose proof (Zlen_nonneg d). lia.
Qed.

(** The postcondition of a run of the copying loop. *)
Definition copied (c : connection) (bufs : list omapi_buffer) (data : list Z)
    (r : isc_result * connection) : Prop :=
  let '(st, c') := r in
  exists k, queue (outbufs c') = queue bufs ++ take k data /\
    chain_wf (outbufs c') /\ out_bytes c' = out_bytes c + Zlen (take k data) /\
    out_context c' = signed (out_key c) (out_context c) (take k data) /\
    c' = set_out c (out_bytes c') (outbufs c') (out_context c') (allocs c') /\
    ((st = ISC_R_SUCCESS /\ (length data <= k)%nat) \/
     (st = ISC_R_NOMEMORY /\ exists n, (allocs c <= n)%nat /\ alloc_ok n = false)).

Lemma copyin_turn_ok c b data :
  buffer_wf b -> BUFFER_BYTES_FREE b <> 0 -> data <> [] ->
  0 <= out_bytes c -> out_bytes c + Zlen data < 2 ^ 32 -> ready (out_key c) (out_context c) ->
  exists n b', copyin_turn dst_context_create c b data false
      = Ret (ISC_R_SUCCESS, set_out c (out_bytes c + Z.of_nat n) (outbufs c)
              (signed (out_key c) (out_context c) (take n data)) (allocs c), b', Z.of_nat n, false) /\
    (0 < n <= length data)%nat /\ buffer_wf b' /\ contents b' = contents b ++ take n data.
Proof.
  intros Hb Hfree Hd Hn Hlt Hr. apply tail_room_range in Hb as Ht. destruct Ht as [Ht1 Ht2].
  specialize (Ht2 Hfree). destruct data as [|x data]; [done|]. set (d := x :: data) in *.
  assert (0 < Zlen d) by (unfold d; rewrite Zlen_cons; pose proof (Zlen_nonneg data); lia).
  set (n := Z.min (tail_room b) (Zlen d)).
  assert (Zlen (take (Z.to_nat n) d) = n) as Hl by (unfold Zlen in *; rewrite length_take; lia).
  destruct (buffer_put_spec b (take (Z.to_nat n) d) Hb) as (b' & Hput & Hwf & Hc & _); [lia|].
  exists (Z.to_nat n), b'. rewrite Z2Nat.id by lia. unfold copyin_turn. fold n.
  rewrite init_ready, sign_ready by done. cbn [mbind outcome_bind].
  rewrite Hput. cbn [mbind outcome_bind]. rewrite u32_small by lia.
  split; [done|split; [unfold Zlen in *; lia|done]].
Qed.

Lemma copied_step c c1 bufs bufs1 data n r :
  copied c1 bufs1 (drop n data) r -> (n <= length data)%nat ->
  queue bufs1 = queue bufs ++ take n data ->
  c1 = set_out c (out_bytes c + Z.of_nat n) (outbufs c1)
         (signed (out_key c) (out_context c) (take n data)) (allocs c1) ->
  (allocs c <= allocs c1)%nat -> copied c bufs data r.
Proof.
  destruct r as [st c']. intros (k & Hq & Hwf & Ho & Hx & Hc & Hst) Hn Hq1 H1 Ha.
  exists (n + k)%nat. rewrite <- take_take_drop.
  rewrite H1 in Ho, Hx, Hc. cbn in Ho, Hx, Hc. rewrite signed_app in Hx.
  rewrite Zlen_app. split_and!; [by rewrite Hq, Hq1, app_assoc|done| |done|done|].
  - rewrite Ho. unfold Zlen at 2. rewrite length_take. lia.
  - destruct Hst as [[-> Hk]|[-> (m & Hm & Hf)]]; [left|right].
    + rewrite length_drop in Hk. split; [done|lia].
    + split; [done|]. exists m. split; [lia|done].
Qed.

Lemma copyin_loop_ok fuel c prev b data :
  (length data <= fuel)%nat -> chain_wf (prev ++ [b]) ->
  0 <= out_bytes c -> out_bytes c + Zlen data < 2 ^ 32 -> ready (out_key c) (out_context c) ->
  exists r, copyin_loop alloc_ok dst_context_create fuel c prev b data false = Ret r /\
            copied c (prev ++ [b]) data r.
Proof.
  revert c prev b data. induction fuel as [|fuel IH]; intros c prev b data Hf Hwf Hn Hb Hr.
  all: destruct data as [|x data]; [|try (cbn in Hf; lia)].
  1,2: cbn [copyin_loop]; eexists; split; [done|]; exists 0%nat; cbn;
       rewrite signed_nil, app_nil_r; split_and!; [done..|unfold Zlen; cbn; lia|done|done|left; split; [done|lia]].
  cbn [copyin_loop]. set (d := x :: data) in *.
  set (full := BUFFER_BYTES_FREE b =? 0).
  set (c1 := if full then _ else c). set (prev1 := if full then prev ++ [b] else prev).
  set (b1 := if full then omapi_buffer_new else b).
  destruct (full && negb (alloc_ok (allocs c))) eqn:Efail.
  - apply andb_true_iff in Efail as [Ef Ea]. eexists; split; [done|]. exists 0%nat.
    unfold c1. rewrite Ef. cbn. rewrite signed_nil, app_nil_r.
    split_and!; [done..|unfold Zlen; cbn; lia|done|done|]. right. split; [done|]. exists (allocs c).
    split; [lia|]. by apply negb_true_iff.
  - assert (buffer_wf b1 /\ BUFFER_BYTES_FREE b1 <> 0 /\ chain_wf prev1 /\
      queue (prev1 ++ [b1]) = queue (prev ++ [b]) /\ out_bytes c1 = out_bytes c /\
      out_key c1 = out_key c /\ out_context c1 = out_context c /\ (allocs c <= allocs c1)%nat /\
      c1 = set_out c (out_bytes c) (outbufs c) (out_context c) (allocs c1))
      as (Hb1 & Hfr & Hp1 & Hq1 & Ho1 & Hk1 & Hx1 & Ha1 & Hc1).
    { apply chain_wf_app in Hwf as Hw. destruct Hw as [Hp Hw]. apply chain_wf_single in Hw.
      unfold c1, prev1, b1, full. destruct (Z.eqb_spec (BUFFER_BYTES_FREE b) 0); cbv iota.
      - rewrite (queue_app (prev ++ [b])), (queue_single omapi_buffer_new), (proj2 new_wf), app_nil_r.
        split_and!; [apply new_wf|done|done|done|done|done|done|cbn; lia|done].
      - split_and!; try done. by destruct c. }
    destruct (copyin_turn_ok c1 b1 d) as (n & b2 & -> & Hn2 & Hb2 & Hc2); rewrite ?Ho1, ?Hk1, ?Hx1; try done.
    cbn [mbind outcome_bind]. rewrite Nat2Z.id.
    destruct (IH (set_out c1 (out_bytes c + Z.of_nat n) (outbufs c1)
       (signed (out_key c) (out_context c) (take n d)) (allocs c1)) prev1 b2 (drop n d)) as (r & Hrun & Hpost).
    { rewrite length_drop. lia. }
    { rewrite chain_wf_app, chain_wf_single. done. }
    { cbn. lia. }
    { cbn. unfold Zlen in *. rewrite length_drop. lia. }
    { cbn. rewrite Hk1. by apply ready_signed. }
    exists r. split; [done|]. eapply copied_step; [exact Hpost|lia| | |].
    + rewrite <- Hq1, !queue_app, !queue_single, Hc2, app_assoc. done.
    + rewrite Hc1. done.
    + done.
Qed.
(** The postcondition of the loop of [omapi_connection_copyout]. *)
Definition copied_out (c : connection) (passed bufs : list omapi_buffer) (n : Z)
    (out : option (list Z)) (r : isc_result * connection * option (list Z)) : Prop :=
  let '(st, c', out') := r in
  let d := take (Z.to_nat n) (queue bufs) in
  st = ISC_R_SUCCESS /\ out' = (fun o => o ++ d) <$> out /\
  queue (inbufs c') = queue passed ++ drop (Z.to_nat n) (queue bufs) /\
  chain_wf (inbufs c') /\ in_bytes c' = in_bytes c - n /\
  in_context c' = signed (in_key c && bool_decide (is_Some out)) (in_context c) d /\
  c' = set_in c (in_bytes c') (inbufs c') (in_context c') (allocs c).

Lemma copied_out_step c c1 passed passed1 bufs bufs1 n n1 out out1 chunk r :
  copied_out c1 passed1 bufs1 (n - n1) out1 r ->
  0 <= n1 <= n -> Zlen chunk = n1 -> queue passed ++ queue bufs = queue passed ++ chunk ++ queue bufs1 ->
  queue passed1 = queue passed -> out1 = (fun o => o ++ chunk) <$> out ->
  c1 = set_in c (in_bytes c - n1) (inbufs c1)
         (signed (in_key c && bool_decide (is_Some out)) (in_context c) chunk) (allocs c) ->
  copied_out c passed bufs n out r.
Proof.
  intros Hr Hn Hl Hq%app_inv_head Hp -> H1. destruct r as [[st c'] out'].
  destruct Hr as (-> & -> & Hq' & Hwf & Hi & Hx & Hc). unfold copied_out.
  replace (Z.to_nat n) with (length chunk + Z.to_nat (n - n1))%nat in * by (unfold Zlen in *; lia).
  rewrite Hq, take_app_add, drop_app_add, <- Hp.
  rewrite H1 in Hi, Hx, Hc. cbn in Hi, Hx, Hc. split_and!; [done| |done|done|lia| |done].
  - destruct out; cbn; [by rewrite app_assoc|done].
  - rewrite Hx, <- signed_app. f_equal. by destruct out.
Qed.

Lemma copyout_loop_ok fuel c passed bufs n out :
  (Z.to_nat n + length bufs <= fuel)%nat -> chain_wf passed -> chain_wf bufs ->
  0 <= n <= Zlen (queue bufs) -> n <= in_bytes c < 2 ^ 32 ->
  ready (in_key c && bool_decide (is_Some out)) (in_context c) ->
  exists r, copyout_loop dst_context_create fuel c passed bufs n out false = Ret r /\
            copied_out c passed bufs n out r.
Proof.
  revert c passed bufs n out. induction fuel as [|fuel IH]; intros c passed bufs n out Hf Hp Hb Hn Hi Hr.
  all: cbn [copyout_loop]; destruct (Z.eqb_spec n 0) as [->|Hn0].
  1,3: eexists; split; [done|]; unfold copied_out; change (Z.to_nat 0) with 0%nat;
       rewrite take_0, drop_0, signed_nil; cbn [inbufs in_bytes in_context set_in]; rewrite queue_app, chain_wf_app;
       split_and!; [done| |done..|lia|done|done]; destruct out; cbn; [by rewrite app_nil_r|done].
  - destruct bufs; cbn in *; lia.
  - destruct bufs as [|b rest]; [unfold Zlen in Hn; cbn in Hn; lia|].
    apply chain_wf_cons in Hb as [Hb Hrest].
    rewrite queue_cons, Zlen_app, contents_length in Hn by done.
    destruct (Z.eqb_spec (BYTES_IN_BUFFER b) 0) as [E|E].
    + destruct (IH c (passed ++ [b]) rest n out) as (r & -> & Hpost); try done.
      { cbn in Hf. lia. } { rewrite chain_wf_app, chain_wf_single. done. } { lia. }
      exists r. split; [done|]. unfold copied_out in *. destruct r as [[st c'] out'].
      by rewrite queue_app, queue_single, (contents_nil b Hb E), app_nil_r in Hpost;
        rewrite queue_cons, (contents_nil b Hb E).
    + pose proof (head_run_range b Hb E) as (_ & Hrun & _).
      set (m := Z.min (head_run b) n).
      destruct (take_head b m Hb E) as (Hb' & chunk & -> & Hlc & Hct); [lia|].
      set (b' := set_head b (first_byte b + m - 1)) in *. cbn [mbind outcome_bind].
      cbv zeta. rewrite init_ready, sign_ready by done.
      cbn [mbind outcome_bind]. rewrite u32_small by lia.
      set (c1 := set_in c (in_bytes c - m) (inbufs c) _ (allocs c)).
      assert (ready (in_key c1 && bool_decide (is_Some ((fun o => o ++ chunk) <$> out))) (in_context c1)) as Hr1.
      { replace (bool_decide (is_Some ((fun o => o ++ chunk) <$> out))) with (bool_decide (is_Some out)) by by destruct out.
        by apply ready_signed. }
      rewrite <- (contents_length b Hb), Hct, Zlen_app, Hlc in Hn.
      destruct (Z.eqb_spec (BYTES_IN_BUFFER b') 0) as [E'|E'].
      * destruct (IH c1 (passed ++ [b']) rest (n - m) ((fun o => o ++ chunk) <$> out)) as (r & -> & Hpost); try done.
        { cbn in Hf. lia. } { rewrite chain_wf_app, chain_wf_single. done. }
        { rewrite (contents_nil b' Hb' E') in Hn. unfold Zlen in *. cbn in Hn. lia. } { cbn. lia. }
        exists r. split; [done|]. eapply copied_out_step; [exact Hpost|lia|exact Hlc| | |done|done].
        -- by rewrite queue_cons, Hct, (contents_nil b' Hb' E'), app_nil_r.
        -- by rewrite queue_app, queue_single, (contents_nil b' Hb' E'), app_nil_r.
      * destruct (IH c1 passed (b' :: rest) (n - m) ((fun o => o ++ chunk) <$> out)) as (r & -> & Hpost); try done.
        { cbn [length] in *. lia. } { by apply chain_wf_cons. }
        { rewrite queue_cons, Zlen_app. lia. } { cbn. lia. }
        exists r. split; [done|]. eapply copied_out_step; [exact Hpost|lia|exact Hlc| |done|done|done].
        by rewrite !queue_cons, Hct, <- app_assoc.
Qed.

(** What [omapi_connection_copyin] promises of its result. *)
Definition appended (c : connection) (data : list Z) (st : isc_result) (c' : connection) : Prop :=
  exists k, conn_wf c' /\ queue (outbufs c') = queue (outbufs c) ++ take k data /\
    out_context c' = signed (out_key c) (out_context c) (take k data) /\
    inbufs c' = inbufs c /\ in_context c' = in_context c /\
    pokes c' = (if negb (out_bytes c' =? 0) && outer_io c then pokes c + 1 else pokes c) /\
    ((st = ISC_R_SUCCESS /\ (length data <= k)%nat) \/
     (st = ISC_R_NOMEMORY /\ exists n, (allocs c <= n)%nat /\ alloc_ok n = false)).

Lemma poke_fields (p : bool) c : let c' := if p then poke c else c in
  (conn_wf c' <-> conn_wf c) /\ outbufs c' = outbufs c /\ out_context c' = out_context c /\
  inbufs c' = inbufs c /\ in_context c' = in_context c /\ out_bytes c' = out_bytes c /\
  pokes c' = if p then pokes c + 1 else pokes c.
Proof. by destruct p. Qed.

Lemma leave_ok c c1 bufs data r :
  conn_wf c -> out_bytes c + Zlen data < 2 ^ 32 ->
  copied c1 bufs data r -> queue bufs = queue (outbufs c) -> (allocs c <= allocs c1)%nat ->
  c1 = set_out c (out_bytes c) (outbufs c1) (out_context c) (allocs c1) ->
  exists st c', leave r = (st, c') /\ appended c data st c'.
Proof.
  intros (Hwi & Hwo & Hi & Ho & Hi2 & Ho2) Hlt Hcop Hq0 Ha H1. destruct r as [st c'].
  destruct Hcop as (k & Hq & Hwf & Ho' & Hx & Hc' & Hst). rewrite Hq0 in Hq.
  rewrite H1 in Ho', Hx, Hc'. cbn in Ho', Hx, Hc'.
  assert (Zlen (take k data) <= Zlen data) as Hk by (unfold Zlen; rewrite length_take; lia).
  assert (conn_wf c') as Hwf'.
  { unfold conn_wf. rewrite Hq, Zlen_app, Hc'. cbn [in_bytes inbufs out_bytes outbufs set_out].
    split_and!; try assumption; lia. }
  assert (outer_io c' = outer_io c) as Hio by by rewrite Hc'.
  eexists st, _. split; [reflexivity|]. exists k.
  destruct (poke_fields (negb (out_bytes c' =? 0) && outer_io c') c') as (H2 & -> & -> & -> & -> & -> & ->).
  split_and!; [by apply H2|done|done|by rewrite Hc'|by rewrite Hc'|by rewrite Hio, Hc'|].
  destruct Hst as [Hst|[-> (m & Hm & Hf)]]; [by left|]. right. split; [done|]. exists m. split; [lia|done].
Qed.

Lemma copyin_spec c data :
  conn_wf c -> state c <> omapi_connection_disconnecting -> state c <> omapi_connection_closed ->
  out_bytes c + Zlen data < 2 ^ 32 -> ready (out_key c) (out_context c) ->
  exists st c', omapi_connection_copyin alloc_ok dst_context_create c data = Ret (st, c') /\
    appended c data st c'.
Proof.
  intros Hc Hs1 Hs2 Hlt Hr. pose proof Hc as (Hwi & Hwo & Hi & Ho & Hi2 & Ho2).
  pose proof (Zlen_nonneg (queue (outbufs c))) as Hnn. rewrite <- Ho in Hnn.
  unfold omapi_connection_copyin.
  assert (forall A (x y : A), match state c with
    omapi_connection_disconnecting | omapi_connection_closed => x | _ => y end = y) as -> by by destruct (state c).
  set (c1 := set_out c (out_bytes c) [] (out_context c) (S (allocs c))).
  destruct (rev (outbufs c)) as [|b prev] eqn:Erev; apply (f_equal (@rev _)) in Erev; rewrite rev_involutive in Erev.
  - destruct (alloc_ok (allocs c)) eqn:Ea.
    + destruct (copyin_loop_ok (length data) c1 [] omapi_buffer_new data) as (r & -> & Hpost);
        [lia|apply chain_wf_single, new_wf|done|done|done|].
      destruct (leave_ok c c1 [omapi_buffer_new] data r) as (st & c' & E & Happ); try done.
      { by rewrite Erev. } { cbn; lia. } { cbn [mbind outcome_bind]. rewrite E. eauto. }
    + exists ISC_R_NOMEMORY. eexists. split; [reflexivity|].
      exists 0%nat. rewrite take_0, app_nil_r, signed_nil, Erev.
      destruct (poke_fields (negb (out_bytes c1 =? 0) && outer_io c1) c1) as (H2 & -> & -> & -> & -> & -> & ->).
      split_and!; try done; [|right; eauto].
      apply H2. unfold conn_wf, c1. cbn [in_bytes inbufs out_bytes outbufs set_out]. by rewrite Erev in Hwo, Ho.
  - cbn [rev] in Erev.
    destruct (copyin_loop_ok (length data) c (rev prev) b data) as (r & -> & Hpost); [lia|by rewrite <- Erev|done..|].
    destruct (leave_ok c c (rev prev ++ [b]) data r) as (st & c' & E & Happ); try done.
    { by rewrite Erev. } { by destruct c. } { cbn [mbind outcome_bind]. rewrite E. eauto. }
Qed.

(** C32: On a connection that is open (neither disconnecting nor closed), with well-formed
    buffers and room for the data in the 32-bit count of octets, [omapi_connection_copyin]
    appends the data to the octets waiting to be sent, in order and without touching the
    input side, adds it to the digest when the connection signs its output, keeps
    [out_bytes] equal to the number of octets in the chain and pokes the I/O object when
    there is something to send.  The only failure is a refused allocation: then a prefix of
    the data has been appended.  A connection that signs its output must have its digest
    context already ([ready]): the first copyin after the key is set is left out, because
    there the source may ask for the context twice, where [dst_context_create] stops the
    process (buffer.c:316, [signed_copyin_creates_context_twice]). *)
Theorem omapi_connection_copyin_appends c data :
  conn_wf c -> state c <> omapi_connection_disconnecting -> state c <> omapi_connection_closed ->
  out_bytes c + Zlen data < 2 ^ 32 -> ready (out_key c) (out_context c) ->
  exists st c', omapi_connection_copyin alloc_ok dst_context_create c data = Ret (st, c') /\
    appended c data st c'.
Proof. apply copyin_spec. Qed.

(** The octets [omapi_connection_copyout] takes from the front of the input. *)
Definition taken (c : connection) (want : bool) (size : Z)
    (r : isc_result * connection * option (list Z)) : Prop :=
  let '(st, c', out) := r in
  let d := take (Z.to_nat size) (queue (inbufs c)) in
  if size <=? in_bytes c then
    st = ISC_R_SUCCESS /\ out = (if want then Some d else None) /\
    queue (inbufs c') = drop (Z.to_nat size) (queue (inbufs c)) /\
    in_context c' = signed (in_key c && want) (in_context c) d /\
    conn_wf c' /\ outbufs c' = outbufs c /\ out_context c' = out_context c
  else st = ISC_R_NOMORE /\ c' = c.

Lemma omapi_connection_copyout_spec c want size :
  conn_wf c -> 0 <= size -> ready (in_key c && want) (in_context c) ->
  exists r, omapi_connection_copyout dst_context_create c want size = Ret r /\ taken c want size r.
Proof.
  intros (Hwi & Hwo & Hi & Ho & Hi2 & Ho2) Hs Hr. unfold omapi_connection_copyout, taken.
  rewrite Z.leb_antisym. destruct (Z.ltb_spec (in_bytes c) size) as [Hlt|Hge]; [by eexists|]. cbn [negb].
  set (out := if want then Some [] else None).
  assert (bool_decide (is_Some out) = want) as Hw by by destruct want.
  destruct (copyout_loop_ok (Z.to_nat size + length (inbufs c)) c [] (inbufs c) size out)
    as ([[st c'] out'] & -> & Hst & Hout & Hq & Hwf & Hb & Hx & Hc); rewrite ?Hw; try done; [by constructor|lia|].
  subst st. cbn [mbind outcome_bind]. eexists. split; [reflexivity|].
  pose proof (drop_empty_queue (inbufs c') Hwf) as [Hdq Hdw].
  cbn [inbufs in_bytes in_context set_in conn_wf]. rewrite Hw in Hx.
  split_and!; [done| | |done| | |].
  - rewrite Hout. by destruct want.
  - by rewrite Hdq, Hq.
  - unfold conn_wf. cbn [inbufs outbufs in_bytes out_bytes set_in]. rewrite Hdq, Hq, Hb. cbn [app queue map concat].
    rewrite Hc. cbn [outbufs out_bytes set_in].
    split_and!; try assumption; [|lia]. unfold Zlen in *. rewrite length_drop. lia.
  - by rewrite Hc.
  - by rewrite Hc.
Qed.

(** [omapi_connection_copyout] delivers the oldest [size] octets of the
    input, removes exactly those and subtracts them from [in_bytes], or, when
    fewer are there, reports [ISC_R_NOMORE] and changes nothing; it never runs
    past the chain ([ISC_R_UNEXPECTED]) nor outside of a buffer. *)
Theorem omapi_connection_copyout_takes c want size :
  conn_wf c -> 0 <= size -> ready (in_key c && want) (in_context c) ->
  exists r, omapi_connection_copyout dst_context_create c want size = Ret r /\ taken c want size r.
Proof. apply omapi_connection_copyout_spec. Qed.

Lemma omapi_connection_copyin_open c data c' :
  conn_wf c -> out_bytes c + Zlen data < 2 ^ 32 -> ready (out_key c) (out_context c) ->
  state c <> omapi_connection_disconnecting -> state c <> omapi_connection_closed ->
  omapi_connection_copyin alloc_ok dst_context_create c data = Ret (ISC_R_SUCCESS, c') ->
  queue (outbufs c') = queue (outbufs c) ++ data.
Proof.
  intros. destruct (copyin_spec c data) as (st & c2 & E & k & _ & Hq & _ & _ & _ & _ & Hst); try done.
  rewrite E in *. simplify_eq. rewrite Hq. f_equal. destruct Hst as [[_ ?]|[? _]]; [|done].
  by apply take_ge.
Qed.

Lemma get_be n c rest v :
  conn_wf c -> ready (in_key c) (in_context c) ->
  queue (inbufs c) = be_enc n v ++ rest ->
  exists c', omapi_connection_copyout dst_context_create c true (Z.of_nat n)
             = Ret (ISC_R_SUCCESS, c', Some (be_enc n v)) /\ conn_wf c' /\ queue (inbufs c') = rest.
Proof.
  intros Hc Hr Hq. destruct (omapi_connection_copyout_spec c true (Z.of_nat n)) as ([[st c'] out] & E & Ht);
    [done|lia|by rewrite andb_true_r|].
  unfold taken in Ht. pose proof Hc as (_ & _ & Hi & _).
  rewrite (proj2 (Z.leb_le _ _)), Nat2Z.id, Hq in Ht
    by (rewrite Hi, Hq, Zlen_app; unfold Zlen; rewrite be_enc_length; lia).
  rewrite take_app_length', drop_app_length' in Ht by (by rewrite be_enc_length).
  destruct Ht as (-> & -> & Hq' & _ & Hwf & _). eauto.
Qed.

(** what [omapi_connection_put_uint32] queues at one end of a connection,
    [omapi_connection_get_uint32] reads back at the other end, where the
    octets arrive in order and possibly followed by others; likewise for the
    16-bit pair. *)
Theorem put_get_uint_roundtrip c c1 c2 d v rest :
  conn_wf c -> conn_wf d -> out_bytes c + 4 < 2 ^ 32 -> 0 <= v < 2 ^ 32 ->
  ready (out_key c) (out_context c) -> ready (in_key d) (in_context d) ->
  state c <> omapi_connection_disconnecting -> state c <> omapi_connection_closed ->
  omapi_connection_put_uint32 alloc_ok dst_context_create c v = Ret (ISC_R_SUCCESS, c1) ->
  omapi_connection_put_uint16 alloc_ok dst_context_create c v = Ret (ISC_R_SUCCESS, c2) ->
  queue (outbufs c) = [] ->
  (queue (inbufs d) = queue (outbufs c1) ++ rest ->
   exists d', omapi_connection_get_uint32 dst_context_create d = Ret (ISC_R_SUCCESS, d', Some v) /\
              queue (inbufs d') = rest) /\
  (queue (inbufs d) = queue (outbufs c2) ++ rest ->
   exists d', omapi_connection_get_uint16 dst_context_create d = Ret (ISC_R_SUCCESS, d', Some (u16 v)) /\
              queue (inbufs d') = rest).
Proof.
  intros Hc Hd Hlt Hv Hro Hri Hs1 Hs2 H32 H16 Hq.
  unfold omapi_connection_put_uint32, omapi_connection_put_uint16 in *.
  apply omapi_connection_copyin_open in H32; try done.
  apply omapi_connection_copyin_open in H16; try done.
  2: { unfold Zlen. rewrite be_enc_length. lia. }
  rewrite Hq in H32, H16. cbn [app] in H32, H16. rewrite H32, H16.
  split; intros Hin; destruct (get_be _ d _ _ Hd Hri Hin) as (d' & E & _ & Hrest); exists d';
  (split; [|done]); unfold omapi_connection_get_uint32, omapi_connection_get_uint16;
  [change 4 with (Z.of_nat 4)|change 2 with (Z.of_nat 2)]; rewrite E;
  cbn [mbind outcome_bind]; rewrite be_val_enc; do 3 f_equal.
  - rewrite u32_small by lia. apply Z.mod_small. done.
  - apply Z.mod_small, u16_range.
Qed.

End Copying.

Lemma memread_prefix {A} (l : list A) off n m d :
  memread l off n = Ret d -> 0 <= m <= n -> memread l off m = Ret (take (Z.to_nat m) d).
Proof.
  unfold memread. case_bool_decide; [|done]. intros [= <-] Hm.
  rewrite bool_decide_true by lia. rewrite take_take. do 2 f_equal. lia.
Qed.

Section Writing.
Context (sys_write : nat -> list Z -> Z + errno).
(** [write] takes at most the octets it is offered. *)
Hypothesis write_bound : forall n d w, sys_write n d = inl w -> 0 <= w <= Zlen d.

(** The octets [sent'] handed to the socket are a prefix of the queue, and the
    queue keeps the rest. *)
Definition flushed (c : connection) (passed bufs : list omapi_buffer) (sent : list Z)
    (r : isc_result * connection * list Z) : Prop :=
  let '(st, c', sent') := r in
  exists k, sent' = sent ++ take k (queue bufs) /\
    queue (outbufs c') = queue passed ++ drop k (queue bufs) /\
    chain_wf (outbufs c') /\ out_bytes c' = out_bytes c - Zlen (take k (queue bufs)) /\
    c' = set_out c (out_bytes c') (outbufs c') (out_context c) (allocs c) /\
    ((st = ISC_R_SUCCESS /\ out_bytes c' = 0) \/ st = ISC_R_INPROGRESS \/ exists e, st = write_error e).

Lemma flushed_stop c passed bufs sent st :
  chain_wf (passed ++ bufs) ->
  (st = ISC_R_SUCCESS /\ out_bytes c = 0) \/ st = ISC_R_INPROGRESS \/ (exists e, st = write_error e) ->
  flushed c passed bufs sent (st, set_out c (out_bytes c) (passed ++ bufs) (out_context c) (allocs c), sent).
Proof.
  intros Hwf Hst. exists 0%nat. rewrite take_0, drop_0, app_nil_r. cbn [outbufs out_bytes set_out].
  rewrite queue_app. split_and!; try done. unfold Zlen. cbn. lia.
Qed.

Lemma flushed_step c c1 passed passed1 bufs bufs1 chunk sent r :
  flushed c1 passed1 bufs1 (sent ++ chunk) r ->
  queue bufs = chunk ++ queue bufs1 -> queue passed1 = queue passed ->
  c1 = set_out c (out_bytes c - Zlen chunk) (outbufs c1) (out_context c) (allocs c) ->
  flushed c passed bufs sent r.
Proof.
  destruct r as [[st c'] sent']. intros (k & -> & Hq & Hwf & Ho & Hc & Hst) Hb Hp H1.
  exists (length chunk + k)%nat. rewrite Hb, take_app_add, drop_app_add, <- Hp, Zlen_app.
  rewrite H1 in Ho, Hc. cbn in Ho, Hc. split_and!; [by rewrite app_assoc|done|done|lia|done|done].
Qed.

Lemma writer_loop_ok fuel calls c passed bufs sent :
  (Z.to_nat (out_bytes c) + length bufs <= fuel)%nat -> chain_wf passed -> chain_wf bufs ->
  out_bytes c = Zlen (queue bufs) -> out_bytes c < 2 ^ 32 ->
  exists r, writer_loop sys_write fuel calls c passed bufs sent = Ret r /\ flushed c passed bufs sent r.
Proof.
  revert calls c passed bufs sent.
  induction fuel as [|fuel IH]; intros calls c passed bufs sent Hf Hp Hb Ho Hlt;
  pose proof (Zlen_nonneg (queue bufs)) as Hnn.
  all: cbn [writer_loop]; destruct (Z.eqb_spec (out_bytes c) 0) as [E0|E0].
  1,3: eexists; split; [done|]; apply flushed_stop; [by apply chain_wf_app|by left].
  - lia.
  - destruct bufs as [|b rest]; [unfold Zlen in Ho; cbn in Ho; lia|].
    apply chain_wf_cons in Hb as Hb2. destruct Hb2 as [Hb1 Hrest].
    rewrite queue_cons in *.
    destruct (Z.eqb_spec (BYTES_IN_BUFFER b) 0) as [E|E].
    { rewrite (contents_nil b Hb1 E) in Ho. cbn [app] in Ho.
      destruct (IH calls c (passed ++ [b]) rest sent) as (r & -> & Hpost); try done.
      { cbn [length] in Hf. lia. } { rewrite chain_wf_app, chain_wf_single. done. }
      exists r. split; [done|]. eapply (flushed_step _ _ _ _ _ _ []); [by rewrite app_nil_r| | |].
      - by rewrite queue_cons, (contents_nil b Hb1 E).
      - by rewrite queue_app, queue_single, (contents_nil b Hb1 E), app_nil_r.
      - unfold Zlen. cbn [length]. rewrite Z.sub_0_r. by destruct c. }
    pose proof (head_run_range b Hb1 E) as (_ & Hrun & _).
    destruct (take_head b (head_run b) Hb1 E) as (_ & data & Hrd & Hld & _); [lia|]. rewrite Hrd.
    cbn [mbind outcome_bind]. destruct (sys_write calls data) as [w|e] eqn:Ew.
    2: { eexists; split; [done|]. apply flushed_stop; [by apply chain_wf_app|eauto]. }
    apply write_bound in Ew as Hw.
    destruct (Z.eqb_spec w 0) as [->|Hw0].
    { eexists; split; [done|]. apply flushed_stop; [by apply chain_wf_app|eauto]. }
    destruct (take_head b w Hb1 E) as (Hb' & chunk & Hck & Hlc & Hct); [lia|].
    rewrite (memread_prefix _ _ _ _ _ Hrd) in Hck by lia. injection Hck as <-.
    set (chunk := take (Z.to_nat w) data) in *. set (b' := set_head b (first_byte b + w - 1)) in *.
    rewrite Hct, <- app_assoc, Zlen_app, Hlc, <- queue_cons in Ho.
    pose proof (Zlen_nonneg (queue (b' :: rest))).
    rewrite u32_small by lia.
    assert (chain_wf (b' :: rest)) as Hwf' by by apply chain_wf_cons.
    set (c1 := set_out c (out_bytes c - w) (outbufs c) (out_context c) (allocs c)).
    assert (c1 = set_out c (out_bytes c - Zlen chunk) (outbufs c1) (out_context c) (allocs c)) as Hc1 by by rewrite Hlc.
    destruct (negb _).
    { eexists; split; [done|]. eapply (flushed_step c c1 passed passed _ (b' :: rest) chunk); [|by rewrite queue_cons, Hct, <- app_assoc|done|done].
      apply (flushed_stop c1); [by apply chain_wf_app|eauto]. }
    destruct (Z.eqb_spec (BYTES_IN_BUFFER b') 0) as [E'|E'].
    + rewrite queue_cons, (contents_nil b' Hb' E') in Ho. cbn [app] in Ho.
      destruct (IH (S calls) c1 (passed ++ [b']) rest (sent ++ chunk)) as (r & -> & Hpost); try done.
      { cbn [out_bytes set_out c1 length] in *. lia. } { rewrite chain_wf_app, chain_wf_single. done. }
      { cbn. lia. } { cbn. lia. }
      exists r. split; [done|]. eapply (flushed_step c c1); [exact Hpost| | |done].
      * by rewrite queue_cons, Hct, (contents_nil b' Hb' E'), app_nil_r.
      * by rewrite queue_app, queue_single, (contents_nil b' Hb' E'), app_nil_r.
    + destruct (IH (S calls) c1 passed (b' :: rest) (sent ++ chunk)) as (r & -> & Hpost); try done.
      { cbn [out_bytes set_out c1 length] in *. lia. } { cbn [out_bytes set_out c1]. lia. } { cbn. lia. }
      exists r. split; [done|]. eapply (flushed_step c c1); [exact Hpost|by rewrite queue_cons, Hct, <- app_assoc|done|done].
Qed.

(** [omapi_connection_writer] hands the socket a prefix of the queued
    octets, in order and without gaps, whatever the socket takes on each call,
    and keeps the rest queued; it reports success exactly when nothing is
    left, and otherwise that the write is in progress or the socket's error. *)
Theorem omapi_connection_writer_flushes c :
  conn_wf c ->
  exists st c' k, omapi_connection_writer sys_write c = Ret (st, c', take k (queue (outbufs c))) /\
    queue (outbufs c') = drop k (queue (outbufs c)) /\ conn_wf c' /\ inbufs c' = inbufs c /\
    ((st = ISC_R_SUCCESS /\ out_bytes c' = 0) \/ st = ISC_R_INPROGRESS \/
     exists e, st = write_error e).
Proof.
  intros (Hwi & Hwo & Hi & Ho & Hi2 & Ho2). unfold omapi_connection_writer.
  destruct (Z.eqb_spec (out_bytes c) 0) as [E|E].
  { exists ISC_R_SUCCESS, c, 0%nat. rewrite take_0, drop_0. split_and!; try done. by left. }
  destruct (writer_loop_ok (Z.to_nat (out_bytes c) + length (outbufs c)) 0 c [] (outbufs c) [])
    as ([[st c'] sent] & -> & k & -> & Hq & Hwf & Hb & Hc & Hst); try done; [by constructor|].
  cbn [mbind outcome_bind app].
  assert (conn_wf c') as Hwf'.
  { unfold conn_wf. rewrite Hq, Hb, Hc. cbn [app queue map concat inbufs outbufs in_bytes out_bytes set_out].
    split_and!; try assumption; unfold Zlen in *; rewrite ?length_take, ?length_drop; lia. }
  pose proof (drop_empty_queue (outbufs c') Hwf) as [Hdq Hdw].
  assert (inbufs c' = inbufs c) as Hin by by rewrite Hc.
  destruct (decide (st = ISC_R_SUCCESS)) as [->|Hne].
  - exists ISC_R_SUCCESS, (set_out c' (out_bytes c') (drop_empty (outbufs c')) (out_context c') (allocs c')), k.
    split; [done|]. cbn [inbufs outbufs in_bytes out_bytes set_out]. rewrite Hdq.
    split_and!; try done. unfold conn_wf in *. cbn [inbufs outbufs in_bytes out_bytes set_out]. rewrite Hdq. tauto.
  - exists st, c', k. split; [by destruct st|]. done.
Qed.
End Writing.

Section Reading.
Context (alloc_ok : nat -> bool) (sys_read : nat -> Z -> list Z + errno).
(** [read] delivers at most the octets it is asked for. *)
Hypothesis read_bound : forall n len d, 0 <= len -> sys_read n len = inl d -> Zlen d <= len.

Lemma buffer_put_room b data b' :
  buffer_wf b -> buffer_wf b' -> contents b' = contents b ++ data ->
  BUFFER_BYTES_FREE b' = BUFFER_BYTES_FREE b - Zlen data.
Proof.
  intros Hb Hb' Hc. apply (f_equal Zlen) in Hc. rewrite Zlen_app, !contents_length in Hc by done.
  pose proof (free_in b). pose proof (free_in b'). lia.
Qed.

(** The octets of successive calls of [read] from the [n]-th on. *)
Inductive stream : nat -> list Z -> Prop :=
| stream_nil n : stream n []
| stream_read n len d ds : sys_read n len = inl d -> stream (S n) ds -> stream n (d ++ ds).

Definition stop_ok (s : read_stop) : Prop :=
  match s with
  | Stop_again => True
  | Stop_return res ev => res <> ISC_R_SUCCESS /\ ~ In Signal_ready ev
  end.

Lemma read_error_ok e : stop_ok (read_error e).
Proof. destruct e; cbn; intuition discriminate. Qed.

Lemma reader_loop_ok fuel calls b n_in :
  buffer_wf b -> (Z.to_nat (BUFFER_BYTES_FREE b) <= fuel)%nat ->
  0 <= n_in -> n_in + BUFFER_BYTES_FREE b < 2 ^ 32 ->
  exists stop b' d, reader_loop sys_read fuel calls b n_in (BUFFER_BYTES_FREE b)
                    = Ret (stop, b', n_in + Zlen d) /\
    buffer_wf b' /\ contents b' = contents b ++ d /\ stream calls d /\ stop_ok stop.
Proof.
  revert calls b n_in. induction fuel as [|fuel IH]; intros calls b n_in Hb Hf Hn Hlt;
  pose proof (BUFFER_BYTES_FREE_nonneg b Hb) as Hnn;
  assert (forall stop, stop_ok stop -> exists stop' b' d,
      Ret (stop, b, n_in) = Ret (stop', b', n_in + Zlen d) /\
      buffer_wf b' /\ contents b' = contents b ++ d /\ stream calls d /\ stop_ok stop') as Hstay
    by (intros stop; exists stop, b, []; rewrite app_nil_r; unfold Zlen; cbn [length];
        rewrite Z.add_0_r; split_and!; try done; constructor).
  all: cbn [reader_loop]; destruct (Z.eqb_spec (BUFFER_BYTES_FREE b) 0) as [E0|E0].
  1,3: by apply Hstay.
  - lia.
  - destruct (sys_read calls (tail_room b)) as [d|e] eqn:Er; [|apply Hstay, read_error_ok].
    destruct (Z.eqb_spec (Zlen d) 0); [apply Hstay; cbn; intuition discriminate|]. clear Hstay.
    apply read_bound in Er as Hrd; [|apply tail_room_range, Hb]. pose proof (Zlen_nonneg d).
    destruct (buffer_put_spec b d Hb Hrd) as (b' & -> & Hb' & Hc & _). cbn [mbind outcome_bind].
    pose proof (buffer_put_room b d b' Hb Hb' Hc) as Hfree.
    pose proof (BUFFER_BYTES_FREE_nonneg b' Hb'). rewrite u32_small by lia.
    destruct (Zlen d <? tail_room b).
    { exists Stop_again, b', d. split_and!; try done. rewrite <- (app_nil_r d). repeat econstructor. done. }
    rewrite <- Hfree.
    destruct (IH (S calls) b' (n_in + Zlen d)) as (stop & b2 & d2 & -> & Hb2 & Hc2 & Hs2 & Hok); [done|lia..|].
    exists stop, b2, (d ++ d2). rewrite Zlen_app, Z.add_assoc, Hc2, Hc, app_assoc.
    split_and!; try done. by econstructor.
Qed.

(** What a call of [omapi_connection_reader] does to the connection. *)
Definition received (c : connection) (r : isc_result * connection * list reader_event) : Prop :=
  let '(st, c', ev) := r in
  conn_wf c' /\ outbufs c' = outbufs c /\
  exists d, stream 0 d /\ queue (inbufs c') = queue (inbufs c) ++ d /\
    (In Signal_ready ev -> st = ISC_R_SUCCESS /\ bytes_needed c' <= in_bytes c').

Lemma reader_run_ok c prev b a :
  conn_wf c -> chain_wf prev -> buffer_wf b -> queue (prev ++ [b]) = queue (inbufs c) ->
  in_bytes c + OMAPI_BUF_SIZE < 2 ^ 32 ->
  exists r,
    (r ← reader_loop sys_read (Z.to_nat OMAPI_BUF_SIZE) 0 b (in_bytes c) (BUFFER_BYTES_FREE b);
     Ret (reader_finish c prev a r)) = Ret r /\ received c r.
Proof.
  intros (Hwi & Hwo & Hi & Ho & Hi2 & Ho2) Hp Hb Hq Hlt.
  pose proof (Zlen_nonneg (queue (inbufs c))). pose proof (Zlen_nonneg (contents b)) as Hcb.
  rewrite contents_length in Hcb by done. pose proof (free_in b).
  destruct (reader_loop_ok (Z.to_nat OMAPI_BUF_SIZE) 0 b (in_bytes c))
    as (stop & b' & d & -> & Hb' & Hc & Hs & Hok); [done|lia..|].
  pose proof (buffer_put_room b d b' Hb Hb' Hc). pose proof (BUFFER_BYTES_FREE_nonneg b' Hb').
  cbn [mbind outcome_bind reader_finish].
  set (c' := set_in c (in_bytes c + Zlen d) (prev ++ [b']) (in_context c) a).
  assert (queue (prev ++ [b']) = queue (inbufs c) ++ d) as Hq'
    by (rewrite <- Hq, !queue_app, !queue_single, Hc; apply app_assoc).
  assert (conn_wf c') as Hwf.
  { unfold conn_wf, c'. cbn [inbufs outbufs in_bytes out_bytes set_in]. rewrite Hq', Zlen_app.
    split_and!; try assumption; try lia. by rewrite chain_wf_app, chain_wf_single. }
  destruct stop as [|res ev]; (eexists; split; [reflexivity|]; split_and!; [done|done|]; exists d;
    split_and!; [done|done|]).
  - change (bytes_needed c') with (bytes_needed c). cbn [c' in_bytes set_in].
    by destruct (Z.leb_spec (bytes_needed c) (in_bytes c + Zlen d)).
  - intros Hin. by destruct Hok.
Qed.

(** [omapi_connection_reader] appends to the input, in order, exactly the
    octets successive calls of [read] deliver, whatever their sizes and
    however the reading ends, keeps [in_bytes] and the chain consistent, and
    signals [ready] only when the octets the connection needs are there. *)
Theorem omapi_connection_reader_appends c :
  conn_wf c -> in_bytes c + OMAPI_BUF_SIZE < 2 ^ 32 ->
  exists r, omapi_connection_reader alloc_ok sys_read c = Ret r /\ received c r.
Proof.
  intros Hc Hlt. pose proof Hc as (Hwi & Hwo & Hi & _).
  assert (forall st a, received c (st, set_in c (in_bytes c) (inbufs c) (in_context c) a, [])) as Hstay.
  { intros. split_and!; [by destruct c|done|]. exists []. rewrite app_nil_r. split_and!; try done. constructor. }
  unfold omapi_connection_reader.
  destruct (_ && _). { eexists. split; [done|]. specialize (Hstay ISC_R_SUCCESS (allocs c)). by destruct c. }
  destruct (rev (inbufs c)) as [|b prev] eqn:Erev; apply (f_equal (@rev _)) in Erev;
    rewrite rev_involutive in Erev; cbn [rev] in Erev.
  - destruct (alloc_ok _); [|by eauto]. apply reader_run_ok; [done|by apply Forall_nil|apply new_wf| |done].
    rewrite Erev. cbn [app]. by rewrite queue_single, (proj2 new_wf).
  - rewrite Erev in Hwi. apply chain_wf_app in Hwi as Hw. destruct Hw as [Hp Hb%chain_wf_single].
    destruct (_ =? 0).
    + destruct (alloc_ok _); [|by eauto]. apply reader_run_ok; [done|by rewrite Erev|apply new_wf| |done].
      by rewrite queue_app, queue_single, (proj2 new_wf), app_nil_r.
    + apply reader_run_ok; try done. by rewrite Erev.
Qed.
End Reading.

(** ** Instances *)

(** The dst library's [dst_context_create]: it requires a null context pointer
    and stops the process otherwise. *)
Definition dst_create (ctx : context) : outcome (isc_result * context) :=
  match ctx with
  | None => Ret (ISC_R_SUCCESS, Some [])
  | Some _ => Fatal
  end.

(** A buffer whose contents wrap around the end of the array. *)
Definition wrapped : omapi_buffer :=
  OmapiBuffer 4044 2 ([3; 4] ++ replicate 4043 0 ++ [0; 1; 2]).

Definition conn0 : connection :=
  Connection omapi_connection_connected 1 5 [wrapped] 5 [wrapped] false None false None true 0 0.

Definition conn_empty : connection :=
  Connection omapi_connection_connected 1 0 [] 0 [] false None false None true 0 0.

Definition conn_in : connection :=
  Connection omapi_connection_connected 1 6
    [OmapiBuffer 4047 6 ([1; 2; 3; 4; 9; 9] ++ replicate 4042 0)] 0 [] false None false None true 0 0.

Lemma wrapped_wf : buffer_wf wrapped.
Proof. unfold buffer_wf. split; [reflexivity|]. unfold OMAPI_BUF_SIZE. cbn [head tail wrapped]. lia. Qed.

Lemma conn0_wf : conn_wf conn0.
Proof.
  unfold conn_wf. cbn [inbufs outbufs in_bytes out_bytes conn0]. rewrite chain_wf_single.
  split_and!; [apply wrapped_wf|apply wrapped_wf|vm_compute; reflexivity|vm_compute; reflexivity|lia|lia].
Qed.

Lemma conn_empty_wf : conn_wf conn_empty.
Proof.
  unfold conn_wf. cbn [inbufs outbufs in_bytes out_bytes conn_empty].
  split_and!; [constructor|constructor|reflexivity|reflexivity|lia|lia].
Qed.

Lemma conn_in_wf : conn_wf conn_in.
Proof.
  unfold conn_wf. cbn [inbufs outbufs in_bytes out_bytes conn_in]. rewrite chain_wf_single.
  split_and!; [|constructor|vm_compute; reflexivity|reflexivity|lia|lia].
  unfold buffer_wf. split; [reflexivity|]. unfold OMAPI_BUF_SIZE. cbn [head tail]. lia.
Qed.

Lemma omapi_connection_copyin_appends_witness :
  exists st c', omapi_connection_copyin (fun _ => true) dst_create conn0 [7; 8] = Ret (st, c') /\
    appended (fun _ => true) conn0 [7; 8] st c'.
Proof.
  apply (omapi_connection_copyin_appends (fun _ => true) dst_create conn0 [7; 8]);
    [apply conn0_wf|discriminate|discriminate|vm_compute; reflexivity|discriminate].
Defined.

Lemma omapi_connection_copyout_takes_witness :
  exists r, omapi_connection_copyout dst_create conn0 true 4 = Ret r /\ taken conn0 true 4 r.
Proof. apply (omapi_connection_copyout_takes dst_create conn0 true 4); [apply conn0_wf|lia|discriminate]. Defined.

Definition conn_put (v : Z) (put : connection -> Z -> outcome (isc_result * connection)) : connection :=
  match put conn_empty v with Ret (_, c) => c | _ => conn_empty end.

Lemma put_get_uint_roundtrip_witness :
  exists d', omapi_connection_get_uint32 dst_create conn_in = Ret (ISC_R_SUCCESS, d', Some 16909060) /\
             queue (inbufs d') = [9; 9].
Proof.
  refine (proj1 (put_get_uint_roundtrip (fun _ => true) dst_create conn_empty
    (conn_put 16909060 (omapi_connection_put_uint32 (fun _ => true) dst_create))
    (conn_put 16909060 (omapi_connection_put_uint16 (fun _ => true) dst_create))
    conn_in 16909060 [9; 9] conn_empty_wf conn_in_wf _ _ _ _ _ _ _ _ _) _);
  [vm_compute; reflexivity|lia|discriminate|discriminate|discriminate|discriminate
  |vm_compute; reflexivity|vm_compute; reflexivity|reflexivity|vm_compute; reflexivity].
Defined.

(** A socket that takes two octets at a time. *)
Definition write2 (n : nat) (d : list Z) : Z + errno := inl (Z.min 2 (Zlen d)).

Lemma omapi_connection_writer_flushes_witness :
  exists st c' k, omapi_connection_writer write2 conn0 = Ret (st, c', take k (queue (outbufs conn0))) /\
    queue (outbufs c') = drop k (queue (outbufs conn0)) /\ conn_wf c' /\ inbufs c' = inbufs conn0 /\
    ((st = ISC_R_SUCCESS /\ out_bytes c' = 0) \/ st = ISC_R_INPROGRESS \/
     exists e, st = write_error e).
Proof.
  apply (omapi_connection_writer_flushes write2); [|apply conn0_wf].
  unfold write2. intros n d w [= <-]. unfold Zlen. lia.
Defined.

(** A peer that delivers three octets and then nothing. *)
Definition read3 (n : nat) (len : Z) : list Z + errno :=
  match n with O => inl (take (Z.to_nat len) [5; 6; 7]) | _ => inr EWOULDBLOCK end.

Lemma omapi_connection_reader_appends_witness :
  exists r, omapi_connection_reader (fun _ => true) read3 conn0 = Ret r /\ received read3 conn0 r.
Proof.
  apply (omapi_connection_reader_appends (fun _ => true) read3);
    [|apply conn0_wf|cbn; unfold OMAPI_BUF_SIZE; lia].
  intros [|n] len d Hlen; [|discriminate]. intros [= <-]. unfold Zlen. rewrite length_take. lia.
Defined.

(** The first signed copy of data that does not fit the free slots of one
    buffer asks for a context twice, since [SIG_MODE_INIT] stays in
    [sig_flags] after the first turn: the process stops. *)
Theorem signed_copyin_creates_context_twice :
  omapi_connection_copyin (fun _ => true) dst_create
    (Connection omapi_connection_connected 1 0 [] 0 [] false None true None true 0 0)
    (replicate 4048 65) = Fatal.
Proof. vm_compute. reflexivity. Qed.

End RingBuffer.
