(* ===== verification/LeaseChain.v ===== *)
(** * Sorted lease queues (server/leasechain.c)

    Each queue of a pool (active, free, backup, expired, abandoned) is an array
    of lease pointers over a doubly linked list of reference-counted leases.
    The heap of leases, the array, the links and the counts are explicit; the
    allocator and [random] are parameters. *)

From stdpp Require Import base list numbers option gmap sorting.
From Stdlib Require Import ZArith Lia.
From S2P Require Import Prelude.
#[local] Open Scope Z_scope.

Module LeaseChain.

(** A lease pointer; the null pointer is [None]. *)
Abbreviation ptr := (option positive).

Record lease : Type := Lease {
  sort_time : Z;
  sort_tiebreaker : Z;
  next : ptr;
  prev : ptr;
  lc : option Z;       (** the address of the chain the lease is on *)
  refcnt : Z
}.

Record leasechain : Type := Leasechain {
  addr : Z;
  list : list ptr;     (** the array; [total] is its length *)
  nelem : Z;
  growth : Z
}.

Definition total (c : leasechain) : Z := Zlen (list c).

Record world : Type := World { heap : gmap positive lease; chain : leasechain }.

Definition LC_GROWTH_DELTA : Z := 256.
Definition SIZE_MAX : Z := 2 ^ 64 - 1.
Definition LONG_MAX : Z := 2 ^ 63 - 1.

(** ** Pointers and references *)

(** [p->...], for a pointer that must not be null or dangling. *)
Definition load (h : gmap positive lease) (p : ptr) : outcome (positive * lease) :=
  match p with
  | Some x => match h !! x with Some l => Ret (x, l) | None => Undef end
  | None => Undef
  end.

Definition update (w : world) (x : positive) (f : lease -> lease) : outcome world :=
  match heap w !! x with
  | Some _ => Ret (World (alter f x (heap w)) (chain w))
  | None => Undef
  end.

Definition set_next (p : ptr) (l : lease) : lease :=
  Lease (sort_time l) (sort_tiebreaker l) p (prev l) (lc l) (refcnt l).
Definition set_prev (p : ptr) (l : lease) : lease :=
  Lease (sort_time l) (sort_tiebreaker l) (next l) p (lc l) (refcnt l).
Definition set_lc (c : option Z) (l : lease) : lease :=
  Lease (sort_time l) (sort_tiebreaker l) (next l) (prev l) c (refcnt l).
Definition set_tiebreaker (t : Z) (l : lease) : lease :=
  Lease (sort_time l) t (next l) (prev l) (lc l) (refcnt l).
Definition add_ref (d : Z) (l : lease) : lease :=
  Lease (sort_time l) (sort_tiebreaker l) (next l) (prev l) (lc l) (refcnt l + d).

Definition set_array (w : world) (a : Datatypes.list ptr) (n : Z) : world :=
  World (heap w) (Leasechain (addr (chain w)) a n (growth (chain w))).

(** The places a lease pointer is kept in. *)
Inductive slot : Type := Arr (i : Z) | Next (x : positive) | Prev (x : positive).

Definition get_slot (w : world) (s : slot) : outcome ptr :=
  match s with
  | Arr i => rdA (list (chain w)) i
  | Next x => p ← load (heap w) (Some x); Ret (next p.2)
  | Prev x => p ← load (heap w) (Some x); Ret (prev p.2)
  end.

Definition set_slot (w : world) (s : slot) (p : ptr) : outcome world :=
  match s with
  | Arr i => a ← wrA (list (chain w)) i p; Ret (set_array w a (nelem (chain w)))
  | Next x => update w x (set_next p)
  | Prev x => update w x (set_prev p)
  end.

(** [omapi_object_reference] on a lease: refuses to store into a non-null
    pointer (the callers ignore the result). *)
Definition lease_reference (w : world) (s : slot) (p : ptr) : outcome world :=
  match p with
  | None => Ret w
  | Some x =>
    old ← get_slot w s;
    match old with
    | Some _ => Ret w
    | None => w1 ← set_slot w s (Some x); update w1 x (add_ref 1)
    end
  end.

(** Drop one reference to [x]; the last one frees the lease.  No OMAPI object
    is attached to the lease (it has neither an inner nor an outer object nor a
    handle), and the references a lease that is freed holds are not followed. *)
Definition release (w : world) (x : positive) : outcome world :=
  p ← load (heap w) (Some x);
  if refcnt p.2 <=? 0 then Ret w
  else if refcnt p.2 =? 1 then Ret (World (delete x (heap w)) (chain w))
  else update w x (add_ref (-1)).

Definition lease_dereference (w : world) (s : slot) : outcome world :=
  old ← get_slot w s;
  match old with
  | None => Ret w
  | Some x => w1 ← set_slot w s None; release w1 x
  end.

(** ** Queries *)

Definition lc_not_empty (c : leasechain) : Z := if 0 <? nelem c then 1 else 0.

Definition lc_get_first_lease (c : leasechain) : outcome ptr :=
  if 0 <? nelem c then rdA (list c) 0 else Ret None.

Definition lc_get_next (w : world) (lp : positive) : outcome ptr :=
  p ← load (heap w) (Some lp); Ret (next p.2).

(** ** Binary search *)

(** The conditions of both searches on [sort_time] and [sort_tiebreaker]. *)
Definition key_gt (a b : lease) : bool :=
  (sort_time b <? sort_time a) ||
  ((sort_time a =? sort_time b) && (sort_tiebreaker b <? sort_tiebreaker a)).

Definition key_ne (a b : lease) : bool :=
  negb (sort_time a =? sort_time b) ||
  ((sort_time a =? sort_time b) && negb (sort_tiebreaker a =? sort_tiebreaker b)).

Definition entry (w : world) (i : Z) : outcome (positive * lease) :=
  p ← rdA (list (chain w)) i; load (heap w) p.

(** The fuel is a bound on the depth of the recursion; [max - min + 1] is one. *)
Fixpoint insert_point (fuel : nat) (w : world) (lp : lease) (min max : Z) : outcome Z :=
  match fuel with
  | O => Undef
  | S fuel' =>
    let mid_index := (max - min) / 2 + min in
    e ← entry w mid_index;
    if key_gt e.2 lp then
      if mid_index =? min then Ret min else insert_point fuel' w lp min (mid_index - 1)
    else if key_gt lp e.2 then
      if mid_index =? max then Ret (mid_index + 1) else insert_point fuel' w lp (mid_index + 1) max
    else Ret mid_index
  end.

Definition lc_binary_search_insert_point (w : world) (lp : lease) (min max : Z) : outcome Z :=
  insert_point (Z.to_nat (max - min + 1)) w lp min max.

(** [for (i = mid_index - 1; ; i--)]: [None] is the [break]. *)
Fixpoint scan_down (n : nat) (w : world) (lp : positive) (l : lease) (i min : Z) : outcome (option Z) :=
  match n with
  | O => Undef
  | S n' =>
    p ← rdA (list (chain w)) i;
    if bool_decide (p = Some lp) then Ret (Some i)
    else if i =? min then Ret None
    else
      e ← load (heap w) p;
      if key_ne e.2 l then Ret None else scan_down n' w lp l (i - 1) min
  end.

(** [for (i = mid_index + 1; i <= max; i++)]. *)
Fixpoint scan_up (n : nat) (w : world) (lp : positive) (l : lease) (i max : Z) : outcome (option Z) :=
  if max <? i then Ret None
  else
    match n with
    | O => Undef
    | S n' =>
      p ← rdA (list (chain w)) i;
      if bool_decide (p = Some lp) then Ret (Some i)
      else
        e ← load (heap w) p;
        if key_ne e.2 l then Ret None else scan_up n' w lp l (i + 1) max
    end.

Fixpoint search_lease (fuel : nat) (w : world) (lp : positive) (l : lease) (min max : Z) : outcome Z :=
  if max <? min then Ret SIZE_MAX
  else
    match fuel with
    | O => Undef
    | S fuel' =>
      let mid_index := (max - min) / 2 + min in
      e ← entry w mid_index;
      if key_gt e.2 l then
        if mid_index =? min then Ret SIZE_MAX else search_lease fuel' w lp l min (mid_index - 1)
      else if key_gt l e.2 then search_lease fuel' w lp l (mid_index + 1) max
      else if bool_decide (e.1 = lp) then Ret mid_index
      else
        below ← (if min <? mid_index
                 then scan_down (Z.to_nat (mid_index - min)) w lp l (mid_index - 1) min
                 else Ret None);
        match below with
        | Some i => Ret i
        | None =>
          above ← (if mid_index <? max
                   then scan_up (Z.to_nat (max - mid_index)) w lp l (mid_index + 1) max
                   else Ret None);
          match above with
          | Some i => Ret i
          | None => Ret SIZE_MAX
          end
        end
    end.

Definition lc_binary_search_lease (w : world) (lp : positive) (min max : Z) : outcome Z :=
  l ← load (heap w) (Some lp);
  search_lease (Z.to_nat (max - min + 1)) w lp l.2 min max.

(** ** Insertion *)

Section Operations.
(** Does [dmalloc] succeed? *)
Context (alloc_ok : bool).

Definition lc_grow_chain (w : world) : outcome world :=
  let c := chain w in
  let temp_size := total c + (if growth c =? 0 then LC_GROWTH_DELTA else growth c) in
  if negb alloc_ok then Fatal
  else
    old ← memread (list c) 0 (nelem c);
    a ← memcpy (replicate (Z.to_nat temp_size) None) 0 old;
    Ret (set_array w a (nelem c)).

Definition lc_link_lcp (w : world) (lp : positive) (n : Z) : outcome world :=
  w1 ← (if nelem (chain w) =? total (chain w) then lc_grow_chain w else Ret w);
  let c := chain w1 in
  w2 ← (if n <? nelem c then
          moved ← memread (list c) n (nelem c - n);
          a ← memcpy (list c) (n + 1) moved;
          Ret (set_array w1 a (nelem c))
        else Ret w1);
  w3 ← set_slot w2 (Arr n) None;
  w4 ← lease_reference w3 (Arr n) (Some lp);
  update (set_array w4 (list (chain w4)) (nelem (chain w4) + 1)) lp (set_lc (Some (addr c))).

(** Drop the lease the slot points to, if any, and store [lp] in its place. *)
Definition relink (w : world) (s : slot) (lp : positive) : outcome world :=
  old ← get_slot w s;
  w1 ← match old with Some _ => lease_dereference w s | None => Ret w end;
  lease_reference w1 s (Some lp).

(** The linked-list half of [lc_add_lease_pos]. *)
Definition link_neighbours (w : world) (lp : positive) (pos : Z) : outcome world :=
  w2 ← (if 0 <? pos then
          e ← entry w (pos - 1);
          w' ← relink w (Next e.1) lp;
          p ← rdA (list (chain w')) (pos - 1);
          lease_reference w' (Prev lp) p
        else Ret w);
  if pos <? nelem (chain w2) - 1 then
    e ← entry w2 (pos + 1);
    w' ← relink w2 (Prev e.1) lp;
    p ← rdA (list (chain w')) (pos + 1);
    lease_reference w' (Next lp) p
  else Ret w2.

Definition lc_add_lease_pos (w : world) (lp : positive) (pos : Z) : outcome world :=
  w1 ← lc_link_lcp w lp pos; link_neighbours w1 lp pos.

(** [random] is the value [random()] returns. *)
Definition lc_add_sorted_lease (w : world) (lp : positive) (random : Z) : outcome world :=
  let n := nelem (chain w) in
  if n =? 0 then
    w1 ← update w lp (set_tiebreaker 0); lc_add_lease_pos w1 lp 0
  else
    l ← load (heap w) (Some lp);
    last ← entry w (n - 1);
    if sort_time last.2 <? sort_time l.2 then
      w1 ← update w lp (set_tiebreaker 0); lc_add_lease_pos w1 lp n
    else if sort_time l.2 =? sort_time last.2 then
      w1 ← update w lp (set_tiebreaker (if sort_tiebreaker last.2 <? LONG_MAX
                                        then sort_tiebreaker last.2 + 1 else LONG_MAX));
      lc_add_lease_pos w1 lp n
    else
      w1 ← update w lp (set_tiebreaker random);
      pos ← lc_binary_search_insert_point w1 (set_tiebreaker random l.2) 0 (n - 1);
      lc_add_lease_pos w1 lp pos.

(** ** Removal *)

Definition lc_unlink_lcp (w : world) (n : Z) : outcome world :=
  e ← entry w n;
  w1 ← update w e.1 (set_lc None);
  w2 ← lease_dereference w1 (Arr n);
  let c := chain w2 in
  w3 ← (if n <? nelem c - 1 then
          moved ← memread (list c) (n + 1) (nelem c - 1 - n);
          a ← memcpy (list c) n moved;
          Ret (set_array w2 a (nelem c))
        else Ret w2);
  Ret (set_array w3 (list (chain w3)) (nelem (chain w3) - 1)).

(** The linked-list half of [lc_unlink_lease_pos]. *)
Definition unlink_neighbours (w : world) (lp : positive) : outcome world :=
  nx ← get_slot w (Next lp);
  w3 ← match nx with
       | Some n =>
         w' ← lease_dereference w (Prev n);
         pv ← get_slot w' (Prev lp);
         lease_reference w' (Prev n) pv
       | None => Ret w
       end;
  pv ← get_slot w3 (Prev lp);
  w4 ← match pv with
       | Some p =>
         w' ← lease_dereference w3 (Next p);
         nx ← get_slot w' (Next lp);
         w'' ← lease_reference w' (Next p) nx;
         lease_dereference w'' (Prev lp)
       | None => Ret w3
       end;
  nx ← get_slot w4 (Next lp);
  match nx with Some _ => lease_dereference w4 (Next lp) | None => Ret w4 end.

(** The local reference [lp] is counted while the function runs. *)
Definition lc_unlink_lease_pos (w : world) (pos : Z) : outcome world :=
  e ← entry w pos;
  w1 ← update w e.1 (add_ref 1);
  w2 ← lc_unlink_lcp w1 pos;
  w3 ← unlink_neighbours w2 e.1;
  release w3 e.1.

Definition lc_unlink_lease (w : world) (lp : positive) : outcome world :=
  pos ← lc_binary_search_lease w lp 0 (u64 (nelem (chain w) - 1));
  if pos =? SIZE_MAX then Fatal else lc_unlink_lease_pos w pos.

(** [for (i = nelem - 1; ; i--)] *)
Fixpoint unlink_all (n : nat) (w : world) : outcome world :=
  match n with
  | O => Ret w
  | S n' => w1 ← lc_unlink_lease_pos w (Z.of_nat n'); unlink_all n' w1
  end.

Definition lc_delete_all (w : world) : outcome world :=
  w1 ← unlink_all (Z.to_nat (nelem (chain w))) w;
  Ret (set_array w1 [] 0).

Definition lc_init_growth (c : leasechain) (g : Z) : leasechain :=
  Leasechain (addr c) (list c) (nelem c) g.

End Operations.

(** ** The queue a chain represents *)

(** [a] sorts strictly before [b], or not after it. *)
Definition key_lt (a b : lease) : Prop :=
  sort_time a < sort_time b \/ (sort_time a = sort_time b /\ sort_tiebreaker a < sort_tiebreaker b).
Definition key_le (a b : lease) : Prop :=
  sort_time a < sort_time b \/ (sort_time a = sort_time b /\ sort_tiebreaker a <= sort_tiebreaker b).

Lemma key_gt_true a b : key_gt a b = true <-> key_lt b a.
Proof. unfold key_gt, key_lt. lia. Qed.

Lemma key_gt_false a b : key_gt a b = false <-> key_le a b.
Proof. unfold key_gt, key_le. lia. Qed.

Lemma key_ne_false a b : key_ne a b = false <-> key_le a b /\ key_le b a.
Proof. unfold key_ne, key_le. lia. Qed.

Definition node (h : gmap positive lease) (x : positive) : lease :=
  default (Lease 0 0 None None None 0) (h !! x).

Lemma node_Some h x l : h !! x = Some l -> node h x = l.
Proof. unfold node. by intros ->. Qed.

Definition count (p : ptr) : Z := match p with Some _ => 1 | None => 0 end.

(** The predecessor of position [i]. *)
Definition before (ids : Datatypes.list positive) (i : nat) : ptr :=
  match i with O => None | S j => ids !! j end.

(** The leases of [ids], in this order, are the entries of the array and the
    nodes of the doubly linked list.  The count of references of each is what
    the rest of the server holds ([ext]) and the pointers of the chain. *)
Record chain_rep (ext : positive -> Z) (w : world) (ids : Datatypes.list positive) : Prop := ChainRep {
  rep_nelem : nelem (chain w) = Zlen ids;
  rep_array : take (length ids) (list (chain w)) = Some <$> ids;
  rep_growth : 0 <= growth (chain w);
  rep_nodup : NoDup ids;
  rep_node : forall i x, ids !! i = Some x ->
    exists l, heap w !! x = Some l /\ next l = ids !! S i /\ prev l = before ids i /\
      lc l = Some (addr (chain w)) /\ refcnt l = ext x + 1 + count (next l) + count (prev l)
}.

Definition sorted (h : gmap positive lease) (ids : Datatypes.list positive) : Prop :=
  forall i j x y, (i <= j)%nat -> ids !! i = Some x -> ids !! j = Some y ->
    key_le (node h x) (node h y).

Lemma take_lookup (a : Datatypes.list ptr) (ids : Datatypes.list positive) i x :
  take (length ids) a = Some <$> ids -> ids !! i = Some x -> a !! i = Some (Some x).
Proof.
  intros Ha H. apply lookup_lt_Some in H as Hlt.
  rewrite <- (lookup_take_lt _ (length ids)) by done. by rewrite Ha, list_lookup_fmap, H.
Qed.

Section Search.
Context (ext : positive -> Z) (w : world) (ids : Datatypes.list positive).
Hypothesis rep : chain_rep ext w ids.
Hypothesis srt : sorted (heap w) ids.

Lemma array_lookup i x : ids !! i = Some x -> list (chain w) !! i = Some (Some x).
Proof. apply take_lookup, (rep_array _ _ _ rep). Qed.

Lemma array_rd i : 0 <= i < Zlen ids ->
  exists x, ids !! Z.to_nat i = Some x /\ rdA (list (chain w)) i = Ret (Some x) /\
            load (heap w) (Some x) = Ret (x, node (heap w) x).
Proof.
  intros Hi. destruct (ids !! Z.to_nat i) as [x|] eqn:E.
  - exists x. split; [done|]. split; [by apply rdA_lookup, array_lookup; [lia|]|].
    destruct (rep_node _ _ _ rep _ _ E) as (l & Hl & _). cbn. by rewrite (node_Some _ _ _ Hl), Hl.
  - apply lookup_ge_None in E. unfold Zlen in Hi. lia.
Qed.

Lemma entry_ok i : 0 <= i < Zlen ids ->
  exists x, ids !! Z.to_nat i = Some x /\ entry w i = Ret (x, node (heap w) x).
Proof.
  intros Hi. destruct (array_rd i Hi) as (x & Hx & Hr & Hl). exists x. split; [done|].
  unfold entry. by rewrite Hr.
Qed.

Lemma mid_range min max :
  min <= max -> let mid := (max - min) / 2 + min in min <= mid <= max /\ (mid = max -> min = max).
Proof.
  intros H mid. unfold mid. pose proof (Z.div_mod (max - min) 2 ltac:(lia)).
  pose proof (Z.mod_pos_bound (max - min) 2 ltac:(lia)). lia.
Qed.

(** Everything before position [p] sorts before [l], everything from [p] on after it. *)
Definition splits (l : lease) (p : Z) : Prop :=
  0 <= p <= Zlen ids /\
  forall i x, ids !! i = Some x ->
    if bool_decide (Z.of_nat i < p) then key_le (node (heap w) x) l else key_le l (node (heap w) x).

Lemma insert_point_ok fuel l min max :
  0 <= min <= max -> max < Zlen ids -> max - min < Z.of_nat fuel ->
  (forall i x, ids !! i = Some x -> Z.of_nat i < min -> key_le (node (heap w) x) l) ->
  (forall i x, ids !! i = Some x -> max < Z.of_nat i -> key_le l (node (heap w) x)) ->
  exists p, insert_point fuel w l min max = Ret p /\ splits l p.
Proof.
  revert min max. induction fuel as [|fuel IH]; intros min max Hm Hx Hf Hlo Hhi; [lia|].
  cbn [insert_point]. set (mid := (max - min) / 2 + min).
  destruct (mid_range min max) as [Hmid Hmm]; [lia|]. fold mid in Hmid, Hmm.
  destruct (entry_ok mid) as (x & Ex & ->); [lia|]. cbn [mbind outcome_bind fst snd].
  assert (forall i y, ids !! i = Some y -> Z.of_nat i <= mid -> key_le (node (heap w) y) (node (heap w) x)) as Hle
    by (intros i y Ei Hi; apply (srt i (Z.to_nat mid)); [lia|done..]).
  assert (forall i y, ids !! i = Some y -> mid <= Z.of_nat i -> key_le (node (heap w) x) (node (heap w) y)) as Hge
    by (intros i y Ei Hi; apply (srt (Z.to_nat mid) i); [lia|done..]).
  destruct (key_gt _ l) eqn:E1; [apply key_gt_true in E1|apply key_gt_false in E1].
  - assert (forall i y, ids !! i = Some y -> mid <= Z.of_nat i -> key_le l (node (heap w) y)) as Hge'
      by (intros i y Ei Hi; specialize (Hge i y Ei Hi); unfold key_lt, key_le in *; lia).
    destruct (Z.eqb_spec mid min) as [E|E].
    + eexists; split; [done|]. split; [lia|]. intros i y Ei. case_bool_decide; [by eapply Hlo|].
      eapply Hge'; [done|lia].
    + apply IH; try lia; [done|]. intros i y Ei Hi. apply (Hge' i y Ei). lia.
  - destruct (key_gt l _) eqn:E2; [apply key_gt_true in E2|apply key_gt_false in E2].
    + assert (forall i y, ids !! i = Some y -> Z.of_nat i <= mid -> key_le (node (heap w) y) l) as Hle'
        by (intros i y Ei Hi; specialize (Hle i y Ei Hi); unfold key_lt, key_le in *; lia).
      destruct (Z.eqb_spec mid max) as [E|E].
      * eexists; split; [done|]. split; [lia|]. intros i y Ei. case_bool_decide; [eapply Hle'; [done|lia]|].
        eapply Hhi; [done|lia].
      * apply IH; try lia; [|done]. intros i y Ei Hi. apply (Hle' i y Ei). lia.
    + eexists; split; [done|]. split; [lia|]. intros i y Ei. case_bool_decide.
      * specialize (Hle i y Ei ltac:(lia)). unfold key_le in *. lia.
      * specialize (Hge i y Ei ltac:(lia)). unfold key_le in *. lia.
Qed.
Context (lp : positive).
Abbreviation l := (node (heap w) lp).

(** A search result over the positions [lo .. hi]. *)
Definition found (r : option Z) (lo hi : Z) : Prop :=
  match r with
  | Some k => lo <= k <= hi /\ ids !! Z.to_nat k = Some lp
  | None => forall k, lo <= k <= hi -> ids !! Z.to_nat k <> Some lp
  end.

Lemma found_extend r lo hi lo' hi' :
  found r lo hi -> lo' <= lo -> hi <= hi' ->
  (forall k, lo' <= k <= hi' -> ~ (lo <= k <= hi) -> ids !! Z.to_nat k <> Some lp) -> found r lo' hi'.
Proof.
  destruct r as [k|]; cbn; [intros [? ?]; split; [lia|done]|].
  intros H ? ? Hout k Hk. destruct (decide (lo <= k <= hi)); auto.
Qed.

Lemma scan_down_ok n i min :
  0 <= min <= i -> i < Zlen ids -> i - min < Z.of_nat n ->
  (forall k x, ids !! k = Some x -> Z.of_nat k <= i -> key_le (node (heap w) x) l) ->
  exists r, scan_down n w lp l i min = Ret r /\ found r min i.
Proof.
  revert i. induction n as [|n IH]; intros i Hm Hi Hn Hle; [lia|].
  cbn [scan_down]. destruct (array_rd i) as (x & Ex & -> & Hl); [lia|]. cbn [mbind outcome_bind].
  case_bool_decide as Ep; [simplify_eq; eexists; split; [done|]; cbn; split; [lia|done]|].
  assert (x <> lp) by congruence.
  destruct (Z.eqb_spec i min) as [->|E].
  { eexists. split; [done|]. intros k Hk. replace k with min by lia. congruence. }
  rewrite Hl. cbn [mbind outcome_bind snd]. destruct (key_ne _ _) eqn:Ek.
  - eexists. split; [done|]. intros k Hk Hlp. specialize (Hle _ _ Ex ltac:(lia)).
    assert (key_le (node (heap w) lp) (node (heap w) x)) by (apply (srt (Z.to_nat k) (Z.to_nat i)); [lia|done..]).
    apply not_false_iff_true in Ek. apply Ek, key_ne_false. done.
  - destruct (IH (i - 1)) as (r & -> & Hr); try lia.
    { intros k y Ey Hk. apply (Hle k y Ey). lia. }
    exists r. split; [done|]. eapply found_extend; [exact Hr|lia..|].
    intros k Hk Hout. replace k with i by lia. congruence.
Qed.

Lemma scan_up_ok n i max :
  0 <= i <= max + 1 -> max < Zlen ids -> max - i < Z.of_nat n ->
  (forall k x, ids !! k = Some x -> i <= Z.of_nat k -> key_le l (node (heap w) x)) ->
  exists r, scan_up n w lp l i max = Ret r /\ found r i max.
Proof.
  revert i. induction n as [|n IH]; intros i Hm Hi Hn Hle; cbn [scan_up];
  destruct (Z.ltb_spec max i); try lia.
  1,2: eexists; split; [done|]; intros k Hk; lia.
  destruct (array_rd i) as (x & Ex & -> & Hl); [lia|]. cbn [mbind outcome_bind].
  case_bool_decide as Ep; [simplify_eq; eexists; split; [done|]; cbn; split; [lia|done]|].
  assert (x <> lp) by congruence.
  rewrite Hl. cbn [mbind outcome_bind snd]. destruct (key_ne _ _) eqn:Ek.
  - eexists. split; [done|]. intros k Hk Hlp. specialize (Hle _ _ Ex ltac:(lia)).
    assert (key_le (node (heap w) x) (node (heap w) lp)) by (apply (srt (Z.to_nat i) (Z.to_nat k)); [lia|done..]).
    apply not_false_iff_true in Ek. apply Ek, key_ne_false. done.
  - destruct (IH (i + 1)) as (r & -> & Hr); try lia.
    { intros k y Ey Hk. apply (Hle k y Ey). lia. }
    exists r. split; [done|]. eapply found_extend; [exact Hr|lia..|].
    intros k Hk Hout. replace k with i by lia. congruence.
Qed.

Definition position (r : option Z) : Z := match r with Some k => k | None => SIZE_MAX end.

Lemma search_lease_ok fuel min max :
  0 <= min <= max + 1 -> max < Zlen ids -> max - min < Z.of_nat fuel ->
  exists r, search_lease fuel w lp l min max = Ret (position r) /\ found r min max.
Proof.
  revert min max. induction fuel as [|fuel IH]; intros min max Hm Hx Hf; cbn [search_lease];
  destruct (Z.ltb_spec max min); try lia.
  1,2: exists None; split; [done|]; intros k Hk; lia.
  set (mid := (max - min) / 2 + min).
  destruct (mid_range min max) as [Hmid Hmm]; [lia|]. fold mid in Hmid, Hmm.
  destruct (entry_ok mid) as (x & Ex & ->); [lia|]. cbn [mbind outcome_bind fst snd].
  assert (forall k y, ids !! k = Some y -> Z.of_nat k <= mid -> key_le (node (heap w) y) (node (heap w) x)) as Hle
    by (intros i y Ei Hi; apply (srt i (Z.to_nat mid)); [lia|done..]).
  assert (forall k y, ids !! k = Some y -> mid <= Z.of_nat k -> key_le (node (heap w) x) (node (heap w) y)) as Hge
    by (intros i y Ei Hi; apply (srt (Z.to_nat mid) i); [lia|done..]).
  destruct (key_gt _ l) eqn:E1; [apply key_gt_true in E1|apply key_gt_false in E1].
  - assert (forall k, mid <= k -> ids !! Z.to_nat k <> Some lp) as Hno.
    { intros k Hk Hlp. specialize (Hge _ _ Hlp ltac:(lia)). unfold key_lt, key_le in *. lia. }
    destruct (Z.eqb_spec mid min) as [E|E].
    + exists None. split; [done|]. intros k Hk. apply Hno. lia.
    + destruct (IH min (mid - 1)) as (r & -> & Hr); try lia. exists r. split; [done|].
      eapply found_extend; [exact Hr|lia..|]. intros k Hk ?. apply Hno. lia.
  - destruct (key_gt l _) eqn:E2; [apply key_gt_true in E2|apply key_gt_false in E2].
    + destruct (IH (mid + 1) max) as (r & -> & Hr); try lia. exists r. split; [done|].
      eapply found_extend; [exact Hr|lia..|]. intros k Hk ? Hlp.
      specialize (Hle _ _ Hlp ltac:(lia)). unfold key_lt, key_le in *. lia.
    + case_bool_decide as Elp.
      { exists (Some mid). split; [done|]. cbn. split; [lia|congruence]. }
      assert (exists r, (if min <? mid then scan_down (Z.to_nat (mid - min)) w lp l (mid - 1) min else Ret None)
        = Ret r /\ found r min (mid - 1)) as (r1 & -> & Hr1).
      { destruct (Z.ltb_spec min mid); [|eexists; split; [done|]; intros k ?; lia].
        apply scan_down_ok; try lia. intros k y Ey Hk. specialize (Hle k y Ey ltac:(lia)). unfold key_le in *; lia. }
      cbn [mbind outcome_bind]. destruct r1 as [k|].
      { exists (Some k). split; [done|]. destruct Hr1. split; [lia|done]. }
      assert (exists r, (if mid <? max then scan_up (Z.to_nat (max - mid)) w lp l (mid + 1) max else Ret None)
        = Ret r /\ found r (mid + 1) max) as (r2 & -> & Hr2).
      { destruct (Z.ltb_spec mid max); [|eexists; split; [done|]; intros k ?; lia].
        apply scan_up_ok; try lia. intros k y Ey Hk. specialize (Hge k y Ey ltac:(lia)). unfold key_le in *; lia. }
      cbn [mbind outcome_bind]. exists r2. split; [by destruct r2|].
      eapply found_extend; [exact Hr2|lia..|]. intros k Hk Hout.
      destruct (decide (k = mid)) as [->|]; [congruence|]. apply Hr1. lia.
Qed.
End Search.

(** ** Insertion into the array *)

Lemma array_open {A} (a : Datatypes.list A) n m x :
  (n <= m < length a)%nat ->
  take (S m) (<[n:=x]> (take (S n) a ++ take (m - n) (drop n a) ++ drop (S n + (m - n)) a))
  = take n (take m a) ++ x :: drop n (take m a).
Proof.
  intros Hn. destruct (lookup_lt_is_Some_2 a n) as [y Hy]; [lia|].
  rewrite (take_S_r a n y Hy), <- app_assoc.
  assert (length (take n a) = n) as Hl by (rewrite length_take; lia).
  rewrite insert_app_r_alt by lia. rewrite Hl, Nat.sub_diag. cbn [app list_insert insert].
  rewrite take_app_ge, Hl by lia. replace (S m - n)%nat with (S (m - n)) by lia. cbn [take].
  rewrite take_app_length' by (rewrite length_take, length_drop; lia).
  rewrite take_take, skipn_firstn_comm. do 2 f_equal. lia.
Qed.

Lemma take_insert_above {A} (a : Datatypes.list A) n x :
  (n < length a)%nat -> take (S n) (<[n:=x]> a) = take n a ++ [x].
Proof.
  intros Hn. rewrite (take_S_r _ n x) by (by apply list_lookup_insert_eq).
  by rewrite take_insert_ge by lia.
Qed.

(** The array side of [lc_link_lcp]. *)
Definition linked (w w' : world) (ids : Datatypes.list positive) (lp : positive) (n : nat) (ll : lease) : Prop :=
  heap w' = <[lp := set_lc (Some (addr (chain w))) (add_ref 1 ll)]> (heap w) /\
  nelem (chain w') = Zlen ids + 1 /\ addr (chain w') = addr (chain w) /\
  growth (chain w') = growth (chain w) /\
  take (S (length ids)) (list (chain w')) = Some <$> (take n ids ++ lp :: drop n ids).

Lemma lc_grow_chain_ok w ids :
  nelem (chain w) = Zlen ids -> take (length ids) (list (chain w)) = Some <$> ids ->
  0 <= growth (chain w) ->
  exists a, lc_grow_chain true w = Ret (set_array w a (Zlen ids)) /\
    take (length ids) a = Some <$> ids /\ total (chain w) < Zlen a.
Proof.
  intros Hn Ha Hg. unfold lc_grow_chain. cbn [negb].
  assert (length ids <= length (list (chain w)))%nat as Hlen.
  { apply (f_equal length) in Ha. rewrite length_take, length_fmap in Ha. lia. }
  set (g := if growth (chain w) =? 0 then LC_GROWTH_DELTA else growth (chain w)).
  assert (0 < g) by (unfold g, LC_GROWTH_DELTA; destruct (Z.eqb_spec (growth (chain w)) 0); lia).
  unfold total, Zlen in *. rewrite memread_in by (unfold Zlen; lia). cbn [mbind outcome_bind].
  rewrite Hn, Nat2Z.id. change (Z.to_nat 0) with 0%nat. rewrite drop_0, Ha.
  unfold memcpy. rewrite bool_decide_true
    by (unfold Zlen; rewrite length_fmap, length_replicate; lia).
  cbn [mbind outcome_bind]. eexists. split; [done|]. rewrite take_0. cbn [app].
  rewrite take_app_length' by (by rewrite length_fmap). split; [done|].
  rewrite length_app, length_drop, length_replicate, length_fmap. lia.
Qed.

Lemma lc_link_lcp_ok w ids lp n ll :
  nelem (chain w) = Zlen ids -> take (length ids) (list (chain w)) = Some <$> ids ->
  0 <= growth (chain w) -> (n <= length ids)%nat -> heap w !! lp = Some ll ->
  exists w', lc_link_lcp true w lp (Z.of_nat n) = Ret w' /\ linked w w' ids lp n ll.
Proof.
  intros Hn Ha Hg Hle Hlp. unfold lc_link_lcp.
  assert (length ids <= length (list (chain w)))%nat as Hlen.
  { apply (f_equal length) in Ha. rewrite length_take, length_fmap in Ha. lia. }
  assert (exists a, (if nelem (chain w) =? total (chain w) then lc_grow_chain true w else Ret w)
    = Ret (set_array w a (Zlen ids)) /\ take (length ids) a = Some <$> ids /\ (length ids < length a)%nat)
    as (a & -> & Ha' & Hla).
  { unfold total. destruct (Z.eqb_spec (nelem (chain w)) (Zlen (list (chain w)))) as [E|E].
    - destruct (lc_grow_chain_ok w ids) as (a & -> & ? & Ht); try done. exists a. split_and!; try done.
      unfold total, Zlen in *. lia.
    - exists (list (chain w)). unfold Zlen in *. split_and!; [|done|lia]. rewrite <- Hn. by destruct w as [h []]. }
  cbn [mbind outcome_bind set_array chain nelem list addr heap].
  set (a1 := if Z.of_nat n <? Zlen ids then
     take (S n) a ++ take (length ids - n) (drop n a) ++ drop (S n + (length ids - n)) a else a).
  assert ((if Z.of_nat n <? Zlen ids then
      moved ← memread a (Z.of_nat n) (Zlen ids - Z.of_nat n);
      a' ← memcpy a (Z.of_nat n + 1) moved;
      Ret (set_array (set_array w a (Zlen ids)) a' (Zlen ids))
    else Ret (set_array w a (Zlen ids))) = Ret (set_array w a1 (Zlen ids))) as Hmove.
  { unfold a1. destruct (Z.ltb_spec (Z.of_nat n) (Zlen ids)) as [Hlt|Hge]; [|done]. unfold Zlen in *.
    rewrite memread_in by (unfold Zlen; lia). cbn [mbind outcome_bind].
    replace (Z.to_nat (Z.of_nat (length ids) - Z.of_nat n)) with (length ids - n)%nat by lia.
    rewrite Nat2Z.id.
    assert (length (take (length ids - n) (drop n a)) = length ids - n)%nat as E
      by (rewrite length_take, length_drop; lia).
    unfold memcpy, Zlen. rewrite E, bool_decide_true by lia. cbn [mbind outcome_bind].
    by replace (Z.to_nat (Z.of_nat n + 1)) with (S n) by lia. }
  unfold Zlen in Hmove. unfold Zlen. rewrite Hmove. clear Hmove.
  assert (length a1 = length a) as Hl1.
  { unfold a1. case_match; [|done]. rewrite !length_app, !length_take, !length_drop. lia. }
  cbn [mbind outcome_bind set_slot set_array chain nelem list addr heap].
  rewrite wrA_in by (unfold Zlen; lia). cbn [mbind outcome_bind lease_reference get_slot set_slot set_array chain nelem list].
  rewrite Nat2Z.id. rewrite (rdA_lookup _ _ None) by (try lia; rewrite Nat2Z.id; apply list_lookup_insert_eq; lia).
  cbn [mbind outcome_bind]. rewrite wrA_in by (unfold Zlen; rewrite length_insert; lia).
  cbn [mbind outcome_bind]. unfold update. cbn [heap set_array chain list nelem addr growth]. rewrite Hlp.
  cbn [mbind outcome_bind heap chain list nelem addr growth]. rewrite lookup_alter_eq, Hlp. cbn [fmap option_fmap option_map]. eexists. split; [done|].
  unfold linked. cbn [heap set_array chain list nelem addr growth].
  split_and!; [|done..|].
  - apply map_eq. intros y. destruct (decide (y = lp)) as [->|]; by simplify_map_eq.
  - rewrite Nat2Z.id, list_insert_insert_eq, fmap_app, fmap_cons, !fmap_take, !fmap_drop, <- Ha'.
    unfold a1, Zlen. destruct (Z.ltb_spec (Z.of_nat n) (Z.of_nat (length ids))).
    + rewrite array_open by lia. done.
    + replace n with (length ids) by lia. rewrite take_insert_above by done.
      rewrite take_take, Nat.min_id. rewrite drop_ge by (rewrite length_take; lia). done.
Qed.

(** ** The pointer primitives *)

(** Equality of two heaps built by [alter]: compare them at three addresses. *)
Ltac lease_eq :=
  f_equal; unfold add_ref, set_next, set_prev, set_lc; cbn; f_equal; first [congruence|lia].
Ltac lookup_cases a b c :=
  apply map_eq; let z := fresh "z" in intros z;
  destruct (decide (z = a)), (decide (z = b)), (decide (z = c));
  subst; simplify_map_eq; try done; try lease_eq.

Lemma update_ok w x l f : heap w !! x = Some l -> update w x f = Ret (World (alter f x (heap w)) (chain w)).
Proof. unfold update. by intros ->. Qed.

Lemma get_Next w x l : heap w !! x = Some l -> get_slot w (Next x) = Ret (next l).
Proof. cbn. by intros ->. Qed.

Lemma get_Prev w x l : heap w !! x = Some l -> get_slot w (Prev x) = Ret (prev l).
Proof. cbn. by intros ->. Qed.

Lemma is_Some_alter {A} (h : gmap positive A) f x y : is_Some (h !! y) -> is_Some (alter f x h !! y).
Proof. intros [l Hl]. destruct (decide (x = y)) as [->|]; simplify_map_eq; eauto. Qed.

Lemma update_is_Some w x f : is_Some (heap w !! x) -> update w x f = Ret (World (alter f x (heap w)) (chain w)).
Proof. intros [l Hl]. by apply (update_ok _ _ l). Qed.

Lemma reference_Next w x lx lp :
  heap w !! x = Some lx -> next lx = None -> is_Some (heap w !! lp) ->
  lease_reference w (Next x) (Some lp)
  = Ret (World (alter (add_ref 1) lp (alter (set_next (Some lp)) x (heap w))) (chain w)).
Proof.
  intros Hx Hn Hl. unfold lease_reference. rewrite (get_Next _ _ _ Hx), Hn. cbn [mbind outcome_bind set_slot].
  rewrite (update_ok _ _ _ _ Hx). cbn [mbind outcome_bind].
  rewrite update_is_Some; [done|]. cbn [heap]. by apply is_Some_alter.
Qed.

Lemma reference_Prev w x lx lp :
  heap w !! x = Some lx -> prev lx = None -> is_Some (heap w !! lp) ->
  lease_reference w (Prev x) (Some lp)
  = Ret (World (alter (add_ref 1) lp (alter (set_prev (Some lp)) x (heap w))) (chain w)).
Proof.
  intros Hx Hn Hl. unfold lease_reference. rewrite (get_Prev _ _ _ Hx), Hn. cbn [mbind outcome_bind set_slot].
  rewrite (update_ok _ _ _ _ Hx). cbn [mbind outcome_bind].
  rewrite update_is_Some; [done|]. cbn [heap]. by apply is_Some_alter.
Qed.

Lemma release_ok w x l :
  heap w !! x = Some l -> 1 < refcnt l ->
  release w x = Ret (World (alter (add_ref (-1)) x (heap w)) (chain w)).
Proof.
  intros Hx Hr. unfold release, load. rewrite Hx. cbn [mbind outcome_bind snd].
  rewrite (proj2 (Z.leb_gt _ _)), (proj2 (Z.eqb_neq _ _)) by lia. by apply (update_ok _ _ l).
Qed.

Lemma dereference_Next w x lx y ly :
  heap w !! x = Some lx -> next lx = Some y -> heap w !! y = Some ly -> x <> y -> 1 < refcnt ly ->
  lease_dereference w (Next x)
  = Ret (World (alter (add_ref (-1)) y (alter (set_next None) x (heap w))) (chain w)).
Proof.
  intros Hx Hn Hy Hxy Hr. unfold lease_dereference. rewrite (get_Next _ _ _ Hx), Hn.
  cbn [mbind outcome_bind set_slot]. rewrite (update_ok _ _ _ _ Hx). cbn [mbind outcome_bind].
  by rewrite (release_ok _ _ ly) by (by simplify_map_eq).
Qed.

Lemma dereference_Prev w x lx y ly :
  heap w !! x = Some lx -> prev lx = Some y -> heap w !! y = Some ly -> x <> y -> 1 < refcnt ly ->
  lease_dereference w (Prev x)
  = Ret (World (alter (add_ref (-1)) y (alter (set_prev None) x (heap w))) (chain w)).
Proof.
  intros Hx Hn Hy Hxy Hr. unfold lease_dereference. rewrite (get_Prev _ _ _ Hx), Hn.
  cbn [mbind outcome_bind set_slot]. rewrite (update_ok _ _ _ _ Hx). cbn [mbind outcome_bind].
  by rewrite (release_ok _ _ ly) by (by simplify_map_eq).
Qed.

(** Forget one reference to what a slot held. *)
Definition unref (q : ptr) (h : gmap positive lease) : gmap positive lease :=
  match q with Some y => alter (add_ref (-1)) y h | None => h end.

Lemma unref_is_Some q h x : is_Some (h !! x) -> is_Some (unref q h !! x).
Proof. destruct q; [apply is_Some_alter|done]. Qed.

Lemma lookup_unref_ne q h x : q <> Some x -> unref q h !! x = h !! x.
Proof. destruct q as [y|]; [|done]. intros H. apply lookup_alter_ne. congruence. Qed.

(** What the slot [q] points to, other than [x], stays allocated when one
    reference is dropped. *)
Definition droppable (h : gmap positive lease) (x : positive) (q : ptr) : Prop :=
  forall y, q = Some y -> x <> y /\ exists ly, h !! y = Some ly /\ 1 < refcnt ly.

Lemma relink_Next w x lx lp :
  heap w !! x = Some lx -> droppable (heap w) x (next lx) -> is_Some (heap w !! lp) ->
  exists h, relink w (Next x) lp = Ret (World h (chain w)) /\
    h = alter (add_ref 1) lp (alter (set_next (Some lp)) x (unref (next lx) (heap w))).
Proof.
  intros Hx Hd Hl. unfold relink. rewrite (get_Next _ _ _ Hx). cbn [mbind outcome_bind].
  destruct (next lx) as [y|] eqn:E; cbn [unref].
  - destruct (Hd y eq_refl) as (Hxy & ly & Ey & Ry).
    rewrite (dereference_Next _ _ lx y ly) by done. cbn [mbind outcome_bind].
    rewrite (reference_Next _ _ (set_next None lx)); cbn [heap chain]; [|by simplify_map_eq|done|by do 2 apply is_Some_alter].
    eexists. split; [done|]. f_equal. lookup_cases x y lp.
  - cbn [mbind outcome_bind]. rewrite (reference_Next _ _ lx) by done. eauto.
Qed.

Lemma relink_Prev w x lx lp :
  heap w !! x = Some lx -> droppable (heap w) x (prev lx) -> is_Some (heap w !! lp) ->
  exists h, relink w (Prev x) lp = Ret (World h (chain w)) /\
    h = alter (add_ref 1) lp (alter (set_prev (Some lp)) x (unref (prev lx) (heap w))).
Proof.
  intros Hx Hd Hl. unfold relink. rewrite (get_Prev _ _ _ Hx). cbn [mbind outcome_bind].
  destruct (prev lx) as [y|] eqn:E; cbn [unref].
  - destruct (Hd y eq_refl) as (Hxy & ly & Ey & Ry).
    rewrite (dereference_Prev _ _ lx y ly) by done. cbn [mbind outcome_bind].
    rewrite (reference_Prev _ _ (set_prev None lx)); cbn [heap chain]; [|by simplify_map_eq|done|by do 2 apply is_Some_alter].
    eexists. split; [done|]. f_equal. lookup_cases x y lp.
  - cbn [mbind outcome_bind]. rewrite (reference_Prev _ _ lx) by done. eauto.
Qed.

(** ** Insertion into the linked list *)

(** The heap with [lp] put between [p] and [q]. *)
Definition between (h : gmap positive lease) (lp : positive) (p q : ptr) : gmap positive lease :=
  let h1 := match p with
            | Some x => alter (fun l => add_ref (1 - count q) (set_next (Some lp) l)) x h
            | None => h end in
  let h2 := match q with
            | Some y => alter (fun l => add_ref (1 - count p) (set_prev (Some lp) l)) y h1
            | None => h1 end in
  alter (fun l => add_ref (count p + count q) (set_next q (set_prev p l))) lp h2.

Lemma link_neighbours_ok w lp ll pos p q :
  heap w !! lp = Some ll -> next ll = None -> prev ll = None -> 0 <= pos ->
  (if 0 <? pos then rdA (list (chain w)) (pos - 1) = Ret p /\ is_Some p else p = None) ->
  (if pos <? nelem (chain w) - 1 then rdA (list (chain w)) (pos + 1) = Ret q /\ is_Some q else q = None) ->
  (forall x, p = Some x -> x <> lp /\ exists lx, heap w !! x = Some lx /\ next lx = q /\ 2 <= refcnt lx) ->
  (forall y, q = Some y -> y <> lp /\ p <> Some y /\
     exists ly, heap w !! y = Some ly /\ prev ly = p /\ 2 <= refcnt ly) ->
  link_neighbours w lp pos = Ret (World (between (heap w) lp p q) (chain w)).
Proof.
  intros Hlp Hn Hp Hpos Hrp Hrq Hx Hy. unfold link_neighbours.
  set (h1 := match p with
             | Some x => alter (fun l => add_ref 1 (set_next (Some lp) l)) x
                  (alter (fun l => add_ref 1 (set_prev (Some x) l)) lp (unref q (heap w)))
             | None => heap w end).
  assert ((if 0 <? pos then
          e ← entry w (pos - 1);
          w' ← relink w (Next e.1) lp;
          p ← rdA (list (chain w')) (pos - 1);
          lease_reference w' (Prev lp) p
        else Ret w) = Ret (World h1 (chain w))) as ->.
  { unfold h1. destruct (0 <? pos); [|subst p; by destruct w]. destruct Hrp as [Hr [x ->]].
    destruct (Hx x eq_refl) as (Hxl & lx & Ex & Nx & Rx).
    unfold entry. rewrite Hr. cbn [mbind outcome_bind load]. rewrite Ex. cbn [mbind outcome_bind fst].
    destruct (relink_Next w x lx lp Ex) as (h & -> & Hh); [|by eexists|].
    { intros y Ey. rewrite Nx in Ey. destruct (Hy y Ey) as (? & ? & ly & ? & ? & ?).
      split; [congruence|]. exists ly. split; [done|lia]. }
    cbn [mbind outcome_bind chain heap]. rewrite Hr. cbn [mbind outcome_bind].
    rewrite Nx in Hh. assert (q <> Some lp) by (intros ->; by destruct (Hy lp eq_refl)).
    assert (h !! lp = Some (add_ref 1 ll)) as Hlp' by (rewrite Hh; simplify_map_eq; by rewrite lookup_unref_ne, Hlp).
    rewrite (reference_Prev _ _ (add_ref 1 ll)); [|done|done|].
    2: { cbn [heap]. rewrite Hh. do 2 apply is_Some_alter. apply unref_is_Some. by eexists. }
    cbn [chain heap]. rewrite Hh. do 2 f_equal. destruct q as [y|]; cbn [unref]; [|lookup_cases x x lp].
    destruct (Hy y eq_refl) as (? & ? & _). assert (x <> y) by congruence. lookup_cases x y lp. }
  cbn [mbind outcome_bind chain heap].
  destruct (pos <? nelem (chain w) - 1).
  - destruct Hrq as [Hr [y ->]]. destruct (Hy y eq_refl) as (Hyl & Hpy & ly & Ey & Ny & Ry).
    set (ly1 := if p is Some _ then add_ref (-1) ly else ly).
    assert (h1 !! y = Some ly1) as Ey1.
    { unfold h1, ly1. destruct p as [x|]; [|done]. assert (x <> y) by congruence. by simplify_map_eq. }
    unfold entry. cbn [chain heap]. rewrite Hr. cbn [mbind outcome_bind load heap]. rewrite Ey1. cbn [mbind outcome_bind fst].
    set (ll1 := if p is Some x then add_ref 1 (set_prev (Some x) ll) else ll).
    assert (h1 !! lp = Some ll1) as Elp1.
    { unfold h1, ll1. destruct p as [x|]; [|done]. destruct (Hx x eq_refl) as (? & _). by simplify_map_eq. }
    assert (prev ly1 = p) as Np1 by by destruct p.
    destruct (relink_Prev (World h1 (chain w)) y ly1 lp Ey1) as (h & -> & Hh); [|by eexists|].
    { intros x Hxp. rewrite Np1 in Hxp. assert (y <> x) by congruence. split; [done|].
      destruct (Hx x Hxp) as (? & lx & Ex & Nx & Rx). unfold h1. rewrite Hxp. cbn [heap].
      eexists. split; [by simplify_map_eq|]. cbn. lia. }
    cbn [mbind outcome_bind chain heap]. rewrite Hr. cbn [mbind outcome_bind].
    rewrite Np1 in Hh. cbn [heap] in Hh.
    assert (p <> Some lp) by (intros ->; by destruct (Hx lp eq_refl)).
    assert (h !! lp = Some (add_ref 1 ll1)) as Hlp'
      by (rewrite Hh; simplify_map_eq; by rewrite lookup_unref_ne, Elp1).
    rewrite (reference_Next _ _ (add_ref 1 ll1)); [|done|by unfold ll1; destruct p|].
    2: { cbn [heap]. rewrite Hh. do 2 apply is_Some_alter. apply unref_is_Some. by eexists. }
    cbn [chain heap]. rewrite Hh. do 2 f_equal. unfold between, h1.
    destruct p as [x|]; cbn [unref count]; [|lookup_cases y y lp].
    assert (x <> y) by congruence. destruct (Hx x eq_refl) as (? & lx & Ex & _). lookup_cases x y lp.
  - subst q. do 2 f_equal. unfold h1, between. cbn [unref].
    destruct p as [x|]; cbn [count].
    + destruct (Hx x eq_refl) as (? & lx & Ex & _). lookup_cases x x lp.
    + lookup_cases lp lp lp. destruct ll; cbn in *; subst. unfold add_ref. cbn. do 2 f_equal. lia.
Qed.
Lemma between_lp h lp ll p q :
  h !! lp = Some ll -> p <> Some lp -> q <> Some lp ->
  between h lp p q !! lp = Some (add_ref (count p + count q) (set_next q (set_prev p ll))).
Proof.
  intros Hl Hp Hq. unfold between.
  destruct p as [x|], q as [y|]; repeat (rewrite ?lookup_alter_eq, ?lookup_alter_ne by congruence);
    rewrite Hl; done.
Qed.

Lemma between_ne h lp p q z l :
  z <> lp -> h !! z = Some l ->
  exists l', between h lp p q !! z = Some l' /\
    sort_time l' = sort_time l /\ sort_tiebreaker l' = sort_tiebreaker l /\ lc l' = lc l /\
    next l' = (if bool_decide (p = Some z) then Some lp else next l) /\
    prev l' = (if bool_decide (q = Some z) then Some lp else prev l) /\
    refcnt l' = refcnt l + (if bool_decide (p = Some z) then 1 - count q else 0) +
                (if bool_decide (q = Some z) then 1 - count p else 0).
Proof.
  intros Hz Hl. unfold between. rewrite lookup_alter_ne by done.
  destruct p as [x|], q as [y|]; repeat case_bool_decide; simplify_eq;
  try (rewrite lookup_alter_ne by congruence); try rewrite lookup_alter_eq;
  try (rewrite lookup_alter_ne by congruence); rewrite ?lookup_alter_eq, ?Hl;
  cbn; eexists; (split; [reflexivity|]); cbn; split_and!; done || lia.
Qed.

Lemma between_frame h lp p q z :
  z <> lp -> p <> Some z -> q <> Some z -> between h lp p q !! z = h !! z.
Proof.
  intros Hz Hp Hq. unfold between. rewrite lookup_alter_ne by done.
  destruct p as [x|], q as [y|]; by rewrite ?lookup_alter_ne by congruence.
Qed.

Definition insert_at (n : nat) (x : positive) (ids : Datatypes.list positive) : Datatypes.list positive :=
  take n ids ++ x :: drop n ids.

Lemma insert_at_lookup n x ids i :
  (n <= length ids)%nat ->
  insert_at n x ids !! i = if bool_decide (i < n)%nat then ids !! i
                           else if bool_decide (i = n) then Some x else ids !! pred i.
Proof.
  intros Hn. unfold insert_at.
  assert (length (take n ids) = n) as Hl by (rewrite length_take; lia).
  repeat case_bool_decide.
  - rewrite lookup_app_l by lia. by apply lookup_take_lt.
  - subst i. by rewrite lookup_app_r, Hl, Nat.sub_diag by lia.
  - rewrite lookup_app_r, Hl by lia. destruct (i - n)%nat as [|k] eqn:E; [lia|].
    change (drop n ids !! k = ids !! pred i). rewrite lookup_drop. f_equal. lia.
Qed.

Lemma insert_at_perm n x ids : insert_at n x ids ≡ₚ x :: ids.
Proof. unfold insert_at. by rewrite <- Permutation_middle, take_drop. Qed.

(** A lease that is on no queue: no links, and only the server's references. *)
Definition detached (ext : positive -> Z) (w : world) (lp : positive) : Prop :=
  exists l, heap w !! lp = Some l /\ next l = None /\ prev l = None /\ refcnt l = ext lp.

(** Only the leases of [ids] change, and their keys do not. *)
Definition same_keys (h h' : gmap positive lease) (ids : Datatypes.list positive) : Prop :=
  (forall x, x ∈ ids -> sort_time (node h' x) = sort_time (node h x) /\
                        sort_tiebreaker (node h' x) = sort_tiebreaker (node h x)) /\
  (forall x, x ∉ ids -> h' !! x = h !! x).

Lemma before_lookup ids i x : before ids i = Some x -> exists j, i = S j /\ ids !! j = Some x.
Proof. destruct i as [|j]; [done|]. eauto. Qed.

Lemma before_is_Some ids i : (0 < i <= length ids)%nat -> is_Some (before ids i).
Proof. destruct i as [|j]; [lia|]. intros. apply lookup_lt_is_Some. lia. Qed.

Lemma same_keys_trans h1 h2 h3 ids :
  same_keys h1 h2 ids -> same_keys h2 h3 ids -> same_keys h1 h3 ids.
Proof.
  intros [K1 F1] [K2 F2]. split; intros x Hx; [|by rewrite F2, F1].
  destruct (K1 x Hx), (K2 x Hx). split; congruence.
Qed.

Lemma same_keys_insert h x l l' ids :
  h !! x = Some l -> x ∈ ids -> sort_time l' = sort_time l -> sort_tiebreaker l' = sort_tiebreaker l ->
  same_keys h (<[x:=l']> h) ids.
Proof.
  intros Hx Hin Ht Hb. split; intros y Hy.
  - unfold node. destruct (decide (y = x)) as [->|]; simplify_map_eq; done.
  - apply lookup_insert_ne. by intros ->.
Qed.

(** The links that [between] makes are those of the list with the lease
    inserted, if the links before were those of the list. *)
Section Between.
Context (ext : positive -> Z) (h : gmap positive lease) (ids : Datatypes.list positive) (lp : positive).
Context (n : nat) (ll : lease) (a : Z).
Hypothesis nodup : NoDup ids.
Hypothesis fresh : lp ∉ ids.
Hypothesis bound : (n <= length ids)%nat.
Hypothesis Hlp : h !! lp = Some ll.
Hypothesis Hlc : lc ll = Some a.
Hypothesis Href : refcnt ll = ext lp + 1.

(** Position [i] of the list is a node of the heap. *)
Definition is_node (h : gmap positive lease) (ids : Datatypes.list positive) (i : nat) (x : positive) : Prop :=
  exists l, h !! x = Some l /\ next l = ids !! S i /\ prev l = before ids i /\
    lc l = Some a /\ refcnt l = ext x + 1 + count (next l) + count (prev l).

Hypothesis nodes : forall i x, ids !! i = Some x -> is_node h ids i x.

Abbreviation p := (before ids n).
Abbreviation q := (ids !! n).

Lemma index_eq i x : ids !! i = Some x ->
  x <> lp /\ bool_decide (p = Some x) = bool_decide (S i = n) /\ bool_decide (q = Some x) = bool_decide (i = n).
Proof.
  intros Hi. split; [intros ->; by apply list_elem_of_lookup_2 in Hi|].
  split; apply bool_decide_ext; split.
  - intros (j & -> & Hj)%before_lookup. f_equal. by eapply NoDup_lookup.
  - intros <-. done.
  - intros Hj. by eapply NoDup_lookup.
  - by intros <-.
Qed.

Lemma neighbours_ne : p <> Some lp /\ q <> Some lp /\ (forall y, q = Some y -> p <> Some y).
Proof.
  split_and!.
  - intros (j & _ & Hj)%before_lookup. by apply list_elem_of_lookup_2 in Hj.
  - intros Hj. by apply list_elem_of_lookup_2 in Hj.
  - intros y Hq (j & -> & Hj)%before_lookup. pose proof (NoDup_lookup _ _ _ _ nodup Hq Hj). lia.
Qed.

Lemma between_node i x :
  insert_at n lp ids !! i = Some x -> is_node (between h lp p q) (insert_at n lp ids) i x.
Proof.
  destruct neighbours_ne as (Np & Nq & _).
  intros Hi. rewrite insert_at_lookup in Hi by done. unfold is_node.
  assert (forall j, (j <= n)%nat -> before (insert_at n lp ids) j = before ids j) as Hbl.
  { intros [|j] Hj; [done|]. cbn [before]. rewrite insert_at_lookup by done. by rewrite bool_decide_true by lia. }
  rewrite insert_at_lookup by done. case_bool_decide as Hin; [|case_bool_decide as Hin2].
  - destruct (nodes i x Hi) as (l & Hl & Hnx & Hpv & Hc & Hr). destruct (index_eq i x Hi) as (Hx & Ep & Eq).
    destruct (between_ne h lp p q x l Hx Hl) as (l' & Hl' & _ & _ & Hc' & Hn' & Hp' & Hr').
    exists l'. rewrite Ep, Eq in *. rewrite (bool_decide_false (i = n)) in * by lia.
    rewrite Hbl by lia. split_and!; [done| |by rewrite Hp'|by rewrite Hc'|].
    + rewrite Hn', Hnx. cbn [pred]. repeat case_bool_decide; done || lia.
    + rewrite Hr', Hr, Hn', Hp', Hnx. case_bool_decide; [|lia]. subst n. cbn [count]. lia.
  - subst i. injection Hi as <-. rewrite (between_lp h lp ll) by done. eexists. split; [done|].
    rewrite bool_decide_false, bool_decide_false by lia. cbn [pred].
    rewrite Hbl by lia. cbn. split_and!; try done. lia.
  - destruct i as [|j]; [lia|]. cbn [pred] in Hi.
    destruct (nodes j x Hi) as (l & Hl & Hnx & Hpv & Hc & Hr). destruct (index_eq j x Hi) as (Hx & Ep & Eq).
    destruct (between_ne h lp p q x l Hx Hl) as (l' & Hl' & _ & _ & Hc' & Hn' & Hp' & Hr').
    exists l'. rewrite Ep, Eq in *. rewrite (bool_decide_false (S j = n)) in * by lia.
    rewrite (bool_decide_false (S (S j) < n)%nat), (bool_decide_false (S (S j) = n)) by lia. cbn [pred before].
    rewrite insert_at_lookup by done. rewrite (bool_decide_false (j < n)%nat) by lia.
    split_and!; [done|by rewrite Hn', Hnx| |by rewrite Hc'|].
    + rewrite Hp', Hpv. case_bool_decide; [done|]. destruct j as [|j']; [lia|]. done.
    + rewrite Hr', Hr, Hn', Hp', Hpv. case_bool_decide; [|lia]. subst j. cbn [count]. lia.
Qed.

Lemma between_same_keys : same_keys h (between h lp p q) (lp :: ids).
Proof.
  destruct neighbours_ne as (Np & Nq & _). split.
  - intros x [->|Hx]%elem_of_cons.
    + rewrite (node_Some _ _ _ Hlp), (node_Some _ _ _ (between_lp h lp ll p q Hlp Np Nq)). done.
    + apply list_elem_of_lookup_1 in Hx as [i Hi]. destruct (nodes i x Hi) as (l & Hl & _).
      destruct (index_eq i x Hi) as (Hne & _).
      destruct (between_ne h lp p q x l Hne Hl) as (l' & Hl' & Ht & Hb & _).
      by rewrite (node_Some _ _ _ Hl), (node_Some _ _ _ Hl').
  - intros x [Hx1 Hx2]%not_elem_of_cons. apply between_frame; [done|..].
    + intros (j & _ & Hj)%before_lookup. by apply list_elem_of_lookup_2 in Hj.
    + intros Hj. by apply list_elem_of_lookup_2 in Hj.
Qed.
End Between.

Section Insertion.
Context (ext : positive -> Z) (w : world) (ids : Datatypes.list positive) (lp : positive).
Hypothesis rep : chain_rep ext w ids.
Hypothesis held : forall x, x ∈ ids -> 1 <= ext x.
Hypothesis fresh : lp ∉ ids.
Hypothesis det : detached ext w lp.

Lemma lc_add_lease_pos_ok n :
  (n <= length ids)%nat ->
  exists w', lc_add_lease_pos true w lp (Z.of_nat n) = Ret w' /\
    chain_rep ext w' (insert_at n lp ids) /\ same_keys (heap w) (heap w') (lp :: ids) /\
    addr (chain w') = addr (chain w).
Proof.
  intros Hn. destruct rep as [Hne Harr Hg Hnd Hnode]. destruct det as (ll & Hll & Hnx & Hpv & Hrf).
  destruct (lc_link_lcp_ok w ids lp n ll Hne Harr Hg Hn Hll) as (w1 & E1 & Hh1 & Hne1 & Had1 & Hg1 & Harr1).
  unfold lc_add_lease_pos. rewrite E1. cbn [mbind outcome_bind].
  assert (length (insert_at n lp ids) = S (length ids)) as Hlen
    by (by rewrite (Permutation_length (insert_at_perm n lp ids))).
  assert (forall i x, insert_at n lp ids !! i = Some x -> rdA (list (chain w1)) (Z.of_nat i) = Ret (Some x)) as Hrd.
  { intros i x Hi. apply rdA_lookup; [lia|]. rewrite Nat2Z.id. eapply take_lookup; [|done].
    rewrite Hlen. exact Harr1. }
  set (ll1 := set_lc (Some (addr (chain w))) (add_ref 1 ll)) in *.
  assert (heap w1 !! lp = Some ll1) as Hlp1 by (rewrite Hh1; by simplify_map_eq).
  assert (forall x, x ∈ ids -> heap w1 !! x = heap w !! x) as Hsame.
  { intros x Hx. rewrite Hh1. apply lookup_insert_ne. by intros ->. }
  assert (forall i x, ids !! i = Some x -> is_node ext (addr (chain w)) (heap w1) ids i x) as Hnode1.
  { intros i x Hi. destruct (Hnode i x Hi) as (l & Hl & Hrest). exists l.
    rewrite Hsame by by eapply list_elem_of_lookup_2. done. }
  destruct (neighbours_ne ids lp n Hnd fresh Hn) as (Np & Nq & Npq).
  rewrite (link_neighbours_ok w1 lp ll1 _ (before ids n) (ids !! n)); [|done|done|done|lia|..].
  - eexists. split; [done|]. cbn [chain heap]. split_and!.
    + constructor; cbn [chain heap].
      * rewrite Hne1. unfold Zlen. rewrite Hlen. lia.
      * rewrite Hlen. exact Harr1.
      * by rewrite Hg1.
      * rewrite insert_at_perm. by constructor.
      * intros i x Hi. rewrite Had1. apply (between_node ext (heap w1) ids lp n ll1); try done.
        cbn. lia.
    + eapply same_keys_trans; [|by apply (between_same_keys ext _ _ _ n ll1 (addr (chain w)))].
      rewrite Hh1. by apply (same_keys_insert _ _ ll); [|left|..].
    + done.
  - destruct (Z.ltb_spec 0 (Z.of_nat n)) as [Hlt|Hge].
    + destruct (before_is_Some ids n) as [x Hx]; [lia|]. rewrite Hx. split; [|by eexists].
      apply before_lookup in Hx as (j & -> & Hj). replace (Z.of_nat (S j) - 1) with (Z.of_nat j) by lia.
      apply Hrd. rewrite insert_at_lookup by done. by rewrite bool_decide_true by lia.
    + by replace n with 0%nat by lia.
  - rewrite Hne1. unfold Zlen.
    destruct (Z.ltb_spec (Z.of_nat n) (Z.of_nat (length ids) + 1 - 1)) as [Hlt|Hge].
    + destruct (lookup_lt_is_Some_2 ids n) as [y Hy]; [lia|]. rewrite Hy. split; [|by eexists].
      replace (Z.of_nat n + 1) with (Z.of_nat (S n)) by lia. apply Hrd. rewrite insert_at_lookup by done.
      by rewrite bool_decide_false, bool_decide_false by lia.
    + apply lookup_ge_None. lia.
  - intros x Hx. split; [congruence|]. apply before_lookup in Hx as (j & -> & Hj).
    destruct (Hnode1 j x Hj) as (l & Hl & Hn1 & Hp1 & _ & Hr1). exists l. split_and!; try done.
    assert (1 <= ext x) by (by eapply held, list_elem_of_lookup_2). rewrite Hr1. destruct (next l), (prev l); cbn; lia.
  - intros y Hy. split; [congruence|]. split; [by apply Npq|].
    destruct (Hnode1 n y Hy) as (l & Hl & Hn1 & Hp1 & _ & Hr1). exists l. split_and!; try done.
    assert (1 <= ext y) by (by eapply held, list_elem_of_lookup_2). rewrite Hr1. destruct (next l), (prev l); cbn; lia.
Qed.
End Insertion.

(** ** Insertion in order *)

Lemma sorted_same_keys h h' ids ids' :
  same_keys h h' ids' -> (forall x, x ∈ ids -> x ∈ ids') -> sorted h ids -> sorted h' ids.
Proof.
  intros [K _] Hsub Hs i j x y Hij Hx Hy. specialize (Hs i j x y Hij Hx Hy).
  destruct (K x), (K y); try (by eapply Hsub, list_elem_of_lookup_2). unfold key_le in *. congruence.
Qed.

Lemma sorted_insert_at h ids n lp :
  (n <= length ids)%nat -> sorted h ids ->
  (forall i x, ids !! i = Some x -> if bool_decide (i < n)%nat then key_le (node h x) (node h lp)
                                    else key_le (node h lp) (node h x)) ->
  sorted h (insert_at n lp ids).
Proof.
  intros Hn Hs Hlp i j x y Hij Hx Hy. rewrite insert_at_lookup in Hx, Hy by done.
  repeat case_bool_decide; simplify_eq; try lia; try (unfold key_le; lia).
  - by apply (Hs i j).
  - specialize (Hlp _ _ Hx). by rewrite bool_decide_true in Hlp by done.
  - apply (Hs i (pred j)); [lia|done..].
  - specialize (Hlp _ _ Hy). by rewrite bool_decide_false in Hlp by lia.
  - apply (Hs (pred i) (pred j)); [lia|done..].
Qed.

(** What the insertion of [lp] promises: the leases of the chain are those
    before and [lp], in the order of their keys. *)
Definition inserted (ext : positive -> Z) (w w' : world) (ids : Datatypes.list positive) (lp : positive) : Prop :=
  exists ids', ids' ≡ₚ lp :: ids /\ chain_rep ext w' ids' /\ sorted (heap w') ids' /\
    sort_time (node (heap w') lp) = sort_time (node (heap w) lp) /\
    sort_tiebreaker (node (heap w') lp) <= LONG_MAX /\
    (forall x, x ∉ lp :: ids -> heap w' !! x = heap w !! x) /\
    (forall x, x ∈ ids -> sort_time (node (heap w') x) = sort_time (node (heap w) x) /\
                          sort_tiebreaker (node (heap w') x) = sort_tiebreaker (node (heap w) x)).

Section Sorted_insertion.
Context (ext : positive -> Z) (w : world) (ids : Datatypes.list positive) (lp : positive).
Hypothesis rep : chain_rep ext w ids.
Hypothesis srt : sorted (heap w) ids.
Hypothesis held : forall x, x ∈ ids -> 1 <= ext x.
Hypothesis fresh : lp ∉ ids.
Hypothesis det : detached ext w lp.

(** Setting the tiebreaker of a lease outside of the chain. *)
Section Tiebreaker.
Context (t : Z).
Abbreviation h1 := (alter (set_tiebreaker t) lp (heap w)).
Abbreviation w1 := (World h1 (chain w)).

Lemma tiebreaker_ids x : x ∈ ids -> h1 !! x = heap w !! x.
Proof. intros Hx. apply lookup_alter_ne. by intros ->. Qed.

Lemma tiebreaker_node x : x ∈ ids -> node h1 x = node (heap w) x.
Proof. intros Hx. unfold node. by rewrite tiebreaker_ids. Qed.

Lemma tiebreaker_lp : node h1 lp = set_tiebreaker t (node (heap w) lp).
Proof. destruct det as (l & Hl & _). unfold node. by rewrite lookup_alter_eq, Hl. Qed.

Lemma tiebreaker_update : update w lp (set_tiebreaker t) = Ret w1.
Proof. destruct det as (l & Hl & _). by apply (update_ok _ _ l). Qed.

Lemma tiebreaker_rep : chain_rep ext w1 ids.
Proof.
  destruct rep as [? ? ? ? Hnode]. constructor; try done.
  intros i x Hi. destruct (Hnode i x Hi) as (l & Hl & Hrest). exists l. cbn [heap chain].
  by rewrite tiebreaker_ids by by eapply list_elem_of_lookup_2.
Qed.

Lemma tiebreaker_sorted : sorted h1 ids.
Proof.
  intros i j x y Hij Hx Hy. rewrite !tiebreaker_node by by eapply list_elem_of_lookup_2. by apply (srt i j).
Qed.

Lemma tiebreaker_detached : detached ext w1 lp.
Proof.
  destruct det as (l & Hl & ? & ? & ?). exists (set_tiebreaker t l). cbn [heap].
  by rewrite lookup_alter_eq, Hl.
Qed.

Lemma insert_tiebreaker n :
  t <= LONG_MAX -> splits w1 ids (set_tiebreaker t (node (heap w) lp)) (Z.of_nat n) ->
  exists w', (w1 ← update w lp (set_tiebreaker t); lc_add_lease_pos true w1 lp (Z.of_nat n)) = Ret w' /\
    inserted ext w w' ids lp.
Proof.
  intros Ht [Hb Hsp]. unfold Zlen in Hb. rewrite tiebreaker_update. cbn [mbind outcome_bind].
  destruct (lc_add_lease_pos_ok ext w1 ids lp tiebreaker_rep held fresh tiebreaker_detached n)
    as (w' & E & Hrep & Hkeys & _); [lia|].
  exists w'. split; [done|]. exists (insert_at n lp ids). cbn [heap] in Hkeys.
  split_and!; [apply insert_at_perm|done| | | | |].
  - eapply sorted_same_keys; [exact Hkeys| |].
    { intros x Hx. by rewrite <- (insert_at_perm n). }
    apply sorted_insert_at; [lia|apply tiebreaker_sorted|]. intros i x Hi. specialize (Hsp i x Hi).
    cbn [heap] in Hsp. rewrite tiebreaker_lp.
    rewrite (bool_decide_ext (i < n)%nat (Z.of_nat i < Z.of_nat n)) by lia. done.
  - destruct Hkeys as [K _]. destruct (K lp) as [-> _]; [by left|]. by rewrite tiebreaker_lp.
  - destruct Hkeys as [K _]. destruct (K lp) as [_ ->]; [by left|]. by rewrite tiebreaker_lp.
  - intros x Hx. destruct Hkeys as [_ F]. rewrite F by done. apply lookup_alter_ne. intros ->. by apply Hx; left.
  - intros x Hx. destruct Hkeys as [K _]. destruct (K x) as [-> ->]; [by right|].
    by rewrite tiebreaker_node.
Qed.
End Tiebreaker.

Lemma splits_end t :
  (forall x, x ∈ ids -> key_le (node (heap w) x) (set_tiebreaker t (node (heap w) lp))) ->
  splits (World (alter (set_tiebreaker t) lp (heap w)) (chain w)) ids (set_tiebreaker t (node (heap w) lp)) (Zlen ids).
Proof.
  intros Hle. split; [unfold Zlen; lia|]. intros i x Hi. apply lookup_lt_Some in Hi as ?.
  rewrite bool_decide_true by (unfold Zlen; lia). cbn [heap].
  apply list_elem_of_lookup_2 in Hi. rewrite tiebreaker_node by done. by apply Hle.
Qed.

(** C16: inserting a lease into a sorted queue gives a sorted queue with the
    lease added and all others kept with their keys: the array and the doubly
    linked list agree, and the references are counted.  The random tiebreaker
    may be any value of a [long]. *)
Theorem lc_add_sorted_lease_sorted random :
  random <= LONG_MAX -> (forall x, x ∈ ids -> sort_tiebreaker (node (heap w) x) <= LONG_MAX) ->
  exists w', lc_add_sorted_lease true w lp random = Ret w' /\ inserted ext w w' ids lp.
Proof.
  intros Hrand Htie. unfold lc_add_sorted_lease. rewrite (rep_nelem _ _ _ rep).
  destruct (Z.eqb_spec (Zlen ids) 0) as [E0|E0].
  { apply (insert_tiebreaker 0 0); [unfold LONG_MAX; lia|]. split; [unfold Zlen in *; lia|].
    intros i x Hi. apply lookup_lt_Some in Hi. unfold Zlen in E0. lia. }
  pose proof (Zlen_nonneg ids).
  destruct (entry_ok ext w ids rep (Zlen ids - 1)) as (z & Hz & ->); [lia|].
  destruct det as (l & Hl & _). cbn [mbind outcome_bind load]. rewrite Hl. cbn [mbind outcome_bind fst snd].
  assert (node (heap w) lp = l) as Hnl by by apply node_Some.
  assert (forall x, x ∈ ids -> key_le (node (heap w) x) (node (heap w) z)) as Hlast.
  { intros x Hx. apply list_elem_of_lookup_1 in Hx as [i Hi]. apply lookup_lt_Some in Hi as ?.
    apply (srt i (Z.to_nat (Zlen ids - 1))); [unfold Zlen; lia|done..]. }
  destruct (Z.ltb_spec (sort_time (node (heap w) z)) (sort_time l)).
  { apply (insert_tiebreaker 0 (length ids)); [unfold LONG_MAX; lia|]. apply splits_end. intros x Hx. specialize (Hlast x Hx).
    rewrite Hnl. unfold key_le in *. cbn. lia. }
  destruct (Z.eqb_spec (sort_time l) (sort_time (node (heap w) z))).
  { apply (insert_tiebreaker _ (length ids)); [destruct (Z.ltb_spec (sort_tiebreaker (node (heap w) z)) LONG_MAX); lia|].
    apply splits_end. intros x Hx. specialize (Hlast x Hx). apply list_elem_of_lookup_2, Htie in Hz.
    rewrite Hnl. unfold key_le in *. cbn [set_tiebreaker sort_time sort_tiebreaker].
    destruct (Z.ltb_spec (sort_tiebreaker (node (heap w) z)) LONG_MAX); lia. }
  rewrite tiebreaker_update. cbn [mbind outcome_bind].
  destruct (insert_point_ok ext _ ids (tiebreaker_rep random) (tiebreaker_sorted random)
    (Z.to_nat (Zlen ids - 1 - 0 + 1)) (set_tiebreaker random l) 0 (Zlen ids - 1)) as (p & Ep & Hsp); try lia.
  { intros i x Hi Hlt. apply lookup_lt_Some in Hi. unfold Zlen in Hlt. lia. }
  unfold lc_binary_search_insert_point. rewrite Ep. cbn [mbind outcome_bind].
  destruct (insert_tiebreaker random (Z.to_nat p)) as (w' & E & Hins); [done| |].
  { destruct Hsp as [Hb Hsp]. rewrite Z2Nat.id by lia. rewrite Hnl. done. }
  rewrite tiebreaker_update, Z2Nat.id in E by apply Hsp. cbn [mbind outcome_bind] in E. eauto.
Qed.
End Sorted_insertion.

(** ** Removal from the array *)

Lemma array_close {A} (a : Datatypes.list A) n m :
  (S n < m <= length a)%nat ->
  take (m - 1) (take n a ++ take (m - 1 - n) (drop (S n) a) ++ drop (n + (m - 1 - n)) a)
  = take n (take m a) ++ drop (S n) (take m a).
Proof.
  intros Hn. rewrite take_app_ge; rewrite length_take; [|lia].
  replace (n `min` length a)%nat with n by lia.
  rewrite take_app_length' by (rewrite length_take, length_drop; lia).
  rewrite take_take, skipn_firstn_comm. f_equal; f_equal; lia.
Qed.

Lemma lc_unlink_lcp_ok w ids lp n l :
  nelem (chain w) = Zlen ids -> take (length ids) (list (chain w)) = Some <$> ids ->
  ids !! n = Some lp -> heap w !! lp = Some l -> 1 < refcnt l ->
  exists a, lc_unlink_lcp w (Z.of_nat n)
    = Ret (World (alter (fun l => add_ref (-1) (set_lc None l)) lp (heap w))
             (Leasechain (addr (chain w)) a (Zlen ids - 1) (growth (chain w)))) /\
    take (length ids - 1) a = Some <$> delete n ids.
Proof.
  intros Hne Harr Hn Hl Hr. unfold lc_unlink_lcp, entry. apply lookup_lt_Some in Hn as Hlt.
  assert (length ids <= length (list (chain w)))%nat as Hlen.
  { apply (f_equal length) in Harr. rewrite length_take, length_fmap in Harr. lia. }
  rewrite (rdA_lookup _ _ (Some lp)) by (try lia; rewrite Nat2Z.id; by eapply take_lookup).
  cbn [mbind outcome_bind load]. rewrite Hl. cbn [mbind outcome_bind fst]. rewrite (update_ok _ _ _ _ Hl).
  cbn [mbind outcome_bind]. unfold lease_dereference. cbn [get_slot chain].
  rewrite (rdA_lookup _ _ (Some lp)) by (try lia; rewrite Nat2Z.id; by eapply take_lookup).
  cbn [mbind outcome_bind set_slot chain]. rewrite wrA_in by (unfold Zlen; lia). cbn [mbind outcome_bind].
  rewrite (release_ok _ _ (set_lc None l)) by (try done; cbn; by simplify_map_eq).
  cbn [mbind outcome_bind set_array chain heap list nelem addr growth]. rewrite Nat2Z.id, Hne.
  set (a0 := <[n:=None]> (list (chain w))).
  assert (length a0 = length (list (chain w))) as Hl0 by apply length_insert.
  assert (alter (add_ref (-1)) lp (alter (set_lc None) lp (heap w))
    = alter (fun l => add_ref (-1) (set_lc None l)) lp (heap w)) as -> by lookup_cases lp lp lp.
  assert (Some <$> delete n ids = take n (take (length ids) (list (chain w))) ++
          drop (S n) (take (length ids) (list (chain w)))) as Hdel.
  { by rewrite Harr, delete_take_drop, fmap_app, fmap_take, fmap_drop. }
  destruct (Z.ltb_spec (Z.of_nat n) (Zlen ids - 1)) as [Hin|Hend].
  - unfold Zlen in Hin. rewrite memread_in by (unfold Zlen; lia). cbn [mbind outcome_bind].
    assert (length (take (Z.to_nat (Zlen ids - 1 - Z.of_nat n)) (drop (Z.to_nat (Z.of_nat n + 1)) a0))
      = length ids - 1 - n)%nat as Hm by (rewrite length_take, length_drop; unfold Zlen; lia).
    unfold memcpy. rewrite bool_decide_true by (unfold Zlen at 1; rewrite Hm; unfold Zlen; lia).
    cbn [mbind outcome_bind set_array chain heap list nelem addr growth]. eexists. split; [done|].
    rewrite Hm, Hdel, Nat2Z.id. replace (Z.to_nat (Z.of_nat n + 1)) with (S n) by lia.
    replace (Z.to_nat (Zlen ids - 1 - Z.of_nat n)) with (length ids - 1 - n)%nat by (unfold Zlen; lia).
    rewrite array_close by lia. unfold a0.
    rewrite !take_take, !skipn_firstn_comm, drop_insert_lt, take_insert_ge by lia. done.
  - cbn [mbind outcome_bind set_array chain heap list nelem addr growth]. eexists. split; [done|].
    unfold Zlen in Hend. rewrite Hdel. unfold a0. replace (length ids - 1)%nat with n by lia.
    rewrite take_insert_ge, take_take by lia. rewrite (drop_ge (take _ _)) by (rewrite length_take; lia).
    rewrite app_nil_r. f_equal. lia.
Qed.

(** ** Removal from the linked list *)

(** The heap with [lp] taken from between [p] and [q]. *)
Definition apart (h : gmap positive lease) (lp : positive) (p q : ptr) : gmap positive lease :=
  let h1 := match p with
            | Some x => alter (fun l => add_ref (count q - 1) (set_next q l)) x h
            | None => h end in
  let h2 := match q with
            | Some y => alter (fun l => add_ref (count p - 1) (set_prev p l)) y h1
            | None => h1 end in
  alter (fun l => add_ref (- (count p + count q)) (set_next None (set_prev None l))) lp h2.

(** One more reference to what a slot holds. *)
Definition addref (q : ptr) (h : gmap positive lease) : gmap positive lease :=
  match q with Some y => alter (add_ref 1) y h | None => h end.

(** The pointer to [lp] from its successor [y] is redirected to [p]. *)
Lemma detach_next w lp ll y ly p :
  heap w !! lp = Some ll -> heap w !! y = Some ly -> y <> lp ->
  prev ly = Some lp -> prev ll = p -> 1 < refcnt ll ->
  (forall x, p = Some x -> x <> lp /\ x <> y /\ is_Some (heap w !! x)) ->
  (w' ← lease_dereference w (Prev y); pv ← get_slot w' (Prev lp); lease_reference w' (Prev y) pv)
  = Ret (World (alter (set_prev p) y (alter (add_ref (-1)) lp (addref p (heap w)))) (chain w)).
Proof.
  intros Hlp Ey Hyl Ny Hp Hr Hx.
  rewrite (dereference_Prev w y ly lp ll) by done. cbn [mbind outcome_bind].
  rewrite (get_Prev _ _ (add_ref (-1) ll)) by (cbn; by simplify_map_eq). cbn [mbind outcome_bind add_ref prev].
  rewrite Hp. destruct p as [x|]; cbn [addref].
  - destruct (Hx x eq_refl) as (Hxl & Hxy & lx & Ex).
    rewrite (reference_Prev _ _ (set_prev None ly)); cbn [heap chain]; [|by simplify_map_eq|done|].
    2: { do 2 apply is_Some_alter. by eexists. }
    do 2 f_equal. lookup_cases x y lp.
  - cbn [lease_reference]. do 2 f_equal. lookup_cases y y lp.
Qed.

(** The pointer to [lp] from its predecessor [x] is redirected to [q], and
    the one back is dropped. *)
Lemma detach_prev w lp ll x lx q :
  heap w !! lp = Some ll -> heap w !! x = Some lx -> x <> lp ->
  next lx = Some lp -> prev ll = Some x -> next ll = q -> 1 < refcnt ll -> 1 < refcnt lx ->
  (forall y, q = Some y -> y <> lp /\ x <> y /\ is_Some (heap w !! y)) ->
  (w' ← lease_dereference w (Next x); nx ← get_slot w' (Next lp);
   w'' ← lease_reference w' (Next x) nx; lease_dereference w'' (Prev lp))
  = Ret (World (alter (fun l => add_ref (-1) (set_next q l)) x
                 (alter (fun l => add_ref (-1) (set_prev None l)) lp (addref q (heap w)))) (chain w)).
Proof.
  intros Hlp Ex Hxl Nx Hp Hn Hr Hrx Hy.
  rewrite (dereference_Next w x lx lp ll) by done. cbn [mbind outcome_bind].
  rewrite (get_Next _ _ (add_ref (-1) ll)) by (cbn; by simplify_map_eq). cbn [mbind outcome_bind add_ref next].
  rewrite Hn. destruct q as [y|]; cbn [addref].
  - destruct (Hy y eq_refl) as (Hyl & Hxy & ly & Ey).
    rewrite (reference_Next _ _ (set_next None lx)); cbn [heap chain]; [|by simplify_map_eq|done|].
    2: { do 2 apply is_Some_alter. by eexists. }
    cbn [mbind outcome_bind].
    rewrite (dereference_Prev _ lp (add_ref (-1) ll) x (set_next (Some y) lx)); cbn [heap];
      [|by simplify_map_eq|done|by simplify_map_eq|done|done].
    do 2 f_equal. cbn [heap]. lookup_cases x y lp.
  - cbn [lease_reference mbind outcome_bind].
    rewrite (dereference_Prev _ lp (add_ref (-1) ll) x (set_next None lx)); cbn [heap];
      [|by simplify_map_eq|done|by simplify_map_eq|done|done].
    do 2 f_equal. cbn [heap]. lookup_cases x x lp.
Qed.

Lemma unlink_neighbours_ok w lp ll p q :
  heap w !! lp = Some ll -> next ll = q -> prev ll = p -> 2 + count p + count q <= refcnt ll ->
  (forall x, p = Some x -> x <> lp /\ exists lx, heap w !! x = Some lx /\ next lx = Some lp /\ 2 <= refcnt lx) ->
  (forall y, q = Some y -> y <> lp /\ p <> Some y /\
     exists ly, heap w !! y = Some ly /\ prev ly = Some lp /\ 2 <= refcnt ly) ->
  unlink_neighbours w lp = Ret (World (apart (heap w) lp p q) (chain w)).
Proof.
  intros Hlp Hn Hp Hr Hx Hy. unfold unlink_neighbours.
  rewrite (get_Next _ _ _ Hlp), Hn. cbn [mbind outcome_bind].
  destruct q as [y|]; [destruct (Hy y eq_refl) as (Hyl & Hpy & ly & Ey & Ny & Ry)|];
    (destruct p as [x|]; [destruct (Hx x eq_refl) as (Hxl & lx & Ex & Nx & Rx)|]); cbn [count] in Hr.
  - assert (x <> y) by congruence.
    rewrite (detach_next w lp ll y ly (Some x)); [|done..|lia|by intros ? [= <-]].
    cbn [mbind outcome_bind addref]. erewrite get_Prev by (cbn; by simplify_map_eq).
    cbn [mbind outcome_bind add_ref prev]. rewrite Hp.
    erewrite (detach_prev _ lp _ x _ (Some y)); cbn [heap];
      [|by simplify_map_eq|by simplify_map_eq|done|done|done|done|cbn; lia|cbn; lia|].
    2: { intros ? [= <-]. split_and!; [done..|]. do 3 apply is_Some_alter. by eexists. }
    cbn [mbind outcome_bind addref heap chain]. erewrite get_Next by (cbn; by simplify_map_eq).
    cbn [mbind outcome_bind add_ref set_prev next]. rewrite Hn.
    erewrite (dereference_Next _ lp _ y); cbn [heap];
      [|by simplify_map_eq|done|by simplify_map_eq|done|cbn; lia].
    cbn [chain]. do 2 f_equal. unfold apart. cbn [count]. lookup_cases x y lp.
  - rewrite (detach_next w lp ll y ly None); [|done..|lia|done].
    cbn [mbind outcome_bind addref]. erewrite get_Prev by (cbn; by simplify_map_eq).
    cbn [mbind outcome_bind add_ref prev]. rewrite Hp. cbn [mbind outcome_bind].
    erewrite get_Next by (cbn; by simplify_map_eq). cbn [mbind outcome_bind add_ref next]. rewrite Hn.
    erewrite (dereference_Next _ lp _ y); cbn [heap];
      [|by simplify_map_eq|done|by simplify_map_eq|done|cbn; lia].
    cbn [chain]. do 2 f_equal. unfold apart. cbn [count]. lookup_cases y y lp.
  - cbn [mbind outcome_bind]. rewrite (get_Prev _ _ _ Hlp), Hp. cbn [mbind outcome_bind].
    rewrite (detach_prev w lp ll x lx None); [|done..|lia|lia|done].
    cbn [mbind outcome_bind addref heap]. erewrite get_Next by (cbn; by simplify_map_eq).
    cbn [mbind outcome_bind add_ref set_prev next]. rewrite Hn.
    cbn [chain]. do 2 f_equal. unfold apart. cbn [count]. lookup_cases x x lp.
  - cbn [mbind outcome_bind]. rewrite (get_Prev _ _ _ Hlp), Hp. cbn [mbind outcome_bind].
    rewrite (get_Next _ _ _ Hlp), Hn. cbn [mbind outcome_bind].
    destruct w as [h c]. cbn [heap chain] in *. do 2 f_equal. unfold apart. cbn [count]. lookup_cases lp lp lp.
    destruct ll; cbn in *; subst. unfold add_ref. cbn. do 2 f_equal. lia.
Qed.

Lemma apart_lp h lp ll p q :
  h !! lp = Some ll -> p <> Some lp -> q <> Some lp ->
  apart h lp p q !! lp = Some (add_ref (- (count p + count q)) (set_next None (set_prev None ll))).
Proof.
  intros Hl Hp Hq. unfold apart.
  destruct p as [x|], q as [y|]; repeat (rewrite ?lookup_alter_eq, ?lookup_alter_ne by congruence);
    rewrite Hl; done.
Qed.

Lemma apart_ne h lp p q z l :
  z <> lp -> h !! z = Some l ->
  exists l', apart h lp p q !! z = Some l' /\
    sort_time l' = sort_time l /\ sort_tiebreaker l' = sort_tiebreaker l /\ lc l' = lc l /\
    next l' = (if bool_decide (p = Some z) then q else next l) /\
    prev l' = (if bool_decide (q = Some z) then p else prev l) /\
    refcnt l' = refcnt l + (if bool_decide (p = Some z) then count q - 1 else 0) +
                (if bool_decide (q = Some z) then count p - 1 else 0).
Proof.
  intros Hz Hl. unfold apart. rewrite lookup_alter_ne by done.
  destruct p as [x|], q as [y|]; repeat case_bool_decide; simplify_eq;
  try (rewrite lookup_alter_ne by congruence); try rewrite lookup_alter_eq;
  try (rewrite lookup_alter_ne by congruence); rewrite ?lookup_alter_eq, ?Hl;
  cbn; eexists; (split; [reflexivity|]); cbn; split_and!; done || lia.
Qed.

Lemma apart_frame h lp p q z :
  z <> lp -> p <> Some z -> q <> Some z -> apart h lp p q !! z = h !! z.
Proof.
  intros Hz Hp Hq. unfold apart. rewrite lookup_alter_ne by done.
  destruct p as [x|], q as [y|]; by rewrite ?lookup_alter_ne by congruence.
Qed.

Lemma delete_lookup (ids : Datatypes.list positive) n i :
  delete n ids !! i = if bool_decide (i < n)%nat then ids !! i else ids !! S i.
Proof.
  case_bool_decide; [by apply list_lookup_delete_lt|apply list_lookup_delete_ge; lia].
Qed.

Section Apart.
Context (ext : positive -> Z) (h : gmap positive lease) (ids : Datatypes.list positive) (lp : positive).
Context (n : nat) (a : Z).
Hypothesis nodup : NoDup ids.
Hypothesis at_n : ids !! n = Some lp.
(** All nodes but [lp], which is only linked to its neighbours. *)
Hypothesis nodes : forall i x, ids !! i = Some x -> i <> n -> is_node ext a h ids i x.
Hypothesis Hlp : is_Some (h !! lp).

Abbreviation p := (before ids n).
Abbreviation q := (ids !! S n).

Lemma removed_index i x : ids !! i = Some x ->
  bool_decide (p = Some x) = bool_decide (S i = n) /\ bool_decide (q = Some x) = bool_decide (i = S n) /\
  (x = lp <-> i = n).
Proof.
  intros Hi. split_and!; [apply bool_decide_ext; split..|split].
  - intros (j & -> & Hj)%before_lookup. f_equal. by eapply NoDup_lookup.
  - intros <-. done.
  - intros Hj. by eapply NoDup_lookup.
  - by intros <-.
  - intros ->. by eapply NoDup_lookup.
  - intros ->. congruence.
Qed.

Lemma apart_node i x :
  delete n ids !! i = Some x -> is_node ext a (apart h lp p q) (delete n ids) i x.
Proof.
  rewrite delete_lookup. intros Hi. unfold is_node. rewrite delete_lookup. case_bool_decide as Hin.
  - destruct (nodes i x Hi) as (l & Hl & Hnx & Hpv & Hc & Hr); [lia|].
    destruct (removed_index i x Hi) as (Ep & Eq & Elp).
    destruct (apart_ne h lp p q x l) as (l' & Hl' & _ & _ & Hc' & Hn' & Hp' & Hr'); [by rewrite Elp; lia|done|].
    exists l'. rewrite Ep, Eq in *. rewrite (bool_decide_false (i = S n)) in * by lia.
    split_and!; [done| | |by rewrite Hc'|].
    + rewrite Hn', Hnx. repeat case_bool_decide; try lia; [by subst n|done].
    + rewrite Hp', Hpv. destruct i as [|j]; [done|]. cbn [before]. by rewrite delete_lookup, bool_decide_true by lia.
    + rewrite Hr', Hr, Hn', Hp', Hnx. case_bool_decide; [|lia]. subst n. rewrite at_n. cbn [count]. lia.
  - destruct (nodes (S i) x Hi) as (l & Hl & Hnx & Hpv & Hc & Hr); [lia|].
    destruct (removed_index (S i) x Hi) as (Ep & Eq & Elp).
    destruct (apart_ne h lp p q x l) as (l' & Hl' & _ & _ & Hc' & Hn' & Hp' & Hr'); [by rewrite Elp; lia|done|].
    exists l'. rewrite Ep, Eq in *. rewrite (bool_decide_false (S (S i) = n)) in * by lia.
    rewrite (bool_decide_false (S i < n)%nat) by lia.
    assert (before (delete n ids) i = if bool_decide (i = n) then before ids n else ids !! i) as Hb.
    { destruct i as [|j]; cbn [before].
      - by replace n with 0%nat by lia.
      - rewrite delete_lookup. repeat case_bool_decide; try lia; [by subst n|done]. }
    rewrite Hb. split_and!; [done|by rewrite Hn', Hnx| |by rewrite Hc'|].
    + rewrite Hp', Hpv. repeat case_bool_decide; done || lia.
    + rewrite Hr', Hr, Hn', Hp', Hpv. cbn [before]. repeat case_bool_decide; try lia.
      replace i with n by lia. rewrite at_n. cbn [count]. lia.
Qed.

Lemma apart_same_keys : same_keys h (apart h lp p q) ids.
Proof.
  split.
  - intros x Hx. apply list_elem_of_lookup_1 in Hx as [i Hi].
    destruct (removed_index i x Hi) as (Ep & Eq & Elp). destruct (decide (i = n)) as [E|E].
    + apply Elp in E as ->. destruct Hlp as [ll Hll].
      assert (p <> Some lp) as Np by (intros (j & -> & Hj)%before_lookup; pose proof (NoDup_lookup _ _ _ _ nodup at_n Hj); lia).
      assert (q <> Some lp) as Nq by (intros Hj; pose proof (NoDup_lookup _ _ _ _ nodup at_n Hj); lia).
      rewrite (node_Some _ _ _ Hll), (node_Some _ _ _ (apart_lp h lp ll p q Hll Np Nq)). done.
    + destruct (nodes i x Hi E) as (l & Hl & _).
      destruct (apart_ne h lp p q x l) as (l' & Hl' & Ht & Hb & _); [by rewrite Elp|done|].
      by rewrite (node_Some _ _ _ Hl), (node_Some _ _ _ Hl').
  - intros x Hx. apply apart_frame.
    + intros ->. by apply list_elem_of_lookup_2 in at_n.
    + intros (j & _ & Hj)%before_lookup. by apply list_elem_of_lookup_2 in Hj.
    + intros Hj. by apply list_elem_of_lookup_2 in Hj.
Qed.
End Apart.

Lemma alter_self (h : gmap positive lease) lp ll f g :
  h !! lp = Some ll -> alter f lp (alter g lp h) = <[lp := f (g ll)]> h.
Proof. intros Hl. apply map_eq. intros z. destruct (decide (z = lp)) as [->|]; by simplify_map_eq. Qed.

Lemma alter_insert_eq' (h : gmap positive lease) x l f : h !! x = Some l -> alter f x h = <[x := f l]> h.
Proof. intros Hl. apply map_eq. intros z. destruct (decide (z = x)) as [->|]; by simplify_map_eq. Qed.

Lemma add_ref_cancel ll : add_ref (-1) (set_lc None (add_ref 1 ll)) = set_lc None ll.
Proof. destruct ll. unfold add_ref, set_lc. cbn. f_equal. lia. Qed.

(** What the removal of [lp] promises. *)
Definition removed (ext : positive -> Z) (w w' : world) (ids' : Datatypes.list positive) (lp : positive)
    (ids : Datatypes.list positive) : Prop :=
  chain_rep ext w' ids' /\ detached ext w' lp /\ lc (node (heap w') lp) = None /\
  same_keys (heap w) (heap w') ids.

Section Removal.
Context (ext : positive -> Z) (w : world) (ids : Datatypes.list positive) (n : nat) (lp : positive).
Hypothesis rep : chain_rep ext w ids.
Hypothesis held : forall x, x ∈ ids -> 1 <= ext x.
Hypothesis at_n : ids !! n = Some lp.

(** The heap after [lc_unlink_lcp], for the node [ll] of [lp]. *)
Definition off_array (ll : lease) : gmap positive lease := <[lp := set_lc None ll]> (heap w).

Lemma off_array_nodes ll i x :
  ids !! i = Some x -> i <> n -> x <> lp /\ is_node ext (addr (chain w)) (off_array ll) ids i x.
Proof.
  intros Hi Hin. assert (x <> lp) as Hx.
  { intros ->. by pose proof (NoDup_lookup _ _ _ _ (rep_nodup _ _ _ rep) Hi at_n). }
  split; [done|]. destruct (rep_node _ _ _ rep i x Hi) as (l & Hl & Hrest). exists l.
  unfold off_array. by rewrite lookup_insert_ne.
Qed.

Lemma removed_neighbours :
  before ids n <> Some lp /\ ids !! S n <> Some lp /\ (forall y, ids !! S n = Some y -> before ids n <> Some y).
Proof.
  pose proof (rep_nodup _ _ _ rep) as Hnd.
  split_and!; [intros (j & -> & Hj)%before_lookup|intros Hj|intros y Hy (j & -> & Hj)%before_lookup].
  - pose proof (NoDup_lookup _ _ _ _ Hnd at_n Hj). lia.
  - pose proof (NoDup_lookup _ _ _ _ Hnd at_n Hj). lia.
  - pose proof (NoDup_lookup _ _ _ _ Hnd Hy Hj). lia.
Qed.

Lemma node_refcnt i x l :
  ids !! i = Some x -> refcnt l = ext x + 1 + count (next l) + count (prev l) -> 2 <= refcnt l.
Proof.
  intros Hi ->. assert (1 <= ext x) by (by eapply held, list_elem_of_lookup_2).
  destruct (next l), (prev l); cbn; lia.
Qed.

Lemma unlink_exec :
  exists ll a, heap w !! lp = Some ll /\ refcnt ll = ext lp + 1 + count (ids !! S n) + count (before ids n) /\
    lc_unlink_lease_pos w (Z.of_nat n)
    = Ret (World (alter (add_ref (-1)) lp (apart (off_array ll) lp (before ids n) (ids !! S n)))
             (Leasechain (addr (chain w)) a (Zlen ids - 1) (growth (chain w)))) /\
    take (length ids - 1) a = Some <$> delete n ids.
Proof.
  pose proof rep as [Hne Harr Hg Hnd Hnode].
  destruct (Hnode n lp at_n) as (ll & Hll & Hnx & Hpv & Hc & Hr).
  assert (1 <= ext lp) as Hext by (by eapply held, list_elem_of_lookup_2).
  pose proof (lookup_lt_Some _ _ _ at_n) as Hlt. pose proof (node_refcnt n lp ll at_n Hr).
  destruct (entry_ok ext w ids rep (Z.of_nat n)) as (x & Ex & E); [unfold Zlen; lia|].
  rewrite Nat2Z.id in Ex. assert (x = lp) as -> by congruence.
  unfold lc_unlink_lease_pos. rewrite E. cbn [mbind outcome_bind fst]. rewrite (update_ok _ _ _ _ Hll).
  cbn [mbind outcome_bind].
  destruct (lc_unlink_lcp_ok (World (alter (add_ref 1) lp (heap w)) (chain w)) ids lp n (add_ref 1 ll))
    as (a & Eu & Ha); [done|done|done|cbn; by simplify_map_eq|cbn; lia|].
  exists ll, a. rewrite Hnx, Hpv in Hr. split_and!; [done|done| |done].
  rewrite Eu. cbn [mbind outcome_bind heap chain addr growth]. rewrite (alter_self _ _ ll), add_ref_cancel by done.
  fold (off_array ll). destruct removed_neighbours as (Np & Nq & Npq).
  assert (off_array ll !! lp = Some (set_lc None ll)) as Hll2 by (unfold off_array; by simplify_map_eq).
  rewrite (unlink_neighbours_ok _ lp (set_lc None ll) (before ids n) (ids !! S n)); cbn [heap]; [|done|done|done| | |].
  - cbn [mbind outcome_bind chain]. eapply (release_ok (World _ _)); [by apply apart_lp|].
    cbn. rewrite Hr. lia.
  - cbn. lia.
  - intros x Hx. apply before_lookup in Hx as (j & Hjn & Hj).
    destruct (off_array_nodes ll j x Hj) as (? & lx & Hlx & Hnj & _ & _ & Hrj); [lia|].
    split; [done|]. exists lx. split_and!; [done|by rewrite Hnj, <- Hjn|by eapply node_refcnt].
  - intros y Hy. destruct (off_array_nodes ll (S n) y Hy) as (? & ly & Hly & _ & Hpj & _ & Hrj); [lia|].
    split; [done|]. split; [by apply Npq|]. exists ly. split_and!; [done|by rewrite Hpj|by eapply node_refcnt].
Qed.

Lemma lc_unlink_lease_pos_ok :
  exists w', lc_unlink_lease_pos w (Z.of_nat n) = Ret w' /\ removed ext w w' (delete n ids) lp ids.
Proof.
  destruct unlink_exec as (ll & a & Hll & Hr & -> & Ha). eexists. split; [done|].
  destruct removed_neighbours as (Np & Nq & _). pose proof rep as [Hne Harr Hg Hnd Hnode].
  assert (off_array ll !! lp = Some (set_lc None ll)) as Hll2 by (unfold off_array; by simplify_map_eq).
  pose proof (apart_lp _ lp _ _ _ Hll2 Np Nq) as Hap.
  pose proof (lookup_lt_Some _ _ _ at_n) as Hlt.
  assert (same_keys (heap w) (alter (add_ref (-1)) lp (apart (off_array ll) lp (before ids n) (ids !! S n))) ids) as Hk.
  { pose proof (list_elem_of_lookup_2 _ _ _ at_n) as Hin.
    eapply same_keys_trans; [by apply (same_keys_insert (heap w) lp ll (set_lc None ll))|].
    eapply same_keys_trans; [apply (apart_same_keys ext _ ids lp n (addr (chain w))); [done|done| |by eexists]|].
    { intros i x Hi Hne'. by apply off_array_nodes. }
    rewrite (alter_insert_eq' _ lp _ (add_ref (-1)) Hap). by apply (same_keys_insert _ lp _ _ ids Hap). }
  split_and!; [|eexists; cbn [heap]; split; [by rewrite lookup_alter_eq, Hap|cbn; split_and!; try done; lia]| |done].
  2: { unfold node. cbn [heap]. by rewrite lookup_alter_eq, Hap. }
  constructor; cbn [heap chain nelem list growth addr].
  - unfold Zlen. rewrite length_delete by by eexists. lia.
  - by rewrite length_delete by by eexists.
  - done.
  - eapply sublist_NoDup; [done|apply sublist_delete].
  - intros i x Hi. destruct (apart_node ext (off_array ll) ids lp n (addr (chain w)) Hnd at_n) with i x as (l & Hl & Hrest).
    + intros j y Hj Hjn. by apply off_array_nodes.
    + done.
    + exists l. rewrite lookup_alter_ne; [done|]. intros <-. rewrite delete_lookup in Hi.
      case_bool_decide; pose proof (NoDup_lookup _ _ _ _ Hnd at_n Hi); lia.
Qed.
End Removal.

Lemma sorted_delete h ids n : sorted h ids -> sorted h (delete n ids).
Proof.
  intros Hs i j x y Hij Hx Hy. rewrite delete_lookup in Hx, Hy.
  repeat case_bool_decide; try lia; [apply (Hs i j)|apply (Hs i (S j))|apply (Hs (S i) (S j))]; done || lia.
Qed.

(** C30: removing a lease from the queue it is on finds it, whatever the
    tiebreakers of the leases with its sort time are, and leaves the queue
    with the other leases in the same order, sorted, array and links in
    agreement; the lease has no links and only the server's references left. *)
Theorem lc_unlink_lease_removes ext w ids lp :
  chain_rep ext w ids -> sorted (heap w) ids -> (forall x, x ∈ ids -> 1 <= ext x) ->
  Zlen ids <= SIZE_MAX -> lp ∈ ids ->
  exists n w', ids !! n = Some lp /\ lc_unlink_lease w lp = Ret w' /\
    removed ext w w' (delete n ids) lp ids /\ sorted (heap w') (delete n ids).
Proof.
  intros rep srt held Hmax Hin. apply list_elem_of_lookup_1 in Hin as [k Hk].
  apply lookup_lt_Some in Hk as Hlt. unfold lc_unlink_lease, lc_binary_search_lease.
  rewrite (rep_nelem _ _ _ rep).
  assert (u64 (Zlen ids - 1) = Zlen ids - 1) as -> by (apply Z.mod_small; unfold SIZE_MAX, Zlen in *; lia).
  destruct (rep_node _ _ _ rep k lp Hk) as (l & Hl & _). cbn [load]. rewrite Hl.
  cbn [mbind outcome_bind snd]. rewrite <- (node_Some _ _ _ Hl).
  destruct (search_lease_ok ext w ids rep srt lp (Z.to_nat (Zlen ids - 1 - 0 + 1)) 0 (Zlen ids - 1))
    as ([n|] & -> & Hf); try (unfold Zlen; lia).
  2: { exfalso. apply (Hf (Z.of_nat k)); [unfold Zlen; lia|by rewrite Nat2Z.id]. }
  destruct Hf as [Hb Hn]. cbn [mbind outcome_bind position].
  rewrite (proj2 (Z.eqb_neq _ _)) by lia.
  destruct (lc_unlink_lease_pos_ok ext w ids (Z.to_nat n) lp rep held Hn) as (w' & E & Hrem).
  rewrite Z2Nat.id in E by lia. exists (Z.to_nat n), w'. split_and!; try done.
  apply sorted_delete. eapply sorted_same_keys; [apply Hrem|done|done].
Qed.

(** a lease that is not on a non-empty queue is never taken for another:
    the search fails and the server stops with a fatal error instead of
    unlinking some other lease. *)
Theorem lc_unlink_lease_absent ext w ids lp :
  chain_rep ext w ids -> sorted (heap w) ids -> 0 < Zlen ids <= SIZE_MAX ->
  lp ∉ ids -> is_Some (heap w !! lp) -> lc_unlink_lease w lp = Fatal.
Proof.
  intros rep srt Hmax Hin [l Hl]. unfold lc_unlink_lease, lc_binary_search_lease.
  rewrite (rep_nelem _ _ _ rep).
  assert (u64 (Zlen ids - 1) = Zlen ids - 1) as -> by (apply Z.mod_small; unfold SIZE_MAX, Zlen in *; lia).
  cbn [load]. rewrite Hl. cbn [mbind outcome_bind snd]. rewrite <- (node_Some _ _ _ Hl).
  destruct (search_lease_ok ext w ids rep srt lp (Z.to_nat (Zlen ids - 1 - 0 + 1)) 0 (Zlen ids - 1))
    as ([n|] & -> & Hf); try lia; [|done].
  destruct Hf as [_ Hn]. by apply list_elem_of_lookup_2 in Hn.
Qed.

(** [lc_binary_search_insert_point] terminates within the array and returns
    a position of a sorted queue before which no key is larger, and from which
    on no key is smaller, than the key of the lease to insert. *)
Theorem lc_binary_search_insert_point_splits ext w ids l :
  chain_rep ext w ids -> sorted (heap w) ids -> 0 < Zlen ids ->
  exists p, lc_binary_search_insert_point w l 0 (Zlen ids - 1) = Ret p /\ splits w ids l p.
Proof.
  intros rep srt H. apply (insert_point_ok ext w ids rep srt); try lia.
  intros i x Hi Hlt. apply lookup_lt_Some in Hi. unfold Zlen in Hlt. lia.
Qed.

Lemma unlink_all_ok ext w ids :
  chain_rep ext w ids -> (forall x, x ∈ ids -> 1 <= ext x) ->
  exists w', unlink_all (length ids) w = Ret w' /\ chain_rep ext w' [] /\
    (forall x, x ∈ ids -> detached ext w' x) /\ (forall x, x ∉ ids -> heap w' !! x = heap w !! x).
Proof.
  revert w. induction ids as [|lp ids IH] using rev_ind; intros w rep held.
  { exists w. split_and!; try done. intros x Hx. by apply not_elem_of_nil in Hx. }
  rewrite length_app, Nat.add_1_r. cbn [unlink_all].
  assert ((ids ++ [lp]) !! length ids = Some lp) as Hn by by apply list_lookup_middle.
  destruct (lc_unlink_lease_pos_ok ext w _ _ lp rep held Hn) as (w1 & -> & Hrep & Hdet & _ & Hk).
  cbn [mbind outcome_bind].
  assert (delete (length ids) (ids ++ [lp]) = ids) as Hd
    by (rewrite delete_take_drop, take_app_length, drop_ge, app_nil_r; [done|rewrite length_app; cbn; lia]).
  rewrite Hd in Hrep.
  destruct (IH w1 Hrep) as (w' & -> & Hrep' & Hdet' & Hfr).
  { intros x Hx. apply held. apply elem_of_app. by left. }
  exists w'. split_and!; [done|done| |].
  - intros x [Hx|Hx]%elem_of_app; [by apply Hdet'|]. apply list_elem_of_singleton in Hx as ->.
    assert (lp ∉ ids) as Hnot.
    { destruct rep as [_ _ _ Hnd _]. apply NoDup_app in Hnd as (_ & Hdis & _). intros Hin.
      by apply (Hdis lp Hin), list_elem_of_singleton. }
    destruct Hdet as (l & Hl & Hrest). exists l. by rewrite Hfr.
  - intros x Hx. assert (x ∉ ids) by (intros Hin; apply Hx, elem_of_app; by left).
    rewrite Hfr by done. by apply Hk.
Qed.

(** [lc_delete_all] takes every lease off the queue, leaving each without
    links and with the references the rest of the server holds, touches no
    other lease, and leaves an empty queue that can be used again. *)
Theorem lc_delete_all_empties ext w ids :
  chain_rep ext w ids -> (forall x, x ∈ ids -> 1 <= ext x) ->
  exists w', lc_delete_all w = Ret w' /\ chain_rep ext w' [] /\ total (chain w') = 0 /\
    (forall x, x ∈ ids -> detached ext w' x) /\ (forall x, x ∉ ids -> heap w' !! x = heap w !! x).
Proof.
  intros rep held. destruct (unlink_all_ok ext w ids rep held) as (w' & E & Hrep & Hdet & Hfr).
  unfold lc_delete_all. rewrite (rep_nelem _ _ _ rep). unfold Zlen. rewrite Nat2Z.id, E.
  cbn [mbind outcome_bind]. eexists. split; [done|]. split_and!; try done.
  constructor; cbn; try done; [apply Hrep|constructor].
Qed.

(** ** A queue of two leases and a third lease *)

Definition lease1 : lease := Lease 10 0 (Some 2%positive) None (Some 7) 3.
Definition lease2 : lease := Lease 20 0 None (Some 1%positive) (Some 7) 3.
Definition lease3 : lease := Lease 15 0 None None None 1.

Definition world0 : world :=
  World (<[1%positive := lease1]> (<[2%positive := lease2]> {[3%positive := lease3]}))
    (Leasechain 7 [Some 1%positive; Some 2%positive] 2 0).
Definition ids0 : Datatypes.list positive := [1%positive; 2%positive].
Definition ext0 : positive -> Z := fun _ => 1.

Lemma rep0 : chain_rep ext0 world0 ids0.
Proof.
  constructor; [reflexivity|reflexivity|cbn; lia|decide_true|].
  intros [|[|i]] x Hi; [| |done]; injection Hi as <-; eexists; repeat split.
Qed.

Lemma sorted0 : sorted (heap world0) ids0.
Proof.
  intros [|[|i]] [|[|j]] x y Hij Hx Hy; try done; try lia; injection Hx as <-; injection Hy as <-;
  unfold key_le; vm_compute; first [by left|right; split; [reflexivity|discriminate]].
Qed.

Lemma held0 : forall x, x ∈ ids0 -> 1 <= ext0 x.
Proof. unfold ext0. lia. Qed.

Lemma lc_add_sorted_lease_sorted_witness :
  exists w', lc_add_sorted_lease true world0 3%positive 99 = Ret w' /\ inserted ext0 world0 w' ids0 3%positive.
Proof.
  apply (lc_add_sorted_lease_sorted ext0 world0 ids0 3%positive rep0 sorted0 held0).
  - decide_true.
  - exists lease3. repeat split.
  - unfold LONG_MAX. lia.
  - intros x Hx. apply elem_of_cons in Hx as [->|[->|Hx]%elem_of_cons]; [vm_compute; discriminate..|].
    by apply not_elem_of_nil in Hx.
Defined.

Lemma lc_unlink_lease_removes_witness :
  exists n w', ids0 !! n = Some 2%positive /\ lc_unlink_lease world0 2%positive = Ret w' /\
    removed ext0 world0 w' (delete n ids0) 2%positive ids0 /\ sorted (heap w') (delete n ids0).
Proof.
  apply (lc_unlink_lease_removes ext0 world0 ids0 2%positive rep0 sorted0 held0); [vm_compute; discriminate|decide_true].
Defined.

Lemma lc_unlink_lease_absent_witness : lc_unlink_lease world0 3%positive = Fatal.
Proof.
  apply (lc_unlink_lease_absent ext0 world0 ids0 3%positive rep0 sorted0);
    [split; [reflexivity|vm_compute; discriminate]|decide_true|eexists; reflexivity].
Defined.

Lemma lc_binary_search_insert_point_splits_witness :
  exists p, lc_binary_search_insert_point world0 lease3 0 1 = Ret p /\ splits world0 ids0 lease3 p.
Proof. apply (lc_binary_search_insert_point_splits ext0 world0 ids0 lease3 rep0 sorted0). reflexivity. Defined.

Lemma lc_delete_all_empties_witness :
  exists w', lc_delete_all world0 = Ret w' /\ chain_rep ext0 w' [] /\ total (chain w') = 0 /\
    (forall x, x ∈ ids0 -> detached ext0 w' x) /\ (forall x, x ∉ ids0 -> heap w' !! x = heap world0 !! x).
Proof. apply (lc_delete_all_empties ext0 world0 ids0 rep0 held0). Defined.

End LeaseChain.
