(* ===== verification/HashTable.v ===== *)
(** * Hash tables (omapip/hash.c, includes/omapip/hash.h)

    Chained hash tables over counted objects.  A key is the memory its pointer
    refers to (the table keeps the pointer, so the object must not change
    while it is in the table).  The callbacks that count references and the
    allocator are parameters. *)

From stdpp Require Import base list numbers option.
From Stdlib Require Import ZArith Lia.
From S2P Require Import Prelude.
#[local] Open Scope Z_scope.

Module HashTable.

Definition DEFAULT_HASH_SIZE : Z := 9973.
Definition UINT_MAX : Z := 2 ^ 32 - 1.

(** ** Strings and comparators *)

(** [strlen]: running past the object is undefined. *)
Fixpoint strlen (s : list Z) : outcome Z :=
  match s with
  | [] => Undef
  | c :: s' => if c =? 0 then Ret 0 else n ← strlen s'; Ret (n + 1)
  end.

(** [!strcmp (s, t)] *)
Fixpoint streq (s t : list Z) : outcome bool :=
  match s, t with
  | c :: s', d :: t' =>
    if negb (c =? d) then Ret false else if c =? 0 then Ret true else streq s' t'
  | _, _ => Undef
  end.

Definition isascii (c : Z) : bool := (0 <=? c) && (c <=? 127).
Definition tolower (c : Z) : Z := if (65 <=? c) && (c <=? 90) then c + 32 else c.
Definition fold_case (c : Z) : Z := if isascii c then tolower c else c.

(** The loops of [casecmp] and [memcmp] over the first [len] octets. *)
Fixpoint cmp_octets (f : Z -> Z) (s t : list Z) : Z :=
  match s, t with
  | c :: s', d :: t' =>
    if f c <? f d then -1 else if f d <? f c then 1 else cmp_octets f s' t'
  | _, _ => 0
  end.

Definition casecmp (v1 v2 : list Z) (len : Z) : outcome Z :=
  s ← memread v1 0 len; t ← memread v2 0 len; Ret (cmp_octets fold_case s t).

Definition memcmp (v1 v2 : list Z) (len : Z) : outcome Z :=
  s ← memread v1 0 len; t ← memread v2 0 len; Ret (cmp_octets id s t).

(** ** Hash functions *)

(** [while (accum > 65535) accum = (accum & 65535) + (accum >> 16)]: the fuel
    is the width of [accum]. *)
Fixpoint carry (fuel : nat) (accum : Z) : outcome Z :=
  if 65535 <? accum then
    match fuel with
    | O => Undef
    | S fuel' => carry fuel' (u32 (Z.land accum 65535 + Z.shiftr accum 16))
    end
  else Ret accum.

Arguments carry : simpl never.

Fixpoint shift_hash (f : Z -> Z) (s : list Z) (accum : Z) : outcome Z :=
  match s with
  | [] => Ret accum
  | c :: s' => a ← carry 32 (u32 (Z.shiftl accum 1 + f c)); shift_hash f s' a
  end.

(** [accum % size]; a zero [size] is undefined. *)
Definition modulo (accum size : Z) : outcome Z :=
  if size =? 0 then Undef else Ret (accum mod size).

Definition do_case_hash (name : list Z) (len size : Z) : outcome Z :=
  s ← memread name 0 len; a ← shift_hash fold_case s 0; modulo a size.

Definition do_string_hash (name : list Z) (len size : Z) : outcome Z :=
  s ← memread name 0 len; a ← shift_hash id s 0; modulo a size.

(** [while (s < end)], three octets at a time. *)
Fixpoint id_loop (s : list Z) (accum : Z) : outcome Z :=
  match s with
  | [] => Ret accum
  | a :: b :: c :: s' =>
    id_loop s' (Z.lxor (Z.lxor (Z.lxor accum (Z.shiftl a 16)) (Z.shiftl b 8)) c)
  | _ => Undef
  end.

Definition do_id_hash (name : list Z) (len size : Z) : outcome Z :=
  if len =? 0 then Ret 0
  else
    s ← memread name 0 len;
    a ← match len mod 3, s with
        | 0, _ => id_loop s 0
        | 2, a :: b :: s' => id_loop s' (Z.lxor (Z.lxor 0 (Z.shiftl a 8)) b)
        | 1, a :: s' => id_loop s' (Z.lxor 0 a)
        | _, _ => Undef
        end;
    modulo a size.

Section Tables.
(** The value of an [unsigned] in memory, in the byte order of the host. *)
Context (host_unsigned : list Z -> Z).
Hypothesis host_unsigned_range : forall s, length s = 4%nat -> is_bytes s -> 0 <= host_unsigned s.

Definition do_number_hash (key : list Z) (len size : Z) : outcome Z :=
  s ← memread key 0 4; modulo (host_unsigned s) size.

Definition do_ip4_hash (key : list Z) (len size : Z) : outcome Z :=
  s ← memread key 0 4; modulo (be_val s) size.

(** The hash functions the table code compares its function pointers with. *)
Inductive hasher : Type :=
| Case_hash | String_hash | Id_hash | Number_hash | Ip4_hash.

Definition do_hash (h : hasher) : list Z -> Z -> Z -> outcome Z :=
  match h with
  | Case_hash => do_case_hash
  | String_hash => do_string_hash
  | Id_hash => do_id_hash
  | Number_hash => do_number_hash
  | Ip4_hash => do_ip4_hash
  end.

Definition find_length (key : list Z) (h : hasher) : outcome Z :=
  match h with
  | Case_hash | String_hash => strlen key
  | Number_hash => Ret 4
  | Ip4_hash => Ret 4
  | Id_hash => Ret 0
  end.

(** ** Tables *)

(** Objects, and the state their reference counts live in. *)
Context {V R : Type}.

Record hash_bucket : Type := HashBucket { name : list Z; len : Z; value : option V }.

Record hash_table : Type := HashTable {
  hash_count : Z;
  referencer : option (V -> R -> R);
  dereferencer : option (V -> R -> R);
  hash : hasher;
  buckets : list (list hash_bucket)
}.

Definition cmp (t : hash_table) : list Z -> list Z -> Z -> outcome Z :=
  match hash t with Case_hash => casecmp | _ => memcmp end.

(** [new_hash] with a successful [new_hash_table]. *)
Definition new_hash (refr derefr : option (V -> R -> R)) (hsize : Z) (h : hasher) : hash_table :=
  let hsize := if hsize =? 0 then DEFAULT_HASH_SIZE else hsize in
  HashTable hsize refr derefr h (replicate (Z.to_nat hsize) []).

(** The free list of buckets, by its length; a fresh hunk holds 127. *)
Definition new_hash_bucket (alloc_ok : bool) (free_hash_buckets : nat) : option nat :=
  match free_hash_buckets with
  | O => if alloc_ok then Some 126%nat else None
  | S n => Some n
  end.

Definition free_hash_bucket (free_hash_buckets : nat) : nat := S free_hash_buckets.

(** The state the operations work on. *)
Record state : Type := State { table : hash_table; counts : R; free_hash_buckets : nat }.

Definition set_bucket (t : hash_table) (i : Z) (b : list hash_bucket) : outcome hash_table :=
  bs ← wrA (buckets t) i b;
  Ret (HashTable (hash_count t) (referencer t) (dereferencer t) (hash t) bs).

Definition effective_len (t : hash_table) (key : list Z) (l : Z) : outcome Z :=
  if l =? 0 then find_length key (hash t) else Ret l.

Definition apply_ref (f : option (V -> R -> R)) (v : option V) (r : R) : R :=
  match f, v with Some g, Some x => g x r | _, _ => r end.

Definition add_hash (st : state) (key : list Z) (l : Z) (pointer : option V) (alloc_ok : bool)
  : outcome state :=
  let t := table st in
  l ← effective_len t key l;
  hashno ← do_hash (hash t) key l (hash_count t);
  match new_hash_bucket alloc_ok (free_hash_buckets st) with
  | None => Ret st
  | Some free =>
    old ← rdA (buckets t) hashno;
    t' ← set_bucket t hashno (HashBucket key l pointer :: old);
    Ret (State t' (apply_ref (referencer t) pointer (counts st)) free)
  end.

(** The test of the loop of [delete_hash_entry]. *)
Definition delete_matches (t : hash_table) (bp : hash_bucket) (key : list Z) (l : Z) : outcome bool :=
  e ← (if len bp =? 0 then streq (name bp) key else Ret false);
  if (e : bool) then Ret true
  else if len bp =? l then c ← cmp t (name bp) key l; Ret (c =? 0)
  else Ret false.

(** The chain without the first entry that matches, and that entry's value. *)
Fixpoint delete_loop (t : hash_table) (b : list hash_bucket) (key : list Z) (l : Z)
  : outcome (option (list hash_bucket * option V)) :=
  match b with
  | [] => Ret None
  | bp :: b' =>
    m ← delete_matches t bp key l;
    if (m : bool) then Ret (Some (b', value bp))
    else
      r ← delete_loop t b' key l;
      Ret (match r with Some (b'', v) => Some (bp :: b'', v) | None => None end)
  end.

Definition delete_hash_entry (st : state) (key : list Z) (l : Z) : outcome state :=
  let t := table st in
  l ← effective_len t key l;
  hashno ← do_hash (hash t) key l (hash_count t);
  b ← rdA (buckets t) hashno;
  r ← delete_loop t b key l;
  match r with
  | None => Ret st
  | Some (b', v) =>
    t' ← set_bucket t hashno b';
    Ret (State t' (apply_ref (dereferencer t) v (counts st)) (free_hash_bucket (free_hash_buckets st)))
  end.

Fixpoint lookup_loop (t : hash_table) (b : list hash_bucket) (key : list Z) (l : Z)
  : outcome (option (option V)) :=
  match b with
  | [] => Ret None
  | bp :: b' =>
    m ← (if l =? len bp then c ← cmp t (name bp) key l; Ret (c =? 0) else Ret false);
    if (m : bool) then Ret (Some (value bp)) else lookup_loop t b' key l
  end.

(** [*vp] is null before the call; the result is the new [*vp] if the call
    returns 1. *)
Definition hash_lookup (st : state) (key : list Z) (l : Z) : outcome (option (option V) * state) :=
  let t := table st in
  l ← effective_len t key l;
  hashno ← do_hash (hash t) key l (hash_count t);
  b ← rdA (buckets t) hashno;
  r ← lookup_loop t b key l;
  match r with
  | Some v => Ret (Some v, State t (apply_ref (referencer t) v (counts st)) (free_hash_buckets st))
  | None => Ret (None, st)
  end.

(** [hash_foreach]: [func] says whether it succeeds on an entry.  The entries
    visited with success are returned; the count is their number. *)
Fixpoint foreach_chain (func : hash_bucket -> bool) (b : list hash_bucket) : list hash_bucket * bool :=
  match b with
  | [] => ([], true)
  | bp :: b' =>
    if func bp then let '(v, go) := foreach_chain func b' in (bp :: v, go) else ([], false)
  end.

Fixpoint foreach_buckets (func : hash_bucket -> bool) (bs : list (list hash_bucket)) : list hash_bucket :=
  match bs with
  | [] => []
  | b :: bs' =>
    let '(v, go) := foreach_chain func b in
    if go then v ++ foreach_buckets func bs' else v
  end.

Definition hash_foreach (t : hash_table) (func : hash_bucket -> bool) : list hash_bucket * Z :=
  let v := foreach_buckets func (buckets t) in (v, Zlen v).

(** The numbers of [hash_report]: contents, size, percentage, shortest and
    longest chain. *)
Inductive report : Type :=
| Invalid_table
| Out_of_range
| Report (contents size pct minlen maxlen : Z).

Definition report_step (acc : Z * Z * Z) (b : list hash_bucket) : Z * Z * Z :=
  let '(contents, minlen, maxlen) := acc in
  let curlen := u32 (Zlen b) in
  (u32 (contents + curlen), if curlen <? minlen then curlen else minlen,
   if maxlen <? curlen then curlen else maxlen).

Definition hash_report (t : hash_table) : report :=
  if hash_count t =? 0 then Invalid_table
  else
    let '(contents, minlen, maxlen) :=
      fold_left report_step (take (Z.to_nat (hash_count t)) (buckets t)) (0, UINT_MAX, 0) in
    let pct := if UINT_MAX / 100 <=? contents then contents / (hash_count t / 100 + 1)
               else (contents * 100) / hash_count t in
    if (2147483647 <? contents) || (2147483647 <? hash_count t) || (2147483647 <? pct) ||
       (2147483647 <? minlen) || (2147483647 <? maxlen)
    then Out_of_range
    else Report contents (hash_count t) pct minlen maxlen.

(** ** Hashing *)

Lemma carry_S n a :
  carry (S n) a = if 65535 <? a then carry n (u32 (Z.land a 65535 + Z.shiftr a 16)) else Ret a.
Proof. reflexivity. Qed.

Lemma carry_ok a : 0 <= a < 2 ^ 18 -> exists r, carry 32 a = Ret r /\ 0 <= r <= 65535.
Proof.
  assert (forall x, 0 <= x < 2 ^ 18 -> u32 (Z.land x 65535 + Z.shiftr x 16) = x mod 65536 + x / 65536) as E.
  { intros x Hx. change 65535 with (Z.ones 16). rewrite Z.land_ones, Z.shiftr_div_pow2 by lia.
    change (2 ^ 16) with 65536. apply u32_small.
    pose proof (Z.mod_pos_bound x 65536 ltac:(lia)). pose proof (Z.div_pos x 65536 ltac:(lia) ltac:(lia)).
    assert (x / 65536 < 4) by (apply Z.div_lt_upper_bound; lia). lia. }
  assert (forall n x, 0 <= x < 65536 -> carry n x = Ret x) as Hdone.
  { intros [|n] x Hx; [unfold carry|rewrite carry_S]; by rewrite (proj2 (Z.ltb_ge _ _)) by lia. }
  intros Ha. rewrite carry_S. destruct (Z.ltb_spec 65535 a); [|exists a; split; [done|lia]].
  rewrite E by done. pose proof (Z.mod_pos_bound a 65536 ltac:(lia)) as Hm.
  assert (1 <= a / 65536) by (apply Z.div_le_lower_bound; lia).
  assert (a / 65536 < 4) by (apply Z.div_lt_upper_bound; lia).
  set (b := a mod 65536 + a / 65536) in *. rewrite carry_S.
  destruct (Z.ltb_spec 65535 b); [|exists b; split; [done|lia]].
  rewrite E by lia. assert (b / 65536 = 1) as Hb by (symmetry; apply (Z.div_unique _ _ _ (b - 65536)); lia).
  assert (b mod 65536 = b - 65536) as Hb' by (rewrite Z.mod_eq by lia; lia).
  rewrite Hb, Hb'. replace (b - 65536 + 1) with (b - 65535) by lia.
  rewrite Hdone by lia. exists (b - 65535). split; [done|lia].
Qed.

Lemma shift_hash_ok f s accum :
  (forall c, is_byte c -> is_byte (f c)) -> is_bytes s -> 0 <= accum <= 65535 ->
  exists r, shift_hash f s accum = Ret r /\ 0 <= r <= 65535.
Proof.
  intros Hf Hs. revert accum. induction Hs as [|c s Hc Hs IH]; intros accum Ha; cbn [shift_hash]; [eauto|].
  specialize (Hf c Hc). unfold is_byte in Hf. rewrite Z.shiftl_mul_pow2 by lia.
  rewrite u32_small by lia. destruct (carry_ok (accum * 2 ^ 1 + f c)) as (r & -> & Hr); [lia|].
  cbn [mbind outcome_bind]. by apply IH.
Qed.

Lemma fold_case_byte c : is_byte c -> is_byte (fold_case c).
Proof.
  unfold is_byte, fold_case, isascii, tolower. intros. destruct (_ && _); [|done].
  destruct (_ && _) eqn:E; [|done]. lia.
Qed.

(** The hashes depend on the octets only as the comparators see them. *)
Lemma shift_hash_map f s t accum : map f s = map f t -> shift_hash f s accum = shift_hash f t accum.
Proof.
  revert t accum. induction s as [|c s IH]; intros [|d t] accum; cbn; intros [=]; [done|].
  rewrite H0. destruct (carry 32 _); [|done..]. cbn [mbind outcome_bind]. by apply IH.
Qed.

Lemma cmp_octets_map f s t :
  length s = length t -> cmp_octets f s t = 0 <-> map f s = map f t.
Proof.
  revert t. induction s as [|c s IH]; intros [|d t]; cbn; try done. intros [= Hl].
  destruct (Z.ltb_spec (f c) (f d)); [split; [done|intros [=]; lia]|].
  destruct (Z.ltb_spec (f d) (f c)); [split; [done|intros [=]; lia]|].
  rewrite IH by done. split; [intros ->; f_equal; lia|by intros [=]].
Qed.

Lemma lxor_range k a b : 0 <= k -> 0 <= a < 2 ^ k -> 0 <= b < 2 ^ k -> 0 <= Z.lxor a b < 2 ^ k.
Proof.
  apply (op_pow_range Z.lxor xorb); [apply Z.lxor_spec| |done].
  intros. by apply Z.lxor_nonneg.
Qed.

Lemma shiftl_byte_range b k : is_byte b -> 0 <= k <= 16 -> 0 <= Z.shiftl b k < 2 ^ 24.
Proof.
  intros Hb Hk. unfold is_byte in Hb. rewrite Z.shiftl_mul_pow2 by lia.
  pose proof (Z.pow_le_mono_r 2 k 16 ltac:(lia) ltac:(lia)).
  pose proof (Z.pow_pos_nonneg 2 k ltac:(lia) ltac:(lia)). nia.
Qed.

Lemma id_loop_ok n s accum :
  length s = (3 * n)%nat -> is_bytes s -> 0 <= accum < 2 ^ 24 ->
  exists r, id_loop s accum = Ret r /\ 0 <= r < 2 ^ 24.
Proof.
  revert s accum. induction n as [|n IH]; intros s accum Hl Hs Ha.
  - destruct s; [cbn; eauto|cbn in Hl; lia].
  - destruct s as [|a [|b [|c s]]]; cbn in Hl; try lia.
    apply Forall_cons_iff in Hs as [Hba Hs]. apply Forall_cons_iff in Hs as [Hbb Hs].
    apply Forall_cons_iff in Hs as [Hbc Hs]. cbn [id_loop]. apply IH; [lia|done|].
    apply lxor_range; [lia| |unfold is_byte in Hbc; lia].
    apply lxor_range; [lia| |by apply shiftl_byte_range; [|lia]].
    apply lxor_range; [lia|done|by apply shiftl_byte_range; [|lia]].
Qed.

(** ** Keys *)

Definition folding (h : hasher) : Z -> Z := match h with Case_hash => fold_case | _ => id end.

(** A key as the comparator of the table sees it. *)
Definition norm (h : hasher) (key : list Z) (l : Z) : list Z := map (folding h) (take (Z.to_nat l) key).

(** A key of [l] octets that the hash function may read. *)
Definition key_ok (h : hasher) (key : list Z) (l : Z) : Prop :=
  0 < l <= Zlen key /\ is_bytes key /\ match h with Number_hash | Ip4_hash => 4 <= l | _ => True end.

Lemma memread_key h key l n :
  key_ok h key l -> 0 <= n <= l -> memread key 0 n = Ret (take (Z.to_nat n) key).
Proof. intros [Hl _] Hn. by rewrite memread_in by lia. Qed.

Lemma cmp_norm (t : hash_table) k1 k2 l :
  key_ok (hash t) k1 l -> key_ok (hash t) k2 l ->
  exists c, cmp t k1 k2 l = Ret c /\ (c =? 0) = bool_decide (norm (hash t) k1 l = norm (hash t) k2 l).
Proof.
  intros H1 H2. pose proof H1 as [? _]. pose proof H2 as [? _].
  assert (length (take (Z.to_nat l) k1) = length (take (Z.to_nat l) k2)) as Hl
    by (rewrite !length_take; unfold Zlen in *; lia).
  assert (cmp t k1 k2 l = Ret (cmp_octets (folding (hash t)) (take (Z.to_nat l) k1) (take (Z.to_nat l) k2))) as ->.
  { unfold cmp. destruct (hash t); unfold casecmp, memcmp;
      rewrite !(memread_key _ _ _ _ H1), !(memread_key _ _ _ _ H2) by lia; done. }
  eexists. split; [done|]. pose proof (cmp_octets_map (folding (hash t)) _ _ Hl).
  unfold norm. case_bool_decide; [by apply Z.eqb_eq; tauto|apply Z.eqb_neq; tauto].
Qed.

Lemma modulo_ok a size : 0 < size -> 0 <= a -> exists r, modulo a size = Ret r /\ 0 <= r < size.
Proof.
  intros Hs Ha. unfold modulo. rewrite (proj2 (Z.eqb_neq _ _)) by lia. eexists. split; [done|].
  apply Z.mod_pos_bound. lia.
Qed.

Lemma id_hash_ok key l size :
  key_ok Id_hash key l -> 0 < size -> exists r, do_id_hash key l size = Ret r /\ 0 <= r < size.
Proof.
  intros Hk Hs. pose proof Hk as (Hl & Hb & _). unfold do_id_hash. rewrite (proj2 (Z.eqb_neq _ _)) by lia.
  rewrite (memread_key _ _ _ _ Hk) by lia. cbn [mbind outcome_bind].
  set (s := take (Z.to_nat l) key). assert (is_bytes s) as Hsb by by apply is_bytes_take.
  assert (Zlen s = l) as Hsl by (unfold s, Zlen in *; rewrite length_take; lia). unfold Zlen in Hsl.
  pose proof (Z.div_mod l 3 ltac:(lia)) as Hdm. pose proof (Z.mod_pos_bound l 3 ltac:(lia)) as Hm.
  assert (exists r, match l mod 3, s with
        | 0, _ => id_loop s 0
        | 2, a :: b :: s' => id_loop s' (Z.lxor (Z.lxor 0 (Z.shiftl a 8)) b)
        | 1, a :: s' => id_loop s' (Z.lxor 0 a)
        | _, _ => Undef
        end = Ret r /\ 0 <= r < 2 ^ 24) as (r & Hr & Hrange).
  { assert (l mod 3 = 0 \/ l mod 3 = 1 \/ l mod 3 = 2) as [E|[E|E]] by lia; rewrite E in *.
    - apply (id_loop_ok (Z.to_nat (l / 3))); [lia|done|lia].
    - destruct s as [|a s]; [cbn in Hsl; lia|]. apply Forall_cons_iff in Hsb as [Ha Hsb]. cbn in Hsl.
      apply (id_loop_ok (Z.to_nat (l / 3))); [lia|done|]. apply lxor_range; unfold is_byte in Ha; lia.
    - destruct s as [|a [|b s]]; [cbn in Hsl; lia..|]. apply Forall_cons_iff in Hsb as [Ha Hsb].
      apply Forall_cons_iff in Hsb as [Hb' Hsb]. cbn in Hsl.
      apply (id_loop_ok (Z.to_nat (l / 3))); [lia|done|]. apply lxor_range; [lia| |unfold is_byte in Hb'; lia].
      apply lxor_range; [lia|lia|by apply shiftl_byte_range; [|lia]]. }
  rewrite Hr. cbn [mbind outcome_bind]. apply modulo_ok; lia.
Qed.

(** Every hash function returns a slot of the table. *)
Lemma do_hash_ok h key l size :
  key_ok h key l -> 0 < size -> exists r, do_hash h key l size = Ret r /\ 0 <= r < size.
Proof.
  intros Hk Hs. pose proof Hk as (Hl & Hb & H4).
  destruct h; cbn [do_hash]; [| |by apply id_hash_ok| |].
  - unfold do_case_hash. rewrite (memread_key _ _ _ _ Hk) by lia. cbn [mbind outcome_bind].
    destruct (shift_hash_ok fold_case (take (Z.to_nat l) key) 0 fold_case_byte) as (r & -> & ?);
      [by apply is_bytes_take|lia|]. cbn [mbind outcome_bind]. apply modulo_ok; lia.
  - unfold do_string_hash. rewrite (memread_key _ _ _ _ Hk) by lia. cbn [mbind outcome_bind].
    destruct (shift_hash_ok id (take (Z.to_nat l) key) 0) as (r & -> & ?);
      [done|by apply is_bytes_take|lia|]. cbn [mbind outcome_bind]. apply modulo_ok; lia.
  - unfold do_number_hash. rewrite (memread_key _ _ _ _ Hk) by lia. cbn [mbind outcome_bind].
    apply modulo_ok; [done|].
    apply host_unsigned_range; [|by apply is_bytes_take]. rewrite length_take. unfold Zlen in *. lia.
  - unfold do_ip4_hash. rewrite (memread_key _ _ _ _ Hk) by lia. cbn [mbind outcome_bind].
    apply modulo_ok; [done|]. apply be_val_range. by apply is_bytes_take.
Qed.

Lemma norm_take h k1 k2 l n :
  n <= l -> norm h k1 l = norm h k2 l -> norm h k1 n = norm h k2 n.
Proof.
  intros Hn H. unfold norm in *. apply (f_equal (take (Z.to_nat n))) in H.
  rewrite <- !fmap_take, !take_take in H. rewrite !Nat.min_l in H by lia. done.
Qed.

(** Keys the comparator takes for the same have the same hash. *)
Lemma do_hash_norm h k1 k2 l size :
  key_ok h k1 l -> key_ok h k2 l -> norm h k1 l = norm h k2 l ->
  do_hash h k1 l size = do_hash h k2 l size.
Proof.
  intros H1 H2 He. pose proof H1 as (? & _ & H4).
  destruct h; cbn [do_hash];
    unfold do_case_hash, do_string_hash, do_id_hash, do_number_hash, do_ip4_hash;
    rewrite ?(memread_key _ _ _ _ H1), ?(memread_key _ _ _ _ H2) by lia; cbn [mbind outcome_bind].
  - by rewrite (shift_hash_map fold_case _ _ 0 He).
  - by rewrite (shift_hash_map id _ _ 0 He).
  - unfold norm in He. cbn [folding] in He. rewrite !map_id in He. by rewrite He.
  - apply (norm_take _ _ _ _ 4) in He; [|lia]. unfold norm in He. cbn [folding] in He. rewrite !map_id in He. by rewrite He.
  - apply (norm_take _ _ _ _ 4) in He; [|lia]. unfold norm in He. cbn [folding] in He. rewrite !map_id in He. by rewrite He.
Qed.

(** each hash function is consistent with the comparator of its tables:
    keys that compare equal hash to the same slot, and the slot exists.  In
    particular the case-folding hash identifies what [casecmp] identifies, and
    the loop that adds the carries back in terminates. *)
Theorem hash_respects_comparator (t : hash_table) k1 k2 l :
  key_ok (hash t) k1 l -> key_ok (hash t) k2 l -> 0 < hash_count t -> cmp t k1 k2 l = Ret 0 ->
  exists i, do_hash (hash t) k1 l (hash_count t) = Ret i /\
            do_hash (hash t) k2 l (hash_count t) = Ret i /\ 0 <= i < hash_count t.
Proof.
  intros H1 H2 Hc He. destruct (cmp_norm t k1 k2 l H1 H2) as (c & E & Hn).
  rewrite E in He. injection He as ->. symmetry in Hn. apply bool_decide_eq_true in Hn.
  destruct (do_hash_ok _ k1 l _ H1 Hc) as (i & Hi & Hb). exists i. split; [done|]. split; [|done].
  by rewrite <- (do_hash_norm _ k1 k2) by done.
Qed.

(** ** The abstract table: a stack of values per key *)

(** The entries for a key, newest first, wherever they are in the table. *)
Definition matches (h : hasher) (key : list Z) (l : Z) (bp : hash_bucket) : Prop :=
  len bp = l /\ norm h (name bp) l = norm h key l.

#[local] Instance matches_dec h key l bp : Decision (matches h key l bp).
Proof. unfold matches. apply _. Defined.

Definition stack (t : hash_table) (key : list Z) (l : Z) : list hash_bucket :=
  filter (matches (hash t) key l) (concat (buckets t)).

Definition entry_ok (t : hash_table) (i : Z) (bp : hash_bucket) : Prop :=
  key_ok (hash t) (name bp) (len bp) /\
  do_hash (hash t) (name bp) (len bp) (hash_count t) = Ret i.

(** Every entry is in the chain its key hashes to. *)
Record table_wf (t : hash_table) : Prop := TableWf {
  wf_count : 0 < hash_count t;
  wf_buckets : Zlen (buckets t) = hash_count t;
  wf_entries : forall i b bp, buckets t !! i = Some b -> bp ∈ b -> entry_ok t (Z.of_nat i) bp
}.

Section Operations.
Context (t : hash_table) (key : list Z) (l : Z).
Hypothesis wf : table_wf t.
Hypothesis ok : key_ok (hash t) key l.

Lemma effective_len_ok : effective_len t key l = Ret l.
Proof. unfold effective_len. destruct ok as [? _]. by rewrite (proj2 (Z.eqb_neq _ _)) by lia. Qed.

Lemma slot_ok : exists i b, do_hash (hash t) key l (hash_count t) = Ret (Z.of_nat i) /\
  buckets t !! i = Some b /\ (i < length (buckets t))%nat.
Proof.
  destruct (do_hash_ok (hash t) key l (hash_count t) ok (wf_count t wf)) as (r & Hr & Hb).
  pose proof (wf_buckets t wf) as Hl. unfold Zlen in Hl.
  destruct (lookup_lt_is_Some_2 (buckets t) (Z.to_nat r)) as [b Hbk]; [lia|].
  exists (Z.to_nat r), b. rewrite Z2Nat.id by lia. split_and!; [done|done|lia].
Qed.

(** Entries for a key are in the chain of its hash only. *)
Lemma matches_slot i j b bp :
  do_hash (hash t) key l (hash_count t) = Ret (Z.of_nat i) ->
  buckets t !! j = Some b -> bp ∈ b -> matches (hash t) key l bp -> j = i.
Proof.
  intros Hi Hj Hin [Hl Hm]. destruct (wf_entries t wf j b bp Hj Hin) as [Hk Hh].
  rewrite Hl in Hk, Hh. rewrite (do_hash_norm _ (name bp) key) in Hh by done.
  rewrite Hi in Hh. injection Hh as Hh. lia.
Qed.

Lemma filter_none (P : hash_bucket -> Prop) `{!forall x, Decision (P x)} b :
  (forall bp, bp ∈ b -> ~ P bp) -> filter P b = [].
Proof.
  intros Hno. induction b as [|bp b IH]; [done|]. rewrite filter_cons_False by (apply Hno; left).
  apply IH. intros x Hx. apply Hno. by right.
Qed.

Lemma concat_split (bs : list (list hash_bucket)) i b :
  bs !! i = Some b -> concat bs = concat (take i bs) ++ b ++ concat (drop (S i) bs).
Proof. intros H. rewrite <- (take_drop_middle bs i b H) at 1. by rewrite concat_app. Qed.

Lemma others_filtered i b :
  do_hash (hash t) key l (hash_count t) = Ret (Z.of_nat i) -> buckets t !! i = Some b ->
  filter (matches (hash t) key l) (concat (take i (buckets t))) = [] /\
  filter (matches (hash t) key l) (concat (drop (S i) (buckets t))) = [].
Proof.
  intros Hi Hb. split; apply filter_none; intros bp Hin Hm; apply list_elem_of_In, in_concat in Hin as (c & Hc & Hin);
  apply list_elem_of_In in Hc, Hin; apply list_elem_of_lookup_1 in Hc as [j Hj].
  - apply lookup_take_Some in Hj as [Hj Hlt]. pose proof (matches_slot i j c bp Hi Hj Hin Hm). lia.
  - rewrite lookup_drop in Hj. pose proof (matches_slot i _ c bp Hi Hj Hin Hm). lia.
Qed.

Lemma stack_slot i b :
  do_hash (hash t) key l (hash_count t) = Ret (Z.of_nat i) -> buckets t !! i = Some b ->
  stack t key l = filter (matches (hash t) key l) b.
Proof.
  intros Hi Hb. unfold stack. rewrite (concat_split _ _ _ Hb), !list.filter_app.
  destruct (others_filtered i b Hi Hb) as [-> ->]. by rewrite app_nil_r.
Qed.

(** The stacks of all keys when one chain of the table is replaced. *)
Lemma stack_set i b b' t' k' l' :
  buckets t !! i = Some b ->
  t' = HashTable (hash_count t) (referencer t) (dereferencer t) (hash t) (<[i := b']> (buckets t)) ->
  stack t' k' l' = filter (matches (hash t) k' l') (concat (take i (buckets t))) ++
    filter (matches (hash t) k' l') b' ++ filter (matches (hash t) k' l') (concat (drop (S i) (buckets t))).
Proof.
  intros Hb ->. unfold stack. cbn [hash buckets]. apply lookup_lt_Some in Hb as Hlt.
  rewrite (concat_split _ i b') by (by apply list_lookup_insert_eq).
  rewrite take_insert_ge, drop_insert_lt by lia. by rewrite !list.filter_app.
Qed.

Lemma filter_same k' (c : list hash_bucket) :
  norm (hash t) k' l = norm (hash t) key l ->
  filter (matches (hash t) k' l) c = filter (matches (hash t) key l) c.
Proof. intros E. apply list_filter_iff. intros bp. unfold matches. by rewrite E. Qed.

(** The tests of the loops agree with [matches]. *)
Lemma lookup_test bp :
  key_ok (hash t) (name bp) (len bp) ->
  (if l =? len bp then c ← cmp t (name bp) key l; Ret (c =? 0) else Ret false)
  = Ret (bool_decide (matches (hash t) key l bp)).
Proof.
  intros Hk. destruct (Z.eqb_spec l (len bp)) as [E|E].
  - rewrite <- E in Hk. destruct (cmp_norm t (name bp) key l Hk ok) as (c & -> & Hc).
    cbn [mbind outcome_bind]. rewrite Hc. f_equal. apply bool_decide_ext. unfold matches.
    split; [by split|by intros [_ ?]].
  - rewrite bool_decide_false; [done|]. intros [? _]. done.
Qed.

Lemma delete_test bp :
  key_ok (hash t) (name bp) (len bp) ->
  delete_matches t bp key l = Ret (bool_decide (matches (hash t) key l bp)).
Proof.
  intros Hk. rewrite <- (lookup_test bp Hk). unfold delete_matches. destruct Hk as [? _].
  rewrite (proj2 (Z.eqb_neq (len bp) 0)) by lia. cbn [mbind outcome_bind]. by rewrite Z.eqb_sym.
Qed.

Lemma lookup_loop_ok b :
  (forall bp, bp ∈ b -> key_ok (hash t) (name bp) (len bp)) ->
  lookup_loop t b key l = Ret (value <$> head (filter (matches (hash t) key l) b)).
Proof.
  induction b as [|bp b IH]; intros H; [done|]. cbn [lookup_loop].
  rewrite lookup_test by (apply H; left). cbn [mbind outcome_bind].
  case_bool_decide as E; [by rewrite filter_cons_True|].
  rewrite filter_cons_False by done. apply IH. intros x Hx. apply H. by right.
Qed.

Lemma delete_loop_ok b :
  (forall bp, bp ∈ b -> key_ok (hash t) (name bp) (len bp)) ->
  match filter (matches (hash t) key l) b with
  | [] => delete_loop t b key l = Ret None
  | bp :: _ => exists b1 b2, b = b1 ++ bp :: b2 /\ matches (hash t) key l bp /\
      filter (matches (hash t) key l) b1 = [] /\ delete_loop t b key l = Ret (Some (b1 ++ b2, value bp))
  end.
Proof.
  induction b as [|bp b IH]; intros H; [done|]. cbn [delete_loop].
  rewrite delete_test by (apply H; left). cbn [mbind outcome_bind].
  case_bool_decide as E.
  - rewrite filter_cons_True by done. exists [], b. done.
  - rewrite filter_cons_False by done.
    specialize (IH ltac:(intros x Hx; apply H; by right)).
    destruct (filter _ b) as [|x r]; [by rewrite IH|].
    destruct IH as (b1 & b2 & -> & Hm & Hn & ->). exists (bp :: b1), b2.
    split_and!; [done|done| |done]. by rewrite filter_cons_False.
Qed.
End Operations.

Lemma wf_chain t i b bp :
  table_wf t -> buckets t !! i = Some b -> bp ∈ b -> key_ok (hash t) (name bp) (len bp).
Proof. intros wf Hb Hin. apply (wf_entries t wf i b bp Hb Hin). Qed.

(** Replacing the chain of one slot keeps the table well formed. *)
Lemma set_bucket_ok t i b b' :
  table_wf t -> buckets t !! i = Some b -> (forall bp, bp ∈ b' -> entry_ok t (Z.of_nat i) bp) ->
  exists t', set_bucket t (Z.of_nat i) b' = Ret t' /\ table_wf t' /\
    t' = HashTable (hash_count t) (referencer t) (dereferencer t) (hash t) (<[i := b']> (buckets t)).
Proof.
  intros wf Hb Hent. apply lookup_lt_Some in Hb as Hlt. unfold set_bucket.
  rewrite wrA_in by (unfold Zlen; lia). cbn [mbind outcome_bind]. rewrite Nat2Z.id.
  eexists. split; [done|]. split; [|done]. constructor; cbn [hash_count buckets hash].
  - apply wf.
  - rewrite Zlen_insert. apply wf.
  - intros j c bp Hj Hin. unfold entry_ok. cbn [hash hash_count].
    destruct (decide (i = j)) as [<-|Hne].
    + rewrite list_lookup_insert_eq in Hj by done. injection Hj as <-. by apply Hent.
    + rewrite list_lookup_insert_ne in Hj by done. by apply (wf_entries t wf j c).
Qed.

Lemma new_hash_wf refr derefr hsize h : 0 <= hsize -> table_wf (new_hash refr derefr hsize h).
Proof.
  intros Hs. unfold new_hash, DEFAULT_HASH_SIZE. destruct (Z.eqb_spec hsize 0); constructor; cbn [hash_count buckets];
  try lia; try (unfold Zlen; rewrite length_replicate; lia);
  intros i b bp Hb Hin; apply lookup_replicate in Hb as [-> _]; by apply not_elem_of_nil in Hin.
Qed.

(** A lookup in a well-formed table returns the newest entry for the key and takes a
    reference to its object; it finds nothing exactly when there is no entry. *)
Lemma hash_lookup_top st key l :
  table_wf (table st) -> key_ok (hash (table st)) key l ->
  hash_lookup st key l = Ret (value <$> head (stack (table st) key l),
    match head (stack (table st) key l) with
    | Some bp => State (table st) (apply_ref (referencer (table st)) (value bp) (counts st)) (free_hash_buckets st)
    | None => st
    end).
Proof.
  intros wf ok. unfold hash_lookup. rewrite effective_len_ok by done. cbn [mbind outcome_bind].
  destruct (slot_ok _ key l wf ok) as (i & b & Hi & Hb & Hlt). rewrite Hi. cbn [mbind outcome_bind].
  rewrite (rdA_lookup _ _ b) by (rewrite ?Nat2Z.id; done || lia). cbn [mbind outcome_bind].
  rewrite lookup_loop_ok by (done || intros bp; by apply (wf_chain _ i)). cbn [mbind outcome_bind].
  rewrite (stack_slot _ key l wf ok i b Hi Hb). by destruct (head _).
Qed.

(** The functions of a table do not change. *)
Definition same_kind (t t' : hash_table) : Prop :=
  hash t' = hash t /\ referencer t' = referencer t /\ dereferencer t' = dereferencer t.

(** [add_hash] pushes the entry on the stack of its key and changes the
    stack of no other key, keeps the table well formed and counts the
    reference; without memory for a bucket it changes nothing. *)
Theorem add_hash_pushes st key l pointer alloc_ok :
  table_wf (table st) -> key_ok (hash (table st)) key l ->
  exists st', add_hash st key l pointer alloc_ok = Ret st' /\ table_wf (table st') /\
    if negb alloc_ok && bool_decide (free_hash_buckets st = 0%nat) then st' = st
    else same_kind (table st) (table st') /\
      counts st' = apply_ref (referencer (table st)) pointer (counts st) /\
      forall k' l', stack (table st') k' l' =
        if bool_decide (l' = l /\ norm (hash (table st)) k' l = norm (hash (table st)) key l)
        then HashBucket key l pointer :: stack (table st) k' l' else stack (table st) k' l'.
Proof.
  intros wf ok. unfold add_hash. rewrite effective_len_ok by done. cbn [mbind outcome_bind].
  destruct (slot_ok _ key l wf ok) as (i & b & Hi & Hb & Hlt). rewrite Hi. cbn [mbind outcome_bind].
  destruct (new_hash_bucket alloc_ok (free_hash_buckets st)) as [free|] eqn:Efree.
  2: { unfold new_hash_bucket in Efree. destruct (free_hash_buckets st), alloc_ok; try done. by exists st. }
  assert (negb alloc_ok && bool_decide (free_hash_buckets st = 0%nat) = false) as ->.
  { unfold new_hash_bucket in Efree. by destruct (free_hash_buckets st), alloc_ok. }
  rewrite (rdA_lookup _ _ b) by (rewrite ?Nat2Z.id; done || lia). cbn [mbind outcome_bind].
  destruct (set_bucket_ok (table st) i b (HashBucket key l pointer :: b) wf Hb) as (t' & -> & Hwf & Ht').
  { intros bp [->|Hin]%elem_of_cons; [by split|by apply (wf_entries _ wf i b)]. }
  cbn [mbind outcome_bind]. eexists. split; [done|]. cbn [table counts]. split_and!; [done|by rewrite Ht'|done|].
  intros k' l'. rewrite (stack_set _ i b _ t' k' l' Hb Ht').
  assert (matches (hash (table st)) k' l' (HashBucket key l pointer) <->
          l' = l /\ norm (hash (table st)) k' l = norm (hash (table st)) key l) as Hmatch.
  { unfold matches. cbn [len name]. split; [intros [-> ?]|intros [-> ?]]; done. }
  case_bool_decide as E.
  - rewrite filter_cons_True by (by apply Hmatch). destruct E as [-> E].
    destruct (others_filtered _ key l wf ok i b Hi Hb) as [Ho1 Ho2].
    pose proof (fun c => filter_same (table st) key l k' c E) as Hsame.
    unfold stack. rewrite (concat_split _ _ _ Hb), !Hsame, !list.filter_app, Ho1, Ho2. done.
  - rewrite filter_cons_False by (by rewrite Hmatch). unfold stack.
    by rewrite (concat_split _ _ _ Hb), !list.filter_app.
Qed.

(** [delete_hash_entry] pops the stack of its key (the newest entry, whose
    object's reference is dropped), changes the stack of no other key, and
    does nothing when there is no entry for the key. *)
Theorem delete_hash_entry_pops st key l :
  table_wf (table st) -> key_ok (hash (table st)) key l ->
  exists st', delete_hash_entry st key l = Ret st' /\ table_wf (table st') /\
    match stack (table st) key l with
    | [] => st' = st
    | bp :: _ =>
      same_kind (table st) (table st') /\
      counts st' = apply_ref (dereferencer (table st)) (value bp) (counts st) /\
      free_hash_buckets st' = S (free_hash_buckets st) /\
      forall k' l', stack (table st') k' l' =
        if bool_decide (l' = l /\ norm (hash (table st)) k' l = norm (hash (table st)) key l)
        then tail (stack (table st) k' l') else stack (table st) k' l'
    end.
Proof.
  intros wf ok. unfold delete_hash_entry. rewrite effective_len_ok by done. cbn [mbind outcome_bind].
  destruct (slot_ok _ key l wf ok) as (i & b & Hi & Hb & Hlt). rewrite Hi. cbn [mbind outcome_bind].
  rewrite (rdA_lookup _ _ b) by (rewrite ?Nat2Z.id; done || lia). cbn [mbind outcome_bind].
  pose proof (delete_loop_ok (table st) key l ok b ltac:(intros bp; by apply (wf_chain _ i))) as Hdel.
  rewrite (stack_slot _ key l wf ok i b Hi Hb).
  destruct (filter (matches (hash (table st)) key l) b) as [|bp r] eqn:Ef.
  { rewrite Hdel. cbn [mbind outcome_bind]. eauto. }
  destruct Hdel as (b1 & b2 & Eb & Hm & Hn & ->). cbn [mbind outcome_bind].
  destruct (set_bucket_ok (table st) i b (b1 ++ b2) wf Hb) as (t' & -> & Hwf & Ht').
  { intros x Hx. apply (wf_entries _ wf i b); [done|]. rewrite Eb. rewrite elem_of_app in *.
    rewrite elem_of_cons. tauto. }
  cbn [mbind outcome_bind]. eexists. split; [done|]. cbn [table counts free_hash_buckets]. split_and!; [done|by rewrite Ht'|done|done|].
  intros k' l'. rewrite (stack_set _ i b _ t' k' l' Hb Ht'). unfold stack.
  rewrite (concat_split _ _ _ Hb), !list.filter_app, Eb, list.filter_app.
  case_bool_decide as E.
  - destruct E as [-> E]. destruct (others_filtered _ key l wf ok i b Hi Hb) as [Ho1 Ho2].
    pose proof (fun c => filter_same (table st) key l k' c E) as Hsame.
    rewrite !Hsame, Ho1, Ho2, Hn, (filter_cons_True _ bp) by done. done.
  - rewrite (filter_cons_False _ bp); [done|]. intros [Hl' Hm']. apply E. destruct Hm as [Hl Hm].
    assert (l' = l) as -> by congruence. split; congruence.
Qed.

(** ** Refinement: a stack of values per key *)

(** What a client of a table does, with memory available. *)
Inductive operation : Type :=
| Add_entry (key : list Z) (l : Z) (pointer : option V)
| Delete_entry (key : list Z) (l : Z)
| Look_up (key : list Z) (l : Z).

Definition operation_ok (h : hasher) (o : operation) : Prop :=
  match o with Add_entry key l _ | Delete_entry key l | Look_up key l => key_ok h key l end.

(** The answers of the lookups, and the state after all. *)
Fixpoint perform (st : state) (os : list operation) : outcome (list (option (option V)) * state) :=
  match os with
  | [] => Ret ([], st)
  | Add_entry key l p :: os => st ← add_hash st key l p true; perform st os
  | Delete_entry key l :: os => st ← delete_hash_entry st key l; perform st os
  | Look_up key l :: os => r ← hash_lookup st key l; r' ← perform (snd r) os; Ret (fst r :: fst r', snd r')
  end.

(** The specification: the values added for each key, newest first, and what is
    counted of their references. *)
Record stacks : Type := Stacks { values_of : list Z -> Z -> list (option V); held : R }.

Section Specification.
Context (h : hasher) (ref deref : option (V -> R -> R)).

(** The stack of [key] and of the keys that the table takes to be the same. *)
Definition on_stack (key : list Z) (l : Z) (f : list (option V) -> list (option V)) (v : list Z -> Z -> list (option V))
  : list Z -> Z -> list (option V) :=
  fun key' l' => if bool_decide (l' = l /\ norm h key' l = norm h key l) then f (v key' l') else v key' l'.

Fixpoint specified (s : stacks) (os : list operation) : list (option (option V)) * stacks :=
  match os with
  | [] => ([], s)
  | Add_entry key l p :: os => specified (Stacks (on_stack key l (cons p) (values_of s)) (apply_ref ref p (held s))) os
  | Delete_entry key l :: os =>
    match values_of s key l with
    | [] => specified s os
    | p :: _ => specified (Stacks (on_stack key l tail (values_of s)) (apply_ref deref p (held s))) os
    end
  | Look_up key l :: os =>
    let s := match values_of s key l with [] => s | p :: _ => Stacks (values_of s) (apply_ref ref p (held s)) end in
    let r := specified s os in
    (head (values_of s key l) :: fst r, snd r)
  end.

Record represents (st : state) (s : stacks) : Prop := Represents {
  rep_wf : table_wf (table st);
  rep_kind : hash (table st) = h /\ referencer (table st) = ref /\ dereferencer (table st) = deref;
  rep_held : counts st = held s;
  rep_values : forall key l, map value (stack (table st) key l) = values_of s key l
}.

Lemma on_stack_map t key l f g v key' l' :
  (forall bs, map value (f bs) = g (map value bs)) -> (forall key l, map value (stack t key l) = v key l) ->
  map value (if bool_decide (l' = l /\ norm h key' l = norm h key l) then f (stack t key' l') else stack t key' l') =
  on_stack key l g v key' l'.
Proof. intros Hf Hv. unfold on_stack. case_bool_decide; by rewrite ?Hf, Hv. Qed.

Lemma perform_refines os : forall st s,
  represents st s -> Forall (operation_ok h) os ->
  exists st', perform st os = Ret (fst (specified s os), st') /\ represents st' (snd (specified s os)).
Proof.
  induction os as [|[key l p|key l|key l] os IH]; intros st s [W (Eh & Er & Ed) Hc Hv] Hos; [by exists st|..]; inversion_clear Hos as [|? ? Hk Hos'];
    cbn [operation_ok] in Hk; rewrite <- Eh in Hk; cbn [perform specified].
  - destruct (add_hash_pushes st key l p true W Hk) as (st1 & -> & W1 & (K1 & K2 & K3) & Hc1 & Hs1). cbn [mbind outcome_bind]. apply IH; [|done].
    constructor; [done|by rewrite K1, K2, K3|by rewrite Hc1, Er, Hc|]. intros key' l'. rewrite Hs1, Eh. by apply (on_stack_map (table st) _ _ (cons _)).
  - destruct (delete_hash_entry_pops st key l W Hk) as (st1 & -> & W1 & H1). cbn [mbind outcome_bind]. rewrite <- (Hv key l).
    destruct (stack (table st) key l) as [|bp bs]; cbn [map].
    { subst st1. apply IH; [|done]. by constructor. }
    destruct H1 as ((K1 & K2 & K3) & Hc1 & _ & Hs1). apply IH; [|done].
    constructor; [done|by rewrite K1, K2, K3|by rewrite Hc1, Ed, Hc|]. intros key' l'. rewrite Hs1, Eh.
    apply (on_stack_map (table st) _ _ tail); [by intros []|done].
  - rewrite (hash_lookup_top st key l W Hk), <- (Hv key l). cbn [mbind outcome_bind fst snd].
    destruct (stack (table st) key l) as [|bp bs] eqn:Es; cbn [map head fmap option_fmap option_map fst snd].
    + destruct (IH st s) as (st' & -> & H'); [by constructor|done|]. cbn [mbind outcome_bind fst snd]. rewrite <- (Hv key l), Es. by exists st'.
    + set (st1 := State _ _ _). set (s1 := Stacks _ _). destruct (IH st1 s1) as (st' & -> & H'); [|done|].
      { constructor; [done|done|cbn; by rewrite Er, Hc|done]. }
      cbn [mbind outcome_bind fst snd]. change (values_of s1) with (values_of s). rewrite <- (Hv key l), Es. by exists st'.
Qed.

(** C37: A hash table is a stack of objects per key.  A table that is created with any hash
    function and size and then used by any sequence of additions, deletions and lookups, for
    keys of at least one octet, four for numbers and addresses, and no longer than the
    octets given ([key_ok]), with memory available, runs without an error and gives the
    answers of the specification: an addition pushes the object on the stack of its key, a
    deletion pops the newest object of the key and does nothing if there is none, a lookup
    answers the newest object added for the key and not deleted since, or that there is
    none.  Keys of one length are the same when the table compares them as equal, so without
    regard to case in a table with [do_case_hash]; the stack of no other key changes.  The
    references are counted as specified: one for each object added or found, one less for
    each one deleted. *)
Theorem hash_table_refines hsize os c free :
  0 <= hsize -> Forall (operation_ok h) os ->
  let none := Stacks (fun _ _ => []) c in
  exists st', perform (State (new_hash ref deref hsize h) c free) os = Ret (fst (specified none os), st') /\
    counts st' = held (snd (specified none os)) /\
    forall key l, map value (stack (table st') key l) = values_of (snd (specified none os)) key l.
Proof.
  intros Hs Hos none. destruct (perform_refines os (State (new_hash ref deref hsize h) c free) none) as (st' & E & [_ _ Hc Hv]); [|done|by exists st'].
  constructor; [by apply new_hash_wf|done|done|]. intros key l. cbn [values_of none]. unfold stack, new_hash. cbn [table buckets hash].
  induction (Z.to_nat _) as [|n IH]; [done|]. exact IH.
Qed.

End Specification.

Lemma foreach_chain_ok func b v go :
  foreach_chain func b = (v, go) ->
  exists rest, b = v ++ rest /\ Forall (fun bp => func bp = true) v /\
    if go then rest = [] else exists bp r, rest = bp :: r /\ func bp = false.
Proof.
  revert v go. induction b as [|bp b IH]; cbn; intros v go H.
  { injection H as <- <-. by exists []. }
  destruct (func bp) eqn:E.
  - destruct (foreach_chain func b) as [v' go']. injection H as <- <-.
    destruct (IH v' go' eq_refl) as (rest & -> & Hall & Hgo). exists rest. split_and!; [done|by constructor|done].
  - injection H as <- <-. exists (bp :: b). split_and!; [done|constructor|eauto].
Qed.

(** [hash_foreach] applies the function to every entry of the table, in
    order and once each, as long as it succeeds, and stops before the entry on
    which it fails; the count is the number of entries it succeeded on. *)
Theorem hash_foreach_visits t func :
  exists rest, concat (buckets t) = (hash_foreach t func).1 ++ rest /\
    (hash_foreach t func).2 = Zlen (hash_foreach t func).1 /\
    Forall (fun bp => func bp = true) (hash_foreach t func).1 /\
    (rest = [] \/ exists bp r, rest = bp :: r /\ func bp = false).
Proof.
  unfold hash_foreach. cbn [fst snd]. induction (buckets t) as [|b bs IH]; cbn [foreach_buckets concat].
  { exists []. split_and!; try done. by left. }
  destruct (foreach_chain func b) as [v go] eqn:E.
  destruct (foreach_chain_ok func b v go E) as (rest & -> & Hall & Hgo).
  destruct IH as (rest' & -> & _ & Hall' & Hr). destruct go.
  - subst rest. exists rest'. rewrite app_nil_r, <- app_assoc. split_and!; try done. by apply Forall_app.
  - destruct Hgo as (bp & r & -> & Hf). eexists. rewrite <- app_assoc. split_and!; try done. right. cbn. eauto.
Qed.

Lemma report_fold bs contents minlen maxlen c mn mx :
  fold_left report_step bs (contents, minlen, maxlen) = (c, mn, mx) ->
  0 <= contents -> contents + Zlen (concat bs) < 2 ^ 32 ->
  c = contents + Zlen (concat bs) /\ mn <= minlen /\ maxlen <= mx /\
  Forall (fun b => mn <= Zlen b <= mx) bs.
Proof.
  revert contents minlen maxlen. induction bs as [|b bs IH]; intros contents minlen maxlen; cbn [fold_left concat].
  { intros [= <- <- <-] _ _. unfold Zlen. cbn. split_and!; [lia..|constructor]. }
  intros H Hc Hlt. rewrite Zlen_app in *. pose proof (Zlen_nonneg b). pose proof (Zlen_nonneg (concat bs)).
  unfold report_step in H at 2. rewrite (u32_small (Zlen b)), u32_small in H by lia.
  destruct (IH _ _ _ H) as (-> & Hmn & Hmx & Hall); [lia..|].
  destruct (Z.ltb_spec (Zlen b) minlen), (Z.ltb_spec maxlen (Zlen b));
    (split_and!; [lia..|constructor; [lia|done]]).
Qed.

(** the report of a well-formed table with fewer than 2^32 entries gives
    the number of its entries and bounds of the lengths of its chains. *)
Theorem hash_report_counts t c n p mn mx :
  table_wf t -> Zlen (concat (buckets t)) < 2 ^ 32 -> hash_report t = Report c n p mn mx ->
  c = Zlen (concat (buckets t)) /\ n = Zlen (buckets t) /\
  Forall (fun b => mn <= Zlen b <= mx) (buckets t).
Proof.
  intros wf Hlt. unfold hash_report. destruct wf as [Hc Hb _]. rewrite (proj2 (Z.eqb_neq _ _)) by lia.
  rewrite take_ge by (unfold Zlen in Hb; lia).
  destruct (fold_left _ _ _) as [[contents minlen] maxlen] eqn:E.
  apply report_fold in E as (-> & _ & _ & Hall); [|lia|lia].
  cbv zeta. destruct (_ || _); [done|]. intros [= <- <- <- <- <-]. done.
Qed.

End Tables.

(** ** A table of two names *)

(** A little-endian host. *)
Definition host_le (s : list Z) : Z := be_val (rev s).

Lemma host_le_range s : length s = 4%nat -> is_bytes s -> 0 <= host_le s.
Proof. intros _ Hs. apply be_val_range. by apply Forall_rev. Qed.

Definition Foo : list Z := [70; 111; 111; 0].
Definition foo : list Z := [102; 111; 111; 0].
Definition bar : list Z := [98; 97; 114; 0].

(** Objects are numbers and their reference counts a total. *)
Definition table0 : hash_table (V:=nat) (R:=Z) :=
  HashTable 7 (Some (fun _ r => r + 1)) (Some (fun _ r => r - 1)) Case_hash
    (replicate 7 []).
Definition state0 : state (V:=nat) (R:=Z) := State table0 0 0.

Definition state1 : state (V:=nat) (R:=Z) :=
  match add_hash host_le state0 Foo 3 (Some 1%nat) true with Ret st => st | _ => state0 end.

Lemma key_Foo : key_ok Case_hash Foo 3.
Proof. split_and!; [done|vm_compute; discriminate|decide_true|done]. Qed.

Lemma key_foo : key_ok Case_hash foo 3.
Proof. split_and!; [done|vm_compute; discriminate|decide_true|done]. Qed.

Lemma wf0 : table_wf host_le table0.
Proof. apply (new_hash_wf host_le (Some (fun _ r => r + 1)) (Some (fun _ r => r - 1)) 7 Case_hash). lia. Qed.

Lemma wf1 : table_wf host_le (table state1).
Proof.
  constructor; [reflexivity|reflexivity|].
  intros i b bp Hb Hin. destruct i as [|[|[|[|[|[|[|i]]]]]]]; vm_compute in Hb; try done;
  injection Hb as <-; try (by apply not_elem_of_nil in Hin).
  apply list_elem_of_singleton in Hin as ->. split; [apply key_Foo|vm_compute; reflexivity].
Qed.

Lemma hash_respects_comparator_witness :
  exists i, do_hash host_le Case_hash Foo 3 7 = Ret i /\ do_hash host_le Case_hash foo 3 7 = Ret i /\ 0 <= i < 7.
Proof.
  apply (hash_respects_comparator host_le host_le_range table0 Foo foo 3 key_Foo key_foo); [done|vm_compute; reflexivity].
Defined.

Definition two_foos : list (operation (V:=nat)) :=
  [Add_entry Foo 3 (Some 1%nat); Add_entry foo 3 (Some 2%nat); Look_up Foo 3; Delete_entry Foo 3; Look_up foo 3; Delete_entry foo 3; Look_up foo 3].

(** Two objects under one name, in whatever case: the one added last is found, and
    the other one once it is deleted. *)
Lemma hash_table_refines_witness :
  exists st', perform host_le (State (new_hash (Some (fun _ r => r + 1)) (Some (fun _ r => r - 1)) 7 Case_hash) 0 0) two_foos =
      Ret ([Some (Some 2%nat); Some (Some 1%nat); None], st') /\ counts st' = 2.
Proof.
  destruct (hash_table_refines host_le host_le_range Case_hash (Some (fun _ r => r + 1)) (Some (fun _ r => r - 1)) 7 two_foos 0 0)
    as (st' & E & Hc & _); [lia|repeat (constructor; [first [exact key_Foo|exact key_foo]|]); constructor|].
  exists st'. split; [exact E|exact Hc].
Defined.

Lemma add_hash_pushes_witness :
  exists st', add_hash host_le state1 foo 3 (Some 2%nat) true = Ret st' /\ table_wf host_le (table st') /\
    if negb true && bool_decide (free_hash_buckets state1 = 0%nat) then st' = state1
    else same_kind (table state1) (table st') /\
      counts st' = apply_ref (referencer (table state1)) (Some 2%nat) (counts state1) /\
      forall k' l', stack (table st') k' l' =
        if bool_decide (l' = 3 /\ norm (hash (table state1)) k' 3 = norm (hash (table state1)) foo 3)
        then HashBucket foo 3 (Some 2%nat) :: stack (table state1) k' l' else stack (table state1) k' l'.
Proof. apply (add_hash_pushes host_le host_le_range state1 foo 3 (Some 2%nat) true wf1 key_foo). Defined.

Lemma delete_hash_entry_pops_witness :
  exists st', delete_hash_entry host_le state1 foo 3 = Ret st' /\ table_wf host_le (table st') /\
    match stack (table state1) foo 3 with
    | [] => st' = state1
    | bp :: _ =>
      same_kind (table state1) (table st') /\
      counts st' = apply_ref (dereferencer (table state1)) (value bp) (counts state1) /\
      free_hash_buckets st' = S (free_hash_buckets state1) /\
      forall k' l', stack (table st') k' l' =
        if bool_decide (l' = 3 /\ norm (hash (table state1)) k' 3 = norm (hash (table state1)) foo 3)
        then tail (stack (table state1) k' l') else stack (table state1) k' l'
    end.
Proof. apply (delete_hash_entry_pops host_le host_le_range state1 foo 3 wf1 key_foo). Defined.

Lemma hash_report_counts_witness :
  14 = 14 /\ 1 = Zlen (concat (buckets (table state1))) /\ 7 = Zlen (buckets (table state1)) /\
  Forall (fun b => 0 <= Zlen b <= 1) (buckets (table state1)).
Proof.
  split; [reflexivity|].
  apply (hash_report_counts host_le (table state1) 1 7 14 0 1 wf1); vm_compute; reflexivity.
Defined.

End HashTable.
