(* ===== verification/Mdb6.v ===== *)
(** * Leases of IPv6 addresses and prefixes (server/mdb6.c)

    A pool of IPv6 addresses or prefixes keeps its leases in a hash table of the
    addresses in use and in two heaps, ordered by the time at which something is
    to be done about a lease: one for the leases that are active or abandoned, one
    for all others.  A lease knows its place in the heap it is on.

    The database is a record of finite maps from pointers to objects.  Reference
    counts are kept, and an object whose count reaches zero is removed from its
    map, so that the use of a pointer to it is [Undef].  The field [heap_index] of
    the leases is the map [heap_idx] (a lease without an entry has the index -1):
    the indices that a heap operation reports through its callback are laid over
    it.  A hash table is the list of its entries, the latest first; [HashTable]
    shows that lookup and deletion find the latest entry of a key.

    [memory] says whether memory can be allocated, [md5] is the digest; what else
    the functions do (statements that are executed, updates of the DNS, writes to
    the lease file) is the log [events]. *)

From Stdlib Require Import ZArith Lia.
From stdpp Require Import base list numbers option gmap.
From S2P Require Import Prelude.
From S2P Require Import Heap.
#[local] Open Scope Z_scope.

Module Mdb6.

Import Heap.

(** ** Data *)

Inductive isc_result_t : Type :=
| R_SUCCESS | R_NOMEMORY | R_NORESOURCES | R_FAILURE | R_NOTFOUND | R_INVALIDARG.

#[export] Instance isc_result_t_eq_dec : EqDecision isc_result_t.
Proof. solve_decision. Defined.

(** [binding_state_t]; [FTS_NONE] is 0. *)
Inductive binding_state : Type :=
| FTS_NONE | FTS_FREE | FTS_ACTIVE | FTS_EXPIRED | FTS_RELEASED | FTS_ABANDONED | FTS_RESET | FTS_BACKUP.

#[export] Instance binding_state_eq_dec : EqDecision binding_state.
Proof. solve_decision. Defined.

Definition D6O_IA_NA : Z := 3.
Definition D6O_IA_TA : Z := 4.
Definition D6O_IA_PD : Z := 25.
Definition MAX_TIME : Z := 2147483647.
Definition EXPIRED_IPV6_CLEANUP_TIME : Z := 3600.
Definition EUI_64_ID_LEN : Z := 12.
Definition IAID_LEN : Z := 4.

(** A lease.  [scope], [on_expiry] and [on_release] say whether there is a binding
    scope, and statements to be executed. *)
Record iasubopt : Type := Iasubopt {
  refcnt : Z;
  addr : list Z;
  plen : Z;
  state : binding_state;
  scope : bool;
  hard_lifetime_end_time : Z;
  soft_lifetime_end_time : Z;
  ia : option Z;
  ipv6_pool_of : option Z;
  on_expiry : bool;
  on_release : bool
}.

Definition with_refcnt (l : iasubopt) n := Iasubopt n (addr l) (plen l) (state l) (scope l) (hard_lifetime_end_time l) (soft_lifetime_end_time l) (ia l) (ipv6_pool_of l) (on_expiry l) (on_release l).
Definition with_addr (l : iasubopt) a p := Iasubopt (refcnt l) a p (state l) (scope l) (hard_lifetime_end_time l) (soft_lifetime_end_time l) (ia l) (ipv6_pool_of l) (on_expiry l) (on_release l).
Definition with_state (l : iasubopt) s := Iasubopt (refcnt l) (addr l) (plen l) s (scope l) (hard_lifetime_end_time l) (soft_lifetime_end_time l) (ia l) (ipv6_pool_of l) (on_expiry l) (on_release l).
Definition with_times (l : iasubopt) h s := Iasubopt (refcnt l) (addr l) (plen l) (state l) (scope l) h s (ia l) (ipv6_pool_of l) (on_expiry l) (on_release l).
Definition with_ia (l : iasubopt) i := Iasubopt (refcnt l) (addr l) (plen l) (state l) (scope l) (hard_lifetime_end_time l) (soft_lifetime_end_time l) i (ipv6_pool_of l) (on_expiry l) (on_release l).
Definition with_pool_of (l : iasubopt) q := Iasubopt (refcnt l) (addr l) (plen l) (state l) (scope l) (hard_lifetime_end_time l) (soft_lifetime_end_time l) (ia l) q (on_expiry l) (on_release l).
Definition without_statements (l : iasubopt) := Iasubopt (refcnt l) (addr l) (plen l) (state l) false (hard_lifetime_end_time l) (soft_lifetime_end_time l) (ia l) (ipv6_pool_of l) false false.

(** An identity association.  [iasubopt_array] has [max_iasubopt] slots, of which
    [num_iasubopt] are in use. *)
Record ia_xx : Type := IaXx {
  ia_refcnt : Z;
  iaid_duid : list Z;
  ia_type : Z;
  num_iasubopt : Z;
  max_iasubopt : Z;
  iasubopt_array : list (option Z)
}.

Definition with_ia_refcnt (i : ia_xx) n := IaXx n (iaid_duid i) (ia_type i) (num_iasubopt i) (max_iasubopt i) (iasubopt_array i).
Definition with_subopts (i : ia_xx) num mx arr := IaXx (ia_refcnt i) (iaid_duid i) (ia_type i) num mx arr.

Record ipv6_pond : Type := Pond {
  pond_num_active : Z;
  pond_num_abandoned : Z;
  use_eui_64 : bool
}.

Record ipv6_pool : Type := Pool6 {
  pool_refcnt : Z;
  pool_type : Z;
  start_addr : list Z;
  bits : Z;
  units : Z;
  leases : list (list Z * Z);
  num_active : Z;
  num_abandoned : Z;
  active_timeouts : isc_heap Z;
  num_inactive : Z;
  inactive_timeouts : isc_heap Z;
  pond_of : option Z
}.

Definition with_pool_refcnt (P : ipv6_pool) n := Pool6 n (pool_type P) (start_addr P) (bits P) (units P) (leases P) (num_active P) (num_abandoned P) (active_timeouts P) (num_inactive P) (inactive_timeouts P) (pond_of P).
Definition with_leases (P : ipv6_pool) t := Pool6 (pool_refcnt P) (pool_type P) (start_addr P) (bits P) (units P) t (num_active P) (num_abandoned P) (active_timeouts P) (num_inactive P) (inactive_timeouts P) (pond_of P).
Definition with_counts (P : ipv6_pool) a b i := Pool6 (pool_refcnt P) (pool_type P) (start_addr P) (bits P) (units P) (leases P) a b (active_timeouts P) i (inactive_timeouts P) (pond_of P).

(** Which of the two heaps. *)
Inductive heap_name : Type := Active | Inactive.

Definition heap_of (k : heap_name) (P : ipv6_pool) : isc_heap Z :=
  match k with Active => active_timeouts P | Inactive => inactive_timeouts P end.

Definition with_heap (k : heap_name) (P : ipv6_pool) (h : isc_heap Z) : ipv6_pool :=
  match k with
  | Active => Pool6 (pool_refcnt P) (pool_type P) (start_addr P) (bits P) (units P) (leases P) (num_active P) (num_abandoned P) h (num_inactive P) (inactive_timeouts P) (pond_of P)
  | Inactive => Pool6 (pool_refcnt P) (pool_type P) (start_addr P) (bits P) (units P) (leases P) (num_active P) (num_abandoned P) (active_timeouts P) (num_inactive P) h (pond_of P)
  end.

(** What happens besides: statements of the configuration are executed for a
    lease, its DNS entries are removed, an identity association is written to the
    lease file, the lease file is committed, and a timer is set. *)
Inductive event : Type :=
| Executed (p : Z) (s : binding_state)
| DdnsRemovals (p : Z)
| WriteIa (i : Z)
| CommitLeases
| AddTimeout (pl time : Z).

(** The tables of the identity associations of a type. *)
Record mdb6 : Type := Mdb {
  subopts : gmap Z iasubopt;
  heap_idx : gmap Z nat;
  ias : gmap Z ia_xx;
  ponds : gmap Z ipv6_pond;
  pool_map : gmap Z ipv6_pool;
  pools : list Z;
  ia_na_active : list (list Z * Z);
  ia_ta_active : list (list Z * Z);
  ia_pd_active : list (list Z * Z);
  next_ptr : Z;
  events : list event
}.

Definition with_lease_map (w : mdb6) m x := Mdb m x (ias w) (ponds w) (pool_map w) (pools w) (ia_na_active w) (ia_ta_active w) (ia_pd_active w) (next_ptr w) (events w).
Definition with_ias (w : mdb6) m := Mdb (subopts w) (heap_idx w) m (ponds w) (pool_map w) (pools w) (ia_na_active w) (ia_ta_active w) (ia_pd_active w) (next_ptr w) (events w).
Definition with_ponds (w : mdb6) m := Mdb (subopts w) (heap_idx w) (ias w) m (pool_map w) (pools w) (ia_na_active w) (ia_ta_active w) (ia_pd_active w) (next_ptr w) (events w).
Definition with_pools (w : mdb6) m l := Mdb (subopts w) (heap_idx w) (ias w) (ponds w) m l (ia_na_active w) (ia_ta_active w) (ia_pd_active w) (next_ptr w) (events w).
Definition with_ia_tables (w : mdb6) a b c := Mdb (subopts w) (heap_idx w) (ias w) (ponds w) (pool_map w) (pools w) a b c (next_ptr w) (events w).
Definition with_next (w : mdb6) n := Mdb (subopts w) (heap_idx w) (ias w) (ponds w) (pool_map w) (pools w) (ia_na_active w) (ia_ta_active w) (ia_pd_active w) n (events w).
Definition log_event (w : mdb6) e := Mdb (subopts w) (heap_idx w) (ias w) (ponds w) (pool_map w) (pools w) (ia_na_active w) (ia_ta_active w) (ia_pd_active w) (next_ptr w) (events w ++ [e]).

(** ** Following pointers *)

Definition at_ptr {A} (m : gmap Z A) (p : Z) : outcome A :=
  match m !! p with Some x => Ret x | None => Undef end.

Definition put_lease (w : mdb6) (p : Z) (l : iasubopt) : mdb6 := with_lease_map w (<[p := l]> (subopts w)) (heap_idx w).
Definition put_ia (w : mdb6) (i : Z) (x : ia_xx) : mdb6 := with_ias w (<[i := x]> (ias w)).
Definition put_pool (w : mdb6) (q : Z) (P : ipv6_pool) : mdb6 := with_pools w (<[q := P]> (pool_map w)) (pools w).

(** [f] applied to the object. *)
Definition on_lease (w : mdb6) (p : Z) (f : iasubopt -> iasubopt) : outcome mdb6 := l ← at_ptr (subopts w) p; Ret (put_lease w p (f l)).
Definition on_pool (w : mdb6) (q : Z) (f : ipv6_pool -> ipv6_pool) : outcome mdb6 := P ← at_ptr (pool_map w) q; Ret (put_pool w q (f P)).

(** [if (pool -> ipv6_pond) pool -> ipv6_pond -> num_active += a, ... num_abandoned += b]. *)
Definition on_pond (w : mdb6) (q : option Z) (a b : Z) : outcome mdb6 :=
  match q with
  | None => Ret w
  | Some q => x ← at_ptr (ponds w) q; Ret (with_ponds w (<[q := Pond (u64 (pond_num_active x + a)) (u64 (pond_num_abandoned x + b)) (use_eui_64 x)]> (ponds w)))
  end.

(** The counts of a pool and of its pond. *)
Definition count (w : mdb6) (pl : Z) (active abandoned inactive : Z) : outcome mdb6 :=
  P ← at_ptr (pool_map w) pl;
  let w := put_pool w pl (with_counts P (u64 (num_active P + active)) (u64 (num_abandoned P + abandoned)) (s32 (num_inactive P + inactive))) in
  on_pond w (pond_of P) active abandoned.

(** ** Reference counts *)

Inductive object : Type := Subopt (p : Z) | Ia (i : Z) | Pool (q : Z).

(** The objects in turn. *)
Fixpoint in_turn {A B} (f : A -> B -> outcome B) (l : list A) (b : B) : outcome B :=
  match l with
  | [] => Ret b
  | x :: l => b ← f x b; in_turn f l b
  end.

(** [iasubopt_dereference], [ia_dereference] and [ipv6_pool_dereference].  An object
    that nothing refers to any more gives back its own references first. *)
Fixpoint dereference (fuel : nat) (o : object) (w : mdb6) {struct fuel} : outcome mdb6 :=
  match fuel with
  | O => Undef
  | S fuel =>
    match o with
    | Subopt p =>
      l ← at_ptr (subopts w) p;
      let n := Z.max 0 (refcnt l - 1) in
      let w := put_lease w p (with_refcnt l n) in
      if negb (n =? 0) then Ret w
      else
        w ← match ia l with Some i => dereference fuel (Ia i) w | None => Ret w end;
        w ← match ipv6_pool_of l with Some q => dereference fuel (Pool q) w | None => Ret w end;
        Ret (with_lease_map w (delete p (subopts w)) (delete p (heap_idx w)))
    | Ia i =>
      x ← at_ptr (ias w) i;
      let n := Z.max 0 (ia_refcnt x - 1) in
      let w := put_ia w i (with_ia_refcnt x n) in
      if negb (n =? 0) then Ret w
      else
        w ← in_turn (fun s w => match s with Some p => dereference fuel (Subopt p) w | None => Ret w end) (take (Z.to_nat (num_iasubopt x)) (iasubopt_array x)) w;
        Ret (with_ias w (delete i (ias w)))
    | Pool q =>
      P ← at_ptr (pool_map w) q;
      let n := Z.max 0 (pool_refcnt P - 1) in
      let w := put_pool w q (with_pool_refcnt P n) in
      if negb (n =? 0) then Ret w
      else
        w ← in_turn (fun e w => dereference fuel (Subopt e.2) w) (leases P) w;
        w ← in_turn (fun s w => match s with Some p => dereference fuel (Subopt p) w | None => Undef end) (contents (active_timeouts P)) w;
        w ← in_turn (fun s w => match s with Some p => dereference fuel (Subopt p) w | None => Undef end) (contents (inactive_timeouts P)) w;
        Ret (with_pools w (delete q (pool_map w)) (pools w))
    end
  end.

(** Each object that is freed is one level. *)
Definition levels (w : mdb6) : nat := S (base.size (subopts w) + base.size (ias w) + base.size (pool_map w)).

Definition iasubopt_dereference (w : mdb6) (p : Z) : outcome mdb6 := dereference (levels w) (Subopt p) w.
Definition ia_dereference (w : mdb6) (i : Z) : outcome mdb6 := dereference (levels w) (Ia i) w.
Definition ipv6_pool_dereference (w : mdb6) (q : Z) : outcome mdb6 := dereference (levels w) (Pool q) w.

Definition iasubopt_reference (w : mdb6) (p : Z) : outcome mdb6 := on_lease w p (fun l => with_refcnt l (refcnt l + 1)).
Definition ia_reference (w : mdb6) (i : Z) : outcome mdb6 := x ← at_ptr (ias w) i; Ret (put_ia w i (with_ia_refcnt x (ia_refcnt x + 1))).
Definition ipv6_pool_reference (w : mdb6) (q : Z) : outcome mdb6 := on_pool w q (fun P => with_pool_refcnt P (pool_refcnt P + 1)).

(** ** Heaps *)

(** [lease_older]: the lease that ends first. *)
Definition times (S : gmap Z iasubopt) (p : Z) : Z * Z :=
  match S !! p with Some l => (hard_lifetime_end_time l, soft_lifetime_end_time l) | None => (0, 0) end.

Definition older (a b : Z * Z) : bool := if a.1 =? b.1 then a.2 <? b.2 else a.1 <? b.1.

Definition lease_older (S : gmap Z iasubopt) (p q : Z) : bool := older (times S p) (times S q).

(** [lease_index_changed]: the indices [h] has reported are stored in the leases. *)
Definition index_changed (w : mdb6) (pl : Z) (k : heap_name) (P : ipv6_pool) (h : isc_heap Z) : mdb6 :=
  put_pool (with_lease_map w (subopts w) (heap_index h ∪ heap_idx w)) pl (with_heap k P (with_index h ∅)).

(** [lease -> heap_index]; no heap has the index 0, or -1. *)
Definition index_of (w : mdb6) (p : Z) : nat := default 0%nat (heap_idx w !! p).

Section Operations.

Context (memory : bool).

Definition heap_insert (w : mdb6) (pl : Z) (k : heap_name) (p : Z) : outcome (isc_result_t * mdb6) :=
  P ← at_ptr (pool_map w) pl;
  r ← isc_heap_insert (lease_older (subopts w)) memory (with_index (heap_of k P) ∅) p;
  Ret (match r.1 with ISC_R_SUCCESS => R_SUCCESS | ISC_R_NOMEMORY => R_NOMEMORY end, index_changed w pl k P r.2).

Definition heap_delete (w : mdb6) (pl : Z) (k : heap_name) (i : nat) : outcome mdb6 :=
  P ← at_ptr (pool_map w) pl;
  h ← isc_heap_delete (lease_older (subopts w)) (with_index (heap_of k P) ∅) i;
  Ret (index_changed w pl k P h).

Definition heap_increased (w : mdb6) (pl : Z) (k : heap_name) (i : nat) : outcome mdb6 :=
  P ← at_ptr (pool_map w) pl;
  h ← isc_heap_increased (lease_older (subopts w)) (with_index (heap_of k P) ∅) i;
  Ret (index_changed w pl k P h).

Definition heap_decreased (w : mdb6) (pl : Z) (k : heap_name) (i : nat) : outcome mdb6 :=
  P ← at_ptr (pool_map w) pl;
  h ← isc_heap_decreased (lease_older (subopts w)) (with_index (heap_of k P) ∅) i;
  Ret (index_changed w pl k P h).

(** ** Hash tables *)

(** The latest entry of a key. *)
Fixpoint entry (t : list (list Z * Z)) (a : list Z) : option Z :=
  match t with
  | [] => None
  | (b, p) :: t => if bool_decide (a = b) then Some p else entry t a
  end.

Fixpoint remove_entry (t : list (list Z * Z)) (a : list Z) : list (list Z * Z) :=
  match t with
  | [] => []
  | (b, p) :: t => if bool_decide (a = b) then t else (b, p) :: remove_entry t a
  end.

(** The lease that is found is referenced. *)
Definition iasubopt_hash_lookup (w : mdb6) (pl : Z) (a : list Z) : outcome (option Z * mdb6) :=
  P ← at_ptr (pool_map w) pl;
  match entry (leases P) a with
  | None => Ret (None, w)
  | Some p => w ← iasubopt_reference w p; Ret (Some p, w)
  end.

Definition iasubopt_hash_add (w : mdb6) (pl : Z) (a : list Z) (p : Z) : outcome mdb6 :=
  if memory then
    w ← on_pool w pl (fun P => with_leases P ((a, p) :: leases P));
    iasubopt_reference w p
  else Ret w.

Definition iasubopt_hash_delete (w : mdb6) (pl : Z) (a : list Z) : outcome mdb6 :=
  P ← at_ptr (pool_map w) pl;
  match entry (leases P) a with
  | None => Ret w
  | Some p => iasubopt_dereference (put_pool w pl (with_leases P (remove_entry (leases P) a))) p
  end.

(** [ia_hash_delete] in one of the three tables. *)
Definition ia_table (w : mdb6) (type : Z) : list (list Z * Z) :=
  if type =? D6O_IA_NA then ia_na_active w else if type =? D6O_IA_TA then ia_ta_active w else ia_pd_active w.

Definition with_ia_table (w : mdb6) (type : Z) (t : list (list Z * Z)) : mdb6 :=
  if type =? D6O_IA_NA then with_ia_tables w t (ia_ta_active w) (ia_pd_active w)
  else if type =? D6O_IA_TA then with_ia_tables w (ia_na_active w) t (ia_pd_active w)
  else with_ia_tables w (ia_na_active w) (ia_ta_active w) t.

Definition ia_hash_delete (w : mdb6) (type : Z) (key : list Z) : outcome mdb6 :=
  match entry (ia_table w type) key with
  | None => Ret w
  | Some i => ia_dereference (with_ia_table w type (remove_entry (ia_table w type) key)) i
  end.

End Operations.

(** ** Leases and identity associations *)

Section Objects.

Context (memory : bool).

Definition iasubopt_allocate (w : mdb6) : option Z * mdb6 :=
  if memory then
    (Some (next_ptr w), with_next (put_lease w (next_ptr w) (Iasubopt 1 (replicate 16 0) 255 FTS_FREE false 0 0 None None false false)) (next_ptr w + 1))
  else (None, w).

Definition ia_make_key (iaid duid : list Z) : option (list Z) := if memory then Some (iaid ++ duid) else None.

(** The type is set by the caller. *)
Definition ia_allocate (w : mdb6) (iaid duid : list Z) : option Z * mdb6 :=
  if memory then
    match ia_make_key iaid duid with
    | None => (None, w)
    | Some key => (Some (next_ptr w), with_next (put_ia w (next_ptr w) (IaXx 1 key 0 0 0 [])) (next_ptr w + 1))
    end
  else (None, w).

(** [iasubopt_reference (&slot, ...)] does nothing when the slot is not empty. *)
Definition ia_add_iasubopt (w : mdb6) (i p : Z) : outcome (isc_result_t * mdb6) :=
  x ← at_ptr (ias w) i;
  let n := num_iasubopt x in
  if (max_iasubopt x <=? n) && negb memory then Ret (R_NOMEMORY, w)
  else
    let x := if max_iasubopt x <=? n
             then with_subopts x n (max_iasubopt x + 4) (take (Z.to_nat n) (iasubopt_array x) ++ replicate (Z.to_nat (max_iasubopt x + 4 - n)) None)
             else x in
    slot ← rdA (iasubopt_array x) n;
    match slot with
    | Some _ => Ret (R_SUCCESS, put_ia w i (with_subopts x (n + 1) (max_iasubopt x) (iasubopt_array x)))
    | None =>
      arr ← wrA (iasubopt_array x) n (Some p);
      w ← iasubopt_reference (put_ia w i (with_subopts x (n + 1) (max_iasubopt x) arr)) p;
      Ret (R_SUCCESS, w)
    end.

(** The index of the first of [n] slots from [k] on that holds the lease. *)
Fixpoint find_slot (n : nat) (arr : list (option Z)) (k : nat) (p : Z) : outcome (option nat) :=
  match n with
  | O => Ret None
  | S n => s ← match arr !! k with Some s => Ret s | None => Undef end; if bool_decide (s = Some p) then Ret (Some k) else find_slot n arr (S k) p
  end.

(** [ia_dereference (&lease -> ia)]. *)
Definition drop_ia (w : mdb6) (p : Z) : outcome mdb6 :=
  l ← at_ptr (subopts w) p;
  match ia l with
  | None => Ret w
  | Some i => ia_dereference (put_lease w p (with_ia l None)) i
  end.

(** The pointers behind the slot move down by one; the last one stays where it was
    as well. *)
Definition ia_remove_iasubopt (w : mdb6) (i p : Z) : outcome mdb6 :=
  x ← at_ptr (ias w) i;
  let n := Z.to_nat (num_iasubopt x) in
  k ← find_slot n (iasubopt_array x) 0 p;
  match k with
  | None => Ret w
  | Some k =>
    let arr := take k (iasubopt_array x) ++ take (n - S k) (drop (S k) (iasubopt_array x)) ++ (if Nat.eqb (S k) n then [None] else take 1 (drop (n - 1) (iasubopt_array x))) ++ drop n (iasubopt_array x) in
    w ← iasubopt_dereference (put_ia w i (with_subopts x (num_iasubopt x) (max_iasubopt x) arr)) p;
    w ← drop_ia w p;
    x ← at_ptr (ias w) i;
    Ret (put_ia w i (with_subopts x (num_iasubopt x - 1) (max_iasubopt x) (iasubopt_array x)))
  end.

(** The association of the lease in slot [k] and the slot give up their references. *)
Definition remove_slot (i : Z) (k : nat) (w : mdb6) : outcome mdb6 :=
  x ← at_ptr (ias w) i;
  p ← match iasubopt_array x !! k with Some (Some p) => Ret p | _ => Undef end;
  w ← drop_ia w p;
  x ← at_ptr (ias w) i;
  iasubopt_dereference (put_ia w i (with_subopts x (num_iasubopt x) (max_iasubopt x) (<[k := None]> (iasubopt_array x)))) p.

Definition ia_remove_all_lease (w : mdb6) (i : Z) : outcome mdb6 :=
  x ← at_ptr (ias w) i;
  w ← in_turn (remove_slot i) (seq 0 (Z.to_nat (num_iasubopt x))) w;
  x ← at_ptr (ias w) i;
  Ret (put_ia w i (with_subopts x 0 (max_iasubopt x) (iasubopt_array x))).

(** The lease in a slot. *)
Definition lease_in (w : mdb6) (x : ia_xx) (k : nat) : outcome iasubopt :=
  match iasubopt_array x !! k with
  | Some (Some p) => at_ptr (subopts w) p
  | _ => Undef
  end.

(** Whether one of [n] slots of [b] from [j] on has the address of [la]; the lengths
    that are compared are those of the slots [i]. *)
Fixpoint equal_inner (n j : nat) (w : mdb6) (la lb : iasubopt) (b : ia_xx) : outcome bool :=
  match n with
  | O => Ret false
  | S n =>
    if negb (plen la =? plen lb) then equal_inner n (S j) w la lb b
    else
      l ← lease_in w b j;
      if bool_decide (addr la = addr l) then Ret true else equal_inner n (S j) w la lb b
  end.

Fixpoint equal_outer (n i : nat) (w : mdb6) (a b : ia_xx) : outcome bool :=
  match n with
  | O => Ret true
  | S n =>
    la ← lease_in w a i;
    lb ← lease_in w b i;
    found ← equal_inner (Z.to_nat (num_iasubopt a)) 0 w la lb b;
    if found : bool then equal_outer n (S i) w a b else Ret false
  end.

(** Only the first pointer is tested for being null. *)
Definition ia_equal (w : mdb6) (a b : option Z) : outcome bool :=
  match a with
  | None => Ret (bool_decide (b = None))
  | Some a =>
    a ← at_ptr (ias w) a;
    b ← match b with Some b => at_ptr (ias w) b | None => Undef end;
    if negb (ia_type a =? ia_type b) then Ret false
    else if negb (Zlen (iaid_duid a) =? Zlen (iaid_duid b)) then Ret false
    else if negb (bool_decide (iaid_duid a = iaid_duid b)) then Ret false
    else if negb (num_iasubopt a =? num_iasubopt b) then Ret false
    else equal_outer (Z.to_nat (num_iasubopt a)) 0 w a b
  end.

Definition ipv6_pool_allocate (w : mdb6) (type : Z) (start : list Z) (bits units : Z) : option Z * mdb6 :=
  if memory then
    match isc_heap_create memory true 0, isc_heap_create memory true 0 with
    | (ISC_R_SUCCESS, Some h1), (ISC_R_SUCCESS, Some h2) =>
      (Some (next_ptr w), with_next (put_pool w (next_ptr w) (Pool6 1 type start bits units [] 0 0 h1 0 h2 None)) (next_ptr w + 1))
    | _, _ => (None, w)
    end
  else (None, w).

Definition add_ipv6_pool (w : mdb6) (q : Z) : outcome (isc_result_t * mdb6) :=
  if memory then
    w ← ipv6_pool_reference w q;
    Ret (R_SUCCESS, with_pools w (pool_map w) (pools w ++ [q]))
  else Ret (R_NOMEMORY, w).

End Objects.

(** ** Leases of a pool *)

Section Pools.

Context (memory : bool).

Definition is_active (s : binding_state) : bool := bool_decide (s = FTS_ACTIVE) || bool_decide (s = FTS_ABANDONED).

(** The end of [add_lease6]: the lease is put into the structures. *)
Definition put_in (w : mdb6) (pl p : Z) (valid_lifetime_end_time : Z) : outcome (isc_result_t * mdb6) :=
  w ← iasubopt_reference w p;
  l ← at_ptr (subopts w) p;
  r ← if is_active (state l) then
        w ← Ret (put_lease w p (with_times l valid_lifetime_end_time (soft_lifetime_end_time l)));
        w ← iasubopt_hash_add memory w pl (addr l) p;
        r ← heap_insert memory w pl Active p;
        match r with
        | (R_SUCCESS, w) => w ← count w pl 1 (if bool_decide (state l = FTS_ABANDONED) then 1 else 0) 0; Ret (R_SUCCESS, w)
        | r => Ret r
        end
      else
        w ← Ret (put_lease w p (with_times l (hard_lifetime_end_time l) valid_lifetime_end_time));
        r ← heap_insert memory w pl Inactive p;
        match r with
        | (R_SUCCESS, w) => w ← count w pl 0 0 1; Ret (R_SUCCESS, w)
        | r => Ret r
        end;
  match r with
  | (R_SUCCESS, w) => Ret (R_SUCCESS, w)
  | (r, w) =>
    w ← iasubopt_hash_delete w pl (addr l);
    w ← iasubopt_dereference w p;
    Ret (r, w)
  end.

(** The lease [t] of the same address that is in the structures is taken out. *)
Definition take_out (w : mdb6) (pl t : Z) : outcome mdb6 :=
  lt ← at_ptr (subopts w) t;
  w ← if is_active (state lt) then
        w ← heap_delete w pl Active (index_of w t);
        count w pl (-1) (if bool_decide (state lt = FTS_ABANDONED) then -1 else 0) 0
      else
        w ← heap_delete w pl Inactive (index_of w t);
        count w pl 0 0 (-1);
  w ← iasubopt_hash_delete w pl (addr lt);
  w ← iasubopt_dereference w t;
  iasubopt_dereference w t.

Definition add_lease6 (w : mdb6) (pl p : Z) (valid_lifetime_end_time : Z) : outcome (isc_result_t * mdb6) :=
  l ← at_ptr (subopts w) p;
  let l := if bool_decide (state l = FTS_NONE) then with_state l FTS_ACTIVE else l in
  w ← match ipv6_pool_of l with
      | Some _ => Ret (put_lease w p l)
      | None => ipv6_pool_reference (put_lease w p (with_pool_of l (Some pl))) pl
      end;
  r ← iasubopt_hash_lookup w pl (addr l);
  let '(test, w) := r in
  w ← match test with Some t => take_out w pl t | None => Ret w end;
  put_in w pl p valid_lifetime_end_time.

Definition lease6_exists (w : mdb6) (pl : Z) (a : list Z) : outcome (bool * mdb6) :=
  r ← iasubopt_hash_lookup w pl a;
  match r with
  | (Some p, w) => w ← iasubopt_dereference w p; Ret (true, w)
  | (None, w) => Ret (false, w)
  end.

Definition prefix6_exists (w : mdb6) (pl : Z) (a : list Z) (len : Z) : outcome (bool * mdb6) :=
  P ← at_ptr (pool_map w) pl;
  if negb (len =? units P) then Ret (false, w) else lease6_exists w pl a.

Definition lease6_usable (w : mdb6) (p : Z) : outcome (bool * mdb6) :=
  l ← at_ptr (subopts w) p;
  pl ← match ipv6_pool_of l with Some pl => Ret pl | None => Undef end;
  r ← iasubopt_hash_lookup w pl (addr l);
  match r with
  | (Some t, w) => w ← iasubopt_dereference w t; Ret (bool_decide (t = p), w)
  | (None, w) => Ret (true, w)
  end.

Definition move_lease_to_active (w : mdb6) (pl p : Z) : outcome (isc_result_t * mdb6) :=
  let old_heap_index := index_of w p in
  r ← heap_insert memory w pl Active p;
  match r with
  | (R_SUCCESS, w) =>
    l ← at_ptr (subopts w) p;
    w ← iasubopt_hash_add memory w pl (addr l) p;
    w ← heap_delete w pl Inactive old_heap_index;
    w ← count w pl 1 0 (-1);
    w ← on_lease w p (fun l => with_state l FTS_ACTIVE);
    Ret (R_SUCCESS, w)
  | r => Ret r
  end.

Definition renew_lease6 (w : mdb6) (pl p : Z) : outcome (isc_result_t * mdb6) :=
  l ← at_ptr (subopts w) p;
  let old_end_time := hard_lifetime_end_time l in
  let w := put_lease w p (with_times l (soft_lifetime_end_time l) 0) in
  match state l with
  | FTS_ACTIVE =>
    w ← if old_end_time <=? soft_lifetime_end_time l then heap_decreased w pl Active (index_of w p) else heap_increased w pl Active (index_of w p);
    Ret (R_SUCCESS, w)
  | FTS_ABANDONED =>
    w ← on_lease w p (fun l => with_state l FTS_ACTIVE);
    w ← heap_increased w pl Active (index_of w p);
    w ← count w pl 0 (-1) 0;
    Ret (R_SUCCESS, w)
  | _ => move_lease_to_active w pl p
  end.

Definition move_lease_to_inactive (w : mdb6) (pl p : Z) (s : binding_state) : outcome (isc_result_t * mdb6) :=
  let old_heap_index := index_of w p in
  r ← heap_insert memory w pl Inactive p;
  match r with
  | (R_SUCCESS, w) =>
    l ← at_ptr (subopts w) p;
    P ← at_ptr (pool_map w) pl;
    let w := if on_expiry l && bool_decide (s = FTS_EXPIRED) then log_event w (Executed p s) else w in
    let w := if on_release l && bool_decide (s = FTS_RELEASED) then log_event w (Executed p s) else w in
    let w := if negb (pool_type P =? D6O_IA_PD) then log_event w (DdnsRemovals p) else w in
    let w := put_lease w p (without_statements l) in
    w ← iasubopt_hash_delete w pl (addr l);
    w ← heap_delete w pl Active old_heap_index;
    w ← on_lease w p (fun l => with_state l s);
    w ← count w pl (-1) (if bool_decide (s = FTS_ABANDONED) then -1 else 0) 1;
    Ret (R_SUCCESS, w)
  | r => Ret r
  end.

(** [expire_lease6]: the lease that has expired, with a reference to it. *)
Definition expire_lease6 (w : mdb6) (pl now : Z) : outcome (isc_result_t * option Z * mdb6) :=
  P ← at_ptr (pool_map w) pl;
  if 0 <? num_active P then
    p ← isc_heap_element (active_timeouts P) 1;
    l ← at_ptr (subopts w) p;
    if hard_lifetime_end_time l <? now then
      r ← move_lease_to_inactive w pl p FTS_EXPIRED;
      match r with
      | (R_SUCCESS, w) => w ← iasubopt_reference w p; Ret (R_SUCCESS, Some p, w)
      | (r, w) => Ret (r, None, w)
      end
    else Ret (R_SUCCESS, None, w)
  else Ret (R_SUCCESS, None, w).

Definition decline_lease6 (w : mdb6) (pl p : Z) : outcome (isc_result_t * mdb6) :=
  l ← at_ptr (subopts w) p;
  r ← if negb (is_active (state l)) then move_lease_to_active w pl p else Ret (R_SUCCESS, w);
  match r with
  | (R_SUCCESS, w) =>
    w ← on_lease w p (fun l => with_state l FTS_ABANDONED);
    w ← count w pl 0 1 0;
    w ← on_lease w p (fun l => with_times l MAX_TIME (soft_lifetime_end_time l));
    w ← heap_decreased w pl Active (index_of w p);
    Ret (R_SUCCESS, w)
  | r => Ret r
  end.

Definition release_lease6 (w : mdb6) (pl p : Z) : outcome (isc_result_t * mdb6) :=
  l ← at_ptr (subopts w) p;
  match state l with
  | FTS_ACTIVE => move_lease_to_inactive w pl p FTS_RELEASED
  | _ => Ret (R_SUCCESS, w)
  end.

(** The reference of the function itself is not given back. *)
Definition mark_lease_unavailable (w : mdb6) (pl : Z) (a : list Z) : outcome (isc_result_t * mdb6) :=
  match iasubopt_allocate memory w with
  | (None, w) => Ret (R_NOMEMORY, w)
  | (Some p, w) =>
    w ← on_lease w p (fun l => with_addr l a (plen l));
    w ← iasubopt_hash_add memory w pl a p;
    Ret (R_SUCCESS, w)
  end.

(** [cleanup_lease6]: the lease [p] of the association [i] is about to be read from
    the lease file. *)
Definition cleanup_lease6 (w : mdb6) (type pl p i : Z) : outcome (isc_result_t * mdb6) :=
  l ← at_ptr (subopts w) p;
  r ← iasubopt_hash_lookup w pl (addr l);
  match r with
  | (None, w) => Ret (R_SUCCESS, w)
  | (Some t, w) =>
    lt ← at_ptr (subopts w) t;
    match ia lt with
    | None => w ← iasubopt_dereference w t; Ret (R_SUCCESS, w)
    | Some o =>
      w ← ia_reference w o;
      old ← at_ptr (ias w) o;
      new ← at_ptr (ias w) i;
      let same := bool_decide (iaid_duid old = iaid_duid new) in
      let act := is_active (state l) in
      if Bool.eqb same act then
        w ← ia_dereference w o;
        w ← iasubopt_dereference w t;
        Ret (R_SUCCESS, w)
      else
        w ← heap_delete w pl Active (index_of w t);
        w ← count w pl (-1) (if bool_decide (state l = FTS_ABANDONED) then -1 else 0) 0;
        w ← iasubopt_hash_delete w pl (addr lt);
        w ← ia_remove_iasubopt w o t;
        old ← at_ptr (ias w) o;
        w ← if num_iasubopt old <=? 0 then ia_hash_delete w type (iaid_duid old) else Ret w;
        w ← iasubopt_dereference w t;
        w ← ia_dereference w o;
        w ← iasubopt_dereference w t;
        Ret (if same then R_SUCCESS else R_FAILURE, w)
    end
  end.

End Pools.

(** ** Time *)

Section Timeouts.

Context (memory : bool).

(** The end of the association of a lease that is cleaned up.  The association is
    looked up in the table of its type; [ia_hash_lookup (...) == 0] and
    [ia_active == ia] do not hold together, so that it is not deleted, and when it
    is found it is referenced. *)
Definition forget_ia (w : mdb6) (i : Z) : outcome mdb6 :=
  x ← at_ptr (ias w) i;
  if (num_iasubopt x <=? 0) && ((ia_type x =? D6O_IA_NA) || (ia_type x =? D6O_IA_TA) || (ia_type x =? D6O_IA_PD)) then
    match entry (ia_table w (ia_type x)) (iaid_duid x) with
    | Some j => ia_reference w j
    | None => Ret w
    end
  else Ret w.

(** The loop of [cleanup_old_expired]. *)
Fixpoint cleanup_old_expired (fuel : nat) (w : mdb6) (pl cur_time : Z) : outcome mdb6 :=
  P ← at_ptr (pool_map w) pl;
  if 0 <? num_inactive P then
    match fuel with
    | O => Undef
    | S fuel =>
      p ← isc_heap_element (inactive_timeouts P) 1;
      l ← at_ptr (subopts w) p;
      let timeout := if negb (hard_lifetime_end_time l =? 0) then hard_lifetime_end_time l + EXPIRED_IPV6_CLEANUP_TIME else soft_lifetime_end_time l in
      if cur_time <? timeout then Ret w
      else
        w ← heap_delete w pl Inactive (index_of w p);
        w ← count w pl 0 0 (-1);
        w ← match ia l with
            | None => Ret w
            | Some i =>
              w ← ia_reference w i;
              w ← ia_remove_iasubopt w i p;
              w ← forget_ia w i;
              ia_dereference w i
            end;
        w ← iasubopt_dereference w p;
        cleanup_old_expired fuel w pl cur_time
    end
  else Ret w.

(** The loop of [lease_timeout_support]. *)
Fixpoint expire_loop (fuel : nat) (w : mdb6) (pl cur_time : Z) : outcome mdb6 :=
  r ← expire_lease6 memory w pl cur_time;
  match r with
  | (R_SUCCESS, Some p, w) =>
    match fuel with
    | O => Undef
    | S fuel =>
      l ← at_ptr (subopts w) p;
      i ← match ia l with Some i => Ret i | None => Undef end;
      w ← iasubopt_dereference (log_event w (WriteIa i)) p;
      expire_loop fuel w pl cur_time
    end
  | (_, _, w) => Ret w
  end.

(** [schedule_lease_timeout]; the timer of a pool that was set before is replaced. *)
Definition schedule_lease_timeout (w : mdb6) (pl : Z) : outcome mdb6 :=
  P ← at_ptr (pool_map w) pl;
  next ← if 0 <? num_active P then
           p ← isc_heap_element (active_timeouts P) 1;
           l ← at_ptr (subopts w) p;
           Ret (if hard_lifetime_end_time l <? MAX_TIME then hard_lifetime_end_time l + 1 else MAX_TIME)
         else Ret MAX_TIME;
  next ← if 0 <? num_inactive P then
           p ← isc_heap_element (inactive_timeouts P) 1;
           l ← at_ptr (subopts w) p;
           let timeout := if negb (hard_lifetime_end_time l =? 0) then hard_lifetime_end_time l + EXPIRED_IPV6_CLEANUP_TIME else soft_lifetime_end_time l + 1 in
           Ret (if timeout <? next then timeout else next)
         else Ret next;
  Ret (if next <? MAX_TIME then log_event w (AddTimeout pl next) else w).

Definition schedule_all_ipv6_lease_timeouts (w : mdb6) : outcome mdb6 :=
  in_turn (fun pl w => schedule_lease_timeout w pl) (pools w) w.

(** One turn per lease is enough. *)
Definition lease_timeout_support (w : mdb6) (pl cur_time : Z) : outcome mdb6 :=
  P ← at_ptr (pool_map w) pl;
  w ← expire_loop (last (active_timeouts P)) w pl cur_time;
  let w := log_event w CommitLeases in
  P ← at_ptr (pool_map w) pl;
  w ← cleanup_old_expired (last (inactive_timeouts P)) w pl cur_time;
  schedule_lease_timeout w pl.

End Timeouts.

(** ** Addresses *)

Section Addresses.

(** The octets [isc_md5_final] gives for an input. *)
Context (md5 : list Z -> list Z).

(** The octet [a] with its first [r] bits from [b]; [r] is from 0 to 7, and for 0
    the octet is not touched. *)
Definition merge_octet (r a b : Z) : Z := Z.lor (Z.land a (2 ^ (8 - r) - 1)) (Z.land b (256 - 2 ^ (8 - r))).

(** The first [n] bits of [net] over those of [str]. *)
Definition copy_network (str net : list Z) (n : Z) : outcome (list Z) :=
  let net_bytes := n / 8 in
  x ← memread net 0 net_bytes;
  str ← memcpy str 0 x;
  if n mod 8 =? 0 then Ret str
  else
    a ← rd str net_bytes;
    b ← rd net net_bytes;
    wr str net_bytes (merge_octet (n mod 8) a b).

Definition build_address6 (net_start_addr : list Z) (net_bits : Z) (input : list Z) : outcome (list Z) :=
  str ← copy_network (md5 input) net_start_addr net_bits;
  if net_bits =? 64 then x ← rd str 8; wr str 8 (Z.land x 253) else Ret str.

(** The remaining bits are zero. *)
Definition build_prefix6 (net_start_pref : list Z) (pool_bits pref_bits : Z) (input : list Z) : outcome (list Z) :=
  str ← copy_network (md5 input) net_start_pref pool_bits;
  let net_bytes := pref_bits / 8 in
  str ← memcpy str (Z.min 16 (net_bytes + 1)) (replicate (Z.to_nat (15 - net_bytes)) 0);
  x ← rd str net_bytes;
  wr str net_bytes (Z.land x (256 - 2 ^ (8 - pref_bits mod 8))).

(** The static variables of [build_temporary6]. *)
Record temporary6 : Type := Temporary { history : list Z; counter : Z }.

(** [random] are the two numbers of [isc_random_get].  A network of 64 bits is
    copied as octets; for others the digest is cut to what is left. *)
Definition build_temporary6 (random : list Z) (t : temporary6) (net_start_addr : list Z) (net_bits : Z) (input : list Z) : outcome (list Z * temporary6) :=
  let seed := if counter t =? 0 then random else history t in
  let md := md5 (seed ++ input) in
  a ← if net_bits =? 64 then
        x ← memread net_start_addr 0 8;
        y ← memread md 0 8;
        z ← rd y 0;
        y ← wr y 0 (Z.land z 253);
        Ret (x ++ y)
      else
        let net_bytes := net_bits / 8 in
        x ← memread net_start_addr 0 net_bytes;
        y ← memread md 0 (16 - net_bytes);
        let str := x ++ y in
        if net_bits mod 8 =? 0 then Ret str
        else
          a ← rd str net_bytes;
          b ← rd net_start_addr net_bytes;
          wr str net_bytes (merge_octet (net_bits mod 8) a b);
  h ← memread md 8 8;
  Ret (a, Temporary h (u32 (counter t + 1))).

Definition valid_eui_64_duid (uid : list Z) (offset : Z) : bool :=
  if Zlen uid =? offset + EUI_64_ID_LEN then
    bool_decide (take 4 (drop (Z.to_nat offset) uid) = [0; 3; 0; 27])
  else false.

Definition build_address6_eui_64 (net_start_addr : list Z) (net_bits : Z) (iaid_duid : list Z) (duid_beg : Z) : outcome (option (list Z)) :=
  if negb (net_bits =? 64) then Ret None
  else if valid_eui_64_duid iaid_duid duid_beg then
    x ← memread net_start_addr 0 8;
    y ← memread iaid_duid (duid_beg + 4) 8;
    z ← rd y 0;
    y ← wr y 0 (Z.lor z 2);
    Ret (Some (x ++ y))
  else Ret None.

Definition valid_for_eui_64_pool (w : mdb6) (pl : Z) (uid : list Z) (duid_beg : Z) (ia_addr : list Z) : outcome bool :=
  P ← at_ptr (pool_map w) pl;
  q ← match pond_of P with Some q => at_ptr (ponds w) q | None => Undef end;
  if negb (use_eui_64 q) then Ret false
  else if negb (valid_eui_64_duid uid duid_beg) then Ret false
  else
    a ← build_address6_eui_64 (start_addr P) (bits P) uid duid_beg;
    Ret (bool_decide (ia_addr = default (replicate 16 0) a)).

(** Interface identifiers that are reserved: the subnet router anycast address and
    the subnet anycast addresses. *)
Definition reserved_iid (a : list Z) : bool :=
  let iid := drop 8 a in
  bool_decide (iid = replicate 8 0) ||
  (bool_decide (take 7 iid = [253; 255; 255; 255; 255; 255; 255]) && (Z.land (default 0 (a !! 15%nat)) 128 =? 128)).

Context (memory : bool) (random : list Z).

(** A new lease of the address is put into the pool; the reference to it is the
    caller's. *)
Definition new_lease (w : mdb6) (pl : Z) (a : list Z) (len : Z) (soft_lifetime_end_time : Z) : outcome (isc_result_t * option Z * mdb6) :=
  match iasubopt_allocate memory w with
  | (None, w) => Ret (R_NOMEMORY, None, w)
  | (Some p, w) =>
    w ← on_lease w p (fun l => with_addr l a len);
    r ← add_lease6 memory w pl p soft_lifetime_end_time;
    let '(result, w) := r in
    w ← if bool_decide (result = R_SUCCESS) then iasubopt_reference w p else Ret w;
    w ← iasubopt_dereference w p;
    Ret (result, if bool_decide (result = R_SUCCESS) then Some p else None, w)
  end.

(** The loop of [create_lease6]: [ds] is the input of the digest and [n] the number
    of attempts that are left.  The result has the number of attempts made. *)
Fixpoint create_loop (n : nat) (attempts : Z) (w : mdb6) (t : temporary6) (pl : Z) (ds : list Z)
  : outcome (isc_result_t * list Z * Z * mdb6 * temporary6) :=
  let attempts := attempts + 1 in
  match n with
  | O => Ret (R_NORESOURCES, [], attempts, w, t)
  | S n =>
    P ← at_ptr (pool_map w) pl;
    if (pool_type P =? D6O_IA_NA) || (pool_type P =? D6O_IA_TA) then
      r ← if pool_type P =? D6O_IA_NA then a ← build_address6 (start_addr P) (bits P) ds; Ret (a, t)
          else build_temporary6 random t (start_addr P) (bits P) ds;
      let '(a, t) := r in
      if reserved_iid a then if memory then create_loop n attempts w t pl (ds ++ a) else Ret (R_NOMEMORY, [], attempts, w, t)
      else
        r ← iasubopt_hash_lookup w pl a;
        match r with
        | (None, w) => Ret (R_SUCCESS, a, attempts, w, t)
        | (Some x, w) =>
          w ← iasubopt_dereference w x;
          if memory then create_loop n attempts w t pl (ds ++ a) else Ret (R_NOMEMORY, [], attempts, w, t)
        end
    else Ret (R_INVALIDARG, [], attempts, w, t)
  end.

Definition create_lease6 (w : mdb6) (t : temporary6) (pl : Z) (uid : list Z) (soft_lifetime_end_time : Z)
  : outcome (isc_result_t * option Z * Z * mdb6 * temporary6) :=
  r ← create_loop 100 0 w t pl uid;
  match r with
  | (R_SUCCESS, a, attempts, w, t) =>
    r ← new_lease w pl a 0 soft_lifetime_end_time;
    let '(result, p, w) := r in
    Ret (result, p, attempts, w, t)
  | (result, _, attempts, w, t) => Ret (result, None, attempts, w, t)
  end.

Fixpoint create_prefix_loop (n : nat) (attempts : Z) (w : mdb6) (pl : Z) (ds : list Z) : outcome (isc_result_t * list Z * Z * mdb6) :=
  let attempts := attempts + 1 in
  match n with
  | O => Ret (R_NORESOURCES, [], attempts, w)
  | S n =>
    P ← at_ptr (pool_map w) pl;
    a ← build_prefix6 (start_addr P) (bits P) (units P) ds;
    r ← iasubopt_hash_lookup w pl a;
    match r with
    | (None, w) => Ret (R_SUCCESS, a, attempts, w)
    | (Some x, w) =>
      w ← iasubopt_dereference w x;
      if memory then create_prefix_loop n attempts w pl (ds ++ a) else Ret (R_NOMEMORY, [], attempts, w)
    end
  end.

Definition create_prefix6 (w : mdb6) (pl : Z) (uid : list Z) (soft_lifetime_end_time : Z)
  : outcome (isc_result_t * option Z * Z * mdb6) :=
  r ← create_prefix_loop 10 0 w pl uid;
  match r with
  | (R_SUCCESS, a, attempts, w) =>
    P ← at_ptr (pool_map w) pl;
    r ← new_lease w pl a (u8 (units P)) soft_lifetime_end_time;
    let '(result, p, w) := r in
    Ret (result, p, attempts, w)
  | (result, _, attempts, w) => Ret (result, None, attempts, w)
  end.

Definition create_lease6_eui_64 (w : mdb6) (pl : Z) (uid : list Z) (soft_lifetime_end_time : Z) : outcome (isc_result_t * option Z * mdb6) :=
  P ← at_ptr (pool_map w) pl;
  if negb (pool_type P =? D6O_IA_NA) then Ret (R_INVALIDARG, None, w)
  else
    a ← build_address6_eui_64 (start_addr P) (bits P) uid IAID_LEN;
    match a with
    | None => Ret (R_FAILURE, None, w)
    | Some a =>
      if reserved_iid a then Ret (R_FAILURE, None, w)
      else
        r ← iasubopt_hash_lookup w pl a;
        match r with
        | (None, w) => new_lease w pl a 0 soft_lifetime_end_time
        | (Some x, w) =>
          l ← at_ptr (subopts w) x;
          ours ← match ia l with
                 | None => Ret false
                 | Some i => y ← at_ptr (ias w) i; Ret (bool_decide (iaid_duid y = uid))
                 end;
          w ← iasubopt_dereference w x;
          if ours : bool then new_lease w pl a 0 soft_lifetime_end_time else Ret (R_FAILURE, None, w)
        end
    end.

End Addresses.

(** ** Pools of addresses *)

(** [bitmasks]. *)
Definition bitmasks : list Z := [0; 254; 252; 248; 240; 224; 192; 128].

(** [ipv6_network_portion]: the address with all bits but the first [bits] zero. *)
Definition ipv6_network_portion (a : list Z) (bits : Z) : outcome (list Z) :=
  if (bits <? 0) || (128 <? bits) then Fatal
  else
    let mask_bits := 128 - bits in
    let bytes := mask_bits / 8 in
    let extra_bits := mask_bits mod 8 in
    a ← memcpy a (16 - bytes) (replicate (Z.to_nat bytes) 0);
    if extra_bits =? 0 then Ret a
    else
      x ← rd a (15 - bytes);
      m ← rd bitmasks extra_bits;
      wr a (15 - bytes) (Z.land x m).

Definition ipv6_in_pool (a : list Z) (P : ipv6_pool) : outcome bool :=
  t ← ipv6_network_portion a (bits P);
  Ret (bool_decide (t = start_addr P)).

(** [find_ipv6_pool]: the pool is referenced. *)
Fixpoint find_pool_loop (qs : list Z) (w : mdb6) (type : Z) (a : list Z) : outcome (option Z) :=
  match qs with
  | [] => Ret None
  | q :: qs =>
    P ← at_ptr (pool_map w) q;
    if negb (pool_type P =? type) then find_pool_loop qs w type a
    else
      b ← ipv6_in_pool a P;
      if b : bool then Ret (Some q) else find_pool_loop qs w type a
  end.

Definition find_ipv6_pool (w : mdb6) (type : Z) (a : list Z) : outcome (option Z * mdb6) :=
  q ← find_pool_loop (pools w) w type a;
  match q with
  | None => Ret (None, w)
  | Some q => w ← ipv6_pool_reference w q; Ret (Some q, w)
  end.

(** One lease of [change_leases].  The reference to the pool is not given back. *)
Definition change_one (change_func : mdb6 -> Z -> Z -> outcome (isc_result_t * mdb6)) (i : Z) (k : nat) (r : isc_result_t * mdb6) : outcome (isc_result_t * mdb6) :=
  let '(retval, w) := r in
  x ← at_ptr (ias w) i;
  p ← match iasubopt_array x !! k with Some (Some p) => Ret p | _ => Undef end;
  l ← at_ptr (subopts w) p;
  q ← find_ipv6_pool w (ia_type x) (addr l);
  match q with
  | (None, w) => Ret (retval, w)
  | (Some q, w) =>
    r ← change_func w q p;
    let '(renew_retval, w) := r in
    Ret (if bool_decide (renew_retval = R_SUCCESS) then retval else renew_retval, w)
  end.

Definition change_leases (change_func : mdb6 -> Z -> Z -> outcome (isc_result_t * mdb6)) (w : mdb6) (i : Z) : outcome (isc_result_t * mdb6) :=
  x ← at_ptr (ias w) i;
  in_turn (change_one change_func i) (seq 0 (Z.to_nat (num_iasubopt x))) (R_SUCCESS, w).

Definition renew_leases (memory : bool) := change_leases (renew_lease6 memory).
Definition release_leases (memory : bool) := change_leases (release_lease6 memory).
Definition decline_leases (memory : bool) := change_leases (decline_lease6 memory).

(** An address is marked in the pool of a type that holds it. *)
Definition mark_in (memory : bool) (type : Z) (a : list Z) (w : mdb6) : outcome mdb6 :=
  q ← find_ipv6_pool w type a;
  match q with
  | (None, w) => Ret w
  | (Some q, w) => r ← mark_lease_unavailable memory w q a; ipv6_pool_dereference r.2 q
  end.

(** [mark_hosts_unavailable_support] for a host with the address [fixed_addr]. *)
Definition mark_hosts_unavailable_support (memory : bool) (fixed_addr : list Z) (w : mdb6) : outcome mdb6 :=
  if negb (Zlen fixed_addr =? 16) then Ret w
  else w ← mark_in memory D6O_IA_NA fixed_addr w; mark_in memory D6O_IA_TA fixed_addr w.

(** [mark_phosts_unavailable_support] for a host with the prefixes [l], each with its
    length. *)
Definition mark_phosts_unavailable_support (memory : bool) (l : list (list Z * Z)) (w : mdb6) : outcome mdb6 :=
  in_turn (fun x w =>
    if negb (Zlen x.1 =? 16) then Ret w
    else
      q ← find_ipv6_pool w D6O_IA_PD x.1;
      match q with
      | (None, w) => Ret w
      | (Some q, w) =>
        P ← at_ptr (pool_map w) q;
        w ← if negb (x.2 =? units P) then Ret w else r ← mark_lease_unavailable memory w q x.1; Ret r.2;
        ipv6_pool_dereference w q
      end) l w.

(** [mark_interfaces_unavailable] for the addresses of the interfaces. *)
Definition mark_interfaces_unavailable (memory : bool) (v6addresses : list (list Z)) (w : mdb6) : outcome mdb6 :=
  in_turn (fun a w => w ← mark_in memory D6O_IA_NA a w; mark_in memory D6O_IA_TA a w) v6addresses w.

(** ** Examples *)

(** A pool of addresses, one of a pond, that the array of the pools refers to. *)
Definition pool0 : ipv6_pool := Pool6 2 D6O_IA_NA ([32; 1; 13; 184] ++ replicate 12 0) 64 0 [] 0 0 (IscHeap 0 1024 0 [] true ∅) 0 (IscHeap 0 1024 0 [] true ∅) (Some 9).
Definition mdb0 : mdb6 := Mdb ∅ ∅ ∅ {[9 := Pond 0 0 false]} {[5 := pool0]} [5] [] [] [] 100 [].

(** A lease of the address that ends in [n], offered until [t]. *)
Definition offer (n t : Z) (w : mdb6) : outcome mdb6 := r ← new_lease true w 5 ([32; 1; 13; 184] ++ replicate 11 0 ++ [n]) 0 t; Ret r.2.

(** What the server does for a lease it renews: the end of the lease is in
    [soft_lifetime_end_time] when [renew_lease6] is called. *)
Definition commit (p t : Z) (w : mdb6) : outcome mdb6 :=
  w ← on_lease w p (fun l => with_times l (hard_lifetime_end_time l) t); r ← renew_lease6 true w 5 p; Ret r.2.

Definition release (p : Z) (w : mdb6) : outcome mdb6 := r ← release_lease6 true w 5 p; Ret r.2.

(** The times of the leases on the inactive heap, in the order of the array. *)
Definition inactive_times (w : mdb6) : list (Z * Z) :=
  match pool_map w !! 5 with Some P => map (fun s => match s with Some p => times (subopts w) p | None => (0, 0) end) (contents (inactive_timeouts P)) | None => [] end.

(** Of three leases that are offered the first is taken.  Its times are changed before
    it is deleted from the heap; the third one is put at the root, above the second
    one, which ends before it. *)
Example activation_loses_order :
  (w ← in_turn (fun x => offer x.1 x.2) [(1, 10); (2, 20); (3, 30)] mdb0; w ← commit 100 500 w; Ret (inactive_times w)) = Ret [(0, 30); (0, 20)].
Proof. by vm_compute. Qed.

(** The offer that has ended at 20 is then not cleaned up at 25. *)
Example offer_outlives :
  (w ← in_turn (fun x => offer x.1 x.2) [(1, 10); (2, 20); (3, 30)] mdb0; w ← commit 100 500 w; w ← lease_timeout_support true w 5 25; Ret (inactive_times w, events w)) =
  Ret ([(0, 30); (0, 20)], [CommitLeases; AddTimeout 5 31]).
Proof. by vm_compute. Qed.

(** With leases of different lengths an assertion of the heap fails when a lease is
    taken: the server ends. *)
Example activation_aborts :
  (w ← in_turn (fun x => offer x.1 x.2) [(1, 10); (2, 50); (3, 20); (4, 60); (5, 70); (6, 30); (7, 5)] mdb0;
   w ← commit 106 400 w; w ← release 106 w; w ← commit 101 500 w;
   w ← offer 8 80 w; w ← commit 107 380 w; w ← release 107 w;
   commit 103 350 w) = Fatal.
Proof. by vm_compute. Qed.

(** A lease for an address that has been marked as unavailable: the mark is on neither
    heap, and the assertion on its index fails. *)
Example marked_address_aborts :
  let a := [32; 1; 13; 184] ++ replicate 11 0 ++ [1] in
  (r ← mark_lease_unavailable true mdb0 5 a; r ← new_lease true r.2 5 a 0 10; Ret r.1) = Fatal.
Proof. by vm_compute. Qed.

(** A lease that is declined twice is counted twice, and stays counted once when it
    is renewed. *)
Example declined_twice :
  (w ← offer 1 10 mdb0; w ← commit 100 500 w; r ← decline_lease6 true w 5 100; r ← decline_lease6 true r.2 5 100; w ← commit 100 600 r.2;
   P ← at_ptr (pool_map w) 5; Ret (num_active P, num_abandoned P)) = Ret (1, 1).
Proof. by vm_compute. Qed.

(** An association with two leases: after the first one has been removed, a third one
    that is added is not stored; the second one is there twice. *)
Example removed_slot_not_empty :
  (w ← offer 1 10 mdb0; w ← offer 2 20 w; w ← offer 3 30 w;
   let '(i, w) := ia_allocate true w [0; 0; 0; 1] [7] in
   r ← ia_add_iasubopt true w 103 100; r ← ia_add_iasubopt true r.2 103 101;
   w ← ia_remove_iasubopt r.2 103 100;
   r ← ia_add_iasubopt true w 103 102;
   x ← at_ptr (ias r.2) 103; Ret (i, r.1, num_iasubopt x, iasubopt_array x)) = Ret (Some 103, R_SUCCESS, 2, [Some 101; Some 101; None; None]).
Proof. by vm_compute. Qed.

(** Each lease that is renewed through [renew_leases] leaves a reference to its pool. *)
Example renew_leases_leaks :
  (w ← offer 1 10 mdb0;
   let '(i, w) := ia_allocate true w [0; 0; 0; 1] [7] in
   r ← ia_add_iasubopt true w 101 100;
   x ← at_ptr (ias r.2) 101; let w := put_ia r.2 101 (IaXx 1 (iaid_duid x) D6O_IA_NA 1 4 (iasubopt_array x)) in
   P ← at_ptr (pool_map w) 5; r ← renew_leases true w 101; Q ← at_ptr (pool_map r.2) 5; Ret (pool_refcnt P, pool_refcnt Q)) = Ret (3, 4).
Proof. by vm_compute. Qed.

End Mdb6.
