(* ===== verification/Mdb6Pool.v ===== *)
(** * The pools of IPv6 leases are consistent (server/mdb6.c)

    The invariant of a pool of [Mdb6], and that the operations keep it: a lease is
    on the heap of its state, the heap knows its place, the table of the addresses
    leads to the lease that uses an address, the counts are right and the references
    that the pool holds are counted. *)

From Stdlib Require Import ZArith Lia.
From stdpp Require Import base list numbers option gmap.
From S2P Require Import Prelude.
From S2P Require Import Heap.
From S2P Require Import Mdb6.
#[local] Open Scope Z_scope.

Module Mdb6Pool.

Import Heap.
Import Mdb6.

(** ** The invariant of a pool *)

#[export] Instance lease_older_order S : PriorityOrder (lease_older S).
Proof.
  split; unfold lease_older, older.
  - intros x y. destruct (times S x) as [a b], (times S y) as [c d]. cbn [fst snd]. repeat case_match; rewrite ?Z.eqb_eq, ?Z.eqb_neq, ?Z.ltb_lt, ?Z.ltb_ge in *; lia.
  - intros x y z. destruct (times S x) as [a b], (times S y) as [c d], (times S z) as [e f]. cbn [fst snd]. repeat case_match; rewrite ?Z.eqb_eq, ?Z.eqb_neq, ?Z.ltb_lt, ?Z.ltb_ge in *; lia.
Qed.

Definition on_heap (h : isc_heap Z) (p : Z) : Prop := Some p ∈ contents h.

#[export] Instance on_heap_dec h p : Decision (on_heap h p).
Proof. unfold on_heap. apply _. Defined.

(** One, if it holds. *)
Definition ind (Q : Prop) {d : Decision Q} : Z := if decide Q then 1 else 0.

(** The references that the structures of a pool hold to a lease. *)
Definition held (P : ipv6_pool) (p : Z) : Z :=
  ind (p ∈ (leases P).*2) + ind (on_heap (active_timeouts P) p) + ind (on_heap (inactive_timeouts P) p).

Lemma ind_ext (Q R : Prop) {d : Decision Q} {e : Decision R} : (Q <-> R) -> ind Q = ind R.
Proof. intros E. unfold ind. by destruct (decide Q), (decide R); naive_solver. Qed.

Lemma ind_true (Q : Prop) {d : Decision Q} : Q -> ind Q = 1.
Proof. intros E. unfold ind. by destruct (decide Q). Qed.

Lemma ind_false (Q : Prop) {d : Decision Q} : ~ Q -> ind Q = 0.
Proof. intros E. unfold ind. by destruct (decide Q). Qed.

Lemma ind_bounds (Q : Prop) {d : Decision Q} : 0 <= ind Q <= 1.
Proof. unfold ind. destruct (decide Q); lia. Qed.

(** A lease that is in use: its address leads to it. *)
Definition active_lease (P : ipv6_pool) (p : Z) (l : iasubopt) : Prop :=
  is_active (state l) = true /\ entry (leases P) (addr l) = Some p /\ soft_lifetime_end_time l = 0 /\
  hard_lifetime_end_time l <= MAX_TIME /\ (state l = FTS_ABANDONED -> hard_lifetime_end_time l = MAX_TIME).

Record pool_ok (S : gmap Z iasubopt) (X : gmap Z nat) (P : ipv6_pool) : Prop := PoolOk {
  ok_active : heap_ok (lease_older S) (with_index (active_timeouts P) X);
  ok_active_index : has_index (active_timeouts P) = true;
  ok_inactive : heap_shape (with_index (inactive_timeouts P) X);
  ok_inactive_index : has_index (inactive_timeouts P) = true;
  ok_in_use : forall p, on_heap (active_timeouts P) p -> exists l, S !! p = Some l /\ active_lease P p l;
  ok_not_in_use : forall p, on_heap (inactive_timeouts P) p -> exists l, S !! p = Some l /\ is_active (state l) = false /\ p ∉ (leases P).*2;
  ok_table : NoDup (leases P).*1;
  ok_entries : forall a p, (a, p) ∈ leases P -> exists l, S !! p = Some l /\ addr l = a /\ (on_heap (active_timeouts P) p \/ is_active (state l) = false);
  ok_num_active : num_active P = Z.of_nat (last (active_timeouts P));
  ok_num_inactive : num_inactive P = Z.of_nat (last (inactive_timeouts P));
  ok_held : forall p l, S !! p = Some l -> held P p <= refcnt l
}.

Lemma on_heap_length (h : isc_heap Z) : heap_shape h -> length (contents h) = last h.
Proof. intros [Ha _ Hl _ _ _]. unfold contents. rewrite length_take, length_drop. lia. Qed.

Lemma heap_times S S' h X :
  (forall x, on_heap h x -> times S' x = times S x) -> heap_ok (lease_older S) (with_index h X) -> heap_ok (lease_older S') (with_index h X).
Proof.
  intros Ht. apply contents_order. intros x y Hx Hy. unfold lease_older. by rewrite !Ht.
Qed.

Lemma times_insert S p l x : times (<[p := l]> S) x = if bool_decide (x = p) then (hard_lifetime_end_time l, soft_lifetime_end_time l) else times S x.
Proof. unfold times. case_bool_decide; subst; [by rewrite lookup_insert_eq|by rewrite lookup_insert_ne]. Qed.

Lemma times_same S p l l' x : S !! p = Some l -> hard_lifetime_end_time l' = hard_lifetime_end_time l -> soft_lifetime_end_time l' = soft_lifetime_end_time l ->
  times (<[p := l']> S) x = times S x.
Proof. intros E E1 E2. rewrite times_insert. case_bool_decide; [subst|done]. unfold times. by rewrite E, E1, E2. Qed.

Lemma disjoint_heaps S X P p : pool_ok S X P -> on_heap (active_timeouts P) p -> on_heap (inactive_timeouts P) p -> False.
Proof.
  intros Hok Ha Hi. destruct (ok_in_use _ _ _ Hok p Ha) as (l & E & Hl & _). destruct (ok_not_in_use _ _ _ Hok p Hi) as (l' & E' & Hl' & _). congruence.
Qed.

Lemma entry_in t a p : entry t a = Some p -> (a, p) ∈ t.
Proof. induction t as [|[b q] t IH]; [done|]. cbn [entry]. case_bool_decide as E; [intros [= ->]; subst; left|intros H; right; by apply IH]. Qed.

Lemma entry_none t a : entry t a = None <-> a ∉ t.*1.
Proof.
  induction t as [|[b q] t IH]; [split; [intros _ H; by apply elem_of_nil in H|done]|]. cbn [entry fmap list_fmap fst]. rewrite not_elem_of_cons. case_bool_decide; subst; [naive_solver|]. rewrite IH. naive_solver.
Qed.

Lemma in_entry t a p : NoDup t.*1 -> (a, p) ∈ t -> entry t a = Some p.
Proof.
  induction t as [|[b q] t IH]; [intros _ H; by apply elem_of_nil in H|]. cbn [entry fmap list_fmap fst]. intros [Hn Hd]%NoDup_cons [E|E]%elem_of_cons.
  - injection E as -> ->. by rewrite bool_decide_true.
  - rewrite bool_decide_false; [by apply IH|]. intros ->. apply Hn. apply list_elem_of_fmap. by exists (b, p).
Qed.

Lemma remove_entry_keys t a b : b ∈ (remove_entry t a).*1 -> b ∈ t.*1.
Proof.
  induction t as [|[c q] t IH]; [done|]. cbn [remove_entry fmap list_fmap fst]. case_bool_decide; [by right|]. cbn [fmap list_fmap fst]. intros [->|H0]%elem_of_cons; [left|right; by apply IH].
Qed.

Lemma remove_entry_nodup t a : NoDup t.*1 -> NoDup (remove_entry t a).*1.
Proof.
  induction t as [|[c q] t IH]; [done|]. cbn [remove_entry fmap list_fmap fst]. intros [Hn Hd]%NoDup_cons. case_bool_decide; [done|]. cbn [fmap list_fmap fst]. apply NoDup_cons. split; [|by apply IH].
  intros Hc. by apply Hn, (remove_entry_keys _ a).
Qed.

Lemma remove_entry_in t a b p : NoDup t.*1 -> (b, p) ∈ remove_entry t a <-> (b, p) ∈ t /\ b <> a.
Proof.
  induction t as [|[c q] t IH]; [intros _; cbn; rewrite !elem_of_nil; naive_solver|]. cbn [remove_entry fmap list_fmap fst]. intros [Hn Hd]%NoDup_cons. case_bool_decide as E.
  - subst c. rewrite elem_of_cons. split; [|naive_solver]. intros H. split; [by right|]. intros ->. apply Hn, list_elem_of_fmap. by exists (a, p).
  - rewrite !elem_of_cons, IH by done. split; [|naive_solver]. intros [Eq|Eq]; [|naive_solver]. injection Eq as -> ->. split; [by left|done].
Qed.

Lemma entry_remove_ne t a b : b <> a -> entry (remove_entry t a) b = entry t b.
Proof.
  intros Hne. induction t as [|[c q] t IH]; [done|]. cbn [remove_entry entry]. case_bool_decide as E; [subst; by rewrite bool_decide_false|]. cbn [entry]. by rewrite IH.
Qed.

Lemma on_heap_perm h h' p q : contents h' ≡ₚ Some p :: contents h -> on_heap h' q <-> q = p \/ on_heap h q.
Proof. intros E. unfold on_heap. rewrite E, elem_of_cons. naive_solver. Qed.

Lemma indexed_at S X P k p :
  pool_ok S X P -> on_heap (heap_of k P) p -> exists i, X !! p = Some i /\ (1 <= i <= last (heap_of k P))%nat /\ at_slot (array (heap_of k P)) i p.
Proof.
  intros Hok. destruct k; [apply (contents_indexed (lease_older S)); apply Hok|apply (contents_indexed unordered); apply Hok].
Qed.

(** ** Steps of the operations *)

(** What an operation on the pool [pl] leaves alone. *)
Record rest (pl : Z) (w w' : mdb6) : Prop := Rest {
  rest_ias : ias w' = ias w;
  rest_pools : pools w' = pools w;
  rest_tables : ia_na_active w' = ia_na_active w /\ ia_ta_active w' = ia_ta_active w /\ ia_pd_active w' = ia_pd_active w;
  rest_ponds : forall q, is_Some (ponds w' !! q) <-> is_Some (ponds w !! q);
  rest_others : forall q, q <> pl -> pool_map w' !! q = pool_map w !! q
}.

Lemma rest_refl pl w : rest pl w w.
Proof. by constructor. Qed.

Lemma rest_trans pl w1 w2 w3 : rest pl w1 w2 -> rest pl w2 w3 -> rest pl w1 w3.
Proof.
  intros [E1 E2 (E3 & E4 & E5) E6 E7] [F1 F2 (F3 & F4 & F5) F6 F7]. constructor; [congruence..|split_and!; congruence|intros q; by rewrite F6|intros q Hq; by rewrite F7, E7].
Qed.

Definition pond_ok (w : mdb6) (P : ipv6_pool) : Prop := match pond_of P with Some q => is_Some (ponds w !! q) | None => True end.

Lemma at_ptr_some {A} (m : gmap Z A) p x : m !! p = Some x -> at_ptr m p = Ret x.
Proof. unfold at_ptr. by intros ->. Qed.

Lemma count_ok w pl P a b c : pool_map w !! pl = Some P -> pond_ok w P ->
  exists w', count w pl a b c = Ret w' /\ rest pl w w' /\ subopts w' = subopts w /\ heap_idx w' = heap_idx w /\ next_ptr w' = next_ptr w /\ events w' = events w /\
    pool_map w' = <[pl := with_counts P (u64 (num_active P + a)) (u64 (num_abandoned P + b)) (s32 (num_inactive P + c))]> (pool_map w).
Proof.
  intros E Hp. unfold count. rewrite (at_ptr_some _ _ _ E). cbn [mbind outcome_bind]. unfold on_pond, pond_ok in *. destruct (pond_of P) as [q|].
  - destruct Hp as [x Hx]. rewrite (at_ptr_some _ q x) by done. cbn [mbind outcome_bind]. eexists. split; [done|]. split; [|done].
    constructor; try done; cbn; intros q'.
    + destruct (decide (q' = q)) as [->|Hne]; [by rewrite lookup_insert_eq, Hx; naive_solver|by rewrite lookup_insert_ne].
    + intros Hne. by rewrite lookup_insert_ne.
  - eexists. split; [done|]. split; [|done]. constructor; try done. cbn. intros q' Hne. by rewrite lookup_insert_ne.
Qed.

Lemma dereference_keeps w p l : subopts w !! p = Some l -> 2 <= refcnt l -> iasubopt_dereference w p = Ret (put_lease w p (with_refcnt l (refcnt l - 1))).
Proof.
  intros E Hr. unfold iasubopt_dereference, levels. cbn [dereference]. rewrite (at_ptr_some _ _ _ E). cbn [mbind outcome_bind].
  rewrite Z.max_r by lia. rewrite (proj2 (Z.eqb_neq _ 0)) by lia. done.
Qed.

Lemma rest_index_changed w pl k P h : rest pl w (index_changed w pl k P h).
Proof. constructor; try done. cbn. intros q Hq. by rewrite lookup_insert_ne. Qed.

Lemma rest_put_lease w pl p l : rest pl w (put_lease w p l).
Proof. by constructor. Qed.

Lemma rest_put_pool w pl P : rest pl w (put_pool w pl P).
Proof. constructor; try done. cbn. intros q Hq. by rewrite lookup_insert_ne. Qed.

(** The lease goes from one heap to the other: the indices of both are right. *)
Lemma log_agree (h h2 : isc_heap Z) X x : log_ok h2 -> ~ on_heap h2 x -> (heap_index h2 ∪ X) !! x = X !! x.
Proof. intros Hl Hx. rewrite lookup_union, (Hl x Hx). by destruct (X !! x). Qed.

Lemma held_bounds P p : 0 <= held P p <= 3.
Proof.
  unfold held. pose proof (ind_bounds (p ∈ (leases P).*2)). pose proof (ind_bounds (on_heap (active_timeouts P) p)). pose proof (ind_bounds (on_heap (inactive_timeouts P) p)). lia.
Qed.

(** A pool with the lease [p] moved to the heap of active leases. *)
Definition activated (P : ipv6_pool) (h1 h2 : isc_heap Z) (a : list Z) (p : Z) (abandoned : Z) : ipv6_pool :=
  with_counts (with_heap Inactive (with_leases (with_heap Active P (with_index h1 ∅)) ((a, p) :: leases P)) (with_index h2 ∅)) (u64 (num_active P + 1)) abandoned (s32 (num_inactive P - 1)).

Lemma activated_ok S X P p l h1 h2 ab :
  pool_ok S X P -> on_heap (inactive_timeouts P) p -> S !! p = Some l -> entry (leases P) (addr l) = None ->
  soft_lifetime_end_time l = 0 -> hard_lifetime_end_time l <= MAX_TIME -> Z.of_nat (last (active_timeouts P)) + 1 < 2 ^ 31 -> Z.of_nat (last (inactive_timeouts P)) < 2 ^ 31 ->
  heap_ok (lease_older S) (logged h1 X) -> has_index h1 = true -> last h1 = (last (active_timeouts P) + 1)%nat -> contents h1 ≡ₚ Some p :: contents (active_timeouts P) -> log_ok h1 ->
  heap_shape (logged h2 (heap_index h1 ∪ X)) -> has_index h2 = true -> last h2 = (last (inactive_timeouts P) - 1)%nat -> contents (inactive_timeouts P) ≡ₚ Some p :: contents h2 -> log_ok h2 ->
  pool_ok (<[p := with_state (with_refcnt l (refcnt l + 1)) FTS_ACTIVE]> S) (heap_index h2 ∪ (heap_index h1 ∪ X)) (activated P h1 h2 (addr l) p ab).
Proof.
  intros Hok Hp Hl He Hsoft Hhard Hr1 Hr2 Hh1 Hi1 Hl1 Hc1 Hg1 Hh2 Hi2 Hl2 Hc2 Hg2. set (l' := with_state _ _).
  assert (forall x, on_heap h1 x <-> x = p \/ on_heap (active_timeouts P) x) as Ho1 by (intros x; by apply on_heap_perm).
  assert (forall x, on_heap (inactive_timeouts P) x <-> x = p \/ on_heap h2 x) as Ho2 by (intros x; by apply on_heap_perm).
  assert (~ on_heap h2 p) as Hnp.
  { pose proof (contents_nodup unordered _ _ (ok_inactive_index _ _ _ Hok) (ok_inactive _ _ _ Hok)) as Hnd. rewrite Hc2 in Hnd. by apply NoDup_cons in Hnd as [Hnd _]. }
  assert (forall x, on_heap h1 x -> ~ on_heap h2 x) as Hdis.
  { intros x [->|Hx]%Ho1; [done|]. intros Hx2. apply (disjoint_heaps _ _ _ x Hok Hx). apply Ho2. by right. }
  assert (p ∉ (leases P).*2) as Hpn by (destruct (ok_not_in_use _ _ _ Hok p Hp) as (? & _ & _ & ?); done).
  assert (p <> p \/ addr l ∉ (leases P).*1) as [?|Hkey] by (right; by apply entry_none); [done|].
  constructor; cbn [activated with_counts with_heap with_leases active_timeouts inactive_timeouts leases num_active num_inactive].
  - rewrite logged_with_index. apply (contents_index _ h1 (heap_index h1 ∪ X)); [intros x Hx; apply log_agree; [done|done|by apply Hdis]|].
    eapply heap_times; [|exact Hh1]. intros x _. by apply times_same with l.
  - done.
  - rewrite logged_with_index. exact Hh2.
  - done.
  - intros q Hq. change (on_heap h1 q) in Hq. apply Ho1 in Hq as [->|Hq].
    + exists l'. rewrite lookup_insert_eq. split; [done|]. split_and!; try done. change (entry ((addr l, p) :: leases P) (addr l) = Some p). cbn [entry]. by rewrite bool_decide_true.
    + destruct (ok_in_use _ _ _ Hok q Hq) as (lq & Eq & Ha & Hen & Hrest). assert (q <> p) by (intros ->; by apply (disjoint_heaps _ _ _ p Hok)).
      exists lq. rewrite lookup_insert_ne by done. split; [done|]. destruct Hrest as (? & ? & ?). split_and!; try done.
      change (entry ((addr l, p) :: leases P) (addr lq) = Some q). cbn [entry]. rewrite bool_decide_false; [done|]. intros E. apply Hkey. rewrite <- E.
      apply list_elem_of_fmap. exists (addr lq, q). split; [done|]. by apply entry_in.
  - intros q Hq. change (on_heap h2 q) in Hq. assert (q <> p) by (intros ->; done). destruct (ok_not_in_use _ _ _ Hok q) as (lq & Eq & Ha & Hn); [apply Ho2; by right|].
    exists lq. rewrite lookup_insert_ne by done. split; [done|]. split; [done|]. cbn [fmap list_fmap snd]. apply not_elem_of_cons. done.
  - cbn [fmap list_fmap fst]. apply NoDup_cons. split; [done|apply Hok].
  - intros a q [E|Hq]%elem_of_cons.
    + injection E as -> ->. exists l'. rewrite lookup_insert_eq. split; [done|]. split; [done|]. left. apply Ho1. by left.
    + destruct (ok_entries _ _ _ Hok a q Hq) as (lq & Eq & Ea & Hs). assert (q <> p) by (intros ->; apply Hpn, list_elem_of_fmap; by exists (a, p)).
      exists lq. rewrite lookup_insert_ne by done. split; [done|]. split; [done|]. destruct Hs as [Hs|Hs]; [left; apply Ho1; by right|by right].
  - rewrite (ok_num_active _ _ _ Hok). unfold u64. rewrite Z.mod_small by lia. cbn [with_index last]. lia.
  - rewrite (ok_num_inactive _ _ _ Hok). assert (1 <= last (inactive_timeouts P))%nat as H1.
    { pose proof (on_heap_length (with_index (inactive_timeouts P) X) (ok_inactive _ _ _ Hok)) as El. change (contents (with_index (inactive_timeouts P) X)) with (contents (inactive_timeouts P)) in El. rewrite Hc2 in El. cbn in El. lia. }
    cbn [with_index last]. unfold s32. rewrite Z.mod_small by lia. lia.
  - intros q lq Eq. destruct (decide (q = p)) as [->|Hne].
    + rewrite lookup_insert_eq in Eq. injection Eq as <-. pose proof (ok_held _ _ _ Hok p l Hl) as Hh. unfold held in *.
      cbn [activated with_counts with_heap with_leases active_timeouts inactive_timeouts leases with_state with_refcnt refcnt].
      rewrite (ind_true (on_heap (inactive_timeouts P) p)) in Hh by done. pose proof (ind_bounds (p ∈ ((addr l, p) :: leases P).*2)). pose proof (ind_bounds (on_heap (with_index h1 ∅) p)).
      rewrite (ind_false (on_heap (with_index h2 ∅) p)) by done. pose proof (ind_bounds (p ∈ (leases P).*2)). pose proof (ind_bounds (on_heap (active_timeouts P) p)). unfold l'. cbn [with_state with_refcnt refcnt]. lia.
    + rewrite lookup_insert_ne in Eq by done. pose proof (ok_held _ _ _ Hok q lq Eq) as Hh. unfold held in *.
      cbn [activated with_counts with_heap with_leases active_timeouts inactive_timeouts leases].
      rewrite (ind_ext (q ∈ ((addr l, p) :: leases P).*2) (q ∈ (leases P).*2)), (ind_ext (on_heap (with_index h1 ∅) q) (on_heap (active_timeouts P) q)), (ind_ext (on_heap (with_index h2 ∅) q) (on_heap (inactive_timeouts P) q)); [done|..].
      * change (on_heap h2 q <-> on_heap (inactive_timeouts P) q). rewrite Ho2. naive_solver.
      * change (on_heap h1 q <-> on_heap (active_timeouts P) q). rewrite Ho1. naive_solver.
      * cbn [fmap list_fmap snd]. rewrite elem_of_cons. naive_solver.
Qed.

(** What an operation leaves alone in the pool itself. *)
Definition static (P P' : ipv6_pool) : Prop :=
  pool_refcnt P' = pool_refcnt P /\ pool_type P' = pool_type P /\ start_addr P' = start_addr P /\ bits P' = bits P /\ units P' = units P /\ pond_of P' = pond_of P.

Lemma static_refl P : static P P.
Proof. done. Qed.

Lemma static_trans P Q R : static P Q -> static Q R -> static P R.
Proof. intros (? & ? & ? & ? & ? & ?) (? & ? & ? & ? & ? & ?). unfold static. split_and!; congruence. Qed.

(** The database holds a pool that is consistent. *)
Record pool_at (w : mdb6) (pl : Z) (P : ipv6_pool) : Prop := PoolAt {
  at_pool : pool_map w !! pl = Some P;
  at_ok : pool_ok (subopts w) (heap_idx w) P;
  at_pond : pond_ok w P;
  at_fresh : forall p, next_ptr w <= p -> subopts w !! p = None
}.

(** What the operations on a lease have in common: they succeed and keep the pool
    consistent. *)
Definition keeps (w : mdb6) (pl : Z) (P : ipv6_pool) (w' : mdb6) (P' : ipv6_pool) : Prop :=
  pool_at w' pl P' /\ rest pl w w' /\ static P P' /\ next_ptr w' = next_ptr w.

Lemma heap_insert_ret w pl P k p h : pool_map w !! pl = Some P -> isc_heap_insert (lease_older (subopts w)) true (with_index (heap_of k P) ∅) p = Ret (ISC_R_SUCCESS, h) ->
  heap_insert true w pl k p = Ret (R_SUCCESS, index_changed w pl k P h).
Proof. intros E Eh. unfold heap_insert. rewrite (at_ptr_some _ _ _ E). cbn [mbind outcome_bind]. rewrite Eh. done. Qed.

Lemma heap_delete_ret w pl P k i h : pool_map w !! pl = Some P -> isc_heap_delete (lease_older (subopts w)) (with_index (heap_of k P) ∅) i = Ret h ->
  heap_delete w pl k i = Ret (index_changed w pl k P h).
Proof. intros E Eh. unfold heap_delete. rewrite (at_ptr_some _ _ _ E). cbn [mbind outcome_bind]. rewrite Eh. done. Qed.

Lemma pond_ok_rest pl w w' P P' : rest pl w w' -> pond_of P' = pond_of P -> pond_ok w P -> pond_ok w' P'.
Proof. intros Hr E. unfold pond_ok. rewrite E. destruct (pond_of P); [|done]. apply (rest_ponds _ _ _ Hr). Qed.

Lemma index_of_some w p k : heap_idx w !! p = Some k -> index_of w p = k.
Proof. unfold index_of. by intros ->. Qed.

(** Taking a lease that is not in use: the lease must end after all others that are
    not in use. *)
Lemma move_lease_to_active_ok w pl P p l :
  pool_at w pl P -> on_heap (inactive_timeouts P) p -> subopts w !! p = Some l -> entry (leases P) (addr l) = None ->
  soft_lifetime_end_time l = 0 -> hard_lifetime_end_time l <= MAX_TIME ->
  (forall q, on_heap (inactive_timeouts P) q -> q <> p -> lease_older (subopts w) q p = true) ->
  Z.of_nat (last (active_timeouts P)) + 1 < 2 ^ 31 -> Z.of_nat (last (inactive_timeouts P)) < 2 ^ 31 ->
  exists w' P', move_lease_to_active true w pl p = Ret (R_SUCCESS, w') /\ keeps w pl P w' P' /\ on_heap (active_timeouts P') p /\
    subopts w' = <[p := with_state (with_refcnt l (refcnt l + 1)) FTS_ACTIVE]> (subopts w) /\ events w' = events w.
Proof.
  intros [HP Hok Hpo Hfr] Hp Hl He Hsoft Hhard Hold Hr1 Hr2. unfold move_lease_to_active.
  destruct (indexed_at _ _ _ Inactive p Hok Hp) as (k & Hk & Hkr & Hkp). cbn [heap_of] in *. rewrite (index_of_some w p k Hk).
  assert (~ on_heap (active_timeouts P) p) as Hna by (intros Ha; by apply (disjoint_heaps _ _ _ p Hok)).
  destruct (client_insert (lease_older (subopts w)) (active_timeouts P) (heap_idx w) p) as (h1 & E1 & Hh1 & Hi1 & Hl1 & Hc1 & Hg1); [apply Hok|apply Hok|done|done|].
  rewrite (heap_insert_ret w pl P Active p h1) by done. cbn [mbind outcome_bind]. cbn zeta. set (w1 := index_changed w pl Active P h1).
  rewrite (at_ptr_some (subopts w1) p l) by done. cbn [mbind outcome_bind]. unfold iasubopt_hash_add. cbn iota. set (P1 := with_heap Active P (with_index h1 ∅)).
  unfold on_pool. rewrite (at_ptr_some (pool_map w1) pl P1) by (cbn; by rewrite lookup_insert_eq). cbn [mbind outcome_bind]. unfold iasubopt_reference, on_lease.
  set (w2 := put_pool w1 pl _). rewrite (at_ptr_some (subopts w2) p l) by done. cbn [mbind outcome_bind]. set (w3 := put_lease w2 p _). set (P3 := with_leases P1 ((addr l, p) :: leases P1)).
  assert (pool_map w3 !! pl = Some P3) as HP3 by (cbn; by rewrite lookup_insert_eq).
  assert (forall x, times (subopts w3) x = times (subopts w) x) as Ht by (intros x; by apply times_same with l).
  destruct (client_delete_shape (lease_older (subopts w3)) (inactive_timeouts P) (heap_index h1 ∪ heap_idx w) k p) as (h2 & E2 & Hh2 & Hi2 & Hl2 & Hc2 & Hg2); [|apply Hok|done|done| |].
  { apply (contents_index unordered _ (heap_idx w)); [|apply Hok]. intros x Hx. destruct (decide (x = p)) as [->|Hne]; [by rewrite lookup_insert_eq|]. rewrite lookup_insert_ne by done.
    apply log_agree; [done|done|]. intros [?|Ha]%(on_heap_perm _ _ _ _ Hc1); [done|]. by apply (disjoint_heaps _ _ _ x Hok). }
  { right. destruct (decide (k = last (inactive_timeouts P))) as [|Hne]; [by left|right]. intros elt Helt. unfold lease_older. rewrite !Ht. apply Hold.
    - apply (at_contents _ (last (inactive_timeouts P))); [lia|done].
    - intros ->. pose proof (ok_index _ _ (ok_inactive _ _ _ Hok) (ok_inactive_index _ _ _ Hok) (last (inactive_timeouts P)) p ltac:(cbn; lia) Helt) as E. cbn in E. rewrite Hk in E. by injection E. }
  rewrite (heap_delete_ret w3 pl P3 Inactive k h2) by done. cbn [mbind outcome_bind]. set (w4 := index_changed w3 pl Inactive P3 h2). set (P4 := with_heap Inactive P3 (with_index h2 ∅)).
  assert (rest pl w w4) as Hr4.
  { eapply rest_trans; [apply rest_index_changed|]. eapply rest_trans; [apply rest_put_pool|]. eapply rest_trans; [apply rest_put_lease|apply rest_index_changed]. }
  destruct (count_ok w4 pl P4 1 0 (-1)) as (w5 & -> & Hr5 & Es & Ex & En & Ee & Em); [cbn; by rewrite lookup_insert_eq|by eapply pond_ok_rest|]. cbn [mbind outcome_bind].
  rewrite (at_ptr_some (subopts w5) p (with_refcnt l (refcnt l + 1))) by (rewrite Es; cbn; by rewrite lookup_insert_eq). cbn [mbind outcome_bind].
  set (P5 := with_counts P4 _ _ _) in Em. assert (subopts (put_lease w5 p (with_state (with_refcnt l (refcnt l + 1)) FTS_ACTIVE)) = <[p := with_state (with_refcnt l (refcnt l + 1)) FTS_ACTIVE]> (subopts w)) as Es6.
  { cbn. rewrite Es. cbn. by rewrite insert_insert_eq. }
  eexists _, P5. split; [done|]. split; [|split; [apply (on_heap_perm _ _ _ _ Hc1); by left|split; [exact Es6|cbn; by rewrite Ee]]].
  assert (rest pl w (put_lease w5 p (with_state (with_refcnt l (refcnt l + 1)) FTS_ACTIVE))) as Hr6 by (eapply rest_trans; [exact Hr4|]; eapply rest_trans; [exact Hr5|apply rest_put_lease]).
  split; [|split; [done|split; [done|cbn; by rewrite En]]]. constructor.
  - cbn. by rewrite Em, lookup_insert_eq.
  - rewrite Es6. cbn. rewrite Ex. cbn. by apply (activated_ok (subopts w) (heap_idx w) P p l h1 h2 (u64 (num_abandoned P + 0))).
  - by eapply pond_ok_rest.
  - intros q Hq. rewrite Es6. cbn in Hq. rewrite En in Hq. cbn in Hq. rewrite lookup_insert_ne; [by apply Hfr|]. intros ->. rewrite Hfr in Hl by done. done.
Qed.

(** A pool with the lease [p] moved to the heap of leases that are not in use. *)
Definition deactivated (P : ipv6_pool) (h1 h2 : isc_heap Z) (a : list Z) (abandoned : Z) : ipv6_pool :=
  with_counts (with_heap Active (with_leases (with_heap Inactive P (with_index h2 ∅)) (remove_entry (leases P) a)) (with_index h1 ∅)) (u64 (num_active P - 1)) abandoned (s32 (num_inactive P + 1)).

Lemma in_table S X P p : pool_ok S X P -> forall l, S !! p = Some l -> p ∈ (leases P).*2 -> entry (leases P) (addr l) = Some p.
Proof.
  intros Hok l Hl ([a q] & -> & Hin)%list_elem_of_fmap. destruct (ok_entries _ _ _ Hok a q Hin) as (l' & El & Ea & _). cbn [snd] in Hl. rewrite Hl in El. injection El as <-. subst a.
  by apply in_entry; [apply Hok|].
Qed.

Lemma removed_not_in S X P p l : pool_ok S X P -> S !! p = Some l -> p ∉ (remove_entry (leases P) (addr l)).*2.
Proof.
  intros Hok Hl ([a q] & -> & Hin)%list_elem_of_fmap. apply remove_entry_in in Hin as [Hin Hne]; [|apply Hok]. destruct (ok_entries _ _ _ Hok a q Hin) as (l' & El & Ea & _).
  cbn [snd] in Hl. rewrite Hl in El. injection El as <-. done.
Qed.

Lemma removed_in t a q : q ∈ (remove_entry t a).*2 -> q ∈ t.*2.
Proof.
  induction t as [|[b x] t IH]; [done|]. cbn [remove_entry fmap list_fmap snd]. case_bool_decide; [by right|]. cbn [fmap list_fmap snd]. intros [->|Hq]%elem_of_cons; [left|right; by apply IH].
Qed.

Lemma removed_other S X P p l q lq : pool_ok S X P -> S !! p = Some l -> entry (leases P) (addr l) = Some p -> S !! q = Some lq -> q <> p ->
  q ∈ (remove_entry (leases P) (addr l)).*2 <-> q ∈ (leases P).*2.
Proof.
  intros Hok Hl He Hq Hne. split; [apply removed_in|]. intros Hin. pose proof (in_table _ _ _ _ Hok lq Hq Hin) as Eq.
  apply list_elem_of_fmap. exists (addr lq, q). split; [done|]. apply remove_entry_in; [apply Hok|]. split; [by apply entry_in|]. intros E. rewrite E, He in Eq. congruence.
Qed.

Lemma deactivated_ok S X P p l h1 h2 ab s (S3 : gmap Z iasubopt) :
  pool_ok S X P -> on_heap (active_timeouts P) p -> S !! p = Some l -> is_active s = false ->
  Z.of_nat (last (active_timeouts P)) < 2 ^ 31 -> Z.of_nat (last (inactive_timeouts P)) + 1 < 2 ^ 31 ->
  (forall x, times S3 x = times S x) ->
  heap_shape (logged h2 X) -> has_index h2 = true -> last h2 = (last (inactive_timeouts P) + 1)%nat -> contents h2 ≡ₚ Some p :: contents (inactive_timeouts P) -> log_ok h2 ->
  heap_ok (lease_older S3) (logged h1 (heap_index h2 ∪ X)) -> has_index h1 = true -> last h1 = (last (active_timeouts P) - 1)%nat -> contents (active_timeouts P) ≡ₚ Some p :: contents h1 -> log_ok h1 ->
  pool_ok (<[p := with_state (with_refcnt (without_statements l) (refcnt l - 1)) s]> S) (heap_index h1 ∪ (heap_index h2 ∪ X)) (deactivated P h1 h2 (addr l) ab).
Proof.
  intros Hok Hp Hl Hs Hr1 Hr2 Ht Hh2 Hi2 Hl2 Hc2 Hg2 Hh1 Hi1 Hl1 Hc1 Hg1. set (l' := with_state _ _).
  assert (forall x, on_heap h2 x <-> x = p \/ on_heap (inactive_timeouts P) x) as Ho2 by (intros x; by apply on_heap_perm).
  assert (forall x, on_heap (active_timeouts P) x <-> x = p \/ on_heap h1 x) as Ho1 by (intros x; by apply on_heap_perm).
  assert (~ on_heap h1 p) as Hnp.
  { pose proof (contents_nodup _ _ _ (ok_active_index _ _ _ Hok) (ok_active _ _ _ Hok)) as Hnd. rewrite Hc1 in Hnd. by apply NoDup_cons in Hnd as [Hnd _]. }
  assert (forall x, on_heap h2 x -> ~ on_heap h1 x) as Hdis.
  { intros x [->|Hx]%Ho2; [done|]. intros Hx1. apply (disjoint_heaps _ _ _ x Hok); [|done]. apply Ho1. by right. }
  destruct (ok_in_use _ _ _ Hok p Hp) as (l0 & El & Hact & He & Hrest). rewrite Hl in El. injection El as <-.
  constructor; cbn [deactivated with_counts with_heap with_leases active_timeouts inactive_timeouts leases num_active num_inactive].
  - rewrite logged_with_index. eapply heap_times; [|exact Hh1]. intros x _. rewrite Ht. by apply times_same with l.
  - done.
  - rewrite logged_with_index. apply (contents_index unordered h2 (heap_index h2 ∪ X)); [intros x Hx; apply log_agree; [done|done|by apply Hdis]|exact Hh2].
  - done.
  - intros q Hq. change (on_heap h1 q) in Hq. assert (q <> p) as Hne by (intros ->; done). destruct (ok_in_use _ _ _ Hok q) as (lq & Eq & Ha & Hen & ? & ? & ?); [apply Ho1; by right|].
    exists lq. rewrite lookup_insert_ne by done. split; [done|]. split_and!; try done. change (entry (remove_entry (leases P) (addr l)) (addr lq) = Some q).
    rewrite entry_remove_ne; [done|]. intros E. rewrite E, He in Hen. by injection Hen.
  - intros q Hq. change (on_heap h2 q) in Hq. apply Ho2 in Hq as [->|Hq].
    + exists l'. rewrite lookup_insert_eq. split; [done|]. split; [done|]. by apply (removed_not_in S X).
    + destruct (ok_not_in_use _ _ _ Hok q Hq) as (lq & Eq & Ha & Hn). assert (q <> p) by (intros ->; by apply (disjoint_heaps _ _ _ p Hok)).
      exists lq. rewrite lookup_insert_ne by done. split; [done|]. split; [done|]. intros Hin. by apply Hn, (removed_in _ (addr l)).
  - apply remove_entry_nodup, Hok.
  - intros a q Hq. apply remove_entry_in in Hq as [Hq Hne]; [|apply Hok]. destruct (ok_entries _ _ _ Hok a q Hq) as (lq & Eq & Ea & Hs').
    assert (q <> p) by (intros ->; congruence). exists lq. rewrite lookup_insert_ne by done. split; [done|]. split; [done|].
    destruct Hs' as [Hs'|Hs']; [|by right]. left. apply Ho1 in Hs' as [?|?]; done.
  - rewrite (ok_num_active _ _ _ Hok). assert (1 <= last (active_timeouts P))%nat as H1.
    { pose proof (on_heap_length (with_index (active_timeouts P) X) (heap_ok_shape _ _ (ok_active _ _ _ Hok))) as E. change (contents (with_index (active_timeouts P) X)) with (contents (active_timeouts P)) in E. rewrite Hc1 in E. cbn in E. lia. }
    cbn [with_index last]. unfold u64. rewrite Z.mod_small by lia. lia.
  - rewrite (ok_num_inactive _ _ _ Hok). cbn [with_index last]. unfold s32. rewrite Z.mod_small by lia. lia.
  - intros q lq Eq. destruct (decide (q = p)) as [->|Hne].
    + rewrite lookup_insert_eq in Eq. injection Eq as <-. pose proof (ok_held _ _ _ Hok p l Hl) as Hh. unfold held in *.
      cbn [deactivated with_counts with_heap with_leases active_timeouts inactive_timeouts leases].
      rewrite (ind_true (on_heap (active_timeouts P) p)), (ind_true (p ∈ (leases P).*2)) in Hh; [|apply list_elem_of_fmap; exists (addr l, p); split; [done|by apply entry_in]|done].
      rewrite (ind_false (on_heap (with_index h1 ∅) p)), (ind_false (p ∈ (remove_entry (leases P) (addr l)).*2)) by (done || by apply (removed_not_in S X)).
      pose proof (ind_bounds (on_heap (with_index h2 ∅) p)). pose proof (ind_bounds (on_heap (inactive_timeouts P) p)). unfold l'. cbn [with_state with_refcnt refcnt]. lia.
    + rewrite lookup_insert_ne in Eq by done. pose proof (ok_held _ _ _ Hok q lq Eq) as Hh. unfold held in *.
      cbn [deactivated with_counts with_heap with_leases active_timeouts inactive_timeouts leases].
      rewrite (ind_ext (q ∈ (remove_entry (leases P) (addr l)).*2) (q ∈ (leases P).*2)), (ind_ext (on_heap (with_index h1 ∅) q) (on_heap (active_timeouts P) q)), (ind_ext (on_heap (with_index h2 ∅) q) (on_heap (inactive_timeouts P) q)); [done|..].
      * change (on_heap h2 q <-> on_heap (inactive_timeouts P) q). rewrite Ho2. naive_solver.
      * change (on_heap h1 q <-> on_heap (active_timeouts P) q). rewrite Ho1. naive_solver.
      * by apply (removed_other S X P p l q lq).
Qed.

(** What is done when a lease ends. *)
Definition ending (P : ipv6_pool) (p : Z) (l : iasubopt) (s : binding_state) : list event :=
  (if on_expiry l && bool_decide (s = FTS_EXPIRED) then [Executed p s] else []) ++ (if on_release l && bool_decide (s = FTS_RELEASED) then [Executed p s] else []) ++
  (if negb (pool_type P =? D6O_IA_PD) then [DdnsRemovals p] else []).

Lemma log_events w es w1 :
  w1 = fold_left log_event es w ->
  subopts w1 = subopts w /\ heap_idx w1 = heap_idx w /\ ias w1 = ias w /\ ponds w1 = ponds w /\ pool_map w1 = pool_map w /\ pools w1 = pools w /\
  ia_na_active w1 = ia_na_active w /\ ia_ta_active w1 = ia_ta_active w /\ ia_pd_active w1 = ia_pd_active w /\ next_ptr w1 = next_ptr w /\ events w1 = events w ++ es.
Proof.
  intros ->. revert w. induction es as [|e es IH]; intros w; cbn [fold_left]; [by rewrite app_nil_r|]. destruct (IH (log_event w e)) as (-> & -> & -> & -> & -> & -> & -> & -> & -> & -> & ->). cbn. by rewrite <- app_assoc.
Qed.

Lemma move_lease_to_inactive_ok w pl P p l s :
  pool_at w pl P -> on_heap (active_timeouts P) p -> subopts w !! p = Some l -> is_active s = false ->
  Z.of_nat (last (active_timeouts P)) < 2 ^ 31 -> Z.of_nat (last (inactive_timeouts P)) + 1 < 2 ^ 31 ->
  exists w' P', move_lease_to_inactive true w pl p s = Ret (R_SUCCESS, w') /\ keeps w pl P w' P' /\
    contents (active_timeouts P) ≡ₚ Some p :: contents (active_timeouts P') /\ contents (inactive_timeouts P') ≡ₚ Some p :: contents (inactive_timeouts P) /\
    last (active_timeouts P') = (last (active_timeouts P) - 1)%nat /\ last (inactive_timeouts P') = (last (inactive_timeouts P) + 1)%nat /\
    subopts w' = <[p := with_state (with_refcnt (without_statements l) (refcnt l - 1)) s]> (subopts w) /\ events w' = events w ++ ending P p l s.
Proof.
  intros [HP Hok Hpo Hfr] Hp Hl Hs Hr1 Hr2. unfold move_lease_to_inactive.
  destruct (indexed_at _ _ _ Active p Hok Hp) as (k & Hk & Hkr & Hkp). cbn [heap_of] in *. rewrite (index_of_some w p k Hk).
  assert (~ on_heap (inactive_timeouts P) p) as Hna by (intros Ha; by apply (disjoint_heaps _ _ _ p Hok)).
  destruct (ok_in_use _ _ _ Hok p Hp) as (l0 & El & Hact & He & _). rewrite Hl in El. injection El as <-.
  assert (2 <= refcnt l) as Href.
  { pose proof (ok_held _ _ _ Hok p l Hl) as Hh. unfold held in Hh. rewrite (ind_true (on_heap (active_timeouts P) p)), (ind_true (p ∈ (leases P).*2)) in Hh; [|apply list_elem_of_fmap; exists (addr l, p); split; [done|by apply entry_in]|done].
    pose proof (ind_bounds (on_heap (inactive_timeouts P) p)). lia. }
  destruct (client_insert_shape (lease_older (subopts w)) (inactive_timeouts P) (heap_idx w) p) as (h2 & E2 & Hh2 & Hi2 & Hl2 & Hc2 & Hg2); [apply Hok|apply Hok|done|done|].
  rewrite (heap_insert_ret w pl P Inactive p h2) by done. cbn [mbind outcome_bind]. cbn zeta. set (w1 := index_changed w pl Inactive P h2). set (P1 := with_heap Inactive P (with_index h2 ∅)).
  rewrite (at_ptr_some (subopts w1) p l) by done. cbn [mbind outcome_bind]. rewrite (at_ptr_some (pool_map w1) pl P1) by (cbn; by rewrite lookup_insert_eq). cbn [mbind outcome_bind].
  set (w1e := if negb (pool_type P1 =? D6O_IA_PD) then _ else _). assert (w1e = fold_left log_event (ending P p l s) w1) as Ew1e.
  { unfold w1e, ending. change (pool_type P1) with (pool_type P). destruct (on_expiry l && _), (on_release l && _), (negb _); done. }
  apply log_events in Ew1e as (F1 & F2 & F3 & F4 & F5 & F6 & F7 & F8 & F9 & F10 & F11).
  unfold iasubopt_hash_delete. rewrite (at_ptr_some (pool_map (put_lease w1e p (without_statements l))) pl P1) by (cbn; rewrite F5; cbn; by rewrite lookup_insert_eq). cbn [mbind outcome_bind].
  change (leases P1) with (leases P). rewrite He. set (w2 := put_pool _ pl _). set (P2 := with_leases P1 (remove_entry (leases P) (addr l))).
  rewrite (dereference_keeps w2 p (without_statements l)) by (done || (cbn; by rewrite lookup_insert_eq)). cbn [mbind outcome_bind]. set (w3 := put_lease w2 p _).
  assert (subopts w3 = <[p := with_refcnt (without_statements l) (refcnt l - 1)]> (subopts w)) as Es3 by (cbn; rewrite F1; cbn; by rewrite insert_insert_eq).
  assert (pool_map w3 !! pl = Some P2) as HP3 by (cbn; by rewrite lookup_insert_eq).
  assert (forall x, times (subopts w3) x = times (subopts w) x) as Ht by (intros x; rewrite Es3; by apply times_same with l).
  assert (heap_idx w3 = heap_index h2 ∪ heap_idx w) as Ex3 by (cbn; by rewrite F2).
  assert (rest pl w w3) as Hr3 by (constructor; cbn; rewrite ?F3, ?F4, ?F5, ?F6, ?F7, ?F8, ?F9; cbn; [done..|intros q Hq; by rewrite !lookup_insert_ne]).
  destruct (client_delete (lease_older (subopts w3)) (active_timeouts P) (heap_index h2 ∪ heap_idx w) k p) as (h1 & E1 & Hh1 & Hi1 & Hl1 & Hc1 & Hg1); [|apply Hok|done|done|].
  { eapply heap_times; [intros x _; apply Ht|]. apply (contents_index _ _ (heap_idx w)); [|apply Hok]. intros x Hx. destruct (decide (x = p)) as [->|Hne]; [by rewrite lookup_insert_eq|]. rewrite lookup_insert_ne by done.
    apply log_agree; [done|done|]. intros [?|Ha]%(on_heap_perm _ _ _ _ Hc2); [done|]. by apply (disjoint_heaps _ _ _ x Hok). }
  rewrite (heap_delete_ret w3 pl P2 Active k h1) by done. cbn [mbind outcome_bind]. set (w4 := index_changed w3 pl Active P2 h1). set (P4 := with_heap Active P2 (with_index h1 ∅)).
  unfold on_lease. rewrite (at_ptr_some (subopts w4) p (with_refcnt (without_statements l) (refcnt l - 1))) by (change (subopts w4) with (subopts w3); rewrite Es3; by rewrite lookup_insert_eq). cbn [mbind outcome_bind].
  set (w5 := put_lease w4 p _). assert (rest pl w w5) as Hr5.
  { eapply rest_trans; [exact Hr3|]. eapply rest_trans; [apply rest_index_changed|apply rest_put_lease]. }
  destruct (count_ok w5 pl P4 (-1) (if bool_decide (s = FTS_ABANDONED) then -1 else 0) 1) as (w6 & -> & Hr6 & Es & Ex & En & Ee & Em); [cbn; by rewrite lookup_insert_eq|by eapply pond_ok_rest|]. cbn [mbind outcome_bind].
  set (P6 := with_counts P4 _ _ _) in Em. assert (subopts w6 = <[p := with_state (with_refcnt (without_statements l) (refcnt l - 1)) s]> (subopts w)) as Es6.
  { rewrite Es. cbn. rewrite F1. cbn. by rewrite !insert_insert_eq. }
  assert (rest pl w w6) as Hr7 by (by eapply rest_trans).
  assert (next_ptr w6 = next_ptr w) as En6 by (rewrite En; cbn; by rewrite F10).
  eexists _, P6. split; [done|]. split; [|split_and!; [done|done|done|done|exact Es6|rewrite Ee; cbn; by rewrite F11]].
  split; [|split; [done|split; [done|done]]]. constructor.
  - by rewrite Em, lookup_insert_eq.
  - rewrite Es6, Ex. change (heap_idx w5) with (heap_index h1 ∪ heap_idx w3). rewrite Ex3.
    by apply (deactivated_ok (subopts w) (heap_idx w) P p l h1 h2 (u64 (num_abandoned P + (if bool_decide (s = FTS_ABANDONED) then -1 else 0))) s (subopts w3)).
  - by eapply pond_ok_rest.
  - intros q Hq. rewrite Es6. rewrite En6 in Hq. rewrite lookup_insert_ne; [by apply Hfr|]. intros ->. rewrite Hfr in Hl by done. done.
Qed.

(** ** Renewing *)

Lemma keeps_refl w pl P : pool_at w pl P -> keeps w pl P w P.
Proof. intros H. split; [done|]. split; [apply rest_refl|]. done. Qed.

Lemma keeps_trans w1 pl P1 w2 P2 w3 P3 : keeps w1 pl P1 w2 P2 -> keeps w2 pl P2 w3 P3 -> keeps w1 pl P1 w3 P3.
Proof. intros (_ & Hr & Hs & Hn) (Hok & Hr' & Hs' & Hn'). split; [done|]. split; [by eapply rest_trans|]. split; [by eapply static_trans|congruence]. Qed.

(** An active lease with other times, put at its place again. *)
Lemma repriced_ok S X P p l l' h :
  pool_ok S X P -> on_heap (active_timeouts P) p -> S !! p = Some l -> addr l' = addr l -> refcnt l' = refcnt l -> active_lease P p l' ->
  heap_ok (lease_older (<[p := l']> S)) (logged h X) -> has_index h = true -> last h = last (active_timeouts P) -> contents h ≡ₚ contents (active_timeouts P) -> log_ok h ->
  pool_ok (<[p := l']> S) (heap_index h ∪ X) (with_heap Active P (with_index h ∅)).
Proof.
  intros Hok Hp Hl Ea Er Hact Hh Hi Hla Hc Hg.
  assert (forall x, on_heap h x <-> on_heap (active_timeouts P) x) as Ho by (intros x; unfold on_heap; by rewrite Hc).
  constructor; cbn [with_heap active_timeouts inactive_timeouts leases num_active num_inactive].
  - rewrite logged_with_index. exact Hh.
  - done.
  - apply (contents_index unordered _ X); [|apply Hok]. intros x Hx. apply log_agree; [done|done|]. intros Ha%Ho. by apply (disjoint_heaps _ _ _ x Hok).
  - apply Hok.
  - intros q Hq. change (on_heap h q) in Hq. apply Ho in Hq. destruct (decide (q = p)) as [->|Hne]; [exists l'; by rewrite lookup_insert_eq|]. rewrite lookup_insert_ne by done. by apply (ok_in_use _ _ _ Hok).
  - intros q Hq. assert (q <> p) by (intros ->; by apply (disjoint_heaps _ _ _ p Hok)). rewrite lookup_insert_ne by done. by apply (ok_not_in_use _ _ _ Hok).
  - apply Hok.
  - intros a q Hq. destruct (ok_entries _ _ _ Hok a q Hq) as (lq & Eq & Eaq & Hs). destruct (decide (q = p)) as [->|Hne].
    + exists l'. rewrite lookup_insert_eq. split; [done|]. rewrite Hl in Eq. injection Eq as <-. split; [congruence|]. left. by apply Ho.
    + exists lq. rewrite lookup_insert_ne by done. split; [done|]. split; [done|]. destruct Hs as [Hs|Hs]; [left; by apply Ho|by right].
  - cbn [with_index last]. rewrite Hla. apply Hok.
  - apply Hok.
  - intros q lq Eq. unfold held. cbn [active_timeouts inactive_timeouts leases]. rewrite (ind_ext (on_heap (with_index h ∅) q) (on_heap (active_timeouts P) q)) by apply Ho. change (held P q <= refcnt lq).
    destruct (decide (q = p)) as [->|Hne].
    + rewrite lookup_insert_eq in Eq. injection Eq as <-. rewrite Er. by apply (ok_held _ _ _ Hok).
    + rewrite lookup_insert_ne in Eq by done. by apply (ok_held _ _ _ Hok).
Qed.

Lemma older_other S p l x y : x <> p -> y <> p -> lease_older (<[p := l]> S) x y = lease_older S x y.
Proof. intros Hx Hy. unfold lease_older. rewrite !times_insert, !bool_decide_false by done. done. Qed.

Lemma older_irrefl S x : lease_older S x x = false.
Proof. unfold lease_older, older. by rewrite Z.eqb_refl, Z.ltb_irrefl. Qed.

(** A later end. *)
Lemma later_end S p l l' y : S !! p = Some l -> soft_lifetime_end_time l = 0 -> soft_lifetime_end_time l' = 0 -> hard_lifetime_end_time l <= hard_lifetime_end_time l' ->
  lease_older S p y = false -> lease_older (<[p := l']> S) p y = false.
Proof.
  intros Hl Hs Hs' Hle. destruct (decide (y = p)) as [->|Hne]; [intros _; apply older_irrefl|]. unfold lease_older. rewrite !times_insert. rewrite bool_decide_true, bool_decide_false by done.
  unfold times at 1. rewrite Hl. unfold older. destruct (times S y) as [a b]. cbn [fst snd]. rewrite Hs, Hs'. repeat case_match; rewrite ?Z.eqb_eq, ?Z.eqb_neq, ?Z.ltb_lt, ?Z.ltb_ge in *; lia.
Qed.

(** An earlier end. *)
Lemma earlier_end S p l l' x : S !! p = Some l -> soft_lifetime_end_time l = 0 -> soft_lifetime_end_time l' = 0 -> hard_lifetime_end_time l' <= hard_lifetime_end_time l ->
  lease_older S x p = false -> lease_older (<[p := l']> S) x p = false.
Proof.
  intros Hl Hs Hs' Hle. destruct (decide (x = p)) as [->|Hne]; [intros _; apply older_irrefl|]. unfold lease_older. rewrite !times_insert. rewrite bool_decide_false, bool_decide_true by done.
  unfold times at 2. rewrite Hl. unfold older. destruct (times S x) as [a b]. cbn [fst snd]. rewrite Hs, Hs'. repeat case_match; rewrite ?Z.eqb_eq, ?Z.eqb_neq, ?Z.ltb_lt, ?Z.ltb_ge in *; lia.
Qed.

(** [w1] is the database with other data in the lease: its times, and a state that is
    active still.  [isc_heap_decreased] for a later end and [isc_heap_increased] for
    an earlier one put it at its place. *)
Lemma reprice_ok w pl P p l l' :
  pool_at w pl P -> on_heap (active_timeouts P) p -> subopts w !! p = Some l -> addr l' = addr l -> refcnt l' = refcnt l -> active_lease P p l' ->
  (hard_lifetime_end_time l <= hard_lifetime_end_time l' -> exists w' P', heap_decreased (put_lease w p l') pl Active (index_of w p) = Ret w' /\ keeps w pl P w' P' /\
     subopts w' = <[p := l']> (subopts w) /\ events w' = events w /\ contents (active_timeouts P') ≡ₚ contents (active_timeouts P) /\ inactive_timeouts P' = inactive_timeouts P /\ leases P' = leases P) /\
  (hard_lifetime_end_time l' <= hard_lifetime_end_time l -> exists w' P', heap_increased (put_lease w p l') pl Active (index_of w p) = Ret w' /\ keeps w pl P w' P' /\
     subopts w' = <[p := l']> (subopts w) /\ events w' = events w /\ contents (active_timeouts P') ≡ₚ contents (active_timeouts P) /\ inactive_timeouts P' = inactive_timeouts P /\ leases P' = leases P).
Proof.
  intros [HP Hok Hpo Hfr] Hp Hl Ea Er Hact. destruct (indexed_at _ _ _ Active p Hok Hp) as (k & Hk & Hkr & Hkp). cbn [heap_of] in *. rewrite (index_of_some w p k Hk).
  destruct (ok_in_use _ _ _ Hok p Hp) as (l0 & El & _ & _ & Hsoft & _). rewrite Hl in El. injection El as <-. pose proof Hact as (_ & _ & Hsoft' & _).
  assert (forall h, heap_ok (lease_older (<[p := l']> (subopts w))) (logged h (heap_idx w)) -> has_index h = true -> last h = last (active_timeouts P) -> contents h ≡ₚ contents (active_timeouts P) -> log_ok h ->
    let w' := index_changed (put_lease w p l') pl Active P h in let P' := with_heap Active P (with_index h ∅) in
    keeps w pl P w' P' /\ subopts w' = <[p := l']> (subopts w) /\ events w' = events w /\ contents (active_timeouts P') ≡ₚ contents (active_timeouts P) /\ inactive_timeouts P' = inactive_timeouts P /\ leases P' = leases P) as Hfin.
  { intros h Hh Hi Hla Hc Hg w' P'. split; [|done]. assert (rest pl w w') as Hr by (eapply rest_trans; [apply (rest_put_lease w pl p l')|apply rest_index_changed]).
    split; [|done]. constructor.
    - cbn. by rewrite lookup_insert_eq.
    - by apply (repriced_ok (subopts w) (heap_idx w) P p l l' h).
    - by eapply pond_ok_rest.
    - intros q Hq. cbn. rewrite lookup_insert_ne; [by apply Hfr|]. intros ->. rewrite Hfr in Hl by done. done. }
  split; intros Hle.
  - destruct (client_decreased (lease_older (subopts w)) (lease_older (<[p := l']> (subopts w))) (active_timeouts P) (heap_idx w) k p) as (h & E & Hh & Hi & Hla & Hc & Hg);
      [apply Hok|apply Hok|done|done|intros x y Hx Hy; by apply older_other|intros y; by apply later_end with l|].
    unfold heap_decreased. rewrite (at_ptr_some (pool_map (put_lease w p l')) pl P) by done. cbn [mbind outcome_bind heap_of]. change (subopts (put_lease w p l')) with (<[p := l']> (subopts w)). rewrite E. cbn [mbind outcome_bind].
    eexists _, _. split; [done|]. by apply Hfin.
  - destruct (client_increased (lease_older (subopts w)) (lease_older (<[p := l']> (subopts w))) (active_timeouts P) (heap_idx w) k p) as (h & E & Hh & Hi & Hla & Hc & Hg);
      [apply Hok|apply Hok|done|done|intros x y Hx Hy; by apply older_other|intros y; by apply earlier_end with l|].
    unfold heap_increased. rewrite (at_ptr_some (pool_map (put_lease w p l')) pl P) by done. cbn [mbind outcome_bind heap_of]. change (subopts (put_lease w p l')) with (<[p := l']> (subopts w)). rewrite E. cbn [mbind outcome_bind].
    eexists _, _. split; [done|]. by apply Hfin.
Qed.

Lemma put_lease_twice w p l l' : put_lease (put_lease w p l) p l' = put_lease w p l'.
Proof. unfold put_lease, with_lease_map. cbn. by rewrite insert_insert_eq. Qed.

(** The counts of a pool stay in range, and its heaps can grow. *)
Definition room (P : ipv6_pool) : Prop := Z.of_nat (last (active_timeouts P)) + 1 < 2 ^ 31 /\ Z.of_nat (last (inactive_timeouts P)) + 1 < 2 ^ 31.

Lemma count_abandoned_ok w pl P b : pool_at w pl P -> room P ->
  exists w' P', count w pl 0 b 0 = Ret w' /\ keeps w pl P w' P' /\ subopts w' = subopts w /\ events w' = events w /\ heap_idx w' = heap_idx w /\
    active_timeouts P' = active_timeouts P /\ inactive_timeouts P' = inactive_timeouts P /\ leases P' = leases P.
Proof.
  intros [HP Hok Hpo Hfr] [Hr1 Hr2]. destruct (count_ok w pl P 0 b 0 HP Hpo) as (w' & E & Hr & Es & Ex & En & Ee & Em).
  assert (u64 (num_active P + 0) = num_active P) as E1 by (rewrite (ok_num_active _ _ _ Hok); unfold u64; rewrite Z.mod_small; lia).
  assert (s32 (num_inactive P + 0) = num_inactive P) as E2 by (rewrite (ok_num_inactive _ _ _ Hok); unfold s32; rewrite Z.mod_small; lia).
  rewrite E1, E2 in Em. exists w', (with_counts P (num_active P) (u64 (num_abandoned P + b)) (num_inactive P)). split; [done|]. split; [|by split_and!]. split; [|by split_and!]. constructor.
  - by rewrite Em, lookup_insert_eq.
  - rewrite Es, Ex. destruct Hok. by constructor.
  - by eapply pond_ok_rest.
  - rewrite Es, En. done.
Qed.

(** The lease [p] may be taken for its client: it is in use already, or its address
    is not, and all others that are not in use end before [t]. *)
Definition may_renew (w : mdb6) (P : ipv6_pool) (p : Z) (l : iasubopt) (t : Z) : Prop :=
  on_heap (active_timeouts P) p \/
  on_heap (inactive_timeouts P) p /\ entry (leases P) (addr l) = None /\
  forall q lq, on_heap (inactive_timeouts P) q -> q <> p -> subopts w !! q = Some lq -> hard_lifetime_end_time lq < t.

(** The times of a lease that is not in use do not matter to the pool. *)
Lemma idle_times_ok S X P p l l' :
  pool_ok S X P -> on_heap (inactive_timeouts P) p -> S !! p = Some l -> addr l' = addr l -> refcnt l' = refcnt l -> is_active (state l') = false -> pool_ok (<[p := l']> S) X P.
Proof.
  intros Hok Hp Hl Ea Er Hs. destruct (ok_not_in_use _ _ _ Hok p Hp) as (l0 & El & Hs0 & Hn). rewrite Hl in El. injection El as <-. constructor; try apply Hok.
  - eapply heap_times; [|apply Hok]. intros x Hx. rewrite times_insert, bool_decide_false; [done|]. intros ->. by apply (disjoint_heaps _ _ _ p Hok).
  - intros q Hq. rewrite lookup_insert_ne; [by apply (ok_in_use _ _ _ Hok)|]. intros ->. by apply (disjoint_heaps _ _ _ q Hok).
  - intros q Hq. destruct (decide (q = p)) as [->|Hne]; [exists l'; by rewrite lookup_insert_eq|]. rewrite lookup_insert_ne by done. by apply (ok_not_in_use _ _ _ Hok).
  - intros a q Hq. destruct (ok_entries _ _ _ Hok a q Hq) as (lq & Eq & Eaq & Hs'). exists lq. rewrite lookup_insert_ne; [done|]. intros ->. apply Hn, list_elem_of_fmap. by exists (a, q).
  - intros q lq Eq. destruct (decide (q = p)) as [->|Hne]; [|rewrite lookup_insert_ne in Eq by done; by apply (ok_held _ _ _ Hok)].
    rewrite lookup_insert_eq in Eq. injection Eq as <-. rewrite Er. by apply (ok_held _ _ _ Hok).
Qed.

Lemma renew_ok w pl P p l t :
  pool_at w pl P -> room P -> subopts w !! p = Some l -> may_renew w P p l t -> t <= MAX_TIME ->
  exists w' P' l', renew_lease6 true (put_lease w p (with_times l (hard_lifetime_end_time l) t)) pl p = Ret (R_SUCCESS, w') /\ keeps w pl P w' P' /\ on_heap (active_timeouts P') p /\
    subopts w' = <[p := l']> (subopts w) /\ hard_lifetime_end_time l' = t /\ state l' = FTS_ACTIVE /\ addr l' = addr l /\ ia l' = ia l.
Proof.
  intros Hat Hroom Hl Hm Ht. pose proof Hat as [HP Hok Hpo Hfr]. unfold renew_lease6. rewrite (at_ptr_some _ p (with_times l (hard_lifetime_end_time l) t)) by (cbn; by rewrite lookup_insert_eq). cbn [mbind outcome_bind]. cbn zeta.
  rewrite put_lease_twice. change (with_times (with_times l (hard_lifetime_end_time l) t) (soft_lifetime_end_time (with_times l (hard_lifetime_end_time l) t)) 0) with (with_times l t 0).
  cbn [with_times state hard_lifetime_end_time soft_lifetime_end_time]. fold (with_times l t 0). destruct Hm as [Hp|(Hp & He & Hend)].
  - destruct (ok_in_use _ _ _ Hok p Hp) as (l0 & El & Hact & He & Hsoft & Hhard & Hab). rewrite Hl in El. injection El as <-.
    destruct (state l) eqn:Es; try done.
    + destruct (reprice_ok w pl P p l (with_times l t 0)) as [Hlate Hearly]; [done..|split_and!; cbn; rewrite ?Es; done|].
      change (index_of (put_lease w p (with_times l t 0)) p) with (index_of w p).
      destruct (Z.leb_spec (hard_lifetime_end_time l) t) as [Hle|Hgt].
      * destruct (Hlate Hle) as (w' & P' & -> & Hk & Esub & _ & Hc & _). cbn [mbind outcome_bind]. exists w', P', (with_times l t 0). split_and!; try done. unfold on_heap. by rewrite Hc.
      * destruct (Hearly ltac:(cbn; lia)) as (w' & P' & -> & Hk & Esub & _ & Hc & _). cbn [mbind outcome_bind]. exists w', P', (with_times l t 0). split_and!; try done. unfold on_heap. by rewrite Hc.
    + unfold on_lease. rewrite (at_ptr_some _ p (with_times l t 0)) by (cbn; by rewrite lookup_insert_eq). cbn [mbind outcome_bind]. rewrite put_lease_twice.
      destruct (reprice_ok w pl P p l (with_state (with_times l t 0) FTS_ACTIVE)) as [_ Hearly]; [done..|split_and!; done|].
      change (index_of (put_lease w p (with_state (with_times l t 0) FTS_ACTIVE)) p) with (index_of w p). rewrite (Hab eq_refl) in Hearly.
      destruct (Hearly Ht) as (w' & P' & -> & Hk & Esub & _ & Hc & Ein & _). cbn [mbind outcome_bind].
      destruct (count_abandoned_ok w' pl P' (-1)) as (w2 & P2 & -> & Hk2 & Esub2 & _ & _ & Eact & _); [apply Hk| |].
      { unfold room in *. rewrite Ein. replace (last (active_timeouts P')) with (last (active_timeouts P)); [done|]. destruct Hk as ([_ Hok' _ _] & _).
        pose proof (on_heap_length _ (heap_ok_shape _ _ (ok_active _ _ _ Hok))) as L1. pose proof (on_heap_length _ (heap_ok_shape _ _ (ok_active _ _ _ Hok'))) as L2. rewrite contents_with_index in L1, L2. rewrite Hc in L2. cbn in *. lia. }
      cbn [mbind outcome_bind]. exists w2, P2, (with_state (with_times l t 0) FTS_ACTIVE). split_and!; try done; [by eapply keeps_trans|rewrite Eact; unfold on_heap; by rewrite Hc|by rewrite Esub2].
  - destruct (ok_not_in_use _ _ _ Hok p Hp) as (l0 & El & Hna & Hnl). rewrite Hl in El. injection El as <-.
    set (w1 := put_lease w p (with_times l t 0)). assert (pool_at w1 pl P) as Hat1.
    { constructor; [done|by eapply idle_times_ok|done|]. intros q Hq. cbn. rewrite lookup_insert_ne; [by apply Hfr|]. intros ->. rewrite Hfr in Hl by done. done. }
    destruct (move_lease_to_active_ok w1 pl P p (with_times l t 0)) as (w' & P' & E & Hk & Hon & Esub & _); [done|done|cbn; by rewrite lookup_insert_eq|done|done|done| |apply Hroom|destruct Hroom; lia|].
    { intros q Hq Hne. unfold lease_older, w1. cbn [subopts put_lease with_lease_map]. rewrite !times_insert. rewrite bool_decide_false, bool_decide_true by done. destruct (ok_not_in_use _ _ _ Hok q Hq) as (lq & Eq & _).
      unfold times, older. rewrite Eq. cbn. pose proof (Hend q lq Hq Hne Eq). rewrite (proj2 (Z.eqb_neq _ t)) by lia. by apply Z.ltb_lt. }
    assert (match state l with FTS_ACTIVE | FTS_ABANDONED => False | _ => True end) as Hst by (by destruct (state l)).
    exists w', P', (with_state (with_refcnt (with_times l t 0) (refcnt l + 1)) FTS_ACTIVE). split_and!; try done.
    + destruct (state l); try done.
    + destruct Hk as (? & Hr & ? & ?). split; [done|]. split; [|done]. eapply rest_trans; [apply (rest_put_lease w pl p)|exact Hr].
    + rewrite Esub. cbn. by rewrite insert_insert_eq.
Qed.

(** ** Releasing, declining and expiring *)

(** What a lease has besides its address, its state and its times does not matter to
    the pool, as long as the references are counted. *)
Lemma kept_ok S X P p l l' :
  pool_ok S X P -> S !! p = Some l -> addr l' = addr l -> state l' = state l -> times {[p := l']} p = times {[p := l]} p -> held P p <= refcnt l' -> pool_ok (<[p := l']> S) X P.
Proof.
  intros Hok Hl Ea Es Et Hn. unfold times in Et. rewrite !lookup_singleton_eq in Et. injection Et as Eh Ef.
  assert (forall q lq, S !! q = Some lq -> exists lq', <[p := l']> S !! q = Some lq' /\ addr lq' = addr lq /\ state lq' = state lq /\
    hard_lifetime_end_time lq' = hard_lifetime_end_time lq /\ soft_lifetime_end_time lq' = soft_lifetime_end_time lq) as Hsame.
  { intros q lq Hq. destruct (decide (q = p)) as [->|Hne]; [exists l'; rewrite lookup_insert_eq; rewrite Hl in Hq; by injection Hq as <-|exists lq; by rewrite lookup_insert_ne]. }
  constructor; try apply Hok.
  - eapply heap_times; [|apply Hok]. intros x _. by apply times_same with l.
  - intros q Hq. destruct (ok_in_use _ _ _ Hok q Hq) as (lq & Eq & Ha). destruct (Hsame q lq Eq) as (lq' & Eq' & E1 & E2 & E3 & E4). exists lq'. split; [done|]. unfold active_lease in *. by rewrite E1, E2, E3, E4.
  - intros q Hq. destruct (ok_not_in_use _ _ _ Hok q Hq) as (lq & Eq & Ha). destruct (Hsame q lq Eq) as (lq' & Eq' & _ & E2 & _). exists lq'. by rewrite E2.
  - intros a q Hq. destruct (ok_entries _ _ _ Hok a q Hq) as (lq & Eq & Ha). destruct (Hsame q lq Eq) as (lq' & Eq' & E1 & E2 & _). exists lq'. by rewrite E1, E2.
  - intros q lq Eq. destruct (decide (q = p)) as [->|Hne].
    + rewrite lookup_insert_eq in Eq. by injection Eq as <-.
    + rewrite lookup_insert_ne in Eq by done. by apply (ok_held _ _ _ Hok).
Qed.

Lemma put_kept_ok w pl P p l l' :
  pool_at w pl P -> subopts w !! p = Some l -> addr l' = addr l -> state l' = state l -> times {[p := l']} p = times {[p := l]} p -> held P p <= refcnt l' -> keeps w pl P (put_lease w p l') P.
Proof.
  intros [HP Hok Hpo Hfr] Hl Ea Es Et Hn. split; [|split; [apply rest_put_lease|done]]. constructor; [done|by apply kept_ok with l|done|].
  intros q Hq. cbn. rewrite lookup_insert_ne; [by apply Hfr|]. intros ->. rewrite Hfr in Hl by done. done.
Qed.

Lemma put_refcnt_ok w pl P p l n : pool_at w pl P -> subopts w !! p = Some l -> held P p <= n -> keeps w pl P (put_lease w p (with_refcnt l n)) P.
Proof. intros Hat Hl Hn. apply put_kept_ok with l; try done. unfold times. by rewrite !lookup_singleton_eq. Qed.

Lemma active_refs S X P p l : pool_ok S X P -> on_heap (active_timeouts P) p -> S !! p = Some l -> 2 <= refcnt l.
Proof.
  intros Hok Hp Hl. destruct (ok_in_use _ _ _ Hok p Hp) as (l0 & El & _ & He & _). rewrite Hl in El. injection El as <-.
  pose proof (ok_held _ _ _ Hok p l Hl) as Hh. unfold held in Hh. rewrite (ind_true (on_heap (active_timeouts P) p)), (ind_true (p ∈ (leases P).*2)) in Hh; [|apply list_elem_of_fmap; exists (addr l, p); split; [done|by apply entry_in]|done].
  pose proof (ind_bounds (on_heap (inactive_timeouts P) p)). lia.
Qed.

Lemma decline_ok w pl P p l :
  pool_at w pl P -> room P -> on_heap (active_timeouts P) p -> subopts w !! p = Some l ->
  exists w' P', decline_lease6 true w pl p = Ret (R_SUCCESS, w') /\ keeps w pl P w' P' /\ on_heap (active_timeouts P') p /\
    subopts w' = <[p := with_times (with_state l FTS_ABANDONED) MAX_TIME 0]> (subopts w).
Proof.
  intros Hat Hroom Hp Hl. pose proof Hat as [HP Hok Hpo Hfr]. destruct (ok_in_use _ _ _ Hok p Hp) as (l0 & El & Hact & He & Hsoft & Hhard & _). rewrite Hl in El. injection El as <-.
  unfold decline_lease6. rewrite (at_ptr_some _ _ _ Hl). cbn [mbind outcome_bind]. rewrite Hact. cbn [negb mbind outcome_bind]. unfold on_lease. rewrite (at_ptr_some _ _ _ Hl). cbn [mbind outcome_bind].
  set (w1 := put_lease w p (with_state l FTS_ABANDONED)).
  destruct (count_ok w1 pl P 0 1 0) as (w2 & -> & Hr2 & Es2 & Ex2 & En2 & Ee2 & Em2); [done|done|]. cbn [mbind outcome_bind].
  rewrite (at_ptr_some _ p (with_state l FTS_ABANDONED)) by (rewrite Es2; cbn; by rewrite lookup_insert_eq). cbn [mbind outcome_bind].
  assert (u64 (num_active P + 0) = num_active P) as E1 by (rewrite (ok_num_active _ _ _ Hok); destruct Hroom; unfold u64; rewrite Z.mod_small; lia).
  assert (s32 (num_inactive P + 0) = num_inactive P) as E2 by (rewrite (ok_num_inactive _ _ _ Hok); destruct Hroom; unfold s32; rewrite Z.mod_small; lia).
  rewrite E1, E2 in Em2. set (P2 := with_counts P _ _ _) in Em2. set (w2' := with_lease_map w2 (subopts w) (heap_idx w)).
  assert (keeps w pl P w2' P2) as Hk.
  { assert (rest pl w w2') as Hr by (destruct Hr2; by constructor). split; [|split; [done|split; [done|done]]]. constructor.
    - cbn. by rewrite Em2, lookup_insert_eq.
    - destruct Hok. by constructor.
    - by eapply pond_ok_rest.
    - cbn. rewrite En2. done. }
  cbn [with_state soft_lifetime_end_time]. rewrite Hsoft. fold (with_state l FTS_ABANDONED). set (l2 := with_times (with_state l FTS_ABANDONED) MAX_TIME 0).
  assert (put_lease w2 p l2 = put_lease w2' p l2) as -> by (unfold put_lease, w2', with_lease_map; cbn; rewrite Es2, Ex2; cbn; by rewrite insert_insert_eq).
  change (index_of (put_lease w2' p l2) p) with (index_of w2' p).
  destruct (reprice_ok w2' pl P2 p l l2) as [Hlate _]; [apply Hk|done|done|done|done|split_and!; done|].
  destruct (Hlate ltac:(cbn; lia)) as (w' & P' & -> & Hk' & Esub & _ & Hc & _). cbn [mbind outcome_bind]. exists w', P'. split_and!; [done|by eapply keeps_trans|unfold on_heap; by rewrite Hc|done].
Qed.

Lemma active_count S X P : pool_ok S X P -> forall p, on_heap (active_timeouts P) p -> (1 <= last (active_timeouts P))%nat.
Proof. intros Hok p Hp. destruct (indexed_at _ _ _ Active p Hok Hp) as (k & _ & Hk & _). cbn in Hk. lia. Qed.

Definition total (P : ipv6_pool) : nat := last (active_timeouts P) + last (inactive_timeouts P).

(** [expire_lease6] finds a lease that has ended, if there is one. *)
Lemma expire_ok w pl P now :
  pool_at w pl P -> Z.of_nat (total P) + 1 < 2 ^ 31 ->
  (exists p l w' P', expire_lease6 true w pl now = Ret (R_SUCCESS, Some p, w') /\ on_heap (active_timeouts P) p /\ subopts w !! p = Some l /\ hard_lifetime_end_time l < now /\
     keeps w pl P w' P' /\ contents (active_timeouts P) ≡ₚ Some p :: contents (active_timeouts P') /\ contents (inactive_timeouts P') ≡ₚ Some p :: contents (inactive_timeouts P) /\
     last (active_timeouts P') = (last (active_timeouts P) - 1)%nat /\ total P' = total P /\
     subopts w' = <[p := with_state (with_refcnt (without_statements l) (refcnt l)) FTS_EXPIRED]> (subopts w) /\ events w' = events w ++ ending P p l FTS_EXPIRED) \/
  (expire_lease6 true w pl now = Ret (R_SUCCESS, None, w) /\ forall q lq, on_heap (active_timeouts P) q -> subopts w !! q = Some lq -> now <= hard_lifetime_end_time lq).
Proof.
  intros Hat Hr. pose proof Hat as [HP Hok Hpo Hfr]. unfold expire_lease6. rewrite (at_ptr_some _ _ _ HP). cbn [mbind outcome_bind]. rewrite (ok_num_active _ _ _ Hok).
  destruct (Z.ltb_spec 0 (Z.of_nat (last (active_timeouts P)))) as [Hpos|Hzero].
  2: { right. split; [done|]. intros q lq Hq. pose proof (active_count _ _ _ Hok q Hq). lia. }
  destruct (isc_heap_top (lease_older (subopts w)) (with_index (active_timeouts P) (heap_idx w)) (ok_active _ _ _ Hok)) as (p & Ep & Hp & Hmin); [cbn; lia|].
  change (isc_heap_element (with_index (active_timeouts P) (heap_idx w)) 1) with (isc_heap_element (active_timeouts P) 1) in Ep. rewrite Ep. cbn [mbind outcome_bind].
  change (on_heap (active_timeouts P) p) in Hp. destruct (ok_in_use _ _ _ Hok p Hp) as (l & Hl & Hact). rewrite (at_ptr_some _ _ _ Hl). cbn [mbind outcome_bind].
  destruct (Z.ltb_spec (hard_lifetime_end_time l) now) as [Hlt|Hge].
  - left. unfold total in *. destruct (move_lease_to_inactive_ok w pl P p l FTS_EXPIRED) as (w1 & P1 & -> & Hk & Hc1 & Hc2 & Hl1 & Hl2 & Es & Ee); [done|done|done|done|lia|lia|]. cbn [mbind outcome_bind].
    unfold iasubopt_reference, on_lease. rewrite (at_ptr_some (subopts w1) p (with_state (with_refcnt (without_statements l) (refcnt l - 1)) FTS_EXPIRED)) by (rewrite Es; by rewrite lookup_insert_eq). cbn [mbind outcome_bind].
    set (lx := with_state _ _) in Es. eexists p, l, _, P1. split; [done|]. split; [done|]. split; [done|]. split; [done|].
    assert (with_refcnt lx (refcnt lx + 1) = with_state (with_refcnt (without_statements l) (refcnt l)) FTS_EXPIRED) as Ex by (unfold lx, with_refcnt, with_state, without_statements; cbn; by replace (refcnt l - 1 + 1) with (refcnt l) by lia).
    split; [|split_and!; [done|done|done|lia|cbn; rewrite Es, insert_insert_eq; by rewrite <- Ex|done]].
    eapply keeps_trans; [exact Hk|]. apply put_refcnt_ok; [apply Hk|rewrite Es; by rewrite lookup_insert_eq|].
    change (held P1 p <= refcnt lx + 1). assert (held P1 p <= refcnt lx) by (apply (ok_held _ _ _ (at_ok _ _ _ (proj1 Hk))); rewrite Es; by rewrite lookup_insert_eq). lia.
  - right. split; [done|]. intros q lq Hq Hlq. pose proof (Hmin q Hq) as Ho. destruct (ok_in_use _ _ _ Hok q Hq) as (lq' & Eq & Hactq). rewrite Hlq in Eq. injection Eq as <-.
    unfold lease_older, older, times in Ho. rewrite Hl, Hlq in Ho. cbn [fst snd] in Ho. revert Ho. case_match; rewrite ?Z.eqb_eq, ?Z.eqb_neq, ?Z.ltb_ge in *; lia.
Qed.

Lemma idle_held S X P p : pool_ok S X P -> on_heap (inactive_timeouts P) p -> held P p = 1.
Proof.
  intros Hok Hp. destruct (ok_not_in_use _ _ _ Hok p Hp) as (l & _ & _ & Hn). unfold held. rewrite (ind_true (on_heap (inactive_timeouts P) p)), (ind_false (p ∈ (leases P).*2)), (ind_false (on_heap (active_timeouts P) p)); [done|intros Ha; by apply (disjoint_heaps _ _ _ p Hok)|done|done].
Qed.

Lemma log_event_keeps w pl P e : pool_at w pl P -> keeps w pl P (log_event w e) P.
Proof. intros [? ? ? ?]. split; [by constructor|]. split; [by constructor|done]. Qed.

(** A lease that has expired. *)
Definition expired (l l' : iasubopt) : Prop :=
  state l' = FTS_EXPIRED /\ addr l' = addr l /\ hard_lifetime_end_time l' = hard_lifetime_end_time l /\ ia l' = ia l.

(** What the loop of [lease_timeout_support] does to the leases: those in use that have
    ended are moved, the others stay. *)
Definition expires (w : mdb6) (P : ipv6_pool) (now : Z) (w' : mdb6) (P' : ipv6_pool) : Prop :=
  forall p l, subopts w !! p = Some l ->
    if bool_decide (on_heap (active_timeouts P) p /\ hard_lifetime_end_time l < now) then
      on_heap (inactive_timeouts P') p /\ (exists l', subopts w' !! p = Some l' /\ expired l l') /\ forall i, ia l = Some i -> WriteIa i ∈ events w'
    else subopts w' !! p = Some l /\ (on_heap (active_timeouts P') p <-> on_heap (active_timeouts P) p) /\ (on_heap (inactive_timeouts P') p <-> on_heap (inactive_timeouts P) p).

Lemma expire_loop_ok now pl fuel : forall w P,
  pool_at w pl P -> Z.of_nat (total P) + 1 < 2 ^ 31 -> (last (active_timeouts P) <= fuel)%nat ->
  (forall p l, on_heap (active_timeouts P) p -> subopts w !! p = Some l -> ia l <> None) ->
  exists w' P', expire_loop true fuel w pl now = Ret w' /\ keeps w pl P w' P' /\ total P' = total P /\ expires w P now w' P' /\ (exists es, events w' = events w ++ es) /\
    (forall p, on_heap (active_timeouts P') p -> on_heap (active_timeouts P) p).
Proof.
  induction fuel as [|fuel IH]; intros w P Hat Htot Hfuel Hia;
    (destruct (expire_ok w pl P now Hat Htot) as [(p & l & w1 & P1 & E & Hp & Hl & Hlt & Hk & Hc1 & Hc2 & Hl1 & Ht1 & Es & Ee)|[E Hall]];
      [|exists w, P; split; [cbn [expire_loop]; rewrite E; done|]; split; [by apply keeps_refl|]; split; [done|]; split; [|split; [exists []; by rewrite app_nil_r|done]];
        intros q lq Hq; rewrite bool_decide_false; [done|]; intros [Ha Hlt]; pose proof (Hall q lq Ha Hq); lia]).
  - pose proof (active_count _ _ _ (at_ok _ _ _ Hat) p Hp). lia.
  - cbn [expire_loop]. rewrite E. cbn [mbind outcome_bind]. set (l1 := with_state _ _) in Es. destruct (ia l) as [i|] eqn:Ei; [|by destruct (Hia p l Hp Hl)].
    rewrite (at_ptr_some (subopts w1) p l1) by (rewrite Es; by rewrite lookup_insert_eq). cbn [mbind outcome_bind]. change (ia l1) with (ia l). rewrite Ei. cbn [mbind outcome_bind].
    pose proof (active_refs _ _ _ _ _ (at_ok _ _ _ Hat) Hp Hl) as Href.
    rewrite (dereference_keeps (log_event w1 (WriteIa i)) p l1) by (done || (cbn; rewrite Es; by rewrite lookup_insert_eq)). cbn [mbind outcome_bind]. set (w2 := put_lease _ p _).
    assert (forall x, on_heap (active_timeouts P) x <-> x = p \/ on_heap (active_timeouts P1) x) as Ho1 by (intros x; by apply on_heap_perm).
    assert (forall x, on_heap (inactive_timeouts P1) x <-> x = p \/ on_heap (inactive_timeouts P) x) as Ho2 by (intros x; by apply on_heap_perm).
    assert (on_heap (inactive_timeouts P1) p) as Hin1 by (apply Ho2; by left).
    assert (keeps w pl P w2 P1) as Hk2.
    { eapply keeps_trans; [exact Hk|]. eapply keeps_trans; [apply (log_event_keeps w1 pl P1 (WriteIa i)), Hk|]. apply put_refcnt_ok; [apply log_event_keeps, Hk|cbn; rewrite Es; by rewrite lookup_insert_eq|].
      rewrite (idle_held _ _ _ _ (at_ok _ _ _ (proj1 Hk)) Hin1). cbn. lia. }
    set (l2 := with_refcnt l1 (refcnt l1 - 1)) in w2. assert (subopts w2 = <[p := l2]> (subopts w)) as Es2 by (cbn; rewrite Es; by rewrite insert_insert_eq).
    assert (~ on_heap (active_timeouts P1) p) as Hnp by (intros Ha; by apply (disjoint_heaps _ _ _ p (at_ok _ _ _ (proj1 Hk)))).
    destruct (IH w2 P1) as (w' & P' & E' & Hk' & Ht' & Hex & (es & Hes) & Hsub'); [apply Hk2|by rewrite Ht1|lia| |].
    { intros q lq Hq Hlq. rewrite Es2 in Hlq. assert (q <> p) by (intros ->; done). rewrite lookup_insert_ne in Hlq by done. apply (Hia q); [|done]. apply Ho1. by right. }
    exists w', P'. split; [done|]. split; [by eapply keeps_trans|]. split; [congruence|]. split; [|split; [exists (ending P p l FTS_EXPIRED ++ [WriteIa i] ++ es); rewrite Hes; cbn; rewrite Ee; by rewrite <- !app_assoc|intros q Hq; apply Ho1; right; by apply Hsub']].
    intros q lq Hq. destruct (decide (q = p)) as [->|Hne].
    + rewrite Hl in Hq. injection Hq as <-. rewrite bool_decide_true by done. specialize (Hex p l2). rewrite Es2, lookup_insert_eq in Hex. specialize (Hex eq_refl). rewrite bool_decide_false in Hex by (by intros [? _]).
      destruct Hex as (Hsub & _ & Hin). split; [by apply Hin|]. split; [exists l2; split; [done|by split_and!]|]. intros j Ej. rewrite Ei in Ej. injection Ej as <-.
      rewrite Hes. cbn. apply elem_of_app. left. apply elem_of_app. right. by apply list_elem_of_singleton.
    + specialize (Hex q lq). rewrite Es2, lookup_insert_ne in Hex by done. specialize (Hex Hq). assert (on_heap (active_timeouts P1) q <-> on_heap (active_timeouts P) q) as Ea by (rewrite Ho1; naive_solver).
      assert (on_heap (inactive_timeouts P1) q <-> on_heap (inactive_timeouts P) q) as Eb by (rewrite Ho2; naive_solver).
      rewrite (bool_decide_ext _ (on_heap (active_timeouts P) q /\ hard_lifetime_end_time lq < now)) in Hex by (by rewrite Ea). case_bool_decide; [done|]. destruct Hex as (? & Hx & Hy). split; [done|]. by rewrite Hx, Hy.
Qed.

(** ** New leases *)

Lemma unknown_lease S X P p : pool_ok S X P -> S !! p = None -> ~ on_heap (active_timeouts P) p /\ ~ on_heap (inactive_timeouts P) p /\ p ∉ (leases P).*2.
Proof.
  intros Hok Hn. split_and!.
  - intros Hp. destruct (ok_in_use _ _ _ Hok p Hp) as (l & E & _). congruence.
  - intros Hp. destruct (ok_not_in_use _ _ _ Hok p Hp) as (l & E & _). congruence.
  - intros ([a q] & -> & Hin)%list_elem_of_fmap. destruct (ok_entries _ _ _ Hok a q Hin) as (l & E & _). cbn in Hn. congruence.
Qed.

(** A lease that the pool does not know. *)
Lemma fresh_ok S X P p l : pool_ok S X P -> S !! p = None -> 0 <= refcnt l -> pool_ok (<[p := l]> S) X P.
Proof.
  intros Hok Hn Hr. destruct (unknown_lease _ _ _ _ Hok Hn) as (Ha & Hi & Ht). constructor; try apply Hok.
  - eapply heap_times; [|apply Hok]. intros x Hx. rewrite times_insert, bool_decide_false; [done|]. by intros ->.
  - intros q Hq. rewrite lookup_insert_ne by (by intros ->). by apply (ok_in_use _ _ _ Hok).
  - intros q Hq. rewrite lookup_insert_ne by (by intros ->). by apply (ok_not_in_use _ _ _ Hok).
  - intros a q Hq. rewrite lookup_insert_ne by (intros ->; apply Ht, list_elem_of_fmap; by exists (a, q)). by apply (ok_entries _ _ _ Hok).
  - intros q lq Eq. destruct (decide (q = p)) as [->|Hne]; [|rewrite lookup_insert_ne in Eq by done; by apply (ok_held _ _ _ Hok)].
    rewrite lookup_insert_eq in Eq. injection Eq as <-. unfold held. by rewrite !ind_false.
Qed.

(** The fields that are not part of the invariant. *)
Lemma pool_refcnt_ok S X P n : pool_ok S X P -> pool_ok S X (with_pool_refcnt P n).
Proof. intros [? ? ? ? ? ? ? ? ? ? ?]. by constructor. Qed.

(** A lease that is in neither structure is put on the heap of those not in use. *)
Lemma inserted_ok S X P p l h ab :
  pool_ok S X P -> S !! p = Some l -> ~ on_heap (active_timeouts P) p -> ~ on_heap (inactive_timeouts P) p -> p ∉ (leases P).*2 -> is_active (state l) = false -> 1 <= refcnt l ->
  Z.of_nat (last (active_timeouts P)) + 1 < 2 ^ 31 -> Z.of_nat (last (inactive_timeouts P)) + 1 < 2 ^ 31 ->
  heap_shape (logged h X) -> has_index h = true -> last h = (last (inactive_timeouts P) + 1)%nat -> contents h ≡ₚ Some p :: contents (inactive_timeouts P) -> log_ok h ->
  pool_ok S (heap_index h ∪ X) (with_counts (with_heap Inactive P (with_index h ∅)) (u64 (num_active P + 0)) ab (s32 (num_inactive P + 1))).
Proof.
  intros Hok Hl Ha Hi Ht Hs Hr Hr1 Hr2 Hh Hx Hla Hc Hg. assert (forall x, on_heap h x <-> x = p \/ on_heap (inactive_timeouts P) x) as Ho by (intros x; by apply on_heap_perm).
  constructor; cbn [with_counts with_heap with_leases active_timeouts inactive_timeouts leases num_active num_inactive]; try apply Hok.
  - apply (contents_index _ _ X); [|apply Hok]. intros x Hxa. apply log_agree; [done|done|]. intros [->|Hxi]%Ho; [done|]. by apply (disjoint_heaps _ _ _ x Hok).
  - rewrite logged_with_index. exact Hh.
  - done.
  - intros q Hq. change (on_heap h q) in Hq. apply Ho in Hq as [->|Hq]; [by exists l|by apply (ok_not_in_use _ _ _ Hok)].
  - rewrite (ok_num_active _ _ _ Hok). unfold u64. rewrite Z.mod_small; lia.
  - rewrite (ok_num_inactive _ _ _ Hok). cbn [with_index last]. unfold s32. rewrite Z.mod_small by lia. lia.
  - intros q lq Eq. pose proof (ok_held _ _ _ Hok q lq Eq) as Hh'. unfold held in *. cbn [with_counts with_heap active_timeouts inactive_timeouts leases]. destruct (decide (q = p)) as [->|Hne].
    + rewrite (ind_false (p ∈ _)), (ind_false (on_heap (active_timeouts P) p)) by done. rewrite Hl in Eq. injection Eq as <-. pose proof (ind_bounds (on_heap (with_index h ∅) p)). lia.
    + rewrite (ind_ext (on_heap (with_index h ∅) q) (on_heap (inactive_timeouts P) q)); [done|]. change (on_heap h q <-> on_heap (inactive_timeouts P) q). rewrite Ho. naive_solver.
Qed.

(** What is the same in a pool that has more references. *)
Definition same_range (P P' : ipv6_pool) : Prop :=
  pool_type P' = pool_type P /\ start_addr P' = start_addr P /\ bits P' = bits P /\ units P' = units P /\ pond_of P' = pond_of P.

Lemma new_lease_ok w pl P a len t :
  pool_at w pl P -> room P -> entry (leases P) a = None ->
  exists w' P' l, new_lease true w pl a len t = Ret (R_SUCCESS, Some (next_ptr w), w') /\ pool_at w' pl P' /\ rest pl w w' /\ same_range P P' /\
    subopts w' = <[next_ptr w := l]> (subopts w) /\ addr l = a /\ state l = FTS_FREE /\ refcnt l = 2 /\ plen l = len /\ hard_lifetime_end_time l = 0 /\ soft_lifetime_end_time l = t /\
    contents (inactive_timeouts P') ≡ₚ Some (next_ptr w) :: contents (inactive_timeouts P) /\ active_timeouts P' = active_timeouts P /\ leases P' = leases P /\ next_ptr w' = next_ptr w + 1.
Proof.
  intros [HP Hok Hpo Hfr] [Hr1 Hr2] He. set (p := next_ptr w). assert (subopts w !! p = None) as Hn by (apply Hfr; unfold p; lia).
  destruct (unknown_lease _ _ _ _ Hok Hn) as (Ha & Hi & Ht). unfold new_lease, iasubopt_allocate. cbn iota. fold p. cbn zeta. unfold on_lease.
  set (w0 := with_next _ _). rewrite (at_ptr_some (subopts w0) p (Iasubopt 1 (replicate 16 0) 255 FTS_FREE false 0 0 None None false false)) by (cbn; by rewrite lookup_insert_eq). cbn [mbind outcome_bind].
  unfold add_lease6. set (w1 := put_lease w0 p _). set (l1 := Iasubopt 1 a len FTS_FREE false 0 0 None None false false).
  rewrite (at_ptr_some (subopts w1) p l1) by (cbn; by rewrite lookup_insert_eq). cbn [mbind outcome_bind]. rewrite bool_decide_false by done. cbn [l1 ipv6_pool_of]. fold l1.
  unfold ipv6_pool_reference, on_pool. rewrite (at_ptr_some _ pl P) by done. cbn [mbind outcome_bind]. set (w2 := put_pool _ pl _). set (P2 := with_pool_refcnt P (pool_refcnt P + 1)).
  assert (pool_map w2 !! pl = Some P2) as HP2 by (cbn; by rewrite lookup_insert_eq).
  unfold iasubopt_hash_lookup. rewrite (at_ptr_some _ _ _ HP2). cbn [mbind outcome_bind]. change (entry (leases P2) (addr l1)) with (entry (leases P) a). rewrite He. cbn [mbind outcome_bind].
  unfold put_in, iasubopt_reference, on_lease. rewrite (at_ptr_some (subopts w2) p (with_pool_of l1 (Some pl))) by (cbn; by rewrite lookup_insert_eq). cbn [mbind outcome_bind].
  set (w3 := put_lease w2 p _). set (l3 := with_refcnt (with_pool_of l1 (Some pl)) 2). rewrite (at_ptr_some (subopts w3) p l3) by (cbn; by rewrite lookup_insert_eq). cbn [mbind outcome_bind].
  change (is_active (state l3)) with false. cbn iota. set (w4 := put_lease w3 p (with_times l3 (hard_lifetime_end_time l3) t)). cbn [mbind outcome_bind].
  set (l4 := with_times l3 (hard_lifetime_end_time l3) t) in w4. assert (subopts w4 = <[p := l4]> (subopts w)) as Es4 by (cbn; by rewrite !insert_insert_eq).
  assert (pool_ok (subopts w4) (heap_idx w) P2) as Hok4 by (rewrite Es4; by apply pool_refcnt_ok, fresh_ok).
  destruct (client_insert_shape (lease_older (subopts w4)) (inactive_timeouts P2) (heap_idx w) p) as (h & E & Hh & Hx & Hla & Hc & Hg); [apply Hok4|apply Hok4|exact Hr2|done|].
  rewrite (heap_insert_ret w4 pl P2 Inactive p h) by done. cbn [mbind outcome_bind]. set (w5 := index_changed w4 pl Inactive P2 h). set (P5 := with_heap Inactive P2 (with_index h ∅)).
  assert (rest pl w w5) as Hr5 by (constructor; try done; cbn; intros q Hq; by rewrite !lookup_insert_ne).
  destruct (count_ok w5 pl P5 0 0 1) as (w6 & -> & Hr6 & Es6 & Ex6 & En6 & Ee6 & Em6); [cbn; by rewrite lookup_insert_eq|by eapply pond_ok_rest|]. cbn [mbind outcome_bind].
  rewrite !bool_decide_true by done. rewrite (at_ptr_some (subopts w6) p l4) by (rewrite Es6; cbn; by rewrite lookup_insert_eq). cbn [mbind outcome_bind].
  rewrite (dereference_keeps _ p (with_refcnt l4 3)) by (done || (cbn; by rewrite lookup_insert_eq)). cbn [mbind outcome_bind]. rewrite put_lease_twice. set (w7 := put_lease w6 p _).
  assert (subopts w7 = subopts w6) as Es7 by (cbn; rewrite Es6; change (subopts w5) with (subopts w4); rewrite Es4; by rewrite insert_insert_eq).
  set (P6 := with_counts P5 _ _ _) in Em6. exists w7, P6, l4. split; [done|]. assert (rest pl w w7) as Hr7 by (eapply rest_trans; [exact Hr5|]; eapply rest_trans; [exact Hr6|apply rest_put_lease]).
  split_and!; try done; [|rewrite Es7, Es6; exact Es4]. constructor.
  - cbn. by rewrite Em6, lookup_insert_eq.
  - rewrite Es7, Es6. cbn [heap_idx w7 put_lease with_lease_map]. rewrite Ex6. change (subopts w5) with (subopts w4). change (heap_idx w5) with (heap_index h ∪ heap_idx w).
    by apply (inserted_ok (subopts w4) (heap_idx w) P2 p l4 h); try done; rewrite Es4, lookup_insert_eq.
  - by eapply pond_ok_rest.
  - intros q Hq. rewrite Es7, Es6. change (subopts w5) with (subopts w4). rewrite Es4. cbn in Hq. rewrite En6 in Hq. cbn in Hq. fold p in Hq. rewrite lookup_insert_ne by lia. apply Hfr. unfold p in *. lia.
Qed.

(** An address is marked: its entry leads to a lease that is on neither heap. *)
Lemma marked_ok S X P p l :
  pool_ok S X P -> S !! p = None -> is_active (state l) = false -> entry (leases P) (addr l) = None -> 1 <= refcnt l -> pool_ok (<[p := l]> S) X (with_leases P ((addr l, p) :: leases P)).
Proof.
  intros Hok Hn Hs He Hr. destruct (unknown_lease _ _ _ _ Hok Hn) as (Ha & Hi & Ht). pose proof (fresh_ok _ _ _ _ l Hok Hn ltac:(lia)) as Hf.
  assert (addr l ∉ (leases P).*1) as Hkey by (by apply entry_none).
  constructor; cbn [with_leases active_timeouts inactive_timeouts leases num_active num_inactive]; try apply Hf.
  - intros q Hq. destruct (ok_in_use _ _ _ Hf q Hq) as (lq & Eq & Hact & Hen & ? & ? & ?). exists lq. split; [done|]. split_and!; try done.
    change (entry ((addr l, p) :: leases P) (addr lq) = Some q). cbn [entry]. rewrite bool_decide_false; [done|]. intros E. apply Hkey. rewrite <- E. apply list_elem_of_fmap. exists (addr lq, q). split; [done|]. by apply entry_in.
  - intros q Hq. destruct (ok_not_in_use _ _ _ Hf q Hq) as (lq & Eq & Hact & Hnl). exists lq. split; [done|]. split; [done|]. cbn [fmap list_fmap snd]. apply not_elem_of_cons. split; [by intros ->|done].
  - cbn [fmap list_fmap fst]. apply NoDup_cons. split; [done|apply Hok].
  - intros a q [E|Hq]%elem_of_cons; [|by apply (ok_entries _ _ _ Hf)]. injection E as -> ->. exists l. rewrite lookup_insert_eq. split; [done|]. split; [done|by right].
  - intros q lq Eq. unfold held. cbn [with_leases active_timeouts inactive_timeouts leases]. destruct (decide (q = p)) as [->|Hne].
    + rewrite lookup_insert_eq in Eq. injection Eq as <-. rewrite (ind_false (on_heap (active_timeouts P) p)), (ind_false (on_heap (inactive_timeouts P) p)) by done. pose proof (ind_bounds (p ∈ ((addr l, p) :: leases P).*2)). lia.
    + rewrite (ind_ext (q ∈ ((addr l, p) :: leases P).*2) (q ∈ (leases P).*2)); [by apply (ok_held _ _ _ Hf)|]. cbn [fmap list_fmap snd]. rewrite elem_of_cons. naive_solver.
Qed.

Lemma mark_ok w pl P a :
  pool_at w pl P -> entry (leases P) a = None ->
  exists w' P', mark_lease_unavailable true w pl a = Ret (R_SUCCESS, w') /\ pool_at w' pl P' /\ rest pl w w' /\ same_range P P' /\
    leases P' = (a, next_ptr w) :: leases P /\ active_timeouts P' = active_timeouts P /\ inactive_timeouts P' = inactive_timeouts P.
Proof.
  intros [HP Hok Hpo Hfr] He. set (p := next_ptr w). assert (subopts w !! p = None) as Hn by (apply Hfr; unfold p; lia). unfold mark_lease_unavailable, iasubopt_allocate. cbn iota. fold p. cbn zeta. unfold on_lease.
  set (w0 := with_next _ _). rewrite (at_ptr_some (subopts w0) p (Iasubopt 1 (replicate 16 0) 255 FTS_FREE false 0 0 None None false false)) by (cbn; by rewrite lookup_insert_eq). cbn [mbind outcome_bind].
  set (w1 := put_lease w0 p _). set (l1 := Iasubopt 1 a 255 FTS_FREE false 0 0 None None false false). unfold iasubopt_hash_add. cbn iota. unfold on_pool. rewrite (at_ptr_some (pool_map w1) pl P) by done. cbn [mbind outcome_bind].
  unfold iasubopt_reference, on_lease. set (w2 := put_pool _ pl _). rewrite (at_ptr_some (subopts w2) p l1) by (cbn; by rewrite lookup_insert_eq). cbn [mbind outcome_bind]. set (w3 := put_lease w2 p _).
  set (l3 := with_refcnt l1 (refcnt l1 + 1)) in w3. assert (subopts w3 = <[p := l3]> (subopts w)) as Es by (cbn; by rewrite !insert_insert_eq).
  exists w3, (with_leases P ((a, p) :: leases P)). split; [done|]. assert (rest pl w w3) as Hr by (constructor; try done; cbn; intros q Hq; by rewrite lookup_insert_ne).
  split_and!; try done. constructor.
  - cbn. by rewrite lookup_insert_eq.
  - rewrite Es. by apply (marked_ok (subopts w) (heap_idx w) P p l3).
  - by eapply pond_ok_rest.
  - intros q Hq. rewrite Es. change (next_ptr w3) with (p + 1) in Hq. rewrite lookup_insert_ne by lia. apply Hfr. unfold p in *. lia.
Qed.

Lemma release_lease6_ok w pl P p l :
  pool_at w pl P -> room P -> on_heap (active_timeouts P) p -> subopts w !! p = Some l ->
  exists w' P', release_lease6 true w pl p = Ret (R_SUCCESS, w') /\ keeps w pl P w' P'.
Proof.
  intros Hat [Hr1 Hr2] Hp Hl. unfold release_lease6. rewrite (at_ptr_some _ _ _ Hl). cbn [mbind outcome_bind]. destruct (state l) eqn:Es; try (exists w, P; split; [done|by apply keeps_refl]).
  destruct (move_lease_to_inactive_ok w pl P p l FTS_RELEASED) as (w' & P' & E & Hk & _); [done..|lia|lia|]. by exists w', P'.
Qed.

(** ** Any sequence of operations *)

Inductive operation : Type :=
| Offer (a : list Z) (len t : Z)      (** a new lease *)
| Commit (p t : Z)                    (** a lease is given to its client until [t] *)
| Release (p : Z)
| Decline (p : Z)
| Expire (now : Z)                    (** the next lease that has ended by [now] *)
| Mark (a : list Z).                  (** an address is not available *)

(** What the server calls. *)
Definition perform (pl : Z) (o : operation) (w : mdb6) : outcome mdb6 :=
  match o with
  | Offer a len t => r ← new_lease true w pl a len t; Ret r.2
  | Commit p t => w ← on_lease w p (fun l => with_times l (hard_lifetime_end_time l) t); r ← renew_lease6 true w pl p; Ret r.2
  | Release p => r ← release_lease6 true w pl p; Ret r.2
  | Decline p => r ← decline_lease6 true w pl p; Ret r.2
  | Expire now => r ← expire_lease6 true w pl now; Ret r.2
  | Mark a => r ← mark_lease_unavailable true w pl a; Ret r.2
  end.

(** When it calls them. *)
Definition allowed (w : mdb6) (P : ipv6_pool) (o : operation) : Prop :=
  Z.of_nat (total P) + 1 < 2 ^ 31 /\
  match o with
  | Offer a _ _ | Mark a => entry (leases P) a = None
  | Commit p t => t <= MAX_TIME /\ exists l, subopts w !! p = Some l /\ may_renew w P p l t
  | Release p | Decline p => on_heap (active_timeouts P) p
  | Expire _ => True
  end.

Lemma perform_ok w pl P o : pool_at w pl P -> allowed w P o -> exists w' P', perform pl o w = Ret w' /\ pool_at w' pl P' /\ rest pl w w' /\ same_range P P'.
Proof.
  intros Hat [Htot Ho]. assert (room P) as Hroom by (unfold room, total in *; lia). assert (forall w' P', keeps w pl P w' P' -> pool_at w' pl P' /\ rest pl w w' /\ same_range P P') as Hk.
  { intros w' P' (? & ? & (? & ? & ? & ? & ? & ?) & ?). done. }
  destruct o as [a len t|p t|p|p|now|a]; cbn [perform].
  - destruct (new_lease_ok w pl P a len t Hat Hroom Ho) as (w' & P' & l & -> & Ha & Hr & Hs & _). by exists w', P'.
  - destruct Ho as (Ht & l & Hl & Hm). unfold on_lease. rewrite (at_ptr_some _ _ _ Hl). cbn [mbind outcome_bind].
    destruct (renew_ok w pl P p l t Hat Hroom Hl Hm Ht) as (w' & P' & l' & -> & Hkp & _). exists w', P'. split; [done|by apply Hk].
  - destruct (ok_in_use _ _ _ (at_ok _ _ _ Hat) p Ho) as (l & Hl & _). destruct (release_lease6_ok w pl P p l Hat Hroom Ho Hl) as (w' & P' & -> & Hkp). exists w', P'. split; [done|by apply Hk].
  - destruct (ok_in_use _ _ _ (at_ok _ _ _ Hat) p Ho) as (l & Hl & _). destruct (decline_ok w pl P p l Hat Hroom Ho Hl) as (w' & P' & -> & Hkp & _). exists w', P'. split; [done|by apply Hk].
  - destruct (expire_ok w pl P now Hat Htot) as [(p & l & w' & P' & -> & _ & _ & _ & Hkp & _)|[-> _]]; [exists w', P'; split; [done|by apply Hk]|exists w, P; split; [done|by apply Hk, keeps_refl]].
  - destruct (mark_ok w pl P a Hat Ho) as (w' & P' & -> & Ha & Hr & Hs & _). by exists w', P'.
Qed.

(** The databases that are reached from [w]. *)
Inductive reaches (pl : Z) : mdb6 -> mdb6 -> Prop :=
| Reaches_refl w : reaches pl w w
| Reaches_step w P o w1 w2 : pool_map w !! pl = Some P -> allowed w P o -> perform pl o w = Ret w1 -> reaches pl w1 w2 -> reaches pl w w2.

(** A lease in use is the only one with its address, and the address leads to it. *)
Definition exclusive (w : mdb6) (P : ipv6_pool) : Prop :=
  forall p q lp lq, on_heap (active_timeouts P) p -> on_heap (active_timeouts P) q -> subopts w !! p = Some lp -> subopts w !! q = Some lq -> addr lp = addr lq -> p = q.

Lemma pool_exclusive w pl P : pool_at w pl P -> exclusive w P.
Proof.
  intros [_ Hok _ _] p q lp lq Hp Hq Hlp Hlq E. destruct (ok_in_use _ _ _ Hok p Hp) as (l1 & E1 & _ & H1 & _). destruct (ok_in_use _ _ _ Hok q Hq) as (l2 & E2 & _ & H2 & _).
  rewrite Hlp in E1. injection E1 as <-. rewrite Hlq in E2. injection E2 as <-. rewrite E in H1. rewrite H1 in H2. by injection H2.
Qed.

Lemma reached_ok pl w P w' : pool_at w pl P -> reaches pl w w' -> exists P', pool_at w' pl P' /\ same_range P P'.
Proof.
  intros Hat Hr. revert P Hat. induction Hr as [w|w P0 o w1 w2 HP0 Ho Hp _ IH]; intros P Hat; [by exists P|].
  assert (P0 = P) as -> by (pose proof (at_pool _ _ _ Hat); congruence). destruct (perform_ok w pl P o Hat Ho) as (w' & P' & E & Hat' & _ & Hs). rewrite Hp in E. injection E as <-.
  destruct (IH P' Hat') as (P2 & ? & Hs2). exists P2. split; [done|]. destruct Hs as (? & ? & ? & ? & ?), Hs2 as (? & ? & ? & ? & ?). unfold same_range. split_and!; congruence.
Qed.

(** C5: The pool of leases stays consistent along every sequence of operations that keeps
    the conditions of [allowed]: memory is available and the pool has fewer than 2^31 - 1
    leases; an address is offered or marked as unavailable only if the table of the pool has
    no entry for it; a lease is released or declined only while it is in use; and a lease
    that is committed is in use already, or its address has no entry and every other lease
    that is not in use ends before the new end of this one. Then each operation returns,
    without a failed assertion or an access to a lease that has been freed; each lease in
    use is on the heap for its state, which is ordered by the ends of the leases and knows
    the place of each; the counts are those of the heaps; and no two leases in use have the
    same address. The condition on a commit is needed: without it the assertions of the code
    fail ([activation_aborts], [marked_address_aborts] of [Mdb6]). *)
Theorem pool_stays_consistent pl w P w' :
  pool_at w pl P -> reaches pl w w' ->
  exists P', pool_at w' pl P' /\ same_range P P' /\ exclusive w' P' /\ forall o, allowed w' P' o -> exists w2, perform pl o w' = Ret w2.
Proof.
  intros Hat Hr. destruct (reached_ok pl w P w' Hat Hr) as (P' & Hat' & Hs). exists P'. split; [done|]. split; [done|]. split; [by eapply pool_exclusive|].
  intros o Ho. destruct (perform_ok w' pl P' o Hat' Ho) as (w2 & P2 & E & _). by exists w2.
Qed.

(** C7: When the timer of a pool runs, every lease in use that has ended expires, and no
    other does: the loop of [lease_timeout_support] ends, each lease that has ended is moved
    to the heap of those not in use, in the state expired, its association is written to the
    lease file, and no lease that is left in use has ended.  This is with memory available,
    fewer than 2^31 - 1 leases in the pool, and an association for every lease in use. *)
Theorem leases_expire w pl P now :
  pool_at w pl P -> Z.of_nat (total P) + 1 < 2 ^ 31 ->
  (forall p l, on_heap (active_timeouts P) p -> subopts w !! p = Some l -> ia l <> None) ->
  exists w' P', expire_loop true (last (active_timeouts P)) w pl now = Ret w' /\ pool_at w' pl P' /\ expires w P now w' P' /\
    forall p l, on_heap (active_timeouts P') p -> subopts w' !! p = Some l -> now <= hard_lifetime_end_time l.
Proof.
  intros Hat Htot Hia. destruct (expire_loop_ok now pl (last (active_timeouts P)) w P) as (w' & P' & E & Hk & _ & Hex & _ & Hsub); [done..|].
  exists w', P'. split; [done|]. split; [apply Hk|]. split; [done|]. intros p l Hp Hl.
  destruct (ok_in_use _ _ _ (at_ok _ _ _ Hat) p (Hsub p Hp)) as (l0 & E0 & _). specialize (Hex p l0 E0). case_bool_decide as Hb.
  - destruct Hex as (Hi & _). by destruct (disjoint_heaps _ _ _ p (at_ok _ _ _ (proj1 Hk)) Hp).
  - destruct Hex as (E1 & Ha & _). rewrite Hl in E1. injection E1 as ->. apply Z.nlt_ge. intros Hlt. apply Hb. split; [by apply Ha|done].
Qed.

(** ** A pool with two leases *)

Lemma mdb0_at : pool_at mdb0 5 pool0.
Proof.
  assert (forall X, heap_ok (lease_older ∅) (with_index (IscHeap 0 1024 0 [] true ∅) X)) as Hh by (intros X; constructor; cbn; try done; try lia; [split_and!; [cbn; lia|by vm_compute|by vm_compute]|intros; lia..]).
  constructor; [done| |by eexists|done]. constructor; cbn; try done; try apply Hh.
  - intros p Hp. by apply elem_of_nil in Hp.
  - intros p Hp. by apply elem_of_nil in Hp.
  - constructor.
  - intros a p Hp. by apply elem_of_nil in Hp.
Qed.

(** The database after an operation on it. *)
Definition after (o : operation) (w : mdb6) : mdb6 := match perform 5 o w with Ret w' => w' | _ => w end.
Definition offered : mdb6 := after (Offer (replicate 16 1) 0 60) mdb0.
Definition taken : mdb6 := after (Commit 100 500) offered.

Lemma taken_reached : reaches 5 mdb0 taken.
Proof.
  eapply (Reaches_step 5 _ pool0 (Offer (replicate 16 1) 0 60) offered); [done|split; [by vm_compute|done]|by vm_compute|].
  eapply (Reaches_step 5 _ _ (Commit 100 500) taken); [by vm_compute|split; [by vm_compute|split; [by vm_compute|]]|by vm_compute|apply Reaches_refl].
  eexists. split; [by vm_compute|]. right. split; [refine (bool_decide_unpack _ _); by vm_compute|]. split; [by vm_compute|].
  intros q lq Hq Hne. exfalso. apply Hne. revert Hq. vm_compute. intros Hq. apply list_elem_of_singleton in Hq. by injection Hq.
Qed.

Lemma pool_stays_consistent_witness : pool_at mdb0 5 pool0 /\ reaches 5 mdb0 taken /\ exists P, pool_at taken 5 P /\ num_active P = 1 /\ exclusive taken P.
Proof.
  split; [exact mdb0_at|]. split; [exact taken_reached|]. destruct (pool_stays_consistent 5 mdb0 pool0 taken mdb0_at taken_reached) as (P & H1 & _ & H2 & _).
  exists P. split; [done|]. split; [|done]. assert (P = default pool0 (pool_map taken !! 5)) as -> by (by rewrite (at_pool _ _ _ H1)). by vm_compute.
Defined.

(** The lease belongs to the association 7. *)
Definition leased : mdb6 := match subopts taken !! 100 with Some l => put_lease taken 100 (with_ia l (Some 7)) | None => taken end.

Lemma leases_expire_witness : exists P w' P', pool_at leased 5 P /\ expire_loop true 1 leased 5 501 = Ret w' /\ pool_at w' 5 P' /\ expires leased P 501 w' P'.
Proof.
  assert (exists P l, pool_at leased 5 P /\ subopts taken !! 100 = Some l) as (P & l & Hat & Hl).
  { destruct (reached_ok 5 mdb0 pool0 taken mdb0_at taken_reached) as (P & Hat & _).
    destruct (subopts taken !! 100) as [l|] eqn:Hl; [|by vm_compute in Hl]. exists P, l. split; [|done].
    unfold leased. rewrite Hl. apply (put_kept_ok taken 5 P 100 l); [done..|unfold times; by rewrite !lookup_singleton_eq|]. apply (ok_held _ _ _ (at_ok _ _ _ Hat) 100 l Hl). }
  assert (last (active_timeouts P) = 1%nat /\ contents (active_timeouts P) = [Some 100] /\ Z.of_nat (total P) + 1 < 2 ^ 31) as (E1 & E2 & Htot).
  { assert (P = default pool0 (pool_map leased !! 5)) as -> by (by rewrite (at_pool _ _ _ Hat)). split_and!; by vm_compute. }
  destruct (leases_expire leased 5 P 501 Hat Htot) as (w' & P' & H1 & H2 & H3 & _).
  - intros p lp Hp. unfold on_heap in Hp. rewrite E2 in Hp. apply list_elem_of_singleton in Hp. injection Hp as ->. unfold leased. rewrite Hl. cbn. rewrite lookup_insert_eq. by intros [= <-].
  - rewrite E1 in H1. exists P, w', P'. exact (conj Hat (conj H1 (conj H2 H3))).
Defined.

End Mdb6Pool.
