(* ===== verification/Mdb6Address.v ===== *)
(** * Addresses for new IPv6 leases (server/mdb6.c)

    The choice of an address or a prefix for a client: [build_address6],
    [build_temporary6] and [build_prefix6] stay within the network of the pool, as
    [ipv6_in_pool] decides it, and [create_lease6] and [create_prefix6] take the
    first of the candidates they build that is available. *)

From Stdlib Require Import ZArith Lia.
From stdpp Require Import base list numbers option gmap.
From S2P Require Import Prelude.
From S2P Require Import Heap.
From S2P Require Import Mdb6.
From S2P Require Import Mdb6Pool.
#[local] Open Scope Z_scope.

Module Mdb6Address.

Import Heap Mdb6 Mdb6Pool.

(** ** Networks *)

(** The bits of the octet on the border of a network of [n] bits that belong to it. *)
Definition border (n : Z) : Z := 256 - 2 ^ (8 - n mod 8).

(** The addresses have the same first [n] bits. *)
Definition same_network (n : Z) (a b : list Z) : Prop :=
  take (Z.to_nat (n / 8)) a = take (Z.to_nat (n / 8)) b /\
  (n mod 8 <> 0 -> Z.land (nthZ a (n / 8)) (border n) = Z.land (nthZ b (n / 8)) (border n)).

#[export] Instance same_network_equiv n : Equivalence (same_network n).
Proof.
  split.
  - by intros a.
  - intros a b [H1 H2]. split; [done|]. intros Hr. by rewrite H2.
  - intros a b c [H1 H2] [H3 H4]. split; [congruence|]. intros Hr. by rewrite H2, H4.
Qed.

Lemma bits_split n : 0 <= n <= 128 -> n = 8 * (n / 8) + n mod 8 /\ 0 <= n / 8 <= 16 /\ 0 <= n mod 8 < 8.
Proof. intros H. pose proof (Z.div_mod n 8). pose proof (Z.mod_pos_bound n 8). lia. Qed.

Lemma bitmasks_border n : n mod 8 <> 0 -> 0 <= n -> rd bitmasks (8 - n mod 8) = Ret (border n).
Proof.
  intros Hr Hn. unfold border. pose proof (Z.mod_pos_bound n 8 ltac:(lia)) as Hb. assert (n mod 8 = 1 \/ n mod 8 = 2 \/ n mod 8 = 3 \/ n mod 8 = 4 \/ n mod 8 = 5 \/ n mod 8 = 6 \/ n mod 8 = 7) as Hc by lia.
  by repeat destruct Hc as [->|Hc]; [..|rewrite Hc].
Qed.

(** The address with all but the first [n] bits cleared. *)
Definition network (a : list Z) (n : Z) : list Z :=
  take (Z.to_nat (n / 8)) a ++ (if n mod 8 =? 0 then replicate (Z.to_nat (16 - n / 8)) 0 else Z.land (nthZ a (n / 8)) (border n) :: replicate (Z.to_nat (15 - n / 8)) 0).

Lemma network_portion a n : length a = 16%nat -> 0 <= n <= 128 -> ipv6_network_portion a n = Ret (network a n).
Proof.
  intros Ha Hn. destruct (bits_split n Hn) as (E & Hq & Hr). unfold ipv6_network_portion, network. rewrite (proj2 (Z.ltb_ge n 0)), (proj2 (Z.ltb_ge 128 n)) by lia. cbn [orb].
  destruct (Z.eqb_spec (n mod 8) 0) as [Er|Er].
  - assert ((128 - n) / 8 = 16 - n / 8 /\ (128 - n) mod 8 = 0) as [-> ->] by (split; [symmetry; apply Z.div_unique with 0|symmetry; apply Z.mod_unique with (16 - n / 8)]; lia).
    unfold memcpy, Zlen. rewrite bool_decide_true by (rewrite length_replicate; lia). cbn [mbind outcome_bind]. change (0 =? 0) with true. cbn iota.
    rewrite length_replicate, drop_ge, app_nil_r by lia. by replace (16 - (16 - n / 8)) with (n / 8) by lia.
  - assert ((128 - n) / 8 = 15 - n / 8 /\ (128 - n) mod 8 = 8 - n mod 8) as [-> ->] by (split; [symmetry; apply Z.div_unique with (8 - n mod 8)|symmetry; apply Z.mod_unique with (15 - n / 8)]; lia).
    unfold memcpy, Zlen. rewrite bool_decide_true by (rewrite length_replicate; lia). cbn [mbind outcome_bind]. rewrite (proj2 (Z.eqb_neq _ _)) by lia.
    rewrite length_replicate, drop_ge, app_nil_r by lia. replace (15 - (15 - n / 8)) with (n / 8) by lia. replace (16 - (15 - n / 8)) with (n / 8 + 1) by lia.
    assert (n / 8 < 16) as Hlt by lia. assert (a !! Z.to_nat (n / 8) = Some (nthZ a (n / 8))) as El by (apply lookup_nthZ; unfold Zlen; lia).
    replace (Z.to_nat (n / 8 + 1)) with (S (Z.to_nat (n / 8))) by lia. rewrite (take_S_r _ _ _ El), <- app_assoc.
    assert (length (take (Z.to_nat (n / 8)) a) = Z.to_nat (n / 8)) as Lt by (rewrite length_take; lia).
    rewrite (rdA_lookup _ (n / 8) (nthZ a (n / 8))); [|lia|]. 2: { rewrite lookup_app_r by lia. by rewrite Lt, Nat.sub_diag. } cbn [mbind outcome_bind]. rewrite bitmasks_border by lia. cbn [mbind outcome_bind].
    rewrite wrA_in by (unfold Zlen; rewrite !length_app, length_replicate, Lt; cbn; lia). rewrite insert_app_r_alt by lia. by rewrite Lt, Nat.sub_diag.
Qed.

Lemma network_ext n a b : same_network n a b -> network a n = network b n.
Proof. intros [H1 H2]. unfold network. rewrite H1. case_match eqn:E; [done|]. apply Z.eqb_neq in E. by rewrite (H2 E). Qed.

(** An address in the network of a pool is in the pool. *)
Lemma in_pool a P : length a = 16%nat -> length (start_addr P) = 16%nat -> 0 <= bits P <= 128 -> ipv6_in_pool (start_addr P) P = Ret true ->
  same_network (bits P) a (start_addr P) -> ipv6_in_pool a P = Ret true.
Proof. intros Ha Hs Hn Hp Hsame. unfold ipv6_in_pool in *. rewrite network_portion in * by done. by rewrite (network_ext _ _ _ Hsame). Qed.

Lemma border_merge n a b : 0 <= n -> n mod 8 <> 0 -> Z.land (merge_octet (n mod 8) a b) (border n) = Z.land b (border n).
Proof.
  intros Hn Hr. unfold merge_octet. fold (border n). rewrite Z.land_lor_distr_l, <- !Z.land_assoc, Z.land_diag.
  replace (Z.land (2 ^ (8 - n mod 8) - 1) (border n)) with 0; [by rewrite Z.land_0_r|]. unfold border. pose proof (Z.mod_pos_bound n 8 ltac:(lia)) as Hb.
  assert (n mod 8 = 1 \/ n mod 8 = 2 \/ n mod 8 = 3 \/ n mod 8 = 4 \/ n mod 8 = 5 \/ n mod 8 = 6 \/ n mod 8 = 7) as Hc by lia. by repeat destruct Hc as [->|Hc]; [..|rewrite Hc].
Qed.

(** The octet on the border is merged into an address that has the octets before it. *)
Lemma merged n str net : 0 <= n <= 128 -> length str = 16%nat -> length net = 16%nat -> take (Z.to_nat (n / 8)) str = take (Z.to_nat (n / 8)) net ->
  exists s, (if n mod 8 =? 0 then Ret str else a ← rd str (n / 8); b ← rd net (n / 8); wr str (n / 8) (merge_octet (n mod 8) a b)) = Ret s /\
    length s = 16%nat /\ same_network n s net /\ drop (S (Z.to_nat (n / 8))) s = drop (S (Z.to_nat (n / 8))) str.
Proof.
  intros Hn Hs Ht E. destruct (bits_split n Hn) as (En & Hq & Hr). destruct (Z.eqb_spec (n mod 8) 0) as [Er|Er]; [exists str; split_and!; [done|done|by split|done]|].
  rewrite !rd_in by (unfold Zlen; lia). cbn [mbind outcome_bind]. rewrite wrA_in by (unfold Zlen; lia). eexists. split; [done|]. split; [by rewrite length_insert|]. split; [split|].
  - by rewrite take_insert_ge by lia.
  - intros _. rewrite nthZ_insert_eq by (unfold Zlen; lia). apply border_merge; lia.
  - apply drop_insert_lt. lia.
Qed.

Lemma copy_network_ok n str net : 0 <= n <= 128 -> length str = 16%nat -> length net = 16%nat ->
  exists s, copy_network str net n = Ret s /\ length s = 16%nat /\ same_network n s net.
Proof.
  intros Hn Hs Ht. destruct (bits_split n Hn) as (En & Hq & Hr). unfold copy_network. rewrite memread_in by (unfold Zlen; lia). cbn [mbind outcome_bind]. rewrite drop_0.
  unfold memcpy, Zlen. rewrite bool_decide_true by (rewrite length_take; lia). cbn [mbind outcome_bind]. rewrite take_0. cbn [app].
  destruct (merged n (take (Z.to_nat (n / 8)) net ++ drop (Z.to_nat 0 + length (take (Z.to_nat (n / 8)) net)) str) net) as (s & E & ? & ? & _); [done| |done| |by exists s].
  - rewrite length_app, length_drop, length_take. lia.
  - rewrite take_app_le by (rewrite length_take; lia). by rewrite take_take, Nat.min_id.
Qed.

(** ** Candidates *)

Section Candidates.

(** [isc_md5_final] gives 16 octets. *)
Context (md5 : list Z -> list Z) (md5_length : forall x, length (md5 x) = 16%nat).

Lemma same_insert n i v a : 0 <= n <= 128 -> (n + 7) / 8 <= Z.of_nat i -> same_network n (<[i := v]> a) a.
Proof.
  intros Hn Hi. destruct (bits_split n Hn) as (E & Hq & Hr). assert (n / 8 <= (n + 7) / 8) by (apply Z.div_le_mono; lia). split.
  - by rewrite take_insert_ge by lia.
  - intros Hne. assert (n / 8 + 1 <= (n + 7) / 8) by (apply Z.div_le_lower_bound; lia). unfold nthZ. by rewrite !nth_lookup, list_lookup_insert_ne by lia.
Qed.

Lemma build_address6_ok net n ds : length net = 16%nat -> 0 <= n <= 128 ->
  exists a, build_address6 md5 net n ds = Ret a /\ length a = 16%nat /\ same_network n a net.
Proof.
  intros Hl Hn. unfold build_address6. destruct (copy_network_ok n (md5 ds) net Hn (md5_length _) Hl) as (s & -> & Hs & Hsame). cbn [mbind outcome_bind].
  destruct (Z.eqb_spec n 64) as [->|Hne]; [|by exists s]. rewrite rd_in by (unfold Zlen; lia). cbn [mbind outcome_bind]. rewrite wrA_in by (unfold Zlen; lia).
  eexists. split; [done|]. split; [by rewrite length_insert|]. etrans; [|exact Hsame]. by apply same_insert.
Qed.

Lemma build_temporary6_ok random t net n ds : length net = 16%nat -> 0 <= n <= 128 ->
  exists a t', build_temporary6 md5 random t net n ds = Ret (a, t') /\ length a = 16%nat /\ same_network n a net.
Proof.
  intros Hl Hn. destruct (bits_split n Hn) as (E & Hq & Hr). unfold build_temporary6. set (md := md5 _). assert (length md = 16%nat) as Lm by apply md5_length.
  destruct (Z.eqb_spec n 64) as [->|Hne].
  - rewrite !memread_in by (unfold Zlen; lia). cbn [mbind outcome_bind]. rewrite rd_in by (unfold Zlen; rewrite length_take, length_drop; lia). cbn [mbind outcome_bind]. rewrite wrA_in by (unfold Zlen; rewrite length_take, length_drop; lia).
    eexists _, _. split; [done|]. split; [rewrite length_app, length_insert, !length_take, !length_drop; lia|]. split; [|done]. change (64 / 8) with 8. rewrite take_app_le by (rewrite length_take, length_drop; lia). by rewrite take_take, drop_0.
  - rewrite !memread_in by (unfold Zlen; lia). cbn [mbind outcome_bind]. rewrite !drop_0. set (str := _ ++ _).
    destruct (merged n str net) as (s & -> & Hs & Hsame & _); [done| |done| |by eexists _, _].
    + unfold str. rewrite length_app, !length_take. lia.
    + unfold str. rewrite take_app_le by (rewrite length_take; lia). by rewrite take_take, Nat.min_id.
Qed.

Lemma border_within n u : 1 <= n mod 8 <= u mod 8 -> u mod 8 < 8 -> Z.land (border u) (border n) = border n.
Proof.
  unfold border. generalize (n mod 8) (u mod 8). intros x y Hx Hy. assert (y = 1 \/ y = 2 \/ y = 3 \/ y = 4 \/ y = 5 \/ y = 6 \/ y = 7) as Hc by lia.
  assert (x = 1 \/ x = 2 \/ x = 3 \/ x = 4 \/ x = 5 \/ x = 6 \/ x = 7) as Hd by lia. repeat destruct Hc as [->|Hc]; try subst y; repeat destruct Hd as [->|Hd]; try subst x; done || lia.
Qed.

(** A prefix: the bits after its length are zero. *)
Lemma build_prefix6_ok net n u ds : length net = 16%nat -> 0 <= n <= u -> u < 128 ->
  exists a, build_prefix6 md5 net n u ds = Ret a /\ length a = 16%nat /\ same_network n a net /\ ipv6_network_portion a u = Ret a.
Proof.
  intros Hl Hn Hu. unfold build_prefix6. destruct (copy_network_ok n (md5 ds) net ltac:(lia) (md5_length _) Hl) as (s & -> & Hs & Hsame). cbn [mbind outcome_bind].
  destruct (bits_split u ltac:(lia)) as (E & Hq & Hr). destruct (bits_split n ltac:(lia)) as (En & Hqn & Hrn). assert (n / 8 <= u / 8) as Hle by (apply Z.div_le_mono; lia).
  unfold memcpy, Zlen. rewrite bool_decide_true by (rewrite length_replicate; lia). cbn [mbind outcome_bind]. rewrite length_replicate, drop_ge, app_nil_r by lia. replace (Z.min 16 (u / 8 + 1)) with (u / 8 + 1) by lia.
  set (t := take _ s ++ _). assert (length t = 16%nat) as Lt by (unfold t; rewrite length_app, length_replicate, length_take; lia).
  rewrite rd_in by (unfold Zlen; lia). cbn [mbind outcome_bind]. rewrite wrA_in by (unfold Zlen; lia). fold (border u).
  assert (forall k, (k <= Z.to_nat (u / 8))%nat -> t !! k = s !! k) as Ht by (intros k Hk; unfold t; rewrite lookup_app_l by (rewrite length_take; lia); rewrite lookup_take_lt by lia; done).
  assert (nthZ t (u / 8) = nthZ s (u / 8)) as Et by (unfold nthZ; rewrite !nth_lookup; by rewrite Ht).
  set (a := <[_ := _]> t). assert (length a = 16%nat) as La by (unfold a; by rewrite length_insert). 
  assert (a = take (Z.to_nat (u / 8)) s ++ Z.land (nthZ s (u / 8)) (border u) :: replicate (Z.to_nat (15 - u / 8)) 0) as Ea.
  { unfold a, t. rewrite <- Et. unfold t. replace (Z.to_nat (u / 8 + 1)) with (S (Z.to_nat (u / 8))) by lia. rewrite (take_S_r _ _ (nthZ s (u / 8))) by (apply lookup_nthZ; unfold Zlen; lia). rewrite <- app_assoc.
    rewrite insert_app_r_alt by (rewrite length_take; lia). rewrite length_take. replace (Z.to_nat (u / 8) - Z.to_nat (u / 8) `min` length s)%nat with 0%nat by lia. done. }
  exists a. split; [done|]. split; [done|]. split.
  - etrans; [|exact Hsame]. split.
    + apply list_eq. intros k. destruct (decide (k < Z.to_nat (n / 8))%nat) as [Hk|Hk]; [|by rewrite !lookup_take_ge by lia]. rewrite !lookup_take_lt by lia. unfold a. rewrite list_lookup_insert_ne by lia. apply Ht. lia.
    + intros Hne. unfold a. destruct (decide (n / 8 = u / 8)) as [Eq|Hd]; [|rewrite nthZ_insert_ne by lia; unfold nthZ; rewrite !nth_lookup; rewrite Ht by lia; done].
      rewrite Eq, nthZ_insert_eq by (unfold Zlen; lia). rewrite Et, <- Z.land_assoc. f_equal. apply border_within; lia.
  - rewrite network_portion by (done || lia). f_equal. rewrite Ea. unfold network.
    rewrite take_app_le by (rewrite length_take; lia). rewrite take_take, Nat.min_id. f_equal.
    assert (nthZ (take (Z.to_nat (u / 8)) s ++ Z.land (nthZ s (u / 8)) (border u) :: replicate (Z.to_nat (15 - u / 8)) 0) (u / 8) = Z.land (nthZ s (u / 8)) (border u)) as ->.
    { apply nthZ_lookup. rewrite lookup_app_r by (rewrite length_take; lia). rewrite length_take. by replace (Z.to_nat (u / 8) - Z.to_nat (u / 8) `min` length s)%nat with 0%nat by lia. }
    destruct (Z.eqb_spec (u mod 8) 0) as [Er|Er]; [|by rewrite <- Z.land_assoc, Z.land_diag].
    unfold border. rewrite Er. change (256 - 2 ^ (8 - 0)) with 0. rewrite Z.land_0_r. by replace (Z.to_nat (16 - u / 8)) with (S (Z.to_nat (15 - u / 8))) by lia.
Qed.

(** The candidates of [create_lease6] for a client, as far as [n], each with the state of
    the generator after it: the first is made from [ds], the others from [ds] and all
    the candidates before them. *)
Definition build (random : list Z) (P : ipv6_pool) (t : temporary6) (ds : list Z) : outcome (list Z * temporary6) :=
  if pool_type P =? D6O_IA_NA then a ← build_address6 md5 (start_addr P) (bits P) ds; Ret (a, t)
  else build_temporary6 md5 random t (start_addr P) (bits P) ds.

Fixpoint candidates (random : list Z) (P : ipv6_pool) (n : nat) (t : temporary6) (ds : list Z) : list (list Z * temporary6) :=
  match n with
  | O => []
  | S n => match build random P t ds with Ret (a, t) => (a, t) :: candidates random P n t (ds ++ a) | _ => [] end
  end.

(** A candidate is available: it is not reserved, and the table of the pool has no entry for it. *)
Definition available (P : ipv6_pool) (a : list Z) : Prop := reserved_iid a = false /\ entry (leases P) a = None.

#[export] Instance available_dec P a : Decision (available P a).
Proof. unfold available. apply _. Defined.

(** A range of addresses. *)
Definition range_ok (P : ipv6_pool) : Prop := length (start_addr P) = 16%nat /\ 0 <= bits P <= 128 /\ ipv6_in_pool (start_addr P) P = Ret true.

Lemma build_ok random P t ds : range_ok P -> exists a t', build random P t ds = Ret (a, t') /\ ipv6_in_pool a P = Ret true.
Proof.
  intros (Hl & Hn & Hp). unfold build. case_match.
  - destruct (build_address6_ok (start_addr P) (bits P) ds Hl Hn) as (a & -> & La & Hs). exists a, t. split; [done|]. by apply in_pool.
  - destruct (build_temporary6_ok random t (start_addr P) (bits P) ds Hl Hn) as (a & t' & -> & La & Hs). exists a, t'. split; [done|]. by apply in_pool.
Qed.

Lemma candidates_ok random P n : range_ok P -> forall t ds, length (candidates random P n t ds) = n /\ Forall (fun c => ipv6_in_pool c.1 P = Ret true) (candidates random P n t ds).
Proof.
  intros HP. induction n as [|n IH]; intros t ds; [done|]. cbn [candidates]. destruct (build_ok random P t ds HP) as (a & t' & -> & Ha). destruct (IH t' (ds ++ a)) as [H1 H2]. split; [cbn; by rewrite H1|by constructor].
Qed.

(** A lease that is looked up and released again is what it was. *)
Lemma looked_up w pl P a x : pool_at w pl P -> entry (leases P) a = Some x ->
  exists w1, iasubopt_hash_lookup w pl a = Ret (Some x, w1) /\ iasubopt_dereference w1 x = Ret w.
Proof.
  intros [HP Hok _ _] He. unfold iasubopt_hash_lookup. rewrite (at_ptr_some _ _ _ HP). cbn [mbind outcome_bind]. rewrite He.
  pose proof (entry_in _ _ _ He) as Hin. destruct (ok_entries _ _ _ Hok a x Hin) as (l & Hl & _). unfold iasubopt_reference, on_lease. rewrite (at_ptr_some _ _ _ Hl). cbn [mbind outcome_bind].
  eexists. split; [done|]. assert (1 <= refcnt l) as Hr.
  { pose proof (ok_held _ _ _ Hok x l Hl) as Hh. unfold held in Hh. rewrite (ind_true (x ∈ (leases P).*2)) in Hh by (apply list_elem_of_fmap; by exists (a, x)).
    pose proof (ind_bounds (on_heap (active_timeouts P) x)). pose proof (ind_bounds (on_heap (inactive_timeouts P) x)). lia. }
  rewrite (dereference_keeps _ x (with_refcnt l (refcnt l + 1))) by (cbn; lia || by rewrite lookup_insert_eq). rewrite put_lease_twice. f_equal.
  assert (with_refcnt (with_refcnt l (refcnt l + 1)) (refcnt (with_refcnt l (refcnt l + 1)) - 1) = l) as -> by (destruct l; unfold with_refcnt; cbn; f_equal; lia).
  unfold put_lease. rewrite insert_id by done. by destruct w.
Qed.

(** The loop of [create_lease6] finds the first candidate that is available. *)
Lemma create_loop_ok random w pl P n : pool_at w pl P -> range_ok P -> pool_type P = D6O_IA_NA \/ pool_type P = D6O_IA_TA -> forall k t ds,
  match list_find (fun c => available P c.1) (candidates random P n t ds) with
  | Some (i, (a, t')) => create_loop md5 true random n k w t pl ds = Ret (R_SUCCESS, a, k + Z.of_nat i + 1, w, t')
  | None => exists t', create_loop md5 true random n k w t pl ds = Ret (R_NORESOURCES, [], k + Z.of_nat n + 1, w, t')
  end.
Proof.
  intros Hat HP Ht. induction n as [|n IH]; intros k t ds; [cbn; exists t; by rewrite Z.add_0_r|]. cbn [candidates create_loop]. rewrite (at_ptr_some _ _ _ (at_pool _ _ _ Hat)). cbn [mbind outcome_bind].
  assert ((pool_type P =? D6O_IA_NA) || (pool_type P =? D6O_IA_TA) = true) as -> by (by destruct Ht as [->| ->]).
  destruct (build_ok random P t ds HP) as (a & t' & E & Ha). rewrite E. unfold build in E. cbn [mbind outcome_bind] in E. rewrite E. cbn [mbind outcome_bind list_find].
  assert (forall i, k + Z.of_nat (S i) + 1 = k + 1 + Z.of_nat i + 1) as Ek by lia. specialize (IH (k + 1) t' (ds ++ a)). destruct (decide (available P (a, t').1)) as [[Hr He]|Hn]; cbn [fst] in *.
  - rewrite Hr. unfold iasubopt_hash_lookup. rewrite (at_ptr_some _ _ _ (at_pool _ _ _ Hat)). cbn [mbind outcome_bind]. rewrite He. cbn [mbind outcome_bind]. by rewrite Z.add_0_r.
  - assert (match list_find (fun c => available P c.1) (candidates random P n t' (ds ++ a)) with
            | Some (i, (a', t2)) => create_loop md5 true random n (k + 1) w t' pl (ds ++ a) = Ret (R_SUCCESS, a', k + Z.of_nat (S i) + 1, w, t2)
            | None => exists t2, create_loop md5 true random n (k + 1) w t' pl (ds ++ a) = Ret (R_NORESOURCES, [], k + Z.of_nat (S n) + 1, w, t2) end) as IH'.
    { destruct (list_find _ _) as [[i [a' t2]]|]; by rewrite Ek. }
    destruct (reserved_iid a) eqn:Er; [destruct (list_find _ _) as [[i [a' t2]]|]; apply IH'|].
    destruct (entry (leases P) a) as [x|] eqn:Ex; [|by destruct Hn]. destruct (looked_up w pl P a x Hat Ex) as (w1 & -> & Ed). cbn [mbind outcome_bind]. rewrite Ed. cbn [mbind outcome_bind].
    destruct (list_find _ _) as [[i [a' t2]]|]; apply IH'.
Qed.

(** C8: The address of a new lease: with memory available and room in the pool,
    [create_lease6] gives the client the first of 100 candidates, each a digest within the
    network of the pool, that is not reserved and that has no entry in the table of the
    pool, where the leases in use and the addresses marked as unavailable are (a lease that
    is only offered has none, so that the same address may be offered twice); the lease is
    one that nothing else refers to, it waits among the leases that are not in use, and the
    pool stays consistent. If there is no such candidate then nothing changes, and there
    have been too many attempts. *)
Theorem create_lease6_first random w pl P t uid soft :
  pool_at w pl P -> room P -> range_ok P -> pool_type P = D6O_IA_NA \/ pool_type P = D6O_IA_TA ->
  let cs := candidates random P 100 t uid in
  length cs = 100%nat /\ Forall (fun c => ipv6_in_pool c.1 P = Ret true) cs /\
  match list_find (fun c => available P c.1) cs with
  | Some (i, (a, t')) =>
    exists w' P' l, create_lease6 md5 true random w t pl uid soft = Ret (R_SUCCESS, Some (next_ptr w), Z.of_nat i + 1, w', t') /\ subopts w !! next_ptr w = None /\
      subopts w' = <[next_ptr w := l]> (subopts w) /\ addr l = a /\ state l = FTS_FREE /\ soft_lifetime_end_time l = soft /\
      pool_at w' pl P' /\ same_range P P' /\ on_heap (inactive_timeouts P') (next_ptr w)
  | None => exists t', create_lease6 md5 true random w t pl uid soft = Ret (R_NORESOURCES, None, 101, w, t')
  end.
Proof.
  intros Hat Hr HP Ht cs. destruct (candidates_ok random P 100 HP t uid) as [Hlen Hall]. split; [exact Hlen|]. split; [exact Hall|]. unfold create_lease6.
  pose proof (create_loop_ok random w pl P 100 Hat HP Ht 0 t uid) as H. fold cs in H. destruct (list_find (fun c => available P c.1) cs) as [[i [a t']]|] eqn:Ef.
  - rewrite H. cbn [mbind outcome_bind]. apply list_find_Some in Ef as (_ & [_ He] & _). destruct (new_lease_ok w pl P a 0 soft Hat Hr He) as (w' & P' & l & -> & Hat' & _ & Hs & Es & Ea & Est & _ & _ & _ & Eso & Hc & _).
    cbn [mbind outcome_bind]. exists w', P', l. split; [done|]. split; [apply (at_fresh _ _ _ Hat); lia|]. do 6 (split; [done|]). unfold on_heap. rewrite Hc. by left.
  - destruct H as (t' & H). rewrite H. by exists t'.
Qed.

End Candidates.

(** A digest of the sum of the octets, for examples. *)
Definition md5' (x : list Z) : list Z := replicate 16 (fold_right Z.add 5 x mod 256).

Lemma range0 : range_ok pool0.
Proof. split; [done|]. split; [by vm_compute|by vm_compute]. Qed.

Lemma create_lease6_first_witness :
  (forall x, length (md5' x) = 16%nat) /\ pool_at mdb0 5 pool0 /\ room pool0 /\ range_ok pool0 /\
  exists w' t', create_lease6 md5' true [] mdb0 (Temporary [] 0) 5 [1; 2; 3] 60 = Ret (R_SUCCESS, Some 100, 1, w', t').
Proof.
  assert (forall x, length (md5' x) = 16%nat) as Hm by (intros x; apply length_replicate). assert (room pool0) as Hr by (by split; vm_compute).
  do 3 (split; [done || exact mdb0_at|]). split; [exact range0|].
  pose proof (create_lease6_first md5' Hm [] mdb0 5 pool0 (Temporary [] 0) [1; 2; 3] 60 mdb0_at Hr range0 (or_introl eq_refl)) as (_ & _ & H).
  destruct (list_find _ _) as [[i [a t']]|] eqn:Ef; [|by vm_compute in Ef]. assert (i = 0%nat) as -> by (vm_compute in Ef; by injection Ef).
  destruct H as (w' & _ & _ & H & _). exists w', t'. exact H.
Defined.

End Mdb6Address.
