(* ===== verification/Packet.v ===== *)
(** * UDP/IP encapsulation (common/packet.c, common/ethernet.c)

    The routines with which the programs that read and write raw frames build
    and check the link, IP and UDP headers of a DHCP packet.  Headers are the
    octets they occupy in the frame: a field filled with [htons] is its
    big-endian encoding, and an address or port that is kept in network order
    is the list of its octets.  The static counters of
    [decode_udp_ip_header] are a record that the calls thread.  Only Ethernet
    interfaces are modelled ([HAVE_TR_SUPPORT] and [DEC_FDDI] are off). *)

From stdpp Require Import base list numbers option.
From Stdlib Require Import ZArith Lia.
From S2P Require Import Prelude.
#[local] Open Scope Z_scope.

Module Packet.

Definition HTYPE_ETHER : Z := 1.
Definition HTYPE_INFINIBAND : Z := 32.
Definition ETHER_HEADER_SIZE : Z := 14.
Definition ETHERTYPE_IP : Z := 2048.
Definition IPTOS_LOWDELAY : Z := 16.
Definition IPPROTO_UDP : Z := 17.
Definition SIZEOF_IP : Z := 20.
Definition SIZEOF_UDP : Z := 8.

Record hardware : Type := Hardware { hlen : Z; hbuf : list Z }.

(** ** Checksums *)

(** [if (sum > 0xFFFF) sum -= 0xFFFF] *)
Definition add_carry (sum : Z) : Z := if 65535 <? sum then sum - 65535 else sum.

(** The sum over octets in pairs; a single octet left over is a high octet. *)
Fixpoint checksum_octets (s : list Z) (sum : Z) : Z :=
  match s with
  | a :: b :: s' => checksum_octets s' (add_carry (u32 (sum + (a * 256 + b))))
  | [a] => add_carry (u32 (sum + Z.shiftl a 8))
  | [] => sum
  end.

(** [checksum (buf + off, nbytes, sum)] *)
Definition checksum (buf : list Z) (off nbytes sum : Z) : outcome Z :=
  s ← memread buf off nbytes; Ret (checksum_octets s sum).

(** The value that is put into network order. *)
Definition wrapsum (sum : Z) : Z := Z.land (Z.lnot sum) 65535.

(** ** Link headers *)

(** [memcpy (&buf[bufix], hdr, sizeof hdr); bufix += sizeof hdr] *)
Definition append (buf : list Z) (bufix : Z) (hdr : list Z) : outcome (list Z * Z) :=
  b ← memcpy buf bufix hdr; Ret (b, bufix + Zlen hdr).

Definition assemble_ethernet_header (hw_address : hardware) (buf : list Z) (bufix : Z)
    (to : option hardware) : outcome (list Z * Z) :=
  dhost ← match to with
          | Some h => if hlen h =? 7 then memread (hbuf h) 1 6 else Ret (replicate 6 255)
          | None => Ret (replicate 6 255)
          end;
  shost ← (if hlen hw_address - 1 =? 6 then memread (hbuf hw_address) 1 6 else Ret (replicate 6 0));
  append buf bufix (dhost ++ shost ++ be_enc 2 ETHERTYPE_IP).

Definition assemble_hw_header (hw_address : hardware) (buf : list Z) (bufix : Z)
    (to : option hardware) : outcome (list Z * Z) :=
  t ← rd (hbuf hw_address) 0;
  if t =? HTYPE_INFINIBAND then Ret (buf, bufix)
  else assemble_ethernet_header hw_address buf bufix to.

Section Filter.
(** [USERLAND_FILTER]: the kernel has not filtered the packets. *)
Context (userland_filter : bool).
(** [local_port], in network order. *)
Context (local_port : list Z).

(** The result is -1 or the size of the header, and the sender. *)
Definition decode_ethernet_header (buf : list Z) (bufix : Z) (from : hardware)
  : outcome (Z * hardware) :=
  eh ← memread buf bufix ETHER_HEADER_SIZE;
  if userland_filter && negb (be_val (drop 12 eh) =? ETHERTYPE_IP) then Ret (-1, from)
  else
    h ← memcpy (hbuf from) 1 (take 6 (drop 6 eh));
    h ← wr h 0 HTYPE_ETHER;
    Ret (ETHER_HEADER_SIZE, Hardware 7 h).

Definition decode_hw_header (hw_address : hardware) (buf : list Z) (bufix : Z) (from : hardware)
  : outcome (Z * hardware) :=
  t ← rd (hbuf hw_address) 0;
  if t =? HTYPE_INFINIBAND then Ret (0, from) else decode_ethernet_header buf bufix from.

(** ** UDP and IP headers *)

Definition ip_header (ip_len ip_sum : Z) (src dst : list Z) : list Z :=
  [69; IPTOS_LOWDELAY] ++ be_enc 2 ip_len ++ [0; 0; 0; 0; 128; IPPROTO_UDP] ++
  be_enc 2 ip_sum ++ src ++ dst.

Definition udp_header (sport dport : list Z) (ulen sum : Z) : list Z :=
  sport ++ dport ++ be_enc 2 ulen ++ be_enc 2 sum.

(** [from], [to] and [port] are in network order; [data] are the [len] octets
    of the payload. *)
Definition assemble_udp_ip_header (buf : list Z) (bufix : Z) (from to port data : list Z)
  : outcome (list Z * Z) :=
  let len := Zlen data in
  let ip_len := u16 (SIZEOF_IP + SIZEOF_UDP + len) in
  let ip_sum := wrapsum (checksum_octets (ip_header ip_len 0 from to) 0) in
  b ← append buf bufix (ip_header ip_len ip_sum from to);
  let ulen := u16 (SIZEOF_UDP + len) in
  let sum := wrapsum (checksum_octets (udp_header local_port port ulen 0)
                       (checksum_octets data
                         (checksum_octets (from ++ to) (IPPROTO_UDP + ulen)))) in
  append b.1 b.2 (udp_header local_port port ulen sum).

(** The static counters. *)
Record counters : Type := Counters {
  ip_packets_seen : Z;
  ip_packets_bad_checksum : Z;
  udp_packets_seen : Z;
  udp_packets_bad_checksum : Z;
  udp_packets_length_checked : Z;
  udp_packets_length_overflow : Z
}.

(** A pair of counters, packets and bad packets, after a bad packet: they
    start over when at least half of five or more packets were bad. *)
Definition count_bad (seen bad : Z) : Z * Z :=
  let bad := u32 (bad + 1) in
  if (4 <? seen) && negb (bad =? 0) && (seen / bad <? 2) then (0, 0) else (seen, bad).

Definition count_good (seen bad : Z) : Z * Z := if 4 <? seen then (0, 0) else (seen, bad).

Definition set_length (c : counters) (p : Z * Z) : counters :=
  Counters (ip_packets_seen c) (ip_packets_bad_checksum c) (udp_packets_seen c)
    (udp_packets_bad_checksum c) p.1 p.2.
Definition set_ip (c : counters) (p : Z * Z) : counters :=
  Counters p.1 p.2 (udp_packets_seen c) (udp_packets_bad_checksum c)
    (udp_packets_length_checked c) (udp_packets_length_overflow c).
Definition set_udp (c : counters) (p : Z * Z) : counters :=
  Counters (ip_packets_seen c) (ip_packets_bad_checksum c) p.1 p.2
    (udp_packets_length_checked c) (udp_packets_length_overflow c).

Record sockaddr_in : Type := Sockaddr { sin_addr : list Z; sin_port : list Z }.

(** What a call leaves: the result ([None] is -1), the length of the payload,
    the sender and the counters. *)
Record decoded : Type := Decoded {
  payload : option Z;
  rbuflen : Z;
  from : sockaddr_in;
  stats : counters
}.

(** The checks of the UDP header and payload, after those of the IP header. *)
Definition decode_udp (c : counters) (ip udp : list Z) (buf : list Z) (data : Z) (ip_len ulen : Z)
    (csum_ready : bool) (from : sockaddr_in) (rbuflen0 : Z) : outcome decoded :=
  let from1 := Sockaddr (take 4 (drop 12 ip)) (sin_port from) in
  let len := ulen - SIZEOF_UDP in
  let seen := u32 (udp_packets_seen c + 1) in
  let bad := udp_packets_bad_checksum c in
  sum ← (if negb (be_val (drop 6 udp) =? 0) && csum_ready then
           s ← checksum buf data len (checksum_octets (drop 12 ip) (IPPROTO_UDP + ulen));
           Ret (wrapsum (checksum_octets udp s))
         else Ret 0);
  if negb (sum =? 0) then
    Ret (Decoded None rbuflen0 from1 (set_udp c (count_bad seen bad)))
  else
    Ret (Decoded (Some (ip_len + SIZEOF_UDP)) len (Sockaddr (sin_addr from1) (take 2 udp))
           (set_udp c (count_good seen bad))).

Definition decode_udp_ip_header (c : counters) (buf : list Z) (bufix : Z) (from : sockaddr_in)
    (buflen rbuflen0 : Z) (csum_ready : bool) : outcome decoded :=
  let fail c := Ret (Decoded None rbuflen0 from c) in
  if buflen <? SIZEOF_IP then fail c
  else
    ip ← memread buf bufix SIZEOF_IP;
    first ← rd buf bufix;
    let ip_len := Z.shiftl (Z.land first 15) 2 in
    let pkt_len := be_val (take 2 (drop 2 ip)) in
    if (buflen <? ip_len) || (buflen <? pkt_len) || (buflen <? ip_len + SIZEOF_UDP) then fail c
    else
      let upp := bufix + ip_len in
      udp ← memread buf upp SIZEOF_UDP;
      if userland_filter && (negb (nthZ ip 9 =? IPPROTO_UDP) ||
                             negb (bool_decide (take 2 (drop 2 udp) = local_port)))
      then fail c
      else
        let ulen := be_val (take 2 (drop 4 udp)) in
        if ulen <? SIZEOF_UDP then fail c
        else
          let checked := u32 (udp_packets_length_checked c + 1) in
          let overflow := udp_packets_length_overflow c in
          if buflen <? ip_len + ulen then fail (set_length c (count_bad checked overflow))
          else
            let c := set_length c (count_good checked overflow) in
            let seen := u32 (ip_packets_seen c + 1) in
            let bad := ip_packets_bad_checksum c in
            sum ← checksum buf bufix ip_len 0;
            if negb (wrapsum sum =? 0) then fail (set_ip c (count_bad seen bad))
            else
              decode_udp (set_ip c (count_good seen bad)) ip udp buf (upp + SIZEOF_UDP) ip_len ulen
                csum_ready from rbuflen0.

End Filter.

(** ** One's-complement sums *)

(** The sum of the 16-bit words of octets. *)
Fixpoint words (s : list Z) : Z :=
  match s with
  | a :: b :: s' => a * 256 + b + words s'
  | [a] => a * 256
  | [] => 0
  end.

Lemma pair_ind (P : list Z -> Prop) :
  P [] -> (forall a, P [a]) -> (forall a b s, P s -> P (a :: b :: s)) -> forall s, P s.
Proof.
  intros H0 H1 H2. fix IH 1. intros [|a [|b s]]; [done|apply H1|apply H2, IH].
Qed.

Lemma words_app n s1 s2 : length s1 = (2 * n)%nat -> words (s1 ++ s2) = words s1 + words s2.
Proof.
  revert s1. induction n as [|n IH]; intros s1 Hl.
  - destruct s1; [done|cbn in Hl; lia].
  - destruct s1 as [|a [|b s1]]; cbn in Hl; try lia. cbn [app words]. rewrite IH by lia. lia.
Qed.

Lemma words_pair s : length s = 2%nat -> words s = be_val s.
Proof.
  destruct s as [|a [|b [|c s]]]; try done. intros _. cbn [words be_val].
  change (256 ^ Zlen [b]) with 256. change (256 ^ Zlen (@nil Z)) with 1. lia.
Qed.

Lemma words_be2 v : 0 <= v < 65536 -> words (be_enc 2 v) = v.
Proof. intros Hv. rewrite words_pair, be_val_enc by done. by apply Z.mod_small. Qed.

Lemma add_carry_ok x : 0 <= x <= 131070 ->
  0 <= add_carry x <= 65535 /\ add_carry x mod 65535 = x mod 65535 /\ (0 < x -> 0 < add_carry x).
Proof.
  intros Hx. unfold add_carry. destruct (Z.ltb_spec 65535 x); split_and!; try lia.
  rewrite <- (Z.mod_add (x - 65535) 1) by lia. f_equal. lia.
Qed.

(** The checksum is the sum of the words, in one's-complement arithmetic. *)
Definition sums_to (sum total : Z) : Prop :=
  0 <= sum <= 65535 /\ sum mod 65535 = total mod 65535 /\ (0 < total -> 0 < sum).

Lemma sums_to_add sum total x :
  sums_to sum total -> 0 <= total -> 0 <= x <= 65535 -> sums_to (add_carry (u32 (sum + x))) (total + x).
Proof.
  intros (Hr & Hm & Hp) Ht Hx. rewrite u32_small by lia.
  destruct (add_carry_ok (sum + x)) as (Hr' & Hm' & Hp'); [lia|]. split_and!; [lia..| |].
  - rewrite Hm', Z.add_mod, Hm, <- Z.add_mod by lia. done.
  - intros. apply Hp'. destruct (decide (total = 0)); [lia|]. specialize (Hp ltac:(lia)). lia.
Qed.

Lemma is_bytes_pair a b s : is_bytes (a :: b :: s) -> is_byte a /\ is_byte b /\ is_bytes s.
Proof. intros [? [? ?]%Forall_cons_iff]%Forall_cons_iff. done. Qed.

Lemma words_nonneg s : is_bytes s -> 0 <= words s.
Proof.
  induction s as [|a|a b s IH] using pair_ind; intros Hs; cbn [words]; [done|..].
  - apply Forall_cons_iff in Hs as [Ha _]. unfold is_byte in Ha. lia.
  - apply is_bytes_pair in Hs as (Ha & Hb & Hs). specialize (IH Hs). unfold is_byte in *. lia.
Qed.

Lemma checksum_octets_ok s sum total :
  is_bytes s -> sums_to sum total -> 0 <= total -> sums_to (checksum_octets s sum) (total + words s).
Proof.
  revert sum total. induction s as [|a|a b s IH] using pair_ind; intros sum total Hs Hsum Ht;
    cbn [checksum_octets words].
  - by rewrite Z.add_0_r.
  - apply Forall_cons_iff in Hs as [Ha _]. unfold is_byte in Ha.
    rewrite Z.shiftl_mul_pow2 by lia. apply sums_to_add; [done|done|lia].
  - apply is_bytes_pair in Hs as (Ha & Hb & Hs). unfold is_byte in *.
    rewrite (Z.add_assoc total). apply IH; [done| |lia]. apply sums_to_add; [done|done|lia].
Qed.

Lemma wrapsum_ok sum : 0 <= sum <= 65535 -> wrapsum sum = 65535 - sum.
Proof.
  intros Hs. unfold wrapsum. change 65535 with (Z.ones 16) at 1. rewrite Z.land_ones by lia.
  unfold Z.lnot. change (2 ^ 16) with 65536.
  rewrite <- (Z.mod_add _ 1) by lia. rewrite Z.mod_small by lia. lia.
Qed.

(** A sum completed by its wrapped value wraps to zero. *)
Lemma wrapsum_verifies sum total s :
  sums_to sum total -> 0 < total -> sums_to s (total + wrapsum sum) -> wrapsum s = 0.
Proof.
  intros (Hr & Hm & Hp) Ht (Hr' & Hm' & Hp'). rewrite wrapsum_ok in * by done.
  specialize (Hp Ht). assert (s mod 65535 = 0) as E.
  { rewrite Hm', Z.add_mod, <- Hm, <- Z.add_mod by lia. replace (sum + (65535 - sum)) with (1 * 65535) by lia.
    apply Z.mod_mul. lia. }
  apply Z.mod_divide in E as [k Hk]; [|lia]. specialize (Hp' ltac:(lia)).
  assert (k = 1) by lia. lia.
Qed.

Lemma words_octet pre post :
  exists k, (k = 1 \/ k = 256) /\ forall x, words (pre ++ x :: post) = words (pre ++ 0 :: post) + x * k.
Proof.
  induction pre as [|a|a b pre IH] using pair_ind; cbn [app].
  - exists 256. split; [by right|]. intros x. destruct post; cbn [words]; lia.
  - exists 1. split; [by left|]. intros x. cbn [words]. lia.
  - destruct IH as (k & Hk & H). exists k. split; [done|]. intros x. cbn [words]. rewrite H. lia.
Qed.

Lemma sums_to_0 : sums_to 0 0.
Proof. split_and!; [lia..|done|done]. Qed.

(** the checksum detects every error confined to one octet: if the octets
    of a header sum to zero, no header that differs from it in exactly one
    octet does. *)
Theorem checksum_detects_octet pre a b post :
  is_bytes (pre ++ a :: post) -> is_byte b -> a <> b ->
  wrapsum (checksum_octets (pre ++ a :: post) 0) = 0 ->
  wrapsum (checksum_octets (pre ++ b :: post) 0) <> 0.
Proof.
  intros Hs Hb Hne H0. pose proof Hs as Hs2. apply is_bytes_app in Hs2 as [Hpre [Ha Hpost]%Forall_cons_iff].
  assert (is_bytes (pre ++ b :: post)) as Hs' by (apply is_bytes_app; split; [done|by constructor]).
  pose proof (checksum_octets_ok _ 0 0 Hs sums_to_0 ltac:(lia)) as (Hr & Hm & _).
  pose proof (checksum_octets_ok _ 0 0 Hs' sums_to_0 ltac:(lia)) as (Hr' & Hm' & _).
  rewrite wrapsum_ok in * by done. intros H0'.
  replace (checksum_octets (pre ++ a :: post) 0) with 65535 in Hm by lia.
  replace (checksum_octets (pre ++ b :: post) 0) with 65535 in Hm' by lia.
  destruct (words_octet pre post) as (k & Hk & Hw). rewrite (Hw a) in Hm. rewrite (Hw b) in Hm'.
  rewrite Hm in Hm'. clear Hm.
  assert ((b * k - a * k) mod 65535 = 0) as E.
  { replace (b * k - a * k) with ((0 + (words (pre ++ 0 :: post) + b * k)) - (0 + (words (pre ++ 0 :: post) + a * k))) by lia.
    rewrite Zminus_mod, <- Hm', Z.sub_diag. done. }
  apply Z.mod_divide in E as [q Hq]; [|lia]. unfold is_byte in *.
  destruct Hk as [-> | ->]; assert (q = 0) by lia; lia.
Qed.

(** ** Decoding *)

Lemma checksum_in buf off n sum :
  0 <= off -> 0 <= n -> off + n <= Zlen buf ->
  checksum buf off n sum = Ret (checksum_octets (take (Z.to_nat n) (drop (Z.to_nat off) buf)) sum).
Proof. intros. unfold checksum. by rewrite memread_in. Qed.

Lemma be_val_nonneg s : is_bytes s -> 0 <= be_val s.
Proof. intros H. by apply be_val_range. Qed.

(** What an accepted packet promises to the caller. *)
Definition inside (buflen rbuflen0 : Z) (d : decoded) : Prop :=
  match payload d with
  | None => rbuflen d = rbuflen0
  | Some i => SIZEOF_UDP <= i /\ 0 <= rbuflen d /\ i + rbuflen d <= buflen
  end.

Lemma decode_udp_safe c ip udp buf data ip_len ulen ready from rbuflen0 buflen bufix :
  0 <= ip_len -> SIZEOF_UDP <= ulen -> ip_len + ulen <= buflen -> 0 <= bufix ->
  data = bufix + ip_len + SIZEOF_UDP -> bufix + buflen <= Zlen buf ->
  exists d, decode_udp c ip udp buf data ip_len ulen ready from rbuflen0 = Ret d /\ inside buflen rbuflen0 d.
Proof.
  unfold SIZEOF_UDP. intros Hi Hu Hl Hb -> Hz. unfold decode_udp.
  assert (exists sum, (if negb (be_val (drop 6 udp) =? 0) && ready then
           s ← checksum buf (bufix + ip_len + 8) (ulen - SIZEOF_UDP) (checksum_octets (drop 12 ip) (IPPROTO_UDP + ulen));
           Ret (wrapsum (checksum_octets udp s))
         else Ret 0) = Ret sum) as (sum & ->).
  { destruct (_ && _); [|eauto]. unfold SIZEOF_UDP. rewrite checksum_in by lia. cbn [mbind outcome_bind]. eauto. }
  cbn [mbind outcome_bind]. destruct (negb (sum =? 0)); eexists; (split; [done|]); cbn; [done|].
  unfold SIZEOF_UDP. lia.
Qed.

(** C34: on any octets whatsoever, [decode_udp_ip_header] stays inside the
    received data: it never reads beyond [buflen] octets from [bufix], and
    when it accepts a packet the payload it reports, from the index it
    returns and of the length it stores, lies within them. *)
Theorem decode_udp_ip_header_safe uf local_port c buf bufix from buflen rbuflen0 ready :
  is_bytes buf -> 0 <= bufix -> bufix + buflen <= Zlen buf ->
  exists d, decode_udp_ip_header uf local_port c buf bufix from buflen rbuflen0 ready = Ret d /\
            inside buflen rbuflen0 d.
Proof.
  intros Hs Hb Hl. unfold decode_udp_ip_header.
  assert (forall c, exists d, Ret (Decoded None rbuflen0 from c) = Ret d /\ inside buflen rbuflen0 d) as Hfail
    by (intros; by eexists).
  unfold SIZEOF_IP. destruct (Z.ltb_spec buflen 20); [apply Hfail|].
  rewrite memread_in by lia. cbn [mbind outcome_bind]. rewrite rd_in by lia. cbn [mbind outcome_bind].
  set (ip := take (Z.to_nat 20) _). set (ip_len := Z.shiftl _ 2).
  assert (0 <= ip_len) as Hil.
  { apply Z.shiftl_nonneg, Z.land_nonneg. lia. }
  destruct ((buflen <? ip_len) || (buflen <? be_val (take 2 (drop 2 ip))) || (buflen <? ip_len + SIZEOF_UDP)) eqn:E;
    [apply Hfail|].
  apply orb_false_iff in E as [[E1 E2]%orb_false_iff E3]. unfold SIZEOF_UDP in E3.
  rewrite memread_in by (unfold SIZEOF_UDP; lia). cbn [mbind outcome_bind].
  set (udp := take (Z.to_nat SIZEOF_UDP) _). destruct (uf && _); [apply Hfail|].
  set (ulen := be_val _). unfold SIZEOF_UDP at 1. destruct (Z.ltb_spec ulen 8); [apply Hfail|].
  destruct (Z.ltb_spec buflen (ip_len + ulen)); [apply Hfail|].
  rewrite checksum_in by lia. cbn [mbind outcome_bind].
  destruct (negb _); [apply Hfail|].
  by apply (decode_udp_safe _ _ _ _ _ _ _ _ _ _ _ bufix); unfold SIZEOF_UDP; lia || done.
Qed.

(** ** Assembly and decoding *)

Lemma memcpy_take {A} (dst src : list A) off l :
  0 <= off -> off + Zlen src <= Zlen dst -> memcpy dst off src = Ret l ->
  take (Z.to_nat off + length src) l = take (Z.to_nat off) dst ++ src.
Proof.
  intros H1 H2 H. unfold memcpy in H. rewrite bool_decide_true in H by done. injection H as <-.
  rewrite app_assoc. apply take_app_length'. rewrite length_app, length_take. unfold Zlen in *. lia.
Qed.

(** Two headers appended one after the other. *)
Lemma append_twice buf bufix h1 h2 :
  0 <= bufix -> bufix + Zlen h1 + Zlen h2 <= Zlen buf ->
  exists b, (b ← append buf bufix h1; append b.1 b.2 h2) = Ret (b, bufix + Zlen h1 + Zlen h2) /\
    take (Z.to_nat (bufix + Zlen h1 + Zlen h2)) b = take (Z.to_nat bufix) buf ++ h1 ++ h2.
Proof.
  intros Hb Hl. unfold append. pose proof (Zlen_nonneg h1). pose proof (Zlen_nonneg h2).
  destruct (memcpy buf bufix h1) as [b1| |] eqn:E1; [|unfold memcpy in E1; by rewrite bool_decide_true in E1 by lia..].
  pose proof (memcpy_length _ _ _ _ E1) as L1. cbn [mbind outcome_bind fst snd].
  destruct (memcpy b1 (bufix + Zlen h1) h2) as [b2| |] eqn:E2;
    [|unfold memcpy in E2; rewrite bool_decide_true in E2 by (unfold Zlen in *; lia); done..].
  cbn [mbind outcome_bind]. exists b2. split; [done|].
  apply memcpy_take in E1; [|lia..]. apply memcpy_take in E2; [|unfold Zlen in *; lia..].
  replace (Z.to_nat (bufix + Zlen h1 + Zlen h2)) with (Z.to_nat (bufix + Zlen h1) + length h2)%nat by (unfold Zlen; lia).
  rewrite E2. replace (Z.to_nat (bufix + Zlen h1)) with (Z.to_nat bufix + length h1)%nat by (unfold Zlen; lia).
  rewrite E1. by rewrite app_assoc.
Qed.

Lemma wrapsum_range sum : 0 <= sum <= 65535 -> 0 <= wrapsum sum < 65536.
Proof. intros. rewrite wrapsum_ok by done. lia. Qed.

(** The octets of the headers, and their words with and without the checksum. *)
Lemma list_4 {A} (l : list A) : length l = 4%nat -> exists a b c d, l = [a; b; c; d].
Proof. destruct l as [|a [|b [|c [|d [|]]]]]; try done. by exists a, b, c, d. Qed.

Lemma list_2 {A} (l : list A) : length l = 2%nat -> exists a b, l = [a; b].
Proof. destruct l as [|a [|b [|]]]; try done. by exists a, b. Qed.

Lemma ip_header_bytes ip_len sum src dst :
  is_bytes src -> is_bytes dst -> is_bytes (ip_header ip_len sum src dst).
Proof.
  intros. unfold ip_header. rewrite !is_bytes_app.
  split_and!; auto using be_enc_bytes; decide_true.
Qed.

Lemma ip_header_words ip_len sum src dst :
  0 <= sum < 65536 -> words (ip_header ip_len sum src dst) = words (ip_header ip_len 0 src dst) + sum.
Proof.
  intros Hs. unfold ip_header. rewrite !(words_app 1 [69; IPTOS_LOWDELAY]) by done.
  rewrite !(words_app 1 (be_enc 2 ip_len)), !(words_app 3 [0; 0; 0; 0; 128; IPPROTO_UDP]) by done.
  rewrite (words_app 1 (be_enc 2 sum)), (words_app 1 (be_enc 2 0)), (words_be2 sum), (words_be2 0) by (done || lia). lia.
Qed.

Lemma udp_header_bytes sport dport ulen sum :
  is_bytes sport -> is_bytes dport -> is_bytes (udp_header sport dport ulen sum).
Proof. intros. unfold udp_header. rewrite !is_bytes_app. split_and!; auto using be_enc_bytes. Qed.

Lemma udp_header_words sport dport ulen sum :
  length sport = 2%nat -> length dport = 2%nat -> 0 <= sum < 65536 ->
  words (udp_header sport dport ulen sum) = words (udp_header sport dport ulen 0) + sum.
Proof.
  intros H1 H2 Hs. unfold udp_header. rewrite !(words_app 1 sport), !(words_app 1 dport) by done.
  rewrite !(words_app 1 (be_enc 2 ulen)), (words_be2 sum), (words_be2 0) by (done || lia). lia.
Qed.

Lemma ip_header_verifies ip_len src dst :
  is_bytes src -> is_bytes dst ->
  wrapsum (checksum_octets (ip_header ip_len (wrapsum (checksum_octets (ip_header ip_len 0 src dst) 0)) src dst) 0) = 0.
Proof.
  intros Hs Hd.
  pose proof (checksum_octets_ok _ 0 0 (ip_header_bytes ip_len 0 src dst Hs Hd) sums_to_0 ltac:(lia)) as H.
  set (sum := checksum_octets (ip_header ip_len 0 src dst) 0) in *.
  apply (wrapsum_verifies sum (0 + words (ip_header ip_len 0 src dst))); [done| |].
  - change (ip_header ip_len 0 src dst) with
      ([69; IPTOS_LOWDELAY] ++ (be_enc 2 ip_len ++ [0; 0; 0; 0; 128; IPPROTO_UDP] ++ be_enc 2 0 ++ src ++ dst)).
    rewrite (words_app 1) by done. change (words [69; IPTOS_LOWDELAY]) with 17680.
    match goal with |- context [words (be_enc 2 ip_len ++ ?r)] => assert (0 <= words (be_enc 2 ip_len ++ r)) end;
    [|lia]. apply words_nonneg. rewrite !is_bytes_app. split_and!; auto using be_enc_bytes; decide_true.
  - rewrite <- Z.add_assoc, <- (ip_header_words ip_len (wrapsum sum)) by (apply wrapsum_range, H).
    apply checksum_octets_ok; [by apply ip_header_bytes|apply sums_to_0|lia].
Qed.

(** The sum of the pseudo-header and the data, before the UDP header. *)
Lemma pseudo_sum addrs data ulen :
  is_bytes addrs -> is_bytes data -> 8 <= ulen -> IPPROTO_UDP + ulen <= 65535 ->
  sums_to (checksum_octets data (checksum_octets addrs (IPPROTO_UDP + ulen)))
          (IPPROTO_UDP + ulen + words addrs + words data).
Proof.
  unfold IPPROTO_UDP. intros Ha Hd Hu Hl. pose proof (words_nonneg addrs Ha).
  apply checksum_octets_ok; [done| |lia]. apply checksum_octets_ok; [done| |lia].
  split_and!; [lia..|done|done].
Qed.

Lemma udp_header_verifies addrs data sport dport ulen :
  is_bytes addrs -> is_bytes data -> is_bytes sport -> is_bytes dport ->
  length sport = 2%nat -> length dport = 2%nat -> 8 <= ulen -> IPPROTO_UDP + ulen <= 65535 ->
  let s := checksum_octets data (checksum_octets addrs (IPPROTO_UDP + ulen)) in
  wrapsum (checksum_octets (udp_header sport dport ulen (wrapsum (checksum_octets (udp_header sport dport ulen 0) s))) s) = 0.
Proof.
  intros Ha Hd Hsp Hdp Ls Ld Hu Hl s. pose proof (pseudo_sum addrs data ulen Ha Hd Hu Hl) as Hs. fold s in Hs.
  pose proof (words_nonneg addrs Ha). pose proof (words_nonneg data Hd).
  set (total := IPPROTO_UDP + ulen + words addrs + words data) in *.
  assert (0 < total) by (unfold total, IPPROTO_UDP; lia).
  pose proof (udp_header_bytes sport dport ulen 0 Hsp Hdp) as Hb. pose proof (words_nonneg _ Hb).
  pose proof (checksum_octets_ok _ s total Hb Hs ltac:(lia)) as H'.
  set (sum := checksum_octets (udp_header sport dport ulen 0) s) in *.
  apply (wrapsum_verifies sum (total + words (udp_header sport dport ulen 0))); [done|lia|].
  rewrite <- Z.add_assoc, <- (udp_header_words _ _ _ (wrapsum sum)) by (done || apply wrapsum_range, H').
  apply checksum_octets_ok; [by apply udp_header_bytes|done|lia].
Qed.

(** A frame that holds the two headers and the payload is accepted. *)
Lemma decode_frame uf c pre src dst sport dport data pad from0 rb ready ip_sum udp_sum :
  length src = 4%nat -> length dst = 4%nat -> length sport = 2%nat -> length dport = 2%nat ->
  SIZEOF_IP + SIZEOF_UDP + Zlen data <= 65535 ->
  let ip_len := SIZEOF_IP + SIZEOF_UDP + Zlen data in
  let ulen := SIZEOF_UDP + Zlen data in
  let iph := ip_header ip_len ip_sum src dst in
  let udph := udp_header sport dport ulen udp_sum in
  0 <= udp_sum < 65536 ->
  wrapsum (checksum_octets iph 0) = 0 ->
  wrapsum (checksum_octets udph (checksum_octets data (checksum_octets (src ++ dst) (IPPROTO_UDP + ulen)))) = 0 ->
  exists d, decode_udp_ip_header uf dport c (pre ++ iph ++ udph ++ data ++ pad) (Zlen pre) from0
              (ip_len + Zlen pad) rb ready = Ret d /\
    payload d = Some (SIZEOF_IP + SIZEOF_UDP) /\ rbuflen d = Zlen data /\ from d = Sockaddr src sport.
Proof.
  intros Hs Hd Hsp Hdp Hmax ip_len ulen iph udph Hsum Hip Hudp.
  pose proof (Zlen_nonneg data) as Hl0. pose proof (Zlen_nonneg pad) as Hp0. unfold SIZEOF_IP, SIZEOF_UDP in *.
  destruct (list_4 src Hs) as (s0 & s1 & s2 & s3 & Es), (list_4 dst Hd) as (d0 & d1 & d2 & d3 & Ed).
  destruct (list_2 sport Hsp) as (p0 & p1 & Ep), (list_2 dport Hdp) as (q0 & q1 & Eq).
  assert (be_val (be_enc 2 ip_len) = ip_len /\ be_val (be_enc 2 ulen) = ulen) as [Eil Eul].
  { rewrite !be_val_enc. split; apply Z.mod_small; unfold ip_len, ulen; cbn; lia. }
  unfold decode_udp_ip_header, SIZEOF_IP. rewrite (proj2 (Z.ltb_ge _ _)) by (unfold ip_len; lia).
  rewrite memread_mid by (unfold iph; by rewrite Es, Ed). cbn [mbind outcome_bind].
  rewrite (rdA_lookup _ _ 69);
    [|apply Zlen_nonneg|unfold Zlen; rewrite Nat2Z.id, lookup_app_r, Nat.sub_diag by lia; unfold iph; by rewrite Es].
  cbn [mbind outcome_bind]. change (Z.shiftl (Z.land 69 15) 2) with 20.
  change (take 2 (drop 2 iph)) with (be_enc 2 ip_len). rewrite Eil.
  rewrite !(proj2 (Z.ltb_ge _ _)) by (unfold ip_len, SIZEOF_UDP; lia). cbn [orb].
  assert (Zlen pre + 20 = Zlen (pre ++ iph)) as Epre by (rewrite Zlen_app; unfold iph; by rewrite Es, Ed).
  rewrite Epre, (app_assoc pre iph).
  rewrite (memread_mid (pre ++ iph) udph) by (unfold udph; by rewrite Ep, Eq). cbn [mbind outcome_bind].
  assert (uf && (negb (nthZ iph 9 =? IPPROTO_UDP) || negb (bool_decide (take 2 (drop 2 udph) = dport))) = false) as ->.
  { apply andb_false_iff. right. apply orb_false_iff. split; [done|].
    rewrite bool_decide_true; [done|]. unfold udph. by rewrite Ep, Eq. }
  assert (take 2 (drop 4 udph) = be_enc 2 ulen) as -> by (unfold udph; by rewrite Ep, Eq).
  rewrite Eul. rewrite !(proj2 (Z.ltb_ge _ _)) by (unfold ip_len, ulen, SIZEOF_UDP; lia).
  rewrite <- app_assoc. unfold checksum at 1.
  rewrite memread_mid by (unfold iph; by rewrite Es, Ed). cbn [mbind outcome_bind].
  rewrite Hip. cbn [Z.eqb negb]. unfold decode_udp, SIZEOF_UDP.
  assert (drop 12 iph = src ++ dst) as -> by (unfold iph; by rewrite Es, Ed).
  assert (take 2 udph = sport) as -> by (unfold udph; by rewrite Ep, Eq).
  rewrite (take_app_length' _ _ 4) by done.
  match goal with |- context [if ?b then ?x else Ret 0] => assert ((if b then x else Ret 0) = Ret 0) as -> end.
  { destruct (_ && _); [|done]. replace (ulen - 8) with (Zlen data) by (unfold ulen; lia).
    replace (Zlen (pre ++ iph) + 8) with (Zlen (pre ++ iph ++ udph))
      by (assert (Zlen udph = 8) as E8 by (unfold udph; by rewrite Ep, Eq); rewrite !Zlen_app, E8; lia).
    unfold checksum. replace (pre ++ iph ++ udph ++ data ++ pad) with ((pre ++ iph ++ udph) ++ data ++ pad)
      by (by rewrite <- !app_assoc).
    rewrite memread_mid by done. cbn [mbind outcome_bind]. by rewrite Hudp. }
  cbn [mbind outcome_bind Z.eqb negb]. eexists. split; [done|]. cbn [payload rbuflen from sin_addr].
  split_and!; [done|unfold ulen; lia|done].
Qed.

(** C31: a packet that [assemble_udp_ip_header] encapsulates is accepted by
    [decode_udp_ip_header] at the receiver, whatever follows it in the frame
    and whether checksums are verified or not: both checksums verify, the
    payload is found at its index with its length, and the sender's address
    and port are reported.  The length must fit the IP length field. *)
Theorem udp_ip_roundtrip uf c local_port buf bufix src dst port data pad from0 rb ready :
  length src = 4%nat -> length dst = 4%nat -> length local_port = 2%nat -> length port = 2%nat ->
  is_bytes src -> is_bytes dst -> is_bytes local_port -> is_bytes port -> is_bytes data ->
  SIZEOF_IP + SIZEOF_UDP + Zlen data <= 65535 ->
  0 <= bufix -> bufix + SIZEOF_IP + SIZEOF_UDP <= Zlen buf ->
  exists b e, assemble_udp_ip_header local_port buf bufix src dst port data = Ret (b, e) /\
    e = bufix + SIZEOF_IP + SIZEOF_UDP /\
    exists d, decode_udp_ip_header uf port c (take (Z.to_nat e) b ++ data ++ pad) bufix from0
                (SIZEOF_IP + SIZEOF_UDP + Zlen data + Zlen pad) rb ready = Ret d /\
      payload d = Some (SIZEOF_IP + SIZEOF_UDP) /\ rbuflen d = Zlen data /\ from d = Sockaddr src local_port.
Proof.
  intros Hs Hd Hlp Hp Bs Bd Blp Bp Bdata Hmax Hb Hbuf. pose proof (Zlen_nonneg data).
  unfold SIZEOF_IP, SIZEOF_UDP in *. unfold assemble_udp_ip_header, SIZEOF_IP, SIZEOF_UDP.
  rewrite !u16_small by lia. cbv zeta.
  set (s := checksum_octets data (checksum_octets (src ++ dst) (IPPROTO_UDP + (8 + Zlen data)))).
  set (sum := wrapsum (checksum_octets (udp_header local_port port (8 + Zlen data) 0) s)).
  set (ip_sum := wrapsum (checksum_octets (ip_header (20 + 8 + Zlen data) 0 src dst) 0)).
  set (iph := ip_header (20 + 8 + Zlen data) ip_sum src dst).
  set (udph := udp_header local_port port (8 + Zlen data) sum).
  assert (Zlen iph = 20 /\ Zlen udph = 8) as [L1 L2].
  { unfold iph, udph, ip_header, udp_header, Zlen. rewrite !length_app, !be_enc_length, Hs, Hd, Hlp, Hp. done. }
  destruct (append_twice buf bufix iph udph Hb) as (b & E & Htake); [lia|]. rewrite E.
  assert (IPPROTO_UDP + (8 + Zlen data) <= 65535) by (unfold IPPROTO_UDP; lia).
  eexists b, _. split; [done|]. split; [lia|]. rewrite Htake.
  set (pre := take (Z.to_nat bufix) buf).
  assert (Zlen pre = bufix) as Epre by (unfold pre, Zlen in *; rewrite length_take; lia).
  clearbody pre. rewrite <- Epre. rewrite <- !app_assoc.
  apply (decode_frame uf c pre src dst local_port port data pad from0 rb ready ip_sum sum); try done.
  - apply wrapsum_range. apply (checksum_octets_ok _ _ (IPPROTO_UDP + (8 + Zlen data) + words (src ++ dst) + words data)).
    + by apply udp_header_bytes.
    + apply pseudo_sum; try done; [by apply is_bytes_app|lia].
    + assert (is_bytes (src ++ dst)) as Ba by by apply is_bytes_app.
      pose proof (words_nonneg _ Ba). pose proof (words_nonneg _ Bdata). unfold IPPROTO_UDP. lia.
  - by apply ip_header_verifies.
  - apply udp_header_verifies; try done; [by apply is_bytes_app|unfold SIZEOF_UDP; lia].
Qed.

(** the link header of a frame sent from an Ethernet interface is accepted
    at the receiver and identifies the sender: the hardware address recovered
    is the one of the sending interface, and the UDP/IP packet starts right
    after the header, where the assembly stopped. *)
Theorem ethernet_roundtrip uf hw buf bufix to mac from0 rest :
  hlen hw = 7 -> hbuf hw = HTYPE_ETHER :: mac ++ rest -> length mac = 6%nat ->
  (forall h, to = Some h -> hlen h = 7 -> 7 <= Zlen (hbuf h)) ->
  7 <= Zlen (hbuf from0) -> 0 <= bufix -> bufix + ETHER_HEADER_SIZE <= Zlen buf ->
  exists b e, assemble_hw_header hw buf bufix to = Ret (b, e) /\ e = bufix + ETHER_HEADER_SIZE /\
    exists from, decode_hw_header uf hw b bufix from0 = Ret (ETHER_HEADER_SIZE, from) /\
      hlen from = 7 /\ take 7 (hbuf from) = HTYPE_ETHER :: mac.
Proof.
  intros Hh Hm Hl Hto Hf Hb Hbuf. unfold assemble_hw_header, decode_hw_header, ETHER_HEADER_SIZE in *.
  rewrite Hm. change (rd (HTYPE_ETHER :: mac ++ rest) 0) with (Ret HTYPE_ETHER). cbn [mbind outcome_bind].
  change (HTYPE_ETHER =? HTYPE_INFINIBAND) with false. unfold assemble_ethernet_header.
  assert (exists dhost, match to with
          | Some h => if hlen h =? 7 then memread (hbuf h) 1 6 else Ret (replicate 6 255)
          | None => Ret (replicate 6 255) end = Ret dhost /\ length dhost = 6%nat) as (dhost & -> & Ld).
  { destruct to as [h|]; [|by eexists]. destruct (Z.eqb_spec (hlen h) 7) as [E|E]; [|by eexists].
    specialize (Hto h eq_refl E). rewrite memread_in by lia. eexists. split; [done|].
    rewrite length_take, length_drop. unfold Zlen in Hto. lia. }
  cbn [mbind outcome_bind]. rewrite Hh, Hm. change (7 - 1 =? 6) with true. cbv iota.
  rewrite (memread_mid [HTYPE_ETHER] mac rest) by (unfold Zlen; by rewrite Hl). cbn [mbind outcome_bind].
  set (hdr := dhost ++ mac ++ be_enc 2 ETHERTYPE_IP).
  assert (Zlen hdr = 14) as Lh by (unfold hdr, Zlen; by rewrite !length_app, Ld, Hl).
  unfold append, memcpy. rewrite bool_decide_true by lia. cbn [mbind outcome_bind].
  eexists _, _. split; [done|]. split; [lia|].
  unfold decode_ethernet_header, ETHER_HEADER_SIZE.
  assert (Zlen (take (Z.to_nat bufix) buf) = bufix) as Ep by (unfold Zlen in *; rewrite length_take; lia).
  pose proof (memread_mid (take (Z.to_nat bufix) buf) hdr (drop (Z.to_nat bufix + length hdr) buf) 14) as Erd.
  rewrite Ep in Erd. rewrite Erd by done. cbn [mbind outcome_bind].
  assert (drop 12 hdr = be_enc 2 ETHERTYPE_IP) as ->.
  { unfold hdr. rewrite app_assoc. apply drop_app_length'. by rewrite length_app, Ld, Hl. }
  change (be_val (be_enc 2 ETHERTYPE_IP) =? ETHERTYPE_IP) with true. rewrite andb_false_r.
  assert (take 6 (drop 6 hdr) = mac) as ->.
  { unfold hdr. rewrite (drop_app_length' dhost) by done. by apply take_app_length'. }
  unfold memcpy. rewrite bool_decide_true by (unfold Zlen in *; lia). cbn [mbind outcome_bind].
  rewrite wrA_in by (unfold Zlen in *; rewrite !length_app, length_take, length_drop; lia).
  cbn [mbind outcome_bind]. eexists. split; [done|]. split; [done|]. cbn [hbuf].
  destruct (hbuf from0) as [|x r]; [unfold Zlen in Hf; cbn in Hf; lia|].
  change (Z.to_nat 1) with 1%nat. cbn [take app]. change (Z.to_nat 0) with 0%nat. cbn [insert list_insert take].
  f_equal. rewrite take_0. cbn [app]. rewrite <- Hl. apply take_app_length.
Qed.

(** ** Instances *)

Definition no_packets : counters := Counters 0 0 0 0 0 0.
Definition nobody : sockaddr_in := Sockaddr [0; 0; 0; 0] [0; 0].

Lemma checksum_detects_octet_witness :
  wrapsum (checksum_octets ([69; 0; 0; 20] ++ 186 :: [235]) 0) = 0 /\
  wrapsum (checksum_octets ([69; 0; 0; 20] ++ 187 :: [235]) 0) <> 0.
Proof.
  split; [reflexivity|]. apply (checksum_detects_octet [69; 0; 0; 20] 186 187 [235]);
    [decide_true|decide_true|discriminate|reflexivity].
Defined.

Lemma decode_udp_ip_header_safe_witness :
  exists d, decode_udp_ip_header true [0; 67] no_packets (replicate 40 69) 4 nobody 30 0 true = Ret d /\
            inside 30 0 d.
Proof.
  apply (decode_udp_ip_header_safe true [0; 67] no_packets (replicate 40 69) 4 nobody 30 0 true);
    [decide_true|lia|vm_compute; discriminate].
Defined.

Lemma udp_ip_roundtrip_witness :
  exists b e, assemble_udp_ip_header [0; 68] (replicate 60 0) 14 [10; 0; 0; 1] [10; 0; 0; 2] [0; 67] [1; 2; 3] = Ret (b, e) /\
    e = 14 + SIZEOF_IP + SIZEOF_UDP /\
    exists d, decode_udp_ip_header true [0; 67] no_packets (take (Z.to_nat e) b ++ [1; 2; 3] ++ [0]) 14 nobody
                (SIZEOF_IP + SIZEOF_UDP + Zlen [1; 2; 3] + Zlen [0]) 0 true = Ret d /\
      payload d = Some (SIZEOF_IP + SIZEOF_UDP) /\ rbuflen d = Zlen [1; 2; 3] /\
      from d = Sockaddr [10; 0; 0; 1] [0; 68].
Proof.
  apply (udp_ip_roundtrip true no_packets [0; 68] (replicate 60 0) 14 [10; 0; 0; 1] [10; 0; 0; 2] [0; 67]
    [1; 2; 3] [0] nobody 0 true); first [reflexivity|decide_true|vm_compute; discriminate].
Defined.

Definition hw0 : hardware := Hardware 7 ([1; 2; 0; 94; 16; 0; 1] ++ replicate 14 0).

Lemma ethernet_roundtrip_witness :
  exists b e, assemble_hw_header hw0 (replicate 20 0) 2 None = Ret (b, e) /\ e = 2 + ETHER_HEADER_SIZE /\
    exists from, decode_hw_header true hw0 b 2 hw0 = Ret (ETHER_HEADER_SIZE, from) /\
      hlen from = 7 /\ take 7 (hbuf from) = [1; 2; 0; 94; 16; 0; 1].
Proof.
  apply (ethernet_roundtrip true hw0 (replicate 20 0) 2 None [2; 0; 94; 16; 0; 1] hw0 (replicate 14 0));
    first [reflexivity|discriminate|vm_compute; discriminate].
Defined.

(** A checksum that comes out as zero is sent as zero, which means that there
    is no checksum; RFC 768 asks for all ones. *)
Theorem udp_zero_checksum_sent :
  (b ← assemble_udp_ip_header [0; 68] (replicate 28 0) 0 [10; 0; 0; 1] [10; 0; 0; 2] [0; 67] [235; 80];
   Ret (drop 26 b.1)) = Ret [0; 0].
Proof. vm_compute. reflexivity. Qed.

(** A packet whose IP header length is below 20 octets is accepted: the UDP
    header is then read from inside of the IP header. *)
Theorem decode_accepts_short_ip_header :
  payload <$> (match decode_udp_ip_header true [0; 67] no_packets
                       [66; 0; 0; 20; 189; 235; 0; 0; 0; 17; 0; 67; 0; 12; 0; 0; 1; 2; 3; 4] 0 nobody 20 0 true
               with Ret d => Some d | _ => None end) = Some (Some 16).
Proof. vm_compute. reflexivity. Qed.

End Packet.
