(* ===== verification/Options.v ===== *)
(** * DHCP options: storage and parsing (common/options.c)

    The options of a packet are kept in one store for each option space (a
    [struct universe]): a hash table or a linked list of option caches, where
    the values of an option that may occur more than once are chained.  The
    parser splits a buffer into options and stores them, decoding encapsulated
    spaces on the way.

    A value is the list of its octets.  The parser keeps its values in a copy
    [bp] of the buffer, in which it also writes a NUL after each value: this
    falls on the tag of the next option, which is read from the original, or on
    the octet allocated beyond the end, so that no value changes. *)

From Stdlib Require Import ZArith Lia Ascii String.
From stdpp Require Import base list numbers option gmap fin_maps.
From S2P Require Import Prelude.
From S2P Require Import Convert.
#[local] Open Scope Z_scope.

Module Options.

Export Convert.

(** ** Format strings *)

Definition default_option_format : string := "X".

(** [naming]: inside the name of a space, which ends with a dot. *)
Fixpoint has_text (naming : bool) (p : string) : bool :=
  match p with
  | EmptyString => false
  | String c p' =>
    if naming then has_text (negb (Ascii.eqb c ".")) p'
    else
      match c with
      | "d" | "t" => true
      | "A" | "a" | "X" | "x" | "D" => false
      | "E" | "N" => has_text true p'
      | _ => has_text false p'
      end%char
  end.

Definition format_has_text (format : string) : bool := has_text false format.

Definition INT_MAX : Z := 2 ^ 31 - 1.

(** [strchr]: the text before and after the first [c]. *)
Fixpoint strchr (c : ascii) (s : string) : option (string * string) :=
  match s with
  | EmptyString => None
  | String a s' =>
    if Ascii.eqb a c then Some (EmptyString, s')
    else match strchr c s' with
         | Some (u, v) => Some (String a u, v)
         | None => None
         end
  end.

Section Formats.
(** The widths of the enumerations, by name ([find_enumeration]). *)
Context (find_enumeration : string -> option Z).

Fixpoint min_length (fuel : nat) (p : string) (min_len last_size : Z) : outcome Z :=
  match p with
  | EmptyString => Ret min_len
  | String c p' =>
    match fuel with
    | O => Undef
    | S fuel =>
      match c with
      | "6" => min_length fuel p' (min_len + 16) 16
      | "I" | "l" | "L" | "T" => min_length fuel p' (min_len + 4) 4
      | "s" | "S" => min_length fuel p' (min_len + 2) 2
      | "N" =>
        match strchr "." p' with
        | None => Fatal
        | Some (name, p'') =>
          match find_enumeration name with
          | None => Ret INT_MAX
          | Some width => min_length fuel p'' (min_len + width) width
          end
        end
      | "b" | "B" | "F" | "f" => min_length fuel p' (min_len + 1) 1
      | "o" => Ret (min_len - last_size)
      | "e" | "E" | "d" | "D" | "t" | "X" | "x" | "A" | "a" | "Z" => Ret min_len
      | _ => Ret INT_MAX
      end%char
    end
  end.

Definition format_min_length (format : string) : outcome Z :=
  min_length (String.length format) format 0 0.

(** ** Option states *)

Record option_cache : Type := Cache { oc_code : Z; oc_format : string; oc_data : list Z; had_nulls : bool }.

(** A cache and those behind its [next] pointer. *)
Abbreviation chain := (list option_cache).

Definition OPTION_HASH_SIZE : Z := 17.
Definition OPTION_HASH_PTWO : Z := 32.
Definition OPTION_HASH_EXP : Z := 5.

Definition compute_option_hash (x : Z) : Z :=
  (Z.land x (OPTION_HASH_PTWO - 1) + Z.land (Z.shiftr x OPTION_HASH_EXP) (OPTION_HASH_PTWO - 1)) mod OPTION_HASH_SIZE.

(** A hash table has a list of chains for each hash value, an
    [option_chain_head] one list of chains. *)
Inductive storage : Type := By_hash | By_list.

(** [spaces]: what [universes] points to, as a list of lists of chains (one of
    them for a linked space); [allocs] counts the requests for memory. *)
Record option_state : Type := State {
  universe_count : nat;
  spaces : gmap nat (list (list chain));
  allocs : nat
}.

(** The [decode] function of a space: none, [parse_option_buffer], or one of
    the space's own. *)
Inductive decoder : Type :=
| No_decoder
| Options_decoder
| Own_decoder (f : option_state -> list Z -> outcome (bool * option_state)).

(** An option space.  [code_hash] gives the format of a defined option. *)
Record universe : Type := Universe {
  u_name : string;
  u_index : nat;
  u_storage : storage;
  tag_size : Z;
  length_size : Z;
  get_tag : list Z -> outcome Z;
  get_length : option (list Z -> outcome Z);
  u_end : Z;
  concat_duplicates : bool;
  code_hash : Z -> option string;
  decode : decoder
}.

Definition with_space (st : option_state) (i : nat) (t : list (list chain)) : option_state :=
  State (universe_count st) (<[i := t]> (spaces st)) (allocs st).

(** Whether the [n]-th request for memory succeeds. *)
Context (mem : nat -> bool).

Definition alloc (st : option_state) : bool * option_state :=
  (mem (allocs st), State (universe_count st) (spaces st) (S (allocs st))).

Definition bucket (u : universe) (code : Z) : Z :=
  match u_storage u with By_hash => compute_option_hash code | By_list => 0 end.

(** The code of a chain's first cache. *)
Definition has_code (code : Z) (c : chain) : bool :=
  match c with oc :: _ => oc_code oc =? code | [] => false end.

Fixpoint find_chain (code : Z) (b : list chain) : option chain :=
  match b with
  | [] => None
  | c :: b' => if has_code code c then Some c else find_chain code b'
  end.

(** The first chain with the code is replaced; without one, nothing is. *)
Fixpoint replace_chain (code : Z) (f : chain -> list chain) (b : list chain) : list chain :=
  match b with
  | [] => []
  | c :: b' => if has_code code c then f c ++ b' else c :: replace_chain code f b'
  end.

(** [lookup_hashed_option], [lookup_linked_option] *)
Definition lookup_option (u : universe) (st : option_state) (code : Z) : outcome (option chain) :=
  if (universe_count st <=? u_index u)%nat then Ret None
  else match spaces st !! u_index u with
       | None => Ret None
       | Some t => b ← rdA t (bucket u code); Ret (find_chain code b)
       end.

(** The space's own memory: [OPTION_HASH_SIZE] empty lists, or one. *)
Definition new_space (u : universe) : list (list chain) :=
  match u_storage u with By_hash => replicate (Z.to_nat OPTION_HASH_SIZE) [] | By_list => [[]] end.

(** A new pair: at the head of a hash bucket, at the end of a list. *)
Definition add_chain (u : universe) (c : chain) (b : list chain) : list chain :=
  match u_storage u with By_hash => c :: b | By_list => b ++ [c] end.

(** [save_hashed_option], [save_linked_option] *)
Definition save_option (u : universe) (st : option_state) (oc : option_cache) (appendp : bool)
  : outcome option_state :=
  if (universe_count st <=? u_index u)%nat then
    match u_storage u with By_hash => Undef | By_list => Ret st end
  else
    let i := bucket u (oc_code oc) in
    let '(ok, st) := match spaces st !! u_index u with
                     | Some _ => (true, st)
                     | None => let '(ok, st) := alloc st in
                               (ok, if ok then with_space st (u_index u) (new_space u) else st)
                     end in
    if negb ok then Ret st
    else
      match spaces st !! u_index u with
      | None => Undef
      | Some t =>
        b ← rdA t i;
        match find_chain (oc_code oc) b with
        | Some _ =>
          t ← wrA t i (replace_chain (oc_code oc) (fun c => [if appendp then c ++ [oc] else [oc]]) b);
          Ret (with_space st (u_index u) t)
        | None =>
          let '(ok, st) := alloc st in
          if negb ok then Ret st
          else t ← wrA t i (add_chain u [oc] b); Ret (with_space st (u_index u) t)
        end
      end.

(** [delete_hashed_option], [delete_linked_option] *)
Definition delete_option (u : universe) (st : option_state) (code : Z) : outcome option_state :=
  if (universe_count st <=? u_index u)%nat then
    match u_storage u with By_hash => Undef | By_list => Ret st end
  else match spaces st !! u_index u with
       | None => Ret st
       | Some t =>
         b ← rdA t (bucket u code);
         t ← wrA t (bucket u code) (replace_chain code (fun _ => []) b);
         Ret (with_space st (u_index u) t)
       end.

(** A value changed where it is, through the pointer a lookup returned. *)
Definition change_option (u : universe) (st : option_state) (code : Z) (f : chain -> chain) : outcome option_state :=
  match spaces st !! u_index u with
  | None => Undef
  | Some t =>
    b ← rdA t (bucket u code);
    t ← wrA t (bucket u code) (replace_chain code (fun c => [f c]) b);
    Ret (with_space st (u_index u) t)
  end.

(** ** Option caches for received values *)

(** The NULs at the end of a text, as far as [min_len] leaves it room. *)
Fixpoint strip_nulls (n : nat) (min_len : Z) (data : list Z) : list Z * bool :=
  match n with
  | O => (data, false)
  | S n' =>
    if (min_len <? Zlen data) && bool_decide (last data = Some 0)
    then ((strip_nulls n' min_len (removelast data)).1, true)
    else (data, false)
  end.

(** [prepare_option_buffer], for a value in a buffer that the caller holds. *)
Definition prepare_option_buffer (u : universe) (st : option_state) (data : list Z) (code : Z)
  : outcome (option option_cache * option_state) :=
  too_big ← match tag_size u with
            | 1 => Ret (255 <? code)
            | 2 => Ret (65535 <? code)
            | 4 => Ret (4294967295 <? code)
            | _ => Fatal
            end;
  if (too_big : bool) then Ret (None, st)
  else
    let '(ok, format, st) := match code_hash u code with
                             | Some format => (true, format, st)
                             | None => let '(ok, st) := alloc st in (ok, default_option_format, st)
                             end in
    if negb ok then Ret (None, st)
    else
      let '(ok, st) := alloc st in
      if negb ok then Ret (None, st)
      else
        if format_has_text format then
          min_len ← format_min_length format;
          let '(data, nulls) := strip_nulls (List.length data) (u32 min_len) data in
          Ret (Some (Cache code format data nulls), st)
        else Ret (Some (Cache code format data false), st).

Definition save_option_buffer (u : universe) (st : option_state) (data : list Z) (code : Z)
  : outcome (bool * option_state) :=
  r ← prepare_option_buffer u st data code;
  match r with
  | (None, st) => Ret (false, st)
  | (Some oc, st) => st ← save_option u st oc false; Ret (true, st)
  end.

(** [append_option_buffer], with its own copy of the value. *)
Definition append_option_buffer (u : universe) (st : option_state) (data : list Z) (code : Z)
  : outcome (bool * option_state) :=
  r ← prepare_option_buffer u st data code;
  match r with
  | (None, st) => Ret (false, st)
  | (Some oc, st) => st ← save_option u st oc true; Ret (true, st)
  end.

(** ** Parsing *)

Context (universes : list universe).

Definition named (name : string) : option universe :=
  snd <$> list_find (fun u => u_name u = name) universes.

(** [uname]: the space of a format that names none. *)
Definition find_option_universe (format : string) (uname : option string) : option universe :=
  match strchr "E" format with
  | None => None
  | Some (_, s) =>
    match strchr "." s with
    | Some (EmptyString, EmptyString) => match uname with Some n => named n | None => None end
    | Some (name, EmptyString) => named name
    | _ => None
    end
  end.

Definition DHO_PAD : Z := 0.
Definition DHO_END : Z := 255.
Definition DHO_DHCP_OPTION_OVERLOAD : Z := 52.
Definition DHO_DHCP_MESSAGE_TYPE : Z := 53.

Definition encapsulating (format : string) : bool :=
  match format with String c _ => Ascii.eqb c "e" || Ascii.eqb c "E" | EmptyString => false end.

Section Loop.
(** [parse_option_buffer] for the spaces inside. *)
Context (inner : universe -> option_state -> list Z -> outcome (bool * option_state)).

Definition parse_encapsulated_suboptions (st : option_state) (format : string) (buffer : list Z)
    (uname : option string) : outcome (bool * option_state) :=
  match find_option_universe format uname with
  | None => Ret (false, st)
  | Some u =>
    let kept b := match format with String c _ => Ascii.eqb c "E" && b | EmptyString => false end in
    match decode u with
    | No_decoder => Ret (false, st)
    | Options_decoder => r ← inner u st buffer; Ret (kept r.1, r.2)
    | Own_decoder f => r ← f st buffer; Ret (kept r.1, r.2)
    end
  end.

(** An option of the buffer. *)
Definition keep_option (u : universe) (st : option_state) (code : Z) (data : list Z)
  : outcome (bool * option_state) :=
  st ← match code_hash u code with
       | Some format =>
         if encapsulating format then r ← parse_encapsulated_suboptions st format data None; Ret (r.2) else Ret st
       | None => Ret st
       end;
  op ← lookup_option u st code;
  match op with
  | None => save_option_buffer u st data code
  | Some c =>
    let '(ok, st) := alloc st in
    if negb ok then Ret (false, st)
    else if concat_duplicates u then
      st ← change_option u st code
             (fun c => match c with
                       | oc :: r => Cache (oc_code oc) (oc_format oc) (oc_data oc ++ data) (had_nulls oc) :: r
                       | [] => []
                       end);
      Ret (true, st)
    else
      st ← change_option u st code
             (fun c => c ++ match last c with
                            | Some oc => [Cache (oc_code oc) (oc_format oc) data false]
                            | None => []
                            end);
      Ret (true, st)
  end.

Fixpoint option_loop (fuel : nat) (u : universe) (st : option_state) (buffer : list Z) (offset : Z)
  : outcome (bool * option_state) :=
  let length := Zlen buffer in
  if length <? offset + tag_size u then Ret (true, st)
  else
    code ← get_tag u (drop (Z.to_nat offset) buffer);
    if code =? u_end u then Ret (true, st)
    else
      match fuel with
      | O => Undef
      | S fuel =>
        let offset := offset + tag_size u in
        if code =? DHO_PAD then option_loop fuel u st buffer offset
        else if length <? offset + length_size u then Ret (false, st)
        else
          len ← match get_length u with
                | Some get => get (drop (Z.to_nat offset) buffer)
                | None => if length_size u =? 0 then Ret (u32 (length - tag_size u)) else Fatal
                end;
          let offset := offset + length_size u in
          if length <? u32 (offset + len) then Ret (false, st)
          else
            data ← memread buffer offset len;
            r ← keep_option u st code data;
            match r with
            | (true, st) => option_loop fuel u st buffer (offset + len)
            | (false, st) => Ret (false, st)
            end
      end.

End Loop.

Fixpoint parse_buffer (fuel : nat) (u : universe) (st : option_state) (buffer : list Z)
  : outcome (bool * option_state) :=
  match fuel with
  | O => Undef
  | S fuel =>
    let '(ok, st) := alloc st in
    if negb ok then Ret (false, st)
    else option_loop (parse_buffer fuel) (List.length buffer) u st buffer 0
  end.

Definition parse_option_buffer (u : universe) (st : option_state) (buffer : list Z)
  : outcome (bool * option_state) := parse_buffer (S (List.length buffer)) u st buffer.

(** ** Packets *)

Definition DHCPOFFER : Z := 2.
Definition DHCPACK : Z := 5.
Definition DHCPNAK : Z := 6.
Definition DHCP_OPTIONS_COOKIE : list Z := [99; 130; 83; 99].

(** The fields of a packet that can hold options; [raw_options] goes to the end
    of the packet. *)
Record raw_packet : Type := Raw { raw_file : list Z; raw_sname : list Z; raw_options : list Z }.

(** The first octet of a value; the parser has put a NUL after an empty one. *)
Definition first_octet (c : chain) : Z :=
  match c with oc :: _ => match oc_data oc with x :: _ => x | [] => 0 end | [] => 0 end.

(** [parse_options]: the result, and whether there are options. *)
Definition parse_options (dhcp_universe : universe) (st : option_state) (p : raw_packet)
  : outcome (bool * bool * option_state) :=
  cookie ← memread (raw_options p) 0 4;
  if negb (bool_decide (cookie = DHCP_OPTIONS_COOKIE)) then Ret (true, false, st)
  else
    r ← parse_option_buffer dhcp_universe st (drop 4 (raw_options p));
    let '(ok, st) := r in
    op ← lookup_option dhcp_universe st DHO_DHCP_MESSAGE_TYPE;
    if negb ok && match op with
                  | Some c => negb (first_octet c =? DHCPOFFER) && negb (first_octet c =? DHCPACK)
                              && negb (first_octet c =? DHCPNAK)
                  | None => true
                  end
    then Ret (false, false, st)
    else
      op ← lookup_option dhcp_universe st DHO_DHCP_OPTION_OVERLOAD;
      let overload := match op with Some c => first_octet c | None => 0 end in
      r ← (if Z.testbit overload 0 then parse_option_buffer dhcp_universe st (raw_file p) else Ret (true, st));
      let '(ok, st) := r in
      if negb ok then Ret (false, false, st)
      else
        (* the octet is read again, where the options of the file field may have extended the value *)
        op ← (match op with Some _ => lookup_option dhcp_universe st DHO_DHCP_OPTION_OVERLOAD | None => Ret None end);
        let overload := match op with Some c => first_octet c | None => 0 end in
        r ← (if Z.testbit overload 1 then parse_option_buffer dhcp_universe st (raw_sname p) else Ret (true, st));
        let '(ok, st) := r in
        if negb ok then Ret (false, false, st) else Ret (true, true, st).

End Formats.

(** ** The stores *)

Abbreviation chain := (list option_cache).

(** The chain of a code: the values of the option, in order. *)
Definition view (u : universe) (st : option_state) (code : Z) : chain :=
  match lookup_option u st code with Ret (Some c) => c | _ => [] end.

Definition head_code (c : chain) : option Z := oc_code <$> head c.

Definition width (u : universe) : nat :=
  match u_storage u with By_hash => Z.to_nat OPTION_HASH_SIZE | By_list => 1%nat end.

(** A list of chains: each in its place, no two for one code. *)
Record bucket_ok (u : universe) (i : nat) (b : list chain) : Prop := Bucket_ok {
  bucket_chains : Forall (fun c => exists code, head_code c = Some code /\ Z.to_nat (bucket u code) = i) b;
  bucket_nodup : NoDup (map head_code b)
}.

Record space_ok (u : universe) (t : list (list chain)) : Prop := Space_ok {
  space_width : length t = width u;
  space_buckets : forall i b, t !! i = Some b -> bucket_ok u i b
}.

Record state_ok (u : universe) (st : option_state) : Prop := State_ok {
  state_index : (u_index u < universe_count st)%nat;
  state_space : forall t, spaces st !! u_index u = Some t -> space_ok u t
}.

Lemma bucket_range u code : 0 <= bucket u code < Z.of_nat (width u).
Proof.
  unfold bucket, width, compute_option_hash, OPTION_HASH_SIZE. destruct (u_storage u); [|lia].
  match goal with |- context [?x mod 17] => pose proof (Z.mod_pos_bound x 17) end. lia.
Qed.

Lemma has_code_iff code c : has_code code c = true <-> head_code c = Some code.
Proof. destruct c as [|oc c]; cbn; [done|]. rewrite Z.eqb_eq. naive_solver. Qed.

Lemma find_chain_None code b : find_chain code b = None <-> Some code ∉ map head_code b.
Proof.
  induction b as [|c b IH]; cbn [find_chain map]; [split; [intros _ H; inversion H|done]|].
  destruct (has_code code c) eqn:E; rewrite not_elem_of_cons.
  - apply has_code_iff in E. rewrite E. naive_solver.
  - rewrite IH. split; [|tauto]. intros H. split; [|done]. intros H'. symmetry in H'. apply has_code_iff in H'. congruence.
Qed.

(** A change of a chain: it goes, or stays a chain of the same code. *)
Definition keeps_code (code : Z) (f : chain -> list chain) : Prop :=
  forall c, head_code c = Some code -> f c = [] \/ exists c', f c = [c'] /\ head_code c' = Some code.

Lemma replace_heads code f b x :
  keeps_code code f -> x ∈ map head_code (replace_chain code f b) -> x ∈ map head_code b.
Proof.
  intros Hf. induction b as [|c b IH]; cbn [replace_chain]; [done|]. destruct (has_code code c) eqn:E.
  - apply has_code_iff in E. rewrite map_app. destruct (Hf c E) as [->|(c' & -> & E')]; cbn; rewrite ?elem_of_cons, ?E, ?E'; tauto.
  - cbn. rewrite !elem_of_cons. naive_solver.
Qed.

Lemma replace_chain_ok u i code f b :
  keeps_code code f -> bucket_ok u i b -> bucket_ok u i (replace_chain code f b).
Proof.
  intros Hf. induction b as [|c b IH]; cbn [replace_chain map] in *; intros [Hc Hd]; [by constructor|].
  inversion_clear Hc as [|? ? Hc1 Hc2]. inversion_clear Hd as [|? ? Hd1 Hd2].
  destruct (has_code code c) eqn:E.
  - apply has_code_iff in E. destruct (Hf c E) as [->|(c' & -> & E')]; cbn [app]; [by constructor|].
    constructor; [constructor; [rewrite E'; rewrite E in Hc1; done|done]|]. cbn. constructor; [by rewrite E', <- E|done].
  - destruct IH as [IH1 IH2]; [by constructor|]. constructor; [by constructor|]. cbn. constructor; [|done].
    intros Hx. apply Hd1. by eapply replace_heads.
Qed.

Lemma find_replace_eq code f b c :
  NoDup (map head_code b) -> find_chain code b = Some c -> keeps_code code f ->
  find_chain code (replace_chain code f b) = head (f c).
Proof.
  intros Hd Hc Hf. induction b as [|c0 b IH]; cbn [find_chain replace_chain map] in *; [done|].
  inversion_clear Hd as [|? ? Hd1 Hd2]. destruct (has_code code c0) eqn:E.
  - injection Hc as ->. apply has_code_iff in E as E'. destruct (Hf c E') as [->|(c' & -> & E2)]; cbn.
    + apply find_chain_None. by rewrite <- E'.
    + apply has_code_iff in E2. by rewrite E2.
  - cbn [find_chain]. rewrite E. auto.
Qed.

Lemma find_replace_ne code code' f b :
  code' <> code -> keeps_code code f -> find_chain code' (replace_chain code f b) = find_chain code' b.
Proof.
  intros Hne Hf. induction b as [|c b IH]; cbn [find_chain replace_chain]; [done|].
  destruct (has_code code c) eqn:E; cbn [find_chain]; [|by rewrite IH].
  apply has_code_iff in E as E'.
  assert (forall c, head_code c = Some code -> has_code code' c = false) as Hn.
  { intros c0 H0. destruct (has_code code' c0) eqn:E0; [|done]. apply has_code_iff in E0. congruence. }
  rewrite (Hn c E'). destruct (Hf c E') as [->|(c' & -> & E2)]; cbn; [done|]. by rewrite (Hn c' E2).
Qed.

Lemma find_add_chain u oc b code :
  find_chain (oc_code oc) b = None ->
  find_chain code (add_chain u [oc] b) = if oc_code oc =? code then Some [oc] else find_chain code b.
Proof.
  intros Hn. unfold add_chain. destruct (u_storage u); cbn; [done|].
  induction b as [|c b IH]; cbn in *; [done|].
  destruct (has_code (oc_code oc) c) eqn:E0; [done|]. destruct (has_code code c) eqn:E; [|by apply IH].
  apply has_code_iff in E. destruct (Z.eqb_spec (oc_code oc) code) as [Ec|]; [|done].
  rewrite <- Ec in E. apply has_code_iff in E. congruence.
Qed.

Lemma add_chain_ok u oc b :
  find_chain (oc_code oc) b = None -> bucket_ok u (Z.to_nat (bucket u (oc_code oc))) b ->
  bucket_ok u (Z.to_nat (bucket u (oc_code oc))) (add_chain u [oc] b).
Proof.
  intros Hn%find_chain_None [Hc Hd]. unfold add_chain.
  assert (exists code, head_code [oc] = Some code /\ Z.to_nat (bucket u code) = Z.to_nat (bucket u (oc_code oc))) as H1
    by eauto.
  destruct (u_storage u).
  - constructor; [by constructor|]. cbn. by constructor.
  - constructor; [apply Forall_app; split; [done|by constructor]|]. rewrite map_app. apply NoDup_app.
    split_and!; [done| |apply NoDup_singleton]. cbn. set_solver.
Qed.

Lemma get_bucket u t code :
  space_ok u t ->
  exists b, rdA t (bucket u code) = Ret b /\ t !! Z.to_nat (bucket u code) = Some b /\
    bucket_ok u (Z.to_nat (bucket u code)) b.
Proof.
  intros [Hw Hb]. pose proof (bucket_range u code) as Hr.
  destruct (lookup_lt_is_Some_2 t (Z.to_nat (bucket u code))) as [b E]; [rewrite Hw; lia|].
  exists b. split_and!; [apply rdA_lookup; [lia|done]|done|by apply Hb].
Qed.

Lemma lookup_option_eq u st code t b :
  state_ok u st -> spaces st !! u_index u = Some t -> t !! Z.to_nat (bucket u code) = Some b ->
  lookup_option u st code = Ret (find_chain code b).
Proof.
  intros [Hi _] Ht Hb. unfold lookup_option. rewrite (proj2 (Nat.leb_gt _ _) Hi), Ht.
  rewrite (rdA_lookup _ _ b) by (done || apply bucket_range). done.
Qed.

Lemma lookup_option_none u st code : spaces st !! u_index u = None -> lookup_option u st code = Ret None.
Proof. intros H. unfold lookup_option. rewrite H. by destruct (_ <=? _)%nat. Qed.

Lemma lookup_option_ok u st code : state_ok u st -> exists c, lookup_option u st code = Ret c.
Proof.
  intros W. destruct (spaces st !! u_index u) as [t|] eqn:Et; [|rewrite lookup_option_none by done; eauto].
  destruct (get_bucket u t code) as (b & _ & Eb & _); [by apply W|]. rewrite (lookup_option_eq u st code t b) by done. eauto.
Qed.

(** Two states that differ only in the memory used and in other spaces. *)
Lemma lookup_option_ext u st st' code :
  universe_count st' = universe_count st -> spaces st' !! u_index u = spaces st !! u_index u ->
  lookup_option u st' code = lookup_option u st code.
Proof. intros E1 E2. unfold lookup_option. by rewrite E1, E2. Qed.

Lemma view_ext u st st' code :
  universe_count st' = universe_count st -> spaces st' !! u_index u = spaces st !! u_index u ->
  view u st' code = view u st code.
Proof. intros. unfold view. by rewrite (lookup_option_ext u st st'). Qed.

Lemma state_ok_ext u st st' :
  universe_count st' = universe_count st -> spaces st' !! u_index u = spaces st !! u_index u ->
  state_ok u st -> state_ok u st'.
Proof. intros E1 E2 [? ?]. constructor; [by rewrite E1|by rewrite E2]. Qed.

(** The states after an operation on the space of [u]: well-formed, and the
    other spaces untouched. *)
Record touched (u : universe) (st st' : option_state) : Prop := Touched {
  touched_ok : state_ok u st';
  touched_count : universe_count st' = universe_count st;
  touched_others : forall i, i <> u_index u -> spaces st' !! i = spaces st !! i
}.

(** Writing back the bucket of a code. *)
Lemma put_bucket u st t code b b' :
  state_ok u st -> spaces st !! u_index u = Some t -> t !! Z.to_nat (bucket u code) = Some b ->
  bucket_ok u (Z.to_nat (bucket u code)) b' ->
  (forall code', code' <> code -> find_chain code' b' = find_chain code' b) ->
  exists t', wrA t (bucket u code) b' = Ret t' /\
    touched u st (with_space st (u_index u) t') /\
    lookup_option u (with_space st (u_index u) t') code = Ret (find_chain code b') /\
    forall code', code' <> code -> lookup_option u (with_space st (u_index u) t') code' = lookup_option u st code'.
Proof.
  intros W Ht Hb Hok Hne. pose proof (bucket_range u code) as Hr. pose proof W as [Hi Hs].
  pose proof (Hs _ Ht) as [Hw Hbs]. exists (<[Z.to_nat (bucket u code) := b']> t).
  split; [apply wrA_in; unfold Zlen; lia|].
  set (st' := with_space _ _ _). assert (spaces st' !! u_index u = Some (<[Z.to_nat (bucket u code) := b']> t)) as E'
    by apply lookup_insert_eq.
  assert (state_ok u st') as W'.
  { constructor; [done|]. rewrite E'. intros t0 [= <-]. constructor; [by rewrite length_insert|].
    intros i b0. destruct (decide (i = Z.to_nat (bucket u code))) as [->|].
    - rewrite list_lookup_insert_eq by lia. by intros [= <-].
    - rewrite list_lookup_insert_ne by done. apply Hbs. }
  split; [constructor; [done|done|]; intros i Hne'; by apply lookup_insert_ne|].
  split; [eapply lookup_option_eq; [done|done|]; rewrite list_lookup_insert_eq by lia; done|].
  intros code' Hc. destruct (get_bucket u t code') as (b1 & _ & Eb1 & _); [by apply Hs|].
  rewrite (lookup_option_eq u st code' t b1) by done.
  destruct (decide (Z.to_nat (bucket u code') = Z.to_nat (bucket u code))) as [E|E].
  - rewrite (lookup_option_eq u st' code' _ b' W' E'); [rewrite Hne by done; congruence|].
    rewrite E, list_lookup_insert_eq by lia. done.
  - apply (lookup_option_eq u st' code' _ b1 W' E'). by rewrite list_lookup_insert_ne.
Qed.

Lemma new_space_empty u i b : new_space u !! i = Some b -> b = [].
Proof.
  unfold new_space. destruct (u_storage u); [by intros [? _]%lookup_replicate|]. destruct i as [|[]]; cbn; congruence.
Qed.

Lemma new_space_ok u : space_ok u (new_space u).
Proof.
  constructor.
  - unfold new_space, width. destruct (u_storage u); [by rewrite length_replicate|done].
  - intros i b ->%new_space_empty. constructor; cbn; constructor.
Qed.

Section Stores.
Context (mem : nat -> bool).

(** Saving a value: the new chain of its code, or no memory and no change. *)
Lemma save_option_ok u st oc appendp :
  state_ok u st ->
  exists st', save_option mem u st oc appendp = Ret st' /\ touched u st st' /\
    (forall code, code <> oc_code oc -> view u st' code = view u st code) /\
    (view u st' (oc_code oc) = (if appendp then view u st (oc_code oc) ++ [oc] else [oc]) \/
     ((exists n, mem n = false) /\ view u st' (oc_code oc) = view u st (oc_code oc))).
Proof.
  intros W. pose proof W as [Hi Hs]. unfold save_option. rewrite (proj2 (Nat.leb_gt _ _) Hi).
  set (prep := match spaces st !! u_index u with Some _ => _ | None => _ end).
  assert (exists ok st1, prep = (ok, st1) /\ touched u st st1 /\ (forall code, view u st1 code = view u st code) /\
            if ok : bool then is_Some (spaces st1 !! u_index u) else exists n, mem n = false)
    as (ok & st1 & -> & T1 & V1 & Hok).
  { unfold prep. destruct (spaces st !! u_index u) as [t|] eqn:Et.
    { exists true, st. split_and!; done. }
    unfold alloc. destruct (mem (allocs st)) eqn:Em.
    - eexists _, _. split; [reflexivity|]. cbn. split_and!.
      + constructor; cbn; [constructor; cbn; [done|]| |].
        * rewrite lookup_insert_eq. intros t [= <-]. apply new_space_ok.
        * done.
        * intros i Hne. by rewrite lookup_insert_ne.
      + intros code. unfold view. rewrite (lookup_option_none u st) by done.
        unfold lookup_option. cbn. rewrite (proj2 (Nat.leb_gt _ _) Hi), lookup_insert_eq.
        destruct (get_bucket u (new_space u) code (new_space_ok u)) as (b & -> & Eb & _). cbn.
        by rewrite (new_space_empty _ _ _ Eb).
      + rewrite lookup_insert_eq. eauto.
    - eexists _, _. split; [reflexivity|]. split_and!; [|done|eauto].
      constructor; [by apply (state_ok_ext u st)|done|done]. }
  destruct ok; cbn [negb]; [|exists st1; split_and!; try done; right; eauto].
  destruct Hok as [t Et]. rewrite Et. pose proof (touched_ok _ _ _ T1) as W1.
  destruct (get_bucket u t (oc_code oc)) as (b & Erd & Eb & Hb); [by apply W1|]. rewrite Erd. cbn [mbind outcome_bind].
  assert (view u st1 (oc_code oc) = match find_chain (oc_code oc) b with Some c => c | None => [] end) as Ev
    by (unfold view; rewrite (lookup_option_eq u st1 _ t b) by done; done).
  assert (forall st2, touched u st1 st2 -> touched u st st2) as Tt.
  { intros st2 [? E2 E3]. destruct T1 as [? E4 E5]. constructor; [done|congruence|]. intros. by rewrite E3, E5. }
  destruct (find_chain (oc_code oc) b) as [c|] eqn:Ef.
  - set (f := fun c0 : chain => _).
    assert (keeps_code (oc_code oc) f) as Hf.
    { intros c0 H0. right. unfold f. eexists. split; [reflexivity|]. destruct appendp; [|done]. by destruct c0. }
    destruct (put_bucket u st1 t (oc_code oc) b (replace_chain (oc_code oc) f b) W1 Et Eb) as (t' & -> & T2 & L2 & L3);
      [by apply replace_chain_ok|intros; by apply find_replace_ne|].
    cbn [mbind outcome_bind]. eexists. split; [reflexivity|]. split_and!; [by apply Tt| |].
    + intros code Hc. unfold view at 1. rewrite L3 by done. apply V1.
    + left. unfold view at 1. rewrite L2, (find_replace_eq _ _ _ c) by (try done; apply Hb). cbn.
      rewrite <- V1, Ev. done.
  - unfold alloc. destruct (mem (allocs st1)) eqn:Em; cbn [negb].
    2: { eexists. split; [reflexivity|]. split_and!; [apply Tt; constructor; [by apply (state_ok_ext u st1)|done|done]|intros code _; rewrite <- V1; by apply view_ext|].
         right. split; [eauto|]. rewrite <- V1. by apply view_ext. }
    set (st2 := State _ _ _). assert (state_ok u st2) as W2 by (by apply (state_ok_ext u st1)).
    destruct (put_bucket u st2 t (oc_code oc) b (add_chain u [oc] b) W2 Et Eb) as (t' & -> & T2 & L2 & L3).
    { by apply add_chain_ok. }
    { intros code' Hc. rewrite find_add_chain by done. by rewrite (proj2 (Z.eqb_neq _ _)) by congruence. }
    cbn [mbind outcome_bind]. eexists. split; [reflexivity|]. split_and!.
    + apply Tt. destruct T2 as [? E2 E3]. by constructor.
    + intros code Hc. unfold view at 1. rewrite L3 by done. rewrite <- V1. by apply view_ext.
    + left. unfold view at 1. rewrite L2, find_add_chain, Z.eqb_refl by done. rewrite <- V1, Ev. by destruct appendp.
Qed.

End Stores.

(** Changing or deleting the chain of a code. *)
Lemma change_bucket_ok u st code f b t :
  state_ok u st -> spaces st !! u_index u = Some t -> t !! Z.to_nat (bucket u code) = Some b -> keeps_code code f ->
  exists st', (t ← wrA t (bucket u code) (replace_chain code f b); Ret (with_space st (u_index u) t)) = Ret st' /\
    touched u st st' /\ (forall code', code' <> code -> view u st' code' = view u st code') /\
    view u st' code = match find_chain code b with Some c => from_option id [] (head (f c)) | None => [] end.
Proof.
  intros W Et Eb Hf. pose proof (space_buckets _ _ (state_space _ _ W t Et) _ _ Eb) as Hb.
  destruct (put_bucket u st t code b (replace_chain code f b) W Et Eb) as (t' & -> & T & L1 & L2);
    [by apply replace_chain_ok|intros; by apply find_replace_ne|].
  cbn [mbind outcome_bind]. eexists. split; [reflexivity|]. split_and!; [done| |].
  - intros code' Hc. unfold view. by rewrite L2.
  - unfold view. rewrite L1. destruct (find_chain code b) as [c|] eqn:Ef.
    + rewrite (find_replace_eq _ _ _ c) by (try done; apply Hb). by destruct (f c).
    + assert (find_chain code (replace_chain code f b) = None) as ->; [|done].
      apply find_chain_None. apply find_chain_None in Ef. intros H. by apply Ef, (replace_heads code f).
Qed.

Lemma touched_refl u st : state_ok u st -> touched u st st.
Proof. by constructor. Qed.

Lemma delete_option_ok u st code :
  state_ok u st ->
  exists st', delete_option u st code = Ret st' /\ touched u st st' /\ view u st' code = [] /\
    forall code', code' <> code -> view u st' code' = view u st code'.
Proof.
  intros W. unfold delete_option. rewrite (proj2 (Nat.leb_gt _ _) (state_index _ _ W)).
  destruct (spaces st !! u_index u) as [t|] eqn:Et.
  2: { exists st. split_and!; try done. unfold view. by rewrite lookup_option_none. }
  destruct (get_bucket u t code) as (b & -> & Eb & Hb); [by apply W|]. cbn [mbind outcome_bind].
  destruct (change_bucket_ok u st code (fun _ => []) b t W Et Eb) as (st' & E & T & V1 & V2); [by left|].
  exists st'. split_and!; try done. rewrite V2. by destruct (find_chain code b).
Qed.

Lemma change_option_ok u st code g :
  state_ok u st -> view u st code <> [] -> (forall c, head_code c = Some code -> head_code (g c) = Some code) ->
  exists st', change_option u st code g = Ret st' /\ touched u st st' /\ view u st' code = g (view u st code) /\
    forall code', code' <> code -> view u st' code' = view u st code'.
Proof.
  intros W Hv Hg. unfold change_option. destruct (spaces st !! u_index u) as [t|] eqn:Et.
  2: { exfalso. apply Hv. unfold view. by rewrite lookup_option_none. }
  destruct (get_bucket u t code) as (b & -> & Eb & Hb); [by apply W|]. cbn [mbind outcome_bind].
  destruct (change_bucket_ok u st code (fun c => [g c]) b t W Et Eb) as (st' & E & T & V1 & V2).
  { intros c Hc. right. eauto. }
  exists st'. split_and!; try done. rewrite V2.
  unfold view in *. rewrite (lookup_option_eq u st code t b) in * by done. by destruct (find_chain code b).
Qed.

Section Stored.
Context (mem : nat -> bool).

(** C36: The store of a space is a map from codes to the values of the option: a
    save replaces the values of its code or adds one, a deletion removes them;
    the values of other codes, and the other spaces, do not change.  This holds
    of hash tables and of lists.  A save for which there is no memory does
    nothing. *)
Theorem option_store_refines u st oc appendp code :
  state_ok u st ->
  (exists st', save_option mem u st oc appendp = Ret st' /\ touched u st st' /\
     (forall code', code' <> oc_code oc -> view u st' code' = view u st code') /\
     (view u st' (oc_code oc) = (if appendp then view u st (oc_code oc) ++ [oc] else [oc]) \/
      ((exists n, mem n = false) /\ view u st' (oc_code oc) = view u st (oc_code oc)))) /\
  (exists st', delete_option u st code = Ret st' /\ touched u st st' /\ view u st' code = [] /\
     forall code', code' <> code -> view u st' code' = view u st code').
Proof. intros W. split; [by apply save_option_ok|by apply delete_option_ok]. Qed.

End Stored.

(** ** Parsing *)

Section Parsing.
Context (find_enumeration : string -> option Z) (mem : nat -> bool) (universes : list universe).

(** What the parser relies on of an option space. *)
Record universe_ok (u : universe) : Prop := Universe_ok {
  ok_tag_size : tag_size u = 1 \/ tag_size u = 2 \/ tag_size u = 4;
  ok_get_tag : forall l, is_bytes l -> tag_size u <= Zlen l ->
    exists c, get_tag u l = Ret c /\ 0 <= c < 2 ^ (8 * tag_size u);
  ok_get_length :
    match get_length u with
    | Some get => 0 <= length_size u /\ forall l, is_bytes l -> length_size u <= Zlen l ->
        exists n, get l = Ret n /\ 0 <= n < 2 ^ 16
    | None => length_size u = 0
    end;
  ok_formats : forall code format, code_hash u code = Some format -> format_has_text format = true ->
    exists m, format_min_length find_enumeration format = Ret m;
  ok_decode : forall f st buffer, decode u = Own_decoder f -> state_ok u st -> is_bytes buffer ->
    exists b st', f st buffer = Ret (b, st') /\ touched u st st'
}.

(** The space an option of [u] encapsulates. *)
Definition encloses (u u' : universe) : Prop :=
  exists code format, code_hash u code = Some format /\ find_option_universe universes format None = Some u'.

(** The spaces are configured: each well-formed and with an index of its own. *)
Record configured : Prop := Configured {
  conf_ok : forall u, u ∈ universes -> universe_ok u;
  conf_index : forall u u', u ∈ universes -> u' ∈ universes -> u_index u = u_index u' -> u = u'
}.

Definition all_ok (st : option_state) : Prop := forall u, u ∈ universes -> state_ok u st.

Lemma find_option_universe_in format uname u :
  find_option_universe universes format uname = Some u -> u ∈ universes.
Proof.
  assert (forall n v, named universes n = Some v -> v ∈ universes) as Hn.
  { intros n v. unfold named. destruct (list_find _ _) as [[i w]|] eqn:E; [|done]. cbn. intros [= ->].
    apply list_find_Some in E as (E & _). by eapply list_elem_of_lookup_2. }
  unfold find_option_universe. destruct (strchr "E" format) as [[? s]|]; [|done].
  destruct (strchr "." s) as [[[|] [|]]|]; try done; [|by apply Hn]. destruct uname; [apply Hn|done].
Qed.

(** Only the spaces that satisfy [P] change. *)
Record within (P : nat -> Prop) (st st' : option_state) : Prop := Within {
  within_ok : all_ok st -> all_ok st';
  within_count : universe_count st' = universe_count st;
  within_others : forall i, ~ P i -> spaces st' !! i = spaces st !! i
}.

#[global] Instance within_preorder P : PreOrder (within P).
Proof.
  split; [by constructor|]. intros s1 s2 s3 [A1 B1 C1] [A2 B2 C2]. constructor; [auto|congruence|].
  intros i Hi. by rewrite C2, C1.
Qed.

Lemma within_mono (P P' : nat -> Prop) st st' : (forall i, P i -> P' i) -> within P st st' -> within P' st st'.
Proof. intros HP [A B C]. constructor; auto. Qed.

Lemma touched_within (P : nat -> Prop) u st st' :
  configured -> u ∈ universes -> P (u_index u) -> touched u st st' -> within P st st'.
Proof.
  intros [_ Hi] Hu HP [W E1 E2]. constructor; [|done|].
  - intros H u' Hu'. destruct (decide (u_index u' = u_index u)) as [E|E].
    + by rewrite (Hi u' u).
    + apply (state_ok_ext u' st); auto.
  - intros i Hn. apply E2. by intros ->.
Qed.

Lemma alloc_within P st : within P st (alloc mem st).2.
Proof. constructor; [|done|done]. intros H u Hu. by apply (state_ok_ext u st), H. Qed.

(** *** Values *)

Lemma strip_nulls_ok n : forall min_len data, exists k, data = (strip_nulls n min_len data).1 ++ replicate k 0.
Proof.
  induction n as [|n IH]; intros min_len data; cbn [strip_nulls]; [exists O; by rewrite app_nil_r|].
  destruct (_ && _) eqn:E; [|exists O; by rewrite app_nil_r].
  apply andb_prop in E as [_ E%bool_decide_eq_true]. apply last_Some in E as [d ->].
  cbn [fst]. rewrite removelast_last. destruct (IH min_len d) as [k Hk]. exists (S k).
  rewrite Hk at 1. rewrite <- app_assoc. f_equal. by rewrite replicate_S_end.
Qed.

(** The cache of a value that is received first. *)
Definition fresh (u : universe) (code : Z) (data : list Z) : option_cache :=
  let format := from_option id default_option_format (code_hash u code) in
  if format_has_text format then
    match format_min_length find_enumeration format with
    | Ret m => let '(data, nulls) := strip_nulls (length data) (u32 m) data in Cache code format data nulls
    | _ => Cache code format data false
    end
  else Cache code format data false.

Lemma fresh_code u code data : oc_code (fresh u code data) = code.
Proof.
  unfold fresh. destruct (format_has_text _); [|done]. destruct (format_min_length _ _); try done. by destruct (strip_nulls _ _ _).
Qed.

(** A value that is not text, or does not end in a NUL, is kept as it is. *)
Lemma fresh_data u code data :
  (forall format, code_hash u code = Some format -> format_has_text format = false) \/ last data <> Some 0 ->
  oc_data (fresh u code data) = data.
Proof.
  intros H. unfold fresh. destruct (format_has_text _) eqn:Et; [|done].
  destruct (format_min_length _ _); try done.
  destruct H as [H|H].
  - destruct (code_hash u code) as [format|] eqn:E; [|done].
    change (format_has_text format = true) in Et. by rewrite (H format) in Et.
  - destruct (length data); cbn [strip_nulls]; [done|].
    rewrite (bool_decide_false (last data = Some 0)) by done. by rewrite andb_false_r.
Qed.

Lemma prepare_option_buffer_ok u st data code :
  universe_ok u -> 0 <= code < 2 ^ (8 * tag_size u) ->
  exists oc st', prepare_option_buffer find_enumeration mem u st data code = Ret (oc, st') /\
    (oc = Some (fresh u code data) \/ (oc = None /\ exists n, mem n = false)) /\
    forall P, within P st st'.
Proof.
  intros Hu Hcode. unfold prepare_option_buffer.
  assert (exists b, match tag_size u with 1 => Ret (255 <? code) | 2 => Ret (65535 <? code) | 4 => Ret (4294967295 <? code)
            | _ => Fatal end = Ret b /\ b = false) as (b & -> & ->).
  { destruct (ok_tag_size u Hu) as [E|[E|E]]; rewrite E in *; eexists; (split; [reflexivity|]); apply Z.ltb_ge; lia. }
  cbn [mbind outcome_bind].
  assert (forall ok format st1, (code_hash u code = Some format \/ (code_hash u code = None /\ format = default_option_format)) ->
    (ok = false -> exists n, mem n = false) -> (forall P, within P st st1) ->
    exists oc st',
      (if negb ok then Ret (None, st1)
       else let '(ok, st) := alloc mem st1 in
            if negb ok then Ret (None, st)
            else if format_has_text format then
              min_len ← format_min_length find_enumeration format;
              let '(data, nulls) := strip_nulls (length data) (u32 min_len) data in
              Ret (Some (Cache code format data nulls), st)
            else Ret (Some (Cache code format data false), st)) = Ret (oc, st') /\
      (oc = Some (fresh u code data) \/ (oc = None /\ exists n, mem n = false)) /\ forall P, within P st st') as Hrest.
  { intros ok format st1 Hf Hok Hw. destruct ok; cbn [negb]; [|do 2 eexists; split; [reflexivity|]; split; [right|]; auto].
    destruct (alloc mem st1) as [ok2 st2] eqn:Ea. pose proof (alloc_within) as Hal.
    assert (forall P, within P st st2) as Hw2.
    { intros P. etrans; [apply Hw|]. specialize (Hal P st1). by rewrite Ea in Hal. }
    destruct ok2 eqn:E2; cbn [negb].
    2: { do 2 eexists. split; [reflexivity|]. split; [right; split; [done|]|done]. unfold alloc in Ea. injection Ea as ? _. eauto. }
    assert (from_option id default_option_format (code_hash u code) = format) as Ef by (destruct Hf as [->|[-> ->]]; done).
    destruct (format_has_text format) eqn:Et.
    - assert (exists m, format_min_length find_enumeration format = Ret m) as [m Em].
      { destruct Hf as [Hf|[_ ->]]; [by eapply ok_formats|done]. }
      rewrite Em. cbn [mbind outcome_bind]. destruct (strip_nulls _ _ _) as [d nulls] eqn:Es.
      do 2 eexists. split; [reflexivity|]. split; [left|done]. unfold fresh. by rewrite Ef, Et, Em, Es.
    - do 2 eexists. split; [reflexivity|]. split; [left|done]. unfold fresh. by rewrite Ef, Et. }
  destruct (code_hash u code) as [format|] eqn:Ec.
  - apply Hrest; [by left|done|done].
  - destruct (alloc mem st) as [ok st1] eqn:Ea. apply Hrest; [by right| |].
    + intros ->. unfold alloc in Ea. injection Ea as ? _. eauto.
    + intros P. pose proof (alloc_within P st) as Hal. by rewrite Ea in Hal.
Qed.

(** The values of an option after another one is received. *)
Definition extend (u : universe) (c : chain) (code : Z) (data : list Z) : chain :=
  match c with
  | [] => [fresh u code data]
  | oc :: r =>
    if concat_duplicates u
    then Cache (oc_code oc) (oc_format oc) (oc_data oc ++ data) (had_nulls oc) :: r
    else c ++ match last c with
              | Some oc => [Cache (oc_code oc) (oc_format oc) data false]
              | None => []
              end
  end.

Lemma save_option_buffer_ok u st data code :
  configured -> u ∈ universes -> all_ok st -> 0 <= code < 2 ^ (8 * tag_size u) ->
  exists b st', save_option_buffer find_enumeration mem u st data code = Ret (b, st') /\
    within (eq (u_index u)) st st' /\
    ((forall n, mem n = true) -> b = true /\ view u st' code = [fresh u code data] /\
       forall code', code' <> code -> view u st' code' = view u st code').
Proof.
  intros Hc Hu Hst Hcode. unfold save_option_buffer.
  destruct (prepare_option_buffer_ok u st data code (conf_ok Hc u Hu) Hcode) as (oc & st1 & -> & Hoc & W1).
  cbn [mbind outcome_bind].
  destruct Hoc as [->|(-> & n & Hn)].
  2: { do 2 eexists. split; [reflexivity|]. split; [apply W1|]. intros Hm. by rewrite Hm in Hn. }
  destruct (save_option_ok mem u st1 (fresh u code data) false) as (st2 & -> & T & V1 & V2);
    [by apply (W1 (fun _ => False))|]. cbn [mbind outcome_bind]. do 2 eexists. split; [reflexivity|]. split.
  { etrans; [apply W1|]. by eapply touched_within. }
  intros Hm. split; [done|]. rewrite fresh_code in *.
  assert (forall code', view u st1 code' = view u st code') as V0.
  { intros code'. apply view_ext; [apply (W1 (fun _ => False))|]. apply (within_others _ _ _ (W1 (fun _ => False))). tauto. }
  split; [destruct V2 as [V2|((n & Hn) & _)]; [done|by rewrite Hm in Hn]|].
  intros code' Hne. by rewrite V1, V0.
Qed.

Lemma find_chain_head code b c : find_chain code b = Some c -> head_code c = Some code.
Proof.
  induction b as [|c0 b IH]; cbn [find_chain]; [done|]. destruct (has_code code c0) eqn:E; [|done].
  intros [= <-]. by apply has_code_iff.
Qed.

Lemma lookup_option_head u st code c : lookup_option u st code = Ret (Some c) -> head_code c = Some code.
Proof.
  unfold lookup_option. destruct (_ <=? _)%nat; [done|]. destruct (spaces st !! u_index u); [|done].
  intros (b & _ & [= H])%bind_Ret_inv. by eapply find_chain_head.
Qed.

Section Inner.
Context (inner : universe -> option_state -> list Z -> outcome (bool * option_state)) (P : nat -> Prop).

(** The parser of the enclosed spaces returns, and changes spaces of [P] only. *)
Definition inner_ok (n : nat) : Prop :=
  forall u st buffer, u ∈ universes -> P (u_index u) -> all_ok st -> is_bytes buffer -> (length buffer < n)%nat ->
  exists b st', inner u st buffer = Ret (b, st') /\ within P st st'.

Lemma suboptions_ok n st format uname buffer :
  configured -> inner_ok n ->
  (forall u, find_option_universe universes format uname = Some u -> P (u_index u)) ->
  all_ok st -> is_bytes buffer -> (length buffer < n)%nat ->
  exists b st', parse_encapsulated_suboptions universes inner st format buffer uname = Ret (b, st') /\ within P st st'.
Proof.
  intros Hc Hi HP Hst Hb Hn. unfold parse_encapsulated_suboptions.
  destruct (find_option_universe universes format uname) as [u|] eqn:E; [|by do 2 eexists].
  pose proof (find_option_universe_in _ _ _ E) as Hu. specialize (HP u eq_refl).
  destruct (decode u) as [| |f] eqn:Ed; [by do 2 eexists| |].
  - destruct (Hi u st buffer) as (b & st' & -> & W); try done. by do 2 eexists.
  - destruct (ok_decode _ (conf_ok Hc u Hu) f st buffer Ed) as (b & st' & -> & T); [by apply Hst|done|].
    do 2 eexists. split; [reflexivity|]. by eapply touched_within.
Qed.

Lemma keep_option_ok n u st code data :
  configured -> u ∈ universes -> inner_ok n ->
  (forall u', encloses u u' -> P (u_index u')) ->
  all_ok st -> is_bytes data -> (length data < n)%nat -> 0 <= code < 2 ^ (8 * tag_size u) ->
  exists b st', keep_option find_enumeration mem universes inner u st code data = Ret (b, st') /\
    within (fun i => P i \/ i = u_index u) st st' /\
    (~ P (u_index u) -> (forall n, mem n = true) ->
       b = true /\ view u st' code = extend u (view u st code) code data /\
       forall code', code' <> code -> view u st' code' = view u st code').
Proof.
  intros Hc Hu Hi HP Hst Hb Hn Hcode. unfold keep_option.
  set (enc := match code_hash u code with Some _ => _ | None => _ end).
  assert (exists st1, enc = Ret st1 /\ within P st st1) as (st1 & -> & W1).
  { unfold enc. destruct (code_hash u code) as [format|] eqn:Ef; [|by exists st].
    destruct (encapsulating format); [|by exists st].
    destruct (suboptions_ok n st format None data) as (b & st' & -> & W); try done; [|by exists st'].
    intros u' E. apply HP. by exists code, format. }
  cbn [mbind outcome_bind]. pose proof (within_ok _ _ _ W1 Hst) as Hst1.
  set (P' := fun i => P i \/ i = u_index u).
  assert (within P' st st1) as W1' by (apply (within_mono P); [by left|done]).
  assert (~ P (u_index u) -> forall code', view u st1 code' = view u st code') as V1.
  { intros HnP code'. apply view_ext; [apply W1|]. by apply (within_others _ _ _ W1). }
  destruct (lookup_option_ok u st1 code) as [op Eop]; [by apply Hst1|]. rewrite Eop. cbn [mbind outcome_bind].
  assert (view u st1 code = from_option id [] op) as Ev by (unfold view; rewrite Eop; by destruct op).
  destruct op as [c|].
  2: { destruct (save_option_buffer_ok u st1 data code Hc Hu Hst1 Hcode) as (b & st2 & -> & W2 & H2).
       do 2 eexists. split; [reflexivity|]. split.
       { etrans; [exact W1'|]. apply (within_mono (eq (u_index u))); [intros i <-; by right|done]. }
       intros HnP Hm. destruct (H2 Hm) as (-> & V2 & V3). split; [done|]. rewrite <- !V1 by done. rewrite Ev. cbn.
       split; [done|]. intros code' Hne. by rewrite V3, V1. }
  destruct (alloc mem st1) as [ok st2] eqn:Ea.
  assert (forall Q, within Q st1 st2) as W2.
  { intros Q. pose proof (alloc_within Q st1) as H. by rewrite Ea in H. }
  assert (forall code', view u st2 code' = view u st1 code') as V2.
  { intros code'. apply view_ext; [apply (W2 P)|]. apply (within_others (fun _ => False) _ _ (W2 _)). tauto. }
  destruct ok; cbn [negb].
  2: { do 2 eexists. split; [reflexivity|]. split; [etrans; [exact W1'|apply W2]|]. intros _ Hm.
       unfold alloc in Ea. injection Ea as H _. by rewrite Hm in H. }
  pose proof (lookup_option_head u st1 code c Eop) as Hh.
  assert (view u st2 code <> []) as Hne by (rewrite V2, Ev; by destruct c).
  assert (all_ok st2) as Hst2 by (by apply (W2 P)).
  assert (forall g, (forall c, head_code c = Some code -> head_code (g c) = Some code) -> g c = extend u c code data ->
    exists b st', (st ← change_option u st2 code g; Ret (true, st)) = Ret (b, st') /\ within P' st st' /\
    (~ P (u_index u) -> (forall n, mem n = true) ->
       b = true /\ view u st' code = extend u (view u st code) code data /\
       forall code', code' <> code -> view u st' code' = view u st code')) as Hch.
  { intros g Hg Eg. destruct (change_option_ok u st2 code g) as (st3 & -> & T3 & V3 & V4); [by apply Hst2|done|done|].
    cbn [mbind outcome_bind]. do 2 eexists. split; [reflexivity|]. split.
    { etrans; [exact W1'|]. etrans; [apply W2|]. apply (touched_within P' u); try done. by right. }
    intros HnP _. split; [done|]. rewrite V3, V2, Ev, <- V1, Ev by done. split; [done|].
    intros code' Hc'. by rewrite V4, V2, V1. }
  destruct c as [|oc r]; [done|]. destruct (concat_duplicates u) eqn:Ecd.
  - apply Hch; [by intros [|? ?]|]. unfold extend. by rewrite Ecd.
  - apply Hch; [by intros [|? ?]|]. unfold extend. by rewrite Ecd.
Qed.

End Inner.

Lemma option_loop_ok inner P fuel : forall u st buffer offset,
  configured -> u ∈ universes -> inner_ok inner P (length buffer) ->
  (forall u', encloses u u' -> P (u_index u')) ->
  all_ok st -> is_bytes buffer -> Zlen buffer < 2 ^ 31 -> 0 <= offset -> Zlen buffer - offset <= Z.of_nat fuel ->
  exists b st', option_loop find_enumeration mem universes inner fuel u st buffer offset = Ret (b, st') /\
    within (fun i => P i \/ i = u_index u) st st'.
Proof.
  induction fuel as [|fuel IH]; intros u st buffer offset Hc Hu Hi HP Hst Hb Hlen Ho Hf; cbn [option_loop];
    pose proof (conf_ok Hc u Hu) as Hok; pose proof (ok_tag_size u Hok) as Htag;
    (destruct (Z.ltb_spec (Zlen buffer) (offset + tag_size u)) as [H1|H1]; [by do 2 eexists|]); [lia|].
  destruct (ok_get_tag u Hok (drop (Z.to_nat offset) buffer)) as (code & -> & Hcode);
    [by apply is_bytes_drop|unfold Zlen in *; rewrite length_drop; lia|].
  cbn [mbind outcome_bind]. destruct (code =? u_end u); [by do 2 eexists|].
  destruct (code =? DHO_PAD); [apply IH; try done; lia|].
  destruct (Z.ltb_spec (Zlen buffer) (offset + tag_size u + length_size u)) as [H2|H2]; [by do 2 eexists|].
  set (get := match get_length u with Some _ => _ | None => _ end).
  assert (exists len, get = Ret len /\ 0 <= len < 2 ^ 31 /\ 0 <= length_size u) as (len & -> & Hlr & Hls).
  { pose proof (ok_get_length u Hok) as Hl. unfold get. destruct (get_length u) as [g|].
    - destruct Hl as [Hl0 Hl]. destruct (Hl (drop (Z.to_nat (offset + tag_size u)) buffer)) as (len & -> & ?);
        [by apply is_bytes_drop|unfold Zlen in *; rewrite length_drop; lia|]. exists len. split; [done|lia].
    - rewrite Hl. exists (u32 (Zlen buffer - tag_size u)). rewrite u32_small by lia. split; [done|lia]. }
  cbn [mbind outcome_bind]. rewrite u32_small by lia.
  destruct (Z.ltb_spec (Zlen buffer) (offset + tag_size u + length_size u + len)) as [H3|H3]; [by do 2 eexists|].
  rewrite memread_in by lia. cbn [mbind outcome_bind]. set (data := take _ _).
  assert (Zlen data = len) as Ed by (unfold data, Zlen in *; rewrite length_take, length_drop; lia).
  destruct (keep_option_ok inner P (length buffer) u st code data) as (b & st1 & -> & W1 & _); try done.
  { by apply is_bytes_take, is_bytes_drop. }
  { unfold Zlen in *. lia. }
  cbn [mbind outcome_bind]. destruct b; [|by do 2 eexists].
  destruct (IH u st1 buffer (offset + tag_size u + length_size u + len)) as (b & st2 & -> & W2);
    try done; [by apply W1|lia|lia|]. do 2 eexists. split; [reflexivity|]. by etrans.
Qed.

(** [P] holds of the spaces enclosed in the spaces it holds of. *)
Definition closed (P : nat -> Prop) : Prop :=
  forall u u', u ∈ universes -> P (u_index u) -> encloses u u' -> P (u_index u').

Lemma parse_buffer_ok P fuel : forall u st buffer,
  configured -> closed P -> u ∈ universes -> P (u_index u) -> all_ok st -> is_bytes buffer -> Zlen buffer < 2 ^ 31 ->
  (length buffer < fuel)%nat ->
  exists b st', parse_buffer find_enumeration mem universes fuel u st buffer = Ret (b, st') /\ within P st st'.
Proof.
  induction fuel as [|fuel IH]; intros u st buffer Hc Hcl Hu HPu Hst Hb Hlen Hf; [lia|]. cbn [parse_buffer].
  destruct (alloc mem st) as [ok st1] eqn:Ea. pose proof (alloc_within P st) as W1. rewrite Ea in W1. cbn [snd] in W1.
  destruct ok; cbn [negb]; [|by do 2 eexists].
  destruct (option_loop_ok (parse_buffer find_enumeration mem universes fuel) P (length buffer) u st1 buffer 0)
    as (b & st2 & -> & W2); try done.
  - intros u' st' buf' Hu' HP' Hst' Hb' Hl'. apply IH; try done; [unfold Zlen in *; lia|lia].
  - intros u' He. by apply (Hcl u).
  - by apply W1.
  - unfold Zlen. lia.
  - do 2 eexists. split; [reflexivity|]. etrans; [exact W1|]. apply (within_mono (fun i => P i \/ i = u_index u)); [|done].
    by intros i [?| ->].
Qed.

(** C17: Whatever octets a packet holds, the parser returns: it does not read outside
    of the buffer, ends (also when spaces enclose each other), and leaves every
    option store well-formed; only the store of the space it parses, and those
    of the spaces that its options enclose, can change. *)
Theorem parse_option_buffer_safe P u st buffer :
  configured -> closed P -> u ∈ universes -> P (u_index u) -> all_ok st -> is_bytes buffer -> Zlen buffer < 2 ^ 31 ->
  exists b st', parse_option_buffer find_enumeration mem universes u st buffer = Ret (b, st') /\
    all_ok st' /\ forall i, ~ P i -> spaces st' !! i = spaces st !! i.
Proof.
  intros Hc Hcl Hu HP Hst Hb Hlen.
  destruct (parse_buffer_ok P (S (length buffer)) u st buffer) as (b & st' & E & W); try done; [lia|].
  exists b, st'. split; [done|]. split; [by apply W|apply W].
Qed.

(** *** What a sequence of options says *)

(** The values of [code] after the options [opts]. *)
Definition received (u : universe) (c : chain) (opts : list (Z * list Z)) (code : Z) : chain :=
  fold_left (fun c '(k, d) => if k =? code then extend u c code d else c) opts c.

(** The tags and lengths of a space are big-endian numbers. *)
Record big_endian (u : universe) : Prop := Big_endian {
  be_tag : forall c rest, 0 <= c < 2 ^ (8 * tag_size u) -> get_tag u (be_enc (Z.to_nat (tag_size u)) c ++ rest) = Ret c;
  be_length : exists get, get_length u = Some get /\ 0 <= length_size u <= 2 /\
    forall n rest, 0 <= n < 2 ^ (8 * length_size u) -> get (be_enc (Z.to_nat (length_size u)) n ++ rest) = Ret n
}.

Definition tlv (u : universe) (o : Z * list Z) : list Z :=
  be_enc (Z.to_nat (tag_size u)) (fst o) ++ be_enc (Z.to_nat (length_size u)) (Zlen (snd o)) ++ snd o.

Definition tlvs (u : universe) (opts : list (Z * list Z)) : list Z := concat (map (tlv u) opts).

(** An option that can be sent in the space. *)
Definition sendable (u : universe) (o : Z * list Z) : Prop :=
  0 <= fst o < 2 ^ (8 * tag_size u) /\ fst o <> DHO_PAD /\ fst o <> u_end u /\
  is_bytes (snd o) /\ Zlen (snd o) < 2 ^ (8 * length_size u).

Lemma tlv_length u o :
  0 <= tag_size u -> 0 <= length_size u -> Zlen (tlv u o) = tag_size u + length_size u + Zlen (snd o).
Proof. intros. unfold tlv, Zlen. rewrite !length_app, !be_enc_length. lia. Qed.

Lemma tlvs_length_ge u opts : 1 <= tag_size u -> (length opts <= length (tlvs u opts))%nat.
Proof.
  intros H. unfold tlvs. induction opts as [|o opts IH]; cbn; [lia|].
  rewrite length_app. unfold tlv at 1. rewrite !length_app, !be_enc_length. lia.
Qed.

Section Sequence.
Context (inner : universe -> option_state -> list Z -> outcome (bool * option_state)) (P : nat -> Prop).
Context (u : universe) (buffer : list Z).
Context (Hc : configured) (Hu : u ∈ universes) (Hbe : big_endian u).
Context (Hi : inner_ok inner P (length buffer)) (HP : forall u', encloses u u' -> P (u_index u')).
Context (HnP : ~ P (u_index u)) (Hm : forall n, mem n = true) (Hlen : Zlen buffer < 2 ^ 31).

(** The parser arrives at an option and keeps it. *)
Lemma option_loop_step fuel st pre o post :
  buffer = pre ++ tlv u o ++ post -> sendable u o ->
  option_loop find_enumeration mem universes inner (S fuel) u st buffer (Zlen pre) =
    r ← keep_option find_enumeration mem universes inner u st (fst o) (snd o);
    match r with
    | (true, st) => option_loop find_enumeration mem universes inner fuel u st buffer (Zlen (pre ++ tlv u o))
    | (false, st) => Ret (false, st)
    end.
Proof.
  intros Eb (Hcode & Hpad & Hend & Hby & Hl). destruct Hbe as [Htag (get & Eget & Hls & Hget)].
  pose proof (conf_ok Hc u Hu) as Hok. pose proof (ok_tag_size u Hok) as Hts.
  pose proof (tlv_length u o ltac:(lia) ltac:(lia)) as Htl. pose proof (Zlen_nonneg (snd o)).
  assert (Zlen buffer = Zlen pre + Zlen (tlv u o) + Zlen post) as Elen by (rewrite Eb, !Zlen_app; lia).
  pose proof (Zlen_nonneg post). pose proof (Zlen_nonneg pre).
  assert (forall n, drop (Z.to_nat (Zlen pre + Z.of_nat n)) buffer = drop n (tlv u o ++ post)) as Edrop.
  { intros n. rewrite Eb. unfold Zlen. rewrite drop_app_ge by lia. f_equal. lia. }
  cbn [option_loop]. rewrite (proj2 (Z.ltb_ge _ _)) by lia.
  replace (Z.to_nat (Zlen pre)) with (Z.to_nat (Zlen pre + Z.of_nat 0)) by lia. rewrite Edrop, drop_0.
  unfold tlv at 1. rewrite <- !app_assoc, Htag by done. cbn [mbind outcome_bind].
  rewrite (proj2 (Z.eqb_neq _ _) Hend), (proj2 (Z.eqb_neq _ _) Hpad), (proj2 (Z.ltb_ge _ _)) by lia.
  rewrite Eget. replace (Zlen pre + tag_size u) with (Zlen pre + Z.of_nat (Z.to_nat (tag_size u))) by lia.
  rewrite Edrop. unfold tlv at 1. rewrite <- !app_assoc, drop_app_length' by (rewrite be_enc_length; lia).
  rewrite Hget by lia. cbn [mbind outcome_bind]. rewrite u32_small by lia. rewrite (proj2 (Z.ltb_ge _ _)) by lia.
  rewrite memread_in by lia.
  replace (Z.to_nat (Zlen pre + Z.of_nat (Z.to_nat (tag_size u)) + length_size u))
    with (Z.to_nat (Zlen pre + Z.of_nat (Z.to_nat (tag_size u) + Z.to_nat (length_size u)))) by lia.
  rewrite Edrop. unfold tlv at 1. rewrite (app_assoc (be_enc _ _)), <- app_assoc.
  rewrite drop_app_length' by (rewrite length_app, !be_enc_length; lia).
  rewrite take_app_length' by (unfold Zlen; lia). cbn [mbind outcome_bind].
  assert (Zlen pre + Z.of_nat (Z.to_nat (tag_size u)) + length_size u + Zlen (snd o) = Zlen (pre ++ tlv u o)) as -> by (rewrite Zlen_app, Htl; lia).
  done.
Qed.

Lemma option_loop_tlv fuel st pre o post :
  buffer = pre ++ tlv u o ++ post -> sendable u o -> all_ok st ->
  exists st', option_loop find_enumeration mem universes inner (S fuel) u st buffer (Zlen pre) =
              option_loop find_enumeration mem universes inner fuel u st' buffer (Zlen (pre ++ tlv u o)) /\
    within (fun i => P i \/ i = u_index u) st st' /\
    view u st' (fst o) = extend u (view u st (fst o)) (fst o) (snd o) /\
    forall code', code' <> fst o -> view u st' code' = view u st code'.
Proof.
  intros Eb Ho Hst. rewrite (option_loop_step fuel st pre o post Eb Ho). destruct Ho as (Hcode & Hpad & Hend & Hby & Hl).
  destruct (keep_option_ok inner P (length buffer) u st (fst o) (snd o)) as (b & st1 & -> & W1 & Hk); try done.
  { rewrite Eb. unfold tlv. rewrite !length_app, be_enc_length. pose proof (ok_tag_size u (conf_ok Hc u Hu)). lia. }
  destruct (Hk HnP Hm) as (-> & V1 & V2). cbn [mbind outcome_bind]. by exists st1.
Qed.

Lemma option_loop_tlvs fuel opts : forall st pre post,
  buffer = pre ++ tlvs u opts ++ post -> Forall (sendable u) opts -> all_ok st ->
  exists st', option_loop find_enumeration mem universes inner (length opts + fuel) u st buffer (Zlen pre) =
              option_loop find_enumeration mem universes inner fuel u st' buffer (Zlen (pre ++ tlvs u opts)) /\
    within (fun i => P i \/ i = u_index u) st st' /\
    forall code, view u st' code = received u (view u st code) opts code.
Proof.
  induction opts as [|o opts IH]; intros st pre post Eb Hs Hst; cbn [length Nat.add].
  { exists st. unfold tlvs. cbn. rewrite app_nil_r. done. }
  inversion_clear Hs as [|? ? Ho Hs']. unfold tlvs in Eb. cbn [map concat] in Eb. rewrite <- app_assoc in Eb.
  destruct (option_loop_tlv (length opts + fuel) st pre o (tlvs u opts ++ post) Eb Ho Hst) as (st1 & -> & W1 & V1 & V2).
  destruct (IH st1 (pre ++ tlv u o) post) as (st2 & -> & W2 & V3); [by rewrite <- app_assoc|done|by apply W1|].
  exists st2. split_and!; [by rewrite <- app_assoc|by etrans|].
  intros code. rewrite V3. cbn [received fold_left]. destruct o as [k d]. cbn [fst snd] in *.
  destruct (Z.eqb_spec k code) as [->|Hne]; [by rewrite V1|by rewrite V2].
Qed.

End Sequence.

(** A buffer of options, up to its end or to an end option. *)
Lemma parse_tlvs P u st opts tail :
  configured -> closed P -> u ∈ universes -> big_endian u -> ~ P (u_index u) -> (forall u', encloses u u' -> P (u_index u')) ->
  (forall n, mem n = true) -> all_ok st -> Forall (sendable u) opts ->
  Zlen (tlvs u opts ++ tail) < 2 ^ 31 ->
  (Zlen tail < tag_size u \/ exists rest, tail = be_enc (Z.to_nat (tag_size u)) (u_end u) ++ rest /\ 0 <= u_end u < 2 ^ (8 * tag_size u)) ->
  exists st', parse_option_buffer find_enumeration mem universes u st (tlvs u opts ++ tail) = Ret (true, st') /\
    all_ok st' /\ (forall i, ~ P i -> i <> u_index u -> spaces st' !! i = spaces st !! i) /\
    forall code, view u st' code = received u (view u st code) opts code.
Proof.
  intros Hc Hcl Hu Hbe HnP HP Hm Hst Hs Hlen Htail. unfold parse_option_buffer. set (buffer := tlvs u opts ++ tail) in *.
  cbn [parse_buffer]. destruct (alloc mem st) as [ok st1] eqn:Ea.
  assert (ok = true) as -> by (unfold alloc in Ea; injection Ea as <- _; apply Hm). cbn [negb].
  pose proof (alloc_within (fun _ => False) st) as W1. rewrite Ea in W1. cbn [snd] in W1.
  pose proof (ok_tag_size u (conf_ok Hc u Hu)) as Hts.
  assert (length opts <= length buffer)%nat as Hle.
  { unfold buffer. rewrite length_app. pose proof (tlvs_length_ge u opts ltac:(lia)). lia. }
  destruct (option_loop_tlvs (parse_buffer find_enumeration mem universes (length buffer)) P u buffer Hc Hu Hbe
              ltac:(intros u' st' buf' ? ? ? ? ?; apply parse_buffer_ok; try done; unfold Zlen in *; lia) HP HnP Hm Hlen
              (length buffer - length opts) opts st1 [] tail)
    as (st2 & E & W2 & V2); [done|done|by apply W1|].
  replace (length opts + (length buffer - length opts))%nat with (length buffer) in E by lia.
  change (Zlen []) with 0 in E. cbn [app] in E. rewrite E. clear E.
  assert (option_loop find_enumeration mem universes (parse_buffer find_enumeration mem universes (length buffer))
            (length buffer - length opts) u st2 buffer (Zlen (tlvs u opts)) = Ret (true, st2)) as ->.
  { pose proof (Zlen_nonneg tail). assert (Zlen buffer = Zlen (tlvs u opts) + Zlen tail) as El by apply Zlen_app.
    destruct Htail as [Ht|(rest & Et & He)].
    - destruct (length buffer - length opts)%nat; cbn [option_loop]; by rewrite (proj2 (Z.ltb_lt _ _)) by lia.
    - assert (tag_size u <= Zlen tail) as Hge by (rewrite Et, Zlen_app; unfold Zlen; rewrite be_enc_length; lia).
      assert (drop (Z.to_nat (Zlen (tlvs u opts))) buffer = tail) as Ed
        by (unfold buffer, Zlen; rewrite Nat2Z.id; apply drop_app_length).
      destruct (length buffer - length opts)%nat; cbn [option_loop]; rewrite (proj2 (Z.ltb_ge _ _)) by lia;
        rewrite Ed, Et, (be_tag u Hbe) by done; cbn [mbind outcome_bind]; by rewrite Z.eqb_refl. }
  exists st2. split_and!; [done|by apply W2, W1| |].
  - intros i H1 H2. rewrite (within_others _ _ _ W2) by tauto. apply (within_others _ _ _ W1). tauto.
  - intros code. rewrite V2. f_equal. apply view_ext; [apply W1|]. apply (within_others _ _ _ W1). tauto.
Qed.

End Parsing.

(** ** Examples *)

Lemma getUChar_byte l : is_bytes l -> 1 <= Zlen l -> exists c, getUChar l = Ret c /\ 0 <= c < 256.
Proof.
  intros Hb Hl. destruct l as [|c l]; [change (Zlen []) with 0 in Hl; lia|]. inversion_clear Hb. by exists c.
Qed.

(** A space whose first option encloses the space itself. *)
Definition nested_space : universe :=
  Universe "nested" 0 By_hash 1 1 getUChar (Some getUChar) DHO_END true (fun code => if code =? 1 then Some "Enested."%string else None)
    Options_decoder.

Definition no_options : option_state := State 1 ∅ 0.

Lemma nested_configured fe : configured fe [nested_space].
Proof.
  constructor.
  - intros u ->%list_elem_of_singleton. constructor; [by left|by apply getUChar_byte| | |done].
    + split; [done|]. intros l H1 H2. destruct (getUChar_byte l H1 H2) as (c & ? & ?). exists c. split; [done|lia].
    + intros code format. cbn. destruct (code =? 1); [|done]. by intros [= <-].
  - by intros u u' ->%list_elem_of_singleton ->%list_elem_of_singleton.
Qed.

Lemma no_options_ok u : u_index u = O -> state_ok u no_options.
Proof. intros E. constructor; rewrite E; cbn; [lia|]. intros t. by rewrite lookup_empty. Qed.

(** An option inside of an option, both of the same space. *)
Lemma parse_option_buffer_safe_witness :
  exists b st', parse_option_buffer (fun _ => None) (fun _ => true) [nested_space] nested_space no_options [1; 3; 7; 1; 9; DHO_END] = Ret (b, st') /\
    all_ok [nested_space] st' /\ forall i, ~ True -> spaces st' !! i = spaces no_options !! i.
Proof.
  apply (parse_option_buffer_safe (fun _ => None) (fun _ => true) [nested_space] (fun _ => True) nested_space no_options).
  - apply nested_configured.
  - done.
  - by left.
  - done.
  - intros u ->%list_elem_of_singleton. by apply no_options_ok.
  - repeat (constructor; [unfold is_byte, DHO_END; lia|]). constructor.
  - done.
Defined.

Example nested_parsed :
  match parse_option_buffer (fun _ => None) (fun _ => true) [nested_space] nested_space no_options [1; 3; 7; 1; 9; DHO_END] with
  | Ret (true, st) => view nested_space st 1 = [Cache 1 "Enested." [7; 1; 9] false] /\ view nested_space st 7 = [Cache 7 "X" [9] false]
  | _ => False
  end.
Proof. vm_compute. done. Qed.

Lemma option_store_refines_witness :
  state_ok nested_space no_options /\ exists st', save_option (fun _ => true) nested_space no_options (Cache 7 "X" [9] false) false = Ret st' /\
    view nested_space st' 7 = [Cache 7 "X" [9] false].
Proof.
  assert (state_ok nested_space no_options) as H by by apply no_options_ok.
  destruct (option_store_refines (fun _ => true) nested_space no_options (Cache 7 "X" [9] false) false 7 H) as [(st' & E & _ & _ & Hv) _].
  split; [done|]. exists st'. split; [done|]. destruct Hv as [Hv|[[n Hn] _]]; [exact Hv|done].
Defined.

End Options.
