(* ===== verification/OptionStore.v ===== *)
(** * Options into packets (common/options.c)

    [store_options] writes the options of a reply, in the order of a priority
    list, into a buffer of up to three sections: the options field and, when
    they may be overloaded, the file and the server name fields.  A value that
    is longer than 255 octets, or that does not fit where it should go, is split
    into several options of the same code.  [cons_options] lays the sections out
    in the packet. *)

From Stdlib Require Import ZArith Lia Ascii String.
From stdpp Require Import base list numbers option gmap fin_maps.
From S2P Require Import Prelude.
From S2P Require Import Options.
#[local] Open Scope Z_scope.

Module OptionStore.

Export Options.

Definition DHO_SUBNET_MASK : Z := 1.
Definition DHO_ROUTERS : Z := 3.

(** ** The priority list *)

(** The inner loop: [priority_list[i]] occurs once from [i] on.  [tto] counts the
    duplicates found; the bound [priority_len + tto] of the loop is fixed. *)
Fixpoint squeeze (n : nat) (l : list Z) (i ix tto priority_len : Z) : outcome (list Z * Z) :=
  match n with
  | O => Ret (l, priority_len)
  | S n' =>
    l ← (if tto =? 0 then Ret l else x ← rd l ix; wr l (ix - tto) x);
    x ← rd l i; y ← rd l ix;
    if x =? y then squeeze n' l i (ix + 1) (tto + 1) (priority_len - 1)
    else squeeze n' l i (ix + 1) tto priority_len
  end.

(** The subnet mask goes before the routers: the last of them below [i]. *)
Fixpoint routers_below (n : nat) (l : list Z) (i : Z) : outcome (list Z) :=
  match n with
  | O => Ret l
  | S n' =>
    x ← rd l (Z.of_nat n');
    if x =? DHO_ROUTERS then l ← wr l (Z.of_nat n') DHO_SUBNET_MASK; wr l i DHO_ROUTERS
    else routers_below n' l i
  end.

(** The outer loop, from [i]. *)
Fixpoint order_list (fuel : nat) (l : list Z) (i priority_len : Z) : outcome (list Z * Z) :=
  if priority_len <=? i then Ret (l, priority_len)
  else
    match fuel with
    | O => Undef
    | S fuel' =>
      r ← squeeze (Z.to_nat (priority_len - i - 1)) l i (i + 1) 0 priority_len;
      let '(l, priority_len) := r in
      x ← rd l i;
      l ← (if x =? DHO_SUBNET_MASK then routers_below (Z.to_nat i) l i else Ret l);
      order_list fuel' l (i + 1) priority_len
    end.

(** ** Sections of the buffer *)

Record sections : Type := Sections {
  bufend : Z; sbufend : Z; buflen : Z; first_cutoff : Z; second_cutoff : Z
}.

(** The limits, relative to the start [index] of the options. *)
Definition set_sections (index buflen first_cutoff second_cutoff : Z) : outcome sections :=
  let buflen := u32 (buflen - index) in
  let first_cutoff := if first_cutoff =? 0 then 0 else u32 (first_cutoff - index) in
  let second_cutoff := if second_cutoff =? 0 then 0 else second_cutoff - index in
  if negb (first_cutoff =? 0) then
    if buflen <=? first_cutoff then Fatal
    else if second_cutoff =? 0 then Ret (Sections first_cutoff buflen buflen first_cutoff second_cutoff)
    else if buflen <=? u32 second_cutoff then Fatal
    else Ret (Sections first_cutoff second_cutoff buflen first_cutoff second_cutoff)
  else if negb (second_cutoff =? 0) then
    if buflen <=? u32 second_cutoff then Fatal
    else Ret (Sections second_cutoff buflen buflen first_cutoff second_cutoff)
  else Ret (Sections buflen buflen buflen first_cutoff second_cutoff).

(** The buffer and the positions in its sections. *)
Record stored : Type := Stored { buf : list Z; bufix : Z; six : Z; tix : Z }.

Inductive section : Type := Main | Second | Third.

(** The section that has room for all of the rest. *)
Definition choose_whole (s : sections) (w : stored) (is_last : bool) (length : Z) : option section :=
  if ((six w =? 0) && (tix w =? 0) && is_last && (u32 (bufix w + 2 + length) <? bufend s))
     || (u32 (bufix w + 5 + length) <? bufend s)
  then Some Main
  else if negb (first_cutoff s =? 0) && (u32 (first_cutoff s + six w + 3 + length) <? sbufend s) then Some Second
  else if negb (second_cutoff s =? 0) && (u32 (second_cutoff s + tix w + 3 + length) <? buflen s) then Some Third
  else None.

(** The section with room left for a piece, and how much. *)
Definition choose_split (s : sections) (w : stored) : option (section * Z) :=
  if bufix w + 6 <? bufend s then Some (Main, bufend s - bufix w - 5)
  else if negb (first_cutoff s =? 0) && (first_cutoff s + six w + 4 <? sbufend s)
  then Some (Second, sbufend s - (first_cutoff s + six w) - 3)
  else if negb (second_cutoff s =? 0) && (second_cutoff s + tix w + 4 <? buflen s)
  then Some (Third, buflen s - (second_cutoff s + tix w) - 3)
  else None.

(** Where the next piece goes, its length at most, and [splitup]; [None] if there
    is no room. *)
Definition choose (s : sections) (w : stored) (is_last splitup : bool) (length : Z) : option (section * Z * bool) :=
  match (if splitup then None else choose_whole s w is_last length) with
  | Some sec => Some (sec, length, splitup)
  | None => match choose_split s w with Some (sec, incr) => Some (sec, incr, true) | None => None end
  end.

(** The position a section is filled up to. *)
Definition position (s : sections) (w : stored) (sec : section) : Z :=
  match sec with Main => bufix w | Second => first_cutoff s + six w | Third => second_cutoff s + tix w end.

Definition advance (w : stored) (b : list Z) (sec : section) (n : Z) : stored :=
  match sec with
  | Main => Stored b (bufix w + n) (six w) (tix w)
  | Second => Stored b (bufix w) (six w + n) (tix w)
  | Third => Stored b (bufix w) (six w) (tix w + n)
  end.

(** The [while (length)] loop for one option.  [od] is its value, [tto] whether a
    NUL is added; [ix] octets are stored.  [false]: there is no room. *)
Fixpoint store_pieces (fuel : nat) (s : sections) (w : stored) (code : Z) (od : list Z) (tto is_last splitup : bool)
    (ix length : Z) : outcome (stored * bool) :=
  if length =? 0 then Ret (w, true)
  else
    match fuel with
    | O => Undef
    | S fuel' =>
      match choose s w is_last splitup length with
      | None => Ret (w, false)
      | Some (sec, incr, splitup) =>
        let incr := if length <? incr then length else incr in
        let incr := if 255 <? incr then 255 else incr in
        let at_ := position s w sec in
        b ← wr (buf w) at_ (u8 code);
        b ← wr b (at_ + 1) (u8 incr);
        b ← (if tto && (incr =? length) then
               b ← (if 1 <? incr then d ← memread od ix (incr - 1); memcpy b (at_ + 2) d else Ret b);
               wr b (at_ + 2 + incr - 1) 0
             else d ← memread od ix incr; memcpy b (at_ + 2) d);
        store_pieces fuel' s (advance w b sec (2 + incr)) code od tto is_last splitup (ix + incr) (length - incr)
      end
    end.

(** An option of the list, with its value and whether a NUL is added.  When there
    is no room for all of it, the positions are as before. *)
Definition store_one (s : sections) (w : stored) (code : Z) (value : list Z) (tto is_last : bool) : outcome stored :=
  let length := Zlen value + (if tto then 1 else 0) in
  r ← store_pieces (Z.to_nat length) s w code value tto is_last (255 <? length) 0 length;
  match r with
  | (w', true) => Ret w'
  | (w', false) => Ret (Stored (buf w') (bufix w) (six w) (tix w))
  end.

(** ** Values *)

Definition octets (s : string) : list Z := map (fun c => Z.of_N (N_of_ascii c)) (list_ascii_of_string s).

(** The options of a reply, and the spaces they are in.  [vendor_cfg_option] names
    the option with the name of the vendor's space. *)
Record config : Type := Config {
  cfg_options : option_state;
  dhcp_universe : universe;
  site_code_min : Z;
  site_universe : universe;
  vendor_cfg_option : option (universe * Z)
}.

Section Store.
(** [evaluate_option_cache], [option_space_encapsulate] of a space by name, and
    whether there is memory to join the value of a code and its encapsulation. *)
Context (evaluate : option_cache -> option (list Z)) (encapsulate : list Z -> option (list Z)) (join_ok : Z -> bool).
Context (cfg : config) (vuname : option string).

Definition universe_of (code : Z) : universe :=
  if site_code_min cfg <=? code then site_universe cfg else dhcp_universe cfg.

(** The name of the space that an encapsulating format names. *)
Definition space_name (format : string) : outcome (list Z) :=
  match strchr "E" format with
  | None => Ret []
  | Some (_, s) =>
    match strchr "." s with
    | None => Ret []
    | Some (EmptyString, _) =>
      match vendor_cfg_option cfg with
      | Some (vu, vcode) =>
        tmp ← lookup_option vu (cfg_options cfg) vcode;
        Ret (match tmp with Some (oc :: _) => from_option id [] (evaluate oc) | _ => [] end)
      | None => Ret (match vuname with Some _ => octets s | None => [] end)
      end
    | Some (name, _) => Ret (octets name)
    end
  end.

(** The value of the option [code], if there is one to send, and its format. *)
Definition option_value (code : Z) : outcome (option (list Z * option string)) :=
  let u := universe_of code in
  op ← lookup_option u (cfg_options cfg) code;
  let oc := match op with Some (oc :: _) => Some oc | _ => None end in
  let format := match oc with Some oc => Some (oc_format oc) | None => code_hash u code end in
  enc ← match format with
        | Some (String c _ as f) =>
          if match oc with None => Ascii.eqb c "E" | Some _ => Ascii.eqb c "e" end then
            name ← space_name f; Ret (match name with [] => None | _ => encapsulate name end)
          else Ret None
        | _ => Ret None
        end;
  match oc, enc with
  | None, None => Ret None
  | None, Some e => Ret (Some (e, format))
  | Some oc, _ =>
    match evaluate oc with
    | None | Some [] => Ret None
    | Some od =>
      match enc with
      | None => Ret (Some (od, format))
      | Some e => Ret (if join_ok code then Some (od ++ e, format) else None)
      end
    end
  end.

Definition adds_nul (terminate : bool) (format : option string) : bool :=
  match format with Some f => terminate && format_has_text f | None => false end.

(** The options in the order of the list. *)
Fixpoint store_list (n : nat) (s : sections) (w : stored) (l : list Z) (i priority_len : Z) (terminate : bool)
  : outcome stored :=
  match n with
  | O => Ret w
  | S n' =>
    code ← rd l i;
    v ← option_value code;
    w ← match v with
        | None => Ret w
        | Some (value, format) => store_one s w code value (adds_nul terminate format) (i =? priority_len - 1)
        end;
    store_list n' s w l (i + 1) priority_len terminate
  end.

(** The end of an overloaded section, filled with pads. *)
Definition close_section (b : list Z) (at_ end_ : Z) : outcome (list Z) :=
  b ← (if at_ + 1 <? end_ then memcpy b (at_ + 1) (replicate (Z.to_nat (end_ - (at_ + 1))) DHO_PAD)
       else if end_ <=? at_ then Fatal else Ret b);
  wr b at_ DHO_END.

(** [store_options]: the buffer, the length of the first section, and which of the
    others are used ([ocount]). *)
Definition store_options (buffer : list Z) (index len first second : Z) (priority_list : list Z) (terminate : bool)
  : outcome (list Z * Z * Z) :=
  s ← set_sections index len first second;
  r ← order_list (List.length priority_list) priority_list 0 (Zlen priority_list);
  let '(l, priority_len) := r in
  w ← store_list (Z.to_nat priority_len) s (Stored (drop (Z.to_nat index) buffer) 0 0 0) l 0 priority_len terminate;
  b ← (if negb (first_cutoff s =? 0) && negb (six w =? 0)
       then close_section (buf w) (first_cutoff s + six w) (sbufend s) else Ret (buf w));
  b ← (if negb (second_cutoff s =? 0) && negb (tix w =? 0)
       then close_section b (second_cutoff s + tix w) (buflen s) else Ret b);
  let ocount := (if negb (first_cutoff s =? 0) && negb (six w =? 0) then 1 else 0)
                + (if negb (second_cutoff s =? 0) && negb (tix w =? 0) then 2 else 0) in
  if (negb (six w =? 0) || negb (tix w =? 0)) && (bufend s <? bufix w + 3) then Fatal
  else Ret (take (Z.to_nat index) buffer ++ b, bufix w, ocount).

End Store.

(** ** The priority list *)

Lemma rd_app (a : list Z) x b : rd (a ++ x :: b) (Zlen a) = Ret x.
Proof. apply rdA_lookup; [apply Zlen_nonneg|]. unfold Zlen. rewrite Nat2Z.id. by apply list_lookup_middle. Qed.

Lemma wr_app (a : list Z) x y b : wr (a ++ x :: b) (Zlen a) y = Ret (a ++ y :: b).
Proof.
  rewrite wrA_in by (rewrite Zlen_app, Zlen_cons; pose proof (Zlen_nonneg a); pose proof (Zlen_nonneg b); lia).
  unfold Zlen. rewrite Nat2Z.id, insert_app_r_alt, Nat.sub_diag by lia. done.
Qed.

(** The list with the duplicates of [x] dropped: kept so far, moved over, to do,
    and behind the end. *)
Lemma squeeze_ok x R : forall A1 A2 J T n,
  n = Zlen (A1 ++ x :: A2) + Zlen R ->
  exists J', squeeze (length R) ((A1 ++ x :: A2) ++ J ++ R ++ T) (Zlen A1) (Zlen (A1 ++ x :: A2) + Zlen J) (Zlen J) n
    = Ret ((A1 ++ x :: A2) ++ filter (fun y => y <> x) R ++ J' ++ T,
           Zlen (A1 ++ x :: A2) + Zlen (filter (fun y => y <> x) R)) /\
    length (filter (fun y => y <> x) R ++ J') = length (J ++ R).
Proof.
  induction R as [|y R IH]; intros A1 A2 J T n ->; cbn [length squeeze].
  { exists J. rewrite !app_nil_r. cbn. rewrite Z.add_0_r. done. }
  set (A := A1 ++ x :: A2). rewrite Zlen_cons.
  assert (exists J1, (if Zlen J =? 0 then Ret (A ++ J ++ y :: R ++ T)
            else z ← rd (A ++ J ++ (y :: R) ++ T) (Zlen A + Zlen J); wr (A ++ J ++ (y :: R) ++ T) (Zlen A + Zlen J - Zlen J) z)
            = Ret (A ++ J1 ++ y :: R ++ T) /\ length J1 = length J /\ (J <> [] -> exists J2, J1 = y :: J2))
    as (J1 & E & Hl1 & HJ1).
  { destruct J as [|j J]; [by exists []|]. exists (y :: J). split; [|split; [done|eauto]].
    rewrite (proj2 (Z.eqb_neq _ _)) by (rewrite Zlen_cons; pose proof (Zlen_nonneg J); lia).
    rewrite <- Zlen_app. change ((y :: R) ++ T) with (y :: (R ++ T)). rewrite (app_assoc A (j :: J)), rd_app. cbn [mbind outcome_bind].
    rewrite <- app_assoc. cbn [app]. rewrite Zlen_app. replace (Zlen A + _ - _) with (Zlen A) by lia.
    by rewrite wr_app. }
  change (y :: R ++ T) with ((y :: R) ++ T) in E at 1. rewrite E. cbn [mbind outcome_bind].
  assert (rd (A ++ J1 ++ y :: R ++ T) (Zlen A1) = Ret x) as ->.
  { unfold A. rewrite <- !app_assoc. cbn [app]. by rewrite rd_app. }
  cbn [mbind outcome_bind].
  assert (rd (A ++ J1 ++ y :: R ++ T) (Zlen A + Zlen J) = Ret y) as ->.
  { rewrite app_assoc. replace (Zlen A + Zlen J) with (Zlen (A ++ J1)) by (rewrite Zlen_app; unfold Zlen; lia). by rewrite rd_app. }
  cbn [mbind outcome_bind]. rewrite filter_cons. destruct (Z.eqb_spec x y) as [->|Hne].
  - rewrite decide_False by tauto.
    destruct (IH A1 A2 (J1 ++ [y]) T (Zlen A + Zlen R)) as (J' & E' & HJ'); [done|]. fold A in E'.
    exists J'. rewrite <- app_assoc in E'. cbn [app] in E'. rewrite Zlen_app, Zlen_cons in E'. change (Zlen []) with 0 in E'.
    assert (Zlen J1 = Zlen J) as EJ by (unfold Zlen; lia). rewrite EJ in E'.
    replace (Zlen A + Zlen J + 1) with (Zlen A + (Zlen J + (0 + 1))) by lia. replace (Zlen J + 1) with (Zlen J + (0 + 1)) by lia.
    replace (Zlen A + (Zlen R + 1) - 1) with (Zlen A + Zlen R) by lia. split; [exact E'|].
    rewrite HJ', !length_app. cbn. lia.
  - rewrite decide_True by congruence.
    destruct (decide (J = [])) as [->|HnJ].
    + destruct J1; [|done]. destruct (IH A1 (A2 ++ [y]) [] T (Zlen A + (Zlen R + 1))) as (J' & E' & HJ').
      { unfold A. rewrite !Zlen_app, !Zlen_cons, Zlen_app, Zlen_cons. change (Zlen []) with 0. lia. }
      exists J'. assert (A1 ++ x :: A2 ++ [y] = A ++ [y]) as EA by (unfold A; by rewrite <- app_assoc). rewrite EA in E'.
      rewrite <- !app_assoc in E'. cbn [app] in E' |- *. rewrite Zlen_app, Zlen_cons in E'. change (Zlen []) with 0 in E' |- *.
      replace (Zlen A + 0 + 1) with (Zlen A + (0 + 1) + 0) by lia. rewrite E'. rewrite Zlen_cons. split; [do 2 f_equal; lia|].
      cbn. rewrite HJ'. done.
    + destruct (HJ1 HnJ) as (J2 & ->).
      destruct (IH A1 (A2 ++ [y]) (J2 ++ [y]) T (Zlen A + (Zlen R + 1))) as (J' & E' & HJ').
      { unfold A. rewrite !Zlen_app, !Zlen_cons, Zlen_app, Zlen_cons. change (Zlen []) with 0. lia. }
      exists J'. assert (A1 ++ x :: A2 ++ [y] = A ++ [y]) as EA by (unfold A; by rewrite <- app_assoc). rewrite EA in E'.
      assert (Zlen (J2 ++ [y]) = Zlen J) as EJ by (unfold Zlen; rewrite length_app; cbn in *; lia). rewrite EJ in E'.
      rewrite <- !app_assoc in E'. cbn [app] in E' |- *. rewrite Zlen_app, Zlen_cons in E'. change (Zlen []) with 0 in E'.
      replace (Zlen A + Zlen J + 1) with (Zlen A + (0 + 1) + Zlen J) by lia. rewrite E', Zlen_cons. split; [do 2 f_equal; lia|].
      cbn. rewrite HJ', !length_app. cbn in *. lia.
Qed.

Lemma routers_below_ok x B n : forall A,
  (n <= length A)%nat ->
  x = DHO_SUBNET_MASK ->
  exists A' x', routers_below n (A ++ x :: B) (Zlen A) = Ret (A' ++ x' :: B) /\ A' ++ [x'] ≡ₚ A ++ [x].
Proof.
  intros A Hn ->. induction n as [|n IH]; cbn [routers_below]; [by exists A, DHO_SUBNET_MASK|].
  destruct (lookup_lt_is_Some_2 A n) as [y Hy]; [lia|].
  apply list_elem_of_split_length in Hy as (A1 & A2 & -> & Hl).
  rewrite <- app_assoc. cbn [app]. replace (Z.of_nat n) with (Zlen A1) by (unfold Zlen; lia).
  rewrite rd_app. cbn [mbind outcome_bind]. destruct (Z.eqb_spec y DHO_ROUTERS) as [->|].
  - rewrite wr_app. cbn [mbind outcome_bind].
    replace (A1 ++ DHO_SUBNET_MASK :: A2 ++ DHO_SUBNET_MASK :: B)
      with ((A1 ++ DHO_SUBNET_MASK :: A2) ++ DHO_SUBNET_MASK :: B) by (by rewrite <- app_assoc).
    replace (Zlen (A1 ++ DHO_ROUTERS :: A2)) with (Zlen (A1 ++ DHO_SUBNET_MASK :: A2))
      by (rewrite !Zlen_app, !Zlen_cons; done).
    rewrite wr_app. exists (A1 ++ DHO_SUBNET_MASK :: A2), DHO_ROUTERS. split; [done|].
    rewrite <- !app_assoc. apply Permutation_app_head. cbn. rewrite !(Permutation_app_comm A2). cbn. apply perm_swap.
  - destruct IH as (A' & x' & E & Hp); [lia|]. rewrite <- app_assoc in E. cbn [app] in E. eauto.
Qed.

(** The list without its duplicates, in an order that has the subnet mask before
    the routers. *)
Lemma order_list_ok fuel : forall A R T,
  (length R <= fuel)%nat -> NoDup A -> (forall x, x ∈ A -> x ∉ R) ->
  exists L T', order_list fuel (A ++ R ++ T) (Zlen A) (Zlen A + Zlen R) = Ret (L ++ T', Zlen L) /\
    NoDup L /\ forall x, x ∈ L <-> x ∈ A ++ R.
Proof.
  induction fuel as [|fuel IH]; intros A R T Hf Hd Hdis; cbn [order_list].
  { destruct R; [|cbn in Hf; lia]. change (Zlen []) with 0. rewrite Z.add_0_r, Z.leb_refl.
    exists A, T. by rewrite app_nil_r. }
  destruct R as [|x R].
  { change (Zlen []) with 0. rewrite Z.add_0_r, Z.leb_refl. exists A, T. by rewrite app_nil_r. }
  rewrite Zlen_cons, (proj2 (Z.leb_gt _ _)) by (pose proof (Zlen_nonneg R); lia).
  destruct (squeeze_ok x R A [] [] T (Zlen A + (Zlen R + 1))) as (J & E & _); [rewrite Zlen_app; change (Zlen [x]) with 1; lia|].
  rewrite <- !app_assoc in E. cbn [app] in E. rewrite Zlen_app in E. change (Zlen [x]) with 1 in E. change (Zlen []) with 0 in E.
  replace (Zlen A + 1 + 0) with (Zlen A + 1) in E by lia.
  replace (Z.to_nat (Zlen A + (Zlen R + 1) - Zlen A - 1)) with (length R) by (unfold Zlen; lia).
  cbn [app]. rewrite E. cbn [mbind outcome_bind]. rewrite rd_app. cbn [mbind outcome_bind].
  set (R' := filter (fun y => y <> x) R) in *.
  assert (exists A' x', (if x =? DHO_SUBNET_MASK then routers_below (Z.to_nat (Zlen A)) (A ++ x :: R' ++ J ++ T) (Zlen A)
            else Ret (A ++ x :: R' ++ J ++ T)) = Ret (A' ++ x' :: R' ++ J ++ T) /\ A' ++ [x'] ≡ₚ A ++ [x])
    as (A' & x' & -> & Hp).
  { destruct (Z.eqb_spec x DHO_SUBNET_MASK); [|by exists A, x].
    apply routers_below_ok; [unfold Zlen; lia|done]. }
  cbn [mbind outcome_bind].
  assert (length (A' ++ [x']) = length (A ++ [x])) as Hl by by rewrite Hp.
  destruct (IH (A' ++ [x']) R' (J ++ T)) as (L & T' & E' & HL & Hin).
  - unfold R'. pose proof (length_filter (fun y => y <> x) R). cbn in Hf. lia.
  - rewrite Hp. apply NoDup_app. split_and!; [done| |apply NoDup_singleton].
    intros z Hz Hz'%list_elem_of_singleton. subst. by apply (Hdis x); [|left].
  - intros z. rewrite Hp. unfold R'. rewrite list_elem_of_filter, elem_of_app, list_elem_of_singleton.
    intros [Hz| ->] [H1 H2]; [|done]. apply (Hdis z); [done|by right].
  - rewrite <- app_assoc in E'. cbn [app] in E'.
    replace (Zlen A + 1) with (Zlen (A' ++ [x'])) by (unfold Zlen; rewrite Hl, length_app; cbn; lia).
    rewrite E'. exists L, T'. split_and!; try done. intros z. rewrite Hin, elem_of_app, Hp. unfold R'.
    rewrite list_elem_of_filter, !elem_of_app, list_elem_of_singleton, elem_of_cons. destruct (decide (z = x)); naive_solver.
Qed.

(** ** Pieces of the buffer *)

Definition slice (b : list Z) (lo n : Z) : list Z := take (Z.to_nat n) (drop (Z.to_nat lo) b).

Definition splice (b : list Z) (at_ : Z) (x : list Z) : list Z :=
  take (Z.to_nat at_) b ++ x ++ drop (Z.to_nat at_ + length x) b.

Lemma length_splice b at_ x : 0 <= at_ -> at_ + Zlen x <= Zlen b -> Zlen (splice b at_ x) = Zlen b.
Proof. unfold splice, Zlen. intros. rewrite !length_app, length_take, length_drop. lia. Qed.

Lemma slice_splice_before b at_ x lo n :
  0 <= lo -> 0 <= n -> lo + n <= at_ -> at_ <= Zlen b -> slice (splice b at_ x) lo n = slice b lo n.
Proof.
  unfold slice, splice, Zlen. intros. rewrite drop_app_le by (rewrite length_take; lia).
  rewrite take_app_le by (rewrite length_drop, length_take; lia).
  rewrite skipn_firstn_comm, take_take. f_equal. lia.
Qed.

Lemma slice_splice_after b at_ x lo n :
  0 <= at_ -> at_ + Zlen x <= lo -> at_ + Zlen x <= Zlen b -> slice (splice b at_ x) lo n = slice b lo n.
Proof.
  unfold slice, splice, Zlen. intros. rewrite app_assoc, drop_app_ge by (rewrite length_app, length_take; lia).
  rewrite length_app, length_take, drop_drop. do 2 f_equal. lia.
Qed.

Lemma slice_splice_grow b at_ x lo :
  0 <= lo -> lo <= at_ -> at_ + Zlen x <= Zlen b ->
  slice (splice b at_ x) lo (at_ - lo + Zlen x) = slice b lo (at_ - lo) ++ x.
Proof.
  unfold slice, splice, Zlen. intros. rewrite drop_app_le by (rewrite length_take; lia).
  rewrite app_assoc, take_app_length'.
  - f_equal. rewrite skipn_firstn_comm. f_equal. lia.
  - rewrite length_app, length_drop, length_take. lia.
Qed.

Lemma splice_splice b at_ x y :
  0 <= at_ -> at_ + Zlen x + Zlen y <= Zlen b -> splice (splice b at_ x) (at_ + Zlen x) y = splice b at_ (x ++ y).
Proof.
  unfold Zlen. intros H1 H2. unfold splice at 1 3. replace (Z.to_nat (at_ + Z.of_nat (length x))) with (Z.to_nat at_ + length x)%nat by lia.
  assert (length (take (Z.to_nat at_) b ++ x) = (Z.to_nat at_ + length x)%nat) as El
    by (rewrite length_app, length_take; lia).
  rewrite length_app. unfold splice. rewrite (app_assoc (take _ b) x), take_app_length' by done.
  rewrite drop_app_ge, drop_drop by lia. rewrite <- !app_assoc. do 3 f_equal. f_equal. lia.
Qed.

Lemma splice_over (A Y D : list Z) : splice (A ++ Y) (Zlen A) D = A ++ D ++ drop (length D) Y.
Proof. unfold splice, Zlen. rewrite Nat2Z.id, take_app_length. by rewrite drop_app_add. Qed.

Lemma wr_splice b at_ v : 0 <= at_ < Zlen b -> wr b at_ v = Ret (splice b at_ [v]).
Proof.
  intros H. rewrite wrA_in by done. f_equal. unfold splice, Zlen in *. cbn [length].
  rewrite insert_take_drop by lia. cbn. do 2 f_equal. f_equal. lia.
Qed.

Lemma memcpy_splice b at_ d : 0 <= at_ -> at_ + Zlen d <= Zlen b -> memcpy b at_ d = Ret (splice b at_ d).
Proof. intros. unfold memcpy. by rewrite bool_decide_true. Qed.

(** Writing a code, a length and a value. *)
Lemma write_piece b at_ code n d :
  0 <= at_ -> at_ + 2 + Zlen d <= Zlen b ->
  (b ← wr b at_ code; b ← wr b (at_ + 1) n; memcpy b (at_ + 2) d) = Ret (splice b at_ (code :: n :: d)).
Proof.
  intros H0 H1. pose proof (Zlen_nonneg d). rewrite wr_splice by lia. cbn [mbind outcome_bind].
  rewrite wr_splice by (rewrite length_splice; change (Zlen [code]) with 1; lia). cbn [mbind outcome_bind].
  change (at_ + 1) with (at_ + Zlen [code]). rewrite splice_splice by (change (Zlen [_]) with 1; lia).
  cbn [app]. rewrite memcpy_splice by (rewrite ?length_splice; change (Zlen [_; _]) with 2; lia).
  change (at_ + 2) with (at_ + Zlen [code; n]). by rewrite splice_splice by (change (Zlen [_; _]) with 2; lia).
Qed.

(** The same when the last octet is a NUL that the value does not have. *)
Lemma write_piece_nul b at_ code n d :
  0 <= at_ -> at_ + 3 + Zlen d <= Zlen b ->
  (b ← wr b at_ code; b ← wr b (at_ + 1) n; b ← memcpy b (at_ + 2) d; wr b (at_ + 2 + Zlen d) 0)
  = Ret (splice b at_ (code :: n :: d ++ [0])).
Proof.
  intros H0 H1. pose proof (Zlen_nonneg d). pose proof (write_piece b at_ code n d H0 ltac:(lia)) as E.
  destruct (wr b at_ code) as [b1| |]; [|done..]. cbn [mbind outcome_bind] in *.
  destruct (wr b1 (at_ + 1) n) as [b2| |]; [|done..]. cbn [mbind outcome_bind] in *. rewrite E. cbn [mbind outcome_bind].
  assert (Zlen (code :: n :: d) = 2 + Zlen d) as El by (rewrite !Zlen_cons; lia).
  rewrite wr_splice by (rewrite length_splice; lia).
  replace (at_ + 2 + Zlen d) with (at_ + Zlen (code :: n :: d)) by lia.
  by rewrite splice_splice by (change (Zlen [0]) with 1; lia).
Qed.

(** ** What the sections hold *)

(** Options as they are in the buffer. *)
Definition enc (opts : list (Z * list Z)) : list Z := concat (map (fun o => fst o :: Zlen (snd o) :: snd o) opts).

Lemma enc_app o1 o2 : enc (o1 ++ o2) = enc o1 ++ enc o2.
Proof. unfold enc. by rewrite map_app, concat_app. Qed.

#[global] Instance section_eq_dec : EqDecision section.
Proof. solve_decision. Defined.

Definition start (s : sections) (sec : section) : Z :=
  match sec with Main => 0 | Second => first_cutoff s | Third => second_cutoff s end.
Definition fill (w : stored) (sec : section) : Z := match sec with Main => bufix w | Second => six w | Third => tix w end.
Definition enabled (s : sections) (sec : section) : bool :=
  match sec with Main => true | Second => negb (first_cutoff s =? 0) | Third => negb (second_cutoff s =? 0) end.
(** Up to here a section may be filled; an overloaded one keeps an octet for its end. *)
Definition limit (s : sections) (sec : section) : Z :=
  match sec with Main => bufend s | Second => sbufend s - 1 | Third => buflen s - 1 end.

(** Three disjoint sections of a buffer, with room for the overload option in the
    first. *)
Record sections_ok (s : sections) : Prop := Sections_ok {
  so_room : 3 <= bufend s;
  so_start : forall sec, enabled s sec = true -> 0 <= start s sec <= limit s sec;
  so_limit : forall sec, enabled s sec = true -> limit s sec <= buflen s;
  so_disjoint : forall s1 s2, s1 <> s2 -> enabled s s1 = true -> enabled s s2 = true ->
    limit s s1 <= start s s2 \/ limit s s2 <= start s s1;
  so_size : buflen s < 2 ^ 30
}.

Record holds (s : sections) (w : stored) (c : section -> list (Z * list Z)) : Prop := Holds {
  h_size : buflen s <= Zlen (buf w);
  h_slice : forall sec, slice (buf w) (start s sec) (fill w sec) = enc (c sec);
  h_fill : forall sec, Zlen (enc (c sec)) = fill w sec;
  h_limit : forall sec, if enabled s sec then start s sec + fill w sec <= limit s sec else fill w sec = 0
}.

Definition add_to (c : section -> list (Z * list Z)) (sec : section) (o : list (Z * list Z)) : section -> list (Z * list Z) :=
  fun sec' => if decide (sec' = sec) then c sec' ++ o else c sec'.

Lemma position_eq s w sec : position s w sec = start s sec + fill w sec.
Proof. by destruct sec. Qed.

Lemma fill_advance w b sec n sec' :
  fill (advance w b sec n) sec' = fill w sec' + (if decide (sec' = sec) then n else 0).
Proof. case_decide as H; [subst|]; destruct sec; try destruct sec'; cbn; try lia; by destruct H. Qed.

Lemma buf_advance w b sec n : buf (advance w b sec n) = b.
Proof. by destruct sec. Qed.

Lemma fill_nonneg s w c sec : holds s w c -> 0 <= fill w sec.
Proof. intros H. rewrite <- (h_fill _ _ _ H). apply Zlen_nonneg. Qed.

(** A piece that fits goes to the end of its section. *)
Lemma put_piece s w c sec code d :
  sections_ok s -> holds s w c -> enabled s sec = true -> position s w sec + 2 + Zlen d <= limit s sec ->
  holds s (advance w (splice (buf w) (position s w sec) (code :: Zlen d :: d)) sec (2 + Zlen d)) (add_to c sec [(code, d)]).
Proof.
  intros So H He Hl. pose proof H as [Hz Hs Hf Hm]. rewrite position_eq in *. pose proof (fill_nonneg s w c) as Hnn.
  pose proof (so_start s So sec He). pose proof (so_limit s So sec He). pose proof (Hnn sec H). pose proof (Zlen_nonneg d).
  set (at_ := start s sec + fill w sec) in *. set (x := code :: Zlen d :: d).
  assert (Zlen x = 2 + Zlen d) as Ex by (unfold x; rewrite !Zlen_cons; lia).
  assert (enc [(code, d)] = x) as Ee by (unfold enc, x; cbn; by rewrite app_nil_r).
  constructor.
  - rewrite buf_advance, length_splice by lia. lia.
  - intros sec'. rewrite buf_advance, fill_advance. unfold add_to. destruct (decide (sec' = sec)) as [->|Hne].
    + rewrite enc_app, Ee, <- Hs, <- Ex. replace (fill w sec) with (at_ - start s sec) by (unfold at_; lia).
      apply slice_splice_grow; unfold at_; lia.
    + rewrite Z.add_0_r, <- Hs. specialize (Hm sec'). pose proof (Hnn sec' H). destruct (enabled s sec') eqn:Ee'.
      * destruct (so_disjoint s So sec' sec Hne Ee' He) as [Hd|Hd].
        -- pose proof (so_start s So sec' Ee'). apply slice_splice_before; unfold at_; lia.
        -- apply slice_splice_after; unfold at_; lia.
      * rewrite Hm. done.
  - intros sec'. rewrite fill_advance. unfold add_to. destruct (decide (sec' = sec)) as [->|Hne].
    + rewrite enc_app, Zlen_app, Ee, Hf. lia.
    + rewrite Hf. lia.
  - intros sec'. rewrite fill_advance. specialize (Hm sec'). destruct (decide (sec' = sec)) as [->|Hne].
    + rewrite He in *. unfold at_ in *. lia.
    + by rewrite Z.add_0_r.
Qed.

(** The positions of earlier contents, in a buffer that has more. *)
Lemma holds_rollback s w w' c c' :
  holds s w c -> holds s w' c' -> (forall sec, exists r, c' sec = c sec ++ r) ->
  holds s (Stored (buf w') (bufix w) (six w) (tix w)) c.
Proof.
  intros [Hz Hs Hf Hm] [Hz' Hs' Hf' Hm'] Hr.
  assert (forall sec, fill (Stored (buf w') (bufix w) (six w) (tix w)) sec = fill w sec) as Efill by (by intros []).
  constructor; cbn [buf]; [done| | |].
  - intros sec. rewrite Efill. destruct (Hr sec) as [r Er]. specialize (Hs' sec). rewrite Er, enc_app in Hs'.
    rewrite <- (Hf sec). unfold slice in *. unfold Zlen. rewrite Nat2Z.id.
    apply (f_equal (take (length (enc (c sec))))) in Hs'. rewrite take_take, take_app_length in Hs'.
    rewrite Nat.min_l in Hs'; [exact Hs'|]. rewrite <- (Hf' sec), Er, enc_app. unfold Zlen. rewrite length_app. lia.
  - intros sec. rewrite Efill. apply Hf.
  - intros sec. rewrite Efill. apply Hm.
Qed.

(** Where a piece goes, there is room for it. *)
Lemma choose_whole_ok s w c is_last length sec :
  sections_ok s -> holds s w c -> bufix w + 3 <= bufend s -> 0 < length < 2 ^ 31 ->
  choose_whole s w is_last length = Some sec ->
  enabled s sec = true /\ position s w sec + 2 + length <= limit s sec /\
  (sec = Main -> bufix w + 2 + length + 3 <= bufend s \/ (is_last = true /\ six w = 0 /\ tix w = 0)).
Proof.
  intros So H Hr Hlen E. pose proof (fill_nonneg s w c Main H) as Hb. pose proof (fill_nonneg s w c Second H) as Hs.
  pose proof (fill_nonneg s w c Third H) as Ht. pose proof (so_size s So) as Hz.
  pose proof (so_limit s So Main eq_refl) as Hlm.
  pose proof (so_start s So Second) as Hs2. pose proof (so_limit s So Second) as Hl2.
  pose proof (so_start s So Third) as Hs3. pose proof (so_limit s So Third) as Hl3.
  pose proof (h_limit s w c H Second) as Hh2. pose proof (h_limit s w c H Third) as Hh3.
  cbn [fill start limit enabled] in Hb, Hs, Ht, Hlm, Hs2, Hl2, Hs3, Hl3, Hh2, Hh3.
  unfold choose_whole in E. rewrite (u32_small (bufix w + 2 + length)), (u32_small (bufix w + 5 + length)) in E by lia.
  match type of E with (if ?b then _ else _) = _ => destruct b eqn:E1 end.
  { injection E as <-. cbn. apply orb_prop in E1 as [E1|E1]; [|split; [done|lia]].
    repeat (apply andb_prop in E1 as [E1 ?]). split; [done|]. split; [lia|]. intros _. right. split_and!; done || lia. }
  destruct (negb (first_cutoff s =? 0)) eqn:Ef; cbn [andb] in *.
  1: specialize (Hs2 eq_refl); specialize (Hl2 eq_refl); rewrite u32_small in E by lia;
    destruct (Z.ltb_spec (first_cutoff s + six w + 3 + length) (sbufend s)) as [Hc2|Hc2];
    [injection E as <-; cbn; rewrite Ef; split_and!; done || lia|].
  all: destruct (negb (second_cutoff s =? 0)) eqn:Es; cbn [andb] in *; [|done];
    specialize (Hs3 eq_refl); specialize (Hl3 eq_refl); rewrite u32_small in E by lia;
    destruct (Z.ltb_spec (second_cutoff s + tix w + 3 + length) (buflen s)) as [Hc3|Hc3]; [|done];
    injection E as <-; cbn; rewrite Es; split_and!; done || lia.
Qed.

Lemma choose_split_ok s w c sec incr n :
  sections_ok s -> holds s w c -> choose_split s w = Some (sec, incr) -> n <= incr ->
  enabled s sec = true /\ 2 <= incr /\ position s w sec + 2 + n <= limit s sec /\
  match sec with Main => bufix w + 6 < bufend s /\ bufix w + 2 + n + 3 <= bufend s | _ => bufend s <= bufix w + 6 end /\
  (sec = Second -> first_cutoff s <> 0 /\ first_cutoff s + six w + 4 < sbufend s) /\
  (sec = Third -> first_cutoff s = 0 \/ sbufend s <= first_cutoff s + six w + 4).
Proof.
  intros So H E Hn. unfold choose_split in E.
  destruct (Z.ltb_spec (bufix w + 6) (bufend s)) as [Hc|Hc].
  { injection E as <- <-. cbn. split_and!; done || lia. }
  destruct (Z.eqb_spec (first_cutoff s) 0) as [Ef|Ef]; cbn [negb andb] in *.
  2: destruct (Z.ltb_spec (first_cutoff s + six w + 4) (sbufend s)) as [Hc2|Hc2].
  2: { injection E as <- <-. cbn. rewrite (proj2 (Z.eqb_neq _ _) Ef). split_and!; done || lia. }
  all: destruct (Z.eqb_spec (second_cutoff s) 0) as [Es|Es]; cbn [negb andb] in *; [done|];
    destruct (Z.ltb_spec (second_cutoff s + tix w + 4) (buflen s)) as [Hc3|Hc3]; [|done];
    injection E as <- <-; cbn; rewrite (proj2 (Z.eqb_neq _ _) Es); split_and!; try done; try lia; intros; lia.
Qed.

(** The value that is stored: the NUL is part of it. *)
Definition sent_value (od : list Z) (tto : bool) : list Z := od ++ (if tto then [0] else []).

Lemma sent_length od tto : Zlen (sent_value od tto) = Zlen od + (if tto then 1 else 0).
Proof. unfold sent_value. rewrite Zlen_app. by destruct tto. Qed.

Lemma wr_memcpy b i v : wr b i v = memcpy b i [v].
Proof.
  unfold wrA, memcpy. change (Zlen [v]) with 1. destruct (decide (0 <= i < Zlen b)) as [H|H].
  - rewrite !bool_decide_true by lia. f_equal. unfold Zlen in H. rewrite insert_take_drop by lia. cbn. do 3 f_equal. lia.
  - by rewrite !bool_decide_false by lia.
Qed.

(** The writes of one piece. *)
Lemma copy_piece b at_ code od tto ix n length :
  0 <= at_ -> at_ + 2 + n <= Zlen b -> 0 <= ix -> 1 <= n <= length -> n <= 255 -> is_byte code ->
  length = Zlen (sent_value od tto) - ix ->
  (b ← wr b at_ (u8 code);
   b ← wr b (at_ + 1) (u8 n);
   if tto && (n =? length) then
     b ← (if 1 <? n then d ← memread od ix (n - 1); memcpy b (at_ + 2) d else Ret b);
     wr b (at_ + 2 + n - 1) 0
   else d ← memread od ix n; memcpy b (at_ + 2) d)
  = Ret (splice b at_ (code :: n :: slice (sent_value od tto) ix n)).
Proof.
  intros H1 H2 H3 H4 H5 Hc El. rewrite sent_length in El. rewrite !u8_small by (done || (unfold is_byte; lia)).
  destruct tto; cbn [andb].
  2: { unfold sent_value. rewrite app_nil_r, memread_in by lia. cbn [mbind outcome_bind]. fold (slice od ix n).
       apply write_piece; [done|]. unfold slice, Zlen in *. rewrite length_take, length_drop. lia. }
  destruct (Z.eqb_spec n length) as [En|En].
  - assert (slice (sent_value od true) ix n = slice od ix (n - 1) ++ [0]) as ->.
    { unfold slice, sent_value, Zlen in *. rewrite drop_app_le by lia. rewrite take_ge by (rewrite length_app, length_drop; cbn; lia).
      f_equal. rewrite take_ge by (rewrite length_drop; lia). done. }
    assert (Zlen (slice od ix (n - 1)) = n - 1) as Ed by (unfold slice, Zlen in *; rewrite length_take, length_drop; lia).
    destruct (Z.ltb_spec 1 n) as [Hn|Hn].
    + rewrite memread_in by lia. fold (slice od ix (n - 1)). cbn [mbind outcome_bind].
      replace (at_ + 2 + n - 1) with (at_ + 2 + Zlen (slice od ix (n - 1))) by lia. apply write_piece_nul; lia.
    + assert (slice od ix (n - 1) = []) as -> by (destruct (slice od ix (n - 1)); [done|rewrite Zlen_cons in Ed; pose proof (Zlen_nonneg l); lia]).
      cbn [mbind outcome_bind app]. replace (at_ + 2 + n - 1) with (at_ + 2) by lia. rewrite <- (write_piece b at_ code n [0]) by (done || (change (Zlen [0]) with 1; lia)).
      destruct (wr b at_ code) as [b1| |]; [|done..]. cbn [mbind outcome_bind].
      destruct (wr b1 (at_ + 1) n) as [b2| |]; [|done..]. cbn [mbind outcome_bind]. apply wr_memcpy.
  - rewrite memread_in by lia. cbn [mbind outcome_bind].
    assert (slice (sent_value od true) ix n = slice od ix n) as ->.
    { unfold slice, sent_value, Zlen in *. rewrite drop_app_le by lia. by rewrite take_app_le by (rewrite length_drop; lia). }
    apply write_piece; [done|]. unfold slice, Zlen in *. rewrite length_take, length_drop. lia.
Qed.

(** The pieces of an option with code [code], by section. *)
Definition with_pieces (c : section -> list (Z * list Z)) (code : Z) (p : section -> list (list Z))
  : section -> list (Z * list Z) := fun sec => c sec ++ map (pair code) (p sec).

Definition all_pieces (p : section -> list (list Z)) : list (list Z) := p Main ++ p Second ++ p Third.

Definition no_pieces : section -> list (list Z) := fun _ => [].

Definition first_piece (sec : section) (d : list Z) (p : section -> list (list Z)) : section -> list (list Z) :=
  fun sec' => if decide (sec' = sec) then d :: p sec' else p sec'.

Definition piece_ok (d : list Z) : Prop := is_bytes d /\ 1 <= Zlen d <= 255.

Lemma holds_ext s w c c' : (forall sec, c sec = c' sec) -> holds s w c -> holds s w c'.
Proof. intros E [? ? ? ?]. constructor; try done; intros sec; by rewrite <- E. Qed.

Section Pieces.
Context (s : sections) (code : Z) (od : list Z) (tto is_last : bool).
Context (So : sections_ok s) (Hcode : is_byte code) (Hod : is_bytes od) (Hsz : Zlen (sent_value od tto) < 2 ^ 31).

Abbreviation V := (sent_value od tto).

Lemma slice_piece_ok ix n : 0 <= ix -> 1 <= n <= 255 -> n <= Zlen V - ix -> piece_ok (slice V ix n) /\ Zlen (slice V ix n) = n.
Proof.
  intros H1 H2 H3. assert (Zlen (slice V ix n) = n) as E by (unfold slice, Zlen in *; rewrite length_take, length_drop; lia).
  split; [split; [|lia]|done]. apply is_bytes_take, is_bytes_drop, is_bytes_app. split; [done|].
  destruct tto; repeat constructor; unfold is_byte; lia.
Qed.

Lemma slice_drop ix n : 0 <= ix -> 0 <= n -> slice V ix n ++ drop (Z.to_nat (ix + n)) V = drop (Z.to_nat ix) V.
Proof.
  intros. unfold slice. replace (Z.to_nat (ix + n)) with (Z.to_nat ix + Z.to_nat n)%nat by lia.
  rewrite <- drop_drop. apply take_drop.
Qed.

(** The pieces that [store_pieces] adds, from [ix] on. *)
Definition pieces_added (w w' : stored) (done_ splitup : bool) (ix : Z) (c : section -> list (Z * list Z)) (p : section -> list (list Z)) : Prop :=
  holds s w' (with_pieces c code p) /\ Forall piece_ok (all_pieces p) /\
  (done_ = true -> concat (all_pieces p) = drop (Z.to_nat ix) V) /\
  (bufix w' + 3 <= bufend s \/ (is_last = true /\ six w' = 0 /\ tix w' = 0)) /\
  (splitup = true -> bufend s <= bufix w + 6 ->
     p Main = [] /\ (first_cutoff s = 0 \/ sbufend s <= first_cutoff s + six w + 4 -> p Second = [])).

Lemma no_pieces_added w splitup ix c done_ :
  holds s w c -> bufix w + 3 <= bufend s \/ (is_last = true /\ six w = 0 /\ tix w = 0) ->
  (done_ = true -> drop (Z.to_nat ix) V = []) ->
  pieces_added w w done_ splitup ix c no_pieces.
Proof.
  intros H Hr Hd. split_and!; [|constructor|intros E; by rewrite (Hd E)|done|done].
  eapply holds_ext; [|exact H]. intros sec. unfold with_pieces. cbn. by rewrite app_nil_r.
Qed.

(** One piece and then others. *)
Lemma piece_then w w1 w' sec ix n done_ splitup c p :
  holds s w c -> 0 <= ix -> 1 <= n <= 255 -> n <= Zlen V - ix ->
  pieces_added w1 w' done_ true (ix + n) (add_to c sec [(code, slice V ix n)]) p ->
  match sec with
  | Main => True
  | Second => p Main = []
  | Third => p Main = [] /\ p Second = []
  end ->
  (splitup = true -> bufend s <= bufix w + 6 ->
     sec <> Main /\ p Main = [] /\ (first_cutoff s = 0 \/ sbufend s <= first_cutoff s + six w + 4 -> sec <> Second /\ p Second = [])) ->
  pieces_added w w' done_ splitup ix c (first_piece sec (slice V ix n) p).
Proof.
  intros H H0 H1 H2 (Hh & Hp & Hd & Hr & _) Hsec Hex. destruct (slice_piece_ok ix n H0 H1 H2) as [Hpo _].
  assert (all_pieces (first_piece sec (slice V ix n) p) = slice V ix n :: all_pieces p) as Ea.
  { unfold all_pieces, first_piece. destruct sec; cbn; [done|by rewrite Hsec|]. destruct Hsec as [-> ->]. done. }
  split_and!.
  - eapply holds_ext; [|exact Hh]. intros sec'. unfold with_pieces, add_to, first_piece.
    destruct (decide (sec' = sec)); [|done]. cbn. by rewrite <- app_assoc.
  - rewrite Ea. by constructor.
  - intros E. rewrite Ea. cbn. rewrite (Hd E). apply slice_drop; lia.
  - done.
  - intros Hs Hb. destruct (Hex Hs Hb) as (Hn & Hm & Hse). unfold first_piece. rewrite decide_False by congruence.
    split; [done|]. intros Hf. destruct (Hse Hf) as [? ?]. by rewrite decide_False by congruence.
Qed.

Lemma store_pieces_ok fuel : forall w ix splitup length c,
  holds s w c -> bufix w + 3 <= bufend s -> 0 <= ix -> length = Zlen V - ix -> 0 <= length ->
  (splitup = false -> length <= 255) -> length <= Z.of_nat fuel ->
  exists w' b p, store_pieces fuel s w code od tto is_last splitup ix length = Ret (w', b) /\
    pieces_added w w' b splitup ix c p.
Proof.
  induction fuel as [|fuel IH]; intros w ix splitup length c H Hr Hix El Hl Hsp Hf; cbn [store_pieces].
  all: destruct (Z.eqb_spec length 0) as [E0|E0];
    [exists w, true, no_pieces; split; [done|]; apply no_pieces_added; [done|by left|]; intros _; apply drop_ge; unfold Zlen in *; lia|].
  { lia. }
  pose proof (fill_nonneg s w c) as Hnn. pose proof (h_size _ _ _ H) as Hz.
  assert (forall sec n sp, enabled s sec = true -> 1 <= n <= length -> n <= 255 -> position s w sec + 2 + n <= limit s sec ->
    (exists w' b p, store_pieces fuel s (advance w (splice (buf w) (position s w sec) (code :: n :: slice V ix n)) sec (2 + n))
                      code od tto is_last sp (ix + n) (length - n) = Ret (w', b) /\
                    pieces_added w w' b splitup ix c p) ->
    exists w' b p, (b ← wr (buf w) (position s w sec) (u8 code);
                    b ← wr b (position s w sec + 1) (u8 n);
                    b ← (if tto && (n =? length) then
                           b ← (if 1 <? n then d ← memread od ix (n - 1); memcpy b (position s w sec + 2) d else Ret b);
                           wr b (position s w sec + 2 + n - 1) 0
                         else d ← memread od ix n; memcpy b (position s w sec + 2) d);
                    store_pieces fuel s (advance w b sec (2 + n)) code od tto is_last sp (ix + n) (length - n)) = Ret (w', b) /\
      pieces_added w w' b splitup ix c p) as Hwrite.
  { intros sec n sp He Hn Hn2 Hroom Hrest.
    pose proof (so_start s So sec He). pose proof (so_limit s So sec He). pose proof (Hnn sec H).
    pose proof (copy_piece (buf w) (position s w sec) code od tto ix n length) as Ecp.
    rewrite position_eq in *. specialize (Ecp ltac:(lia) ltac:(lia) Hix Hn Hn2 Hcode El).
    destruct (wr (buf w) (start s sec + fill w sec) (u8 code)) as [b1| |]; [|done..]. cbn [mbind outcome_bind] in *.
    destruct (wr b1 (start s sec + fill w sec + 1) (u8 n)) as [b2| |]; [|done..]. cbn [mbind outcome_bind] in *.
    rewrite Ecp. exact Hrest. }
  unfold choose. destruct (if splitup then None else choose_whole s w is_last length) as [sec|] eqn:Ew.
  - destruct splitup; [done|]. specialize (Hsp eq_refl).
    destruct (choose_whole_ok s w c is_last length sec So H Hr ltac:(lia) Ew) as (He & Hroom & Hmain).
    rewrite Z.ltb_irrefl, (proj2 (Z.ltb_ge 255 length)) by lia.
    apply Hwrite; try done; try lia. set (w1 := advance _ _ _ _).
    exists w1, true, (first_piece sec (slice V ix length) no_pieces). split.
    { destruct fuel; cbn [store_pieces]; by rewrite Z.sub_diag. }
    destruct (slice_piece_ok ix length Hix ltac:(lia) ltac:(lia)) as [_ Elen].
    pose proof (put_piece s w c sec code (slice V ix length) So H He) as Hput. rewrite Elen in Hput. specialize (Hput Hroom). fold w1 in Hput.
    apply (piece_then w w1 w1 sec ix length true false c no_pieces); try done; try lia.
    + apply no_pieces_added; [done| |intros _; apply drop_ge; unfold Zlen in *; lia].
      unfold w1. destruct sec; cbn; [|left; lia..]. destruct (Hmain eq_refl) as [?|?]; [left; lia|right; done].
    + by destruct sec.
  - destruct (choose_split s w) as [[sec incr]|] eqn:Es.
    2: { exists w, false, no_pieces. split; [done|]. apply no_pieces_added; [done|by left|done]. }
    set (n := if 255 <? (if length <? incr then length else incr) then 255 else (if length <? incr then length else incr)).
    assert (n = Z.min 255 (Z.min length incr)) as En
      by (unfold n; destruct (Z.ltb_spec length incr); match goal with |- context [255 <? ?x] => destruct (Z.ltb_spec 255 x) end; lia).
    destruct (choose_split_ok s w c sec incr n So H Es ltac:(lia)) as (He & Hi & Hroom & Hm & H2 & H3).
    apply Hwrite; try done; try lia. clear Hwrite. set (w1 := advance _ _ _ _).
    destruct (slice_piece_ok ix n Hix ltac:(lia) ltac:(lia)) as [_ Elen].
    pose proof (put_piece s w c sec code (slice V ix n) So H He) as Hput. rewrite Elen in Hput. specialize (Hput Hroom). fold w1 in Hput.
    assert (bufix w1 + 3 <= bufend s) as Hr1 by (unfold w1; destruct sec; cbn in *; lia).
    destruct (IH w1 (ix + n) true (length - n) _ Hput Hr1) as (w' & b & p & E' & Hp); try done; try lia.
    exists w', b, (first_piece sec (slice V ix n) p). split; [exact E'|].
    pose proof Hp as (_ & _ & _ & _ & Hex). specialize (Hex eq_refl).
    apply (piece_then w w1 w' sec ix n b splitup c p); try done; try lia.
    + destruct sec; [done| |].
      * apply Hex. cbn. cbn in Hm. lia.
      * destruct Hex as [Hp1 Hp2]; [cbn; cbn in Hm; lia|]. split; [done|]. apply Hp2. by apply H3.
    + intros Hsp1 Hb. destruct sec; cbn in *; [lia|..].
      * destruct Hex as [Hp1 _]; [lia|]. split_and!; try done. intros Hf2. destruct (H2 eq_refl). lia.
      * destruct Hex as [Hp1 Hp2]; [lia|]. split_and!; try done. intros Hf2. split; [done|]. by apply Hp2.
Qed.

End Pieces.

(** A value that fits in the first section goes there, in one piece. *)
Lemma store_pieces_fits s w code od tto is_last length w' b :
  0 <= length <= 255 -> 0 <= bufix w -> bufix w + 5 + length < bufend s -> bufend s < 2 ^ 31 ->
  store_pieces (Z.to_nat length) s w code od tto is_last (255 <? length) 0 length = Ret (w', b) ->
  b = true /\ bufix w' <= bufix w + 2 + length /\ six w' = six w /\ tix w' = tix w.
Proof.
  intros Hl Hw Hfit Hbe. rewrite (proj2 (Z.ltb_ge 255 length)) by lia. destruct (Z.to_nat length) as [|fuel] eqn:Ef; cbn [store_pieces].
  { rewrite (proj2 (Z.eqb_eq length 0)) by lia. intros [= <- <-]. lia. }
  rewrite (proj2 (Z.eqb_neq length 0)) by lia. unfold choose, choose_whole.
  rewrite !u32_small by lia. rewrite (proj2 (Z.ltb_lt (bufix w + 5 + length) _)), orb_true_r by lia.
  rewrite Z.ltb_irrefl, (proj2 (Z.ltb_ge 255 length)) by lia.
  intros (b1 & _ & (b2 & _ & (b3 & _ & E)%bind_Ret_inv)%bind_Ret_inv)%bind_Ret_inv. rewrite Z.sub_diag in E.
  destruct fuel; cbn in E; injection E as <- <-; cbn; lia.
Qed.

Lemma store_one_ok s w code od tto is_last c :
  sections_ok s -> is_byte code -> is_bytes od -> Zlen (sent_value od tto) < 2 ^ 31 -> holds s w c -> bufix w + 3 <= bufend s ->
  exists w' p, store_one s w code od tto is_last = Ret w' /\ holds s w' (with_pieces c code p) /\
    Forall piece_ok (all_pieces p) /\
    (concat (all_pieces p) = sent_value od tto \/ forall sec, p sec = []) /\
    (bufix w' + 3 <= bufend s \/ (is_last = true /\ six w' = 0 /\ tix w' = 0)) /\
    (Zlen (sent_value od tto) <= 255 -> bufix w + 5 + Zlen (sent_value od tto) < bufend s -> bufend s < 2 ^ 31 ->
       concat (all_pieces p) = sent_value od tto /\ bufix w' <= bufix w + 2 + Zlen (sent_value od tto) /\
       six w' = six w /\ tix w' = tix w).
Proof.
  intros So Hc Hod Hsz H Hr. unfold store_one. rewrite <- sent_length.
  destruct (store_pieces_ok s code od tto is_last So Hc Hod Hsz (Z.to_nat (Zlen (sent_value od tto))) w 0
              (255 <? Zlen (sent_value od tto)) (Zlen (sent_value od tto)) c)
    as (w' & b & p & E & Hh & Hp & Hd & Hr' & _); try done; try lia.
  { apply Zlen_nonneg. }
  pose proof (store_pieces_fits s w code od tto is_last (Zlen (sent_value od tto)) w' b) as Hfit.
  rewrite E. cbn [mbind outcome_bind]. pose proof (fill_nonneg s w c Main H) as Hnn. cbn in Hnn. pose proof (Zlen_nonneg (sent_value od tto)).
  destruct b.
  - exists w', p. split_and!; try done; [left; by rewrite (Hd eq_refl)|]. intros. split; [by rewrite (Hd eq_refl)|].
    by apply Hfit.
  - eexists _, no_pieces. split; [reflexivity|]. split_and!; [|constructor|by right|by left|intros; by destruct Hfit].
    apply (holds_ext s _ c); [intros sec; unfold with_pieces; cbn; by rewrite app_nil_r|].
    eapply holds_rollback; [exact H|exact Hh|]. intros sec. by exists (map (pair code) (p sec)).
Qed.

(** The options of all sections, in the order they are read in. *)
Definition all_options (c : section -> list (Z * list Z)) : list (Z * list Z) := c Main ++ c Second ++ c Third.

(** What the pieces of a code add up to. *)
Definition content (code : Z) (opts : list (Z * list Z)) : list Z :=
  concat (map snd (filter (fun o => fst o = code) opts)).

Lemma content_app code o1 o2 : content code (o1 ++ o2) = content code o1 ++ content code o2.
Proof. unfold content. by rewrite list.filter_app, map_app, concat_app. Qed.

Lemma content_pieces code code' ps :
  content code (map (pair code') ps) = if decide (code' = code) then concat ps else [].
Proof.
  unfold content. induction ps as [|d ps IH]; [by case_decide|]. cbn [map].
  rewrite filter_cons. cbn [fst]. destruct (decide (code' = code)) as [->|]; [|done]. cbn [map concat snd]. by rewrite IH.
Qed.

Lemma content_notin code opts : (forall o, o ∈ opts -> fst o <> code) -> content code opts = [].
Proof.
  intros H. unfold content. replace (filter (fun o => fst o = code) opts) with (@nil (Z * list Z)); [done|].
  induction opts as [|o opts IH]; [done|]. rewrite filter_cons, decide_False by (apply H; left). apply IH. intros o' Ho'. apply H. by right.
Qed.

Lemma content_with_pieces code code' c p :
  content code (all_options (with_pieces c code' p)) =
    if decide (code' = code) then
      content code (c Main) ++ concat (p Main) ++ content code (c Second) ++ concat (p Second) ++ content code (c Third) ++ concat (p Third)
    else content code (all_options c).
Proof.
  unfold all_options, with_pieces. rewrite !content_app, !content_pieces. case_decide; by rewrite ?app_nil_r, <- ?app_assoc.
Qed.

Lemma all_options_elem c o : o ∈ all_options c <-> exists sec, o ∈ c sec.
Proof.
  unfold all_options. rewrite !elem_of_app. split; [intros [?|[?|?]]; eauto|]. intros [[] ?]; auto.
Qed.

Section List.
Context (evaluate : option_cache -> option (list Z)) (encapsulate : list Z -> option (list Z)) (join_ok : Z -> bool).
Context (cfg : config) (vuname : option string) (terminate : bool).

(** The value that is sent for a code. *)
Definition reply_value (code : Z) : option (list Z) :=
  match option_value evaluate encapsulate join_ok cfg vuname code with
  | Ret (Some (value, format)) => Some (sent_value value (adds_nul terminate format))
  | _ => None
  end.

(** The values of the options in a list are octets, of a reasonable length. *)
Definition values_ok (l : list Z) : Prop :=
  forall code, code ∈ l -> is_byte code /\
    match option_value evaluate encapsulate join_ok cfg vuname code with
    | Ret (Some (value, _)) => is_bytes value /\ Zlen value < 2 ^ 31 - 1
    | Ret None => True
    | _ => False
    end.

(** The sections hold pieces of the options [done_] only, which add up to the
    options' values. *)
Record replied (c : section -> list (Z * list Z)) (done_ : list Z) : Prop := Replied {
  rp_codes : forall o, o ∈ all_options c -> fst o ∈ done_ /\ is_byte (fst o) /\ piece_ok (snd o);
  rp_values : forall code, content code (all_options c) = [] \/
    reply_value code = Some (content code (all_options c))
}.

Lemma replied_step c done_ code p v :
  replied c done_ -> code ∉ done_ -> is_byte code -> Forall piece_ok (all_pieces p) ->
  reply_value code = Some v -> concat (all_pieces p) = v \/ (forall sec, p sec = []) ->
  replied (with_pieces c code p) (done_ ++ [code]).
Proof.
  intros [Hc Hv] Hn Hb Hp Er Hv'. constructor.
  - intros o [sec Ho]%all_options_elem. unfold with_pieces in Ho. apply elem_of_app in Ho as [Ho|Ho].
    + destruct (Hc o) as (? & ? & ?); [apply all_options_elem; eauto|]. set_solver.
    + apply list_elem_of_fmap in Ho as (d & -> & Hd). cbn. split; [set_solver|]. split; [done|].
      eapply Forall_forall in Hp; [exact Hp|]. unfold all_pieces. rewrite !elem_of_app. destruct sec; auto.
  - intros code'. rewrite content_with_pieces. case_decide as Hd; [subst code'|apply Hv].
    assert (forall sec, content code (c sec) = []) as Hnil.
    { intros sec. apply content_notin. intros o Ho E. apply Hn. rewrite <- E. apply (Hc o). apply all_options_elem. eauto. }
    rewrite !Hnil. cbn [app]. destruct Hv' as [Hv'|Hv'].
    + right. rewrite Er, <- Hv'. unfold all_pieces. by rewrite !concat_app.
    + left. by rewrite !Hv'.
Qed.

(** The octets an option needs, and those of a list. *)
Definition footprint (code : Z) : Z := match reply_value code with Some v => 2 + Zlen v | None => 0 end.

Definition footprints (l : list Z) : Z := foldr (fun code n => footprint code + n) 0 l.

Definition short_values (l : list Z) : Prop :=
  forall code v, code ∈ l -> reply_value code = Some v -> Zlen v <= 255.

Lemma footprints_nonneg l : 0 <= footprints l.
Proof.
  induction l as [|code l IH]; [done|]. cbn [footprints foldr]. fold (footprints l). unfold footprint at 1. destruct (reply_value code) as [v|]; [|lia].
  pose proof (Zlen_nonneg v). lia.
Qed.

Lemma footprints_perm l l' : Permutation l l' -> footprints l = footprints l'.
Proof. unfold footprints. induction 1; cbn [foldr]; lia. Qed.

(** All the options of [l] are there. *)
Definition complete (c : section -> list (Z * list Z)) (l : list Z) : Prop :=
  forall code v, code ∈ l -> reply_value code = Some v -> content code (all_options c) = v.

Lemma complete_step c l code p v :
  replied c l -> complete c l -> code ∉ l -> reply_value code = Some v -> concat (all_pieces p) = v ->
  complete (with_pieces c code p) (l ++ [code]).
Proof.
  intros [Hc _] Hl Hn Er Hp code' v' Hin Er'. rewrite content_with_pieces. apply elem_of_app in Hin as [Hin|Hin%list_elem_of_singleton].
  - rewrite decide_False by (intros ->; done). by apply Hl.
  - subst code'. rewrite decide_True by done.
    assert (forall sec, content code (c sec) = []) as Hnil.
    { intros sec. apply content_notin. intros o Ho E. apply Hn. rewrite <- E. apply (Hc o). apply all_options_elem. eauto. }
    rewrite !Hnil. cbn [app]. assert (v' = v) as -> by congruence. rewrite <- Hp. unfold all_pieces. by rewrite !concat_app.
Qed.

Lemma store_list_ok s L : forall A T w c,
  sections_ok s -> NoDup (A ++ L) -> values_ok L -> holds s w c -> replied c A -> bufix w + 3 <= bufend s ->
  exists w' c', store_list evaluate encapsulate join_ok cfg vuname (length L) s w (A ++ L ++ T) (Zlen A) (Zlen A + Zlen L) terminate = Ret w' /\
    holds s w' c' /\ replied c' (A ++ L) /\ (bufix w' + 3 <= bufend s \/ (six w' = 0 /\ tix w' = 0)) /\
    (complete c A -> short_values L -> bufix w + footprints L + 3 < bufend s < 2 ^ 31 ->
       complete c' (A ++ L) /\ bufix w' <= bufix w + footprints L /\ six w' = six w /\ tix w' = tix w).
Proof.
  induction L as [|code L IH]; intros A T w c So Hd Hv H Hrp Hr; cbn [length store_list].
  { exists w, c. rewrite app_nil_r. split_and!; try done; [by left|]. intros. cbn [footprints foldr]. split; [done|]. split; [lia|done]. }
  cbn [app]. rewrite rd_app. cbn [mbind outcome_bind].
  destruct (Hv code) as [Hb Hval]; [left|]. pose proof Hd as (_ & HA & HL)%NoDup_app. apply NoDup_cons in HL as [HnL _].
  assert (code ∉ A) as HnA by (intros H0; apply (HA code H0); left).
  assert (Zlen A + Zlen (code :: L) = Zlen (A ++ [code]) + Zlen L) as Elen
    by (rewrite Zlen_cons, Zlen_app; change (Zlen [code]) with 1; lia).
  pose proof (footprints_nonneg L) as Hfp.
  assert (forall w1 c1, holds s w1 c1 -> replied c1 (A ++ [code]) ->
            (complete c A -> short_values (code :: L) -> bufix w + footprints (code :: L) + 3 < bufend s < 2 ^ 31 ->
               complete c1 (A ++ [code]) /\ bufix w1 <= bufix w + footprint code /\ six w1 = six w /\ tix w1 = tix w) ->
            (bufix w1 + 3 <= bufend s \/ (L = [] /\ six w1 = 0 /\ tix w1 = 0)) ->
            exists w' c', store_list evaluate encapsulate join_ok cfg vuname (length L) s w1 (A ++ code :: L ++ T) (Zlen A + 1)
                            (Zlen A + Zlen (code :: L)) terminate = Ret w' /\
              holds s w' c' /\ replied c' (A ++ code :: L) /\ (bufix w' + 3 <= bufend s \/ (six w' = 0 /\ tix w' = 0)) /\
              (complete c A -> short_values (code :: L) -> bufix w + footprints (code :: L) + 3 < bufend s < 2 ^ 31 ->
                 complete c' (A ++ code :: L) /\ bufix w' <= bufix w + footprints (code :: L) /\ six w' = six w /\ tix w' = tix w)) as Hnext.
  { intros w1 c1 H1 Hrp1 Hcp [Hr1|(-> & Hr1)].
    - destruct (IH (A ++ [code]) T w1 c1) as (w' & c' & E & H1' & H2' & H3' & H4'); try done.
      { by rewrite <- app_assoc. }
      { intros code' Hc'. apply Hv. by right. }
      rewrite <- !app_assoc in E, H2', H4'. cbn [app] in E, H2', H4'. rewrite Elen. replace (Zlen A + 1) with (Zlen (A ++ [code])) by (by rewrite Zlen_app).
      exists w', c'. split_and!; try done. intros Hca Hsv Hfit. destruct (Hcp Hca Hsv Hfit) as (? & ? & <- & <-).
      cbn [footprints foldr] in Hfit |- *. fold (footprints L) in Hfit |- *.
      destruct H4' as (? & ? & ?); [done|intros code' v' Hc'; apply Hsv; by right|lia|]. split; [done|]. split; [lia|done].
    - exists w1, c1. cbn [length store_list]. split_and!; try done; [by right|]. intros Hca Hsv Hfit. destruct (Hcp Hca Hsv Hfit) as (? & ? & ?).
      cbn [footprints foldr]. split; [done|]. split; [lia|done]. }
  destruct (option_value evaluate encapsulate join_ok cfg vuname code) as [[[value format]|]| |] eqn:Ev; try done.
  - cbn [mbind outcome_bind]. destruct Hval as [Hby Hsz].
    assert (reply_value code = Some (sent_value value (adds_nul terminate format))) as Erv by (unfold reply_value; by rewrite Ev).
    destruct (store_one_ok s w code value (adds_nul terminate format) (Zlen A =? Zlen A + Zlen (code :: L) - 1) c)
      as (w1 & p & -> & H1 & Hp & Hcat & Hr1 & Hfit); try done.
    { rewrite sent_length. destruct (adds_nul _ _); lia. }
    cbn [mbind outcome_bind]. apply (Hnext w1 (with_pieces c code p)); [done|by eapply replied_step| |].
    { intros Hca Hsv Hroom. assert (footprint code = 2 + Zlen (sent_value value (adds_nul terminate format))) as Efp by (unfold footprint; by rewrite Erv).
      cbn [footprints foldr] in Hroom. fold (footprints L) in Hroom.
      destruct Hfit as (Hfit1 & Hfit2 & Hfit3); [apply (Hsv code); [left|done]|lia..|]. split; [by eapply complete_step|split; [lia|done]]. }
    destruct Hr1 as [?|(E & ? & ?)]; [by left|right]. apply Z.eqb_eq in E. rewrite Zlen_cons in E.
    split; [|done]. destruct L; [done|]. rewrite Zlen_cons in E. pose proof (Zlen_nonneg L). lia.
  - cbn [mbind outcome_bind]. apply (Hnext w c); [done| | |by left].
    + destruct Hrp as [Hc' Hv']. constructor; [|done]. intros o Ho. destruct (Hc' o Ho) as (? & ? & ?). set_solver.
    + intros Hca _ _. assert (reply_value code = None) as En by (unfold reply_value; by rewrite Ev).
      split; [|unfold footprint; rewrite En; split; [lia|done]]. intros code' v [Hin|Hin%list_elem_of_singleton]%elem_of_app; [by apply Hca|congruence].
Qed.

End List.

(** ** The layout of the buffer *)

(** [main] octets for the options, from [index] on, and behind them the sections
    at [first] and [second], if they are not zero. *)
Record layout (index main first second len : Z) : Prop := Layout {
  lay_index : 0 <= index;
  lay_main : index + 3 <= main;
  lay_len : len < 2 ^ 30;
  lay_first : first = 0 \/ first = main;
  lay_second : second = 0 \/ (if first =? 0 then second = main else main + 1 < second);
  lay_end : if (first =? 0) && (second =? 0) then len = main else if second =? 0 then main + 1 < len else second + 1 < len
}.

Lemma set_sections_ok index main first second len :
  layout index main first second len ->
  set_sections index len first second =
    Ret (Sections (main - index) (if (first =? 0) || (second =? 0) then len - index else second - index) (len - index)
           (if first =? 0 then 0 else first - index) (if second =? 0 then 0 else second - index)) /\
  sections_ok (Sections (main - index) (if (first =? 0) || (second =? 0) then len - index else second - index) (len - index)
           (if first =? 0 then 0 else first - index) (if second =? 0 then 0 else second - index)).
Proof.
  intros [Hi Hm Hl Hf Hs He]. unfold set_sections.
  destruct (Z.eqb_spec first 0) as [Ef|Ef]; destruct (Z.eqb_spec second 0) as [Es|Es]; cbn [andb orb] in *;
    destruct Hf as [Hf|Hf]; try (by destruct Ef); destruct Hs as [Hs|Hs]; try (by destruct Es); try lia;
    rewrite ?(u32_small (len - index)), ?(u32_small (first - index)), ?(u32_small (second - index)) by lia;
    cbn [Z.eqb negb];
    repeat match goal with
    | |- context [?x =? 0] => rewrite (proj2 (Z.eqb_neq x 0)) by lia
    | |- context [?x <=? ?y] => rewrite (proj2 (Z.leb_gt x y)) by lia
    end; cbn [negb]; (split; [f_equal; f_equal; lia|]);
    (constructor; cbn;
      [lia | intros [] | intros [] | intros [] [] | lia];
      repeat match goal with |- context [?x =? 0] => rewrite (proj2 (Z.eqb_neq x 0)) by lia end; cbn; intros; try done; lia).
Qed.

Lemma splice_cons b at_ x y :
  0 <= at_ -> at_ + 1 + Zlen y <= Zlen b -> splice (splice b (at_ + 1) y) at_ [x] = splice b at_ (x :: y).
Proof.
  intros H1 H2. unfold Zlen in *. unfold splice at 1 3. cbn [length].
  replace (take (Z.to_nat at_) (splice b (at_ + 1) y)) with (take (Z.to_nat at_) b).
  2: { unfold splice. rewrite take_app_le by (rewrite length_take; lia). rewrite take_take. f_equal. lia. }
  cbn [app]. do 2 f_equal. unfold splice. rewrite drop_app_ge by (rewrite length_take; lia). rewrite length_take.
  replace (Z.to_nat at_ + 1 - Z.to_nat (at_ + 1) `min` length b)%nat with O by lia. rewrite drop_0. do 2 f_equal. lia.
Qed.

Lemma close_section_ok b at_ end_ :
  0 <= at_ < end_ -> end_ <= Zlen b ->
  close_section b at_ end_ = Ret (splice b at_ (DHO_END :: replicate (Z.to_nat (end_ - (at_ + 1))) DHO_PAD)).
Proof.
  intros H1 H2. unfold close_section. destruct (Z.ltb_spec (at_ + 1) end_) as [H|H].
  - rewrite memcpy_splice by (unfold Zlen in *; rewrite ?length_replicate; lia). cbn [mbind outcome_bind].
    rewrite wr_splice by (rewrite length_splice; unfold Zlen in *; rewrite ?length_replicate; lia).
    by rewrite splice_cons by (unfold Zlen in *; rewrite ?length_replicate; lia).
  - rewrite (proj2 (Z.leb_gt end_ at_)) by lia. cbn [mbind outcome_bind]. rewrite wr_splice by lia.
    by replace (Z.to_nat (end_ - (at_ + 1))) with O by lia.
Qed.

(** ** The size of the buffer *)

Lemma wr_len b i v b' : wr b i v = Ret b' -> Zlen b' = Zlen b.
Proof. rewrite wr_memcpy. intros H%memcpy_length. unfold Zlen. lia. Qed.

Lemma memcpy_len (b : list Z) i d b' : memcpy b i d = Ret b' -> Zlen b' = Zlen b.
Proof. intros H%memcpy_length. unfold Zlen. lia. Qed.

Lemma store_pieces_len s code od tto is_last fuel : forall w splitup ix length w' b,
  store_pieces fuel s w code od tto is_last splitup ix length = Ret (w', b) -> Zlen (buf w') = Zlen (buf w).
Proof.
  induction fuel as [|fuel IH]; intros w splitup ix length w' b; cbn [store_pieces].
  all: destruct (length =? 0); [by intros [= <- _]|].
  { done. }
  destruct (choose s w is_last splitup length) as [[[sec incr] sp]|]; [|by intros [= <- _]].
  intros (b1 & E1%wr_len & (b2 & E2%wr_len & (b3 & E3 & E)%bind_Ret_inv)%bind_Ret_inv)%bind_Ret_inv.
  apply IH in E. rewrite buf_advance in E. rewrite E, <- E1, <- E2.
  destruct (tto && _).
  - apply bind_Ret_inv in E3 as (b4 & E4 & E3%wr_len). rewrite E3. destruct (1 <? _); [|by injection E4 as <-].
    apply bind_Ret_inv in E4 as (d & _ & E4%memcpy_len). done.
  - by apply bind_Ret_inv in E3 as (d & _ & E3%memcpy_len).
Qed.

Lemma store_list_len evaluate encapsulate join_ok cfg vuname n : forall s w l i k terminate w',
  store_list evaluate encapsulate join_ok cfg vuname n s w l i k terminate = Ret w' -> Zlen (buf w') = Zlen (buf w).
Proof.
  induction n as [|n IH]; intros s w l i k terminate w'; cbn [store_list]; [by intros [= <-]|].
  intros (code & _ & (v & _ & (w1 & E1 & E2)%bind_Ret_inv)%bind_Ret_inv)%bind_Ret_inv. rewrite (IH _ _ _ _ _ _ _ E2).
  destruct v as [[value format]|]; [|by injection E1 as <-]. unfold store_one in E1.
  apply bind_Ret_inv in E1 as ([w2 b] & E%store_pieces_len & E1). by destruct b; injection E1 as <-.
Qed.

Lemma enc_nil opts : Zlen (enc opts) = 0 <-> opts = [].
Proof.
  split; [|by intros ->]. destruct opts as [|o opts]; [done|]. unfold enc, Zlen. cbn. lia.
Qed.

Lemma slice_app_r (a b : list Z) lo n : Zlen a <= lo -> slice (a ++ b) lo n = slice b (lo - Zlen a) n.
Proof. intros H. unfold slice, Zlen in *. rewrite drop_app_ge by lia. do 2 f_equal. lia. Qed.

(** A section that is used ends with an end option and pads. *)
Definition ends (opts : list (Z * list Z)) (field : list Z) : Prop :=
  exists k, field = enc opts ++ DHO_END :: replicate k DHO_PAD.

(** Closing a section: it ends, and what is before and behind it stays. *)
Lemma close_used (b : list Z) (lo n end_ : Z) (opts : list (Z * list Z)) :
  slice b lo n = enc opts -> 0 <= lo -> 0 <= n -> lo + n < end_ -> end_ <= Zlen b ->
  exists b', close_section b (lo + n) end_ = Ret b' /\ Zlen b' = Zlen b /\ ends opts (slice b' lo (end_ - lo)) /\
    (forall lo' n', 0 <= lo' -> 0 <= n' -> lo' + n' <= lo \/ end_ <= lo' -> slice b' lo' n' = slice b lo' n').
Proof.
  intros Es H1 H2 H3 H4. rewrite close_section_ok by lia. eexists. split; [reflexivity|].
  set (x := DHO_END :: _). assert (Zlen x = end_ - (lo + n)) as Ex.
  { unfold x. rewrite Zlen_cons. unfold Zlen. rewrite length_replicate. lia. }
  split; [apply length_splice; lia|]. split.
  - exists (Z.to_nat (end_ - (lo + n + 1))). replace (end_ - lo) with (lo + n - lo + Zlen x) by lia.
    rewrite slice_splice_grow by lia. replace (lo + n - lo) with n by lia. by rewrite Es.
  - intros lo' n' ? ? [?|?]; [apply slice_splice_before; lia|apply slice_splice_after; lia].
Qed.

Section Whole.
Context (evaluate : option_cache -> option (list Z)) (encapsulate : list Z -> option (list Z)) (join_ok : Z -> bool).
Context (cfg : config) (vuname : option string) (terminate : bool).

(** The fields after [store_options]. *)
Record fields_ok (b : list Z) (index main first second len n oc : Z) (c : section -> list (Z * list Z)) : Prop := Fields_ok {
  fo_main : slice b index n = enc (c Main);
  fo_length : n = Zlen (enc (c Main));
  fo_room : index + n <= main /\ (oc <> 0 -> index + n + 3 <= main);
  fo_used : oc = (if bool_decide (c Second = []) then 0 else 1) + (if bool_decide (c Third = []) then 0 else 2);
  fo_second : c Second <> [] -> first <> 0 /\ ends (c Second) (slice b first ((if second =? 0 then len else second) - first));
  fo_third : c Third <> [] -> second <> 0 /\ ends (c Third) (slice b second (len - second))
}.

Lemma store_options_ok buffer index main first second len prio :
  layout index main first second len -> len <= Zlen buffer ->
  values_ok evaluate encapsulate join_ok cfg vuname prio ->
  exists b n oc c,
    store_options evaluate encapsulate join_ok cfg vuname buffer index len first second prio terminate = Ret (b, n, oc) /\
    Zlen b = Zlen buffer /\ take (Z.to_nat index) b = take (Z.to_nat index) buffer /\
    fields_ok b index main first second len n oc c /\
    replied evaluate encapsulate join_ok cfg vuname terminate c prio /\
    (short_values evaluate encapsulate join_ok cfg vuname terminate prio ->
     index + footprints evaluate encapsulate join_ok cfg vuname terminate (remove_dups prio) + 3 < main ->
     complete evaluate encapsulate join_ok cfg vuname terminate c prio /\ oc = 0 /\
     n <= footprints evaluate encapsulate join_ok cfg vuname terminate (remove_dups prio)).
Proof.
  intros Hlay Hlen Hv. pose proof Hlay as [Hi Hm Hl Hf Hs He].
  destruct (set_sections_ok index main first second len Hlay) as [Es So]. unfold store_options. rewrite Es. cbn [mbind outcome_bind].
  set (s := Sections _ _ _ _ _) in *.
  destruct (order_list_ok (length prio) [] prio []) as (L & T & E & HL & HinL); [done|constructor|intros x Hx; by apply elem_of_nil in Hx|].
  rewrite app_nil_r in E. cbn [app] in E. change (Zlen []) with 0 in E. rewrite Z.add_0_l in E. rewrite E. cbn [mbind outcome_bind].
  assert (main <= len) as Hml by (destruct (Z.eqb_spec first 0), (Z.eqb_spec second 0); cbn [andb] in He; destruct Hs; lia).
  set (b0 := drop (Z.to_nat index) buffer). assert (Zlen b0 = Zlen buffer - index) as Eb0 by (unfold b0, Zlen in *; rewrite length_drop; lia).
  destruct (store_list_ok evaluate encapsulate join_ok cfg vuname terminate s L [] T (Stored b0 0 0 0) (fun _ => [])) as (w & c & Ew & Hh & Hrp & Hr & Hcomp);
    [done|done| | | |cbn; lia|].
  { intros code Hc. apply Hv. by apply HinL in Hc. }
  { constructor; cbn; [lia|by intros []|by intros []|].
    intros sec. pose proof (so_start s So sec) as Hst. destruct sec; cbn in *; [lia| |];
      match goal with |- context [if ?b then _ else _] => destruct b; [specialize (Hst eq_refl); lia|done] end. }
  { constructor; [intros o Ho; by apply elem_of_nil in Ho|]. intros code. by left. }
  cbn [app] in Ew. change (Zlen []) with 0 in Ew. rewrite Z.add_0_l in Ew.
  replace (Z.to_nat (Zlen L)) with (length L) by (unfold Zlen; lia). rewrite Ew. cbn [mbind outcome_bind].
  pose proof Hh as [Hz Hsl Hfl Hlm]. pose proof (fill_nonneg s w c) as Hnn.
  assert (six w = 0 <-> c Second = []) as Esix by (rewrite <- enc_nil, (Hfl Second); done).
  assert (tix w = 0 <-> c Third = []) as Etix by (rewrite <- enc_nil, (Hfl Third); done).
  assert (enabled s Second = true -> first <> 0 /\ first_cutoff s = first - index /\ first = main /\
            sbufend s = (if second =? 0 then len else second) - index /\ sbufend s <= buflen s) as Hen2.
  { cbn. destruct (Z.eqb_spec first 0) as [Ef|Ef]; [done|]. destruct Hf as [?|Hf]; [done|]. intros _.
    cbn [orb andb] in *. destruct (second =? 0); split_and!; done || lia. }
  assert (enabled s Third = true -> second <> 0 /\ second_cutoff s = second - index /\ main <= second /\
            (first <> 0 -> main < second)) as Hen3.
  { cbn. destruct (Z.eqb_spec second 0) as [Ef|Ef]; [done|]. intros _. destruct Hs as [?|Hs]; [done|].
    destruct (Z.eqb_spec first 0); cbn [orb]; split_and!; done || lia. }
  assert (bufend s = main - index /\ buflen s = len - index) as [Ebe Ebl] by done.
  assert (enabled s Second = true -> enabled s Third = true -> sbufend s <= second_cutoff s) as H23.
  { intros (_ & _ & _ & -> & _)%Hen2 (Hs0 & -> & _)%Hen3. by rewrite (proj2 (Z.eqb_neq _ _) Hs0). }
  clearbody s.
  set (used1 := negb (first_cutoff s =? 0) && negb (six w =? 0)).
  set (used2 := negb (second_cutoff s =? 0) && negb (tix w =? 0)).
  assert (used1 = negb (bool_decide (c Second = []))) as Eu1.
  { unfold used1. pose proof (Hlm Second) as H2. change (negb (first_cutoff s =? 0)) with (enabled s Second).
    destruct (enabled s Second); cbn [fill andb] in H2 |- *.
    - f_equal. destruct (Z.eqb_spec (six w) 0) as [H0|H0]; [by rewrite bool_decide_true by by apply Esix|].
      rewrite bool_decide_false; [done|]. by intros ?%Esix.
    - by rewrite bool_decide_true by by apply Esix. }
  assert (used2 = negb (bool_decide (c Third = []))) as Eu2.
  { unfold used2. pose proof (Hlm Third) as H3. change (negb (second_cutoff s =? 0)) with (enabled s Third).
    destruct (enabled s Third); cbn [fill andb] in H3 |- *.
    - f_equal. destruct (Z.eqb_spec (tix w) 0) as [H0|H0]; [by rewrite bool_decide_true by by apply Etix|].
      rewrite bool_decide_false; [done|]. by intros ?%Etix.
    - by rewrite bool_decide_true by by apply Etix. }
  clearbody used1 used2. subst used1 used2.
  assert (exists b1, (if negb (bool_decide (c Second = [])) then close_section (buf w) (first_cutoff s + six w) (sbufend s) else Ret (buf w)) = Ret b1 /\
    Zlen b1 = Zlen (buf w) /\ (c Second <> [] -> ends (c Second) (slice b1 (first_cutoff s) (sbufend s - first_cutoff s))) /\
    slice b1 0 (bufix w) = enc (c Main) /\ slice b1 (second_cutoff s) (tix w) = enc (c Third)) as (b1 & -> & El1 & He1 & Hs1 & Ht1).
  { destruct (bool_decide_reflect (c Second = [])) as [Eu|Eu]; cbn [negb].
    { exists (buf w). split_and!; try done; [apply (Hsl Main)|apply (Hsl Third)]. }
    pose proof (Hlm Second) as H2. pose proof (Hlm Third) as H3. pose proof (Hlm Main) as H1.
    destruct (enabled s Second) eqn:Ee2; [|by apply Esix in H2]. pose proof (so_start s So Second Ee2) as Hst. pose proof (so_limit s So Second Ee2) as Hli.
    pose proof (Hnn Main Hh). pose proof (Hnn Second Hh). pose proof (Hnn Third Hh).
    destruct (Hen2 eq_refl) as (Hf0 & Ef1 & Ef2 & Ef3 & Ef4). cbn [start fill limit] in *.
    destruct (close_used (buf w) (first_cutoff s) (six w) (sbufend s) (c Second)) as (b1 & E1 & El1 & He1 & Hk1); try lia; [apply (Hsl Second)|].
    exists b1. split_and!; try done; [rewrite Hk1 by (cbn in H1; lia); apply (Hsl Main)|].
    destruct (enabled s Third) eqn:Ee3; [|by rewrite (proj1 Etix H3), H3].
    pose proof (so_start s So Third Ee3). cbn [start] in *. rewrite Hk1; [apply (Hsl Third)|lia|lia|]. right. by apply H23. }
  cbn [mbind outcome_bind].
  assert (exists b2, (if negb (bool_decide (c Third = [])) then close_section b1 (second_cutoff s + tix w) (buflen s) else Ret b1) = Ret b2 /\
    Zlen b2 = Zlen (buf w) /\ (c Third <> [] -> ends (c Third) (slice b2 (second_cutoff s) (buflen s - second_cutoff s))) /\
    (c Second <> [] -> ends (c Second) (slice b2 (first_cutoff s) (sbufend s - first_cutoff s))) /\
    slice b2 0 (bufix w) = enc (c Main)) as (b2 & -> & El2 & He2 & He3 & Hs2).
  { destruct (bool_decide_reflect (c Third = [])) as [Eu|Eu]; cbn [negb].
    { by exists b1. }
    pose proof (Hlm Second) as H2. pose proof (Hlm Third) as H3. pose proof (Hlm Main) as H1.
    destruct (enabled s Third) eqn:Ee3; [|by apply Etix in H3]. pose proof (so_start s So Third Ee3) as Hst. pose proof (so_limit s So Third Ee3) as Hli.
    pose proof (Hnn Main Hh). pose proof (Hnn Second Hh). pose proof (Hnn Third Hh).
    destruct (Hen3 eq_refl) as (Hf0 & Ef1 & Ef2 & Ef3). cbn [start fill limit enabled] in H1, Hst, Hli, H3.
    destruct (close_used b1 (second_cutoff s) (tix w) (buflen s) (c Third)) as (b2 & E2 & El2 & He2 & Hk2); try (cbn [fill] in *; lia); [done|].
    exists b2. split_and!; try done; [congruence| |].
    - intros Hc2. destruct (enabled s Second) eqn:Ee2; [|by apply Esix in H2].
      pose proof (so_start s So Second Ee2). pose proof (H23 eq_refl eq_refl). cbn [start limit] in *. rewrite Hk2 by lia. by apply He1.
    - cbn [fill] in *. rewrite Hk2 by lia. done. }
  cbn [mbind outcome_bind].
  assert ((negb (six w =? 0) || negb (tix w =? 0)) && (bufend s <? bufix w + 3) = false) as ->.
  { destruct Hr as [Hr|[-> ->]]; [|done]. rewrite (proj2 (Z.ltb_ge _ _)) by lia. apply andb_false_r. }
  set (hd := take (Z.to_nat index) buffer).
  assert (Zlen hd = index) as Ehd by (unfold hd, Zlen in *; rewrite length_take; lia).
  assert (Zlen (buf w) = Zlen b0) as Ebw by (apply (store_list_len _ _ _ _ _ _ _ _ _ _ _ _ _ Ew)).
  do 4 eexists. split; [reflexivity|]. split_and!.
  - rewrite Zlen_app. lia.
  - rewrite take_app_le by (unfold Zlen in Ehd; lia). unfold hd. rewrite take_take. f_equal. lia.
  - pose proof (Hlm Main) as H1. cbn [enabled start fill limit] in H1. constructor.
    + rewrite slice_app_r, Ehd, Z.sub_diag by lia. done.
    + symmetry. apply (Hfl Main).
    + split; [lia|]. intros Hoc. destruct Hr as [Hr|[H2%Esix H3%Etix]]; [lia|]. rewrite !bool_decide_true in Hoc by done. done.
    + by destruct (bool_decide (c Second = [])), (bool_decide (c Third = [])).
    + intros Hc2. pose proof (Hlm Second) as H2. destruct (enabled s Second) eqn:Ee2; [|by apply Esix in H2].
      destruct (Hen2 eq_refl) as (Hf0 & Ef1 & Ef2 & Ef3 & Ef4). split; [done|]. rewrite slice_app_r, Ehd by lia.
      replace (first - index) with (first_cutoff s) by lia. specialize (He3 Hc2).
      replace (sbufend s - first_cutoff s) with ((if second =? 0 then len else second) - first) in He3 by lia. done.
    + intros Hc3. pose proof (Hlm Third) as H3. destruct (enabled s Third) eqn:Ee3; [|by apply Etix in H3].
      destruct (Hen3 eq_refl) as (Hf0 & Ef1 & Ef2 & Ef3). split; [done|]. rewrite slice_app_r, Ehd by lia.
      replace (second - index) with (second_cutoff s) by lia. specialize (He2 Hc3).
      replace (buflen s - second_cutoff s) with (len - second) in He2 by lia. done.
  - destruct Hrp as [Hr1 Hr2]. constructor; [|done]. intros o Ho. destruct (Hr1 o Ho) as (Ho1 & ? & ?). split; [|done].
    by apply HinL in Ho1.
  - intros Hsv Hroom.
    assert (Permutation L (remove_dups prio)) as HpL.
    { apply NoDup_Permutation; [done|apply NoDup_remove_dups|]. intros x. by rewrite elem_of_remove_dups, HinL. }
    rewrite (footprints_perm _ _ _ _ _ _ L (remove_dups prio) HpL) in Hcomp.
    destruct Hcomp as (Hcm & Hle & H2%Esix & H3%Etix).
    + intros ? ? Hn. by apply elem_of_nil in Hn.
    + intros code' v' Hc'%HinL. by apply Hsv.
    + cbn [bufix]. lia.
    + rewrite !bool_decide_true by done. split_and!; [|done..]. intros code v Hin%HinL. by apply Hcm.
Qed.

End Whole.

End OptionStore.
