(* ===== verification/NsName.v ===== *)
(** * Domain names (common/ns_name.c)

    Names between their three forms: printable text, the wire format of a
    sequence of labels that ends in the root, and the wire format in a message,
    where the end of a name can be a pointer to an earlier one.

    Pointers are positions: into the message for [msg], into a buffer that starts
    with the destination for [dst].  A text is the list of its characters, as
    octets, up to the NUL, which a zero in the list stands for as well.  [None] is
    the result -1. *)

From Stdlib Require Import ZArith Lia.
From stdpp Require Import base list numbers option.
From S2P Require Import Prelude.
From S2P Require Import Options.
From S2P Require Import OptionStore.
#[local] Open Scope Z_scope.

Module NsName.

Export OptionStore.

Definition NS_CMPRSFLGS : Z := 192.
Definition NS_MAXCDNAME : Z := 255.

Definition dot : Z := 46.
Definition backslash : Z := 92.
Definition comma : Z := 44.

(** ** Characters *)

Definition special (ch : Z) : bool :=
  (ch =? 34) || (ch =? 46) || (ch =? 59) || (ch =? 92) || (ch =? 64) || (ch =? 36).

Definition printable (ch : Z) : bool := (32 <? ch) && (ch <? 127).

Definition mklower (ch : Z) : Z := if (65 <=? ch) && (ch <=? 90) then ch + 32 else ch.

(** [digits[i]], and the place of a character in [digits]. *)
Definition digit (i : Z) : Z := 48 + i.
Definition digit_value (ch : Z) : option Z := if (48 <=? ch) && (ch <=? 57) then Some (ch - 48) else None.

Definition compressed (n : Z) : bool := negb (Z.land n NS_CMPRSFLGS =? 0).

(** ** From the wire to text *)

(** The text of one octet. *)
Definition ntop_char (c : Z) (dst : list Z) (dn dstsiz : Z) : outcome (option (list Z * Z)) :=
  if special c then
    if dstsiz <=? dn + 1 then Ret None
    else d ← wr dst dn backslash; d ← wr d (dn + 1) c; Ret (Some (d, dn + 2))
  else if negb (printable c) then
    if dstsiz <=? dn + 3 then Ret None
    else
      d ← wr dst dn backslash;
      d ← wr d (dn + 1) (digit (c / 100));
      d ← wr d (dn + 2) (digit (c mod 100 / 10));
      d ← wr d (dn + 3) (digit (c mod 10));
      Ret (Some (d, dn + 4))
  else if dstsiz <=? dn then Ret None
  else d ← wr dst dn c; Ret (Some (d, dn + 1)).

(** The text of [n] octets from [cp] on. *)
Fixpoint ntop_label (n : nat) (src : list Z) (cp : Z) (dst : list Z) (dn dstsiz : Z) : outcome (option (list Z * Z)) :=
  match n with
  | O => Ret (Some (dst, dn))
  | S n =>
    c ← rd src cp;
    r ← ntop_char c dst dn dstsiz;
    match r with
    | None => Ret None
    | Some (dst, dn) => ntop_label n src (cp + 1) dst dn dstsiz
    end
  end.

Fixpoint ntop_loop (fuel : nat) (src : list Z) (cp : Z) (dst : list Z) (dn dstsiz : Z) : outcome (option (list Z * Z)) :=
  match fuel with
  | O => Undef
  | S fuel =>
    n ← rd src cp;
    if n =? 0 then Ret (Some (dst, dn))
    else if compressed n then Ret None
    else if negb (dn =? 0) && (dstsiz <=? dn) then Ret None
    else
      r ← if dn =? 0 then Ret (dst, dn) else d ← wr dst dn dot; Ret (d, dn + 1);
      let '(dst, dn) := r in
      if dstsiz <=? dn + n then Ret None
      else
        r ← ntop_label (Z.to_nat n) src (cp + 1) dst dn dstsiz;
        match r with
        | None => Ret None
        | Some (dst, dn) => ntop_loop fuel src (cp + 1 + n) dst dn dstsiz
        end
  end.

(** [MRns_name_ntop]: the text with its NUL in [dst], and its length with the NUL. *)
Definition MRns_name_ntop (src dst : list Z) (dstsiz : Z) : outcome (option (list Z * Z)) :=
  r ← ntop_loop (length src) src 0 dst 0 dstsiz;
  match r with
  | None => Ret None
  | Some (dst, dn) =>
    if (dn =? 0) && (dstsiz <=? dn) then Ret None
    else
      r ← if dn =? 0 then d ← wr dst dn dot; Ret (d, dn + 1) else Ret (dst, dn);
      let '(dst, dn) := r in
      if dstsiz <=? dn then Ret None
      else d ← wr dst dn 0; Ret (Some (d, dn + 1))
  end.

(** ** From text to the wire *)

(** The end of a text: [c] is the length of the last label. *)
Definition pton_end (dst : list Z) (label bp dstsiz : Z) (qualified : bool) : outcome (option (list Z * Z * bool)) :=
  let c := bp - label - 1 in
  if compressed c then Ret None
  else if dstsiz <=? label then Ret None
  else
    d ← wr dst label (u8 c);
    if negb (c =? 0) && (dstsiz <=? bp) then Ret None
    else
      r ← if c =? 0 then Ret (d, bp) else d ← wr d bp 0; Ret (d, bp + 1);
      let '(d, bp) := r in
      if NS_MAXCDNAME <? bp then Ret None else Ret (Some (d, bp, qualified)).

(** The loop of [MRns_name_pton].  The result is the buffer, the length of the name
    and whether the text was fully qualified. *)
Fixpoint pton_loop (src dst : list Z) (label bp dstsiz : Z) (escaped : bool) {struct src} : outcome (option (list Z * Z * bool)) :=
  match src with
  | [] | 0 :: _ => pton_end dst label bp dstsiz false
  | c :: src =>
    if escaped then
      match digit_value c with
      | None =>
        if dstsiz <=? bp then Ret None
        else d ← wr dst bp c; pton_loop src d label (bp + 1) dstsiz false
      | Some n1 =>
        match src with
        | [] => Ret None
        | c2 :: src =>
          match digit_value c2 with
          | None => Ret None
          | Some n2 =>
            match src with
            | [] => Ret None
            | c3 :: src =>
              match digit_value c3 with
              | None => Ret None
              | Some n3 =>
                let n := n1 * 100 + n2 * 10 + n3 in
                if 255 <? n then Ret None
                else if dstsiz <=? bp then Ret None
                else d ← wr dst bp n; pton_loop src d label (bp + 1) dstsiz false
              end
            end
          end
        end
      end
    else if c =? backslash then pton_loop src dst label bp dstsiz true
    else if c =? dot then
      let c := bp - label - 1 in
      if compressed c then Ret None
      else if dstsiz <=? label then Ret None
      else
        match src with
        | [] | 0 :: _ => pton_end dst label bp dstsiz true
        | x :: _ =>
          d ← wr dst label (u8 c);
          if (c =? 0) || (x =? dot) then Ret None
          else pton_loop src d bp (bp + 1) dstsiz false
        end
    else if dstsiz <=? bp then Ret None
    else d ← wr dst bp c; pton_loop src d label (bp + 1) dstsiz false
  end.

Definition MRns_name_pton (src dst : list Z) (dstsiz : Z) : outcome (option (list Z * Z * bool)) :=
  pton_loop src dst 0 1 dstsiz false.

(** ** Lower case *)

(** [n] octets from [cp] on. *)
Fixpoint ntol_label (n : nat) (src : list Z) (cp : Z) (dst : list Z) (dn : Z) : outcome (list Z) :=
  match n with
  | O => Ret dst
  | S n => c ← rd src cp; d ← wr dst dn (mklower c); ntol_label n src (cp + 1) d (dn + 1)
  end.

Fixpoint ntol_loop (fuel : nat) (src : list Z) (cp : Z) (dst : list Z) (dn dstsiz : Z) : outcome (option (list Z * Z)) :=
  match fuel with
  | O => Undef
  | S fuel =>
    n ← rd src cp;
    if n =? 0 then d ← wr dst dn 0; Ret (Some (d, dn + 1))
    else if compressed n then Ret None
    else
      d ← wr dst dn n;
      if dstsiz <=? dn + 1 + n then Ret None
      else d ← ntol_label (Z.to_nat n) src (cp + 1) d (dn + 1); ntol_loop fuel src (cp + 1 + n) d (dn + 1 + n) dstsiz
  end.

Definition MRns_name_ntol (src dst : list Z) (dstsiz : Z) : outcome (option (list Z * Z)) :=
  if dstsiz <=? 0 then Ret None else ntol_loop (length src) src 0 dst 0 dstsiz.

(** ** Names in messages *)

(** The loop of [MRns_name_unpack]; [len] is the number of octets consumed, once a
    pointer has been followed. *)
Fixpoint unpack_loop (fuel : nat) (msg : list Z) (src srcp : Z) (dst : list Z) (dstp dstsiz : Z) (len : option Z) (checked : Z)
  : outcome (option (list Z * Z)) :=
  match fuel with
  | O => Undef
  | S fuel =>
    n ← rd msg srcp;
    let srcp := srcp + 1 in
    if n =? 0 then
      d ← wr dst dstp 0;
      Ret (Some (d, default (srcp - src) len))
    else if Z.land n NS_CMPRSFLGS =? 0 then
      if (dstsiz <=? dstp + n + 1) || (Zlen msg <=? srcp + n) then Ret None
      else
        d ← wr dst dstp n;
        x ← memread msg srcp n;
        d ← memcpy d (dstp + 1) x;
        unpack_loop fuel msg src (srcp + n) d (dstp + 1 + n) dstsiz len (checked + n + 1)
    else if Z.land n NS_CMPRSFLGS =? NS_CMPRSFLGS then
      if Zlen msg <=? srcp then Ret None
      else
        x ← rd msg srcp;
        let len := match len with None => Some (srcp - src + 1) | Some _ => len end in
        let srcp := Z.lor (Z.shiftl (Z.land n 63) 8) (Z.land x 255) in
        if Zlen msg <=? srcp then Ret None
        else if Zlen msg <=? checked + 2 then Ret None
        else unpack_loop fuel msg src srcp dst dstp dstsiz len (checked + 2)
    else Ret None
  end.

(** [MRns_name_unpack]: the name in [dst] and the octets consumed. *)
Definition MRns_name_unpack (msg : list Z) (src : Z) (dst : list Z) (dstsiz : Z) : outcome (option (list Z * Z)) :=
  if (src <? 0) || (Zlen msg <=? src) then Ret None
  else unpack_loop (length msg + Z.to_nat dstsiz + 1) msg src src dst 0 dstsiz None 0.

(** Whether [n] octets are the same up to case. *)
Fixpoint same_label (n : nat) (domain : list Z) (dn : Z) (msg : list Z) (cp : Z) : outcome bool :=
  match n with
  | O => Ret true
  | S n =>
    x ← rd domain dn;
    y ← rd msg cp;
    if mklower x =? mklower y then same_label n domain (dn + 1) msg (cp + 1) else Ret false
  end.

(** Comparing the name in [domain] from [dn] on with the one in the message from
    [cp] on: [None] for a message that is malformed. *)
Fixpoint dn_compare (fuel : nat) (domain : list Z) (dn : Z) (msg : list Z) (cp : Z) : outcome (option bool) :=
  match fuel with
  | O => Undef
  | S fuel =>
    n ← rd msg cp;
    let cp := cp + 1 in
    if n =? 0 then Ret (Some false)
    else if Z.land n NS_CMPRSFLGS =? 0 then
      m ← rd domain dn;
      if negb (n =? m) then Ret (Some false)
      else
        same ← same_label (Z.to_nat n) domain (dn + 1) msg cp;
        if negb same then Ret (Some false)
        else
          let dn := dn + 1 + n in
          let cp := cp + n in
          x ← rd domain dn;
          y ← rd msg cp;
          if (x =? 0) && (y =? 0) then Ret (Some true)
          else if negb (x =? 0) then dn_compare fuel domain dn msg cp
          else Ret (Some false)
    else if Z.land n NS_CMPRSFLGS =? NS_CMPRSFLGS then
      x ← rd msg cp;
      dn_compare fuel domain dn msg (Z.lor (Z.shiftl (Z.land n 63) 8) x)
    else Ret None
  end.

(** [dn_find]: the place of the first of the names [dnptrs] that is the same. *)
Fixpoint dn_find (fuel : nat) (domain : list Z) (dn : Z) (msg : list Z) (dnptrs : list Z) : outcome (option Z) :=
  match dnptrs with
  | [] => Ret None
  | sp :: dnptrs =>
    r ← dn_compare fuel domain dn msg sp;
    match r with
    | None => Ret None
    | Some true => Ret (Some sp)
    | Some false => dn_find fuel domain dn msg dnptrs
    end
  end.

(** The first loop of [MRns_name_pack]: whether the name is legal. *)
Fixpoint legal_loop (fuel : nat) (src : list Z) (srcp l : Z) : outcome bool :=
  match fuel with
  | O => Undef
  | S fuel =>
    n ← rd src srcp;
    if compressed n then Ret false
    else if NS_MAXCDNAME <? l + n + 1 then Ret false
    else if n =? 0 then Ret true
    else legal_loop fuel src (srcp + n + 1) (l + n + 1)
  end.

(** The second loop.  [b] is the message, with [dst] somewhere in it; [eob] is the
    end of the destination.  [search] are the pointers of earlier names, [None] when
    names are not compressed; [saved] the list as it grows and [last] the number
    of pointers it can hold. *)
Fixpoint pack_loop (fuel : nat) (src : list Z) (srcp : Z) (b : list Z) (dst dstp eob : Z) (search : option (list Z)) (saved : list Z) (last : option Z)
  : outcome (list Z * list Z * option Z) :=
  match fuel with
  | O => Undef
  | S fuel =>
    n ← rd src srcp;
    found ← match search with
            | Some ptrs => if n =? 0 then Ret None else dn_find (length b + length src) src srcp b ptrs
            | None => Ret None
            end;
    match found with
    | Some l =>
      if eob <=? dstp + 1 then Ret (b, default [] search, None)
      else
        b ← wr b dstp (u8 (Z.lor (Z.shiftr l 8) NS_CMPRSFLGS));
        b ← wr b (dstp + 1) (l mod 256);
        Ret (b, saved, Some (dstp + 2 - dst))
    | None =>
      let saved :=
        match search, last with
        | Some _, Some last =>
          if negb (n =? 0) && (1 + Zlen saved <? last - 1) && (dstp <? 16384) then saved ++ [dstp] else saved
        | _, _ => saved
        end in
      if compressed n then Ret (b, default [] search, None)
      else if eob <=? dstp + 1 + n then Ret (b, default [] search, None)
      else
        x ← memread src srcp (n + 1);
        b ← memcpy b dstp x;
        if n =? 0 then
          if eob <? dstp + 1 then Ret (b, default [] search, None) else Ret (b, saved, Some (dstp + 1 - dst))
        else pack_loop fuel src (srcp + n + 1) b dst (dstp + n + 1) eob search saved last
    end
  end.

(** [MRns_name_pack]: the message, the pointers and the size of the name. *)
Definition MRns_name_pack (src b : list Z) (dst dstsiz : Z) (dnptrs : option (list Z)) (last : option Z)
  : outcome (list Z * list Z * option Z) :=
  legal ← legal_loop (length src) src 0 0;
  if negb legal then Ret (b, default [] dnptrs, None)
  else pack_loop (length src) src 0 b dst dst (dst + dstsiz) dnptrs (default [] dnptrs) last.

(** [MRns_name_skip]: the place after the name. *)
Fixpoint skip_loop (fuel : nat) (msg : list Z) (cp : Z) : outcome (option Z) :=
  match fuel with
  | O => Undef
  | S fuel =>
    if Zlen msg <=? cp then Ret (if Zlen msg <? cp then None else Some cp)
    else
      n ← rd msg cp;
      let cp := cp + 1 in
      if n =? 0 then Ret (Some cp)
      else if Z.land n NS_CMPRSFLGS =? 0 then skip_loop fuel msg (cp + n)
      else if Z.land n NS_CMPRSFLGS =? NS_CMPRSFLGS then Ret (if Zlen msg <? cp + 1 then None else Some (cp + 1))
      else Ret None
  end.

Definition MRns_name_skip (msg : list Z) (cp : Z) : outcome (option Z) := skip_loop (S (length msg)) msg cp.

(** ** Text and messages *)

(** [MRns_name_uncompress]: the text in [dst] and the octets consumed. *)
Definition MRns_name_uncompress (msg : list Z) (src : Z) (dst : list Z) (dstsiz : Z) : outcome (option (list Z * Z)) :=
  r ← MRns_name_unpack msg src (replicate (Z.to_nat NS_MAXCDNAME) 0) NS_MAXCDNAME;
  match r with
  | None => Ret None
  | Some (tmp, n) =>
    r ← MRns_name_ntop tmp dst dstsiz;
    Ret match r with None => None | Some (dst, _) => Some (dst, n) end
  end.

Definition MRns_name_compress (src b : list Z) (dst dstsiz : Z) (dnptrs : option (list Z)) (last : option Z)
  : outcome (list Z * list Z * option Z) :=
  r ← MRns_name_pton src (replicate (Z.to_nat NS_MAXCDNAME) 0) NS_MAXCDNAME;
  match r with
  | None => Ret (b, default [] dnptrs, None)
  | Some (tmp, _, _) => MRns_name_pack tmp b dst dstsiz dnptrs last
  end.

(** ** Lists of names *)

(** [strlen (s)]. *)
Fixpoint strlen (s : list Z) : outcome Z :=
  match s with
  | [] => Undef
  | c :: s => if c =? 0 then Ret 0 else n ← strlen s; Ret (n + 1)
  end.

(** [strchr (s, c) - s]. *)
Fixpoint strchr_at (s : list Z) (c : Z) : outcome (option Z) :=
  match s with
  | [] => Undef
  | x :: s => if x =? c then Ret (Some 0) else if x =? 0 then Ret None else r ← strchr_at s c; Ret (option_map (fun n => n + 1) r)
  end.

(** The loop of [MRns_name_uncompress_list]: [dst] is the place in [dst_buf]. *)
Fixpoint uncompress_loop (fuel : nat) (buf : list Z) (src : Z) (dst_buf : list Z) (dst dst_remaining : Z) (first_pass : bool)
  : outcome (option (list Z * Z)) :=
  if Zlen buf <=? src then Ret (Some (dst_buf, dst))
  else
    match fuel with
    | O => Undef
    | S fuel =>
      if dst_remaining <=? 0 then Ret None
      else
        r ← if first_pass then Ret (dst_buf, dst, dst_remaining)
            else d ← wr dst_buf dst comma; d ← wr d (dst + 1) 0; Ret (d, dst + 1, dst_remaining - 1);
        let '(dst_buf, dst, dst_remaining) := r in
        r ← MRns_name_uncompress buf src (drop (Z.to_nat dst) dst_buf) dst_remaining;
        match r with
        | None => Ret None
        | Some (d, consumed) =>
          let dst_buf := take (Z.to_nat dst) dst_buf ++ d in
          added_len ← strlen d;
          uncompress_loop fuel buf (src + consumed) dst_buf (dst + added_len) (dst_remaining - added_len) false
        end
    end.

(** [MRns_name_uncompress_list]: the text, and its length. *)
Definition MRns_name_uncompress_list (buf dst_buf : list Z) (dst_size : Z) : outcome (option (list Z * Z)) :=
  match buf with
  | [] | 0 :: _ => d ← wr dst_buf 0 0; Ret (Some (d, 0))
  | _ =>
    r ← uncompress_loop (length buf) buf 0 dst_buf 0 dst_size true;
    match r with
    | None => Ret None
    | Some (d, dst) => d ← wr d dst 0; n ← strlen d; Ret (Some (d, n))
    end
  end.

(** The loop of [MRns_name_compress_list]; [buf] holds a NUL. *)
Fixpoint compress_loop (fuel : nat) (buf : list Z) (buflen src : Z) (compbuf : list Z) (size clen : Z) (dnptrs : list Z)
  : outcome (list Z * option Z) :=
  if buflen <=? src then Ret (compbuf, Some clen)
  else
    match fuel with
    | O => Undef
    | S fuel =>
      let rest := drop (Z.to_nat src) buf in
      c ← strchr_at rest comma;
      copylen ← match c with Some n => Ret n | None => strlen rest end;
      if NS_MAXCDNAME - 1 <? copylen then Ret (compbuf, None)
      else
        cur_name ← memread buf src copylen;
        r ← MRns_name_compress cur_name compbuf clen (size - clen) (Some dnptrs) (Some 255);
        match r with
        | (compbuf, _, None) => Ret (compbuf, None)
        | (compbuf, dnptrs, Some result) => compress_loop fuel buf buflen (src + copylen + 1) compbuf size (clen + result) dnptrs
        end
    end.

(** [MRns_name_compress_list]: the message, and its length. *)
Definition MRns_name_compress_list (buf : list Z) (buflen size : Z) : outcome (list Z * option Z) :=
  compress_loop (Z.to_nat buflen) buf buflen 0 (replicate (Z.to_nat size) 0) size 0 [].

(** The example of the comments of the two functions. *)
Example one_two_three_four :
  let text := [111; 110; 101; 46; 116; 119; 111; 46; 99; 111; 109; 44; 116; 104; 114; 101; 101; 46; 102; 111; 117; 114; 46; 99; 111; 109] in
  let wire := [3; 111; 110; 101; 3; 116; 119; 111; 3; 99; 111; 109; 0; 5; 116; 104; 114; 101; 101; 4; 102; 111; 117; 114; 192; 8] in
  (r ← MRns_name_compress_list (text ++ [0]) 26 100; Ret (take 26 (r.1), r.2)) = Ret (wire, Some 26) /\
  (r ← MRns_name_uncompress_list wire (replicate 100 7) 100; Ret (option_map (fun p => (take 27 (p.1), p.2)) r)) = Ret (Some (text ++ [0], 26)).
Proof. by vm_compute. Qed.

(** A list whose text fills the buffer to its last octet but one is continued one
    octet past its end. *)
Example list_overflows :
  MRns_name_uncompress_list [1; 97; 0; 1; 98; 0] (replicate 2 0) 2 = Undef.
Proof. by vm_compute. Qed.

(** ** Names as labels *)

Definition label_ok (l : list Z) : Prop := is_bytes l /\ 1 <= Zlen l <= 63.

Definition label_octets (l : list Z) : list Z := Zlen l :: l.

Definition labels_octets (ls : list (list Z)) : list Z := concat (map label_octets ls).

(** A name on the wire. *)
Definition wire (ls : list (list Z)) : list Z := labels_octets ls ++ [0].

Lemma labels_octets_app ls ls' : labels_octets (ls ++ ls') = labels_octets ls ++ labels_octets ls'.
Proof. unfold labels_octets. by rewrite map_app, concat_app. Qed.

Lemma labels_octets_cons l ls : labels_octets (l :: ls) = label_octets l ++ labels_octets ls.
Proof. done. Qed.

Lemma labels_octets_snoc ls l : labels_octets (ls ++ [l]) = labels_octets ls ++ label_octets l.
Proof. rewrite labels_octets_app. unfold labels_octets at 2. cbn [map concat]. by rewrite app_nil_r. Qed.

Lemma wire_cons l ls : wire (l :: ls) = label_octets l ++ wire ls.
Proof. unfold wire. by rewrite labels_octets_cons, <- app_assoc. Qed.

Lemma label_octets_length l : Zlen (label_octets l) = Zlen l + 1.
Proof. unfold label_octets. rewrite Zlen_cons. lia. Qed.

Lemma land_flags_low n : 0 <= n < 64 -> Z.land n NS_CMPRSFLGS = 0.
Proof.
  intros H. unfold NS_CMPRSFLGS. rewrite <- (Z.mod_small n (2 ^ 6)) by lia. rewrite <- Z.land_ones by lia.
  rewrite <- Z.land_assoc. by rewrite Z.land_0_r.
Qed.

Lemma land_flags_byte n : is_byte n -> Z.land n NS_CMPRSFLGS = 0 -> n < 64.
Proof.
  intros Hn. assert (forall n, is_byte n -> (Z.land n NS_CMPRSFLGS =? 0) = (n <? 64)) as H.
  { intros m Hm. apply Bool.eqb_prop. revert m Hm. apply (byte_forall (fun m => Bool.eqb (Z.land m NS_CMPRSFLGS =? 0) (m <? 64))). by vm_compute. }
  specialize (H n Hn). intros E. rewrite E in H. cbn in H. by apply Z.ltb_lt.
Qed.

(** ** Unpacking any message *)

(** What has been written so far: the labels [ls]. *)
Record unpacked (ls : list (list Z)) (dst d : list Z) (dstp : Z) : Prop := Unpacked {
  un_labels : Forall label_ok ls;
  un_dst : d = splice dst 0 (labels_octets ls);
  un_dstp : dstp = Zlen (labels_octets ls)
}.

Lemma splice_0_extend (dst x y : list Z) : Zlen x + Zlen y <= Zlen dst -> splice (splice dst 0 x) (Zlen x) y = splice dst 0 (x ++ y).
Proof. intros H. rewrite <- (splice_splice dst 0 x y); [f_equal; lia|lia|lia]. Qed.

Lemma unpack_loop_total fuel : forall msg src srcp dst d dstp dstsiz len checked ls,
  is_bytes msg -> 0 <= src -> 0 <= srcp < Zlen msg -> dstsiz <= Zlen dst -> unpacked ls dst d dstp -> dstp < dstsiz -> 0 <= checked ->
  match len with None => src <= srcp | Some n => 1 <= n <= Zlen msg - src end ->
  dstsiz - dstp + Z.max 0 (Zlen msg - checked) < Z.of_nat fuel ->
  exists r, unpack_loop fuel msg src srcp d dstp dstsiz len checked = Ret r /\
    match r with
    | None => True
    | Some (d', n) => 1 <= n <= Zlen msg - src /\ exists ls', Forall label_ok ls' /\ d' = splice dst 0 (wire ls') /\ Zlen (wire ls') <= dstsiz
    end.
Proof.
  induction fuel as [|fuel IH]; intros msg src srcp dst d dstp dstsiz len checked ls Hm Hsrc Hsp Hdst Hu Hd Hch Hlen Hf; [lia|].
  cbn [unpack_loop]. rewrite (rd_in msg srcp) by lia. cbn [mbind outcome_bind]. pose proof (nthZ_byte msg srcp Hm) as Hn. set (n := nthZ msg srcp) in *.
  destruct Hu as [Hls -> ->]. pose proof (Zlen_nonneg (labels_octets ls)).
  destruct (Z.eqb_spec n 0) as [_|Hn0].
  { rewrite wr_splice by (rewrite length_splice; lia). cbn [mbind outcome_bind]. eexists. split; [done|]. split; [destruct len; cbn; lia|].
    exists ls. unfold wire. rewrite Zlen_app. change (Zlen [0]) with 1. split_and!; [done| |lia]. apply splice_0_extend. change (Zlen [0]) with 1. lia. }
  destruct (Z.eqb_spec (Z.land n NS_CMPRSFLGS) 0) as [Hc|_].
  - apply land_flags_byte in Hc; [|done]. unfold is_byte in Hn.
    destruct (_ || _) eqn:E; [by exists None|]. apply orb_false_iff in E as [E1%Z.leb_gt E2%Z.leb_gt].
    rewrite wr_splice by (rewrite length_splice; lia). cbn [mbind outcome_bind]. rewrite memread_in by lia. cbn [mbind outcome_bind].
    set (l := take _ (drop _ msg)). assert (Zlen l = n) as El by (unfold l, Zlen in *; rewrite length_take, length_drop; lia).
    rewrite splice_0_extend by (change (Zlen [n]) with 1; lia).
    rewrite memcpy_splice; [|lia|rewrite length_splice; rewrite ?Zlen_app; change (Zlen [n]) with 1; lia].
    replace (Zlen (labels_octets ls) + 1) with (Zlen (labels_octets ls ++ [n])) by (by rewrite Zlen_app).
    rewrite splice_0_extend by (rewrite Zlen_app; change (Zlen [n]) with 1; lia). cbn [mbind outcome_bind].
    apply (IH _ _ _ dst _ _ _ _ _ (ls ++ [l])); try done; try lia.
    + constructor.
      * apply Forall_app. split; [done|]. constructor; [|done]. split; [unfold l; auto with dhcp|lia].
      * rewrite labels_octets_snoc. unfold label_octets. rewrite El. by rewrite <- app_assoc.
      * rewrite labels_octets_snoc, !Zlen_app, label_octets_length. change (Zlen [n]) with 1. lia.
    + rewrite Zlen_app. change (Zlen [n]) with 1. lia.
    + destruct len; lia.
    + rewrite Zlen_app. change (Zlen [n]) with 1. lia.
  - destruct (Z.land n NS_CMPRSFLGS =? NS_CMPRSFLGS); [|by exists None]. destruct (Z.leb_spec (Zlen msg) (srcp + 1)); [by exists None|].
    rewrite rd_in by lia. cbn [mbind outcome_bind]. cbn zeta. set (t := Z.lor _ _).
    assert (0 <= t) by (unfold t; rewrite Z.lor_nonneg, Z.shiftl_nonneg, !Z.land_nonneg; lia).
    destruct (Z.leb_spec (Zlen msg) t); [by exists None|]. destruct (Z.leb_spec (Zlen msg) (checked + 2)); [by exists None|].
    apply (IH _ _ _ dst _ _ _ _ _ ls); try done; try lia. destruct len; lia.
Qed.

(** C24: Unpacking ends, within the message and the destination, whatever the message
    holds, also when its pointers form a loop; and what it unpacks is a name on the
    wire, with labels of at most 63 octets, that fits into the destination. *)
Theorem unpack_terminates msg src dst dstsiz :
  is_bytes msg -> 1 <= dstsiz <= Zlen dst ->
  exists r, MRns_name_unpack msg src dst dstsiz = Ret r /\
    match r with
    | None => True
    | Some (d, n) => 1 <= n <= Zlen msg - src /\ exists ls, Forall label_ok ls /\ d = splice dst 0 (wire ls) /\ Zlen (wire ls) <= dstsiz
    end.
Proof.
  intros Hm Hd. unfold MRns_name_unpack. destruct (Z.ltb_spec src 0); [by exists None|]. destruct (Z.leb_spec (Zlen msg) src); [by exists None|]. cbn [orb].
  apply (unpack_loop_total _ msg src src dst dst 0 dstsiz None 0 []); try done; try lia. unfold Zlen in *. lia.
Qed.

(** ** Names as text *)

Definition char_text (c : Z) : list Z :=
  if special c then [backslash; c]
  else if printable c then [c]
  else [backslash; digit (c / 100); digit (c mod 100 / 10); digit (c mod 10)].

Definition label_text (l : list Z) : list Z := concat (map char_text l).

(** The labels after the first. *)
Definition dotted (ls : list (list Z)) : list Z := concat (map (fun l => dot :: label_text l) ls).

Definition name_text (ls : list (list Z)) : list Z := match ls with [] => [dot] | l :: ls => label_text l ++ dotted ls end.

Lemma char_text_length c : 1 <= Zlen (char_text c).
Proof. unfold char_text. destruct (special c), (printable c); vm_compute; done. Qed.

Lemma label_text_cons c l : label_text (c :: l) = char_text c ++ label_text l.
Proof. done. Qed.

Lemma label_text_length l : Zlen l <= Zlen (label_text l).
Proof.
  induction l as [|c l IH]; [done|]. rewrite label_text_cons, Zlen_app, Zlen_cons. pose proof (char_text_length c). lia.
Qed.

(** Writing at the end of what has been written. *)
Lemma wr_extend (dst x : list Z) v : Zlen x < Zlen dst -> wr (splice dst 0 x) (Zlen x) v = Ret (splice dst 0 (x ++ [v])).
Proof.
  intros H. pose proof (Zlen_nonneg x). rewrite wr_splice by (rewrite length_splice; lia). f_equal. apply splice_0_extend. change (Zlen [v]) with 1. lia.
Qed.

Lemma wr_extend_at (dst x : list Z) at_ v : at_ = Zlen x -> Zlen x < Zlen dst -> wr (splice dst 0 x) at_ v = Ret (splice dst 0 (x ++ [v])).
Proof. intros ->. apply wr_extend. Qed.

Lemma Zlen_to_nat (x : list Z) : Z.to_nat (Zlen x) = length x.
Proof. apply Nat2Z.id. Qed.

Lemma Zlen_snoc (x : list Z) v : Zlen (x ++ [v]) = Zlen x + 1.
Proof. by rewrite Zlen_app. Qed.

Lemma ntop_char_ok c dst x dstsiz :
  dstsiz <= Zlen dst -> Zlen x + Zlen (char_text c) < dstsiz ->
  ntop_char c (splice dst 0 x) (Zlen x) dstsiz = Ret (Some (splice dst 0 (x ++ char_text c), Zlen (x ++ char_text c))).
Proof.
  intros Hd. unfold ntop_char, char_text. rewrite Zlen_app. destruct (special c); [|destruct (printable c)]; cbn [negb]; intros H.
  - change (Zlen [_; _]) with 2 in *. destruct (Z.leb_spec dstsiz (Zlen x + 1)); [lia|].
    rewrite wr_extend by lia. cbn [mbind outcome_bind]. rewrite wr_extend_at by (rewrite Zlen_snoc; lia). cbn [mbind outcome_bind]. by rewrite <- app_assoc.
  - change (Zlen [_]) with 1 in *. destruct (Z.leb_spec dstsiz (Zlen x)); [lia|]. by rewrite wr_extend by lia.
  - change (Zlen [_; _; _; _]) with 4 in *. destruct (Z.leb_spec dstsiz (Zlen x + 3)); [lia|].
    rewrite wr_extend by lia. cbn [mbind outcome_bind]. do 3 (rewrite wr_extend_at by (rewrite !Zlen_snoc; lia); cbn [mbind outcome_bind]).
    by rewrite <- !app_assoc.
Qed.

Lemma rd_mid (A D : list Z) x : rd (A ++ x :: D) (Zlen A) = Ret x.
Proof. apply rdA_lookup; unfold Zlen; [lia|]. rewrite Nat2Z.id. by rewrite list_lookup_middle. Qed.

Lemma ntop_label_ok l : forall src A R cp dst x dstsiz,
  src = A ++ l ++ R -> cp = Zlen A -> dstsiz <= Zlen dst -> Zlen x + Zlen (label_text l) < dstsiz ->
  ntop_label (length l) src cp (splice dst 0 x) (Zlen x) dstsiz = Ret (Some (splice dst 0 (x ++ label_text l), Zlen (x ++ label_text l))).
Proof.
  induction l as [|c l IH]; intros src A R cp dst x dstsiz -> -> Hd Hf; cbn [length ntop_label].
  - change (label_text []) with (@nil Z). by rewrite app_nil_r.
  - rewrite label_text_cons, Zlen_app in Hf. pose proof (Zlen_nonneg (label_text l)). cbn [app]. rewrite rd_mid. cbn [mbind outcome_bind].
    rewrite ntop_char_ok by lia. cbn [mbind outcome_bind].
    rewrite (IH _ (A ++ [c]) R); [|by rewrite <- app_assoc|by rewrite Zlen_snoc|done|rewrite Zlen_app; lia].
    rewrite label_text_cons. by rewrite <- app_assoc.
Qed.

Lemma compressed_low n : 0 <= n < 64 -> compressed n = false.
Proof. intros H. unfold compressed. by rewrite land_flags_low. Qed.

(** What a label adds to a text. *)
Definition with_dot (x l : list Z) : list Z := match x with [] => label_text l | _ => dot :: label_text l end.

Lemma ntop_loop_ok ls : forall fuel src A R dst x dstsiz,
  Forall label_ok ls -> src = A ++ wire ls ++ R -> (length ls < fuel)%nat -> dstsiz <= Zlen dst ->
  let t := x ++ match ls with [] => [] | l :: ls => with_dot x l ++ dotted ls end in
  Zlen t < dstsiz ->
  ntop_loop fuel src (Zlen A) (splice dst 0 x) (Zlen x) dstsiz = Ret (Some (splice dst 0 t, Zlen t)).
Proof.
  induction ls as [|l ls IH]; intros [|fuel] src A R dst x dstsiz Hls -> Hf Hd t Ht; try (cbn in Hf; lia); cbn [ntop_loop].
  - change (wire []) with [0]. cbn [app]. rewrite rd_mid. cbn [mbind outcome_bind]. change (0 =? 0) with true. cbn iota. unfold t. by rewrite app_nil_r.
  - inversion_clear Hls as [|? ? [Hb Hl] Hls']. rewrite wire_cons. unfold label_octets. cbn [app]. rewrite rd_mid. cbn [mbind outcome_bind].
    destruct (Z.eqb_spec (Zlen l) 0); [lia|]. rewrite compressed_low by lia.
    pose proof (label_text_length l). unfold t in *. clear t. rewrite !Zlen_app in Ht. pose proof (Zlen_nonneg x). pose proof (Zlen_nonneg (dotted ls)).
    assert (exists y, x ++ with_dot x l = y ++ label_text l /\
      (if Zlen x =? 0 then Ret (splice dst 0 x, Zlen x) else d ← wr (splice dst 0 x) (Zlen x) dot; Ret (d, Zlen x + 1)) = Ret (splice dst 0 y, Zlen y)) as (y & Ey & Er).
    { destruct x as [|c x]; [by exists []|]. exists ((c :: x) ++ [dot]). split; [cbn [with_dot]; by rewrite <- app_assoc|].
      rewrite Zlen_snoc. destruct (Z.eqb_spec (Zlen (c :: x)) 0) as [E|_]; [rewrite Zlen_cons in E; pose proof (Zlen_nonneg x); lia|].
      rewrite wr_extend; [done|]. pose proof (Zlen_nonneg (with_dot (c :: x) l)). lia. }
    assert (Zlen y + Zlen (label_text l) = Zlen x + Zlen (with_dot x l)) as Ely by (rewrite <- !Zlen_app; by rewrite Ey).
    assert (negb (Zlen x =? 0) && (dstsiz <=? Zlen x) = false) as ->.
    { pose proof (Zlen_nonneg (with_dot x l)). rewrite (proj2 (Z.leb_gt dstsiz (Zlen x))) by lia. by rewrite andb_false_r. }
    rewrite Er. cbn [mbind outcome_bind]. destruct (Z.leb_spec dstsiz (Zlen y + Zlen l)); [lia|].
    rewrite Zlen_to_nat.
    rewrite (ntop_label_ok l _ (A ++ [Zlen l]) (wire ls ++ R)); [|rewrite <- !app_assoc; cbn [app]; by rewrite <- ?app_assoc|by rewrite Zlen_snoc|done|lia]. cbn [mbind outcome_bind].
    rewrite <- Ey. replace (Zlen A + 1 + Zlen l) with (Zlen (A ++ Zlen l :: l)) by (rewrite Zlen_app, Zlen_cons; lia).
    assert (x ++ with_dot x l <> []) as Hne.
    { intros E. apply (f_equal Zlen) in E. rewrite Ey, Zlen_app in E. change (Zlen (@nil Z)) with 0 in E. pose proof (Zlen_nonneg y). lia. }
    assert ((x ++ with_dot x l) ++ match ls with [] => [] | l0 :: ls0 => with_dot (x ++ with_dot x l) l0 ++ dotted ls0 end = x ++ with_dot x l ++ dotted ls) as Et.
    { rewrite <- app_assoc. do 2 f_equal. destruct ls as [|l0 ls0]; [done|]. unfold with_dot at 1. destruct (x ++ with_dot x l) eqn:E; [done|]. done. }
    rewrite (IH fuel _ (A ++ Zlen l :: l) R); [by rewrite Et|done| |cbn in Hf; lia|done|rewrite Et, !Zlen_app; lia].
    rewrite <- !app_assoc. cbn [app]. by rewrite <- ?app_assoc.
Qed.

Lemma labels_count ls : Forall label_ok ls -> (length ls <= length (labels_octets ls))%nat.
Proof. induction 1 as [|l ls _ _ IH]; [done|]. rewrite labels_octets_cons, length_app. unfold label_octets. cbn [length]. lia. Qed.

Lemma splice_nil (dst : list Z) : splice dst 0 [] = dst.
Proof. unfold splice. cbn [length app]. by rewrite take_drop. Qed.

Lemma label_text_ne l : label_ok l -> label_text l <> [].
Proof. intros [_ Hl] E. pose proof (label_text_length l) as H. rewrite E in H. change (Zlen (@nil Z)) with 0 in H. lia. Qed.

Lemma ntop_ok ls R dst dstsiz :
  Forall label_ok ls -> Zlen (name_text ls) + 1 <= dstsiz <= Zlen dst ->
  MRns_name_ntop (wire ls ++ R) dst dstsiz = Ret (Some (splice dst 0 (name_text ls ++ [0]), Zlen (name_text ls) + 1)).
Proof.
  intros Hls Hd. unfold MRns_name_ntop. assert (length ls < length (wire ls ++ R))%nat as Hf.
  { pose proof (labels_count ls Hls). unfold wire. rewrite !length_app. cbn [length]. lia. }
  set (t := [] ++ match ls with [] => [] | l :: ls => with_dot [] l ++ dotted ls end).
  assert (ls = [] /\ t = [] \/ t = name_text ls /\ t <> []) as Ht.
  { unfold t. destruct ls as [|l ls]; [by left|right]. cbn [app with_dot name_text]. split; [done|]. inversion_clear Hls as [|? ? Hl _].
    intros [E _]%app_nil. by apply (label_text_ne l). }
  assert (Zlen t < dstsiz) as Htl by (destruct Ht as [[-> ->]|[-> _]]; [change (Zlen (name_text [])) with 1 in Hd; change (Zlen (@nil Z)) with 0; lia|lia]).
  pose proof (ntop_loop_ok ls (length (wire ls ++ R)) (wire ls ++ R) [] R dst [] dstsiz Hls eq_refl Hf (proj2 Hd) Htl) as E. cbn zeta in E. fold t in E.
  rewrite splice_nil in E. change (Zlen (@nil Z)) with 0 in E. rewrite E. cbn [mbind outcome_bind]. clear E.
  destruct Ht as [[-> ->]|[-> Hne]].
  - change (Zlen (@nil Z)) with 0. rewrite splice_nil. change (0 =? 0) with true. cbn [andb name_text] in *. change (Zlen [dot]) with 1 in *.
    destruct (Z.leb_spec dstsiz 0); [lia|]. rewrite wr_splice by lia. cbn [mbind outcome_bind]. destruct (Z.leb_spec dstsiz (0 + 1)); [lia|].
    rewrite (wr_extend_at dst [dot]) by (change (Zlen [dot]) with 1; lia). done.
  - assert (0 < Zlen (name_text ls)) by (destruct (name_text ls); [done|rewrite Zlen_cons; pose proof (Zlen_nonneg l); lia]).
    destruct (Z.eqb_spec (Zlen (name_text ls)) 0); [lia|]. cbn [andb mbind outcome_bind]. destruct (Z.leb_spec dstsiz (Zlen (name_text ls))); [lia|].
    by rewrite wr_extend by lia.
Qed.

(** ** From text back to the wire *)

Lemma digit_of i : 0 <= i <= 9 -> digit_value (digit i) = Some i.
Proof. intros H. unfold digit_value, digit. destruct (Z.leb_spec 48 (48 + i)), (Z.leb_spec (48 + i) 57); cbn [andb]; try lia. f_equal. lia. Qed.

Lemma special_no_digit c : special c = true -> digit_value c = None.
Proof.
  unfold special, digit_value. rewrite !orb_true_iff, !Z.eqb_eq. intros H.
  destruct (Z.leb_spec 48 c), (Z.leb_spec c 57); cbn [andb]; try done. lia.
Qed.

Lemma special_nonzero c : special c = true -> c <> 0.
Proof. unfold special. rewrite !orb_true_iff, !Z.eqb_eq. lia. Qed.

(** Characters that stand for themselves. *)
Lemma plain_char c : special c = false -> printable c = true -> c <> 0 /\ c <> backslash /\ c <> dot.
Proof.
  unfold special, printable, backslash, dot. rewrite !orb_false_iff, !Z.eqb_neq, andb_true_iff, !Z.ltb_lt. lia.
Qed.

Lemma three_digits c : 0 <= c -> c / 100 * 100 + c mod 100 / 10 * 10 + c mod 10 = c.
Proof. intros. pose proof (Z.div_mod c 100). pose proof (Z.div_mod (c mod 100) 10).
  assert (c mod 100 mod 10 = c mod 10) by (rewrite (Z.mod_mod_divide c 100 10); [done|by exists 10]). lia. Qed.

(** A buffer in which the label at [label] is being filled: its length is not
    written yet. *)
Definition filling (P : list Z) (x : Z) (cur R : list Z) : list Z := P ++ x :: cur ++ R.

Lemma filling_wr P x cur R c : 1 <= Zlen R ->
  wr (filling P x cur R) (Zlen P + 1 + Zlen cur) c = Ret (filling P x (cur ++ [c]) (drop 1 R)).
Proof.
  intros H. destruct R as [|y R]; [by cbn in H|]. pose proof (Zlen_nonneg P). pose proof (Zlen_nonneg cur). pose proof (Zlen_nonneg R).
  unfold filling. rewrite wr_splice by (rewrite !Zlen_app, !Zlen_cons, Zlen_app, Zlen_cons; lia). f_equal.
  replace (P ++ x :: cur ++ y :: R) with ((P ++ x :: cur) ++ y :: R) by (rewrite <- app_assoc; done).
  replace (Zlen P + 1 + Zlen cur) with (Zlen (P ++ x :: cur)) by (rewrite Zlen_app, Zlen_cons; lia).
  unfold splice. rewrite Zlen_to_nat, take_app_length. cbn [length]. rewrite drop_app_add. cbn [drop]. rewrite <- !app_assoc. cbn [app]. by rewrite <- ?app_assoc.
Qed.

Lemma pton_char c P x cur R src dstsiz :
  is_byte c -> Zlen P + 1 + Zlen cur < dstsiz -> 1 <= Zlen R ->
  pton_loop (char_text c ++ src) (filling P x cur R) (Zlen P) (Zlen P + 1 + Zlen cur) dstsiz false =
  pton_loop src (filling P x (cur ++ [c]) (drop 1 R)) (Zlen P) (Zlen P + 1 + Zlen (cur ++ [c])) dstsiz false.
Proof.
  intros Hc Hd HR. rewrite Zlen_snoc, Z.add_assoc. unfold char_text. destruct (special c) eqn:Es; [|destruct (printable c) eqn:Ep].
  - cbn [app pton_loop]. change (backslash =? backslash) with true. unfold backslash at 1. cbn iota.
    pose proof (special_nonzero c Es). rewrite (special_no_digit c Es). destruct (Z.leb_spec dstsiz (Zlen P + 1 + Zlen cur)); [lia|].
    rewrite filling_wr by done. destruct c; [done|done|done].
  - destruct (plain_char c Es Ep) as (H0 & H1 & H2). cbn [app pton_loop]. rewrite (proj2 (Z.eqb_neq c backslash)), (proj2 (Z.eqb_neq c dot)) by done.
    destruct (Z.leb_spec dstsiz (Zlen P + 1 + Zlen cur)); [lia|]. rewrite filling_wr by done. by destruct c.
  - unfold is_byte in Hc. assert (0 <= c / 100 <= 2) by (pose proof (Z.div_lt_upper_bound c 100 3); pose proof (Z.div_pos c 100); lia).
    assert (0 <= c mod 100 / 10 <= 9) by (pose proof (Z.mod_pos_bound c 100); pose proof (Z.div_lt_upper_bound (c mod 100) 10 10); pose proof (Z.div_pos (c mod 100) 10); lia).
    pose proof (Z.mod_pos_bound c 10). cbn [app pton_loop]. change (backslash =? backslash) with true. unfold backslash at 1. cbn iota.
    rewrite !digit_of by lia. rewrite three_digits by lia.
    destruct (Z.ltb_spec 255 c); [lia|]. destruct (Z.leb_spec dstsiz (Zlen P + 1 + Zlen cur)); [lia|]. rewrite filling_wr by done.
    destruct (digit (c / 100)) eqn:E; [unfold digit in E; lia|done|done].
Qed.

Lemma pton_chars l : forall P x cur R src dstsiz,
  is_bytes l -> Zlen P + 1 + Zlen cur + Zlen l <= dstsiz -> Zlen l <= Zlen R ->
  pton_loop (label_text l ++ src) (filling P x cur R) (Zlen P) (Zlen P + 1 + Zlen cur) dstsiz false =
  pton_loop src (filling P x (cur ++ l) (drop (length l) R)) (Zlen P) (Zlen P + 1 + Zlen (cur ++ l)) dstsiz false.
Proof.
  induction l as [|c l IH]; intros P x cur R src dstsiz Hb Hd HR.
  - change (label_text []) with (@nil Z). by rewrite app_nil_r.
  - inversion_clear Hb as [|? ? Hc Hb']. rewrite Zlen_cons in *. pose proof (Zlen_nonneg l). rewrite label_text_cons, <- app_assoc.
    rewrite pton_char by (done || lia). rewrite IH; [|done|rewrite Zlen_snoc; lia|unfold Zlen in *; rewrite length_drop; lia].
    rewrite <- app_assoc, drop_drop. done.
Qed.

Lemma label_text_start l : label_ok l -> exists c t, label_text l = c :: t /\ c <> 0 /\ c <> dot.
Proof.
  intros [Hb Hl]. destruct l as [|c l]; [change (Zlen (@nil Z)) with 0 in Hl; lia|]. rewrite label_text_cons. unfold char_text. destruct (special c) eqn:Es; [|destruct (printable c) eqn:Ep].
  - eexists _, _. split; [done|]. done.
  - destruct (plain_char c Es Ep) as (? & ? & ?). eexists _, _. split; [done|]. done.
  - eexists _, _. split; [done|]. done.
Qed.

Lemma filling_label P x cur R n : wr (filling P x cur R) (Zlen P) n = Ret (filling P n cur R).
Proof.
  pose proof (Zlen_nonneg P). unfold filling. rewrite wr_splice by (rewrite Zlen_app, Zlen_cons; pose proof (Zlen_nonneg (cur ++ R)); lia).
  unfold splice. by rewrite Zlen_to_nat, take_app_length, drop_app_add.
Qed.

Lemma pton_end_ok P x l R dstsiz q :
  label_ok l -> Zlen P + Zlen l + 2 <= Z.min dstsiz NS_MAXCDNAME -> 1 <= Zlen R ->
  pton_end (filling P x l R) (Zlen P) (Zlen P + 1 + Zlen l) dstsiz q = Ret (Some (P ++ wire [l] ++ drop 1 R, Zlen P + Zlen (wire [l]), q)).
Proof.
  intros [Hb Hl] Hd HR. unfold pton_end. replace (Zlen P + 1 + Zlen l - Zlen P - 1) with (Zlen l) by lia. pose proof (Zlen_nonneg P).
  rewrite compressed_low by lia. destruct (Z.leb_spec dstsiz (Zlen P)); [lia|]. rewrite filling_label, u8_small by (unfold is_byte; lia). cbn [mbind outcome_bind].
  destruct (Z.eqb_spec (Zlen l) 0); [lia|]. destruct (Z.leb_spec dstsiz (Zlen P + 1 + Zlen l)); [lia|]. cbn [negb andb].
  rewrite filling_wr by done. cbn [mbind outcome_bind]. destruct (Z.ltb_spec NS_MAXCDNAME (Zlen P + 1 + Zlen l + 1)); [lia|].
  unfold wire, filling. change (labels_octets [l]) with (label_octets l ++ []). rewrite app_nil_r, Zlen_app, label_octets_length. change (Zlen [0]) with 1.
  unfold label_octets. cbn [app]. by replace (Zlen P + (Zlen l + 1 + 1)) with (Zlen P + 1 + Zlen l + 1) by lia.
Qed.

Lemma pton_labels ls : forall l P x R dstsiz,
  Forall label_ok (l :: ls) -> Zlen P + Zlen (wire (l :: ls)) <= Z.min dstsiz NS_MAXCDNAME -> Zlen (wire (l :: ls)) <= 1 + Zlen R ->
  pton_loop (label_text l ++ dotted ls) (filling P x [] R) (Zlen P) (Zlen P + 1) dstsiz false =
  Ret (Some (P ++ wire (l :: ls) ++ drop (length (wire (l :: ls)) - 1) R, Zlen P + Zlen (wire (l :: ls)), false)).
Proof.
  induction ls as [|l2 ls IH]; intros l P x R dstsiz Hls Hd HR; inversion_clear Hls as [|? ? Hl Hls']; pose proof Hl as [Hb Hlen];
    rewrite wire_cons, Zlen_app, label_octets_length in *; pose proof (pton_chars l P x [] R) as Hc; change (Zlen (@nil Z)) with 0 in Hc; rewrite Z.add_0_r in Hc.
  - change (Zlen (wire [])) with 1 in *. rewrite Hc by (done || lia). clear Hc. change (dotted []) with (@nil Z). cbn [app]. unfold pton_loop.
    rewrite pton_end_ok; [|done|lia|unfold Zlen in *; rewrite length_drop; lia]. rewrite drop_drop, wire_cons, Zlen_app, label_octets_length.
    change (Zlen (wire [])) with 1. replace (length (label_octets l ++ wire []) - 1)%nat with (length l + 1)%nat; [done|].
    rewrite length_app. unfold label_octets. change (length (wire [])) with 1%nat. cbn [length]. lia.
  - assert (1 <= Zlen (wire (l2 :: ls))) as H1 by (rewrite wire_cons, Zlen_app, label_octets_length; pose proof (Zlen_nonneg l2); pose proof (Zlen_nonneg (wire ls)); lia).
    pose proof (Zlen_nonneg P). rewrite Hc by (done || lia). clear Hc.
    change (dotted (l2 :: ls)) with (dot :: label_text l2 ++ dotted ls). cbn [app]. inversion Hls' as [|? ? Hl2 _]; subst.
    destruct (label_text_start l2 Hl2) as (c & t & Et & Hc0 & Hcd).
    assert (exists y R', drop (length l) R = y :: R') as (y & R' & ER).
    { destruct (drop (length l) R) as [|y R'] eqn:E; [|by eauto]. apply (f_equal length) in E. rewrite length_drop in E. cbn [length] in E. unfold Zlen in *. lia. }
    cbn [pton_loop]. change (dot =? backslash) with false. change (dot =? dot) with true. unfold dot at 1. cbn iota.
    replace (Zlen P + 1 + Zlen l - Zlen P - 1) with (Zlen l) by lia. rewrite compressed_low by lia. destruct (Z.leb_spec dstsiz (Zlen P)); [lia|].
    rewrite Et. cbn [app]. rewrite filling_label, u8_small by (unfold is_byte; lia). cbn [mbind outcome_bind].
    rewrite (proj2 (Z.eqb_neq (Zlen l) 0)), (proj2 (Z.eqb_neq c dot)) by (done || lia). cbn [orb].
    rewrite ER. assert (filling P (Zlen l) l (y :: R') = filling (P ++ label_octets l) y [] R') as -> by (unfold filling, label_octets; by rewrite <- !app_assoc).
    replace (Zlen P + 1 + Zlen l) with (Zlen (P ++ label_octets l)) by (rewrite Zlen_app, label_octets_length; lia).
    assert (Zlen (y :: R') = Zlen R - Zlen l) as ELR by (rewrite <- ER; unfold Zlen in *; rewrite length_drop; lia). rewrite Zlen_cons in ELR.
    change (c :: t ++ dotted ls) with ((c :: t) ++ dotted ls). rewrite <- Et.
    rewrite IH; [|done|rewrite Zlen_app, label_octets_length; lia|lia].
    assert (drop (length (wire (l2 :: ls)) - 1) R' = drop (length (label_octets l ++ wire (l2 :: ls)) - 1) R) as ->.
    { replace (length (label_octets l ++ wire (l2 :: ls)) - 1)%nat with (length l + (1 + (length (wire (l2 :: ls)) - 1)))%nat.
      - by rewrite <- drop_drop, ER.
      - rewrite length_app. unfold label_octets at 1. cbn [length]. unfold Zlen in H1. lia. }
    rewrite Zlen_app, label_octets_length, <- !app_assoc.
    replace (Zlen P + (Zlen l + 1) + Zlen (wire (l2 :: ls))) with (Zlen P + (Zlen l + 1 + Zlen (wire (l2 :: ls)))) by lia. by destruct c.
Qed.

Lemma pton_ok ls dst dstsiz :
  Forall label_ok ls -> Zlen (wire ls) <= Z.min dstsiz NS_MAXCDNAME -> dstsiz <= Zlen dst ->
  MRns_name_pton (name_text ls) dst dstsiz = Ret (Some (splice dst 0 (wire ls), Zlen (wire ls), bool_decide (ls = []))).
Proof.
  intros Hls Hw Hd. unfold MRns_name_pton. destruct ls as [|l ls].
  - change (Zlen (wire [])) with 1 in *. destruct dst as [|x dst]; [change (Zlen (@nil Z)) with 0 in Hd; lia|]. cbn [name_text pton_loop].
    unfold dot at 1. change (dot =? backslash) with false. change (dot =? dot) with true. cbn iota. change (1 - 0 - 1) with 0. change (compressed 0) with false. cbn iota.
    destruct (Z.leb_spec dstsiz 0); [lia|]. unfold pton_end. change (1 - 0 - 1) with 0. change (compressed 0) with false. cbn iota.
    destruct (Z.leb_spec dstsiz 0); [lia|]. rewrite wr_splice by (rewrite Zlen_cons; pose proof (Zlen_nonneg dst); lia). done.
  - cbn [name_text]. assert (1 <= Zlen dst) as H1 by (rewrite wire_cons, Zlen_app, label_octets_length in Hw; pose proof (Zlen_nonneg l); pose proof (Zlen_nonneg (wire ls)); lia).
    destruct dst as [|x R]; [change (Zlen (@nil Z)) with 0 in H1; lia|]. rewrite Zlen_cons in Hd.
    pose proof (pton_labels ls l [] x R dstsiz Hls) as E. change (Zlen (@nil Z)) with 0 in E. rewrite !Z.add_0_l in E. change (filling [] x [] R) with (x :: R) in E.
    rewrite E by lia. rewrite bool_decide_false by done. cbn [app]. do 4 f_equal. unfold splice. cbn [Z.to_nat take app Nat.add].
    assert (exists k, length (wire (l :: ls)) = S k) as [k ->] by (rewrite wire_cons; unfold label_octets; cbn [app length]; by eauto).
    cbn [Nat.sub]. by rewrite Nat.sub_0_r.
Qed.

(** What follows the NUL of a text does not matter. *)
Lemma pton_nul k : forall src r dst label bp dstsiz escaped,
  (length src <= k)%nat -> pton_loop (src ++ 0 :: r) dst label bp dstsiz escaped = pton_loop src dst label bp dstsiz escaped.
Proof.
  induction k as [|k IH]; intros [|c src] r dst label bp dstsiz escaped Hk; try done; [cbn in Hk; lia|]. cbn [length] in Hk.
  assert (forall m d l b e, (if m : bool then Ret None else d ← wr d b c; pton_loop (src ++ 0 :: r) d l (b + 1) dstsiz e) =
    (if m then Ret None else d ← wr d b c; pton_loop src d l (b + 1) dstsiz e)) as Hput.
  { intros [] d l b e; [done|]. destruct (wr d b c); [apply IH; lia|done..]. }
  cbn [app pton_loop]. destruct c as [|p|p]; [done|..].
  all: destruct escaped; [|destruct (_ =? backslash); [apply IH; lia|destruct (_ =? dot); [|apply Hput]]].
  1, 3: destruct (digit_value _); [|apply Hput]; destruct src as [|c2 src]; [done|]; cbn [app]; destruct (digit_value c2); [|done];
    destruct src as [|c3 src]; [done|]; cbn [app]; destruct (digit_value c3); [|done]; cbn zeta; destruct (255 <? _); [done|]; destruct (dstsiz <=? bp); [done|];
    destruct (wr _ _ _); [apply IH; cbn [length] in Hk; lia|done..].
  all: cbn zeta; destruct (compressed _); [done|]; destruct (dstsiz <=? label); [done|]; destruct src as [|x src]; [done|]; cbn [app];
    destruct x; [done|..]; (destruct (wr _ _ _) as [d| |]; [|done..]; cbn [mbind outcome_bind]; destruct (_ || _); [done|]; apply (IH (_ :: src)); lia).
Qed.

Lemma strlen_text (t r : list Z) : Forall (fun c => c <> 0) t -> strlen (t ++ 0 :: r) = Ret (Zlen t).
Proof.
  induction 1 as [|c t Hc _ IH]; [done|]. cbn [app strlen]. rewrite (proj2 (Z.eqb_neq c 0)), IH by done. cbn [mbind outcome_bind]. by rewrite Zlen_cons.
Qed.

Lemma char_text_nonzero c : is_byte c -> Forall (fun c => c <> 0) (char_text c).
Proof.
  intros Hc. unfold char_text. destruct (special c) eqn:Es; [|destruct (printable c) eqn:Ep].
  - repeat constructor; [done|by apply special_nonzero].
  - repeat constructor. by destruct (plain_char c Es Ep).
  - unfold is_byte in Hc. assert (0 <= c / 100) by (apply Z.div_pos; lia). assert (0 <= c mod 100 / 10) by (apply Z.div_pos; [apply Z.mod_pos_bound|]; lia).
    assert (0 <= c mod 10) by (apply Z.mod_pos_bound; lia). unfold digit. repeat constructor; [done|lia..].
Qed.

Lemma label_text_nonzero l : is_bytes l -> Forall (fun c => c <> 0) (label_text l).
Proof. induction 1 as [|c l Hc _ IH]; [constructor|]. rewrite label_text_cons. apply Forall_app. split; [by apply char_text_nonzero|done]. Qed.

Lemma name_text_nonzero ls : Forall label_ok ls -> Forall (fun c => c <> 0) (name_text ls).
Proof.
  intros H. destruct ls as [|l ls]; [by repeat constructor|]. inversion_clear H as [|? ? [Hb _] H']. cbn [name_text]. apply Forall_app. split; [by apply label_text_nonzero|].
  induction H' as [|l2 ls [Hb2 _] _ IH]; [constructor|]. change (dotted (l2 :: ls)) with (dot :: label_text l2 ++ dotted ls).
  constructor; [done|]. apply Forall_app. split; [by apply label_text_nonzero|done].
Qed.

(** A name goes to text and back: for every name that may be on the wire, with any
    octets in its labels, printing it and converting the text gives the same
    octets, whenever the text fits. *)
Theorem name_text_roundtrip ls R text textsiz dst dstsiz :
  Forall label_ok ls -> Zlen (wire ls) <= Z.min dstsiz NS_MAXCDNAME -> dstsiz <= Zlen dst ->
  Zlen (name_text ls) + 1 <= textsiz <= Zlen text ->
  exists t n, MRns_name_ntop (wire ls ++ R) text textsiz = Ret (Some (t, n)) /\ strlen t = Ret (n - 1) /\
    MRns_name_pton t dst dstsiz = Ret (Some (splice dst 0 (wire ls), Zlen (wire ls), bool_decide (ls = []))).
Proof.
  intros Hls Hw Hd Ht. eexists _, _. split; [by apply ntop_ok|].
  assert (exists r, splice text 0 (name_text ls ++ [0]) = name_text ls ++ 0 :: r) as [r ->] by (eexists; unfold splice; cbn [Z.to_nat take app]; by rewrite <- app_assoc).
  rewrite strlen_text by (by apply name_text_nonzero). split; [f_equal; lia|]. unfold MRns_name_pton. rewrite (pton_nul (length (name_text ls))) by done. by apply pton_ok.
Qed.

(** ** Names in a message *)

(** The octets [x] are in [m] from [off] on. *)
Definition holds (m : list Z) (off : Z) (x : list Z) : Prop := exists A B, m = A ++ x ++ B /\ Zlen A = off.

Lemma holds_app m off x y : holds m off x -> holds (m ++ y) off x.
Proof. intros (A & B & -> & <-). exists A, (B ++ y). by rewrite <- !app_assoc. Qed.

Lemma holds_rd m off n x : holds m off (n :: x) -> rd m off = Ret n.
Proof. intros (A & B & -> & <-). cbn [app]. apply rd_mid. Qed.

Lemma holds_tail m off n x : holds m off (n :: x) -> holds m (off + 1) x.
Proof. intros (A & B & -> & <-). exists (A ++ [n]), B. rewrite <- app_assoc, Zlen_snoc. done. Qed.

Lemma holds_split m off x y : holds m off (x ++ y) -> holds m off x /\ holds m (off + Zlen x) y.
Proof.
  intros (A & B & -> & <-). split; [exists A, (y ++ B); by rewrite <- !app_assoc|]. exists (A ++ x), B. rewrite Zlen_app, <- !app_assoc. done.
Qed.

Lemma holds_range m off x : holds m off x -> 0 <= off /\ off + Zlen x <= Zlen m.
Proof. intros (A & B & -> & <-). rewrite !Zlen_app. pose proof (Zlen_nonneg A). pose proof (Zlen_nonneg B). lia. Qed.

Lemma holds_memread m off x : holds m off x -> memread m off (Zlen x) = Ret x.
Proof. intros (A & B & -> & <-). by apply memread_mid. Qed.

(** The octets of a pointer. *)
Definition pointer (t : Z) : list Z := [192 + t / 256; t mod 256].

(** The name that is in the message at [off]: its labels, how much of the message
    is looked at to read it, and the place after it.  A pointer does not lead to the
    root alone. *)
Inductive resolves (m : list Z) : Z -> list (list Z) -> Z -> Z -> Prop :=
| Res_root off : holds m off [0] -> resolves m off [] 0 (off + 1)
| Res_label off l ls c e : label_ok l -> holds m off (label_octets l) -> resolves m (off + Zlen l + 1) ls c e -> resolves m off (l :: ls) (c + Zlen l + 1) e
| Res_pointer off t ls c e : 0 <= t < 16384 -> holds m off (pointer t) -> ls <> [] -> resolves m t ls c e -> resolves m off ls (c + 2) (off + 2).

Lemma resolves_app m y off ls c e : resolves m off ls c e -> resolves (m ++ y) off ls c e.
Proof. induction 1; econstructor; eauto using holds_app. Qed.

Lemma resolves_range m off ls c e : resolves m off ls c e -> 0 <= off < Zlen m /\ off < e <= Zlen m /\ 0 <= c.
Proof.
  induction 1 as [off H|off l ls c e Hl H _ IH|off t ls c e Ht H _ _ IH]; apply holds_range in H.
  - change (Zlen [0]) with 1 in H. lia.
  - rewrite label_octets_length in H. pose proof (Zlen_nonneg l). lia.
  - change (Zlen (pointer t)) with 2 in H. lia.
Qed.

Lemma resolves_labels m off ls c e : resolves m off ls c e -> Forall label_ok ls.
Proof. induction 1; [constructor|by constructor|done]. Qed.

(** The first octet of a name is zero only for the root. *)
Lemma resolves_first m off ls c e : resolves m off ls c e -> exists n, rd m off = Ret n /\ (n = 0 <-> ls = []).
Proof.
  intros [off' H|off' l ls' c' e' [_ Hl] H _|off' t ls' c' e' Ht H Hn _].
  - exists 0. split; [by eapply holds_rd|done].
  - exists (Zlen l). split; [by eapply holds_rd|]. split; [lia|done].
  - exists (192 + t / 256). split; [by eapply holds_rd|]. split; [|done]. assert (0 <= t / 256) by (apply Z.div_pos; lia). lia.
Qed.

Lemma pointer_flags q : 0 <= q < 64 -> Z.land (192 + q) NS_CMPRSFLGS = NS_CMPRSFLGS /\ Z.land (192 + q) 63 = q.
Proof.
  intros H. assert (forall q, is_byte q -> (negb (q <? 64) || ((Z.land (192 + q) NS_CMPRSFLGS =? NS_CMPRSFLGS) && (Z.land (192 + q) 63 =? q))) = true) as K.
  { apply byte_forall. by vm_compute. }
  specialize (K q ltac:(unfold is_byte; lia)). destruct (Z.ltb_spec q 64); [|lia]. cbn [negb orb] in K. apply andb_true_iff in K as [K1%Z.eqb_eq K2%Z.eqb_eq]. done.
Qed.

Lemma pointer_target t : 0 <= t < 16384 -> Z.lor (Z.shiftl (Z.land (192 + t / 256) 63) 8) (t mod 256) = t /\ Z.land (t mod 256) 255 = t mod 256.
Proof.
  intros H. assert (0 <= t / 256 < 64) by (split; [apply Z.div_pos; lia|apply Z.div_lt_upper_bound; lia]).
  rewrite (proj2 (pointer_flags (t / 256) ltac:(lia))). pose proof (Z.mod_pos_bound t 256 ltac:(lia)). change 255 with (Z.ones 8). rewrite Z.land_ones, Z.mod_mod by lia. split; [|done].
  rewrite Z.shiftl_mul_pow2 by lia. pose proof (Z.add_lor_land (t / 256 * 2 ^ 8) (t mod 256)) as E.
  assert (Z.land (t / 256 * 2 ^ 8) (t mod 256) = 0) as E0.
  { apply Z.bits_inj'. intros i Hi. rewrite Z.land_spec, Z.bits_0. destruct (Z.lt_ge_cases i 8).
    - by rewrite Z.mul_pow2_bits_low.
    - rewrite (Z.bits_above_log2 (t mod 256)); [by rewrite andb_false_r|lia|]. destruct (Z.eq_dec (t mod 256) 0) as [->|]; [cbn; lia|].
      apply Z.log2_lt_pow2; [lia|]. assert (2 ^ 8 <= 2 ^ i) by (apply Z.pow_le_mono_r; lia). lia. }
  rewrite E0 in E. change (2 ^ 8) with 256 in *. pose proof (Z.div_mod t 256). lia.
Qed.

Lemma unpack_resolves m off ls c e : resolves m off ls c e -> forall fuel src dst x dstsiz len checked,
  Zlen (x ++ wire ls) <= dstsiz <= Zlen dst -> 0 <= checked -> checked + c < Zlen m -> c < Z.of_nat fuel ->
  unpack_loop fuel m src off (splice dst 0 x) (Zlen x) dstsiz len checked = Ret (Some (splice dst 0 (x ++ wire ls), default (e - src) len)).
Proof.
  induction 1 as [off H|off l ls c e [Hb Hl] H Hr IH|off t ls c e Ht H Hn Hr IH]; intros [|fuel] src dst x dstsiz len checked Hd Hch Hc Hf;
    try (apply resolves_range in Hr; lia); try lia; cbn [unpack_loop].
  - rewrite (holds_rd m off 0 []) by done. cbn [mbind outcome_bind]. change (0 =? 0) with true. cbn iota. change (wire []) with [0] in *. rewrite Zlen_snoc in Hd.
    rewrite wr_extend by lia. done.
  - apply resolves_range in Hr as Hrange. rewrite (holds_rd m off (Zlen l) l) by done. cbn [mbind outcome_bind]. cbn zeta.
    destruct (Z.eqb_spec (Zlen l) 0); [lia|]. rewrite land_flags_low by lia. change (0 =? 0) with true. cbn iota.
    rewrite wire_cons, !Zlen_app, label_octets_length in Hd. assert (1 <= Zlen (wire ls)) by (unfold wire; rewrite Zlen_snoc; pose proof (Zlen_nonneg (labels_octets ls)); lia).
    rewrite (proj2 (Z.leb_gt dstsiz _)), (proj2 (Z.leb_gt (Zlen m) _)) by lia. cbn [orb].
    rewrite wr_extend by (pose proof (Zlen_nonneg l); lia). cbn [mbind outcome_bind].
    rewrite (holds_memread m (off + 1) l) by (by eapply holds_tail). cbn [mbind outcome_bind]. pose proof (Zlen_nonneg x).
    rewrite memcpy_splice; [|lia|rewrite length_splice; rewrite ?Zlen_snoc; lia].
    replace (Zlen x + 1) with (Zlen (x ++ [Zlen l])) by apply Zlen_snoc. rewrite splice_0_extend by (rewrite Zlen_snoc; lia). cbn [mbind outcome_bind].
    replace ((x ++ [Zlen l]) ++ l) with (x ++ label_octets l) by (by rewrite <- app_assoc).
    replace (off + 1 + Zlen l) with (off + Zlen l + 1) by lia. replace (Zlen (x ++ [Zlen l]) + Zlen l) with (Zlen (x ++ label_octets l)) by (rewrite Zlen_snoc, Zlen_app, label_octets_length; lia).
    rewrite IH; [|rewrite !Zlen_app, label_octets_length; lia|lia|lia|lia]. by rewrite wire_cons, <- app_assoc.
  - apply resolves_range in Hr as Hrange. apply holds_range in H as Hh. change (Zlen (pointer t)) with 2 in Hh. rewrite (holds_rd m off (192 + t / 256) [t mod 256]) by done. cbn [mbind outcome_bind]. cbn zeta.
    assert (0 <= t / 256 < 64) as Hq by (split; [apply Z.div_pos; lia|apply Z.div_lt_upper_bound; lia]).
    destruct (Z.eqb_spec (192 + t / 256) 0); [lia|]. rewrite (proj1 (pointer_flags _ Hq)). change (NS_CMPRSFLGS =? 0) with false. change (NS_CMPRSFLGS =? NS_CMPRSFLGS) with true. cbn iota.
    destruct (Z.leb_spec (Zlen m) (off + 1)); [lia|]. rewrite (holds_rd m (off + 1) (t mod 256) []) by (by eapply holds_tail). cbn [mbind outcome_bind].
    destruct (pointer_target t Ht) as [E1 E2]. rewrite E2, E1. destruct (Z.leb_spec (Zlen m) t); [lia|]. destruct (Z.leb_spec (Zlen m) (checked + 2)); [lia|].
    rewrite IH by lia. destruct len; cbn; do 3 f_equal. lia.
Qed.

(** ** Packing *)

(** Names up to case. *)
Definition lower (ls : list (list Z)) : list (list Z) := map (map mklower) ls.

Lemma lower_length ls1 ls2 : lower ls1 = lower ls2 -> length ls1 = length ls2.
Proof. intros H%(f_equal length). unfold lower in H. by rewrite !length_map in H. Qed.

Lemma same_label_ok x : forall y domain dn msg cp, holds domain dn x -> holds msg cp y -> length x = length y ->
  same_label (length x) domain dn msg cp = Ret (bool_decide (map mklower x = map mklower y)).
Proof.
  induction x as [|a x IH]; intros [|b y] domain dn msg cp Hx Hy E; try done. cbn [length same_label map]. rewrite (holds_rd _ _ _ _ Hx), (holds_rd _ _ _ _ Hy). cbn [mbind outcome_bind].
  destruct (Z.eqb_spec (mklower a) (mklower b)) as [->|Hne].
  - rewrite (IH y) by (eauto using holds_tail || by injection E). f_equal. apply bool_decide_ext. split; [by intros ->|by intros [=]].
  - rewrite bool_decide_false; [done|]. by intros [=].
Qed.

Lemma wire_first ls : Forall label_ok ls -> exists n x, wire ls = n :: x /\ (n = 0 <-> ls = []).
Proof.
  intros H. destruct H as [|l ls [_ Hl] _]; [by exists 0, []|]. rewrite wire_cons. exists (Zlen l), (l ++ wire ls). split; [done|]. split; [lia|done].
Qed.

(** The comparison with a name of the message decides whether the names are the
    same up to case. *)
Lemma dn_compare_ok m cp ls c e : resolves m cp ls c e -> forall fuel domain dn ls', Forall label_ok ls' -> ls' <> [] -> holds domain dn (wire ls') -> c < Z.of_nat fuel ->
  dn_compare fuel domain dn m cp = Ret (Some (bool_decide (lower ls' = lower ls))).
Proof.
  induction 1 as [off H|off l ls c e [Hb Hl] H Hr IH|off t ls c e Ht H Hn Hr IH]; intros [|fuel] domain dn ls' Hls Hne Hd Hf;
    try (apply resolves_range in Hr; lia); try lia; cbn [dn_compare].
  - rewrite (holds_rd m off 0 []) by done. cbn [mbind outcome_bind]. change (0 =? 0) with true. cbn iota. rewrite bool_decide_false; [done|]. by destruct ls'.
  - rewrite (holds_rd m off (Zlen l) l) by done. cbn [mbind outcome_bind]. cbn zeta. destruct (Z.eqb_spec (Zlen l) 0); [lia|]. rewrite land_flags_low by lia. change (0 =? 0) with true. cbn iota.
    destruct Hls as [|l' ls' Hl' Hls]; [done|]. rewrite wire_cons in Hd. apply holds_split in Hd as [Hd1 Hd2]. rewrite (holds_rd _ _ _ _ Hd1). cbn [mbind outcome_bind].
    rewrite label_octets_length in Hd2. destruct (Z.eqb_spec (Zlen l) (Zlen l')) as [E|E]; cbn [negb].
    2: { rewrite bool_decide_false; [done|]. intros [= E2 _]. apply (f_equal length) in E2. rewrite !length_map in E2. unfold Zlen in E. lia. }
    assert (length l = length l') as El by (unfold Zlen in E; lia).
    rewrite Zlen_to_nat, El, (same_label_ok l' l) by (eauto using holds_tail). cbn [mbind outcome_bind].
    destruct (decide (map mklower l' = map mklower l)) as [Em|Em]; [rewrite bool_decide_true by done|rewrite (bool_decide_false (map mklower l' = map mklower l)) by done]; cbn [negb].
    2: { rewrite bool_decide_false; [done|]. by intros [=]. }
    destruct (wire_first ls' Hls) as (x & w & Ew & Hx). rewrite Ew in Hd2. replace (dn + 1 + Zlen l) with (dn + (Zlen l' + 1)) by lia. rewrite (holds_rd _ _ _ _ Hd2). cbn [mbind outcome_bind].
    destruct (resolves_first _ _ _ _ _ Hr) as (y & Ey & Hy). replace (off + 1 + Zlen l) with (off + Zlen l + 1) by lia. rewrite Ey. cbn [mbind outcome_bind].
    rewrite <- Ew in Hd2. assert (lower (l' :: ls') = lower (l :: ls) <-> lower ls' = lower ls) as Hiff by (unfold lower; cbn [map]; rewrite Em; split; [by intros [=]|by intros ->]).
    destruct (Z.eqb_spec x 0) as [Hx0|Hx0]; cbn [negb andb].
    + apply (proj1 Hx) in Hx0. subst ls'. destruct (Z.eqb_spec y 0) as [Hy0|Hy0].
      * apply (proj1 Hy) in Hy0. subst ls. rewrite bool_decide_true; [done|by apply Hiff].
      * rewrite bool_decide_false; [done|]. rewrite Hiff. by destruct ls; [destruct Hy0; apply Hy|].
    + rewrite (IH fuel domain _ ls'); [|done|intros ->; by apply Hx0, Hx|done|lia]. do 2 f_equal. by apply bool_decide_ext.
  - rewrite (holds_rd m off (192 + t / 256) [t mod 256]) by done. cbn [mbind outcome_bind]. cbn zeta.
    assert (0 <= t / 256 < 64) as Hq by (split; [apply Z.div_pos; lia|apply Z.div_lt_upper_bound; lia]).
    destruct (Z.eqb_spec (192 + t / 256) 0); [lia|]. rewrite (proj1 (pointer_flags _ Hq)). change (NS_CMPRSFLGS =? 0) with false. change (NS_CMPRSFLGS =? NS_CMPRSFLGS) with true. cbn iota.
    rewrite (holds_rd m (off + 1) (t mod 256) []) by (by eapply holds_tail). cbn [mbind outcome_bind].
    rewrite (proj1 (pointer_target t Ht)). apply IH; [done..|lia].
Qed.

(** A pointer that names may be compressed with: a name that is not the root is
    there, which can be read without looking at more than the message. *)
Definition good_pointer (m : list Z) (p : Z) : Prop :=
  0 <= p < 16384 /\ exists ls c e, resolves m p ls c e /\ ls <> [] /\ c < Zlen m.

Lemma good_pointer_app m y p : good_pointer m p -> good_pointer (m ++ y) p.
Proof. intros (Hp & ls & c & e & H & Hn & Hc). split; [done|]. exists ls, c, e. rewrite Zlen_app. pose proof (Zlen_nonneg y). split; [by apply resolves_app|]. split; [done|lia]. Qed.

Lemma dn_find_ok m0 T fuel domain dn ls' ptrs : Forall label_ok ls' -> ls' <> [] -> holds domain dn (wire ls') -> Zlen m0 <= Z.of_nat fuel ->
  Forall (good_pointer m0) ptrs ->
  exists r, dn_find fuel domain dn (m0 ++ T) ptrs = Ret r /\
    match r with None => True | Some p => 0 <= p < 16384 /\ exists ls c e, resolves m0 p ls c e /\ ls <> [] /\ c < Zlen m0 /\ lower ls = lower ls' end.
Proof.
  intros Hls Hne Hd Hf. induction 1 as [|p ptrs (Hp & ls & c & e & H & Hn & Hc) _ IH]; [by exists None|]. cbn [dn_find].
  rewrite (dn_compare_ok _ _ _ _ _ (resolves_app _ T _ _ _ _ H) fuel domain dn ls') by (done || lia). cbn [mbind outcome_bind].
  case_bool_decide as E; [|done]. exists (Some p). split; [done|]. split; [done|]. by exists ls, c, e.
Qed.

Lemma legal_loop_ok ls : forall fuel src srcp l, Forall label_ok ls -> holds src srcp (wire ls) -> l + Zlen (wire ls) <= NS_MAXCDNAME -> (length ls < fuel)%nat ->
  legal_loop fuel src srcp l = Ret true.
Proof.
  induction ls as [|x ls IH]; intros [|fuel] src srcp l Hls Hs Hl Hf; try (cbn in Hf; lia); cbn [legal_loop].
  - rewrite (holds_rd src srcp 0 []) by done. cbn [mbind outcome_bind]. change (compressed 0) with false. cbn iota. change (Zlen (wire [])) with 1 in Hl. destruct (Z.ltb_spec NS_MAXCDNAME (l + 0 + 1)); [lia|done].
  - inversion_clear Hls as [|? ? [Hb Hx] Hls']. rewrite wire_cons in *. rewrite Zlen_app, label_octets_length in Hl. apply holds_split in Hs as [Hs1 Hs2]. rewrite label_octets_length in Hs2.
    rewrite (holds_rd _ _ _ _ Hs1). cbn [mbind outcome_bind]. rewrite compressed_low by lia. pose proof (Zlen_nonneg (wire ls)).
    destruct (Z.ltb_spec NS_MAXCDNAME (l + Zlen x + 1)); [lia|]. destruct (Z.eqb_spec (Zlen x) 0); [lia|].
    apply IH; [done|by rewrite <- Z.add_assoc|lia|cbn in Hf; lia].
Qed.

Lemma pointer_first t : 0 <= t < 16384 -> u8 (Z.lor (Z.shiftr t 8) NS_CMPRSFLGS) = 192 + t / 256.
Proof.
  intros H. rewrite Z.shiftr_div_pow2 by lia. change (2 ^ 8) with 256.
  assert (0 <= t / 256 < 64) as Hq by (split; [apply Z.div_pos; lia|apply Z.div_lt_upper_bound; lia]).
  assert (forall q, is_byte q -> (negb (q <? 64) || (u8 (Z.lor q NS_CMPRSFLGS) =? 192 + q)) = true) as K by (apply byte_forall; by vm_compute).
  specialize (K (t / 256) ltac:(unfold is_byte; lia)). destruct (Z.ltb_spec (t / 256) 64); [|lia]. by apply Z.eqb_eq in K.
Qed.

(** The octets written behind a prefix of the buffer. *)
Lemma wr_after (A T : list Z) v : 1 <= Zlen T -> wr (A ++ T) (Zlen A) v = Ret ((A ++ [v]) ++ drop 1 T).
Proof.
  intros H. pose proof (Zlen_nonneg A). rewrite wr_splice by (rewrite Zlen_app; lia). by rewrite splice_over, <- app_assoc.
Qed.

Lemma memcpy_after (A T x : list Z) : Zlen x <= Zlen T -> memcpy (A ++ T) (Zlen A) x = Ret ((A ++ x) ++ drop (length x) T).
Proof.
  intros H. pose proof (Zlen_nonneg A). rewrite memcpy_splice by (rewrite ?Zlen_app; lia). by rewrite splice_over, <- app_assoc.
Qed.

Lemma wire_pos ls : 1 <= Zlen (wire ls).
Proof. unfold wire. rewrite Zlen_snoc. pose proof (Zlen_nonneg (labels_octets ls)). lia. Qed.

Lemma holds_end (A x : list Z) : holds (A ++ x) (Zlen A) x.
Proof. exists A, []. by rewrite app_nil_r. Qed.

(** The name [y] that has been packed behind [A], after which the pointers are
    [saved]: it is read as [ls] up to case, not looking at more than [limit]
    octets. *)
Definition packed (A y : list Z) (ls : list (list Z)) (limit : Z) : Prop :=
  exists ls2 c, resolves (A ++ y) (Zlen A) ls2 c (Zlen A + Zlen y) /\ lower ls2 = lower ls /\ c < limit + Zlen y.

Lemma pack_label A y l ls limit : label_ok l -> packed (A ++ label_octets l) y ls limit -> packed A (label_octets l ++ y) (l :: ls) limit.
Proof.
  intros Hl (ls2 & c & H & E & Hc). exists (l :: ls2), (c + Zlen l + 1). rewrite <- app_assoc, Zlen_app, label_octets_length in H.
  rewrite Zlen_app, label_octets_length, Z.add_assoc. split; [|split; [|lia]].
  - apply Res_label; [done|..].
    + rewrite app_assoc. apply holds_app, holds_end.
    + by rewrite <- Z.add_assoc.
  - unfold lower in *. cbn [map]. by rewrite E.
Qed.

Lemma pack_root A limit : 0 <= limit -> packed A [0] [] limit.
Proof. intros H. exists [], 0. split; [constructor; apply holds_end|]. split; [done|]. change (Zlen [0]) with 1. lia. Qed.

Lemma pack_pointer m0 A0 t ls ls2 c e : 0 <= t < 16384 -> resolves m0 t ls2 c e -> ls2 <> [] -> c < Zlen m0 -> lower ls2 = lower ls ->
  packed (m0 ++ A0) (pointer t) ls (Zlen m0).
Proof.
  intros Ht H Hn Hc E. exists ls2, (c + 2). split; [|split; [done|change (Zlen (pointer t)) with 2; lia]]. change (Zlen (pointer t)) with 2.
  eapply Res_pointer; [done|apply holds_end|done|]. rewrite <- app_assoc. by apply resolves_app.
Qed.

Lemma pack_good A y ls limit : packed A y ls limit -> ls <> [] -> limit <= Zlen A < 16384 -> good_pointer (A ++ y) (Zlen A).
Proof.
  intros (ls2 & c & H & E & Hc) Hn Hl. pose proof (Zlen_nonneg A). split; [lia|]. exists ls2, c, (Zlen A + Zlen y). rewrite Zlen_app. split; [done|]. split; [|lia].
  intros ->. by destruct ls.
Qed.

Lemma pack_loop_ok m0 ptrs last src eob ls : Forall (good_pointer m0) ptrs -> forall fuel srcp A0 T dst saved,
  Forall label_ok ls -> holds src srcp (wire ls) -> Zlen (m0 ++ A0) + Zlen (wire ls) < eob -> eob <= Zlen (m0 ++ A0 ++ T) -> (length ls < fuel)%nat ->
  exists y saved', pack_loop fuel src srcp (m0 ++ A0 ++ T) dst (Zlen (m0 ++ A0)) eob (Some ptrs) saved last = Ret (m0 ++ (A0 ++ y) ++ drop (length y) T, saved ++ saved', Some (Zlen (m0 ++ A0) + Zlen y - dst)) /\
    packed (m0 ++ A0) y ls (Zlen m0) /\ Zlen y <= Zlen (wire ls) /\ Forall (good_pointer (m0 ++ A0 ++ y)) saved'.
Proof.
  intros Hptrs. induction ls as [|l ls IH]; intros [|fuel] srcp A0 T dst saved Hls Hs He HT Hf; try (cbn in Hf; lia); cbn [pack_loop]; rewrite app_assoc, Zlen_app in HT.
  - change (Zlen (wire [])) with 1 in *. rewrite (holds_rd src srcp 0 []) by done. cbn [mbind outcome_bind]. change (0 =? 0) with true. cbn iota. cbn [mbind outcome_bind]. cbn zeta.
    change (compressed 0) with false. cbn iota. destruct (Z.leb_spec eob (Zlen (m0 ++ A0) + 1 + 0)); [lia|].
    change (0 + 1) with (Zlen [0]). rewrite (holds_memread src srcp [0]) by done. cbn [mbind outcome_bind]. rewrite app_assoc, memcpy_after by (change (Zlen [0]) with 1; lia). cbn [mbind outcome_bind].
    destruct (Z.ltb_spec eob (Zlen (m0 ++ A0) + 1)); [lia|]. exists [0], []. change (Zlen [0]) with 1. rewrite app_nil_r. change (length [0]) with 1%nat.
    split; [destruct last; by rewrite <- !app_assoc|]. split; [apply pack_root, Zlen_nonneg|]. split; [lia|constructor].
  - inversion Hls as [|? ? Hl Hls']; subst. pose proof Hl as [Hb Hlen]. pose proof Hs as Hs0. rewrite wire_cons in Hs. apply holds_split in Hs as [Hs1 Hs2]. rewrite label_octets_length in Hs2. pose proof (wire_pos ls).
    assert (Zlen (wire (l :: ls)) = Zlen l + 1 + Zlen (wire ls)) as Ew by (by rewrite wire_cons, Zlen_app, label_octets_length). rewrite Ew in *. rewrite (holds_rd _ _ _ _ Hs1). cbn [mbind outcome_bind]. destruct (Z.eqb_spec (Zlen l) 0); [lia|].
    destruct (dn_find_ok m0 (A0 ++ T) (length (m0 ++ A0 ++ T) + length src) src srcp (l :: ls) ptrs) as (r & -> & Hr); [done|done|done|unfold Zlen; rewrite !length_app; lia|done|]. cbn [mbind outcome_bind].
    destruct r as [t|].
    + destruct Hr as (Ht & ls2 & c & e & H2 & Hn & Hc & E). destruct (Z.leb_spec eob (Zlen (m0 ++ A0) + 1)); [lia|].
      rewrite pointer_first by done. rewrite app_assoc, wr_after by lia. cbn [mbind outcome_bind]. replace (Zlen (m0 ++ A0) + 1) with (Zlen ((m0 ++ A0) ++ [192 + t / 256])) by apply Zlen_snoc.
      rewrite wr_after by (unfold Zlen in *; rewrite length_drop; lia). cbn [mbind outcome_bind]. rewrite drop_drop. exists (pointer t), []. rewrite app_nil_r.
      change (Zlen (pointer t)) with 2. split; [unfold pointer; by rewrite <- !app_assoc|]. split; [by eapply pack_pointer|]. split; [lia|constructor].
    + clear Hr. rewrite compressed_low by lia. cbn zeta. destruct (Z.leb_spec eob (Zlen (m0 ++ A0) + 1 + Zlen l)); [lia|].
      replace (Zlen l + 1) with (Zlen (label_octets l)) by apply label_octets_length. rewrite (holds_memread _ _ _ Hs1). cbn [mbind outcome_bind].
      rewrite app_assoc, memcpy_after by (rewrite label_octets_length; lia). cbn [mbind outcome_bind]. 
      set (saved1 := match last with Some _ => _ | None => _ end). assert (exists s, saved1 = saved ++ s /\ (s = [] \/ (s = [Zlen (m0 ++ A0)] /\ Zlen (m0 ++ A0) < 16384))) as (s & -> & Hs).
      { subst saved1. destruct last; [|exists []; rewrite app_nil_r; by eauto]. destruct (Z.ltb_spec (Zlen (m0 ++ A0)) 16384); rewrite ?andb_false_r, ?andb_true_r; [|exists []; rewrite app_nil_r; by eauto].
        destruct (_ && _); [exists [Zlen (m0 ++ A0)]; by eauto|exists []; rewrite app_nil_r; by eauto]. }
      destruct (IH fuel (srcp + (Zlen l + 1)) (A0 ++ label_octets l) (drop (length (label_octets l)) T) dst (saved ++ s)) as (y & s' & E & Hp & Hy & Hg);
        [done..|rewrite app_assoc, Zlen_app, label_octets_length; lia| |cbn in Hf; lia|].
      { rewrite !app_assoc. unfold Zlen in *. rewrite (length_app _ (drop _ _)), length_drop, length_app. pose proof (label_octets_length l). unfold Zlen in *. lia. }
      exists (label_octets l ++ y), (s ++ s'). rewrite app_assoc in E, Hp.
      rewrite <- !app_assoc in *. rewrite drop_drop in E. replace (Zlen (m0 ++ A0) + Zlen l + 1) with (Zlen (m0 ++ A0 ++ label_octets l)) by (rewrite !Zlen_app, label_octets_length; lia).
      replace (Zlen (m0 ++ A0) + Zlen (label_octets l)) with (Zlen (m0 ++ A0 ++ label_octets l)) by (rewrite !Zlen_app; lia).
      replace (srcp + Zlen (label_octets l)) with (srcp + (Zlen l + 1)) by (rewrite label_octets_length; lia). replace (srcp + Zlen l + 1) with (srcp + (Zlen l + 1)) by lia.
      rewrite E, length_app. split; [by rewrite !Zlen_app; do 3 f_equal; lia|]. rewrite Zlen_app, label_octets_length.
      rewrite (app_assoc m0 A0) in Hp. apply pack_label in Hp; [|done]. split; [done|]. split; [lia|]. apply Forall_app. split; [|done].
      destruct Hs as [->|[-> Hlt]]; [constructor|]. constructor; [|constructor]. rewrite app_assoc. apply (pack_good _ _ _ _ Hp); [done|]. rewrite Zlen_app in *. pose proof (Zlen_nonneg A0). lia.
Qed.

(** Packing a name behind a message: it takes at most the octets of its wire form,
    it is read back as the same name up to case, and the pointers stay good. *)
Lemma pack_ok ls R m0 T ptrs last dstsiz :
  Forall label_ok ls -> Zlen (wire ls) <= NS_MAXCDNAME -> Zlen (wire ls) < dstsiz <= Zlen T -> Forall (good_pointer m0) ptrs ->
  exists y ptrs', MRns_name_pack (wire ls ++ R) (m0 ++ T) (Zlen m0) dstsiz (Some ptrs) last = Ret (m0 ++ y ++ drop (length y) T, ptrs ++ ptrs', Some (Zlen y)) /\
    packed m0 y ls (Zlen m0) /\ Zlen y <= Zlen (wire ls) /\ Forall (good_pointer (m0 ++ y)) (ptrs ++ ptrs').
Proof.
  intros Hls Hw Hd Hp. unfold MRns_name_pack. assert (holds (wire ls ++ R) 0 (wire ls)) as Hh by (by exists [], R).
  assert (length ls < length (wire ls ++ R))%nat as Hf.
  { rewrite length_app. enough (length ls < length (wire ls))%nat by lia. clear. unfold wire. rewrite length_app. cbn [length]. induction ls as [|l ls IH]; [cbn; lia|].
    rewrite labels_octets_cons, length_app. unfold label_octets at 1. cbn [length]. lia. }
  rewrite (legal_loop_ok ls) by (done || lia). cbn [mbind outcome_bind negb]. pose proof (Zlen_nonneg m0).
  destruct (pack_loop_ok m0 ptrs last (wire ls ++ R) (Zlen m0 + dstsiz) ls Hp (length (wire ls ++ R)) 0 [] T (Zlen m0) ptrs) as (y & s & E & Hy & Hl & Hg);
    [done|done|rewrite app_nil_r; lia|cbn [app]; rewrite Zlen_app; lia|done|]. rewrite app_nil_r in *. cbn [app] in *. change (default [] (Some ptrs)) with ptrs. rewrite E. exists y, s.
  split; [by replace (Zlen m0 + Zlen y - Zlen m0) with (Zlen y) by lia|]. split; [done|]. split; [done|]. apply Forall_app. split; [|done]. eapply Forall_impl; [|exact Hp]. intros p. apply good_pointer_app.
Qed.

(** ** Lists of names *)

(** The text of a list. *)
Definition list_text (names : list (list (list Z))) : list Z :=
  match names with [] => [] | n :: names => name_text n ++ concat (map (fun n => comma :: name_text n) names) end.

Definition name_ok (n : list (list Z)) : Prop :=
  Forall label_ok n /\ Zlen (wire n) <= NS_MAXCDNAME /\ Zlen (name_text n) < NS_MAXCDNAME /\ Forall (Forall (fun c => c <> comma)) n.

(** The names that are in the message from [off] to [e]. *)
Fixpoint names_at (m : list Z) (off : Z) (names : list (list (list Z))) (e : Z) : Prop :=
  match names with
  | [] => off = e
  | n :: names => exists c mid, resolves m off n c mid /\ c < Zlen m /\ names_at m mid names e
  end.

Lemma names_at_app m y names : forall off e, names_at m off names e -> names_at (m ++ y) off names e.
Proof.
  induction names as [|n names IH]; intros off e H; [done|]. destruct H as (c & mid & H & Hc & Hn). exists c, mid. rewrite Zlen_app. pose proof (Zlen_nonneg y).
  split; [by apply resolves_app|]. split; [lia|by apply IH].
Qed.

Lemma char_text_comma c : is_byte c -> c <> comma -> Forall (fun c => c <> comma) (char_text c).
Proof.
  intros Hc Hn. assert (forall c, is_byte c -> (c =? comma) || forallb (fun c => negb (c =? comma)) (char_text c) = true) as K by (apply byte_forall; by vm_compute).
  specialize (K c Hc). rewrite (proj2 (Z.eqb_neq c comma)) in K by done. cbn [orb] in K. rewrite forallb_forall in K. apply Forall_forall. intros x Hx. specialize (K x).
  specialize (K Hx). apply negb_true_iff, Z.eqb_neq in K. done.
Qed.

Lemma label_text_comma l : is_bytes l -> Forall (fun c => c <> comma) l -> Forall (fun c => c <> comma) (label_text l).
Proof.
  intros Hb. induction Hb as [|c l Hc _ IH]; intros Hn; [constructor|]. inversion_clear Hn. rewrite label_text_cons. apply Forall_app. split; [by apply char_text_comma|by apply IH].
Qed.

Lemma name_text_comma n : Forall label_ok n -> Forall (Forall (fun c => c <> comma)) n -> Forall (fun c => c <> comma) (name_text n).
Proof.
  intros H Hn. destruct H as [|l ls [Hb _] H]; [by repeat constructor|]. inversion_clear Hn as [|? ? Hl Hls]. cbn [name_text]. apply Forall_app. split; [by apply label_text_comma|].
  induction H as [|l2 ls [Hb2 _] _ IH]; [constructor|]. inversion_clear Hls. change (dotted (l2 :: ls)) with (dot :: label_text l2 ++ dotted ls).
  constructor; [done|]. apply Forall_app. split; [by apply label_text_comma|by apply IH].
Qed.

Lemma strchr_found (t r : list Z) : Forall (fun c => c <> 0) t -> Forall (fun c => c <> comma) t -> strchr_at (t ++ comma :: r) comma = Ret (Some (Zlen t)).
Proof.
  induction 1 as [|c t Hc _ IH]; intros Hn; [done|]. inversion_clear Hn. cbn [app strchr_at]. rewrite (proj2 (Z.eqb_neq c 0)), (proj2 (Z.eqb_neq c comma)), IH by done. cbn [mbind outcome_bind option_map]. by rewrite Zlen_cons.
Qed.

Lemma strchr_none (t r : list Z) : Forall (fun c => c <> 0) t -> Forall (fun c => c <> comma) t -> strchr_at (t ++ 0 :: r) comma = Ret None.
Proof.
  induction 1 as [|c t Hc _ IH]; intros Hn; [done|]. inversion_clear Hn. cbn [app strchr_at]. rewrite (proj2 (Z.eqb_neq c 0)), (proj2 (Z.eqb_neq c comma)), IH by done. done.
Qed.

(** The length of the text up to the next comma, or to the NUL. *)
Lemma next_name n (r : list Z) stop : name_ok n -> stop = comma \/ stop = 0 ->
  (c ← strchr_at (name_text n ++ stop :: r) comma; match c with Some k => Ret k | None => strlen (name_text n ++ stop :: r) end) = Ret (Zlen (name_text n)).
Proof.
  intros (Hl & _ & _ & Hc) Hs. pose proof (name_text_nonzero n Hl). pose proof (name_text_comma n Hl Hc). destruct Hs as [->| ->].
  - by rewrite strchr_found.
  - rewrite strchr_none by done. by apply strlen_text.
Qed.

(** Compressing one name of the list. *)
Lemma compress_ok n m0 T ptrs last dstsiz :
  name_ok n -> Zlen (wire n) < dstsiz <= Zlen T -> Forall (good_pointer m0) ptrs ->
  exists y ptrs', MRns_name_compress (name_text n) (m0 ++ T) (Zlen m0) dstsiz (Some ptrs) last = Ret (m0 ++ y ++ drop (length y) T, ptrs ++ ptrs', Some (Zlen y)) /\
    packed m0 y n (Zlen m0) /\ Zlen y <= Zlen (wire n) /\ Forall (good_pointer (m0 ++ y)) (ptrs ++ ptrs').
Proof.
  intros (Hl & Hw & _ & _) Hd Hp. unfold MRns_name_compress. rewrite (pton_ok n) by (done || (unfold NS_MAXCDNAME in *; cbn; lia)). cbn [mbind outcome_bind].
  unfold splice. cbn [Z.to_nat take app]. by apply pack_ok.
Qed.

Lemma list_text_cons n n2 names : list_text (n :: n2 :: names) = name_text n ++ comma :: list_text (n2 :: names).
Proof. done. Qed.

Lemma list_text_one n : list_text [n] = name_text n.
Proof. apply app_nil_r. Qed.

Lemma name_text_pos n : Forall label_ok n -> 1 <= Zlen (name_text n).
Proof.
  intros [|l ls Hl _]; [done|]. cbn [name_text]. destruct (label_text_start l Hl) as (c & t & -> & _). cbn [app]. rewrite Zlen_cons. pose proof (Zlen_nonneg (t ++ dotted ls)). lia.
Qed.

(** One turn of the loop of [MRns_name_compress_list]. *)
Lemma compress_step fuel (pre r m0 T : list Z) n ptrs stop buf buflen :
  name_ok n -> stop = comma \/ stop = 0 -> buf = pre ++ name_text n ++ stop :: r -> Zlen pre < buflen ->
  Zlen (wire n) < Zlen T -> Forall (good_pointer m0) ptrs ->
  exists y ptrs', compress_loop (S fuel) buf buflen (Zlen pre) (m0 ++ T) (Zlen m0 + Zlen T) (Zlen m0) ptrs =
      compress_loop fuel buf buflen (Zlen pre + Zlen (name_text n) + 1) ((m0 ++ y) ++ drop (length y) T) (Zlen m0 + Zlen T) (Zlen (m0 ++ y)) ptrs' /\
    packed m0 y n (Zlen m0) /\ Zlen y <= Zlen (wire n) /\ Forall (good_pointer (m0 ++ y)) ptrs'.
Proof.
  intros Hn Hs -> Hb Hw Hp. cbn [compress_loop]. destruct (Z.leb_spec buflen (Zlen pre)); [lia|]. cbn zeta. rewrite Zlen_to_nat, drop_app_length.
  pose proof (next_name n r stop Hn Hs) as E. destruct (strchr_at _ _) as [c| |] eqn:Ec; [|done..]. cbn [mbind outcome_bind] in E |- *. rewrite E. cbn [mbind outcome_bind].
  destruct (Z.ltb_spec (NS_MAXCDNAME - 1) (Zlen (name_text n))); [destruct Hn as (_ & _ & ? & _); lia|].
  rewrite memread_mid by done. cbn [mbind outcome_bind]. replace (Zlen m0 + Zlen T - Zlen m0) with (Zlen T) by lia.
  destruct (compress_ok n m0 T ptrs (Some 255) (Zlen T)) as (y & s & -> & Hy & Hl & Hg); [done|lia|done|]. cbn [mbind outcome_bind]. exists y, (ptrs ++ s). rewrite <- app_assoc, Zlen_app. done.
Qed.

Definition wires (names : list (list (list Z))) : Z := Zlen (concat (map wire names)).

Lemma wires_cons n names : wires (n :: names) = Zlen (wire n) + wires names.
Proof. apply Zlen_app. Qed.

Lemma packed_name m0 y n : packed m0 y n (Zlen m0) -> exists n2 c, resolves (m0 ++ y) (Zlen m0) n2 c (Zlen (m0 ++ y)) /\ lower n2 = lower n /\ c < Zlen (m0 ++ y).
Proof. intros (n2 & c & H). exists n2, c. by rewrite Zlen_app. Qed.

Lemma compress_loop_ok names : forall n pre r m0 T ptrs fuel,
  Forall name_ok (n :: names) -> wires (n :: names) < Zlen T -> Forall (good_pointer m0) ptrs -> (length names < fuel)%nat ->
  exists y names2, compress_loop fuel (pre ++ list_text (n :: names) ++ 0 :: r) (Zlen pre + Zlen (list_text (n :: names))) (Zlen pre) (m0 ++ T) (Zlen m0 + Zlen T) (Zlen m0) ptrs =
      Ret ((m0 ++ y) ++ drop (length y) T, Some (Zlen (m0 ++ y))) /\
    names_at (m0 ++ y) (Zlen m0) names2 (Zlen (m0 ++ y)) /\ map lower names2 = map lower (n :: names) /\ Zlen y <= wires (n :: names).
Proof.
  induction names as [|n2 names IH]; intros n pre r m0 T ptrs [|fuel] Hn Hw Hp Hf; try (cbn in Hf; lia); inversion_clear Hn as [|? ? Hn1 Hns]; rewrite wires_cons in Hw.
  - rewrite list_text_one, wires_cons. change (wires []) with 0 in *. pose proof (name_text_pos n (proj1 Hn1)).
    destruct (compress_step fuel pre r m0 T n ptrs 0 _ (Zlen pre + Zlen (name_text n)) Hn1 (or_intror eq_refl) eq_refl) as (y & s & -> & Hy & Hl & _); [lia..|done|].
    destruct (packed_name _ _ _ Hy) as (n' & c & Hr & El & Hc). exists y, [n']. split; [|split; [by exists c, (Zlen (m0 ++ y))|split; [cbn [map]; by rewrite El|lia]]].
    destruct fuel; cbn [compress_loop]; destruct (Z.leb_spec (Zlen pre + Zlen (name_text n)) (Zlen pre + Zlen (name_text n) + 1)); [done|lia|done|lia].
  - rewrite list_text_cons in *. pose proof (Zlen_nonneg (list_text (n2 :: names))). pose proof (Zlen_nonneg (name_text n)). assert (0 <= wires (n2 :: names)) by apply Zlen_nonneg.
    destruct (compress_step fuel pre (list_text (n2 :: names) ++ 0 :: r) m0 T n ptrs comma (pre ++ (name_text n ++ comma :: list_text (n2 :: names)) ++ 0 :: r)
      (Zlen pre + Zlen (name_text n ++ comma :: list_text (n2 :: names))) Hn1 (or_introl eq_refl)) as (y & s & -> & Hy & Hl & Hg);
      [by rewrite <- app_assoc|rewrite Zlen_app, Zlen_cons; lia|lia|done|].
    assert (Zlen (drop (length y) T) = Zlen T - Zlen y) as ET by (unfold Zlen in *; rewrite length_drop; lia).
    destruct (IH n2 (pre ++ name_text n ++ [comma]) r (m0 ++ y) (drop (length y) T) s fuel) as (y2 & names2 & E & Ha & Em & Hl2); [done|lia|done|cbn in Hf; lia|].
    replace (Zlen (m0 ++ y) + Zlen (drop (length y) T)) with (Zlen m0 + Zlen T) in E by (rewrite Zlen_app; lia).
    replace (Zlen (pre ++ name_text n ++ [comma])) with (Zlen pre + Zlen (name_text n) + 1) in E by (rewrite !Zlen_app; change (Zlen [comma]) with 1; lia).
    rewrite <- !app_assoc in E. cbn [app] in E. rewrite <- app_assoc. cbn [app]. rewrite Zlen_app, Zlen_cons.
    replace (Zlen pre + (Zlen (name_text n) + (Zlen (list_text (n2 :: names)) + 1))) with (Zlen pre + Zlen (name_text n) + 1 + Zlen (list_text (n2 :: names))) by lia.
    rewrite <- app_assoc, E, drop_drop. destruct (packed_name _ _ _ Hy) as (n' & c & Hr & El & Hc). exists (y ++ y2), (n' :: names2). rewrite length_app, <- !app_assoc in *. split; [done|].
    split; [|split; [cbn [map] in *; by rewrite El, Em|rewrite wires_cons, Zlen_app; lia]]. exists c, (Zlen (m0 ++ y)). rewrite app_assoc in Ha |- *. split; [by apply resolves_app|]. split; [|done]. rewrite (Zlen_app (m0 ++ y)). pose proof (Zlen_nonneg y2). lia.
Qed.

(** Case does not change the length of a text. *)
Lemma char_text_case c c' : is_byte c -> is_byte c' -> mklower c = mklower c' -> length (char_text c) = length (char_text c').
Proof.
  assert (forall c, is_byte c -> (length (char_text c) =? length (char_text (mklower c)))%nat = true) as K by (apply byte_forall; by vm_compute).
  intros H H' E. rewrite (proj1 (Nat.eqb_eq _ _) (K c H)), (proj1 (Nat.eqb_eq _ _) (K c' H')). by rewrite E.
Qed.

Lemma label_text_case l : forall l', is_bytes l -> is_bytes l' -> map mklower l = map mklower l' -> length (label_text l) = length (label_text l').
Proof.
  induction l as [|c l IH]; intros [|c' l'] H H' E; try done. inversion_clear H. inversion_clear H'. injection E as E1 E2. rewrite !label_text_cons, !length_app, (char_text_case c c'), (IH l') by done. done.
Qed.

Lemma dotted_case ls : forall ls', Forall label_ok ls -> Forall label_ok ls' -> lower ls = lower ls' -> length (dotted ls) = length (dotted ls').
Proof.
  induction ls as [|l ls IH]; intros [|l' ls'] H H' E; try done. inversion_clear H as [|? ? [Hl _] Hls]. inversion_clear H' as [|? ? [Hl' _] Hls']. injection E as E1 E2.
  change (length (dot :: label_text l ++ dotted ls) = length (dot :: label_text l' ++ dotted ls')). cbn [length]. rewrite !length_app, (label_text_case l l'), (IH ls') by done. done.
Qed.

Lemma name_text_case n n' : Forall label_ok n -> Forall label_ok n' -> lower n = lower n' -> Zlen (name_text n) = Zlen (name_text n').
Proof.
  intros H H' E. unfold Zlen. f_equal. destruct n as [|l ls], n' as [|l' ls']; try done. apply dotted_case in E; [|done..].
  change (length (dot :: label_text l ++ dotted ls) = length (dot :: label_text l' ++ dotted ls')) in E. by injection E.
Qed.

Lemma label_octets_case l l' : map mklower l = map mklower l' -> Zlen l = Zlen l'.
Proof. intros E%(f_equal length). rewrite !length_map in E. unfold Zlen. by rewrite E. Qed.

Lemma wire_case n : forall n', lower n = lower n' -> Zlen (wire n) = Zlen (wire n').
Proof.
  induction n as [|l n IH]; intros [|l' n'] E; try done. injection E as E1 E2. rewrite !wire_cons, !Zlen_app, !label_octets_length, (label_octets_case l l'), (IH n') by done. done.
Qed.

Lemma list_text_case names : forall names', Forall (Forall label_ok) names -> Forall (Forall label_ok) names' -> map lower names = map lower names' -> Zlen (list_text names) = Zlen (list_text names').
Proof.
  induction names as [|n [|n2 names] IH]; intros [|n' [|n2' names']] H H' E; try done; inversion_clear H as [|? ? Hn Hns]; inversion_clear H' as [|? ? Hn' Hns'].
  - injection E as E1. rewrite !list_text_one. by apply name_text_case.
  - injection E as E1 E2. rewrite !list_text_cons, !Zlen_app, !Zlen_cons, (name_text_case n n'), (IH (n2' :: names')) by (done || by cbn [map]; f_equal). done.
Qed.

Lemma resolves_next m off n c e : resolves m off n c e -> off + 1 <= e <= Zlen m.
Proof. intros H%resolves_range. lia. Qed.

(** Reading one name of a message as text. *)
Lemma uncompress_ok m off n c e dst dstsiz :
  resolves m off n c e -> c < Zlen m -> Zlen (wire n) <= NS_MAXCDNAME -> Zlen (name_text n) + 1 <= dstsiz <= Zlen dst ->
  MRns_name_uncompress m off dst dstsiz = Ret (Some (splice dst 0 (name_text n ++ [0]), e - off)).
Proof.
  intros H Hc Hw Hd. unfold MRns_name_uncompress, MRns_name_unpack. pose proof (resolves_range _ _ _ _ _ H) as (Ho & _ & Hc0).
  destruct (Z.ltb_spec off 0); [lia|]. destruct (Z.leb_spec (Zlen m) off); [lia|]. cbn [orb].
  pose proof (unpack_resolves _ _ _ _ _ H (length m + Z.to_nat NS_MAXCDNAME + 1) off (replicate (Z.to_nat NS_MAXCDNAME) 0) [] NS_MAXCDNAME None 0) as E.
  rewrite splice_nil in E. change (Zlen (@nil Z)) with 0 in E. rewrite E; [|cbn [app]; change (Zlen (replicate (Z.to_nat NS_MAXCDNAME) 0)) with NS_MAXCDNAME; lia|lia|lia|unfold Zlen in *; lia]. clear E. cbn [mbind outcome_bind app default].
  assert (exists R, splice (replicate (Z.to_nat NS_MAXCDNAME) 0) 0 (wire n) = wire n ++ R) as [R ->] by (unfold splice; by eexists).
  rewrite ntop_ok; [done|by eapply resolves_labels|done].
Qed.

(** One turn of the loop of [MRns_name_uncompress_list], after the comma. *)
Lemma uncompress_text m off n c e (x T : list Z) rem :
  resolves m off n c e -> c < Zlen m -> Zlen (wire n) <= NS_MAXCDNAME -> Zlen (name_text n) + 1 <= rem <= Zlen T ->
  exists T', MRns_name_uncompress m off (drop (Z.to_nat (Zlen x)) (x ++ T)) rem = Ret (Some (name_text n ++ T', e - off)) /\
    strlen (name_text n ++ T') = Ret (Zlen (name_text n)) /\ Zlen T' = Zlen T - Zlen (name_text n).
Proof.
  intros H Hc Hw Hd. rewrite Zlen_to_nat, drop_app_length, (uncompress_ok _ _ _ _ _ _ _ H) by done. exists (0 :: drop (length (name_text n ++ [0])) T). unfold splice. cbn [Z.to_nat take app].
  rewrite <- app_assoc. split; [done|]. split; [apply strlen_text, name_text_nonzero; by eapply resolves_labels|].
  rewrite Zlen_cons. unfold Zlen in *. rewrite length_drop, length_app. cbn [length]. lia.
Qed.

Definition name_fits (n : list (list Z)) : Prop := Zlen (wire n) <= NS_MAXCDNAME.

(** The names after the first one: [x] is the text so far. *)
Lemma uncompress_rest m names : forall fuel off (x T : list Z) rem,
  names_at m off names (Zlen m) -> Forall name_fits names ->
  0 <= off -> Zlen m - off <= Z.of_nat fuel -> 1 <= Zlen T -> Zlen (concat (map (fun n => comma :: name_text n) names)) + 1 <= rem <= Zlen T ->
  exists T', uncompress_loop fuel m off (x ++ T) (Zlen x) rem false = Ret (Some ((x ++ concat (map (fun n => comma :: name_text n) names)) ++ T', Zlen (x ++ concat (map (fun n => comma :: name_text n) names)))) /\
    1 <= Zlen T'.
Proof.
  induction names as [|n names IH]; intros fuel off x T rem Ha Hw Ho Hf HT Hr.
  - cbn [names_at] in Ha. subst off. exists T. cbn [map concat]. rewrite app_nil_r. destruct fuel; cbn [uncompress_loop]; (destruct (Z.leb_spec (Zlen m) (Zlen m)); [done|lia]).
  - destruct Ha as (c & e & H & Hc & Ha). inversion_clear Hw as [|? ? Hn Hw']. pose proof (resolves_next _ _ _ _ _ H). cbn [map concat app] in *. rewrite Zlen_cons, Zlen_app in Hr. pose proof (Zlen_nonneg x).
    pose proof (Zlen_nonneg (name_text n)). pose proof (Zlen_nonneg (concat (map (fun n => comma :: name_text n) names))).
    destruct fuel as [|fuel]; [lia|]. cbn [uncompress_loop]. destruct (Z.leb_spec (Zlen m) off); [lia|]. destruct (Z.leb_spec rem 0); [lia|].
    rewrite wr_after by done. cbn [mbind outcome_bind]. replace (Zlen x + 1) with (Zlen (x ++ [comma])) by apply Zlen_snoc. pose proof (name_text_pos n (resolves_labels _ _ _ _ _ H)).
    rewrite wr_after by (unfold Zlen in *; rewrite length_drop; lia). cbn [mbind outcome_bind]. rewrite drop_drop, <- app_assoc.
    destruct (uncompress_text m off n c e (x ++ [comma]) ([0] ++ drop (1 + 1) T) (rem - 1)) as (T1 & E1 & E2 & E3); [done|done|done|rewrite Zlen_app; change (Zlen [0]) with 1; unfold Zlen in *; rewrite length_drop; lia|].
    rewrite E1. cbn [mbind outcome_bind]. rewrite E2. cbn [mbind outcome_bind]. rewrite Zlen_to_nat, take_app_length, app_assoc, <- (Zlen_app (x ++ [comma])). replace (off + (e - off)) with e by lia.
    rewrite Zlen_app in E3. change (Zlen [0]) with 1 in E3. assert (Zlen (drop (1 + 1) T) = Zlen T - 2) as E4 by (unfold Zlen in *; rewrite length_drop; lia).
    destruct (IH fuel e ((x ++ [comma]) ++ name_text n) T1 (rem - 1 - Zlen (name_text n))) as (T' & E & HT'); [done|done|lia|lia|lia|lia|]. exists T'. rewrite E. split; [|done]. rewrite <- !app_assoc. cbn [app]. by rewrite <- !app_assoc.
Qed.

Lemma names_at_labels m names : forall off e, names_at m off names e -> Forall (Forall label_ok) names.
Proof. induction names as [|n names IH]; intros off e H; [constructor|]. destruct H as (c & mid & H & _ & Hn). constructor; [by eapply resolves_labels|by eapply IH]. Qed.

Lemma list_text_nonzero names : Forall (Forall label_ok) names -> Forall (fun c => c <> 0) (list_text names).
Proof.
  intros H. destruct H as [|n names Hn H]; [constructor|]. cbn [list_text]. apply Forall_app. split; [by apply name_text_nonzero|].
  induction H as [|n2 names Hn2 _ IH]; [constructor|]. cbn [map concat]. apply Forall_app. split; [|done]. constructor; [done|by apply name_text_nonzero].
Qed.

(** A message of names is read as their text. *)
Lemma uncompress_list_ok m n names dst dst_size :
  names_at m 0 (n :: names) (Zlen m) -> n <> [] -> Forall name_fits (n :: names) -> Zlen (list_text (n :: names)) + 1 <= dst_size <= Zlen dst ->
  exists T, MRns_name_uncompress_list m dst dst_size = Ret (Some (list_text (n :: names) ++ 0 :: T, Zlen (list_text (n :: names)))).
Proof.
  intros Ha Hne Hw Hd. pose proof (names_at_labels _ _ _ _ Ha) as Hok. pose proof Ha as Ha0. destruct Ha0 as (c & e & H & Hc & Hrest). pose proof (resolves_next _ _ _ _ _ H). inversion_clear Hw as [|? ? Hn Hw'].
  destruct (resolves_first _ _ _ _ _ H) as (v & Hv & Hv0). destruct m as [|v' m]; [change (Zlen (@nil Z)) with 0 in *; lia|]. change (rd (v' :: m) 0) with (Ret v') in Hv. injection Hv as ->.
  unfold MRns_name_uncompress_list. assert (v <> 0) as Hvn by (intros ->; by apply Hne, Hv0). 
  assert (forall A (x y : A), match v with 0 => x | _ => y end = y) as Hm by (by destruct v). rewrite Hm. clear Hm.
  cbn [length uncompress_loop]. destruct (Z.leb_spec (Zlen (v :: m)) 0); [lia|]. set (mm := v :: m) in *. assert (Z.of_nat (length m) = Zlen mm - 1) as Em by (unfold mm; rewrite Zlen_cons; unfold Zlen; lia).
  pose proof (name_text_pos n (resolves_labels _ _ _ _ _ H)). cbn [list_text] in Hd. rewrite Zlen_app in Hd. pose proof (Zlen_nonneg (concat (map (fun n => comma :: name_text n) names))).
  destruct (Z.leb_spec dst_size 0); [lia|]. cbn [mbind outcome_bind].
  destruct (uncompress_text mm 0 n c e [] dst dst_size) as (T1 & E1 & E2 & E3); [done|done|done|lia|]. change (Zlen (@nil Z)) with 0 in E1. cbn [app] in E1. rewrite E1. cbn [mbind outcome_bind]. rewrite E2. cbn [mbind outcome_bind Z.to_nat take app].
  change (take (Z.to_nat 0) dst) with (@nil Z). cbn [app]. replace (0 + (e - 0)) with e by lia. rewrite Z.add_0_l.
  destruct (uncompress_rest mm names (length m) e (name_text n) T1 (dst_size - Zlen (name_text n))) as (T2 & E & HT2); [done|done|lia|lia|lia|lia|]. rewrite E. cbn [mbind outcome_bind].
  change (name_text n ++ concat (map (fun n => comma :: name_text n) names)) with (list_text (n :: names)). rewrite wr_after by done. cbn [mbind outcome_bind]. rewrite <- app_assoc. cbn [app].
  rewrite strlen_text by (by apply list_text_nonzero). cbn [mbind outcome_bind]. by exists (drop 1 T2).
Qed.

(** C23: A list of names goes to a message and back.  For every non-empty list of names, each
    of at most 255 octets on the wire in labels of 1 to 63 octets and with a text that the
    functions can hold ([name_ok]), the first of them not the root (a message that starts
    with the root is read as the empty list), given a buffer that is larger than the names
    on the wire together and room for the text and its NUL, [MRns_name_compress_list] writes
    a message that is at most as long as the names on the wire, and
    [MRns_name_uncompress_list] reads it as the same names up to case: the pointers that it
    compresses the names with are right. *)
Theorem name_list_roundtrip n names r size dst dst_size :
  Forall name_ok (n :: names) -> n <> [] -> wires (n :: names) < size -> Zlen (list_text (n :: names)) + 1 <= dst_size <= Zlen dst ->
  exists m clen names2 T,
    MRns_name_compress_list (list_text (n :: names) ++ 0 :: r) (Zlen (list_text (n :: names))) size = Ret (m, Some clen) /\ clen <= wires (n :: names) /\
    MRns_name_uncompress_list (take (Z.to_nat clen) m) dst dst_size = Ret (Some (list_text names2 ++ 0 :: T, Zlen (list_text (n :: names)))) /\
    map lower names2 = map lower (n :: names).
Proof.
  intros Hok Hne Hs Hd. unfold MRns_name_compress_list. assert (0 <= wires (n :: names)) by apply Zlen_nonneg.
  assert (Zlen (replicate (Z.to_nat size) 0) = size) as Es by (unfold Zlen; rewrite length_replicate; lia).
  assert (length names < Z.to_nat (Zlen (list_text (n :: names))))%nat as Hf.
  { rewrite Zlen_to_nat. clear -Hok. inversion_clear Hok as [|? ? Hn Hns]. cbn [list_text]. rewrite length_app. pose proof (name_text_pos n (proj1 Hn)) as H1. unfold Zlen in H1.
    enough (length names <= length (concat (map (fun n => comma :: name_text n) names)))%nat by lia. clear. induction names as [|n2 names IH]; [done|]. cbn [map concat length]. rewrite length_app. cbn [length]. lia. }
  destruct (compress_loop_ok names n [] r [] (replicate (Z.to_nat size) 0) [] (Z.to_nat (Zlen (list_text (n :: names)))) Hok) as (y & names2 & E & Ha & El & Hlen); [lia|constructor|exact Hf|].
  change (Zlen (@nil Z)) with 0 in *. cbn [app] in *. rewrite !Z.add_0_l, Es in E. rewrite E.
  assert (exists n' names', names2 = n' :: names') as (n' & names' & ->) by (destruct names2; [done|by eauto]).
  pose proof (names_at_labels _ _ _ _ Ha) as Hl. assert (Zlen (list_text (n' :: names')) = Zlen (list_text (n :: names))) as Et.
  { apply list_text_case; [done| |done]. eapply Forall_impl; [|exact Hok]. by intros ? []. }
  assert (Forall name_fits (n' :: names')) as Hfit.
  { clear -Hok El. revert El. generalize (n' :: names') as xs. induction Hok as [|a l (_ & Ha & _) _ IH]; intros [|x xs] E; try done. injection E as E1 E2. constructor; [|by apply IH].
    unfold name_fits. by rewrite (wire_case x a). }
  destruct (uncompress_list_ok y n' names' dst dst_size) as (T & EU); [done| |done|by rewrite Et|].
  { intros ->. injection El as El _. by destruct n. }
  eexists _, _, (n' :: names'), T. split; [done|]. split; [done|]. rewrite Zlen_to_nat, take_app_length, EU, Et. done.
Qed.

#[export] Instance label_ok_dec l : Decision (label_ok l).
Proof. unfold label_ok. apply _. Defined.

#[export] Instance name_ok_dec n : Decision (name_ok n).
Proof. unfold name_ok. apply _. Defined.

(** A name whose pointer leads to itself: unpacking it ends. *)
Lemma unpack_terminates_witness :
  let msg := [3; 119; 119; 119; 192; 0] in
  MRns_name_unpack msg 0 (replicate 20 0) 20 = Ret None /\
  exists r, MRns_name_unpack msg 0 (replicate 20 0) 20 = Ret r /\
    match r with
    | None => True
    | Some (d, n) => 1 <= n <= Zlen msg - 0 /\ exists ls, Forall label_ok ls /\ d = splice (replicate 20 0) 0 (wire ls) /\ Zlen (wire ls) <= 20
    end.
Proof.
  split; [by vm_compute|]. apply (unpack_terminates [3; 119; 119; 119; 192; 0] 0 (replicate 20 0) 20); [refine (bool_decide_unpack _ _); by vm_compute|by vm_compute].
Defined.

(** Labels with a dot, with a blank and with an octet that is not a character. *)
Lemma name_text_roundtrip_witness :
  let ls := [[97; 46; 98]; [99; 32]; [255]] in
  exists t n, MRns_name_ntop (wire ls ++ [9]) (replicate 40 0) 40 = Ret (Some (t, n)) /\ strlen t = Ret (n - 1) /\
    MRns_name_pton t (replicate 40 7) 40 = Ret (Some (splice (replicate 40 7) 0 (wire ls), Zlen (wire ls), bool_decide (ls = []))).
Proof.
  apply (name_text_roundtrip [[97; 46; 98]; [99; 32]; [255]] [9] (replicate 40 0) 40 (replicate 40 7) 40).
  - refine (bool_decide_unpack _ _). by vm_compute.
  - by vm_compute.
  - by vm_compute.
  - by vm_compute.
Defined.

(** The names one.two.com and three.Two.COM, of which the second shares its end
    with the first. *)
Lemma name_list_roundtrip_witness :
  let names := [[[111; 110; 101]; [116; 119; 111]; [99; 111; 109]]; [[116; 104; 114; 101; 101]; [84; 119; 111]; [67; 79; 77]]] in
  exists m clen names2 T,
    MRns_name_compress_list (list_text names ++ [0]) (Zlen (list_text names)) 30 = Ret (m, Some clen) /\ clen <= wires names /\
    MRns_name_uncompress_list (take (Z.to_nat clen) m) (replicate 60 0) 60 = Ret (Some (list_text names2 ++ 0 :: T, Zlen (list_text names))) /\
    map lower names2 = map lower names.
Proof.
  apply (name_list_roundtrip [[111; 110; 101]; [116; 119; 111]; [99; 111; 109]] [[[116; 104; 114; 101; 101]; [84; 119; 111]; [67; 79; 77]]] [] 30 (replicate 60 0) 60).
  - refine (bool_decide_unpack _ _). by vm_compute.
  - done.
  - by vm_compute.
  - by vm_compute.
Defined.

End NsName.
