(* ===== verification/Expr.v ===== *)
(** * Expressions and statements of the configuration (common/tree.c, common/execute.c)

    The configuration language has expressions of three types, boolean, data and
    numeric, and statements that set options and variables.  An expression may fail
    to have a value (the C functions return 0), which here is [None].

    A [data_string] with a null pointer is [None] with no octets.  Variables live in
    binding scopes that enclose each other; they are the list of the frames, the
    innermost first: a function and a [let] put a frame in front and take it away
    at the end, and an assignment changes the frame in which the name is found.
    A scope pointer that is null is [None], and a pointer to no scope an empty list.
    The options of a state are a finite map, which the stores of [Options] refine;
    an option cache holds data or an expression.

    The evaluation functions call each other and take fuel, since functions of the
    configuration can be recursive: running out is [Undef], as is the overflow of the
    stack of the program.  Memory is taken to be available.  What belongs to other
    components is a parameter of the context: classes, option spaces that are
    encapsulated, vendor options, regular expressions and the names of hosts. *)

From Stdlib Require Import ZArith Lia.
From stdpp Require Import base list numbers option gmap.
From S2P Require Import Prelude.
From S2P Require Import Convert.
From S2P Require Import NsName.
#[local] Open Scope Z_scope.

Module Expr.

Import Convert NsName.

(** ** Syntax *)

Record data_string : Type := DataString { data : option (list Z); terminated : bool }.

(** The octets of a string; a null pointer has none. *)
Definition octets (d : data_string) : list Z := default [] (data d).
Definition len (d : data_string) : Z := Zlen (octets d).

#[export] Instance data_string_eq_dec : EqDecision data_string.
Proof. solve_decision. Defined.

(** A definition of an option; [dc] says that its format begins with "Dc". *)
Record option_def : Type := OptionDef { universe : Z; code : Z; dc : bool }.

Inductive arith_op : Type :=
| expr_add | expr_subtract | expr_multiply | expr_divide | expr_remainder | expr_binary_and | expr_binary_or | expr_binary_xor.

(** The widths of integers that are extracted and encoded. *)
Inductive int_width : Type := int8 | int16 | int32.

Inductive log_priority : Type := log_priority_fatal | log_priority_error | log_priority_debug | log_priority_info.

Inductive option_op : Type :=
| default_option_statement | supersede_option_statement | append_option_statement | prepend_option_statement | send_option_statement.

#[export] Instance option_op_eq_dec : EqDecision option_op.
Proof. solve_decision. Defined.

(** [ON_COMMIT], [ON_EXPIRY] and [ON_RELEASE]. *)
Definition ON_COMMIT : Z := 1.
Definition ON_EXPIRY : Z := 2.
Definition ON_RELEASE : Z := 4.

(** The operators; the nodes [expr_arg] are the list of the arguments of a call.
    [expr_equal] and [expr_regex_match] are [true] in front of their operands, their
    counterparts [expr_not_equal] and [expr_iregex_match] are [false]. *)
Inductive expression : Type :=
| expr_none | expr_match
| expr_check (name : list Z)
| expr_equal (equal : bool) (left right : expression)
| expr_regex_match (case : bool) (left right : expression)
| expr_and (left right : expression)
| expr_or (left right : expression)
| expr_not (e : expression)
| expr_exists (o : option_def)
| expr_known | expr_static
| expr_variable_exists (name : list Z)
| expr_variable_reference (name : list Z)
| expr_funcall (name : list Z) (args : list expression)
| expr_function (f : fundef)
| expr_substring (e offset len : expression)
| expr_suffix (e len : expression)
| expr_lcase (e : expression)
| expr_ucase (e : expression)
| expr_option (o : option_def)
| expr_config_option (o : option_def)
| expr_hardware
| expr_packet (offset len : expression)
| expr_encapsulate (space : list Z)
| expr_const_data (d : data_string)
| expr_host_lookup (entry : Z) (hostname : list Z)
| expr_concat (left right : expression)
| expr_concat_dclist (left right : expression)
| expr_encode_int (w : int_width) (e : expression)
| expr_binary_to_ascii (base width separator buffer : expression)
| expr_reverse (width buffer : expression)
| expr_leased_address | expr_host_decl_name | expr_null | expr_filename | expr_sname | expr_gethostname
| expr_pick_first_value (car : expression) (cdr : option expression)
| expr_v6relay (relay roption : expression)
| expr_extract_int (w : int_width) (e : expression)
| expr_const_int (n : Z)
| expr_lease_time
| expr_arith (op : arith_op) (left right : expression)
| expr_client_state
| expr_dns_transaction | expr_ns_add | expr_ns_delete | expr_ns_exists | expr_ns_not_exists
with fundef : Type := Fundef (address : Z) (args : list (list Z)) (body : list statement)
with statement : Type :=
| null_statement
| if_statement (e : expression) (tc fc : list statement)
| add_statement (class : list Z)
| eval_statement (e : expression)
| break_statement
| option_statement (op : option_op) (o : option_cache)
| statements_statement (l : list statement)
| on_statement (evtypes : Z) (l : list statement)
| switch_statement (e : expression) (l : list statement)
| case_statement (e : expression)
| default_statement
| set_statement (name : list Z) (e : expression)
| unset_statement (name : list Z)
| let_statement (name : list Z) (e : expression) (l : list statement)
| define_statement (name : list Z) (f : fundef)
| log_statement (priority : log_priority) (e : expression)
| return_statement (e : expression)
| execute_statement (command : list Z) (args : list expression)
| vendor_opt_statement
with option_cache : Type := OptionCache (opt : option_def) (data : data_string) (e : option expression).

(** Two functions are the same if they are the same object. *)
Definition address (f : fundef) : Z := match f with Fundef a _ _ => a end.
Definition fundef_args (f : fundef) : list (list Z) := match f with Fundef _ a _ => a end.
Definition fundef_body (f : fundef) : list statement := match f with Fundef _ _ b => b end.

Definition opt (o : option_cache) : option_def := match o with OptionCache d _ _ => d end.
Definition oc_data (o : option_cache) : data_string := match o with OptionCache _ d _ => d end.
Definition oc_expression (o : option_cache) : option expression := match o with OptionCache _ _ e => e end.

Definition no_data : data_string := DataString None false.

(** ** Types of expressions *)

Definition is_boolean_expression (e : expression) : bool :=
  match e with
  | expr_check _ | expr_exists _ | expr_variable_exists _ | expr_equal _ _ _ | expr_regex_match _ _ _
  | expr_and _ _ | expr_or _ _ | expr_not _ | expr_known | expr_static => true
  | _ => false
  end.

Definition is_data_expression (e : expression) : bool :=
  match e with
  | expr_substring _ _ _ | expr_suffix _ _ | expr_lcase _ | expr_ucase _ | expr_option _ | expr_hardware | expr_const_data _
  | expr_packet _ _ | expr_concat _ _ | expr_encapsulate _ | expr_encode_int _ _ | expr_host_lookup _ _ | expr_binary_to_ascii _ _ _ _
  | expr_filename | expr_sname | expr_reverse _ _ | expr_pick_first_value _ _ | expr_host_decl_name | expr_leased_address
  | expr_config_option _ | expr_null | expr_gethostname | expr_v6relay _ _ => true
  | _ => false
  end.

Definition is_numeric_expression (e : expression) : bool :=
  match e with
  | expr_extract_int _ _ | expr_const_int _ | expr_lease_time | expr_arith _ _ _ | expr_client_state => true
  | _ => false
  end.

Definition is_compound_expression (e : expression) : bool :=
  match e with
  | expr_substring _ _ _ | expr_suffix _ _ | expr_option _ | expr_concat _ _ | expr_encode_int _ _ | expr_binary_to_ascii _ _ _ _
  | expr_reverse _ _ | expr_pick_first_value _ _ | expr_config_option _ | expr_extract_int _ _ | expr_v6relay _ _ => true
  | _ => false
  end.

Inductive expression_context : Type := context_any | context_boolean | context_data | context_numeric.

Definition context_of (e : expression) : expression_context :=
  if is_data_expression e then context_data
  else if is_numeric_expression e then context_numeric
  else if is_boolean_expression e then context_boolean
  else context_any.

(** ** State *)

Inductive binding_value : Type :=
| binding_boolean (b : Z)
| binding_data (d : data_string)
| binding_numeric (n : Z)
| binding_function (f : fundef).

(** A frame: the names that are bound, with their values if they have any. *)
Abbreviation frame := (list (list Z * option binding_value)).

Abbreviation option_state := (gmap (Z * Z) option_cache).

(** The packet that is looked at: [raw] are the octets of the message and the room
    behind it; for DHCPv6, the message of a relay agent that it came in. *)
Inductive packet : Type := Packet (known : Z) (raw : option (list Z)) (packet_length : Z) (options : option option_state) (container : option packet).

Definition known (p : packet) : Z := match p with Packet k _ _ _ _ => k end.
Definition raw (p : packet) : option (list Z) := match p with Packet _ r _ _ _ => r end.
Definition packet_length (p : packet) : Z := match p with Packet _ _ l _ _ => l end.
Definition options (p : packet) : option option_state := match p with Packet _ _ _ o _ => o end.
Definition container (p : packet) : option packet := match p with Packet _ _ _ _ c => c end.

Record lease : Type := Lease { hardware_addr : list Z; ip_addr : list Z; host : option (list Z); ends : Z; static : bool }.

Record client_state : Type := ClientState { cs_state : Z; hw_address : list Z }.

(** The statements that are kept for later; [[]] is a null pointer. *)
Record on_star : Type := OnStar { on_expiry : list statement; on_release : list statement; on_commit : list statement }.

(** What statements do besides. *)
Inductive event : Type :=
| Classified (class : list Z)
| Executed (argv : list (list Z))
| Logged (priority : log_priority) (text : list Z).

(** What the functions get: the packet, the lease and the client, if there are any,
    the time, and what other components do. *)
Record context : Type := Context {
  c_packet : option packet;
  c_lease : option lease;
  c_client : option client_state;
  cur_time : Z;
  check_collection : list Z -> Z;
  space_encapsulate : option_state -> list Z -> option data_string;
  parse_vendor_option : option_state -> option_state -> option_state;
  regex : bool -> list Z -> list Z -> bool;
  gethostbyname : list Z -> option (list (list Z));
  gethostname : option (list Z)
}.

Definition with_packet (c : context) (p : packet) : context :=
  Context (Some p) (c_lease c) (c_client c) (cur_time c) (check_collection c) (space_encapsulate c) (parse_vendor_option c) (regex c) (gethostbyname c) (gethostname c).

(** What they change.  [dns] are the host entries of the
    expressions, each with its timeout; [arg_star]
    are the statements of the caller, [lease_star] those of the lease. *)
Record state : Type := State {
  scope : option (list frame);
  in_options : option option_state;
  cfg_options : option option_state;
  dns : gmap Z (Z * data_string);
  arg_star : on_star;
  lease_star : on_star;
  events : list event
}.

Definition with_scope (s : state) x := State x (in_options s) (cfg_options s) (dns s) (arg_star s) (lease_star s) (events s).
Definition with_in_options (s : state) x := State (scope s) x (cfg_options s) (dns s) (arg_star s) (lease_star s) (events s).
Definition with_cfg_options (s : state) x := State (scope s) (in_options s) x (dns s) (arg_star s) (lease_star s) (events s).
Definition with_dns (s : state) x := State (scope s) (in_options s) (cfg_options s) x (arg_star s) (lease_star s) (events s).
Definition with_arg_star (s : state) x := State (scope s) (in_options s) (cfg_options s) (dns s) x (lease_star s) (events s).
Definition with_lease_star (s : state) x := State (scope s) (in_options s) (cfg_options s) (dns s) (arg_star s) x (events s).
Definition log_event (s : state) e := State (scope s) (in_options s) (cfg_options s) (dns s) (arg_star s) (lease_star s) (events s ++ [e]).

(** ** Bindings *)

Definition tolower (c : Z) : Z := if (65 <=? c) && (c <=? 90) then c + 32 else c.
Definition toupper (c : Z) : Z := if (97 <=? c) && (c <=? 122) then c - 32 else c.

(** [strcasecmp (a, b) == 0]. *)
Definition same_name (a b : list Z) : bool := bool_decide (map tolower a = map tolower b).

Fixpoint find_in (f : frame) (name : list Z) : option (option binding_value) :=
  match f with
  | [] => None
  | (n, v) :: f => if same_name name n then Some v else find_in f name
  end.

(** [find_binding]: the binding that is found, and its value if it has one. *)
Fixpoint find_binding (fs : list frame) (name : list Z) : option (option binding_value) :=
  match fs with
  | [] => None
  | f :: fs => match find_in f name with Some v => Some v | None => find_binding fs name end
  end.

(** The value of the binding that is found is changed. *)
Fixpoint set_in (f : frame) (name : list Z) (v : option binding_value) : frame :=
  match f with
  | [] => []
  | (n, x) :: f => if same_name name n then (n, v) :: f else (n, x) :: set_in f name v
  end.

Fixpoint set_binding (fs : list frame) (name : list Z) (v : option binding_value) : list frame :=
  match fs with
  | [] => []
  | f :: fs => match find_in f name with Some _ => set_in f name v :: fs | None => f :: set_binding fs name v end
  end.

(** [create_binding]: a binding with the name, a new one in the innermost scope if
    there is none. *)
Definition create_binding (fs : list frame) (name : list Z) : list frame :=
  match find_binding fs name with
  | Some _ => fs
  | None => match fs with [] => [[(name, None)]] | f :: fs => ((name, None) :: f) :: fs end
  end.

Definition bind_ds_value (fs : list frame) (name : list Z) (value : data_string) : list frame :=
  set_binding (create_binding fs name) name (Some (binding_data value)).

(** [find_bound_string]; a copy is not terminated. *)
Definition find_bound_string (fs : list frame) (name : list Z) : option data_string :=
  match find_binding fs name with
  | Some (Some (binding_data d)) => Some (if terminated d then d else DataString (Some (octets d)) false)
  | _ => None
  end.

Definition unset (fs : list frame) (name : list Z) : bool * list frame :=
  match find_binding fs name with
  | Some _ => (true, set_binding fs name None)
  | None => (false, fs)
  end.

(** The value a name has, [scope && *scope] being tested first. *)
Definition variable (s : state) (name : list Z) : option (option binding_value) :=
  match scope s with
  | None | Some [] => None
  | Some fs => find_binding fs name
  end.
(** ** Operators *)

Definition substring_of (d : data_string) (offset n : Z) : data_string :=
  if offset <? len d then
    let rest := drop (Z.to_nat offset) (octets d) in
    if n <? Zlen rest then DataString (Some (take (Z.to_nat n) rest)) false else DataString (Some rest) (terminated d)
  else no_data.

Definition suffix_of (d : data_string) (n : Z) : data_string :=
  if n <? len d then DataString (Some (drop (Z.to_nat (len d - n)) (octets d))) (terminated d) else d.

Definition map_case (f : Z -> Z) (d : data_string) : data_string := DataString (Some (map f (octets d))) (terminated d).

(** Offsets in a message. *)
Definition htype_at : Z := 1.
Definition hlen_at : Z := 2.
Definition chaddr_at : Z := 28.
Definition sname_at : Z := 44.
Definition file_at : Z := 108.

Definition hardware (c : context) : outcome (option data_string) :=
  match c_client c with
  | Some cl => Ret (Some (DataString (Some (hw_address cl)) false))
  | None =>
    match c_packet c ≫= raw with
    | Some r =>
      hlen ← rd r hlen_at;
      if 16 <? hlen then Ret None
      else
        htype ← rd r htype_at;
        chaddr ← memread r chaddr_at hlen;
        Ret (Some (DataString (Some (htype :: chaddr)) false))
    | None =>
      match c_lease c with
      | Some l => Ret (Some (DataString (Some (hardware_addr l)) false))
      | None => Ret None
      end
    end
  end.

(** Octets of the message; the sum of offset and length wraps. *)
Definition packet_part (r : list Z) (length offset n : Z) : outcome (option data_string) :=
  if offset <? length then
    x ← memread r offset (if length <? u64 (offset + n) then length - offset else u32 n);
    Ret (Some (DataString (Some x) false))
  else Ret None.

(** The octets before the first zero. *)
Fixpoint until_nul (l : list Z) : list Z :=
  match l with
  | [] => []
  | c :: l => if c =? 0 then [] else c :: until_nul l
  end.

(** [filename] and [server-name]: a field of the message, unless it is empty. *)
Definition field (c : context) (off size : Z) : outcome (option data_string) :=
  match c_packet c with
  | None => Ret None
  | Some p =>
    match raw p with
    | None => Undef
    | Some r =>
      x ← memread r off size;
      Ret (match until_nul x with [] => None | t => Some (DataString (Some t) true) end)
    end
  end.

Definition width_octets (w : int_width) : Z := match w with int8 => 1 | int16 => 2 | int32 => 4 end.

Definition encode_int (w : int_width) (n : Z) : outcome data_string :=
  b ← match w with
      | int8 => Ret [u8 n]
      | int16 => putUShort (replicate 2 0) n
      | int32 => putULong (replicate 4 0) n
      end;
  Ret (DataString (Some b) false).

(** [extract-int]; the length is not tested for one octet: a null pointer is followed,
    and behind an empty string is its terminating zero, if there is one. *)
Definition extract_int (w : int_width) (d : data_string) : outcome (option Z) :=
  match w with
  | int8 =>
    match data d with
    | None => Undef
    | Some [] => if terminated d then Ret (Some 0) else Undef
    | Some (x :: _) => Ret (Some x)
    end
  | int16 => if len d <? 2 then Ret None else n ← getUShort (octets d); Ret (Some n)
  | int32 => if len d <? 4 then Ret None else n ← getULong (octets d); Ret (Some n)
  end.

(** The number of digits of an octet in the bases that are treated apart. *)
Definition octet_digits (base x : Z) : option Z :=
  if base =? 8 then Some (if x <? 8 then 1 else if x <? 64 then 2 else 3)
  else if base =? 10 then Some (if x <? 10 then 1 else if x <? 100 then 2 else 3)
  else if base =? 16 then Some (if x <? 16 then 1 else 2)
  else None.

Definition number_digits (base w : Z) (number : list Z) : outcome Z :=
  if w =? 1 then
    x ← rd number 0;
    match octet_digits base x with Some n => Ret n | None => converted_length number (u32 base) 1 end
  else converted_length number (u32 base) w.

(** The length of the text for [n] numbers from [i] on. *)
Fixpoint b2a_length (n : nat) (base w : Z) (sep buf : list Z) (i buflen : Z) : outcome Z :=
  match n with
  | O => Ret buflen
  | S n =>
    d ← number_digits base w (drop (Z.to_nat i) buf);
    let buflen := u32 (buflen + d) in
    let buflen := if i + w =? Zlen buf then buflen else u32 (buflen + Zlen sep) in
    b2a_length n base w sep buf (i + w) buflen
  end.

(** The text itself. *)
Fixpoint b2a_write (n : nat) (base w : Z) (sep buf : list Z) (i : Z) (out : list Z) (buflen : Z) : outcome (list Z * Z) :=
  match n with
  | O => Ret (out, buflen)
  | S n =>
    r ← binary_to_ascii (drop (Z.to_nat buflen) out) (drop (Z.to_nat i) buf) (u32 base) w;
    let out := take (Z.to_nat buflen) out ++ r.2 in
    let buflen := buflen + r.1 in
    if i + w =? Zlen buf then b2a_write n base w sep buf (i + w) out buflen
    else
      out ← memcpy out buflen sep;
      b2a_write n base w sep buf (i + w) out (buflen + Zlen sep)
  end.

(** [binary-to-ascii]. *)
Definition b2a (base width : Z) (sep buf : list Z) : outcome (option data_string) :=
  if negb ((width =? 8) || (width =? 16) || (width =? 32)) then Ret None
  else
    let w := width / 8 in
    if negb (Zlen buf mod w =? 0) then Ret None
    else
      let n := Z.to_nat (Zlen buf / w) in
      buflen ← b2a_length n base w sep buf 0 0;
      r ← b2a_write n base w sep buf 0 (replicate (Z.to_nat (buflen + 1)) 0) 0;
      out ← wr r.1 r.2 0;
      Ret (Some (DataString (Some (take (Z.to_nat buflen) out)) true)).

(** [reverse]; the width may be zero, and the remainder is then computed all the same. *)
Fixpoint reverse_loop (n : nat) (w : Z) (buf : list Z) (i : Z) : outcome (list Z) :=
  match n with
  | O => Ret []
  | S n => x ← memread buf (Zlen buf - i - w) w; rest ← reverse_loop n w buf (i + w); Ret (x ++ rest)
  end.

Definition reverse (w : Z) (d : data_string) : outcome (option data_string) :=
  if w =? 0 then Undef
  else if negb (len d mod w =? 0) then Ret None
  else x ← reverse_loop (Z.to_nat (len d / w)) w (octets d) 0; Ret (Some (DataString (Some x) false)).

(** [do_host_lookup]: an address that has been looked up is kept for an hour; after
    a failure the entry is empty, and valid, for a minute. *)
Definition do_host_lookup (c : context) (entry : Z) (hostname : list Z) (s : state) : option data_string * state :=
  let '(timeout, d) := default (0, no_data) (dns s !! entry) in
  if cur_time c <=? timeout then (Some d, s)
  else
    match gethostbyname c hostname with
    | None => (None, with_dns s (<[entry := (cur_time c + 60, no_data)]> (dns s)))
    | Some h => let d := DataString (Some (concat h)) false in (Some d, with_dns s (<[entry := (cur_time c + 3600, d)]> (dns s)))
    end.

Definition MAX_V6RELAY_HOPS : Z := 32.

(** The relay agent [i] steps away from the packet, with its options, and the steps that
    are left where there is no other one. *)
Fixpoint relay_at (p : packet) (o : option option_state) (i : Z) : packet * option option_state * Z :=
  if i =? 0 then (p, o, i)
  else
    match container p with
    | None => (p, o, i)
    | Some q => relay_at q (options q) (i - 1)
    end.

(** [concat_dclists]. *)
Definition concat_dclists (list1 list2 : data_string) : outcome (option data_string) :=
  let size := 32 * NS_MAXCDNAME in
  r ← if len list1 =? 0 then Ret (Some (replicate (Z.to_nat size) 0, 0)) else MRns_name_uncompress_list (octets list1) (replicate (Z.to_nat size) 0) size;
  match r with
  | None => Ret None
  | Some (buf, n) =>
    r ← if len list2 =? 0 then Ret (Some (buf, n))
        else
          b ← if 0 <? n then b ← wr buf n 44; Ret (b, n + 1) else Ret (buf, n);
          let '(buf, n) := b in
          r ← MRns_name_uncompress_list (octets list2) (drop (Z.to_nat n) buf) (size - n);
          Ret (match r with None => None | Some (x, k) => Some (take (Z.to_nat n) buf ++ x, n + k) end);
    match r with
    | None => Ret None
    | Some (buf, n) =>
      if n =? 0 then Ret (Some (DataString (Some [0]) false))
      else
        let commas := Zlen (filter (fun c => c = 44) (take (Z.to_nat n) buf)) in
        r ← MRns_name_compress_list buf n (n + 3 + 2 * commas);
        match r with
        | (_, None) => Ret None
        | (comp, Some k) => if k <=? 0 then Ret None else Ret (Some (DataString (Some (take (Z.to_nat k) comp)) false))
        end
    end
  end.

Definition arith (op : arith_op) (l r : Z) : option Z :=
  match op with
  | expr_add => Some (u64 (l + r))
  | expr_subtract => Some (u64 (l - r))
  | expr_multiply => Some (u64 (l * r))
  | expr_divide => if r =? 0 then None else Some (l / r)
  | expr_remainder => if r =? 0 then None else Some (l mod r)
  | expr_binary_and => Some (Z.land l r)
  | expr_binary_or => Some (Z.lor l r)
  | expr_binary_xor => Some (Z.lxor l r)
  end.

(** The comparison of two values. *)
Definition values_equal (a b : binding_value) : bool :=
  match a, b with
  | binding_boolean x, binding_boolean y => x =? y
  | binding_data x, binding_data y => bool_decide (octets x = octets y)
  | binding_numeric x, binding_numeric y => x =? y
  | binding_function f, binding_function g => address f =? address g
  | _, _ => false
  end.

Definition truth (b : bool) : Z := if b then 1 else 0.


(** ** Options *)

Definition lookup_option (o : option option_state) (d : option_def) : option option_cache :=
  match o with None => None | Some m => m !! (universe d, code d) end.

Definition save_option (o : option option_state) (d : option_def) (oc : option_cache) : option option_state :=
  match o with None => None | Some m => Some (<[(universe d, code d) := oc]> m) end.

(** [make_concat]: an expression that is missing is left out. *)
Definition make_concat (left right : option expression) : option expression :=
  match left, right with
  | None, r => r
  | l, None => l
  | Some l, Some r => Some (expr_concat l r)
  end.

(** A cache that holds data gets an expression for it. *)
Definition as_expression (oc : option_cache) : option_cache :=
  match oc with
  | OptionCache d x None => if len x =? 0 then oc else OptionCache d no_data (Some (expr_const_data x))
  | _ => oc
  end.

(** The operator of a concatenation of compressed lists of names. *)
Definition as_dclist (e : expression) : expression :=
  match e with expr_concat l r => expr_concat_dclist l r | e => e end.

(** [set_option].  The operator of the joined expression is changed for lists of
    names; when one of the two expressions is missing, there is no new node, and the
    operator of the other one is overwritten, which does not have two operands. *)
Definition set_option (op : option_op) (oc : option_cache) (o : option option_state) : outcome (option option_state) :=
  match op with
  | default_option_statement =>
    match lookup_option o (opt oc) with Some _ => Ret o | None => Ret (save_option o (opt oc) oc) end
  | supersede_option_statement | send_option_statement => Ret (save_option o (opt oc) oc)
  | append_option_statement | prepend_option_statement =>
    match lookup_option o (opt oc) with
    | None => Ret (save_option o (opt oc) oc)
    | Some old =>
      let old := as_expression old in
      let o := save_option o (opt oc) old in
      match (if bool_decide (op = append_option_statement) then make_concat (oc_expression old) (oc_expression oc) else make_concat (oc_expression oc) (oc_expression old)) with
      | None => Ret o
      | Some e =>
        match dc (opt oc), dc (opt old) with
        | true, true =>
          match oc_expression old, oc_expression oc with
          | Some _, Some _ => Ret (save_option o (opt oc) (OptionCache (opt old) no_data (Some (as_dclist e))))
          | _, _ => Undef
          end
        | false, false => Ret (save_option o (opt oc) (OptionCache (opt old) no_data (Some e)))
        | _, _ => Ret o
        end
      end
    end
  end.

(** ** Evaluation *)

(** The start of the statements behind the [default_statement] of a switch. *)
Fixpoint find_default (l : list statement) : option (list statement) :=
  match l with
  | [] => None
  | default_statement :: l => Some l
  | _ :: l => find_default l
  end.

(** A reference to a list of statements is taken; there has to be one. *)
Definition statements_at (l : list statement) : outcome (option (list statement)) :=
  match l with [] => Undef | _ => Ret (Some l) end.

(** [is_case st]: the expression of a case. *)
Definition case_of (st : statement) : option expression := match st with case_statement e => Some e | _ => None end.

(** The event statements that are replaced. *)
Definition set_star (evtypes : Z) (l : list statement) (o : on_star) : on_star :=
  let has b := negb (Z.land evtypes b =? 0) in
  OnStar (if has ON_EXPIRY then l else on_expiry o) (if has ON_RELEASE then l else on_release o) (if has ON_COMMIT then l else on_commit o).

(** Which block of event statements is used: that of the caller or that of the lease. *)
Inductive star : Type := NoStar | ArgStar | LeaseStar.

(** What follows a statement: the next one, or the end of the list with a status. *)
Inductive flow : Type := Next | End (status : bool).

(** The value of a function call or of a variable where a value of a type is expected:
    a call that returns no value leaves a null pointer, which is followed; the result
    of a call is not used, since the code goes on to the report of a bogus operator. *)
Definition call_result {A} (r : option (option binding_value)) : outcome (option A) :=
  match r with Some None => Undef | _ => Ret None end.


(** Two results are left behind by a call although it has no value: the operands of
    [or] that are calls contribute the value that was returned ([or_operand]); what a
    call as the first of the values of [pick-first-value] leaves in the result is
    not followed any further, and is [Undef] here.  A [let] copies its name to memory
    that is two octets too short. *)
Fixpoint evaluate_boolean_expression (fuel : nat) (c : context) (e : expression) (s : state) {struct fuel} : outcome (option Z * state) :=
  match fuel with
  | O => Undef
  | S fuel =>
    match e with
    | expr_check name => Ret (Some (check_collection c name), s)
    | expr_equal equal l r =>
      a ← evaluate_expression fuel c l s;
      b ← evaluate_expression fuel c r a.2;
      match a.1, b.1 with
      | Some None, _ | _, Some None => Undef
      | Some (Some x), Some (Some y) => Ret (Some (truth (eqb (values_equal x y) equal)), b.2)
      | None, None => Ret (Some (truth equal), b.2)
      | _, _ => Ret (Some (truth (negb equal)), b.2)
      end
    | expr_regex_match case l r =>
      a ← evaluate_data_expression fuel c l s;
      b ← evaluate_data_expression fuel c r a.2;
      match a.1, b.1 with
      | Some x, Some y =>
        Ret (Some (match data x, data y with Some x, Some y => truth (regex c case x y) | _, _ => 0 end), b.2)
      | _, _ => Ret (None, b.2)
      end
    | expr_and l r =>
      a ← evaluate_boolean_expression fuel c l s;
      match a.1 with
      | Some x =>
        if x =? 0 then Ret (None, a.2)
        else
          b ← evaluate_boolean_expression fuel c r a.2;
          Ret (match b.1 with Some y => Some (truth (negb (y =? 0))) | None => None end, b.2)
      | None => Ret (None, a.2)
      end
    | expr_or l r =>
      a ← or_operand fuel c l s;
      let '(x, bleft, s) := a in
      let more :=
        b ← or_operand fuel c r s;
        let '(y, bright, s) := b in
        Ret (match x, y with None, None => None | _, _ => Some (truth (negb (bleft =? 0) || negb (bright =? 0))) end, s) in
      match x with
      | Some _ => if bleft =? 0 then more else Ret (Some 1, s)
      | None => more
      end
    | expr_not e =>
      a ← evaluate_boolean_expression fuel c e s;
      Ret (match a.1 with Some x => Some (truth (x =? 0)) | None => None end, a.2)
    | expr_exists o =>
      match in_options s with
      | None => Ret (Some 0, s)
      | Some _ => a ← get_option fuel c (in_options s) o s; Ret (Some (match a.1 with Some _ => 1 | None => 0 end), a.2)
      end
    | expr_known => Ret (match c_packet c with Some p => Some (known p) | None => None end, s)
    | expr_static => Ret (Some (match c_lease c with Some l => truth (static l) | None => 0 end), s)
    | expr_variable_exists name => Ret (Some (match variable s name with Some (Some _) => 1 | _ => 0 end), s)
    | expr_variable_reference name => Ret (match variable s name with Some (Some (binding_boolean b)) => Some b | _ => None end, s)
    | expr_funcall _ _ => a ← evaluate_expression fuel c e s; r ← call_result a.1; Ret (r, a.2)
    | _ => Ret (None, s)
    end
  end
with or_operand (fuel : nat) (c : context) (e : expression) (s : state) {struct fuel} : outcome (option Z * Z * state) :=
  match fuel with
  | O => Undef
  | S fuel =>
    match e with
    | expr_funcall _ _ =>
      a ← evaluate_expression fuel c e s;
      r ← call_result a.1;
      Ret (r, match a.1 with Some (Some (binding_boolean b)) => b | _ => 0 end, a.2)
    | _ => a ← evaluate_boolean_expression fuel c e s; Ret (a.1, default 0 a.1, a.2)
    end
  end
with evaluate_data_expression (fuel : nat) (c : context) (e : expression) (s : state) {struct fuel} : outcome (option data_string * state) :=
  match fuel with
  | O => Undef
  | S fuel =>
    match e with
    | expr_substring e offset n =>
      a ← evaluate_data_expression fuel c e s;
      b ← evaluate_numeric_expression fuel c offset a.2;
      d ← evaluate_numeric_expression fuel c n b.2;
      Ret (match a.1, b.1, d.1 with Some x, Some o, Some n => Some (substring_of x o n) | _, _, _ => None end, d.2)
    | expr_suffix e n =>
      a ← evaluate_data_expression fuel c e s;
      b ← evaluate_numeric_expression fuel c n a.2;
      Ret (match a.1, b.1 with Some x, Some n => Some (suffix_of x n) | _, _ => None end, b.2)
    | expr_lcase e => a ← evaluate_data_expression fuel c e s; Ret (option_map (map_case tolower) a.1, a.2)
    | expr_ucase e => a ← evaluate_data_expression fuel c e s; Ret (option_map (map_case toupper) a.1, a.2)
    | expr_option o => match in_options s with None => Ret (None, s) | Some _ => get_option fuel c (in_options s) o s end
    | expr_config_option o => match cfg_options s with None => Ret (None, s) | Some _ => get_option fuel c (cfg_options s) o s end
    | expr_hardware => r ← hardware c; Ret (r, s)
    | expr_packet offset n =>
      match c_packet c with
      | None => Ret (None, s)
      | Some p =>
        match raw p with
        | None => Ret (None, s)
        | Some r =>
          a ← evaluate_numeric_expression fuel c offset s;
          b ← evaluate_numeric_expression fuel c n a.2;
          match a.1, b.1 with
          | Some o, Some n => r ← packet_part r (packet_length p) o n; Ret (r, b.2)
          | _, _ => Ret (None, b.2)
          end
        end
      end
    | expr_encapsulate name => Ret (match cfg_options s with Some o => space_encapsulate c o name | None => None end, s)
    | expr_const_data d => Ret (Some d, s)
    | expr_host_lookup entry hostname => Ret (do_host_lookup c entry hostname s)
    | expr_concat l r =>
      a ← evaluate_data_expression fuel c l s;
      b ← evaluate_data_expression fuel c r a.2;
      Ret (match a.1, b.1 with Some x, Some y => Some (DataString (Some (octets x ++ octets y)) false) | _, _ => None end, b.2)
    | expr_encode_int w e =>
      a ← evaluate_numeric_expression fuel c e s;
      match a.1 with Some n => d ← encode_int w n; Ret (Some d, a.2) | None => Ret (None, a.2) end
    | expr_binary_to_ascii base width sep buf =>
      a ← evaluate_numeric_expression fuel c base s;
      b ← evaluate_numeric_expression fuel c width a.2;
      d ← evaluate_data_expression fuel c sep b.2;
      e ← evaluate_data_expression fuel c buf d.2;
      match a.1, b.1, d.1, e.1 with
      | Some base, Some width, Some x, Some y => r ← b2a base width (octets x) (octets y); Ret (r, e.2)
      | _, _, _, _ => Ret (None, e.2)
      end
    | expr_reverse width buf =>
      a ← evaluate_numeric_expression fuel c width s;
      b ← evaluate_data_expression fuel c buf a.2;
      match a.1, b.1 with
      | Some w, Some d => r ← reverse w d; Ret (r, b.2)
      | _, _ => Ret (None, b.2)
      end
    | expr_leased_address => Ret (match c_lease c with Some l => Some (DataString (Some (ip_addr l)) false) | None => None end, s)
    | expr_pick_first_value car cdr =>
      a ← evaluate_data_expression fuel c car s;
      match a.1, cdr with
      | Some d, _ => Ret (Some d, a.2)
      | None, Some e => match car with expr_funcall _ _ => Undef | _ => evaluate_data_expression fuel c e a.2 end
      | None, None => Ret (None, a.2)
      end
    | expr_host_decl_name => Ret (match c_lease c ≫= host with Some n => Some (DataString (Some n) true) | None => None end, s)
    | expr_null => Ret (None, s)
    | expr_variable_reference name => Ret (match variable s name with Some (Some (binding_data d)) => Some d | _ => None end, s)
    | expr_funcall _ _ => a ← evaluate_expression fuel c e s; r ← call_result a.1; Ret (r, a.2)
    | expr_filename => r ← field c file_at 128; Ret (r, s)
    | expr_sname => r ← field c sname_at 64; Ret (r, s)
    | expr_gethostname => Ret (match gethostname c with Some n => Some (DataString (Some n) false) | None => None end, s)
    | expr_v6relay relay roption =>
      a ← evaluate_numeric_expression fuel c relay s;
      match a.1 with
      | None => Ret (None, a.2)
      | Some n =>
        match c_packet c with
        | None => if n =? 0 then evaluate_data_expression fuel c roption a.2 else Ret (None, a.2)
        | Some p =>
          if (0 <? n) && bool_decide (container p = None) then Ret (None, a.2)
          else
            let '(q, o, i) := relay_at p (in_options a.2) n in
            if (n <=? MAX_V6RELAY_HOPS) && negb (i =? 0) then Ret (None, a.2)
            else
              b ← evaluate_data_expression fuel (with_packet c q) roption (with_in_options a.2 o);
              Ret (b.1, if n =? 0 then b.2 else with_in_options b.2 (in_options a.2))
        end
      end
    | expr_concat_dclist l r =>
      a ← evaluate_data_expression fuel c l s;
      b ← evaluate_data_expression fuel c r a.2;
      match a.1, b.1 with
      | Some x, Some y => r ← concat_dclists x y; Ret (r, b.2)
      | _, _ => Ret (None, b.2)
      end
    | _ => Ret (None, s)
    end
  end
with evaluate_numeric_expression (fuel : nat) (c : context) (e : expression) (s : state) {struct fuel} : outcome (option Z * state) :=
  match fuel with
  | O => Undef
  | S fuel =>
    match e with
    | expr_extract_int w e =>
      a ← evaluate_data_expression fuel c e s;
      match a.1 with Some d => n ← extract_int w d; Ret (n, a.2) | None => Ret (None, a.2) end
    | expr_const_int n => Ret (Some n, s)
    | expr_lease_time =>
      Ret (match c_lease c with
           | None => None
           | Some l => if ends l <? cur_time c then None else Some (u64 (ends l - cur_time c))
           end, s)
    | expr_variable_reference name => Ret (match variable s name with Some (Some (binding_numeric n)) => Some n | _ => None end, s)
    | expr_funcall _ _ => a ← evaluate_expression fuel c e s; r ← call_result a.1; Ret (r, a.2)
    | expr_arith op l r =>
      a ← evaluate_numeric_expression fuel c l s;
      b ← evaluate_numeric_expression fuel c r a.2;
      Ret (match a.1, b.1 with Some x, Some y => arith op x y | _, _ => None end, b.2)
    | expr_client_state => Ret (match c_client c with Some cl => Some (cs_state cl) | None => None end, s)
    | expr_concat_dclist _ _ | expr_dns_transaction | expr_ns_add | expr_ns_delete | expr_ns_exists | expr_ns_not_exists => Fatal
    | _ => Ret (None, s)
    end
  end
with evaluate_expression (fuel : nat) (c : context) (e : expression) (s : state) {struct fuel} : outcome (option (option binding_value) * state) :=
  match fuel with
  | O => Undef
  | S fuel =>
    match e with
    | expr_variable_reference name => Ret (match variable s name with Some (Some v) => Some (Some v) | _ => None end, s)
    | expr_funcall name args =>
      match variable s name with
      | Some (Some (binding_function f)) =>
        a ← bind_arguments fuel c (fundef_args f) args s;
        match a.1 with
        | None => Ret (None, a.2)
        | Some ns =>
          match scope a.2, variable a.2 name with
          | Some fs, Some (Some (binding_function f)) =>
            r ← execute_statements fuel c true (fundef_body f) NoStar (with_scope a.2 (Some (ns :: fs)));
            let '(status, v, s) := r in
            let s := with_scope s (option_map (drop 1) (scope s)) in
            Ret (match v with None => Some None | Some v => if status : bool then Some (Some v) else None end, s)
          | _, _ => Undef
          end
        end
      | _ => Ret (None, s)
      end
    | _ =>
      if is_boolean_expression e then
        a ← evaluate_boolean_expression fuel c e s; Ret (option_map (fun b => Some (binding_boolean b)) a.1, a.2)
      else if is_numeric_expression e then
        a ← evaluate_numeric_expression fuel c e s; Ret (option_map (fun n => Some (binding_numeric n)) a.1, a.2)
      else if is_data_expression e then
        a ← evaluate_data_expression fuel c e s; Ret (option_map (fun d => Some (binding_data d)) a.1, a.2)
      else Ret (None, s)
    end
  end
with get_option (fuel : nat) (c : context) (o : option option_state) (d : option_def) (s : state) {struct fuel} : outcome (option data_string * state) :=
  match fuel with
  | O => Undef
  | S fuel =>
    match lookup_option o d with
    | None => Ret (None, s)
    | Some oc => evaluate_option_cache fuel c oc s
    end
  end
with evaluate_option_cache (fuel : nat) (c : context) (oc : option_cache) (s : state) {struct fuel} : outcome (option data_string * state) :=
  match fuel with
  | O => Undef
  | S fuel =>
    match data (oc_data oc), oc_expression oc with
    | Some _, _ => Ret (Some (oc_data oc), s)
    | None, None => Ret (None, s)
    | None, Some e => evaluate_data_expression fuel c e s
    end
  end
with bind_arguments (fuel : nat) (c : context) (names : list (list Z)) (args : list expression) (s : state) {struct fuel} : outcome (option frame * state) :=
  match fuel with
  | O => Undef
  | S fuel =>
    match names, args with
    | [], [] => Ret (Some [], s)
    | n :: names, e :: args =>
      v ← evaluate_expression fuel c e s;
      r ← bind_arguments fuel c names args v.2;
      Ret (option_map (fun f => f ++ [(n, match v.1 with Some (Some v) => Some v | _ => None end)]) r.1, r.2)
    | _, _ => Ret (None, s)
    end
  end
with execute_statements (fuel : nat) (c : context) (result : bool) (l : list statement) (st : star) (s : state) {struct fuel} : outcome (bool * option binding_value * state) :=
  match fuel with
  | O => Undef
  | S fuel =>
    match l with
    | [] => Ret (true, None, s)
    | x :: l =>
      let st := match x, st, c_lease c with on_statement _ _, NoStar, Some _ => LeaseStar | _, _, _ => st end in
      r ← execute_one fuel c result x st s;
      let '(fl, v, s) := r in
      match fl, v with
      | End status, v => Ret (status, v, s)
      | Next, Some v => Ret (true, Some v, s)
      | Next, None => execute_statements fuel c result l st s
      end
    end
  end
with execute_one (fuel : nat) (c : context) (result : bool) (x : statement) (st : star) (s : state) {struct fuel} : outcome (flow * option binding_value * state) :=
  match fuel with
  | O => Undef
  | S fuel =>
    let block l s :=
      r ← execute_statements fuel c result l st s;
      let '(status, v, s) := r in
      Ret (if status : bool then Next else End false, v, s) in
    match x with
    | statements_statement l => block l s
    | on_statement evtypes l =>
      Ret (Next, None,
        match st with
        | NoStar => s
        | ArgStar => with_arg_star s (set_star evtypes l (arg_star s))
        | LeaseStar => with_lease_star s (set_star evtypes l (lease_star s))
        end)
    | switch_statement e l =>
      r ← find_matching_case fuel c e l s;
      match r.1 with
      | None => Ret (Next, None, r.2)
      | Some l => block l r.2
      end
    | if_statement e tc fc =>
      a ← evaluate_boolean_expression fuel c e s;
      block (match a.1 with Some b => if b =? 0 then fc else tc | None => fc end) a.2
    | eval_statement e => a ← evaluate_expression fuel c e s; Ret (Next, None, a.2)
    | return_statement e =>
      a ← evaluate_expression fuel c e s;
      Ret (Next, if result then match a.1 with Some v => v | None => None end else None, a.2)
    | break_statement => Ret (End true, None, s)
    | add_statement class => Ret (Next, None, log_event s (Classified class))
    | option_statement op oc => o ← set_option op oc (cfg_options s); Ret (Next, None, with_cfg_options s o)
    | set_statement name e =>
      match scope s with
      | None => Ret (Next, None, s)
      | Some fs =>
        let fs := set_binding (create_binding fs name) name None in
        a ← evaluate_expression fuel c e (with_scope s (Some fs));
        Ret (Next, None,
          match a.1 with
          | Some (Some v) => with_scope a.2 (option_map (fun fs => set_binding fs name (Some v)) (scope a.2))
          | _ => a.2
          end)
      end
    | define_statement name f =>
      match scope s with
      | None => Ret (Next, None, s)
      | Some fs => Ret (Next, None, with_scope s (Some (set_binding (create_binding fs name) name (Some (binding_function f)))))
      end
    | unset_statement name =>
      match scope s with
      | None => Ret (Next, None, s)
      | Some fs => Ret (Next, None, with_scope s (Some (unset fs name).2))
      end
    | let_statement _ _ _ => Undef
    | log_statement priority e =>
      a ← evaluate_data_expression fuel c e s;
      match a.1, priority with
      | None, _ => Ret (Next, None, a.2)
      | Some d, log_priority_fatal => Fatal
      | Some d, _ => Ret (Next, None, log_event a.2 (Logged priority (octets d)))
      end
    | execute_statement command args =>
      a ← evaluate_arguments fuel c args s;
      Ret (Next, None, match a.1 with Some argv => log_event a.2 (Executed (command :: argv)) | None => a.2 end)
    | vendor_opt_statement =>
      Ret (Next, None, match in_options s, cfg_options s with Some i, Some o => with_in_options s (Some (parse_vendor_option c i o)) | _, _ => s end)
    | null_statement | case_statement _ | default_statement => Ret (Next, None, s)
    end
  end
with evaluate_arguments (fuel : nat) (c : context) (args : list expression) (s : state) {struct fuel} : outcome (option (list (list Z)) * state) :=
  match fuel with
  | O => Undef
  | S fuel =>
    match args with
    | [] => Ret (Some [], s)
    | e :: args =>
      a ← evaluate_data_expression fuel c e s;
      match a.1 with
      | None => Ret (None, a.2)
      | Some d => r ← evaluate_arguments fuel c args a.2; Ret (option_map (fun l => octets d :: l) r.1, r.2)
      end
    end
  end
with find_matching_case (fuel : nat) (c : context) (e : expression) (l : list statement) (s : state) {struct fuel} : outcome (option (list statement) * state) :=
  match fuel with
  | O => Undef
  | S fuel =>
    let otherwise s := match find_default l with None => Ret (None, s) | Some l => r ← statements_at l; Ret (r, s) end in
    if is_data_expression e then
      a ← evaluate_data_expression fuel c e s;
      match a.1 with
      | None => otherwise a.2
      | Some d =>
        r ← match_case fuel c (inl (octets d)) l a.2;
        match r.1 with None => otherwise r.2 | Some l => x ← statements_at l; Ret (x, r.2) end
      end
    else
      a ← evaluate_numeric_expression fuel c e s;
      match a.1 with
      | None => otherwise a.2
      | Some n =>
        r ← match_case fuel c (inr n) l a.2;
        match r.1 with None => otherwise r.2 | Some l => x ← statements_at l; Ret (x, r.2) end
      end
  end
with match_case (fuel : nat) (c : context) (v : list Z + Z) (l : list statement) (s : state) {struct fuel} : outcome (option (list statement) * state) :=
  match fuel with
  | O => Undef
  | S fuel =>
    match l with
    | [] => Ret (None, s)
    | x :: l =>
      match case_of x with
      | None => match_case fuel c v l s
      | Some e =>
        match v with
        | inl d =>
          a ← evaluate_data_expression fuel c e s;
          if (match a.1 with Some x => bool_decide (octets x = d) | None => false end : bool) then Ret (Some l, a.2) else match_case fuel c v l a.2
        | inr n =>
          a ← evaluate_numeric_expression fuel c e s;
          if (match a.1 with Some x => x =? n | None => false end : bool) then Ret (Some l, a.2) else match_case fuel c v l a.2
        end
      end
    end
  end.

(** ** Groups *)

(** A group, as it is known by its address, with its statements; the groups around it
    follow it. *)
Abbreviation groups := (list (Z * list statement)).

(** [execute_statements_in_scope]: the statements of the groups are executed from the
    outermost one on, up to the first that is one of the limiting groups. *)
Fixpoint execute_statements_in_scope (fuel : nat) (c : context) (result : bool) (gs : groups) (limiting : list Z) (st : star) (s : state)
  : outcome (option binding_value * state) :=
  match gs with
  | [] => Ret (None, s)
  | (g, l) :: outer =>
    if bool_decide (g ∈ limiting) then Ret (None, s)
    else
      r ← execute_statements_in_scope fuel c result outer limiting st s;
      match r with
      | (Some v, s) => Ret (Some v, s)
      | (None, s) => r ← execute_statements fuel c result l st s; Ret (r.1.2, r.2)
      end
  end.

(** [evaluate_boolean_option_cache]: the value, and whether the option says that the
    packet is to be ignored. *)
Definition evaluate_boolean_option_cache (fuel : nat) (c : context) (oc : option option_cache) (s : state) : outcome (Z * Z * state) :=
  match oc, in_options s with
  | Some oc, Some _ =>
    a ← evaluate_option_cache fuel c oc s;
    Ret (match a.1 with
         | Some d => match octets d with [] => (0, 0) | x :: _ => if x =? 1 then (1, 0) else if x =? 2 then (0, 1) else (0, 0) end
         | None => (0, 0)
         end, a.2)
  | _, _ => Ret (0, 0, s)
  end.

(** [evaluate_boolean_expression_result]. *)
Definition evaluate_boolean_expression_result (fuel : nat) (c : context) (e : option expression) (s : state) : outcome (Z * option Z * state) :=
  match e with
  | None => Ret (0, None, s)
  | Some e =>
    a ← evaluate_boolean_expression fuel c e s;
    Ret (match a.1 with
         | None => (0, None)
         | Some x => if x =? 2 then (0, Some 1) else (x, Some 0)
         end, a.2)
  end.

(** ** Examples *)

Definition text (l : list Z) : data_string := DataString (Some l) true.
Definition const (l : list Z) : expression := expr_const_data (text l).

(** Neither a packet nor a lease; 54 is the time. *)
Definition context0 : context := Context None None None 54 (fun _ => 0) (fun _ _ => None) (fun i _ => i) (fun _ _ _ => false) (fun _ => None) None.
Definition state0 : state := State (Some []) (Some ∅) (Some ∅) ∅ (OnStar [] [] []) (OnStar [] [] []) [].

Definition var_x : list Z := [120].
Definition fun_f : list Z := [102].
Definition truth_expr (b : bool) : expression := expr_equal b (const [1]) (const [1]).

(** The values of a variable and of a configuration option after some statements. *)
Definition run (l : list statement) : outcome state := r ← execute_statements 40 context0 false l NoStar state0; Ret r.2.
Definition value_of (l : list statement) (name : list Z) : outcome (option (option binding_value)) := s ← run l; Ret (variable s name).

(** [false and true] has no value, so its negation does not hold either. *)
Example and_false_has_no_value :
  evaluate_boolean_expression 10 context0 (expr_and (truth_expr false) (truth_expr true)) state0 = Ret (None, state0) /\
  evaluate_boolean_expression 10 context0 (expr_not (expr_and (truth_expr false) (truth_expr true))) state0 = Ret (None, state0).
Proof. by vm_compute. Qed.

(** A variable has no value while its new value is computed: [set x = concat (x, "b")]
    leaves it without one. *)
Example set_forgets_first :
  value_of [set_statement var_x (const [97]); set_statement var_x (expr_concat (expr_variable_reference var_x) (const [98]))] var_x = Ret (Some None).
Proof. by vm_compute. Qed.

(** A function that ends without [return] crashes a comparison with its value. *)
Example no_value_is_followed :
  run [define_statement fun_f (Fundef 1 [] []); eval_statement (expr_equal true (expr_funcall fun_f []) (const [1]))] = Undef.
Proof. by vm_compute. Qed.

(** The value of a function is used by an assignment but not by an operator. *)
Example call_in_operator :
  let f := define_statement fun_f (Fundef 1 [] [return_statement (const [97])]) in
  value_of [f; set_statement var_x (expr_funcall fun_f [])] var_x = Ret (Some (Some (binding_data (text [97])))) /\
  value_of [f; set_statement var_x (expr_concat (expr_funcall fun_f []) (const [98]))] var_x = Ret (Some None).
Proof. by vm_compute. Qed.

(** The first octet of an empty substring is read through a null pointer. *)
Example extract_from_empty :
  evaluate_numeric_expression 10 context0 (expr_extract_int int8 (expr_substring (const [97]) (expr_const_int 5) (expr_const_int 1))) state0 = Undef.
Proof. by vm_compute. Qed.

(** [reverse (0, "a")] divides by zero. *)
Example reverse_by_zero : evaluate_data_expression 10 context0 (expr_reverse (expr_const_int 0) (const [97])) state0 = Undef.
Proof. by vm_compute. Qed.

(** The sum of offset and length wraps: octets far behind the packet are copied. *)
Example packet_reads_past_the_end :
  let c := with_packet context0 (Packet 0 (Some (replicate 300 0)) 300 None None) in
  evaluate_data_expression 10 c (expr_packet (expr_const_int 1) (expr_arith expr_subtract (expr_const_int 0) (expr_const_int 1))) state0 = Undef.
Proof. by vm_compute. Qed.

(** A [break] within an [if] ends the block of the [if] only. *)
Example break_in_if :
  value_of [switch_statement (const [1]) [case_statement (const [1]); if_statement (truth_expr true) [break_statement] []; set_statement var_x (const [97])]] var_x =
  Ret (Some (Some (binding_data (text [97])))).
Proof. by vm_compute. Qed.

(** A case that is the last statement of a switch crashes when it matches. *)
Example last_case : run [switch_statement (const [1]) [case_statement (const [1])]] = Undef.
Proof. by vm_compute. Qed.

(** An option whose expression refers to the option itself. *)
Definition self_option : option_def := OptionDef 1 7 false.

Lemma config_option_of_itself fuel c s :
  cfg_options s = Some {[ (1, 7) := OptionCache self_option no_data (Some (expr_config_option self_option)) ]} ->
  evaluate_data_expression fuel c (expr_config_option self_option) s = Undef.
Proof.
  intros E. induction fuel as [fuel IH] using lt_wf_ind. destruct fuel as [|[|[|fuel]]]; [done|cbn; by rewrite E|cbn; by rewrite E|].
  cbn [evaluate_data_expression get_option evaluate_option_cache]. rewrite E. cbn [lookup_option]. unfold self_option at 1 2. cbn [universe code]. rewrite lookup_singleton_eq. cbn [oc_data oc_expression no_data data]. apply IH. lia.
Qed.

(** A name that was not found is found, without any address, during the next minute. *)
Example failed_lookup_succeeds :
  let e := expr_host_lookup 1 [97] in
  (a ← evaluate_data_expression 10 context0 e state0; b ← evaluate_data_expression 10 context0 e a.2; Ret (a.1, b.1)) = Ret (None, Some no_data).
Proof. by vm_compute. Qed.

End Expr.
