(* ===== verification/ExprType.v ===== *)
(** * The types of expressions (common/tree.c)

    A well-typed expression, in the sense of the contexts in which the parser of the
    configuration accepts its operands, has a value of its type, or none, in every
    state: its evaluation ends, follows no null pointer and changes no variable and no
    option.  Left out are calls of functions and the operators that are not safe for
    all operands: [binary-to-ascii], and [packet], [reverse] and the extraction of one
    octet unless their operands are known to be in range. *)

From Stdlib Require Import ZArith Lia.
From stdpp Require Import base list numbers option gmap.
From S2P Require Import Prelude.
From S2P Require Import Convert.
From S2P Require Import Expr.
#[local] Open Scope Z_scope.

Module ExprType.

Import Convert Expr.

(** ** Types *)

Inductive ty : Type := TBool | TData | TNum.

#[export] Instance ty_eq_dec : EqDecision ty.
Proof. solve_decision. Defined.

(** An expression whose value, if it has one, is not empty. *)
Fixpoint nonempty (e : expression) : bool :=
  match e with
  | expr_const_data d => 1 <=? len d
  | expr_encode_int _ _ => true
  | expr_concat l r => nonempty l || nonempty r
  | expr_lcase e | expr_ucase e => nonempty e
  | _ => false
  end.

(** A constant in a range. *)
Definition const_in (lo hi : Z) (e : expression) : bool :=
  match e with expr_const_int n => (lo <=? n) && (n <? hi) | _ => false end.

Section Types.

(** The packets are those of DHCPv4, which have a header. *)
Context (v4 : bool).

(** [well_typed opts t e]: the expression has the type [t], in a discipline that is stricter than the
    tests of the program: an octet is extracted only from data that is not empty, the
    width of a reversal and the bounds of a part of the packet are constants, and
    lists of domain names, [binary-to-ascii], calls and updates of the DNS are left
    out; with [opts] it may refer to options. *)
Fixpoint well_typed (opts : bool) (t : ty) (e : expression) : bool :=
  let any e := well_typed opts TBool e || well_typed opts TData e || well_typed opts TNum e in
  let has x := bool_decide (t = x) in
  match e with
  | expr_check _ | expr_known | expr_static | expr_variable_exists _ => has TBool
  | expr_equal _ l r => has TBool && any l && any r
  | expr_regex_match _ l r => has TBool && well_typed opts TData l && well_typed opts TData r
  | expr_and l r | expr_or l r => has TBool && well_typed opts TBool l && well_typed opts TBool r
  | expr_not e => has TBool && well_typed opts TBool e
  | expr_exists _ => has TBool && opts
  | expr_variable_reference _ => true
  | expr_substring e o n => has TData && well_typed opts TData e && well_typed opts TNum o && well_typed opts TNum n
  | expr_suffix e n => has TData && well_typed opts TData e && well_typed opts TNum n
  | expr_lcase e | expr_ucase e => has TData && well_typed opts TData e
  | expr_option _ | expr_config_option _ => has TData && opts
  | expr_hardware | expr_encapsulate _ | expr_host_lookup _ _ | expr_leased_address | expr_host_decl_name | expr_null | expr_gethostname => has TData
  | expr_filename | expr_sname => has TData && v4
  | expr_packet o n => has TData && const_in 0 (2 ^ 32) o && const_in 0 (2 ^ 32) n
  | expr_const_data d => has TData && forallb (fun x => (0 <=? x) && (x <? 256)) (octets d)
  | expr_concat l r => has TData && well_typed opts TData l && well_typed opts TData r
  | expr_encode_int _ e => has TData && well_typed opts TNum e
  | expr_reverse w e => has TData && const_in 1 (2 ^ 32) w && well_typed opts TData e
  | expr_pick_first_value car cdr => has TData && well_typed opts TData car && match cdr with Some e => well_typed opts TData e | None => true end
  | expr_v6relay r e => has TData && well_typed opts TNum r && well_typed opts TData e
  | expr_extract_int w e => has TNum && well_typed opts TData e && match w with int8 => nonempty e | _ => true end
  | expr_const_int n => has TNum && (0 <=? n) && (n <? 2 ^ 64)
  | expr_lease_time | expr_client_state => has TNum
  | expr_arith _ l r => has TNum && well_typed opts TNum l && well_typed opts TNum r
  | _ => false
  end.

(** The fuel that an expression takes, without the options it refers to. *)
Fixpoint height (e : expression) : nat :=
  match e with
  | expr_equal _ l r | expr_or l r => S (S (height l `max` height r))
  | expr_regex_match _ l r | expr_and l r | expr_concat l r | expr_arith _ l r | expr_packet l r | expr_suffix l r | expr_reverse l r | expr_v6relay l r => S (height l `max` height r)
  | expr_substring a b c => S (height a `max` (height b `max` height c))
  | expr_not e | expr_lcase e | expr_ucase e | expr_encode_int _ e | expr_extract_int _ e => S (height e)
  | expr_pick_first_value car cdr => S (height car `max` match cdr with Some e => height e | None => 0%nat end)
  | _ => 1%nat
  end.

(** The tests of the program take the expression for one of the type. *)
Definition accepted (t : ty) (e : expression) : Prop :=
  match t with
  | TBool => is_boolean_expression e = true
  | TNum => is_boolean_expression e = false /\ is_numeric_expression e = true
  | TData => is_boolean_expression e = false /\ is_numeric_expression e = false /\ is_data_expression e = true
  end.

(** ** Values and states *)

Definition string_ok (d : data_string) : Prop := is_bytes (octets d).
Definition number_ok (n : Z) : Prop := 0 <= n < 2 ^ 64.

Definition value_ok (v : binding_value) : Prop :=
  match v with binding_data d => string_ok d | binding_numeric n => number_ok n | _ => True end.

Definition frames_ok (fs : list frame) : Prop := forall name v, find_binding fs name = Some (Some v) -> value_ok v.

(** A cache holds data, or an expression without references to options. *)
Definition cache_ok (depth : nat) (oc : option_cache) : Prop :=
  string_ok (oc_data oc) /\ match oc_expression oc with Some e => well_typed false TData e = true /\ (height e <= depth)%nat | None => True end.

Definition options_ok (depth : nat) (o : option option_state) : Prop := forall d oc, lookup_option o d = Some oc -> cache_ok depth oc.

Definition raw_ok (r : option (list Z)) (length : Z) : Prop :=
  match r with Some r => is_bytes r /\ 236 <= Zlen r /\ 0 <= length <= Zlen r | None => v4 = false end.

Fixpoint packet_ok (depth : nat) (p : packet) : Prop :=
  match p with Packet _ r n o q => raw_ok r n /\ options_ok depth o /\ match q with Some q => packet_ok depth q | None => True end end.

Record context_ok (depth : nat) (c : context) : Prop := ContextOk {
  ok_packet : forall p, c_packet c = Some p -> packet_ok depth p;
  ok_lease : forall l, c_lease c = Some l -> is_bytes (hardware_addr l) /\ is_bytes (ip_addr l) /\ (forall n, host l = Some n -> is_bytes n) /\ ends l < 2 ^ 63;
  ok_time : 0 <= cur_time c;
  ok_client : forall cl, c_client c = Some cl -> number_ok (cs_state cl) /\ is_bytes (hw_address cl);
  ok_encapsulate : forall o n d, space_encapsulate c o n = Some d -> string_ok d;
  ok_resolver : forall n h, gethostbyname c n = Some h -> Forall is_bytes h;
  ok_hostname : forall n, gethostname c = Some n -> is_bytes n
}.

Record state_ok (depth : nat) (s : state) : Prop := StateOk {
  ok_scope : forall fs, scope s = Some fs -> frames_ok fs;
  ok_in : options_ok depth (in_options s);
  ok_cfg : options_ok depth (cfg_options s);
  ok_dns : forall k t d, dns s !! k = Some (t, d) -> string_ok d
}.

(** All but the host entries are the same. *)
Definition same (s s' : state) : Prop :=
  exists m, s' = with_dns s m /\ forall k t d, m !! k = Some (t, d) -> string_ok d.

Lemma same_state_refl depth s : state_ok depth s -> same s s.
Proof. intros H. exists (dns s). split; [by destruct s|apply H]. Qed.

Lemma same_state_trans s1 s2 s3 : same s1 s2 -> same s2 s3 -> same s1 s3.
Proof. intros (m1 & -> & _) (m2 & -> & H). by exists m2. Qed.

Lemma same_ok depth s s' : state_ok depth s -> same s s' -> state_ok depth s'.
Proof. intros [? ? ? ?] (m & -> & ?). by constructor. Qed.

(** ** Operators *)

Lemma string_ok_none : string_ok no_data.
Proof. constructor. Qed.

Lemma substring_ok d o n : string_ok d -> string_ok (substring_of d o n).
Proof. intros H. unfold substring_of. repeat case_match; [by apply is_bytes_take, is_bytes_drop|by apply is_bytes_drop|constructor]. Qed.

Lemma suffix_ok d n : string_ok d -> string_ok (suffix_of d n).
Proof. intros H. unfold suffix_of. case_match; [by apply is_bytes_drop|done]. Qed.

Lemma tolower_byte x : is_byte x -> is_byte (tolower x).
Proof. unfold is_byte, tolower. case_match eqn:E; [|done]. apply andb_true_iff in E as [?%Z.leb_le ?%Z.leb_le]. lia. Qed.

Lemma toupper_byte x : is_byte x -> is_byte (toupper x).
Proof. unfold is_byte, toupper. case_match eqn:E; [|done]. apply andb_true_iff in E as [?%Z.leb_le ?%Z.leb_le]. lia. Qed.

Lemma map_case_ok f d : (forall x, is_byte x -> is_byte (f x)) -> string_ok d -> string_ok (map_case f d) /\ len (map_case f d) = len d.
Proof. intros Hf H. split; [|unfold len, map_case, Zlen; cbn; by rewrite length_map]. unfold string_ok, map_case. cbn. apply Forall_fmap. eapply Forall_impl; [exact H|]. apply Hf. Qed.

Lemma concat_ok x y : string_ok x -> string_ok y -> string_ok (DataString (Some (octets x ++ octets y)) false).
Proof. intros. unfold string_ok. cbn. by apply is_bytes_app. Qed.

Lemma packet_raw depth c p : context_ok depth c -> c_packet c = Some p -> raw_ok (raw p) (packet_length p).
Proof. intros H E. pose proof (ok_packet _ _ H p E) as Hp. destruct p. apply Hp. Qed.

Lemma hardware_ok depth c : context_ok depth c -> exists r, hardware c = Ret r /\ forall d, r = Some d -> string_ok d.
Proof.
  intros H. unfold hardware. destruct (c_client c) as [cl|] eqn:Ec; [eexists; split; [done|]; intros d [= <-]; apply (ok_client _ _ H cl Ec)|].
  assert (exists r, match c_lease c with Some l => Ret (Some (DataString (Some (hardware_addr l)) false)) | None => Ret None end = Ret r /\ forall d, r = Some d -> string_ok d) as Hl.
  { destruct (c_lease c) as [l|] eqn:El; [|by exists None]. destruct (ok_lease _ _ H l El) as (Hh & _). eexists. split; [done|]. by intros d [= <-]. }
  destruct (c_packet c) as [p|] eqn:Ep; cbn [mbind option_bind]; [|done]. pose proof (packet_raw _ _ _ H Ep) as Hr. destruct (raw p) as [r|]; [|done]. destruct Hr as (Hb & Hn & _).
  unfold hlen_at, htype_at, chaddr_at. rewrite (rd_in r 2) by lia. cbn [mbind outcome_bind]. destruct (Z.ltb_spec 16 (nthZ r 2)) as [?|Hle]; [by exists None|]. pose proof (nthZ_byte r 2 Hb) as Hh. unfold is_byte in Hh.
  rewrite (rd_in r 1), memread_in by lia. cbn [mbind outcome_bind]. eexists. split; [done|]. intros d [= <-]. unfold string_ok. cbn. constructor; [by apply nthZ_byte|by apply is_bytes_take, is_bytes_drop].
Qed.

Lemma packet_part_ok r n o k : raw_ok (Some r) n -> 0 <= o < 2 ^ 32 -> 0 <= k < 2 ^ 32 -> exists x, packet_part r n o k = Ret x /\ forall d, x = Some d -> string_ok d.
Proof.
  intros (Hb & _ & Hn) Ho Hk. unfold packet_part. destruct (Z.ltb_spec o n) as [Hlt|?]; [|by exists None]. unfold u64. rewrite (Z.mod_small (o + k)) by lia. unfold u32. rewrite (Z.mod_small k) by lia.
  rewrite memread_in; [|lia|case_match; lia|destruct (Z.ltb_spec n (o + k)); lia]. cbn [mbind outcome_bind]. eexists. split; [done|]. intros d [= <-]. by apply is_bytes_take, is_bytes_drop.
Qed.

Lemma until_nul_bytes l : is_bytes l -> is_bytes (until_nul l).
Proof. induction 1 as [|x l Hx _ IH]; cbn; [constructor|]. case_match; constructor; done. Qed.

Lemma field_ok depth c off size : context_ok depth c -> v4 = true -> 0 <= off -> 0 <= size -> off + size <= 236 ->
  exists r, field c off size = Ret r /\ forall d, r = Some d -> string_ok d.
Proof.
  intros H Hv Ho Hs Hle. unfold field. destruct (c_packet c) as [p|] eqn:Ep; [|by exists None]. pose proof (packet_raw _ _ _ H Ep) as Hr. destruct (raw p) as [r|]; cbn in Hr; [|congruence].
  destruct Hr as (Hb & Hn & _). rewrite memread_in by lia. cbn [mbind outcome_bind]. eexists. split; [done|]. intros d E.
  assert (is_bytes (until_nul (take (Z.to_nat size) (drop (Z.to_nat off) r)))) as Hu by (by apply until_nul_bytes, is_bytes_take, is_bytes_drop). destruct (until_nul _); [done|]. injection E as <-. done.
Qed.

Lemma encode_int_ok w n : exists d, encode_int w n = Ret d /\ string_ok d /\ 1 <= len d.
Proof.
  destruct w; unfold encode_int; cbn [mbind outcome_bind].
  - eexists. split; [done|]. split; [constructor; [apply u8_byte|constructor]|done].
  - unfold putUShort, memcpy. rewrite bool_decide_true by (unfold Zlen; by rewrite be_enc_length, length_replicate). cbn [mbind outcome_bind]. eexists. split; [done|].
    unfold string_ok, len, Zlen. cbn [data octets default]. rewrite be_enc_length, take_0, drop_ge by (by rewrite length_replicate). rewrite app_nil_r. cbn [app]. split; [apply be_enc_bytes|unfold id; by rewrite be_enc_length].
  - unfold putULong, memcpy. rewrite bool_decide_true by (unfold Zlen; by rewrite be_enc_length, length_replicate). cbn [mbind outcome_bind]. eexists. split; [done|].
    unfold string_ok, len, Zlen. cbn [data octets default]. rewrite be_enc_length, take_0, drop_ge by (by rewrite length_replicate). rewrite app_nil_r. cbn [app]. split; [apply be_enc_bytes|unfold id; by rewrite be_enc_length].
Qed.

Lemma be_val_number l : is_bytes l -> (length l <= 8)%nat -> number_ok (be_val l).
Proof.
  intros Hb Hl. pose proof (be_val_range l Hb) as H. unfold number_ok. split; [lia|]. eapply Z.lt_le_trans; [apply H|]. change (2 ^ 64) with (256 ^ 8). apply Z.pow_le_mono_r; unfold Zlen; lia.
Qed.

Lemma extract_int_ok w d : string_ok d -> (w = int8 -> 1 <= len d) -> exists r, extract_int w d = Ret r /\ forall n, r = Some n -> number_ok n.
Proof.
  intros H H8. unfold string_ok, len in *. unfold extract_int, len. destruct w.
  - specialize (H8 eq_refl). unfold octets in *. destruct (data d) as [[|x l]|]; [by unfold Zlen in H8; cbn in H8|..]; [|by unfold Zlen in H8; cbn in H8]. eexists. split; [done|]. intros n [= <-].
    cbn in H. apply Forall_cons in H as [Hx _]. unfold is_byte in Hx. unfold number_ok. lia.
  - destruct (Z.ltb_spec (Zlen (octets d)) 2) as [?|Hl]; [by exists None|]. unfold getUShort. rewrite memread_in by lia. cbn [mbind outcome_bind]. eexists. split; [done|]. intros n [= <-].
    apply be_val_number; [by apply is_bytes_take, is_bytes_drop|rewrite length_take; lia].
  - destruct (Z.ltb_spec (Zlen (octets d)) 4) as [?|Hl]; [by exists None|]. unfold getULong. rewrite memread_in by lia. cbn [mbind outcome_bind]. eexists. split; [done|]. intros n [= <-].
    apply be_val_number; [by apply is_bytes_take, is_bytes_drop|rewrite length_take; lia].
Qed.

Lemma reverse_loop_ok n w buf : is_bytes buf -> 0 < w -> forall i, 0 <= i -> i + Z.of_nat n * w <= Zlen buf -> exists x, reverse_loop n w buf i = Ret x /\ is_bytes x.
Proof.
  intros Hb Hw. induction n as [|n IH]; intros i Hi Hle; [exists []; split; [done|constructor]|]. cbn [reverse_loop]. rewrite memread_in by lia. cbn [mbind outcome_bind].
  destruct (IH (i + w)) as (x & -> & Hx); [lia|lia|]. eexists. split; [done|]. apply is_bytes_app. split; [by apply is_bytes_take, is_bytes_drop|done].
Qed.

Lemma reverse_ok w d : string_ok d -> 0 < w -> exists r, reverse w d = Ret r /\ forall x, r = Some x -> string_ok x.
Proof.
  intros H Hw. unfold reverse. rewrite (proj2 (Z.eqb_neq w 0)) by lia. destruct (Z.eqb_spec (len d mod w) 0) as [Em|?]; cbn [negb]; [|by exists None].
  destruct (reverse_loop_ok (Z.to_nat (len d / w)) w (octets d) H Hw 0) as (x & -> & Hx); [lia| |].
  - pose proof (Z.div_mod (len d) w) as Hd. pose proof (Z.div_pos (len d) w) as Hp. unfold len in *. pose proof (Zlen_nonneg (octets d)). nia.
  - eexists. split; [done|]. by intros ? [= <-].
Qed.

Lemma arith_ok op x y n : number_ok x -> number_ok y -> arith op x y = Some n -> number_ok n.
Proof.
  unfold number_ok. intros Hx Hy E. assert (forall z, 0 <= u64 z < 2 ^ 64) as Hu by (intros z; apply Z.mod_pos_bound; lia).
  assert (forall z, 0 <= z -> Z.log2 z < 64 -> 0 <= z < 2 ^ 64) as Hl by (intros z Hz Hlog; split; [done|]; destruct (Z.eq_dec z 0) as [->|]; [lia|]; apply Z.log2_lt_pow2; lia).
  assert (forall z, 0 <= z < 2 ^ 64 -> Z.log2 z < 64) as Hg by (intros z Hz; destruct (Z.eq_dec z 0) as [->|]; [done|]; apply Z.log2_lt_pow2; lia).
  pose proof (Hg x Hx). pose proof (Hg y Hy). destruct op; cbn in E; try (injection E as <-; apply Hu).
  - case_match eqn:E0; [done|]. apply Z.eqb_neq in E0. injection E as <-. split; [apply Z.div_pos; lia|]. apply Z.div_lt_upper_bound; nia.
  - case_match eqn:E0; [done|]. apply Z.eqb_neq in E0. injection E as <-. pose proof (Z.mod_pos_bound x y). lia.
  - injection E as <-. apply Hl; [apply Z.land_nonneg; lia|]. eapply Z.le_lt_trans; [apply Z.log2_land; lia|lia].
  - injection E as <-. apply Hl; [apply Z.lor_nonneg; lia|]. rewrite Z.log2_lor by lia. lia.
  - injection E as <-. apply Hl; [apply Z.lxor_nonneg; lia|]. eapply Z.le_lt_trans; [apply Z.log2_lxor; lia|lia].
Qed.

Lemma relay_at_ok depth p : forall o i q o' k, packet_ok depth p -> options_ok depth o -> relay_at p o i = (q, o', k) -> packet_ok depth q /\ options_ok depth o'.
Proof.
  revert p. fix IH 1. intros [kn r n po [q0|]] o i q o' k Hp Ho; cbn [relay_at container options]; case_match; try (intros [= <- <- <-]; done). intros E.
  destruct Hp as (_ & _ & Hq). apply (IH q0 (options q0) (i - 1) q o' k); [done| |done]. destruct q0. apply Hq.
Qed.

Lemma with_packet_ok depth c q : context_ok depth c -> packet_ok depth q -> context_ok depth (with_packet c q).
Proof. intros [] Hq. constructor; try done. by intros p [= <-]. Qed.

Lemma variable_ok depth s name v : state_ok depth s -> variable s name = Some (Some v) -> value_ok v.
Proof.
  intros H. unfold variable. destruct (scope s) as [[|f fs]|] eqn:E; try done. apply (ok_scope _ _ H _ E).
Qed.

Lemma host_lookup_ok depth c s k n : context_ok depth c -> state_ok depth s ->
  exists r s', do_host_lookup c k n s = (r, s') /\ same s s' /\ forall d, r = Some d -> string_ok d.
Proof.
  intros Hc Hs. unfold do_host_lookup. destruct (default (0, no_data) (dns s !! k)) as [t d] eqn:Ed.
  assert (string_ok d) as Hd by (destruct (dns s !! k) as [[t' d']|] eqn:E; cbn in Ed; injection Ed as <- <-; [by apply (ok_dns _ _ Hs k t')|constructor]).
  assert (forall x, string_ok x -> forall t, same s (with_dns s (<[k := (t, x)]> (dns s)))) as Hsame.
  { intros x Hx t'. exists (<[k := (t', x)]> (dns s)). split; [done|]. intros k' t2 d2. destruct (decide (k' = k)) as [->|Hne]; [rewrite lookup_insert_eq; by intros [= <- <-]|rewrite lookup_insert_ne by done; apply (ok_dns _ _ Hs)]. }
  case_match; [exists (Some d), s; split; [done|]; split; [by eapply same_state_refl|]; by intros ? [= <-]|].
  destruct (gethostbyname c n) as [h|] eqn:Eh; eexists _, _; (split; [done|]).
  - pose proof (ok_resolver _ _ Hc n h Eh) as Hh. assert (string_ok (DataString (Some (concat h)) false)) as Hx by (unfold string_ok; cbn; by apply Forall_concat). split; [by apply Hsame|]. by intros ? [= <-].
  - split; [apply Hsame; constructor|done].
Qed.

(** ** Evaluation *)

(** The evaluation returns, with a value that has the property if there is one. *)
Definition evaluates {A} (Q : A -> Prop) (s : state) (m : outcome (option A * state)) : Prop :=
  exists r s', m = Ret (r, s') /\ same s s' /\ forall x, r = Some x -> Q x.

Lemma evaluates_now {A} (Q : A -> Prop) depth s r : state_ok depth s -> (forall x, r = Some x -> Q x) -> evaluates Q s (Ret (r, s)).
Proof. intros Hs Hr. exists r, s. split; [done|]. split; [by eapply same_state_refl|done]. Qed.

Lemma evaluates_bind {A B} (Q : A -> Prop) (R : B -> Prop) s m (f : option A * state -> outcome (option B * state)) :
  evaluates Q s m -> (forall r s', same s s' -> (forall x, r = Some x -> Q x) -> evaluates R s' (f (r, s'))) -> evaluates R s (a ← m; f a).
Proof.
  intros (r & s1 & -> & H1 & Hr) Hf. cbn [mbind outcome_bind]. destruct (Hf r s1 H1 Hr) as (r2 & s2 & E & H2 & H3). exists r2, s2. split; [done|]. split; [by eapply same_state_trans|done].
Qed.

Lemma evaluates_impl {A} (Q R : A -> Prop) s m : (forall x, Q x -> R x) -> evaluates Q s m -> evaluates R s m.
Proof. intros H (r & s' & E & Hs & Hr). exists r, s'. split_and!; [done|done|]. intros x Ex. by apply H, Hr. Qed.

Section Soundness.

(** References to options, if they are allowed, take [D] of fuel. *)
Context (opts : bool) (depth D : nat).

Hypothesis options_evaluate : opts = true -> forall c s o d fuel, context_ok depth c -> state_ok depth s -> options_ok depth o -> (D <= fuel)%nat ->
  evaluates string_ok s (get_option fuel c o d s).

Definition data_ok (e : expression) (d : data_string) : Prop := string_ok d /\ (nonempty e = true -> 1 <= len d).

Definition typed (t : ty) (v : binding_value) : Prop :=
  match t, v with TBool, binding_boolean _ | TData, binding_data _ | TNum, binding_numeric _ => True | _, _ => False end.

Record sound (n : nat) (e : expression) : Prop := Sound {
  sound_bool : forall fuel c s, (n + D <= fuel)%nat -> context_ok depth c -> state_ok depth s -> well_typed opts TBool e = true -> evaluates (fun _ => True) s (evaluate_boolean_expression fuel c e s);
  sound_data : forall fuel c s, (n + D <= fuel)%nat -> context_ok depth c -> state_ok depth s -> well_typed opts TData e = true -> evaluates (data_ok e) s (evaluate_data_expression fuel c e s);
  sound_num : forall fuel c s, (n + D <= fuel)%nat -> context_ok depth c -> state_ok depth s -> well_typed opts TNum e = true -> evaluates number_ok s (evaluate_numeric_expression fuel c e s)
}.

(** An expression of a type is a variable, or has an operator that the tests of
    the program take for one of the type. *)
Lemma typed_operator t e : well_typed opts t e = true -> (exists name, e = expr_variable_reference name) \/ accepted t e.
Proof. destruct e, t; cbn; intros H; try done; try (by right); left; by eexists. Qed.

(** The value of an expression of any type. *)
Lemma expression_evaluates n e t fuel c s : sound n e -> (S n + D <= fuel)%nat -> context_ok depth c -> state_ok depth s -> well_typed opts t e = true ->
  evaluates (fun v => exists x, v = Some x /\ value_ok x /\ ((exists name, e = expr_variable_reference name) \/ typed t x)) s (evaluate_expression fuel c e s).
Proof.
  intros He Hf Hc Hs Ht. destruct fuel as [|fuel]; [lia|]. destruct (typed_operator t e Ht) as [[name ->]|Hop].
  - cbn [evaluate_expression]. eapply evaluates_now; [done|]. intros v E. destruct (variable s name) as [[x|]|] eqn:Ex; try done. injection E as <-. exists x. split; [done|]. split; [by eapply variable_ok|left; by eexists].
  - assert (evaluate_expression (S fuel) c e s =
      if is_boolean_expression e then a ← evaluate_boolean_expression fuel c e s; Ret (option_map (fun b => Some (binding_boolean b)) a.1, a.2)
      else if is_numeric_expression e then a ← evaluate_numeric_expression fuel c e s; Ret (option_map (fun n => Some (binding_numeric n)) a.1, a.2)
      else if is_data_expression e then a ← evaluate_data_expression fuel c e s; Ret (option_map (fun d => Some (binding_data d)) a.1, a.2)
      else Ret (None, s)) as ->.
    { destruct e; try reflexivity; destruct t; cbn in Hop; naive_solver. }
    assert (forall A (Q : A -> Prop) (f : A -> binding_value) m, evaluates Q s m -> (forall x, Q x -> value_ok (f x)) -> (forall x, typed t (f x)) ->
      evaluates (fun v => exists x, v = Some x /\ value_ok x /\ ((exists name, e = expr_variable_reference name) \/ typed t x)) s (a ← m; Ret (option_map (fun x => Some (f x)) a.1, a.2))) as Hw.
    { intros A Q f m Hm Hv Hty. eapply evaluates_bind; [exact Hm|]. intros r s' Hsame Hr. eapply evaluates_now; [by eapply same_ok|]. intros v E. destruct r as [x|]; [|done]. injection E as <-. exists (f x). split; [done|]. split; [by apply Hv, Hr|by right]. }
    destruct t.
    + rewrite Hop. apply (Hw Z (fun _ => True) binding_boolean); [by apply (sound_bool n e He); [lia|..]|done|done].
    + destruct Hop as (-> & -> & ->). apply (Hw _ (data_ok e) binding_data); [by apply (sound_data n e He); [lia|..]|by intros x []|done].
    + destruct Hop as (-> & ->). apply (Hw _ number_ok binding_numeric); [by apply (sound_num n e He); [lia|..]|done|done].
Qed.

(** The condition for the operands of a comparison. *)
Lemma any_evaluates n e fuel c s : sound n e -> (S n + D <= fuel)%nat -> context_ok depth c -> state_ok depth s -> well_typed opts TBool e || well_typed opts TData e || well_typed opts TNum e = true ->
  evaluates (fun v => v <> None) s (evaluate_expression fuel c e s).
Proof.
  intros He Hf Hc Hs Ht. assert (exists t, well_typed opts t e = true) as [t Hty] by (rewrite !orb_true_iff in Ht; destruct Ht as [[Ht|Ht]|Ht]; eauto).
  eapply evaluates_impl; [|by apply (expression_evaluates n e t)]. by intros ? (x & -> & _).
Qed.

(** Splits a conjunction of conditions. *)
Ltac conditions H := repeat match type of H with context [_ && _] => rewrite andb_true_iff in H; let H1 := fresh "Ht" in destruct H as [H H1] end.

(** Evaluates the operand in front. *)
Ltac operand H := eapply evaluates_bind; [apply H; [lia|done|eauto using same_ok|done]|intros ? ? ? ?; cbn [fst snd]].

Lemma or_operand_evaluates n e fuel c s : sound n e -> (S n + D <= fuel)%nat -> context_ok depth c -> state_ok depth s -> well_typed opts TBool e = true ->
  exists r b s', or_operand fuel c e s = Ret (r, b, s') /\ same s s'.
Proof.
  intros He Hf Hc Hs Ht. destruct fuel as [|fuel]; [lia|]. destruct (sound_bool n e He fuel c s) as (r & s' & E & H & _); [lia|done..|].
  exists r, (default 0 r), s'. split; [|done]. destruct e; try done; cbn [or_operand]; rewrite E; done.
Qed.

Lemma bool_step n e fuel c s : (forall e, (height e <= n)%nat -> sound n e) -> (forall e, (S (height e) <= n)%nat -> sound (n - 1) e) -> (height e <= S n)%nat -> (n + D <= fuel)%nat ->
  context_ok depth c -> state_ok depth s -> well_typed opts TBool e = true -> evaluates (fun _ => True) s (evaluate_boolean_expression (S fuel) c e s).
Proof.
  intros IH IH2 Hh Hf Hc Hs Ht. destruct e; cbn [well_typed] in Ht; try done; cbn [evaluate_boolean_expression]; cbn [height] in Hh; conditions Ht; try (by eapply evaluates_now).
  - eapply evaluates_bind; [apply (any_evaluates (n - 1)); [apply IH2; lia|lia|done|done|done]|]. intros r s1 H1 Hr. cbn [fst snd].
    eapply evaluates_bind; [apply (any_evaluates (n - 1)); [apply IH2; lia|lia|done|by eapply same_ok|done]|]. intros r2 s2 H2 Hr2. cbn [fst snd].
    assert (state_ok depth s2) by eauto using same_ok. destruct r as [[x|]|], r2 as [[y|]|]; try (by eapply evaluates_now); exfalso; first [by apply (Hr None)|by apply (Hr2 None)].
  - operand (sound_data n e1 (IH e1 ltac:(lia))). operand (sound_data n e2 (IH e2 ltac:(lia))). repeat case_match; eapply evaluates_now; eauto using same_ok.
  - operand (sound_bool n e1 (IH e1 ltac:(lia))). destruct r as [x|]; [|eapply evaluates_now; eauto using same_ok]. case_match; [eapply evaluates_now; eauto using same_ok|].
    operand (sound_bool n e2 (IH e2 ltac:(lia))). eapply evaluates_now; eauto using same_ok.
  - destruct (or_operand_evaluates (n - 1) e1 fuel c s) as (x & b & s1 & -> & H1); [apply IH2; lia|lia|done..|]. cbn [mbind outcome_bind].
    assert (state_ok depth s1) as Hs1 by eauto using same_ok. destruct (or_operand_evaluates (n - 1) e2 fuel c s1) as (y & b2 & s2 & E2 & H2); [apply IH2; lia|lia|done..|]. rewrite E2. cbn [mbind outcome_bind].
    assert (same s s2) by eauto using same_state_trans. repeat case_match; eexists _, _; (split; [done|]); done.
  - operand (sound_bool n e (IH e ltac:(lia))). eapply evaluates_now; eauto using same_ok.
  - destruct (in_options s) as [o'|] eqn:Eo; [|by eapply evaluates_now]. eapply evaluates_bind; [apply options_evaluate; [done|done|done|rewrite <- Eo; apply Hs|lia]|]. intros r s1 H1 _. eapply evaluates_now; eauto using same_ok.
Qed.

Lemma const_in_inv lo hi e : const_in lo hi e = true -> exists k, e = expr_const_int k /\ lo <= k < hi.
Proof. destruct e; try done. cbn. intros [?%Z.leb_le ?%Z.ltb_lt]%andb_true_iff. by eexists. Qed.

Lemma data_step n e fuel c s : (forall e, (height e <= n)%nat -> sound n e) -> (height e <= S n)%nat -> (n + D <= fuel)%nat ->
  context_ok depth c -> state_ok depth s -> well_typed opts TData e = true -> evaluates (data_ok e) s (evaluate_data_expression (S fuel) c e s).
Proof.
  intros IH Hh Hf Hc Hs Ht.
  assert (forall r s', same s s' -> (forall d, r = Some d -> data_ok e d) -> evaluates (data_ok e) s' (Ret (r, s'))) as Hend by (intros; eapply evaluates_now; eauto using same_ok).
  assert (forall m : outcome (option data_string), nonempty e = false -> (exists r, m = Ret r /\ forall d, r = Some d -> string_ok d) -> evaluates (data_ok e) s (r ← m; Ret (r, s))) as Hpure.
  { intros m Hne (r & -> & Hr). cbn [mbind outcome_bind]. eapply evaluates_now; [done|]. intros d Ed. split; [by apply Hr|by rewrite Hne]. }
  destruct e; cbn [well_typed] in Ht; try done; cbn [evaluate_data_expression]; cbn [height] in Hh; conditions Ht.
  - eapply evaluates_now; [done|]. intros d Ed. destruct (variable s name) as [[[| x | |]|]|] eqn:Ex; try done. injection Ed as <-. split; [by apply (variable_ok _ _ _ _ Hs Ex)|done].
  - operand (sound_data n e1 (IH e1 ltac:(lia))). operand (sound_num n e2 (IH e2 ltac:(lia))). operand (sound_num n e3 (IH e3 ltac:(lia))).
    eapply evaluates_now; [eauto using same_ok|]. intros d Ed. repeat case_match; try done. injection Ed as <-. split; [apply substring_ok; naive_solver|done].
  - operand (sound_data n e1 (IH e1 ltac:(lia))). operand (sound_num n e2 (IH e2 ltac:(lia))).
    eapply evaluates_now; [eauto using same_ok|]. intros d Ed. repeat case_match; try done. injection Ed as <-. split; [apply suffix_ok; naive_solver|done].
  - operand (sound_data n e (IH e ltac:(lia))). apply Hend; [done|]. intros d Ed. destruct r as [x|]; [|done]. injection Ed as <-. destruct (H0 x eq_refl) as [Hx Hl]. destruct (map_case_ok tolower x tolower_byte Hx) as [? El]. split; [done|]. intros Hne. rewrite El. by apply Hl.
  - operand (sound_data n e (IH e ltac:(lia))). apply Hend; [done|]. intros d Ed. destruct r as [x|]; [|done]. injection Ed as <-. destruct (H0 x eq_refl) as [Hx Hl]. destruct (map_case_ok toupper x toupper_byte Hx) as [? El]. split; [done|]. intros Hne. rewrite El. by apply Hl.
  - destruct (in_options s) as [o'|] eqn:Eo; [|by eapply evaluates_now]. eapply evaluates_impl; [|apply options_evaluate; [done|done|done|rewrite <- Eo; apply Hs|lia]]. by intros x Hx.
  - destruct (cfg_options s) as [o'|] eqn:Eo; [|by eapply evaluates_now]. eapply evaluates_impl; [|apply options_evaluate; [done|done|done|rewrite <- Eo; apply Hs|lia]]. by intros x Hx.
  - apply Hpure; [done|]. by eapply hardware_ok.
  - destruct (c_packet c) as [p|] eqn:Ep; [|by eapply evaluates_now]. pose proof (packet_raw _ _ _ Hc Ep) as Hraw. destruct (raw p) as [r|] eqn:Er; [|by eapply evaluates_now].
    destruct (const_in_inv _ _ _ Ht1) as (o & -> & Ho), (const_in_inv _ _ _ Ht0) as (k & -> & Hk). destruct fuel as [|fuel]; [cbn in Hh; lia|]. cbn [evaluate_numeric_expression mbind outcome_bind fst snd].
    destruct (packet_part_ok r (packet_length p) o k Hraw Ho Hk) as (x & -> & Hx). cbn [mbind outcome_bind]. eapply evaluates_now; [done|]. intros d Ed. split; [by apply Hx|done].
  - destruct (cfg_options s) as [o|]; (eapply evaluates_now; [done|]); intros d Ed; [|done]. split; [by apply (ok_encapsulate _ _ Hc _ _ _ Ed)|done].
  - eapply evaluates_now; [done|]. intros x [= <-]. split; [|by intros ?%Z.leb_le]. apply Forall_forall. intros x Hx. rewrite forallb_forall in Ht0. specialize (Ht0 x). rewrite <- list_elem_of_In in Ht0.
    apply Ht0 in Hx as [?%Z.leb_le ?%Z.ltb_lt]%andb_true_iff. unfold is_byte. lia.
  - destruct (host_lookup_ok depth c s entry hostname Hc Hs) as (r & s' & E & Hsame & Hr). rewrite E. exists r, s'. split; [done|]. split; [done|]. intros d Ed. split; [by apply Hr|done].
  - operand (sound_data n e1 (IH e1 ltac:(lia))). operand (sound_data n e2 (IH e2 ltac:(lia))). eapply evaluates_now; [eauto using same_ok|]. intros d Ed. destruct r as [x|], r0 as [y|]; try done. injection Ed as <-.
    destruct (H0 x eq_refl) as [Hx Hx1], (H2 y eq_refl) as [Hy Hy1]. split; [by apply concat_ok|]. unfold len in *. cbn. rewrite Zlen_app. pose proof (Zlen_nonneg (octets x)). pose proof (Zlen_nonneg (octets y)).
    intros [Hne|Hne]%orb_true_iff; [apply Hx1 in Hne|apply Hy1 in Hne]; lia.
  - operand (sound_num n e (IH e ltac:(lia))). destruct r as [x|]; [|by apply Hend]. destruct (encode_int_ok w x) as (d & -> & Hd & Hl). cbn [mbind outcome_bind]. apply Hend; [done|]. by intros ? [= <-].
  - destruct (const_in_inv _ _ _ Ht1) as (k & -> & Hk). destruct fuel as [|fuel]; [cbn in Hh; lia|].
    eapply evaluates_bind; [eapply (evaluates_now (fun x => x = k)); [done|]; by intros ? [= <-]|]. intros r s1 H1 Hr. cbn [fst snd].
    operand (sound_data n e2 (IH e2 ltac:(lia))). destruct r as [w|], r0 as [d|]; try (eapply evaluates_now; [eauto using same_ok|done]). rewrite (Hr w eq_refl). destruct (reverse_ok k d) as (x & -> & Hx); [by apply H0|lia|].
    cbn [mbind outcome_bind]. eapply evaluates_now; [eauto using same_ok|]. intros y Ey. split; [by apply Hx|done].
  - eapply evaluates_now; [done|]. intros d Ed. destruct (c_lease c) as [l|] eqn:El; [|done]. injection Ed as <-. destruct (ok_lease _ _ Hc l El) as (_ & Hi & _). by split.
  - eapply evaluates_now; [done|]. intros d Ed. destruct (c_lease c) as [l|] eqn:El; [|done]. cbn in Ed. destruct (host l) as [x|] eqn:Ex; [|done]. injection Ed as <-. destruct (ok_lease _ _ Hc l El) as (_ & _ & Hn & _). split; [by apply Hn|done].
  - by eapply evaluates_now.
  - apply Hpure; [done|]. eapply field_ok; [done|by destruct v4|done..].
  - apply Hpure; [done|]. eapply field_ok; [done|by destruct v4|done..].
  - eapply evaluates_now; [done|]. intros d Ed. destruct (gethostname c) as [x|] eqn:Ex; [|done]. injection Ed as <-. split; [by apply (ok_hostname _ _ Hc x Ex)|done].
  - operand (sound_data n e (IH e ltac:(lia))). destruct r as [x|]; [apply Hend; [done|]; intros ? [= <-]; split; [by apply H0|done]|]. destruct cdr as [e2|]; [|by apply Hend].
    assert (evaluates (data_ok (expr_pick_first_value e (Some e2))) s' (evaluate_data_expression fuel c e2 s')) as Hcdr.
    { eapply evaluates_impl; [|apply (sound_data n e2 (IH e2 ltac:(lia))); [lia|done|eauto using same_ok|done]]. by intros x []. }
    by destruct e.
  - operand (sound_num n e1 (IH e1 ltac:(lia))). destruct r as [k|]; [|by apply Hend]. destruct (c_packet c) as [p|] eqn:Ep.
    + case_match; [by apply Hend|]. destruct (relay_at p (in_options s') k) as [[q o] i] eqn:Er.
      destruct (relay_at_ok depth p (in_options s') k q o i) as [Hq Ho]; [by apply (ok_packet _ _ Hc)|by apply (same_ok _ _ _ Hs)|done|]. case_match; [by apply Hend|].
      assert (state_ok depth (with_in_options s' o)) as Hso by (destruct (same_ok _ _ _ Hs H); by constructor).
      destruct (sound_data n e2 (IH e2 ltac:(lia)) fuel (with_packet c q) (with_in_options s' o)) as (d & s2 & -> & (m & -> & Hm) & Hd); [lia|by apply with_packet_ok|done|done|]. cbn [mbind outcome_bind fst snd].
      eexists _, _. split; [done|]. split; [|intros x Ex; split; [by apply Hd|done]]. exists m. split; [|done]. case_match eqn:E0; [|done]. apply Z.eqb_eq in E0 as ->.
      assert (o = in_options s') as -> by (destruct p; cbn in Er; by injection Er). done.
    + case_match; [|by apply Hend]. eapply evaluates_impl; [|apply (sound_data n e2 (IH e2 ltac:(lia))); [lia|done|eauto using same_ok|done]]. by intros x [].
Qed.

Lemma num_step n e fuel c s : (forall e, (height e <= n)%nat -> sound n e) -> (height e <= S n)%nat -> (n + D <= fuel)%nat ->
  context_ok depth c -> state_ok depth s -> well_typed opts TNum e = true -> evaluates number_ok s (evaluate_numeric_expression (S fuel) c e s).
Proof.
  intros IH Hh Hf Hc Hs Ht. assert (forall r s', same s s' -> (forall d, r = Some d -> number_ok d) -> evaluates number_ok s' (Ret (r, s'))) as Hend by (intros; eapply evaluates_now; eauto using same_ok).
  destruct e; cbn [well_typed] in Ht; try done; cbn [evaluate_numeric_expression]; cbn [height] in Hh; conditions Ht.
  - eapply evaluates_now; [done|]. intros d Ed. destruct (variable s name) as [[[| | x |]|]|] eqn:Ex; try done. injection Ed as <-. by apply (variable_ok _ _ _ _ Hs Ex).
  - operand (sound_data n e (IH e ltac:(lia))). destruct r as [d|]; [|by apply Hend]. destruct (H0 d eq_refl) as [Hd Hl]. destruct (extract_int_ok w d Hd) as (x & -> & Hx); [intros ->; by apply Hl|]. cbn [mbind outcome_bind]. by apply Hend.
  - eapply evaluates_now; [done|]. intros x [= <-]. apply Z.leb_le in Ht1. apply Z.ltb_lt in Ht0. done.
  - eapply evaluates_now; [done|]. intros x Ex. repeat case_match; try done. injection Ex as <-. unfold number_ok, u64. apply Z.mod_pos_bound. lia.
  - operand (sound_num n e1 (IH e1 ltac:(lia))). operand (sound_num n e2 (IH e2 ltac:(lia))). eapply evaluates_now; [eauto using same_ok|]. intros x Ex. destruct r as [a|], r0 as [b|]; try done. eapply arith_ok; [| |exact Ex]; [by apply H0|by apply H2].
  - eapply evaluates_now; [done|]. intros x Ex. destruct (c_client c) as [cl|] eqn:Ecl; [|done]. injection Ex as <-. apply (ok_client _ _ Hc cl Ecl).
Qed.

Lemma sound_all n : forall e, (height e <= n)%nat -> sound n e.
Proof.
  induction n as [n IH] using lt_wf_ind. intros e Hh. assert (1 <= height e)%nat by (destruct e; cbn; lia). destruct n as [|n]; [lia|].
  assert (forall e, (height e <= n)%nat -> sound n e) as IH1 by (intros; apply IH; lia). assert (forall e, (S (height e) <= n)%nat -> sound (n - 1) e) as IH2 by (intros; apply IH; lia).
  constructor; intros fuel c s Hf Hc Hs Ht; (destruct fuel as [|fuel]; [lia|]).
  - apply (bool_step n); [done|done|done|lia|done..].
  - apply (data_step n); [done|done|lia|done..].
  - apply (num_step n); [done|done|lia|done..].
Qed.

End Soundness.

(** Options evaluate: their data, or an expression that refers to no option. *)
Lemma options_evaluate_ok depth c s o d fuel : context_ok depth c -> state_ok depth s -> options_ok depth o -> (S (S depth) <= fuel)%nat ->
  evaluates string_ok s (get_option fuel c o d s).
Proof.
  intros Hc Hs Ho Hf. destruct fuel as [|[|fuel]]; [lia|lia|]. cbn [get_option]. destruct (lookup_option o d) as [oc|] eqn:El; [|by eapply evaluates_now]. destruct (Ho d oc El) as [Hd He]. cbn [evaluate_option_cache].
  destruct (data (oc_data oc)) as [x|] eqn:Ed; [eapply evaluates_now; [done|]; by intros ? [= <-]|]. destruct (oc_expression oc) as [e|]; [|by eapply evaluates_now]. destruct He as [Ht Hh].
  eapply evaluates_impl; [|apply (sound_data false depth 0 _ _ (sound_all false depth 0 ltac:(done) depth e Hh)); [lia|done..]]. by intros x [].
Qed.

(** C12: The expressions that pass [well_typed], which is stricter than the tests
    is_boolean_expression, is_numeric_expression and is_data_expression of the program:
    operands have the types that the operators expect, an octet is extracted only from data
    that is not empty by its form, the width of reverse and the bounds of packet are
    constants in range, the packets are of DHCPv4 if filename or server-name occurs, lists
    of domain names, binary-to-ascii, function calls and DNS updates do not occur, and the
    expressions of options do not refer to options (without these conditions the evaluation
    may leave its memory or not end: [extract_from_empty], [reverse_by_zero],
    [packet_reads_past_the_end], [config_option_of_itself] of [Expr]). Such an expression is
    one that the tests of the program take for one of its type, unless it is a variable; it
    has a value of its type, or none: its evaluation ends, with fuel for its own height and
    that of the expressions of the options it refers to, accesses only what exists, and
    leaves variables, options and statements as they are; octets and numbers are in range. A
    variable may have a value of any type. *)
Theorem well_typed_evaluates depth t e c s fuel :
  context_ok depth c -> state_ok depth s -> well_typed true t e = true -> (height e + depth + 3 <= fuel)%nat ->
  ((exists name, e = expr_variable_reference name) \/ accepted t e) /\
  exists r s', evaluate_expression fuel c e s = Ret (r, s') /\ same s s' /\
    forall v, r = Some v -> exists x, v = Some x /\ value_ok x /\ ((exists name, e = expr_variable_reference name) \/ typed t x).
Proof.
  intros Hc Hs Ht Hf. split; [by eapply typed_operator|]. assert (sound true depth (S (S depth)) (height e) e) as He by (apply sound_all; [intros _; apply options_evaluate_ok|done]).
  apply (expression_evaluates true depth (S (S depth)) (height e) e t fuel c s He); [lia|done..].
Qed.

End Types.

(** ** An example *)

(** A DHCPv4 packet with the option 61 of the space 1. *)
Definition client_id : option_def := OptionDef 1 61 false.
Definition options0 : option option_state := Some {[ (1, 61) := OptionCache client_id (DataString (Some [1; 2; 3; 4]) false) None ]}.
Definition context1 : context := with_packet context0 (Packet 1 (Some (replicate 300 0)) 300 options0 None).
Definition state1 : state := State (Some [[([120], Some (binding_numeric 2))]]) options0 (Some ∅) ∅ (OnStar [] [] []) (OnStar [] [] []) [].

(** [substring (option 61, 1, x) = encode-int (515, 16)]. *)
Definition test1 : expression :=
  expr_equal true (expr_substring (expr_option client_id) (expr_const_int 1) (expr_variable_reference [120])) (expr_encode_int int16 (expr_const_int 515)).

Lemma options0_ok : options_ok true 0 options0.
Proof.
  intros d oc. cbn. intros H%lookup_singleton_Some. destruct H as [_ <-]. split; [|done]. unfold string_ok. cbn. repeat constructor; unfold is_byte; lia.
Qed.

Lemma well_typed_evaluates_witness :
  well_typed true true TBool test1 = true /\ exists r s', evaluate_expression 7 context1 test1 state1 = Ret (r, s') /\ same state1 s'.
Proof.
  split; [done|]. assert (context_ok true 0 context1) as Hc.
  { constructor; try done. intros p E. unfold context1, with_packet, c_packet in E. injection E as <-. cbn [packet_ok]. split; [|split; [apply options0_ok|done]].
    cbn [raw_ok]. split; [by apply (is_bytes_replicate 300 0)|by vm_compute]. }
  assert (state_ok true 0 state1) as Hs.
  { constructor; [|apply options0_ok|done|done]. intros fs [= <-] name v. cbn. destruct (same_name name [120]); [|done]. intros E. inversion E. by vm_compute. }
  destruct (well_typed_evaluates true 0 TBool test1 context1 state1 7 Hc Hs eq_refl) as (_ & r & s' & E & H & _); [vm_compute; lia|]. by exists r, s'.
Defined.

End ExprType.
