(* ===== verification/ExprScope.v ===== *)
(** * The options of a scope (common/execute.c, common/options.c)

    The statements of the groups around a client set its options.  For statements
    whose values are constant, what [execute_statements_in_scope] leaves is described
    by the values alone: the groups are taken from the outermost one to the innermost
    one, and each statement replaces, completes or extends the value that it finds. *)

From Stdlib Require Import ZArith Lia.
From stdpp Require Import base list numbers option gmap.
From S2P Require Import Prelude.
From S2P Require Import Expr.
#[local] Open Scope Z_scope.

Module ExprScope.

Import Expr.

(** ** Constant options *)

(** The octets of an expression made of constants. *)
Fixpoint const_value (e : expression) : option (list Z) :=
  match e with
  | expr_const_data d => Some (octets d)
  | expr_concat l r => match const_value l, const_value r with Some x, Some y => Some (x ++ y) | _, _ => None end
  | _ => None
  end.

(** A cache has data or an expression, not both. *)
Definition cache_value (oc : option_cache) : option (list Z) :=
  match data (oc_data oc), oc_expression oc with
  | Some x, None => Some x
  | None, Some e => const_value e
  | _, _ => None
  end.

(** The value of an option in a state. *)
Definition option_value (o : option option_state) (d : option_def) : option (list Z) := lookup_option o d ≫= cache_value.

(** All options of the state have constant values, and none is a list of names. *)
Definition constant (o : option option_state) : Prop :=
  (exists m, o = Some m) /\ forall d oc, lookup_option o d = Some oc -> dc (opt oc) = false /\ is_Some (cache_value oc).

(** What a statement makes of a value. *)
Definition combine (op : option_op) (old : option (list Z)) (v : list Z) : list Z :=
  match op, old with
  | default_option_statement, Some x => x
  | append_option_statement, Some x => x ++ v
  | prepend_option_statement, Some x => v ++ x
  | _, _ => v
  end.

(** The statement of an option with a constant value, as the parser makes it. *)
Definition setting (op : option_op) (d : option_def) (x : data_string) : statement :=
  option_statement op (OptionCache d no_data (Some (expr_const_data x))).

Definition same_option (d e : option_def) : bool := bool_decide ((universe d, code d) = (universe e, code e)).

Lemma lookup_save m d e oc : lookup_option (save_option (Some m) d oc) e = if same_option e d then Some oc else lookup_option (Some m) e.
Proof.
  unfold same_option. cbn. case_bool_decide as E; [rewrite E; by rewrite lookup_insert_eq|by rewrite lookup_insert_ne].
Qed.

Lemma same_option_value o d e : same_option e d = true -> lookup_option o e = lookup_option o d.
Proof. unfold same_option. case_bool_decide as E; [|done]. intros _. destruct o; [|done]. cbn. by rewrite E. Qed.

Lemma saved_constant o d oc : constant o -> dc (opt oc) = false -> is_Some (cache_value oc) ->
  constant (save_option o d oc) /\ forall e, option_value (save_option o d oc) e = if same_option e d then cache_value oc else option_value o e.
Proof.
  intros ([m ->] & H) Hd Hv. split; [split; [by eexists|]|].
  - intros e oc'. rewrite lookup_save. case_match; [by intros [= <-]|apply H].
  - intros e. unfold option_value. rewrite lookup_save. by case_match.
Qed.

(** The data of a cache as an expression: the value is the same, unless it is empty. *)
Lemma as_expression_value oc v : cache_value oc = Some v ->
  opt (as_expression oc) = opt oc /\ cache_value (as_expression oc) = Some v /\
  ((exists e, oc_expression (as_expression oc) = Some e /\ const_value e = Some v) \/ (oc_expression (as_expression oc) = None /\ v = [])).
Proof.
  destruct oc as [d x [e|]]; unfold cache_value; cbn; intros E; [destruct (data x); [done|]; split_and!; [done|done|left; by eexists]|].
  destruct (data x) as [l|] eqn:Ex; [|done]. injection E as ->. unfold len, octets. rewrite Ex. cbn. destruct (Z.eqb_spec (Zlen v) 0) as [E0|E0].
  - cbn. rewrite Ex. split_and!; [done|done|]. right. split; [done|]. destruct v; [done|]. by unfold Zlen in E0.
  - split_and!; [done|cbn; unfold octets; by rewrite Ex|]. left. eexists. split; [done|]. cbn. unfold octets. by rewrite Ex.
Qed.

(** A value is joined to that of the option. *)
Lemma joined_value o d x old (app : bool) : constant o -> dc d = false -> lookup_option o d = Some old ->
  let oc := OptionCache d no_data (Some (expr_const_data x)) in
  let new := if app then make_concat (oc_expression (as_expression old)) (oc_expression oc) else make_concat (oc_expression oc) (oc_expression (as_expression old)) in
  exists e v, new = Some e /\ option_value o d = Some v /\ dc (opt (as_expression old)) = false /\ constant (save_option o d (as_expression old)) /\
    const_value e = Some (if app then v ++ octets x else octets x ++ v) /\ forall e', option_value (save_option o d (as_expression old)) e' = option_value o e'.
Proof.
  intros Ho Hd El oc new. destruct (proj2 Ho d old El) as [Hdc [v Ev]]. destruct (as_expression_value old v Ev) as (Eo & Ev' & He).
  assert (option_value o d = Some v) as Eov by (unfold option_value; rewrite El; exact Ev). destruct (saved_constant o d (as_expression old) Ho) as [Hs1 Hs2]; [by rewrite Eo|by rewrite Ev'|].
  assert (exists e, new = Some e /\ const_value e = Some (if app then v ++ octets x else octets x ++ v)) as (e & Ee & Ece).
  { unfold new. cbn [oc_expression oc]. destruct He as [(e & -> & Ee)|[-> ->]].
    - destruct app; eexists; (split; [done|]); cbn; by rewrite Ee.
    - destruct app; eexists; (split; [done|]); cbn; by rewrite ?app_nil_r. }
  exists e, v. split_and!; [done|done|by rewrite Eo|done|done|]. intros e'. rewrite Hs2. destruct (same_option e' d) eqn:E; [|done]. rewrite Ev'. unfold option_value. rewrite (same_option_value _ _ _ E), El. symmetry. exact Ev.
Qed.

Lemma set_option_value op d x o : constant o -> dc d = false ->
  exists o', set_option op (OptionCache d no_data (Some (expr_const_data x))) o = Ret o' /\ constant o' /\
    forall e, option_value o' e = if same_option e d then Some (combine op (option_value o d) (octets x)) else option_value o e.
Proof.
  intros Ho Hd. set (oc := OptionCache _ _ _). assert (cache_value oc = Some (octets x)) as Hv by done.
  destruct (saved_constant o d oc Ho Hd ltac:(by eexists)) as [Hs1 Hs2]. rewrite Hv in Hs2.
  assert (forall e, same_option e d = true -> option_value o e = option_value o d) as Hsame by (intros e He; unfold option_value; by rewrite (same_option_value _ _ _ He)).
  assert (lookup_option o d = None -> option_value o d = None) as Hnone by (unfold option_value; by intros ->).
  assert (exists o', Ret (save_option o d oc) = Ret o' /\ constant o' /\ (forall e, option_value o' e = if same_option e d then Some (octets x) else option_value o e)) as Hsave by (by eexists).
  unfold set_option. change (opt oc) with d. destruct op; cbn [combine]; try done.
  - destruct (lookup_option o d) as [old|] eqn:El; [|rewrite (Hnone eq_refl); exact Hsave]. exists o. split; [done|]. split; [done|]. intros e. case_match eqn:E; [|done]. rewrite (Hsame e E). destruct Ho as [_ Ho]. destruct (Ho d old El) as [_ [v Ev]].
    unfold option_value. rewrite El. cbn. by rewrite Ev.
  - destruct (lookup_option o d) as [old|] eqn:El; [|rewrite (Hnone eq_refl); exact Hsave]. destruct (joined_value o d x old true Ho Hd El) as (e & v & En & Eov & Edc & Hc & Ece & Hkeep).
    rewrite bool_decide_true by done. cbn [oc] in En |- *. unfold oc. rewrite En. rewrite Hd, Edc, Eov. destruct (saved_constant _ d (OptionCache (opt (as_expression old)) no_data (Some e)) Hc) as [Hj1 Hj2]; [done|cbn; by rewrite Ece|].
    eexists. split; [done|]. split; [done|]. intros e'. rewrite Hj2, Hkeep. case_match; [|done]. unfold cache_value. cbn. by rewrite Ece.
  - destruct (lookup_option o d) as [old|] eqn:El; [|rewrite (Hnone eq_refl); exact Hsave]. destruct (joined_value o d x old false Ho Hd El) as (e & v & En & Eov & Edc & Hc & Ece & Hkeep).
    rewrite bool_decide_false by done. cbn [oc] in En |- *. unfold oc. rewrite En. rewrite Hd, Edc, Eov. destruct (saved_constant _ d (OptionCache (opt (as_expression old)) no_data (Some e)) Hc) as [Hj1 Hj2]; [done|cbn; by rewrite Ece|].
    eexists. split; [done|]. split; [done|]. intros e'. rewrite Hj2, Hkeep. case_match; [|done]. unfold cache_value. cbn. by rewrite Ece.
Qed.

(** ** Execution *)

(** A list of settings, for a statement list and for the groups. *)
Abbreviation settings := (list (option_op * option_def * data_string)).

Definition statement_of (x : option_op * option_def * data_string) : statement := setting x.1.1 x.1.2 x.2.

(** What the settings make of the value of an option. *)
Definition resulting (l : settings) (d : option_def) (old : option (list Z)) : option (list Z) :=
  foldl (fun v x => if same_option d x.1.2 then Some (combine x.1.1 v (octets x.2)) else v) old l.

(** The groups that are not limited, from the outermost one on. *)
Fixpoint effective (gs : list (Z * settings)) (limiting : list Z) : settings :=
  match gs with
  | [] => []
  | (g, l) :: outer => if bool_decide (g ∈ limiting) then [] else effective outer limiting ++ l
  end.

(** Only the options of the configuration have changed. *)
Definition only_options (s s' : state) : Prop := exists o, s' = with_cfg_options s o /\ constant o.

Definition plain (l : settings) : Prop := Forall (fun x => dc x.1.2 = false) l.

Lemma resulting_app l1 l2 d v : resulting (l1 ++ l2) d v = resulting l2 d (resulting l1 d v).
Proof. apply foldl_app. Qed.

Lemma with_cfg_twice s o o' : with_cfg_options (with_cfg_options s o) o' = with_cfg_options s o'.
Proof. done. Qed.

Lemma execute_settings c result st l : plain l -> forall fuel s, (length l + 2 <= fuel)%nat -> constant (cfg_options s) ->
  exists o, execute_statements fuel c result (map statement_of l) st s = Ret (true, None, with_cfg_options s o) /\ constant o /\ forall d, option_value o d = resulting l d (option_value (cfg_options s) d).
Proof.
  induction 1 as [|[[op d] x] l Hd _ IH]; intros fuel s Hf Hc; (destruct fuel as [|fuel]; [cbn in Hf; lia|]).
  - exists (cfg_options s). split; [by destruct s|done].
  - cbn in Hd, Hf. destruct fuel as [|fuel]; [lia|]. destruct (set_option_value op d x (cfg_options s) Hc Hd) as (o & Eo & Ho & Hv).
    destruct (IH (S fuel) (with_cfg_options s o)) as (o' & E & Ho' & Hv'); [lia|done|]. exists o'.
    assert (execute_statements (S (S fuel)) c result (map statement_of ((op, d, x) :: l)) st s = execute_statements (S fuel) c result (map statement_of l) st (with_cfg_options s o)) as ->.
    { cbn [map]. change (statement_of (op, d, x)) with (setting op d x). cbn [execute_statements]. cbn [execute_one setting]. rewrite Eo. cbn [mbind outcome_bind]. done. }
    rewrite E. split; [by rewrite with_cfg_twice|]. split; [done|]. intros e. rewrite Hv'. unfold resulting. cbn [foldl fst snd]. f_equal. cbn [cfg_options with_cfg_options]. rewrite Hv.
    destruct (same_option e d) eqn:Es; [|done]. unfold option_value at 2. by rewrite (same_option_value _ _ _ Es).
Qed.

(** The statements of the groups, whatever the limiting groups are. *)
Definition groups_of (gs : list (Z * settings)) : list (Z * list statement) := map (fun g => (g.1, map statement_of g.2)) gs.

Lemma execute_groups fuel c result st limiting gs : Forall (fun g => plain g.2 /\ (length g.2 + 2 <= fuel)%nat) gs -> forall s, constant (cfg_options s) ->
  exists o, execute_statements_in_scope fuel c result (groups_of gs) limiting st s = Ret (None, with_cfg_options s o) /\ constant o /\
    forall d, option_value o d = resulting (effective gs limiting) d (option_value (cfg_options s) d).
Proof.
  induction 1 as [|[g l] gs [Hp Hl] _ IH]; intros s Hc; [exists (cfg_options s); split; [by destruct s|done]|]. cbn [groups_of map fst snd execute_statements_in_scope effective].
  case_bool_decide; [exists (cfg_options s); split; [by destruct s|done]|]. destruct (IH s Hc) as (o & E & Ho & Hv). fold (groups_of gs). rewrite E. cbn [mbind outcome_bind].
  destruct (execute_settings c result st l Hp fuel (with_cfg_options s o) Hl Ho) as (o' & -> & Ho' & Hv'). cbn [mbind outcome_bind]. exists o'. split; [by rewrite with_cfg_twice|]. split; [done|].
  intros d. rewrite Hv', resulting_app. f_equal. apply Hv.
Qed.

(** The fuel for the value of a constant expression. *)
Lemma const_evaluates e : forall v, const_value e = Some v -> exists n, forall fuel c s, (n <= fuel)%nat ->
  exists d, evaluate_data_expression fuel c e s = Ret (Some d, s) /\ octets d = v.
Proof.
  induction e; intros v E; try done.
  - exists 1%nat. intros [|fuel] c s Hf; [lia|]. injection E as <-. by eexists.
  - cbn in E. destruct (const_value e1) as [x|]; [|done]. destruct (const_value e2) as [y|]; [|done]. injection E as <-. destruct (IHe1 x eq_refl) as (n1 & H1), (IHe2 y eq_refl) as (n2 & H2).
    exists (S (n1 `max` n2)). intros [|fuel] c s Hf; [lia|]. destruct (H1 fuel c s) as (d1 & E1 & <-); [lia|]. destruct (H2 fuel c s) as (d2 & E2 & <-); [lia|]. cbn [evaluate_data_expression]. rewrite E1. cbn [mbind outcome_bind fst snd].
    rewrite E2. by eexists.
Qed.

Lemma option_evaluates o d v : option_value o d = Some v -> exists n, forall fuel c s, (n <= fuel)%nat -> exists x, get_option fuel c o d s = Ret (Some x, s) /\ octets x = v.
Proof.
  unfold option_value. intros E. destruct (lookup_option o d) as [oc|] eqn:El; [|done]. cbn in E. unfold cache_value in E.
  destruct (data (oc_data oc)) as [x|] eqn:Ed, (oc_expression oc) as [e|] eqn:Ee; try done.
  - injection E as ->. exists 2%nat. intros [|[|fuel]] c s Hf; [lia|lia|]. cbn [get_option evaluate_option_cache]. rewrite El, Ed. eexists. split; [done|]. unfold octets. by rewrite Ed.
  - destruct (const_evaluates e v E) as (n & Hn). exists (S (S n)). intros [|[|fuel]] c s Hf; [lia|lia|]. cbn [get_option evaluate_option_cache]. rewrite El, Ed, Ee. apply Hn. lia.
Qed.

(** C11: The options of a scope: after the statements of the groups have been executed, each
    option that they give a constant value evaluates to what the settings make of the value
    it had before, taken from the outermost group to the innermost one, without the limiting
    groups and those around them; an option without a setting is what it was. Nothing else
    changes.  Compressed domain lists are left out, and so are options whose value is not a
    constant. *)
Theorem options_in_scope fuel c result gs limiting st s d :
  Forall (fun g => plain g.2 /\ (length g.2 + 2 <= fuel)%nat) gs -> constant (cfg_options s) ->
  exists s', execute_statements_in_scope fuel c result (groups_of gs) limiting st s = Ret (None, s') /\ only_options s s' /\
    match resulting (effective gs limiting) d (option_value (cfg_options s) d) with
    | Some v => exists n, forall fuel', (n <= fuel')%nat -> exists x, get_option fuel' c (cfg_options s') d s' = Ret (Some x, s') /\ octets x = v
    | None => forall fuel', (1 <= fuel')%nat -> get_option fuel' c (cfg_options s') d s' = Ret (None, s')
    end.
Proof.
  intros Hg Hc. destruct (execute_groups fuel c result st limiting gs Hg s Hc) as (o & E & Ho & Hv). exists (with_cfg_options s o). split; [done|]. split; [by exists o|]. rewrite <- Hv. cbn [cfg_options with_cfg_options].
  destruct (option_value o d) as [v|] eqn:Ev.
  - destruct (option_evaluates o d v Ev) as (n & Hn). exists n. intros fuel' Hf. by apply Hn.
  - intros [|fuel'] Hf; [lia|]. cbn [get_option]. unfold option_value in Ev. destruct (lookup_option o d) as [oc|] eqn:El; [|done]. destruct (proj2 Ho d oc El) as [_ [v Hx]]. cbn in Ev. congruence.
Qed.

(** ** An example *)

(** A global group sets an option and appends to it, and a subnet prepends another
    value. *)
Definition dns_servers : option_def := OptionDef 1 6 false.
Definition global : Z * settings := (1, [(supersede_option_statement, dns_servers, text [10; 0; 0; 1]); (append_option_statement, dns_servers, text [10; 0; 0; 2])]).
Definition subnet : Z * settings := (2, [(prepend_option_statement, dns_servers, text [10; 0; 0; 3])]).

Lemma options_in_scope_witness :
  exists s', execute_statements_in_scope 9 context0 false (groups_of [subnet; global]) [] NoStar state0 = Ret (None, s') /\
    exists n, forall fuel, (n <= fuel)%nat -> exists x, get_option fuel context0 (cfg_options s') dns_servers s' = Ret (Some x, s') /\ octets x = [10; 0; 0; 3; 10; 0; 0; 1; 10; 0; 0; 2].
Proof.
  assert (Forall (fun g => plain g.2 /\ (length g.2 + 2 <= 9)%nat) [subnet; global]) as Hg by (repeat constructor; cbn; lia).
  assert (constant (cfg_options state0)) as Hc by (split; [by eexists|]; intros d oc; cbn; by rewrite lookup_empty).
  destruct (options_in_scope 9 context0 false [subnet; global] [] NoStar state0 dns_servers Hg Hc) as (s' & E & _ & H). by exists s'.
Defined.

End ExprScope.
