(* ===== verification/OptionReply.v ===== *)
(** * The options of a reply, from the server to the client (common/options.c)

    [cons_options] decides how much room the options of a reply have and in
    which order they are tried, stores them, and fills the fields of the packet.
    The last theorems join it with the parser of the receiver. *)

From Stdlib Require Import ZArith Lia Ascii String.
From stdpp Require Import base list numbers option gmap fin_maps.
From S2P Require Import Prelude.
From S2P Require Import Options.
From S2P Require Import OptionStore.
#[local] Open Scope Z_scope.

Module OptionReply.

Export OptionStore.

Definition DHCP_SNAME_LEN : Z := 64.
Definition DHCP_FILE_LEN : Z := 128.
Definition DHCP_FIXED_NON_UDP : Z := 236.
Definition DHCP_FIXED_LEN : Z := DHCP_FIXED_NON_UDP + 28.
Definition DHCP_MTU_MAX : Z := 1500.
Definition DHCP_MTU_MIN : Z := 576.
Definition DHCP_MAX_OPTION_LEN : Z := DHCP_MTU_MAX - DHCP_FIXED_LEN.
Definition DHCP_MIN_OPTION_LEN : Z := DHCP_MTU_MIN - DHCP_FIXED_LEN.
Definition PRIORITY_COUNT : Z := 300.

Definition DHO_DOMAIN_NAME_SERVERS : Z := 6.
Definition DHO_HOST_NAME : Z := 12.
Definition DHO_VENDOR_ENCAPSULATED_OPTIONS : Z := 43.
Definition DHO_DHCP_REQUESTED_ADDRESS : Z := 50.
Definition DHO_DHCP_LEASE_TIME : Z := 51.
Definition DHO_DHCP_SERVER_IDENTIFIER : Z := 54.
Definition DHO_DHCP_MESSAGE : Z := 56.
Definition DHO_DHCP_RENEWAL_TIME : Z := 58.
Definition DHO_DHCP_REBINDING_TIME : Z := 59.
Definition DHO_DHCP_CLIENT_IDENTIFIER : Z := 61.
Definition DHO_FQDN : Z := 81.
Definition DHO_DHCP_AGENT_OPTIONS : Z := 82.
Definition DHO_ASSOCIATED_IP : Z := 92.
Definition DHO_SUBNET_SELECTION : Z := 118.
Definition DHCPDISCOVER : Z := 1.
Definition DHCPREQUEST : Z := 3.

(** What is read of the packet that is answered: the value of its maximum message
    size option, its length and type, whether the client identifier is to be
    echoed, and whether it had an FQDN option. *)
Record request : Type := Request {
  max_message_size : option (list Z);
  packet_length : Z;
  packet_type : Z;
  sv_echo_client_id : bool;
  has_fqdn : bool
}.

(** ** Sizes *)

Definition message_size (inpacket : option request) (mms : Z) : outcome Z :=
  match inpacket with
  | Some r =>
    match max_message_size r with
    | Some ds =>
      if 2 <=? Zlen ds then i ← getUShort ds; Ret (if (mms =? 0) || (i <? mms) then i else mms) else Ret mms
    | None => Ret mms
    end
  | None => Ret mms
  end.

Definition main_size (inpacket : option request) (mms : Z) (bootpp : bool) : Z :=
  if negb (mms =? 0) then
    if mms <? DHCP_MTU_MIN then DHCP_MIN_OPTION_LEN
    else if DHCP_MTU_MAX <? mms then DHCP_MAX_OPTION_LEN
    else mms - DHCP_FIXED_LEN
  else if bootpp then
    match inpacket with
    | Some r => if 64 + DHCP_FIXED_NON_UDP <=? packet_length r then packet_length r - DHCP_FIXED_NON_UDP else 64
    | None => 64
    end
  else DHCP_MIN_OPTION_LEN.

(** ** The priority list *)

(** A code is added while there is room. *)
Definition add_code (l : list Z) (code : Z) : list Z := if Zlen l <? PRIORITY_COUNT then l ++ [code] else l.

Definition mandatory : list Z :=
  [DHO_DHCP_MESSAGE_TYPE; DHO_DHCP_SERVER_IDENTIFIER; DHO_DHCP_LEASE_TIME; DHO_DHCP_RENEWAL_TIME;
   DHO_DHCP_REBINDING_TIME; DHO_DHCP_MESSAGE; DHO_DHCP_REQUESTED_ADDRESS; DHO_ASSOCIATED_IP].

Section Cons.
Context (evaluate : option_cache -> option (list Z)) (encapsulate : list Z -> option (list Z)) (join_ok : Z -> bool).
(** [enclosing]: the codes of the DHCP options that enclose an option space. *)
Context (cfg : config) (enclosing : list Z) (vuname : option string).

(** The codes of a hash table, in the order of its buckets. *)
Definition space_codes (u : universe) : list Z :=
  match spaces (cfg_options cfg) !! u_index u with
  | Some t => omap head_code (concat t)
  | None => []
  end.

(** The list for a client that says what it wants. *)
Definition requested_list (inpacket : option request) (prl : list Z) : outcome (list Z) :=
  op ← lookup_option (dhcp_universe cfg) (cfg_options cfg) DHO_SUBNET_SELECTION;
  let l := match op with Some _ => add_code mandatory DHO_SUBNET_SELECTION | None => mandatory end in
  let l := match inpacket with
           | Some r => if sv_echo_client_id r then add_code l DHO_DHCP_CLIENT_IDENTIFIER else l
           | None => l
           end in
  let prl := take (Z.to_nat (PRIORITY_COUNT - Zlen l)) prl in
  let l := l ++ filter (fun c => c <> DHO_DHCP_AGENT_OPTIONS) prl in
  let l := match inpacket with Some r => if has_fqdn r then add_code l DHO_FQDN else l | None => l end in
  Ret match inpacket with
      | Some r => if (packet_type r =? DHCPDISCOVER) || (packet_type r =? DHCPREQUEST) then add_code l DHO_SUBNET_MASK else l
      | None => l
      end.

(** The list of everything there is. *)
Definition default_list : list Z :=
  let l := mandatory ++ [DHO_SUBNET_MASK; DHO_ROUTERS; DHO_DOMAIN_NAME_SERVERS; DHO_HOST_NAME; DHO_FQDN] in
  let l := if site_code_min cfg =? 0 then l
           else fold_left add_code
                  (filter (fun c => c < site_code_min cfg /\ c <> DHO_DHCP_AGENT_OPTIONS) (space_codes (dhcp_universe cfg))) l in
  let l := fold_left add_code
             (filter (fun c => site_code_min cfg <= c /\ c <> DHO_DHCP_AGENT_OPTIONS) (space_codes (site_universe cfg))) l in
  let l := fold_left add_code (filter (fun c => c <> DHO_DHCP_AGENT_OPTIONS) enclosing) l in
  add_code l DHO_VENDOR_ENCAPSULATED_OPTIONS.

Definition priority_list (inpacket : option request) (prl : list Z) : outcome (list Z) :=
  match prl with [] => Ret default_list | _ => requested_list inpacket prl end.

(** ** The packet *)

Definition cons_options (inpacket : option request) (outpacket : raw_packet) (client_state : bool) (mms overload_avail : Z)
    (terminate bootpp : bool) (prl buffer agentopts : list Z) : outcome (option (raw_packet * Z)) :=
  mms ← message_size inpacket mms;
  let mb_size := main_size inpacket mms bootpp in
  r ← (if client_state then Ret (agentopts, 0, mb_size)
       else
         a ← store_options evaluate encapsulate join_ok cfg None agentopts 0 (Zlen agentopts) 0 0 [DHO_DHCP_AGENT_OPTIONS] false;
         let '(agentopts, agent_size, _) := a in
         Ret (agentopts, agent_size,
              if DHCP_MAX_OPTION_LEN <? mb_size + agent_size then DHCP_MAX_OPTION_LEN else mb_size + agent_size));
  let '(agentopts, agent_size, mb_size) := r in
  let mb_max := if agent_size <? mb_size then mb_size - agent_size else mb_size in
  let of1 := if Z.testbit overload_avail 0 then mb_max else 0 in
  let mb_max := if Z.testbit overload_avail 0 then mb_max + DHCP_FILE_LEN else mb_max in
  let of2 := if Z.testbit overload_avail 1 then mb_max else 0 in
  let mb_max := if Z.testbit overload_avail 1 then mb_max + DHCP_SNAME_LEN else mb_max in
  prio ← priority_list inpacket prl;
  buffer ← memcpy buffer 0 DHCP_OPTIONS_COOKIE;
  s ← store_options evaluate encapsulate join_ok cfg vuname buffer 4 mb_max of1 of2 prio terminate;
  let '(buffer, option_size, overload_used) := s in
  if option_size =? 0 then Ret None
  else
    let index := 4 + option_size in
    r ← (if overload_used =? 0 then Ret (Some (buffer, index, outpacket))
         else if u32 (mb_size - agent_size - index) <? 3 then Ret None
         else
           buffer ← wr buffer index DHO_DHCP_OPTION_OVERLOAD;
           buffer ← wr buffer (index + 1) 1;
           buffer ← wr buffer (index + 2) overload_used;
           file ← (if Z.testbit overload_used 0 then memread buffer of1 DHCP_FILE_LEN else Ret (raw_file outpacket));
           sname ← (if Z.testbit overload_used 1 then memread buffer of2 DHCP_SNAME_LEN else Ret (raw_sname outpacket));
           Ret (Some (buffer, index + 3, Raw file sname (raw_options outpacket))));
    match r with
    | None => Ret None
    | Some (buffer, index, outpacket) =>
      r ← (if agent_size =? 0 then Ret (buffer, index)
           else if agent_size <=? u32 (mb_size - index) then
             a ← memread agentopts 0 agent_size;
             buffer ← memcpy buffer index a;
             Ret (buffer, index + agent_size)
           else Ret (buffer, index));
      let '(buffer, index) := r in
      r ← (if index <? mb_size then buffer ← wr buffer index DHO_END; Ret (buffer, index + 1) else Ret (buffer, index));
      let '(buffer, index) := r in
      options ← memread buffer 0 index;
      Ret (Some (Raw (raw_file outpacket) (raw_sname outpacket) options, DHCP_FIXED_NON_UDP + index))
    end.

End Cons.

(** ** The receiver *)

(** The DHCP space: tags and lengths of one octet, values in several pieces. *)
Record dhcp_space (u : universe) : Prop := Dhcp_space {
  ds_tag : tag_size u = 1;
  ds_length : length_size u = 1;
  ds_be : big_endian u;
  ds_end : u_end u = DHO_END;
  ds_concat : concat_duplicates u = true
}.

(** A piece with a code that is neither the pad nor the end. *)
Definition option_ok (o : Z * list Z) : Prop := is_byte (fst o) /\ fst o <> DHO_PAD /\ fst o <> DHO_END /\ piece_ok (snd o).

Lemma option_sendable u o : dhcp_space u -> option_ok o -> sendable u o.
Proof.
  intros [Et El _ Ee _] (Hb & Hp & He & Hby & Hl). unfold sendable, is_byte in *. rewrite Et, El, Ee.
  split_and!; try done; lia.
Qed.

Lemma enc_tlvs u opts : dhcp_space u -> Forall option_ok opts -> tlvs u opts = enc opts.
Proof.
  intros [Et El _ _ _] H. unfold tlvs, enc. f_equal. induction H as [|o opts (Hb & _ & _ & _ & Hl) _ IH]; cbn [map]; [done|].
  rewrite IH. f_equal. unfold tlv. rewrite Et, El. change (Z.to_nat 1) with 1%nat. cbn [be_enc app]. unfold is_byte in Hb.
  change (256 ^ Z.of_nat 0) with 1. rewrite !Z.div_1_r, !Z.mod_small by lia. done.
Qed.

(** The value of an option, if it was received. *)
Definition delivered (u : universe) (st : option_state) (code : Z) : option (list Z) :=
  oc_data <$> head (view u st code).

Section Received.
Context (find_enumeration : string -> option Z) (u : universe) (Hd : dhcp_space u).

Lemma received_more opts : forall oc code,
  exists oc', received find_enumeration u [oc] opts code = [oc'] /\ oc_data oc' = oc_data oc ++ content code opts.
Proof.
  induction opts as [|[k d] opts IH]; intros oc code; cbn [received fold_left].
  { exists oc. split; [done|]. unfold content. cbn. by rewrite app_nil_r. }
  unfold content. rewrite filter_cons. cbn [fst]. destruct (Z.eqb_spec k code) as [->|Hne].
  - rewrite decide_True by done. cbn [map concat snd]. unfold extend at 2. rewrite (ds_concat u Hd).
    destruct (IH (Cache (oc_code oc) (oc_format oc) (oc_data oc ++ d) (had_nulls oc)) code) as (oc' & E & E').
    exists oc'. split; [exact E|]. rewrite E'. cbn. by rewrite <- app_assoc.
  - rewrite decide_False by done. apply IH.
Qed.

(** The pieces of an option are joined: its value is what they add up to, if no
    NUL is dropped from the first. *)
Lemma received_content opts code :
  (forall d, (code, d) ∈ opts -> d <> [] /\ oc_data (fresh find_enumeration u code d) = d) ->
  oc_data <$> head (received find_enumeration u [] opts code) =
    if bool_decide (content code opts = []) then None else Some (content code opts).
Proof.
  induction opts as [|[k d] opts IH]; intros H; cbn [received fold_left]; [done|].
  unfold content. rewrite filter_cons. cbn [fst]. destruct (Z.eqb_spec k code) as [->|Hne].
  - rewrite decide_True by done. cbn [map concat snd]. unfold extend at 2.
    destruct (H d) as [Hn Hf]; [left|].
    destruct (received_more opts (fresh find_enumeration u code d) code) as (oc' & E & E').
    unfold received in E. rewrite E. cbn. rewrite E', Hf, bool_decide_false; [done|]. by destruct d.
  - rewrite decide_False by done. apply IH. intros d' Hd'. apply H. by right.
Qed.

Lemma received_app c o1 o2 code :
  received find_enumeration u c (o1 ++ o2) code = received find_enumeration u (received find_enumeration u c o1 code) o2 code.
Proof. unfold received. apply fold_left_app. Qed.

End Received.

(** ** The packet *)

Lemma main_size_ge inpacket mms bootpp : 64 <= main_size inpacket mms bootpp.
Proof.
  unfold main_size, DHCP_MTU_MIN, DHCP_MTU_MAX, DHCP_MIN_OPTION_LEN, DHCP_MAX_OPTION_LEN, DHCP_FIXED_LEN, DHCP_FIXED_NON_UDP, DHCP_MTU_MAX, DHCP_MTU_MIN.
  destruct (negb (mms =? 0)); [destruct (Z.ltb_spec mms 576); [lia|]; destruct (Z.ltb_spec 1500 mms); lia|].
  destruct bootpp; [|lia]. destruct inpacket as [r|]; [|lia]. destruct (Z.leb_spec (64 + 236) (packet_length r)); lia.
Qed.

Lemma main_size_le inpacket mms : main_size inpacket mms false <= DHCP_MAX_OPTION_LEN.
Proof.
  unfold main_size, DHCP_MAX_OPTION_LEN, DHCP_MIN_OPTION_LEN, DHCP_FIXED_LEN, DHCP_FIXED_NON_UDP, DHCP_MTU_MAX, DHCP_MTU_MIN.
  destruct (negb (mms =? 0)); [|lia]. destruct (Z.ltb_spec mms 576); [lia|]. destruct (Z.ltb_spec 1500 mms); lia.
Qed.

Lemma slice_prefix_grow b at_ x :
  0 <= at_ -> at_ + Zlen x <= Zlen b -> slice (splice b at_ x) 0 (at_ + Zlen x) = slice b 0 at_ ++ x.
Proof. intros. pose proof (slice_splice_grow b at_ x 0). rewrite Z.sub_0_r in *. auto with lia. Qed.

Lemma memread_slice (b : list Z) lo n : 0 <= lo -> 0 <= n -> lo + n <= Zlen b -> memread b lo n = Ret (slice b lo n).
Proof. intros. by rewrite memread_in. Qed.

Lemma slice_split b lo n m : 0 <= lo -> 0 <= n -> 0 <= m -> slice b lo (n + m) = slice b lo n ++ slice b (lo + n) m.
Proof.
  intros. unfold slice. rewrite !Z2Nat.inj_add by lia. rewrite <- (take_drop (Z.to_nat n) (drop (Z.to_nat lo) b)) at 1.
  rewrite <- drop_drop.
  destruct (decide (Z.to_nat n <= length (drop (Z.to_nat lo) b))%nat) as [Hl|Hl].
  - rewrite take_app_ge by (rewrite length_take; lia). f_equal. f_equal. rewrite length_take. lia.
  - rewrite (drop_ge (drop _ b)) by lia. rewrite app_nil_r, take_nil, app_nil_r, take_take. f_equal. lia.
Qed.

(** The overload option, with the octet that says which fields are used. *)
Lemma write_overload b index v :
  0 <= index -> index + 3 <= Zlen b ->
  (b ← wr b index DHO_DHCP_OPTION_OVERLOAD; b ← wr b (index + 1) 1; wr b (index + 2) v)
  = Ret (splice b index [DHO_DHCP_OPTION_OVERLOAD; 1; v]).
Proof.
  intros H1 H2. rewrite <- (write_piece b index DHO_DHCP_OPTION_OVERLOAD 1 [v]) by (done || (change (Zlen [v]) with 1; lia)).
  destruct (wr b index _) as [b1| |]; [|done..]. cbn [mbind outcome_bind].
  destruct (wr b1 (index + 1) 1) as [b2| |]; [|done..]. cbn [mbind outcome_bind]. apply wr_memcpy.
Qed.

Section Packet.
Context (evaluate : option_cache -> option (list Z)) (encapsulate : list Z -> option (list Z)) (join_ok : Z -> bool).
Context (cfg : config) (enclosing : list Z) (vuname : option string) (terminate : bool).

(** What a reply consists of: [c] in the three fields, [a] for the relay agent. *)
Record reply_ok (p : raw_packet) (out : raw_packet) (oc : Z) (c : section -> list (Z * list Z)) (a : list (Z * list Z)) : Prop := Reply_ok {
  ro_options : exists tail, (tail = [] \/ tail = [DHO_END]) /\
    raw_options p = DHCP_OPTIONS_COOKIE ++ enc (c Main ++ (if oc =? 0 then [] else [(DHO_DHCP_OPTION_OVERLOAD, [oc])]) ++ a) ++ tail;
  ro_used : oc = (if bool_decide (c Second = []) then 0 else 1) + (if bool_decide (c Third = []) then 0 else 2);
  ro_file : if bool_decide (c Second = []) then raw_file p = raw_file out else ends (c Second) (raw_file p) /\ Zlen (raw_file p) = DHCP_FILE_LEN;
  ro_sname : if bool_decide (c Third = []) then raw_sname p = raw_sname out else ends (c Third) (raw_sname p) /\ Zlen (raw_sname p) = DHCP_SNAME_LEN;
  ro_size : Zlen (raw_options p) <= DHCP_MAX_OPTION_LEN
}.

(** The end of [cons_options]: the agent's options and the end option. *)
Lemma finish_packet b agentopts mb_size agent_size index (out : raw_packet) main a :
  slice b 0 index = main -> slice agentopts 0 agent_size = enc a -> Zlen (enc a) = agent_size ->
  0 <= index -> index + agent_size <= mb_size -> mb_size <= Zlen b -> mb_size <= DHCP_MAX_OPTION_LEN ->
  agent_size <= Zlen agentopts ->
  exists p tail, (r ← (if agent_size =? 0 then Ret (b, index)
               else if agent_size <=? u32 (mb_size - index) then
                 a ← memread agentopts 0 agent_size; b ← memcpy b index a; Ret (b, index + agent_size)
               else Ret (b, index));
          let '(b, index) := r in
          r ← (if index <? mb_size then b ← wr b index DHO_END; Ret (b, index + 1) else Ret (b, index));
          let '(b, index) := r in
          options ← memread b 0 index;
          Ret (Some (Raw (raw_file out) (raw_sname out) options, DHCP_FIXED_NON_UDP + index))) = Ret (Some p) /\
    (tail = [] \/ tail = [DHO_END]) /\ raw_options p.1 = main ++ enc a ++ tail /\ raw_file p.1 = raw_file out /\ raw_sname p.1 = raw_sname out /\
    Zlen (raw_options p.1) <= DHCP_MAX_OPTION_LEN /\ p.2 = DHCP_FIXED_NON_UDP + Zlen (raw_options p.1).
Proof.
  intros Em Ea El Hi Hroom Hz Hmax Hag. pose proof (Zlen_nonneg (enc a)) as Hnn.
  assert (exists b1, (if agent_size =? 0 then Ret (b, index)
               else if agent_size <=? u32 (mb_size - index) then
                 a ← memread agentopts 0 agent_size; b ← memcpy b index a; Ret (b, index + agent_size)
               else Ret (b, index)) = Ret (b1, index + agent_size) /\ slice b1 0 (index + agent_size) = main ++ enc a /\ Zlen b1 = Zlen b)
    as (b1 & -> & Es & El1).
  { destruct (Z.eqb_spec agent_size 0) as [E0|E0].
    - exists b. rewrite E0, Z.add_0_r. rewrite E0 in El. apply enc_nil in El as ->. cbn. by rewrite app_nil_r.
    - unfold DHCP_MAX_OPTION_LEN, DHCP_MTU_MAX, DHCP_FIXED_LEN, DHCP_FIXED_NON_UDP in Hmax. rewrite u32_small by lia.
      rewrite (proj2 (Z.leb_le agent_size (mb_size - index))) by lia.
      rewrite memread_slice by lia. cbn [mbind outcome_bind]. rewrite Ea, memcpy_splice by lia. cbn [mbind outcome_bind].
      eexists. split; [reflexivity|]. rewrite <- El. split; [|apply length_splice; lia]. rewrite slice_prefix_grow by lia. by rewrite Em. }
  cbn [mbind outcome_bind].
  assert (forall (bx : list Z) idx x, slice bx 0 idx = x -> 0 <= idx -> idx <= Zlen bx -> Zlen x = idx) as Hlen.
  { intros bx idx x <- ? ?. unfold slice, Zlen in *. rewrite length_take, length_drop. lia. }
  destruct (Z.ltb_spec (index + agent_size) mb_size) as [Hl|Hl].
  - rewrite wr_splice by lia. cbn [mbind outcome_bind]. rewrite memread_slice by (rewrite ?length_splice; change (Zlen [_]) with 1; lia).
    cbn [mbind outcome_bind]. eexists _, [DHO_END]. split; [reflexivity|]. cbn [fst snd raw_options raw_file raw_sname].
    assert (slice (splice b1 (index + agent_size) [DHO_END]) 0 (index + agent_size + 1) = main ++ enc a ++ [DHO_END]) as ->.
    { replace (index + agent_size + 1) with (index + agent_size + Zlen [DHO_END]) by done. rewrite slice_prefix_grow by (change (Zlen [DHO_END]) with 1; lia). by rewrite Es, <- app_assoc. }
    pose proof (Hlen b1 _ _ Es ltac:(lia) ltac:(lia)) as Elen.
    assert (Zlen (main ++ enc a ++ [DHO_END]) = index + agent_size + 1) as -> by (rewrite app_assoc, Zlen_app, Elen; done).
    split_and!; try done; [by right|lia].
  - cbn [mbind outcome_bind]. rewrite memread_slice by lia. cbn [mbind outcome_bind]. eexists _, []. split; [reflexivity|].
    cbn [fst snd raw_options raw_file raw_sname]. rewrite Es, app_nil_r. pose proof (Hlen b1 _ _ Es ltac:(lia) ltac:(lia)) as Elen. rewrite Elen.
    split_and!; try done; [by left|lia].
Qed.

Abbreviation stored_in := (replied evaluate encapsulate join_ok cfg).

(** The sections of a buffer for one field only. *)
Definition single (a : list (Z * list Z)) (sec : section) : list (Z * list Z) := match sec with Main => a | _ => [] end.

(** The options of the relay agent, in a buffer of their own. *)
Lemma agent_options_ok agentopts :
  Zlen agentopts = 1024 -> values_ok evaluate encapsulate join_ok cfg None [DHO_DHCP_AGENT_OPTIONS] ->
  exists b n oc a,
    store_options evaluate encapsulate join_ok cfg None agentopts 0 (Zlen agentopts) 0 0 [DHO_DHCP_AGENT_OPTIONS] false = Ret (b, n, oc) /\
    Zlen b = 1024 /\ slice b 0 n = enc a /\ Zlen (enc a) = n /\ n <= 1024 /\
    stored_in None false (single a) [DHO_DHCP_AGENT_OPTIONS] /\
    (short_values evaluate encapsulate join_ok cfg None false [DHO_DHCP_AGENT_OPTIONS] ->
     complete evaluate encapsulate join_ok cfg None false (single a) [DHO_DHCP_AGENT_OPTIONS] /\
     n <= footprint evaluate encapsulate join_ok cfg None false DHO_DHCP_AGENT_OPTIONS).
Proof.
  intros Hl Hv. destruct (store_options_ok evaluate encapsulate join_ok cfg None false agentopts 0 1024 0 0 1024 [DHO_DHCP_AGENT_OPTIONS])
    as (b & n & oc & c & E & El & _ & [Fm Fl Fr _ F2 F3] & [Hr1 Hr2] & Hcm); [|lia|done|].
  { constructor; cbn; lia || by left. }
  exists b, n, oc, (c Main). rewrite Hl. split; [done|]. split; [lia|].
  assert (c Second = []) as E2 by (destruct (c Second); [done|]; by destruct F2).
  assert (c Third = []) as E3 by (destruct (c Third); [done|]; by destruct F3).
  assert (all_options (single (c Main)) = all_options c) as Eo by (unfold all_options; cbn; by rewrite E2, E3).
  split_and!; try done; [lia|..].
  - constructor; [intros o; rewrite Eo; apply Hr1|intros code; rewrite Eo; apply Hr2].
  - intros Hs. change (remove_dups [DHO_DHCP_AGENT_OPTIONS]) with [DHO_DHCP_AGENT_OPTIONS] in Hcm. cbn [footprints foldr] in Hcm.
    destruct Hcm as (Hcm & _ & Hle); [done| |].
    { unfold footprint. destruct (reply_value _ _ _ _ _ _ _) as [v|] eqn:Ev; [|lia]. specialize (Hs _ v ltac:(left) Ev). lia. }
    split; [|lia]. intros code v Hin Hval. rewrite Eo. by apply Hcm.
Qed.

(** The room that is left when the agent's options are counted. *)
Lemma agent_part inpacket m bootpp (client_state : bool) agentopts :
  Zlen agentopts = 1024 -> (client_state = true -> bootpp = false) ->
  values_ok evaluate encapsulate join_ok cfg None [DHO_DHCP_AGENT_OPTIONS] ->
  exists ag n mb a,
    (if client_state then Ret (agentopts, 0, main_size inpacket m bootpp)
     else
       x ← store_options evaluate encapsulate join_ok cfg None agentopts 0 (Zlen agentopts) 0 0 [DHO_DHCP_AGENT_OPTIONS] false;
       let '(agentopts, agent_size, _) := x in
       Ret (agentopts, agent_size,
            if DHCP_MAX_OPTION_LEN <? main_size inpacket m bootpp + agent_size then DHCP_MAX_OPTION_LEN
            else main_size inpacket m bootpp + agent_size))
    = Ret (ag, n, mb) /\ slice ag 0 n = enc a /\ Zlen (enc a) = n /\ 0 <= n <= Zlen ag /\ n + 64 <= mb <= 1236 /\
    Z.min (main_size inpacket m bootpp) (1236 - n) <= mb - n /\
    stored_in None false (single a) [DHO_DHCP_AGENT_OPTIONS] /\
    (if client_state then a = []
     else short_values evaluate encapsulate join_ok cfg None false [DHO_DHCP_AGENT_OPTIONS] ->
       complete evaluate encapsulate join_ok cfg None false (single a) [DHO_DHCP_AGENT_OPTIONS] /\
       Zlen (enc a) <= footprint evaluate encapsulate join_ok cfg None false DHO_DHCP_AGENT_OPTIONS).
Proof.
  intros Ha Hcb Hva. pose proof (main_size_ge inpacket m bootpp) as Hmb. assert (DHCP_MAX_OPTION_LEN = 1236) as Emax by reflexivity.
  destruct client_state.
  - exists agentopts, 0, (main_size inpacket m bootpp), []. pose proof (main_size_le inpacket m) as Hle.
    rewrite (Hcb eq_refl) in *. split_and!; try done; try lia. constructor; [intros o Ho; by apply elem_of_nil in Ho|]. intros code. by left.
  - destruct (agent_options_ok agentopts Ha Hva) as (b & n & oc & a & -> & Elb & Es & El & Hn & Hr & Hc). cbn [mbind outcome_bind].
    pose proof (Zlen_nonneg (enc a)). eexists _, _, _, a. split; [reflexivity|]. rewrite Emax.
    split_and!; try done; try lia; [destruct (Z.ltb_spec 1236 (main_size inpacket m bootpp + n)); lia..|].
    intros [? ?]%Hc. split; [done|lia].
Qed.

Lemma layout_reply M (f1 f2 : bool) :
  64 <= M <= 1236 ->
  layout 4 M (if f1 then M else 0) (if f2 then if f1 then M + DHCP_FILE_LEN else M else 0)
    (if f2 then (if f1 then M + DHCP_FILE_LEN else M) + DHCP_SNAME_LEN else if f1 then M + DHCP_FILE_LEN else M).
Proof.
  unfold DHCP_FILE_LEN, DHCP_SNAME_LEN. intros H.
  assert (M =? 0 = false) as E1 by (apply Z.eqb_neq; lia). assert (M + 128 =? 0 = false) as E2 by (apply Z.eqb_neq; lia).
  destruct f1, f2; constructor; rewrite ?E1, ?E2; cbn [andb Z.eqb]; lia || (by left) || (right; lia) || (by right).
Qed.

(** A field of the packet, filled if its section is used. *)
Lemma copy_field (b out : list Z) (used : bool) at_ n (opts : list (Z * list Z)) :
  used = negb (bool_decide (opts = [])) ->
  (opts <> [] -> 0 <= at_ /\ 0 <= n /\ at_ + n <= Zlen b /\ ends opts (slice b at_ n)) ->
  exists f, (if used then memread b at_ n else Ret out) = Ret f /\ if bool_decide (opts = []) then f = out else ends opts f /\ Zlen f = n.
Proof.
  intros -> H. destruct (bool_decide_reflect (opts = [])) as [Ho|Ho]; cbn [negb]; [by exists out|].
  destruct (H Ho) as (? & ? & ? & ?). rewrite memread_slice by lia. eexists. split; [reflexivity|]. split; [done|].
  unfold slice, Zlen in *. rewrite length_take, length_drop. lia.
Qed.

(** The overload option and the fields that it speaks of. *)
Lemma overload_part b M (f1 f2 : bool) k oc c (out : raw_packet) :
  let of1 := if f1 then M else 0 in
  let of2 := if f2 then if f1 then M + DHCP_FILE_LEN else M else 0 in
  let len := if f2 then (if f1 then M + DHCP_FILE_LEN else M) + DHCP_SNAME_LEN else if f1 then M + DHCP_FILE_LEN else M in
  64 <= M <= 1236 -> len <= Zlen b -> fields_ok b 4 M of1 of2 len k oc c -> slice b 0 4 = DHCP_OPTIONS_COOKIE ->
  let ov := if oc =? 0 then [] else [(DHO_DHCP_OPTION_OVERLOAD, [oc])] in
  exists b' out', (if oc =? 0 then Ret (Some (b, 4 + k, out))
         else if u32 (M - (4 + k)) <? 3 then Ret None
         else
           b ← wr b (4 + k) DHO_DHCP_OPTION_OVERLOAD;
           b ← wr b (4 + k + 1) 1;
           b ← wr b (4 + k + 2) oc;
           file ← (if Z.testbit oc 0 then memread b of1 DHCP_FILE_LEN else Ret (raw_file out));
           sname ← (if Z.testbit oc 1 then memread b of2 DHCP_SNAME_LEN else Ret (raw_sname out));
           Ret (Some (b, 4 + k + 3, Raw file sname (raw_options out)))) = Ret (Some (b', 4 + k + Zlen (enc ov), out')) /\
      slice b' 0 (4 + k + Zlen (enc ov)) = DHCP_OPTIONS_COOKIE ++ enc (c Main ++ ov) /\ Zlen b' = Zlen b /\
      0 <= k /\ 4 + k + Zlen (enc ov) <= M /\
      (if bool_decide (c Second = []) then raw_file out' = raw_file out else ends (c Second) (raw_file out') /\ Zlen (raw_file out') = DHCP_FILE_LEN) /\
      (if bool_decide (c Third = []) then raw_sname out' = raw_sname out else ends (c Third) (raw_sname out') /\ Zlen (raw_sname out') = DHCP_SNAME_LEN).
Proof.
  intros of1 of2 len HM Hlen [Fm Fl Fr Fu F2 F3] Hck ov. pose proof (Zlen_nonneg (enc (c Main))) as Hknn. rewrite <- Fl in Hknn.
  assert (slice b 0 (4 + k) = DHCP_OPTIONS_COOKIE ++ enc (c Main)) as Epre
    by (rewrite slice_split by lia; change (0 + 4) with 4; by rewrite Fm, Hck).
  assert (4 + k <= M) as HkM by apply Fr. assert (oc <> 0 -> 4 + k + 3 <= M) as HkM3 by apply Fr.
  assert (0 <= oc < 4) as Hoc by (rewrite Fu; destruct (bool_decide _), (bool_decide _); lia).
  assert (Z.testbit oc 0 = negb (bool_decide (c Second = []))) as T0 by (rewrite Fu; by destruct (bool_decide _), (bool_decide _)).
  assert (Z.testbit oc 1 = negb (bool_decide (c Third = []))) as T1 by (rewrite Fu; by destruct (bool_decide _), (bool_decide _)).
  assert (M <= len) as HMl by (unfold len, DHCP_FILE_LEN, DHCP_SNAME_LEN; destruct f1, f2; lia).
  unfold ov. destruct (Z.eqb_spec oc 0) as [E0|E0].
  { exists b, out. change (Zlen (enc [])) with 0. rewrite Z.add_0_r, app_nil_r. rewrite E0 in T0, T1.
    destruct (bool_decide (c Second = [])), (bool_decide (c Third = [])); try done; by split_and!. }
  rewrite u32_small by lia. rewrite (proj2 (Z.ltb_ge _ _)) by lia.
  pose proof (write_overload b (4 + k) oc ltac:(lia) ltac:(lia)) as (b1 & -> & (b2 & E2 & E3)%bind_Ret_inv)%bind_Ret_inv.
  cbn [mbind outcome_bind]. rewrite E2. cbn [mbind outcome_bind]. rewrite E3. cbn [mbind outcome_bind]. set (b3 := splice _ _ _).
  assert (Zlen b3 = Zlen b) as El3 by (apply length_splice; change (Zlen [_; _; _]) with 3; lia).
  assert (forall lo m, M <= lo -> slice b3 lo m = slice b lo m) as Hsame
    by (intros; apply slice_splice_after; change (Zlen [_; _; _]) with 3; lia).
  destruct (copy_field b3 (raw_file out) (Z.testbit oc 0) of1 DHCP_FILE_LEN (c Second) T0) as (f & -> & Hf).
  { intros [Hn1 He]%F2. unfold of1, of2, len, DHCP_FILE_LEN, DHCP_SNAME_LEN in *. destruct f1; [|done]. rewrite Hsame, El3 by lia.
    assert ((if (if f2 then M + 128 else 0) =? 0 then if f2 then M + 128 + 64 else M + 128 else if f2 then M + 128 else 0) - M = 128) as Ed.
    { destruct f2; [rewrite (proj2 (Z.eqb_neq (M + 128) 0)) by lia; lia|change (0 =? 0) with true; cbn iota; lia]. }
    rewrite Ed in He. split_and!; [lia..|destruct f2; lia|done]. }
  destruct (copy_field b3 (raw_sname out) (Z.testbit oc 1) of2 DHCP_SNAME_LEN (c Third) T1) as (g & -> & Hg).
  { intros [Hn1 He]%F3. unfold of1, of2, len, DHCP_FILE_LEN, DHCP_SNAME_LEN in *. destruct f2; [|done].
    replace ((if f1 then M + 128 else M) + 64 - (if f1 then M + 128 else M)) with 64 in He by lia.
    rewrite Hsame, El3 by (destruct f1; lia). split_and!; [destruct f1; lia..|done]. }
  cbn [mbind outcome_bind]. exists b3, (Raw f g (raw_options out)). change (Zlen (enc [(DHO_DHCP_OPTION_OVERLOAD, [oc])])) with 3.
  split_and!; try done; [|lia]. unfold b3. rewrite slice_prefix_grow by (change (Zlen [_; _; _]) with 3; lia).
  by rewrite Epre, enc_app, <- app_assoc.
Qed.

(** What [cons_options] puts into the packet. *)
Lemma cons_options_ok inpacket out client_state mms overload_avail bootpp prl buffer agentopts prio m :
  Zlen buffer = 4096 -> Zlen agentopts = 1024 -> (client_state = true -> bootpp = false) ->
  message_size inpacket mms = Ret m -> priority_list cfg enclosing inpacket prl = Ret prio ->
  values_ok evaluate encapsulate join_ok cfg vuname prio ->
  values_ok evaluate encapsulate join_ok cfg None [DHO_DHCP_AGENT_OPTIONS] ->
  exists r oc c a,
    cons_options evaluate encapsulate join_ok cfg enclosing vuname inpacket out client_state mms overload_avail
      terminate bootpp prl buffer agentopts = Ret r /\
    match r with
    | None => c Main = []
    | Some (p, len) => reply_ok p out oc c a /\ len = DHCP_FIXED_NON_UDP + Zlen (raw_options p)
    end /\
    stored_in vuname terminate c prio /\ stored_in None false (single a) [DHO_DHCP_AGENT_OPTIONS] /\
    (if client_state then a = []
     else short_values evaluate encapsulate join_ok cfg None false [DHO_DHCP_AGENT_OPTIONS] ->
       complete evaluate encapsulate join_ok cfg None false (single a) [DHO_DHCP_AGENT_OPTIONS] /\
       Zlen (enc a) <= footprint evaluate encapsulate join_ok cfg None false DHO_DHCP_AGENT_OPTIONS) /\
    (short_values evaluate encapsulate join_ok cfg vuname terminate prio ->
     7 + footprints evaluate encapsulate join_ok cfg vuname terminate (remove_dups prio)
       < Z.min (main_size inpacket m bootpp) (DHCP_MAX_OPTION_LEN - Zlen (enc a)) ->
     complete evaluate encapsulate join_ok cfg vuname terminate c prio /\ c Second = [] /\ c Third = []).
Proof.
  intros Hb Ha Hcb Em Hp Hv Hva. unfold cons_options. rewrite Em. cbn [mbind outcome_bind].
  assert (DHCP_MAX_OPTION_LEN = 1236) as Emax by reflexivity.
  destruct (agent_part inpacket m bootpp client_state agentopts Ha Hcb Hva) as (ag & n & mb & a & -> & Ea & Ela & Hn & Hmb & Hmin & Hra & Hca).
  cbn [mbind outcome_bind]. rewrite (proj2 (Z.ltb_lt n mb)) by lia. rewrite Hp. cbn [mbind outcome_bind].
  rewrite memcpy_splice by (change (Zlen DHCP_OPTIONS_COOKIE) with 4; lia). cbn [mbind outcome_bind].
  set (buf0 := splice buffer 0 DHCP_OPTIONS_COOKIE). set (f1 := Z.testbit overload_avail 0). set (f2 := Z.testbit overload_avail 1).
  assert (Zlen buf0 = 4096) as Eb0 by (unfold buf0; rewrite length_splice; change (Zlen DHCP_OPTIONS_COOKIE) with 4; lia).
  assert (exists M, mb - n = M) as [M EM] by eauto. rewrite EM.
  assert (64 <= M <= 1236) as HM by lia. pose proof (layout_reply M f1 f2 HM) as Hlay.
  set (len := if f2 then _ else if f1 then _ else M) in Hlay |- *.
  assert (len <= 4096) as Hlen by (unfold len, DHCP_FILE_LEN, DHCP_SNAME_LEN; destruct f1, f2; lia).
  destruct (store_options_ok evaluate encapsulate join_ok cfg vuname terminate buf0 _ M _ _ _ prio Hlay)
    as (b & k & oc & c & E & Elb & Etk & F & Hrp & Hcm); [lia|done|].
  rewrite E. cbn [mbind outcome_bind]. pose proof F as [_ Fl _ Fu _ _].
  assert (short_values evaluate encapsulate join_ok cfg vuname terminate prio ->
    7 + footprints evaluate encapsulate join_ok cfg vuname terminate (remove_dups prio)
      < Z.min (main_size inpacket m bootpp) (DHCP_MAX_OPTION_LEN - Zlen (enc a)) ->
    complete evaluate encapsulate join_ok cfg vuname terminate c prio /\ c Second = [] /\ c Third = []) as Hcm'.
  { intros Hs Hroom. destruct (Hcm Hs ltac:(lia)) as (? & Eoc & _). split; [done|]. rewrite Fu in Eoc.
    destruct (bool_decide_reflect (c Second = [])), (bool_decide_reflect (c Third = [])); done. }
  destruct (Z.eqb_spec k 0) as [Ek|Ek].
  { exists None, oc, c, a. split_and!; try done. apply enc_nil. by rewrite <- Fl. }
  assert (slice b 0 4 = DHCP_OPTIONS_COOKIE) as Hck.
  { unfold slice. change (Z.to_nat 0) with O. rewrite drop_0, Etk. unfold buf0, splice. change (Z.to_nat 0) with O. rewrite take_0. cbn [app].
    by apply take_app_length'. }
  destruct (overload_part b M f1 f2 k oc c out HM ltac:(unfold len in *; lia) F Hck) as (b' & out' & Ew & Es' & Elb' & Hk & Hroom & Hfile & Hsname).
  rewrite Ew. cbn [mbind outcome_bind]. set (ov := if oc =? 0 then [] else [(DHO_DHCP_OPTION_OVERLOAD, [oc])]) in *. pose proof (Zlen_nonneg (enc ov)).
  destruct (finish_packet b' ag mb n (4 + k + Zlen (enc ov)) out' _ a Es' Ea Ela)
    as ([p plen] & tail & Ef & Ht & Eo & Efi & Esn & Hsz & Elen); try lia.
  rewrite Ef. exists (Some (p, plen)), oc, c, a. cbn [fst snd] in *. split; [done|]. split; [|done]. split; [|done].
  constructor; [|apply F|by rewrite Efi|by rewrite Esn|done].
  exists tail. split; [done|]. fold ov. rewrite Eo, !enc_app, <- !app_assoc. done.
Qed.

End Packet.

(** ** The receiver reads the reply *)

Lemma fresh_plain find_enumeration u code d :
  (format_has_text (from_option id default_option_format (code_hash u code)) = true -> last d <> Some 0) ->
  oc_data (fresh find_enumeration u code d) = d.
Proof.
  intros H. unfold fresh. destruct (format_has_text _); [|done]. destruct (format_min_length _ _) as [m| |]; try done.
  destruct (length d) eqn:El; cbn [strip_nulls]; [done|]. rewrite (bool_decide_false (last d = Some 0)) by auto. by rewrite andb_false_r.
Qed.

Lemma first_octet_view u st code op :
  lookup_option u st code = Ret op -> match op with Some c => first_octet c | None => 0 end = first_octet (view u st code).
Proof. intros E. unfold view. rewrite E. by destruct op. Qed.

Lemma received_other find_enumeration u c opts code :
  (forall o, o ∈ opts -> fst o <> code) -> received find_enumeration u c opts code = c.
Proof.
  revert c. induction opts as [|[k d] opts IH]; intros c H; cbn [received fold_left]; [done|].
  rewrite (proj2 (Z.eqb_neq k code)) by (apply (H (k, d)); left). apply IH. intros o Ho. apply H. by right.
Qed.

Section Receive.
Context (find_enumeration : string -> option Z) (mem : nat -> bool) (universes : list universe) (u : universe) (P : nat -> Prop).
Context (Hconf : configured find_enumeration universes) (Hcl : closed universes P) (Hu : u ∈ universes) (Hd : dhcp_space u).
Context (HnP : ~ P (u_index u)) (HP : forall u', encloses universes u u' -> P (u_index u')) (Hm : forall n, mem n = true).

Lemma parse_field st opts tail :
  all_ok universes st -> Forall option_ok opts -> Zlen (enc opts ++ tail) < 2 ^ 31 ->
  (tail = [] \/ exists rest, tail = DHO_END :: rest) ->
  exists st', parse_option_buffer find_enumeration mem universes u st (enc opts ++ tail) = Ret (true, st') /\
    all_ok universes st' /\ forall code, view u st' code = received find_enumeration u (view u st code) opts code.
Proof.
  intros Hst Ho Hl Ht. rewrite <- (enc_tlvs u opts Hd Ho) in *. pose proof Hd as [Et _ Hbe Ee _].
  destruct (parse_tlvs find_enumeration mem universes P u st opts tail) as (st' & E & Hok & _ & Hv); try done.
  - eapply Forall_impl; [exact Ho|]. intros o. by apply option_sendable.
  - rewrite Et. destruct Ht as [->|[rest ->]]; [left; done|right]. exists rest. rewrite Ee. by split.
  - by exists st'.
Qed.

(** A section that [ends], if it is used. *)
Lemma parse_section st opts field (used : bool) :
  all_ok universes st -> Forall option_ok opts ->
  used = negb (bool_decide (opts = [])) -> (opts <> [] -> ends opts field /\ Zlen field < 2 ^ 31) ->
  exists st', (if used then parse_option_buffer find_enumeration mem universes u st field else Ret (true, st)) = Ret (true, st') /\
    all_ok universes st' /\ forall code, view u st' code = received find_enumeration u (view u st code) opts code.
Proof.
  intros Hst Ho -> He. destruct (bool_decide_reflect (opts = [])) as [->|Hn]; cbn [negb]; [by exists st|].
  destruct (He Hn) as [[k ->] Hl]. apply parse_field; eauto.
Qed.

Lemma parse_reply p out oc c a st :
  reply_ok p out oc c a ->
  Forall option_ok (all_options c ++ a) -> (forall o, o ∈ all_options c ++ a -> fst o <> DHO_DHCP_OPTION_OVERLOAD) ->
  all_ok universes st -> (forall code, view u st code = []) ->
  exists st', parse_options find_enumeration mem universes u st p = Ret (true, true, st') /\ all_ok universes st' /\
    forall code, code <> DHO_DHCP_OPTION_OVERLOAD ->
      view u st' code = received find_enumeration u [] (c Main ++ a ++ c Second ++ c Third) code.
Proof.
  intros [(tail & Ht & Eo) Hoc Hfile Hsname Hsz] Ho Hn52 Hst Hempty.
  set (ov := if oc =? 0 then [] else [(DHO_DHCP_OPTION_OVERLOAD, [oc])]) in *.
  assert (0 <= oc < 4) as Hr by (rewrite Hoc; destruct (bool_decide _), (bool_decide _); lia).
  assert (Z.testbit oc 0 = negb (bool_decide (c Second = []))) as T0 by (rewrite Hoc; by destruct (bool_decide _), (bool_decide _)).
  assert (Z.testbit oc 1 = negb (bool_decide (c Third = []))) as T1 by (rewrite Hoc; by destruct (bool_decide _), (bool_decide _)).
  unfold all_options in Ho, Hn52. rewrite !Forall_app in Ho. destruct Ho as ((HoM & HoS & HoT) & Hoa).
  assert (Forall option_ok ov) as Hov.
  { unfold ov. destruct (Z.eqb_spec oc 0); repeat constructor; cbn; unfold is_byte; lia || done. }
  assert (forall l cc, l = c Main \/ l = c Second \/ l = c Third \/ l = a ->
    received find_enumeration u cc l DHO_DHCP_OPTION_OVERLOAD = cc) as Hskip.
  { intros l cc Hl. apply received_other. intros o Hin. apply Hn52. rewrite !elem_of_app. destruct Hl as [->|[->|[->| ->]]]; tauto. }
  assert (4 <= Zlen (raw_options p)) as H4.
  { rewrite Eo, Zlen_app. change (Zlen DHCP_OPTIONS_COOKIE) with 4. match goal with |- context [4 + Zlen ?x] => pose proof (Zlen_nonneg x) end. lia. }
  unfold parse_options. rewrite memread_in by lia.
  cbn [mbind outcome_bind]. change (Z.to_nat 0) with O. change (Z.to_nat 4) with 4%nat. rewrite drop_0, Eo.
  rewrite take_app_length' by done. rewrite bool_decide_true by done. cbn [negb]. rewrite drop_app_length' by done.
  rewrite Eo in Hsz. assert (DHCP_MAX_OPTION_LEN = 1236) as Emax by done. rewrite Zlen_app in Hsz. change (Zlen DHCP_OPTIONS_COOKIE) with 4 in Hsz.
  destruct (parse_field st (c Main ++ ov ++ a) tail) as (st1 & -> & Hok1 & Hv1); [done|by rewrite !Forall_app|lia|destruct Ht as [->| ->]; eauto|].
  cbn [mbind outcome_bind]. destruct (lookup_option_ok u st1 DHO_DHCP_MESSAGE_TYPE) as [op1 ->]; [by apply Hok1|].
  cbn [mbind outcome_bind negb andb].
  destruct (lookup_option_ok u st1 DHO_DHCP_OPTION_OVERLOAD) as [op2 E2]; [by apply Hok1|]. rewrite E2. cbn [mbind outcome_bind].
  assert (first_octet (view u st1 DHO_DHCP_OPTION_OVERLOAD) = oc) as Efo.
  { rewrite Hv1, Hempty, !received_app, (Hskip a), (Hskip (c Main)) by tauto. unfold ov. destruct (Z.eqb_spec oc 0) as [->|H0]; [done|].
    cbn [received fold_left]. rewrite Z.eqb_refl. cbn. rewrite fresh_plain; [done|]. cbn. intros _ [=]. done. }
  rewrite (first_octet_view _ _ _ _ E2), Efo.
  destruct (parse_section st1 (c Second) (raw_file p) _ Hok1 HoS T0) as (st2 & -> & Hok2 & Hv2).
  { intros Hne. rewrite bool_decide_false in Hfile by done. unfold DHCP_FILE_LEN in Hfile. split; [apply Hfile|lia]. }
  cbn [mbind outcome_bind negb].
  assert (first_octet (view u st2 DHO_DHCP_OPTION_OVERLOAD) = oc) as Efo2 by (by rewrite Hv2, Hskip by tauto).
  assert (exists op3, (match op2 with Some _ => lookup_option u st2 DHO_DHCP_OPTION_OVERLOAD | None => Ret None end) = Ret op3 /\
    match op3 with Some c => first_octet c | None => 0 end = oc) as (op3 & -> & Eop3).
  { pose proof (first_octet_view _ _ _ _ E2) as Eop. rewrite Efo in Eop. destruct op2 as [c2|]; [|by exists None].
    destruct (lookup_option_ok u st2 DHO_DHCP_OPTION_OVERLOAD) as [op3 E3]; [by apply Hok2|]. exists op3. split; [done|].
    by rewrite (first_octet_view _ _ _ _ E3). }
  cbn [mbind outcome_bind]. rewrite Eop3.
  destruct (parse_section st2 (c Third) (raw_sname p) _ Hok2 HoT T1) as (st3 & -> & Hok3 & Hv3).
  { intros Hne. rewrite bool_decide_false in Hsname by done. unfold DHCP_SNAME_LEN in Hsname. split; [apply Hsname|lia]. }
  cbn [mbind outcome_bind negb]. exists st3. split_and!; try done. intros code Hcode. rewrite Hv3, Hv2, Hv1, Hempty, !received_app.
  do 3 f_equal. apply received_other. unfold ov. destruct (oc =? 0); [intros o Hx; by apply elem_of_nil in Hx|].
  intros o ->%list_elem_of_singleton. cbn. congruence.
Qed.

End Receive.

(** The agent's options are not listed: they are stored on their own. *)
Lemma add_code_elem l code x : x ∈ add_code l code -> x ∈ l \/ x = code.
Proof. unfold add_code. destruct (_ <? _); [|by left]. intros [?|?%list_elem_of_singleton]%elem_of_app; auto. Qed.

Lemma add_codes_elem cs x : forall l, x ∈ fold_left add_code cs l -> x ∈ l \/ x ∈ cs.
Proof.
  induction cs as [|code cs IH]; intros l; cbn [fold_left]; [by left|].
  intros [[?| ->]%add_code_elem|?]%IH; [by left|right; left|right; by right].
Qed.

Lemma agent_not_listed cfg enclosing inpacket prl prio :
  priority_list cfg enclosing inpacket prl = Ret prio -> DHO_DHCP_AGENT_OPTIONS ∉ prio.
Proof.
  assert (DHO_DHCP_AGENT_OPTIONS ∉ mandatory) as Hm by (by apply (bool_decide_unpack _)).
  unfold priority_list, default_list, requested_list. destruct prl as [|c prl].
  - intros [= <-] [H|H]%add_code_elem; [|done]. apply add_codes_elem in H as [H|[? _]%list_elem_of_filter]; [|done].
    apply add_codes_elem in H as [H|[[_ ?] _]%list_elem_of_filter]; [|done].
    destruct (site_code_min cfg =? 0); [|apply add_codes_elem in H as [H|[[_ ?] _]%list_elem_of_filter]; [|done]].
    all: revert H; apply (bool_decide_unpack (DHO_DHCP_AGENT_OPTIONS ∉ _)); by vm_compute.
  - intros (op & _ & [= <-])%bind_Ret_inv.
    set (l1 := match op with Some _ => _ | None => _ end). assert (DHO_DHCP_AGENT_OPTIONS ∉ l1) as H1.
    { unfold l1. destruct op; [|done]. by intros [?|?]%add_code_elem. }
    clearbody l1. destruct inpacket as [r|].
    2: { intros [?|[? _]%list_elem_of_filter]%elem_of_app; done. }
    set (l2 := if sv_echo_client_id r then _ else _). assert (DHO_DHCP_AGENT_OPTIONS ∉ l2) as H2.
    { unfold l2. destruct (sv_echo_client_id r); [|done]. by intros [?|?]%add_code_elem. }
    clearbody l2. set (l3 := l2 ++ _). assert (DHO_DHCP_AGENT_OPTIONS ∉ l3) as H3.
    { unfold l3. intros [?|[? _]%list_elem_of_filter]%elem_of_app; done. }
    clearbody l3. set (l4 := if has_fqdn r then _ else _). assert (DHO_DHCP_AGENT_OPTIONS ∉ l4) as H4.
    { unfold l4. destruct (has_fqdn r); [|done]. by intros [?|?]%add_code_elem. }
    clearbody l4. destruct (_ || _); [|done]. by intros [?|?]%add_code_elem.
Qed.

(** A text that ends with a NUL loses it at the receiver. *)
Definition plain (u : universe) (sent : Z -> option (list Z)) : Prop :=
  forall code v, sent code = Some v ->
    format_has_text (from_option id default_option_format (code_hash u code)) = true -> 0 ∉ v.

Lemma content_elem code d opts x : (code, d) ∈ opts -> x ∈ d -> x ∈ content code opts.
Proof.
  intros H Hx. unfold content. apply list_elem_of_In, in_concat. exists d. split; [|by apply list_elem_of_In].
  apply in_map_iff. exists (code, d). split; [done|]. apply list_elem_of_In, list_elem_of_filter. done.
Qed.

(** The options of a list of pieces, as the receiver sees them. *)
Lemma delivered_content find_enumeration u sent opts code :
  dhcp_space u -> plain u sent -> Forall (fun o => piece_ok (snd o)) opts ->
  (content code opts = [] \/ sent code = Some (content code opts)) ->
  oc_data <$> head (received find_enumeration u [] opts code) =
    if bool_decide (content code opts = []) then None else sent code.
Proof.
  intros Hd Hp Hok Hc. rewrite received_content; [| |].
  - destruct (bool_decide_reflect (content code opts = [])) as [|Hn]; [done|]. by destruct Hc as [?| ->].
  - done.
  - intros d Hin. eapply Forall_forall in Hok as [Hby Hl]; [|exact Hin]. cbn [snd] in *.
    split; [intros ->; change (Zlen []) with 0 in Hl; lia|]. apply fresh_plain. intros Ht [l ->]%last_Some.
    assert (0 ∈ content code opts) as H0 by (eapply content_elem; [exact Hin|]; rewrite elem_of_app; right; left).
    destruct Hc as [Hc|Hc]; [rewrite Hc in H0; by apply elem_of_nil in H0|]. by apply (Hp code _ Hc Ht).
Qed.

Section RoundTrip.
Context (evaluate : option_cache -> option (list Z)) (encapsulate : list Z -> option (list Z)) (join_ok : Z -> bool).
Context (cfg : config) (enclosing : list Z) (vuname : option string) (terminate : bool).
Context (find_enumeration : string -> option Z) (mem : nat -> bool) (universes : list universe) (u : universe) (P : nat -> Prop).

(** The value that the server has for a code. *)
Definition sent (client_state : bool) (code : Z) : option (list Z) :=
  if code =? DHO_DHCP_AGENT_OPTIONS then
    if client_state then None else reply_value evaluate encapsulate join_ok cfg None false code
  else reply_value evaluate encapsulate join_ok cfg vuname terminate code.

(** Everything fits in the options field. *)
Definition fits (inpacket : option request) (m : Z) (bootpp client_state : bool) (prio : list Z) : Prop :=
  short_values evaluate encapsulate join_ok cfg vuname terminate prio /\
  short_values evaluate encapsulate join_ok cfg None false [DHO_DHCP_AGENT_OPTIONS] /\
  7 + footprints evaluate encapsulate join_ok cfg vuname terminate (remove_dups prio)
    < Z.min (main_size inpacket m bootpp)
        (DHCP_MAX_OPTION_LEN - if client_state then 0 else footprint evaluate encapsulate join_ok cfg None false DHO_DHCP_AGENT_OPTIONS).

Lemma sent_content client_state prio c a code :
  DHO_DHCP_AGENT_OPTIONS ∉ prio ->
  replied evaluate encapsulate join_ok cfg vuname terminate c prio ->
  replied evaluate encapsulate join_ok cfg None false (single a) [DHO_DHCP_AGENT_OPTIONS] -> (client_state = true -> a = []) ->
  content code (c Main ++ a ++ c Second ++ c Third) =
    (if code =? DHO_DHCP_AGENT_OPTIONS then content code (all_options (single a)) else content code (all_options c)) /\
  (content code (c Main ++ a ++ c Second ++ c Third) = [] \/
   sent client_state code = Some (content code (c Main ++ a ++ c Second ++ c Third))).
Proof.
  intros H82 [Hc1 Hc2] [Ha1 Ha2] Hcs.
  assert (content code (c Main ++ a ++ c Second ++ c Third) =
    if code =? DHO_DHCP_AGENT_OPTIONS then content code (all_options (single a)) else content code (all_options c)) as E.
  { rewrite !content_app. unfold all_options at 1. cbn [single]. rewrite !app_nil_r. destruct (Z.eqb_spec code DHO_DHCP_AGENT_OPTIONS) as [->|Hne].
    - assert (forall sec, content DHO_DHCP_AGENT_OPTIONS (c sec) = []) as Hn.
      { intros sec. apply content_notin. intros o Ho E. apply H82. rewrite <- E. apply Hc1. apply all_options_elem. eauto. }
      rewrite !Hn, !app_nil_r. done.
    - assert (content code a = []) as ->.
      { apply content_notin. intros o Ho E. destruct (Ha1 o) as (H1%list_elem_of_singleton & _); [|congruence].
        apply all_options_elem. by exists Main. }
      unfold all_options. by rewrite !content_app. }
  split; [done|]. rewrite E. unfold sent. destruct (Z.eqb_spec code DHO_DHCP_AGENT_OPTIONS) as [->|Hne]; [|apply Hc2].
  destruct client_state; [|apply Ha2]. rewrite (Hcs eq_refl). by left.
Qed.

(** No value is set for the pad, end and overload options. *)
Definition sendable_codes (client_state : bool) : Prop :=
  forall code, code ∈ [DHO_PAD; DHO_END; DHO_DHCP_OPTION_OVERLOAD] -> sent client_state code = None.

Lemma pieces_option_ok client_state prio c a :
  DHO_DHCP_AGENT_OPTIONS ∉ prio ->
  replied evaluate encapsulate join_ok cfg vuname terminate c prio ->
  replied evaluate encapsulate join_ok cfg None false (single a) [DHO_DHCP_AGENT_OPTIONS] -> (client_state = true -> a = []) ->
  sendable_codes client_state ->
  forall o, o ∈ all_options c ++ a -> option_ok o /\ fst o <> DHO_DHCP_OPTION_OVERLOAD.
Proof.
  intros H82 Hc Ha Hcs Hs [code d] Ho. pose proof Hc as [Hc1 _]. pose proof Ha as [Ha1 _].
  assert (is_byte code /\ piece_ok d) as [Hb Hd].
  { apply elem_of_app in Ho as [Ho|Ho]; [by apply (Hc1 (code, d))|]. apply (Ha1 (code, d)). apply all_options_elem. by exists Main. }
  destruct (sent_content client_state prio c a code H82 Hc Ha Hcs) as [_ Hsent].
  assert (sent client_state code <> None) as Hn.
  { destruct d as [|x d]; [destruct Hd as [_ [Hd _]]; change (Zlen []) with 0 in Hd; lia|].
    assert (x ∈ content code (c Main ++ a ++ c Second ++ c Third)) as Hx.
    { apply (content_elem code (x :: d)); [|left]. unfold all_options in Ho. rewrite !elem_of_app in Ho |- *. tauto. }
    destruct Hsent as [E|E]; [rewrite E in Hx; by apply elem_of_nil in Hx|by rewrite E]. }
  assert (forall k, k ∈ [DHO_PAD; DHO_END; DHO_DHCP_OPTION_OVERLOAD] -> code <> k) as Hk by (intros k Hk ->; by apply Hn, Hs).
  assert (code <> DHO_PAD) by (apply Hk; left). assert (code <> DHO_END) by (apply Hk; right; left).
  assert (code <> DHO_DHCP_OPTION_OVERLOAD) by (apply Hk; right; right; left). unfold option_ok. cbn [fst snd]. by split_and!.
Qed.

(** C13: What the sender sets is what the receiver gets.  [cons_options] returns.  If it
    makes a packet, this is never larger than the largest one allowed, it is parsed without
    an error, and for any option code but the overload option itself the receiver then has
    either no value or exactly the value that the sender set, however it was split over the
    options, file and server name fields.  A non-empty value of an option of the priority
    list, or of the agent option when a server sends, is not missing if the listed values
    fit: none is longer than 255 octets and all of them, each with its code and length, take
    less than the options field and than what the agent option leaves ([fits]).  An option
    that is not on the priority list may be missing in any case.  If no packet is made
    although the values fit, no option of the list had a value that is not empty.  This is
    for values of octets, below 2^31 - 1 of them, whose evaluation is defined ([values_ok]);
    no value is set for the pad, end and overload codes ([sendable_codes]); the value of an
    option with a text format has no NUL, neither one of its own nor one that the sender
    adds, since the parser removes it at the end ([plain]); the work buffers have the sizes
    of the source, a client never sends a BOOTP packet; the receiver's spaces are those of a
    configured table, it has memory, and no option of this space before. *)
Theorem reply_roundtrip inpacket out client_state mms m overload_avail bootpp prl buffer agentopts prio st :
  Zlen buffer = 4096 -> Zlen agentopts = 1024 -> (client_state = true -> bootpp = false) ->
  message_size inpacket mms = Ret m -> priority_list cfg enclosing inpacket prl = Ret prio ->
  values_ok evaluate encapsulate join_ok cfg vuname prio ->
  values_ok evaluate encapsulate join_ok cfg None [DHO_DHCP_AGENT_OPTIONS] ->
  sendable_codes client_state -> plain u (sent client_state) ->
  configured find_enumeration universes -> closed universes P -> u ∈ universes -> dhcp_space u ->
  ~ P (u_index u) -> (forall u', encloses universes u u' -> P (u_index u')) -> (forall n, mem n = true) ->
  all_ok universes st -> spaces st !! u_index u = None ->
  exists r, cons_options evaluate encapsulate join_ok cfg enclosing vuname inpacket out client_state mms overload_avail
              terminate bootpp prl buffer agentopts = Ret r /\
  match r with
  | None => fits inpacket m bootpp client_state prio -> forall code v, code ∈ prio -> sent client_state code = Some v -> v = []
  | Some (p, len) =>
    len <= DHCP_MTU_MAX - 28 /\
    exists st', parse_options find_enumeration mem universes u st p = Ret (true, true, st') /\
      forall code, code <> DHO_DHCP_OPTION_OVERLOAD ->
        (delivered u st' code = None \/ delivered u st' code = sent client_state code) /\
        (fits inpacket m bootpp client_state prio -> code ∈ DHO_DHCP_AGENT_OPTIONS :: prio ->
           forall v, sent client_state code = Some v -> v <> [] -> delivered u st' code = Some v)
  end.
Proof.
  intros Hb Hag Hcb Em Hp Hv Hva Hsc Hpl Hconf Hcl Hu Hd HnP HP Hm Hst Hnone.
  pose proof (agent_not_listed _ _ _ _ _ Hp) as H82.
  destruct (cons_options_ok evaluate encapsulate join_ok cfg enclosing vuname terminate inpacket out client_state mms overload_avail
              bootpp prl buffer agentopts prio m Hb Hag Hcb Em Hp Hv Hva) as (r & oc & c & a & -> & Hr & Hrc & Hra & Hca & Hcc).
  exists r. split; [done|].
  assert (client_state = true -> a = []) as Hcs by (by intros ->).
  assert (fits inpacket m bootpp client_state prio -> forall code v, code ∈ DHO_DHCP_AGENT_OPTIONS :: prio -> sent client_state code = Some v ->
    content code (c Main ++ a ++ c Second ++ c Third) = v /\ c Second = [] /\ c Third = []) as Hfit.
  { intros (Hf1 & Hf2 & Hf3) code v Hin Hsv.
    destruct (sent_content client_state prio c a code H82 Hrc Hra Hcs) as [-> _].
    destruct Hcc as (Hcc & -> & ->); [done| |split; [|done]].
    { destruct client_state; [rewrite (Hcs eq_refl); change (Zlen (enc [])) with 0; lia|]. destruct (Hca Hf2). lia. }
    unfold sent in Hsv. destruct (Z.eqb_spec code DHO_DHCP_AGENT_OPTIONS) as [->|Hne].
    - destruct client_state; [done|]. destruct (Hca Hf2) as [Hc2 _]. apply Hc2; [left|done].
    - apply elem_of_cons in Hin as [?|Hin]; [done|]. by apply Hcc. }
  destruct r as [[p len]|]; cycle 1.
  { intros Hf code v Hin Hsv. destruct (Hfit Hf code v) as (<- & E2 & E3); [by right|done|].
    destruct (sent_content client_state prio c a code H82 Hrc Hra Hcs) as [-> _].
    rewrite (proj2 (Z.eqb_neq _ _)) by (intros ->; done). unfold all_options. by rewrite Hr, E2, E3. }
  destruct Hr as [Hr ->]. pose proof (ro_size _ _ _ _ _ Hr) as Hsz.
  assert (DHCP_MTU_MAX - 28 = DHCP_FIXED_NON_UDP + DHCP_MAX_OPTION_LEN) as -> by done. split; [lia|].
  pose proof (pieces_option_ok client_state prio c a H82 Hrc Hra Hcs Hsc) as Hok.
  destruct (parse_reply find_enumeration mem universes u P Hconf Hcl Hu Hd HnP HP Hm p out oc c a st Hr) as (st' & -> & _ & Hview).
  { apply Forall_forall. intros o Ho. by apply Hok. }
  { intros o Ho. by apply Hok. }
  { done. }
  { intros code. unfold view. by rewrite lookup_option_none. }
  exists st'. split; [done|]. intros code Hcode. unfold delivered. rewrite (Hview code Hcode).
  destruct (sent_content client_state prio c a code H82 Hrc Hra Hcs) as [_ Hsent].
  rewrite (delivered_content find_enumeration u (sent client_state) _ code Hd Hpl); [|apply Forall_forall; intros o Ho|done].
  2: { apply Hok. unfold all_options. rewrite !elem_of_app in Ho |- *. tauto. }
  split; [destruct (bool_decide _); auto|]. intros Hf Hin v Hsv Hne. destruct (Hfit Hf code v Hin Hsv) as [-> _].
  by rewrite bool_decide_false.
Qed.

End RoundTrip.

(** ** An example *)

Definition example_space : universe :=
  Universe "dhcp" 0 By_hash 1 1 getUChar (Some getUChar) DHO_END true (fun _ => None) Options_decoder.

Lemma example_configured fe : configured fe [example_space].
Proof.
  constructor.
  - intros u ->%list_elem_of_singleton. constructor; [by left|by apply getUChar_byte| |done..].
    split; [done|]. intros l H1 H2. destruct (getUChar_byte l H1 H2) as (c & ? & ?). exists c. split; [done|lia].
  - by intros u u' ->%list_elem_of_singleton ->%list_elem_of_singleton.
Qed.

Lemma example_dhcp_space : dhcp_space example_space.
Proof.
  assert (forall c rest, 0 <= c < 256 -> getUChar (be_enc 1 c ++ rest) = Ret c) as H.
  { intros c rest Hc. cbn [be_enc app]. change (256 ^ Z.of_nat 0) with 1. by rewrite Z.div_1_r, Z.mod_small. }
  constructor; try done. constructor; [exact H|]. exists getUChar. done.
Qed.

(** A message type, a lease time and a long option. *)
Definition example_values : list option_cache :=
  [Cache 53 "X" [5] false; Cache 51 "X" [0; 0; 14; 16] false; Cache 12 "X" (replicate 300 97) false].

Definition example_config : config :=
  Config (State 1 {[O := map (fun i => map (fun oc => [oc]) (List.filter (fun oc => compute_option_hash (oc_code oc) =? Z.of_nat i) example_values)) (seq 0 17)]} 0)
    example_space 0 example_space None.

Definition example_value (oc : option_cache) : option (list Z) := Some (oc_data oc).

Ltac value_ok :=
  split; [unfold is_byte, DHO_DHCP_AGENT_OPTIONS; lia|];
  match goal with |- context [option_value ?a ?b ?c ?d ?e ?f] =>
    let r := eval vm_compute in (option_value a b c d e f) in change (option_value a b c d e f) with r; cbv iota beta end;
  try exact I; try (split; [repeat (constructor; [unfold is_byte; lia|]); constructor|reflexivity]).

Lemma example_values_ok : values_ok example_value (fun _ => None) (fun _ => true) example_config None (default_list example_config []).
Proof.
  unfold values_ok. apply Forall_forall.
  match goal with |- Forall _ ?l => let r := eval vm_compute in l in change l with r end.
  repeat (constructor; [value_ok|]). constructor.
Qed.

Lemma reply_roundtrip_witness :
  exists p len st', cons_options example_value (fun _ => None) (fun _ => true) example_config [] None None (Raw [] [] []) true 0 3 false false []
      (replicate 4096 0) (replicate 1024 0) = Ret (Some (p, len)) /\
    parse_options (fun _ => None) (fun _ => true) [example_space] example_space no_options p = Ret (true, true, st') /\
    (delivered example_space st' 12 = None \/ delivered example_space st' 12 = Some (replicate 300 97)).
Proof.
  destruct (reply_roundtrip example_value (fun _ => None) (fun _ => true) example_config [] None false
              (fun _ => None) (fun _ => true) [example_space] example_space (fun _ => False)
              None (Raw [] [] []) true 0 0 3 false [] (replicate 4096 0) (replicate 1024 0) (default_list example_config []) no_options)
    as (r & E & Hr).
  - by vm_compute.
  - by vm_compute.
  - done.
  - by vm_compute.
  - reflexivity.
  - apply example_values_ok.
  - intros code ->%list_elem_of_singleton. value_ok.
  - unfold sendable_codes. apply Forall_forall. repeat (constructor; [by vm_compute|]). constructor.
  - intros code v _. by vm_compute.
  - apply example_configured.
  - by intros u u' _ [].
  - by left.
  - apply example_dhcp_space.
  - by intros [].
  - intros u (code & format & H & _). done.
  - done.
  - intros u ->%list_elem_of_singleton. by apply no_options_ok.
  - by vm_compute.
  - destruct r as [[p len]|]; [|by vm_compute in E]. destruct Hr as (_ & st' & E' & Hd). exists p, len, st'.
    split; [done|]. split; [done|]. apply (Hd 12). done.
Defined.

(** The long option is split over two pieces and joined again. *)
Example long_option_sent :
  match cons_options example_value (fun _ => None) (fun _ => true) example_config [] None None (Raw [] [] []) true 0 3 false false []
      (replicate 4096 0) (replicate 1024 0) with
  | Ret (Some (p, _)) =>
    match parse_options (fun _ => None) (fun _ => true) [example_space] example_space no_options p with
    | Ret (true, true, st') => delivered example_space st' 12 = Some (replicate 300 97)
    | _ => False
    end
  | _ => False
  end.
Proof. by vm_compute. Qed.

End OptionReply.
