(* ===== verification/Fqdn.v ===== *)
(** * The FQDN option (common/options.c)

    The FQDN option is one flat value that the program presents as a space of
    suboptions: flags, response codes and a name, which is either plain text or a
    sequence of labels in the form of the DNS.  [fqdn_universe_decode] takes a
    received value apart; [fqdn_option_space_encapsulate] makes the value from the
    suboptions. *)

From Stdlib Require Import ZArith Lia Ascii String.
From stdpp Require Import base list numbers option gmap fin_maps.
From S2P Require Import Prelude.
From S2P Require Import Options.
From S2P Require Import OptionStore.
From S2P Require Import OptionReply.
#[local] Open Scope Z_scope.

Module Fqdn.

Export OptionReply.

Abbreviation chain := (list option_cache).

Definition FQDN_NO_CLIENT_UPDATE : Z := 1.
Definition FQDN_SERVER_UPDATE : Z := 2.
Definition FQDN_ENCODED : Z := 3.
Definition FQDN_RCODE1 : Z := 4.
Definition FQDN_RCODE2 : Z := 5.
Definition FQDN_HOSTNAME : Z := 6.
Definition FQDN_DOMAINNAME : Z := 7.
Definition FQDN_FQDN : Z := 8.
Definition FQDN_SUBOPTION_COUNT : Z := 8.

Definition dot : Z := 46.

(** The memory of [buffer_allocate]: zeroed, with the one octet that [struct
    buffer] itself has. *)
Definition buffer_data (len : Z) : list Z := replicate (Z.to_nat (len + 1)) 0.

Definition flag (b : bool) : Z := if b then 1 else 0.

(** ** Decoding *)

Section Decode.
Context (find_enumeration : string -> option Z) (mem : nat -> bool) (fqdn_universe : universe).

(** A suboption in the buffer at [at_].  [terminatep]: a NUL is put behind it.
    No octet of a suboption that is saved is written again: what is written after
    it are flags that are saved later, and NULs behind the end of the name. *)
Definition save_at (st : option_state) (bp : list Z) (at_ len code : Z) (terminatep : bool)
    (next : option_state -> list Z -> outcome (bool * option_state)) : outcome (bool * option_state) :=
  d ← memread bp at_ len;
  bp ← (if terminatep then wr bp (at_ + len) 0 else Ret bp);
  r ← save_option_buffer find_enumeration mem fqdn_universe st d code;
  match r with (true, st) => next st bp | (false, st) => Ret (false, st) end.

Definition save_if (c : bool) (st : option_state) (bp : list Z) (at_ len code : Z) (terminatep : bool)
    (next : option_state -> list Z -> outcome (bool * option_state)) : outcome (bool * option_state) :=
  if c then save_at st bp at_ len code terminatep next else next st bp.

(** The index of the first dot from [i] on, or [length]. *)
Fixpoint find_dot (fuel : nat) (buffer : list Z) (i length : Z) : outcome Z :=
  match fuel with
  | O => Ret i
  | S fuel' =>
    if i <? length then c ← rd buffer i; if c =? dot then Ret i else find_dot fuel' buffer (i + 1) length
    else Ret i
  end.

(** The labels of an encoded name: each length becomes a dot.  The result has
    the total length, the length of the first label and whether the root label
    was found; [None] for a name that is malformed. *)
Fixpoint read_labels (fuel : nat) (bp : list Z) (s length total_len first_len : Z)
  : outcome (option (list Z * Z * Z * bool)) :=
  if length + 2 <=? s then Ret (Some (bp, total_len, first_len, false))
  else
    match fuel with
    | O => Undef
    | S fuel' =>
      len ← rd bp s;
      if 63 <? len then Ret None
      else if len =? 0 then Ret (Some (bp, total_len, first_len, true))
      else if length + 3 <? s + len then Ret None
      else
        bp ← wr bp s dot;
        read_labels fuel' bp (s + len + 1) length (total_len + len + 1) (if first_len =? 0 then len else first_len)
    end.

(** The end of both branches. *)
Definition save_flags (st : option_state) (bp : list Z) : outcome (bool * option_state) :=
  save_at st bp 1 1 FQDN_NO_CLIENT_UPDATE false (fun st bp =>
  save_at st bp 2 1 FQDN_SERVER_UPDATE false (fun st bp =>
  save_at st bp 3 1 FQDN_RCODE1 false (fun st bp =>
  save_at st bp 4 1 FQDN_RCODE2 false (fun st _ => Ret (true, st))))).

Definition decode_plain (st : option_state) (buffer bp : list Z) : outcome (bool * option_state) :=
  let length := Zlen buffer in
  c ← rd buffer (length - 1);
  let length := if c =? 0 then length - 1 else length in
  bp ← (if c =? 0 then wr bp 1 1 else Ret bp);
  j ← find_dot (Z.to_nat length) buffer 3 length;
  let i := j - 3 in
  save_if (negb (i =? 0)) st bp 5 i FQDN_HOSTNAME false (fun st bp =>
  save_if (4 + i <? length) st bp (6 + i) (length - 4 - i) FQDN_DOMAINNAME true (fun st bp =>
  save_if (3 <? length) st bp 5 (length - 3) FQDN_FQDN true save_flags)).

Definition decode_encoded (st : option_state) (buffer bp : list Z) : outcome (bool * option_state) :=
  r ← read_labels (List.length buffer) bp 5 (Zlen buffer) 0 0;
  match r with
  | None => Ret (false, st)
  | Some (bp, total_len, first_len, terminated) =>
    let total_len := if 0 <? total_len then total_len - 1 else total_len in
    let first_len := if (terminated : bool) then first_len else total_len in
    save_if (0 <? first_len) st bp 6 first_len FQDN_HOSTNAME false (fun st bp =>
    save_if ((0 <? total_len) && negb (first_len =? total_len)) st bp (6 + first_len) (total_len - first_len) FQDN_DOMAINNAME true (fun st bp =>
    save_if (0 <? total_len) st bp 6 total_len FQDN_FQDN true save_flags))
  end.

Definition fqdn_universe_decode (st : option_state) (buffer : list Z) : outcome (bool * option_state) :=
  let length := Zlen buffer in
  if length <? 3 then Ret (false, st)
  else
    let '(ok, st) := alloc mem st in
    if negb ok then Ret (false, st)
    else
      bp ← memcpy (buffer_data (length + 4)) 3 (drop 1 buffer);
      flags ← rd buffer 0;
      bp ← wr bp 0 (flag (Z.testbit flags 2));
      save_at st bp 0 1 FQDN_ENCODED false (fun st bp =>
        bp ← wr bp 2 (flag (Z.testbit flags 0));
        bp ← wr bp 1 (flag (Z.testbit flags 1));
        if Z.testbit flags 2 then decode_encoded st buffer bp else decode_plain st buffer bp).

End Decode.

(** ** Encoding *)

(** The end of the label that starts at [j]. *)
Fixpoint label_end (fuel : nat) (src : list Z) (j : Z) : outcome Z :=
  match fuel with
  | O => Ret j
  | S fuel' =>
    if j <? Zlen src then c ← rd src j; if (c =? dot) || (c =? 0) then Ret j else label_end fuel' src (j + 1)
    else Ret j
  end.

(** The name [src] from [i] on, into [dst] from [out] on; [outlen] octets of
    [dstlen] are used. *)
Fixpoint encode_labels (fuel : nat) (dst : list Z) (out outlen dstlen : Z) (src : list Z) (i : Z)
  : outcome (list Z * option Z) :=
  if Zlen src <=? i then
    if dstlen <? outlen + 1 then Ret (dst, None)
    else dst ← wr dst out 0; Ret (dst, Some (outlen + 1))
  else
    match fuel with
    | O => Undef
    | S fuel' =>
      j ← label_end (Z.to_nat (Zlen src - i)) src i;
      let len := j - i in
      if dstlen <? outlen + 1 + len then Ret (dst, None)
      else
        dst ← wr dst out (u8 len);
        if len =? 0 then Ret (dst, Some (outlen + 1))
        else
          d ← memread src i len;
          dst ← memcpy dst (out + 1) d;
          encode_labels fuel' dst (out + 1 + len) (outlen + 1 + len) dstlen src (j + 1)
    end.

(** [fqdn_encode]: the number of octets, or [None] for -1. *)
Definition fqdn_encode (dst : list Z) (at_ dstlen : Z) (src : list Z) : outcome (list Z * option Z) :=
  encode_labels (List.length src) dst at_ 0 dstlen src 0.

Section Encapsulate.
Context (evaluate : option_cache -> option (list Z)) (mem : nat -> bool) (fqdn_universe : universe).

(** The values of the suboptions. *)
Definition results (l : list chain) (code : Z) : list Z :=
  fold_left (fun acc c => match c with
                          | oc :: _ => if (oc_code oc <=? FQDN_SUBOPTION_COUNT) && (oc_code oc =? code) then match evaluate oc with Some v => v | None => acc end else acc
                          | [] => acc
                          end) l [].

(** A suboption is set, and not to zero. *)
Definition is_set (v : list Z) : bool := match v with x :: _ => negb (x =? 0) | [] => false end.

Definition first_or_zero (v : list Z) : Z := match v with x :: _ => x | [] => 0 end.

Definition fqdn_option_space_encapsulate (cfg_options : option_state) : outcome (option (list Z)) :=
  if (universe_count cfg_options <=? u_index fqdn_universe)%nat then Ret None
  else match spaces cfg_options !! u_index fqdn_universe with
  | None => Ret None
  | Some t =>
    l ← rdA t 0;
    let r := results l in
    let fqdn := r FQDN_FQDN in
    if negb (mem (allocs cfg_options)) then Ret None
    else
      let len := 5 + Zlen fqdn in
      let flags := (if is_set (r FQDN_NO_CLIENT_UPDATE) then 2 else 0) + flag (is_set (r FQDN_SERVER_UPDATE)) in
      bp ← wr (buffer_data len) 0 flags;
      bp ← wr bp 1 (first_or_zero (r FQDN_RCODE1));
      bp ← wr bp 2 (first_or_zero (r FQDN_RCODE2));
      if is_set (r FQDN_ENCODED) then
        bp ← wr bp 0 (Z.lor flags 4);
        match fqdn with
        | [] => d ← memread bp 0 3; Ret (Some d)
        | _ =>
          e ← fqdn_encode bp 3 (len - 3) fqdn;
          match e with
          | (bp, Some i) => d ← memread bp 0 (3 + i); Ret (Some d)
          | (_, None) => Ret None
          end
        end
      else
        bp ← memcpy bp 3 fqdn;
        d ← memread bp 0 (3 + Zlen fqdn);
        Ret (Some d)
  end.

End Encapsulate.

(** ** Safety of the decoder *)

Lemma is_bytes_splice b at_ x : is_bytes b -> is_bytes x -> is_bytes (splice b at_ x).
Proof. intros Hb Hx. unfold splice. apply is_bytes_app. split; [by apply is_bytes_take|]. apply is_bytes_app. split; [done|by apply is_bytes_drop]. Qed.

Ltac small_code :=
  unfold FQDN_NO_CLIENT_UPDATE, FQDN_SERVER_UPDATE, FQDN_ENCODED, FQDN_RCODE1, FQDN_RCODE2, FQDN_HOSTNAME, FQDN_DOMAINNAME, FQDN_FQDN; lia.

Section Safety.
Context (find_enumeration : string -> option Z) (mem : nat -> bool) (u : universe).
Context (Hu : universe_ok find_enumeration u).

Lemma single_configured : configured find_enumeration [u].
Proof. constructor; [by intros v ->%list_elem_of_singleton|by intros v w ->%list_elem_of_singleton ->%list_elem_of_singleton]. Qed.

Lemma touched_trans st1 st2 st3 : touched u st1 st2 -> touched u st2 st3 -> touched u st1 st3.
Proof. intros [_ C1 O1] [W C2 O2]. constructor; [done|congruence|]. intros i Hi. by rewrite O2, O1. Qed.

(** A suboption is saved, and the rest follows; or there is no memory. *)
Lemma save_at_run st bp at_ len code tp next :
  state_ok u st -> 0 <= code < 256 -> 0 <= at_ -> 0 <= len -> at_ + len < Zlen bp ->
  exists st', touched u st st' /\
    ((save_at find_enumeration mem u st bp at_ len code tp next = next st' (if tp then splice bp (at_ + len) [0] else bp) /\
      ((forall n, mem n = true) -> view u st' code = [fresh find_enumeration u code (slice bp at_ len)] /\
         forall code', code' <> code -> view u st' code' = view u st code')) \/
     ((exists n, mem n = false) /\ save_at find_enumeration mem u st bp at_ len code tp next = Ret (false, st'))).
Proof.
  intros W Hc Ha Hl Hroom. unfold save_at. rewrite memread_slice by lia. cbn [mbind outcome_bind].
  assert ((if tp then wr bp (at_ + len) 0 else Ret bp) = Ret (if tp then splice bp (at_ + len) [0] else bp)) as ->
    by (destruct tp; [apply wr_splice; lia|done]).
  cbn [mbind outcome_bind].
  assert (0 <= code < 2 ^ (8 * tag_size u)) as Hc' by (destruct (ok_tag_size _ u Hu) as [->|[->| ->]]; lia).
  unfold save_option_buffer.
  destruct (prepare_option_buffer_ok find_enumeration mem [u] u st (slice bp at_ len) code Hu Hc') as (oc & st1 & -> & Hoc & W1).
  cbn [mbind outcome_bind].
  assert (touched u st st1) as T1.
  { destruct (W1 (fun _ => False)) as [A B C]. constructor; [|done|intros; apply C; tauto].
    apply A; [intros v ->%list_elem_of_singleton; done|by left]. }
  destruct Hoc as [->|[-> Hn]]; [|exists st1; split; [done|by right]].
  destruct (save_option_ok mem u st1 (fresh find_enumeration u code (slice bp at_ len)) false) as (st2 & -> & T2 & V1 & V2); [apply T1|].
  cbn [mbind outcome_bind]. rewrite fresh_code in V1, V2. exists st2. split; [by eapply touched_trans|]. left. split; [done|].
  intros Hm. split; [destruct V2 as [?|[[n Hn] _]]; [done|by rewrite Hm in Hn]|].
  intros code' Hne. rewrite V1 by done. apply view_ext; [apply T1|].
  apply (within_others _ _ _ _ (W1 (fun _ => False))). tauto.
Qed.

Definition returns (st : option_state) (r : outcome (bool * option_state)) : Prop :=
  exists b st', r = Ret (b, st') /\ touched u st st'.

Lemma save_at_safe st bp at_ len code tp next :
  state_ok u st -> 0 <= code < 256 -> 0 <= at_ -> 0 <= len -> at_ + len < Zlen bp ->
  (forall st' bp', state_ok u st' -> Zlen bp' = Zlen bp -> returns st' (next st' bp')) ->
  returns st (save_at find_enumeration mem u st bp at_ len code tp next).
Proof.
  intros W Hc Ha Hl Hroom Hnext.
  destruct (save_at_run st bp at_ len code tp next W Hc Ha Hl Hroom) as (st' & T & [[-> _]|[_ ->]]); [|by exists false, st'].
  destruct (Hnext st' (if tp then splice bp (at_ + len) [0] else bp)) as (b & st2 & -> & T2); [apply T| |].
  - destruct tp; [|done]. apply length_splice; change (Zlen [0]) with 1; lia.
  - exists b, st2. split; [done|]. by eapply touched_trans.
Qed.

Lemma save_if_safe c st bp at_ len code tp next :
  state_ok u st -> 0 <= code < 256 -> (c = true -> 0 <= at_ /\ 0 <= len /\ at_ + len < Zlen bp) ->
  (forall st' bp', state_ok u st' -> Zlen bp' = Zlen bp -> returns st' (next st' bp')) ->
  returns st (save_if find_enumeration mem u c st bp at_ len code tp next).
Proof.
  intros W Hc Hr Hnext. unfold save_if. destruct c; [|by apply Hnext]. destruct (Hr eq_refl) as (? & ? & ?). by apply save_at_safe.
Qed.

Lemma save_flags_safe st bp : state_ok u st -> 5 < Zlen bp -> returns st (save_flags find_enumeration mem u st bp).
Proof.
  intros W Hl. unfold save_flags.
  repeat (apply save_at_safe; [done|small_code|lia|lia|lia|]; clear dependent st; intros st bp' W E;
          rewrite <- E in Hl; clear dependent bp; rename bp' into bp).
  eexists _, _. split; [reflexivity|]. by apply touched_refl.
Qed.

Lemma find_dot_ok buffer length fuel : forall i,
  length <= Zlen buffer -> 0 <= i -> exists j, find_dot fuel buffer i length = Ret j /\ i <= j /\ (j <= length \/ j = i).
Proof.
  induction fuel as [|fuel IH]; intros i Hl Hi; cbn [find_dot]; [exists i; split; [done|lia]|].
  destruct (Z.ltb_spec i length) as [H|H]; [|exists i; split; [done|lia]].
  rewrite rd_in by lia. cbn [mbind outcome_bind]. destruct (_ =? dot); [exists i; split; [done|lia]|].
  destruct (IH (i + 1)) as (j & -> & ? & ?); [lia..|]. exists j. split; [done|lia].
Qed.

Lemma decode_plain_safe st buffer bp :
  state_ok u st -> 3 <= Zlen buffer -> Zlen bp = Zlen buffer + 5 -> returns st (decode_plain find_enumeration mem u st buffer bp).
Proof.
  intros W Hl Hbp. unfold decode_plain. rewrite rd_in by lia. cbn [mbind outcome_bind].
  set (c := nthZ buffer _). set (length := if c =? 0 then _ else _).
  assert (2 <= length <= Zlen buffer) as Hle by (unfold length; destruct (c =? 0); lia).
  assert (exists bp1, (if c =? 0 then wr bp 1 1 else Ret bp) = Ret bp1 /\ Zlen bp1 = Zlen bp) as (bp1 & -> & El1).
  { destruct (c =? 0); [|by exists bp]. rewrite wr_splice by lia. eexists. split; [reflexivity|]. apply length_splice; change (Zlen [1]) with 1; lia. }
  cbn [mbind outcome_bind]. destruct (find_dot_ok buffer length (Z.to_nat length) 3) as (j & -> & Hj1 & Hj2); [lia..|].
  cbn [mbind outcome_bind]. apply save_if_safe; [done|small_code| |].
  { intros H. destruct (Z.eqb_spec (j - 3) 0); [done|]. lia. }
  intros st2 bp2 W2 E2. apply save_if_safe; [done|small_code| |].
  { intros H%Z.ltb_lt. lia. }
  intros st3 bp3 W3 E3. apply save_if_safe; [done|small_code| |].
  { intros H%Z.ltb_lt. lia. }
  intros st4 bp4 W4 E4. apply save_flags_safe; [done|lia].
Qed.

Lemma read_labels_ok n fuel : forall bp s total first,
  s = 5 + total -> (first = 0 /\ total = 0) \/ 0 < first < total -> s <= n + 4 -> n + 2 - s <= Z.of_nat fuel ->
  Zlen bp = n + 5 -> is_bytes bp ->
  exists r, read_labels fuel bp s n total first = Ret r /\
    match r with
    | None => True
    | Some (bp', t, f, _) => Zlen bp' = Zlen bp /\ 5 + t <= n + 4 /\ ((f = 0 /\ t = 0) \/ 0 < f < t)
    end.
Proof.
  induction fuel as [|fuel IH]; intros bp s total first Es Hft Hs Hf Hl Hb; cbn [read_labels];
    (destruct (Z.leb_spec (n + 2) s) as [H|H]; [eexists; split; [reflexivity|]; cbn; lia|]); [lia|].
  rewrite rd_in by lia. cbn [mbind outcome_bind]. pose proof (nthZ_byte bp s Hb) as Hlen. set (len := nthZ bp s) in *.
  destruct (Z.ltb_spec 63 len); [by exists None|]. destruct (Z.eqb_spec len 0); [eexists; split; [reflexivity|]; cbn; lia|].
  destruct (Z.ltb_spec (n + 3) (s + len)); [by exists None|]. unfold is_byte in Hlen.
  rewrite wr_splice by lia. cbn [mbind outcome_bind].
  destruct (IH (splice bp s [dot]) (s + len + 1) (total + len + 1) (if first =? 0 then len else first)) as (r & E & Hr).
  - lia.
  - right. destruct (Z.eqb_spec first 0); lia.
  - lia.
  - lia.
  - rewrite length_splice by (change (Zlen [dot]) with 1; lia). done.
  - apply is_bytes_splice; [done|]. repeat constructor; unfold is_byte, dot; lia.
  - exists r. split; [exact E|]. destruct r as [[[[bp' t] f] term]|]; [|done]. destruct Hr as (E' & ?).
    rewrite E', length_splice by (change (Zlen [dot]) with 1; lia). done.
Qed.

Lemma decode_encoded_safe st buffer bp :
  state_ok u st -> 3 <= Zlen buffer -> Zlen bp = Zlen buffer + 5 -> is_bytes bp ->
  returns st (decode_encoded find_enumeration mem u st buffer bp).
Proof.
  intros W Hl Hbp Hb. unfold decode_encoded.
  destruct (read_labels_ok (Zlen buffer) (length buffer) bp 5 0 0) as (r & -> & Hr); try done; [by left|lia|unfold Zlen; lia|].
  cbn [mbind outcome_bind]. destruct r as [[[[bp1 t] f] term]|].
  2: { exists false, st. split; [done|by apply touched_refl]. }
  destruct Hr as (El & Ht & Hft). set (total := if 0 <? t then t - 1 else t). set (first := if term : bool then f else total).
  assert (0 <= first <= total /\ 5 + total < Zlen buffer + 4) as Hx.
  { unfold first, total. destruct (Z.ltb_spec 0 t), term; lia. }
  apply save_if_safe; [done|small_code|intros H%Z.ltb_lt; lia|]. intros st2 bp2 W2 E2.
  apply save_if_safe; [done|small_code|intros H; lia|]. intros st3 bp3 W3 E3.
  apply save_if_safe; [done|small_code|intros H%Z.ltb_lt; lia|]. intros st4 bp4 W4 E4.
  apply save_flags_safe; [done|lia].
Qed.

Lemma fqdn_universe_decode_ok st buffer :
  state_ok u st -> is_bytes buffer -> returns st (fqdn_universe_decode find_enumeration mem u st buffer).
Proof.
  intros W Hb. unfold fqdn_universe_decode. destruct (Z.ltb_spec (Zlen buffer) 3) as [H|H].
  { exists false, st. split; [done|by apply touched_refl]. }
  unfold alloc. set (st1 := State _ _ _). assert (touched u st st1) as T1 by (constructor; [by apply (state_ok_ext u st)|done..]).
  destruct (mem (allocs st)); cbn [negb]; [|by exists false, st1].
  assert (Zlen (buffer_data (Zlen buffer + 4)) = Zlen buffer + 5) as E0 by (unfold buffer_data, Zlen; rewrite length_replicate; lia).
  assert (Zlen (drop 1 buffer) = Zlen buffer - 1) as E1 by (unfold Zlen in *; rewrite length_drop; lia).
  rewrite memcpy_splice by lia. cbn [mbind outcome_bind]. rewrite rd_in by lia. cbn [mbind outcome_bind].
  set (b1 := splice _ 3 _). assert (Zlen b1 = Zlen buffer + 5) as El1 by (unfold b1; rewrite length_splice; lia).
  assert (is_bytes b1) as Hb1 by (apply is_bytes_splice; [apply is_bytes_replicate; unfold is_byte; lia|by apply is_bytes_drop]).
  rewrite wr_splice by lia. cbn [mbind outcome_bind]. set (flags := nthZ buffer 0).
  assert (forall b, is_bytes [flag b]) as Hflag by (intros []; constructor; unfold is_byte, flag; try lia; constructor).
  assert (forall bp i b, Zlen bp = Zlen buffer + 5 -> is_bytes bp -> 0 <= i < 5 ->
    Zlen (splice bp i [flag b]) = Zlen buffer + 5 /\ is_bytes (splice bp i [flag b])) as Hset.
  { intros bp i b ? ? ?. split; [rewrite length_splice; change (Zlen [flag b]) with 1; lia|by apply is_bytes_splice]. }
  destruct (Hset b1 0 (Z.testbit flags 2) El1 Hb1 ltac:(lia)) as [El2 Hb2]. set (b2 := splice b1 0 _) in *.
  destruct (save_at_run st1 b2 0 1 FQDN_ENCODED false (fun st bp =>
      bp ← wr bp 2 (flag (Z.testbit flags 0));
      bp ← wr bp 1 (flag (Z.testbit flags 1));
      if Z.testbit flags 2 then decode_encoded find_enumeration mem u st buffer bp else decode_plain find_enumeration mem u st buffer bp))
    as (st2 & T2 & [[-> _]|[_ ->]]); [apply T1|small_code|lia|lia|lia| |exists false, st2; split; [done|by eapply touched_trans]].
  rewrite wr_splice by lia. cbn [mbind outcome_bind].
  destruct (Hset b2 2 (Z.testbit flags 0) El2 Hb2 ltac:(lia)) as [El3 Hb3]. rewrite wr_splice by lia. cbn [mbind outcome_bind].
  destruct (Hset _ 1 (Z.testbit flags 1) El3 Hb3 ltac:(lia)) as [El4 Hb4].
  assert (returns st2 (if Z.testbit flags 2
    then decode_encoded find_enumeration mem u st2 buffer (splice (splice b2 2 [flag (Z.testbit flags 0)]) 1 [flag (Z.testbit flags 1)])
    else decode_plain find_enumeration mem u st2 buffer (splice (splice b2 2 [flag (Z.testbit flags 0)]) 1 [flag (Z.testbit flags 1)])))
    as (b & st3 & -> & T3).
  { destruct (Z.testbit flags 2); [apply decode_encoded_safe|apply decode_plain_safe]; try done; apply T2. }
  exists b, st3. split; [done|]. eapply touched_trans; [exact T1|]. by eapply touched_trans.
Qed.

End Safety.

(** ** Names *)

Definition label_ok (l : list Z) : Prop := 1 <= Zlen l <= 63 /\ is_bytes l /\ Forall (fun c => c <> dot /\ c <> 0) l.

(** The labels with their lengths, and the root label. *)
Definition prefixed (ls : list (list Z)) : list Z := concat (map (fun l => Zlen l :: l) ls).

Definition dotted (ls : list (list Z)) : list Z := concat (map (fun l => dot :: l) ls).

(** The name as a text. *)
Definition name (ls : list (list Z)) : list Z := drop 1 (dotted ls).

Lemma name_cons l ls : name (l :: ls) = l ++ dotted ls.
Proof. done. Qed.

Lemma prefixed_length ls : Zlen (prefixed ls) = Zlen (dotted ls).
Proof. unfold prefixed, dotted, Zlen. induction ls as [|l ls IH]; cbn; [done|]. rewrite !length_app. lia. Qed.

Lemma slice_mid (a x b : list Z) at_ n : at_ = Zlen a -> n = Zlen x -> slice (a ++ x ++ b) at_ n = x.
Proof.
  intros -> ->. unfold slice, Zlen. rewrite !Nat2Z.id, drop_app_length. apply take_app_length.
Qed.

Lemma splice_mid (a x y b : list Z) at_ : at_ = Zlen a -> length x = length y -> splice (a ++ x ++ b) at_ y = a ++ y ++ b.
Proof.
  intros -> E. unfold splice, Zlen. rewrite Nat2Z.id, take_app_length, <- E. do 2 f_equal.
  rewrite <- drop_drop, drop_app_length. apply drop_app_length.
Qed.

Lemma label_end_ok l : forall fuel src pre rest,
  src = pre ++ l ++ dotted rest -> Forall (fun c => c <> dot /\ c <> 0) l -> (length (l ++ dotted rest) <= fuel)%nat ->
  label_end fuel src (Zlen pre) = Ret (Zlen pre + Zlen l).
Proof.
  induction l as [|c l IH]; intros fuel src pre rest Es Hl Hf; cbn [app length] in *.
  - change (Zlen []) with 0. rewrite Z.add_0_r. destruct fuel as [|fuel]; cbn [label_end]; [done|].
    destruct (Z.ltb_spec (Zlen pre) (Zlen src)) as [H|H]; [|done]. destruct rest as [|l2 rest].
    { rewrite Es in H. cbn in H. rewrite app_nil_r in H. lia. }
    rewrite Es. unfold dotted. cbn [map concat app]. by rewrite rd_app.
  - destruct fuel as [|fuel]; [lia|]. cbn [label_end]. inversion_clear Hl as [|? ? [Hc1 Hc2] Hl'].
    assert (Zlen pre < Zlen src) as Hlt
      by (rewrite Es, Zlen_app, Zlen_cons; match goal with |- context [Zlen ?x + 1] => pose proof (Zlen_nonneg x) end; lia).
    rewrite (proj2 (Z.ltb_lt _ _) Hlt). rewrite Es at 1. rewrite rd_app. cbn [mbind outcome_bind].
    rewrite (proj2 (Z.eqb_neq _ _) Hc1), (proj2 (Z.eqb_neq _ _) Hc2). cbn [orb].
    replace (Zlen pre + 1) with (Zlen (pre ++ [c])) by (by rewrite Zlen_app).
    rewrite (IH fuel src (pre ++ [c]) rest); [|by rewrite <- app_assoc|done|lia].
    rewrite Zlen_app, (Zlen_cons c l). change (Zlen [c]) with 1. f_equal. lia.
Qed.

Lemma encode_labels_ok dstlen rest : forall fuel src pre l dst out outlen,
  src = pre ++ l ++ dotted rest -> label_ok l -> Forall label_ok rest -> 0 <= out ->
  outlen + Zlen (prefixed (l :: rest)) + 1 <= dstlen -> out + Zlen (prefixed (l :: rest)) + 1 <= Zlen dst ->
  (length rest < fuel)%nat ->
  encode_labels fuel dst out outlen dstlen src (Zlen pre) =
    Ret (splice dst out (prefixed (l :: rest) ++ [0]), Some (outlen + Zlen (prefixed (l :: rest)) + 1)).
Proof.
  pose proof (Zlen_nonneg (A := Z)) as Hnn.
  induction rest as [|l2 rest IH]; intros fuel src pre l dst out outlen Es Hl Hr Ho H1 H2 Hf.
  all: destruct fuel as [|fuel]; [cbn in Hf; lia|]; cbn [encode_labels]; destruct Hl as (Hl1 & Hl2 & Hl3).
  all: assert (Zlen pre + Zlen l <= Zlen src) as Hle
      by (rewrite Es, !Zlen_app; match goal with |- context [dotted ?x] => pose proof (Zlen_nonneg (dotted x)) end; lia).
  all: rewrite (proj2 (Z.leb_gt (Zlen src) (Zlen pre))) by lia.
  all: rewrite (label_end_ok l _ src pre _ Es Hl3) by (rewrite Es; unfold Zlen; rewrite !length_app; lia).
  all: cbn [mbind outcome_bind]; replace (Zlen pre + Zlen l - Zlen pre) with (Zlen l) by lia.
  all: set (P := prefixed _) in *; assert (P = (Zlen l :: l) ++ prefixed _) as EP by reflexivity.
  all: assert (Zlen P = Zlen l + 1 + Zlen (prefixed _)) as EPl by (rewrite EP, Zlen_app, Zlen_cons; reflexivity).
  - change (Zlen (prefixed [])) with 0 in EPl. rewrite (proj2 (Z.ltb_ge _ _)) by lia.
    rewrite wr_splice by lia. cbn [mbind outcome_bind]. rewrite (proj2 (Z.eqb_neq (Zlen l) 0)) by lia.
    rewrite memread_slice by (pose proof (Hnn pre); lia). cbn [mbind outcome_bind]. rewrite Es at 1.
    rewrite (slice_mid pre l) by done. change (out + 1) with (out + Zlen [u8 (Zlen l)]).
    rewrite memcpy_splice by (rewrite ?length_splice; change (Zlen [_]) with 1; lia). cbn [mbind outcome_bind].
    rewrite splice_splice by (change (Zlen [_]) with 1; lia). rewrite !(u8_small (Zlen l)) by (unfold is_byte; lia).
    destruct fuel; cbn [encode_labels]; rewrite (proj2 (Z.leb_le _ _)) by (rewrite Es, !Zlen_app; change (Zlen (dotted [])) with 0; lia).
    all: rewrite (proj2 (Z.ltb_ge dstlen _)) by lia.
    all: rewrite wr_splice by (rewrite ?length_splice, ?Zlen_app; change (Zlen [Zlen l]) with 1; rewrite ?Zlen_app; change (Zlen [Zlen l]) with 1; lia); cbn [mbind outcome_bind].
    all: replace (out + Zlen [Zlen l] + Zlen l) with (out + Zlen ([Zlen l] ++ l)) by (rewrite Zlen_app; lia).
    all: rewrite splice_splice by (rewrite ?Zlen_app; change (Zlen [_]) with 1; lia); rewrite EP; change (prefixed []) with (@nil Z).
    all: rewrite app_nil_r; do 2 f_equal; f_equal; rewrite (Zlen_cons (Zlen l) l); lia.
  - inversion_clear Hr as [|? ? Hl2' Hr']. pose proof (Zlen_nonneg (prefixed (l2 :: rest))).
    rewrite (proj2 (Z.ltb_ge _ _)) by lia.
    rewrite wr_splice by lia. cbn [mbind outcome_bind]. rewrite (proj2 (Z.eqb_neq (Zlen l) 0)) by lia.
    rewrite memread_slice by (pose proof (Hnn pre); lia). cbn [mbind outcome_bind]. rewrite Es at 1.
    rewrite (slice_mid pre l) by done. change (out + 1) with (out + Zlen [u8 (Zlen l)]).
    rewrite memcpy_splice by (rewrite ?length_splice; change (Zlen [_]) with 1; lia). cbn [mbind outcome_bind].
    rewrite splice_splice by (change (Zlen [_]) with 1; lia). rewrite !(u8_small (Zlen l)) by (unfold is_byte; lia).
    replace (Zlen pre + Zlen l + 1) with (Zlen (pre ++ l ++ [dot])) by (rewrite !Zlen_app; change (Zlen [dot]) with 1; lia).
    rewrite (IH fuel src (pre ++ l ++ [dot]) l2); try done; try (change (Zlen [_]) with 1; lia).
    + replace (out + Zlen [Zlen l] + Zlen l) with (out + Zlen ([Zlen l] ++ l)) by (rewrite Zlen_app; lia).
      rewrite splice_splice by (rewrite ?(Zlen_app [Zlen l] l), ?(Zlen_app (prefixed (l2 :: rest)) [0]); change (Zlen [Zlen l]) with 1; change (Zlen [0]) with 1; lia). rewrite EP.
      do 2 f_equal; [by rewrite app_assoc|]. f_equal. rewrite Zlen_app, (Zlen_cons (Zlen l) l). lia.
    + rewrite Es. unfold dotted. cbn [map concat]. by rewrite <- !app_assoc.
    + rewrite length_splice by (rewrite ?Zlen_app; change (Zlen [Zlen l]) with 1; lia). change (Zlen [Zlen l]) with 1. lia.
    + cbn in Hf. lia.
Qed.

Definition first_length (ls : list (list Z)) : Z := match ls with l :: _ => Zlen l | [] => 0 end.

Lemma read_labels_name n ls : forall fuel pre post total first,
  Forall label_ok ls -> Zlen pre + Zlen (prefixed ls) < n + 2 -> (length ls < fuel)%nat ->
  read_labels fuel (pre ++ prefixed ls ++ 0 :: post) (Zlen pre) n total first =
    Ret (Some (pre ++ dotted ls ++ 0 :: post, total + Zlen (prefixed ls), if first =? 0 then first_length ls else first, true)).
Proof.
  induction ls as [|l ls IH]; intros fuel pre post total first Hls Hn Hf; (destruct fuel as [|fuel]; [cbn in Hf; lia|]);
    cbn [read_labels].
  - change (Zlen (prefixed [])) with 0 in Hn. rewrite (proj2 (Z.leb_gt _ _)) by lia. cbn [prefixed dotted map concat app].
    rewrite rd_app. cbn [mbind outcome_bind]. change (63 <? 0) with false. change (0 =? 0) with true. cbn iota. change (Zlen []) with 0. rewrite Z.add_0_r. cbn [first_length].
    destruct (Z.eqb_spec first 0) as [->|]; done.
  - inversion_clear Hls as [|? ? (Hl1 & Hl2 & Hl3) Hls'].
    assert (prefixed (l :: ls) = Zlen l :: l ++ prefixed ls) as EP by reflexivity.
    assert (Zlen (prefixed (l :: ls)) = Zlen l + 1 + Zlen (prefixed ls)) as EPl by (rewrite EP, Zlen_cons, Zlen_app; lia).
    pose proof (Zlen_nonneg (prefixed ls)). rewrite (proj2 (Z.leb_gt _ _)) by lia. rewrite EP. cbn [app].
    rewrite rd_app. cbn [mbind outcome_bind]. rewrite (proj2 (Z.ltb_ge _ _)) by lia. rewrite (proj2 (Z.eqb_neq _ _)) by lia.
    rewrite (proj2 (Z.ltb_ge _ _)) by lia. rewrite wr_app. cbn [mbind outcome_bind].
    assert (pre ++ dot :: (l ++ prefixed ls) ++ 0 :: post = (pre ++ dot :: l) ++ prefixed ls ++ 0 :: post) as ->
      by (by rewrite <- !app_assoc).
    replace (Zlen pre + Zlen l + 1) with (Zlen (pre ++ dot :: l)) by (rewrite Zlen_app, Zlen_cons; lia).
    rewrite IH; [|done|rewrite Zlen_app, Zlen_cons; lia|cbn in Hf; lia].
    assert ((if (if first =? 0 then Zlen l else first) =? 0 then first_length ls else if first =? 0 then Zlen l else first)
            = if first =? 0 then first_length (l :: ls) else first) as ->.
    { cbn [first_length]. destruct (Z.eqb_spec first 0) as [|Hf0]; [by rewrite (proj2 (Z.eqb_neq (Zlen l) 0)) by lia|].
      by rewrite (proj2 (Z.eqb_neq first 0) Hf0). }
    assert ((pre ++ dot :: l) ++ dotted ls ++ 0 :: post = pre ++ dotted (l :: ls) ++ 0 :: post) as ->
      by (unfold dotted; cbn [map concat]; by rewrite <- !app_assoc).
    rewrite (Zlen_cons (Zlen l)), Zlen_app. do 5 f_equal. lia.
Qed.

Lemma find_dot_name l : forall fuel pre rest post n,
  Forall (fun c => c <> dot /\ c <> 0) l -> n = Zlen (pre ++ l ++ dotted rest) -> (length l < fuel)%nat ->
  find_dot fuel (pre ++ l ++ dotted rest ++ post) (Zlen pre) n = Ret (Zlen pre + Zlen l).
Proof.
  induction l as [|c l IH]; intros fuel pre rest post n Hl En Hf; (destruct fuel as [|fuel]; [lia|]); cbn [find_dot].
  - change (Zlen []) with 0. rewrite Z.add_0_r. destruct (Z.ltb_spec (Zlen pre) n) as [H|H]; [|done].
    destruct rest as [|l2 rest]; [rewrite En in H; cbn in H; rewrite app_nil_r in H; lia|].
    cbn [dotted map concat app]. by rewrite rd_app.
  - inversion_clear Hl as [|? ? [Hc _] Hl'].
    assert (Zlen pre < n) as Hlt.
    { rewrite En, !Zlen_app, Zlen_cons. pose proof (Zlen_nonneg l). pose proof (Zlen_nonneg (dotted rest)). lia. }
    rewrite (proj2 (Z.ltb_lt _ _) Hlt). cbn [app]. rewrite rd_app. cbn [mbind outcome_bind].
    rewrite (proj2 (Z.eqb_neq _ _) Hc).
    assert (pre ++ c :: l ++ dotted rest ++ post = (pre ++ [c]) ++ l ++ dotted rest ++ post) as -> by (by rewrite <- app_assoc).
    replace (Zlen pre + 1) with (Zlen (pre ++ [c])) by (by rewrite Zlen_app).
    rewrite IH; [|done|rewrite En, <- app_assoc; done|cbn in Hf; lia].
    rewrite Zlen_app, (Zlen_cons c l). change (Zlen [c]) with 1. f_equal. lia.
Qed.

(** ** The space *)

Definition fqdn_options : list (string * string * Z) :=
  [("no-client-update", "f", 1); ("server-update", "f", 2); ("encoded", "f", 3); ("rcode1", "B", 4); ("rcode2", "B", 5);
   ("hostname", "t", 6); ("domainname", "t", 7); ("fqdn", "t", 8)]%string.

(** The format of a code of a table. *)
Definition format_of (table : list (string * string * Z)) (code : Z) : option string :=
  (fun o => snd (fst (snd o))) <$> list_find (fun o => snd o = code) table.

(** Where the suboptions are kept; the third space to be set up. *)
Definition fqdn_store : universe :=
  Universe "fqdn" 2 By_list 1 1 getUChar (Some getUChar) 0 false (format_of fqdn_options) No_decoder.

Lemma format_of_elem table code format : format_of table code = Some format -> exists nm, (nm, format, code) ∈ table.
Proof.
  unfold format_of. destruct (list_find _ _) as [[i [[nm f] c]]|] eqn:E; [|done]. cbn. intros [= <-].
  apply list_find_Some in E as (E & Ec & _). cbn in Ec. subst c. exists nm. by eapply list_elem_of_lookup_2.
Qed.

(** A space with tags and lengths of one octet. *)
Lemma byte_universe_ok fe u table :
  tag_size u = 1 -> length_size u = 1 -> get_tag u = getUChar -> get_length u = Some getUChar -> code_hash u = format_of table ->
  (forall o, o ∈ table -> format_has_text (o.1.2) = true -> exists m, format_min_length fe (o.1.2) = Ret m) ->
  (forall f, decode u <> Own_decoder f) -> universe_ok fe u.
Proof.
  intros E1 E2 E3 E4 E5 Hf Hd. constructor; rewrite ?E1, ?E2, ?E3, ?E4, ?E5.
  - by left.
  - by apply getUChar_byte.
  - split; [done|]. intros l H1 H2. destruct (getUChar_byte l H1 H2) as (c & ? & ?). exists c. split; [done|lia].
  - intros code format [nm Ho]%format_of_elem Ht. by apply (Hf _ Ho).
  - intros f st buffer H. by destruct (Hd f).
Qed.

Lemma fqdn_store_ok fe : universe_ok fe fqdn_store.
Proof.
  apply (byte_universe_ok fe fqdn_store fqdn_options); try done.
  assert (Forall (fun o : string * string * Z => format_has_text (o.1.2) = true -> exists m, format_min_length fe (o.1.2) = Ret m) fqdn_options) as H.
  { repeat (constructor; [intros _; eexists; reflexivity|]). constructor. }
  intros o Ho. by eapply Forall_forall in H.
Qed.

(** ** What is sent is what is decoded *)

Section RoundTrip.
Context (find_enumeration : string -> option Z) (mem : nat -> bool) (Hm : forall n, mem n = true).

Abbreviation u := fqdn_store.
Abbreviation first_value := (fresh find_enumeration u).

Definition seen (st : option_state) (f : Z -> chain) : Prop := state_ok u st /\ forall code, view u st code = f code.

Definition upd (f : Z -> chain) (code : Z) (c : chain) (k : Z) : chain := if k =? code then c else f k.

Lemma save_step st bp at_ len code (tp : bool) next f v bp' :
  seen st f -> 0 <= code < 256 -> 0 <= at_ -> 0 <= len -> at_ + len < Zlen bp -> slice bp at_ len = v ->
  bp' = (if tp then splice bp (at_ + len) [0] else bp) ->
  exists st', save_at find_enumeration mem u st bp at_ len code tp next = next st' bp' /\ seen st' (upd f code [first_value code v]).
Proof.
  intros [W Hf] Hc Ha Hl Hroom <- ->.
  destruct (save_at_run find_enumeration mem u (fqdn_store_ok _) st bp at_ len code tp next W Hc Ha Hl Hroom)
    as (st' & T & [[E V]|[[n Hn] _]]); [|by rewrite Hm in Hn].
  exists st'. split; [done|]. destruct (V Hm) as [V1 V2]. split; [apply T|]. intros k. unfold upd.
  destruct (Z.eqb_spec k code) as [->|Hne]; [done|]. by rewrite V2, Hf.
Qed.

Definition with_flags (f : Z -> chain) (nc su r1 r2 : Z) : Z -> chain :=
  upd (upd (upd (upd f FQDN_NO_CLIENT_UPDATE [first_value FQDN_NO_CLIENT_UPDATE [nc]])
                FQDN_SERVER_UPDATE [first_value FQDN_SERVER_UPDATE [su]])
           FQDN_RCODE1 [first_value FQDN_RCODE1 [r1]])
      FQDN_RCODE2 [first_value FQDN_RCODE2 [r2]].

Lemma save_flags_step st e nc su r1 r2 rest f :
  seen st f -> 1 <= Zlen rest ->
  exists st', save_flags find_enumeration mem u st (e :: nc :: su :: r1 :: r2 :: rest) = Ret (true, st') /\
    seen st' (with_flags f nc su r1 r2).
Proof.
  intros Hs Hl. set (bp := e :: _). assert (Zlen bp = Zlen rest + 5) as Eb by (unfold bp; rewrite !Zlen_cons; lia).
  unfold save_flags.
  edestruct (save_step st bp 1 1 FQDN_NO_CLIENT_UPDATE false) as (st1 & -> & H1); [done|small_code|lia|lia|lia|reflexivity|reflexivity|].
  edestruct (save_step st1 bp 2 1 FQDN_SERVER_UPDATE false) as (st2 & -> & H2); [done|small_code|lia|lia|lia|reflexivity|reflexivity|].
  edestruct (save_step st2 bp 3 1 FQDN_RCODE1 false) as (st3 & -> & H3); [done|small_code|lia|lia|lia|reflexivity|reflexivity|].
  edestruct (save_step st3 bp 4 1 FQDN_RCODE2 false) as (st4 & -> & H4); [done|small_code|lia|lia|lia|reflexivity|reflexivity|].
  exists st4. split; [done|exact H4].
Qed.

(** The three forms of the name. *)
Definition with_name (f : Z -> chain) (host : list Z) (domain : option (list Z)) (fqdn : list Z) : Z -> chain :=
  let f := upd f FQDN_HOSTNAME [first_value FQDN_HOSTNAME host] in
  let f := match domain with Some d => upd f FQDN_DOMAINNAME [first_value FQDN_DOMAINNAME d] | None => f end in
  upd f FQDN_FQDN [first_value FQDN_FQDN fqdn].

(** The name in the buffer, from [at_] on, with a NUL behind it. *)
Lemma save_name_step st pre l rest tail (sep : bool) f next :
  seen st f -> label_ok l -> Forall label_ok rest ->
  let bp := pre ++ l ++ dotted rest ++ 0 :: tail in
  let at_ := Zlen pre in
  let k := flag (negb sep) in
  let more := match rest with [] => false | _ => true end in
  exists st',
    save_if find_enumeration mem u true st bp at_ (Zlen l) FQDN_HOSTNAME false (fun st bp =>
    save_if find_enumeration mem u more st bp (at_ + Zlen l + k) (Zlen (dotted rest) - k) FQDN_DOMAINNAME true (fun st bp =>
    save_if find_enumeration mem u true st bp at_ (Zlen (l ++ dotted rest)) FQDN_FQDN true next)) = next st' bp /\
    seen st' (with_name f l (if more then Some (if sep then dotted rest else name rest) else None) (l ++ dotted rest)).
Proof.
  intros Hs (Hl & _) Hr bp at_ k more. pose proof (Zlen_nonneg pre). pose proof (Zlen_nonneg (dotted rest)). pose proof (Zlen_nonneg tail).
  assert (Zlen bp = at_ + Zlen l + Zlen (dotted rest) + 1 + Zlen tail) as Eb by (unfold bp, at_; rewrite !Zlen_app, Zlen_cons; lia).
  assert (forall p, p = Zlen (pre ++ l ++ dotted rest) -> splice bp p [0] = bp) as Hsp.
  { intros p ->. unfold bp. rewrite !(app_assoc _ _ (0 :: tail)), (app_assoc pre). change (0 :: tail) with ([0] ++ tail).
    rewrite <- (app_assoc pre). apply splice_mid; done. }
  unfold save_if. edestruct (save_step st bp at_ (Zlen l) FQDN_HOSTNAME false) as (st1 & -> & Hs1);
    [done|small_code|unfold at_; lia|lia|lia|by apply slice_mid|reflexivity|].
  assert (exists st2, (if more then save_at find_enumeration mem u st1 bp (at_ + Zlen l + k) (Zlen (dotted rest) - k) FQDN_DOMAINNAME true
            (fun st bp => save_at find_enumeration mem u st bp at_ (Zlen (l ++ dotted rest)) FQDN_FQDN true next)
          else save_at find_enumeration mem u st1 bp at_ (Zlen (l ++ dotted rest)) FQDN_FQDN true next)
        = save_at find_enumeration mem u st2 bp at_ (Zlen (l ++ dotted rest)) FQDN_FQDN true next /\
      seen st2 (match (if more then Some (if sep then dotted rest else name rest) else None) with
                | Some d => upd (upd f FQDN_HOSTNAME [first_value FQDN_HOSTNAME l]) FQDN_DOMAINNAME [first_value FQDN_DOMAINNAME d]
                | None => upd f FQDN_HOSTNAME [first_value FQDN_HOSTNAME l] end)) as (st2 & -> & H2).
  { unfold more in *. destruct rest as [|l2 rest]; [by exists st1|].
    assert (1 <= Zlen (dotted (l2 :: rest))) as Hd by (unfold dotted; cbn [map concat app]; rewrite Zlen_cons; match goal with |- context [Zlen ?x + 1] => pose proof (Zlen_nonneg x) end; lia).
    assert (0 <= k <= 1) as Hk by (unfold k; destruct sep; cbn; lia).
    destruct (save_step st1 bp (at_ + Zlen l + k) (Zlen (dotted (l2 :: rest)) - k) FQDN_DOMAINNAME true
                (fun st bp => save_at find_enumeration mem u st bp at_ (Zlen (l ++ dotted (l2 :: rest))) FQDN_FQDN true next)
                _ (if sep then dotted (l2 :: rest) else name (l2 :: rest)) bp Hs1) as (st2 & E & H2); [small_code|unfold at_; lia|lia|lia| | |by exists st2].
    - unfold at_, bp, k. destruct sep; cbn [negb flag].
      + rewrite Z.add_0_r, Z.sub_0_r, app_assoc. apply slice_mid; [by rewrite Zlen_app|done].
      + change (name (l2 :: rest)) with (l2 ++ dotted rest). change (dotted (l2 :: rest)) with ([dot] ++ (l2 ++ dotted rest)). rewrite <- !(app_assoc [dot]), (app_assoc l), (app_assoc pre).
        apply slice_mid; [rewrite !Zlen_app; change (Zlen [dot]) with 1; lia|]. rewrite (Zlen_app [dot]). change (Zlen [dot]) with 1. lia.
    - symmetry. apply Hsp. rewrite !Zlen_app. unfold at_. lia. }
  edestruct (save_step st2 bp at_ (Zlen (l ++ dotted rest)) FQDN_FQDN true) as (st3 & -> & H3);
    [exact H2|small_code|unfold at_; lia|apply Zlen_nonneg|rewrite Zlen_app; lia|unfold bp; rewrite (app_assoc l); by apply slice_mid|reflexivity|].
  rewrite Hsp by (rewrite !Zlen_app; unfold at_; lia). exists st3. split; [done|]. unfold with_name. exact H3.
Qed.

Lemma decode_encoded_step st h0 h1 h2 h3 h4 fl r1 r2 l rest f :
  seen st f -> label_ok l -> Forall label_ok rest ->
  let bp := [h0; h1; h2; h3; h4] ++ prefixed (l :: rest) ++ 0 :: [0; 0; 0] in
  exists st', decode_encoded find_enumeration mem u st (fl :: r1 :: r2 :: prefixed (l :: rest) ++ [0]) bp = Ret (true, st') /\
    seen st' (with_flags (with_name f l (match rest with [] => None | _ => Some (dotted rest) end) (name (l :: rest))) h1 h2 h3 h4).
Proof.
  intros Hs Hl Hr bp. unfold decode_encoded, bp. change 5 with (Zlen [h0; h1; h2; h3; h4]).
  assert (Zlen (prefixed (l :: rest)) = 1 + Zlen l + Zlen (dotted rest)) as EP.
  { rewrite prefixed_length. unfold dotted. cbn [map concat app]. rewrite Zlen_cons, Zlen_app. lia. }
  pose proof (Zlen_nonneg (dotted rest)).
  rewrite read_labels_name; [|by constructor| |].
  2: { rewrite !Zlen_cons, Zlen_app. change (Zlen []) with 0. change (Zlen [0]) with 1. lia. }
  2: { cbn [length]. rewrite length_app. assert (length rest <= length (dotted rest))%nat.
       { unfold dotted. clear. induction rest as [|l2 rest IH]; cbn; [lia|]. rewrite length_app. lia. }
       unfold Zlen in EP. cbn [length]. destruct Hl as (Hl1 & _). unfold Zlen in Hl1. lia. }
  cbn [mbind outcome_bind]. change (0 =? 0) with true. cbn beta iota zeta. cbn [first_length]. rewrite Z.add_0_l, EP. destruct Hl as (Hl1 & Hl2).
  rewrite (proj2 (Z.ltb_lt 0 (1 + Zlen l + Zlen (dotted rest)))) by lia. replace (1 + Zlen l + Zlen (dotted rest) - 1) with (Zlen l + Zlen (dotted rest)) by lia.
  rewrite (proj2 (Z.ltb_lt 0 (Zlen l))), (proj2 (Z.ltb_lt 0 (Zlen l + _))) by lia. cbn [andb].
  assert ([h0; h1; h2; h3; h4] ++ dotted (l :: rest) ++ 0 :: [0; 0; 0] = ([h0; h1; h2; h3; h4; dot]) ++ l ++ dotted rest ++ 0 :: [0; 0; 0]) as ->
    by (unfold dotted; cbn [map concat app]; by rewrite <- !app_assoc).
  destruct (save_name_step st [h0; h1; h2; h3; h4; dot] l rest [0; 0; 0] true f (save_flags find_enumeration mem u) Hs ltac:(done) Hr) as (st1 & E & H1).
  cbn [negb flag] in E. rewrite Zlen_app, Z.add_0_r, Z.sub_0_r in E. change (Zlen [h0; h1; h2; h3; h4; dot]) with 6 in E.
  assert (negb (Zlen l =? Zlen l + Zlen (dotted rest)) = match rest with [] => false | _ => true end) as ->.
  { destruct rest as [|l2 rest]; [change (Zlen (dotted [])) with 0; by rewrite Z.add_0_r, Z.eqb_refl|].
    rewrite (proj2 (Z.eqb_neq _ _)); [done|]. unfold dotted. cbn [map concat app]. rewrite Zlen_cons.
    match goal with |- context [Zlen ?x + 1] => pose proof (Zlen_nonneg x) end. lia. }
  replace (Zlen l + Zlen (dotted rest) - Zlen l) with (Zlen (dotted rest)) by lia. rewrite E.
  cbn [app]. destruct (save_flags_step st1 h0 h1 h2 h3 h4 (dot :: l ++ dotted rest ++ [0; 0; 0; 0]) _ H1) as (st2 & -> & H2).
  { rewrite Zlen_cons. match goal with |- context [Zlen ?x + 1] => pose proof (Zlen_nonneg x) end. lia. }
  exists st2. split; [done|]. by destruct rest.
Qed.

Lemma decode_plain_step st h0 h1 h2 h3 h4 fl r1 r2 l rest f :
  seen st f -> label_ok l -> Forall label_ok rest ->
  let bp := [h0; h1; h2; h3; h4] ++ name (l :: rest) ++ 0 :: [0; 0] in
  exists st', decode_plain find_enumeration mem u st (fl :: r1 :: r2 :: name (l :: rest)) bp = Ret (true, st') /\
    seen st' (with_flags (with_name f l (match rest with [] => None | _ => Some (name rest) end) (name (l :: rest))) h1 h2 h3 h4).
Proof.
  intros Hs Hl Hr bp. unfold decode_plain, bp. rewrite name_cons.
  set (buffer := fl :: _). assert (Zlen buffer = 3 + Zlen l + Zlen (dotted rest)) as Eb by (unfold buffer; rewrite !Zlen_cons, Zlen_app; lia).
  pose proof (Zlen_nonneg (dotted rest)). pose proof Hl as (Hl1 & Hl2 & Hl3).
  assert (exists x c, l ++ dotted rest = x ++ [c] /\ c <> 0) as (x & c & Ex & Hc).
  { assert (Forall (fun c => c <> 0) (l ++ dotted rest)) as Hnz.
    { apply Forall_app. split; [eapply Forall_impl; [exact Hl3|]; by intros ? []|]. unfold dotted. clear -Hr.
      induction Hr as [|l2 rest (_ & _ & H3) _ IH]; cbn; [constructor|]. constructor; [done|]. apply Forall_app.
      split; [eapply Forall_impl; [exact H3|]; by intros ? []|done]. }
    destruct (@exists_last _ (l ++ dotted rest)) as (y & c0 & Ey); [destruct l; [change (Zlen []) with 0 in Hl1; lia|done]|].
    rewrite Ey in Hnz |- *.
    exists y, c0. split; [done|]. apply Forall_app in Hnz as [_ Hnz]. by inversion_clear Hnz. }
  assert (rd buffer (Zlen buffer - 1) = Ret c) as ->.
  { assert (Zlen buffer - 1 = Zlen (fl :: r1 :: r2 :: x)) as ->.
    { unfold buffer. rewrite Ex, !Zlen_cons, Zlen_app. change (Zlen [c]) with 1. lia. }
    unfold buffer. rewrite Ex. apply (rd_app (fl :: r1 :: r2 :: x)). }
  cbn [mbind outcome_bind]. rewrite (proj2 (Z.eqb_neq c 0) Hc). cbn [mbind outcome_bind].
  pose proof (find_dot_name l (Z.to_nat (Zlen buffer)) [fl; r1; r2] rest [] (Zlen buffer) Hl3) as Efd.
  rewrite app_nil_r in Efd. change ([fl; r1; r2] ++ l ++ dotted rest) with buffer in Efd. change (Zlen [fl; r1; r2]) with 3 in Efd.
  rewrite Efd by (done || (unfold Zlen in *; lia)). cbn [mbind outcome_bind].
  replace (3 + Zlen l - 3) with (Zlen l) by lia. rewrite (proj2 (Z.eqb_neq (Zlen l) 0)) by lia. cbn [negb].
  rewrite (proj2 (Z.ltb_lt 3 _)) by lia.
  destruct (save_name_step st [h0; h1; h2; h3; h4] l rest [0; 0] false f (save_flags find_enumeration mem u) Hs Hl Hr) as (st1 & E & H1).
  cbn [negb flag] in E. change (Zlen [h0; h1; h2; h3; h4]) with 5 in E.
  assert (4 + Zlen l <? Zlen buffer = match rest with [] => false | _ => true end) as ->.
  { rewrite Eb. destruct rest as [|l2 rest]; [change (Zlen (dotted [])) with 0; apply Z.ltb_ge; lia|]. inversion_clear Hr as [|? ? (H2 & _) _].
    apply Z.ltb_lt. unfold dotted. cbn [map concat app]. rewrite Zlen_cons, Zlen_app.
    match goal with |- context [Zlen l2 + Zlen ?x] => pose proof (Zlen_nonneg x) end. lia. }
  replace (6 + Zlen l) with (5 + Zlen l + 1) by lia. replace (Zlen buffer - 4 - Zlen l) with (Zlen (dotted rest) - 1) by lia.
  replace (Zlen buffer - 3) with (Zlen (l ++ dotted rest)) by (rewrite Zlen_app; lia). rewrite <- app_assoc, E.
  cbn [app]. destruct (save_flags_step st1 h0 h1 h2 h3 h4 (l ++ dotted rest ++ [0; 0; 0]) _ H1) as (st2 & -> & H2).
  { rewrite Zlen_app. match goal with |- context [Zlen l + Zlen ?x] => pose proof (Zlen_nonneg x) end. lia. }
  exists st2. split; [done|]. by destruct rest.
Qed.

Lemma decode_start st fl r1 r2 body f :
  seen st f ->
  let e := Z.testbit fl 2 in
  let bp := [flag e; flag (Z.testbit fl 1); flag (Z.testbit fl 0); r1; r2] ++ body ++ [0; 0; 0] in
  exists st1, seen st1 (upd f FQDN_ENCODED [first_value FQDN_ENCODED [flag e]]) /\
    fqdn_universe_decode find_enumeration mem u st (fl :: r1 :: r2 :: body) =
      if e then decode_encoded find_enumeration mem u st1 (fl :: r1 :: r2 :: body) bp
      else decode_plain find_enumeration mem u st1 (fl :: r1 :: r2 :: body) bp.
Proof.
  intros [W Hf] e bp. unfold fqdn_universe_decode. pose proof (Zlen_nonneg body).
  assert (Zlen (fl :: r1 :: r2 :: body) = Zlen body + 3) as El by (rewrite !Zlen_cons; lia). rewrite El.
  rewrite (proj2 (Z.ltb_ge _ _)) by lia. unfold alloc. rewrite Hm. cbn [negb]. set (st0 := State _ _ _).
  assert (buffer_data (Zlen body + 3 + 4) = [0; 0; 0] ++ replicate (length (r1 :: r2 :: body)) 0 ++ [0; 0; 0]) as ->.
  { unfold buffer_data. change [0; 0; 0] with (replicate 3 0). rewrite <- !replicate_add. f_equal. unfold Zlen. cbn [length]. lia. }
  cbn [drop]. rewrite memcpy_splice by (lia || (rewrite !Zlen_app; unfold Zlen; rewrite length_replicate; cbn [length]; lia)).
  rewrite splice_mid by (done || by rewrite length_replicate). cbn [mbind outcome_bind app].
  change (rd (fl :: r1 :: r2 :: body) 0) with (Ret fl). cbn [mbind outcome_bind]. fold e.
  rewrite wr_splice by (rewrite !Zlen_cons; match goal with |- context [Zlen ?x + 1] => pose proof (Zlen_nonneg x) end; lia). cbn [mbind outcome_bind].
  set (b2 := splice _ 0 [flag e]). assert (b2 = flag e :: 0 :: 0 :: r1 :: r2 :: body ++ [0; 0; 0]) as E2 by reflexivity.
  edestruct (save_step st0 b2 0 1 FQDN_ENCODED false) as (st1 & -> & H1);
    [split; [by apply (state_ok_ext u st)|intros code; rewrite <- Hf; by apply view_ext]|small_code|lia|lia| |by rewrite E2|reflexivity|].
  { rewrite E2, !Zlen_cons. match goal with |- context [Zlen ?x + 1] => pose proof (Zlen_nonneg x) end. lia. }
  exists st1. split; [exact H1|]. rewrite E2.
  assert (forall a b c x i v, 0 <= i < 3 -> wr (a :: b :: c :: r1 :: x) i v = Ret (splice (a :: b :: c :: r1 :: x) i [v])) as Hwr.
  { intros. apply wr_splice. rewrite !Zlen_cons. match goal with |- context [Zlen ?x + 1] => pose proof (Zlen_nonneg x) end. lia. }
  rewrite Hwr by lia. cbn [mbind outcome_bind].
  change (splice (flag e :: 0 :: 0 :: r1 :: r2 :: body ++ [0; 0; 0]) 2 [flag (Z.testbit fl 0)])
    with (flag e :: 0 :: flag (Z.testbit fl 0) :: r1 :: r2 :: body ++ [0; 0; 0]).
  rewrite Hwr by lia. done.
Qed.

(** The value that the suboptions make up. *)
Lemma encapsulate_ok evaluate cfg_options t lst l rest :
  (u_index u < universe_count cfg_options)%nat -> spaces cfg_options !! u_index u = Some t -> rdA t 0 = Ret lst ->
  results evaluate lst FQDN_FQDN = name (l :: rest) -> label_ok l -> Forall label_ok rest ->
  let r := results evaluate lst in
  let e := is_set (r FQDN_ENCODED) in
  let fl := (if is_set (r FQDN_NO_CLIENT_UPDATE) then 2 else 0) + flag (is_set (r FQDN_SERVER_UPDATE)) in
  fqdn_option_space_encapsulate evaluate mem u cfg_options =
    Ret (Some ((if e then Z.lor fl 4 else fl) :: first_or_zero (r FQDN_RCODE1) :: first_or_zero (r FQDN_RCODE2)
               :: (if e then prefixed (l :: rest) ++ [0] else name (l :: rest)))).
Proof.
  intros Hi Ht Hl En Hlab Hr r e fl. unfold fqdn_option_space_encapsulate. rewrite (proj2 (Nat.leb_gt _ _) Hi), Ht, Hl.
  cbn [mbind outcome_bind]. cbv zeta. fold r. fold e fl. change (results evaluate lst FQDN_FQDN) with (r FQDN_FQDN) in En. rewrite En, Hm. cbn [negb].
  set (nm := name (l :: rest)). set (r1 := first_or_zero (r FQDN_RCODE1)). set (r2 := first_or_zero (r FQDN_RCODE2)).
  assert (Zlen (prefixed (l :: rest)) = Zlen nm + 1) as EP.
  { rewrite prefixed_length. unfold nm. rewrite name_cons. unfold dotted. cbn [map concat app]. rewrite Zlen_cons. lia. }
  assert (1 <= Zlen nm) as Hn1.
  { unfold nm. rewrite name_cons, Zlen_app. pose proof (Zlen_nonneg (dotted rest)). destruct Hlab as (? & _). lia. }
  assert (buffer_data (5 + Zlen nm) = 0 :: 0 :: 0 :: replicate (length nm + 3) 0) as ->.
  { unfold buffer_data. change (0 :: 0 :: 0 :: replicate (length nm + 3) 0) with (replicate (S (S (S (length nm + 3)))) 0). f_equal. unfold Zlen. lia. }
  set (z := replicate _ 0). assert (Zlen z = Zlen nm + 3) as Ez by (unfold z, Zlen; rewrite length_replicate; lia).
  assert (forall a b c i v, 0 <= i < 3 -> wr (a :: b :: c :: z) i v = Ret (splice (a :: b :: c :: z) i [v])) as Hwr.
  { intros. apply wr_splice. rewrite !Zlen_cons. lia. }
  rewrite Hwr by lia. cbn [mbind outcome_bind]. change (splice (0 :: 0 :: 0 :: z) 0 [fl]) with (fl :: 0 :: 0 :: z).
  rewrite Hwr by lia. cbn [mbind outcome_bind]. change (splice (fl :: 0 :: 0 :: z) 1 [r1]) with (fl :: r1 :: 0 :: z).
  rewrite Hwr by lia. cbn [mbind outcome_bind]. change (splice (fl :: r1 :: 0 :: z) 2 [r2]) with (fl :: r1 :: r2 :: z).
  assert (forall fl' x, Zlen x <= Zlen z -> memread (splice (fl' :: r1 :: r2 :: z) 3 x) 0 (3 + Zlen x) = Ret (fl' :: r1 :: r2 :: x)) as Hread.
  { intros fl' x Hx. pose proof (Zlen_nonneg x).
    rewrite memread_slice by (rewrite ?length_splice, ?Zlen_cons; rewrite ?Zlen_cons; lia).
    rewrite slice_prefix_grow by (rewrite ?Zlen_cons; lia). done. }
  destruct e.
  - rewrite Hwr by lia. cbn [mbind outcome_bind]. change (splice (fl :: r1 :: r2 :: z) 0 [Z.lor fl 4]) with (Z.lor fl 4 :: r1 :: r2 :: z).
    destruct nm as [|c nm'] eqn:Enm; [change (Zlen []) with 0 in Hn1; lia|]. rewrite <- Enm in *. unfold fqdn_encode.
    rewrite (encode_labels_ok (5 + Zlen nm - 3) rest (length nm) nm [] l); try done; try lia.
    + cbn [mbind outcome_bind]. pose proof (Hread (Z.lor fl 4) (prefixed (l :: rest) ++ [0])) as Hx.
      rewrite Zlen_app in Hx. change (Zlen [0]) with 1 in Hx. rewrite Z.add_assoc in Hx.
      rewrite Z.add_0_l, Z.add_assoc, Hx by lia. done.
    + rewrite !Zlen_cons. lia.
    + assert (length rest <= length (dotted rest))%nat.
      { unfold dotted. clear. induction rest as [|l2 rest IH]; cbn; [lia|]. rewrite length_app. lia. }
      unfold nm. rewrite name_cons, length_app. destruct Hlab as (Hl1 & _). unfold Zlen in Hl1. lia.
  - rewrite memcpy_splice by (rewrite ?Zlen_cons; lia). cbn [mbind outcome_bind]. by rewrite Hread by lia.
Qed.

(** The suboptions of a name: as the sender set them, with the host name, the
    domain and the flags derived. *)
Definition suboptions (e nc su : bool) (r1 r2 : Z) (l : list Z) (rest : list (list Z)) (code : Z) : option (list Z) :=
  if code =? FQDN_NO_CLIENT_UPDATE then Some [flag nc]
  else if code =? FQDN_SERVER_UPDATE then Some [flag su]
  else if code =? FQDN_ENCODED then Some [flag e]
  else if code =? FQDN_RCODE1 then Some [r1]
  else if code =? FQDN_RCODE2 then Some [r2]
  else if code =? FQDN_HOSTNAME then Some l
  else if code =? FQDN_DOMAINNAME then
    match rest with [] => None | _ => Some (if e then dotted rest else name rest) end
  else if code =? FQDN_FQDN then Some (name (l :: rest))
  else None.

Lemma label_last l x : label_ok l -> last (x ++ l) <> Some 0.
Proof.
  intros (H1 & _ & H3) (y & E)%last_Some. destruct (@exists_last _ l) as (l' & c & ->); [intros ->; change (Zlen []) with 0 in H1; lia|].
  rewrite app_assoc in E. apply app_inj_tail in E as [_ ->]. apply Forall_app in H3 as [_ H3]. by inversion_clear H3 as [|? ? []].
Qed.

Lemma dotted_last x rest : Forall label_ok rest -> last x <> Some 0 -> last (x ++ dotted rest) <> Some 0.
Proof.
  revert x. induction rest as [|l rest IH]; intros x Hr Hx; [by cbn; rewrite app_nil_r|]. inversion_clear Hr as [|? ? Hl Hr'].
  change (dotted (l :: rest)) with ((dot :: l) ++ dotted rest). rewrite app_assoc. apply IH; [done|].
  change (dot :: l) with ([dot] ++ l). rewrite app_assoc. by apply label_last.
Qed.

(** C21: A name given as a text is sent, in either form, and decoded to the same name, flags
    and response codes. (In the encoded form the domain is decoded with the dot in front of
    it, in the plain form without.)  Memory is available. *)
Theorem fqdn_roundtrip evaluate cfg_options t lst l rest st :
  (u_index u < universe_count cfg_options)%nat -> spaces cfg_options !! u_index u = Some t -> rdA t 0 = Ret lst ->
  results evaluate lst FQDN_FQDN = name (l :: rest) -> label_ok l -> Forall label_ok rest ->
  state_ok u st -> spaces st !! u_index u = None ->
  let r := results evaluate lst in
  exists data st',
    fqdn_option_space_encapsulate evaluate mem u cfg_options = Ret (Some data) /\
    fqdn_universe_decode find_enumeration mem u st data = Ret (true, st') /\
    forall code, delivered u st' code =
      suboptions (is_set (r FQDN_ENCODED)) (is_set (r FQDN_NO_CLIENT_UPDATE)) (is_set (r FQDN_SERVER_UPDATE))
        (first_or_zero (r FQDN_RCODE1)) (first_or_zero (r FQDN_RCODE2)) l rest code.
Proof.
  intros Hi Ht Hl En Hlab Hr W Hnone r. pose proof (encapsulate_ok evaluate cfg_options t lst l rest Hi Ht Hl En Hlab Hr) as Ee.
  cbv zeta in Ee. fold r in Ee. set (e := is_set (r FQDN_ENCODED)) in *. set (nc := is_set (r FQDN_NO_CLIENT_UPDATE)) in *.
  set (su := is_set (r FQDN_SERVER_UPDATE)) in *. set (r1 := first_or_zero (r FQDN_RCODE1)) in *. set (r2 := first_or_zero (r FQDN_RCODE2)) in *.
  set (fl := if e then _ else _) in Ee.
  assert (Z.testbit fl 2 = e /\ Z.testbit fl 1 = nc /\ Z.testbit fl 0 = su) as (T2 & T1 & T0) by (unfold fl; by destruct e, nc, su).
  clearbody e nc su r1 r2 fl.
  destruct (decode_start st fl r1 r2 (if e then prefixed (l :: rest) ++ [0] else name (l :: rest)) (fun _ => [])) as (st1 & H1 & Ed).
  { split; [done|]. intros code. unfold view. by rewrite lookup_option_none. }
  rewrite T2, T1, T0 in Ed. rewrite T2 in H1.
  assert (exists st', fqdn_universe_decode find_enumeration mem u st (fl :: r1 :: r2 :: (if e then prefixed (l :: rest) ++ [0] else name (l :: rest)))
            = Ret (true, st') /\
    seen st' (with_flags (with_name (upd (fun _ => []) FQDN_ENCODED [first_value FQDN_ENCODED [flag e]]) l
      (match rest with [] => None | _ => Some (if e then dotted rest else name rest) end) (name (l :: rest))) (flag nc) (flag su) r1 r2))
    as (st' & E' & [_ Hv]).
  { rewrite Ed. destruct e.
    - rewrite <- app_assoc. by apply decode_encoded_step.
    - by apply decode_plain_step. }
  eexists _, st'. split; [exact Ee|]. split; [done|]. intros code. unfold delivered. rewrite Hv.
  assert (forall c v, c <= 5 \/ last v <> Some 0 -> oc_data (first_value c v) = v) as Hfresh.
  { intros c v Hcv. apply fresh_plain. intros Htext. destruct Hcv as [Hc5|?]; [|done]. exfalso. revert Htext.
    cbn [code_hash fqdn_store]. destruct (format_of fqdn_options c) as [fm|] eqn:Ef; [|done]. apply format_of_elem in Ef as [nm Ho].
    unfold fqdn_options in Ho. repeat (apply elem_of_cons in Ho as [[= -> -> ->]|Ho]; [done || lia|]). by apply elem_of_nil in Ho. }
  assert (last l <> Some 0) as HL1 by (apply (label_last l []); done).
  assert (last (dotted rest) <> Some 0) as HL2 by (by apply (dotted_last [] rest)).
  assert (last (name (l :: rest)) <> Some 0) as HL3 by (rewrite name_cons; by apply dotted_last).
  assert (last (name rest) <> Some 0) as HL4.
  { destruct rest as [|l2 rest]; [done|]. inversion_clear Hr. rewrite name_cons. apply dotted_last; [done|]. by apply (label_last l2 []). }
  unfold suboptions, with_flags, with_name, upd. destruct rest as [|l2 rest]; cbv beta iota zeta.
  all: repeat match goal with |- context [?a =? ?b] => is_var a; destruct (Z.eqb_spec a b) as [->|?] end; try done.
  all: repeat match goal with |- context [FQDN_ENCODED =? ?b] => change (FQDN_ENCODED =? b) with false; cbv iota end.
  all: cbn -[name dotted]; rewrite Hfresh; try done; try (by right); try (by left). right. by destruct e.
Qed.

End RoundTrip.

(** ** Examples *)

Definition host_example : list (list Z) := [octets "host"; octets "example"].

Definition example_suboptions : option_state :=
  State 3 {[2%nat := [[[Cache 8 "t" (octets "host.example") false]; [Cache 3 "f" [1] false]; [Cache 2 "f" [1] false]; [Cache 4 "B" [255] false]]]]} 0.

Lemma label_ok_dec l : bool_decide (1 <= Zlen l <= 63 /\ is_bytes l /\ Forall (fun c => c <> dot /\ c <> 0) l) = true -> label_ok l.
Proof. apply bool_decide_eq_true. Qed.

Lemma fqdn_roundtrip_witness :
  exists data st',
    fqdn_option_space_encapsulate (fun oc => Some (oc_data oc)) (fun _ => true) fqdn_store example_suboptions = Ret (Some data) /\
    fqdn_universe_decode (fun _ => None) (fun _ => true) fqdn_store (State 3 ∅ 0) data = Ret (true, st') /\
    delivered fqdn_store st' FQDN_FQDN = Some (octets "host.example") /\ delivered fqdn_store st' FQDN_DOMAINNAME = Some (octets ".example").
Proof.
  destruct (fqdn_roundtrip (fun _ => None) (fun _ => true) (fun _ => eq_refl) (fun oc => Some (oc_data oc)) example_suboptions
              [[[Cache 8 "t" (octets "host.example") false]; [Cache 3 "f" [1] false]; [Cache 2 "f" [1] false]; [Cache 4 "B" [255] false]]]
              [[Cache 8 "t" (octets "host.example") false]; [Cache 3 "f" [1] false]; [Cache 2 "f" [1] false]; [Cache 4 "B" [255] false]]
              (octets "host") [octets "example"] (State 3 ∅ 0)) as (data & st' & E1 & E2 & Hd).
  - cbn. lia.
  - reflexivity.
  - reflexivity.
  - reflexivity.
  - by apply label_ok_dec.
  - constructor; [by apply label_ok_dec|constructor].
  - constructor; [cbn; lia|done].
  - done.
  - exists data, st'. split; [done|]. split; [done|]. split; [exact (Hd FQDN_FQDN)|exact (Hd FQDN_DOMAINNAME)].
Defined.

(** A name with a NUL behind it is taken to forbid the client its update. *)
Example nul_sets_no_client_update :
  match fqdn_universe_decode (fun _ => None) (fun _ => true) fqdn_store (State 3 ∅ 0) ([0; 0; 0] ++ octets "host" ++ [0]) with
  | Ret (true, st) => delivered fqdn_store st FQDN_NO_CLIENT_UPDATE = Some [1]
  | _ => False
  end.
Proof. by vm_compute. Qed.

(** A label may be two octets longer than the option. *)
Example label_beyond_the_option :
  match fqdn_universe_decode (fun _ => None) (fun _ => true) fqdn_store (State 3 ∅ 0) [4; 0; 0; 5; 97; 98; 99] with
  | Ret (true, st) => delivered fqdn_store st FQDN_FQDN = Some [97; 98; 99]
  | _ => False
  end.
Proof. by vm_compute. Qed.

End Fqdn.
