(* ===== verification/OptionSpaces.v ===== *)
(** * Option spaces (common/tables.c, server/stables.c, common/options.c)

    The option spaces of DHCPv4 with their tables of options, and the functions
    that make the value of an option from the options of the space it encloses:
    [hashed_option_space_encapsulate], [linked_option_space_encapsulate],
    [nwip_option_space_encapsulate] and [option_space_encapsulate].

    The spaces of DHCPv6, which no DHCPv4 option names, and those that a
    configuration defines are not in the list. *)

From Stdlib Require Import ZArith Lia Ascii String.
From stdpp Require Import base list numbers option gmap fin_maps.
From S2P Require Import Prelude.
From S2P Require Import Options.
From S2P Require Import OptionStore.
From S2P Require Import OptionReply.
From S2P Require Import Fqdn.
#[local] Open Scope Z_scope.

Module OptionSpaces.

Export Fqdn.

Abbreviation chain := (list option_cache).

(** ** Tables *)

Definition dhcp_options : list (string * string * Z) :=
  [("subnet-mask", "I", 1); ("time-offset", "l", 2); ("routers", "IA", 3); ("time-servers", "IA", 4);
   ("ien116-name-servers", "IA", 5); ("domain-name-servers", "IA", 6); ("log-servers", "IA", 7);
   ("cookie-servers", "IA", 8); ("lpr-servers", "IA", 9); ("impress-servers", "IA", 10);
   ("resource-location-servers", "IA", 11); ("host-name", "t", 12); ("boot-size", "S", 13); ("merit-dump", "t", 14);
   ("domain-name", "t", 15); ("swap-server", "I", 16); ("root-path", "t", 17); ("extensions-path", "t", 18);
   ("ip-forwarding", "f", 19); ("non-local-source-routing", "f", 20); ("policy-filter", "IIA", 21);
   ("max-dgram-reassembly", "S", 22); ("default-ip-ttl", "B", 23); ("path-mtu-aging-timeout", "L", 24);
   ("path-mtu-plateau-table", "SA", 25); ("interface-mtu", "S", 26); ("all-subnets-local", "f", 27);
   ("broadcast-address", "I", 28); ("perform-mask-discovery", "f", 29); ("mask-supplier", "f", 30);
   ("router-discovery", "f", 31); ("router-solicitation-address", "I", 32); ("static-routes", "IIA", 33);
   ("trailer-encapsulation", "f", 34); ("arp-cache-timeout", "L", 35); ("ieee802-3-encapsulation", "f", 36);
   ("default-tcp-ttl", "B", 37); ("tcp-keepalive-interval", "L", 38); ("tcp-keepalive-garbage", "f", 39);
   ("nis-domain", "t", 40); ("nis-servers", "IA", 41); ("ntp-servers", "IA", 42);
   ("vendor-encapsulated-options", "E.", 43); ("netbios-name-servers", "IA", 44); ("netbios-dd-server", "IA", 45);
   ("netbios-node-type", "B", 46); ("netbios-scope", "t", 47); ("font-servers", "IA", 48);
   ("x-display-manager", "IA", 49); ("dhcp-requested-address", "I", 50); ("dhcp-lease-time", "L", 51);
   ("dhcp-option-overload", "B", 52); ("dhcp-message-type", "B", 53); ("dhcp-server-identifier", "I", 54);
   ("dhcp-parameter-request-list", "BA", 55); ("dhcp-message", "t", 56); ("dhcp-max-message-size", "S", 57);
   ("dhcp-renewal-time", "L", 58); ("dhcp-rebinding-time", "L", 59); ("vendor-class-identifier", "X", 60);
   ("dhcp-client-identifier", "X", 61); ("nwip-domain", "t", 62); ("nwip-suboptions", "Enwip.", 63);
   ("nisplus-domain", "t", 64); ("nisplus-servers", "IA", 65); ("tftp-server-name", "t", 66);
   ("bootfile-name", "t", 67); ("mobile-ip-home-agent", "IA", 68); ("smtp-server", "IA", 69);
   ("pop-server", "IA", 70); ("nntp-server", "IA", 71); ("www-server", "IA", 72); ("finger-server", "IA", 73);
   ("irc-server", "IA", 74); ("streettalk-server", "IA", 75); ("streettalk-directory-assistance-server", "IA", 76);
   ("user-class", "t", 77); ("slp-directory-agent", "fIa", 78); ("slp-service-scope", "fto", 79);
   ("fqdn", "Efqdn.", 81); ("relay-agent-information", "Eagent.", 82); ("nds-servers", "IA", 85);
   ("nds-tree-name", "t", 86); ("nds-context", "t", 87); ("bcms-controller-names", "D", 88);
   ("bcms-controller-address", "Ia", 89); ("client-last-transaction-time", "L", 91); ("associated-ip", "Ia", 92);
   ("uap-servers", "t", 98); ("geoconf-civic", "X", 99); ("pcode", "t", 100); ("tcode", "t", 101);
   ("netinfo-server-address", "Ia", 112); ("netinfo-server-tag", "t", 113); ("default-url", "t", 114);
   ("auto-config", "B", 116); ("name-service-search", "Sa", 117); ("subnet-selection", "I", 118);
   ("domain-search", "Dc", 119); ("vivco", "Evendor-class.", 124); ("vivso", "Evendor.", 125);
   ("pana-agent", "Ia", 136); ("v4-lost", "d", 137); ("capwap-ac-v4", "Ia", 138); ("sip-ua-cs-domains", "Dc", 141);
   ("ipv4-address-andsf", "IA", 142); ("rdnss-selection", "BIID", 146); ("v4-portparams", "BBS", 159);
   ("v4-captive-portal", "t", 160); ("option-6rd", "BB6Ia", 212); ("v4-access-domain", "d", 213)]%string.

Definition nwip_options : list (string * string * Z) :=
  [("illegal-1", "", 1); ("illegal-2", "", 2); ("illegal-3", "", 3); ("illegal-4", "", 4); ("nsq-broadcast", "f", 5);
   ("preferred-dss", "IA", 6); ("nearest-nwip-server", "IA", 7); ("autoretries", "B", 8); ("autoretry-secs", "B", 9);
   ("nwip-1-1", "f", 10); ("primary-dss", "I", 11)]%string.

Definition vendor_class_options : list (string * string * Z) :=
  [("isc", "X", 2495)]%string.

Definition vendor_options : list (string * string * Z) :=
  [("isc", "Eisc.", 2495)]%string.

Definition isc_options : list (string * string * Z) :=
  [("media", "t", 1); ("update-assist", "X", 2)]%string.

Definition agent_options : list (string * string * Z) :=
  [("circuit-id", "X", 1); ("remote-id", "X", 2); ("agent-id", "I", 3); ("DOCSIS-device-class", "L", 4);
   ("link-selection", "I", 5)]%string.

(** ** Spaces *)

Section Spaces.
Context (find_enumeration : string -> option Z) (mem : nat -> bool).

(** The spaces are numbered as they are set up. *)
Definition dhcp_space_v4 : universe :=
  Universe "dhcp" 0 By_hash 1 1 getUChar (Some getUChar) DHO_END true (format_of dhcp_options) Options_decoder.

Definition nwip_space : universe :=
  Universe "nwip" 1 By_list 1 1 getUChar (Some getUChar) 0 false (format_of nwip_options) Options_decoder.

Definition fqdn_space : universe :=
  Universe "fqdn" 2 By_list 1 1 getUChar (Some getUChar) 0 false (format_of fqdn_options)
    (Own_decoder (fqdn_universe_decode find_enumeration mem fqdn_store)).

Definition vendor_class_space : universe :=
  Universe "vendor-class" 3 By_hash 4 1 getULong (Some getUChar) 0 false (format_of vendor_class_options) Options_decoder.

Definition vendor_space : universe :=
  Universe "vendor" 4 By_hash 4 1 getULong (Some getUChar) 0 false (format_of vendor_options) Options_decoder.

Definition isc_space : universe :=
  Universe "isc" 5 By_list 2 2 getUShort (Some getUShort) 0 false (format_of isc_options) Options_decoder.

Definition agent_space : universe :=
  Universe "agent" 10 By_list 1 1 getUChar (Some getUChar) 0 false (format_of agent_options) Options_decoder.

Definition v4_spaces : list universe :=
  [dhcp_space_v4; nwip_space; fqdn_space; vendor_class_space; vendor_space; isc_space; agent_space].

End Spaces.

(** ** Encapsulation *)

(** The [encapsulate] function of a space. *)
Inductive encapsulator : Type := Hashed_encapsulate | Linked_encapsulate | Nwip_encapsulate | Fqdn_encapsulate.

(** A space as the writer sees it; [enc_opt] is the option that encloses it: its
    space, code and format. *)
Record space : Type := Space {
  sp_universe : universe;
  store_tag : list Z -> Z -> outcome (list Z);
  store_length : option (list Z -> Z -> outcome (list Z));
  enc_opt : option (nat * Z * string);
  encapsulate : encapsulator
}.

Definition v4_dhcp : space := Space dhcp_space_v4 putUChar (Some putUChar) None Hashed_encapsulate.
Definition v4_nwip : space := Space nwip_space putUChar (Some putUChar) (Some (0%nat, 63, "Enwip."%string)) Nwip_encapsulate.
Definition v4_fqdn fe mem : space := Space (fqdn_space fe mem) putUChar (Some putUChar) (Some (0%nat, 81, "Efqdn."%string)) Fqdn_encapsulate.
Definition v4_vendor_class : space :=
  Space vendor_class_space putULong (Some putUChar) (Some (0%nat, 124, "Evendor-class."%string)) Hashed_encapsulate.
Definition v4_vendor : space := Space vendor_space putULong (Some putUChar) (Some (0%nat, 125, "Evendor."%string)) Hashed_encapsulate.
Definition v4_isc : space := Space isc_space putUShort (Some putUShort) (Some (4%nat, 2495, "Eisc."%string)) Linked_encapsulate.
Definition v4_agent : space := Space agent_space putUChar (Some putUChar) (Some (0%nat, 82, "Eagent."%string)) Linked_encapsulate.

(** [put (&b[at], v)]. *)
Definition put_at (b : list Z) (at_ : Z) (put : list Z -> Z -> outcome (list Z)) (v : Z) : outcome (list Z) :=
  x ← put (drop (Z.to_nat at_) b) v;
  Ret (take (Z.to_nat at_) b ++ x).

Section Encapsulation.
Context (evaluate : option_cache -> option (list Z)) (mem : nat -> bool) (all_spaces : list space).

(** [append_option]: whether it was appended, the new value and the requests for
    memory so far. *)
Definition append_option (dst : list Z) (sp : space) (code : Z) (format : string) (src : list Z) (n : nat)
  : outcome (bool * list Z * nat) :=
  let u := sp_universe sp in
  if (Zlen src =? 0) && negb (match format with String c _ => Ascii.eqb c "Z" | EmptyString => false end) then Ret (false, dst, n)
  else if negb (mem n) then Ret (false, [], S n)
  else
    let at_tag := Zlen dst in
    let at_length := at_tag + tag_size u in
    let at_data := at_length + length_size u in
    b ← memcpy (buffer_data (at_data + Zlen src)) 0 dst;
    b ← put_at b at_tag (store_tag sp) code;
    b ← match store_length sp with Some put => put_at b at_length put (Zlen src) | None => Undef end;
    b ← memcpy b at_data src;
    d ← memread b 0 (at_data + Zlen src);
    Ret (true, d, S n).

Definition space_named (name : string) : option space :=
  snd <$> list_find (fun sp => u_name (sp_universe sp) = name) all_spaces.

Section Inner.
(** The [encapsulate] functions of the spaces inside. *)
Context (inner : space -> list Z -> nat -> outcome (bool * list Z * nat)).

(** The space that an option with values before it encloses. *)
Definition enclosed (format : string) : option space :=
  match format with
  | String "e" _ =>
    match strchr "E" format with
    | None => None
    | Some (_, s) =>
      match strchr "." s with
      | None | Some (EmptyString, _) => None
      | Some (name, _) => space_named name
      end
    end
  | _ => None
  end.

Definition store_option (result : list Z) (sp : space) (oc : option_cache) (n : nat) : outcome (bool * list Z * nat) :=
  match evaluate oc with
  | None => Ret (false, result, n)
  | Some tmp =>
    r ← match enclosed (oc_format oc) with
        | Some sub => r ← inner sub tmp n; Ret (r.1.2, r.2)
        | None => Ret (tmp, n)
        end;
    append_option result sp (oc_code oc) (oc_format oc) (r.1) (r.2)
  end.

(** The first cache of each chain. *)
Fixpoint store_chains (result : list Z) (sp : space) (l : list chain) (status : bool) (n : nat) : outcome (bool * list Z * nat) :=
  match l with
  | [] => Ret (status, result, n)
  | (oc :: _) :: l =>
    r ← store_option result sp oc n;
    let '(ok, result, n) := r in
    store_chains result sp l (status || ok) n
  | [] :: l => store_chains result sp l status n
  end.

Context (cfg_options : option_state).

Fixpoint search_loop (subs : list space) (result sub : list Z) (sp : space) (status : bool) (n : nat)
  : outcome (bool * list Z * nat) :=
  match subs with
  | [] => Ret (status, result, n)
  | s :: subs =>
    match enc_opt s with
    | Some (i, code, format) =>
      if bool_decide (i = u_index (sp_universe sp)) && match format with String c _ => Ascii.eqb c "E" | EmptyString => false end then
        op ← lookup_option (sp_universe sp) cfg_options code;
        match op with
        | Some _ => search_loop subs result sub sp status n
        | None =>
          r ← inner s sub n;
          let '(ok, sub, n) := r in
          if (ok : bool) then
            r ← append_option result sp code format sub n;
            let '(ok, result, n) := r in
            search_loop subs result [] sp (status || ok) n
          else search_loop subs result sub sp status n
        end
      else search_loop subs result sub sp status n
    | None => search_loop subs result sub sp status n
    end
  end.

(** [search_subencapsulation]: the spaces up to [universe_count]. *)
Definition search_subencapsulation (result : list Z) (sp : space) (n : nat) : outcome (bool * list Z * nat) :=
  search_loop (List.filter (fun s => (u_index (sp_universe s) <? universe_count cfg_options)%nat) all_spaces) result [] sp false n.

(** The chains of a space, in the order of its buckets. *)
Definition space_chains (u : universe) : option (list chain) :=
  if (universe_count cfg_options <=? u_index u)%nat then None else @concat chain <$> spaces cfg_options !! u_index u.

(** [hashed_option_space_encapsulate], [linked_option_space_encapsulate] *)
Definition plain_encapsulate (sp : space) (result : list Z) (n : nat) : outcome (bool * list Z * nat) :=
  match space_chains (sp_universe sp) with
  | None => Ret (false, result, n)
  | Some l =>
    r ← store_chains result sp l false n;
    let '(status, result, n) := r in
    r ← search_subencapsulation result sp n;
    let '(ok, result, n) := r in
    Ret (status || ok, result, n)
  end.

(** The option that says there is no data. *)
Definition no_nwip : option_cache := Cache 1 "" [1; 0] false.

(** [nwip_option_space_encapsulate].  The string that is built when there are
    options has the length zero of its initialization. *)
Definition nwip_option_space_encapsulate (sp : space) (result : list Z) (n : nat) : outcome (bool * list Z * nat) :=
  match space_chains (sp_universe sp) with
  | None => Ret (false, result, n)
  | Some l =>
    r ← store_chains result sp l false n;
    let '(status, result, n) := r in
    if negb status then store_option result sp no_nwip n
    else if negb (mem n) then Ret (false, [], S n)
    else
      b ← wr (buffer_data (Zlen result + 2)) 0 2;
      b ← wr b 1 0;
      b ← memcpy b 2 result;
      let ds_len := 0 in
      d ← memread b 0 ds_len;
      Ret (status, d, S n)
  end.

End Inner.

Fixpoint encapsulate_space (fuel : nat) (cfg_options : option_state) (sp : space) (result : list Z) (n : nat)
  : outcome (bool * list Z * nat) :=
  match fuel with
  | O => Undef
  | S fuel =>
    let inner := encapsulate_space fuel cfg_options in
    match encapsulate sp with
    | Hashed_encapsulate | Linked_encapsulate => plain_encapsulate inner cfg_options sp result n
    | Nwip_encapsulate => nwip_option_space_encapsulate inner cfg_options sp result n
    | Fqdn_encapsulate =>
      r ← fqdn_option_space_encapsulate evaluate mem (sp_universe sp) (State (universe_count cfg_options) (spaces cfg_options) n);
      Ret match r with
          | Some d => (true, d, S n)
          | None =>
            match space_chains cfg_options (sp_universe sp) with
            | Some _ => (false, [], S n)
            | None => (false, result, n)
            end
          end
    end
  end.

(** [option_space_encapsulate]: of the space with this name. *)
Definition option_space_encapsulate (fuel : nat) (cfg_options : option_state) (name : string) (n : nat)
  : outcome (option (list Z)) :=
  match space_named name with
  | None => Ret None
  | Some sp => r ← encapsulate_space fuel cfg_options sp [] n; Ret (if r.1.1 : bool then Some (r.1.2) else None)
  end.

End Encapsulation.

(** ** The built-in spaces are configured *)

Lemma get_be_ok n l : is_bytes l -> Z.of_nat n <= Zlen l -> exists c, (x ← memread l 0 (Z.of_nat n); Ret (be_val x)) = Ret c /\ 0 <= c < 256 ^ Z.of_nat n.
Proof.
  intros Hb Hl. rewrite memread_slice by lia. cbn [mbind outcome_bind]. eexists. split; [reflexivity|].
  assert (Zlen (slice l 0 (Z.of_nat n)) = Z.of_nat n) as E by (unfold slice, Zlen in *; rewrite length_take, length_drop; lia).
  pose proof (be_val_range (slice l 0 (Z.of_nat n)) ltac:(by apply is_bytes_take, is_bytes_drop)) as H. by rewrite E in H.
Qed.

Lemma getULong_range l : is_bytes l -> 4 <= Zlen l -> exists c, getULong l = Ret c /\ 0 <= c < 2 ^ 32.
Proof. apply (get_be_ok 4). Qed.

Lemma getUShort_range l : is_bytes l -> 2 <= Zlen l -> exists c, getUShort l = Ret c /\ 0 <= c < 2 ^ 16.
Proof. apply (get_be_ok 2). Qed.

(** The minimum length of every text of a table is known. *)
Definition texts_ok (fe : string -> option Z) (table : list (string * string * Z)) : Prop :=
  Forall (fun o => format_has_text (o.1.2) = true -> exists m, format_min_length fe (o.1.2) = Ret m) table.

Ltac check_texts := repeat (constructor; [cbn; first [discriminate|intros _; eexists; reflexivity]|]); constructor.

Lemma dhcp_texts fe : texts_ok fe dhcp_options.
Proof. unfold texts_ok, dhcp_options. check_texts. Qed.

Lemma other_texts fe :
  texts_ok fe nwip_options /\ texts_ok fe fqdn_options /\ texts_ok fe vendor_class_options /\ texts_ok fe vendor_options /\
  texts_ok fe isc_options /\ texts_ok fe agent_options.
Proof. unfold texts_ok. split_and!; check_texts. Qed.

Lemma table_formats fe table code format :
  texts_ok fe table -> format_of table code = Some format -> format_has_text format = true -> exists m, format_min_length fe format = Ret m.
Proof. intros H [nm Ho]%format_of_elem. unfold texts_ok in H. rewrite Forall_forall in H. exact (H _ Ho). Qed.

(** Two descriptions of one store. *)
Lemma same_state u u' st : u_index u = u_index u' -> u_storage u = u_storage u' -> state_ok u st -> state_ok u' st.
Proof.
  intros Ei Es [H1 H2]. constructor; [by rewrite <- Ei|]. intros t Ht. rewrite <- Ei in Ht. destruct (H2 t Ht) as [H3 H4].
  assert (forall code, bucket u code = bucket u' code) as Eb by (intros; unfold bucket; by rewrite Es).
  constructor; [unfold width in *; by rewrite <- Es|]. intros i b Hb. destruct (H4 i b Hb) as [H5 H6]. constructor; [|done].
  eapply Forall_impl; [exact H5|]. intros c (code & ? & ?). exists code. by rewrite <- Eb.
Qed.

Lemma fqdn_space_decodes fe mem st buffer :
  state_ok (fqdn_space fe mem) st -> is_bytes buffer ->
  exists b st', fqdn_universe_decode fe mem fqdn_store st buffer = Ret (b, st') /\ touched (fqdn_space fe mem) st st'.
Proof.
  intros W Hb. destruct (fqdn_universe_decode_ok fe mem fqdn_store (fqdn_store_ok fe) st buffer) as (b & st' & E & [T1 T2 T3]); [|done|].
  - by apply (same_state (fqdn_space fe mem)).
  - exists b, st'. split; [done|]. constructor; [|done..]. by apply (same_state fqdn_store).
Qed.

Lemma v4_configured fe mem : configured fe (v4_spaces fe mem).
Proof.
  pose proof (dhcp_texts fe) as H0. pose proof (other_texts fe) as (H1 & H2 & H3 & H4 & H5 & H6).
  assert (forall l, is_bytes l -> 1 <= Zlen l -> exists n, getUChar l = Ret n /\ 0 <= n < 2 ^ 16) as Hlen.
  { intros l Hb Hl. destruct (getUChar_byte l Hb Hl) as (c & ? & ?). exists c. split; [done|lia]. }
  constructor.
  - intros u Hu. unfold v4_spaces in Hu. rewrite !elem_of_cons, elem_of_nil in Hu.
    destruct Hu as [->|[->|[->|[->|[->|[->|[->|[]]]]]]]]; constructor; cbn [tag_size length_size get_tag get_length code_hash decode dhcp_space_v4 nwip_space fqdn_space vendor_class_space vendor_space isc_space agent_space]; try done; try (by apply getUChar_byte); try (by apply getULong_range); try (by apply getUShort_range); try (by left); try (by right; left); try (by right; right); try (split; [done|]; (exact Hlen || exact getUShort_range)); try (intros code format; by eapply table_formats).
    intros f st buffer [= <-] W Hb. by apply fqdn_space_decodes.
  - intros u u' Hu Hu'. unfold v4_spaces in Hu, Hu'. rewrite !elem_of_cons, elem_of_nil in Hu, Hu'. naive_solver.
Qed.

(** C20: No packet can make the parser of DHCPv4 options, over the option spaces that
    the program has built in, read outside of the packet, stop the program or
    run on; whatever it holds, only the stores of these spaces change, and they
    stay well-formed. *)
Theorem v4_parse_safe fe mem st buffer :
  all_ok (v4_spaces fe mem) st -> is_bytes buffer -> Zlen buffer < 2 ^ 31 ->
  exists b st', parse_option_buffer fe mem (v4_spaces fe mem) dhcp_space_v4 st buffer = Ret (b, st') /\
    all_ok (v4_spaces fe mem) st' /\
    forall i, i ∉ map u_index (v4_spaces fe mem) -> spaces st' !! i = spaces st !! i.
Proof.
  intros Hst Hb Hl.
  destruct (parse_buffer_ok fe mem (v4_spaces fe mem) (fun i => i ∈ map u_index (v4_spaces fe mem)) (S (length buffer)) dhcp_space_v4 st buffer)
    as (b & st' & E & W); try done.
  - apply v4_configured.
  - intros u u' Hu _ (code & format & _ & Hf). apply find_option_universe_in in Hf. apply list_elem_of_fmap. by exists u'.
  - by left.
  - cbn. by left.
  - lia.
  - exists b, st'. split; [done|]. split; [by apply W|apply W].
Qed.

(** ** Writing options *)

(** The [store] functions write big-endian numbers. *)
Record writer_ok (sp : space) : Prop := Writer_ok {
  wo_tag_size : 0 <= tag_size (sp_universe sp);
  wo_length_size : 0 <= length_size (sp_universe sp);
  wo_tag : forall b c, 0 <= c < 2 ^ (8 * tag_size (sp_universe sp)) -> tag_size (sp_universe sp) <= Zlen b ->
    store_tag sp b c = memcpy b 0 (be_enc (Z.to_nat (tag_size (sp_universe sp))) c);
  wo_length : exists put, store_length sp = Some put /\
    forall b c, 0 <= c < 2 ^ (8 * length_size (sp_universe sp)) -> length_size (sp_universe sp) <= Zlen b ->
      put b c = memcpy b 0 (be_enc (Z.to_nat (length_size (sp_universe sp))) c)
}.

Lemma put_at_splice b at_ put v x :
  0 <= at_ -> at_ + Zlen x <= Zlen b -> put (drop (Z.to_nat at_) b) v = memcpy (drop (Z.to_nat at_) b) 0 x ->
  put_at b at_ put v = Ret (splice b at_ x).
Proof.
  intros H1 H2 E. unfold put_at. rewrite E. assert (Zlen (drop (Z.to_nat at_) b) = Zlen b - at_) as El by (unfold Zlen in *; rewrite length_drop; lia).
  rewrite memcpy_splice by (pose proof (Zlen_nonneg x); lia). cbn [mbind outcome_bind]. f_equal. unfold splice. change (Z.to_nat 0) with O.
  rewrite take_0, drop_drop. done.
Qed.

Section Writing.
Context (evaluate : option_cache -> option (list Z)) (mem : nat -> bool) (all_spaces : list space) (Hm : forall n, mem n = true).

(** An option behind others. *)
Lemma append_option_ok dst sp code format src n :
  writer_ok sp -> 0 <= code < 2 ^ (8 * tag_size (sp_universe sp)) -> 1 <= Zlen src < 2 ^ (8 * length_size (sp_universe sp)) ->
  append_option mem dst sp code format src n = Ret (true, dst ++ tlv (sp_universe sp) (code, src), S n).
Proof.
  intros [Ht0 Hl0 Ht (put & Ep & Hp)] Hcode Hlen. unfold append_option. rewrite (proj2 (Z.eqb_neq (Zlen src) 0)) by lia. cbn [andb].
  rewrite Hm. cbn [negb]. set (u := sp_universe sp) in *. set (ts := tag_size u) in *. set (ls := length_size u) in *.
  assert (forall k c, 0 <= k -> Zlen (be_enc (Z.to_nat k) c) = k) as Ebe by (intros; unfold Zlen; rewrite be_enc_length; lia).
  pose proof (Zlen_nonneg dst). set (b0 := buffer_data _).
  assert (Zlen b0 = Zlen dst + ts + ls + Zlen src + 1) as E0 by (unfold b0, buffer_data, Zlen in *; rewrite length_replicate; lia).
  rewrite memcpy_splice by lia. cbn [mbind outcome_bind]. set (b1 := splice b0 0 dst).
  assert (Zlen b1 = Zlen b0) as E1 by (apply length_splice; lia).
  assert (forall (b : list Z) (at_ : Z), 0 <= at_ <= Zlen b -> Zlen (drop (Z.to_nat at_) b) = Zlen b - at_) as Hdrop
    by (intros; unfold Zlen in *; rewrite length_drop; lia).
  rewrite (put_at_splice b1 (Zlen dst) (store_tag sp) code (be_enc (Z.to_nat ts) code));
    [|lia|rewrite Ebe; lia|apply Ht; [done|rewrite Hdrop; lia]].
  cbn [mbind outcome_bind]. set (b2 := splice b1 _ _). assert (Zlen b2 = Zlen b0) as E2 by (unfold b2; rewrite length_splice; rewrite ?Ebe; lia).
  rewrite Ep, (put_at_splice b2 (Zlen dst + ts) put (Zlen src) (be_enc (Z.to_nat ls) (Zlen src)));
    [|lia|rewrite Ebe; lia|apply Hp; [lia|rewrite Hdrop; lia]].
  cbn [mbind outcome_bind]. set (b3 := splice b2 _ _). assert (Zlen b3 = Zlen b0) as E3 by (unfold b3; rewrite length_splice; rewrite ?Ebe; lia).
  rewrite memcpy_splice by lia. cbn [mbind outcome_bind]. set (tl := tlv u (code, src)).
  assert (splice b3 (Zlen dst + ts + ls) src = splice b0 0 (dst ++ tl)) as ->.
  { unfold b3, b2, b1, tl, tlv. cbn [fst snd]. fold ts ls.
    set (Y1 := be_enc (Z.to_nat ts) code). set (Y2 := be_enc (Z.to_nat ls) (Zlen src)).
    assert (Zlen Y1 = ts) as EY1 by (by apply Ebe). assert (Zlen Y2 = ls) as EY2 by (by apply Ebe).
    pose proof (splice_splice b0 0 dst Y1 ltac:(lia) ltac:(lia)) as S1.
    pose proof (splice_splice b0 0 (dst ++ Y1) Y2 ltac:(lia) ltac:(rewrite Zlen_app; lia)) as S2.
    pose proof (splice_splice b0 0 ((dst ++ Y1) ++ Y2) src ltac:(lia) ltac:(rewrite !Zlen_app; lia)) as S3.
    rewrite Z.add_0_l in S1, S2, S3. rewrite !Zlen_app, EY1 in S2. rewrite !Zlen_app, EY1, EY2 in S3.
    rewrite S1, S2, S3. by rewrite <- !app_assoc. }
  assert (Zlen (dst ++ tl) = Zlen dst + ts + ls + Zlen src) as Ed by (unfold tl; rewrite Zlen_app, tlv_length by done; cbn [snd]; fold ts ls; lia).
  rewrite <- Ed, memread_slice by (rewrite ?length_splice; lia). cbn [mbind outcome_bind].
  pose proof (slice_prefix_grow b0 0 (dst ++ tl) ltac:(lia) ltac:(lia)) as Eg. rewrite Z.add_0_l in Eg. rewrite Eg. done.
Qed.

(** The options of the chains, as they are written. *)
Definition written (l : list chain) : list (Z * list Z) := omap (fun c => (fun oc => (oc_code oc, oc_data oc)) <$> head c) l.

Lemma written_app l1 l2 : written (l1 ++ l2) = written l1 ++ written l2.
Proof. apply omap_app. Qed.

(** A cache with a value of its own, that encloses no space. *)
Definition writable (sp : space) (oc : option_cache) : Prop :=
  evaluate oc = Some (oc_data oc) /\ enclosed all_spaces (oc_format oc) = None /\
  0 <= oc_code oc < 2 ^ (8 * tag_size (sp_universe sp)) /\ 1 <= Zlen (oc_data oc) < 2 ^ (8 * length_size (sp_universe sp)).

Lemma store_chains_ok inner sp l : forall dst status n,
  writer_ok sp -> Forall (fun c => match c with oc :: _ => writable sp oc | [] => True end) l ->
  exists n', store_chains evaluate mem all_spaces inner dst sp l status n =
    Ret (status || negb (bool_decide (written l = [])), dst ++ tlvs (sp_universe sp) (written l), n').
Proof.
  induction l as [|[|oc c] l IH]; intros dst status n Hw Hl; cbn [store_chains].
  - exists n. unfold written, tlvs. cbn. by rewrite app_nil_r, orb_false_r.
  - inversion_clear Hl. by apply IH.
  - inversion_clear Hl as [|? ? Hoc Hl']. cbn beta iota in Hoc. destruct Hoc as (He & Hn & Hc & Hd). unfold store_option. rewrite He, Hn. cbn [mbind outcome_bind fst snd].
    rewrite append_option_ok by done. cbn [mbind outcome_bind].
    destruct (IH (dst ++ tlv (sp_universe sp) (oc_code oc, oc_data oc)) (status || true) (S n) Hw Hl') as [n' ->]. exists n'.
    change (written ((oc :: c) :: l)) with ((oc_code oc, oc_data oc) :: written l). unfold tlvs. cbn [map concat].
    rewrite <- app_assoc, (bool_decide_false (_ :: _ = [])) by done. by rewrite !orb_true_r.
Qed.

End Writing.

(** ** A list of options is kept in order *)

Definition listed (u : universe) (st : option_state) : list chain :=
  match spaces st !! u_index u with Some t => concat t | None => [] end.

Section Listed.
Context (find_enumeration : string -> option Z) (mem : nat -> bool) (universes : list universe) (Hm : forall n, mem n = true).
Context (u : universe) (Hu : universe_ok find_enumeration u) (Hl : u_storage u = By_list).

Lemma save_listed st oc :
  state_ok u st -> view u st (oc_code oc) = [] ->
  exists st', save_option mem u st oc false = Ret st' /\ listed u st' = listed u st ++ [[oc]].
Proof.
  intros W Hv. unfold save_option. rewrite (proj2 (Nat.leb_gt _ _) (state_index u st W)).
  assert (bucket u (oc_code oc) = 0) as Eb by (unfold bucket; by rewrite Hl).
  assert (exists st1 b, (match spaces st !! u_index u with
              | Some _ => (true, st)
              | None => let '(ok, st) := alloc mem st in (ok, if ok then with_space st (u_index u) (new_space u) else st) end) = (true, st1) /\
            spaces st1 !! u_index u = Some [b] /\ listed u st = b /\ find_chain (oc_code oc) b = None)
    as (st1 & b & -> & Es & El & Ef).
  { unfold listed. destruct (spaces st !! u_index u) as [t|] eqn:Et.
    - pose proof (state_space u st W t Et) as Hsp. destruct (get_bucket u t (oc_code oc) Hsp) as (b & _ & Eg & _).
      rewrite Eb in Eg. pose proof (space_width u t Hsp) as Hw. unfold width in Hw. rewrite Hl in Hw.
      destruct t as [|b0 [|]]; try done. injection Eg as ->. exists st, b. split_and!; try done; [apply app_nil_r|].
      unfold view in Hv. rewrite (lookup_option_eq u st (oc_code oc) [b] b W Et) in Hv by (by rewrite Eb).
      destruct (find_chain (oc_code oc) b) as [c|] eqn:Ec; [|done]. subst c. exfalso. clear -Ec.
      induction b as [|c b IH]; [done|]. cbn in Ec. destruct (has_code (oc_code oc) c) eqn:E; [|auto].
      injection Ec as ->. done.
    - unfold alloc. rewrite Hm. eexists _, []. split; [reflexivity|]. cbn. rewrite lookup_insert. unfold new_space. by rewrite Hl, decide_True. }
  cbn [negb]. rewrite Es, Eb. cbn [mbind outcome_bind]. rewrite (rdA_lookup [b] 0 b) by done. cbn [mbind outcome_bind]. rewrite Ef. unfold alloc.
  rewrite Hm. cbn [negb]. rewrite wrA_in by done. cbn [mbind outcome_bind]. eexists. split; [reflexivity|].
  unfold listed. cbn. rewrite lookup_insert, decide_True by done. unfold add_chain. rewrite Hl. rewrite <- El. apply app_nil_r.
Qed.

Lemma keep_listed inner st code data :
  (forall code format, code_hash u code = Some format -> encapsulating format = false) ->
  state_ok u st -> view u st code = [] -> 0 <= code < 2 ^ (8 * tag_size u) ->
  exists st', keep_option find_enumeration mem universes inner u st code data = Ret (true, st') /\
    listed u st' = listed u st ++ [[fresh find_enumeration u code data]].
Proof.
  intros He W Hv Hc. unfold keep_option.
  assert ((match code_hash u code with
     | Some format => if encapsulating format then r ← parse_encapsulated_suboptions universes inner st format data None; Ret (r.2) else Ret st
     | None => Ret st end) = Ret st) as ->.
  { destruct (code_hash u code) as [format|] eqn:E; [|done]. by rewrite (He _ _ E). }
  cbn [mbind outcome_bind]. destruct (lookup_option_ok u st code W) as [op Eop]. rewrite Eop. cbn [mbind outcome_bind].
  destruct op as [c|].
  { pose proof (lookup_option_head u st code c Eop) as Hh. unfold view in Hv. rewrite Eop in Hv. by subst c. }
  unfold save_option_buffer.
  destruct (prepare_option_buffer_ok find_enumeration mem [u] u st data code Hu Hc) as (oc & st1 & -> & Hoc & W1).
  cbn [mbind outcome_bind]. destruct Hoc as [->|(_ & n & Hn)]; [|by rewrite Hm in Hn].
  destruct (W1 (fun _ => False)) as [A B C].
  destruct (save_listed st1 (fresh find_enumeration u code data)) as (st2 & -> & E2).
  - apply A; [by intros v ->%list_elem_of_singleton|by left].
  - rewrite fresh_code. rewrite (view_ext u st st1 code) by (done || apply C; tauto). done.
  - cbn [mbind outcome_bind]. exists st2. split; [done|]. rewrite E2. unfold listed. by rewrite C by tauto.
Qed.

End Listed.

Section Order.
Context (find_enumeration : string -> option Z) (mem : nat -> bool) (universes : list universe) (Hm : forall n, mem n = true).
Context (u : universe) (Hconf : configured find_enumeration universes) (Hu : u ∈ universes) (Hbe : big_endian u) (Hl : u_storage u = By_list).
Context (He : forall code format, code_hash u code = Some format -> encapsulating format = false).
Context (Hne : forall u', ~ encloses universes u u').

Abbreviation kept := (fun o => [fresh find_enumeration u (fst o) (snd o)]).

Lemma loop_listed inner buffer opts : forall fuel st pre,
  Zlen buffer < 2 ^ 31 -> buffer = pre ++ tlvs u opts -> Forall (sendable u) opts -> NoDup (map fst opts) -> all_ok universes st ->
  (forall o, o ∈ opts -> view u st (fst o) = []) -> (length opts <= fuel)%nat ->
  exists st', option_loop find_enumeration mem universes inner fuel u st buffer (Zlen pre) = Ret (true, st') /\
    listed u st' = listed u st ++ map kept opts /\ within universes (eq (u_index u)) st st'.
Proof.
  induction opts as [|o opts IH]; intros fuel st pre Hlen Eb Hs Hnd Hst Hv Hf.
  { exists st. split_and!; [|by rewrite app_nil_r|done]. unfold tlvs in Eb. cbn in Eb. rewrite app_nil_r in Eb. subst pre.
    pose proof (ok_tag_size _ u (conf_ok _ _ Hconf u Hu)). destruct fuel; cbn [option_loop]; by rewrite (proj2 (Z.ltb_lt _ _)) by lia. }
  destruct fuel as [|fuel]; [cbn in Hf; lia|]. inversion_clear Hs as [|? ? Ho Hs']. cbn [map] in Hnd. inversion_clear Hnd as [|? ? Hn1 Hn2].
  unfold tlvs in Eb. cbn [map concat] in Eb. fold (tlvs u opts) in Eb.
  rewrite (option_loop_step find_enumeration mem universes inner u buffer Hconf Hu Hbe Hlen fuel st pre o (tlvs u opts) Eb Ho).
  assert (view u st (fst o) = []) as Hvo by (apply Hv; left).
  destruct (keep_listed find_enumeration mem universes Hm u (conf_ok _ _ Hconf u Hu) Hl inner st (fst o) (snd o) He (Hst u Hu) Hvo) as (st1 & E1 & El1);
    [apply Ho|].
  destruct (keep_option_ok find_enumeration mem universes inner (fun _ => False) (length buffer) u st (fst o) (snd o)) as (b & st1' & E1' & W1 & Hk);
    [done|done|by intros ? ? ? ? []|by intros ? ?%Hne|done|apply Ho| |apply Ho|].
  { rewrite Eb. unfold tlv. rewrite !length_app, be_enc_length. pose proof (ok_tag_size _ u (conf_ok _ _ Hconf u Hu)). lia. }
  rewrite E1 in E1' |- *. injection E1' as <- <-. cbn [mbind outcome_bind]. destruct (Hk ltac:(tauto) Hm) as (_ & _ & V2).
  destruct (IH fuel st1 (pre ++ tlv u o)) as (st2 & -> & El2 & W2); try done.
  - by rewrite <- app_assoc.
  - by apply W1.
  - intros o' Ho'. rewrite V2; [apply Hv; by right|]. intros E. apply Hn1. rewrite <- E. apply list_elem_of_fmap. by exists o'.
  - cbn in Hf. lia.
  - exists st2. split; [done|]. split; [rewrite El2, El1; by rewrite <- app_assoc|]. etrans; [|exact W2].
    eapply within_mono; [|exact W1]. intros i [[]| ->]. done.
Qed.

Lemma parse_listed st opts :
  Zlen (tlvs u opts) < 2 ^ 31 -> Forall (sendable u) opts -> NoDup (map fst opts) -> all_ok universes st -> spaces st !! u_index u = None ->
  exists st', parse_option_buffer find_enumeration mem universes u st (tlvs u opts) = Ret (true, st') /\
    listed u st' = map kept opts /\ within universes (eq (u_index u)) st st'.
Proof.
  intros Hlen Hs Hnd Hst Hn. unfold parse_option_buffer. cbn [parse_buffer]. unfold alloc. rewrite Hm. cbn [negb].
  set (st0 := State _ _ _).
  destruct (loop_listed (parse_buffer find_enumeration mem universes (length (tlvs u opts))) (tlvs u opts) opts (length (tlvs u opts)) st0 [])
    as (st' & E & El & W); try done.
  - intros v Hv. by apply (state_ok_ext v st), Hst.
  - intros o _. unfold view. by rewrite lookup_option_none.
  - apply tlvs_length_ge. pose proof (ok_tag_size _ u (conf_ok _ _ Hconf u Hu)). lia.
  - exists st'. change (Zlen []) with 0 in E. split; [done|]. split; [rewrite El; unfold listed, st0; cbn [spaces]; by rewrite Hn|].
    destruct W as [A B C]. constructor; [|done|done]. intros H. apply A. intros v Hv. by apply (state_ok_ext v st), H.
Qed.

End Order.

(** ** The relay agent's options *)

Definition v4_all (fe : string -> option Z) (mem : nat -> bool) : list space :=
  [v4_dhcp; v4_nwip; v4_fqdn fe mem; v4_vendor_class; v4_vendor; v4_isc; v4_agent].

Lemma linked_step evaluate mem all_spaces fuel st sp result n :
  encapsulate sp = Linked_encapsulate ->
  encapsulate_space evaluate mem all_spaces (S fuel) st sp result n =
  plain_encapsulate evaluate mem all_spaces (encapsulate_space evaluate mem all_spaces fuel st) st sp result n.
Proof. cbn [encapsulate_space]. by intros ->. Qed.

Lemma search_none mem inner cfg_options sp subs : forall result sub status n,
  Forall (fun s => match enc_opt s with Some (i, _, _) => i <> u_index (sp_universe sp) | None => True end) subs ->
  search_loop mem inner cfg_options subs result sub sp status n = Ret (status, result, n).
Proof.
  induction subs as [|s subs IH]; intros result sub status n H; cbn [search_loop]; [done|]. inversion_clear H as [|? ? Hs H'].
  destruct (enc_opt s) as [[[i code] format]|]; [|by apply IH]. rewrite bool_decide_false by done. cbn [andb]. by apply IH.
Qed.

Lemma byte_writer sp :
  tag_size (sp_universe sp) = 1 -> length_size (sp_universe sp) = 1 -> store_tag sp = putUChar -> store_length sp = Some putUChar -> writer_ok sp.
Proof.
  intros E1 E2 E3 E4.
  assert (forall b c, 0 <= c < 2 ^ 8 -> 1 <= Zlen b -> putUChar b c = memcpy b 0 (be_enc 1 c)) as H.
  { intros b c Hc Hb. unfold putUChar. rewrite wr_memcpy, u8_small by (unfold is_byte; lia). cbn [be_enc]. change (256 ^ Z.of_nat 0) with 1.
    by rewrite Z.div_1_r, Z.mod_small by lia. }
  constructor; rewrite ?E1, ?E2, ?E3; [lia|lia|exact H|]. by exists putUChar.
Qed.

Lemma byte_big_endian u :
  tag_size u = 1 -> length_size u = 1 -> get_tag u = getUChar -> get_length u = Some getUChar -> big_endian u.
Proof.
  intros E1 E2 E3 E4. pose proof (ds_be _ example_dhcp_space) as [H1 (get & [= <-] & H2 & H3)].
  constructor; rewrite ?E1, ?E2, ?E3; [exact H1|]. exists getUChar. by split_and!.
Qed.

Lemma agent_formats code format : format_of agent_options code = Some format ->
  encapsulating format = false /\ format_has_text format = false /\ forall spaces, enclosed spaces format = None /\ strchr "E" format = None.
Proof.
  intros [nm Ho]%format_of_elem. unfold agent_options in Ho.
  repeat (apply elem_of_cons in Ho as [[= -> -> ->]|Ho]; [by split_and!|]). by apply elem_of_nil in Ho.
Qed.

Lemma agent_fresh fe code data :
  oc_data (fresh fe agent_space code data) = data /\ forall spaces, enclosed spaces (oc_format (fresh fe agent_space code data)) = None.
Proof.
  unfold fresh. cbn [code_hash agent_space]. destruct (format_of agent_options code) as [f|] eqn:E; cbn [from_option option_map].
  - destruct (agent_formats _ _ E) as (_ & Ht & He). cbn [id]. rewrite Ht. split; [done|]. intros. apply He.
  - done.
Qed.

Lemma agent_echo fe mem evaluate st opts n :
  (forall n, mem n = true) -> (forall oc, evaluate oc = Some (oc_data oc)) ->
  opts <> [] -> Forall (sendable agent_space) opts -> Forall (fun o => 1 <= Zlen (snd o)) opts -> NoDup (map fst opts) ->
  Zlen (tlvs agent_space opts) < 2 ^ 31 -> all_ok (v4_spaces fe mem) st -> spaces st !! u_index agent_space = None ->
  exists st', parse_option_buffer fe mem (v4_spaces fe mem) agent_space st (tlvs agent_space opts) = Ret (true, st') /\
    option_space_encapsulate evaluate mem (v4_all fe mem) 1 st' "agent" n = Ret (Some (tlvs agent_space opts)).
Proof.
  intros Hm Hev Hnil Hs Hne Hnd Hlen Hst Hsp.
  assert (big_endian agent_space) as Hbe by (by apply byte_big_endian).
  destruct (parse_listed fe mem (v4_spaces fe mem) Hm agent_space) with (st := st) (opts := opts) as (st' & E & El & [A B C]); try done.
  - apply v4_configured.
  - unfold v4_spaces. rewrite !elem_of_cons. tauto.
  - intros code format Hf. by apply (agent_formats code).
  - intros u' (code & format & Hf & Hfind). unfold find_option_universe in Hfind. by rewrite (proj2 (proj2 (proj2 (agent_formats _ _ Hf)) [])) in Hfind.
  - exists st'. split; [done|]. unfold option_space_encapsulate. change (space_named (v4_all fe mem) "agent") with (Some v4_agent).
    cbn iota beta. rewrite linked_step by done.
    unfold plain_encapsulate, space_chains.
    change (sp_universe v4_agent) with agent_space.
    assert (state_ok agent_space st') as W by (apply A; [done|]; unfold v4_spaces; rewrite !elem_of_cons; tauto).
    rewrite (proj2 (Nat.leb_gt _ _) (state_index _ _ W)).
    assert (@concat chain <$> spaces st' !! u_index agent_space = Some (listed agent_space st')) as ->.
    { unfold listed in *. destruct (spaces st' !! u_index agent_space); [done|]. destruct opts; done. }
    rewrite El.
    destruct (store_chains_ok evaluate mem (v4_all fe mem) Hm (encapsulate_space evaluate mem (v4_all fe mem) 0 st') v4_agent
                (map (fun o => [fresh fe agent_space (fst o) (snd o)]) opts) [] false n) as [n' ->].
    { by apply byte_writer. }
    { apply Forall_forall. intros c (o & -> & Ho)%list_elem_of_fmap. rewrite Forall_forall in Hs, Hne. specialize (Hs o Ho) as (Hc & _ & _ & _ & Hl2).
      specialize (Hne o Ho). destruct (agent_fresh fe (fst o) (snd o)) as [Ed Ee]. split_and!; [apply Hev|apply Ee|..]; rewrite ?fresh_code, ?Ed; cbn in Hc, Hl2 |- *; lia. }
    assert (written (map (fun o => [fresh fe agent_space (fst o) (snd o)]) opts) = opts) as Ew.
    { clear. induction opts as [|[k d] opts IH]; [done|]. unfold written in *. cbn [map omap list_omap head fmap option_fmap option_map fst snd].
      rewrite IH, fresh_code. by rewrite (proj1 (agent_fresh fe k d)). }
    rewrite Ew, bool_decide_false by done. cbn [mbind outcome_bind orb negb app]. unfold search_subencapsulation. rewrite search_none.
    + done.
    + apply Forall_forall. intros s [Hs1 _]%list_elem_of_In%filter_In. apply list_elem_of_In in Hs1. unfold v4_all in Hs1.
      rewrite !elem_of_cons, elem_of_nil in Hs1. destruct Hs1 as [->|[->|[->|[->|[->|[->|[->|[]]]]]]]]; cbn; done.
Qed.

(** C22: The server sends the options of the relay agent back as they came: what the
    parser keeps of a value of the agent information option, whose suboptions
    have different codes and are not empty, is encapsulated to the same octets. *)
Theorem agent_options_echoed fe mem evaluate st opts n :
  (forall n, mem n = true) -> (forall oc, evaluate oc = Some (oc_data oc)) ->
  opts <> [] -> Forall (sendable agent_space) opts -> Forall (fun o => 1 <= Zlen (snd o)) opts -> NoDup (map fst opts) ->
  Zlen (tlvs agent_space opts) < 2 ^ 31 -> all_ok (v4_spaces fe mem) st -> spaces st !! u_index agent_space = None ->
  exists st', parse_option_buffer fe mem (v4_spaces fe mem) agent_space st (tlvs agent_space opts) = Ret (true, st') /\
    option_space_encapsulate evaluate mem (v4_all fe mem) 1 st' "agent" n = Ret (Some (tlvs agent_space opts)).
Proof. apply agent_echo. Qed.

(** With at least one option to send, the value of the NetWare/IP option is
    empty: the string that replaces it has no length. *)
Lemma nwip_sends_nothing evaluate mem all_spaces inner st l n :
  (forall n, mem n = true) -> space_chains st nwip_space = Some l ->
  Forall (fun c => match c with oc :: _ => writable evaluate all_spaces v4_nwip oc | [] => True end) l -> written l <> [] ->
  exists n', nwip_option_space_encapsulate evaluate mem all_spaces inner st v4_nwip [] n = Ret (true, [], n').
Proof.
  intros Hm El Hl Hw. unfold nwip_option_space_encapsulate. change (sp_universe v4_nwip) with nwip_space. rewrite El. cbn iota.
  destruct (store_chains_ok evaluate mem all_spaces Hm inner v4_nwip l [] false n) as [n' ->]; [by apply byte_writer|done|].
  rewrite bool_decide_false by done. cbn [mbind outcome_bind orb negb app]. rewrite Hm. cbn iota beta. set (r := tlvs _ _). unfold buffer_data. clearbody r.
  assert (Zlen (replicate (Z.to_nat (Zlen r + 2 + 1)) 0) = Zlen r + 3) as Hb by (unfold Zlen; rewrite length_replicate; lia).
  pose proof (write_piece _ 0 2 0 r ltac:(lia) ltac:(rewrite Hb; lia)) as E. revert E. change (0 + 1) with 1. change (0 + 2) with 2.
  generalize (replicate (Z.to_nat (Zlen r + 2 + 1)) 0). intros b. destruct (wr b 0 2) as [b1| |]; [|done..]. cbn [mbind outcome_bind].
  destruct (wr b1 1 0) as [b2| |]; [|done..]. cbn [mbind outcome_bind]. intros ->. exists (S n'). cbn [mbind outcome_bind]. by rewrite memread_in.
Qed.

(** ** Witnesses *)

Definition no_v4_options : option_state := State 11 ∅ 0.
Definition no_names : string -> option Z := fun _ => None.
Definition enough : nat -> bool := fun _ => true.
Definition stored_value (oc : option_cache) : option (list Z) := Some (oc_data oc).

Lemma no_v4_options_ok : all_ok (v4_spaces no_names enough) no_v4_options.
Proof.
  intros u Hu. unfold v4_spaces in Hu. rewrite !elem_of_cons, elem_of_nil in Hu.
  destruct Hu as [->|[->|[->|[->|[->|[->|[->|[]]]]]]]]; constructor; done || (cbn; lia).
Qed.

(** A message type, a relay agent's option with one suboption, and an option
    that runs past the end of the packet. *)
Definition packet_options : list Z := [53; 1; 3; 82; 4; 1; 2; 9; 8; 12; 7; 65].

Lemma v4_parse_safe_witness :
  exists b st', parse_option_buffer no_names enough (v4_spaces no_names enough) dhcp_space_v4 no_v4_options packet_options = Ret (b, st') /\
    all_ok (v4_spaces no_names enough) st' /\
    forall i, i ∉ map u_index (v4_spaces no_names enough) -> spaces st' !! i = spaces no_v4_options !! i.
Proof.
  apply (v4_parse_safe no_names enough no_v4_options packet_options); [exact no_v4_options_ok| |by vm_compute].
  unfold packet_options, is_bytes. repeat (constructor; [unfold is_byte; lia|]). constructor.
Defined.

#[local] Instance sendable_dec u o : Decision (sendable u o).
Proof. unfold sendable. apply _. Defined.

Definition suboptions : list (Z * list Z) := [(2, [7; 7; 1]); (1, [0]); (9, [1; 2])].

Lemma agent_options_echoed_witness :
  exists st', parse_option_buffer no_names enough (v4_spaces no_names enough) agent_space no_v4_options
      [2; 3; 7; 7; 1; 1; 1; 0; 9; 2; 1; 2] = Ret (true, st') /\
    option_space_encapsulate stored_value enough (v4_all no_names enough) 1 st' "agent" 0 = Ret (Some [2; 3; 7; 7; 1; 1; 1; 0; 9; 2; 1; 2]).
Proof.
  apply (agent_options_echoed no_names enough stored_value no_v4_options suboptions 0); try done.
  - refine (bool_decide_unpack _ _). by vm_compute.
  - refine (bool_decide_unpack _ _). by vm_compute.
  - refine (bool_decide_unpack _ _). by vm_compute.
  - exact no_v4_options_ok.
Defined.

(** Suboptions that the echo loses: one that repeats a code, and one without
    octets. *)
Definition echo (options : list Z) : outcome (option (list Z)) :=
  r ← parse_option_buffer no_names enough (v4_spaces no_names enough) agent_space no_v4_options options;
  option_space_encapsulate stored_value enough (v4_all no_names enough) 1 r.2 "agent" 0.

Example echo_loses_repetition : echo [1; 1; 5; 2; 1; 6; 1; 1; 7] = Ret (Some [1; 1; 5; 2; 1; 6]).
Proof. by vm_compute. Qed.

Example echo_loses_empty : echo [1; 0; 2; 1; 6] = Ret (Some [2; 1; 6]).
Proof. by vm_compute. Qed.

(** A value of 256 octets has the length 0 in a space with lengths of one octet. *)
Example long_value_truncated :
  (r ← append_option enough [] v4_agent 1 "X" (replicate 256 7) 0; Ret (take 2 (r.1.2), Zlen (r.1.2))) = Ret ([1; 0], 258).
Proof. by vm_compute. Qed.

End OptionSpaces.
