(* ===== verification/Relay.v ===== *)
(** * The relay agent (relay/dhcrelay.c)

    The DHCPv4 relay agent: [do_relay4] forwards the requests of clients to the
    servers and the replies of the servers to the clients.  On the way it puts a
    Relay Agent Information option into a request, which names the interface of
    the client, and takes it out of the reply, where it says on which interface
    the client is.

    A packet is the buffer of [got_one] that it was received into, with the
    number of octets received; the functions use positions from its start for
    the pointers of the code.  [ntohs] swaps octets, as on a little-endian
    machine.  The counters are the list of their increments. *)

From Stdlib Require Import ZArith Lia Ascii String.
From stdpp Require Import base list numbers option gmap fin_maps.
From S2P Require Import Prelude.
From S2P Require Import Options.
From S2P Require Import OptionStore.
From S2P Require Import OptionReply.
From S2P Require Import OptionSpaces.
#[local] Open Scope Z_scope.

Module Relay.

Export OptionSpaces.

Definition BOOTP_MIN_LEN : Z := 300.
Definition BOOTREQUEST : Z := 1.
Definition BOOTREPLY : Z := 2.
Definition BOOTP_BROADCAST : Z := 32768.
Definition DHO_DHCP_MAX_MESSAGE_SIZE : Z := 57.
Definition RAI_CIRCUIT_ID : Z := 1.
Definition RAI_REMOTE_ID : Z := 2.
Definition RAI_LINK_SELECT : Z := 5.
Definition INTERFACE_DOWNSTREAM : Z := 8.
Definition INTERFACE_UPSTREAM : Z := 16.

(** Where the fields of [struct dhcp_packet] start. *)
Definition op_at : Z := 0.
Definition htype_at : Z := 1.
Definition hlen_at : Z := 2.
Definition hops_at : Z := 3.
Definition flags_at : Z := 10.
Definition yiaddr_at : Z := 16.
Definition giaddr_at : Z := 24.
Definition chaddr_at : Z := 28.
Definition options_at : Z := 236.

Definition ntohs (x : Z) : Z := x mod 256 * 256 + x / 256 mod 256.

(** An interface; an address is its four octets.  [circuit_id] and [remote_id]
    have their lengths. *)
Record interface_info : Type := Interface {
  if_name : string;
  addresses : list (list Z);
  circuit_id : option (list Z);
  remote_id : option (list Z);
  flags : Z
}.

Inductive relay_mode : Type := forward_and_append | forward_and_replace | forward_untouched | discard.

(** The variables that the command line sets, and the lists of interfaces and
    servers. *)
Record relay_config : Type := Config {
  add_agent_options : bool;
  add_rfc3527_suboption : bool;
  drop_agent_mismatches : bool;
  max_hop_count : Z;
  dhcp_max_agent_option_packet_length : Z;
  agent_relay_mode : relay_mode;
  interfaces : list interface_info;
  uplink : option interface_info;
  fallback_interface : option interface_info;
  servers : list (list Z)
}.

Inductive counter : Type :=
| corrupt_agent_options | missing_agent_option | bad_circuit_id | missing_circuit_id | agent_option_errors | bogus_giaddr_drops
| client_packets_relayed | client_packet_errors | server_packets_relayed | server_packet_errors.

Section Relay_agent.
Context (cfg : relay_config).

(** ** Finding the interface of a reply *)

(** The circuit ID among the suboptions, [None] when they are corrupt. *)
Fixpoint circuit_loop (fuel : nat) (buf : list Z) (i : Z) (circuit : option (list Z)) : outcome (option (option (list Z))) :=
  if Zlen buf <=? i then Ret (Some circuit)
  else
    match fuel with
    | O => Undef
    | S fuel =>
      if i + 1 =? Zlen buf then Ret None
      else
        l ← rd buf (i + 1);
        if Zlen buf <? i + l + 2 then Ret None
        else
          code ← rd buf i;
          if code =? RAI_CIRCUIT_ID then id ← memread buf (i + 2) l; circuit_loop fuel buf (i + l + 2) (Some id)
          else circuit_loop fuel buf (i + l + 2) circuit
    end.

(** The result, the interface and the counters. *)
Definition find_interface_by_agent_option (out : option interface_info) (buf : list Z) (n : list counter)
  : outcome (Z * option interface_info * list counter) :=
  c ← circuit_loop (length buf) buf 0 None;
  match c with
  | None => Ret (-1, out, corrupt_agent_options :: n)
  | Some None => Ret (-1, out, missing_circuit_id :: n)
  | Some (Some id) =>
    match list_find (fun ip => circuit_id ip = Some id) (interfaces cfg) with
    | Some (_, ip) => Ret (1, Some ip, n)
    | None => Ret (-1, out, bad_circuit_id :: n)
    end
  end.

(** ** Taking the option out *)

(** The loop of [strip_relay_agent_options], from [op] on; what is kept has been
    moved up to [sp].  [None] when the packet is dropped; otherwise the packet,
    [op], [sp], [is_dhcp] and [good_agent_option]. *)
Fixpoint strip_loop (fuel : nat) (b : list Z) (max op sp : Z) (is_dhcp good : bool) (out : option interface_info) (n : list counter)
  : outcome (option (list Z * Z * Z * bool * bool) * option interface_info * list counter) :=
  if max <=? op then Ret (Some (b, op, sp, is_dhcp, good), out, n)
  else
    match fuel with
    | O => Undef
    | S fuel =>
      let skip is_dhcp :=
        l ← rd b (op + 1);
        let nextop := op + l + 2 in
        if max <? nextop then Ret (None, out, n)
        else if sp =? op then strip_loop fuel b max nextop nextop is_dhcp good out n
        else
          d ← memread b op (l + 2);
          b ← memcpy b sp d;
          strip_loop fuel b max nextop (sp + l + 2) is_dhcp good out n in
      code ← rd b op;
      if code =? DHO_PAD then
        b ← if sp =? op then Ret b else wr b sp code;
        strip_loop fuel b max (op + 1) (sp + 1) is_dhcp good out n
      else if code =? DHO_DHCP_MESSAGE_TYPE then skip true
      else if code =? DHO_END then
        if sp =? op then Ret (Some (b, op, sp, is_dhcp, good), out, n)
        else b ← wr b sp code; Ret (Some (b, op + 1, sp + 1, is_dhcp, good), out, n)
      else if code =? DHO_DHCP_AGENT_OPTIONS then
        if negb is_dhcp then skip is_dhcp
        else
          l ← rd b (op + 1);
          let nextop := op + l + 2 in
          if max <? nextop then Ret (None, out, n)
          else
            buf ← memread b (op + 2) l;
            r ← find_interface_by_agent_option out buf n;
            let '(status, out, n) := r in
            if (status =? -1) && drop_agent_mismatches cfg then Ret (None, out, n)
            else strip_loop fuel b max nextop sp is_dhcp (good || negb (status =? 0)) out n
      else skip is_dhcp
    end.

(** [memset (&b[at_], v, n)]. *)
Definition memset (b : list Z) (at_ v n : Z) : outcome (list Z) := memcpy b at_ (replicate (Z.to_nat n) v).

(** [strip_relay_agent_options]: the new length (0 to drop the packet), the packet,
    the interface and the counters. *)
Definition strip_relay_agent_options (out : option interface_info) (b : list Z) (length : Z) (n : list counter)
  : outcome (Z * list Z * option interface_info * list counter) :=
  if negb (add_agent_options cfg) then Ret (length, b, out, n)
  else
    cookie ← memread b options_at 4;
    if negb (bool_decide (cookie = DHCP_OPTIONS_COOKIE)) then Ret (length, b, out, n)
    else
      let op := options_at + 4 in
      r ← strip_loop (Z.to_nat (length - op)) b length op op false false out n;
      match r with
      | (None, out, n) => Ret (0, b, out, n)
      | (Some (b, op, sp, is_dhcp, good), out, n) =>
        if negb is_dhcp then Ret (length, b, out, n)
        else
          let n := if good : bool then n else missing_agent_option :: n in
          if negb good && drop_agent_mismatches cfg then Ret (0, b, out, n)
          else if sp =? op then Ret (length, b, out, n)
          else if sp <? BOOTP_MIN_LEN then
            b ← memset b sp DHO_PAD (BOOTP_MIN_LEN - sp);
            Ret (BOOTP_MIN_LEN, b, out, n)
          else Ret (sp, b, out, n)
      end.

(** ** Putting the option in *)

(** How the loop of [add_relay_agent_options] ends: with a result of the function,
    or with the packet, [max], [sp], [is_dhcp] and [end_pad]. *)
Inductive add_exit : Type :=
| Add_return (length : Z)
| Add_out (b : list Z) (max sp : Z) (is_dhcp : bool) (end_pad : option Z).

Fixpoint add_loop (fuel : nat) (length : Z) (b : list Z) (max op sp : Z) (is_dhcp : bool) (end_pad : option Z) : outcome add_exit :=
  if max <=? op then Ret (Add_out b max sp is_dhcp end_pad)
  else
    match fuel with
    | O => Undef
    | S fuel =>
      let skip max is_dhcp :=
        l ← rd b (op + 1);
        let nextop := op + l + 2 in
        if max <? nextop then Ret (Add_return 0)
        else if sp =? op then add_loop fuel length b max nextop nextop is_dhcp None
        else
          d ← memread b op (l + 2);
          b ← memcpy b sp d;
          add_loop fuel length b max nextop (sp + l + 2) is_dhcp None in
      code ← rd b op;
      if code =? DHO_PAD then
        let end_pad := match end_pad with None => Some sp | Some _ => end_pad end in
        b ← if sp =? op then Ret b else wr b sp code;
        add_loop fuel length b max (op + 1) (sp + 1) is_dhcp end_pad
      else if code =? DHO_DHCP_MESSAGE_TYPE then skip max true
      else if code =? DHO_DHCP_MAX_MESSAGE_SIZE then
        x ← rd b (op + 2);
        let mms := ntohs x in
        skip (if (mms <? dhcp_max_agent_option_packet_length cfg) && (DHCP_MTU_MIN <=? mms) then mms else max) is_dhcp
      else if code =? DHO_END then Ret (Add_out b max sp is_dhcp end_pad)
      else if code =? DHO_DHCP_AGENT_OPTIONS then
        if negb is_dhcp then skip max is_dhcp
        else
          match agent_relay_mode cfg with
          | forward_and_append => skip max is_dhcp
          | forward_untouched => Ret (Add_return length)
          | discard => Ret (Add_return 0)
          | forward_and_replace =>
            l ← rd b (op + 1);
            add_loop fuel length b max (op + l + 2) sp is_dhcp None
          end
      else skip max is_dhcp
    end.

(** [*sp++ = x] for each [x]. *)
Fixpoint put_octets (b : list Z) (sp : Z) (l : list Z) : outcome (list Z * Z) :=
  match l with
  | [] => Ret (b, sp)
  | x :: l => b ← wr b sp (u8 x); put_octets b (sp + 1) l
  end.

(** [memcpy (sp, d, len); sp += len]. *)
Definition put_block (b : list Z) (sp : Z) (d : list Z) : outcome (list Z * Z) :=
  b ← memcpy b sp d;
  Ret (b, sp + Zlen d).

(** An address of an interface: [ip->addresses[0]]. *)
Definition first_address (ip : interface_info) : outcome (list Z) :=
  match addresses ip with a :: _ => Ret a | [] => Undef end.

Definition id_length (id : option (list Z)) : Z := match id with Some d => Zlen d | None => 0 end.

(** The option itself, from [sp] on. *)
Definition put_agent_option (ip : interface_info) (giaddr : list Z) (adding_link_select : bool) (optlen : Z) (b : list Z) (sp : Z)
  : outcome (list Z * Z) :=
  r ← put_octets b sp [DHO_DHCP_AGENT_OPTIONS; optlen; RAI_CIRCUIT_ID; id_length (circuit_id ip)];
  r ← match circuit_id ip with Some d => put_block (r.1) (r.2) d | None => Undef end;
  r ← match remote_id ip with
      | Some d => r ← put_octets (r.1) (r.2) [RAI_REMOTE_ID; Zlen d]; put_block (r.1) (r.2) d
      | None => Ret r
      end;
  if adding_link_select then
    r ← put_octets (r.1) (r.2) [RAI_LINK_SELECT; 4];
    r ← put_block (r.1) (r.2) giaddr;
    a ← match uplink cfg with Some up => first_address up | None => Undef end;
    b ← memcpy (r.1) giaddr_at a;
    Ret (b, r.2)
  else Ret r.

(** [add_relay_agent_options]: the new length (0 to drop the packet), the packet and
    the counters. *)
Definition add_relay_agent_options (ip : interface_info) (b : list Z) (length : Z) (giaddr : list Z) (n : list counter)
  : outcome (Z * list Z * list counter) :=
  if negb (add_agent_options cfg) then Ret (length, b, n)
  else
    cookie ← memread b options_at 4;
    if negb (bool_decide (cookie = DHCP_OPTIONS_COOKIE)) then Ret (length, b, n)
    else
      let max := dhcp_max_agent_option_packet_length cfg in
      g ← memread b giaddr_at 4;
      let adding_link_select := add_rfc3527_suboption cfg && bool_decide (g = [0; 0; 0; 0]) in
      let op := options_at + 4 in
      r ← add_loop (Z.to_nat (Z.max max DHCP_MTU_MAX)) length b max op op false None;
      match r with
      | Add_return l => Ret (l, b, n)
      | Add_out b max sp is_dhcp end_pad =>
        if negb is_dhcp then Ret (length, b, n)
        else
          let sp := match end_pad with Some p => p | None => sp end in
          let c := id_length (circuit_id ip) in
          if (255 <? c) || (c <? 1) then Fatal
          else
            let rl := id_length (remote_id ip) in
            if match remote_id ip with Some _ => (255 <? rl) || (rl <? 1) | None => false end then Fatal
            else
              let optlen := c + 2 + (match remote_id ip with Some _ => rl + 2 | None => 0 end)
                            + (if adding_link_select then 6 else 0) in
              if (optlen <? 3) || (255 <? optlen) then Fatal
              else
                r ← if optlen + 3 <=? max - sp then
                      r ← put_agent_option ip giaddr adding_link_select optlen b sp; Ret (r.1, r.2, n)
                    else Ret (b, sp, agent_option_errors :: n);
                let '(b, sp, n) := r in
                r ← if sp <? max then b ← wr b sp DHO_END; Ret (b, sp + 1) else Ret (b, sp);
                let '(b, sp) := r in
                if sp <? BOOTP_MIN_LEN then
                  b ← memset b sp DHO_PAD (BOOTP_MIN_LEN - sp);
                  Ret (BOOTP_MIN_LEN, b, n)
                else Ret (sp, b, n)
      end.

(** ** Forwarding *)

(** What is sent: through which interface, from which address, to which address
    and, unless it is broadcast, which hardware address. *)
Record transmission : Type := Send {
  sent_via : interface_info;
  sent_data : list Z;
  sent_from : list Z;
  sent_to : list Z;
  sent_hw : option (list Z)
}.

(** The interface with an address. *)
Definition interface_of (giaddr : list Z) : option interface_info :=
  snd <$> list_find (fun ip => giaddr ∈ addresses ip) (interfaces cfg).

Section Forwarding.
(** What [can_unicast_without_arp] answers, which depends on the way packets are
    sent, and whether [send_packet] succeeds. *)
Context (can_unicast_without_arp : option interface_info -> bool) (send_packet : transmission -> bool).

Definition relay_reply (ip : interface_info) (b : list Z) (length : Z) (out : option interface_info) (n : list counter)
  : outcome (list transmission * list counter) :=
  if Z.land (flags ip) INTERFACE_UPSTREAM =? 0 then Ret ([], n)
  else
    fl ← memread b flags_at 2;
    yiaddr ← memread b yiaddr_at 4;
    htype ← rd b htype_at;
    hlen ← rd b hlen_at;
    chaddr ← memread b chaddr_at hlen;
    let '(to, htop) :=
      if (Z.land (be_val fl) BOOTP_BROADCAST =? 0) && can_unicast_without_arp out then (yiaddr, Some (htype :: chaddr))
      else ([255; 255; 255; 255], None) in
    r ← strip_relay_agent_options out b length n;
    let '(length, b, out, n) := r in
    if length =? 0 then Ret ([], n)
    else
      match out with
      | None => Ret ([], bogus_giaddr_drops :: n)
      | Some out =>
        from ← first_address out;
        data ← memread b 0 length;
        let s := Send out data from to htop in
        Ret ([s], if send_packet s then server_packets_relayed :: n else server_packet_errors :: n)
      end.

Fixpoint to_servers (via : interface_info) (data from : list Z) (l : list (list Z)) (n : list counter) : list transmission * list counter :=
  match l with
  | [] => ([], n)
  | to :: l =>
    let s := Send via data from to None in
    let '(sent, n) := to_servers via data from l (if send_packet s then client_packets_relayed :: n else client_packet_errors :: n) in
    (s :: sent, n)
  end.

Definition relay_request (ip : interface_info) (b : list Z) (length : Z) (n : list counter) : outcome (list transmission * list counter) :=
  if Z.land (flags ip) INTERFACE_DOWNSTREAM =? 0 then Ret ([], n)
  else
    from ← first_address ip;
    r ← add_relay_agent_options ip b length from n;
    let '(length, b, n) := r in
    if length =? 0 then Ret ([], n)
    else
      giaddr ← memread b giaddr_at 4;
      b ← if bool_decide (giaddr = [0; 0; 0; 0]) then memcpy b giaddr_at from else Ret b;
      hops ← rd b hops_at;
      if negb (hops <? max_hop_count cfg) then Ret ([], n)
      else
        b ← wr b hops_at (u8 (hops + 1));
        data ← memread b 0 length;
        match servers cfg with
        | [] => Ret ([], n)
        | _ =>
          via ← match fallback_interface cfg, interfaces cfg with Some i, _ | None, i :: _ => Ret i | None, [] => Undef end;
          Ret (to_servers via data from (servers cfg) n)
        end.

Definition do_relay4 (ip : interface_info) (b : list Z) (length : Z) (n : list counter) : outcome (list transmission * list counter) :=
  hlen ← rd b hlen_at;
  if 16 <? hlen then Ret ([], n)
  else if bool_decide (addresses ip = []) then Ret ([], n)
  else
    giaddr ← memread b giaddr_at 4;
    let out := if bool_decide (giaddr = [0; 0; 0; 0]) then None else interface_of giaddr in
    op ← rd b op_at;
    if op =? BOOTREPLY then relay_reply ip b length out n
    else match out with Some _ => Ret ([], n) | None => relay_request ip b length n end.

End Forwarding.

End Relay_agent.

(** ** The options area as items *)

(** One pad octet, or an option with its value. *)
Inductive item : Type := Pad | Opt (code : Z) (data : list Z).

Definition item_octets (i : item) : list Z := match i with Pad => [DHO_PAD] | Opt code d => code :: Zlen d :: d end.

Definition area (l : list item) : list Z := concat (map item_octets l).

Definition item_ok (i : item) : Prop :=
  match i with
  | Pad => True
  | Opt code d => is_byte code /\ code <> DHO_PAD /\ code <> DHO_END /\ is_bytes d /\ Zlen d < 256
  end.

Lemma area_app l l' : area (l ++ l') = area l ++ area l'.
Proof. unfold area. by rewrite map_app, concat_app. Qed.

Lemma rd_at (b A D : list Z) x at_ : b = A ++ x :: D -> at_ = Zlen A -> rd b at_ = Ret x.
Proof.
  intros -> ->. apply rdA_lookup; unfold Zlen; [lia|]. rewrite Nat2Z.id. by rewrite list_lookup_middle.
Qed.

(** Moving a block [D] down over a gap [G]. *)
Lemma move_down (A G D R : list Z) :
  memread (A ++ G ++ D ++ R) (Zlen A + Zlen G) (Zlen D) = Ret D /\
  exists G', Zlen G' = Zlen G /\ memcpy (A ++ G ++ D ++ R) (Zlen A) D = Ret (A ++ D ++ G' ++ R).
Proof.
  split.
  - rewrite (app_assoc A G). rewrite <- Zlen_app. by apply memread_mid.
  - exists (drop (length D) (G ++ D)). split; [unfold Zlen; rewrite length_drop, length_app; lia|].
    unfold memcpy, Zlen. rewrite bool_decide_true by (rewrite !length_app; lia). rewrite Nat2Z.id, take_app_length. f_equal. f_equal. f_equal.
    rewrite drop_app_add. rewrite (app_assoc G D R), drop_app_le; [done|rewrite length_app; lia].
Qed.

(** Skipping over one option, as both loops do it. *)
Lemma skip_option {T} (K : list Z -> Z -> Z -> outcome T) (X : outcome T) A G code d R max :
  Zlen d < 256 -> Zlen A + Zlen G + Zlen d + 2 <= max ->
  let b := A ++ G ++ item_octets (Opt code d) ++ R in let op := Zlen A + Zlen G in let sp := Zlen A in
  exists G', Zlen G' = Zlen G /\
  (l ← rd b (op + 1);
   let nextop := op + l + 2 in
   if max <? nextop then X
   else if sp =? op then K b nextop nextop
   else d ← memread b op (l + 2); b ← memcpy b sp d; K b nextop (sp + l + 2)) =
  K ((A ++ item_octets (Opt code d)) ++ G' ++ R) (Zlen (A ++ item_octets (Opt code d)) + Zlen G') (Zlen (A ++ item_octets (Opt code d))).
Proof.
  intros Hd Hmax b op sp. unfold b, op, sp. clear b op sp.
  rewrite (rd_at _ (A ++ G ++ [code]) (d ++ R) (Zlen d)); [|cbn [item_octets app]; by rewrite <- !app_assoc|rewrite !Zlen_app; cbn; unfold Zlen; cbn; lia].
  cbn [mbind outcome_bind]. cbn zeta. destruct (Z.ltb_spec max (Zlen A + Zlen G + Zlen d + 2)) as [?|_]; [lia|].
  assert (Zlen (item_octets (Opt code d)) = Zlen d + 2) as Ei by (cbn [item_octets]; rewrite !Zlen_cons; lia).
  destruct (move_down A G (item_octets (Opt code d)) R) as (E1 & G' & HG & E2). rewrite Ei in E1.
  destruct (Z.eqb_spec (Zlen A) (Zlen A + Zlen G)) as [E|E].
  - assert (G = []) as -> by (destruct G; [done|]; rewrite Zlen_cons in E; pose proof (Zlen_nonneg G); lia).
    exists []. split; [done|]. cbn [app]. rewrite <- app_assoc, Zlen_app, Ei. change (Zlen (@nil Z)) with 0. f_equal; lia.
  - exists G'. split; [done|]. rewrite E1. cbn [mbind outcome_bind]. rewrite E2. cbn [mbind outcome_bind].
    rewrite <- app_assoc, Zlen_app, Ei, HG. f_equal; lia.
Qed.

(** ** What the loop of the stripping does *)

(** The items that are kept, and the values of the agent options that are taken
    out: those behind the message type. *)
Fixpoint without_agent (is_dhcp : bool) (l : list item) : list item :=
  match l with
  | [] => []
  | Pad :: l => Pad :: without_agent is_dhcp l
  | Opt code d :: l =>
    if code =? DHO_DHCP_MESSAGE_TYPE then Opt code d :: without_agent true l
    else if (code =? DHO_DHCP_AGENT_OPTIONS) && is_dhcp then without_agent is_dhcp l
    else Opt code d :: without_agent is_dhcp l
  end.

Fixpoint agent_values (is_dhcp : bool) (l : list item) : list (list Z) :=
  match l with
  | [] => []
  | Pad :: l => agent_values is_dhcp l
  | Opt code d :: l =>
    if code =? DHO_DHCP_MESSAGE_TYPE then agent_values true l
    else if (code =? DHO_DHCP_AGENT_OPTIONS) && is_dhcp then d :: agent_values is_dhcp l
    else agent_values is_dhcp l
  end.

Definition is_type (i : item) : bool := match i with Opt code _ => code =? DHO_DHCP_MESSAGE_TYPE | Pad => false end.

Lemma area_cons i l : area (i :: l) = item_octets i ++ area l.
Proof. done. Qed.

Lemma no_gap (A G : list Z) : Zlen A = Zlen A + Zlen G -> G = [].
Proof. destruct G; [done|]. rewrite Zlen_cons. pose proof (Zlen_nonneg G). lia. Qed.

(** Skipping over a pad octet, as both loops do it. *)
Lemma skip_pad {T} (K : list Z -> Z -> Z -> outcome T) A G R :
  let b := A ++ G ++ item_octets Pad ++ R in let op := Zlen A + Zlen G in let sp := Zlen A in
  exists G', Zlen G' = Zlen G /\
  (b ← if sp =? op then Ret b else wr b sp DHO_PAD; K b (op + 1) (sp + 1)) =
  K ((A ++ item_octets Pad) ++ G' ++ R) (Zlen (A ++ item_octets Pad) + Zlen G') (Zlen (A ++ item_octets Pad)).
Proof.
  intros b op sp. unfold b, op, sp. clear b op sp. rewrite Zlen_app. change (Zlen (item_octets Pad)) with 1.
  destruct (Z.eqb_spec (Zlen A) (Zlen A + Zlen G)) as [E|E].
  - apply no_gap in E as ->. exists []. split; [done|]. cbn [mbind outcome_bind app]. rewrite <- app_assoc. change (Zlen (@nil Z)) with 0. f_equal; lia.
  - destruct (move_down A G [DHO_PAD] R) as (_ & G' & HG & E2). exists G'. split; [done|]. change (item_octets Pad) with [DHO_PAD]. rewrite wr_memcpy, E2.
    cbn [mbind outcome_bind]. rewrite <- app_assoc. f_equal; lia.
Qed.

Section Strip.
Context (cfg : relay_config).

(** The interface that the agent options lead to, one after the other. *)
Fixpoint find_all (out : option interface_info) (n : list counter) (good : bool) (vs : list (list Z))
  : outcome (option bool * option interface_info * list counter) :=
  match vs with
  | [] => Ret (Some good, out, n)
  | v :: vs =>
    r ← find_interface_by_agent_option cfg out v n;
    let '(status, out, n) := r in
    if (status =? -1) && drop_agent_mismatches cfg then Ret (None, out, n)
    else find_all out n (good || negb (status =? 0)) vs
  end.

(** The result of the loop, for the gap [G] that the agent options leave. *)
Definition stripped (A G R : list Z) (kept : list item) (is_dhcp : bool) (r : option bool * option interface_info * list counter)
  : option (list Z * Z * Z * bool * bool) * option interface_info * list counter :=
  match r with
  | (None, out, n) => (None, out, n)
  | (Some good, out, n) =>
    let sp := Zlen A + Zlen (area kept) + (if Zlen G =? 0 then 0 else 1) in
    (Some (A ++ area kept ++ DHO_END :: G ++ R, sp + Zlen G, sp, is_dhcp, good), out, n)
  end.

Lemma strip_pad fuel b max op sp is_dhcp good out n :
  op < max -> rd b op = Ret DHO_PAD ->
  strip_loop cfg (S fuel) b max op sp is_dhcp good out n =
    b ← if sp =? op then Ret b else wr b sp DHO_PAD; strip_loop cfg fuel b max (op + 1) (sp + 1) is_dhcp good out n.
Proof. intros H E. cbn [strip_loop]. destruct (Z.leb_spec max op); [lia|]. by rewrite E. Qed.

Lemma strip_option fuel b max op sp is_dhcp good out n code :
  op < max -> rd b op = Ret code -> code <> DHO_PAD -> code <> DHO_END ->
  strip_loop cfg (S fuel) b max op sp is_dhcp good out n =
    if (code =? DHO_DHCP_AGENT_OPTIONS) && is_dhcp then
      l ← rd b (op + 1);
      let nextop := op + l + 2 in
      if max <? nextop then Ret (None, out, n)
      else
        buf ← memread b (op + 2) l;
        r ← find_interface_by_agent_option cfg out buf n;
        let '(status, out, n) := r in
        if (status =? -1) && drop_agent_mismatches cfg then Ret (None, out, n)
        else strip_loop cfg fuel b max nextop sp is_dhcp (good || negb (status =? 0)) out n
    else
      l ← rd b (op + 1);
      let nextop := op + l + 2 in
      if max <? nextop then Ret (None, out, n)
      else if sp =? op then strip_loop cfg fuel b max nextop nextop (is_dhcp || (code =? DHO_DHCP_MESSAGE_TYPE)) good out n
      else
        d ← memread b op (l + 2);
        b ← memcpy b sp d;
        strip_loop cfg fuel b max nextop (sp + l + 2) (is_dhcp || (code =? DHO_DHCP_MESSAGE_TYPE)) good out n.
Proof.
  intros H E Hp He. cbn [strip_loop]. destruct (Z.leb_spec max op); [lia|]. rewrite E. cbn [mbind outcome_bind].
  rewrite (proj2 (Z.eqb_neq code DHO_PAD)), (proj2 (Z.eqb_neq code DHO_END)) by done.
  destruct (Z.eqb_spec code DHO_DHCP_MESSAGE_TYPE) as [->|]; [by rewrite orb_true_r|]. rewrite orb_false_r.
  destruct (code =? DHO_DHCP_AGENT_OPTIONS), is_dhcp; done.
Qed.

Lemma stripped_cons A i G R kept is_dhcp r :
  stripped (A ++ item_octets i) G R kept is_dhcp r = stripped A G R (i :: kept) is_dhcp r.
Proof.
  destruct r as [[[good|] out] n]; [|done]. unfold stripped. rewrite area_cons, !Zlen_app, <- !app_assoc.
  by replace (Zlen A + (Zlen (item_octets i) + Zlen (area kept))) with (Zlen A + Zlen (item_octets i) + Zlen (area kept)) by lia.
Qed.

Lemma strip_kept {T} (F : outcome T) f X (A G G2 R : list Z) i items kept is_dhcp :
  Zlen G2 = Zlen G ->
  (exists G', Zlen G' = Zlen G2 + Zlen (area items) - Zlen (area kept) /\ X = r ← F; Ret (stripped (A ++ item_octets i) G' R kept is_dhcp (f r))) ->
  exists G', Zlen G' = Zlen G + Zlen (area (i :: items)) - Zlen (area (i :: kept)) /\ X = r ← F; Ret (stripped A G' R (i :: kept) is_dhcp (f r)).
Proof.
  intros HG (G' & H & ->). exists G'. rewrite !area_cons, !Zlen_app. split; [lia|]. destruct F; [|done..]. cbn [mbind outcome_bind]. by rewrite stripped_cons.
Qed.

Lemma strip_end fuel A G R max is_dhcp good out n :
  Zlen A + Zlen G < max ->
  exists G', Zlen G' = Zlen G /\
  strip_loop cfg (S fuel) (A ++ G ++ DHO_END :: R) max (Zlen A + Zlen G) (Zlen A) is_dhcp good out n =
  Ret (stripped A G' R [] is_dhcp (Some good, out, n)).
Proof.
  intros Hmax. cbn [strip_loop]. destruct (Z.leb_spec max (Zlen A + Zlen G)); [lia|].
  rewrite (rd_at _ (A ++ G) R DHO_END (Zlen A + Zlen G)) by (rewrite ?Zlen_app; rewrite <- ?app_assoc; reflexivity). cbn [mbind outcome_bind].
  change (DHO_END =? DHO_PAD) with false. change (DHO_END =? DHO_DHCP_MESSAGE_TYPE) with false. change (DHO_END =? DHO_END) with true. cbn iota.
  unfold stripped. change (area []) with (@nil Z). change (Zlen (@nil Z)) with 0. rewrite Z.add_0_r.
  destruct (Z.eqb_spec (Zlen A) (Zlen A + Zlen G)) as [E|E].
  - apply no_gap in E as ->. exists []. split; [done|]. change (Zlen (@nil Z)) with 0. change (0 =? 0) with true. cbn iota. by rewrite !Z.add_0_r.
  - destruct (move_down A G [DHO_END] R) as (_ & G' & HG & E2). exists G'. split; [done|].
    cbn [app] in E2. rewrite wr_memcpy, E2. cbn [mbind outcome_bind app].
    destruct (Z.eqb_spec (Zlen G') 0); [lia|]. rewrite HG. by replace (Zlen A + Zlen G + 1) with (Zlen A + 1 + Zlen G) by lia.
Qed.

Lemma strip_agent {T} (K : list Z -> Z -> outcome T) (X : outcome T) A G d R max :
  Zlen A + Zlen G + Zlen d + 2 <= max ->
  let b := A ++ G ++ item_octets (Opt DHO_DHCP_AGENT_OPTIONS d) ++ R in let op := Zlen A + Zlen G in
  (l ← rd b (op + 1);
   let nextop := op + l + 2 in
   if max <? nextop then X else buf ← memread b (op + 2) l; K buf nextop) = K d (op + Zlen d + 2).
Proof.
  intros Hmax b op. unfold b, op. clear b op. rewrite (rd_at _ (A ++ G ++ [DHO_DHCP_AGENT_OPTIONS]) (d ++ R) (Zlen d)); [|by rewrite <- !app_assoc|rewrite !Zlen_app; change (Zlen [_]) with 1; lia].
  cbn [mbind outcome_bind]. cbn zeta. destruct (Z.ltb_spec max (Zlen A + Zlen G + Zlen d + 2)); [lia|].
  replace (A ++ G ++ item_octets (Opt DHO_DHCP_AGENT_OPTIONS d) ++ R) with ((A ++ G ++ [DHO_DHCP_AGENT_OPTIONS; Zlen d]) ++ d ++ R) by (by rewrite <- !app_assoc).
  replace (Zlen A + Zlen G + 2) with (Zlen (A ++ G ++ [DHO_DHCP_AGENT_OPTIONS; Zlen d])) by (rewrite !Zlen_app; change (Zlen [_; _]) with 2; lia).
  by rewrite memread_mid.
Qed.

Lemma without_agent_le is_dhcp items : Zlen (area (without_agent is_dhcp items)) <= Zlen (area items).
Proof.
  revert is_dhcp. induction items as [|[|code d] items IH]; intros is_dhcp; cbn [without_agent]; [done|..].
  - rewrite !area_cons, !Zlen_app. specialize (IH is_dhcp). lia.
  - pose proof (Zlen_nonneg (item_octets (Opt code d))). pose proof (IH true). pose proof (IH is_dhcp).
    destruct (code =? _); [|destruct (_ && _)]; rewrite ?area_cons, ?Zlen_app; lia.
Qed.

(** Taking one agent option out, when the rest is done as [K] does it. *)
Lemma strip_removed K (A G G1 R : list Z) d items good out n :
  Zlen G1 = Zlen G + Zlen (item_octets (Opt DHO_DHCP_AGENT_OPTIONS d)) ->
  (forall good out n, exists G', Zlen G' = Zlen G1 + Zlen (area items) - Zlen (area (without_agent true items)) /\
    K good out n = r ← find_all out n good (agent_values true items); Ret (stripped A G' R (without_agent true items) true r)) ->
  exists G', Zlen G' = Zlen G + Zlen (area (Opt DHO_DHCP_AGENT_OPTIONS d :: items)) - Zlen (area (without_agent true items)) /\
  (r ← find_interface_by_agent_option cfg out d n;
   let '(status, out, n) := r in
   if (status =? -1) && drop_agent_mismatches cfg then Ret (None, out, n) else K (good || negb (status =? 0)) out n) =
  r ← find_all out n good (d :: agent_values true items); Ret (stripped A G' R (without_agent true items) true r).
Proof.
  intros HG HK. cbn [find_all]. rewrite area_cons, Zlen_app.
  assert (exists G' : list Z, Zlen G' = Zlen G + (Zlen (item_octets (Opt DHO_DHCP_AGENT_OPTIONS d)) + Zlen (area items)) - Zlen (area (without_agent true items))) as [G0 HG0].
  { pose proof (without_agent_le true items). pose proof (Zlen_nonneg (item_octets (Opt DHO_DHCP_AGENT_OPTIONS d))). pose proof (Zlen_nonneg G).
    eexists (replicate (Z.to_nat _) 0). unfold Zlen at 1. rewrite length_replicate. rewrite Z2Nat.id; [reflexivity|lia]. }
  destruct (find_interface_by_agent_option cfg out d n) as [[[status out'] n']| |]; [|by exists G0..]. cbn [mbind outcome_bind].
  destruct ((status =? -1) && drop_agent_mismatches cfg); [by exists G0|].
  destruct (HK (good || negb (status =? 0)) out' n') as (G' & HG' & E). exists G'. split; [lia|exact E].
Qed.

Lemma strip_loop_items items : forall fuel A G R max is_dhcp good out n,
  Forall item_ok items -> Zlen A + Zlen G + Zlen (area items) + 1 <= max -> (length items < fuel)%nat ->
  exists G', Zlen G' = Zlen G + Zlen (area items) - Zlen (area (without_agent is_dhcp items)) /\
  strip_loop cfg fuel (A ++ G ++ area items ++ DHO_END :: R) max (Zlen A + Zlen G) (Zlen A) is_dhcp good out n =
  r ← find_all out n good (agent_values is_dhcp items);
  Ret (stripped A G' R (without_agent is_dhcp items) (is_dhcp || existsb is_type items) r).
Proof.
  induction items as [|i items IH]; intros [|fuel] A G R max is_dhcp good out n Hok Hmax Hf; try (cbn in Hf; lia).
  - cbn [without_agent agent_values find_all existsb mbind outcome_bind app area map concat]. rewrite orb_false_r.
    change (Zlen (area [])) with 0 in *. destruct (strip_end fuel A G R max is_dhcp good out n) as (G' & HG & ->); [lia|].
    exists G'. split; [lia|done].
  - inversion_clear Hok as [|? ? Hi Hok']. rewrite area_cons, Zlen_app in Hmax. pose proof (Zlen_nonneg (area items)).
    assert (length items < fuel)%nat as Hf' by (cbn in Hf; lia).
    assert (forall dhcp G2, Zlen G2 = Zlen G -> exists G', Zlen G' = Zlen G2 + Zlen (area items) - Zlen (area (without_agent dhcp items)) /\
      strip_loop cfg fuel ((A ++ item_octets i) ++ G2 ++ area items ++ DHO_END :: R) max (Zlen (A ++ item_octets i) + Zlen G2) (Zlen (A ++ item_octets i)) dhcp good out n =
      r ← find_all out n good (agent_values dhcp items); Ret (stripped (A ++ item_octets i) G' R (without_agent dhcp items) (dhcp || existsb is_type items) r)) as IH'.
    { intros dhcp G2 HG2. apply IH; [done| |done]. rewrite Zlen_app. lia. }
    assert (A ++ G ++ area (i :: items) ++ DHO_END :: R = A ++ G ++ item_octets i ++ area items ++ DHO_END :: R) as Eb by (rewrite area_cons; by rewrite <- app_assoc).
    rewrite Eb. destruct i as [|code d].
    + rewrite strip_pad; [|change (Zlen (item_octets Pad)) with 1 in Hmax; lia|apply (rd_at _ (A ++ G) (area items ++ DHO_END :: R)); [by rewrite <- app_assoc|by rewrite Zlen_app]].
      destruct (skip_pad (fun b op sp => strip_loop cfg fuel b max op sp is_dhcp good out n) A G (area items ++ DHO_END :: R)) as (G2 & HG2 & E2).
      cbn zeta in E2. rewrite E2. exact (strip_kept _ id _ _ _ _ _ Pad _ _ _ HG2 (IH' is_dhcp G2 HG2)).
    + destruct Hi as (_ & Hp & He & Hd & Hl). assert (Zlen (item_octets (Opt code d)) = Zlen d + 2) as Ei by (cbn [item_octets]; rewrite !Zlen_cons; lia).
      pose proof (Zlen_nonneg d). rewrite (strip_option _ _ _ _ _ _ _ _ _ code); [|lia|apply (rd_at _ (A ++ G) (Zlen d :: d ++ area items ++ DHO_END :: R)); [by rewrite <- app_assoc|by rewrite Zlen_app]|done|done].
      cbn [without_agent agent_values existsb is_type]. destruct ((code =? DHO_DHCP_AGENT_OPTIONS) && is_dhcp) eqn:Ea.
      * apply andb_true_iff in Ea as [->%Z.eqb_eq ->]. change (DHO_DHCP_AGENT_OPTIONS =? DHO_DHCP_MESSAGE_TYPE) with false. cbn iota.
        pose proof (strip_agent (fun buf nextop => r ← find_interface_by_agent_option cfg out buf n;
          let '(status, out, n) := r in
          if (status =? -1) && drop_agent_mismatches cfg then Ret (None, out, n)
          else strip_loop cfg fuel (A ++ G ++ item_octets (Opt DHO_DHCP_AGENT_OPTIONS d) ++ area items ++ DHO_END :: R) max nextop (Zlen A) true (good || negb (status =? 0)) out n)
          (Ret (None, out, n)) A G d (area items ++ DHO_END :: R) max ltac:(lia)) as Es.
        cbn zeta in Es |- *. rewrite Es.
        apply (strip_removed (fun good out n => strip_loop cfg fuel _ max _ (Zlen A) true good out n) A G (G ++ item_octets (Opt DHO_DHCP_AGENT_OPTIONS d))); [by rewrite Zlen_app|].
        intros good' out' n'. replace (Zlen A + Zlen G + Zlen d + 2) with (Zlen A + Zlen (G ++ item_octets (Opt DHO_DHCP_AGENT_OPTIONS d))) by (rewrite Zlen_app; lia).
        rewrite (app_assoc G). apply IH; [done|rewrite Zlen_app; lia|done].
      * destruct (skip_option (fun b op sp => strip_loop cfg fuel b max op sp (is_dhcp || (code =? DHO_DHCP_MESSAGE_TYPE)) good out n) (Ret (None, out, n)) A G code d
          (area items ++ DHO_END :: R) max) as (G2 & HG2 & E2); [done|lia|].
        cbn zeta in E2 |- *. rewrite E2.
        pose proof (strip_kept _ id _ _ _ _ _ (Opt code d) _ _ _ HG2 (IH' (is_dhcp || (code =? DHO_DHCP_MESSAGE_TYPE)) G2 HG2)) as K.
        destruct is_dhcp, (code =? DHO_DHCP_MESSAGE_TYPE); exact K.
Qed.

(** ** Stripping a packet *)

(** A packet with a cookie, items, an end option and what follows it. *)
Definition dhcp_buffer (hdr : list Z) (items : list item) (R : list Z) : list Z :=
  hdr ++ DHCP_OPTIONS_COOKIE ++ area items ++ DHO_END :: R.

Lemma buffer_prefix hdr items R :
  Zlen hdr = options_at -> memread (dhcp_buffer hdr items R) options_at 4 = Ret DHCP_OPTIONS_COOKIE.
Proof. intros <-. unfold dhcp_buffer. by apply memread_mid. Qed.

Lemma without_agent_lt is_dhcp items : agent_values is_dhcp items <> [] -> Zlen (area (without_agent is_dhcp items)) < Zlen (area items).
Proof.
  revert is_dhcp. induction items as [|[|code d] items IH]; intros is_dhcp; cbn [without_agent agent_values]; [done|..].
  - intros H%IH. rewrite !area_cons, !Zlen_app. lia.
  - destruct (code =? _); [|destruct (_ && _)]; intros H; rewrite ?area_cons, ?Zlen_app; [specialize (IH _ H); lia| |specialize (IH _ H); lia].
    pose proof (without_agent_le is_dhcp items). cbn [item_octets]. rewrite !Zlen_cons. pose proof (Zlen_nonneg d). lia.
Qed.

Lemma memset_pads (A R : list Z) m : Zlen A <= m -> m <= Zlen (A ++ R) ->
  memset (A ++ R) (Zlen A) DHO_PAD (m - Zlen A) = Ret (A ++ replicate (Z.to_nat (m - Zlen A)) DHO_PAD ++ drop (Z.to_nat (m - Zlen A)) R).
Proof.
  intros H1 H2. unfold memset. pose proof (Zlen_nonneg A). rewrite memcpy_splice; [|lia|unfold Zlen in *; rewrite length_app, length_replicate in *; lia].
  unfold splice. f_equal. unfold Zlen. rewrite Nat2Z.id, take_app_length, length_replicate. by rewrite drop_app_add.
Qed.

(** At least one agent option is found: the rest is what is sent, padded to the
    least length of a packet. *)
Lemma strip_packet out hdr items R length n good out' n' :
  add_agent_options cfg = true -> Zlen hdr = options_at -> Forall item_ok items -> existsb is_type items = true ->
  agent_values false items <> [] -> options_at + 5 + Zlen (area items) <= length -> BOOTP_MIN_LEN <= Zlen (dhcp_buffer hdr items R) ->
  find_all out n false (agent_values false items) = Ret (Some good, out', n') -> good || negb (drop_agent_mismatches cfg) = true ->
  let kept := without_agent false items in
  let len := options_at + 5 + Zlen (area kept) in
  exists R', strip_relay_agent_options cfg out (dhcp_buffer hdr items R) length n =
    Ret (Z.max BOOTP_MIN_LEN len, dhcp_buffer hdr kept (replicate (Z.to_nat (BOOTP_MIN_LEN - len)) DHO_PAD ++ R'), out',
         if good : bool then n' else missing_agent_option :: n') /\
    Zlen (dhcp_buffer hdr kept (replicate (Z.to_nat (BOOTP_MIN_LEN - len)) DHO_PAD ++ R')) = Zlen (dhcp_buffer hdr items R).
Proof.
  intros Ha Hh Hok Ht Hv Hl Hb Hf Hg kept len. unfold strip_relay_agent_options. rewrite Ha, buffer_prefix by done. cbn [negb mbind outcome_bind].
  rewrite bool_decide_true by done. cbn [negb]. cbn zeta.
  destruct (strip_loop_items items (Z.to_nat (length - (options_at + 4))) (hdr ++ DHCP_OPTIONS_COOKIE) [] R length false false out n) as (G & HG & E); [done|..].
  { rewrite Zlen_app, Hh. change (Zlen DHCP_OPTIONS_COOKIE) with 4. change (Zlen (@nil Z)) with 0. lia. }
  { assert (Datatypes.length items <= Datatypes.length (area items))%nat.
    { clear. induction items as [|i items IH]; [done|]. rewrite area_cons, length_app. destruct i; cbn [item_octets Datatypes.length]; lia. }
    unfold Zlen in *. lia. }
  rewrite Hf in E. rewrite Ht in E. cbn [mbind outcome_bind orb app] in E. change (Zlen (@nil Z)) with 0 in E, HG. rewrite Z.add_0_r in E.
  rewrite Zlen_app, Hh in E. change (Zlen DHCP_OPTIONS_COOKIE) with 4 in E. rewrite <- app_assoc in E.
  change (hdr ++ DHCP_OPTIONS_COOKIE ++ area items ++ DHO_END :: R) with (dhcp_buffer hdr items R) in E. rewrite E. clear E.
  cbn [mbind outcome_bind stripped]. cbn zeta. cbn [negb].
  assert (negb good && drop_agent_mismatches cfg = false) as -> by (by destruct good, (drop_agent_mismatches cfg)).
  pose proof (without_agent_lt false items Hv) as Hlt. destruct (Z.eqb_spec (Zlen G) 0) as [?|_]; [lia|].
  set (A := hdr ++ DHCP_OPTIONS_COOKIE ++ area kept ++ [DHO_END]).
  assert (Zlen A = len) as EA by (unfold A, len; rewrite !Zlen_app, Hh; change (Zlen DHCP_OPTIONS_COOKIE) with 4; change (Zlen [DHO_END]) with 1; lia).
  assert (forall X, (hdr ++ DHCP_OPTIONS_COOKIE) ++ area kept ++ DHO_END :: X = A ++ X) as EX by (intros X; unfold A; by rewrite <- !app_assoc).
  rewrite Zlen_app, Hh. change (Zlen DHCP_OPTIONS_COOKIE) with 4.
  change (area (without_agent false items)) with (area kept) in *.
  replace (options_at + 4 + Zlen (area kept) + 1) with len by (unfold len; lia).
  destruct (Z.eqb_spec len (len + Zlen G)) as [?|_]; [lia|]. rewrite EX.
  assert (forall X, dhcp_buffer hdr kept X = A ++ X) as ED by (intros X; unfold dhcp_buffer, A; by rewrite <- !app_assoc).
  assert (Zlen (dhcp_buffer hdr items R) = len + Zlen G + Zlen R) as EB.
  { unfold dhcp_buffer, len. rewrite !Zlen_app, Zlen_cons, Hh. change (Zlen DHCP_OPTIONS_COOKIE) with 4. lia. }
  rewrite EB in Hb |- *. destruct (Z.ltb_spec len BOOTP_MIN_LEN).
  - rewrite <- EA. rewrite memset_pads by (rewrite ?Zlen_app, ?EA; lia). cbn [mbind outcome_bind].
    exists (drop (Z.to_nat (BOOTP_MIN_LEN - Zlen A)) (G ++ R)). rewrite ED, Z.max_l by lia. split; [done|].
    rewrite !Zlen_app. unfold Zlen in *. rewrite length_replicate, length_drop, length_app. lia.
  - exists (G ++ R). replace (Z.to_nat (BOOTP_MIN_LEN - len)) with 0%nat by lia. cbn [replicate app]. rewrite ED, Z.max_r by lia. split; [done|].
    rewrite !Zlen_app. lia.
Qed.

End Strip.

(** ** What the loop of the adding does *)

Section Add.
Context (cfg : relay_config).

Definition changes_max (x : Z) : bool := (ntohs x <? dhcp_max_agent_option_packet_length cfg) && (DHCP_MTU_MIN <=? ntohs x).

(** The greatest length of the packet, after an option that may lower it. *)
Definition max_after (max : Z) (i : item) : Z :=
  match i with
  | Opt code (x :: _) => if (code =? DHO_DHCP_MAX_MESSAGE_SIZE) && changes_max x then ntohs x else max
  | _ => max
  end.

Definition size_ok (i : item) : Prop := match i with Opt code [] => code <> DHO_DHCP_MAX_MESSAGE_SIZE | _ => True end.

Lemma add_pad fuel len b max op sp is_dhcp end_pad :
  op < max -> rd b op = Ret DHO_PAD ->
  add_loop cfg (S fuel) len b max op sp is_dhcp end_pad =
    b ← if sp =? op then Ret b else wr b sp DHO_PAD;
    add_loop cfg fuel len b max (op + 1) (sp + 1) is_dhcp (match end_pad with None => Some sp | Some _ => end_pad end).
Proof. intros H E. cbn [add_loop]. destruct (Z.leb_spec max op); [lia|]. by rewrite E. Qed.

Lemma add_option fuel len b max op sp is_dhcp end_pad code :
  op < max -> rd b op = Ret code -> code <> DHO_PAD -> code <> DHO_END ->
  (code =? DHO_DHCP_AGENT_OPTIONS) && is_dhcp = false \/ agent_relay_mode cfg = forward_and_append ->
  add_loop cfg (S fuel) len b max op sp is_dhcp end_pad =
    max ← if code =? DHO_DHCP_MAX_MESSAGE_SIZE then x ← rd b (op + 2); Ret (if changes_max x then ntohs x else max) else Ret max;
    l ← rd b (op + 1);
    let nextop := op + l + 2 in
    if max <? nextop then Ret (Add_return 0)
    else if sp =? op then add_loop cfg fuel len b max nextop nextop (is_dhcp || (code =? DHO_DHCP_MESSAGE_TYPE)) None
    else
      d ← memread b op (l + 2);
      b ← memcpy b sp d;
      add_loop cfg fuel len b max nextop (sp + l + 2) (is_dhcp || (code =? DHO_DHCP_MESSAGE_TYPE)) None.
Proof.
  intros H E Hp He Ha. cbn [add_loop]. destruct (Z.leb_spec max op); [lia|]. rewrite E. cbn [mbind outcome_bind].
  rewrite (proj2 (Z.eqb_neq code DHO_PAD)), (proj2 (Z.eqb_neq code DHO_END)) by done.
  destruct (Z.eqb_spec code DHO_DHCP_MESSAGE_TYPE) as [->|]; [by rewrite orb_true_r|]. rewrite orb_false_r.
  destruct (Z.eqb_spec code DHO_DHCP_MAX_MESSAGE_SIZE) as [->|]; [by destruct (rd b (op + 2))|].
  destruct (code =? DHO_DHCP_AGENT_OPTIONS), is_dhcp; cbn in *; try done. destruct Ha as [?| ->]; done.
Qed.

Lemma add_replaced fuel len b max op sp end_pad :
  op < max -> rd b op = Ret DHO_DHCP_AGENT_OPTIONS -> agent_relay_mode cfg = forward_and_replace ->
  add_loop cfg (S fuel) len b max op sp true end_pad =
    l ← rd b (op + 1); add_loop cfg fuel len b max (op + l + 2) sp true None.
Proof. intros H E Hm. cbn [add_loop]. destruct (Z.leb_spec max op); [lia|]. rewrite E. cbn. by rewrite Hm. Qed.

(** The options before ours that stay, from some item on. *)
Definition kept_from (is_dhcp : bool) (l : list item) : list item :=
  match agent_relay_mode cfg with forward_and_replace => without_agent is_dhcp l | _ => l end.

Lemma kept_pad is_dhcp items : kept_from is_dhcp (Pad :: items) = Pad :: kept_from is_dhcp items.
Proof. unfold kept_from. by destruct (agent_relay_mode cfg). Qed.

Lemma kept_opt is_dhcp code d items :
  (code =? DHO_DHCP_AGENT_OPTIONS) && is_dhcp = false \/ agent_relay_mode cfg = forward_and_append ->
  kept_from is_dhcp (Opt code d :: items) = Opt code d :: kept_from (is_dhcp || (code =? DHO_DHCP_MESSAGE_TYPE)) items.
Proof.
  intros H. unfold kept_from. destruct (agent_relay_mode cfg) eqn:E; try done. cbn [without_agent].
  destruct H as [->|?]; [|done]. destruct (code =? DHO_DHCP_MESSAGE_TYPE); [by rewrite orb_true_r|by rewrite orb_false_r].
Qed.

Lemma max_after_le e max max' i : e <= max' -> e <= max_after max i -> e <= max_after max' i.
Proof. intros H. unfold max_after. destruct i as [|code [|x d]]; [done..|]. by destruct (_ && _). Qed.

(** Over the items up to the last option: no pads before it are left in
    [end_pad]. *)
Definition last_pad (items : list item) (end_pad end_pad' : option Z) : Prop :=
  match last items with Some Pad => True | Some (Opt _ _) => end_pad' = None | None => end_pad' = end_pad end.

(** What the loop comes to after the items. *)
Definition after_items (fuel : nat) (len : Z) (A G X : list Z) (max : Z) (is_dhcp : bool) (end_pad : option Z) (items : list item) (r : outcome add_exit) : Prop :=
  exists G' end_pad', Zlen G' = Zlen G + Zlen (area items) - Zlen (area (kept_from is_dhcp items)) /\ last_pad items end_pad end_pad' /\
    let A' := A ++ area (kept_from is_dhcp items) in
    r = add_loop cfg fuel len (A' ++ G' ++ X) (foldl max_after max items) (Zlen A' + Zlen G') (Zlen A') (is_dhcp || existsb is_type items) end_pad'.

Lemma after_kept fuel len A G G2 X max is_dhcp dhcp end_pad end_pad2 i items r :
  Zlen G2 = Zlen G -> kept_from is_dhcp (i :: items) = i :: kept_from dhcp items -> dhcp = is_dhcp || is_type i ->
  (items = [] -> last_pad [i] end_pad end_pad2) ->
  after_items fuel len (A ++ item_octets i) G2 X (max_after max i) dhcp end_pad2 items r ->
  after_items fuel len A G X max is_dhcp end_pad (i :: items) r.
Proof.
  intros HG Ek Ed Hp (G' & ep & H1 & H2 & ->). exists G', ep. rewrite Ek. split_and!; [rewrite !area_cons, !Zlen_app; lia| |].
  - unfold last_pad in *. destruct items as [|j items]; [cbn [last] in H2; subst; by apply Hp|].
    change (last (i :: j :: items)) with (last (j :: items)). destruct (last (j :: items)) eqn:E; [exact H2|]. by apply last_None in E.
  - cbn [foldl existsb]. cbn zeta. by rewrite Ed, area_cons, <- orb_assoc, <- (app_assoc A).
Qed.

Lemma after_removed fuel len A G X max end_pad d items r :
  agent_relay_mode cfg = forward_and_replace ->
  after_items fuel len A (G ++ item_octets (Opt DHO_DHCP_AGENT_OPTIONS d)) X max true None items r ->
  after_items fuel len A G X max true end_pad (Opt DHO_DHCP_AGENT_OPTIONS d :: items) r.
Proof.
  intros Hm (G' & ep & H1 & H2 & ->). exists G', ep.
  assert (kept_from true (Opt DHO_DHCP_AGENT_OPTIONS d :: items) = kept_from true items) as -> by (unfold kept_from; by rewrite Hm).
  rewrite area_cons, Zlen_app. rewrite Zlen_app in H1. split_and!; [lia| |].
  - unfold last_pad in *. destruct items as [|j items]; [done|]. change (last (Opt DHO_DHCP_AGENT_OPTIONS d :: j :: items)) with (last (j :: items)).
    destruct (last (j :: items)) eqn:E; [exact H2|]. by apply last_None in E.
  - cbn [foldl existsb is_type]. cbn zeta. assert (max_after max (Opt DHO_DHCP_AGENT_OPTIONS d) = max) as -> by (by destruct d). done.
Qed.

Lemma add_max A G code d X max :
  size_ok (Opt code d) ->
  (if code =? DHO_DHCP_MAX_MESSAGE_SIZE then x ← rd (A ++ G ++ item_octets (Opt code d) ++ X) (Zlen A + Zlen G + 2); Ret (if changes_max x then ntohs x else max)
   else Ret max) = Ret (max_after max (Opt code d)).
Proof.
  intros Hs. unfold max_after. destruct (Z.eqb_spec code DHO_DHCP_MAX_MESSAGE_SIZE) as [->|]; [|by destruct d].
  destruct d as [|x d]; [done|]. rewrite (rd_at _ (A ++ G ++ [DHO_DHCP_MAX_MESSAGE_SIZE; Zlen (x :: d)]) (d ++ X) x); [by cbn; destruct (changes_max x)|by rewrite <- !app_assoc|].
  rewrite !Zlen_app. change (Zlen [_; _]) with 2. lia.
Qed.

Lemma add_loop_items items : forall fuel len A G X max is_dhcp end_pad,
  agent_relay_mode cfg = forward_and_append \/ agent_relay_mode cfg = forward_and_replace ->
  Forall item_ok items -> Forall size_ok items -> Forall (fun i => Zlen A + Zlen G + Zlen (area items) <= max_after max i) items ->
  Zlen A + Zlen G + Zlen (area items) <= max ->
  after_items fuel len A G X max is_dhcp end_pad items
    (add_loop cfg (length items + fuel) len (A ++ G ++ area items ++ X) max (Zlen A + Zlen G) (Zlen A) is_dhcp end_pad).
Proof.
  induction items as [|i items IH]; intros fuel len A G X max is_dhcp end_pad Hm Hok Hs Hle Hmax.
  - exists G, end_pad. assert (kept_from is_dhcp [] = []) as -> by (unfold kept_from; by destruct (agent_relay_mode cfg)).
    change (area []) with (@nil Z). rewrite app_nil_r, orb_false_r. split_and!; [lia|done..].
  - inversion_clear Hok as [|? ? Hi Hok']. inversion_clear Hs as [|? ? Hsi Hs']. inversion_clear Hle as [|? ? Hle1 Hle'].
    rewrite area_cons, Zlen_app in *. pose proof (Zlen_nonneg (area items)). rewrite <- app_assoc. cbn [length Nat.add].
    destruct i as [|code d].
    + change (Zlen (item_octets Pad)) with 1 in *.
      rewrite add_pad; [|lia|apply (rd_at _ (A ++ G) (area items ++ X)); [by rewrite <- app_assoc|by rewrite Zlen_app]].
      destruct (skip_pad (fun b op sp => add_loop cfg (length items + fuel) len b max op sp is_dhcp (match end_pad with None => Some (Zlen A) | Some _ => end_pad end))
        A G (area items ++ X)) as (G2 & HG2 & E2).
      cbn zeta in E2. rewrite E2. clear E2. eapply after_kept; [exact HG2|apply kept_pad|cbn [is_type]; by rewrite orb_false_r|done|].
      apply IH; try done; rewrite ?Zlen_app; change (Zlen (item_octets Pad)) with 1; [|cbn [max_after]; lia].
      eapply Forall_impl; [exact Hle'|]. cbn beta. intros j Hj. cbn [max_after]. lia.
    + destruct Hi as (_ & Hp & He & Hd & Hl).
      assert (Zlen (item_octets (Opt code d)) = Zlen d + 2) as Ei by (cbn [item_octets]; rewrite !Zlen_cons; lia). pose proof (Zlen_nonneg d).
      assert (rd (A ++ G ++ item_octets (Opt code d) ++ area items ++ X) (Zlen A + Zlen G) = Ret code) as Ec.
      { apply (rd_at _ (A ++ G) (Zlen d :: d ++ area items ++ X)); [by rewrite <- app_assoc|by rewrite Zlen_app]. }
      assert (((code =? DHO_DHCP_AGENT_OPTIONS) && is_dhcp = true /\ agent_relay_mode cfg = forward_and_replace) \/
        ((code =? DHO_DHCP_AGENT_OPTIONS) && is_dhcp = false \/ agent_relay_mode cfg = forward_and_append)) as [[Ea Em]|Ha] by (destruct (_ && _), Hm; tauto).
      * apply andb_true_iff in Ea as [->%Z.eqb_eq ->]. rewrite add_replaced by (done || lia).
        rewrite (rd_at _ (A ++ G ++ [DHO_DHCP_AGENT_OPTIONS]) (d ++ area items ++ X) (Zlen d)); [|by rewrite <- !app_assoc|rewrite !Zlen_app; change (Zlen [_]) with 1; lia].
        cbn [mbind outcome_bind]. apply (after_removed _ _ _ _ _ _ _ _ _ _ Em). rewrite (app_assoc G).
        replace (Zlen A + Zlen G + Zlen d + 2) with (Zlen A + Zlen (G ++ item_octets (Opt DHO_DHCP_AGENT_OPTIONS d))) by (rewrite Zlen_app; lia).
        apply IH; try done; rewrite ?Zlen_app; [|lia]. eapply Forall_impl; [exact Hle'|]. cbn beta. intros j Hj. lia.
      * rewrite (add_option _ _ _ _ _ _ _ _ code) by (done || lia). rewrite (add_max _ _ _ _ (area items ++ X)) by done. cbn [mbind outcome_bind].
        destruct (skip_option (fun b op sp => add_loop cfg (length items + fuel) len b (max_after max (Opt code d)) op sp (is_dhcp || (code =? DHO_DHCP_MESSAGE_TYPE)) None)
          (Ret (Add_return 0)) A G code d (area items ++ X) (max_after max (Opt code d))) as (G2 & HG2 & E2); [done|lia|].
        cbn zeta in E2 |- *. rewrite E2. clear E2. eapply after_kept; [exact HG2|by apply kept_opt|done|done|].
        apply IH; try done; rewrite ?Zlen_app; [|lia]. eapply Forall_impl; [exact Hle'|]. cbn beta. intros j Hj.
        apply max_after_le with max; lia.
Qed.

(** Over the pads at the end: the place of our option is where they start. *)
Lemma add_pads k : forall fuel len A G R max is_dhcp end_pad,
  Zlen A + Zlen G + Z.of_nat k < max ->
  exists Y sp end_pad', Zlen Y = Zlen G + Z.of_nat k + 1 + Zlen R /\ default sp end_pad' = default (Zlen A) end_pad /\
  add_loop cfg (k + S fuel) len (A ++ G ++ replicate k DHO_PAD ++ DHO_END :: R) max (Zlen A + Zlen G) (Zlen A) is_dhcp end_pad =
  Ret (Add_out (A ++ Y) max sp is_dhcp end_pad').
Proof.
  induction k as [|k IH]; intros fuel len A G R max is_dhcp end_pad Hmax.
  - exists (G ++ DHO_END :: R), (Zlen A), end_pad. cbn [replicate app Nat.add]. split_and!; [rewrite Zlen_app, Zlen_cons; lia|done|].
    cbn [add_loop]. destruct (Z.leb_spec max (Zlen A + Zlen G)); [lia|].
    by rewrite (rd_at _ (A ++ G) R DHO_END (Zlen A + Zlen G)) by (rewrite ?Zlen_app; rewrite <- ?app_assoc; reflexivity).
  - cbn [Nat.add replicate]. change (DHO_PAD :: replicate k DHO_PAD) with (item_octets Pad ++ replicate k DHO_PAD). rewrite <- app_assoc.
    rewrite add_pad; [|lia|apply (rd_at _ (A ++ G) (replicate k DHO_PAD ++ DHO_END :: R)); [by rewrite <- app_assoc|by rewrite Zlen_app]].
    destruct (skip_pad (fun b op sp => add_loop cfg (k + S fuel) len b max op sp is_dhcp (match end_pad with None => Some (Zlen A) | Some _ => end_pad end))
      A G (replicate k DHO_PAD ++ DHO_END :: R)) as (G2 & HG2 & E2).
    cbn zeta in E2. rewrite E2. clear E2.
    destruct (IH fuel len (A ++ item_octets Pad) G2 R max is_dhcp (match end_pad with None => Some (Zlen A) | Some _ => end_pad end)) as (Y & sp & ep & HY & Hep & E).
    { rewrite Zlen_app. change (Zlen (item_octets Pad)) with 1. lia. }
    rewrite E. exists (item_octets Pad ++ Y), sp, ep. rewrite Zlen_app, Hep. change (Zlen (item_octets Pad)) with 1. split_and!; [lia|by destruct end_pad|].
    by rewrite <- app_assoc.
Qed.

(** ** The option that is added *)

Lemma put_octets_ok l : forall b sp, 0 <= sp -> sp + Zlen l <= Zlen b -> is_bytes l -> put_octets b sp l = Ret (splice b sp l, sp + Zlen l).
Proof.
  induction l as [|x l IH]; intros b sp Hsp Hl Hb; cbn [put_octets].
  - unfold splice. cbn [length app]. rewrite Nat.add_0_r, take_drop. change (Zlen (@nil Z)) with 0. by rewrite Z.add_0_r.
  - inversion_clear Hb as [|? ? Hx Hb']. rewrite Zlen_cons in Hl. pose proof (Zlen_nonneg l). rewrite u8_small by done.
    rewrite wr_splice by lia. cbn [mbind outcome_bind]. rewrite IH; [|lia|rewrite length_splice by (change (Zlen [x]) with 1; lia); lia|done].
    change (sp + 1) with (sp + Zlen [x]) at 1. rewrite splice_splice by (change (Zlen [x]) with 1; lia). cbn [app]. rewrite Zlen_cons. do 2 f_equal. lia.
Qed.

Lemma put_block_ok b sp d : 0 <= sp -> sp + Zlen d <= Zlen b -> put_block b sp d = Ret (splice b sp d, sp + Zlen d).
Proof. intros. unfold put_block. by rewrite memcpy_splice. Qed.

(** The suboptions that name an interface. *)
Definition agent_suboptions (ip : interface_info) (link : bool) (giaddr : list Z) : list (Z * list Z) :=
  from_option (fun d => [(RAI_CIRCUIT_ID, d)]) [] (circuit_id ip) ++ from_option (fun d => [(RAI_REMOTE_ID, d)]) [] (remote_id ip) ++
  (if link then [(RAI_LINK_SELECT, giaddr)] else []).

Definition suboption_octets (o : Z * list Z) : list Z := fst o :: Zlen (snd o) :: snd o.

Definition agent_data (ip : interface_info) (link : bool) (giaddr : list Z) : list Z := concat (map suboption_octets (agent_suboptions ip link giaddr)).

(** An interface that can be named. *)
Record nameable (ip : interface_info) (link : bool) (giaddr : list Z) : Prop := Nameable {
  has_circuit : exists d, circuit_id ip = Some d /\ is_bytes d /\ 1 <= Zlen d <= 255;
  may_remote : match remote_id ip with Some d => is_bytes d /\ 1 <= Zlen d <= 255 | None => True end;
  has_giaddr : is_bytes giaddr /\ Zlen giaddr = 4;
  fits : Zlen (agent_data ip link giaddr) <= 255
}.

Lemma put_chain b sp x (f : list Z * Z -> outcome (list Z * Z)) y :
  0 <= sp -> sp + Zlen x + Zlen y <= Zlen b ->
  (forall b sp, 0 <= sp -> sp + Zlen y <= Zlen b -> f (b, sp) = Ret (splice b sp y, sp + Zlen y)) ->
  f (splice b sp x, sp + Zlen x) = Ret (splice b sp (x ++ y), sp + Zlen (x ++ y)).
Proof.
  intros H1 H2 Hf. pose proof (Zlen_nonneg x). pose proof (Zlen_nonneg y). rewrite Hf; [|lia|rewrite length_splice by lia; lia].
  rewrite splice_splice by lia. rewrite Zlen_app. do 2 f_equal. lia.
Qed.

Lemma put_suboption b sp code d :
  0 <= sp -> sp + Zlen (suboption_octets (code, d)) <= Zlen b -> is_byte code -> Zlen d <= 255 ->
  (r ← put_octets b sp [code; Zlen d]; put_block (r.1) (r.2) d) =
  Ret (splice b sp (suboption_octets (code, d)), sp + Zlen (suboption_octets (code, d))).
Proof.
  unfold suboption_octets. cbn [fst snd]. intros Hsp Hl Hc Hd. rewrite !Zlen_cons in Hl. pose proof (Zlen_nonneg d).
  rewrite put_octets_ok; [|lia|change (Zlen [_; _]) with 2; lia|repeat constructor; unfold is_byte in *; lia]. cbn [mbind outcome_bind fst snd].
  apply (put_chain b sp [code; Zlen d] (fun r => put_block (r.1) (r.2) d) d); [done|change (Zlen [_; _]) with 2; lia|]. intros. by apply put_block_ok.
Qed.

(** The suboptions after the first. *)
Lemma put_rest ip giaddr (link : bool) b sp :
  nameable ip link giaddr ->
  let l := concat (map suboption_octets (from_option (fun d => [(RAI_REMOTE_ID, d)]) [] (remote_id ip) ++ (if link then [(RAI_LINK_SELECT, giaddr)] else []))) in
  0 <= sp -> sp + Zlen l <= Zlen b ->
  (r ← match remote_id ip with
       | Some d => r ← put_octets b sp [RAI_REMOTE_ID; Zlen d]; put_block (r.1) (r.2) d
       | None => Ret (b, sp)
       end;
   if link then r ← put_octets (r.1) (r.2) [RAI_LINK_SELECT; 4]; put_block (r.1) (r.2) giaddr else Ret r) = Ret (splice b sp l, sp + Zlen l).
Proof.
  intros [_ Hr (Hg & Hgl) _] l Hsp Hl.
  assert (forall b sp, 0 <= sp -> sp + 6 <= Zlen b -> (r ← put_octets b sp [RAI_LINK_SELECT; 4]; put_block (r.1) (r.2) giaddr) =
    Ret (splice b sp (suboption_octets (RAI_LINK_SELECT, giaddr)), sp + Zlen (suboption_octets (RAI_LINK_SELECT, giaddr)))) as Hlink.
  { intros b1 sp1 H1 H2. rewrite <- Hgl. apply put_suboption; [lia|unfold suboption_octets; cbn [fst snd]; rewrite !Zlen_cons; lia|unfold is_byte, RAI_LINK_SELECT; lia|lia]. }
  assert (Zlen (suboption_octets (RAI_LINK_SELECT, giaddr)) = 6) as E6 by (unfold suboption_octets; cbn [fst snd]; rewrite !Zlen_cons; lia).
  unfold l in *. clear l. destruct (remote_id ip) as [d|]; cbn [from_option app map concat] in *.
  - destruct Hr as [Hd Hdl].
    assert (0 <= Zlen (suboption_octets (RAI_REMOTE_ID, d))) by apply Zlen_nonneg. rewrite Zlen_app in Hl.
    rewrite put_suboption; [|lia| |unfold is_byte, RAI_REMOTE_ID; lia|lia]. 2: { match type of Hl with context [Zlen ?x] => pose proof (Zlen_nonneg (concat (map suboption_octets (if link then [(RAI_LINK_SELECT, giaddr)] else [])))) end. lia. }
    cbn [mbind outcome_bind]. destruct link; cbn [map concat app] in *.
    + rewrite app_nil_r in *. apply (put_chain b sp (suboption_octets (RAI_REMOTE_ID, d)) (fun r => r ← put_octets (r.1) (r.2) [RAI_LINK_SELECT; 4]; put_block (r.1) (r.2) giaddr)); [done|lia|].
      intros. apply Hlink; lia.
    + by rewrite app_nil_r.
  - cbn [mbind outcome_bind fst snd]. destruct link; cbn [map concat app] in *.
    + rewrite app_nil_r in *. apply Hlink; lia.
    + unfold splice. cbn [length app]. rewrite Nat.add_0_r, take_drop. change (Zlen (@nil Z)) with 0. by rewrite Z.add_0_r.
Qed.

Lemma put_agent_ok ip giaddr (link : bool) b sp :
  nameable ip link giaddr -> 0 <= sp -> sp + 2 + Zlen (agent_data ip link giaddr) <= Zlen b ->
  let b' := splice b sp (item_octets (Opt DHO_DHCP_AGENT_OPTIONS (agent_data ip link giaddr))) in
  put_agent_option cfg ip giaddr link (Zlen (agent_data ip link giaddr)) b sp =
    (b ← if link then a ← match uplink cfg with Some up => first_address up | None => Undef end; memcpy b' giaddr_at a else Ret b';
     Ret (b, sp + 2 + Zlen (agent_data ip link giaddr))).
Proof.
  intros Hn Hsp Hl b'. unfold b'. clear b'. pose proof Hn as [(c & Ec & Hc & Hcl) _ _ Hfit].
  set (len := Zlen (agent_data ip link giaddr)) in *.
  set (rest := concat (map suboption_octets (from_option (fun d => [(RAI_REMOTE_ID, d)]) [] (remote_id ip) ++ (if link then [(RAI_LINK_SELECT, giaddr)] else [])))).
  assert (agent_data ip link giaddr = [RAI_CIRCUIT_ID; Zlen c] ++ c ++ rest) as Ed by (unfold agent_data, agent_suboptions, rest; rewrite Ec; done).
  assert (len = 2 + Zlen c + Zlen rest) as El by (unfold len; rewrite Ed, !Zlen_app; change (Zlen [_; _]) with 2; lia).
  pose proof (Zlen_nonneg rest). cbn [item_octets]. fold len. rewrite Ed. unfold put_agent_option. rewrite Ec. cbn [id_length].
  rewrite put_octets_ok; [|lia|change (Zlen [_; _; _; _]) with 4; lia|repeat constructor; unfold DHO_DHCP_AGENT_OPTIONS, RAI_CIRCUIT_ID; lia].
  cbn [mbind outcome_bind].
  rewrite (put_chain b sp [DHO_DHCP_AGENT_OPTIONS; len; RAI_CIRCUIT_ID; Zlen c] (fun r => put_block (r.1) (r.2) c) c);
    [|done|change (Zlen [_; _; _; _]) with 4; lia|intros; by apply put_block_ok].
  cbn [mbind outcome_bind fst snd]. set (x := [DHO_DHCP_AGENT_OPTIONS; len; RAI_CIRCUIT_ID; Zlen c] ++ c).
  assert (Zlen x = 4 + Zlen c) as Ex by (unfold x; rewrite Zlen_app; change (Zlen [_; _; _; _]) with 4; lia).
  pose proof (put_rest ip giaddr link (splice b sp x) (sp + Zlen x) Hn) as E. cbn zeta in E. fold rest in E.
  rewrite length_splice, splice_splice in E by lia. specialize (E ltac:(lia) ltac:(lia)).
  change (DHO_DHCP_AGENT_OPTIONS :: len :: [RAI_CIRCUIT_ID; Zlen c] ++ c ++ rest) with (x ++ rest).
  replace (sp + 2 + len) with (sp + Zlen x + Zlen rest) by lia. revert E.
  match goal with |- (?m ≫= _) = _ -> _ => destruct m as [r1| |] end; [|done..]. cbn [mbind outcome_bind]. destruct link; [|by intros [= ->]].
  destruct (put_octets (r1.1) (r1.2) [RAI_LINK_SELECT; 4]) as [r2| |]; [|done..]. cbn [mbind outcome_bind]. intros ->. cbn [mbind outcome_bind fst snd].
  destruct (match uplink cfg with Some up => first_address up | None => Undef end); done.
Qed.

Lemma splice_inside (A Y D : list Z) at_ : 0 <= at_ -> at_ + Zlen D <= Zlen A -> splice (A ++ Y) at_ D = splice A at_ D ++ Y.
Proof.
  unfold splice, Zlen. intros H1 H2. rewrite take_app_le by lia. rewrite drop_app_le by lia. by rewrite <- !app_assoc.
Qed.

Lemma foldl_max items : forall max, foldl max_after max items <= Z.max max (dhcp_max_agent_option_packet_length cfg).
Proof.
  induction items as [|i items IH]; intros max; cbn [foldl]; [lia|]. specialize (IH (max_after max i)).
  enough (max_after max i <= Z.max max (dhcp_max_agent_option_packet_length cfg)) by lia. unfold max_after, changes_max.
  destruct i as [|code [|x d]]; [lia..|]. destruct (code =? _); cbn [andb]; [|lia].
  destruct (Z.ltb_spec (ntohs x) (dhcp_max_agent_option_packet_length cfg)); cbn [andb]; [|lia]. destruct (_ <=? _); lia.
Qed.

Lemma last_opt items : existsb is_type items = true -> last items <> Some Pad -> exists code d, last items = Some (Opt code d).
Proof. intros H Hp. destruct items; [done|]. destruct (last (i :: items)) as [[|code d]|] eqn:E; [done|by eauto|]. by apply last_None in E. Qed.

(** A request whose options end in an option and [k] pads. *)
Record relayable (ip : interface_info) (link : bool) (giaddr : list Z) (hdr : list Z) (items : list item) (k : nat) (R : list Z) : Prop := Relayable {
  rel_mode : agent_relay_mode cfg = forward_and_append \/ agent_relay_mode cfg = forward_and_replace;
  rel_header : Zlen hdr = options_at;
  rel_items : Forall item_ok items;
  rel_sizes : Forall size_ok items;
  rel_type : existsb is_type items = true;
  rel_last : last items <> Some Pad;
  rel_max : options_at + 4 + Zlen (area items) + Z.of_nat k < dhcp_max_agent_option_packet_length cfg;
  rel_maxes : Forall (fun i => options_at + 4 + Zlen (area items) + Z.of_nat k < max_after (dhcp_max_agent_option_packet_length cfg) i) items;
  rel_room : options_at + 4 + Zlen (area (kept_from false items)) + Zlen (agent_data ip link giaddr) + 3 <=
    foldl max_after (dhcp_max_agent_option_packet_length cfg) items
}.

Lemma foldl_max_ge e items : forall max, e <= max -> Forall (fun i => e <= max_after max i) items -> e <= foldl max_after max items.
Proof.
  induction items as [|i items IH]; intros max H Hf; cbn [foldl]; [done|]. inversion_clear Hf as [|? ? H1 H2]. apply IH; [done|].
  eapply Forall_impl; [exact H2|]. cbn beta. intros j Hj. by apply max_after_le with max.
Qed.

(** The loop over such a request. *)
Lemma add_loop_request ip link giaddr hdr items k R len :
  relayable ip link giaddr hdr items k R ->
  let A := hdr ++ DHCP_OPTIONS_COOKIE ++ area (kept_from false items) in
  let m := dhcp_max_agent_option_packet_length cfg in
  exists Y sp end_pad, Zlen (A ++ Y) = Zlen (dhcp_buffer hdr (items ++ replicate k Pad) R) /\ default sp end_pad = Zlen A /\
  add_loop cfg (Z.to_nat (Z.max m DHCP_MTU_MAX)) len (dhcp_buffer hdr (items ++ replicate k Pad) R) m (options_at + 4) (options_at + 4) false None =
  Ret (Add_out (A ++ Y) (foldl max_after m items) sp true end_pad).
Proof.
  intros [Hmode Hh Hok Hs Ht Hla Hmax Hmaxes _] A m.
  assert (Z.of_nat (length items) <= Zlen (area items)) as Hli.
  { clear. unfold Zlen. induction items as [|i items IH]; [done|]. rewrite area_cons, length_app. destruct i; cbn [item_octets length]; lia. }
  assert (Z.to_nat (Z.max m DHCP_MTU_MAX) = length items + (k + S (Z.to_nat (Z.max m DHCP_MTU_MAX - Z.of_nat (length items) - Z.of_nat k - 1))))%nat as -> by (unfold m, options_at in *; lia).
  assert (area (replicate k Pad) = replicate k DHO_PAD) as Ep by (clear; induction k as [|k IH]; [done|cbn [replicate]; rewrite area_cons, IH; done]).
  assert (dhcp_buffer hdr (items ++ replicate k Pad) R = (hdr ++ DHCP_OPTIONS_COOKIE) ++ [] ++ area items ++ replicate k DHO_PAD ++ DHO_END :: R) as Eb.
  { unfold dhcp_buffer. rewrite area_app, Ep. by rewrite <- !app_assoc. }
  rewrite Eb. assert (options_at + 4 = Zlen (hdr ++ DHCP_OPTIONS_COOKIE)) as EA by (rewrite Zlen_app, Hh; done).
  pose proof (add_loop_items items (k + S (Z.to_nat (Z.max m DHCP_MTU_MAX - Z.of_nat (length items) - Z.of_nat k - 1))) len (hdr ++ DHCP_OPTIONS_COOKIE) []
    (replicate k DHO_PAD ++ DHO_END :: R) m false None Hmode Hok Hs) as (G & ep & HG & Hlp & E).
  { change (Zlen (@nil Z)) with 0. rewrite Z.add_0_r, <- EA. eapply Forall_impl; [exact Hmaxes|]. cbn beta. intros i Hi. unfold m. lia. }
  { change (Zlen (@nil Z)) with 0. unfold m. lia. }
  cbn zeta in E. rewrite Ht in E. cbn [orb] in E. change (Zlen (@nil Z)) with 0 in E, HG. rewrite Z.add_0_r, <- EA in E. rewrite E. clear E.
  destruct (last_opt items Ht Hla) as (code & d & El). unfold last_pad in Hlp. rewrite El in Hlp. subst ep.
  replace ((hdr ++ DHCP_OPTIONS_COOKIE) ++ area (kept_from false items)) with A by (unfold A; by rewrite app_assoc).
  destruct (add_pads k (Z.to_nat (Z.max m DHCP_MTU_MAX - Z.of_nat (length items) - Z.of_nat k - 1)) len A G R (foldl max_after m items) true None) as (Y & sp & ep & HY & Hep & E).
  { assert (Zlen A + Zlen G = options_at + 4 + Zlen (area items)) as -> by (unfold A; rewrite !Zlen_app, Hh; change (Zlen DHCP_OPTIONS_COOKIE) with 4; lia).
    apply Z.le_succ_l. apply foldl_max_ge; [unfold m; lia|]. eapply Forall_impl; [exact Hmaxes|]. cbn beta. intros i Hi. unfold m. lia. }
  exists Y, sp, ep. split_and!; [|exact Hep|exact E].
  rewrite Zlen_app, HY. unfold A. rewrite !Zlen_app, Zlen_cons. change (Zlen (@nil Z)) with 0. assert (Zlen (replicate k DHO_PAD) = Z.of_nat k) as -> by (unfold Zlen; by rewrite length_replicate). lia.
Qed.

(** Our option and the end option, from the place where they go. *)
Lemma finish_request ip (link : bool) giaddr up hdr kept Y m (n : list counter) :
  Zlen hdr = options_at -> nameable ip link giaddr ->
  (link = true -> exists u l, uplink cfg = Some u /\ addresses u = up :: l /\ Zlen up = 4) ->
  let A := hdr ++ DHCP_OPTIONS_COOKIE ++ area kept in
  let data := agent_data ip link giaddr in
  Zlen A + Zlen data + 3 <= m -> Z.max BOOTP_MIN_LEN m <= Zlen (A ++ Y) ->
  let hdr' := if link then splice hdr giaddr_at up else hdr in
  let items := kept ++ [Opt DHO_DHCP_AGENT_OPTIONS data] in
  let len := options_at + 5 + Zlen (area items) in
  exists R', (r ← put_agent_option cfg ip giaddr link (Zlen data) (A ++ Y) (Zlen A);
     b ← wr (r.1) (r.2) DHO_END;
     if r.2 + 1 <? BOOTP_MIN_LEN then b ← memset b (r.2 + 1) DHO_PAD (BOOTP_MIN_LEN - (r.2 + 1)); Ret (BOOTP_MIN_LEN, b, n)
     else Ret (r.2 + 1, b, n)) =
    Ret (Z.max BOOTP_MIN_LEN len, dhcp_buffer hdr' items (replicate (Z.to_nat (BOOTP_MIN_LEN - len)) DHO_PAD ++ R'), n) /\
    Zlen (dhcp_buffer hdr' items (replicate (Z.to_nat (BOOTP_MIN_LEN - len)) DHO_PAD ++ R')) = Zlen (A ++ Y).
Proof.
  intros Hh Hn Hup A data Hm Hb hdr' items len. pose proof (Zlen_nonneg data). pose proof (Zlen_nonneg A).
  assert (Zlen (item_octets (Opt DHO_DHCP_AGENT_OPTIONS data)) = Zlen data + 2) as Ei by (cbn [item_octets]; rewrite !Zlen_cons; lia).
  set (A' := hdr' ++ DHCP_OPTIONS_COOKIE ++ area kept ++ item_octets (Opt DHO_DHCP_AGENT_OPTIONS data)).
  assert (Zlen hdr' = options_at) as Hh'.
  { unfold hdr'. destruct link; [|done]. destruct (Hup eq_refl) as (u & l & _ & _ & H4). rewrite length_splice; [done|done|]. rewrite Hh, H4. unfold giaddr_at, options_at. lia. }
  assert (Zlen A' = Zlen A + 2 + Zlen data) as EA' by (unfold A', A; rewrite !Zlen_app, Ei, Hh', Hh; lia).
  rewrite put_agent_ok by (done || (fold data; lia)). fold data. rewrite splice_over.
  set (Y' := drop _ Y). assert (Zlen Y' = Zlen Y - Zlen data - 2) as EY.
  { rewrite Zlen_app in Hb. unfold Y', Zlen in *. rewrite length_drop. lia. }
  assert ((if link then a ← match uplink cfg with Some up => first_address up | None => Undef end; memcpy (A ++ item_octets (Opt DHO_DHCP_AGENT_OPTIONS data) ++ Y') giaddr_at a
           else Ret (A ++ item_octets (Opt DHO_DHCP_AGENT_OPTIONS data) ++ Y')) = Ret (A' ++ Y')) as ->.
  { unfold A', hdr', A. destruct link; [|by rewrite <- !app_assoc]. destruct (Hup eq_refl) as (u & l & -> & Eu & H4). unfold first_address. rewrite Eu. cbn [mbind outcome_bind].
    rewrite memcpy_splice; [|done|rewrite !Zlen_app, Hh, H4; unfold giaddr_at, options_at; pose proof (Zlen_nonneg (area kept)); pose proof (Zlen_nonneg Y'); change (Zlen DHCP_OPTIONS_COOKIE) with 4; lia].
    rewrite <- !app_assoc, splice_inside; [|done|rewrite Hh, H4; unfold giaddr_at, options_at; lia]. done. }
  cbn [mbind outcome_bind fst snd]. replace (Zlen A + 2 + Zlen data) with (Zlen A') by done. rewrite !Zlen_app in Hb |- *.
  assert (Zlen A' + 1 = len) as El by (unfold len, items; rewrite area_app, area_cons, !Zlen_app, Ei, EA'; unfold A; rewrite !Zlen_app, Hh; change (Zlen (area [])) with 0; change (Zlen DHCP_OPTIONS_COOKIE) with 4; lia).
  rewrite wr_memcpy, memcpy_splice, splice_over; [|lia|rewrite Zlen_app; change (Zlen [DHO_END]) with 1; lia]. cbn [mbind outcome_bind length].
  assert (forall X, dhcp_buffer hdr' items X = (A' ++ [DHO_END]) ++ X) as ED.
  { intros X. unfold dhcp_buffer, items, A'. rewrite area_app, area_cons. change (area []) with (@nil Z). rewrite app_nil_r. by rewrite <- !app_assoc. }
  rewrite (app_assoc A'). set (A2 := A' ++ [DHO_END]) in *. assert (Zlen A2 = len) as E2 by (unfold A2; rewrite Zlen_app; change (Zlen [DHO_END]) with 1; lia).
  set (Y2 := drop 1 Y'). assert (Zlen Y2 = Zlen Y' - 1) as EY2 by (unfold Y2, Zlen in *; rewrite length_drop; lia).
  rewrite El. destruct (Z.ltb_spec len BOOTP_MIN_LEN).
  - rewrite <- E2, memset_pads by (rewrite ?Zlen_app; lia). cbn [mbind outcome_bind]. exists (drop (Z.to_nat (BOOTP_MIN_LEN - Zlen A2)) Y2).
    rewrite ED, Z.max_l by lia. split; [done|]. rewrite !Zlen_app. unfold Zlen in *. rewrite length_replicate, length_drop. lia.
  - exists Y2. replace (Z.to_nat (BOOTP_MIN_LEN - len)) with 0%nat by lia. cbn [replicate app]. rewrite ED, Z.max_r by lia. split; [done|]. rewrite Zlen_app. lia.
Qed.

Lemma agent_data_length ip (link : bool) giaddr :
  nameable ip link giaddr ->
  Zlen (agent_data ip link giaddr) =
    id_length (circuit_id ip) + 2 + match remote_id ip with Some _ => id_length (remote_id ip) + 2 | None => 0 end + (if link then 6 else 0).
Proof.
  intros [(c & Ec & _) _ (_ & Hg) _]. unfold agent_data, agent_suboptions. rewrite Ec. cbn [from_option].
  rewrite !map_app, !concat_app, !Zlen_app.
  destruct (remote_id ip) as [d|], link; cbn [from_option map concat id_length suboption_octets fst snd app]; rewrite ?app_nil_r, ?Zlen_app, ?Zlen_cons;
    change (Zlen (@nil Z)) with 0; lia.
Qed.

(** What [add_relay_agent_options] makes of a request that has room. *)
Lemma add_packet ip hdr items k R len giaddr up n :
  let link := add_rfc3527_suboption cfg && bool_decide (slice hdr giaddr_at 4 = [0; 0; 0; 0]) in
  let buffer := dhcp_buffer hdr (items ++ replicate k Pad) R in
  add_agent_options cfg = true -> relayable ip link giaddr hdr items k R -> nameable ip link giaddr ->
  (link = true -> exists u l, uplink cfg = Some u /\ addresses u = up :: l /\ Zlen up = 4) ->
  Z.max BOOTP_MIN_LEN (dhcp_max_agent_option_packet_length cfg) <= Zlen buffer ->
  let hdr' := if link then splice hdr giaddr_at up else hdr in
  let items' := kept_from false items ++ [Opt DHO_DHCP_AGENT_OPTIONS (agent_data ip link giaddr)] in
  let len' := options_at + 5 + Zlen (area items') in
  exists R', add_relay_agent_options cfg ip buffer len giaddr n =
    Ret (Z.max BOOTP_MIN_LEN len', dhcp_buffer hdr' items' (replicate (Z.to_nat (BOOTP_MIN_LEN - len')) DHO_PAD ++ R'), n) /\
    Zlen (dhcp_buffer hdr' items' (replicate (Z.to_nat (BOOTP_MIN_LEN - len')) DHO_PAD ++ R')) = Zlen buffer.
Proof.
  intros link buffer Ha Hr Hn Hup Hb hdr' items' len'. pose proof Hr as [_ Hh _ _ _ _ _ _ Hroom].
  unfold add_relay_agent_options, buffer. rewrite Ha, buffer_prefix by done. cbn [negb mbind outcome_bind]. rewrite bool_decide_true by done. cbn [negb].
  assert (memread (dhcp_buffer hdr (items ++ replicate k Pad) R) giaddr_at 4 = Ret (slice hdr giaddr_at 4)) as ->.
  { fold buffer. rewrite memread_slice; [|done|done|unfold giaddr_at, BOOTP_MIN_LEN in *; lia]. unfold buffer, dhcp_buffer, slice. rewrite drop_app_le by (unfold Zlen, giaddr_at, options_at in *; lia).
    rewrite take_app_le; [done|]. rewrite length_drop. unfold Zlen, giaddr_at, options_at in *. lia. }
  cbn [mbind outcome_bind]. fold link. cbn zeta.
  destruct (add_loop_request ip link giaddr hdr items k R len Hr) as (Y & sp & ep & HY & Hsp & ->). cbn [mbind outcome_bind negb].
  replace (match ep with Some p => p | None => sp end) with (default sp ep) by (by destruct ep). rewrite Hsp.
  rewrite <- (agent_data_length ip link giaddr) by done. pose proof Hn as [(c & Ec & Hc & Hcl) Hrem _ Hfit].
  rewrite Ec. cbn [id_length]. destruct (Z.ltb_spec 255 (Zlen c)); [lia|]. destruct (Z.ltb_spec (Zlen c) 1); [lia|]. cbn [orb].
  assert ((match remote_id ip with Some _ => (255 <? id_length (remote_id ip)) || (id_length (remote_id ip) <? 1) | None => false end) = false) as ->.
  { destruct (remote_id ip) as [d|]; [|done]. cbn [id_length]. destruct (Z.ltb_spec 255 (Zlen d)); [lia|]. destruct (Z.ltb_spec (Zlen d) 1); [lia|done]. }
  assert (3 <= Zlen (agent_data ip link giaddr)) as H3.
  { rewrite agent_data_length, Ec by done. cbn [id_length]. destruct (remote_id ip) as [d|]; cbn [id_length]; [pose proof (Zlen_nonneg d)|]; destruct link; lia. }
  destruct (Z.ltb_spec (Zlen (agent_data ip link giaddr)) 3); [lia|]. destruct (Z.ltb_spec 255 (Zlen (agent_data ip link giaddr))); [lia|]. cbn [orb].
  set (A := hdr ++ DHCP_OPTIONS_COOKIE ++ area (kept_from false items)) in *. set (m := foldl _ _ _) in *. set (data := agent_data ip link giaddr) in *.
  assert (Zlen A + Zlen data + 3 <= m) as Hm by (unfold A; rewrite !Zlen_app, Hh; change (Zlen DHCP_OPTIONS_COOKIE) with 4; lia).
  destruct (Z.leb_spec (Zlen data + 3) (m - Zlen A)); [|lia].
  assert (m <= dhcp_max_agent_option_packet_length cfg) as Hm' by (unfold m; pose proof (foldl_max items (dhcp_max_agent_option_packet_length cfg)); lia).
  destruct (finish_request ip link giaddr up hdr (kept_from false items) Y m n Hh Hn Hup) as (R' & E & EL); [exact Hm|fold A; rewrite HY; unfold buffer in Hb; lia|].
  exists R'. fold A in E, EL. fold data in E, EL. split; [|exact (eq_trans EL HY)]. etransitivity; [|exact E]. clear E EL.
  pose proof (put_agent_ok ip giaddr link (A ++ Y) (Zlen A) Hn) as Ep. cbn zeta in Ep. fold data in Ep.
  rewrite Ep; [|apply Zlen_nonneg|rewrite HY; unfold buffer in Hb; lia]. clear Ep.
  match goal with |- context [?x ≫= (λ b, Ret (b, _))] => destruct x as [b1| |] end; [|done..]. cbn [mbind outcome_bind fst snd].
  destruct (Z.ltb_spec (Zlen A + 2 + Zlen data) m); [|lia]. by destruct (wr b1 _ _).
Qed.

(** ** The way of a request and its reply *)

Definition pick_circuit (c : option (list Z)) (o : Z * list Z) : option (list Z) := if fst o =? RAI_CIRCUIT_ID then Some (snd o) else c.

Lemma circuit_loop_octets opts : forall fuel pre c,
  (length opts <= fuel)%nat ->
  circuit_loop fuel (pre ++ concat (map suboption_octets opts)) (Zlen pre) c = Ret (Some (foldl pick_circuit c opts)).
Proof.
  induction opts as [|[code d] opts IH]; intros fuel pre c Hf.
  - cbn [map concat foldl]. rewrite app_nil_r. destruct fuel; cbn [circuit_loop]; by rewrite Z.leb_refl.
  - destruct fuel as [|fuel]; [cbn in Hf; lia|]. cbn [map concat foldl]. set (rest := concat _) in *. pose proof (Zlen_nonneg rest). pose proof (Zlen_nonneg d).
    assert (Zlen (suboption_octets (code, d)) = Zlen d + 2) as Es by (unfold suboption_octets; cbn [fst snd]; rewrite !Zlen_cons; lia).
    assert (forall c, circuit_loop fuel (pre ++ suboption_octets (code, d) ++ rest) (Zlen pre + Zlen d + 2) c = Ret (Some (foldl pick_circuit c opts))) as K.
    { intros c'. rewrite app_assoc. replace (Zlen pre + Zlen d + 2) with (Zlen (pre ++ suboption_octets (code, d))) by (rewrite Zlen_app; lia). apply IH. cbn in Hf. lia. }
    cbn [circuit_loop]. rewrite !Zlen_app, Es. destruct (Z.leb_spec (Zlen pre + (Zlen d + 2 + Zlen rest)) (Zlen pre)); [lia|].
    destruct (Z.eqb_spec (Zlen pre + 1) (Zlen pre + (Zlen d + 2 + Zlen rest))); [lia|].
    rewrite (rd_at _ (pre ++ [code]) (d ++ rest) (Zlen d) (Zlen pre + 1)); [|by rewrite <- !app_assoc|by rewrite Zlen_app]. cbn [mbind outcome_bind].
    destruct (Z.ltb_spec (Zlen pre + (Zlen d + 2 + Zlen rest)) (Zlen pre + Zlen d + 2)); [lia|].
    rewrite (rd_at _ pre (Zlen d :: d ++ rest) code (Zlen pre)) by done. cbn [mbind outcome_bind].
    change (pick_circuit c (code, d)) with (if code =? RAI_CIRCUIT_ID then Some d else c). destruct (code =? RAI_CIRCUIT_ID); [|by rewrite K].
    replace (memread (pre ++ suboption_octets (code, d) ++ rest) (Zlen pre + 2) (Zlen d)) with (Ret d); [cbn [mbind outcome_bind]; by rewrite K|].
    replace (pre ++ suboption_octets (code, d) ++ rest) with ((pre ++ [code; Zlen d]) ++ d ++ rest) by (by rewrite <- !app_assoc).
    replace (Zlen pre + 2) with (Zlen (pre ++ [code; Zlen d])) by (by rewrite Zlen_app). by rewrite memread_mid.
Qed.

(** The interface that our option names is the one it was made for. *)
Lemma find_named ip (link : bool) giaddr out n :
  nameable ip link giaddr -> ip ∈ interfaces cfg -> (forall ip', ip' ∈ interfaces cfg -> circuit_id ip' = circuit_id ip -> ip' = ip) ->
  find_interface_by_agent_option cfg out (agent_data ip link giaddr) n = Ret (1, Some ip, n).
Proof.
  intros [(c & Ec & _) _ _ _] Hin Hun. unfold find_interface_by_agent_option.
  assert (length (agent_suboptions ip link giaddr) <= length (agent_data ip link giaddr))%nat as Hl.
  { unfold agent_data. induction (agent_suboptions ip link giaddr) as [|o l IH]; [done|]. cbn [map concat]. rewrite length_app. unfold suboption_octets at 1. cbn [length]. lia. }
  pose proof (circuit_loop_octets (agent_suboptions ip link giaddr) (length (agent_data ip link giaddr)) [] None Hl) as E. cbn [app] in E.
  change (Zlen (@nil Z)) with 0 in E. unfold agent_data at 2. rewrite E. cbn [mbind outcome_bind].
  assert (foldl pick_circuit None (agent_suboptions ip link giaddr) = Some c) as ->.
  { unfold agent_suboptions. rewrite Ec. by destruct (remote_id ip), link. }
  destruct (list_find_elem_of (fun ip => circuit_id ip = Some c) (interfaces cfg) ip Hin Ec) as [[i ip'] Ef]. rewrite Ef.
  apply list_find_Some in Ef as (H1 & H2 & _). rewrite (Hun ip'); [done|by eapply list_elem_of_lookup_2|by rewrite Ec].
Qed.

Lemma agent_data_tlvs ip (link : bool) giaddr :
  nameable ip link giaddr -> agent_data ip link giaddr = tlvs agent_space (agent_suboptions ip link giaddr) /\
    agent_suboptions ip link giaddr <> [] /\ Forall (sendable agent_space) (agent_suboptions ip link giaddr) /\
    Forall (fun o => 1 <= Zlen (snd o)) (agent_suboptions ip link giaddr) /\ NoDup (map fst (agent_suboptions ip link giaddr)).
Proof.
  intros [(c & Ec & Hc & Hcl) Hr (Hg & Hgl) _].
  assert (Forall (fun o => (fst o = 1 \/ fst o = 2 \/ fst o = 5) /\ is_bytes (snd o) /\ 1 <= Zlen (snd o) <= 255) (agent_suboptions ip link giaddr)) as H.
  { unfold agent_suboptions. rewrite Ec. rewrite !Forall_app. split_and!; [repeat constructor; cbn; auto; lia| |].
    - destruct (remote_id ip) as [d|]; cbn [from_option]; [|done]. repeat constructor; cbn; auto; tauto || lia.
    - destruct link; [|done]. repeat constructor; cbn; auto; lia. }
  split_and!.
  - unfold agent_data, tlvs. f_equal. apply map_ext_Forall. eapply Forall_impl; [exact H|]. intros [code d] (Hcode & _ & Hd). cbn [fst snd] in *.
    unfold suboption_octets, tlv. cbn [fst snd]. change (Z.to_nat (tag_size agent_space)) with 1%nat. change (Z.to_nat (length_size agent_space)) with 1%nat.
    cbn [be_enc app]. change (256 ^ Z.of_nat 0) with 1. rewrite !Z.div_1_r, !Z.mod_small by lia. done.
  - unfold agent_suboptions. by rewrite Ec.
  - eapply Forall_impl; [exact H|]. intros [code d] (Hcode & Hb & Hd). cbn [fst snd] in *. unfold sendable. cbn. split_and!; [lia|lia|unfold DHO_PAD; lia|lia|done|lia].
  - eapply Forall_impl; [exact H|]. cbn beta. intros o. tauto || lia.
  - unfold agent_suboptions. rewrite Ec. destruct (remote_id ip), link; cbn; refine (bool_decide_unpack _ _); by vm_compute.
Qed.

Definition no_agent (i : item) : Prop := match i with Opt code _ => code <> DHO_DHCP_AGENT_OPTIONS | Pad => True end.

Lemma no_agent_kept is_dhcp l : Forall no_agent l -> without_agent is_dhcp l = l /\ agent_values is_dhcp l = [].
Proof.
  revert is_dhcp. induction l as [|[|code d] l IH]; intros is_dhcp H; [done|..]; inversion_clear H as [|? ? Hi H']; cbn [without_agent agent_values].
  - destruct (IH is_dhcp H') as [-> ->]. done.
  - cbn in Hi. rewrite (proj2 (Z.eqb_neq code DHO_DHCP_AGENT_OPTIONS)) by done. cbn [andb].
    destruct (code =? _); [destruct (IH true H') as [-> ->]|destruct (IH is_dhcp H') as [-> ->]]; done.
Qed.

Lemma reply_kept before after data : forall is_dhcp,
  Forall no_agent before -> Forall no_agent after -> is_dhcp || existsb is_type before = true ->
  without_agent is_dhcp (before ++ Opt DHO_DHCP_AGENT_OPTIONS data :: after) = before ++ after /\
  agent_values is_dhcp (before ++ Opt DHO_DHCP_AGENT_OPTIONS data :: after) = [data].
Proof.
  induction before as [|[|code d] before IH]; intros is_dhcp Hb Ha Ht.
  - cbn [existsb] in Ht. rewrite orb_false_r in Ht. subst. cbn [app without_agent agent_values].
    change (DHO_DHCP_AGENT_OPTIONS =? DHO_DHCP_MESSAGE_TYPE) with false. change (DHO_DHCP_AGENT_OPTIONS =? DHO_DHCP_AGENT_OPTIONS) with true. cbn [andb].
    by destruct (no_agent_kept true after Ha) as [-> ->].
  - inversion_clear Hb as [|? ? _ Hb']. cbn [app without_agent agent_values]. destruct (IH is_dhcp Hb' Ha Ht) as [-> ->]. done.
  - inversion_clear Hb as [|? ? Hi Hb']. cbn in Hi. cbn [app without_agent agent_values]. rewrite (proj2 (Z.eqb_neq code DHO_DHCP_AGENT_OPTIONS)) by done. cbn [andb].
    cbn [existsb is_type] in Ht. destruct (code =? _).
    + destruct (IH true Hb' Ha eq_refl) as [-> ->]. done.
    + destruct (IH is_dhcp Hb' Ha Ht) as [-> ->]. done.
Qed.

Lemma tlvs_bytes opts : Forall (sendable agent_space) opts -> is_bytes (tlvs agent_space opts).
Proof.
  induction 1 as [|o opts (_ & _ & _ & Hb & _) _ IH]; [constructor|]. change (tlvs agent_space (o :: opts)) with (tlv agent_space o ++ tlvs agent_space opts).
  apply is_bytes_app. split; [|done]. unfold tlv. rewrite !is_bytes_app. split_and!; auto with dhcp.
Qed.

(** ** Any packet *)

Definition area_at : Z := options_at + 4.

(** Another buffer in the place of [b]: the same octets up to the options. *)
Record same_header (b b' : list Z) : Prop := Same_header {
  same_length : Zlen b' = Zlen b;
  same_bytes : is_bytes b';
  same_start : take (Z.to_nat area_at) b' = take (Z.to_nat area_at) b
}.

Lemma same_refl b : is_bytes b -> same_header b b.
Proof. by constructor. Qed.

Lemma same_trans b1 b2 b3 : same_header b1 b2 -> same_header b2 b3 -> same_header b1 b3.
Proof. intros [] []. constructor; congruence. Qed.

Lemma same_splice b at_ x : is_bytes b -> is_bytes x -> area_at <= at_ -> at_ + Zlen x <= Zlen b -> same_header b (splice b at_ x).
Proof.
  intros Hb Hx Ha Hl. unfold area_at, options_at in *. constructor; [apply length_splice; lia|by apply is_bytes_splice|].
  unfold area_at, options_at, splice, Zlen in *. rewrite take_app_le by (rewrite length_take; lia). rewrite take_take. f_equal. lia.
Qed.

(** Reading the length of an option and moving it, as both loops do it. *)
Lemma skip_safe {T} (P : T -> Prop) (K : list Z -> Z -> Z -> outcome T) b max op sp X :
  is_bytes b -> area_at <= sp <= op -> op + 1 < Zlen b -> max < Zlen b -> P X ->
  (forall b' op' sp', same_header b b' -> area_at <= sp' <= op' -> op < op' <= max -> exists x, K b' op' sp' = Ret x /\ P x) ->
  exists x, (l ← rd b (op + 1);
    let nextop := op + l + 2 in
    if max <? nextop then Ret X
    else if sp =? op then K b nextop nextop
    else d ← memread b op (l + 2); b ← memcpy b sp d; K b nextop (sp + l + 2)) = Ret x /\ P x.
Proof.
  intros Hb Hsp Hop Hmax HX HK. rewrite rd_in by (unfold area_at, options_at in *; lia). cbn [mbind outcome_bind]. cbn zeta.
  pose proof (nthZ_byte b (op + 1) Hb) as Hl. set (l := nthZ b (op + 1)) in *. unfold is_byte in Hl. destruct (Z.ltb_spec max (op + l + 2)); [by eauto|].
  destruct (Z.eqb_spec sp op); [apply HK; [by apply same_refl|lia|lia]|].
  rewrite memread_slice by (unfold area_at, options_at in *; lia). cbn [mbind outcome_bind].
  assert (Zlen (slice b op (l + 2)) = l + 2) as El by (unfold slice, Zlen, area_at, options_at in *; rewrite length_take, length_drop; lia).
  rewrite memcpy_splice by (unfold area_at, options_at in *; lia). cbn [mbind outcome_bind]. apply HK; [|lia|lia].
  apply same_splice; [done|unfold slice; auto with dhcp|lia|lia].
Qed.

Lemma pad_safe b op sp x :
  is_bytes b -> is_byte x -> area_at <= sp <= op -> op < Zlen b ->
  exists b', (if sp =? op then Ret b else wr b sp x) = Ret b' /\ same_header b b'.
Proof.
  intros Hb Hx Hsp Hop. destruct (sp =? op); [exists b; split; [done|by apply same_refl]|]. rewrite wr_splice by (unfold area_at, options_at in *; lia).
  eexists. split; [done|]. apply same_splice; [done|by apply Forall_singleton|lia|change (Zlen [x]) with 1; lia].
Qed.

Lemma circuit_loop_safe buf : is_bytes buf -> forall fuel i c, 0 <= i -> Zlen buf - i <= Z.of_nat fuel -> exists r, circuit_loop fuel buf i c = Ret r.
Proof.
  intros Hb. induction fuel as [|fuel IH]; intros i c Hi Hf; cbn [circuit_loop]; destruct (Z.leb_spec (Zlen buf) i); [by eauto|lia|by eauto|].
  destruct (Z.eqb_spec (i + 1) (Zlen buf)); [by eauto|]. rewrite (rd_in buf (i + 1)) by lia. cbn [mbind outcome_bind].
  pose proof (nthZ_byte buf (i + 1) Hb) as Hl. unfold is_byte in Hl. destruct (Z.ltb_spec (Zlen buf) (i + nthZ buf (i + 1) + 2)); [by eauto|].
  rewrite rd_in by lia. cbn [mbind outcome_bind]. destruct (_ =? RAI_CIRCUIT_ID); [|apply IH; lia].
  rewrite memread_in by lia. cbn [mbind outcome_bind]. apply IH; lia.
Qed.

(** The interface that is found is one of the relay agent's. *)
Lemma find_safe out buf n : is_bytes buf ->
  exists status out' n', find_interface_by_agent_option cfg out buf n = Ret (status, out', n') /\ (out' = out \/ exists ip, out' = Some ip /\ ip ∈ interfaces cfg).
Proof.
  intros Hb. unfold find_interface_by_agent_option. destruct (circuit_loop_safe buf Hb (length buf) 0 None) as [r ->]; [done|unfold Zlen; lia|]. cbn [mbind outcome_bind].
  destruct r as [[id|]|]; [|by eauto 6..]. destruct (list_find _ _) as [[i ip]|] eqn:E; [|by eauto 6]. apply list_find_Some in E as (E & _).
  eexists _, _, _. split; [done|]. right. exists ip. split; [done|]. by eapply list_elem_of_lookup_2.
Qed.

Definition strip_ok (b : list Z) (max : Z) (out : option interface_info)
    (r : option (list Z * Z * Z * bool * bool) * option interface_info * list counter) : Prop :=
  match r with
  | (x, out', _) =>
    (out' = out \/ exists ip, out' = Some ip /\ ip ∈ interfaces cfg) /\
    match x with
    | Some (b', op, sp, _, _) => same_header b b' /\ area_at <= sp <= op /\ op <= Z.max max area_at
    | None => True
    end
  end.

Lemma strip_ok_trans b b' max out out' r :
  same_header b b' -> (out' = out \/ exists ip, out' = Some ip /\ ip ∈ interfaces cfg) -> strip_ok b' max out' r -> strip_ok b max out r.
Proof.
  destruct r as [[x o] n]. intros Hs Ho [Ho' Hx]. split; [destruct Ho' as [->|?]; auto|]. destruct x as [[[[[b1 op] sp] d] g]|]; [|done].
  destruct Hx as [Hx ?]. split; [by eapply same_trans|done].
Qed.

Lemma strip_loop_safe fuel : forall b max op sp is_dhcp good out n,
  is_bytes b -> area_at <= sp <= op -> op <= Z.max max area_at -> max < Zlen b -> max - op <= Z.of_nat fuel ->
  exists r, strip_loop cfg fuel b max op sp is_dhcp good out n = Ret r /\ strip_ok b max out r.
Proof.
  induction fuel as [|fuel IH]; intros b max op sp is_dhcp good out n Hb Hsp Hop Hmax Hf.
  - cbn [strip_loop]. destruct (Z.leb_spec max op); [|lia]. eexists. split; [done|]. split; [by left|]. split_and!; [by apply same_refl|lia..].
  - cbn [strip_loop]. destruct (Z.leb_spec max op).
    { eexists. split; [done|]. split; [by left|]. split_and!; [by apply same_refl|lia..]. }
    rewrite (rd_in b op) by (unfold area_at, options_at in *; lia). cbn [mbind outcome_bind]. pose proof (nthZ_byte b op Hb) as Hc. set (code := nthZ b op) in *.
    assert (forall dhcp, exists r, (l ← rd b (op + 1);
      let nextop := op + l + 2 in
      if max <? nextop then Ret (None, out, n)
      else if sp =? op then strip_loop cfg fuel b max nextop nextop dhcp good out n
      else d ← memread b op (l + 2); b ← memcpy b sp d; strip_loop cfg fuel b max nextop (sp + l + 2) dhcp good out n) = Ret r /\ strip_ok b max out r) as Hskip.
    { intros dhcp. apply (skip_safe (strip_ok b max out) (fun b op sp => strip_loop cfg fuel b max op sp dhcp good out n)); [done|lia|lia|lia|split; [by left|done]|].
      intros b' op' sp' Hs H1 H2. destruct (IH b' max op' sp' dhcp good out n) as (r & E & Hr); [apply Hs|lia|lia|rewrite (same_length _ _ Hs); lia|lia|].
      exists r. split; [done|]. eapply strip_ok_trans; eauto. }
    destruct (code =? DHO_PAD); [|destruct (code =? DHO_DHCP_MESSAGE_TYPE); [apply Hskip|destruct (code =? DHO_END); [|destruct (code =? DHO_DHCP_AGENT_OPTIONS); [|apply Hskip]]]].
    + destruct (pad_safe b op sp code) as (b' & -> & Hs); [done|done|lia|lia|].
      cbn [mbind outcome_bind]. destruct (IH b' max (op + 1) (sp + 1) is_dhcp good out n) as (r & E & Hr); [apply Hs|lia|lia|rewrite (same_length _ _ Hs); lia|lia|].
      exists r. split; [done|]. eapply strip_ok_trans; eauto.
    + destruct (Z.eqb_spec sp op); [eexists; split; [done|]; split; [by left|]; split_and!; [by apply same_refl|lia..]|].
      rewrite wr_splice by (unfold area_at, options_at in *; lia). cbn [mbind outcome_bind]. eexists. split; [done|]. split; [by left|].
      split_and!; [apply same_splice; [done|by apply Forall_singleton|lia|change (Zlen [code]) with 1; lia]|lia..].
    + destruct is_dhcp; cbn [negb]; [|apply Hskip]. rewrite rd_in by (unfold area_at, options_at in *; lia). cbn [mbind outcome_bind].
      pose proof (nthZ_byte b (op + 1) Hb) as Hl. unfold is_byte in Hl. set (l := nthZ b (op + 1)) in *. destruct (Z.ltb_spec max (op + l + 2)); [eexists; split; [done|]; split; [by left|done]|].
      rewrite memread_slice by (unfold area_at, options_at in *; lia). cbn [mbind outcome_bind].
      destruct (find_safe out (slice b (op + 2) l) n) as (status & out' & n' & -> & Ho); [unfold slice; auto with dhcp|]. cbn [mbind outcome_bind].
      destruct ((status =? -1) && drop_agent_mismatches cfg); [eexists; split; [done|]; by split|].
      destruct (IH b max (op + l + 2) sp true (good || negb (status =? 0)) out' n') as (r & E & Hr); [done|lia|lia|lia|lia|].
      exists r. split; [done|]. eapply strip_ok_trans; [by apply same_refl|exact Ho|done].
Qed.

Lemma memset_safe b at_ v n : is_bytes b -> is_byte v -> 0 <= n -> area_at <= at_ -> at_ + n <= Zlen b -> exists b', memset b at_ v n = Ret b' /\ same_header b b'.
Proof.
  intros Hb Hv Hn Ha Hl. assert (Zlen (replicate (Z.to_nat n) v) = n) as E by (unfold Zlen; rewrite length_replicate; lia).
  unfold memset. rewrite memcpy_splice by (unfold area_at, options_at in *; lia). eexists. split; [done|]. apply same_splice; [done|by apply is_bytes_replicate|lia|lia].
Qed.

Lemma strip_safe out b len n :
  is_bytes b -> BOOTP_MIN_LEN <= Zlen b -> 0 <= len < Zlen b ->
  exists len' b' out' n', strip_relay_agent_options cfg out b len n = Ret (len', b', out', n') /\ same_header b b' /\ 0 <= len' <= Zlen b /\
    (out' = out \/ exists ip, out' = Some ip /\ ip ∈ interfaces cfg).
Proof.
  intros Hb Hm Hl. unfold strip_relay_agent_options. assert (same_header b b) by (by apply same_refl).
  destruct (add_agent_options cfg); cbn [negb]; [|eexists _, _, _, _; split_and!; [done|done|lia|lia|by left]].
  rewrite memread_in by (unfold options_at, BOOTP_MIN_LEN in *; lia). cbn [mbind outcome_bind].
  case_bool_decide; cbn [negb]; [|eexists _, _, _, _; split_and!; [done|done|lia|lia|by left]]. cbn zeta. fold area_at.
  destruct (strip_loop_safe (Z.to_nat (len - area_at)) b len area_at area_at false false out n) as ([[x out'] n'] & -> & Ho & Hx); [done|lia|lia|lia|lia|]. cbn [mbind outcome_bind].
  destruct x as [[[[[b' op] sp] dhcp] good]|]; [|by eexists _, _, _, _; split_and!; [done|done|lia|lia|done]]. destruct Hx as (Hs & Hsp & Hop).
  assert (Z.max len area_at <= Zlen b) by (unfold area_at, options_at, BOOTP_MIN_LEN in *; lia).
  destruct dhcp; cbn [negb]; [|eexists _, _, _, _; split_and!; [done|done|lia|lia|done]].
  destruct (negb good && drop_agent_mismatches cfg); [eexists _, _, _, _; split_and!; [done|done|lia|lia|done]|].
  destruct (sp =? op); [eexists _, _, _, _; split_and!; [done|done|lia|lia|done]|].
  destruct (Z.ltb_spec sp BOOTP_MIN_LEN); [|eexists _, _, _, _; split_and!; [done|done|unfold area_at, options_at in *; lia|lia|done]].
  destruct (memset_safe b' sp DHO_PAD (BOOTP_MIN_LEN - sp)) as (b2 & -> & Hs2); [apply Hs|done|lia|lia|rewrite (same_length _ _ Hs); lia|].
  cbn [mbind outcome_bind]. eexists _, _, _, _. split_and!; [done|by eapply same_trans|unfold BOOTP_MIN_LEN; lia|lia|done].
Qed.

Definition add_ok (b : list Z) (len : Z) (r : add_exit) : Prop :=
  match r with
  | Add_return l => l = 0 \/ l = len
  | Add_out b' max sp _ ep =>
    same_header b b' /\ area_at <= sp <= Z.max max area_at /\ max <= dhcp_max_agent_option_packet_length cfg /\ (forall p, ep = Some p -> area_at <= p <= sp)
  end.

Lemma add_ok_trans b b' len r : same_header b b' -> add_ok b' len r -> add_ok b len r.
Proof. intros Hs. destruct r as [l|b1 max sp d ep]; [done|]. intros (H & ?). split; [by eapply same_trans|done]. Qed.

Lemma add_loop_safe fuel : forall len b max op sp is_dhcp ep,
  let m := dhcp_max_agent_option_packet_length cfg in
  is_bytes b -> area_at <= sp <= op -> sp <= Z.max max area_at -> max <= m -> m + 1 < Zlen b -> m - op <= Z.of_nat fuel ->
  (forall p, ep = Some p -> area_at <= p <= sp) ->
  exists r, add_loop cfg fuel len b max op sp is_dhcp ep = Ret r /\ add_ok b len r.
Proof.
  induction fuel as [|fuel IH]; intros len b max op sp is_dhcp ep m Hb Hsp Hsm Hmax Hm Hf Hep.
  - cbn [add_loop]. destruct (Z.leb_spec max op); [|lia]. eexists. split; [done|]. split_and!; [by apply same_refl|lia..|done].
  - cbn [add_loop]. destruct (Z.leb_spec max op).
    { eexists. split; [done|]. split_and!; [by apply same_refl|lia..|done]. }
    rewrite (rd_in b op) by (unfold area_at, options_at in *; lia). cbn [mbind outcome_bind]. pose proof (nthZ_byte b op Hb) as Hc. set (code := nthZ b op) in *.
    assert (forall max dhcp, max <= m -> exists r, (l ← rd b (op + 1);
      let nextop := op + l + 2 in
      if max <? nextop then Ret (Add_return 0)
      else if sp =? op then add_loop cfg fuel len b max nextop nextop dhcp None
      else d ← memread b op (l + 2); b ← memcpy b sp d; add_loop cfg fuel len b max nextop (sp + l + 2) dhcp None) = Ret r /\ add_ok b len r) as Hskip.
    { intros max' dhcp Hm'. apply (skip_safe (add_ok b len) (fun b op sp => add_loop cfg fuel len b max' op sp dhcp None)); [done|lia|lia|lia|by left|].
      intros b' op' sp' Hs H1 H2. destruct (IH len b' max' op' sp' dhcp None) as (r & E & Hr); [apply Hs|lia|lia|done|rewrite (same_length _ _ Hs); lia|lia|done|].
      exists r. split; [done|]. by eapply add_ok_trans. }
    destruct (code =? DHO_PAD); [|destruct (code =? DHO_DHCP_MESSAGE_TYPE); [by apply Hskip|destruct (code =? DHO_DHCP_MAX_MESSAGE_SIZE);
      [|destruct (code =? DHO_END); [|destruct (code =? DHO_DHCP_AGENT_OPTIONS); [|by apply Hskip]]]]].
    + destruct (pad_safe b op sp code) as (b' & -> & Hs); [done|done|lia|lia|]. cbn [mbind outcome_bind].
      destruct (IH len b' max (op + 1) (sp + 1) is_dhcp (match ep with None => Some sp | Some _ => ep end)) as (r & E & Hr); [apply Hs|lia|lia|done|rewrite (same_length _ _ Hs); lia|lia| |].
      { destruct ep as [p|]; [intros p' [= <-]; specialize (Hep p eq_refl); lia|intros p [= <-]; lia]. }
      exists r. split; [done|]. by eapply add_ok_trans.
    + rewrite (rd_in b (op + 2)) by (unfold area_at, options_at in *; lia). cbn [mbind outcome_bind].
      apply (Hskip (if (ntohs (nthZ b (op + 2)) <? m) && (DHCP_MTU_MIN <=? ntohs (nthZ b (op + 2))) then ntohs (nthZ b (op + 2)) else max)).
      fold m. destruct (Z.ltb_spec (ntohs (nthZ b (op + 2))) m); cbn [andb]; [|done]. destruct (_ <=? _); lia.
    + eexists. split; [done|]. split_and!; [by apply same_refl|lia..|done].
    + destruct is_dhcp; cbn [negb]; [|by apply Hskip]. destruct (agent_relay_mode cfg); [by apply Hskip| |eexists; split; [done|by right]|eexists; split; [done|by left]].
      rewrite rd_in by (unfold area_at, options_at in *; lia). cbn [mbind outcome_bind]. pose proof (nthZ_byte b (op + 1) Hb) as Hl. unfold is_byte in Hl.
      apply IH; try done; lia.
Qed.

(** Suboptions written one after the other stay where they should. *)
Lemma put_agent_safe ip (link : bool) giaddr up b sp :
  is_bytes b -> nameable ip link giaddr -> (link = true -> exists u l, uplink cfg = Some u /\ addresses u = up :: l /\ is_bytes up /\ Zlen up = 4) ->
  area_at <= sp -> sp + 2 + Zlen (agent_data ip link giaddr) <= Zlen b ->
  exists b', put_agent_option cfg ip giaddr link (Zlen (agent_data ip link giaddr)) b sp = Ret (b', sp + 2 + Zlen (agent_data ip link giaddr)) /\
    is_bytes b' /\ Zlen b' = Zlen b /\ take (Z.to_nat giaddr_at) b' = take (Z.to_nat giaddr_at) b /\
    slice b' giaddr_at 4 = if link then up else slice b giaddr_at 4.
Proof.
  intros Hb Hn Hup Hsp Hl. rewrite put_agent_ok by (done || (unfold area_at, options_at in *; lia)). cbn zeta.
  destruct (agent_data_tlvs ip link giaddr Hn) as (Ed & _ & Hse & _). pose proof Hn as [_ _ _ Hfit].
  set (data := agent_data ip link giaddr) in *. pose proof (Zlen_nonneg data).
  assert (is_bytes (item_octets (Opt DHO_DHCP_AGENT_OPTIONS data))) as Hi.
  { constructor; [done|]. constructor; [unfold is_byte; lia|]. rewrite Ed. by apply tlvs_bytes. }
  assert (Zlen (item_octets (Opt DHO_DHCP_AGENT_OPTIONS data)) = Zlen data + 2) as Ei by (cbn [item_octets]; rewrite !Zlen_cons; lia).
  destruct (same_splice b sp (item_octets (Opt DHO_DHCP_AGENT_OPTIONS data)) Hb Hi Hsp) as [E1 E2 E3]; [lia|]. set (b1 := splice b sp _) in *.
  assert (take (Z.to_nat giaddr_at) b1 = take (Z.to_nat giaddr_at) b) as E4.
  { apply (f_equal (take (Z.to_nat giaddr_at))) in E3. rewrite !take_take in E3. exact E3. }
  destruct link.
  - destruct (Hup eq_refl) as (u & l & -> & Eu & Hu & Hul). unfold first_address. rewrite Eu. cbn [mbind outcome_bind].
    rewrite memcpy_splice; [|done|unfold giaddr_at, area_at, options_at in *; lia]. cbn [mbind outcome_bind]. exists (splice b1 giaddr_at up). split_and!; [done|by apply is_bytes_splice| | |].
    + rewrite length_splice; [done|done|unfold giaddr_at, area_at, options_at in *; lia].
    + rewrite <- E4. unfold splice. rewrite take_app_le, take_take; [f_equal; lia|]. rewrite length_take. unfold Zlen, giaddr_at, area_at, options_at in *. lia.
    + pose proof (slice_splice_grow b1 giaddr_at up giaddr_at) as G. rewrite Z.sub_diag, Z.add_0_l, Hul in G. rewrite G; [|done|lia|unfold giaddr_at, area_at, options_at in *; lia].
      done.
  - cbn [mbind outcome_bind]. exists b1. split_and!; [done..|].
    apply slice_splice_before; unfold giaddr_at, area_at, options_at in *; lia.
Qed.

(** What the adding keeps of a packet: everything before the options but the
    address of the relay agent, which may become that of the uplink. *)
Record same_request (up : list Z) (b b' : list Z) : Prop := Same_request {
  req_length : Zlen b' = Zlen b;
  req_bytes : is_bytes b';
  req_start : take (Z.to_nat giaddr_at) b' = take (Z.to_nat giaddr_at) b;
  req_giaddr : slice b' giaddr_at 4 = slice b giaddr_at 4 \/
    slice b giaddr_at 4 = [0; 0; 0; 0] /\ slice b' giaddr_at 4 = up /\ add_rfc3527_suboption cfg = true
}.

Lemma slice_take b m lo n : 0 <= lo -> 0 <= n -> lo + n <= m -> slice (take (Z.to_nat m) b) lo n = slice b lo n.
Proof. intros. unfold slice. rewrite skipn_firstn_comm, take_take. f_equal. lia. Qed.

Lemma same_header_request up b b' : area_at <= Zlen b -> same_header b b' -> same_request up b b'.
Proof.
  intros Hb [H1 H2 H3]. constructor; [done|done| |left].
  - apply (f_equal (take (Z.to_nat giaddr_at))) in H3. rewrite !take_take in H3. exact H3.
  - rewrite <- (slice_take b' area_at), H3, slice_take by done. done.
Qed.

Lemma same_request_trans up b b1 b2 : area_at <= Zlen b -> same_request up b b1 -> same_header b1 b2 -> same_request up b b2.
Proof.
  intros Hb [H1 H2 H3 H4] Hs. destruct (same_header_request up b1 b2) as [S1 S2 S3 S4]; [by rewrite H1|done|].
  constructor; [congruence|done|congruence|]. assert (slice b2 giaddr_at 4 = slice b1 giaddr_at 4) as ->; [|done].
  rewrite <- (slice_take b2 area_at), (same_start _ _ Hs), slice_take by done. done.
Qed.

Lemma remote_in_range ip (link : bool) giaddr : nameable ip link giaddr ->
  (match remote_id ip with Some _ => (255 <? id_length (remote_id ip)) || (id_length (remote_id ip) <? 1) | None => false end) = false.
Proof.
  intros [_ Hrem _ _]. destruct (remote_id ip) as [d|]; [|done]. cbn [id_length].
  destruct (Z.ltb_spec 255 (Zlen d)); [lia|]. destruct (Z.ltb_spec (Zlen d) 1); [lia|done].
Qed.

(** The end of [add_relay_agent_options]. *)
Lemma finish_safe up b b1 sp max (n : list counter) len :
  Z.max BOOTP_MIN_LEN (dhcp_max_agent_option_packet_length cfg) + 1 < Zlen b -> max <= dhcp_max_agent_option_packet_length cfg ->
  area_at <= sp <= Z.max max area_at -> same_request up b b1 ->
  exists len' b' n', (r ← if sp <? max then b ← wr b1 sp DHO_END; Ret (b, sp + 1) else Ret (b1, sp);
    let '(b, sp) := r in
    if sp <? BOOTP_MIN_LEN then b ← memset b sp DHO_PAD (BOOTP_MIN_LEN - sp); Ret (BOOTP_MIN_LEN, b, n) else Ret (sp, b, n)) = Ret (len', b', n') /\
    same_request up b b' /\ 0 <= len' <= Zlen b /\ (len' = 0 \/ len' = len \/ BOOTP_MIN_LEN <= len').
Proof.
  intros Hm Hmx Hsp Hs. assert (area_at < BOOTP_MIN_LEN) as Ha by (unfold area_at, options_at, BOOTP_MIN_LEN; lia). assert (0 <= area_at) as Ha0 by done.
  assert (exists b2 sp2, (if sp <? max then b ← wr b1 sp DHO_END; Ret (b, sp + 1) else Ret (b1, sp)) = Ret (b2, sp2) /\ same_request up b b2 /\ area_at <= sp2 <= Z.max max area_at) as (b2 & sp2 & -> & Hs2 & Hsp2).
  { destruct (Z.ltb_spec sp max); [|by eauto]. rewrite wr_splice by (rewrite (req_length _ _ _ Hs); lia). cbn [mbind outcome_bind]. eexists _, _. split; [done|]. split; [|lia].
    eapply same_request_trans; [lia|exact Hs|]. apply same_splice; [apply Hs|by apply Forall_singleton|lia|rewrite (req_length _ _ _ Hs); change (Zlen [DHO_END]) with 1; lia]. }
  cbn [mbind outcome_bind]. destruct (Z.ltb_spec sp2 BOOTP_MIN_LEN); [|eexists _, _, _; split_and!; [done|done|lia|lia|auto]].
  destruct (memset_safe b2 sp2 DHO_PAD (BOOTP_MIN_LEN - sp2)) as (b3 & -> & Hs3); [apply Hs2|done|lia|lia|rewrite (req_length _ _ _ Hs2); lia|].
  cbn [mbind outcome_bind]. eexists _, _, _. split_and!; [done|by eapply same_request_trans; [lia|..]|lia|lia|right; right; lia].
Qed.

Lemma add_safe ip b len giaddr up n :
  (forall link, nameable ip link giaddr) ->
  (add_rfc3527_suboption cfg = true -> exists u l, uplink cfg = Some u /\ addresses u = up :: l /\ is_bytes up /\ Zlen up = 4) ->
  is_bytes b -> Z.max BOOTP_MIN_LEN (dhcp_max_agent_option_packet_length cfg) + 1 < Zlen b -> 0 <= len <= Zlen b ->
  exists len' b' n', add_relay_agent_options cfg ip b len giaddr n = Ret (len', b', n') /\ same_request up b b' /\
    0 <= len' <= Zlen b /\ (len' = 0 \/ len' = len \/ BOOTP_MIN_LEN <= len').
Proof.
  intros Hn Hup Hb Hm Hlen. unfold add_relay_agent_options.
  assert (area_at < Zlen b) as Ha by (unfold area_at, options_at, BOOTP_MIN_LEN in *; lia).
  assert (same_request up b b) as Hs0 by (apply same_header_request; [lia|by apply same_refl]).
  destruct (add_agent_options cfg); cbn [negb]; [|by eexists _, _, _; split_and!; auto; lia].
  rewrite (memread_in b options_at 4) by (unfold area_at, options_at in Ha |- *; lia). cbn [mbind outcome_bind].
  case_bool_decide; cbn [negb]; [|by eexists _, _, _; split_and!; auto; lia].
  rewrite (memread_slice b giaddr_at 4) by (unfold area_at, options_at, giaddr_at in Ha |- *; lia). cbn [mbind outcome_bind]. cbn zeta. fold area_at.
  set (link := add_rfc3527_suboption cfg && bool_decide (slice b giaddr_at 4 = [0; 0; 0; 0])).
  destruct (add_loop_safe (Z.to_nat (Z.max (dhcp_max_agent_option_packet_length cfg) DHCP_MTU_MAX)) len b (dhcp_max_agent_option_packet_length cfg) area_at area_at false None)
    as (r & -> & Hr); [done|lia|lia|lia|lia|unfold area_at, options_at in *; lia|done|]. cbn [mbind outcome_bind].
  destruct r as [l|b1 max sp dhcp ep]; [by eexists _, _, _; split_and!; [done|done|destruct Hr; subst; lia..|destruct Hr; auto]|].
  destruct Hr as (Hs & Hsp & Hmx & Hep). pose proof (same_header_request up b b1 ltac:(lia) Hs) as Hs1.
  destruct dhcp; cbn [negb]; [|by eexists _, _, _; split_and!; auto; lia].
  rewrite <- (agent_data_length ip link giaddr) by done. set (data := agent_data ip link giaddr).
  set (p := match ep with Some p => p | None => sp end).
  assert (area_at <= p <= sp) as Hp by (unfold p; destruct ep as [q|]; [by apply Hep|lia]).
  pose proof (Hn link) as [(c & Ec & _ & Hcl) Hrem _ Hfit]. fold data in Hfit.
  assert (3 <= Zlen data) as H3.
  { unfold data. rewrite agent_data_length, Ec by done. cbn [id_length]. destruct (remote_id ip) as [d|]; cbn [id_length]; [pose proof (Zlen_nonneg d)|]; destruct link; lia. }
  rewrite Ec. cbn [id_length]. destruct (Z.ltb_spec 255 (Zlen c)); [lia|]. destruct (Z.ltb_spec (Zlen c) 1); [lia|]. cbn [orb].
  rewrite (remote_in_range ip link giaddr) by done. destruct (Z.ltb_spec (Zlen data) 3); [lia|]. destruct (Z.ltb_spec 255 (Zlen data)); [lia|]. cbn [orb].
  destruct (Z.leb_spec (Zlen data + 3) (max - p)).
  - destruct (put_agent_safe ip link giaddr up b1 p) as (b2 & E & B1 & B2 & B3 & B4); [apply Hs|done| |lia|rewrite (same_length _ _ Hs); fold data; lia|].
    { intros [Hl _]%andb_true_iff. by apply Hup. }
    fold data in E. rewrite E. cbn [mbind outcome_bind fst snd]. apply finish_safe; [done|lia|lia|].
    constructor; [rewrite B2; apply Hs|done|rewrite B3; apply Hs1|]. destruct link eqn:El; [right|left].
    + apply andb_true_iff in El as [El1 El2%bool_decide_eq_true]. done.
    + rewrite B4, <- (slice_take b1 area_at), (same_start _ _ Hs), slice_take by done. done.
  - cbn [mbind outcome_bind]. apply finish_safe; [done|lia|lia|done].
Qed.

(** ** The relay agent as a whole *)

(** The configuration that [main] and [discover_interfaces] leave: the interfaces
    have addresses, and the names of the one that receives fit into the option. *)
Record relay_ok (ip : interface_info) (up : list Z) : Prop := Relay_ok {
  ok_max : dhcp_max_agent_option_packet_length cfg <= DHCP_MTU_MAX;
  ok_hops : max_hop_count cfg <= 255;
  ok_interfaces : Forall (fun i => addresses i <> []) (interfaces cfg);
  ok_via : fallback_interface cfg <> None \/ interfaces cfg <> [];
  ok_names : forall a l link, addresses ip = a :: l -> nameable ip link a /\ a <> [0; 0; 0; 0];
  ok_uplink : add_rfc3527_suboption cfg = true ->
    (exists u l, uplink cfg = Some u /\ addresses u = up :: l /\ is_bytes up /\ Zlen up = 4) /\ up <> [0; 0; 0; 0]
}.

Lemma nthZ_take b m i : 0 <= i -> i < m -> nthZ (take (Z.to_nat m) b) i = nthZ b i.
Proof. intros. unfold nthZ. rewrite !nth_lookup. f_equal. apply lookup_take_lt. lia. Qed.

Lemma wr_nth b i v : 0 <= i < Zlen b -> v = nthZ (splice b i [v]) i.
Proof. intros H. pose proof (wr_splice b i v H) as E. rewrite wrA_in in E by done. injection E as <-. by rewrite nthZ_insert_eq. Qed.

Section Whole.
Context (can_unicast_without_arp : option interface_info -> bool) (send_packet : transmission -> bool).

Lemma to_servers_all via data from l : forall n, exists sent n', to_servers send_packet via data from l n = (sent, n') /\
  map sent_to sent = l /\ Forall (fun s => sent_data s = data) sent.
Proof.
  induction l as [|to l IH]; intros n; cbn [to_servers]; [by eexists [], n|].
  destruct (IH (if send_packet (Send via data from to None) then client_packets_relayed :: n else client_packet_errors :: n)) as (sent & n' & -> & <- & H).
  eexists _, _. split; [done|]. split; [done|]. by constructor.
Qed.

Lemma interface_of_in g ip : interface_of cfg g = Some ip -> ip ∈ interfaces cfg.
Proof.
  unfold interface_of. destruct (list_find _ _) as [[i ip']|] eqn:E; [|done]. cbn. intros [= ->]. apply list_find_Some in E as (E & _). by eapply list_elem_of_lookup_2.
Qed.

Lemma relay_reply_safe ip up b len out n :
  relay_ok ip up -> is_bytes b -> DHCP_MTU_MAX + 2 <= Zlen b -> 0 <= len < Zlen b -> nthZ b hlen_at <= 16 ->
  (forall i, out = Some i -> i ∈ interfaces cfg) ->
  exists sent n', relay_reply cfg can_unicast_without_arp send_packet ip b len out n = Ret (sent, n') /\
    (sent = [] \/ exists s, sent = [s] /\ sent_via s ∈ interfaces cfg).
Proof.
  intros [_ _ Hi _ _ _] Hb Hz Hl Hh Hout. unfold relay_reply. assert (300 < Zlen b) by (unfold DHCP_MTU_MAX in *; lia).
  destruct (_ =? 0); [by eauto 6|]. pose proof (nthZ_byte b hlen_at Hb) as [Hh0 _].
  rewrite !(memread_in b) by (unfold flags_at, yiaddr_at, chaddr_at; lia). rewrite !rd_in by (unfold htype_at, hlen_at; lia). cbn [mbind outcome_bind].
  rewrite !(memread_in b) by (unfold flags_at, yiaddr_at, chaddr_at; lia). cbn [mbind outcome_bind].
  match goal with |- context [match ?x with pair to htop => _ end] => destruct x as [to htop] end.
  destruct (strip_safe out b len n) as (len' & b' & out' & n' & -> & Hs & Hl' & Ho); [done|unfold BOOTP_MIN_LEN; lia|done|]. cbn [mbind outcome_bind].
  destruct (len' =? 0); [by eauto 6|]. destruct out' as [o|]; [|by eauto 6].
  assert (o ∈ interfaces cfg) as Hin. { destruct Ho as [E|(i & [= <-] & E)]; [by apply Hout|done]. }
  rewrite Forall_forall in Hi. specialize (Hi o Hin). unfold first_address. destruct (addresses o) as [|a l]; [done|]. cbn [mbind outcome_bind].
  rewrite memread_in by (rewrite ?(same_length _ _ Hs); lia). cbn [mbind outcome_bind]. eexists _, _. split; [done|]. right. by eexists.
Qed.

Lemma relay_request_safe ip up b len n :
  relay_ok ip up -> addresses ip <> [] -> is_bytes b -> DHCP_MTU_MAX + 2 <= Zlen b -> options_at <= len <= Zlen b ->
  exists sent n', relay_request cfg send_packet ip b len n = Ret (sent, n') /\
    (sent <> [] -> map sent_to sent = servers cfg /\
       Forall (fun s => nthZ (sent_data s) hops_at = nthZ b hops_at + 1 /\ nthZ b hops_at < max_hop_count cfg /\
                        slice (sent_data s) giaddr_at 4 <> [0; 0; 0; 0]) sent).
Proof.
  intros [Hmax Hhops _ Hvia Hn Hup] Hne Hb Hz Hl. unfold relay_request. destruct (_ =? 0); [by eexists [], _|].
  unfold first_address. destruct (addresses ip) as [|from l] eqn:Ea; [done|]. cbn [mbind outcome_bind].
  destruct (add_safe ip b len from up n) as (len' & b' & n' & -> & Hs & Hl' & Hlen); [intros link; by eapply Hn|intros H; by apply Hup|done|unfold BOOTP_MIN_LEN, DHCP_MTU_MAX in *; lia|unfold options_at in *; lia|].
  cbn [mbind outcome_bind]. destruct (Z.eqb_spec len' 0); [by eexists [], _|]. destruct Hs as [S1 S2 S3 S4].
  assert (options_at <= len') as Hlo by (unfold BOOTP_MIN_LEN, options_at in *; lia).
  destruct (Hn from l false eq_refl) as [[_ _ (Hfb & Hf4) _] Hf0].
  rewrite memread_slice by (unfold giaddr_at, options_at in *; lia). cbn [mbind outcome_bind].
  assert (exists b2, (if bool_decide (slice b' giaddr_at 4 = [0; 0; 0; 0]) then memcpy b' giaddr_at from else Ret b') = Ret b2 /\
    Zlen b2 = Zlen b /\ take (Z.to_nat giaddr_at) b2 = take (Z.to_nat giaddr_at) b /\ slice b2 giaddr_at 4 <> [0; 0; 0; 0]) as (b2 & -> & T1 & T2 & T3).
  { case_bool_decide as E0; [|by exists b'].
    rewrite memcpy_splice by (unfold giaddr_at, options_at in *; lia). eexists. split; [done|]. rewrite length_splice by (unfold giaddr_at, options_at in *; lia). split; [done|]. split.
    - rewrite <- S3. unfold splice. rewrite take_app_le, take_take; [f_equal; lia|]. rewrite length_take. unfold Zlen, giaddr_at, options_at in *. lia.
    - pose proof (slice_splice_grow b' giaddr_at from giaddr_at) as G. rewrite Z.sub_diag, Z.add_0_l, Hf4 in G. rewrite G by (unfold giaddr_at, options_at in *; lia). done. }
  cbn [mbind outcome_bind]. rewrite rd_in by (unfold hops_at, options_at in *; lia). cbn [mbind outcome_bind].
  assert (nthZ b2 hops_at = nthZ b hops_at) as -> by (rewrite <- (nthZ_take b2 giaddr_at), T2, nthZ_take by done; done).
  destruct (Z.ltb_spec (nthZ b hops_at) (max_hop_count cfg)) as [Hh|]; cbn [negb]; [|by eexists [], _].
  pose proof (nthZ_byte b hops_at Hb) as Hhb. unfold is_byte in Hhb. rewrite u8_small by (unfold is_byte; lia).
  assert (Zlen (splice b2 hops_at [nthZ b hops_at + 1]) = Zlen b) as T4 by (rewrite length_splice; [done|done|change (Zlen [_]) with 1; unfold hops_at, options_at in *; lia]).
  rewrite wr_splice by (unfold hops_at, options_at in *; lia). cbn [mbind outcome_bind].
  rewrite memread_in; [|lia|lia|rewrite T4; lia]. cbn [mbind outcome_bind]. rewrite drop_0.
  destruct (servers cfg) as [|to l'] eqn:Es; [by eexists [], _|].
  assert (exists via, (match fallback_interface cfg, interfaces cfg with Some i, _ | None, i :: _ => Ret i | None, [] => Undef end) = Ret via) as [via ->].
  { destruct (fallback_interface cfg); [by eauto|]. destruct (interfaces cfg); [by destruct Hvia|by eauto]. }
  cbn [mbind outcome_bind]. destruct (to_servers_all via (take (Z.to_nat len') (splice b2 hops_at [nthZ b hops_at + 1])) from (to :: l') n') as (sent & n2 & -> & Ht & Hd).
  eexists _, _. split; [done|]. intros _. split; [done|]. eapply Forall_impl; [exact Hd|]. cbn beta. intros s ->.
  assert (hops_at < len') by (unfold hops_at, options_at in *; lia). rewrite nthZ_take, slice_take by (unfold giaddr_at, options_at in *; lia || done).
  split_and!; [|done|].
  - rewrite <- (wr_nth b2 hops_at (nthZ b hops_at + 1)); [done|]. unfold hops_at, options_at in *. lia.
  - rewrite slice_splice_after; [done|done|done|]. change (Zlen [_]) with 1. unfold hops_at, options_at in *. lia.
Qed.

(** C19: Whatever octets are received, with any [op], [giaddr], options and lengths in them,
    from the fixed part of a packet to less than a receive buffer of [DHCP_MTU_MAX] + 2
    octets or more, the relay agent stays within its buffer and goes on.  This is for a
    configuration ([relay_ok]) in which every interface has an address (a reply that an
    agent option or [giaddr] directs to an interface without one reads its address 0:
    [interface_without_address], dhcrelay.c:839), the receiving interface has an address
    that is not 0.0.0.0, and a circuit ID and perhaps a remote ID that fit in one option
    (else the relay agent stops on purpose), the packet limit is at most [DHCP_MTU_MAX] and
    the hop limit at most 255, there is an interface to send on, and the uplink has an
    address that is not 0.0.0.0 if link selection is used.  Then a reply is sent at most
    once, on an interface of the relay agent's own.  A request is not sent when it comes
    from an address of the relay agent itself; otherwise it goes to every server or to none,
    and only if its count of hops is below the limit, with the count incremented, so that no
    request circulates, and with the address of a relay agent in [giaddr]. *)
Theorem do_relay4_safe ip up b len n :
  relay_ok ip up -> is_bytes b -> DHCP_MTU_MAX + 2 <= Zlen b -> options_at <= len < Zlen b ->
  exists sent n', do_relay4 cfg can_unicast_without_arp send_packet ip b len n = Ret (sent, n') /\
    (nthZ b op_at = BOOTREPLY -> sent = [] \/ exists s, sent = [s] /\ sent_via s ∈ interfaces cfg) /\
    (nthZ b op_at <> BOOTREPLY -> sent <> [] ->
       map sent_to sent = servers cfg /\
       (slice b giaddr_at 4 = [0; 0; 0; 0] \/ forall i, i ∈ interfaces cfg -> slice b giaddr_at 4 ∉ addresses i) /\
       Forall (fun s => nthZ (sent_data s) hops_at = nthZ b hops_at + 1 /\ nthZ (sent_data s) hops_at <= max_hop_count cfg /\
                        slice (sent_data s) giaddr_at 4 <> [0; 0; 0; 0]) sent).
Proof.
  intros Hok Hb Hz Hl. unfold do_relay4. assert (300 < Zlen b) by (unfold DHCP_MTU_MAX in *; lia).
  rewrite (rd_in b hlen_at) by (unfold hlen_at; lia). cbn [mbind outcome_bind]. destruct (Z.ltb_spec 16 (nthZ b hlen_at)); [by eexists [], _; split_and!; [|left|]|].
  case_bool_decide as Ha; [by eexists [], _; split_and!; [|left|]|]. rewrite memread_slice by (unfold giaddr_at; lia). cbn [mbind outcome_bind].
  rewrite (rd_in b op_at) by (unfold op_at; lia). cbn [mbind outcome_bind]. set (g := slice b giaddr_at 4).
  destruct (Z.eqb_spec (nthZ b op_at) BOOTREPLY) as [Eo|Eo].
  - destruct (relay_reply_safe ip up b len (if bool_decide (g = [0; 0; 0; 0]) then None else interface_of cfg g) n) as (sent & n' & -> & Hs); [done|done|done|unfold options_at in *; lia|lia| |].
    { intros i. case_bool_decide; [done|]. apply interface_of_in. }
    exists sent, n'. by split_and!.
  - destruct (if bool_decide (g = [0; 0; 0; 0]) then None else interface_of cfg g) as [o|] eqn:Eg; [by eexists [], _; split_and!; [|left|]|].
    destruct (relay_request_safe ip up b len n) as (sent & n' & -> & Hs); [done|done|done|done|lia|]. exists sent, n'. split; [done|]. split; [done|].
    intros _ Hne. destruct (Hs Hne) as [Ht Hd]. split; [done|]. split.
    + case_bool_decide as E0; [by left|right]. intros i Hi Hin. unfold interface_of in Eg. destruct (list_find_elem_of (fun ip => g ∈ addresses ip) _ i Hi Hin) as [[j i'] E].
      by rewrite E in Eg.
    + eapply Forall_impl; [exact Hd|]. cbn beta. intros s (-> & ? & ?). split_and!; [done|lia|done].
Qed.

(** ** There and back *)

(** A packet as it is sent: nothing after the end option but the padding up to the
    smallest size of a BOOTP packet. *)
Definition packet_octets (hdr : list Z) (items : list item) : list Z :=
  dhcp_buffer hdr items (replicate (Z.to_nat (BOOTP_MIN_LEN - (options_at + 5 + Zlen (area items)))) DHO_PAD).

Lemma packet_taken hdr items Y :
  Zlen hdr = options_at ->
  let len := options_at + 5 + Zlen (area items) in
  let b := dhcp_buffer hdr items (replicate (Z.to_nat (BOOTP_MIN_LEN - len)) DHO_PAD ++ Y) in
  memread b 0 (Z.max BOOTP_MIN_LEN len) = Ret (packet_octets hdr items).
Proof.
  intros Hh len b. pose proof (Zlen_nonneg (area items)) as Ha.
  assert (b = [] ++ packet_octets hdr items ++ Y) as -> by (unfold b, packet_octets, dhcp_buffer; cbn [app]; by rewrite <- !app_assoc).
  assert (Z.max BOOTP_MIN_LEN len = Zlen (packet_octets hdr items)) as ->; [|by apply (memread_mid [])].
  unfold packet_octets, dhcp_buffer. rewrite !Zlen_app, Zlen_cons, Hh. change (Zlen DHCP_OPTIONS_COOKIE) with 4. fold len.
  assert (forall n, Zlen (replicate n DHO_PAD) = Z.of_nat n) as -> by (intros; unfold Zlen; by rewrite length_replicate). unfold len in *. lia.
Qed.

(** The header of a packet is at the start of its buffer. *)
Lemma header_rd hdr items Y i : 0 <= i < Zlen hdr -> rd (dhcp_buffer hdr items Y) i = Ret (nthZ hdr i).
Proof.
  intros H. unfold dhcp_buffer. set (X := _ ++ _ ++ _ :: _). rewrite rd_in; [|rewrite Zlen_app; pose proof (Zlen_nonneg X); lia].
  f_equal. unfold nthZ. apply app_nth1. unfold Zlen in *. lia.
Qed.

Lemma header_read hdr items Y i n : 0 <= i -> 0 <= n -> i + n <= Zlen hdr -> memread (dhcp_buffer hdr items Y) i n = Ret (slice hdr i n).
Proof.
  intros Hi Hn H. unfold dhcp_buffer. set (X := _ ++ _ ++ _ :: _). rewrite memread_slice; [|done|done|rewrite Zlen_app; pose proof (Zlen_nonneg X); lia].
  unfold slice, Zlen in *. rewrite drop_app_le by lia. rewrite take_app_le; [done|]. rewrite length_drop. lia.
Qed.

Lemma header_copy hdr items Y d i : 0 <= i -> i + Zlen d <= Zlen hdr -> memcpy (dhcp_buffer hdr items Y) i d = Ret (dhcp_buffer (splice hdr i d) items Y).
Proof.
  intros Hi H. unfold dhcp_buffer. set (X := _ ++ _ ++ _ :: _). rewrite memcpy_splice; [by rewrite splice_inside|done|].
  rewrite Zlen_app. pose proof (Zlen_nonneg X). lia.
Qed.

(** The header of a request that is relayed from the address [from]: the address of
    the uplink in [giaddr], if a link selection suboption says where the client is,
    else the one of the interface, unless another relay agent has set it, and one
    more hop. *)
Definition relayed_header (hdr from up : list Z) (link : bool) : list Z :=
  let h := if link then splice hdr giaddr_at up else hdr in
  let h := if bool_decide (slice h giaddr_at 4 = [0; 0; 0; 0]) then splice h giaddr_at from else h in
  splice h hops_at [nthZ hdr hops_at + 1].

(** A request that the relay agent takes from the interface [ip]: it is allowed to
    have clients there, the hardware address fits, the hops are few enough, the
    address of the relay agent is not one of its own. *)
Record taken_from (ip : interface_info) (hdr : list Z) : Prop := Taken_from {
  tk_downstream : Z.land (flags ip) INTERFACE_DOWNSTREAM <> 0;
  tk_op : nthZ hdr op_at <> BOOTREPLY;
  tk_hlen : nthZ hdr hlen_at <= 16;
  tk_hops : 0 <= nthZ hdr hops_at < max_hop_count cfg;
  tk_giaddr : slice hdr giaddr_at 4 = [0; 0; 0; 0] \/ interface_of cfg (slice hdr giaddr_at 4) = None
}.

Lemma request_sent ip hdr items k R len from l up n :
  let link := add_rfc3527_suboption cfg && bool_decide (slice hdr giaddr_at 4 = [0; 0; 0; 0]) in
  let request := dhcp_buffer hdr (items ++ replicate k Pad) R in
  add_agent_options cfg = true -> relayable ip link from hdr items k R -> nameable ip link from -> taken_from ip hdr ->
  (link = true -> exists u l, uplink cfg = Some u /\ addresses u = up :: l /\ Zlen up = 4) ->
  Z.max BOOTP_MIN_LEN (dhcp_max_agent_option_packet_length cfg) <= Zlen request ->
  addresses ip = from :: l -> max_hop_count cfg <= 255 -> fallback_interface cfg <> None \/ interfaces cfg <> [] ->
  exists sent n', do_relay4 cfg can_unicast_without_arp send_packet ip request len n = Ret (sent, n') /\ map sent_to sent = servers cfg /\
    Forall (fun s => sent_data s = packet_octets (relayed_header hdr from up link)
                       (kept_from false items ++ [Opt DHO_DHCP_AGENT_OPTIONS (agent_data ip link from)])) sent.
Proof.
  intros link request Ha Hr Hn [T1 T2 T3 T4 T5] Hup Hb Hip Hmax Hvia. pose proof Hr as [_ Hh _ _ _ _ _ _ _].
  destruct (add_packet ip hdr items k R len from up n Ha Hr Hn Hup Hb) as (R' & E & EL). fold link request in E, EL.
  set (items' := kept_from false items ++ _) in *. set (h := if link then splice hdr giaddr_at up else hdr) in *.
  pose proof Hn as [_ _ [_ Hf] _].
  assert (Zlen h = options_at) as Hh1.
  { unfold h. destruct link; [|done]. destruct (Hup eq_refl) as (u & l' & _ & _ & H4). rewrite length_splice; [done|done|]. rewrite Hh, H4. by unfold giaddr_at, options_at. }
  assert (nthZ h hops_at = nthZ hdr hops_at) as Hhops.
  { unfold h. destruct link; [|done]. rewrite <- (nthZ_take _ giaddr_at), <- (nthZ_take hdr giaddr_at) by done. f_equal.
    unfold splice. rewrite take_app_le, take_take; [f_equal; lia|]. rewrite length_take. unfold Zlen, giaddr_at, options_at in *. lia. }
  unfold do_relay4, request. rewrite !header_rd, header_read by (rewrite ?Hh; unfold hlen_at, op_at, giaddr_at, options_at; lia).
  cbn [mbind outcome_bind]. destruct (Z.ltb_spec 16 (nthZ hdr hlen_at)); [lia|]. rewrite bool_decide_false by (by rewrite Hip).
  destruct (Z.eqb_spec (nthZ hdr op_at) BOOTREPLY); [done|].
  assert ((if bool_decide (slice hdr giaddr_at 4 = [0; 0; 0; 0]) then None else interface_of cfg (slice hdr giaddr_at 4)) = None) as ->.
  { case_bool_decide; [done|]. by destruct T5. }
  unfold relay_request. destruct (Z.eqb_spec (Z.land (flags ip) INTERFACE_DOWNSTREAM) 0); [done|]. unfold first_address at 1. rewrite Hip. cbn [mbind outcome_bind].
  fold request. rewrite E. clear E. cbn [mbind outcome_bind].
  set (len' := options_at + 5 + Zlen (area items')) in *. destruct (Z.eqb_spec (Z.max BOOTP_MIN_LEN len') 0) as [?|_]; [unfold BOOTP_MIN_LEN in *; lia|].
  set (Y := replicate _ DHO_PAD ++ R') in *. rewrite header_read by (rewrite ?Hh1; unfold giaddr_at, options_at; lia). cbn [mbind outcome_bind].
  set (h2 := if bool_decide (slice h giaddr_at 4 = [0; 0; 0; 0]) then splice h giaddr_at from else h).
  assert (Zlen h2 = options_at) as Hh2.
  { unfold h2. case_bool_decide; [|done]. rewrite length_splice; [done|done|]. rewrite Hh1, Hf. by unfold giaddr_at, options_at. }
  assert (nthZ h2 hops_at = nthZ hdr hops_at) as Hhops2.
  { rewrite <- Hhops. unfold h2. case_bool_decide; [|done]. rewrite <- (nthZ_take _ giaddr_at), <- (nthZ_take h giaddr_at) by done. f_equal.
    unfold splice. rewrite take_app_le, take_take; [f_equal; lia|]. rewrite length_take. unfold Zlen, giaddr_at, options_at in *. lia. }
  assert ((if bool_decide (slice h giaddr_at 4 = [0; 0; 0; 0]) then memcpy (dhcp_buffer h items' Y) giaddr_at from else Ret (dhcp_buffer h items' Y)) =
    Ret (dhcp_buffer h2 items' Y)) as ->.
  { unfold h2. case_bool_decide; [|done]. rewrite header_copy; [done|done|]. rewrite Hh1, Hf. by unfold giaddr_at, options_at. }
  cbn [mbind outcome_bind]. rewrite header_rd, Hhops2 by (rewrite ?Hh2; unfold hops_at, options_at; lia). cbn [mbind outcome_bind].
  destruct (Z.ltb_spec (nthZ hdr hops_at) (max_hop_count cfg)); [|lia]. cbn [negb]. rewrite u8_small by (unfold is_byte; lia).
  rewrite wr_memcpy. rewrite header_copy; [|done|rewrite Hh2; change (Zlen [_]) with 1; by unfold hops_at, options_at]. cbn [mbind outcome_bind].
  change (splice h2 hops_at [nthZ hdr hops_at + 1]) with (relayed_header hdr from up link).
  assert (Zlen (relayed_header hdr from up link) = options_at) as Hh3.
  { change (relayed_header hdr from up link) with (splice h2 hops_at [nthZ hdr hops_at + 1]). rewrite length_splice; [done|done|]. rewrite Hh2. change (Zlen [_]) with 1. by unfold hops_at, options_at. }
  pose proof (packet_taken (relayed_header hdr from up link) items' R' Hh3) as Et. cbn zeta in Et. fold len' in Et. fold Y in Et.  rewrite Et. clear Et.
  cbn [mbind outcome_bind]. destruct (servers cfg) as [|to l'] eqn:Es; [by eexists [], _|].
  assert (exists via, (match fallback_interface cfg, interfaces cfg with Some i, _ | None, i :: _ => Ret i | None, [] => Undef end) = Ret via) as [via ->].
  { destruct (fallback_interface cfg); [by eauto|]. destruct (interfaces cfg); [by destruct Hvia|by eauto]. }
  cbn [mbind outcome_bind]. destruct (to_servers_all via (packet_octets (relayed_header hdr from up link) items') from (to :: l') n) as (sent & n2 & -> & Ht & Hd).
  eexists _, _. done.
Qed.

(** A reply that comes in on an interface where there are servers. *)
Record reply_from (rip : interface_info) (rhdr : list Z) : Prop := Reply_from {
  rp_upstream : Z.land (flags rip) INTERFACE_UPSTREAM <> 0;
  rp_address : addresses rip <> [];
  rp_header : Zlen rhdr = options_at;
  rp_op : nthZ rhdr op_at = BOOTREPLY;
  rp_hlen : 0 <= nthZ rhdr hlen_at <= 16
}.

Lemma reply_sent ip from l (link : bool) giaddr rip rhdr before after tail rlen n :
  add_agent_options cfg = true -> nameable ip link giaddr -> ip ∈ interfaces cfg ->
  (forall ip', ip' ∈ interfaces cfg -> circuit_id ip' = circuit_id ip -> ip' = ip) -> addresses ip = from :: l ->
  reply_from rip rhdr -> Forall item_ok before -> Forall item_ok after -> Forall no_agent before -> Forall no_agent after ->
  existsb is_type before = true ->
  let reply := before ++ Opt DHO_DHCP_AGENT_OPTIONS (agent_data ip link giaddr) :: after in
  options_at + 5 + Zlen (area reply) <= rlen -> BOOTP_MIN_LEN <= Zlen (dhcp_buffer rhdr reply tail) ->
  exists to hw n', do_relay4 cfg can_unicast_without_arp send_packet rip (dhcp_buffer rhdr reply tail) rlen n =
    Ret ([Send ip (packet_octets rhdr (before ++ after)) from to hw], n').
Proof.
  intros Ha Hn Hin Hun Hip [R1 R2 Hh R3 R4] Hbo Hao Hbn Han Ht reply Hrl Hrb.
  destruct (agent_data_tlvs ip link giaddr Hn) as (Ed & H1 & H2 & H3 & H4). pose proof Hn as [_ _ _ Hfit].
  destruct (reply_kept before after (agent_data ip link giaddr) false Hbn Han Ht) as [Ek Ev]. fold reply in Ek, Ev.
  assert (forall out, exists R2, strip_relay_agent_options cfg out (dhcp_buffer rhdr reply tail) rlen n =
    let len := options_at + 5 + Zlen (area (before ++ after)) in
    Ret (Z.max BOOTP_MIN_LEN len, dhcp_buffer rhdr (before ++ after) (replicate (Z.to_nat (BOOTP_MIN_LEN - len)) DHO_PAD ++ R2), Some ip, n)) as Hstrip.
  { intros out. destruct (strip_packet cfg out rhdr reply tail rlen n true (Some ip) n) as (Y & E & _); try done.
    - apply Forall_app. split; [done|]. constructor; [|done]. split_and!; [unfold is_byte, DHO_DHCP_AGENT_OPTIONS; lia|done|done| |lia].
      rewrite Ed. by apply tlvs_bytes.
    - unfold reply. by rewrite existsb_app, Ht.
    - by rewrite Ev.
    - rewrite Ev. cbn [find_all]. by rewrite (find_named ip link giaddr).
    - exists Y. by rewrite E, Ek. }
  unfold do_relay4. rewrite !header_rd, header_read by (rewrite ?Hh; unfold hlen_at, op_at, giaddr_at, options_at; lia). cbn [mbind outcome_bind].
  destruct (Z.ltb_spec 16 (nthZ rhdr hlen_at)); [lia|]. rewrite bool_decide_false by done. rewrite R3. change (BOOTREPLY =? BOOTREPLY) with true. cbn iota.
  unfold relay_reply. destruct (Z.eqb_spec (Z.land (flags rip) INTERFACE_UPSTREAM) 0); [done|].
  rewrite !header_rd, !header_read by (rewrite ?Hh; unfold hlen_at, htype_at, flags_at, yiaddr_at, options_at; lia). cbn [mbind outcome_bind].
  rewrite header_read by (rewrite ?Hh; unfold chaddr_at, options_at; lia). cbn [mbind outcome_bind].
  match goal with |- context [match ?x with pair to htop => _ end] => destruct x as [to htop] end.
  match goal with |- context [strip_relay_agent_options cfg ?o] => destruct (Hstrip o) as [Y E] end. rewrite E. clear E Hstrip.
  cbn [mbind outcome_bind]. cbn zeta. match goal with |- context [Z.eqb ?x 0] => destruct (Z.eqb_spec x 0) as [?|_]; [unfold BOOTP_MIN_LEN in *; lia|] end.
  unfold first_address. rewrite Hip. cbn [mbind outcome_bind]. pose proof (packet_taken rhdr (before ++ after) Y Hh) as E. cbn zeta in E. rewrite E.
  cbn [mbind outcome_bind]. by eexists _, _, _.
Qed.

(** C18: The way of a client's request through the relay agent to the servers, and of the
    reply back.  The relay agent adds agent options (in the mode that appends its option or
    the one that replaces others), the interface of the request is one that may have
    clients, it has an address, a circuit ID that no other interface has, and IDs that fit
    in one option ([nameable]); if a link selection suboption is added, the uplink has an
    address.  The request is a DHCP message with an end option, whose options end in an
    option and any number of pads, with no maximum message size option that is empty, with
    room for one more option below the configured limit and the client's own maximum
    ([relayable]: without that room the request would leave without the option), in a buffer
    of at least the configured limit; its hops are below their limit, which is at most 255,
    its hardware address is of at most 16 octets, its [giaddr] is zero or of another relay
    agent ([taken_from]).  Then [do_relay4] sends it to every server, with the same options,
    less the agent options that are replaced, and one option that names the interface at the
    end, one more hop, and [giaddr] set.  A server that parses the value of this option and
    encapsulates it again, with memory available, gets the same octets.  And a reply that
    has these octets in its one agent option, after the message type, and comes in on an
    interface that may have servers, is sent exactly once, on the interface of the request,
    from its address, whatever the [giaddr] of the reply, without the option and otherwise
    as the server sent it, padded to the least size of a BOOTP packet. *)
Theorem relay_roundtrip ip from l hdr items k R len up n fe mem evaluate st m :
  let link := add_rfc3527_suboption cfg && bool_decide (slice hdr giaddr_at 4 = [0; 0; 0; 0]) in
  let request := dhcp_buffer hdr (items ++ replicate k Pad) R in
  add_agent_options cfg = true -> relayable ip link from hdr items k R -> nameable ip link from -> taken_from ip hdr ->
  (link = true -> exists u l, uplink cfg = Some u /\ addresses u = up :: l /\ Zlen up = 4) ->
  Z.max BOOTP_MIN_LEN (dhcp_max_agent_option_packet_length cfg) <= Zlen request ->
  addresses ip = from :: l -> max_hop_count cfg <= 255 ->
  ip ∈ interfaces cfg -> (forall ip', ip' ∈ interfaces cfg -> circuit_id ip' = circuit_id ip -> ip' = ip) ->
  (forall n, mem n = true) -> (forall oc, evaluate oc = Some (oc_data oc)) ->
  all_ok (v4_spaces fe mem) st -> spaces st !! u_index agent_space = None ->
  exists data,
    (exists sent n', do_relay4 cfg can_unicast_without_arp send_packet ip request len n = Ret (sent, n') /\ map sent_to sent = servers cfg /\
       Forall (fun s => sent_data s =
         packet_octets (relayed_header hdr from up link) (kept_from false items ++ [Opt DHO_DHCP_AGENT_OPTIONS data])) sent) /\
    (exists st', parse_option_buffer fe mem (v4_spaces fe mem) agent_space st data = Ret (true, st') /\
       option_space_encapsulate evaluate mem (v4_all fe mem) 1 st' "agent" m = Ret (Some data)) /\
    forall rip rhdr before after tail rlen n,
      reply_from rip rhdr -> Forall item_ok before -> Forall item_ok after -> Forall no_agent before -> Forall no_agent after ->
      existsb is_type before = true ->
      let reply := before ++ Opt DHO_DHCP_AGENT_OPTIONS data :: after in
      options_at + 5 + Zlen (area reply) <= rlen -> BOOTP_MIN_LEN <= Zlen (dhcp_buffer rhdr reply tail) ->
      exists to hw n', do_relay4 cfg can_unicast_without_arp send_packet rip (dhcp_buffer rhdr reply tail) rlen n =
        Ret ([Send ip (packet_octets rhdr (before ++ after)) from to hw], n').
Proof.
  intros link request Ha Hr Hn Ht Hup Hb Hip Hhop Hin Hun Hmem Hev Hst Hsp.
  exists (agent_data ip link from). split; [|split].
  - apply (request_sent ip hdr items k R len from l up n); try done. right. by intros E; rewrite E in Hin; apply elem_of_nil in Hin.
  - destruct (agent_data_tlvs ip link from Hn) as (Ed & H1 & H2 & H3 & H4). pose proof Hn as [_ _ _ Hfit].
    rewrite Ed. apply agent_echo; try done. rewrite <- Ed. lia.
  - intros rip rhdr before after tail rlen n' Hrf Hbo Hao Hbn Han Hty reply Hrl Hrb.
    by apply (reply_sent ip from l link from).
Qed.

End Whole.

End Add.

(** ** Witnesses *)

Definition eth0 : interface_info := Interface "eth0" [[10; 0; 0; 1]] (Some [101; 116; 104; 48]) None 24.
Definition eth1 : interface_info := Interface "eth1" [[10; 0; 1; 1]] (Some [101; 116; 104; 49]) None 24.

Definition two_links : relay_config :=
  Config true false true 10 576 forward_and_replace [eth0; eth1] None None [[10; 9; 9; 1]; [10; 9; 9; 2]].

Definition request_header : list Z := [1; 1; 6; 0] ++ replicate 232 0.

(** A DHCPDISCOVER with a list of requested options, and padding. *)
Definition discover_items : list item := [Opt 53 [1]; Opt 55 [1; 3]].

Definition discover_buffer : list Z := dhcp_buffer request_header (discover_items ++ replicate 3 Pad) (replicate 1600 7).

Lemma eth1_nameable link : nameable eth1 link [10; 0; 1; 1].
Proof.
  constructor; cbn.
  - eexists. split; [done|]. split; [refine (bool_decide_unpack _ _); by vm_compute|by vm_compute].
  - done.
  - split; [refine (bool_decide_unpack _ _); by vm_compute|done].
  - by destruct link; vm_compute.
Qed.

Lemma two_links_ok : relay_ok two_links eth1 [].
Proof.
  constructor; cbn; [by vm_compute|lia|by repeat constructor|by right| |done].
  intros a l link [= <- <-]. split; [apply eth1_nameable|done].
Qed.

Lemma do_relay4_safe_witness :
  exists sent n', do_relay4 two_links (fun _ => true) (fun _ => true) eth1 discover_buffer 300 [] = Ret (sent, n') /\
    (nthZ discover_buffer op_at = BOOTREPLY -> sent = [] \/ exists s, sent = [s] /\ sent_via s ∈ interfaces two_links) /\
    (nthZ discover_buffer op_at <> BOOTREPLY -> sent <> [] ->
       map sent_to sent = servers two_links /\
       (slice discover_buffer giaddr_at 4 = [0; 0; 0; 0] \/ forall i, i ∈ interfaces two_links -> slice discover_buffer giaddr_at 4 ∉ addresses i) /\
       Forall (fun s => nthZ (sent_data s) hops_at = nthZ discover_buffer hops_at + 1 /\ nthZ (sent_data s) hops_at <= max_hop_count two_links /\
                        slice (sent_data s) giaddr_at 4 <> [0; 0; 0; 0]) sent).
Proof.
  apply (do_relay4_safe two_links (fun _ => true) (fun _ => true) eth1 [] discover_buffer 300 []).
  - exact two_links_ok.
  - refine (bool_decide_unpack _ _). by vm_compute.
  - by vm_compute.
  - by vm_compute.
Defined.

(** The request of the client is indeed sent, to both servers. *)
Example discover_relayed :
  (r ← do_relay4 two_links (fun _ => true) (fun _ => true) eth1 discover_buffer 300 [];
   Ret (map sent_to (r.1), (fun s => slice (sent_data s) options_at 20) <$> head (r.1))) =
  Ret ([[10; 9; 9; 1]; [10; 9; 9; 2]],
       Some ([99; 130; 83; 99; 53; 1; 1; 55; 2; 1; 3; 82; 6; 1; 4; 101; 116; 104; 49; 255])).
Proof. by vm_compute. Qed.

Lemma relay_roundtrip_witness :
  exists data,
    (exists sent n', do_relay4 two_links (fun _ => true) (fun _ => true) eth1 discover_buffer 300 [] = Ret (sent, n') /\ map sent_to sent = servers two_links /\
       Forall (fun s => sent_data s =
         packet_octets (relayed_header request_header [10; 0; 1; 1] [] false)
           (kept_from two_links false discover_items ++ [Opt DHO_DHCP_AGENT_OPTIONS data])) sent) /\
    (exists st', parse_option_buffer no_names enough (v4_spaces no_names enough) agent_space no_v4_options data = Ret (true, st') /\
       option_space_encapsulate stored_value enough (v4_all no_names enough) 1 st' "agent" 0 = Ret (Some data)) /\
    forall rip rhdr before after tail rlen n,
      reply_from rip rhdr -> Forall item_ok before -> Forall item_ok after -> Forall no_agent before -> Forall no_agent after ->
      existsb is_type before = true ->
      let reply := before ++ Opt DHO_DHCP_AGENT_OPTIONS data :: after in
      options_at + 5 + Zlen (area reply) <= rlen -> BOOTP_MIN_LEN <= Zlen (dhcp_buffer rhdr reply tail) ->
      exists to hw n', do_relay4 two_links (fun _ => true) (fun _ => true) rip (dhcp_buffer rhdr reply tail) rlen n =
        Ret ([Send eth1 (packet_octets rhdr (before ++ after)) [10; 0; 1; 1] to hw], n').
Proof.
  apply (relay_roundtrip two_links (fun _ => true) (fun _ => true) eth1 [10; 0; 1; 1] [] request_header discover_items 3 (replicate 1600 7) 300 []
           [] no_names enough stored_value no_v4_options 0).
  - reflexivity.
  - constructor.
    + by right.
    + by vm_compute.
    + unfold discover_items. repeat (constructor; [cbn; split_and!; try done; refine (bool_decide_unpack _ _); by vm_compute|]). constructor.
    + by repeat constructor.
    + by vm_compute.
    + done.
    + by vm_compute.
    + by repeat (constructor; [by vm_compute|]).
    + by vm_compute.
  - apply eth1_nameable.
  - constructor; [by vm_compute..|by left].
  - done.
  - by vm_compute.
  - done.
  - by vm_compute.
  - cbn. by right; left.
  - intros ip'. cbn. rewrite !elem_of_cons, elem_of_nil. by intros [->|[->|[]]].
  - done.
  - done.
  - exact no_v4_options_ok.
  - done.
Defined.

(** The reply of a server that sends the option back goes to the client, without it. *)
Example offer_relayed :
  let reply := dhcp_buffer ([2; 1; 6; 0] ++ replicate 232 0) [Opt 53 [2]; Opt 82 [1; 4; 101; 116; 104; 49]; Opt 1 [255; 255; 255; 0]] (replicate 100 7) in
  (r ← do_relay4 two_links (fun _ => true) (fun _ => true) eth0 reply 300 [];
   Ret (map (fun s => (if_name (sent_via s), slice (sent_data s) options_at 15)) (r.1))) =
  Ret [("eth1"%string, [99; 130; 83; 99; 53; 1; 2; 1; 4; 255; 255; 255; 0; 255; 0])].
Proof. by vm_compute. Qed.

(** ** What goes wrong *)

(** The loop that adds the option does not know how much was received: without an
    end option, octets of an earlier packet in the buffer are sent along. *)
Example stale_octets_relayed :
  let stale := [12; 3; 97; 98; 99; 255] ++ replicate 1600 0 in
  let b := request_header ++ DHCP_OPTIONS_COOKIE ++ [53; 1; 1] ++ stale in
  (r ← add_relay_agent_options two_links eth1 b 243 [10; 0; 1; 1] []; Ret (slice (r.1.2) (options_at + 4) 10)) =
  Ret [53; 1; 1; 12; 3; 97; 98; 99; 82; 6].
Proof. by vm_compute. Qed.

(** A maximum message size is read from its first octet only: a client that
    accepts 1023 octets is taken to accept 768. *)
Example max_size_misread :
  let cfg := Config true false true 10 1400 forward_and_replace [eth0; eth1] None None [] in
  foldl (max_after cfg) 1400 [Opt 57 [3; 255]] = 768.
Proof. by vm_compute. Qed.

(** An agent option with an unknown circuit ID counts as a matching one, unless
    mismatches are dropped. *)
Example mismatch_counts_as_match :
  let cfg := Config true false false 10 576 forward_and_replace [eth0; eth1] None None [] in
  let b := dhcp_buffer request_header [Opt 53 [2]; Opt 82 [1; 1; 9]] (replicate 100 0) in
  (r ← strip_relay_agent_options cfg None b 300 []; Ret (r.1.2, r.2)) = Ret (None, [bad_circuit_id]).
Proof. by vm_compute. Qed.

(** A reply for an interface that has no address stops the relay agent. *)
Example interface_without_address :
  let eth2 := Interface "eth2" [] (Some [1]) None 24 in
  let cfg := Config true false true 10 576 forward_and_replace [eth0; eth2] None None [] in
  let b := dhcp_buffer ([2; 1; 6; 0] ++ replicate 232 0) [Opt 53 [2]; Opt 82 [1; 1; 1]] (replicate 100 0) in
  do_relay4 cfg (fun _ => true) (fun _ => true) eth0 b 300 [] = Undef.
Proof. by vm_compute. Qed.

End Relay.
