(* ===== verification/FailoverLease.v ===== *)
(** * Failover decisions on leases and pools (server/failover.c)

    The decisions a failover server takes about leases, without the messages
    that carry them: whether a client or a lease is its own, which binding
    states of the peer it accepts, which of two conflicting bindings wins, how
    many leases of a pool go to the peer and when the next rebalance is due. *)

From Stdlib Require Import ZArith Lia Sorted.
From stdpp Require Import base list numbers option.
From S2P Require Import Prelude.
#[local] Open Scope Z_scope.

Module FailoverLease.

Inductive role : Type := primary | secondary.

#[export] Instance role_eq_dec : EqDecision role.
Proof. solve_decision. Defined.

(** The [FTS_] binding states; [FTS_other] stands for any other value of the
    unsigned octet the peer can send. *)
Inductive binding_state_t : Type :=
| FTS_FREE | FTS_ACTIVE | FTS_EXPIRED | FTS_RELEASED | FTS_ABANDONED | FTS_RESET | FTS_BACKUP
| FTS_other (n : Z).

#[export] Instance binding_state_eq_dec : EqDecision binding_state_t.
Proof. solve_decision. Defined.

Definition valid (b : binding_state_t) : bool := match b with FTS_other _ => false | _ => true end.

Inductive service_state_t : Type :=
| unknown_service_state | cooperating | not_cooperating | service_partner_down
| not_responding | service_startup.

#[export] Instance service_state_eq_dec : EqDecision service_state_t.
Proof. solve_decision. Defined.

(** What the decisions read of the failover state. *)
Record peer_t : Type := Peer {
  i_am : role;
  service_state : service_state_t;
  me_stos : Z;
  mclt : Z;
  hba : option (list Z);
  load_balance_max_secs : Z
}.

(** What they read of a lease. *)
Record lease : Type := Lease {
  binding_state : binding_state_t;
  desired_binding_state : binding_state_t;
  rewind_binding_state : binding_state_t;
  ends : Z;
  tsfp : Z;
  cltt : Z;
  uid : list Z;
  hardware_addr : list Z    (** the type octet and the address *)
}.

(** ** Load balancing *)

Definition loadb_mx_tbl : list Z := [
   251; 175; 119; 215; 81; 14; 79; 191; 103; 49; 181; 143; 186; 157; 0; 232;
   31; 32; 55; 60; 152; 58; 17; 237; 174; 70; 160; 144; 220; 90; 57; 223;
   59; 3; 18; 140; 111; 166; 203; 196; 134; 243; 124; 95; 222; 179; 197; 65;
   180; 48; 36; 15; 107; 46; 233; 130; 165; 30; 123; 161; 209; 23; 97; 16;
   40; 91; 219; 61; 100; 10; 210; 109; 250; 127; 22; 138; 29; 108; 244; 67;
   207; 9; 178; 204; 74; 98; 126; 249; 167; 116; 34; 77; 193; 200; 121; 5;
   20; 113; 71; 35; 128; 13; 182; 94; 25; 226; 227; 199; 75; 27; 41; 245;
   230; 224; 43; 225; 177; 26; 155; 150; 212; 142; 218; 115; 241; 73; 88; 105;
   39; 114; 62; 255; 192; 201; 145; 214; 168; 158; 221; 148; 154; 122; 12; 84;
   82; 163; 44; 139; 228; 236; 205; 242; 217; 11; 187; 146; 159; 64; 86; 239;
   195; 42; 106; 198; 118; 112; 184; 172; 87; 2; 173; 117; 176; 229; 247; 253;
   137; 185; 99; 164; 102; 147; 45; 66; 231; 52; 141; 211; 194; 206; 246; 238;
   56; 110; 78; 248; 63; 240; 189; 93; 92; 51; 53; 183; 19; 171; 72; 50;
   33; 104; 101; 69; 8; 252; 83; 120; 76; 135; 85; 54; 202; 125; 188; 213;
   96; 235; 136; 208; 162; 129; 190; 132; 156; 38; 47; 1; 7; 254; 24; 4;
   216; 131; 89; 21; 28; 133; 37; 153; 149; 80; 170; 68; 6; 169; 234; 151].

(** [for (i = len; i > 0; ) hash = loadb_mx_tbl[hash ^ key[--i]]] *)
Fixpoint loadb_loop (i : nat) (key : list Z) (h : Z) : outcome Z :=
  match i with
  | O => Ret h
  | S i' => k ← rd key (Z.of_nat i'); h' ← rd loadb_mx_tbl (Z.lxor h k); loadb_loop i' key h'
  end.

Definition loadb_p_hash (key : list Z) (len : Z) : outcome Z :=
  loadb_loop (Z.to_nat len) key (u8 len).

(** [hba[(hbaix >> 3) & 0x1F] & (1 << (hbaix & 0x07))] *)
Definition hba_bit (hba : list Z) (hbaix : Z) : outcome Z :=
  b ← rd hba (Z.land (Z.shiftr hbaix 3) 31);
  Ret (Z.land b (Z.shiftl 1 (Z.land hbaix 7))).

(** What [load_balance_mine] reads of a packet: [secs], the client identifier
    if the option is there and evaluates, and [chaddr] with [hlen]. *)
Record packet : Type := Packet {
  secs : Z;
  client_identifier : option (list Z);
  chaddr : list Z;
  hlen : Z
}.

(** [SECS_BYTEORDER]: a [secs] whose low octet only is zero has been swapped. *)
Definition elapsed (secs_byteorder : bool) (ec : Z) : Z :=
  if secs_byteorder && (255 <? ec) && (Z.land ec 255 =? 0)
  then u16 (Z.lor (Z.shiftr ec 8) (Z.shiftl ec 8)) else ec.

Definition load_balance_mine (secs_byteorder : bool) (p : packet) (state : peer_t) : outcome bool :=
  if load_balance_max_secs state <? elapsed secs_byteorder (secs p) then Ret true
  else
    match hba state with
    | None => Ret false
    | Some hba =>
      hbaix ← match client_identifier p with
              | Some ds => loadb_p_hash ds (Zlen ds)
              | None => loadb_p_hash (chaddr p) (hlen p)
              end;
      hm ← hba_bit hba hbaix;
      Ret (match i_am state with primary => negb (hm =? 0) | secondary => hm =? 0 end)
    end.

(** [peer] is [lp->pool->failover_peer]. *)
Definition peer_wants_lease (lp : lease) (peer : option peer_t) : outcome bool :=
  match peer with
  | None => Ret false
  | Some state =>
    match hba state with
    | None => Ret false
    | Some hba =>
      let decide hbaix :=
        h ← hbaix; hm ← hba_bit hba h;
        Ret (match i_am state with primary => hm =? 0 | secondary => negb (hm =? 0) end) in
      if negb (Zlen (uid lp) =? 0) then decide (loadb_p_hash (uid lp) (Zlen (uid lp)))
      else if 1 <? Zlen (hardware_addr lp)
      then decide (loadb_p_hash (drop 1 (hardware_addr lp)) (Zlen (hardware_addr lp) - 1))
      else Ret false
    end
  end.

(** ** Binding state transitions *)

Section Clock.
Context (cur_time : Z).

Definition normal_binding_state_transition_check (l : lease) (state : role) (bs : binding_state_t)
    (tsfp : Z) : outcome binding_state_t :=
  if bool_decide (bs = binding_state l) then Ret bs
  else
    (** free and backup only once the peer agrees that the lease has expired *)
    let agreed := if cur_time <? tsfp then binding_state l else bs in
    match binding_state l with
    | FTS_FREE | FTS_ABANDONED => if valid bs then Ret bs else Fatal
    | FTS_ACTIVE =>
      match state with
      | primary =>
        match bs with
        | FTS_RELEASED | FTS_ABANDONED => Ret bs
        | _ => Ret (binding_state l)
        end
      | secondary =>
        match bs with
        | FTS_FREE | FTS_BACKUP => Ret agreed
        | FTS_EXPIRED => Ret (if cur_time <? ends l - 65 then binding_state l else bs)
        | FTS_RELEASED | FTS_ABANDONED | FTS_RESET | FTS_ACTIVE => Ret bs
        | FTS_other _ => Fatal
        end
      end
    | FTS_EXPIRED | FTS_RESET =>
      match bs with
      | FTS_BACKUP | FTS_FREE => Ret agreed
      | FTS_other _ => Fatal
      | _ => Ret bs
      end
    | FTS_RELEASED => if valid bs then Ret bs else Fatal
    | FTS_BACKUP =>
      match bs with
      | FTS_other _ => Fatal
      | FTS_BACKUP => Ret (binding_state l)
      | _ => Ret bs
      end
    | FTS_other _ => Fatal
    end.

Definition conflict_binding_state_transition_check (l : lease) (bs : binding_state_t)
  : outcome binding_state_t :=
  if bool_decide (bs = binding_state l) then Ret bs
  else
    match binding_state l with
    | FTS_FREE | FTS_ABANDONED | FTS_EXPIRED | FTS_RELEASED | FTS_RESET | FTS_BACKUP => Ret bs
    | FTS_ACTIVE =>
      match bs with
      | FTS_FREE | FTS_BACKUP => Ret (binding_state l)
      | FTS_EXPIRED => Ret (if cur_time <? ends l - 65 then binding_state l else bs)
      | FTS_RELEASED | FTS_RESET | FTS_ABANDONED => Ret bs
      | FTS_ACTIVE | FTS_other _ => Fatal
      end
    | FTS_other _ => Fatal
    end.

(** ** Whose lease is it? *)

(** The wait for a lease of the peer in partner-down. *)
Definition peer_wait_over (peer : peer_t) (l : lease) : bool :=
  if tsfp l <? me_stos peer then me_stos peer + mclt peer <? cur_time
  else tsfp l + mclt peer <? cur_time.

(** [peer] is [lease->pool->failover_peer], if the lease has a pool. *)
Definition lease_mine_to_reallocate (l : lease) (peer : option peer_t) : outcome bool :=
  match peer with
  | None =>
    Ret (bool_decide (binding_state l = FTS_FREE) || bool_decide (binding_state l = FTS_BACKUP))
  | Some peer =>
    let down := bool_decide (service_state peer = service_partner_down) in
    match binding_state l with
    | FTS_ACTIVE => Ret false
    | FTS_FREE | FTS_ABANDONED =>
      match i_am peer with
      | primary => Ret true
      | secondary => Ret (down && peer_wait_over peer l)
      end
    | FTS_RELEASED | FTS_EXPIRED =>
      if match i_am peer with
         | primary => bool_decide (rewind_binding_state l = FTS_FREE)
         | secondary => bool_decide (rewind_binding_state l = FTS_BACKUP)
         end
      then Ret true
      else Ret (down && (tsfp l <? cur_time))
    | FTS_RESET => Ret (down && (tsfp l <? cur_time))
    | FTS_BACKUP =>
      match i_am peer with
      | secondary => Ret true
      | primary => Ret (down && peer_wait_over peer l)
      end
    | FTS_other _ => Fatal
    end
  end.

(** ** Conflicting bindings *)

(** [msg]: the binding status and the [cltt] of the message, if present. *)
Definition failover_lease_is_better (state : role) (l : lease) (binding_status : binding_state_t)
    (msg_cltt : option Z) : outcome bool :=
  let local_state := if bool_decide (binding_state l <> desired_binding_state l)
                     then desired_binding_state l else binding_state l in
  let msg_cltt := match msg_cltt with Some t => t | None => 0 end in
  let tie := bool_decide (state = primary) in
  let rest := if bool_decide (binding_status = FTS_ACTIVE) then Ret false else Ret tie in
  match local_state with
  | FTS_ACTIVE =>
    match binding_status with
    | FTS_ACTIVE =>
      if msg_cltt <? cltt l then Ret true
      else if cltt l <? msg_cltt then Ret false
      else Ret tie
    | FTS_EXPIRED => Ret false
    | _ => rest
    end
  | FTS_other _ => Fatal
  | _ => rest
  end.

End Clock.

(** ** Pool balance *)

(** What the balance reads of a lease on a queue: [ends], and whether
    [peer_wants_lease]. *)
Record offer : Type := Offer { offer_ends : Z; wanted : bool }.

(** A pool: its counters and the queues of its free and backup leases. *)
Record pool : Type := Pool {
  free_leases : Z;
  backup_leases : Z;
  free : list offer;
  backup : list offer
}.

(** The part of the failover state the balance keeps; [timer] is the pending
    [dhcp_failover_pool_rebalance] timeout. *)
Record balance_t : Type := Balance {
  bal_role : role;
  is_normal : bool;
  max_lease_misbalance : Z;
  max_lease_ownership : Z;
  max_balance : Z;
  min_balance : Z;
  last_balance : Z;
  sched_balance : Z;
  timer : option Z
}.

Definition set_sched (b : balance_t) (t : Z) (tm : option Z) : balance_t :=
  Balance (bal_role b) (is_normal b) (max_lease_misbalance b) (max_lease_ownership b)
          (max_balance b) (min_balance b) (last_balance b) t tm.

Definition set_last (b : balance_t) (t : Z) : balance_t :=
  Balance (bal_role b) (is_normal b) (max_lease_misbalance b) (max_lease_ownership b)
          (max_balance b) (min_balance b) t (sched_balance b) (timer b).

(** The number of leases for a percentage of [total]: [int] times [u_int32_t]
    is unsigned, and the quotient is assigned to an [int]. *)
Definition percent (total pct : Z) : Z := s32 (u32 (u32 (total * pct) + 50) / 100).

(** Is the secondary allowed more leases? *)
Definition secondary_not_hoarding (b : balance_t) (p : pool) : bool :=
  let hold := percent (free_leases p + backup_leases p) (max_lease_ownership b) in
  let lts := Z.quot (free_leases p - backup_leases p) 2 in
  - hold <? lts.

(** The age of the first lease of a queue. *)
Definition age (cur_time : Z) (q : list offer) : Z :=
  match q with
  | o :: _ => if offer_ends o <? cur_time then cur_time - offer_ends o else 0
  | [] => 0
  end.

(** [dhcp_failover_pool_check]; [random] is what [random()] returns. *)
Definition pool_check (cur_time random : Z) (b : balance_t) (p : pool) : balance_t :=
  if negb (is_normal b) then b
  else
    let est1 := (age cur_time (free p) * max_lease_misbalance b + 50) / 100 in
    let est2 := (age cur_time (backup p) * max_lease_misbalance b + 50) / 100 in
    let '(est1, est2) := match bal_role b with
                         | primary => (est1 * 2, est2)
                         | secondary => (est1, est2 * 2)
                         end in
    let est1 := if est2 <? est1 then est2 else est1 in
    let est1 := if max_balance b <? est1 then max_balance b else est1 in
    let est1 := est1 + cur_time in
    let est2 := last_balance b + min_balance b in
    let est1 := if negb (last_balance b =? 0) && (est1 <? est2) then est2 else est1 in
    let est1 := est1 + Z.rem random 5 in
    if negb (sched_balance b =? 0) && (sched_balance b <=? est1) then b
    else set_sched b est1 (Some est1).

(** Is the pool balanced enough to stop at this lease? *)
Definition enough (pass : bool) (hold lts : Z) (o : offer) : bool :=
  if pass then (if negb (offer_ends o =? 0) then lts <=? hold else lts <=? 0)
  else lts <=? - hold.

(** What a pass leaves: [lts], [leases_queued], the leases still on the queue,
    the leases moved to the peer's queue, and whether the balance was enough. *)
Record pass_t : Type := Pass {
  lts : Z; queued : nat; kept : list offer; moved : list offer; stopped : bool }.

(** One pass over the queue.  [supersede_lease] moves a lease that is given away to
    the other queue, and counts it there, before anything is written or sent: when
    writing it or queueing the update fails, this is only logged. *)
Fixpoint give_pass (pass : bool) (hold t : Z) (given : nat) (q : list offer) : pass_t :=
  match q with
  | [] => Pass t given [] [] false
  | o :: q' =>
    if enough pass hold t o then Pass t given q [] true
    else if pass || wanted o then
      let r := give_pass pass hold (t - 1) (S given) q' in
      Pass (lts r) (queued r) (kept r) (o :: moved r) (stopped r)
    else
      let r := give_pass pass hold t given q' in
      Pass (lts r) (queued r) (o :: kept r) (moved r) (stopped r)
  end.

(** The queues are in the order of [ends]. *)
Fixpoint enqueue (o : offer) (q : list offer) : list offer :=
  match q with
  | [] => [o]
  | x :: q' => if offer_ends x <? offer_ends o then x :: enqueue o q' else o :: q
  end.

(** The two passes over the queue of one pool. *)
Definition give_leases (hold t : Z) (given : nat) (q : list offer) : pass_t :=
  let r1 := give_pass false hold t given q in
  if stopped r1 then r1
  else
    let r2 := give_pass true hold (lts r1) (queued r1) (kept r1) in
    Pass (lts r2) (queued r2) (kept r2) (moved r1 ++ moved r2) (stopped r2).

(** The pool after the leases [moved] have changed queue. *)
Definition settle (i : role) (p : pool) (r : pass_t) : pool :=
  let n := Zlen (moved r) in
  match i with
  | primary => Pool (free_leases p - n) (backup_leases p + n) (kept r) (foldl (λ q o, enqueue o q) (backup p) (moved r))
  | secondary => Pool (free_leases p + n) (backup_leases p - n) (foldl (λ q o, enqueue o q) (free p) (moved r)) (kept r)
  end.

(** The leases to send, and the queue they come from. *)
Definition leases_to_send (i : role) (p : pool) : Z :=
  match i with
  | primary => Z.quot (free_leases p - backup_leases p) 2
  | secondary => Z.quot (backup_leases p - free_leases p) 2
  end.

Definition my_queue (i : role) (p : pool) : list offer :=
  match i with primary => free p | secondary => backup p end.

(** The body of the loop over the pools: the pool, [leases_queued] and
    [*sendreq]. *)
Definition balance_pool (b : balance_t) (p : pool) (given : nat) (sendreq : bool)
  : pool * nat * bool :=
  let t := leases_to_send (bal_role b) p in
  let total := backup_leases p + free_leases p in
  let thresh := percent total (max_lease_misbalance b) in
  let hold := percent total (max_lease_ownership b) in
  let panic := if thresh * -2 =? 0 then -1 else thresh * -2 in
  let r := give_leases hold t given (my_queue (bal_role b) p) in
  (settle (bal_role b) p r, queued r, sendreq || (t <? panic)).

Fixpoint balance_pools (cur_time : Z) (random : nat -> Z) (b : balance_t)
    (ps : list pool) (given : nat) (sendreq : bool) : balance_t * list pool * nat * bool :=
  match ps with
  | [] => (b, [], given, sendreq)
  | p :: ps' =>
    let '(p', given', sendreq') := balance_pool b p given sendreq in
    let b' := pool_check cur_time (random (length ps')) b p' in
    let '(b'', ps'', given'', sendreq'') := balance_pools cur_time random b' ps' given' sendreq' in
    (b'', p' :: ps'', given'', sendreq'')
  end.

(** [dhcp_failover_pool_dobalance]: [ps] are the pools of this peer, in the
    order of the shared networks; the result has the number of leases queued,
    which are committed when there are any, and what [*sendreq] is set to. *)
Definition pool_dobalance (cur_time : Z) (random : nat -> Z) (b : balance_t)
    (ps : list pool) : balance_t * list pool * nat * bool :=
  if negb (is_normal b) then (b, ps, O, false)
  else balance_pools cur_time random (set_last b cur_time) ps O false.

(** What an entry of the balance sends to the peer. *)
Inductive sent_t : Type := SendUpdates | SendPoolreq | SendPoolresp (n : nat).

(** Startup and entrance to the normal state. *)
Definition pool_balance (cur_time : Z) (random : nat -> Z) (b : balance_t)
    (ps : list pool) : balance_t * list pool :=
  let '(b', ps', _, _) := pool_dobalance cur_time random (set_sched b 0 None) ps in (b', ps').

(** The timer, which has fired. *)
Definition pool_rebalance (cur_time : Z) (random : nat -> Z) (b : balance_t)
    (ps : list pool) : balance_t * list pool * list sent_t :=
  let '(b', ps', n, sendreq) := pool_dobalance cur_time random (set_sched b 0 None) ps in
  (b', ps', (if (n =? 0)%nat then [] else [SendUpdates]) ++ (if sendreq then [SendPoolreq] else [])).

(** A POOLREQ of the peer. *)
Definition pool_reqbalance (cur_time : Z) (random : nat -> Z) (b : balance_t)
    (ps : list pool) : balance_t * list pool * list sent_t :=
  let '(b', ps', n, _) := pool_dobalance cur_time random (set_sched b 0 None) ps in
  (b', ps', SendPoolresp n :: if (n =? 0)%nat then [] else [SendUpdates]).

(** [dhcp_failover_state_pool_check] *)
Fixpoint state_pool_check (cur_time : Z) (random : nat -> Z) (b : balance_t) (ps : list pool) : balance_t :=
  match ps with
  | [] => b
  | p :: ps' => state_pool_check cur_time random (pool_check cur_time (random (length ps')) b p) ps'
  end.

(** ** The mixing hash *)

Lemma loadb_table_perm : loadb_mx_tbl ≡ₚ seqZ 0 256.
Proof. decide_true. Qed.

Lemma loadb_table_length : Zlen loadb_mx_tbl = 256.
Proof. reflexivity. Qed.

Lemma loadb_table_bytes : is_bytes loadb_mx_tbl.
Proof. decide_true. Qed.

Lemma lxor_byte a b : is_byte a -> is_byte b -> is_byte (Z.lxor a b).
Proof.
  unfold is_byte. change 256 with (2 ^ 8). intros Ha Hb.
  apply (op_pow_range Z.lxor xorb); [apply Z.lxor_spec|intros; by apply Z.lxor_nonneg|done|lia|done|done].
Qed.

Lemma loadb_step h k :
  is_byte h -> is_byte k ->
  exists r, rd loadb_mx_tbl (Z.lxor h k) = Ret r /\ is_byte r /\ loadb_mx_tbl !! Z.to_nat (Z.lxor h k) = Some r.
Proof.
  intros Hh Hk. pose proof (lxor_byte h k Hh Hk) as Hb. unfold is_byte in Hb.
  assert (0 <= Z.lxor h k < Zlen loadb_mx_tbl) as Hr by (rewrite loadb_table_length; lia).
  exists (nthZ loadb_mx_tbl (Z.lxor h k)). split; [by apply rd_in|]. split; [apply nthZ_byte, loadb_table_bytes|].
  by apply lookup_nthZ.
Qed.

(** One step of the hash is injective in the state and in the octet. *)
Lemma loadb_step_inj h1 k1 h2 k2 r :
  is_byte h1 -> is_byte k1 -> is_byte h2 -> is_byte k2 ->
  rd loadb_mx_tbl (Z.lxor h1 k1) = Ret r -> rd loadb_mx_tbl (Z.lxor h2 k2) = Ret r ->
  Z.lxor h1 k1 = Z.lxor h2 k2.
Proof.
  intros Hh1 Hk1 Hh2 Hk2 E1 E2.
  pose proof (lxor_byte h1 k1 Hh1 Hk1) as B1. pose proof (lxor_byte h2 k2 Hh2 Hk2) as B2.
  apply rdA_Ret in E1 as [_ E1], E2 as [_ E2].
  assert (NoDup loadb_mx_tbl) as Hnd by (rewrite loadb_table_perm; apply NoDup_seqZ).
  pose proof (NoDup_lookup _ _ _ _ Hnd E1 E2). unfold is_byte in *. lia.
Qed.

Lemma loadb_loop_ok i key h :
  (i <= length key)%nat -> is_bytes key -> is_byte h -> exists r, loadb_loop i key h = Ret r /\ is_byte r.
Proof.
  revert h. induction i as [|i IH]; intros h Hi Hk Hh; cbn [loadb_loop]; [eauto|].
  rewrite rd_in by (unfold Zlen; lia). cbn [mbind outcome_bind].
  destruct (loadb_step h (nthZ key (Z.of_nat i)) Hh (nthZ_byte _ _ Hk)) as (r & -> & Hr & _).
  cbn [mbind outcome_bind]. apply IH; [lia|done|done].
Qed.

Lemma lxor_inj_r a b c : Z.lxor a b = Z.lxor a c -> b = c.
Proof.
  intros H. apply (f_equal (Z.lxor a)) in H.
  by rewrite <- !Z.lxor_assoc, !Z.lxor_nilpotent, !Z.lxor_0_l in H.
Qed.

Lemma lxor_inj_l a b c : Z.lxor b a = Z.lxor c a -> b = c.
Proof. rewrite !(Z.lxor_comm _ a). apply lxor_inj_r. Qed.

(** States that differ stay different over octets that agree. *)
Lemma loadb_loop_diverge i key1 key2 h1 h2 r :
  (i <= length key1)%nat -> (i <= length key2)%nat -> is_bytes key1 -> is_bytes key2 ->
  is_byte h1 -> is_byte h2 -> take i key1 = take i key2 ->
  loadb_loop i key1 h1 = Ret r -> loadb_loop i key2 h2 = Ret r -> h1 = h2.
Proof.
  revert h1 h2. induction i as [|i IH]; intros h1 h2 L1 L2 B1 B2 Hh1 Hh2 Ht; cbn [loadb_loop].
  { intros [= ->] [= ->]. done. }
  rewrite !rd_in by (unfold Zlen; lia). cbn [mbind outcome_bind].
  assert (nthZ key1 (Z.of_nat i) = nthZ key2 (Z.of_nat i)) as Ek.
  { unfold nthZ. rewrite Nat2Z.id, !nth_lookup. f_equal.
    rewrite <- (lookup_take_lt key1 (S i)), <- (lookup_take_lt key2 (S i)), Ht by lia. done. }
  rewrite <- Ek. set (k := nthZ key1 (Z.of_nat i)). assert (is_byte k) as Hk by by apply nthZ_byte.
  destruct (loadb_step h1 k Hh1 Hk) as (r1 & E1 & Hr1 & _), (loadb_step h2 k Hh2 Hk) as (r2 & E2 & Hr2 & _).
  rewrite E1, E2. cbn [mbind outcome_bind]. intros R1 R2.
  assert (r1 = r2) as <-.
  { apply (IH r1 r2); try done; [lia..|]. apply (f_equal (take i)) in Ht. rewrite !take_take in Ht.
    by rewrite !Nat.min_l in Ht by lia. }
  eapply lxor_inj_l, loadb_step_inj; [| | | |exact E1|exact E2]; done.
Qed.

Lemma nthZ_middle (pre post : list Z) a i :
  nthZ (pre ++ a :: post) (Z.of_nat i) =
  if bool_decide (i = length pre) then a
  else nth (if bool_decide (i < length pre)%nat then i else pred i) (pre ++ post) 0.
Proof.
  unfold nthZ. rewrite Nat2Z.id. repeat case_bool_decide; subst.
  - by rewrite app_nth2, Nat.sub_diag by lia.
  - by rewrite !app_nth1 by lia.
  - rewrite !app_nth2 by lia. by replace (i - length pre)%nat with (S (pred i - length pre)) by lia.
Qed.

Lemma loadb_loop_octet i pre post a b h r :
  (length pre < i <= length pre + S (length post))%nat ->
  is_bytes (pre ++ a :: post) -> is_bytes (pre ++ b :: post) -> is_byte h ->
  loadb_loop i (pre ++ a :: post) h = Ret r -> loadb_loop i (pre ++ b :: post) h = Ret r -> a = b.
Proof.
  revert h. induction i as [|i IH]; intros h Hi Ba Bb Hh; [lia|]. cbn [loadb_loop].
  rewrite !rd_in by (unfold Zlen; rewrite length_app; cbn [length]; lia). cbn [mbind outcome_bind].
  set (ka := nthZ (pre ++ a :: post) (Z.of_nat i)). set (kb := nthZ (pre ++ b :: post) (Z.of_nat i)).
  assert (is_byte ka) as Hka by by apply nthZ_byte. assert (is_byte kb) as Hkb by by apply nthZ_byte.
  destruct (loadb_step h ka Hh Hka) as (r1 & E1 & Hr1 & _), (loadb_step h kb Hh Hkb) as (r2 & E2 & Hr2 & _).
  rewrite E1, E2. cbn [mbind outcome_bind]. intros R1 R2.
  destruct (decide (i = length pre)) as [E|E].
  - assert (r1 = r2) as <-.
    { apply (loadb_loop_diverge i (pre ++ a :: post) (pre ++ b :: post) r1 r2 r); try done;
        try (rewrite length_app; lia). by rewrite E, !take_app_length. }
    assert (ka = kb) as Ek by (eapply lxor_inj_r, loadb_step_inj; [| | | |exact E1|exact E2]; done).
    unfold ka, kb in Ek. rewrite !nthZ_middle in Ek. by rewrite !bool_decide_true in Ek by done.
  - assert (ka = kb) as Ek by (unfold ka, kb; rewrite !nthZ_middle; by rewrite !(bool_decide_false (i = length pre)) by done).
    rewrite Ek in E1. rewrite E1 in E2. injection E2 as ->. apply (IH r2); [lia|done..].
Qed.

(** the load balancing hash is total on octet strings, yields an octet, and
    separates keys of one length that differ in a single octet: the mixing
    table is a permutation of the 256 octets, as its comment says. *)
Theorem loadb_p_hash_mixes pre post a b :
  is_bytes (pre ++ a :: post) -> is_bytes (pre ++ b :: post) ->
  exists ha hb, loadb_p_hash (pre ++ a :: post) (Zlen (pre ++ a :: post)) = Ret ha /\
    loadb_p_hash (pre ++ b :: post) (Zlen (pre ++ b :: post)) = Ret hb /\
    is_byte ha /\ is_byte hb /\ (ha = hb <-> a = b).
Proof.
  intros Ba Bb. unfold loadb_p_hash.
  assert (Zlen (pre ++ b :: post) = Zlen (pre ++ a :: post)) as -> by (unfold Zlen; by rewrite !length_app).
  set (h := u8 (Zlen (pre ++ a :: post))). assert (is_byte h) as Hh by apply u8_byte.
  assert (Z.to_nat (Zlen (pre ++ a :: post)) = length pre + S (length post))%nat as ->
    by (unfold Zlen; rewrite length_app, Nat2Z.id; done).
  set (n := (length pre + S (length post))%nat).
  destruct (loadb_loop_ok n (pre ++ a :: post) h) as (ha & Ha & Hba); [rewrite length_app; cbn; lia|done|done|].
  destruct (loadb_loop_ok n (pre ++ b :: post) h) as (hb & Hb & Hbb); [rewrite length_app; cbn; lia|done|done|].
  exists ha, hb. split_and!; try done. split; [|intros ->; congruence].
  intros ->. apply (loadb_loop_octet n pre post a b h hb); [unfold n; lia|done..].
Qed.

Lemma loadb_p_hash_mixes_witness :
  exists ha hb, loadb_p_hash ([1; 0] ++ 7 :: [9]) 4 = Ret ha /\ loadb_p_hash ([1; 0] ++ 8 :: [9]) 4 = Ret hb /\
    is_byte ha /\ is_byte hb /\ (ha = hb <-> 7 = 8).
Proof. apply (loadb_p_hash_mixes [1; 0] [9] 7 8); decide_true. Defined.

(** ** One answer per client *)

Definition other (r : role) : role := match r with primary => secondary | secondary => primary end.

(** The peer's view of a failover relationship: the same parameters, the other role. *)
Definition flip (s : peer_t) : peer_t :=
  Peer (other (i_am s)) (service_state s) (me_stos s) (mclt s) (hba s) (load_balance_max_secs s).

Lemma hba_bit_ok h i : is_byte i -> Zlen h = 32 -> exists b, hba_bit h i = Ret b.
Proof.
  intros Hi Hl. unfold hba_bit. rewrite rd_in; [cbn; eauto|].
  change 31 with (Z.ones 5). rewrite Z.land_ones by lia. pose proof (Z.mod_pos_bound (Z.shiftr i 3) (2 ^ 5) ltac:(lia)). lia.
Qed.

Lemma loadb_p_hash_ok key len :
  is_bytes key -> 0 <= len <= Zlen key -> exists r, loadb_p_hash key len = Ret r /\ is_byte r.
Proof.
  intros Hk Hl. unfold loadb_p_hash. apply loadb_loop_ok; [unfold Zlen in Hl; lia|done|apply u8_byte].
Qed.

(** A packet whose fields are what [load_balance_mine] may read. *)
Definition packet_ok (p : packet) : Prop :=
  is_bytes (chaddr p) /\ 0 <= hlen p <= Zlen (chaddr p) /\
  match client_identifier p with Some ds => is_bytes ds | None => True end.

(** C33: two failover servers with the same hash bucket array share the clients
    out: as long as the client has not waited beyond the configured time,
    exactly one of the primary and the secondary takes a given client. *)
Theorem load_balance_exclusive sb p state h :
  packet_ok p -> hba state = Some h -> Zlen h = 32 ->
  elapsed sb (secs p) <= load_balance_max_secs state ->
  exists b, load_balance_mine sb p state = Ret b /\ load_balance_mine sb p (flip state) = Ret (negb b).
Proof.
  intros (Hc & Hl & Hid) Hh H32 Hsecs. unfold load_balance_mine. cbn [flip load_balance_max_secs hba i_am].
  rewrite (proj2 (Z.ltb_ge _ _)), Hh by lia.
  assert (exists i, match client_identifier p with
            | Some ds => loadb_p_hash ds (Zlen ds)
            | None => loadb_p_hash (chaddr p) (hlen p) end = Ret i /\ is_byte i) as (i & -> & Hi).
  { destruct (client_identifier p) as [ds|]; [|by apply loadb_p_hash_ok].
    apply loadb_p_hash_ok; [done|]. pose proof (Zlen_nonneg ds). lia. }
  cbn [mbind outcome_bind]. destruct (hba_bit_ok h i Hi H32) as (b & ->). cbn [mbind outcome_bind].
  eexists. split; [done|]. f_equal. destruct (i_am state); cbn; by rewrite ?negb_involutive.
Qed.

(** A primary with a bucket array that gives it every other bucket. *)
Definition sample_peer : peer_t := Peer primary cooperating 100 3600 (Some (repeat 85 32)) 3.

Definition sample_packet : packet := Packet 1 None [0; 1; 2; 3; 4; 5] 6.

Lemma load_balance_exclusive_witness :
  exists b, load_balance_mine false sample_packet sample_peer = Ret b /\
    load_balance_mine false sample_packet (flip sample_peer) = Ret (negb b).
Proof.
  apply (load_balance_exclusive false sample_packet sample_peer (repeat 85 32)); [|reflexivity|reflexivity|done].
  split; [decide_true|]. split; [done|exact I].
Defined.

(** a lease is offered to the peer exactly when load balancing would let
    the peer answer the client the lease was last given to (a client known by
    its identifier, or by a hardware address that follows the type octet). *)
Theorem peer_wants_lease_matches sb l state h p :
  hba state = Some h -> Zlen h = 32 -> is_bytes (uid l) -> is_bytes (hardware_addr l) ->
  (uid l <> [] \/ 1 < Zlen (hardware_addr l)) ->
  client_identifier p = (if bool_decide (uid l = []) then None else Some (uid l)) ->
  (uid l = [] -> chaddr p = drop 1 (hardware_addr l) /\ hlen p = Zlen (hardware_addr l) - 1) ->
  elapsed sb (secs p) <= load_balance_max_secs state ->
  peer_wants_lease l (Some state) = load_balance_mine sb p (flip state).
Proof.
  intros Hh H32 Bu Bh Hcat Hid Hch Hsecs. unfold peer_wants_lease, load_balance_mine.
  cbn [flip load_balance_max_secs hba i_am]. rewrite (proj2 (Z.ltb_ge (load_balance_max_secs state) _)), Hh by lia. rewrite Hid.
  case_bool_decide as E.
  - rewrite E. change (Zlen []) with 0. cbn [Z.eqb negb]. destruct Hcat as [?|Hcat]; [done|].
    rewrite (proj2 (Z.ltb_lt _ _)) by done. destruct (Hch E) as [-> ->].
    destruct (loadb_p_hash _ _); [|done..]. cbn [mbind outcome_bind].
    destruct (hba_bit h _); [|done..]. cbn [mbind outcome_bind]. by destruct (i_am state).
  - rewrite (proj2 (Z.eqb_neq _ _)) by (destruct (uid l) as [|x u]; [done|rewrite Zlen_cons; pose proof (Zlen_nonneg u); lia]). cbn [negb].
    destruct (loadb_p_hash _ _); [|done..]. cbn [mbind outcome_bind].
    destruct (hba_bit h _); [|done..]. cbn [mbind outcome_bind]. by destruct (i_am state).
Qed.

Definition sample_lease (b : binding_state_t) : lease := Lease b b FTS_FREE 500 400 300 [] [1; 0; 1; 2; 3; 4; 5].

Lemma peer_wants_lease_matches_witness :
  peer_wants_lease (sample_lease FTS_EXPIRED) (Some sample_peer)
  = load_balance_mine false sample_packet (flip sample_peer).
Proof.
  apply (peer_wants_lease_matches false (sample_lease FTS_EXPIRED) sample_peer (repeat 85 32) sample_packet);
    [reflexivity|reflexivity|decide_true|decide_true|right; reflexivity|reflexivity|done|done].
Defined.

(** ** Binding states *)

Lemma normal_check_total cur_time l state bs t :
  valid (binding_state l) -> valid bs ->
  exists r, normal_binding_state_transition_check cur_time l state bs t = Ret r /\ (r = bs \/ r = binding_state l).
Proof.
  unfold normal_binding_state_transition_check. intros Hl Hb.
  case_bool_decide; [eauto|].
  destruct (binding_state l), state, bs; try done; cbn [valid];
    repeat case_match; eauto.
Qed.

(** Splits a decision into its branches and closes each. *)
Ltac by_cases :=
  repeat (case_match; try discriminate); intros; simplify_eq;
  split_and!; intros; destruct_or?; simplify_eq; auto; try (exfalso; congruence);
  repeat match goal with H : (_ <? _) = false |- _ => apply Z.ltb_ge in H end; try lia; try congruence.

(** in the normal state a binding update of the peer is answered with the
    requested state or the present one, never with a crash.  An active lease
    stays what it is at the primary unless it was released or abandoned, and
    at the secondary does not expire before its end (less the clock skew); a
    lease that was active, expired or reset is only freed once the peer's
    potential expiry has passed. *)
Theorem normal_transition_guarded cur_time l state bs t :
  valid (binding_state l) -> valid bs ->
  exists r, normal_binding_state_transition_check cur_time l state bs t = Ret r /\
    (r = bs \/ r = binding_state l) /\
    (binding_state l = FTS_ACTIVE -> state = primary ->
       r = FTS_ACTIVE \/ r = FTS_RELEASED \/ r = FTS_ABANDONED) /\
    (binding_state l = FTS_ACTIVE -> r = FTS_EXPIRED -> ends l - 65 <= cur_time) /\
    (binding_state l ∈ [FTS_ACTIVE; FTS_EXPIRED; FTS_RESET] -> r ∈ [FTS_FREE; FTS_BACKUP] -> t <= cur_time).
Proof.
  intros Hl Hb. destruct (normal_check_total cur_time l state bs t Hl Hb) as (r & E & Hr).
  exists r. split; [done|]. split; [done|]. clear Hr. revert E.
  unfold normal_binding_state_transition_check. rewrite !elem_of_cons, !elem_of_nil.
  case_bool_decide as Eq; [|destruct (binding_state l) eqn:El, state, bs; try done].
  all: by_cases.
Qed.

Lemma normal_transition_guarded_witness :
  exists r, normal_binding_state_transition_check 420 (sample_lease FTS_ACTIVE) secondary FTS_EXPIRED 400 = Ret r /\
    (r = FTS_EXPIRED \/ r = FTS_ACTIVE) /\ (r = FTS_EXPIRED -> 500 - 65 <= 420).
Proof.
  destruct (normal_transition_guarded 420 (sample_lease FTS_ACTIVE) secondary FTS_EXPIRED 400 I I)
    as (r & E & Hr & _ & He & _).
  exists r. split; [exact E|]. split; [exact Hr|]. exact (He eq_refl).
Defined.

(** while the servers may be in conflict, an update is answered with the
    requested state or the present one, and a lease that is active here is
    neither freed nor, before its end less the clock skew, expired. *)
Theorem conflict_transition_guarded cur_time l bs :
  valid (binding_state l) -> valid bs ->
  exists r, conflict_binding_state_transition_check cur_time l bs = Ret r /\
    (binding_state l <> FTS_ACTIVE -> r = bs) /\
    (binding_state l = FTS_ACTIVE ->
       r = (if bool_decide (bs = FTS_FREE) || bool_decide (bs = FTS_BACKUP)
               || (bool_decide (bs = FTS_EXPIRED) && (cur_time <? ends l - 65))
            then FTS_ACTIVE else bs)).
Proof.
  unfold conflict_binding_state_transition_check. intros Hl Hb.
  case_bool_decide as Eq.
  - exists bs. split_and!; [done..|]. intros E. by rewrite Eq, E.
  - destruct (binding_state l), bs; try done; eexists; (split; [reflexivity|]); split; done.
Qed.

Lemma conflict_transition_guarded_witness :
  exists r, conflict_binding_state_transition_check 420 (sample_lease FTS_ACTIVE) FTS_BACKUP = Ret r /\ r = FTS_ACTIVE.
Proof.
  destruct (conflict_transition_guarded 420 (sample_lease FTS_ACTIVE) FTS_BACKUP I I) as (r & E & _ & He).
  exists r. split; [exact E|]. exact (He eq_refl).
Defined.

(** A status the peer is free to send stops the server. *)
Theorem unknown_binding_status_is_fatal cur_time l n t :
  binding_state l = FTS_ACTIVE ->
  normal_binding_state_transition_check cur_time l secondary (FTS_other n) t = Fatal /\
  conflict_binding_state_transition_check cur_time l (FTS_other n) = Fatal.
Proof.
  intros E. unfold normal_binding_state_transition_check, conflict_binding_state_transition_check.
  rewrite E. by rewrite bool_decide_false.
Qed.

(** ** Ownership *)

Definition own (i : role) (b : binding_state_t) : bool :=
  match b with
  | FTS_FREE | FTS_ABANDONED => bool_decide (i = primary)
  | FTS_BACKUP => bool_decide (i = secondary)
  | _ => false
  end.

(** The server that may hand out a lease while both are in touch, if any: an expired
    or released lease can be rewound to the state that both servers last agreed on. *)
Definition owner (b rewind : binding_state_t) : option role :=
  match b with
  | FTS_FREE | FTS_ABANDONED => Some primary
  | FTS_BACKUP => Some secondary
  | FTS_EXPIRED | FTS_RELEASED =>
    match rewind with FTS_FREE => Some primary | FTS_BACKUP => Some secondary | _ => None end
  | _ => None
  end.

(** C25: Outside partner-down the two servers of a pair never may both hand out one lease.
    The servers have opposite roles, neither is in partner-down, and their records of the
    lease may differ in the times and the client but agree on its binding state, one of the
    seven, and on the state that it can be rewound to.  Then each of them decides, at its
    own time, by the owner of the lease: the free and abandoned leases are the primary's,
    the backup leases the secondary's, an expired or released lease is for the server whose
    own it was when both last agreed (the primary if it rewinds to free, the secondary if to
    backup, else nobody), and an active or reset lease is nobody's.  The owner and only the
    owner is answered yes. *)
Theorem lease_mine_exclusive t1 t2 l1 l2 p1 p2 :
  valid (binding_state l1) -> binding_state l2 = binding_state l1 -> rewind_binding_state l2 = rewind_binding_state l1 ->
  i_am p2 = other (i_am p1) -> service_state p1 <> service_partner_down -> service_state p2 <> service_partner_down ->
  let who := owner (binding_state l1) (rewind_binding_state l1) in
  lease_mine_to_reallocate t1 l1 (Some p1) = Ret (bool_decide (who = Some (i_am p1))) /\
  lease_mine_to_reallocate t2 l2 (Some p2) = Ret (bool_decide (who = Some (i_am p2))) /\
  ~ (lease_mine_to_reallocate t1 l1 (Some p1) = Ret true /\ lease_mine_to_reallocate t2 l2 (Some p2) = Ret true).
Proof.
  intros Hl Eb Er Ei H1 H2 who. unfold who, lease_mine_to_reallocate. rewrite Eb, Er, Ei.
  rewrite !(bool_decide_false (service_state _ = _)) by done.
  destruct (binding_state l1), (i_am p1); try done; cbn [other andb owner]; split_and!; try done;
    destruct (rewind_binding_state l1); try done; intros [[=] [=]].
Qed.

(** A released lease that was a backup lease before, seen by both servers at
    different times. *)
Definition released_lease : lease := Lease FTS_RELEASED FTS_RELEASED FTS_BACKUP 500 400 300 [] [1; 0; 1; 2; 3; 4; 5].

Lemma lease_mine_exclusive_witness :
  let l := released_lease in
  lease_mine_to_reallocate 1000 l (Some sample_peer) = Ret false /\
  lease_mine_to_reallocate 1002 l (Some (flip sample_peer)) = Ret true /\
  ~ (lease_mine_to_reallocate 1000 l (Some sample_peer) = Ret true /\
     lease_mine_to_reallocate 1002 l (Some (flip sample_peer)) = Ret true).
Proof.
  apply (lease_mine_exclusive 1000 1002 released_lease released_lease sample_peer (flip sample_peer)); done.
Defined.

(** C40: in partner-down, a lease that is the peer's own becomes available
    exactly when MCLT has passed since both the time the peer acknowledged
    ([tsfp]) and the time this server entered the state; a released, expired or
    reset lease when [tsfp] has passed, or at once if it can be rewound to this
    server's own state. *)
Theorem partner_down_waits cur_time l peer :
  valid (binding_state l) -> service_state peer = service_partner_down ->
  lease_mine_to_reallocate cur_time l (Some peer) =
  Ret (match binding_state l with
       | FTS_ACTIVE => false
       | FTS_FREE | FTS_ABANDONED | FTS_BACKUP =>
         own (i_am peer) (binding_state l) || (Z.max (tsfp l) (me_stos peer) + mclt peer <? cur_time)
       | FTS_RESET => tsfp l <? cur_time
       | _ => (own (i_am peer) (rewind_binding_state l)
                 && bool_decide (rewind_binding_state l <> FTS_ABANDONED)) || (tsfp l <? cur_time)
       end).
Proof.
  intros Hl Hs. unfold lease_mine_to_reallocate. rewrite (bool_decide_true (service_state peer = _)) by done.
  assert (peer_wait_over cur_time peer l = (Z.max (tsfp l) (me_stos peer) + mclt peer <? cur_time)) as ->.
  { unfold peer_wait_over. destruct (Z.ltb_spec (tsfp l) (me_stos peer)); f_equal; lia. }
  destruct (binding_state l), (i_am peer); try done; destruct (rewind_binding_state l); done.
Qed.

Lemma partner_down_waits_witness :
  lease_mine_to_reallocate 4001 (sample_lease FTS_BACKUP)
    (Some (Peer primary service_partner_down 100 3600 None 3)) = Ret (Z.max 400 100 + 3600 <? 4001).
Proof.
  apply (partner_down_waits 4001 (sample_lease FTS_BACKUP) (Peer primary service_partner_down 100 3600 None 3));
    [exact I|reflexivity].
Defined.

(** ** Dueling updates *)

(** What a server says of its lease in an update. *)
Definition told (l : lease) : binding_state_t := desired_binding_state l.

(** when both servers have an update of one lease in flight, at most one of
    them rejects the other's; both accept exactly when an active lease of the
    primary meets an expired one, or an active lease of the secondary meets one
    that is not active. *)
Theorem dueling_updates lp ls :
  valid (told lp) -> valid (told ls) ->
  exists p s,
    failover_lease_is_better primary lp (told ls) (Some (cltt ls)) = Ret p /\
    failover_lease_is_better secondary ls (told lp) (Some (cltt lp)) = Ret s /\
    p && s = false /\
    (p || s = false <->
       (told lp = FTS_ACTIVE /\ told ls = FTS_EXPIRED) \/ (told lp <> FTS_ACTIVE /\ told ls = FTS_ACTIVE)).
Proof.
  unfold failover_lease_is_better, told. intros Hp Hs.
  assert (forall l, (if bool_decide (binding_state l <> desired_binding_state l)
                then desired_binding_state l else binding_state l) = desired_binding_state l) as E.
  { intros l. by case_bool_decide. }
  rewrite !E. clear E.
  destruct (desired_binding_state lp) eqn:E1, (desired_binding_state ls) eqn:E2; try done; cbn;
    repeat (case_bool_decide; try congruence); repeat case_match; do 2 eexists; (split; [done|]); (split; [done|]);
    repeat match goal with
    | H : (_ <? _) = true |- _ => apply Z.ltb_lt in H
    | H : (_ <? _) = false |- _ => apply Z.ltb_ge in H
    end; try lia; cbn; intuition congruence.
Qed.

Lemma dueling_updates_witness :
  exists p s,
    failover_lease_is_better primary (sample_lease FTS_ACTIVE) FTS_ACTIVE (Some 300) = Ret p /\
    failover_lease_is_better secondary (sample_lease FTS_ACTIVE) FTS_ACTIVE (Some 300) = Ret s /\ p && s = false.
Proof.
  destruct (dueling_updates (sample_lease FTS_ACTIVE) (sample_lease FTS_ACTIVE) I I) as (p & s & Hp & Hs & He & _).
  exists p, s. split; [exact Hp|]. split; [exact Hs|exact He].
Defined.

(** ** Pool balance *)

Definition by_ends (a b : offer) : Prop := offer_ends a <= offer_ends b.

(** A pool whose counters and queue orders are right. *)
Record pool_ok (p : pool) : Prop := PoolOk {
  ok_free : free_leases p = Zlen (free p);
  ok_backup : backup_leases p = Zlen (backup p);
  ok_free_sorted : StronglySorted by_ends (free p);
  ok_backup_sorted : StronglySorted by_ends (backup p)
}.

Lemma percent_exact total pct :
  0 <= total * pct -> total * pct + 50 < 2 ^ 32 -> percent total pct = (total * pct + 50) / 100.
Proof.
  intros H0 H1. unfold percent. rewrite (u32_small (total * pct)), u32_small by lia.
  apply s32_small. split; [apply Z.le_trans with 0; [lia|apply Z.div_pos; lia]|].
  apply Z.div_lt_upper_bound; lia.
Qed.

(** What every pass does. *)
Lemma give_pass_accounts pass hold q : forall t given r,
  give_pass pass hold t given q = r -> 0 <= hold ->
  kept r ++ moved r ≡ₚ q /\ Z.of_nat (queued r) + lts r = Z.of_nat given + t /\
  Z.min t (if pass then 0 else - hold) <= lts r <= t /\ (stopped r -> lts r <= hold).
Proof.
  induction q as [|o q IH]; intros t given r <- Hh; cbn [give_pass].
  { cbn. split_and!; [done|lia|destruct pass; lia|lia|done]. }
  destruct (enough pass hold t o) eqn:En; unfold enough in En.
  { cbn. rewrite app_nil_r. split_and!; [done|lia|destruct pass; lia|lia|].
    intros _. destruct pass; [case_match|]; apply Z.leb_le in En; lia. }
  assert ((if pass then 0 else - hold) < t) as Hlt.
  { destruct pass; [case_match|]; apply Z.leb_gt in En; lia. }
  destruct (pass || wanted o).
  - destruct (IH (t - 1) (S given) _ eq_refl Hh) as (Hp & Hq & Hl & Hs).
    set (r' := give_pass pass hold (t - 1) (S given) q) in *.
    cbn [kept moved lts queued stopped]. split_and!; [|lia|lia|lia|done]. by rewrite <- Permutation_middle, Hp.
  - destruct (IH t given _ eq_refl Hh) as (Hp & Hq & Hl & Hs).
    cbn [kept moved lts queued stopped]. split_and!; [by cbn; rewrite Hp|lia|lia|lia|done].
Qed.

Lemma give_pass_sublist pass hold q : forall t given, kept (give_pass pass hold t given q) `sublist_of` q.
Proof.
  induction q as [|o q IH]; intros t given; cbn [give_pass]; [done|].
  repeat case_match; cbn [kept]; try done; by constructor.
Qed.

Definition unwanted (o : offer) : Prop := wanted o = false.

(** What is queued is what is moved.  The first pass moves leases that the peer
    wants only, all of them if it does not stop before; the second pass ends with
    the balance or with the queue. *)
Lemma give_pass_moves pass hold q : forall t given,
  let r := give_pass pass hold t given q in
  queued r = (given + length (moved r))%nat /\
  (if pass then stopped r = false -> kept r = []
   else Forall wanted (moved r) /\ (stopped r = false -> Forall unwanted (kept r))).
Proof.
  induction q as [|o q IH]; intros t given; cbn [give_pass]; [destruct pass; cbn; auto with lia|].
  destruct (enough pass hold t o); [destruct pass; cbn; auto with lia|].
  destruct (pass || wanted o) eqn:W.
  - destruct (IH (t - 1) (S given)) as [Hq Hs]. cbn [queued moved kept stopped length]. split; [lia|].
    destruct pass; [done|]. destruct Hs. split; [|done]. constructor; [|done]. cbn in W. by rewrite W.
  - destruct (IH t given) as [Hq Hs]. cbn [queued moved kept stopped]. split; [done|]. destruct pass; [done|]. destruct Hs as [H1 H2].
    split; [done|]. intros H. constructor; [done|by apply H2].
Qed.

Lemma give_leases_accounts hold t given q r :
  give_leases hold t given q = r -> 0 <= hold ->
  kept r ++ moved r ≡ₚ q /\ kept r `sublist_of` q /\ Z.of_nat (queued r) + lts r = Z.of_nat given + t /\
  Z.min t (- hold) <= lts r <= t /\ (stopped r -> lts r <= hold).
Proof.
  intros <- Hh. unfold give_leases.
  destruct (give_pass_accounts false hold q t given _ eq_refl Hh) as (Hp1 & Hq1 & Hl1 & Hs1).
  pose proof (give_pass_sublist false hold q t given) as Hsub.
  set (r1 := give_pass false hold t given q) in *.
  destruct (stopped r1) eqn:S1; [rewrite S1 in *; done|].
  destruct (give_pass_accounts true hold (kept r1) (lts r1) (queued r1) _ eq_refl Hh) as (Hp2 & Hq2 & Hl2 & Hs2).
  pose proof (give_pass_sublist true hold (kept r1) (lts r1) (queued r1)) as Hsub2.
  set (r2 := give_pass true hold (lts r1) (queued r1) (kept r1)) in *.
  cbn [kept moved lts queued stopped]. split_and!; [|by etrans|lia|lia|lia|done].
  rewrite <- Hp1, <- Hp2, <- !app_assoc. apply Permutation_app_head, Permutation_app_comm.
Qed.

Lemma sublist_Forall (P : offer -> Prop) (q q' : list offer) : q' `sublist_of` q -> Forall P q -> Forall P q'.
Proof.
  induction 1 as [|x l l' Hs IH|x l l' Hs IH]; intros H; [constructor| |]; inversion_clear H; auto.
Qed.

Lemma give_leases_moves hold t given q :
  let r := give_leases hold t given q in
  queued r = (given + length (moved r))%nat /\ (stopped r = false -> kept r = []) /\
  (Forall wanted (moved r) \/ Forall unwanted (kept r)).
Proof.
  unfold give_leases. destruct (give_pass_moves false hold q t given) as (H1 & H2 & H3).
  set (r1 := give_pass false hold t given q) in *. destruct (stopped r1) eqn:S1; [rewrite S1; split_and!; [done|done|by left]|].
  destruct (give_pass_moves true hold (kept r1) (lts r1) (queued r1)) as [H4 H5].
  cbn zeta. cbn [queued moved kept stopped]. split_and!; [rewrite length_app; lia|done|].
  right. eapply sublist_Forall; [apply give_pass_sublist|auto].
Qed.

Lemma enqueue_perm o q : enqueue o q ≡ₚ o :: q.
Proof.
  induction q as [|x q IH]; cbn [enqueue]; [done|]. case_match; [|done]. rewrite IH. constructor.
Qed.

Lemma enqueue_sorted o q : StronglySorted by_ends q -> StronglySorted by_ends (enqueue o q).
Proof.
  unfold by_ends. induction 1 as [|x q Hq IH Hx]; cbn [enqueue]; [repeat constructor|].
  destruct (Z.ltb_spec (offer_ends x) (offer_ends o)).
  - constructor; [done|]. rewrite enqueue_perm. constructor; [lia|done].
  - constructor; [by constructor|]. constructor; [done|]. eapply list.Forall_impl; [exact Hx|]. cbn. lia.
Qed.

Lemma enqueue_all_perm os q : foldl (λ q o, enqueue o q) q os ≡ₚ os ++ q.
Proof.
  revert q. induction os as [|o os IH]; intros q; cbn [foldl]; [done|].
  rewrite IH, enqueue_perm. by rewrite <- Permutation_middle.
Qed.

Lemma enqueue_all_sorted os q :
  StronglySorted by_ends q -> StronglySorted by_ends (foldl (λ q o, enqueue o q) q os).
Proof. revert q. induction os as [|o os IH]; intros q Hq; cbn [foldl]; [done|]. by apply IH, enqueue_sorted. Qed.

Lemma sublist_sorted (q q' : list offer) :
  q' `sublist_of` q -> StronglySorted by_ends q -> StronglySorted by_ends q'.
Proof.
  induction 1 as [|x l l' Hs IH|x l l' Hs IH]; intros H; [constructor| |]; inversion_clear H as [|? ? Hq Hx].
  - constructor; [by apply IH|]. by eapply sublist_Forall.
  - by apply IH.
Qed.

Lemma settle_ok i p r :
  pool_ok p -> kept r ++ moved r ≡ₚ my_queue i p -> kept r `sublist_of` my_queue i p ->
  pool_ok (settle i p r) /\ free (settle i p r) ++ backup (settle i p r) ≡ₚ free p ++ backup p.
Proof.
  intros [Hf Hb Sf Sb] Hp Hs. pose proof (Permutation_length Hp) as Hl. rewrite length_app in Hl.
  destruct i; cbn in *.
  - assert (Permutation (foldl (λ q o, enqueue o q) (backup p) (moved r)) (moved r ++ backup p)) as Pm
      by apply enqueue_all_perm.
    pose proof (Permutation_length Pm) as Lm. rewrite length_app in Lm. split.
    + constructor; cbn; unfold Zlen in *; [lia|lia|by eapply sublist_sorted|by apply enqueue_all_sorted].
    + by rewrite Pm, app_assoc, Hp.
  - assert (Permutation (foldl (λ q o, enqueue o q) (free p) (moved r)) (moved r ++ free p)) as Pm
      by apply enqueue_all_perm.
    pose proof (Permutation_length Pm) as Lm. rewrite length_app in Lm. split.
    + constructor; cbn; unfold Zlen in *; [lia|lia|by apply enqueue_all_sorted|by eapply sublist_sorted].
    + rewrite Pm, <- Hp. rewrite <- !app_assoc. rewrite (Permutation_app_comm (kept r)).
      rewrite (Permutation_app_comm (moved r)), <- !app_assoc. apply Permutation_app_head, Permutation_app_comm.
Qed.

(** The parameters a configuration gives, for which the percentages of a pool's
    leases are computed without wrapping. *)
Definition ownership_ok (b : balance_t) (p : pool) : Prop :=
  0 <= (backup_leases p + free_leases p) * max_lease_ownership b < 2 ^ 32 - 50.

Lemma hold_nonneg b p :
  ownership_ok b p ->
  percent (backup_leases p + free_leases p) (max_lease_ownership b)
    = ((backup_leases p + free_leases p) * max_lease_ownership b + 50) / 100 /\
  0 <= percent (backup_leases p + free_leases p) (max_lease_ownership b).
Proof.
  unfold ownership_ok. intros H. rewrite percent_exact by lia. split; [done|]. apply Z.div_pos; lia.
Qed.

Lemma balance_pool_ok b p given sr :
  pool_ok p -> ownership_ok b p ->
  pool_ok (balance_pool b p given sr).1.1 /\
  free (balance_pool b p given sr).1.1 ++ backup (balance_pool b p given sr).1.1 ≡ₚ free p ++ backup p.
Proof.
  intros Hp Ho. unfold balance_pool. cbn [fst].
  destruct (give_leases_accounts _ (leases_to_send (bal_role b) p) given (my_queue (bal_role b) p) _ eq_refl
              (proj2 (hold_nonneg b p Ho))) as (Pm & Sl & _).
  by apply settle_ok.
Qed.

Definition sample_balance : balance_t := Balance primary true 15 10 3600 60 0 0 None.

(** Six free leases, two of which the peer wants. *)
Definition sample_pool : pool :=
  Pool 6 0 [Offer 0 false; Offer 0 false; Offer 10 true; Offer 20 false; Offer 30 true; Offer 40 false] [].

Lemma sample_pool_ok : pool_ok sample_pool /\ ownership_ok sample_balance sample_pool.
Proof.
  split; [|vm_compute; split; discriminate || reflexivity].
  split; [reflexivity|reflexivity| |constructor].
  repeat constructor; vm_compute; discriminate.
Qed.

(** How many more leases a server has than its peer. *)
Definition surplus (i : role) (p : pool) : Z :=
  match i with primary => free_leases p - backup_leases p | secondary => backup_leases p - free_leases p end.

Lemma surplus_settle i p r : surplus i (settle i p r) = surplus i p - 2 * Zlen (moved r).
Proof. destruct i; cbn; lia. Qed.

Lemma my_queue_settle i p r : my_queue i (settle i p r) = kept r.
Proof. by destruct i. Qed.

Definition their_queue (i : role) (p : pool) : list offer :=
  match i with primary => backup p | secondary => free p end.

(** What a rebalance makes of a pool by giving the leases [gave] to the peer. *)
Record evened (b : balance_t) (p p' : pool) (gave : list offer) : Prop := Evened {
  ev_ok : pool_ok p';
  ev_mine : my_queue (bal_role b) p ≡ₚ gave ++ my_queue (bal_role b) p';
  ev_theirs : their_queue (bal_role b) p' ≡ₚ gave ++ their_queue (bal_role b) p;
  ev_surplus : surplus (bal_role b) p' = surplus (bal_role b) p - 2 * Zlen gave;
  ev_peer : let hold := ((backup_leases p + free_leases p) * max_lease_ownership b + 50) / 100 in
    gave = [] \/ - 2 * hold - 1 <= surplus (bal_role b) p';
  ev_self : let hold := ((backup_leases p + free_leases p) * max_lease_ownership b + 50) / 100 in
    my_queue (bal_role b) p' = [] \/ surplus (bal_role b) p' <= 2 * hold + 1;
  ev_wanted : Forall wanted gave \/ Forall unwanted (my_queue (bal_role b) p')
}.

Lemma balance_pool_evens b p given sr :
  pool_ok p -> ownership_ok b p ->
  exists gave, evened b p (balance_pool b p given sr).1.1 gave /\ (balance_pool b p given sr).1.2 = (given + length gave)%nat.
Proof.
  intros Hp Ho. unfold balance_pool. cbn [fst snd]. destruct (hold_nonneg b p Ho) as [Eh Hh].
  set (hold := percent _ (max_lease_ownership b)) in *.
  set (t := leases_to_send (bal_role b) p). set (q := my_queue (bal_role b) p).
  destruct (give_leases_accounts hold t given q _ eq_refl Hh) as (Pm & Sl & Hq & Hl & Hs).
  destruct (give_leases_moves hold t given q) as (Hn & Hk & Hw).
  set (r := give_leases hold t given q) in *. exists (moved r). split; [|done].
  assert (-1 <= surplus (bal_role b) p - 2 * t <= 1) as Ht.
  { unfold t, leases_to_send, surplus. destruct (bal_role b); Z.to_euclidean_division_equations; lia. }
  constructor; cbn zeta; rewrite <- ?Eh, ?surplus_settle, ?my_queue_settle; [|..|done].
  - by apply settle_ok.
  - fold q. rewrite <- Pm. apply Permutation_app_comm.
  - unfold their_queue, settle. destruct (bal_role b); cbn; apply enqueue_all_perm.
  - done.
  - unfold Zlen. destruct (moved r) as [|o l] eqn:Em; [by left|right]. rewrite <- Em in *. rewrite Em in Hn |- *. cbn [length] in *. lia.
  - destruct (stopped r); [right; specialize (Hs I); unfold Zlen; lia|left; by apply Hk].
Qed.

(** C35: A rebalance evens the free leases of each pool out between the servers.  For pools
    whose counters count their queues, with totals for which the configured percentage does
    not overflow 32 bits, a server in the normal state moves leases of its own queue of each
    pool to the peer's and loses none: the counters still count the queues, which stay in
    the order of the ends of the leases, and the lead of this server shrinks by two for each
    lease given.  If any is given, the peer does not end up ahead by more than twice the
    configured ownership (and one); this server stays ahead by more than that only when it
    has no lease left to give; and a lease that the peer does not want (by the load
    balancing of the client it was for) is given only when none is left that it wants.  The
    result is the number of leases given, over all pools.  Outside the normal state nothing
    changes. *)
Theorem pool_dobalance_evens cur_time random b ps :
  Forall pool_ok ps -> Forall (ownership_ok b) ps ->
  let '(_, ps', n, _) := pool_dobalance cur_time random b ps in
  if is_normal b
  then exists gave, Forall3 (evened b) ps ps' gave /\ n = length (concat gave)
  else ps' = ps /\ n = O.
Proof.
  intros Hp Ho. unfold pool_dobalance. destruct (is_normal b) eqn:En; cbn [negb]; [|done].
  assert (forall b0, bal_role b0 = bal_role b -> max_lease_ownership b0 = max_lease_ownership b -> forall given sr,
    let '(_, ps', n, _) := balance_pools cur_time random b0 ps given sr in
    exists gave, Forall3 (evened b) ps ps' gave /\ n = (given + length (concat gave))%nat) as H.
  2: { specialize (H (set_last b cur_time) eq_refl eq_refl O false). by destruct (balance_pools _ _ _ _ _ _) as [[[b'' ps''] n] sr]. }
  induction Hp as [|p ps Hp Hps IH]; intros b0 Hr0 Hb0 given sr; cbn [balance_pools].
  { exists []. split; [constructor|cbn; lia]. }
  inversion_clear Ho as [|? ? Hop Hops].
  destruct (balance_pool_evens b0 p given sr Hp ltac:(unfold ownership_ok; by rewrite Hb0)) as (g & H1 & H2).
  destruct (balance_pool b0 p given sr) as [[p' given'] sr']. cbn [fst snd] in H1, H2.
  set (b1 := pool_check cur_time (random (length ps)) b0 p').
  assert (max_lease_ownership b1 = max_lease_ownership b /\ bal_role b1 = bal_role b) as [E1 E2]
    by (rewrite <- Hb0, <- Hr0; unfold b1, pool_check; repeat case_match; done).
  specialize (IH Hops b1 E2 E1 given' sr'). destruct (balance_pools _ _ _ _ _ _) as [[[b'' ps''] given''] sr''].
  destruct IH as (gave & H3 & H4). exists (g :: gave). split; [|cbn [concat]; rewrite length_app; lia].
  constructor; [|done]. destruct H1 as [? ? ? ? ? ? ?]. rewrite Hr0, Hb0 in *. by constructor.
Qed.

(** Of six free leases three go to the peer: first the two that it wants. *)
Lemma pool_dobalance_evens_witness :
  let '(_, ps', n, _) := pool_dobalance 1000 (fun _ => 3) sample_balance [sample_pool] in
  exists gave, Forall3 (evened sample_balance) [sample_pool] ps' gave /\ n = length (concat gave).
Proof.
  apply (pool_dobalance_evens 1000 (fun _ => 3) sample_balance [sample_pool]);
    (constructor; [apply sample_pool_ok|constructor]).
Defined.

Example sample_rebalanced :
  (pool_dobalance 1000 (fun _ => 3) sample_balance [sample_pool]).1 =
  (set_sched (set_last sample_balance 1000) 1153 (Some 1153),
   [Pool 3 3 [Offer 0 false; Offer 20 false; Offer 40 false] [Offer 0 false; Offer 10 true; Offer 30 true]], 3%nat).
Proof. by vm_compute. Qed.

(** ** The next rebalance *)

(** The window the next rebalance falls into. *)
Definition due (cur_time : Z) (b : balance_t) : Prop :=
  cur_time + min_balance b <= sched_balance b <= cur_time + Z.max (max_balance b) (min_balance b) + 4 /\
  timer b = Some (sched_balance b).

Lemma pool_check_due cur_time random b p :
  is_normal b = true -> last_balance b = cur_time -> cur_time <> 0 -> 0 <= random ->
  due cur_time b \/ sched_balance b = 0 -> due cur_time (pool_check cur_time random b p).
Proof.
  intros Hn Hl Hc Hr Hd. unfold pool_check. rewrite Hn. cbn [negb]. rewrite Hl.
  rewrite (proj2 (Z.eqb_neq cur_time 0)) by done. cbn [negb andb].
  set (e1 := (age cur_time (free p) * _ + 50) / 100). set (e2 := (age cur_time (backup p) * _ + 50) / 100).
  assert (0 <= Z.rem random 5 <= 4) as Hrem by (pose proof (Z.rem_bound_pos random 5); lia).
  unfold due in *.
  destruct (bal_role b); cbn zeta beta iota;
  repeat match goal with |- context [?a <? ?b] => destruct (Z.ltb_spec a b) end;
  match goal with |- context [if negb ?a && ?c then _ else _] => destruct (negb a && c) eqn:E end;
  try (apply andb_prop in E as [E1 E2]; apply negb_true_iff, Z.eqb_neq in E1; destruct Hd; [done|lia]);
  cbn [set_sched sched_balance timer max_balance min_balance]; split; try done; lia.
Qed.

Lemma pool_check_frame cur_time random b p :
  is_normal (pool_check cur_time random b p) = is_normal b /\
  last_balance (pool_check cur_time random b p) = last_balance b /\
  min_balance (pool_check cur_time random b p) = min_balance b /\
  max_balance (pool_check cur_time random b p) = max_balance b.
Proof. unfold pool_check. repeat case_match; done. Qed.

(** a rebalance of at least one pool schedules the next one: the timer is
    set, not before the configured minimum and not after the larger of the two
    configured limits, up to the random delay of four seconds. *)
Theorem pool_rebalance_rearms cur_time random b ps b' ps' sent :
  is_normal b = true -> cur_time <> 0 -> (forall n, 0 <= random n) -> ps <> [] ->
  pool_rebalance cur_time random b ps = (b', ps', sent) ->
  cur_time + min_balance b <= sched_balance b' <= cur_time + Z.max (max_balance b) (min_balance b) + 4 /\
  timer b' = Some (sched_balance b').
Proof.
  intros Hn Hc Hr Hps. unfold pool_rebalance, pool_dobalance. cbn [set_sched is_normal]. rewrite Hn. cbn [negb].
  assert (forall b0 given sr, is_normal b0 = true -> last_balance b0 = cur_time ->
            min_balance b0 = min_balance b -> max_balance b0 = max_balance b ->
            due cur_time b0 \/ (sched_balance b0 = 0 /\ ps <> []) ->
            let '(b1, _, _, _) := balance_pools cur_time random b0 ps given sr in
            due cur_time b1 /\ min_balance b1 = min_balance b /\ max_balance b1 = max_balance b) as H.
  { clear Hps. induction ps as [|p ps IH]; intros b0 given sr Hn0 Hl0 Hm HM Hd; cbn [balance_pools].
    { by destruct Hd as [|[_ ?]]. }
    destruct (balance_pool b0 p given sr) as [[p' given'] sr'].
    destruct (pool_check_frame cur_time (random (length ps)) b0 p') as (F1 & F2 & F3 & F4).
    specialize (IH (pool_check cur_time (random (length ps)) b0 p') given' sr').
    destruct (balance_pools _ _ _ _ _ _) as [[[b1 ps1] given1] sr1].
    apply IH; try congruence. left. apply pool_check_due; try done. by destruct Hd as [|[? _]]; auto. }
  set (b0 := set_last _ cur_time).
  specialize (H b0 O false Hn eq_refl eq_refl eq_refl (or_intror (conj eq_refl Hps))).
  destruct (balance_pools _ _ b0 _ _ _) as [[[b1 ps1] n1] sr1]. destruct H as (Hd & Hm & HM).
  intros [= <- <- _]. unfold due in Hd. by rewrite Hm, HM in Hd.
Qed.

Lemma pool_rebalance_rearms_witness :
  let r := pool_rebalance 1000 (fun _ => 3) sample_balance [sample_pool] in
  1000 + 60 <= sched_balance r.1.1 <= 1000 + Z.max 3600 60 + 4 /\ timer r.1.1 = Some (sched_balance r.1.1).
Proof.
  apply (pool_rebalance_rearms 1000 (fun _ => 3) sample_balance [sample_pool] _
           (pool_rebalance 1000 (fun _ => 3) sample_balance [sample_pool]).1.2
           (pool_rebalance 1000 (fun _ => 3) sample_balance [sample_pool]).2);
    [reflexivity|discriminate|intros; discriminate|discriminate|reflexivity].
Defined.

End FailoverLease.
