(* ===== verification/FailoverQueue.v ===== *)
(** * The update and ack queues of a failover peer (server/failover.c)

    The leases whose bindings the peer has to be told wait on the update queue,
    those it was told and has not acknowledged on the ack queue.  Both are
    linked through the [next_pending] pointer of the leases themselves, and a
    flag in each lease says which queue it is on.  The file models the pointer
    code, shows that it implements two disjoint lists, and that the flow control
    of [dhcp_failover_send_updates] keeps the number of updates in flight within
    the peer's limit. *)

From Stdlib Require Import ZArith Lia.
From stdpp Require Import base list numbers option gmap.
From S2P Require Import Prelude.
From S2P Require Import FailoverLease.
#[local] Open Scope Z_scope.

Module FailoverQueue.

Export FailoverLease(role(..), binding_state_t(..)).
#[local] Existing Instances FailoverLease.binding_state_eq_dec FailoverLease.role_eq_dec.

Abbreviation ptr := (option positive).

Definition BOOTP_LEASE : Z := 2.
Definition RESERVED_LEASE : Z := 4.
Definition ON_UPDATE_QUEUE : Z := 16.
Definition ON_ACK_QUEUE : Z := 32.
Definition ON_QUEUE : Z := Z.lor ON_UPDATE_QUEUE ON_ACK_QUEUE.
Definition FTF_IP_FLAG_RESERVE : Z := 1.
Definition FTF_IP_FLAG_BOOTP : Z := 2.

(** [peered]: the lease has a pool, and the pool has this failover peer. *)
Record lease : Type := Lease {
  next_pending : ptr;
  flags : Z;
  last_xid : Z;
  binding_state : binding_state_t;
  desired_binding_state : binding_state_t;
  rewind_binding_state : binding_state_t;
  tstp : Z;
  atsfp : Z;
  peered : bool
}.

(** What the code asks of the world, in order: the messages put on the link, the
    writes and commits of the lease database, and the timeouts it adds. *)
Inductive event : Type :=
| Bndupd (xid : Z) (x : positive) (status : binding_state_t) (ip_flags : Z)
| Bndack (xid : Z)
| Upddone (xid : Z)
| Write (x : positive)
| Commit
| Timeout (at_time : Z).

(** [link_to_peer]: the [xid] of the link; [connected]: the link's outer object
    is a connection.  [toack_queue] has the [xid] of the messages to be
    acknowledged. *)
Record state : Type := State {
  i_am : role;
  leases : gmap positive lease;
  update_queue_head : ptr;
  update_queue_tail : ptr;
  ack_queue_head : ptr;
  ack_queue_tail : ptr;
  cur_unacked_updates : Z;
  max_flying_updates : Z;
  link_to_peer : option Z;
  connected : bool;
  toack_queue : list Z;
  pending_acks : Z;
  send_update_done : ptr;
  updxid : Z;
  log : list event
}.

Definition with_leases (w : state) (h : gmap positive lease) : state :=
  State (i_am w) h (update_queue_head w) (update_queue_tail w) (ack_queue_head w) (ack_queue_tail w)
    (cur_unacked_updates w) (max_flying_updates w) (link_to_peer w) (connected w) (toack_queue w)
    (pending_acks w) (send_update_done w) (updxid w) (log w).

Definition with_updates (w : state) (h t : ptr) : state :=
  State (i_am w) (leases w) h t (ack_queue_head w) (ack_queue_tail w)
    (cur_unacked_updates w) (max_flying_updates w) (link_to_peer w) (connected w) (toack_queue w)
    (pending_acks w) (send_update_done w) (updxid w) (log w).

Definition with_acks (w : state) (h t : ptr) (n : Z) : state :=
  State (i_am w) (leases w) (update_queue_head w) (update_queue_tail w) h t
    n (max_flying_updates w) (link_to_peer w) (connected w) (toack_queue w)
    (pending_acks w) (send_update_done w) (updxid w) (log w).

Definition with_link (w : state) (l : option Z) : state :=
  State (i_am w) (leases w) (update_queue_head w) (update_queue_tail w) (ack_queue_head w) (ack_queue_tail w)
    (cur_unacked_updates w) (max_flying_updates w) l (connected w) (toack_queue w)
    (pending_acks w) (send_update_done w) (updxid w) (log w).

Definition with_toack (w : state) (q : list Z) (n : Z) : state :=
  State (i_am w) (leases w) (update_queue_head w) (update_queue_tail w) (ack_queue_head w) (ack_queue_tail w)
    (cur_unacked_updates w) (max_flying_updates w) (link_to_peer w) (connected w) q
    n (send_update_done w) (updxid w) (log w).

Definition with_done (w : state) (p : ptr) (xid : Z) : state :=
  State (i_am w) (leases w) (update_queue_head w) (update_queue_tail w) (ack_queue_head w) (ack_queue_tail w)
    (cur_unacked_updates w) (max_flying_updates w) (link_to_peer w) (connected w) (toack_queue w)
    (pending_acks w) p xid (log w).

Definition with_log (w : state) (l : list event) : state :=
  State (i_am w) (leases w) (update_queue_head w) (update_queue_tail w) (ack_queue_head w) (ack_queue_tail w)
    (cur_unacked_updates w) (max_flying_updates w) (link_to_peer w) (connected w) (toack_queue w)
    (pending_acks w) (send_update_done w) (updxid w) l.

Definition set_next (p : ptr) (l : lease) : lease :=
  Lease p (flags l) (last_xid l) (binding_state l) (desired_binding_state l) (rewind_binding_state l)
    (tstp l) (atsfp l) (peered l).
Definition set_flags (f : Z) (l : lease) : lease :=
  Lease (next_pending l) f (last_xid l) (binding_state l) (desired_binding_state l) (rewind_binding_state l)
    (tstp l) (atsfp l) (peered l).
Definition set_xid (x : Z) (l : lease) : lease :=
  Lease (next_pending l) (flags l) x (binding_state l) (desired_binding_state l) (rewind_binding_state l)
    (tstp l) (atsfp l) (peered l).
Definition set_desired (b : binding_state_t) (l : lease) : lease :=
  Lease (next_pending l) (flags l) (last_xid l) (binding_state l) b (rewind_binding_state l)
    (tstp l) (atsfp l) (peered l).
Definition set_rewind (b : binding_state_t) (l : lease) : lease :=
  Lease (next_pending l) (flags l) (last_xid l) (binding_state l) (desired_binding_state l) b
    (tstp l) (atsfp l) (peered l).

Inductive isc_result : Type := ISC_R_SUCCESS | DHCP_R_INVALIDARG | ISC_R_FAILURE.

Section Queues.
(** Whether an action succeeds, given what was done before it. *)
Context (ok : list event -> event -> bool).

Definition act (w : state) (e : event) : state * bool := (with_log w (log w ++ [e]), ok (log w) e).

(** ** Pointers

    The leases are held by the queues of their pools, so the references of these
    queues are never the last: reference counts are left out, but not that
    [lease_reference] refuses to store into a pointer that is not null. *)

Definition get (w : state) (x : positive) : outcome lease :=
  match leases w !! x with Some l => Ret l | None => Undef end.

Definition put (w : state) (x : positive) (f : lease -> lease) : outcome state :=
  l ← get w x; Ret (with_leases w (<[x := f l]> (leases w))).

Definition reference (dst src : ptr) : ptr := match dst with Some _ => dst | None => src end.

(** [lease_reference (&x->next_pending, p)] *)
Definition link_next (w : state) (x : positive) (p : ptr) : outcome state :=
  put w x (fun l => set_next (reference (next_pending l) p) l).

(** ** Messages *)

(** The state a binding update is meant to announce: a reserved lease that can
    be allocated is shown in the peer's own state. *)
Definition transmit_state (i : role) (l : lease) : binding_state_t :=
  if negb (Z.land (flags l) RESERVED_LEASE =? 0) then
    match i, desired_binding_state l with
    | primary, FTS_FREE => FTS_BACKUP
    | secondary, FTS_BACKUP => FTS_FREE
    | _, b => b
    end
  else desired_binding_state l.

Definition ip_flags (l : lease) : Z :=
  Z.lor (if Z.land (flags l) RESERVED_LEASE =? 0 then 0 else FTF_IP_FLAG_RESERVE)
        (if Z.land (flags l) BOOTP_LEASE =? 0 then 0 else FTF_IP_FLAG_BOOTP).

(** [dhcp_failover_send_bind_update]: the function computes [transmit_state],
    and sends [desired_binding_state]. *)
Definition send_bind_update (w : state) (x : positive) : outcome (state * isc_result) :=
  match link_to_peer w, connected w with
  | Some xid, true =>
    let xid := if xid =? 0 then 1 else xid in
    w ← put w x (set_xid xid);
    let w := with_link w (Some (u32 (xid + 1))) in
    l ← get w x;
    w ← (if bool_decide (rewind_binding_state l <> binding_state l) then
           w ← put w x (set_rewind (binding_state l));
           let '(w, _) := act w (Write x) in
           let '(w, _) := act w Commit in Ret w
         else Ret w);
    let '(w, sent) := act w (Bndupd xid x (desired_binding_state l) (ip_flags l)) in
    Ret (w, if sent then ISC_R_SUCCESS else ISC_R_FAILURE)
  | _, _ => Ret (w, DHCP_R_INVALIDARG)
  end.

(** [dhcp_failover_send_bind_ack] without a reject reason. *)
Definition send_bind_ack (w : state) (xid : Z) : state :=
  match link_to_peer w, connected w with
  | Some _, true => fst (act w (Bndack xid))
  | _, _ => w
  end.

(** The loop takes the messages off the queue one by one. *)
Fixpoint send_acks_loop (w : state) (q : list Z) : state :=
  match q with
  | [] => w
  | m :: q' => send_acks_loop (send_bind_ack (with_toack w q' (pending_acks w)) m) q'
  end.

(** [dhcp_failover_send_acks] *)
Definition send_acks (w : state) : state * bool :=
  let '(w, committed) := act w Commit in
  if negb committed then (w, false)
  else (with_toack (send_acks_loop w (toack_queue w)) [] 0, true).

(** [dhcp_failover_queue_ack] *)
Definition queue_ack (cur_time : Z) (w : state) (xid : Z) : state :=
  let w := with_toack w (toack_queue w ++ [xid]) (pending_acks w + 1) in
  let w := if u32 (max_flying_updates w) / 2 <=? u32 (pending_acks w) then fst (send_acks w) else w in
  if 0 <? pending_acks w then fst (act w (Timeout (cur_time + 2))) else w.

Definition send_update_done_msg (w : state) : state :=
  match link_to_peer w, connected w with
  | Some _, true =>
    let '(w, _) := act w (Upddone (updxid w)) in
    let w := with_done w (send_update_done w) (u32 (updxid w - 1)) in
    fst (act w Commit)
  | _, _ => w
  end.

(** ** The queues *)

(** One turn of the loop of [dhcp_failover_send_updates] on the head of the
    update queue; [None] when the message could not be sent. *)
Definition send_turn (w : state) (x : positive) : outcome (state * isc_result) :=
  r ← send_bind_update w x;
  match r with
  | (w, ISC_R_SUCCESS) =>
    w ← put w x (fun l => set_flags (Z.land (flags l) (Z.lnot ON_UPDATE_QUEUE)) l);
    l ← get w x;
    w ← match next_pending l with
        | Some y => put (with_updates w (Some y) (update_queue_tail w)) x (set_next None)
        | None => Ret (with_updates w None None)
        end;
    w ← match ack_queue_head w with
        | Some _ =>
          match ack_queue_tail w with
          | Some t =>
            w ← link_next w t (Some x);
            Ret (with_acks w (ack_queue_head w) None (cur_unacked_updates w))
          | None => Undef
          end
        | None => Ret (with_acks w (Some x) (ack_queue_tail w) (cur_unacked_updates w))
        end;
    w ← put (with_acks w (ack_queue_head w) (reference (ack_queue_tail w) (Some x)) (cur_unacked_updates w)) x
          (fun l => set_flags (Z.lor (flags l) ON_ACK_QUEUE) l);
    Ret (with_acks w (ack_queue_head w) (ack_queue_tail w) (cur_unacked_updates w + 1), ISC_R_SUCCESS)
  | (w, status) => Ret (w, status)
  end.

(** At most [fuel] turns; the update queue has no more leases than there are. *)
Fixpoint send_loop (fuel : nat) (w : state) : outcome (state * isc_result) :=
  if u32 (cur_unacked_updates w) <? max_flying_updates w then
    match update_queue_head w with
    | None => Ret (w, ISC_R_SUCCESS)
    | Some x =>
      match fuel with
      | O => Undef
      | S fuel =>
        r ← send_turn w x;
        match r with
        | (w, ISC_R_SUCCESS) => send_loop fuel w
        | (w, status) => Ret (w, status)
        end
      end
    end
  else Ret (w, ISC_R_SUCCESS).

Definition send_updates (w : state) : outcome (state * isc_result) :=
  match link_to_peer w with
  | None => Ret (w, ISC_R_SUCCESS)
  | Some _ =>
    let w := match toack_queue w with [] => w | _ => fst (send_acks w) end in
    send_loop (size (leases w)) w
  end.

(** The lease on the ack queue whose successor is [x]. *)
Fixpoint find_before (fuel : nat) (w : state) (lp : ptr) (x : positive) : outcome ptr :=
  match lp with
  | None => Ret None
  | Some y =>
    l ← get w y;
    if bool_decide (next_pending l = Some x) then Ret (Some y)
    else match fuel with O => Undef | S fuel => find_before fuel w (next_pending l) x end
  end.

(** What follows once the lease has left the list. *)
Definition ack_removed (w : state) (x : positive) : outcome state :=
  w ← put w x (fun l => set_xid 0 (set_flags (Z.land (flags l) (Z.lnot ON_ACK_QUEUE)) l));
  let w := with_acks w (ack_queue_head w) (ack_queue_tail w) (cur_unacked_updates w - 1) in
  Ret (if cur_unacked_updates w =? 0 then fst (act w Commit) else w).

(** [dhcp_failover_ack_queue_remove] *)
Definition ack_queue_remove (w : state) (x : positive) : outcome state :=
  l ← get w x;
  if Z.land (flags l) ON_ACK_QUEUE =? 0 then Ret w
  else if bool_decide (ack_queue_head w = Some x) then
    w ← match next_pending l with
        | Some y => put (with_acks w (Some y) (ack_queue_tail w) (cur_unacked_updates w)) x (set_next None)
        | None => Ret (with_acks w None None (cur_unacked_updates w))
        end;
    ack_removed w x
  else
    lp ← find_before (size (leases w)) w (ack_queue_head w) x;
    match lp with
    | None => Ret w
    | Some lp =>
      w ← put w lp (set_next None);
      l ← get w x;
      w ← match next_pending l with
          | Some y => w ← link_next w lp (Some y); put w x (set_next None)
          | None =>
            b ← get w lp;
            match next_pending b with
            | Some _ => Fatal
            | None => Ret (with_acks w (ack_queue_head w) (Some lp) (cur_unacked_updates w))
            end
          end;
      ack_removed w x
    end.

(** [dhcp_failover_queue_update] *)
Definition queue_update (w : state) (x : positive) (immediate : bool) : outcome state :=
  l ← get w x;
  if negb (peered l) then Ret w
  else if negb (Z.land (flags l) ON_UPDATE_QUEUE =? 0) then Ret w
  else
    w ← (if negb (Z.land (flags l) ON_ACK_QUEUE =? 0) then ack_queue_remove w x else Ret w);
    w ← match update_queue_head w with
        | Some _ =>
          match update_queue_tail w with
          | Some t =>
            w ← link_next w t (Some x);
            Ret (with_updates w (update_queue_head w) None)
          | None => Undef
          end
        | None => Ret (with_updates w (Some x) (update_queue_tail w))
        end;
    w ← put (with_updates w (update_queue_head w) (reference (update_queue_tail w) (Some x))) x
          (fun l => set_flags (Z.lor (flags l) ON_UPDATE_QUEUE) l);
    if immediate then r ← send_updates w; Ret (fst r) else Ret w.

(** Every lease on the ack queue goes to the update queue. *)
Fixpoint zap_flags (fuel : nat) (w : state) (lp : ptr) : outcome state :=
  match lp with
  | None => Ret w
  | Some x =>
    match fuel with
    | O => Undef
    | S fuel =>
      w ← put w x (fun l => set_flags (Z.lor (Z.land (flags l) (Z.lnot ON_ACK_QUEUE)) ON_UPDATE_QUEUE) l);
      l ← get w x; zap_flags fuel w (next_pending l)
    end
  end.

(** [dhcp_failover_rescind_updates] *)
Definition rescind_updates (w : state) : outcome state :=
  match ack_queue_tail w with
  | None => Ret w
  | Some t =>
    w ← zap_flags (size (leases w)) w (ack_queue_head w);
    w ← match update_queue_head w with
        | Some h => w ← link_next w t (Some h); Ret (with_updates w None (update_queue_tail w))
        | None => Ret w
        end;
    let w := with_updates w (ack_queue_head w) (reference (update_queue_tail w) (Some t)) in
    Ret (with_acks w None None 0)
  end.

(** ** Update requests *)

Definition EXPIRED_LEASES : nat := 2.

(** A lease of the [i]-th queue of a pool. *)
Definition generate_one (everythingp : bool) (i : nat) (w : state) (x : positive) : outcome state :=
  l ← get w x;
  if (Z.land (flags l) ON_QUEUE =? 0)
     && (everythingp || (atsfp l <? tstp l) || bool_decide (i = EXPIRED_LEASES)) then
    w ← put w x (set_desired (binding_state l)); queue_update w x false
  else Ret w.

Fixpoint generate_queue (everythingp : bool) (i : nat) (q : list positive) (w : state) : outcome state :=
  match q with
  | [] => Ret w
  | x :: q' => w ← generate_one everythingp i w x; generate_queue everythingp i q' w
  end.

Fixpoint generate_pool (everythingp : bool) (i : nat) (p : list (list positive)) (w : state) : outcome state :=
  match p with
  | [] => Ret w
  | q :: p' => w ← generate_queue everythingp i q w; generate_pool everythingp (S i) p' w
  end.

(** [dhcp_failover_generate_update_queue]: each pool of the peer is the list of
    its free, active, expired, abandoned, backup and reserved leases. *)
Fixpoint generate_update_queue (everythingp : bool) (ps : list (list (list positive))) (w : state) : outcome state :=
  match ps with
  | [] => Ret w
  | p :: ps' => w ← generate_pool everythingp 0 p w; generate_update_queue everythingp ps' w
  end.

(** [dhcp_failover_process_update_request], and the same for all the leases. *)
Definition process_update_request (everythingp : bool) (ps : list (list (list positive))) (xid : Z) (w : state)
  : outcome state :=
  let w := with_done w None (updxid w) in
  w ← generate_update_queue everythingp ps w;
  let w := with_done w (send_update_done w) xid in
  match update_queue_tail w with
  | Some t => r ← send_updates (with_done w (Some t) (updxid w)); Ret (fst r)
  | None => Ret (send_update_done_msg w)
  end.

End Queues.

(** The test of [dhcp_failover_process_bind_ack] for a potential expiry. *)
Definition FTO_POTENTIAL_EXPIRY : Z := 18.
Definition FTB_POTENTIAL_EXPIRY : Z := 262144.
Definition FTB_CLIENT_IDENTIFIER : Z := 16.

Definition ack_expiry (options_present potential_expiry : Z) (l : lease) : Z :=
  if negb (Z.land options_present FTO_POTENTIAL_EXPIRY =? 0) then potential_expiry else tstp l.

(** ** Two lists *)

(** The lease after [x] on a list. *)
Fixpoint follow (q : list positive) (x : positive) : ptr :=
  match q with
  | [] => None
  | y :: q' => if bool_decide (y = x) then head q' else follow q' x
  end.

(** The lease after [x] on either queue. *)
Definition after (U A : list positive) (x : positive) : ptr :=
  match follow U x with Some y => Some y | None => follow A x end.

Definition node_ok (U A : list positive) (x : positive) (l : lease) : Prop :=
  next_pending l = after U A x /\
  Z.testbit (flags l) 4 = bool_decide (x ∈ U) /\ Z.testbit (flags l) 5 = bool_decide (x ∈ A).

(** The leases are linked as the disjoint lists [U] and [A]. *)
Record linked (h : gmap positive lease) (U A : list positive) : Prop := Linked {
  linked_dup : NoDup (U ++ A);
  linked_in : forall x, x ∈ U ++ A -> is_Some (h !! x);
  linked_node : forall x l, h !! x = Some l -> node_ok U A x l
}.

(** The state has [U] on its update queue and [A] on its ack queue. *)
Record rep (w : state) (U A : list positive) : Prop := Rep {
  rep_linked : linked (leases w) U A;
  rep_update_head : update_queue_head w = head U;
  rep_update_tail : update_queue_tail w = last U;
  rep_ack_head : ack_queue_head w = head A;
  rep_ack_tail : ack_queue_tail w = last A;
  rep_unacked : cur_unacked_updates w = Zlen A
}.

Lemma follow_notin q x : x ∉ q -> follow q x = None.
Proof.
  induction q as [|y q IH]; cbn [follow]; [done|]. rewrite not_elem_of_cons. intros [? ?].
  rewrite bool_decide_false by done. by apply IH.
Qed.

Lemma follow_Some q x y : follow q x = Some y -> x ∈ q /\ y ∈ q.
Proof.
  induction q as [|z q IH]; cbn [follow]; [done|]. case_bool_decide; [subst|].
  - destruct q; [done|]. intros [= ->]. set_solver.
  - intros H1. apply IH in H1. set_solver.
Qed.

Lemma follow_singleton x y : follow [x] y = None.
Proof. cbn. by case_bool_decide. Qed.

Lemma last_Some_elem {A} (q : list A) x : last q = Some x -> x ∈ q.
Proof. intros H. apply last_Some in H as [q' ->]. set_solver. Qed.

Lemma head_Some_elem {A} (q : list A) x : head q = Some x -> x ∈ q.
Proof. destruct q; [done|]. intros [= ->]. set_solver. Qed.

Lemma follow_last q x : NoDup q -> last q = Some x -> follow q x = None.
Proof.
  intros Hd [q' ->]%last_Some. induction q' as [|y q' IH]; cbn [app follow].
  - by rewrite bool_decide_true.
  - inversion_clear Hd as [|? ? Hy Hd']. rewrite bool_decide_false by set_solver. by apply IH.
Qed.

Lemma follow_app q1 q2 x :
  NoDup (q1 ++ q2) -> follow (q1 ++ q2) x = if bool_decide (last q1 = Some x) then head q2 else after q1 q2 x.
Proof.
  unfold after. induction q1 as [|y q1 IH]; cbn [app follow]; [done|].
  intros Hd. inversion_clear Hd as [|? ? Hy Hd'].
  destruct q1 as [|z q1].
  - cbn [app last head follow]. destruct (decide (y = x)) as [->|Hn].
    + by rewrite !bool_decide_true.
    + rewrite !bool_decide_false by congruence. done.
  - change (last (y :: z :: q1)) with (last (z :: q1)).
    destruct (decide (y = x)) as [->|Hn].
    + rewrite !(bool_decide_true (x = x)) by done. rewrite bool_decide_false; [done|].
      intros E%last_Some_elem. set_solver.
    + rewrite !(bool_decide_false (y = x)) by done. by apply IH.
Qed.

Lemma after_comm U A x : NoDup (U ++ A) -> after U A x = after A U x.
Proof.
  unfold after. intros (_ & Hd & _)%NoDup_app.
  destruct (follow U x) as [y|] eqn:E1, (follow A x) as [z|] eqn:E2; try done.
  apply follow_Some in E1 as [E1 _], E2 as [E2 _]. by destruct (Hd x).
Qed.

Lemma after_notin U A x : x ∉ U ++ A -> after U A x = None.
Proof. intros. unfold after. rewrite !follow_notin by set_solver. done. Qed.

(** ** Flags *)

Lemma land_bit f n : 0 <= n -> (Z.land f (2 ^ n) =? 0) = negb (Z.testbit f n).
Proof.
  intros Hn. assert (Z.land f (2 ^ n) = if Z.testbit f n then 2 ^ n else 0) as ->.
  { apply Z.bits_inj'. intros i Hi. rewrite Z.land_spec, Z.pow2_bits_eqb by done.
    destruct (Z.eqb_spec n i) as [->|]; [|rewrite andb_false_r; destruct (Z.testbit f n)].
    - rewrite andb_true_r. destruct (Z.testbit f i) eqn:E; by rewrite ?Z.pow2_bits_true, ?Z.bits_0 by done.
    - rewrite Z.pow2_bits_false by done. done.
    - by rewrite Z.bits_0. }
  destruct (Z.testbit f n); [|done]. apply Z.eqb_neq. pose proof (Z.pow_pos_nonneg 2 n). lia.
Qed.

Lemma on_update_bit f : (Z.land f ON_UPDATE_QUEUE =? 0) = negb (Z.testbit f 4).
Proof. by apply (land_bit f 4). Qed.

Lemma on_ack_bit f : (Z.land f ON_ACK_QUEUE =? 0) = negb (Z.testbit f 5).
Proof. by apply (land_bit f 5). Qed.

Lemma on_queue_bit f : (Z.land f ON_QUEUE =? 0) = negb (Z.testbit f 4) && negb (Z.testbit f 5).
Proof.
  rewrite <- on_update_bit, <- on_ack_bit. unfold ON_QUEUE. rewrite Z.land_lor_distr_r.
  destruct (Z.eqb_spec (Z.lor (Z.land f ON_UPDATE_QUEUE) (Z.land f ON_ACK_QUEUE)) 0) as [E|E].
  - apply Z.lor_eq_0_iff in E as [-> ->]. done.
  - destruct (Z.eqb_spec (Z.land f ON_UPDATE_QUEUE) 0) as [E1|], (Z.eqb_spec (Z.land f ON_ACK_QUEUE) 0) as [E2|];
      try done. by rewrite E1, E2 in E.
Qed.

(** The queue bits after setting and clearing flags. *)
Ltac flag_bits :=
  rewrite ?Z.lor_spec, ?Z.land_spec, ?Z.lnot_spec by done;
  change (Z.testbit ON_UPDATE_QUEUE 4) with true; change (Z.testbit ON_UPDATE_QUEUE 5) with false;
  change (Z.testbit ON_ACK_QUEUE 4) with false; change (Z.testbit ON_ACK_QUEUE 5) with true;
  cbn [negb]; rewrite ?andb_true_r, ?andb_false_r, ?orb_true_r, ?orb_false_r.

(** ** Steps on pointers *)

Lemma get_ok w x l : leases w !! x = Some l -> get w x = Ret l.
Proof. intros H. unfold get. by rewrite H. Qed.

Lemma put_ok w x f l : leases w !! x = Some l -> put w x f = Ret (with_leases w (<[x := f l]> (leases w))).
Proof. intros H. unfold put. by rewrite (get_ok _ _ _ H). Qed.

Lemma linked_size h U A : linked h U A -> (length U + length A <= size h)%nat.
Proof.
  intros [Hd Hi _]. rewrite <- length_app, <- (size_list_to_set (C := gset positive) (U ++ A)) by done.
  rewrite <- (size_dom (D := gset positive) h). apply subseteq_size. intros x.
  rewrite elem_of_list_to_set, elem_of_dom. apply Hi.
Qed.

Lemma linked_lookup h U A x : linked h U A -> x ∈ U ++ A -> exists l, h !! x = Some l /\ node_ok U A x l.
Proof. intros H Hx. destruct (linked_in _ _ _ H x Hx) as [l Hl]. exists l. split; [done|]. by apply (linked_node _ _ _ H). Qed.

(** A change of other fields leaves the lists. *)
Lemma linked_frame h U A x l f :
  linked h U A -> h !! x = Some l -> next_pending (f l) = next_pending l -> flags (f l) = flags l ->
  linked (<[x := f l]> h) U A.
Proof.
  intros [Hd Hi Hn] Hx E1 E2. constructor; [done| |].
  - intros y Hy. destruct (decide (y = x)) as [->|]; simplify_map_eq; eauto.
  - intros y l'. destruct (decide (y = x)) as [->|]; intros H; simplify_map_eq; [|by apply Hn].
    unfold node_ok. rewrite E1, E2. by apply Hn.
Qed.

(** [h'] is [h] with the node [p] linked to [q], except at [x]. *)
Definition relinked (h h' : gmap positive lease) (x : positive) (p q : ptr) : Prop :=
  forall y, y <> x -> h' !! y = if bool_decide (p = Some y) then set_next q <$> h !! y else h !! y.

Lemma relinked_is_Some h h' x p q y : relinked h h' x p q -> y <> x -> is_Some (h !! y) -> is_Some (h' !! y).
Proof. intros H Hy Hs. rewrite (H y Hy). case_bool_decide; [by apply fmap_is_Some|done]. Qed.

Section Relink.
Context (h h' : gmap positive lease) (x : positive) (l' : lease).
Hypothesis at_x : h' !! x = Some l'.
Hypothesis unlinked_x : next_pending l' = None.

Lemma linked_intro U A U0 A0 p q :
  linked h U0 A0 -> relinked h h' x p q -> NoDup (U ++ A) -> (forall y, y ∈ U ++ A -> y = x \/ y ∈ U0 ++ A0) ->
  after U A x = None ->
  Z.testbit (flags l') 4 = bool_decide (x ∈ U) -> Z.testbit (flags l') 5 = bool_decide (x ∈ A) ->
  (forall y, y <> x -> (y ∈ U <-> y ∈ U0) /\ (y ∈ A <-> y ∈ A0)) ->
  (forall y, y <> x -> after U A y = if bool_decide (p = Some y) then q else after U0 A0 y) ->
  linked h' U A.
Proof.
  intros [Hd Hi Hn] Hr Hd' Hsub Hx B4 B5 Hbits Hafter. constructor; [done| |].
  - intros y Hy. destruct (Hsub y Hy) as [->|Hy0]; [eauto|]. destruct (decide (y = x)) as [->|]; [eauto|].
    eapply relinked_is_Some; eauto.
  - intros y l Hl. destruct (decide (y = x)) as [->|Hne].
    { rewrite at_x in Hl. injection Hl as <-. split_and!; [by rewrite Hx|done|done]. }
    rewrite (Hr y Hne) in Hl. unfold node_ok. rewrite (Hafter y Hne). destruct (Hbits y Hne) as [Bu Ba].
    rewrite (bool_decide_ext _ _ Bu), (bool_decide_ext _ _ Ba).
    case_bool_decide; [|by apply Hn].
    destruct (h !! y) as [l0|] eqn:E; [|done]. injection Hl as <-. cbn. split; [done|]. by apply Hn in E as (_ & ?).
Qed.

(** The head of the update queue goes to the end of the ack queue. *)
Lemma linked_send U A :
  linked h (x :: U) A -> Z.testbit (flags l') 4 = false -> Z.testbit (flags l') 5 = true ->
  relinked h h' x (last A) (Some x) -> linked h' U (A ++ [x]).
Proof.
  intros HL B4 B5 Hr. pose proof (linked_dup _ _ _ HL) as Hd. cbn in Hd.
  apply NoDup_cons in Hd as [Hx Hd]. pose proof Hd as (Du & Dua & Da)%NoDup_app.
  assert (x ∉ U /\ x ∉ A) as [Hxu Hxa] by (rewrite elem_of_app in Hx; tauto).
  assert (NoDup (A ++ [x])) as Dax by (apply NoDup_app; split_and!; [done|set_solver|apply NoDup_singleton]).
  assert (forall y, follow (A ++ [x]) y = if bool_decide (last A = Some y) then Some x else follow A y) as Fa.
  { intros y. rewrite (follow_app A [x] y Dax). unfold after. rewrite follow_singleton. by destruct (follow A y). }
  eapply (linked_intro U (A ++ [x]) (x :: U) A); [done|exact Hr| | | | | | |].
  - rewrite app_assoc. apply NoDup_app. split_and!; [done|set_solver|apply NoDup_singleton].
  - set_solver.
  - unfold after. rewrite (follow_notin U x), Fa by done. rewrite bool_decide_false, follow_notin; [done|done|].
    by intros ?%last_Some_elem.
  - by rewrite B4, bool_decide_false.
  - rewrite B5, bool_decide_true; [done|set_solver].
  - set_solver.
  - intros y Hy. unfold after. cbn [follow]. rewrite (bool_decide_false (x = y)), Fa by done.
    case_bool_decide as E; [|done]. rewrite follow_notin; [done|]. apply last_Some_elem in E. set_solver.
Qed.

(** A lease on no queue goes to the end of the update queue. *)
Lemma linked_enqueue U A :
  linked h U A -> x ∉ U ++ A -> Z.testbit (flags l') 4 = true -> Z.testbit (flags l') 5 = false ->
  relinked h h' x (last U) (Some x) -> linked h' (U ++ [x]) A.
Proof.
  intros HL Hx B4 B5 Hr. pose proof (linked_dup _ _ _ HL) as Hd. pose proof Hd as (Du & Dua & Da)%NoDup_app.
  assert (x ∉ U /\ x ∉ A) as [Hxu Hxa] by (rewrite elem_of_app in Hx; tauto).
  assert (NoDup (U ++ [x])) as Dux by (apply NoDup_app; split_and!; [done|set_solver|apply NoDup_singleton]).
  assert (forall y, follow (U ++ [x]) y = if bool_decide (last U = Some y) then Some x else follow U y) as Fu.
  { intros y. rewrite (follow_app U [x] y Dux). unfold after. rewrite follow_singleton. by destruct (follow U y). }
  eapply (linked_intro (U ++ [x]) A U A); [done|exact Hr| | | | | | |].
  - apply NoDup_app. split_and!; [done|set_solver|done].
  - set_solver.
  - unfold after. rewrite Fu, bool_decide_false, !follow_notin; [done|done|done|]. by intros ?%last_Some_elem.
  - rewrite B4, bool_decide_true; [done|set_solver].
  - by rewrite B5, bool_decide_false.
  - set_solver.
  - intros y Hy. unfold after. rewrite Fu. by case_bool_decide.
Qed.

(** A lease leaves the ack queue. *)
Lemma linked_remove U A1 A2 :
  linked h U (A1 ++ x :: A2) -> Z.testbit (flags l') 4 = false -> Z.testbit (flags l') 5 = false ->
  relinked h h' x (last A1) (head A2) -> linked h' U (A1 ++ A2).
Proof.
  intros HL B4 B5 Hr. pose proof (linked_dup _ _ _ HL) as Hd. pose proof Hd as (Du & Dua & Da)%NoDup_app.
  rewrite <- Permutation_middle in Da. apply NoDup_cons in Da as [Hxa Da].
  assert (x ∉ U) as Hxu by set_solver.
  assert (NoDup (A1 ++ x :: A2)) as Da' by (rewrite <- Permutation_middle; by constructor).
  eapply (linked_intro U (A1 ++ A2) U (A1 ++ x :: A2)); [done|exact Hr| | | | | | |].
  - apply NoDup_app. split_and!; [done|set_solver|done].
  - set_solver.
  - apply after_notin. set_solver.
  - by rewrite B4, bool_decide_false.
  - by rewrite B5, bool_decide_false.
  - set_solver.
  - intros y Hy. unfold after. rewrite (follow_app _ _ y Da), (follow_app _ _ y Da').
    case_bool_decide as E; [|unfold after; cbn [follow]; by rewrite (bool_decide_false (x = y)) by done].
    rewrite follow_notin; [done|]. apply last_Some_elem in E. set_solver.
Qed.

End Relink.

(** The ack queue goes before the update queue. *)
Lemma linked_rescind h h' U A t :
  linked h U A -> last A = Some t ->
  (forall y, y ∉ A -> h' !! y = h !! y) ->
  (forall y l, y ∈ A -> h !! y = Some l -> exists l', h' !! y = Some l' /\
     next_pending l' = (if bool_decide (y = t) then head U else next_pending l) /\
     Z.testbit (flags l') 4 = true /\ Z.testbit (flags l') 5 = false) ->
  linked h' (A ++ U) [].
Proof.
  intros [Hd Hi Hn] Ht Hout Hin. pose proof Hd as Hd'. rewrite Permutation_app_comm in Hd'.
  pose proof Hd as (Du & Dua & Da)%NoDup_app.
  constructor; [by rewrite app_nil_r| |].
  - intros y. rewrite app_nil_r. intros Hy. destruct (Hi y) as [l Hl]; [set_solver|].
    destruct (decide (y ∈ A)) as [Ha|Ha]; [|rewrite Hout by done; eauto]. destruct (Hin y l Ha Hl) as (l' & ? & _). eauto.
  - intros y l' Hl'. unfold node_ok.
    assert (after (A ++ U) [] y = if bool_decide (y = t) then head U else after U A y) as ->.
    { unfold after at 1. rewrite (follow_app A U y Hd'), Ht. cbn [follow].
      rewrite (bool_decide_ext (Some t = Some y) (y = t)) by naive_solver. rewrite (after_comm U A) by done.
      case_bool_decide; [by destruct (head U)|by destruct (after A U y)]. }
    rewrite (bool_decide_false (y ∈ [])) by set_solver.
    destruct (decide (y ∈ A)) as [Ha|Ha].
    + destruct (Hi y) as [l Hl]; [set_solver|]. destruct (Hin y l Ha Hl) as (l1 & E & En & B4 & B5).
      rewrite E in Hl'. injection Hl' as <-. rewrite En. destruct (Hn y l Hl) as (-> & _).
      rewrite B4, B5, (bool_decide_true (y ∈ A ++ U)) by (rewrite elem_of_app; by left). done.
    + rewrite Hout in Hl' by done. destruct (Hn y l' Hl') as (-> & -> & ->).
      rewrite (bool_decide_false (y = t)) by (intros ->; by apply Ha, last_Some_elem).
      rewrite (bool_decide_false (y ∈ A)) by done. split_and!; [done| |done]. apply bool_decide_ext. set_solver.
Qed.

Lemma follow_middle P y Q : NoDup (P ++ y :: Q) -> follow (P ++ y :: Q) y = head Q.
Proof.
  intros Hd. rewrite follow_app by done. apply NoDup_app in Hd as (_ & Hd & Hd2).
  rewrite bool_decide_false by (intros ?%last_Some_elem; set_solver).
  unfold after. rewrite follow_notin by set_solver. cbn [follow]. by rewrite bool_decide_true.
Qed.

Lemma update_next h U A P y Q l :
  linked h U A -> U = P ++ y :: Q -> h !! y = Some l -> next_pending l = head Q.
Proof.
  intros HL E Hl. destruct (linked_node _ _ _ HL y l Hl) as (-> & _). unfold after.
  pose proof (linked_dup _ _ _ HL) as (Du & Dua & _)%NoDup_app. rewrite E in Du.
  rewrite E, follow_middle by done. destruct (head Q); [done|]. rewrite follow_notin by set_solver. done.
Qed.

Lemma ack_next h U A P y Q l :
  linked h U A -> A = P ++ y :: Q -> h !! y = Some l -> next_pending l = head Q.
Proof.
  intros HL E Hl. destruct (linked_node _ _ _ HL y l Hl) as (-> & _). unfold after.
  pose proof (linked_dup _ _ _ HL) as (_ & Dua & Da)%NoDup_app. rewrite E in Da.
  rewrite (follow_notin U y) by set_solver. rewrite E. by apply follow_middle.
Qed.

(** What the queue operations leave alone. *)
Definition facts (l : lease) : Z * Z * bool * binding_state_t := (tstp l, atsfp l, peered l, binding_state l).

Definition same_peer (w w' : state) : Prop :=
  max_flying_updates w' = max_flying_updates w /\ connected w' = connected w /\
  (is_Some (link_to_peer w') <-> is_Some (link_to_peer w)) /\ facts <$> leases w' = facts <$> leases w /\
  send_update_done w' = send_update_done w /\ updxid w' = updxid w.

#[global] Instance same_peer_preorder : PreOrder same_peer.
Proof.
  split; [done|]. intros w1 w2 w3 (A1 & A2 & A3 & A4 & A5 & A6) (B1 & B2 & B3 & B4 & B5 & B6).
  unfold same_peer. split_and!; try congruence. tauto.
Qed.

(** Updates of a lease that keep its facts. *)
Ltac keep_facts :=
  cbn; apply map_eq; intros z; rewrite !lookup_fmap;
  repeat match goal with
  | |- context [<[?k := _]> _ !! z] =>
    destruct (decide (k = z)) as [<-|]; [rewrite lookup_insert_eq|rewrite lookup_insert_ne by done]
  end;
  repeat match goal with H : ?h !! ?k = Some _ |- context [?h !! ?k] => rewrite H end; done.

Lemma same_peer_lookup w w' x l' :
  same_peer w w' -> leases w' !! x = Some l' -> exists l, leases w !! x = Some l /\ facts l' = facts l.
Proof.
  intros (_ & _ & _ & E & _) Hl. apply (f_equal (.!! x)) in E. rewrite !lookup_fmap, Hl in E.
  destruct (leases w !! x) as [l|]; [|done]. exists l. split; [done|]. cbn in E. congruence.
Qed.

Lemma same_peer_is_Some w w' x : same_peer w w' -> is_Some (leases w !! x) -> is_Some (leases w' !! x).
Proof.
  intros (_ & _ & _ & E & _) [l Hl]. apply (f_equal (.!! x)) in E. rewrite !lookup_fmap, Hl in E.
  by destruct (leases w' !! x); [eauto|].
Qed.

Lemma removing_apart w U A1 A2 x :
  rep w U (A1 ++ x :: A2) ->
  x ∉ U /\ x ∉ A1 /\ x ∉ A2 /\ NoDup (A1 ++ A2) /\ (forall y, y ∈ A1 -> y ∉ U).
Proof.
  intros R. pose proof (linked_dup _ _ _ (rep_linked _ _ _ R)) as (_ & Dua & Da)%NoDup_app.
  rewrite <- Permutation_middle in Da. apply NoDup_cons in Da as [Hx Da]. rewrite elem_of_app in Hx.
  split_and!; [set_solver|tauto|tauto|done|set_solver].
Qed.

Section Removing.
Context (ok : list event -> event -> bool) (w : state) (U A1 A2 : list positive) (x : positive) (l : lease).
Hypothesis R : rep w U (A1 ++ x :: A2).
Hypothesis at_x : leases w !! x = Some l.

Lemma removing_bits : Z.testbit (flags l) 4 = false /\ Z.testbit (flags l) 5 = true.
Proof.
  destruct (linked_node _ _ _ (rep_linked _ _ _ R) x l at_x) as (_ & -> & ->). destruct (removing_apart _ _ _ _ _ R) as (Hu & _).
  rewrite bool_decide_false, bool_decide_true by set_solver. done.
Qed.

(** The end of the removal, on leases already relinked. *)
Lemma ack_removed_ok w1 l1 :
  leases w1 !! x = Some l1 -> next_pending l1 = None -> flags l1 = flags l ->
  relinked (leases w) (leases w1) x (last A1) (head A2) ->
  update_queue_head w1 = head U -> update_queue_tail w1 = last U ->
  ack_queue_head w1 = head (A1 ++ A2) -> ack_queue_tail w1 = last (A1 ++ A2) ->
  cur_unacked_updates w1 = Zlen (A1 ++ x :: A2) -> same_peer w w1 ->
  exists w', ack_removed ok w1 x = Ret w' /\ rep w' U (A1 ++ A2) /\ same_peer w w'.
Proof.
  intros Hl1 Hn1 Hf1 Hr Huh Hut Hah Hat Hc HS0. unfold ack_removed. rewrite (put_ok _ _ _ _ Hl1).
  cbn [mbind outcome_bind with_leases ack_queue_head ack_queue_tail cur_unacked_updates].
  set (l2 := set_xid 0 (set_flags (Z.land (flags l1) (Z.lnot ON_ACK_QUEUE)) l1)).
  set (w2 := with_acks _ _ _ _). eexists. split; [reflexivity|].
  assert (rep w2 U (A1 ++ A2)) as HR.
  { constructor; cbn; try done.
    - eapply (linked_remove (leases w) _ x l2); [by simplify_map_eq|done|apply R| | |].
      + unfold l2. cbn [flags set_xid set_flags]. rewrite Hf1. flag_bits. apply removing_bits.
      + unfold l2. cbn [flags set_xid set_flags]. flag_bits. done.
      + intros y Hy. rewrite lookup_insert_ne by done. by apply Hr.
    - rewrite Hc. unfold Zlen. rewrite !length_app. cbn [length]. lia. }
  assert (same_peer w w2) as HS by (etrans; [exact HS0|]; split_and!; try done; by keep_facts).
  destruct (_ =? 0); [|done]. split; [constructor; apply HR|exact HS].
Qed.

End Removing.

Lemma find_before_ok w U A1 x A2 S P fuel :
  rep w U (A1 ++ x :: A2) -> A1 = P ++ S -> S <> [] -> (length S <= fuel)%nat ->
  find_before fuel w (head S) x = Ret (last S).
Proof.
  intros R. revert P S. induction fuel as [|fuel IH]; intros P S E HS Hlen; [destruct S; [done|cbn in Hlen; lia]|].
  destruct S as [|y S]; [done|]. cbn [head find_before].
  destruct (linked_lookup _ _ _ y (rep_linked _ _ _ R)) as (l & Hl & _); [set_solver|].
  rewrite (get_ok _ _ _ Hl). cbn [mbind outcome_bind].
  rewrite (ack_next _ _ _ P y (S ++ x :: A2) l (rep_linked _ _ _ R)) by (try done; by rewrite E, <- app_assoc).
  destruct S as [|z S]; [by rewrite bool_decide_true|]. rewrite bool_decide_false.
  - cbn [app]. change (head (z :: S ++ x :: A2)) with (head (z :: S)). rewrite (IH (P ++ [y])); [done| |done|cbn in *; lia].
    by rewrite <- app_assoc.
  - intros [= ->]. destruct (removing_apart w U A1 A2 x R) as (_ & Hx & _). set_solver.
Qed.

(** The lease is taken from the middle or the head of the ack queue. *)
Lemma ack_queue_remove_ok ok w U A1 A2 x :
  rep w U (A1 ++ x :: A2) ->
  exists w', ack_queue_remove ok w x = Ret w' /\ rep w' U (A1 ++ A2) /\ same_peer w w'.
Proof.
  intros R. pose proof (rep_linked _ _ _ R) as HL.
  destruct (linked_lookup _ _ _ x HL) as (l & Hl & _); [set_solver|].
  destruct (removing_bits w U A1 A2 x l R Hl) as [B4 B5].
  destruct (removing_apart w U A1 A2 x R) as (Hxu & Hx1 & Hx2 & Hd & _).
  pose proof (ack_next _ _ _ A1 x A2 l HL eq_refl Hl) as Hnl.
  pose proof R as [_ Huh Hut Hah Hat Hc].
  unfold ack_queue_remove. rewrite (get_ok _ _ _ Hl). cbn [mbind outcome_bind].
  rewrite on_ack_bit, B5. cbn [negb].
  assert (forall y, relinked (leases w) (leases w) y None (head A2)) as Hrefl by (intros ? ? ?; done).
  destruct A1 as [|a A1].
  - rewrite bool_decide_true by done. cbn [app] in *. rewrite Hnl. destruct A2 as [|y A2]; cbn [head mbind outcome_bind].
    + by apply (ack_removed_ok ok w U [] [] x l R Hl (with_acks w None None (cur_unacked_updates w)) l).
    + rewrite (put_ok _ _ _ l) by done. cbn [mbind outcome_bind].
      eapply (ack_removed_ok ok w U [] (y :: A2) x l R Hl _ (set_next None l)).
      all: cbn; try done; try (by simplify_map_eq).
      * intros z Hz. by rewrite lookup_insert_ne.
      * split_and!; try done. by keep_facts.
  - rewrite bool_decide_false by (rewrite Hah; cbn; intros [= ->]; set_solver).
    pose proof (linked_size _ _ _ HL) as Hsz. rewrite length_app in Hsz. cbn [length] in Hsz.
    rewrite Hah. change (head ((a :: A1) ++ x :: A2)) with (head (a :: A1)).
    rewrite (find_before_ok w U (a :: A1) x A2 (a :: A1) []) by (done || cbn [length]; lia).
    cbn [mbind outcome_bind]. destruct (last (a :: A1)) as [t|] eqn:Et; [|by apply last_None in Et].
    pose proof (last_Some_elem _ _ Et) as Hta. assert (t <> x) as Htx by (intros ->; done).
    destruct (linked_lookup _ _ _ t HL) as (lt & Hlt & _); [set_solver|].
    rewrite (put_ok _ _ _ _ Hlt). cbn [mbind outcome_bind].
    rewrite (get_ok _ x l) by (cbn; by simplify_map_eq). cbn [mbind outcome_bind]. rewrite Hnl.
    assert (relinked (leases w) (<[t := set_next (head A2) lt]> (leases w)) x (Some t) (head A2)) as Hrel.
    { intros y Hy. destruct (decide (y = t)) as [->|Hyt].
      - rewrite lookup_insert_eq, bool_decide_true, Hlt by done. done.
      - rewrite lookup_insert_ne, bool_decide_false by congruence. done. }
    destruct A2 as [|y A2]; cbn [head].
    + rewrite (get_ok _ t (set_next None lt)) by (cbn; by simplify_map_eq). cbn [mbind outcome_bind next_pending set_next].
      eapply (ack_removed_ok ok w U (a :: A1) [] x l R Hl _ l).
      all: cbn; rewrite ?app_nil_r, ?Et; try done; try (by simplify_map_eq).
      split_and!; try done. by keep_facts.
    + assert (last ((a :: A1) ++ x :: y :: A2) = last ((a :: A1) ++ y :: A2)) as Hlast by (rewrite !last_app; done).
      unfold link_next. rewrite (put_ok _ t _ (set_next None lt)) by (cbn; by simplify_map_eq).
      cbn [mbind outcome_bind]. rewrite (put_ok _ x _ l) by (cbn; by simplify_map_eq). cbn [mbind outcome_bind].
      eapply (ack_removed_ok ok w U (a :: A1) (y :: A2) x l R Hl _ (set_next None l)).
      all: cbn; try done; try (by simplify_map_eq).
      * rewrite Et, insert_insert_eq. intros z Hz. rewrite lookup_insert_ne by done. by apply Hrel.
      * rewrite Hat. exact Hlast.
      * split_and!; try done. by keep_facts.
Qed.

(** ** The operations on the lists *)

Definition remove_from (x : positive) (q : list positive) : list positive := filter (fun y => y <> x) q.

Lemma remove_from_notin x q : x ∉ q -> remove_from x q = q.
Proof.
  unfold remove_from. induction q as [|y q IH]; intros Hx; [done|]. rewrite not_elem_of_cons in Hx.
  rewrite filter_cons_True by naive_solver. by rewrite IH by tauto.
Qed.

Lemma remove_from_middle x A1 A2 : x ∉ A1 -> x ∉ A2 -> remove_from x (A1 ++ x :: A2) = A1 ++ A2.
Proof.
  intros H1 H2. unfold remove_from. rewrite list.filter_app, filter_cons_False by tauto.
  fold (remove_from x A1) (remove_from x A2). by rewrite !remove_from_notin.
Qed.

(** Taking a lease off the ack queue, wherever it is on it, leaves the other
    leases in their order, and the update queue alone; a lease that is not on
    the ack queue is left alone. *)
Lemma ack_queue_remove_spec ok w U A x :
  rep w U A -> is_Some (leases w !! x) ->
  exists w', ack_queue_remove ok w x = Ret w' /\ rep w' U (remove_from x A) /\ same_peer w w'.
Proof.
  intros R [l Hl]. destruct (decide (x ∈ A)) as [Hx|Hx].
  - apply list_elem_of_split in Hx as (A1 & A2 & ->).
    destruct (removing_apart w U A1 A2 x R) as (_ & H1 & H2 & _). rewrite remove_from_middle by done.
    by apply ack_queue_remove_ok.
  - rewrite remove_from_notin by done. unfold ack_queue_remove. rewrite (get_ok _ _ _ Hl). cbn [mbind outcome_bind].
    destruct (linked_node _ _ _ (rep_linked _ _ _ R) x l Hl) as (_ & _ & B5).
    rewrite on_ack_bit, B5, bool_decide_false by done. by exists w.
Qed.

(** Queueing a lease that is on no queue. *)
Lemma append_update_ok w U A x l :
  rep w U A -> x ∉ U ++ A -> leases w !! x = Some l ->
  exists w',
    (w ← match update_queue_head w with
         | Some _ =>
           match update_queue_tail w with
           | Some t => w ← link_next w t (Some x); Ret (with_updates w (update_queue_head w) None)
           | None => Undef
           end
         | None => Ret (with_updates w (Some x) (update_queue_tail w))
         end;
     put (with_updates w (update_queue_head w) (reference (update_queue_tail w) (Some x))) x
       (fun l => set_flags (Z.lor (flags l) ON_UPDATE_QUEUE) l)) = Ret w' /\
    rep w' (U ++ [x]) A /\ same_peer w w'.
Proof.
  intros R Hx Hl. pose proof R as [HL Huh Hut Hah Hat Hc]. rewrite Huh, Hut.
  destruct (linked_node _ _ _ HL x l Hl) as (Hn & B4 & B5). rewrite after_notin in Hn by done.
  rewrite bool_decide_false in B4, B5 by set_solver.
  set (l' := set_flags (Z.lor (flags l) ON_UPDATE_QUEUE) l).
  assert (Z.testbit (flags l') 4 = true /\ Z.testbit (flags l') 5 = false) as [B4' B5'].
  { unfold l'. cbn [flags set_flags]. flag_bits. done. }
  destruct U as [|u U].
  - cbn [head last mbind outcome_bind]. rewrite (put_ok _ x _ l) by done. eexists. split; [reflexivity|]. split.
    + constructor; cbn; try done. eapply (linked_enqueue (leases w) _ x l') with (U := []); try done; [apply lookup_insert_eq|].
      intros y Hy. by rewrite lookup_insert_ne.
    + split_and!; try done. by keep_facts.
  - destruct (last (u :: U)) as [t|] eqn:Et; [|by apply last_None in Et]. cbn [head].
    pose proof (last_Some_elem _ _ Et) as Htu. assert (t <> x) as Htx by (intros ->; set_solver).
    destruct (linked_lookup _ _ _ t HL) as (lt & Hlt & Hnt & _); [set_solver|].
    assert (next_pending lt = None) as Hnt'.
    { apply last_Some in Et as [P EP]. by rewrite (update_next _ _ _ P t [] lt HL EP Hlt). }
    unfold link_next. rewrite (put_ok _ _ _ _ Hlt), Hnt'. cbn [mbind outcome_bind reference].
    rewrite (put_ok _ x _ l) by (cbn; by simplify_map_eq). eexists. split; [reflexivity|]. split.
    + constructor; cbn -[last app]; try done; [|by rewrite last_snoc].
      eapply (linked_enqueue (leases w) _ x l'); try done; [apply lookup_insert_eq|].
      intros y Hy. rewrite lookup_insert_ne by done. rewrite Et. destruct (decide (y = t)) as [->|].
      * rewrite lookup_insert_eq, bool_decide_true, Hlt by done. done.
      * rewrite lookup_insert_ne, bool_decide_false by congruence. done.
    + split_and!; try done. by keep_facts.
Qed.

Lemma queue_update_spec ok w U A x l :
  rep w U A -> leases w !! x = Some l -> peered l = true ->
  exists w', queue_update ok w x false = Ret w' /\ same_peer w w' /\
    if bool_decide (x ∈ U) then w' = w else rep w' (U ++ [x]) (remove_from x A).
Proof.
  intros R Hl Hp. unfold queue_update. rewrite (get_ok _ _ _ Hl). cbn [mbind outcome_bind]. rewrite Hp.
  destruct (linked_node _ _ _ (rep_linked _ _ _ R) x l Hl) as (_ & B4 & B5).
  rewrite on_update_bit, on_ack_bit, B4, B5. cbn [negb].
  destruct (bool_decide_reflect (x ∈ U)) as [Hu|Hu]; cbn [negb]; [by exists w; split_and!|].
  assert (exists w1, (if negb (negb (bool_decide (x ∈ A))) then ack_queue_remove ok w x else Ret w) = Ret w1 /\
            rep w1 U (remove_from x A) /\ same_peer w w1) as (w1 & -> & R1 & S1).
  { case_bool_decide; cbn [negb]; [apply ack_queue_remove_spec; eauto|]. rewrite remove_from_notin by done. by exists w. }
  cbn [mbind outcome_bind].
  assert (is_Some (leases w1 !! x)) as [l1 Hl1].
  { eapply same_peer_is_Some; eauto. }
  destruct (append_update_ok w1 U (remove_from x A) x l1) as (w2 & E & R2 & S2); [done| |done|].
  { unfold remove_from. rewrite elem_of_app, list_elem_of_filter. tauto. }
  exists w2. split; [|split; [by etrans|done]].
  destruct (update_queue_head w1); [destruct (update_queue_tail w1); [|done]|];
    cbn [mbind outcome_bind] in *.
  - destruct (link_next w1 _ _); [|done..]. cbn [mbind outcome_bind] in *. by rewrite E.
  - by rewrite E.
Qed.

(** ** Sending *)

(** The leases of the binding updates put on the link, in order. *)
Definition announced (l : list event) : list positive :=
  omap (fun e => match e with Bndupd _ x _ _ => Some x | _ => None end) l.

Lemma announced_app l1 l2 : announced (l1 ++ l2) = announced l1 ++ announced l2.
Proof. apply omap_app. Qed.

Lemma put_log w x f w' : put w x f = Ret w' -> log w' = log w.
Proof. unfold put. intros H. apply bind_Ret_inv in H as (l & _ & [= <-]). done. Qed.

(** Takes a run of the model that returns apart, into its steps. *)
Ltac take_apart :=
  repeat match goal with
  | H : (_ ≫= _) = Ret _ |- _ => apply bind_Ret_inv in H as (? & ? & ?)
  | H : put _ _ _ = Ret _ |- _ => apply put_log in H
  | H : link_next _ _ _ = Ret _ |- _ => apply put_log in H
  | H : Ret _ = Ret _ |- _ => injection H as <-
  | H : Undef = Ret _ |- _ => discriminate H
  | H : Fatal = Ret _ |- _ => discriminate H
  | H : (if ?b then _ else _) = Ret _ |- _ => destruct b
  | H : match ?m with Some _ => _ | None => _ end = Ret _ |- _ => destruct m
  end.

Section Sending.
Context (ok : list event -> event -> bool).

(** Queueing an update announces nothing. *)
Lemma ack_queue_remove_announced w x w' : ack_queue_remove ok w x = Ret w' -> announced (log w') = announced (log w).
Proof.
  assert (forall w x w', ack_removed ok w x = Ret w' -> announced (log w') = announced (log w)) as Hr.
  { intros w0 x0 w1 H. unfold ack_removed in H. take_apart. cbn [log with_acks act with_log fst] in *.
    destruct (_ =? 0); cbn [log with_acks act with_log fst]; [rewrite announced_app, app_nil_r|]; congruence. }
  intros H. unfold ack_queue_remove in H. take_apart;
    repeat match goal with H : ack_removed _ _ _ = Ret _ |- _ => apply Hr in H end; cbn [log with_acks] in *; congruence.
Qed.

Lemma queue_update_announced w x w' : queue_update ok w x false = Ret w' -> announced (log w') = announced (log w).
Proof.
  intros H. unfold queue_update in H. take_apart;
    repeat match goal with H : ack_queue_remove _ _ _ = Ret _ |- _ => apply ack_queue_remove_announced in H end;
    cbn [log with_acks with_updates] in *; congruence.
Qed.

(** A link that takes every message takes an update. *)
Lemma send_turn_success w x w' r :
  (forall h e, ok h e = true) -> is_Some (link_to_peer w) -> connected w = true -> send_turn ok w x = Ret (w', r) -> r = ISC_R_SUCCESS.
Proof.
  intros Hok [xid Hk] Hc H. unfold send_turn in H. apply bind_Ret_inv in H as ([w1 r1] & E & H).
  assert (r1 = ISC_R_SUCCESS) as ->.
  { unfold send_bind_update in E. rewrite Hk, Hc in E. take_apart; unfold act in *; rewrite Hok in *; congruence. }
  take_apart; congruence.
Qed.

Lemma send_bind_update_ok w U A x :
  rep w U A -> is_Some (leases w !! x) -> is_Some (link_to_peer w) -> connected w = true ->
  exists w' r, send_bind_update ok w x = Ret (w', r) /\ rep w' U A /\ same_peer w w' /\
    announced (log w') = announced (log w) ++ [x] /\
    exists l', leases w' !! x = Some l' /\ last_xid l' <> 0 /\ rewind_binding_state l' = binding_state l'.
Proof.
  intros R [l Hl] [xid Hk] Hc. unfold send_bind_update. rewrite Hk, Hc.
  set (xid' := if xid =? 0 then 1 else xid).
  assert (xid' <> 0) as Hx by (unfold xid'; destruct (Z.eqb_spec xid 0); lia).
  rewrite (put_ok _ _ _ _ Hl). cbn [mbind outcome_bind].
  rewrite (get_ok _ x (set_xid xid' l)) by (cbn; by simplify_map_eq). cbn [mbind outcome_bind].
  pose proof (linked_frame _ U A x l (set_xid xid') (rep_linked _ _ _ R) Hl eq_refl eq_refl) as HL1.
  case_bool_decide as Hrw; cbn [mbind outcome_bind].
  - rewrite (put_ok _ x _ (set_xid xid' l)) by (cbn; by simplify_map_eq). cbn [mbind outcome_bind act fst snd].
    do 2 eexists. split; [reflexivity|]. split_and!.
    + pose proof R as [_ ? ? ? ? ?]. constructor; try done. cbn.
      by apply (linked_frame _ U A x (set_xid xid' l) (set_rewind (binding_state l)) HL1);
        [by simplify_map_eq| |].
    + split_and!; try done.
      by keep_facts.
    + cbn. by rewrite !announced_app, <- !app_assoc.
    + eexists. split; [cbn; by simplify_map_eq|]. done.
  - do 2 eexists. split; [reflexivity|]. split_and!.
    + pose proof R as [_ ? ? ? ? ?]. by constructor.
    + split_and!; try done.
      cbn. by keep_facts.
    + cbn. by rewrite announced_app.
    + eexists. split; [cbn; by simplify_map_eq|]. done.
Qed.

(** The queues after the head of the update queue was sent. *)
Lemma send_turn_ok w U A x :
  rep w (x :: U) A -> is_Some (link_to_peer w) -> connected w = true ->
  exists w' r, send_turn ok w x = Ret (w', r) /\ same_peer w w' /\
    announced (log w') = announced (log w) ++ [x] /\
    match r with ISC_R_SUCCESS => rep w' U (A ++ [x]) | _ => rep w' (x :: U) A end.
Proof.
  intros R Hk Hc. destruct (linked_lookup _ _ _ x (rep_linked _ _ _ R)) as (l0 & Hl0 & _); [set_solver|].
  destruct (send_bind_update_ok w (x :: U) A x R ltac:(eauto) Hk Hc) as (w1 & r & E & R1 & S1 & L1 & l & Hl & _).
  unfold send_turn. rewrite E. cbn [mbind outcome_bind]. clear E.
  destruct r; [|by do 2 eexists; split_and!..].
  pose proof R1 as [HL Huh Hut Hah Hat Hcu].
  pose proof (update_next _ _ _ [] x U l HL eq_refl Hl) as Hnl.
  pose proof (linked_dup _ _ _ HL) as Hd. cbn in Hd. apply NoDup_cons in Hd as [Hxua _].
  rewrite (put_ok _ _ _ _ Hl). cbn [mbind outcome_bind].
  set (l1 := set_flags (Z.land (flags l) (Z.lnot ON_UPDATE_QUEUE)) l).
  rewrite (get_ok _ x l1) by (cbn; by simplify_map_eq). cbn [mbind outcome_bind].
  change (next_pending l1) with (next_pending l). rewrite Hnl.
  (** off the update queue *)
  set (h2 := <[x := set_next None l1]> (leases w1)).
  assert (exists w2, match head U with
            | Some y => put (with_updates (with_leases w1 (<[x := l1]> (leases w1))) (Some y)
                               (update_queue_tail (with_leases w1 (<[x := l1]> (leases w1))))) x (set_next None)
            | None => Ret (with_updates (with_leases w1 (<[x := l1]> (leases w1))) None None)
            end = Ret w2 /\ leases w2 = h2 /\ update_queue_head w2 = head U /\ update_queue_tail w2 = last U /\
              w2 = with_updates (with_leases w1 h2) (head U) (last U)) as (w2 & -> & Eh & Euh & Eut & Ew2).
  { destruct U as [|y U]; cbn [head].
    - eexists. split; [reflexivity|]. unfold h2. assert (set_next None l1 = l1) as -> by (unfold l1; destruct l; cbn in *; by subst).
      done.
    - rewrite (put_ok _ x _ l1) by (cbn; by simplify_map_eq). eexists. split; [reflexivity|].
      cbn. rewrite insert_insert_eq. rewrite Hut. done. }
  cbn [mbind outcome_bind]. clear Euh Eut Eh.
  set (l3 := set_flags (Z.lor (flags (set_next None l1)) ON_ACK_QUEUE) (set_next None l1)).
  assert (Z.testbit (flags l3) 4 = false /\ Z.testbit (flags l3) 5 = true) as [B4 B5].
  { unfold l3, l1. cbn [flags set_flags set_next]. flag_bits. done. }
  rewrite Ew2. cbn [ack_queue_head ack_queue_tail with_updates with_leases cur_unacked_updates]. rewrite Hah, Hat.
  destruct A as [|a A].
  - cbn [head last mbind outcome_bind]. rewrite (put_ok _ x _ (set_next None l1)) by (cbn; unfold h2; by simplify_map_eq).
    cbn [mbind outcome_bind]. do 2 eexists. split; [reflexivity|]. split_and!.
    + etrans; [exact S1|]. split_and!; try done. cbn. unfold h2. rewrite insert_insert_eq.
      by keep_facts.
    + exact L1.
    + constructor; cbn -[last app]; try done.
      * eapply (linked_send (leases w1) _ x l3) with (A := []); try done; [apply lookup_insert_eq|].
        intros y Hy. unfold h2. by rewrite !lookup_insert_ne.
      * rewrite Hcu. done.
  - destruct (last (a :: A)) as [t|] eqn:Et; [|by apply last_None in Et]. cbn [head].
    pose proof (last_Some_elem _ _ Et) as Hta. assert (t <> x) as Htx by (intros ->; set_solver).
    destruct (linked_lookup _ _ _ t HL) as (lt & Hlt & _); [set_solver|].
    assert (next_pending lt = None) as Hnt.
    { apply last_Some in Et as [P EP]. by rewrite (ack_next _ _ _ P t [] lt HL EP Hlt). }
    unfold link_next. rewrite (put_ok _ t _ lt) by (cbn; unfold h2; by simplify_map_eq). rewrite Hnt.
    cbn [mbind outcome_bind reference]. rewrite (put_ok _ x _ (set_next None l1)) by (cbn; unfold h2; by simplify_map_eq).
    cbn [mbind outcome_bind]. do 2 eexists. split; [reflexivity|]. split_and!.
    + etrans; [exact S1|]. split_and!; try done. cbn. unfold h2. by keep_facts.
    + exact L1.
    + constructor; cbn -[last app]; try done.
      * eapply (linked_send (leases w1) _ x l3); try done; [apply lookup_insert_eq|].
        intros y Hy. rewrite lookup_insert_ne by done. rewrite Et. destruct (decide (y = t)) as [->|].
        -- rewrite lookup_insert_eq, bool_decide_true, Hlt by done. done.
        -- rewrite lookup_insert_ne, bool_decide_false by congruence. unfold h2. by rewrite lookup_insert_ne.
      * by rewrite last_snoc.
      * rewrite Hcu. unfold Zlen. rewrite length_app. cbn [length]. lia.
Qed.

End Sending.

Section Updating.
Context (ok : list event -> event -> bool).

Lemma u32_Zlen {T} (l : list T) : Zlen l < 2 ^ 32 -> u32 (Zlen l) = Zlen l.
Proof. intros. apply u32_small. pose proof (Zlen_nonneg l). lia. Qed.

(** The turns of the loop: [k] leases go from one queue to the other. *)
Lemma send_loop_ok fuel : forall w U A,
  rep w U A -> is_Some (link_to_peer w) -> connected w = true -> (length U <= fuel)%nat -> Zlen A + Zlen U < 2 ^ 32 ->
  exists w' r k, send_loop ok fuel w = Ret (w', r) /\ (k <= length U)%nat /\
    rep w' (drop k U) (A ++ take k U) /\ same_peer w w' /\
    (k = O \/ Zlen A + Z.of_nat k <= max_flying_updates w) /\
    (r = ISC_R_SUCCESS -> k = Nat.min (length U) (Z.to_nat (max_flying_updates w - Zlen A)) /\
       announced (log w') = announced (log w) ++ take k U).
Proof.
  induction fuel as [|fuel IH]; intros w U A R Hk Hc Hf Hz; cbn [send_loop];
    rewrite (rep_unacked _ _ _ R), u32_Zlen, (rep_update_head _ _ _ R) by (pose proof (Zlen_nonneg U); lia).
  - destruct U; [|cbn in Hf; lia]. cbn [head length].
    exists w, ISC_R_SUCCESS, O. rewrite app_nil_r. split; [by destruct (_ <? _)|]. cbn. split_and!; try done; try (by left).
    intros _. by rewrite app_nil_r.
  - destruct (Z.ltb_spec (Zlen A) (max_flying_updates w)) as [Hlt|Hge].
    2: { exists w, ISC_R_SUCCESS, O. rewrite drop_0, app_nil_r. split_and!; try done; try lia; try (by left).
         intros _. rewrite app_nil_r. split; [lia|done]. }
    destruct U as [|x U]; cbn [head].
    { exists w, ISC_R_SUCCESS, O. rewrite !app_nil_r. cbn. split_and!; try done; by left. }
    destruct (send_turn_ok ok w U A x R Hk Hc) as (w1 & r & E & S1 & L1 & R1). rewrite E. cbn [mbind outcome_bind].
    destruct r;
      [|exists w1; eexists; exists O; split; [reflexivity|]; cbn [drop take]; rewrite ?app_nil_r;
        split_and!; try done; try lia; by left..].
    assert (Zlen (A ++ [x]) = Zlen A + 1) as Ea by (unfold Zlen; rewrite length_app; cbn [length]; lia).
    assert (Zlen (x :: U) = Zlen U + 1) as Eu by (rewrite Zlen_cons; lia).
    pose proof S1 as (Sm & Sc & Sk & _ & _).
    destruct (IH w1 U (A ++ [x]) R1) as (w' & r & k & E' & Hle & R' & S' & Hfl & Hs);
      [by apply Sk|congruence|cbn in Hf; lia|lia|].
    exists w', r, (S k). cbn [length drop take]. rewrite <- app_assoc in R'. rewrite Ea, Sm in *.
    split_and!; [done|lia|done|by etrans|right; lia|].
    intros ->. destruct (Hs eq_refl) as [-> Ha]. split; [lia|]. rewrite Ha, L1, <- app_assoc. done.
Qed.

Lemma send_acks_loop_frame q : forall w, exists tq lg,
  send_acks_loop ok w q = with_log (with_toack w tq (pending_acks w)) lg /\ announced lg = announced (log w).
Proof.
  induction q as [|m q IH]; intros w; cbn [send_acks_loop].
  - exists (toack_queue w), (log w). by destruct w.
  - destruct (IH (send_bind_ack ok (with_toack w q (pending_acks w)) m)) as (tq & lg & -> & E).
    unfold send_bind_ack in *. cbn [link_to_peer connected with_toack] in *.
    exists tq, lg. destruct (link_to_peer w), (connected w); (split; [reflexivity|]); rewrite E; try done.
    cbn. rewrite announced_app. cbn. by rewrite app_nil_r.
Qed.

Lemma send_acks_frame w : exists tq n lg,
  (send_acks ok w).1 = with_log (with_toack w tq n) lg /\ announced lg = announced (log w).
Proof.
  unfold send_acks, act. destruct (ok (log w) Commit); cbn [negb fst].
  - destruct (send_acks_loop_frame (toack_queue (with_log w (log w ++ [Commit]))) (with_log w (log w ++ [Commit])))
      as (tq & lg & -> & E). exists [], 0, lg. split; [reflexivity|]. rewrite E. cbn.
    rewrite announced_app. cbn. by rewrite app_nil_r.
  - exists (toack_queue w), (pending_acks w), (log w ++ [Commit]). split; [by destruct w|].
    rewrite announced_app. cbn. by rewrite app_nil_r.
Qed.

(** A link that takes every message takes all the updates. *)
Lemma send_updates_success w U A w' r :
  (forall h e, ok h e = true) -> rep w U A -> is_Some (link_to_peer w) -> connected w = true -> send_updates ok w = Ret (w', r) -> r = ISC_R_SUCCESS.
Proof.
  intros Hok. unfold send_updates. intros R [xid Hk] Hc. rewrite Hk. destruct (send_acks_frame w) as (tq & n & lg & E & _).
  set (w0 := match toack_queue w with [] => w | _ => (send_acks ok w).1 end).
  assert (rep w0 U A /\ is_Some (link_to_peer w0) /\ connected w0 = true) as (R0 & Hk0 & Hc0).
  { unfold w0. destruct (toack_queue w); [by rewrite Hk|]. rewrite E. split_and!; [|cbn; by rewrite Hk|done]. pose proof R as [? ? ? ? ? ?]. by constructor. }
  clearbody w0. clear E R Hk Hc. generalize (size (leases w0)) as fuel. intros fuel. revert w0 U A R0 Hk0 Hc0.
  induction fuel as [|fuel IH]; intros w0 U A R0 Hk0 Hc0; cbn [send_loop]; destruct (_ <? _); try (by intros [= _ <-]).
  - destruct (update_queue_head w0); [done|]. by intros [= _ <-].
  - rewrite (rep_update_head _ _ _ R0). destruct U as [|x U]; cbn [head]; [by intros [= _ <-]|].
    destruct (send_turn_ok ok w0 U A x R0 Hk0 Hc0) as (w1 & r1 & E & S1 & _ & R1). rewrite E. cbn [mbind outcome_bind].
    pose proof (send_turn_success ok _ _ _ _ Hok Hk0 Hc0 E) as ->. destruct S1 as (_ & Ec & Ek & _).
    apply (IH w1 U (A ++ [x])); [done|by apply Ek|by rewrite Ec].
Qed.

Lemma send_updates_spec w U A :
  rep w U A -> connected w = true -> Z.of_nat (size (leases w)) < 2 ^ 32 ->
  exists w' r k, send_updates ok w = Ret (w', r) /\ rep w' (drop k U) (A ++ take k U) /\ same_peer w w' /\
    (k = O \/ Zlen A + Z.of_nat k <= max_flying_updates w) /\
    (r = ISC_R_SUCCESS ->
       k = match link_to_peer w with
           | Some _ => Nat.min (length U) (Z.to_nat (max_flying_updates w - Zlen A))
           | None => O
           end /\
       announced (log w') = announced (log w) ++ take k U).
Proof.
  intros R Hc Hz. unfold send_updates. destruct (link_to_peer w) as [xid|] eqn:Hk.
  2: { exists w, ISC_R_SUCCESS, O. rewrite drop_0, app_nil_r. split_and!; try done; [by left|]. by rewrite app_nil_r. }
  pose proof (linked_size _ _ _ (rep_linked _ _ _ R)) as Hsz.
  assert (exists w0, match toack_queue w with [] => w | _ => (send_acks ok w).1 end = w0 /\ rep w0 U A /\
            announced (log w0) = announced (log w) /\ leases w0 = leases w /\
            link_to_peer w0 = Some xid /\ connected w0 = true /\ max_flying_updates w0 = max_flying_updates w /\
            same_peer w w0)
    as (w0 & -> & R0 & L0 & El & Ek & Ec & Em & S0).
  { eexists. split; [reflexivity|]. destruct (send_acks_frame w) as (tq & n & lg & E & Hlg).
    destruct (toack_queue w); [done|]. rewrite E. split_and!; try done. pose proof R as [? ? ? ? ? ?]. by constructor. }
  destruct (send_loop_ok (size (leases w0)) w0 U A) as (w' & r & k & E & _ & R' & S' & Hfl & Hs);
    [done|eauto|done|rewrite El; lia|unfold Zlen; lia|].
  exists w', r, k. rewrite Em, L0 in *. split_and!; try done. by etrans.
Qed.

End Updating.

(** ** Rescinding *)

(** The leases of a list are linked in its order. *)
Fixpoint path (h : gmap positive lease) (q : list positive) : Prop :=
  match q with
  | [] => True
  | x :: q' => (exists l, h !! x = Some l /\ next_pending l = head q') /\ path h q'
  end.

Lemma linked_path h U A P Q : linked h U A -> A = P ++ Q -> path h Q.
Proof.
  intros HL. revert P. induction Q as [|x Q IH]; intros P E; cbn [path]; [done|]. split.
  - destruct (linked_lookup _ _ _ x HL) as (l & Hl & _); [set_solver|].
    exists l. split; [done|]. by eapply ack_next.
  - apply (IH (P ++ [x])). by rewrite <- app_assoc.
Qed.

Lemma path_insert h q x l : x ∉ q -> path h q -> path (<[x := l]> h) q.
Proof.
  induction q as [|y q IH]; cbn [path]; [done|]. rewrite not_elem_of_cons. intros [? ?] [(l' & ? & ?) ?].
  split; [|by apply IH]. exists l'. by rewrite lookup_insert_ne.
Qed.

Definition rescinded (l : lease) : lease :=
  set_flags (Z.lor (Z.land (flags l) (Z.lnot ON_ACK_QUEUE)) ON_UPDATE_QUEUE) l.

Lemma zap_flags_ok q : forall fuel w,
  NoDup q -> path (leases w) q -> (length q <= fuel)%nat ->
  exists h', zap_flags fuel w (head q) = Ret (with_leases w h') /\
    (forall y, y ∉ q -> h' !! y = leases w !! y) /\
    (forall y, y ∈ q -> h' !! y = rescinded <$> leases w !! y) /\ facts <$> h' = facts <$> leases w.
Proof.
  induction q as [|x q IH]; intros fuel w Hd Hp Hf.
  - exists (leases w). destruct fuel; cbn; (split; [by destruct w|]); set_solver.
  - destruct fuel as [|fuel]; [cbn in Hf; lia|]. apply NoDup_cons in Hd as [Hx Hd].
    destruct Hp as [(l & Hl & Hn) Hp]. cbn [head zap_flags]. rewrite (put_ok _ _ _ _ Hl). cbn [mbind outcome_bind].
    rewrite (get_ok _ x (rescinded l)) by (cbn; by simplify_map_eq). cbn [mbind outcome_bind].
    change (next_pending (rescinded l)) with (next_pending l). rewrite Hn. fold (rescinded l).
    destruct (IH fuel (with_leases w (<[x := rescinded l]> (leases w))) Hd) as (h' & E & Ho & Hi & Hfa);
      [by apply path_insert|cbn in Hf; lia|]. cbn [leases with_leases] in *.
    exists h'. split; [done|]. split_and!.
    + intros y Hy. rewrite not_elem_of_cons in Hy. rewrite Ho by tauto. by rewrite lookup_insert_ne by (intros ->; tauto).
    + intros y Hy. destruct (decide (y = x)) as [->|Hne].
      * rewrite Ho by done. by rewrite lookup_insert_eq, Hl.
      * rewrite Hi by set_solver. by rewrite lookup_insert_ne.
    + rewrite Hfa. by keep_facts.
Qed.

Lemma rescind_updates_spec w U A :
  rep w U A ->
  exists w', rescind_updates w = Ret w' /\ rep w' (A ++ U) [] /\ same_peer w w' /\ log w' = log w.
Proof.
  intros R. pose proof R as [HL Huh Hut Hah Hat Hc]. unfold rescind_updates. rewrite Hat.
  destruct (last A) as [t|] eqn:Et.
  2: { apply last_None in Et as ->. by exists w. }
  pose proof (linked_dup _ _ _ HL) as (Du & Dua & Da)%NoDup_app.
  pose proof (linked_size _ _ _ HL) as Hsz.
  destruct (zap_flags_ok A (size (leases w)) w Da) as (h1 & E & Ho & Hi & Hfa);
    [by eapply (linked_path _ U A [])|lia|].
  rewrite Hah, E. cbn [mbind outcome_bind update_queue_head with_leases]. rewrite Huh.
  pose proof (last_Some_elem _ _ Et) as HtA.
  destruct (linked_lookup _ _ _ t HL) as (lt & Hlt & _); [set_solver|].
  assert (next_pending lt = None) as Hnt.
  { apply last_Some in Et as [P EP]. by rewrite (ack_next _ _ _ P t [] lt HL EP Hlt). }
  assert (h1 !! t = Some (rescinded lt)) as Ht1 by (rewrite Hi by done; by rewrite Hlt).
  assert (forall l, Z.testbit (flags (rescinded l)) 4 = true /\ Z.testbit (flags (rescinded l)) 5 = false) as Hbits.
  { intros l. unfold rescinded. cbn [flags set_flags]. flag_bits. done. }
  destruct U as [|u U]; cbn [head].
  - cbn [mbind outcome_bind]. eexists. split; [reflexivity|]. split_and!; try done.
    constructor; cbn; rewrite ?app_nil_r, ?Hah, ?Hut; try done.
    rewrite <- (app_nil_r A) at 1. eapply (linked_rescind (leases w)); [exact HL|exact Et|done|].
    intros y l Hy Hl. exists (rescinded l). rewrite Hi, Hl by done. destruct (Hbits l). split_and!; try done.
    case_bool_decide; [subst|done]. rewrite Hlt in Hl. by injection Hl as <-.
  - unfold link_next. rewrite (put_ok _ t _ (rescinded lt)) by done. change (next_pending (rescinded lt)) with (next_pending lt).
    rewrite Hnt. cbn [mbind outcome_bind reference]. eexists. split; [reflexivity|]. split_and!; try done.
    + constructor; cbn -[last app]; rewrite ?Hah, ?Hut; try done.
      * eapply (linked_rescind (leases w)); [exact HL|exact Et| |].
        -- intros y Hy. rewrite lookup_insert_ne by (intros ->; done). by apply Ho.
        -- intros y l Hy Hl. destruct (decide (y = t)) as [->|Hyt].
           ++ exists (set_next (Some u) (rescinded lt)). rewrite lookup_insert_eq, bool_decide_true by done.
              destruct (Hbits lt). done.
           ++ exists (rescinded l). rewrite lookup_insert_ne, Hi, Hl, bool_decide_false by done. destruct (Hbits l). done.
      * by destruct A.
      * rewrite last_app. destruct (last (u :: U)) eqn:El; [done|by apply last_None in El].
    + split_and!; try done. cbn. rewrite <- Hfa. by keep_facts.
Qed.

(** ** Update requests *)

(** The leases of the pools, each with the number of its queue. *)
Fixpoint pool_entries (i : nat) (p : list (list positive)) : list (nat * positive) :=
  match p with [] => [] | q :: p' => map (pair i) q ++ pool_entries (S i) p' end.

Definition entries (ps : list (list (list positive))) : list (nat * positive) := concat (map (pool_entries 0) ps).

(** Is the peer to be told of a lease of the [i]-th queue? *)
Definition untold (everythingp : bool) (i : nat) (l : lease) : bool :=
  everythingp || (atsfp l <? tstp l) || bool_decide (i = EXPIRED_LEASES).

Section Requests.
Context (ok : list event -> event -> bool) (everythingp : bool).

Fixpoint generate_entries (es : list (nat * positive)) (w : state) : outcome state :=
  match es with
  | [] => Ret w
  | (i, x) :: es' => w ← generate_one ok everythingp i w x; generate_entries es' w
  end.

Lemma generate_entries_app es1 es2 w :
  generate_entries (es1 ++ es2) w = (w ← generate_entries es1 w; generate_entries es2 w).
Proof.
  revert w. induction es1 as [|[i x] es1 IH]; intros w; cbn [app generate_entries]; [done|].
  destruct (generate_one ok everythingp i w x); [|done..]. apply IH.
Qed.

Lemma generate_flat ps w : generate_update_queue ok everythingp ps w = generate_entries (entries ps) w.
Proof.
  assert (forall q i w, generate_queue ok everythingp i q w = generate_entries (map (pair i) q) w) as Hq.
  { induction q as [|x q IH]; intros i w0; cbn; [done|]. destruct (generate_one ok everythingp i w0 x); [|done..]. apply IH. }
  assert (forall p i w, generate_pool ok everythingp i p w = generate_entries (pool_entries i p) w) as Hp.
  { induction p as [|q p IH]; intros i w0; cbn [generate_pool pool_entries]; [done|]. rewrite generate_entries_app, <- Hq.
    destruct (generate_queue ok everythingp i q w0); [|done..]. apply IH. }
  revert w. induction ps as [|p ps IH]; intros w; cbn [generate_update_queue]; [done|].
  unfold entries in *. cbn [map concat]. rewrite generate_entries_app, <- Hp.
  destruct (generate_pool ok everythingp 0 p w); [|done..]. apply IH.
Qed.

(** The leases of [es] exist and belong to this peer. *)
Definition configured (w : state) (es : list (nat * positive)) : Prop :=
  forall i x, (i, x) ∈ es -> exists l, leases w !! x = Some l /\ peered l = true.

Lemma configured_same w w' es : same_peer w w' -> configured w es -> configured w' es.
Proof.
  intros S H i x Hx. destruct (H i x Hx) as (l & Hl & Hp).
  destruct (same_peer_is_Some w w' x S ltac:(eauto)) as [l' Hl']. exists l'. split; [done|].
  destruct (same_peer_lookup w w' x l' S Hl') as (l0 & Hl0 & Ef). unfold facts in Ef. congruence.
Qed.

Lemma untold_same i l l' : facts l' = facts l -> untold everythingp i l' = untold everythingp i l.
Proof. unfold untold, facts. intros E. injection E as -> -> _ _. done. Qed.

(** One lease is queued when it is on no queue and the peer is to be told. *)
Lemma generate_one_ok w U A i x l :
  rep w U A -> leases w !! x = Some l -> peered l = true ->
  exists w', generate_one ok everythingp i w x = Ret w' /\ same_peer w w' /\ announced (log w') = announced (log w) /\
    if bool_decide (x ∉ U ++ A) && untold everythingp i l then rep w' (U ++ [x]) A else w' = w.
Proof.
  intros R Hl Hp. unfold generate_one. rewrite (get_ok _ _ _ Hl). cbn [mbind outcome_bind].
  destruct (linked_node _ _ _ (rep_linked _ _ _ R) x l Hl) as (_ & B4 & B5).
  rewrite on_queue_bit, B4, B5. fold (untold everythingp i l).
  assert (negb (bool_decide (x ∈ U)) && negb (bool_decide (x ∈ A)) = bool_decide (x ∉ U ++ A)) as ->.
  { rewrite <- !bool_decide_not, <- bool_decide_and. apply bool_decide_ext. rewrite elem_of_app. tauto. }
  destruct (bool_decide_reflect (x ∉ U ++ A)) as [Hx|Hx]; [|by exists w]. cbn [andb].
  destruct (untold everythingp i l); [|by exists w].
  rewrite (put_ok _ _ _ _ Hl). cbn [mbind outcome_bind].
  set (w1 := with_leases w _).
  assert (rep w1 U A) as R1.
  { pose proof R as [HL ? ? ? ? ?]. constructor; try done. by apply (linked_frame _ U A x l (set_desired (binding_state l))). }
  destruct (queue_update_spec ok w1 U A x (set_desired (binding_state l) l)) as (w2 & E & S2 & H2);
    [done|cbn; by simplify_map_eq|done|].
  rewrite bool_decide_false in H2 by set_solver. rewrite remove_from_notin in H2 by set_solver.
  exists w2. split_and!; try done; [|by apply queue_update_announced in E]. etrans; [|exact S2]. split_and!; try done. by keep_facts.
Qed.

Lemma generate_entries_ok es : forall w U A,
  rep w U A -> configured w es ->
  exists w' V, generate_entries es w = Ret w' /\ rep w' (U ++ V) A /\ same_peer w w' /\ announced (log w') = announced (log w) /\ V `sublist_of` es.*2 /\
    forall x, x ∈ V <-> x ∉ U ++ A /\ exists i l, (i, x) ∈ es /\ leases w !! x = Some l /\ untold everythingp i l = true.
Proof.
  induction es as [|[i x] es IH]; intros w U A R Hc; cbn [generate_entries].
  { exists w, []. rewrite app_nil_r. split_and!; try done. set_solver. }
  destruct (Hc i x) as (l & Hl & Hp); [set_solver|].
  destruct (generate_one_ok w U A i x l R Hl Hp) as (w1 & E & S1 & L1 & H1). rewrite E. cbn [mbind outcome_bind].
  assert (configured w1 es) as Hc1 by (eapply configured_same; [done|]; intros j y Hy; apply (Hc j y); set_solver).
  assert (forall y j, (exists l, leases w1 !! y = Some l /\ untold everythingp j l = true) <->
                      (exists l, leases w !! y = Some l /\ untold everythingp j l = true)) as Hun.
  { intros y j. split; intros (l1 & Hl1 & Hu).
    - destruct (same_peer_lookup _ _ _ _ S1 Hl1) as (l2 & Hl2 & Ef). exists l2. by rewrite <- (untold_same j l2 l1).
    - destruct (same_peer_is_Some w w1 y S1 ltac:(eauto)) as [l2 Hl2].
      destruct (same_peer_lookup _ _ _ _ S1 Hl2) as (l3 & Hl3 & Ef). exists l2. split; [done|].
      rewrite (untold_same j l3 l2) by done. congruence. }
  destruct (bool_decide_reflect (x ∉ U ++ A)) as [Hx|Hx]; cbn [andb] in H1; [destruct (untold everythingp i l) eqn:Hu|].
  - destruct (IH w1 (U ++ [x]) A H1 Hc1) as (w' & V & E' & R' & S' & L' & Hsub & HV).
    exists w', (x :: V). rewrite <- app_assoc in R'. split_and!; [done|done|by etrans|congruence|by constructor|].
    intros y. rewrite elem_of_cons, HV. split.
    + intros [->|(Hy & j & l1 & Hj & Hl1)]; [split; [done|]; exists i, l; set_solver|].
      split; [set_solver|]. destruct (proj1 (Hun y j) (ex_intro _ l1 Hl1)) as (l2 & Hl2). exists j, l2. set_solver.
    + intros (Hy & j & l1 & Hj & Hl1). destruct (decide (y = x)) as [->|Hne]; [by left|right].
      split; [set_solver|]. destruct (proj2 (Hun y j) (ex_intro _ l1 Hl1)) as (l2 & Hl2). exists j, l2.
      split; [set_solver|done].
  - subst w1. destruct (IH w U A R Hc1) as (w' & V & E' & R' & S' & L' & Hsub & HV).
    exists w', V. split_and!; [done|done|done|done|by constructor|].
    intros y. rewrite HV. split; intros (Hy & j & l1 & Hj & Hl1 & Hu1); (split; [done|]); exists j, l1; [set_solver|].
    apply elem_of_cons in Hj as [[= -> ->]|Hj]; [congruence|done].
  - subst w1. destruct (IH w U A R Hc1) as (w' & V & E' & R' & S' & L' & Hsub & HV).
    exists w', V. split_and!; [done|done|done|done|by constructor|].
    intros y. rewrite HV. split; intros (Hy & j & l1 & Hj & Hl1); (split; [done|]); exists j, l1; [set_solver|].
    apply elem_of_cons in Hj as [[= -> ->]|Hj]; [tauto|done].
Qed.

(** C28: An update request of the peer, while there is a link and the connection is up, with
    the leases of the pools known and fewer than 2^32 of them, queues behind the leases that
    wait already, in the order of the pools, exactly the leases on no queue that the peer
    has not acknowledged (all of them for a request of everything, and the expired ones
    always), and starts sending: the oldest leases of the queue go, in order, to the end of
    the ack queue, never so many that more are in flight than the peer accepts, and, if the
    link and the files take everything, as many as it accepts, each of them announced to the
    peer in this order.  The last lease queued is remembered as the one whose ack ends the
    update, with the number of the request; when nothing is queued, the update is declared
    done at once. *)
Theorem process_update_request_refines ps xid w U A :
  rep w U A -> configured w (entries ps) -> connected w = true -> is_Some (link_to_peer w) ->
  Z.of_nat (size (leases w)) < 2 ^ 32 ->
  exists w' V k, process_update_request ok everythingp ps xid w = Ret w' /\
    rep w' (drop k (U ++ V)) (A ++ take k (U ++ V)) /\ V `sublist_of` (entries ps).*2 /\
    (forall x, x ∈ V <-> x ∉ U ++ A /\
       exists i l, (i, x) ∈ entries ps /\ leases w !! x = Some l /\ untold everythingp i l = true) /\
    send_update_done w' = last (U ++ V) /\
    updxid w' = (if bool_decide (U ++ V = []) then u32 (xid - 1) else xid) /\
    (U ++ V = [] -> Upddone xid ∈ log w') /\
    (k = O \/ Zlen A + Z.of_nat k <= max_flying_updates w) /\
    ((forall h e, ok h e = true) ->
       k = Nat.min (length (U ++ V)) (Z.to_nat (max_flying_updates w - Zlen A)) /\
       announced (log w') = announced (log w) ++ take k (U ++ V)).
Proof.
  intros R Hc Hconn Hlink Hz. unfold process_update_request.
  set (w0 := with_done w None (updxid w)). rewrite generate_flat.
  assert (rep w0 U A) as R0 by (pose proof R as [? ? ? ? ? ?]; by constructor).
  destruct (generate_entries_ok (entries ps) w0 U A R0 Hc) as (w1 & V & -> & R1 & S1 & L1 & Hsub & HV).
  pose proof S1 as (Sm & Sc & Sk & Sf & _). change (max_flying_updates w0) with (max_flying_updates w) in Sm. cbn [mbind outcome_bind update_queue_tail with_done].
  rewrite (rep_update_tail _ _ _ R1). destruct (last (U ++ V)) as [t|] eqn:Et.
  - set (w2 := with_done _ (Some t) _).
    assert (rep w2 (U ++ V) A) as R2 by (pose proof R1 as [? ? ? ? ? ?]; by constructor).
    assert (size (leases w2) = size (leases w)) as Esz.
    { rewrite <- (map_size_fmap facts (leases w2)), <- (map_size_fmap facts (leases w)). f_equal. exact Sf. }
    destruct (send_updates_spec ok w2 (U ++ V) A) as (w' & r & k & E & R' & S' & Hb & Hs);
      [done|by rewrite <- Hconn|by rewrite Esz|].
    assert (is_Some (link_to_peer w2)) as Hk2 by (by apply Sk). change (max_flying_updates w2) with (max_flying_updates w1) in Hb, Hs. rewrite Sm in Hb, Hs.
    assert ((forall h e, ok h e = true) -> k = Nat.min (length (U ++ V)) (Z.to_nat (max_flying_updates w - Zlen A)) /\
       announced (log w') = announced (log w) ++ take k (U ++ V)) as Hall.
    { intros Hok. destruct Hs as [Hk3 Ha]; [by apply (send_updates_success ok w2 (U ++ V) A w' r); [..|rewrite <- Hconn|]|].
      destruct Hk2 as [? Hk2]. rewrite Hk2 in Hk3. split; [done|]. rewrite Ha. f_equal. exact L1. }
    rewrite E. exists w', V, k. destruct S' as (_ & _ & _ & _ & -> & ->).
    assert (U ++ V <> []) as Hne by (intros H; by rewrite H in Et).
    rewrite bool_decide_false by done. split_and!; try done.
  - apply last_None in Et. exists (send_update_done_msg ok (with_done w1 (send_update_done w1) xid)), V, O.
    rewrite Et in *. cbn [drop take]. rewrite app_nil_r, bool_decide_true by done.
    unfold send_update_done_msg. cbn [link_to_peer connected with_done].
    destruct (proj2 Sk Hlink) as [k Hk]. rewrite Hk, Sc. change (connected w0) with (connected w). rewrite Hconn.
    split_and!; try done.
    + pose proof R1 as [? ? ? ? ? ?]. by constructor.
    + cbn. destruct S1 as (_ & _ & _ & _ & -> & _). done.
    + intros _. cbn. set_solver.
    + by left.
    + intros _. cbn. rewrite !announced_app, !app_nil_r. done.
Qed.

End Requests.

(** ** What the messages say *)

(** A reserved lease that the primary has free is announced as free, not in the
    state [transmit_state] the function computes for it. *)
Theorem reserved_lease_not_toggled ok w x l xid :
  leases w !! x = Some l -> link_to_peer w = Some xid -> connected w = true -> i_am w = primary ->
  Z.land (flags l) RESERVED_LEASE <> 0 -> desired_binding_state l = FTS_FREE ->
  transmit_state (i_am w) l = FTS_BACKUP /\
  exists w' r x' f, send_bind_update ok w x = Ret (w', r) /\ last (log w') = Some (Bndupd x' x FTS_FREE f).
Proof.
  intros Hl Hk Hc Hi Hr Hd. split.
  { unfold transmit_state. by rewrite (proj2 (Z.eqb_neq _ _) Hr), Hi, Hd. }
  unfold send_bind_update. rewrite Hk, Hc, (put_ok _ _ _ _ Hl). cbn [mbind outcome_bind].
  rewrite (get_ok _ x (set_xid (if xid =? 0 then 1 else xid) l)) by (cbn; by simplify_map_eq). cbn [mbind outcome_bind].
  case_bool_decide.
  - erewrite put_ok by (cbn; apply lookup_insert_eq). do 4 eexists. split; [reflexivity|]. cbn. by rewrite last_snoc, Hd.
  - do 4 eexists. split; [reflexivity|]. cbn. by rewrite last_snoc, Hd.
Qed.

(** It tests the number of the option and not its bit: a potential expiry that
    is there is not taken, and the zero of one that is not there is. *)
Theorem ack_expiry_wrong_bit e l :
  ack_expiry FTB_POTENTIAL_EXPIRY e l = tstp l /\ ack_expiry FTB_CLIENT_IDENTIFIER 0 l = 0.
Proof. done. Qed.

(** queueing an update puts the lease at the end of the update queue, off
    the ack queue if it was on it, and does nothing to a lease that already
    waits; no other lease moves. *)
Theorem queue_update_refines ok w U A x l :
  rep w U A -> leases w !! x = Some l -> peered l = true ->
  exists w', queue_update ok w x false = Ret w' /\ same_peer w w' /\
    if bool_decide (x ∈ U) then w' = w else rep w' (U ++ [x]) (remove_from x A).
Proof. apply queue_update_spec. Qed.

(** C15: rescinding puts the unacknowledged leases, in their order, before those
    that wait, with none left on the ack queue and none in flight; nothing is
    sent or written. *)
Theorem rescind_updates_refines w U A :
  rep w U A ->
  exists w', rescind_updates w = Ret w' /\ rep w' (A ++ U) [] /\ same_peer w w' /\ log w' = log w.
Proof. apply rescind_updates_spec. Qed.

(** C14: sending updates moves the oldest leases of the update queue, in order, to
    the end of the ack queue, never more than the peer accepts in flight; when
    the link takes the messages it moves as many as are allowed, and exactly
    these leases are announced to the peer, in the same order.  The loop ends. *)
Theorem send_updates_refines ok w U A :
  rep w U A -> connected w = true -> Z.of_nat (size (leases w)) < 2 ^ 32 ->
  exists w' r k, send_updates ok w = Ret (w', r) /\ rep w' (drop k U) (A ++ take k U) /\ same_peer w w' /\
    (k = O \/ Zlen A + Z.of_nat k <= max_flying_updates w) /\
    (r = ISC_R_SUCCESS ->
       k = match link_to_peer w with
           | Some _ => Nat.min (length U) (Z.to_nat (max_flying_updates w - Zlen A))
           | None => O
           end /\
       announced (log w') = announced (log w) ++ take k U).
Proof. apply send_updates_spec. Qed.

(** ** Examples *)

#[global] Instance node_ok_dec U A x l : Decision (node_ok U A x l).
Proof. unfold node_ok. apply _. Defined.

(** [linked] by evaluation. *)
Lemma linked_eval h U A :
  NoDup (U ++ A) -> Forall (fun x => is_Some (h !! x)) (U ++ A) -> map_Forall (fun x l => node_ok U A x l) h ->
  linked h U A.
Proof. intros Hd Hi Hn. constructor; [done| |done]. intros x Hx. by eapply Forall_forall in Hi. Qed.

(** A primary with the lease 1 waiting, 2 and 3 sent, and 4 on no queue. *)
Definition four_leases : gmap positive lease :=
  {[ 1%positive := Lease None 16 0 FTS_ACTIVE FTS_ACTIVE FTS_FREE 900 0 true;
     2%positive := Lease (Some 3%positive) 32 7 FTS_ACTIVE FTS_ACTIVE FTS_ACTIVE 900 0 true;
     3%positive := Lease None 36 8 FTS_FREE FTS_FREE FTS_FREE 900 0 true;
     4%positive := Lease None 0 0 FTS_EXPIRED FTS_EXPIRED FTS_ACTIVE 500 500 true ]}.

Definition state4 : state :=
  State primary four_leases (Some 1%positive) (Some 1%positive) (Some 2%positive) (Some 3%positive) 2 10
    (Some 9) true [5] 1 None 0 [].

Definition all_ok (_ : list event) (_ : event) : bool := true.

Lemma state4_rep : rep state4 [1%positive] [2%positive; 3%positive].
Proof. constructor; try done. apply linked_eval; decide_true. Qed.

Lemma queue_update_refines_witness :
  exists w', queue_update all_ok state4 2 false = Ret w' /\ same_peer state4 w' /\
    rep w' [1%positive; 2%positive] [3%positive].
Proof.
  apply (queue_update_refines all_ok state4 [1%positive] [2%positive; 3%positive] 2%positive
           (Lease (Some 3%positive) 32 7 FTS_ACTIVE FTS_ACTIVE FTS_ACTIVE 900 0 true) state4_rep);
    reflexivity.
Defined.

Lemma send_updates_refines_witness :
  exists w' r k, send_updates all_ok state4 = Ret (w', r) /\
    rep w' (drop k [1%positive]) ([2%positive; 3%positive] ++ take k [1%positive]) /\
    (r = ISC_R_SUCCESS -> k = 1%nat).
Proof.
  destruct (send_updates_refines all_ok state4 [1%positive] [2%positive; 3%positive] state4_rep)
    as (w' & r & k & E & R & _ & _ & H); [reflexivity|reflexivity|].
  exists w', r, k. split; [exact E|]. split; [exact R|]. intros Hr. exact (proj1 (H Hr)).
Defined.

Lemma rescind_updates_refines_witness :
  exists w', rescind_updates state4 = Ret w' /\ rep w' [2%positive; 3%positive; 1%positive] [] /\
    same_peer state4 w' /\ log w' = [].
Proof. apply (rescind_updates_refines state4 [1%positive] [2%positive; 3%positive] state4_rep). Defined.

Definition pools4 : list (list (list positive)) :=
  [[[3%positive]; [1%positive; 2%positive]; [4%positive]; []; []; []]].

Lemma process_update_request_refines_witness :
  exists w' V k, process_update_request all_ok false pools4 77 state4 = Ret w' /\
    rep w' (drop k ([1%positive] ++ V)) ([2%positive; 3%positive] ++ take k ([1%positive] ++ V)) /\
    send_update_done w' = last ([1%positive] ++ V) /\
    k = Nat.min (length ([1%positive] ++ V)) 8 /\ announced (log w') = take k ([1%positive] ++ V).
Proof.
  destruct (process_update_request_refines all_ok false pools4 77 state4 [1%positive] [2%positive; 3%positive] state4_rep)
    as (w' & V & k & E & R & _ & _ & H & _ & _ & _ & Hs).
  - intros i x Hx. vm_compute in Hx. repeat (apply elem_of_cons in Hx as [[= -> ->]|Hx]; [eexists; split; reflexivity|]).
    by apply elem_of_nil in Hx.
  - reflexivity.
  - vm_compute. eauto.
  - reflexivity.
  - exists w', V, k. split; [exact E|]. split; [exact R|]. split; [exact H|]. exact (Hs (fun _ _ => eq_refl)).
Defined.

End FailoverQueue.
