(* ===== verification/FailoverState.v ===== *)
(** * The failover endpoint (server/failover.c)

    The state machine of a failover server: its own state and what it knows of
    its peer's, how an event moves it from one state to the next, and what each
    state starts.  The update queues are reached through an interface, the class
    [UpdateQueues], which the queues of [FailoverQueue] implement. *)

From Stdlib Require Import ZArith Lia Sorted.
From stdpp Require Import base list numbers option gmap fin_maps.
From S2P Require Import Prelude.
From S2P Require Import FailoverLease.
From S2P Require Import FailoverQueue.
#[local] Open Scope Z_scope.

Module FailoverState.

Export FailoverLease(role(..), service_state_t(..)).
#[local] Existing Instances FailoverLease.role_eq_dec FailoverLease.service_state_eq_dec.

(** [invalid_state] stands for any other octet the peer can send. *)
Inductive failover_state : Type :=
| unknown_state | startup | normal | communications_interrupted | partner_down
| potential_conflict | recover | paused | shut_down | recover_done
| resolution_interrupted | conflict_done | recover_wait
| invalid_state (n : Z).

#[global] Instance failover_state_eq_dec : EqDecision failover_state.
Proof. solve_decision. Defined.

Definition known (s : failover_state) : bool := match s with invalid_state _ => false | _ => true end.

(** ** The update queues, as the endpoint sees them *)

(** [q_waiting]: the update queue is not empty; [q_pending]: one of the queues is
    not.  [q_balance] is [dhcp_failover_pool_balance], [q_pool_check]
    [dhcp_failover_state_pool_check]; [q_take_xid] counts a message on the
    link, and [q_usable] says that the link's outer object is a connection. *)
Class UpdateQueues (Q : Type) : Type := {
  q_waiting : Q -> bool;
  q_pending : Q -> bool;
  q_rescind : Q -> outcome Q;
  q_balance : Q -> outcome Q;
  q_generate : Q -> outcome Q;
  q_flush : Q -> outcome Q;
  q_pool_check : Q -> outcome Q;
  q_linked : Q -> bool;
  q_usable : Q -> bool;
  q_drop_link : Q -> Q;
  q_take_xid : Q -> Q
}.

(** What the queues promise: on well-formed queues every operation returns, and
    leaves well-formed queues; rescinding loses no update. *)
Class UpdateQueuesLaws (Q : Type) `{UpdateQueues Q} (q_ok : Q -> Prop) : Prop := {
  rescind_law q : q_ok q -> exists q', q_rescind q = Ret q' /\ q_ok q' /\ q_pending q' = q_pending q;
  balance_law q : q_ok q -> exists q', q_balance q = Ret q' /\ q_ok q';
  generate_law q : q_ok q -> exists q', q_generate q = Ret q' /\ q_ok q';
  flush_law q : q_ok q -> exists q', q_flush q = Ret q' /\ q_ok q' /\ q_pending q' = q_pending q;
  pool_check_law q : q_ok q -> exists q', q_pool_check q = Ret q' /\ q_ok q';
  drop_link_law q : q_ok q -> q_ok (q_drop_link q);
  take_xid_law q : q_ok q -> q_ok (q_take_xid q)
}.

(** ** The endpoint *)

(** What the code reads and writes of a lease on a pool's expired queue. *)
Record expired_lease : Type := Expired { e_ends : Z; e_tsfp : Z; e_sort_time : Z; e_tiebreaker : Z }.

(** [pool_timer] is the pending timeout of the pool. *)
Record pool : Type := Pool { expired : list expired_lease; next_event_time : Z; pool_timer : option Z }.

Inductive timer_t : Type :=
| T_send_contact | T_timeout | T_startup_timeout | T_keepalive | T_auto_partner_down | T_recover_done.

#[global] Instance timer_eq_dec : EqDecision timer_t.
Proof. solve_decision. Defined.

Inductive updreq_t : Type := No_update | FTM_UPDREQ | FTM_UPDREQALL.

#[global] Instance updreq_eq_dec : EqDecision updreq_t.
Proof. solve_decision. Defined.

(** The messages of this file: the state, with the startup flag and the time it
    was entered, and the two update requests. *)
Inductive message : Type :=
| Msg_state (s : failover_state) (starting : bool) (stos : Z)
| Msg_updreq
| Msg_updreqall.

Inductive isc_result : Type := ISC_R_SUCCESS | ISC_R_IOERROR | DHCP_R_INVALIDARG | ISC_R_FAILURE.

Section Endpoint.
Context {Q : Type} `{UQ : UpdateQueues Q}.

Record endpoint : Type := Endpoint {
  i_am : role;
  me_state : failover_state;
  me_stos : Z;
  saved_state : failover_state;
  partner_state : failover_state;
  partner_stos : Z;
  service_state : service_state_t;
  mclt : Z;
  auto_partner_down : Z;
  curUPD : updreq_t;
  queues : Q;
  pools : list pool;
  timers : timer_t -> option Z;
  sent : list message;
  writes : nat       (** how often the state was recorded *)
}.

Definition with_me (s : endpoint) (st : failover_state) (stos : Z) (saved : failover_state) : endpoint :=
  Endpoint (i_am s) st stos saved (partner_state s) (partner_stos s) (service_state s) (mclt s)
    (auto_partner_down s) (curUPD s) (queues s) (pools s) (timers s) (sent s) (writes s).
Definition with_partner (s : endpoint) (st : failover_state) (stos : Z) : endpoint :=
  Endpoint (i_am s) (me_state s) (me_stos s) (saved_state s) st stos (service_state s) (mclt s)
    (auto_partner_down s) (curUPD s) (queues s) (pools s) (timers s) (sent s) (writes s).
Definition with_service (s : endpoint) (v : service_state_t) : endpoint :=
  Endpoint (i_am s) (me_state s) (me_stos s) (saved_state s) (partner_state s) (partner_stos s) v (mclt s)
    (auto_partner_down s) (curUPD s) (queues s) (pools s) (timers s) (sent s) (writes s).
Definition with_curUPD (s : endpoint) (u : updreq_t) : endpoint :=
  Endpoint (i_am s) (me_state s) (me_stos s) (saved_state s) (partner_state s) (partner_stos s) (service_state s)
    (mclt s) (auto_partner_down s) u (queues s) (pools s) (timers s) (sent s) (writes s).
Definition with_queues (s : endpoint) (q : Q) : endpoint :=
  Endpoint (i_am s) (me_state s) (me_stos s) (saved_state s) (partner_state s) (partner_stos s) (service_state s)
    (mclt s) (auto_partner_down s) (curUPD s) q (pools s) (timers s) (sent s) (writes s).
Definition with_pools (s : endpoint) (ps : list pool) : endpoint :=
  Endpoint (i_am s) (me_state s) (me_stos s) (saved_state s) (partner_state s) (partner_stos s) (service_state s)
    (mclt s) (auto_partner_down s) (curUPD s) (queues s) ps (timers s) (sent s) (writes s).
Definition with_timer (s : endpoint) (t : timer_t) (at_time : option Z) : endpoint :=
  Endpoint (i_am s) (me_state s) (me_stos s) (saved_state s) (partner_state s) (partner_stos s) (service_state s)
    (mclt s) (auto_partner_down s) (curUPD s) (queues s) (pools s)
    (fun t' => if bool_decide (t' = t) then at_time else timers s t') (sent s) (writes s).
Definition with_sent (s : endpoint) (m : message) : endpoint :=
  Endpoint (i_am s) (me_state s) (me_stos s) (saved_state s) (partner_state s) (partner_stos s) (service_state s)
    (mclt s) (auto_partner_down s) (curUPD s) (q_take_xid (queues s)) (pools s) (timers s) (sent s ++ [m]) (writes s).
Definition with_write (s : endpoint) : endpoint :=
  Endpoint (i_am s) (me_state s) (me_stos s) (saved_state s) (partner_state s) (partner_stos s) (service_state s)
    (mclt s) (auto_partner_down s) (curUPD s) (queues s) (pools s) (timers s) (sent s) (S (writes s)).

(** [cancel_timeout] and [add_timeout]. *)
Definition cancel (s : endpoint) (t : timer_t) : endpoint := with_timer s t None.
Definition arm (s : endpoint) (t : timer_t) (at_time : Z) : endpoint := with_timer s t (Some at_time).

(** Apply an operation of the queues. *)
Definition on_queues (s : endpoint) (f : Q -> outcome Q) : outcome endpoint :=
  q ← f (queues s); Ret (with_queues s q).

(** Whether the [n]-th [write_failover_state] and the commit after it succeed,
    and whether the [n]-th update request can be put on the link. *)
Context (recorded : nat -> bool) (put_ok : nat -> bool).
Context (cur_time : Z).

(** ** Messages *)

(** [dhcp_failover_send_state] *)
Definition send_state (s : endpoint) : endpoint * isc_result :=
  if q_linked (queues s) && q_usable (queues s) then
    (with_sent s (Msg_state (if bool_decide (me_state s = startup) then saved_state s else me_state s)
                    (bool_decide (service_state s = service_startup)) (me_stos s)), ISC_R_SUCCESS)
  else (s, DHCP_R_INVALIDARG).

(** [dhcp_failover_send_update_request_all] *)
Definition send_update_request_all (s : endpoint) : endpoint * isc_result :=
  if q_linked (queues s) && q_usable (queues s) then
    (with_curUPD (with_sent s Msg_updreqall) FTM_UPDREQALL,
     if put_ok (length (sent s)) then ISC_R_SUCCESS else ISC_R_FAILURE)
  else (s, DHCP_R_INVALIDARG).

(** [dhcp_failover_send_update_request] *)
Definition send_update_request (s : endpoint) : endpoint * isc_result :=
  if q_linked (queues s) && q_usable (queues s) then
    if bool_decide (curUPD s = FTM_UPDREQALL) then send_update_request_all s
    else (with_curUPD (with_sent s Msg_updreq) FTM_UPDREQ,
          if put_ok (length (sent s)) then ISC_R_SUCCESS else ISC_R_FAILURE)
  else (s, DHCP_R_INVALIDARG).

(** ** Service states *)

(** [dhcp_failover_set_service_state], without the printable reason. *)
Definition set_service_state (s : endpoint) : outcome endpoint :=
  mine ← match me_state s with
         | partner_down => Ret service_partner_down
         | normal => Ret cooperating
         | communications_interrupted => Ret not_cooperating
         | startup => Ret service_startup
         | unknown_state | resolution_interrupted | potential_conflict | conflict_done
         | recover | shut_down | paused | recover_wait | recover_done => Ret not_responding
         | invalid_state _ => Fatal
         end;
  Ret (with_service s
    (if bool_decide (mine <> not_responding) then
       match partner_state s with
       | partner_down | potential_conflict | conflict_done | resolution_interrupted => not_responding
       | _ => mine
       end
     else mine)).

(** ** State transitions *)

Definition LONG_MAX : Z := 2 ^ 63 - 1.

(** Entering partner-down: the leases of an expired queue. *)
Fixpoint delay_expired (until tiebreaker : Z) (q : list expired_lease) : list expired_lease :=
  match q with
  | [] => []
  | l :: q' =>
    Expired (e_ends l) until (if e_ends l <? until then until else e_ends l) tiebreaker
      :: delay_expired until (if tiebreaker =? LONG_MAX then tiebreaker else tiebreaker + 1) q'
  end.

Definition delay_pool (until : Z) (p : pool) : pool :=
  let q := delay_expired until 0 (expired p) in
  match q with
  | l :: _ => if e_sort_time l <? next_event_time p then Pool q (e_sort_time l) (Some (e_sort_time l))
              else Pool q (next_event_time p) (pool_timer p)
  | [] => Pool q (next_event_time p) (pool_timer p)
  end.

(** What a state starts when it is entered; [recover_done'] is
    [dhcp_failover_recover_done].  The time of its timeout is cast to [int]. *)
Definition enter (recover_done' : endpoint -> outcome endpoint) (s : endpoint) (new_state : failover_state)
  : outcome endpoint :=
  match new_state with
  | communications_interrupted =>
    Ret (if auto_partner_down s =? 0 then s else arm s T_auto_partner_down (cur_time + auto_partner_down s))
  | normal =>
    s ← on_queues s q_balance;
    s ← on_queues s q_generate;
    if q_waiting (queues s) then on_queues s q_flush else Ret s
  | potential_conflict =>
    Ret (if bool_decide (i_am s = primary) || bool_decide (partner_state s = conflict_done)
         then fst (send_update_request s) else s)
  | startup => Ret (arm s T_startup_timeout (cur_time + 15))
  | recover_wait =>
    if cur_time <? me_stos s + mclt s then Ret (arm s T_recover_done (s32 (me_stos s + mclt s))) else recover_done' s
  | recover => Ret (if q_linked (queues s) then fst (send_update_request_all s) else s)
  | partner_down => Ret (with_pools s (map (delay_pool (me_stos s + mclt s)) (pools s)))
  | _ => Ret s
  end.

(** The old state's pending updates. *)
Definition leave (s : endpoint) : outcome endpoint :=
  match me_state s with
  | normal | potential_conflict | partner_down => s ← on_queues s q_rescind; Ret (cancel s T_keepalive)
  | _ => Ret s
  end.

(** [dhcp_failover_set_state], up to the nested call. *)
Definition set_state_with (recover_done' : endpoint -> outcome endpoint) (s : endpoint) (new_state : failover_state)
  : outcome (endpoint * isc_result) :=
  s ← leave s;
  let old_state := me_state s in
  let old_stos := me_stos s in
  let stos := if bool_decide (new_state <> recover_wait) && bool_decide (new_state <> startup)
                 && bool_decide (old_state <> startup)
              then cur_time else old_stos in
  let stos := if bool_decide (new_state = recover) && bool_decide (old_state = shut_down)
                 && bool_decide (partner_state s = partner_down) && negb (q_pending (queues s))
              then cur_time - mclt s else stos in
  let saved := if bool_decide (new_state = startup) && bool_decide (old_state <> startup)
               then old_state else saved_state s in
  let ok := recorded (writes s) in
  let s := with_write (with_me s new_state stos saved) in
  if negb ok then Ret (with_me s old_state old_stos saved, ISC_R_IOERROR)
  else
    let s := if bool_decide (new_state <> startup) && bool_decide (old_state = startup)
             then cancel s T_startup_timeout else s in
    let s := cancel s T_auto_partner_down in
    s ← set_service_state s;
    let s := if q_linked (queues s) then fst (send_state s) else s in
    s ← enter recover_done' s new_state;
    Ret (s, ISC_R_SUCCESS).

(** [dhcp_failover_recover_done]: entering recover-done nests no further. *)
Definition recover_done_entered (s : endpoint) : outcome endpoint :=
  r ← set_state_with Ret s recover_done; Ret (fst r).

Definition set_state (s : endpoint) (new_state : failover_state) : outcome (endpoint * isc_result) :=
  set_state_with recover_done_entered s new_state.

(** A call that ignores the result. *)
Definition move_to (s : endpoint) (new_state : failover_state) : outcome endpoint :=
  r ← set_state s new_state; Ret (fst r).

(** The state behind startup. *)
Definition local_state (s : endpoint) : failover_state :=
  if bool_decide (me_state s = startup) then saved_state s else me_state s.

(** ** Events *)

Inductive event_name : Type := Ev_disconnect | Ev_connect | Ev_startup | Ev_connect_timeout | Ev_other.

Definition disconnect (s : endpoint) : outcome (endpoint * isc_result) :=
  let s := with_queues s (if q_linked (queues s) then q_drop_link (queues s) else queues s) in
  let s := cancel (cancel (cancel s T_send_contact) T_timeout) T_startup_timeout in
  let stay s := if bool_decide (me_state s = startup) then set_state s (saved_state s)
                else Ret (s, ISC_R_SUCCESS) in
  match local_state s with
  | conflict_done => s ← on_queues s q_rescind; stay s
  | communications_interrupted | partner_down | paused | recover | recover_done | recover_wait
  | resolution_interrupted | shut_down => stay s
  | potential_conflict => set_state s resolution_interrupted
  | normal => set_state s communications_interrupted
  | unknown_state => set_state s resolution_interrupted
  | startup | invalid_state _ => Fatal
  end.

(** [dhcp_failover_state_transition] *)
Definition state_transition (s : endpoint) (name : event_name) : outcome (endpoint * isc_result) :=
  match name with
  | Ev_disconnect => disconnect s
  | Ev_connect =>
    match me_state s with
    | communications_interrupted =>
      r ← set_state s normal; s' ← on_queues (fst r) q_flush; Ret (s', snd r)
    | resolution_interrupted => set_state s potential_conflict
    | invalid_state _ => Fatal
    | _ => Ret (send_state s)
    end
  | Ev_startup => r ← set_state s startup; Ret (fst r, ISC_R_SUCCESS)
  | Ev_connect_timeout =>
    match me_state s with
    | normal | recover | recover_wait | recover_done | unknown_state => set_state s communications_interrupted
    | potential_conflict => set_state s resolution_interrupted
    | invalid_state _ => Fatal
    | _ => Ret (s, ISC_R_SUCCESS)
    end
  | Ev_other => Ret (s, DHCP_R_INVALIDARG)
  end.

(** ** The peer's state *)

Definition in_normal (s : endpoint) (new_state : failover_state) : outcome endpoint :=
  match new_state with
  | normal => on_queues s q_pool_check
  | partner_down => move_to s (if bool_decide (me_state s = startup) then recover else potential_conflict)
  | potential_conflict | resolution_interrupted | conflict_done => move_to s shut_down
  | recover | shut_down => move_to s partner_down
  | paused => move_to s communications_interrupted
  | _ => Ret s
  end.

Definition in_recover (s : endpoint) (new_state : failover_state) : outcome endpoint :=
  match new_state with
  | recover | partner_down | communications_interrupted =>
    Ret (if bool_decide (me_state s = recover) then fst (send_update_request_all s) else s)
  | potential_conflict | resolution_interrupted | conflict_done | normal => move_to s potential_conflict
  | shut_down => move_to s partner_down
  | _ => Ret s
  end.

Definition in_potential_conflict (s : endpoint) (previous_state new_state : failover_state) : outcome endpoint :=
  match new_state with
  | normal => move_to s shut_down
  | conflict_done =>
    Ret (if bool_decide (previous_state = potential_conflict) then fst (send_update_request s) else s)
  | recover => move_to s recover
  | shut_down => move_to s partner_down
  | _ => Ret s
  end.

Definition in_conflict_done (s : endpoint) (new_state : failover_state) : outcome endpoint :=
  match new_state with
  | normal | shut_down => move_to s new_state
  | potential_conflict | resolution_interrupted => Ret s
  | _ => Fatal
  end.

Definition in_partner_down (s : endpoint) (startupp : bool) (new_state : failover_state) : outcome endpoint :=
  if startupp then Ret s
  else
    match new_state with
    | recover_done => move_to s normal
    | normal | potential_conflict | partner_down | communications_interrupted
    | resolution_interrupted | conflict_done => move_to s potential_conflict
    | _ => Ret s
    end.

Definition in_communications_interrupted (s : endpoint) (new_state : failover_state) : outcome endpoint :=
  match new_state with
  | recover => move_to s partner_down
  | normal | communications_interrupted | recover_done | recover_wait =>
    s ← on_queues s q_flush; move_to s normal
  | potential_conflict | partner_down | resolution_interrupted | conflict_done => move_to s potential_conflict
  | shut_down => move_to s partner_down
  | _ => Ret s
  end.

Definition in_resolution_interrupted (s : endpoint) (new_state : failover_state) : outcome endpoint :=
  match new_state with
  | normal | recover | potential_conflict | partner_down | communications_interrupted
  | resolution_interrupted | conflict_done | recover_done | recover_wait => move_to s potential_conflict
  | shut_down => move_to s partner_down
  | _ => Ret s
  end.

Definition in_recover_done (s : endpoint) (new_state : failover_state) : outcome endpoint :=
  match new_state with
  | recover_done | normal => move_to s normal
  | shut_down => move_to s partner_down
  | _ => Ret s
  end.

(** The transition that the peer's new state requires. *)
Definition react (s : endpoint) (previous_state new_state : failover_state) (startupp : bool) : outcome endpoint :=
  match local_state s with
  | normal => in_normal s new_state
  | recover => in_recover s new_state
  | potential_conflict => in_potential_conflict s previous_state new_state
  | conflict_done => in_conflict_done s new_state
  | partner_down => in_partner_down s startupp new_state
  | communications_interrupted => in_communications_interrupted s new_state
  | resolution_interrupted => in_resolution_interrupted s new_state
  | recover_done => in_recover_done s new_state
  | recover_wait | shut_down | paused | unknown_state => Ret s
  | startup | invalid_state _ => Fatal
  end.

(** The peer repeats its state: [Some] if nothing else is to be done. *)
Definition repeated (s : endpoint) : outcome (option endpoint) :=
  match me_state s with
  | startup =>
    s ← move_to s (if bool_decide (saved_state s = resolution_interrupted) then potential_conflict else saved_state s);
    Ret (Some s)
  | unknown_state | normal | potential_conflict | recover_done | shut_down | paused | recover_wait => Ret (Some s)
  | partner_down | communications_interrupted | resolution_interrupted | recover | conflict_done => Ret None
  | invalid_state _ => Fatal
  end.

(** [dhcp_failover_peer_state_changed] *)
Definition peer_state_changed (s : endpoint) (new_state : failover_state) (startupp : bool) : outcome endpoint :=
  let previous_state := partner_state s in
  done ← (if bool_decide (partner_state s = new_state) && bool_decide (me_state s <> unknown_state)
          then repeated s else Ret None);
  match done with
  | Some s => Ret s
  | None =>
    let s := with_write (with_partner s new_state cur_time) in
    if negb (known new_state) then move_to s shut_down
    else
      s ← react s previous_state new_state startupp;
      s ← (if bool_decide (me_state s = startup) && bool_decide (saved_state s <> startup)
           then move_to s (saved_state s) else Ret s);
      set_service_state s
  end.

(** ** The end of an update *)

(** [dhcp_failover_process_update_done] *)
Definition process_update_done (s : endpoint) : outcome endpoint :=
  let s := with_curUPD s No_update in
  match me_state s with
  | potential_conflict =>
    if bool_decide (partner_state s = conflict_done) then
      match i_am s with secondary => move_to s normal | primary => move_to s shut_down end
    else
      match i_am s with primary => move_to s conflict_done | secondary => Ret s end
  | recover =>
    if (cur_time <? me_stos s + mclt s) && bool_decide (partner_state s <> recover)
       && bool_decide (partner_state s <> recover_done)
    then
      s ← move_to s recover_wait; Ret (arm s T_recover_done (s32 (me_stos s + mclt s)))
    else recover_done_entered s
  | _ => Ret s
  end.

(** ** Timers that fire *)

Definition startup_timeout (s : endpoint) : outcome endpoint :=
  r ← state_transition (cancel s T_startup_timeout) Ev_disconnect; Ret (fst r).

Definition auto_partner_down_timeout (s : endpoint) : outcome endpoint :=
  move_to (cancel s T_auto_partner_down) partner_down.

Definition recover_done_timeout (s : endpoint) : outcome endpoint :=
  recover_done_entered (cancel s T_recover_done).

End Endpoint.

(** ** Well-formed endpoints *)

(** The service state that goes with the states of the two servers. *)
Definition service_of (me partner : failover_state) : service_state_t :=
  match me with
  | partner_down | normal | communications_interrupted | startup =>
    match partner with
    | partner_down | potential_conflict | conflict_done | resolution_interrupted => not_responding
    | _ =>
      match me with
      | partner_down => service_partner_down
      | normal => cooperating
      | communications_interrupted => not_cooperating
      | _ => service_startup
      end
    end
  | _ => not_responding
  end.

Section Machine.
Context {Q : Type} `{UQ : UpdateQueues Q} (q_ok : Q -> Prop) `{!UpdateQueuesLaws Q q_ok}.
Context (recorded : nat -> bool) (put_ok : nat -> bool).

Record wf (t : Z) (s : endpoint (Q := Q)) : Prop := Wf {
  wf_me : known (me_state s) = true;
  wf_saved : known (saved_state s) = true;
  wf_saved_startup : saved_state s <> startup;
  wf_stos : me_stos s <= t;
  wf_mclt : 0 <= mclt s;
  wf_queues : q_ok (queues s)
}.

(** What a transition does not change. *)
Definition same_pair (s s' : endpoint (Q := Q)) : Prop :=
  i_am s' = i_am s /\ partner_state s' = partner_state s /\ mclt s' = mclt s.

#[global] Instance same_pair_preorder : PreOrder same_pair.
Proof. split; [done|]. unfold same_pair. intros ???. intuition congruence. Qed.

(** [s'] is well-formed, in the same pair, and only the queues, the timers, the
    messages or the like have changed. *)
Record side (t : Z) (s s' : endpoint (Q := Q)) : Prop := Side {
  side_me : me_state s' = me_state s;
  side_stos : me_stos s' = me_stos s;
  side_saved : saved_state s' = saved_state s;
  side_service : service_state s' = service_state s;
  side_pair : same_pair s s';
  side_wf : wf t s -> wf t s'
}.

#[global] Instance side_preorder t : PreOrder (side t).
Proof.
  split; [by constructor|]. intros s1 s2 s3 [? ? ? ? P1 W1] [? ? ? ? P2 W2].
  constructor; try congruence; [by etrans|auto].
Qed.

Lemma side_intro t s s' :
  me_state s' = me_state s -> me_stos s' = me_stos s -> saved_state s' = saved_state s ->
  service_state s' = service_state s -> same_pair s s' -> (q_ok (queues s) -> q_ok (queues s')) -> side t s s'.
Proof.
  intros E1 E2 E3 E4 Hp Hq. constructor; try done. intros [? ? ? ? ? ?]. destruct Hp as (? & ? & Em).
  constructor; rewrite ?E1, ?E2, ?E3, ?Em; auto.
Qed.

Lemma timer_side t s tm v : side t s (with_timer s tm v).
Proof. by apply side_intro. Qed.

Lemma sent_side t s m : side t s (with_sent s m).
Proof. apply side_intro; try done. apply take_xid_law. Qed.

Lemma pools_side t s ps : side t s (with_pools s ps).
Proof. by apply side_intro. Qed.

Lemma curUPD_side t s u : side t s (with_curUPD s u).
Proof. by apply side_intro. Qed.

Lemma write_side t s : side t s (with_write s).
Proof. by apply side_intro. Qed.

Lemma queues_side t s (f : Q -> outcome Q) :
  (forall q, q_ok q -> exists q', f q = Ret q' /\ q_ok q') -> wf t s ->
  exists s', on_queues s f = Ret s' /\ side t s s'.
Proof.
  intros Hf W. destruct (Hf (queues s) (wf_queues _ _ W)) as (q' & E & Hq). unfold on_queues. rewrite E.
  cbn [mbind outcome_bind]. exists (with_queues s q'). split; [done|]. by apply side_intro.
Qed.

Lemma law2 (f : Q -> outcome Q) :
  (forall q, q_ok q -> exists q', f q = Ret q' /\ q_ok q' /\ q_pending q' = q_pending q) ->
  forall q, q_ok q -> exists q', f q = Ret q' /\ q_ok q'.
Proof. intros H q Hq. destruct (H q Hq) as (q' & ? & ? & _). eauto. Qed.

Lemma rescind_side t s : wf t s -> exists s', on_queues s q_rescind = Ret s' /\ side t s s'.
Proof. apply queues_side, law2, rescind_law. Qed.
Lemma flush_side t s : wf t s -> exists s', on_queues s q_flush = Ret s' /\ side t s s'.
Proof. apply queues_side, law2, flush_law. Qed.

Lemma send_state_side t s : side t s (fst (send_state s)).
Proof. unfold send_state. destruct (_ && _); [apply sent_side|done]. Qed.

Lemma send_all_side t s : side t s (fst (send_update_request_all put_ok s)).
Proof. unfold send_update_request_all. destruct (_ && _); [|done]. cbn [fst]. etrans; [apply sent_side|apply curUPD_side]. Qed.

Lemma send_request_side t s : side t s (fst (send_update_request put_ok s)).
Proof.
  unfold send_update_request. destruct (_ && _); [|done]. case_bool_decide; [apply send_all_side|].
  cbn [fst]. etrans; [apply sent_side|apply curUPD_side].
Qed.

Lemma set_service_state_eq (s : endpoint (Q := Q)) :
  known (me_state s) = true -> set_service_state s = Ret (with_service s (service_of (me_state s) (partner_state s))).
Proof. intros Hk. unfold set_service_state. destruct (me_state s); try done; destruct (partner_state s); done. Qed.

(** Since when the endpoint is in its new state: since now, unless it comes from
    or goes to startup, waits to recover, or was shut down properly before. *)
Definition stos_of (t : Z) (s : endpoint (Q := Q)) (new_state : failover_state) : Z :=
  if bool_decide (new_state = recover) && bool_decide (me_state s = shut_down)
     && bool_decide (partner_state s = partner_down) && negb (q_pending (queues s))
  then t - mclt s
  else if bool_decide (new_state <> recover_wait) && bool_decide (new_state <> startup)
          && bool_decide (me_state s <> startup)
  then t else me_stos s.

(** What [set_state] leaves, when the state is recorded and when it is not. *)
Record entered (t : Z) (s s' : endpoint (Q := Q)) (new_state : failover_state) : Prop := Entered {
  entered_wf : wf t s';
  entered_pair : same_pair s s';
  entered_state : (me_state s' = new_state /\ me_stos s' = stos_of t s new_state) \/
                  (new_state = recover_wait /\ me_state s' = recover_done /\ stos_of t s new_state + mclt s <= t);
  entered_service : service_state s' = service_of (me_state s') (partner_state s')
}.

Record refused (t : Z) (s s' : endpoint (Q := Q)) : Prop := Refused {
  refused_wf : wf t s';
  refused_pair : same_pair s s';
  refused_state : me_state s' = me_state s;
  refused_stos : me_stos s' = me_stos s;
  refused_service : service_state s' = service_state s;
  refused_sent : sent s' = sent s
}.

(** The nested call of [recover_done]. *)
Definition nested_ok (t : Z) (f : endpoint (Q := Q) -> outcome (endpoint (Q := Q))) : Prop :=
  forall s, wf t s -> service_state s = service_of (me_state s) (partner_state s) ->
  exists s', f s = Ret s' /\ wf t s' /\ same_pair s s' /\
    ((me_state s' = me_state s /\ me_stos s' = me_stos s) \/ me_state s' = recover_done) /\
    service_state s' = service_of (me_state s') (partner_state s').

Lemma leave_side t s :
  wf t s -> exists s', leave s = Ret s' /\ side t s s' /\ sent s' = sent s /\ writes s' = writes s /\
    q_pending (queues s') = q_pending (queues s).
Proof.
  intros W. unfold leave.
  assert (exists s', (s ← on_queues s q_rescind; Ret (cancel s T_keepalive)) = Ret s' /\ side t s s' /\
            sent s' = sent s /\ writes s' = writes s /\ q_pending (queues s') = q_pending (queues s)) as H.
  { destruct (rescind_law (queues s) (wf_queues _ _ W)) as (q' & E & Hq & Hpe). unfold on_queues. rewrite E.
    cbn [mbind outcome_bind]. eexists. split; [reflexivity|]. split; [|done]. by apply side_intro. }
  destruct (me_state s); try exact H; by exists s.
Qed.

Lemma enter_side t f s new_state :
  nested_ok t f -> wf t s -> me_state s = new_state -> service_state s = service_of (me_state s) (partner_state s) ->
  exists s', enter put_ok t f s new_state = Ret s' /\ wf t s' /\ same_pair s s' /\
    ((me_state s' = new_state /\ me_stos s' = me_stos s) \/ (new_state = recover_wait /\ me_state s' = recover_done /\ me_stos s + mclt s <= t)) /\
    service_state s' = service_of (me_state s') (partner_state s').
Proof.
  intros Hf W Hs Hv.
  assert (forall s', side t s s' -> wf t s' /\ same_pair s s' /\
            ((me_state s' = new_state /\ me_stos s' = me_stos s) \/ (new_state = recover_wait /\ me_state s' = recover_done /\ me_stos s + mclt s <= t)) /\
            service_state s' = service_of (me_state s') (partner_state s')) as Hside.
  { intros s' [E1 E3 _ E2 P Hw]. split_and!; [by apply Hw|done|left; split; congruence|].
    destruct P as (_ & -> & _). by rewrite E1, E2. }
  destruct new_state; cbn [enter]; try (eexists; split; [reflexivity|]; by apply Hside).
  - eexists. split; [reflexivity|]. apply Hside. apply timer_side.
  - destruct (queues_side t s q_balance balance_law W) as (s1 & -> & S1). cbn [mbind outcome_bind].
    destruct (queues_side t s1 q_generate generate_law (side_wf _ _ _ S1 W)) as (s2 & -> & S2). cbn [mbind outcome_bind].
    assert (side t s s2) as S12 by by etrans.
    destruct (q_waiting (queues s2)); [|eexists; split; [reflexivity|]; by apply Hside].
    destruct (flush_side t s2 (side_wf _ _ _ S12 W)) as (s3 & -> & S3). eexists. split; [reflexivity|].
    apply Hside. by etrans.
  - eexists. split; [reflexivity|]. apply Hside. destruct (_ =? 0); [done|apply timer_side].
  - eexists. split; [reflexivity|]. apply Hside. apply pools_side.
  - eexists. split; [reflexivity|]. apply Hside. destruct (_ || _); [apply send_request_side|done].
  - eexists. split; [reflexivity|]. apply Hside. destruct (q_linked _); [apply send_all_side|done].
  - destruct (Z.ltb_spec t (me_stos s + mclt s)); [eexists; split; [reflexivity|]; apply Hside; apply timer_side|].
    destruct (Hf s W Hv) as (s' & E & W' & P' & Hm & Hv'). exists s'. split_and!; try done.
    destruct Hm as [[Hm ?]|Hm]; [left; split; congruence|right; split_and!; done].
Qed.

Lemma set_state_with_ok t f s new_state :
  nested_ok t f -> wf t s -> known new_state = true ->
  exists s' r, set_state_with recorded put_ok t f s new_state = Ret (s', r) /\
    if recorded (writes s) then r = ISC_R_SUCCESS /\ entered t s s' new_state
    else r = ISC_R_IOERROR /\ refused t s s'.
Proof.
  intros Hf W Hk. unfold set_state_with.
  destruct (leave_side t s W) as (s1 & -> & S1 & Hsent & Hwr & Hpe). cbn [mbind outcome_bind]. rewrite Hwr.
  pose proof (side_wf _ _ _ S1 W) as W1. pose proof S1 as [Em Est Esv Eserv P1 _].
  set (stos1 := if _ && _ && _ then t else me_stos s1).
  set (stos2 := if _ && _ && _ && _ then t - mclt s1 else stos1).
  set (saved := if _ && _ then me_state s1 else saved_state s1).
  assert (stos2 = stos_of t s new_state) as Est2.
  { unfold stos2, stos1, stos_of. destruct P1 as (_ & -> & ->). by rewrite Em, Est, Hpe. }
  assert (stos2 <= t) as Hst.
  { unfold stos2, stos1. pose proof (wf_stos _ _ W1). pose proof (wf_mclt _ _ W1).
    repeat match goal with |- context [if ?b then _ else _] => destruct b end; lia. }
  assert (known saved = true /\ saved <> startup) as [Hsv1 Hsv2].
  { unfold saved. match goal with |- context [if ?b then _ else _] => destruct b eqn:E end; [|by destruct W1].
    apply andb_prop in E as [_ E]. apply bool_decide_eq_true in E. split; [apply W1|done]. }
  destruct (recorded (writes s)); cbn [negb].
  2: { do 2 eexists. split; [reflexivity|]. split; [done|]. constructor; cbn; try congruence; try done.
       destruct W1. by constructor. }
  set (s2 := with_write (with_me s1 new_state stos2 saved)).
  assert (wf t s2) as W2 by (destruct W1; by constructor).
  assert (same_pair s s2) as P2 by (etrans; [exact P1|done]).
  set (s3 := if _ && _ then cancel s2 T_startup_timeout else s2).
  assert (side t s2 (cancel s3 T_auto_partner_down)) as S3.
  { etrans; [|apply timer_side]. unfold s3.
    match goal with |- side _ _ (if ?b then _ else _) => destruct b end; [apply timer_side|done]. }
  set (s4 := cancel s3 T_auto_partner_down) in *. pose proof (side_wf _ _ _ S3 W2) as W4.
  pose proof S3 as [Em4 Est4 _ _ P4 _]. assert (me_state s4 = new_state) as Em4' by (rewrite Em4; done).
  rewrite set_service_state_eq by apply W4. cbn [mbind outcome_bind].
  set (s5 := with_service s4 _). assert (wf t s5) as W5 by (destruct W4; by constructor).
  set (s6 := if q_linked (queues s5) then fst (send_state s5) else s5).
  assert (side t s5 s6) as S6 by (unfold s6; destruct (q_linked _); [apply send_state_side|done]).
  pose proof (side_wf _ _ _ S6 W5) as W6. pose proof S6 as [Em6 Est6 _ Ev6 P6 _].
  destruct (enter_side t f s6 new_state Hf W6) as (s7 & -> & W7 & P7 & Hm7 & Hv7).
  { rewrite Em6. exact Em4'. }
  { rewrite Em6, Ev6. destruct P6 as (_ & -> & _). done. }
  cbn [mbind outcome_bind]. do 2 eexists. split; [reflexivity|]. split; [done|].
  constructor; try done; [repeat (etrans; [eassumption|]); done|].
  assert (me_stos s6 = stos_of t s new_state) as Est7.
  { rewrite Est6. change (me_stos s5) with (me_stos s4). rewrite Est4, <- Est2. done. }
  assert (mclt s6 = mclt s) as Em7 by (by destruct P6 as (_ & _ & ->), P4 as (_ & _ & P4), P2 as (_ & _ & <-)).
  rewrite Est7, Em7 in Hm7. exact Hm7.
Qed.

Lemma recover_done_ok t : nested_ok t (recover_done_entered recorded put_ok t).
Proof.
  intros s W Hv. unfold recover_done_entered.
  destruct (set_state_with_ok t Ret s recover_done) as (s' & r & -> & H); [|done|done|].
  { intros s0 W0 Hv0. exists s0. split_and!; try done. by left. }
  cbn [mbind outcome_bind fst]. exists s'. split; [done|]. destruct (recorded (writes s)).
  - destruct H as [_ [W' P' Hm Hv']]. split_and!; try done. right. destruct Hm as [[? _]|[? _]]; done.
  - destruct H as [_ [W' P' Hm Hst Hv' _]]. split_and!; try done; [by left|].
    destruct P' as (_ & -> & _). by rewrite Hm, Hv'.
Qed.

(** C27: a change of state either is recorded, and then the endpoint is in the new
    state (or, when there is no more to wait for, has gone through it to
    recover-done), with the service state that goes with it; or cannot be
    recorded, and then the endpoint is in the state it was in since the same
    time, and has told the peer nothing. *)
Theorem set_state_atomic t s new_state :
  wf t s -> known new_state = true ->
  exists s' r, set_state recorded put_ok t s new_state = Ret (s', r) /\
    if recorded (writes s) then r = ISC_R_SUCCESS /\ entered t s s' new_state
    else r = ISC_R_IOERROR /\ refused t s s'.
Proof. intros W Hk. apply set_state_with_ok; [apply recover_done_ok|done|done]. Qed.

(** ** Events *)

Definition consistent (s : endpoint (Q := Q)) : Prop := service_state s = service_of (me_state s) (partner_state s).

(** A handler's result: well-formed, and, when the states are recorded, with the
    service state that goes with them. *)
Definition handled (t : Z) (s s' : endpoint (Q := Q)) : Prop :=
  wf t s' /\ ((forall n, recorded n = true) -> consistent s -> consistent s').

Lemma handled_trans t s1 s2 s3 : handled t s1 s2 -> handled t s2 s3 -> handled t s1 s3.
Proof. intros [_ H1] [W H2]. split; [done|auto]. Qed.

Lemma handled_side t s s' : wf t s -> side t s s' -> handled t s s'.
Proof.
  intros W [E1 _ _ E2 (_ & E3 & _) Hw]. split; [by apply Hw|]. intros _. unfold consistent. by rewrite E1, E2, E3.
Qed.

Lemma handled_refl t s : wf t s -> handled t s s.
Proof. intros. by apply handled_side. Qed.

Lemma set_state_handled t s new_state :
  wf t s -> known new_state = true ->
  exists s' r, set_state recorded put_ok t s new_state = Ret (s', r) /\ handled t s s' /\ same_pair s s' /\
    ((forall n, recorded n = true) -> entered t s s' new_state) /\
    (me_state s' = me_state s \/ me_state s' = new_state \/ me_state s' = recover_done).
Proof.
  intros W Hk. destruct (set_state_with_ok t _ s new_state (recover_done_ok t) W Hk) as (s' & r & E & H).
  exists s', r. split; [exact E|]. destruct (recorded (writes s)) eqn:Er.
  - destruct H as [_ He]. pose proof He as [W' P' Hm Hv]. split_and!; try done. right. destruct Hm as [[? _]|(_ & ? & _)]; auto.
  - destruct H as [_ [W' P' Hm Hst Hv _]]. split_and!; [split; [done|]|done| |by left]; intros Hrec; by rewrite Hrec in Er.
Qed.

Lemma move_to_handled t s new_state :
  wf t s -> known new_state = true ->
  exists s', move_to recorded put_ok t s new_state = Ret s' /\ handled t s s' /\ same_pair s s' /\
    ((forall n, recorded n = true) -> entered t s s' new_state) /\
    (me_state s' = me_state s \/ me_state s' = new_state \/ me_state s' = recover_done).
Proof.
  intros W Hk. destruct (set_state_handled t s new_state W Hk) as (s' & r & E & H). exists s'.
  unfold move_to. rewrite E. done.
Qed.

Lemma move_to_ok t s new_state :
  wf t s -> known new_state = true -> exists s', move_to recorded put_ok t s new_state = Ret s' /\ handled t s s'.
Proof. intros W Hk. destruct (move_to_handled t s new_state W Hk) as (s' & ? & ? & _). eauto. Qed.

Lemma set_state_ok t s new_state :
  wf t s -> known new_state = true ->
  exists s' r, set_state recorded put_ok t s new_state = Ret (s', r) /\ handled t s s'.
Proof. intros W Hk. destruct (set_state_handled t s new_state W Hk) as (s' & r & ? & ? & _). eauto. Qed.

Lemma ret_ok t s s' : wf t s -> side t s s' -> exists s'', Ret s' = Ret s'' /\ handled t s s''.
Proof. intros W S. exists s'. split; [done|]. by apply handled_side. Qed.

Lemma local_known t s : wf t s -> known (local_state s) = true /\ local_state s <> startup.
Proof.
  intros W. unfold local_state. case_bool_decide; [split; apply W|]. split; [apply W|done].
Qed.

(** The states of the peer that conflict-done is ready for. *)
Definition conflict_done_expects (new_state : failover_state) : bool :=
  match new_state with normal | shut_down | potential_conflict | resolution_interrupted => true | _ => false end.

Lemma flush_then_ok t s new_state :
  wf t s -> known new_state = true ->
  exists s', (s ← on_queues s q_flush; move_to recorded put_ok t s new_state) = Ret s' /\ handled t s s'.
Proof.
  intros W Hk. destruct (flush_side t s W) as (s1 & -> & S1). cbn [mbind outcome_bind].
  destruct (move_to_ok t s1 new_state) as (s2 & E & H2); [by apply (side_wf _ _ _ S1)|done|].
  exists s2. split; [done|]. eapply handled_trans; [by apply handled_side|done].
Qed.

(** Closes the branches of a handler. *)
Ltac handler W :=
  first [ apply move_to_ok; [exact W|done]
        | apply flush_then_ok; [exact W|done]
        | apply ret_ok; [exact W|]; first [done | match goal with |- side _ _ (if ?b then _ else _) => destruct b end;
            first [apply send_all_side | apply send_request_side | done]] ].

Lemma react_ok t s previous_state new_state startupp :
  wf t s -> known new_state = true -> (local_state s = conflict_done -> conflict_done_expects new_state = true) ->
  exists s', react recorded put_ok t s previous_state new_state startupp = Ret s' /\ handled t s s'.
Proof.
  intros W Hk Hc. destruct (local_known t s W) as [Hl1 Hl2]. unfold react.
  destruct (local_state s); try done; try (by apply ret_ok).
  - destruct new_state; try done; cbn [in_normal]; try handler W; [|case_bool_decide; handler W].
    destruct (queues_side t s q_pool_check pool_check_law W) as (s' & -> & S'). exists s'. split; [done|]. by apply handled_side.
  - destruct new_state; try done; cbn [in_communications_interrupted]; handler W.
  - unfold in_partner_down. destruct startupp; [handler W|]. destruct new_state; try done; handler W.
  - destruct new_state; try done; cbn [in_potential_conflict]; handler W.
  - destruct new_state; try done; cbn [in_recover]; handler W.
  - destruct new_state; try done; cbn [in_recover_done]; handler W.
  - destruct new_state; try done; cbn [in_resolution_interrupted]; handler W.
  - specialize (Hc eq_refl). destruct new_state; try done; cbn [in_conflict_done]; handler W.
Qed.

(** A state message of the peer that stops the server. *)
Definition peer_fatal (s : endpoint (Q := Q)) (new_state : failover_state) : bool :=
  bool_decide (local_state s = conflict_done) && known new_state && negb (conflict_done_expects new_state)
  && negb (bool_decide (me_state s = startup) && bool_decide (partner_state s = new_state)).

(** The message is answered at once, or goes on to be recorded. *)
Lemma repeated_ok t s :
  wf t s -> (exists s', repeated recorded put_ok t s = Ret (Some s') /\ handled t s s' /\ me_state s <> conflict_done) \/
            (repeated recorded put_ok t s = Ret None /\ me_state s <> startup).
Proof.
  intros W. pose proof (wf_me _ _ W) as Hk. unfold repeated.
  destruct (me_state s) eqn:Em; try done; try (left; exists s; split_and!; [done|by apply handled_refl|done]); try (by right).
  left. destruct (move_to_ok t s (if bool_decide (saved_state s = resolution_interrupted) then potential_conflict else saved_state s))
    as (s' & -> & H); [done|case_bool_decide; [done|apply W]|]. exists s'. done.
Qed.

(** The rest of the handler, once the peer's state is recorded. *)
Lemma peer_recorded_ok t s previous_state new_state startupp :
  wf t s ->
  let r :=
    if negb (known new_state) then move_to recorded put_ok t s shut_down
    else
      s ← react recorded put_ok t s previous_state new_state startupp;
      s ← (if bool_decide (me_state s = startup) && bool_decide (saved_state s <> startup)
           then move_to recorded put_ok t s (saved_state s) else Ret s);
      set_service_state s in
  if bool_decide (local_state s = conflict_done) && known new_state && negb (conflict_done_expects new_state)
  then r = Fatal
  else exists s', r = Ret s' /\ wf t s' /\ ((forall n, recorded n = true) -> consistent s').
Proof.
  intros W. cbn zeta. destruct (_ && _ && _) eqn:Ef.
  { apply andb_prop in Ef as [[El%bool_decide_eq_true ->]%andb_prop Ex]. cbn [negb]. unfold react. rewrite El.
    destruct new_state; first [discriminate Ex|reflexivity]. }
  destruct (known new_state) eqn:Hk; cbn [negb].
  2: { destruct (move_to_handled t s shut_down W eq_refl) as (s' & E & [W' _] & _ & He & _). exists s'.
       split_and!; try done. intros Hr. apply (He Hr). }
  destruct (react_ok t s previous_state new_state startupp W Hk) as (s1 & -> & [W1 _]).
  { intros El. rewrite bool_decide_true in Ef by done. cbn [andb] in Ef. by apply negb_false_iff in Ef. }
  cbn [mbind outcome_bind].
  assert (exists s2, (if bool_decide (me_state s1 = startup) && bool_decide (saved_state s1 <> startup)
            then move_to recorded put_ok t s1 (saved_state s1) else Ret s1) = Ret s2 /\ wf t s2) as (s2 & -> & W2).
  { match goal with |- exists _, (if ?b then _ else _) = _ /\ _ => destruct b end; [|by exists s1]. destruct (move_to_ok t s1 (saved_state s1) W1) as (s2 & E & [? _]); [apply W1|eauto]. }
  cbn [mbind outcome_bind]. rewrite set_service_state_eq by apply W2. eexists. split; [reflexivity|].
  split; [destruct W2; by constructor|]. done.
Qed.

Lemma peer_state_changed_ok t s new_state startupp :
  wf t s ->
  if peer_fatal s new_state then peer_state_changed recorded put_ok t s new_state startupp = Fatal
  else exists s', peer_state_changed recorded put_ok t s new_state startupp = Ret s' /\ handled t s s'.
Proof.
  intros W. unfold peer_state_changed, peer_fatal.
  set (s1 := with_write (with_partner s new_state t)).
  assert (wf t s1) as W1 by (destruct W; by constructor).
  pose proof (peer_recorded_ok t s1 (partner_state s) new_state startupp W1) as Hcore. cbn zeta in Hcore.
  change (local_state s1) with (local_state s) in Hcore.
  assert (forall (b : bool) (r : outcome (endpoint (Q := Q))),
            (if b then r = Fatal else exists s', r = Ret s' /\ wf t s' /\ ((forall n, recorded n = true) -> consistent s')) ->
            if b then r = Fatal else exists s', r = Ret s' /\ handled t s s') as Hweak.
  { intros [] r Hr; [done|]. destruct Hr as (s' & ? & ? & ?). exists s'. split; [done|]. split; auto. }
  apply Hweak in Hcore. clear Hweak.
  destruct (bool_decide (partner_state s = new_state) && bool_decide (me_state s <> unknown_state)) eqn:Erep.
  - apply andb_prop in Erep as [Ep%bool_decide_eq_true _]. rewrite (bool_decide_true (partner_state s = new_state)) by done.
    rewrite andb_true_r. destruct (repeated_ok t s W) as [(s' & -> & Hh & Hnc)|[-> Hns]]; cbn [mbind outcome_bind].
    + unfold local_state. destruct (bool_decide (me_state s = startup)); [rewrite andb_false_r; by exists s'|].
      rewrite (bool_decide_false (me_state s = conflict_done)) by done. by exists s'.
    + rewrite (bool_decide_false (me_state s = startup)), andb_true_r by done. exact Hcore.
  - cbn [mbind outcome_bind].
    assert (local_state s = conflict_done ->
            negb (bool_decide (me_state s = startup) && bool_decide (partner_state s = new_state)) = true) as Hx.
    { intros El. apply andb_false_iff in Erep as [Er|Er].
      - by rewrite Er, andb_false_r.
      - apply bool_decide_eq_false, dec_stable in Er. unfold local_state in El. by rewrite Er in El. }
    destruct (bool_decide_reflect (local_state s = conflict_done)) as [El|El]; cbn [andb] in *; [|exact Hcore].
    by rewrite (Hx El), andb_true_r.
Qed.

(** The events on the link, the end of an update, and the timers. *)
Inductive input : Type :=
| In_peer (new_state : failover_state) (startupp : bool)
| In_event (name : event_name)
| In_update_done
| In_startup_timeout
| In_auto_partner_down
| In_recover_done.

Definition handle (t : Z) (s : endpoint (Q := Q)) (i : input) : outcome (endpoint (Q := Q)) :=
  match i with
  | In_peer n b => peer_state_changed recorded put_ok t s n b
  | In_event e => r ← state_transition recorded put_ok t s e; Ret (fst r)
  | In_update_done => process_update_done recorded put_ok t s
  | In_startup_timeout => startup_timeout recorded put_ok t s
  | In_auto_partner_down => auto_partner_down_timeout recorded put_ok t s
  | In_recover_done => recover_done_timeout recorded put_ok t s
  end.

Lemma disconnect_ok t s :
  wf t s -> exists s' r, disconnect recorded put_ok t s = Ret (s', r) /\ handled t s s'.
Proof.
  intros W. unfold disconnect. set (s1 := with_queues s _).
  set (s2 := cancel (cancel (cancel s1 T_send_contact) T_timeout) T_startup_timeout).
  assert (side t s s2) as S2.
  { etrans; [|repeat (etrans; [|apply timer_side]); reflexivity]. apply side_intro; try done. cbn.
    destruct (q_linked _); [apply drop_link_law|done]. }
  pose proof (side_wf _ _ _ S2 W) as W2. pose proof (handled_side t s s2 W S2) as H2.
  assert (forall s3, wf t s3 -> exists s' r, (if bool_decide (me_state s3 = startup)
            then set_state recorded put_ok t s3 (saved_state s3) else Ret (s3, ISC_R_SUCCESS)) = Ret (s', r) /\ handled t s3 s')
    as Hstay.
  { intros s3 W3. case_bool_decide; [apply set_state_ok; [done|apply W3]|]. exists s3, ISC_R_SUCCESS. split; [done|by apply handled_refl]. }
  assert (forall st, known st = true -> exists s' r, set_state recorded put_ok t s2 st = Ret (s', r) /\ handled t s s') as Hset.
  { intros st Hk. destruct (set_state_ok t s2 st W2 Hk) as (s' & r & ? & H'). exists s', r. split; [done|]. by apply (handled_trans t s s2). }
  assert (exists s' r, (if bool_decide (me_state s2 = startup) then set_state recorded put_ok t s2 (saved_state s2)
            else Ret (s2, ISC_R_SUCCESS)) = Ret (s', r) /\ handled t s s') as Hstay2.
  { destruct (Hstay s2 W2) as (s' & r & ? & ?). exists s', r. split; [done|]. by apply (handled_trans t s s2). }
  destruct (local_known t s2 W2) as [Hl1 Hl2]. destruct (local_state s2); try done; try (by apply Hset).
  destruct (rescind_side t s2 W2) as (s3 & -> & S3). cbn [mbind outcome_bind].
  destruct (Hstay s3 (side_wf _ _ _ S3 W2)) as (s' & r & E & H'). exists s', r. split; [exact E|].
  eapply handled_trans; [exact H2|]. eapply handled_trans; [by apply handled_side|done].
Qed.

Lemma state_transition_ok t s e :
  wf t s -> exists s' r, state_transition recorded put_ok t s e = Ret (s', r) /\ handled t s s'.
Proof.
  intros W. pose proof (wf_me _ _ W) as Hk.
  assert (exists s' r, @Ret (endpoint * isc_result) (send_state s) = Ret (s', r) /\ handled t s s') as Hsend.
  { destruct (send_state s) as [s' r] eqn:E. exists s', r. split; [done|]. apply handled_side; [done|].
    replace s' with (fst (send_state s)) by (by rewrite E). apply send_state_side. }
  assert (forall r, exists s' r', @Ret (endpoint (Q := Q) * isc_result) (s, r) = Ret (s', r') /\ handled t s s') as Hret
    by (intros r; exists s, r; split; [done|by apply handled_refl]).
  destruct e; cbn [state_transition].
  - by apply disconnect_ok.
  - destruct (me_state s); try done; try exact Hsend; [|by apply set_state_ok].
    destruct (set_state_ok t s normal W eq_refl) as (s1 & r & -> & H1). cbn [mbind outcome_bind fst snd].
    destruct (flush_side t s1 (proj1 H1)) as (s2 & -> & S2). cbn [mbind outcome_bind]. exists s2, r. split; [done|].
    eapply handled_trans; [exact H1|]. apply handled_side; [apply H1|done].
  - destruct (set_state_ok t s startup W eq_refl) as (s1 & r & -> & H1). cbn [mbind outcome_bind fst]. eauto.
  - destruct (me_state s); try done; try (apply Hret); by apply set_state_ok.
  - apply Hret.
Qed.

Lemma recover_done_handled t s : wf t s -> exists s', recover_done_entered recorded put_ok t s = Ret s' /\ handled t s s'.
Proof.
  intros W. unfold recover_done_entered.
  destruct (set_state_with_ok t Ret s recover_done) as (s' & r & -> & H); [|done|done|].
  { intros s0 W0 Hv0. exists s0. split_and!; try done. by left. }
  exists s'. split; [done|]. destruct (recorded (writes s)) eqn:Er.
  - destruct H as [_ [W' P' Hm Hv']]. by split.
  - destruct H as [_ [W' _ _ _ _ _]]. split; [done|]. intros Hr. by rewrite Hr in Er.
Qed.

Lemma update_done_ok t s : wf t s -> exists s', process_update_done recorded put_ok t s = Ret s' /\ handled t s s'.
Proof.
  intros W. unfold process_update_done. set (s0 := with_curUPD s No_update).
  assert (side t s s0) as S0 by apply curUPD_side. pose proof (side_wf _ _ _ S0 W) as W0.
  assert (forall r : outcome (endpoint (Q := Q)), (exists s', r = Ret s' /\ handled t s0 s') -> exists s', r = Ret s' /\ handled t s s') as Hpre.
  { intros r (s' & ? & ?). exists s'. split; [done|]. eapply handled_trans; [by apply handled_side|done]. }
  destruct (me_state s0); try (apply Hpre, ret_ok; done).
  - case_bool_decide; destruct (i_am s0); apply Hpre; first [by apply move_to_ok | by apply ret_ok].
  - destruct (_ && _); [|by apply Hpre, recover_done_handled].
    destruct (move_to_ok t s0 recover_wait W0 eq_refl) as (s1 & -> & H1). cbn [mbind outcome_bind]. apply Hpre.
    eexists. split; [reflexivity|]. eapply handled_trans; [exact H1|]. apply handled_side; [apply H1|apply timer_side].
Qed.

Lemma handle_ok t s i :
  wf t s -> (forall n b, i = In_peer n b -> peer_fatal s n = false) ->
  exists s', handle t s i = Ret s' /\ handled t s s'.
Proof.
  intros W Hp.
  assert (forall tm, wf t (cancel s tm) /\ handled t s (cancel s tm)) as Hcancel.
  { intros tm. pose proof (timer_side t s tm None) as S. split; [by apply (side_wf _ _ _ S)|by apply handled_side]. }
  destruct i; cbn [handle].
  - pose proof (peer_state_changed_ok t s new_state startupp W) as H. by rewrite (Hp _ _ eq_refl) in H.
  - destruct (state_transition_ok t s name W) as (s' & r & -> & H). eauto.
  - by apply update_done_ok.
  - destruct (Hcancel T_startup_timeout) as [W1 H1]. unfold startup_timeout.
    destruct (state_transition_ok t _ Ev_disconnect W1) as (s' & r & -> & H). exists s'. split; [done|]. by apply (handled_trans t s _ s' H1).
  - destruct (Hcancel T_auto_partner_down) as [W1 H1]. unfold auto_partner_down_timeout.
    destruct (move_to_ok t _ partner_down W1 eq_refl) as (s' & -> & H). exists s'. split; [done|]. by apply (handled_trans t s _ s' H1).
  - destruct (Hcancel T_recover_done) as [W1 H1]. unfold recover_done_timeout.
    destruct (recover_done_handled t _ W1) as (s' & -> & H). exists s'. split; [done|]. by apply (handled_trans t s _ s' H1).
Qed.

(** ** Runs *)

(** The endpoints an initial one can become, as time passes and inputs arrive. *)
Inductive reachable (t0 : Z) (s0 : endpoint (Q := Q)) : Z -> endpoint (Q := Q) -> Prop :=
| reach_start : reachable t0 s0 t0 s0
| reach_time t t' s : reachable t0 s0 t s -> t <= t' -> reachable t0 s0 t' s
| reach_input t s i s' : reachable t0 s0 t s -> handle t s i = Ret s' -> reachable t0 s0 t s'.

Lemma wf_later t t' s : t <= t' -> wf t s -> wf t' s.
Proof. intros Ht []. constructor; try done. lia. Qed.

Lemma handle_handled t s i s' : wf t s -> handle t s i = Ret s' -> handled t s s'.
Proof.
  intros W E. destruct (handle_ok t s i W) as (s1 & E1 & H1); [|congruence].
  intros n b ->. cbn [handle] in E. pose proof (peer_state_changed_ok t s n b W) as H.
  destruct (peer_fatal s n); [congruence|done].
Qed.

Lemma reachable_ok t0 s0 t s :
  wf t0 s0 -> reachable t0 s0 t s -> wf t s /\ ((forall n, recorded n = true) -> consistent s0 -> consistent s).
Proof.
  intros W0. induction 1 as [|t t' s _ [W C] Ht|t s i s' _ [W C] E]; [done| |].
  - split; [by eapply wf_later|done].
  - destruct (handle_handled t s i s' W E) as [W' C']. auto.
Qed.

(** C4: whatever sequence of messages, link events, updates and timeouts an
    endpoint goes through, and however long it takes, if its states are
    recorded, then it does not serve clients while it knows the peer to serve
    alone or to resolve conflicts, and serves clients only in the states
    normal, communications-interrupted, partner-down and startup; every input
    is handled, but for the one that conflict-done does not expect. *)
Theorem reachable_serves_safely t0 s0 t s :
  wf t0 s0 -> consistent s0 -> (forall n, recorded n = true) -> reachable t0 s0 t s ->
  (partner_state s ∈ [partner_down; potential_conflict; conflict_done; resolution_interrupted] ->
     service_state s = not_responding) /\
  (service_state s <> not_responding ->
     me_state s ∈ [normal; communications_interrupted; partner_down; startup]) /\
  (service_state s = service_partner_down <->
     me_state s = partner_down /\
     partner_state s ∉ [partner_down; potential_conflict; conflict_done; resolution_interrupted]) /\
  forall i, (forall n b, i = In_peer n b -> peer_fatal s n = false) -> exists s', handle t s i = Ret s'.
Proof.
  intros W0 C0 Hr R. destruct (reachable_ok t0 s0 t s W0 R) as [W C]. specialize (C Hr C0). unfold consistent in C.
  split_and!.
  - rewrite C, !elem_of_cons, elem_of_nil. destruct (me_state s), (partner_state s); intuition congruence.
  - rewrite C, !elem_of_cons, elem_of_nil. destruct (me_state s), (partner_state s); cbn; intuition congruence.
  - rewrite C, !elem_of_cons, elem_of_nil. destruct (me_state s), (partner_state s); cbn; intuition congruence.
  - intros i Hi. destruct (handle_ok t s i W Hi) as (s' & ? & _). eauto.
Qed.

(** ** Recovery *)

(** a server that has received the update it asked for in the recover state
    waits for MCLT since it entered the state before it is recover-done, with
    the timeout set for that time and its state's time unchanged; it does not
    wait when that time has passed, or when the peer recovers as well. *)
Theorem update_done_waits t s :
  wf t s -> me_state s = recover -> (forall n, recorded n = true) -> 0 <= me_stos s + mclt s < 2 ^ 31 ->
  exists s', process_update_done recorded put_ok t s = Ret s' /\
    if (t <? me_stos s + mclt s) && bool_decide (partner_state s <> recover)
       && bool_decide (partner_state s <> recover_done)
    then me_state s' = recover_wait /\ me_stos s' = me_stos s /\ timers s' T_recover_done = Some (me_stos s + mclt s)
    else me_state s' = recover_done.
Proof.
  intros W Hm Hr Hz. unfold process_update_done. set (s0 := with_curUPD s No_update).
  assert (wf t s0) as W0 by (apply (side_wf _ _ _ (curUPD_side t s No_update)); done).
  change (me_state s0) with (me_state s). rewrite Hm. change (me_stos s0) with (me_stos s).
  change (mclt s0) with (mclt s). change (partner_state s0) with (partner_state s).
  destruct (t <? me_stos s + mclt s) eqn:Ht; cbn [andb].
  2: { unfold recover_done_entered. destruct (set_state_with_ok t Ret s0 recover_done) as (s' & r & -> & H); [|done|done|].
       { intros s1 W1 Hv1. exists s1. split_and!; try done. by left. }
       rewrite Hr in H. destruct H as [_ [_ _ Hst _]]. exists s'. split; [done|]. by destruct Hst as [[? _]|[? _]]. }
  apply Z.ltb_lt in Ht.
  destruct (bool_decide (partner_state s <> recover) && bool_decide (partner_state s <> recover_done)) eqn:Ep.
  - destruct (move_to_handled t s0 recover_wait W0 eq_refl) as (s1 & -> & [W1 _] & P1 & He & _). cbn [mbind outcome_bind].
    destruct (He Hr) as [_ _ Hst _].
    assert (stos_of t s0 recover_wait = me_stos s) as Es by done. rewrite Es in Hst.
    change (mclt s0) with (mclt s) in Hst.
    destruct Hst as [[Hs1 Hs2]|(_ & _ & Hs)]; [|lia].
    eexists. split; [reflexivity|]. split_and!; [done|done|]. cbn. destruct P1 as (_ & _ & ->).
    change (mclt s0) with (mclt s). by rewrite Hs2, s32_small by lia.
  - unfold recover_done_entered. destruct (set_state_with_ok t Ret s0 recover_done) as (s' & r & -> & H); [|done|done|].
    { intros s1 W1 Hv1. exists s1. split_and!; try done. by left. }
    rewrite Hr in H. destruct H as [_ [_ _ Hst _]]. exists s'. split; [done|]. by destruct Hst as [[? _]|[? _]].
Qed.

(** ** Returning to normal *)

(** The branches of a handler that do not lead to [normal]. *)
Lemma not_normal t s new_state r s' :
  wf t s -> me_state s <> normal -> me_state s <> startup -> known new_state = true ->
  new_state <> normal -> new_state <> startup ->
  r = move_to recorded put_ok t s new_state -> r = Ret s' -> me_state s' <> normal /\ me_state s' <> startup.
Proof.
  intros W Hn Hs Hk Hnn Hns -> E. destruct (move_to_handled t s new_state W Hk) as (s1 & E1 & _ & _ & _ & Hm).
  rewrite E1 in E. injection E as ->. destruct Hm as [->|[->| ->]]; done.
Qed.

Lemma side_not_normal t s s' :
  side t s s' -> me_state s <> normal -> me_state s <> startup -> me_state s' <> normal /\ me_state s' <> startup.
Proof. intros [-> _ _ _ _ _]. done. Qed.

Lemma not_startup t s new_state r s' :
  wf t s -> me_state s <> startup -> known new_state = true -> new_state <> startup ->
  r = move_to recorded put_ok t s new_state -> r = Ret s' -> me_state s' <> startup.
Proof.
  intros W Hs Hk Hns -> E. destruct (move_to_handled t s new_state W Hk) as (s1 & E1 & _ & _ & _ & Hm).
  rewrite E1 in E. injection E as ->. destruct Hm as [->|[->| ->]]; done.
Qed.

(** The peer's states in which a server may return to normal. *)
Definition may_resume (me new_state : failover_state) : bool :=
  match me, new_state with
  | partner_down, recover_done => true
  | partner_down, _ => false
  | communications_interrupted, (normal | recover_done | communications_interrupted | recover_wait) => true
  | (recover_done | conflict_done), normal => true
  | recover_done, recover_done => true
  | _, _ => false
  end.

Lemma react_resumes t s previous_state new_state startupp s' :
  wf t s -> known new_state = true -> me_state s <> normal -> me_state s <> startup ->
  react recorded put_ok t s previous_state new_state startupp = Ret s' ->
  me_state s' <> startup /\ (me_state s' = normal -> may_resume (me_state s) new_state = true).
Proof.
  intros W Hk Hn Hs. unfold react, local_state. rewrite (bool_decide_false (me_state s = startup)) by done.
  assert (forall s2, side t s s2 -> Ret s2 = Ret s' ->
            me_state s' <> startup /\ (me_state s' = normal -> may_resume (me_state s) new_state = true)) as Hside.
  { intros s2 S2 [= <-]. destruct (side_not_normal t s s2 S2 Hn Hs). done. }
  assert (forall st, st <> normal -> st <> startup -> known st = true -> move_to recorded put_ok t s st = Ret s' ->
            me_state s' <> startup /\ (me_state s' = normal -> may_resume (me_state s) new_state = true)) as Hmove.
  { intros st H1 H2 H3 E. destruct (not_normal t s st _ s' W Hn Hs H3 H1 H2 eq_refl E). done. }
  assert (forall s2, side t s s2 -> may_resume (me_state s) new_state = true -> move_to recorded put_ok t s2 normal = Ret s' ->
            me_state s' <> startup /\ (me_state s' = normal -> may_resume (me_state s) new_state = true)) as Hres.
  { intros s2 S2 H1 E. split; [|done]. eapply (not_startup t s2 normal); try done; [by apply (side_wf _ _ _ S2)|].
    by rewrite (side_me _ _ _ S2). }
  assert (side t s s) as Srefl by done.
  destruct (me_state s) eqn:Em; try done; try (by apply (Hside s)).
  - destruct new_state; try done; cbn [in_communications_interrupted]; try (by apply (Hside s)); try (by apply Hmove);
      destruct (flush_side t s W) as (s2 & -> & S2); cbn [mbind outcome_bind]; by apply (Hres s2).
  - unfold in_partner_down. destruct startupp; [by apply (Hside s)|].
    destruct new_state; try done; try (by apply (Hside s)); try (by apply Hmove). by apply (Hres s).
  - destruct new_state; try done; cbn [in_potential_conflict]; try (by apply (Hside s)); try (by apply Hmove).
    apply Hside. case_bool_decide; [apply send_request_side|done].
  - destruct new_state; try done; cbn [in_recover]; try (by apply (Hside s)); try (by apply Hmove);
      apply Hside; case_bool_decide; first [apply send_all_side|done].
  - destruct new_state; try done; cbn [in_recover_done]; try (by apply (Hside s)); try (by apply Hmove); by apply (Hres s).
  - destruct new_state; try done; cbn [in_resolution_interrupted]; try (by apply (Hside s)); by apply Hmove.
  - destruct new_state; try done; cbn [in_conflict_done]; try (by apply (Hside s)); try (by apply Hmove). by apply (Hres s).
Qed.

(** C38: A state message brings a server that is not in normal (and has started) back to
    normal only in the states of the peer that allow it: from partner-down only when the
    peer is done recovering, from recover-done only when the peer is normal or recover-done,
    from conflict-done only when it is normal, from communications-interrupted only when it
    is normal, interrupted or recovered.  (Recover-wait counts as recovered here.) *)
Theorem normal_needs_peer t s new_state startupp s' :
  wf t s -> me_state s <> normal -> me_state s <> startup ->
  peer_state_changed recorded put_ok t s new_state startupp = Ret s' ->
  me_state s' = normal -> may_resume (me_state s) new_state = true.
Proof.
  intros W Hn Hs. unfold peer_state_changed. set (s1 := with_write (with_partner s new_state t)).
  assert (wf t s1) as W1 by (destruct W; by constructor).
  assert (forall s2 st, wf t s2 -> me_state s2 = me_state s -> known st = true -> st <> normal ->
            move_to recorded put_ok t s2 st = Ret s' -> me_state s' = normal -> False) as Hmove.
  { intros s2 st W2 E2 Hk Hst E Hm. destruct (move_to_handled t s2 st W2 Hk) as (s3 & E3 & _ & _ & _ & H3).
    rewrite E3 in E. injection E as ->. destruct H3 as [H3|[H3|H3]]; congruence. }
  assert ((if negb (known new_state) then move_to recorded put_ok t s1 shut_down
           else s2 ← react recorded put_ok t s1 (partner_state s) new_state startupp;
                s3 ← (if bool_decide (me_state s2 = startup) && bool_decide (saved_state s2 <> startup)
                     then move_to recorded put_ok t s2 (saved_state s2) else Ret s2);
                set_service_state s3) = Ret s' -> me_state s' = normal -> may_resume (me_state s) new_state = true) as Hrest.
  { destruct (known new_state) eqn:Hk; cbn [negb].
    2: { intros E Hm. exfalso. by eapply (Hmove s1 shut_down). }
    destruct (react recorded put_ok t s1 (partner_state s) new_state startupp) as [s2| |] eqn:E2; [|done..].
    destruct (react_resumes t s1 _ _ _ s2 W1 Hk Hn Hs E2) as [Hns Hres]. cbn [mbind outcome_bind].
    rewrite (bool_decide_false (me_state s2 = startup)) by done. cbn [andb mbind outcome_bind].
    intros E Hm. apply Hres. unfold set_service_state in E. destruct (me_state s2) eqn:E3; try done;
      cbn [mbind outcome_bind] in E; injection E as <-; cbn in Hm; congruence. }
  destruct (_ && _); [|exact Hrest]. unfold repeated.
  pose proof (wf_me _ _ W) as Hk. destruct (me_state s) eqn:Em; try done; cbn [mbind outcome_bind]; try exact Hrest;
    intros [= <-]; congruence.
Qed.

Lemma unknown_shuts_down t s new_state startupp :
  wf t s -> known new_state = false -> partner_state s <> new_state -> (forall n, recorded n = true) ->
  exists s', peer_state_changed recorded put_ok t s new_state startupp = Ret s' /\
    me_state s' = shut_down /\ partner_state s' = new_state /\ service_state s' = not_responding.
Proof.
  intros W Hk Hp Hr. unfold peer_state_changed. rewrite bool_decide_false by done. cbn [andb mbind outcome_bind]. rewrite Hk. cbn [negb].
  set (s1 := with_write (with_partner s new_state t)). assert (wf t s1) as W1 by (destruct W; by constructor).
  destruct (move_to_handled t s1 shut_down W1 eq_refl) as (s' & E & _ & (_ & Ep & _) & He & _). exists s'. split; [done|].
  destruct (He Hr) as [_ _ [[Em _]|[? _]] Es]; [|done]. by rewrite Es, Em, Ep.
Qed.

(** C39: A state message of the peer is always handled, from any well-formed endpoint: the
    handler returns with a well-formed endpoint, whether or not the state file can be
    written.  The one exception is an endpoint in conflict-done (or in startup with
    conflict-done saved), which stops the server at a known state of the peer that it does
    not expect, unless it is in startup and the message repeats the peer's state
    ([peer_fatal]).  When all the writes of the state succeed, a service state that agreed
    with the states of the two servers before the message agrees with them after it; and a
    state that is not known, and was not the peer's last one, takes the server to shut-down
    with that state noted for the peer, where it serves nobody. *)
Theorem peer_state_changed_total t s new_state startupp :
  wf t s ->
  if peer_fatal s new_state then peer_state_changed recorded put_ok t s new_state startupp = Fatal
  else exists s', peer_state_changed recorded put_ok t s new_state startupp = Ret s' /\ wf t s' /\
    ((forall n, recorded n = true) -> consistent s -> consistent s') /\
    ((forall n, recorded n = true) -> known new_state = false -> partner_state s <> new_state ->
       me_state s' = shut_down /\ partner_state s' = new_state /\ service_state s' = not_responding).
Proof.
  intros W. pose proof (peer_state_changed_ok t s new_state startupp W) as H. destruct (peer_fatal s new_state); [done|].
  destruct H as (s' & E & Hw & Hc). exists s'. split_and!; [done|done|done|]. intros Hr Hk Hp.
  destruct (unknown_shuts_down t s new_state startupp W Hk Hp Hr) as (s2 & E2 & H2). rewrite E in E2. by injection E2 as ->.
Qed.

End Machine.

(** ** The queues of the peer implement the interface *)

Section QueueInstance.
(** [ok]: which actions succeed; [ps]: the peer's pools, as their queues of
    leases; [given]: the leases that balancing the pools gives to the peer
    (chosen as in [FailoverLease.balance_pool]). *)
Context (ok : list FailoverQueue.event -> FailoverQueue.event -> bool).
Context (ps : list (list (list positive))).
Context (given : FailoverQueue.state -> list positive).

(** The leases whose state changed are queued, not sent. *)
Fixpoint queue_all (q : list positive) (w : FailoverQueue.state) : outcome FailoverQueue.state :=
  match q with
  | [] => Ret w
  | x :: q' => w ← FailoverQueue.queue_update ok w x false; queue_all q' w
  end.

#[local] Instance peer_queues : UpdateQueues FailoverQueue.state := {|
  q_waiting w := bool_decide (is_Some (FailoverQueue.update_queue_head w));
  q_pending w := bool_decide (is_Some (FailoverQueue.update_queue_head w)) ||
                 bool_decide (is_Some (FailoverQueue.ack_queue_head w));
  q_rescind := FailoverQueue.rescind_updates;
  q_balance w := queue_all (given w) w;
  q_generate := FailoverQueue.generate_update_queue ok false ps;
  q_flush w := r ← FailoverQueue.send_updates ok w; Ret (fst r);
  q_pool_check w := Ret w;
  q_linked w := bool_decide (is_Some (FailoverQueue.link_to_peer w));
  q_usable := FailoverQueue.connected;
  q_drop_link w := FailoverQueue.with_link w None;
  q_take_xid w := FailoverQueue.with_link w ((fun x => u32 (x + 1)) <$> FailoverQueue.link_to_peer w)
|}.

(** The representation of the two queues, over the leases of the pools. *)
Definition peer_queues_ok (w : FailoverQueue.state) : Prop :=
  (exists U A, FailoverQueue.rep w U A) /\
  FailoverQueue.configured w (FailoverQueue.entries ps) /\
  FailoverQueue.connected w = true /\ Z.of_nat (size (FailoverQueue.leases w)) < 2 ^ 32.

(** Balancing gives away leases of the pools. *)
Context (given_ok : forall w x, x ∈ given w -> exists i, (i, x) ∈ FailoverQueue.entries ps).

Lemma same_size w w' :
  FailoverQueue.same_peer w w' -> size (FailoverQueue.leases w') = size (FailoverQueue.leases w).
Proof.
  intros (_ & _ & _ & E & _). rewrite <- (map_size_fmap FailoverQueue.facts (FailoverQueue.leases w')), E.
  apply map_size_fmap.
Qed.

Lemma peer_queues_kept w w' :
  FailoverQueue.same_peer w w' -> (exists U A, FailoverQueue.rep w' U A) -> peer_queues_ok w -> peer_queues_ok w'.
Proof.
  intros S R (_ & Hc & Hn & Hz). split_and!; [done|by eapply FailoverQueue.configured_same| |by rewrite (same_size w)].
  destruct S as (_ & -> & _). done.
Qed.

Lemma pending_lists w U A :
  FailoverQueue.rep w U A -> q_pending w = bool_decide (U ++ A <> []).
Proof.
  intros [_ Hu _ Ha _ _]. cbn. rewrite Hu, Ha. destruct U, A; cbn; try done.
Qed.

Lemma queue_all_ok q : forall w,
  (forall x, x ∈ q -> exists i, (i, x) ∈ FailoverQueue.entries ps) -> peer_queues_ok w ->
  exists w', queue_all q w = Ret w' /\ peer_queues_ok w'.
Proof.
  induction q as [|x q IH]; intros w Hq Hw; cbn [queue_all]; [by exists w|].
  pose proof Hw as ((U & A & R) & Hc & _). destruct (Hq x) as [i Hi]; [set_solver|].
  destruct (Hc i x Hi) as (l & Hl & Hp).
  destruct (FailoverQueue.queue_update_spec ok w U A x l R Hl Hp) as (w1 & -> & S1 & H1). cbn [mbind outcome_bind].
  apply IH; [set_solver|]. eapply peer_queues_kept; [done| |done]. case_bool_decide; [subst|]; eauto.
Qed.

Lemma peer_queues_laws : UpdateQueuesLaws FailoverQueue.state peer_queues_ok.
Proof.
  constructor; intros w Hw; pose proof Hw as ((U & A & R) & Hc & Hn & Hz); cbn [q_rescind q_balance q_generate q_flush
    q_pool_check q_drop_link q_take_xid peer_queues].
  - destruct (FailoverQueue.rescind_updates_spec w U A R) as (w' & E & R' & S' & _). exists w'. split; [done|].
    split; [by eapply peer_queues_kept; eauto|]. rewrite (pending_lists w' _ _ R'), (pending_lists w _ _ R), app_nil_r.
    apply bool_decide_ext. destruct U, A; cbn; rewrite ?app_nil_r; naive_solver.
  - apply queue_all_ok; [apply given_ok|done].
  - rewrite FailoverQueue.generate_flat.
    destruct (FailoverQueue.generate_entries_ok ok false (FailoverQueue.entries ps) w U A R Hc) as (w' & V & E & R' & S' & _).
    exists w'. split; [done|]. eapply peer_queues_kept; eauto.
  - destruct (FailoverQueue.send_updates_spec ok w U A R Hn Hz) as (w' & r & k & E & R' & S' & _).
    rewrite E. exists w'. split; [done|]. split; [by eapply peer_queues_kept; eauto|].
    rewrite (pending_lists w' _ _ R'), (pending_lists w _ _ R). apply bool_decide_ext.
    rewrite <- (take_drop k U) at 3. generalize (take k U) (drop k U). intros [|] [|]; destruct A; naive_solver.
  - by exists w.
  - destruct Hw as (_ & ? & ? & ?). split_and!; try done. exists U, A. by destruct R.
  - destruct Hw as (_ & ? & ? & ?). split_and!; try done. exists U, A. by destruct R.
Qed.

End QueueInstance.

(** ** Entering partner-down *)

(** The order of a lease queue (the sort time, then the tie breaker). *)
Definition before (a b : expired_lease) : Prop :=
  e_sort_time a < e_sort_time b \/ (e_sort_time a = e_sort_time b /\ e_tiebreaker a < e_tiebreaker b).

Lemma delay_expired_sorted until q : forall n,
  StronglySorted (fun a b => e_ends a <= e_ends b) q -> 0 <= n -> n + Zlen q <= LONG_MAX ->
  StronglySorted before (delay_expired until n q) /\
  Forall (fun l => e_tsfp l = until /\ e_sort_time l = Z.max until (e_ends l) /\ n <= e_tiebreaker l)
    (delay_expired until n q) /\
  map e_ends (delay_expired until n q) = map e_ends q.
Proof.
  induction q as [|l q IH]; intros n Hs Hn Hlen; cbn [delay_expired]; [split_and!; constructor|].
  rewrite Zlen_cons in Hlen. pose proof (Zlen_nonneg q) as Hq.
  rewrite (proj2 (Z.eqb_neq n LONG_MAX)) by lia.
  apply StronglySorted_inv in Hs as [Hs Hl].
  destruct (IH (n + 1)) as (H1 & H2 & H3); [done|lia|lia|].
  assert (Forall (fun x => e_ends l <= e_ends x) (delay_expired until (n + 1) q)) as Hl'.
  { apply Forall_forall. intros x Hx. assert (e_ends x ∈ map e_ends q) as Hm.
    { rewrite <- H3. apply list_elem_of_In, in_map, list_elem_of_In, Hx. }
    apply list_elem_of_In, in_map_iff in Hm as (y & <- & Hy). eapply Forall_forall in Hl; [done|].
    by apply list_elem_of_In. }
  assert ((if e_ends l <? until then until else e_ends l) = Z.max until (e_ends l)) as Emax
    by (destruct (Z.ltb_spec (e_ends l) until); lia).
  rewrite Emax. split_and!.
  - constructor; [done|]. apply Forall_forall. intros x Hx.
    eapply Forall_forall in Hl'; [|exact Hx]. eapply Forall_forall in H2 as (_ & E & Ht); [|exact Hx].
    unfold before. cbn. rewrite E. lia.
  - constructor; [cbn; lia|]. eapply list.Forall_impl; [exact H2|]. cbn. intros x (? & ? & ?). lia.
  - cbn. by rewrite H3.
Qed.

(** when a server enters partner-down, no lease of an expired queue can
    become free before MCLT after the change, the leases stay in the strict
    order of their queue (the tie breakers do not run out), and the pool is
    woken for the first of them, or for what it was to be woken for before. *)
Theorem partner_down_delays until p :
  StronglySorted (fun a b => e_ends a <= e_ends b) (expired p) -> Zlen (expired p) <= LONG_MAX ->
  let p' := delay_pool until p in
  map e_ends (expired p') = map e_ends (expired p) /\
  StronglySorted before (expired p') /\
  Forall (fun l => e_tsfp l = until /\ e_sort_time l = Z.max until (e_ends l)) (expired p') /\
  Forall (fun l => next_event_time p' <= e_sort_time l) (expired p') /\
  next_event_time p' <= next_event_time p /\
  (pool_timer p = Some (next_event_time p) -> pool_timer p' = Some (next_event_time p')).
Proof.
  intros Hs Hlen. destruct (delay_expired_sorted until (expired p) 0 Hs) as (H1 & H2 & H3); [lia|lia|].
  cbn zeta. assert (expired (delay_pool until p) = delay_expired until 0 (expired p)) as Eq.
  { unfold delay_pool. destruct (delay_expired until 0 (expired p)); [done|]. by destruct (_ <? _). }
  rewrite Eq. split; [done|]. split; [done|]. split.
  { eapply list.Forall_impl; [exact H2|]. cbn. intuition. }
  unfold delay_pool. destruct (delay_expired until 0 (expired p)) as [|l q]; cbn.
  { split_and!; [constructor|lia|done]. }
  apply StronglySorted_inv in H1 as [_ Hl].
  assert (forall t, t <= e_sort_time l -> Forall (fun l => t <= e_sort_time l) (l :: q)) as Hall.
  { intros t Ht. constructor; [done|]. eapply list.Forall_impl; [exact Hl|]. unfold before. intros x Hx. lia. }
  destruct (Z.ltb_spec (e_sort_time l) (next_event_time p)); cbn; split_and!; try done; try lia; apply Hall; lia.
Qed.

Lemma partner_down_delays_witness :
  expired (delay_pool 500 (Pool [Expired 100 0 100 3; Expired 100 0 100 4; Expired 700 0 700 0] 600 (Some 600)))
    = [Expired 100 500 500 0; Expired 100 500 500 1; Expired 700 500 700 2] /\
  next_event_time (delay_pool 500 (Pool [Expired 100 0 100 3; Expired 100 0 100 4; Expired 700 0 700 0] 600 (Some 600)))
    <= 600.
Proof.
  split; [reflexivity|].
  apply (partner_down_delays 500 (Pool [Expired 100 0 100 3; Expired 100 0 100 4; Expired 700 0 700 0] 600 (Some 600)));
    [repeat constructor; cbn; lia|done].
Defined.

(** ** Examples *)

(** The peer of [FailoverQueue.state4], whose pools are in balance. *)
Definition in_balance (_ : FailoverQueue.state) : list positive := [].

#[local] Instance queues4 : UpdateQueues FailoverQueue.state :=
  peer_queues FailoverQueue.all_ok FailoverQueue.pools4 in_balance.

#[local] Instance queues4_laws : UpdateQueuesLaws FailoverQueue.state (peer_queues_ok FailoverQueue.pools4).
Proof. apply peer_queues_laws. intros w x H. by apply elem_of_nil in H. Defined.

Lemma state4_ok : peer_queues_ok FailoverQueue.pools4 FailoverQueue.state4.
Proof.
  split_and!; [exists [1%positive], [2%positive; 3%positive]; apply FailoverQueue.state4_rep| |done|done].
  intros i x Hx. vm_compute in Hx. repeat (apply elem_of_cons in Hx as [[= -> ->]|Hx]; [eexists; split; reflexivity|]).
  by apply elem_of_nil in Hx.
Qed.

Definition always (_ : nat) : bool := true.
Definition no_timers (_ : timer_t) : option Z := None.

(** A primary in state [st] since 1000, with an MCLT of 600. *)
Definition server (st partner : failover_state) : endpoint (Q := FailoverQueue.state) :=
  Endpoint primary st 1000 recover partner 900 (service_of st partner) 600 0 No_update FailoverQueue.state4 []
    no_timers [] 0.

Lemma server_wf t st partner : known st = true -> 1000 <= t -> wf (peer_queues_ok FailoverQueue.pools4) t (server st partner).
Proof. intros Hk Ht. constructor; cbn; try done; try lia. apply state4_ok. Qed.

Lemma set_state_atomic_witness :
  exists s' r, set_state always always 1100 (server normal normal) communications_interrupted = Ret (s', r) /\
    r = ISC_R_SUCCESS /\ service_state s' = service_of (me_state s') (partner_state s').
Proof.
  destruct (set_state_atomic (peer_queues_ok FailoverQueue.pools4) always always 1100 (server normal normal)
              communications_interrupted) as (s' & r & E & Hr & [_ _ _ Hs]);
    [apply server_wf; [reflexivity|lia]|reflexivity|].
  exists s', r. split; [exact E|]. split; [exact Hr|exact Hs].
Defined.

Lemma reachable_serves_safely_witness :
  exists s', handle always always 1100 (server partner_down normal) (In_peer potential_conflict false) = Ret s' /\
    service_state s' = not_responding.
Proof.
  destruct (handle always always 1100 (server partner_down normal) (In_peer potential_conflict false)) as [s'| |] eqn:E;
    [|vm_compute in E; discriminate..].
  exists s'. split; [reflexivity|].
  refine (proj1 (reachable_serves_safely (peer_queues_ok FailoverQueue.pools4) always always 1100
            (server partner_down normal) 1100 s' _ _ _ _) _);
    [apply server_wf; [reflexivity|lia]|reflexivity|reflexivity| |].
  - apply (reach_input always always 1100 (server partner_down normal) 1100 (server partner_down normal)
             (In_peer potential_conflict false) s'); [constructor|exact E].
  - vm_compute in E. injection E as <-. decide_true.
Defined.

Lemma update_done_waits_witness :
  exists s', process_update_done always always 1100 (server recover partner_down) = Ret s' /\
    me_state s' = recover_wait /\ me_stos s' = 1000 /\ timers s' T_recover_done = Some 1600.
Proof.
  apply (update_done_waits (peer_queues_ok FailoverQueue.pools4) always always 1100 (server recover partner_down));
    [apply server_wf; [reflexivity|lia]|reflexivity|reflexivity|cbn; lia].
Defined.

Lemma normal_needs_peer_witness :
  exists s', peer_state_changed always always 1100 (server partner_down recover_wait) recover_done false = Ret s' /\
    me_state s' = normal /\ may_resume partner_down recover_done = true.
Proof.
  destruct (peer_state_changed always always 1100 (server partner_down recover_wait) recover_done false)
    as [s'| |] eqn:E; [|vm_compute in E; discriminate..].
  assert (me_state s' = normal) as Hn by (vm_compute in E; by injection E as <-).
  exists s'. split; [reflexivity|]. split; [exact Hn|].
  apply (normal_needs_peer (peer_queues_ok FailoverQueue.pools4) always always 1100
           (server partner_down recover_wait) recover_done false s'); [apply server_wf; [reflexivity|lia]|done|done|exact E|exact Hn].
Defined.

Lemma peer_state_changed_total_witness :
  exists s', peer_state_changed always always 1100 (server normal normal) (invalid_state 77) false = Ret s' /\
    wf (peer_queues_ok FailoverQueue.pools4) 1100 s' /\ me_state s' = shut_down.
Proof.
  destruct (peer_state_changed_total (peer_queues_ok FailoverQueue.pools4) always always 1100 (server normal normal)
              (invalid_state 77) false) as (s' & E & W & _ & H); [apply server_wf; [reflexivity|lia]|].
  exists s'. split; [exact E|]. split; [exact W|]. apply H; [reflexivity|reflexivity|discriminate].
Defined.

(** The timeout of recover-wait is not cancelled when the state is left by
    another way: a server that the operator has put in partner-down (the value
    local-state of its OMAPI object) serves alone, until the timeout takes it
    to recover-done, where it serves nobody. *)
Example recover_timer_survives :
  exists s1 s2 s3,
    process_update_done always always 1100 (server recover communications_interrupted) = Ret s1 /\
    me_state s1 = recover_wait /\
    move_to always always 1200 s1 partner_down = Ret s2 /\
    service_state s2 = service_partner_down /\ timers s2 T_recover_done = Some 1600 /\
    recover_done_timeout always always 1600 s2 = Ret s3 /\
    me_state s3 = recover_done /\ service_state s3 = not_responding.
Proof. do 3 eexists. repeat (split; [vm_compute; reflexivity|]). vm_compute. reflexivity. Qed.

End FailoverState.
