(* ===== verification/Mdb.v ===== *)
(** * The leases of IPv4 addresses (server/mdb.c, server/class.c)

    A lease is on one queue of its pool, chosen by its binding state and sorted by
    the time of its next event; the leases of a client are linked from a hash table of
    the client identifiers and from one of the hardware addresses.  The file models
    the operations on these linked lists, [supersede_lease], through which all
    changes go, the state transitions, the timer of a pool, release, abandonment
    and the start of the server.

    The lists are those of the build without [BINARY_LEASES]: the queues of a pool
    are linked through [next], the leases of a client identifier through [n_uid] and
    those of a hardware address through [n_hw].  Leases in the database are held
    by the table of addresses, so reference counts are left out, but not that a
    reference is not stored into a pointer that is not null. *)

From Stdlib Require Import ZArith Lia.
From stdpp Require Import base list numbers option gmap.
From S2P Require Import Prelude.
From S2P Require Import Expr.
From S2P Require Import FailoverLease.
From S2P Require Import FailoverState.
#[local] Open Scope Z_scope.

Module Mdb.

Export FailoverLease(role(..), binding_state_t(..), service_state_t(..)).
#[local] Existing Instances FailoverLease.binding_state_eq_dec FailoverLease.role_eq_dec FailoverLease.service_state_eq_dec.
Abbreviation failover_state := FailoverState.failover_state.
Abbreviation partner_down := FailoverState.partner_down.
Abbreviation normal := FailoverState.normal.
Abbreviation on_star_t := Expr.on_star.
Abbreviation scope_t := (list (list (list Z * option Expr.binding_value))).

Abbreviation ptr := (option positive).

Definition MIN_TIME : Z := 0.
Definition MAX_TIME : Z := 2147483647.
Definition STATIC_LEASE : Z := 1.
Definition BOOTP_LEASE : Z := 2.
Definition RESERVED_LEASE : Z := 4.
Definition MS_NULL_TERMINATION : Z := 8.
Definition ON_UPDATE_QUEUE : Z := 16.
Definition ON_ACK_QUEUE : Z := 32.
Definition UNICAST_BROADCAST_HACK : Z := 64.
Definition PERSISTENT_FLAGS : Z := Z.lor ON_ACK_QUEUE ON_UPDATE_QUEUE.
Definition EPHEMERAL_FLAGS : Z := Z.lor (Z.lor (Z.lor MS_NULL_TERMINATION UNICAST_BROADCAST_HACK) RESERVED_LEASE) BOOTP_LEASE.
Definition HTYPE_INFINIBAND : Z := 32.

(** The size of [uid_buf]. *)
Definition UID_BUF : Z := 7.

(** [uid]: the octets, and whether they are in the buffer of the lease itself;
    [hardware_addr]: the [hlen] octets that are used, the first one is the type. *)
Record lease : Type := Lease {
  next : ptr;
  n_uid : ptr;
  n_hw : ptr;
  ip_addr : list Z;
  starts : Z;
  ends : Z;
  sort_time : Z;
  client_hostname : option (list Z);
  scope : option scope_t;
  host : ptr;
  subnet : ptr;
  pool : option positive;
  billing_class : option positive;
  agent_options : option Z;
  on_star : on_star_t;
  uid : option (bool * list Z);
  hardware_addr : list Z;
  flags : Z;
  binding_state : binding_state_t;
  next_binding_state : binding_state_t;
  desired_binding_state : binding_state_t;
  rewind_binding_state : binding_state_t;
  tstp : Z;
  tsfp : Z;
  atsfp : Z;
  cltt : Z;
  ddns_cb : option Z
}.

(** Assignments to the fields. *)
Definition set_next v (l : lease) : lease := Lease v (n_uid l) (n_hw l) (ip_addr l) (starts l) (ends l) (sort_time l) (client_hostname l) (scope l) (host l) (subnet l) (pool l) (billing_class l) (agent_options l) (on_star l) (uid l) (hardware_addr l) (flags l) (binding_state l) (next_binding_state l) (desired_binding_state l) (rewind_binding_state l) (tstp l) (tsfp l) (atsfp l) (cltt l) (ddns_cb l).
Definition set_n_uid v (l : lease) : lease := Lease (next l) v (n_hw l) (ip_addr l) (starts l) (ends l) (sort_time l) (client_hostname l) (scope l) (host l) (subnet l) (pool l) (billing_class l) (agent_options l) (on_star l) (uid l) (hardware_addr l) (flags l) (binding_state l) (next_binding_state l) (desired_binding_state l) (rewind_binding_state l) (tstp l) (tsfp l) (atsfp l) (cltt l) (ddns_cb l).
Definition set_n_hw v (l : lease) : lease := Lease (next l) (n_uid l) v (ip_addr l) (starts l) (ends l) (sort_time l) (client_hostname l) (scope l) (host l) (subnet l) (pool l) (billing_class l) (agent_options l) (on_star l) (uid l) (hardware_addr l) (flags l) (binding_state l) (next_binding_state l) (desired_binding_state l) (rewind_binding_state l) (tstp l) (tsfp l) (atsfp l) (cltt l) (ddns_cb l).
Definition set_starts v (l : lease) : lease := Lease (next l) (n_uid l) (n_hw l) (ip_addr l) v (ends l) (sort_time l) (client_hostname l) (scope l) (host l) (subnet l) (pool l) (billing_class l) (agent_options l) (on_star l) (uid l) (hardware_addr l) (flags l) (binding_state l) (next_binding_state l) (desired_binding_state l) (rewind_binding_state l) (tstp l) (tsfp l) (atsfp l) (cltt l) (ddns_cb l).
Definition set_ends v (l : lease) : lease := Lease (next l) (n_uid l) (n_hw l) (ip_addr l) (starts l) v (sort_time l) (client_hostname l) (scope l) (host l) (subnet l) (pool l) (billing_class l) (agent_options l) (on_star l) (uid l) (hardware_addr l) (flags l) (binding_state l) (next_binding_state l) (desired_binding_state l) (rewind_binding_state l) (tstp l) (tsfp l) (atsfp l) (cltt l) (ddns_cb l).
Definition set_sort_time v (l : lease) : lease := Lease (next l) (n_uid l) (n_hw l) (ip_addr l) (starts l) (ends l) v (client_hostname l) (scope l) (host l) (subnet l) (pool l) (billing_class l) (agent_options l) (on_star l) (uid l) (hardware_addr l) (flags l) (binding_state l) (next_binding_state l) (desired_binding_state l) (rewind_binding_state l) (tstp l) (tsfp l) (atsfp l) (cltt l) (ddns_cb l).
Definition set_client_hostname v (l : lease) : lease := Lease (next l) (n_uid l) (n_hw l) (ip_addr l) (starts l) (ends l) (sort_time l) v (scope l) (host l) (subnet l) (pool l) (billing_class l) (agent_options l) (on_star l) (uid l) (hardware_addr l) (flags l) (binding_state l) (next_binding_state l) (desired_binding_state l) (rewind_binding_state l) (tstp l) (tsfp l) (atsfp l) (cltt l) (ddns_cb l).
Definition set_scope v (l : lease) : lease := Lease (next l) (n_uid l) (n_hw l) (ip_addr l) (starts l) (ends l) (sort_time l) (client_hostname l) v (host l) (subnet l) (pool l) (billing_class l) (agent_options l) (on_star l) (uid l) (hardware_addr l) (flags l) (binding_state l) (next_binding_state l) (desired_binding_state l) (rewind_binding_state l) (tstp l) (tsfp l) (atsfp l) (cltt l) (ddns_cb l).
Definition set_host v (l : lease) : lease := Lease (next l) (n_uid l) (n_hw l) (ip_addr l) (starts l) (ends l) (sort_time l) (client_hostname l) (scope l) v (subnet l) (pool l) (billing_class l) (agent_options l) (on_star l) (uid l) (hardware_addr l) (flags l) (binding_state l) (next_binding_state l) (desired_binding_state l) (rewind_binding_state l) (tstp l) (tsfp l) (atsfp l) (cltt l) (ddns_cb l).
Definition set_subnet v (l : lease) : lease := Lease (next l) (n_uid l) (n_hw l) (ip_addr l) (starts l) (ends l) (sort_time l) (client_hostname l) (scope l) (host l) v (pool l) (billing_class l) (agent_options l) (on_star l) (uid l) (hardware_addr l) (flags l) (binding_state l) (next_binding_state l) (desired_binding_state l) (rewind_binding_state l) (tstp l) (tsfp l) (atsfp l) (cltt l) (ddns_cb l).
Definition set_pool v (l : lease) : lease := Lease (next l) (n_uid l) (n_hw l) (ip_addr l) (starts l) (ends l) (sort_time l) (client_hostname l) (scope l) (host l) (subnet l) v (billing_class l) (agent_options l) (on_star l) (uid l) (hardware_addr l) (flags l) (binding_state l) (next_binding_state l) (desired_binding_state l) (rewind_binding_state l) (tstp l) (tsfp l) (atsfp l) (cltt l) (ddns_cb l).
Definition set_billing_class v (l : lease) : lease := Lease (next l) (n_uid l) (n_hw l) (ip_addr l) (starts l) (ends l) (sort_time l) (client_hostname l) (scope l) (host l) (subnet l) (pool l) v (agent_options l) (on_star l) (uid l) (hardware_addr l) (flags l) (binding_state l) (next_binding_state l) (desired_binding_state l) (rewind_binding_state l) (tstp l) (tsfp l) (atsfp l) (cltt l) (ddns_cb l).
Definition set_agent_options v (l : lease) : lease := Lease (next l) (n_uid l) (n_hw l) (ip_addr l) (starts l) (ends l) (sort_time l) (client_hostname l) (scope l) (host l) (subnet l) (pool l) (billing_class l) v (on_star l) (uid l) (hardware_addr l) (flags l) (binding_state l) (next_binding_state l) (desired_binding_state l) (rewind_binding_state l) (tstp l) (tsfp l) (atsfp l) (cltt l) (ddns_cb l).
Definition set_on_star v (l : lease) : lease := Lease (next l) (n_uid l) (n_hw l) (ip_addr l) (starts l) (ends l) (sort_time l) (client_hostname l) (scope l) (host l) (subnet l) (pool l) (billing_class l) (agent_options l) v (uid l) (hardware_addr l) (flags l) (binding_state l) (next_binding_state l) (desired_binding_state l) (rewind_binding_state l) (tstp l) (tsfp l) (atsfp l) (cltt l) (ddns_cb l).
Definition set_uid v (l : lease) : lease := Lease (next l) (n_uid l) (n_hw l) (ip_addr l) (starts l) (ends l) (sort_time l) (client_hostname l) (scope l) (host l) (subnet l) (pool l) (billing_class l) (agent_options l) (on_star l) v (hardware_addr l) (flags l) (binding_state l) (next_binding_state l) (desired_binding_state l) (rewind_binding_state l) (tstp l) (tsfp l) (atsfp l) (cltt l) (ddns_cb l).
Definition set_hardware_addr v (l : lease) : lease := Lease (next l) (n_uid l) (n_hw l) (ip_addr l) (starts l) (ends l) (sort_time l) (client_hostname l) (scope l) (host l) (subnet l) (pool l) (billing_class l) (agent_options l) (on_star l) (uid l) v (flags l) (binding_state l) (next_binding_state l) (desired_binding_state l) (rewind_binding_state l) (tstp l) (tsfp l) (atsfp l) (cltt l) (ddns_cb l).
Definition set_flags v (l : lease) : lease := Lease (next l) (n_uid l) (n_hw l) (ip_addr l) (starts l) (ends l) (sort_time l) (client_hostname l) (scope l) (host l) (subnet l) (pool l) (billing_class l) (agent_options l) (on_star l) (uid l) (hardware_addr l) v (binding_state l) (next_binding_state l) (desired_binding_state l) (rewind_binding_state l) (tstp l) (tsfp l) (atsfp l) (cltt l) (ddns_cb l).
Definition set_binding_state v (l : lease) : lease := Lease (next l) (n_uid l) (n_hw l) (ip_addr l) (starts l) (ends l) (sort_time l) (client_hostname l) (scope l) (host l) (subnet l) (pool l) (billing_class l) (agent_options l) (on_star l) (uid l) (hardware_addr l) (flags l) v (next_binding_state l) (desired_binding_state l) (rewind_binding_state l) (tstp l) (tsfp l) (atsfp l) (cltt l) (ddns_cb l).
Definition set_next_binding_state v (l : lease) : lease := Lease (next l) (n_uid l) (n_hw l) (ip_addr l) (starts l) (ends l) (sort_time l) (client_hostname l) (scope l) (host l) (subnet l) (pool l) (billing_class l) (agent_options l) (on_star l) (uid l) (hardware_addr l) (flags l) (binding_state l) v (desired_binding_state l) (rewind_binding_state l) (tstp l) (tsfp l) (atsfp l) (cltt l) (ddns_cb l).
Definition set_desired_binding_state v (l : lease) : lease := Lease (next l) (n_uid l) (n_hw l) (ip_addr l) (starts l) (ends l) (sort_time l) (client_hostname l) (scope l) (host l) (subnet l) (pool l) (billing_class l) (agent_options l) (on_star l) (uid l) (hardware_addr l) (flags l) (binding_state l) (next_binding_state l) v (rewind_binding_state l) (tstp l) (tsfp l) (atsfp l) (cltt l) (ddns_cb l).
Definition set_rewind_binding_state v (l : lease) : lease := Lease (next l) (n_uid l) (n_hw l) (ip_addr l) (starts l) (ends l) (sort_time l) (client_hostname l) (scope l) (host l) (subnet l) (pool l) (billing_class l) (agent_options l) (on_star l) (uid l) (hardware_addr l) (flags l) (binding_state l) (next_binding_state l) (desired_binding_state l) v (tstp l) (tsfp l) (atsfp l) (cltt l) (ddns_cb l).
Definition set_tstp v (l : lease) : lease := Lease (next l) (n_uid l) (n_hw l) (ip_addr l) (starts l) (ends l) (sort_time l) (client_hostname l) (scope l) (host l) (subnet l) (pool l) (billing_class l) (agent_options l) (on_star l) (uid l) (hardware_addr l) (flags l) (binding_state l) (next_binding_state l) (desired_binding_state l) (rewind_binding_state l) v (tsfp l) (atsfp l) (cltt l) (ddns_cb l).
Definition set_tsfp v (l : lease) : lease := Lease (next l) (n_uid l) (n_hw l) (ip_addr l) (starts l) (ends l) (sort_time l) (client_hostname l) (scope l) (host l) (subnet l) (pool l) (billing_class l) (agent_options l) (on_star l) (uid l) (hardware_addr l) (flags l) (binding_state l) (next_binding_state l) (desired_binding_state l) (rewind_binding_state l) (tstp l) v (atsfp l) (cltt l) (ddns_cb l).
Definition set_atsfp v (l : lease) : lease := Lease (next l) (n_uid l) (n_hw l) (ip_addr l) (starts l) (ends l) (sort_time l) (client_hostname l) (scope l) (host l) (subnet l) (pool l) (billing_class l) (agent_options l) (on_star l) (uid l) (hardware_addr l) (flags l) (binding_state l) (next_binding_state l) (desired_binding_state l) (rewind_binding_state l) (tstp l) (tsfp l) v (cltt l) (ddns_cb l).
Definition set_cltt v (l : lease) : lease := Lease (next l) (n_uid l) (n_hw l) (ip_addr l) (starts l) (ends l) (sort_time l) (client_hostname l) (scope l) (host l) (subnet l) (pool l) (billing_class l) (agent_options l) (on_star l) (uid l) (hardware_addr l) (flags l) (binding_state l) (next_binding_state l) (desired_binding_state l) (rewind_binding_state l) (tstp l) (tsfp l) (atsfp l) v (ddns_cb l).
Definition set_ddns_cb v (l : lease) : lease := Lease (next l) (n_uid l) (n_hw l) (ip_addr l) (starts l) (ends l) (sort_time l) (client_hostname l) (scope l) (host l) (subnet l) (pool l) (billing_class l) (agent_options l) (on_star l) (uid l) (hardware_addr l) (flags l) (binding_state l) (next_binding_state l) (desired_binding_state l) (rewind_binding_state l) (tstp l) (tsfp l) (atsfp l) (cltt l) v.

(** The queues of a pool, in the order in which its timer looks at them. *)
Inductive queue : Type := free | active | expired | abandoned | backup | reserved.

#[export] Instance queue_eq_dec : EqDecision queue.
Proof. solve_decision. Defined.

Definition all_queues : list queue := [free; active; expired; abandoned; backup; reserved].

(** [timer]: the time at which [pool_timer] is to be called with this pool; a pool has
    one timeout, which [add_timeout] replaces. *)
Record pool_t : Type := Pool {
  heads : queue -> ptr;
  next_event_time : Z;
  lease_count : Z;
  free_leases : Z;
  backup_leases : Z;
  failover_peer : option positive;
  timer : option Z
}.

Definition set_head (q : queue) (p : ptr) (P : pool_t) : pool_t :=
  Pool (fun q' => if decide (q' = q) then p else heads P q') (next_event_time P) (lease_count P) (free_leases P) (backup_leases P) (failover_peer P) (timer P).
Definition set_counts (n f b : Z) (P : pool_t) : pool_t := Pool (heads P) (next_event_time P) n f b (failover_peer P) (timer P).
Definition set_event_time (t : Z) (P : pool_t) : pool_t := Pool (heads P) t (lease_count P) (free_leases P) (backup_leases P) (failover_peer P) (timer P).

(** [pool->next_event_time = t; add_timeout (t, pool_timer, pool)] *)
Definition arm (t : Z) (P : pool_t) : pool_t := Pool (heads P) t (lease_count P) (free_leases P) (backup_leases P) (failover_peer P) (Some t).

(** What is read of a failover peer. *)
Record peer_t : Type := Peer { i_am : role; me_state : failover_state; me_stos : Z; service_state : service_state_t; mclt : Z }.

(** A class with a limit on its leases. *)
Record class_t : Type := Class { leases_consumed : Z; billed_leases : list ptr }.

Definition lease_limit (k : class_t) : Z := Zlen (billed_leases k).

(** The hash tables: a stack of leases for each key, which is what the tables of
    [HashTable] are. *)
Abbreviation table := (gmap (list Z) (list positive)).

Definition hash_lookup (h : table) (k : list Z) : ptr := match h !! k with Some (x :: _) => Some x | _ => None end.
Definition hash_add (h : table) (k : list Z) (x : positive) : table := <[k := x :: default [] (h !! k)]> h.
Definition hash_delete (h : table) (k : list Z) : table := match h !! k with Some (_ :: r) => <[k := r]> h | _ => h end.

(** What is done besides: a lease is written with its state and its end, or committed, or handed to
    the failover protocol; the pool is looked at for its balance; statements
    are run. *)
Inductive event : Type :=
| Wrote (x : positive) (b : binding_state_t) (ends : Z)
| Committed
| Announced (x : positive) (b : binding_state_t) (immediate : bool)
| Balanced (p : positive)
| Ran (x : positive) (l : list Expr.statement).

(** [qfollow] and [nosync] are the bits of [server_starting]; [last_lq] and
    [last_insert_point] the static variables of [lease_insert]. *)
Record db : Type := Db {
  leases : gmap positive lease;
  pools : gmap positive pool_t;
  peers : gmap positive peer_t;
  classes : gmap positive class_t;
  ip_hash : table;
  uid_hash : table;
  hw_hash : table;
  qfollow : bool;
  nosync : bool;
  last_lq : option (positive * queue);
  last_insert_point : ptr;
  log : list (event * bool)
}.
Definition with_leases (w : db) v : db := Db v (pools w) (peers w) (classes w) (ip_hash w) (uid_hash w) (hw_hash w) (qfollow w) (nosync w) (last_lq w) (last_insert_point w) (log w).
Definition with_pools (w : db) v : db := Db (leases w) v (peers w) (classes w) (ip_hash w) (uid_hash w) (hw_hash w) (qfollow w) (nosync w) (last_lq w) (last_insert_point w) (log w).
Definition with_classes (w : db) v : db := Db (leases w) (pools w) (peers w) v (ip_hash w) (uid_hash w) (hw_hash w) (qfollow w) (nosync w) (last_lq w) (last_insert_point w) (log w).
Definition with_ip_hash (w : db) v : db := Db (leases w) (pools w) (peers w) (classes w) v (uid_hash w) (hw_hash w) (qfollow w) (nosync w) (last_lq w) (last_insert_point w) (log w).
Definition with_uid_hash (w : db) v : db := Db (leases w) (pools w) (peers w) (classes w) (ip_hash w) v (hw_hash w) (qfollow w) (nosync w) (last_lq w) (last_insert_point w) (log w).
Definition with_hw_hash (w : db) v : db := Db (leases w) (pools w) (peers w) (classes w) (ip_hash w) (uid_hash w) v (qfollow w) (nosync w) (last_lq w) (last_insert_point w) (log w).
Definition with_log (w : db) v : db := Db (leases w) (pools w) (peers w) (classes w) (ip_hash w) (uid_hash w) (hw_hash w) (qfollow w) (nosync w) (last_lq w) (last_insert_point w) v.
Definition with_insert (w : db) l x : db := Db (leases w) (pools w) (peers w) (classes w) (ip_hash w) (uid_hash w) (hw_hash w) (qfollow w) (nosync w) l x (log w).
Definition with_starting (w : db) q n : db := Db (leases w) (pools w) (peers w) (classes w) (ip_hash w) (uid_hash w) (hw_hash w) q n (last_lq w) (last_insert_point w) (log w).

(** What the functions get from elsewhere: the time, [abandon-lease-time], what is left of
    scope and kept statements of a lease when statements have been executed for it or its
    names have been removed from the DNS, whether memory is available and a lease
    file can be written, and what [dhcp_failover_queue_update] does to the flags and the
    [rewind_binding_state] of the leases. *)
Record world : Type := World {
  cur_time : Z;
  abandon_lease_time : Z;
  execute : bool -> lease -> list Expr.statement -> option scope_t * on_star_t;
  ddns_removals : bool -> lease -> option scope_t * option Z;
  memory : bool;
  answer : list (event * bool) -> event -> bool;
  announce : db -> positive -> bool -> positive -> lease -> Z * binding_state_t
}.

Section Database.
Context (W : world).

(** ** Access *)

Definition get (w : db) (x : positive) : outcome lease := match leases w !! x with Some l => Ret l | None => Undef end.
Definition put (w : db) (x : positive) (f : lease -> lease) : outcome db := l ← get w x; Ret (with_leases w (<[x := f l]> (leases w))).
Definition get_pool (w : db) (p : positive) : outcome pool_t := match pools w !! p with Some P => Ret P | None => Undef end.
Definition put_pool (w : db) (p : positive) (f : pool_t -> pool_t) : outcome db := P ← get_pool w p; Ret (with_pools w (<[p := f P]> (pools w))).
Definition get_class (w : db) (k : positive) : outcome class_t := match classes w !! k with Some K => Ret K | None => Undef end.
Definition put_class (w : db) (k : positive) (K : class_t) : db := with_classes w (<[k := K]> (classes w)).

(** An action and its success, which are both noted. *)
Definition act (w : db) (e : event) : db * bool := let ok := answer W (log w) e in (with_log w (log w ++ [(e, ok)]), ok).

Definition reference (dst src : ptr) : ptr := match dst with Some _ => dst | None => src end.

(** [lease->pool->failover_peer], when both are there. *)
Definition peer_of (w : db) (l : lease) : option peer_t := p ← pool l; P ← pools w !! p; f ← failover_peer P; peers w !! f.

(** ** The queues *)

(** The queue of a lease, by its state. *)
Definition queue_of (l : lease) : option queue :=
  match binding_state l with
  | FTS_FREE => Some (if negb (Z.land (flags l) RESERVED_LEASE =? 0) then reserved else free)
  | FTS_ACTIVE => Some active
  | FTS_EXPIRED | FTS_RELEASED | FTS_RESET => Some expired
  | FTS_ABANDONED => Some abandoned
  | FTS_BACKUP => Some (if negb (Z.land (flags l) RESERVED_LEASE =? 0) then reserved else backup)
  | FTS_other _ => None
  end.

(** [free_leases] or [backup_leases] changes by [d] with the queue. *)
Definition count (q : queue) (d : Z) (P : pool_t) : pool_t :=
  match q with
  | free => set_counts (lease_count P) (free_leases P + d) (backup_leases P) P
  | backup => set_counts (lease_count P) (free_leases P) (backup_leases P + d) P
  | _ => P
  end.

(** The lease before [x] on a queue; it is fatal when [x] is not there. *)
Fixpoint find_prev (fuel : nat) (w : db) (lp : ptr) (prev : ptr) (x : positive) : outcome ptr :=
  match lp with
  | None => Fatal
  | Some y =>
    if decide (y = x) then Ret prev
    else match fuel with O => Undef | S fuel => l ← get w y; find_prev fuel w (next l) (Some y) x end
  end.

Definition lease_remove (w : db) (p : positive) (q : queue) (comp : positive) : outcome db :=
  P ← get_pool w p;
  prev ← find_prev (size (leases w)) w (heads P q) None comp;
  c ← get w comp;
  match prev with
  | Some y =>
    w ← put w y (set_next None);
    match next c with
    | Some n => w ← put w y (set_next (Some n)); put w comp (set_next None)
    | None => Ret w
    end
  | None =>
    match next c with
    | Some n => w ← put_pool w p (set_head q (Some n)); put w comp (set_next None)
    | None => put_pool w p (set_head q None)
    end
  end.

(** The last lease before the first one that is not earlier than [t]. *)
Fixpoint find_point (fuel : nat) (w : db) (lp : ptr) (prev : ptr) (t : Z) : outcome ptr :=
  match lp with
  | None => Ret prev
  | Some y =>
    l ← get w y;
    if t <=? sort_time l then Ret prev
    else match fuel with O => Undef | S fuel => find_point fuel w (next l) (Some y) t end
  end.

Definition lease_insert (w : db) (p : positive) (q : queue) (comp : positive) : outcome db :=
  c ← get w comp;
  P ← get_pool w p;
  start ← (if qfollow w && bool_decide (last_lq w = Some (p, q)) && bool_decide (last_insert_point w <> Some comp) then
             match last_insert_point w with
             | None => Undef
             | Some y => l ← get w y; Ret (if sort_time l <=? sort_time c then Some (y, next l) else None)
             end
           else Ret None);
  prev ← match start with
         | Some (y, n) => find_point (size (leases w)) w n (Some y) (sort_time c)
         | None => find_point (size (leases w)) w (heads P q) None (sort_time c)
         end;
  w ← match prev with
      | Some y =>
        l ← get w y;
        w ← match next l with
            | Some n => w ← put w comp (fun c => set_next (reference (next c) (Some n)) c); put w y (set_next None)
            | None => Ret w
            end;
        put w y (fun l => set_next (reference (next l) (Some comp)) l)
      | None =>
        w ← match heads P q with
            | Some n => put w comp (fun c => set_next (reference (next c) (Some n)) c)
            | None => Ret w
            end;
        put_pool w p (set_head q (Some comp))
      end;
  Ret (with_insert w (Some (p, q)) (Some comp)).

(** The time at which something happens to the lease. *)
Definition event_time (w : db) (l : lease) : Z :=
  match binding_state l, peer_of w l with
  | (FTS_EXPIRED | FTS_RELEASED | FTS_RESET), Some f => if bool_decide (me_state f = partner_down) then (if ends l <? tsfp l then tsfp l else ends l) else ends l
  | _, _ => ends l
  end.

Definition lease_enqueue (w : db) (comp : positive) : outcome (db * bool) :=
  c ← get w comp;
  match pool c, queue_of c with
  | Some p, Some q =>
    let t := event_time w c in
    w ← put_pool w p (count q 1);
    w ← put w comp (set_sort_time t);
    w ← lease_insert w p q comp;
    Ret (w, true)
  | _, _ => Ret (w, false)
  end.
(** ** The leases of a client *)

(** The two lists of the leases of a client. *)
Inductive link : Type := by_uid | by_hw.

#[export] Instance link_eq_dec : EqDecision link.
Proof. solve_decision. Defined.

Definition link_of (k : link) (l : lease) : ptr := match k with by_uid => n_uid l | by_hw => n_hw l end.
Definition set_link (k : link) (p : ptr) (l : lease) : lease := match k with by_uid => set_n_uid p l | by_hw => set_n_hw p l end.
Definition table_of (k : link) (w : db) : table := match k with by_uid => uid_hash w | by_hw => hw_hash w end.
Definition with_table (k : link) (w : db) (h : table) : db := match k with by_uid => with_uid_hash w h | by_hw => with_hw_hash w h end.

(** The key of a lease; [uid_len] octets at [uid], or [hlen] octets of [hbuf]. *)
Definition key_of (k : link) (l : lease) : list Z :=
  match k with by_uid => match uid l with Some (_, u) => u | None => [] end | by_hw => hardware_addr l end.

(** An Infiniband hardware address has no octets but its type, and is not entered. *)
Definition infiniband (k : link) (key : list Z) : bool := match k with by_uid => false | by_hw => bool_decide (key = [HTYPE_INFINIBAND]) end.

Definition find_lease_by_ip_addr (w : db) (addr : list Z) : ptr := hash_lookup (ip_hash w) addr.

(** [find_lease_by_uid] and [find_lease_by_hw_addr] *)
Definition find_lease (k : link) (w : db) (key : list Z) : ptr :=
  if bool_decide (key = []) then None else if infiniband k key then None else hash_lookup (table_of k w) key.

(** Whether [l] comes before [cand] among the leases of a client. *)
Definition client_lease_preferred (cand l : lease) : bool :=
  match binding_state cand with
  | FTS_ACTIVE => bool_decide (binding_state l = FTS_ACTIVE) && (ends cand <=? ends l)
  | FTS_EXPIRED | FTS_RELEASED =>
    match binding_state l with
    | FTS_ACTIVE => true
    | FTS_EXPIRED | FTS_RELEASED => cltt cand <=? cltt l
    | _ => false
    end
  | FTS_ABANDONED => bool_decide (binding_state l <> FTS_ABANDONED) || (cltt cand <=? cltt l)
  | _ =>
    match binding_state l with
    | FTS_ACTIVE | FTS_EXPIRED | FTS_RELEASED => true
    | FTS_ABANDONED => false
    | _ => cltt cand <=? cltt l
    end
  end.

(** The last lease before the first one that [l] is preferred to. *)
Fixpoint find_place (fuel : nat) (k : link) (w : db) (l : lease) (cand prev : ptr) : outcome ptr :=
  match cand with
  | None => Ret prev
  | Some y =>
    c ← get w y;
    if client_lease_preferred c l then Ret prev
    else match fuel with O => Undef | S fuel => find_place fuel k w l (link_of k c) (Some y) end
  end.

(** [uid_hash_add] and [hw_hash_add] *)
Definition client_hash_add (k : link) (w : db) (x : positive) : outcome db :=
  l ← get w x;
  let key := key_of k l in
  if infiniband k key then Ret w
  else
    match find_lease k w key with
    | None => Ret (with_table k w (hash_add (table_of k w) key x))
    | Some head =>
      prev ← find_place (size (leases w)) k w l (Some head) None;
      match prev with
      | None =>
        w ← put w x (fun l => set_link k (reference (link_of k l) (Some head)) l);
        Ret (with_table k w (hash_add (hash_delete (table_of k w) key) key x))
      | Some y =>
        c ← get w y;
        w ← match link_of k c with
            | Some n => w ← put w x (fun l => set_link k (reference (link_of k l) (Some n)) l); put w y (set_link k None)
            | None => Ret w
            end;
        put w y (fun c => set_link k (reference (link_of k c) (Some x)) c)
      end
    end.

(** The lease whose successor is [x]. *)
Fixpoint find_scan (fuel : nat) (k : link) (w : db) (scan : positive) (x : positive) : outcome ptr :=
  c ← get w scan;
  match link_of k c with
  | None => Ret None
  | Some n => if decide (n = x) then Ret (Some scan) else match fuel with O => Undef | S fuel => find_scan fuel k w n x end
  end.

(** [uid_hash_delete] and [hw_hash_delete] *)
Definition client_hash_delete (k : link) (w : db) (x : positive) : outcome db :=
  l ← get w x;
  let key := key_of k l in
  if infiniband k key then Ret w
  else
    match find_lease k w key with
    | None => put w x (set_link k None)
    | Some head =>
      if decide (head = x) then
        let w := with_table k w (hash_delete (table_of k w) key) in
        match link_of k l with
        | Some n => c ← get w n; put (with_table k w (hash_add (table_of k w) (key_of k c) n)) x (set_link k None)
        | None => Ret w
        end
      else
        scan ← find_scan (size (leases w)) k w head x;
        match scan with
        | None => Ret w
        | Some y =>
          w ← put w y (set_link k None);
          match link_of k l with
          | Some n => w ← put w y (set_link k (Some n)); put w x (set_link k None)
          | None => Ret w
          end
        end
    end.

(** The two tables of clients. *)
Definition find_lease_by_uid : db -> list Z -> ptr := find_lease by_uid.
Definition find_lease_by_hw_addr : db -> list Z -> ptr := find_lease by_hw.
Definition uid_hash_add : db -> positive -> outcome db := client_hash_add by_uid.
Definition hw_hash_add : db -> positive -> outcome db := client_hash_add by_hw.
Definition uid_hash_delete : db -> positive -> outcome db := client_hash_delete by_uid.
Definition hw_hash_delete : db -> positive -> outcome db := client_hash_delete by_hw.

(** ** Billing (server/class.c) *)

(** The first place that holds [p]. *)
Fixpoint find_billed (l : list ptr) (p : ptr) : option nat :=
  match l with
  | [] => None
  | y :: l => if decide (y = p) then Some O else option_map S (find_billed l p)
  end.

Definition unbill_class (w : db) (x : positive) : outcome db :=
  l ← get w x;
  match billing_class l with
  | None => Ret w
  | Some k =>
    K ← get_class w k;
    let w := match find_billed (billed_leases K) (Some x) with
             | None => w
             | Some i => put_class w k (Class (leases_consumed K - 1) (<[i := None]> (billed_leases K)))
             end in
    put w x (set_billing_class None)
  end.

Definition bill_class (w : db) (x : positive) (k : positive) : outcome (db * bool) :=
  l ← get w x;
  w ← match billing_class l with Some _ => unbill_class w x | None => Ret w end;
  K ← get_class w k;
  if leases_consumed K =? lease_limit K then Ret (w, false)
  else
    match find_billed (billed_leases K) None with
    | None => Ret (w, false)
    | Some i =>
      w ← put w x (set_billing_class (Some k));
      Ret (put_class w k (Class (leases_consumed K + 1) (<[i := Some x]> (billed_leases K))), true)
    end.

(** ** State transitions *)

(** The lease was active, is so no longer and was not released. *)
Definition expires (peer : bool) (l : lease) : bool :=
  bool_decide (next_binding_state l <> binding_state l) &&
  (if peer then
     (bool_decide (binding_state l = FTS_EXPIRED) || bool_decide (binding_state l = FTS_ACTIVE)) &&
     (bool_decide (next_binding_state l = FTS_FREE) || bool_decide (next_binding_state l = FTS_BACKUP))
   else bool_decide (binding_state l = FTS_ACTIVE) && bool_decide (next_binding_state l <> FTS_RELEASED)).

(** The lease was active and is released. *)
Definition releases (peer : bool) (l : lease) : bool :=
  bool_decide (next_binding_state l <> binding_state l) &&
  (if peer then
     bool_decide (binding_state l = FTS_RELEASED) &&
     (bool_decide (next_binding_state l = FTS_FREE) || bool_decide (next_binding_state l = FTS_BACKUP))
   else bool_decide (binding_state l = FTS_ACTIVE) && bool_decide (next_binding_state l = FTS_RELEASED)).

(** [ddns_removals] for the lease. *)
Definition remove_names (w : db) (x : positive) (act_on : bool) : outcome db :=
  put w x (fun l => let '(s, cb) := ddns_removals W act_on l in set_ddns_cb cb (set_scope s l)).

(** [execute_statements] with the scope of the lease, and with the packet of a client or
    without one. *)
Definition run (packet : bool) (w : db) (x : positive) (st : list Expr.statement) : outcome db :=
  l ← get w x;
  let '(s, o) := execute W packet l st in
  put (fst (act w (Ran x st))) x (fun l => set_on_star o (set_scope s l)).

Definition no_expiry (l : lease) : lease := set_on_star (Expr.OnStar [] (Expr.on_release (on_star l)) (Expr.on_commit (on_star l))) l.
Definition no_release (l : lease) : lease := set_on_star (Expr.OnStar (Expr.on_expiry (on_star l)) [] (Expr.on_commit (on_star l))) l.
Definition no_commit (l : lease) : lease := set_on_star (Expr.OnStar (Expr.on_expiry (on_star l)) (Expr.on_release (on_star l)) []) l.

(** What only a lease in use has is taken from it. *)
Definition forget_client (w : db) (x : positive) : outcome db :=
  w ← unbill_class w x;
  put w x (fun l => set_tstp (ends l) (set_host None (set_client_hostname None (set_agent_options None l)))).

(** The next state of a lease that has got into a state. *)
Definition settle (peer : option peer_t) (l : lease) : lease :=
  match binding_state l with
  | FTS_ACTIVE => set_next_binding_state (if bool_decide (peer <> None) then FTS_EXPIRED else FTS_FREE) l
  | FTS_EXPIRED | FTS_RELEASED | FTS_ABANDONED | FTS_RESET =>
    let l := set_next_binding_state FTS_FREE l in
    match peer with
    | Some f => if bool_decide (me_state f = partner_down) then set_tsfp (me_stos f + mclt f) l else l
    | None => l
    end
  | FTS_FREE | FTS_BACKUP => set_next_binding_state (binding_state l) l
  | FTS_other _ => l
  end.

Definition make_binding_state_transition (w : db) (x : positive) : outcome db :=
  l ← get w x;
  let peer := peer_of w l in
  w ← (if expires (bool_decide (peer <> None)) l then
         w ← remove_names w x true;
         l ← get w x;
         w ← match Expr.on_expiry (on_star l) with
             | [] => Ret w
             | st => w ← run false w x st; put w x no_expiry
             end;
         w ← put w x no_release;
         forget_client w x
       else Ret w);
  l ← get w x;
  w ← (if releases (bool_decide (peer <> None)) l then
         w ← remove_names w x true;
         l ← get w x;
         w ← match Expr.on_release (on_star l) with
             | [] => Ret w
             | st => w ← run false w x st; put w x no_release
             end;
         w ← put w x no_expiry;
         forget_client w x
       else Ret w);
  w ← put w x (fun l => set_binding_state (next_binding_state l) l);
  put w x (settle peer).

(** ** Superseding a lease *)

(** The octets of a client identifier are copied into the buffer of the lease when
    they fit, and taken from the sample otherwise. *)
Definition take_uid (s : lease) : outcome (option (bool * list Z) * lease) :=
  match uid s with
  | None => Ret (None, s)
  | Some (in_buf, u) =>
    if Zlen u <=? UID_BUF then Ret (Some (true, u), s)
    else if negb in_buf then Ret (Some (false, u), set_uid None s)
    else Fatal
  end.

Definition keep (new old : list Expr.statement) : list Expr.statement := match new with [] => old | _ => new end.

(** The data of the sample, with what it gives away. *)
Definition copy_data (s c : lease) (u : option (bool * list Z)) : lease :=
  let c := set_uid u (set_starts (starts s) c) in
  let c := set_scope (scope s) (set_hardware_addr (hardware_addr s) (set_host (host s) c)) in
  let c := set_agent_options (match next_binding_state s with FTS_ACTIVE | FTS_EXPIRED => agent_options s | _ => None end) c in
  let c := set_client_hostname (client_hostname s) c in
  set_on_star (Expr.OnStar (keep (Expr.on_expiry (on_star s)) (Expr.on_expiry (on_star c)))
                           (keep (Expr.on_release (on_star s)) (Expr.on_release (on_star c)))
                           (keep (Expr.on_commit (on_star s)) (Expr.on_commit (on_star c)))) c.

Definition given_away (s : lease) : lease := set_client_hostname None (set_agent_options None (set_scope None s)).

Definition copy_times (s c : lease) : lease :=
  let c := set_atsfp (atsfp s) (set_tsfp (tsfp s) (set_tstp (tstp s) (set_cltt (cltt s) c))) in
  let c := set_next_binding_state (next_binding_state s) (set_ends (ends s) c) in
  match ddns_cb s with Some _ => set_ddns_cb (ddns_cb s) c | None => c end.

(** The first part of [supersede_lease], up to [just_move_it]. *)
Definition copy_sample (w : db) (comp : positive) (s : lease) : outcome (db * lease) :=
  c ← get w comp;
  w ← match uid c with
      | Some _ => w ← uid_hash_delete w comp; put w comp (set_uid None)
      | None => Ret w
      end;
  w ← (if bool_decide (hardware_addr c <> []) then hw_hash_delete w comp else Ret w);
  w ← (if bool_decide (billing_class c <> billing_class s) then
         w ← unbill_class w comp;
         match billing_class s with Some k => r ← bill_class w comp k; Ret r.1 | None => Ret w end
       else Ret w);
  us ← take_uid s;
  let '(u, s) := us in
  w ← put w comp (fun c => copy_data s c u);
  let s := given_away s in
  c ← get w comp;
  w ← match uid c with Some _ => uid_hash_add w comp | None => Ret w end;
  w ← (if bool_decide (hardware_addr c <> []) then hw_hash_add w comp else Ret w);
  w ← put w comp (copy_times s);
  Ret (w, s).

(** [dhcp_failover_queue_update] changes the bits of the update queues and the state to
    rewind to. *)
Definition queue_update (w : db) (x : positive) (b : binding_state_t) (immediate : bool) : db * bool :=
  let f := announce W w x immediate in
  let set y l := let '(bits, r) := f y l in
    set_rewind_binding_state r (set_flags (Z.lor (Z.land (flags l) (Z.lnot PERSISTENT_FLAGS)) (Z.land bits PERSISTENT_FLAGS)) l) in
  act (with_leases w (map_imap (fun y l => Some (set y l)) (leases w))) (Announced x b immediate).

(** The lease and the updates: what follows the insertion into the new queue. *)
Definition record_lease (w : db) (comp : positive) (commit propogate : bool) : outcome (db * bool) :=
  if negb commit then Ret (w, true)
  else
    c ← get w comp;
    w ← (if propogate &&
            match peer_of w c with Some f => bool_decide (service_state f = cooperating) || bool_decide (service_state f = not_responding) | None => false end
         then put w comp (fun c => set_rewind_binding_state (binding_state c) c) else Ret w);
    let '(w, written) := act w (Wrote comp (binding_state c) (ends c)) in
    if negb written then Ret (w, false)
    else if nosync w then Ret (w, true)
    else Ret (act w Committed).

(** The lease leaves its queue, makes its transition and is put on a queue again. *)
Definition change_queue (w : db) (comp : positive) (s : option lease) (transition : bool) (p : positive) (lq : queue) : outcome (db * bool) :=
  w ← put_pool w p (count lq (-1));
  w ← lease_remove w p lq comp;
  w ← match s with
      | Some s => put w comp (fun c => set_flags (Z.lor (Z.land (flags s) (Z.lnot PERSISTENT_FLAGS)) (Z.land (flags c) (Z.lnot EPHEMERAL_FLAGS))) c)
      | None => Ret w
      end;
  w ← (if transition then make_binding_state_transition w comp else Ret w);
  lease_enqueue w comp.

(** The timer of the pool, the lease file and the failover peer. *)
Definition publish (w : db) (comp : positive) (p : positive) (commit propogate pimmediate do_pool_check : bool) : outcome (db * bool) :=
  c ← get w comp;
  P ← get_pool w p;
  w ← (if (commit || negb pimmediate) && negb (sort_time c =? MIN_TIME) && (cur_time W <? sort_time c) &&
          ((sort_time c <? next_event_time P) || (next_event_time P =? MIN_TIME))
       then put_pool w p (arm (sort_time c)) else Ret w);
  r ← record_lease w comp commit propogate;
  let '(w, recorded) := r in
  if negb recorded then Ret (w, false)
  else
    r ← (if propogate then
           w ← put w comp (fun c => set_desired_binding_state (binding_state c) c);
           Ret (queue_update w comp (binding_state c) pimmediate)
         else Ret (w, true));
    let '(w, queued) := r in
    if negb queued then Ret (w, false)
    else Ret (if do_pool_check && bool_decide (failover_peer P <> None) then fst (act w (Balanced p)) else w, true).

(** The second part of [supersede_lease], from [just_move_it]; [pool_timer] is called
    for a lease whose time has passed already. *)
Definition move_it (pool_timer : db -> positive -> outcome db) (w : db) (comp : positive) (s : option lease) (commit propogate pimmediate from_pool : bool) : outcome (db * bool) :=
  w ← (if propogate then put w comp (set_atsfp 0) else Ret w);
  c ← get w comp;
  match pool c, queue_of c with
  | Some p, Some lq =>
    let do_pool_check := bool_decide (binding_state c = FTS_FREE) || bool_decide (binding_state c = FTS_BACKUP) in
    r ← change_queue w comp s (commit || negb pimmediate) p lq;
    let '(w, queued) := r in
    if negb queued then Ret (w, false)
    else
      r ← publish w comp p commit propogate pimmediate do_pool_check;
      let '(w, published) := r in
      if negb published then Ret (w, false)
      else
        c ← get w comp;
        w ← (if negb from_pool && (commit || negb pimmediate) && (sort_time c <? cur_time W) && bool_decide (next_binding_state c <> binding_state c)
             then pool_timer w p else Ret w);
        Ret (w, true)
  | _, _ => Ret (w, false)
  end.

(** [supersede_lease].  The sample is returned as it is left. *)
Definition supersede_lease_with (pool_timer : db -> positive -> outcome db) (w : db) (comp : positive) (s : option lease) (commit propogate pimmediate from_pool : bool) : outcome (db * option lease * bool) :=
  if pimmediate && negb commit then Ret (w, s, false)
  else
    match s with
    | None => r ← move_it pool_timer w comp None commit propogate pimmediate from_pool; Ret (r.1, None, r.2)
    | Some s =>
      if negb (Z.land (flags s) STATIC_LEASE =? 0) then Ret (w, Some s, true)
      else
        ws ← copy_sample w comp s;
        r ← move_it pool_timer ws.1 comp (Some ws.2) commit propogate pimmediate from_pool;
        Ret (r.1, Some ws.2, r.2)
    end.

(** ** The timer of a pool *)

(** A lease that its peer has acknowledged as available may go back to that state. *)
Definition rewind (peer : option peer_t) (l : lease) : lease :=
  match peer with
  | Some f =>
    if bool_decide (service_state f = not_cooperating) && bool_decide (next_binding_state l = FTS_EXPIRED) &&
       ((bool_decide (i_am f = primary) && bool_decide (rewind_binding_state l = FTS_FREE)) ||
        (bool_decide (i_am f = secondary) && bool_decide (rewind_binding_state l = FTS_BACKUP)))
    then set_next_binding_state (rewind_binding_state l) l else l
  | None => l
  end.

(** The call of [supersede_lease] from the timer, which does not call the timer. *)
Definition supersede_from_timer (w : db) (x : positive) : outcome db :=
  r ← supersede_lease_with (fun w _ => Ret w) w x None true true true true; Ret r.1.1.

(** The leases of a queue, from the earliest one. *)
Fixpoint expire_queue (fuel : nat) (w : db) (lp : ptr) (next_expiry : Z) : outcome (db * Z) :=
  match lp with
  | None => Ret (w, next_expiry)
  | Some x =>
    match fuel with
    | O => Undef
    | S fuel =>
      l ← get w x;
      if cur_time W <? sort_time l then Ret (w, if sort_time l <? next_expiry then sort_time l else next_expiry)
      else
        w ← (if bool_decide (next_binding_state l <> binding_state l) then
               w ← put w x (rewind (peer_of w l)); supersede_from_timer w x
             else Ret w);
        expire_queue fuel w (next l) next_expiry
    end
  end.

(** The queues that a failover server leaves to its peer. *)
Definition skipped (peer : option peer_t) (q : queue) : bool :=
  match peer with
  | Some f =>
    bool_decide (me_state f <> partner_down) &&
    match q with
    | active => bool_decide (i_am f = secondary) && bool_decide (me_state f = normal)
    | expired => true
    | _ => false
    end
  | None => false
  end.

Definition pool_peer (w : db) (P : pool_t) : option peer_t := f ← failover_peer P; peers w !! f.

Fixpoint expire_queues (qs : list queue) (w : db) (p : positive) (next_expiry : Z) : outcome (db * Z) :=
  match qs with
  | [] => Ret (w, next_expiry)
  | q :: qs =>
    P ← get_pool w p;
    r ← (if skipped (pool_peer w P) q then Ret (w, next_expiry)
         else expire_queue (S (2 * size (leases w))) w (heads P q) next_expiry);
    expire_queues qs r.1 p r.2
  end.

Definition pool_timer (w : db) (p : positive) : outcome db :=
  r ← expire_queues all_queues w p MAX_TIME;
  let '(w, next_expiry) := r in
  put_pool w p (fun P =>
    if negb (next_expiry =? MAX_TIME) && ((next_expiry <? next_event_time P) || (next_event_time P <=? cur_time W))
    then arm next_expiry P else set_event_time MIN_TIME P).

Definition supersede_lease : db -> positive -> option lease -> bool -> bool -> bool -> bool -> outcome (db * option lease * bool) :=
  supersede_lease_with pool_timer.

(** ** Copies, release and abandonment *)

(** The copy that [lease_copy] makes; it is on no list. *)
Definition copy_of (l : lease) : lease :=
  Lease None None None (ip_addr l) (starts l) (ends l) 0 (client_hostname l) (scope l) (host l) (subnet l) (pool l)
    (billing_class l) (agent_options l) (on_star l) (uid l) (hardware_addr l) (flags l) (binding_state l)
    (next_binding_state l) (FTS_other 0) (rewind_binding_state l) (tstp l) (tsfp l) (atsfp l) (cltt l) None.

Definition lease_copy (l : lease) : option lease := if memory W then Some (copy_of l) else None.

(** Whether a lease in the state is still to be given back. *)
Definition releasable (b : binding_state_t) : bool :=
  match b with FTS_FREE | FTS_BACKUP | FTS_RELEASED | FTS_EXPIRED | FTS_RESET => false | _ => true end.

Definition release_lease (w : db) (x : positive) : outcome db :=
  w ← remove_names w x false;
  l ← get w x;
  w ← match Expr.on_release (on_star l) with
      | [] => Ret w
      | st => w ← run true w x st; put w x no_release
      end;
  w ← put w x no_expiry;
  l ← get w x;
  if releasable (binding_state l) then
    w ← put w x (fun l => set_tstp (cur_time W) (set_ends (cur_time W) (set_scope None (no_commit l))));
    w ← put w x (fun l => set_next_binding_state
          match peer_of w l with
          | Some f =>
            if bool_decide (service_state f = not_cooperating) &&
               ((bool_decide (i_am f = primary) && bool_decide (rewind_binding_state l = FTS_FREE)) ||
                (bool_decide (i_am f = secondary) && bool_decide (rewind_binding_state l = FTS_BACKUP)))
            then rewind_binding_state l else FTS_RELEASED
          | None => FTS_FREE
          end l);
    r ← supersede_lease w x None true true true false; Ret r.1.1
  else Ret w.

(** The sum of two times is one of 64 bits, which does not overflow. *)
Definition abandon_lease (w : db) (x : positive) : outcome db :=
  w ← remove_names w x false;
  l ← get w x;
  match lease_copy l with
  | None => Ret w
  | Some lt =>
    let ends := cur_time W + abandon_lease_time W in
    let ends := if (ends <? cur_time W) || (MAX_TIME <? ends) then MAX_TIME else ends in
    let lt := set_uid None (set_hardware_addr [] (set_next_binding_state FTS_ABANDONED (set_ends ends (set_scope None lt)))) in
    r ← supersede_lease w x (Some lt) true true true false; Ret r.1.1
  end.

(** ** The start of the server *)

(** A lease that was read replaces the one with its address; without a subnet it is
    not kept. *)
Definition enter_lease (w : db) (x : positive) : outcome db :=
  l ← get w x;
  w ← match find_lease_by_ip_addr w (ip_addr l) with
      | Some y =>
        c ← get w y;
        w ← put w x (fun l => set_subnet (match subnet l with Some s => Some s | None => subnet c end) (set_pool (reference (pool l) (pool c)) l));
        Ret (with_ip_hash w (hash_delete (ip_hash w) (ip_addr l)))
      | None => Ret w
      end;
  l ← get w x;
  match subnet l with
  | None => Ret w
  | Some _ => Ret (with_ip_hash w (hash_add (ip_hash w) (ip_addr l) x))
  end.

Definition lease_instantiate (w : db) (x : positive) : outcome db :=
  l ← get w x;
  match pool l with
  | None => Ret (with_ip_hash w (hash_delete (ip_hash w) (ip_addr l)))
  | Some p =>
    P ← get_pool w p;
    w ← (if bool_decide (binding_state l = FTS_BACKUP) && bool_decide (failover_peer P = None)
         then put w x (fun l => set_rewind_binding_state FTS_FREE (set_next_binding_state FTS_FREE (set_binding_state FTS_FREE l)))
         else Ret w);
    r ← lease_enqueue w x;
    let '(w, queued) := r in
    if negb queued then Ret w
    else
      l ← get w x;
      w ← match uid l with Some _ => uid_hash_add w x | None => Ret w end;
      w ← (if bool_decide (hardware_addr l <> []) then hw_hash_add w x else Ret w);
      match billing_class l with
      | None => Ret w
      | Some k =>
        w ← put w x (set_billing_class None);
        match binding_state l with
        | FTS_ACTIVE | FTS_EXPIRED | FTS_RELEASED | FTS_RESET => r ← bill_class w x k; Ret r.1
        | _ => Ret w
        end
      end
  end.

Fixpoint instantiate_all (w : db) (xs : list positive) : outcome db :=
  match xs with [] => Ret w | x :: xs => w ← lease_instantiate w x; instantiate_all w xs end.

(** The leases of a queue are counted, and announced when the peer does not know them. *)
Fixpoint count_queue (fuel : nat) (w : db) (p : positive) (q : queue) (lp : ptr) : outcome db :=
  match lp with
  | None => Ret w
  | Some x =>
    match fuel with
    | O => Undef
    | S fuel =>
      w ← put_pool w p (fun P => set_counts (lease_count P + 1) (free_leases P) (backup_leases P) P);
      l ← get w x;
      w ← (if ends l <=? cur_time W then
             match binding_state l, q with
             | FTS_FREE, free => put_pool w p (count free 1)
             | FTS_BACKUP, backup => put_pool w p (count backup 1)
             | FTS_FREE, reserved | FTS_BACKUP, reserved => Ret w
             | FTS_FREE, _ | FTS_BACKUP, _ => Fatal
             | _, _ => Ret w
             end
           else Ret w);
      P ← get_pool w p;
      w ← (if bool_decide (failover_peer P <> None) && (atsfp l <? tstp l) && (Z.land (flags l) ON_UPDATE_QUEUE =? 0) then
             w ← put w x (fun l => set_desired_binding_state (binding_state l) l);
             Ret (fst (queue_update w x (binding_state l) true))
           else Ret w);
      l ← get w x;
      count_queue fuel w p q (next l)
    end
  end.

Fixpoint count_queues (w : db) (p : positive) (qs : list queue) : outcome db :=
  match qs with
  | [] => Ret w
  | q :: qs => P ← get_pool w p; w ← count_queue (size (leases w)) w p q (heads P q); count_queues w p qs
  end.

Fixpoint expire_pools (w : db) (ps : list positive) : outcome db :=
  match ps with
  | [] => Ret w
  | p :: ps =>
    w ← pool_timer w p;
    w ← put_pool w p (set_counts 0 0 0);
    w ← count_queues w p all_queues;
    expire_pools w ps
  end.

(** [xs]: the leases in the order of the table of addresses; [ps]: the pools of the shared
    networks. *)
Definition expire_all_pools (w : db) (xs ps : list positive) : outcome db :=
  w ← instantiate_all (with_starting w true true) xs;
  w ← expire_pools (with_starting w false (nosync w)) ps;
  Ret (with_starting w false false).


End Database.
(** ** Examples *)

Definition world_at (t : Z) : world :=
  World t 86400 (fun _ l _ => (scope l, on_star l)) (fun _ l => (scope l, ddns_cb l)) true (fun _ _ => true) (fun _ _ _ _ l => (flags l, rewind_binding_state l)).

Definition no_statements : on_star_t := Expr.OnStar [] [] [].

(** A lease of the pool 1, in the given state until the given time. *)
Definition lease_in (b n : binding_state_t) (u : option (list Z)) (t : Z) : lease :=
  Lease None None None [] 0 t 0 None None None (Some 1%positive) (Some 1%positive) None None no_statements (option_map (pair true) u) [] 0 b n (FTS_other 0) FTS_FREE 0 0 0 0 None.

Definition pool0 : pool_t := Pool (fun _ => None) MIN_TIME 0 0 0 None None.

Definition db_of (l : list (positive * lease)) : db := Db (list_to_map l) {[1%positive := pool0]} ∅ ∅ ∅ ∅ ∅ false false None None [].

Definition started (t : Z) (l : list (positive * lease)) : outcome db := expire_all_pools (world_at t) (db_of l) (map fst l) [1%positive].

(** The states of the leases and the timer of the pool. *)
Definition shown (r : outcome db) (l : list positive) : outcome (list (option (binding_state_t * Z)) * option (Z * option Z)) :=
  w ← r; Ret (map (fun x => option_map (fun l => (binding_state l, ends l)) (leases w !! x)) l, option_map (fun P => (next_event_time P, timer P)) (pools w !! 1%positive)).

Definition superseded (t : Z) (x : positive) (s : lease) (r : outcome db) : outcome db :=
  w ← r; r ← supersede_lease (world_at t) w x (Some s) true false true false; Ret r.1.1.

(** A timer is lost: a lease that ends at 100 is in use, and the timer of the pool is
    set for it.  A lease that has ended already is recorded, for which the timer of
    the pool is called at once; it leaves [next_event_time] at [MIN_TIME].  The next
    lease, which ends at 300, then replaces the timeout. *)
Example timer_lost :
  let start := started 50 [(1%positive, lease_in FTS_ACTIVE FTS_FREE None 100); (2%positive, lease_in FTS_FREE FTS_FREE None 0); (3%positive, lease_in FTS_FREE FTS_FREE None 0)] in
  let first := superseded 60 2%positive (lease_in FTS_FREE FTS_ACTIVE None 55) start in
  let second := superseded 60 3%positive (lease_in FTS_FREE FTS_ACTIVE None 300) first in
  shown start [1%positive] = Ret ([Some (FTS_ACTIVE, 100)], Some (100, Some 100)) /\
  shown first [1; 2]%positive = Ret ([Some (FTS_ACTIVE, 100); Some (FTS_FREE, 55)], Some (MIN_TIME, Some 100)) /\
  shown second [1; 3]%positive = Ret ([Some (FTS_ACTIVE, 100); Some (FTS_ACTIVE, 300)], Some (300, Some 300)).
Proof. by vm_compute. Qed.

(** The leases of a client are ordered by the state and the end that they had before they
    were superseded: the lease that the client has got last, and longest, is not found. *)
Example longest_not_first :
  let start := started 50 [(1%positive, lease_in FTS_ACTIVE FTS_FREE (Some [1]) 100); (2%positive, lease_in FTS_FREE FTS_FREE None 0)] in
  let w := superseded 60 2%positive (lease_in FTS_FREE FTS_ACTIVE (Some [1]) 300) start in
  (shown w [1; 2]%positive, (w ← w; Ret (find_lease_by_uid w [1]))) = (Ret ([Some (FTS_ACTIVE, 100); Some (FTS_ACTIVE, 300)], Some (100, Some 100)), Ret (Some 1%positive)).
Proof. by vm_compute. Qed.

(** A free lease with an end in the future is not counted when the server starts. *)
Example free_lease_not_counted :
  (w ← started 50 [(1%positive, lease_in FTS_FREE FTS_FREE None 100)]; P ← get_pool w 1%positive; Ret (heads P free, free_leases P)) = Ret (Some 1%positive, 0).
Proof. by vm_compute. Qed.


End Mdb.
