(* ===== verification/MdbQueue.v ===== *)
(** * The queues of a pool as lists (server/mdb.c)

    A queue that is linked through the leases is a list of leases; [lease_remove] and
    [lease_insert] remove from it and insert into it, and keep it sorted. *)

From Stdlib Require Import ZArith Lia Sorted.
From stdpp Require Import base list numbers option gmap sorting.
From S2P Require Import Prelude.
From S2P Require Import FailoverLease.
From S2P Require Import Mdb.
#[local] Open Scope Z_scope.

Module MdbQueue.

Import Mdb.

(** ** Linked lists *)

(** From [p] the links [f] lead through the leases of the list to [e]. *)
Fixpoint seg (h : gmap positive lease) (f : lease -> ptr) (p : ptr) (l : list positive) (e : ptr) : Prop :=
  match l with
  | [] => p = e
  | x :: l => p = Some x /\ exists v, h !! x = Some v /\ seg h f (f v) l e
  end.

Lemma seg_app h f p l1 l2 e : seg h f p (l1 ++ l2) e <-> exists m, seg h f p l1 m /\ seg h f m l2 e.
Proof.
  revert p. induction l1 as [|x l1 IH]; intros p; cbn.
  - split; [intros H; by exists p|intros (m & -> & H); exact H].
  - split.
    + intros (-> & v & Hv & H). apply IH in H as (m & H1 & H2). exists m. split; [|done]. split; [done|]. by exists v.
    + intros (m & (-> & v & Hv & H1) & H2). split; [done|]. exists v. split; [done|]. apply IH. by exists m.
Qed.

Lemma seg_other h f p l e x v : x ∉ l -> seg h f p l e -> seg (<[x := v]> h) f p l e.
Proof.
  revert p. induction l as [|y l IH]; intros p Hx; cbn; [done|]. intros (-> & u & Hu & H). split; [done|]. apply not_elem_of_cons in Hx as [Hn Hx]. exists u. split; [by rewrite lookup_insert_ne|]. by apply IH.
Qed.

(** A lease that keeps its link may change. *)
Lemma seg_same h f p l e x v v' : h !! x = Some v -> f v' = f v -> seg h f p l e -> seg (<[x := v']> h) f p l e.
Proof.
  intros Hv E. revert p. induction l as [|y l IH]; intros p; cbn; [done|]. intros (-> & u & Hu & H). split; [done|].
  destruct (decide (y = x)) as [->|Hn].
  - rewrite lookup_insert_eq. exists v'. split; [done|]. rewrite Hu in Hv. injection Hv as ->. rewrite E. by apply IH.
  - rewrite lookup_insert_ne by done. exists u. split; [done|]. by apply IH.
Qed.

Lemma seg_head h f p l : seg h f p l None -> p = head l.
Proof. destruct l as [|x l]; cbn; [done|by intros (-> & _)]. Qed.

Lemma seg_in h f p l e x : seg h f p l e -> x ∈ l -> is_Some (h !! x).
Proof.
  revert p. induction l as [|y l IH]; intros p; cbn; [by intros _ ?%elem_of_nil|]. intros (-> & v & Hv & H) [->|Hx]%elem_of_cons; [by exists v|by eapply IH].
Qed.

Lemma seg_length h f p l e : seg h f p l e -> NoDup l -> (length l <= size h)%nat.
Proof.
  intros Hs Hn. rewrite <- (size_dom h (D := gset positive)), <- (size_list_to_set (C := gset positive) l Hn). apply subseteq_size. intros x Hx%elem_of_list_to_set. apply elem_of_dom. by eapply seg_in.
Qed.

(** The link of the last lease of a segment is set. *)
Lemma seg_relink h f p l y e v e' v' :
  seg h f p (l ++ [y]) e -> NoDup (l ++ [y]) -> h !! y = Some v -> f v' = e' -> seg (<[y := v']> h) f p (l ++ [y]) e'.
Proof.
  intros Hs Hn Hv E. apply seg_app in Hs as (m & H1 & H2). apply NoDup_app in Hn as (_ & Hd & _). apply seg_app. exists m. split.
  - apply seg_other; [|done]. intros Hy. apply (Hd y Hy). by apply list_elem_of_singleton.
  - cbn in *. destruct H2 as (-> & _). split; [done|]. exists v'. by rewrite lookup_insert_eq.
Qed.

(** The last lease of a list, if there is one. *)
Definition last_or (p : ptr) (l : list positive) : ptr := match last l with Some y => Some y | None => p end.

Lemma last_or_cons p x l : last_or p (x :: l) = last_or (Some x) l.
Proof. unfold last_or. rewrite last_cons. by destruct (last l). Qed.

Lemma last_or_snoc p l y : last_or p (l ++ [y]) = Some y.
Proof. unfold last_or. by rewrite last_snoc. Qed.

Lemma last_or_inv p l y : last_or p l = Some y -> (l = [] /\ p = Some y) \/ exists l', l = l' ++ [y].
Proof.
  destruct l as [|z l' _] using rev_ind; [by left|]. rewrite last_or_snoc. intros [= ->]. right. by exists l'.
Qed.

Lemma last_or_none l : last_or None l = None -> l = [].
Proof. destruct l as [|z l' _] using rev_ind; [done|]. by rewrite last_or_snoc. Qed.
(** ** Search *)

Lemma get_in w x l : leases w !! x = Some l -> get w x = Ret l.
Proof. unfold get. by intros ->. Qed.

Lemma put_in w x l f : leases w !! x = Some l -> put w x f = Ret (with_leases w (<[x := f l]> (leases w))).
Proof. intros E. unfold put. by rewrite (get_in _ _ _ E). Qed.

Lemma get_pool_in w p P : pools w !! p = Some P -> get_pool w p = Ret P.
Proof. unfold get_pool. by intros ->. Qed.

Lemma put_pool_in w p P f : pools w !! p = Some P -> put_pool w p f = Ret (with_pools w (<[p := f P]> (pools w))).
Proof. intros E. unfold put_pool. by rewrite (get_pool_in _ _ _ E). Qed.

Lemma find_prev_spec w x l2 e l1 : forall fuel p prev,
  seg (leases w) next p (l1 ++ x :: l2) e -> x ∉ l1 -> (length l1 <= fuel)%nat -> find_prev fuel w p prev x = Ret (last_or prev l1).
Proof.
  induction l1 as [|y l1 IH]; intros fuel p prev Hs Hx Hf.
  - destruct Hs as (-> & _). destruct fuel; cbn; by rewrite decide_True.
  - apply not_elem_of_cons in Hx as [Hn Hx]. destruct Hs as (-> & v & Hv & Hs). destruct fuel as [|fuel]; [cbn in Hf; lia|]. cbn [find_prev]. rewrite decide_False by done.
    rewrite (get_in _ _ _ Hv), bind_ret, last_or_cons. apply IH; [done|done|cbn in Hf; lia].
Qed.

(** The time by which a lease is sorted. *)
Definition st (h : gmap positive lease) (y : positive) : Z := match h !! y with Some v => sort_time v | None => 0 end.

Lemma find_point_spec w t l : forall fuel p prev,
  seg (leases w) next p l None -> (length l <= fuel)%nat ->
  exists l1 l2, l = l1 ++ l2 /\ find_point fuel w p prev t = Ret (last_or prev l1) /\ Forall (fun y => st (leases w) y < t) l1 /\ (forall y, head l2 = Some y -> t <= st (leases w) y).
Proof.
  induction l as [|y l IH]; intros fuel p prev Hs Hf.
  - cbn in Hs. subst p. exists [], []. destruct fuel; by repeat split.
  - destruct Hs as (-> & v & Hv & Hs). destruct (decide (t <= sort_time v)) as [Ht|Ht].
    + exists [], (y :: l). assert (t <=? sort_time v = true) as Et by lia. destruct fuel; cbn [find_point]; rewrite (get_in _ _ _ Hv), bind_ret, Et; (split; [done|]; split; [done|]; split; [done|]; intros ? [= <-]; unfold st; by rewrite Hv).
    + destruct fuel as [|fuel]; [cbn in Hf; lia|]. destruct (IH fuel (next v) (Some y) Hs) as (l1 & l2 & -> & E & Hb & Ha); [cbn in Hf; lia|].
      exists (y :: l1), l2. split; [done|]. split; [|split; [|done]].
      * cbn [find_point]. rewrite (get_in _ _ _ Hv), bind_ret. assert (t <=? sort_time v = false) as -> by lia. by rewrite E, last_or_cons.
      * constructor; [unfold st; rewrite Hv; lia|done].
Qed.

(** ** Removal *)

(** The lists of a database, and their update at one queue. *)
Definition upd (Q : positive -> queue -> list positive) (p : positive) (q : queue) (l : list positive) : positive -> queue -> list positive :=
  fun p' q' => if decide (p' = p /\ q' = q) then l else Q p' q'.

Lemma upd_eq Q p q l : upd Q p q l p q = l.
Proof. unfold upd. by rewrite decide_True. Qed.

Lemma upd_ne Q p q l p' q' : ~ (p' = p /\ q' = q) -> upd Q p q l p' q' = Q p' q'.
Proof. intros H. unfold upd. by rewrite decide_False. Qed.

(** The link of the last lease of a list is set to [n]. *)
Definition relink (set : ptr -> lease -> lease) (l : list positive) (n : ptr) (h : gmap positive lease) : gmap positive lease :=
  match last l with Some y => alter (set n) y h | None => h end.

Definition rehead (l : list positive) (q : queue) (n : ptr) (P : pool_t) : pool_t := match l with [] => set_head q n P | _ => P end.

Lemma set_next_set a b l : set_next a (set_next b l) = set_next a l.
Proof. done. Qed.

Lemma set_next_id l : set_next (next l) l = l.
Proof. by destruct l. Qed.

Lemma alter_in (h : gmap positive lease) y v f : h !! y = Some v -> alter f y h = <[y := f v]> h.
Proof. intros E. apply map_eq. intros i. destruct (decide (i = y)) as [->|Hn]; [by rewrite lookup_alter_eq, lookup_insert_eq, E|by rewrite lookup_alter_ne, lookup_insert_ne by done]. Qed.

Lemma lease_remove_spec w p P q x c l1 l2 :
  pools w !! p = Some P -> leases w !! x = Some c -> seg (leases w) next (heads P q) (l1 ++ x :: l2) None -> NoDup (l1 ++ x :: l2) ->
  lease_remove w p q x = Ret (with_pools (with_leases w (<[x := set_next None c]> (relink set_next l1 (head l2) (leases w)))) (<[p := rehead l1 q (head l2) P]> (pools w))).
Proof.
  intros EP Ec Hs Hn. pose proof Hn as (Hn1 & Hd & Hn2)%NoDup_app. assert (x ∉ l1) as Hx by (intros H; apply (Hd x H); by left).
  assert (length l1 <= size (leases w))%nat as Hf by (pose proof (seg_length _ _ _ _ _ Hs Hn) as Hl; rewrite length_app in Hl; lia).
  unfold lease_remove. rewrite (get_pool_in _ _ _ EP), bind_ret, (find_prev_spec w x l2 None l1 _ _ None Hs Hx Hf), bind_ret, (get_in _ _ _ Ec), bind_ret.
  apply seg_app in Hs as (m & H1 & (-> & c' & Ec' & H2)). rewrite Ec in Ec'. injection Ec' as <-. rewrite (seg_head _ _ _ _ H2).
  destruct l1 as [|y l1' _] using rev_ind.
  - cbn [last_or last rehead relink]. destruct (head l2) as [n|] eqn:En.
    + rewrite (put_pool_in _ _ _ _ EP), bind_ret. erewrite put_in by exact Ec. done.
    + rewrite (put_pool_in _ _ _ _ EP). assert (set_next None c = c) as -> by (rewrite <- (set_next_id c) at 2; by rewrite (seg_head _ _ _ _ H2), En).
      rewrite (insert_id (leases w)) by done. by destruct w.
  - rewrite last_or_snoc. assert (is_Some (leases w !! y)) as [v Ev] by (eapply seg_in; [exact H1|apply elem_of_app; right; by apply list_elem_of_singleton]).
    unfold relink. rewrite last_snoc, (alter_in _ _ _ _ Ev). assert (x <> y) as Hxy by (intros ->; apply Hx, elem_of_app; right; by apply list_elem_of_singleton).
    assert (rehead (l1' ++ [y]) q (head l2) P = P) as -> by (by destruct l1'). rewrite (put_in _ _ _ _ Ev), bind_ret. rewrite (insert_id (pools w) p P) by done.
    destruct (head l2) as [n|] eqn:En.
    + erewrite put_in by (cbn; apply lookup_insert_eq). rewrite bind_ret. erewrite put_in by (cbn; rewrite !lookup_insert_ne by done; exact Ec). cbn. rewrite insert_insert_eq. by destruct w.
    + assert (set_next None c = c) as -> by (rewrite <- (set_next_id c) at 2; by rewrite (seg_head _ _ _ _ H2), En). rewrite (insert_id _ x c); [by destruct w|]. by rewrite lookup_insert_ne.
Qed.

(** ** Insertion *)

Definition in_order (h : gmap positive lease) : list positive -> Prop := StronglySorted (fun a b => st h a <= st h b).

Lemma in_order_head h l t : in_order h l -> (forall y, head l = Some y -> t <= st h y) -> Forall (fun y => t <= st h y) l.
Proof.
  intros Hs Hh. destruct l as [|x l]; [done|]. specialize (Hh x eq_refl). apply StronglySorted_cons in Hs as [Hf _]. constructor; [done|]. eapply Forall_impl; [exact Hf|]. cbn. intros y Hy. lia.
Qed.

(** The place at which the search starts. *)
Lemma insert_point w p P q x c l :
  pools w !! p = Some P -> leases w !! x = Some c -> seg (leases w) next (heads P q) l None -> NoDup l -> in_order (leases w) l ->
  (qfollow w = true -> last_lq w = Some (p, q) -> exists y, last_insert_point w = Some y /\ y ∈ l) ->
  exists l1 l2, l = l1 ++ l2 /\ Forall (fun y => st (leases w) y <= sort_time c) l1 /\ Forall (fun y => sort_time c <= st (leases w) y) l2 /\
  (start ← (if qfollow w && bool_decide (last_lq w = Some (p, q)) && bool_decide (last_insert_point w <> Some x) then
             match last_insert_point w with
             | None => Undef
             | Some y => l ← get w y; Ret (if sort_time l <=? sort_time c then Some (y, next l) else None)
             end
           else Ret None);
   match start with
   | Some (y, n) => find_point (size (leases w)) w n (Some y) (sort_time c)
   | None => find_point (size (leases w)) w (heads P q) None (sort_time c)
   end) = Ret (last_or None l1).
Proof.
  intros EP Ec Hs Hn Ho Hq.
  assert (exists l1 l2, l = l1 ++ l2 /\ Forall (fun y => st (leases w) y <= sort_time c) l1 /\ Forall (fun y => sort_time c <= st (leases w) y) l2 /\
    find_point (size (leases w)) w (heads P q) None (sort_time c) = Ret (last_or None l1)) as Hplain.
  { destruct (find_point_spec w (sort_time c) l (size (leases w)) (heads P q) None Hs (seg_length _ _ _ _ _ Hs Hn)) as (l1 & l2 & -> & E & Hb & Ha).
    exists l1, l2. split; [done|]. split; [eapply Forall_impl; [exact Hb|]; cbn; lia|]. split; [|done]. apply in_order_head; [|done]. by apply StronglySorted_app in Ho as (_ & _ & Ho). }
  destruct (qfollow w) eqn:Ef; [|exact Hplain]. cbn [andb]. destruct (decide (last_lq w = Some (p, q))) as [El|Nl]; [|by rewrite bool_decide_false].
  rewrite (bool_decide_true (last_lq w = _)) by done. destruct (Hq eq_refl El) as (y & Ey & Hy). rewrite Ey. cbn [andb]. case_bool_decide as Hyx; [|exact Hplain].
  apply list_elem_of_split in Hy as (la & lb & ->). apply seg_app in Hs as (m & H1 & (-> & v & Ev & H2)). rewrite (get_in _ _ _ Ev), !bind_ret.
  destruct (sort_time v <=? sort_time c) eqn:Et; [|exact Hplain].
  assert (length lb <= size (leases w))%nat as Hf by (eapply seg_length; [exact H2|]; apply NoDup_app in Hn as (_ & _ & Hn); by apply NoDup_cons in Hn as [_ Hn]).
  destruct (find_point_spec w (sort_time c) lb (size (leases w)) (next v) (Some y) H2 Hf) as (l1 & l2 & -> & E & Hb & Ha).
  assert (st (leases w) y <= sort_time c) as Hyc by (unfold st; rewrite Ev; lia).
  exists (la ++ y :: l1), l2. split; [by rewrite <- app_assoc|]. apply StronglySorted_app in Ho as (Hab & _ & Ho). apply StronglySorted_cons in Ho as [_ Ho]. split.
  - apply Forall_app. split; [|constructor; [done|eapply Forall_impl; [exact Hb|]; cbn; lia]]. apply Forall_forall. intros z Hz. specialize (Hab z y Hz ltac:(by left)). lia.
  - split; [apply in_order_head; [by apply StronglySorted_app in Ho as (_ & _ & Ho)|done]|]. rewrite E. f_equal. unfold last_or. rewrite last_app, last_cons. by destruct (last l1).
Qed.

Lemma lease_insert_spec w p P q x c l :
  pools w !! p = Some P -> leases w !! x = Some c -> next c = None -> seg (leases w) next (heads P q) l None -> NoDup l -> x ∉ l -> in_order (leases w) l ->
  (qfollow w = true -> last_lq w = Some (p, q) -> exists y, last_insert_point w = Some y /\ y ∈ l) ->
  exists l1 l2, l = l1 ++ l2 /\ Forall (fun y => st (leases w) y <= sort_time c) l1 /\ Forall (fun y => sort_time c <= st (leases w) y) l2 /\
  lease_insert w p q x = Ret (with_insert (with_pools (with_leases w (<[x := set_next (head l2) c]> (relink set_next l1 (Some x) (leases w)))) (<[p := rehead l1 q (Some x) P]> (pools w))) (Some (p, q)) (Some x)).
Proof.
  intros EP Ec En Hs Hn Hx Ho Hq. destruct (insert_point w p P q x c l EP Ec Hs Hn Ho Hq) as (l1 & l2 & -> & H1 & H2 & E). exists l1, l2. split; [done|]. split; [done|]. split; [done|].
  unfold lease_insert. rewrite (get_in _ _ _ Ec), bind_ret, (get_pool_in _ _ _ EP), bind_ret.
  match goal with |- (start ← ?a; prev ← @?b start; @?k prev) = _ => transitivity (prev ← (start ← a; b start); k prev); [by destruct a|] end.
  rewrite E, bind_ret. apply seg_app in Hs as (m & S1 & S2). pose proof (seg_head _ _ _ _ S2) as ->.
  destruct l1 as [|y l1' _] using rev_ind.
  - cbn [last_or last rehead relink]. cbn in S1. rewrite S1. destruct (head l2) as [n|] eqn:Eh.
    + rewrite (put_in _ _ _ _ Ec), bind_ret. erewrite put_pool_in by exact EP. rewrite bind_ret, En. by destruct w.
    + rewrite bind_ret, (put_pool_in _ _ _ _ EP), bind_ret. assert (set_next None c = c) as -> by (rewrite <- (set_next_id c) at 2; by rewrite En). rewrite (insert_id (leases w)) by done. by destruct w.
  - rewrite last_or_snoc. assert (is_Some (leases w !! y)) as [v Ev] by (eapply seg_in; [exact S1|apply elem_of_app; right; by apply list_elem_of_singleton]).
    assert (x <> y) as Hxy by (intros ->; apply Hx, elem_of_app; left; apply elem_of_app; right; by apply list_elem_of_singleton).
    unfold relink. rewrite last_snoc, (alter_in _ _ _ _ Ev), (get_in _ _ _ Ev), bind_ret.
    assert (next v = head l2) as -> by (apply seg_app in S1 as (m & _ & (_ & v' & Ev' & Hv)); cbn in Hv; congruence).
    assert (rehead (l1' ++ [y]) q (Some x) P = P) as -> by (by destruct l1'). rewrite (insert_id (pools w) p P) by done.
    destruct (head l2) as [n|] eqn:Eh.
    + rewrite (put_in _ _ _ _ Ec), bind_ret. erewrite put_in by (cbn; rewrite lookup_insert_ne by done; exact Ev). rewrite bind_ret. erewrite put_in by (cbn; apply lookup_insert_eq).
      rewrite bind_ret, En. cbn. rewrite insert_insert_eq, !(insert_insert_ne _ y x) by done. by destruct w.
    + rewrite bind_ret, (put_in _ _ _ _ Ev), bind_ret. assert (next v = None) as -> by (apply seg_app in S1 as (m & _ & (_ & v' & Ev' & Hv)); cbn in Hv; congruence).
      assert (set_next None c = c) as -> by (rewrite <- (set_next_id c) at 2; by rewrite En). cbn. rewrite (insert_id _ x c); [by destruct w|]. by rewrite lookup_insert_ne.
Qed.

(** ** The queues of all pools

    [D] are the leases that have been put on queues. *)

Record queues_ok (D : gset positive) (w : db) (Q : positive -> queue -> list positive) : Prop := QueuesOk {
  q_chain p P q : pools w !! p = Some P -> seg (leases w) next (heads P q) (Q p q) None;
  q_mem p q x : x ∈ Q p q <-> x ∈ D /\ exists l, leases w !! x = Some l /\ pool l = Some p /\ queue_of l = Some q;
  q_nodup p q : NoDup (Q p q);
  q_order p q : in_order (leases w) (Q p q);
  q_place x : x ∈ D -> exists l p P q, leases w !! x = Some l /\ pool l = Some p /\ pools w !! p = Some P /\ queue_of l = Some q;
  q_out x l : leases w !! x = Some l -> x ∉ D -> next l = None;
  q_counts p P : pools w !! p = Some P -> free_leases P = Zlen (Q p free) /\ backup_leases P = Zlen (Q p backup);
  q_follow : qfollow w = true -> forall p q, last_lq w = Some (p, q) -> exists y, last_insert_point w = Some y /\ y ∈ Q p q
}.

(** What the queues depend on. *)
Definition qview (l : lease) : ptr * option positive * option queue * Z := (next l, pool l, queue_of l, sort_time l).
Definition pview (P : pool_t) : (queue -> ptr) * Z * Z := (heads P, free_leases P, backup_leases P).

Lemma fmap_lookup_inv {A B} (f : A -> B) (h h' : gmap positive A) x v' : f <$> h' = f <$> h -> h' !! x = Some v' -> exists v, h !! x = Some v /\ f v = f v'.
Proof.
  intros E E'. apply (f_equal (fun m => m !! x)) in E. rewrite !lookup_fmap, E' in E. cbn in E. destruct (h !! x) as [v|]; [|done]. injection E as E. by exists v.
Qed.

Lemma seg_view h h' f p l e : f <$> h' = f <$> h -> seg h f p l e -> seg h' f p l e.
Proof.
  intros E. revert p. induction l as [|x l IH]; intros p; cbn; [done|]. intros (-> & v & Hv & H). split; [done|]. destruct (fmap_lookup_inv f h' h x v (eq_sym E) Hv) as (v' & Hv' & Ef). exists v'. split; [done|]. rewrite Ef. by apply IH.
Qed.

Lemma fmap_weaken {A B C} (g : B -> C) (f : A -> B) (h h' : gmap positive A) : f <$> h' = f <$> h -> (g ∘ f) <$> h' = (g ∘ f) <$> h.
Proof. intros E. by rewrite !map_fmap_compose, E. Qed.

Lemma st_view h h' x : qview <$> h' = qview <$> h -> st h' x = st h x.
Proof.
  intros E. unfold st. apply (f_equal (fun m => m !! x)) in E. rewrite !lookup_fmap in E. destruct (h' !! x) as [v'|], (h !! x) as [v|]; try done. cbn in E. by injection E.
Qed.

Lemma in_order_ext h h' l : (forall x, x ∈ l -> st h' x = st h x) -> in_order h l -> in_order h' l.
Proof.
  intros E Hs. induction Hs as [|x l Hs IH Hf]; [constructor|]. constructor; [apply IH; intros y Hy; apply E; by right|].
  apply Forall_forall. intros y Hy. rewrite !E by (by left) || (by right). by apply (proj1 (Forall_forall _ _) Hf).
Qed.

Lemma queues_ok_view D w w' Q :
  qview <$> leases w' = qview <$> leases w -> pview <$> pools w' = pview <$> pools w ->
  qfollow w' = qfollow w -> last_lq w' = last_lq w -> last_insert_point w' = last_insert_point w ->
  queues_ok D w Q -> queues_ok D w' Q.
Proof.
  intros E Ep Ef El Ei [Hc Hm Hn Ho Hp Hu Hk Hf]. assert (next <$> leases w' = next <$> leases w) as En by exact (fmap_weaken (fun v => v.1.1.1) qview _ _ E). split.
  - intros p P' q HP'. destruct (fmap_lookup_inv _ _ _ _ _ Ep HP') as (P & HP & Ev). injection Ev as Eh _ _. rewrite <- Eh. eapply seg_view; [exact En|by apply Hc].
  - intros p q x. rewrite Hm. split; intros (Hx & l & Hl & H); (split; [done|]).
    + destruct (fmap_lookup_inv _ _ _ _ _ (eq_sym E) Hl) as (l' & Hl' & Ev). injection Ev as _ E1 E2 _. exists l'. by rewrite E1, E2.
    + destruct (fmap_lookup_inv _ _ _ _ _ E Hl) as (l' & Hl' & Ev). injection Ev as _ E1 E2 _. exists l'. by rewrite E1, E2.
  - exact Hn.
  - intros p q. eapply in_order_ext; [|apply Ho]. intros x _. by apply st_view.
  - intros x Hx. destruct (Hp x Hx) as (l & p & P & q & Hl & H1 & H2 & H3). destruct (fmap_lookup_inv _ _ _ _ _ (eq_sym E) Hl) as (l' & Hl' & Ev). injection Ev as _ E1 E2 _.
    destruct (fmap_lookup_inv _ _ _ _ _ (eq_sym Ep) H2) as (P' & HP' & _). exists l', p, P', q. by rewrite E1, E2.
  - intros x l' Hl' Hx. destruct (fmap_lookup_inv _ _ _ _ _ E Hl') as (l & Hl & Ev). injection Ev as E1 _ _ _. rewrite <- E1. by eapply Hu.
  - intros p P' HP'. destruct (fmap_lookup_inv _ _ _ _ _ Ep HP') as (P & HP & Ev). injection Ev as _ E1 E2. rewrite <- E1, <- E2. by apply Hk.
  - rewrite Ef, El, Ei. exact Hf.
Qed.

(** A lease that is on no queue may change. *)
Lemma queues_ok_put D w Q x c c' : queues_ok D w Q -> x ∉ D -> leases w !! x = Some c -> next c' = None -> queues_ok D (with_leases w (<[x := c']> (leases w))) Q.
Proof.
  intros [Hc Hm Hn Ho Hp Hu Hk Hf] Hx Ec En.
  assert (forall y, y ∈ D -> (<[x := c']> (leases w)) !! y = leases w !! y) as Hy by (intros y Hy; apply lookup_insert_ne; set_solver). split; cbn.
  - intros p P q HP. apply seg_other; [|by apply Hc]. intros Hi. by apply Hm in Hi as [? _].
  - intros p q y. rewrite Hm. split; intros [Hd H]; (split; [done|]); [by rewrite Hy|by rewrite Hy in H].
  - exact Hn.
  - intros p q. eapply in_order_ext; [|apply Ho]. intros y [Hd _]%Hm. unfold st. by rewrite Hy.
  - intros y Hd. rewrite Hy by done. by apply Hp.
  - intros y l. destruct (decide (y = x)) as [->|Hne]; [rewrite lookup_insert_eq; by intros [= <-]|rewrite lookup_insert_ne by done; apply Hu].
  - exact Hk.
  - exact Hf.
Qed.

(** ** A lease leaves its queue *)

Lemma relink_other set l n h y : y ∉ l -> relink set l n h !! y = h !! y.
Proof.
  unfold relink. destruct l as [|z l' _] using rev_ind; [done|]. rewrite last_snoc. intros Hy. apply lookup_alter_ne. intros ->. apply Hy, elem_of_app. right. by apply list_elem_of_singleton.
Qed.

Lemma relink_view {B} (g : lease -> B) set l n h : (forall v, g (set n v) = g v) -> g <$> relink set l n h = g <$> h.
Proof.
  intros Hg. unfold relink. destruct (last l) as [z|]; [|done]. apply map_eq. intros i. rewrite !lookup_fmap. destruct (decide (i = z)) as [->|Hn]; [|by rewrite lookup_alter_ne].
  rewrite lookup_alter_eq. destruct (h !! z); cbn; [by rewrite Hg|done].
Qed.

Lemma insert_view {A B} (g : A -> B) (h : gmap positive A) x c c' : h !! x = Some c -> g c' = g c -> g <$> <[x := c']> h = g <$> h.
Proof. intros E Eg. rewrite fmap_insert, Eg. apply insert_id. by rewrite lookup_fmap, E. Qed.

(** Leases that differ at most in their links. *)
Definition unlinked (l : lease) : lease := set_next None l.

Lemma unlinked_view {B} (g : lease -> B) (h h' : gmap positive lease) : (forall v, g (unlinked v) = g v) -> unlinked <$> h' = unlinked <$> h -> g <$> h' = g <$> h.
Proof. intros Hg E. apply (fmap_weaken g) in E. rewrite !(map_fmap_ext (g ∘ unlinked) g) in E; [exact E|intros; apply Hg..]. Qed.

Lemma unlinked_st (h h' : gmap positive lease) x : unlinked <$> h' = unlinked <$> h -> st h' x = st h x.
Proof.
  intros E%(unlinked_view sort_time); [|done]. unfold st. apply (f_equal (fun m => m !! x)) in E. rewrite !lookup_fmap in E. destruct (h' !! x), (h !! x); cbn in E; congruence.
Qed.

Lemma seg_cut f set h a l1 x l2 c e : (forall n v, f (set n v) = n) -> seg h f a (l1 ++ x :: l2) None -> NoDup (l1 ++ x :: l2) -> h !! x = Some c ->
  seg (<[x := set e c]> (relink set l1 (head l2) h)) f (match l1 with [] => head l2 | _ => a end) (l1 ++ l2) None.
Proof.
  intros Hfs Hs Hn Ec. pose proof Hn as (Hn1 & Hd & (Hx2 & Hn2)%NoDup_cons)%NoDup_app. assert (x ∉ l1) as Hx by (intros H; apply (Hd x H); by left).
  apply seg_app in Hs as (m & H1 & (-> & c' & Ec' & H2)). rewrite (seg_head _ _ _ _ H2) in H2.
  assert (seg (<[x := set e c]> (relink set l1 (head l2) h)) f (head l2) l2 None) as H2'.
  { apply seg_other; [done|]. unfold relink. destruct l1 as [|z l1' _] using rev_ind; [done|]. rewrite last_snoc. destruct (seg_in _ _ _ _ _ z H1) as [v Ev]; [apply elem_of_app; right; by apply list_elem_of_singleton|].
    rewrite (alter_in _ _ _ _ Ev). apply seg_other; [|done]. intros Hz. apply (Hd z); [apply elem_of_app; right; by apply list_elem_of_singleton|by right]. }
  destruct l1 as [|z l1' _] using rev_ind; [done|]. assert (match l1' ++ [z] with [] => head l2 | _ => a end = a) as -> by (by destruct l1').
  apply seg_app. exists (head l2). split; [|done]. apply seg_other; [done|]. unfold relink. rewrite last_snoc. destruct (seg_in _ _ _ _ _ z H1) as [v Ev]; [apply elem_of_app; right; by apply list_elem_of_singleton|].
  rewrite (alter_in _ _ _ _ Ev). eapply seg_relink; [done|done|done|apply Hfs].
Qed.

Lemma rehead_heads l q n P q' : heads (rehead l q n P) q' = if decide (q' = q) then match l with [] => n | _ => heads P q end else heads P q'.
Proof. destruct l; cbn; [done|]. by case_decide as H; [subst|]. Qed.

Lemma rehead_counts l q n P : free_leases (rehead l q n P) = free_leases P /\ backup_leases (rehead l q n P) = backup_leases P.
Proof. by destruct l. Qed.

Lemma count_heads q d P : heads (count q d P) = heads P.
Proof. by destruct q. Qed.

Lemma count_counts q d P : free_leases (count q d P) = free_leases P + (if decide (q = free) then d else 0) /\ backup_leases (count q d P) = backup_leases P + (if decide (q = backup) then d else 0).
Proof. destruct q; split; cbn; case_decide; try done; lia. Qed.

(** A lease is on one queue only. *)
Lemma one_queue D w Q p q p' q' x : queues_ok D w Q -> x ∈ Q p q -> x ∈ Q p' q' -> p' = p /\ q' = q.
Proof. intros H (_ & l & E & E1 & E2)%(q_mem _ _ _ H) (_ & l' & E' & E1' & E2')%(q_mem _ _ _ H). split; congruence. Qed.

Lemma unlinked_place (h h' : gmap positive lease) y l : unlinked <$> h' = unlinked <$> h -> h !! y = Some l -> exists l', h' !! y = Some l' /\ pool l' = pool l /\ queue_of l' = queue_of l.
Proof.
  intros Eu E. destruct (fmap_lookup_inv _ _ _ _ _ (eq_sym Eu) E) as (l' & E' & Ev). exists l'. split; [done|]. split; [exact (f_equal pool Ev)|exact (f_equal queue_of Ev)].
Qed.

(** What has to be shown when one lease [x] of the queue [q] of the pool [p] comes or goes. *)
Lemma queue_changed D D' w w' Q x c p P P' q L :
  queues_ok D w Q -> leases w !! x = Some c -> pool c = Some p -> queue_of c = Some q -> pools w !! p = Some P ->
  pools w' = <[p := P']> (pools w) -> unlinked <$> leases w' = unlinked <$> leases w ->
  (forall y, y <> x -> y ∈ D' <-> y ∈ D) -> (forall y, y ∈ L <-> (y ∈ Q p q /\ y <> x) \/ (y = x /\ x ∈ D')) -> NoDup L -> in_order (leases w) L ->
  seg (leases w') next (heads P' q) L None -> (forall q', q' <> q -> heads P' q' = heads P q') ->
  (forall y, y ∉ Q p q -> y <> x -> leases w' !! y = leases w !! y) -> (x ∉ D' -> next <$> leases w' !! x = Some None) ->
  free_leases P' = free_leases P + (if decide (q = free) then Zlen L - Zlen (Q p q) else 0) ->
  backup_leases P' = backup_leases P + (if decide (q = backup) then Zlen L - Zlen (Q p q) else 0) ->
  (qfollow w' = true -> last_lq w' = Some (p, q) /\ last_insert_point w' = Some x /\ x ∈ L) ->
  queues_ok D' w' (upd Q p q L).
Proof.
  intros HQ Ec Epc Eqc EP Epools Eu HD HL HnL HoL Hseg Hheads Hoth Hout Hfr Hbk Hfol. pose proof HQ as [Hc Hm Hn Ho Hp Hu Hk Hf].
  assert (forall p' q', ~ (p' = p /\ q' = q) -> x ∉ Q p' q') as Hxo by (intros p' q' Hne (_ & l & E & E1 & E2)%Hm; apply Hne; split; congruence).
  assert (forall p' P0 q', ~ (p' = p /\ q' = q) -> pools w !! p' = Some P0 -> seg (leases w') next (heads P0 q') (Q p' q') None) as Hseg'.
  { intros p' P0 q' Hne E. pose proof (Hc p' P0 q' E) as Hs. pose proof (Hxo p' q' Hne) as Hx. assert (forall y, y ∈ Q p' q' -> leases w' !! y = leases w !! y) as Hsame.
    { intros y Hy. apply Hoth; [|by intros ->]. intros Hy'. apply Hne. by eapply one_queue. }
    revert Hs Hsame. generalize (heads P0 q'). clear. induction (Q p' q') as [|y l IH]; intros a; cbn; [done|]. intros (-> & v & Ev & Hs) Hsame. split; [done|]. exists v. split; [rewrite Hsame by (by left); done|]. apply IH; [done|]. intros z Hz. apply Hsame. by right. }
  assert (forall p' q' y, y ∈ upd Q p q L p' q' <-> y ∈ D' /\ exists l, leases w !! y = Some l /\ pool l = Some p' /\ queue_of l = Some q') as Hmem.
  { intros p' q' y. destruct (decide (y = x)) as [->|Hyx].
    - destruct (decide (p' = p /\ q' = q)) as [[-> ->]|Hd]; [rewrite upd_eq, HL; split; [intros [[_ []]|[_ Hx]]; [done|]; split; [done|by exists c]|intros [Hx _]; by right]|].
      rewrite upd_ne by done. split; [intros Hx; by apply Hxo in Hx|]. intros [_ (l & E & E1 & E2)]. exfalso. apply Hd. split; congruence.
    - rewrite HD by done. rewrite <- Hm. destruct (decide (p' = p /\ q' = q)) as [[-> ->]|Hd]; [rewrite upd_eq, HL; naive_solver|by rewrite upd_ne]. }
  split.
  - intros p' P0 q' E. rewrite Epools in E. destruct (decide (p' = p /\ q' = q)) as [[-> ->]|Hne].
    + rewrite lookup_insert_eq in E. injection E as <-. by rewrite upd_eq.
    + rewrite upd_ne by done. destruct (decide (p' = p)) as [->|Hpp]; [rewrite lookup_insert_eq in E; injection E as <-; rewrite Hheads by naive_solver; by apply Hseg'|rewrite lookup_insert_ne in E by done; by apply Hseg'].
  - intros p' q' y. rewrite Hmem. split; intros [Hd (l & E & E1 & E2)]; (split; [done|]).
    + destruct (unlinked_place _ _ _ _ Eu E) as (l' & E' & F1 & F2). exists l'. by rewrite F1, F2.
    + destruct (unlinked_place _ _ _ _ (eq_sym Eu) E) as (l' & E' & F1 & F2). exists l'. by rewrite F1, F2.
  - intros p' q'. destruct (decide (p' = p /\ q' = q)) as [[-> ->]|Hd]; [by rewrite upd_eq|rewrite upd_ne by done; apply Hn].
  - intros p' q'. eapply in_order_ext; [intros y _; by apply unlinked_st|]. destruct (decide (p' = p /\ q' = q)) as [[-> ->]|Hd]; [by rewrite upd_eq|rewrite upd_ne by done; apply Ho].
  - intros y Hd. assert (exists l p' P0 q', leases w !! y = Some l /\ pool l = Some p' /\ pools w !! p' = Some P0 /\ queue_of l = Some q') as (l & p' & P0 & q' & E & E1 & E2 & E3).
    { destruct (decide (y = x)) as [->|Hyx]; [by exists c, p, P, q|]. apply Hp. by apply HD. }
    destruct (unlinked_place _ _ _ _ Eu E) as (l' & E' & F1 & F2). rewrite Epools. destruct (decide (p' = p)) as [->|Hpp]; [exists l', p, P', q'; rewrite lookup_insert_eq|exists l', p', P0, q'; rewrite lookup_insert_ne by done]; by rewrite F1, F2.
  - intros y l E Hd. destruct (decide (y = x)) as [->|Hyx]; [specialize (Hout Hd); rewrite E in Hout; by injection Hout|]. assert (y ∉ D) as Hd' by (by rewrite <- HD). rewrite Hoth in E; [by eapply Hu| |done]. by intros [? _]%Hm.
  - intros p' P0 E. rewrite Epools in E. destruct (decide (p' = p)) as [->|Hpp].
    + rewrite lookup_insert_eq in E. injection E as <-. rewrite Hfr, Hbk. destruct (Hk p P EP) as [-> ->]. split; unfold upd; repeat case_decide; naive_solver lia.
    + rewrite lookup_insert_ne in E by done. rewrite !upd_ne by naive_solver. by apply Hk.
  - intros Hq p' q' El. destruct (Hfol Hq) as (El' & Ei & Hx). rewrite El' in El. injection El as <- <-. exists x. by rewrite upd_eq.
Qed.

Lemma dequeue D w Q x c p P q :
  queues_ok D w Q -> x ∈ D -> leases w !! x = Some c -> pool c = Some p -> queue_of c = Some q -> pools w !! p = Some P -> qfollow w = false ->
  exists l1 l2 w', Q p q = l1 ++ x :: l2 /\ (w ← put_pool w p (count q (-1)); lease_remove w p q x) = Ret w' /\
    w' = with_pools (with_leases w (<[x := set_next None c]> (relink set_next l1 (head l2) (leases w)))) (<[p := rehead l1 q (head l2) (count q (-1) P)]> (pools w)) /\
    queues_ok (D ∖ {[x]}) w' (upd Q p q (l1 ++ l2)).
Proof.
  intros HQ Hx Ec Ep Eq EP Ef. pose proof HQ as [Hc Hm Hn Ho Hp Hu Hk Hf].
  assert (x ∈ Q p q) as Hi by (apply Hm; split; [done|by exists c]). destruct (list_elem_of_split _ _ Hi) as (l1 & l2 & El). pose proof (Hc p P q EP) as Hs. pose proof (Hn p q) as Hnd. rewrite El in Hs, Hnd.
  exists l1, l2. eexists. split; [done|]. split; [|split; [reflexivity|]].
  { rewrite (put_pool_in _ _ _ _ EP), bind_ret. erewrite lease_remove_spec; [|cbn; apply lookup_insert_eq|exact Ec|rewrite count_heads; exact Hs|exact Hnd]. cbn. by rewrite insert_insert_eq. }
  assert (x ∉ l1 ++ l2 /\ NoDup (l1 ++ l2)) as [Hx12 Hn12] by (apply NoDup_cons; by rewrite Permutation_middle).
  assert (relink set_next l1 (head l2) (leases w) !! x = Some c) as Erx by (rewrite relink_other; [done|set_solver]).
  assert (Zlen (Q p q) = Zlen (l1 ++ l2) + 1) as Hl by (rewrite El; unfold Zlen; rewrite !length_app; cbn; lia).
  destruct (rehead_counts l1 q (head l2) (count q (-1) P)) as [R1 R2]. destruct (count_counts q (-1) P) as [C1 C2].
  eapply (queue_changed D _ w _ Q x c p P); cbn [leases pools with_pools with_leases qfollow]; try done.
  - rewrite (insert_view unlinked _ _ c) by done. by apply relink_view.
  - set_solver.
  - intros y. rewrite El. set_solver.
  - pose proof (Ho p q) as Hpq. rewrite El in Hpq. apply StronglySorted_app in Hpq as (H12 & H1 & [_ H2]%StronglySorted_cons). apply StronglySorted_app. split; [|done]. intros a b Ha Hb. apply H12; [done|by right].
  - rewrite rehead_heads, decide_True by done. rewrite count_heads. by apply (seg_cut next set_next).
  - intros q' Hq'. rewrite rehead_heads, decide_False by done. by rewrite count_heads.
  - intros y Hy Hyx. rewrite lookup_insert_ne by done. apply relink_other. rewrite El in Hy. set_solver.
  - intros _. by rewrite lookup_insert_eq.
  - rewrite R1, C1, Hl. clear. case_decide; lia.
  - rewrite R2, C2, Hl. clear. case_decide; lia.
  - congruence.
Qed.

(** ** A lease is put on its queue *)

Lemma relink_under set l n h x a b : x ∉ l -> <[x := a]> (relink set l n (<[x := b]> h)) = <[x := a]> (relink set l n h).
Proof.
  intros Hx. apply map_eq. intros i. destruct (decide (i = x)) as [->|Hi]; [by rewrite !lookup_insert_eq|]. rewrite !lookup_insert_ne by done.
  unfold relink. destruct (last l) as [z|] eqn:Ez; [|by rewrite lookup_insert_ne]. assert (z <> x) as Hz by (intros ->; by apply Hx, last_Some_elem_of).
  destruct (decide (i = z)) as [->|Hn]; [rewrite !lookup_alter_eq, lookup_insert_ne by done|rewrite !lookup_alter_ne, lookup_insert_ne by done]; done.
Qed.

Lemma seg_join f set h a l1 x l2 c : (forall n v, f (set n v) = n) -> seg h f a (l1 ++ l2) None -> NoDup (l1 ++ l2) -> x ∉ l1 ++ l2 ->
  seg (<[x := set (head l2) c]> (relink set l1 (Some x) h)) f (match l1 with [] => Some x | _ => a end) (l1 ++ x :: l2) None.
Proof.
  intros Hfs Hs Hn Hx. pose proof Hn as (Hn1 & Hd & Hn2)%NoDup_app. apply seg_app in Hs as (m & H1 & H2). rewrite (seg_head _ _ _ _ H2) in H2.
  assert (seg (<[x := set (head l2) c]> (relink set l1 (Some x) h)) f (Some x) (x :: l2) None) as H2'.
  { split; [done|]. eexists. rewrite lookup_insert_eq. split; [done|]. apply seg_other; [set_solver|]. rewrite Hfs. unfold relink. destruct l1 as [|z l1' _] using rev_ind; [done|]. rewrite last_snoc.
    destruct (seg_in _ _ _ _ _ z H1) as [v Ev]; [apply elem_of_app; right; by apply list_elem_of_singleton|]. rewrite (alter_in _ _ _ _ Ev). apply seg_other; [|done]. apply Hd, elem_of_app. right. by apply list_elem_of_singleton. }
  destruct l1 as [|z l1' _] using rev_ind; [done|]. assert (match l1' ++ [z] with [] => Some x | _ => a end = a) as -> by (by destruct l1').
  apply seg_app. exists (Some x). split; [|done]. apply seg_other; [set_solver|]. unfold relink. rewrite last_snoc. destruct (seg_in _ _ _ _ _ z H1) as [v Ev]; [apply elem_of_app; right; by apply list_elem_of_singleton|].
  rewrite (alter_in _ _ _ _ Ev). eapply seg_relink; [done|done|done|apply Hfs].
Qed.

Lemma enqueue D w Q x c p P q :
  queues_ok D w Q -> x ∉ D -> leases w !! x = Some c -> pool c = Some p -> queue_of c = Some q -> pools w !! p = Some P ->
  exists l1 l2 w', Q p q = l1 ++ l2 /\ lease_enqueue w x = Ret (w', true) /\
    w' = with_insert (with_pools (with_leases w (<[x := set_next (head l2) (set_sort_time (event_time w c) c)]> (relink set_next l1 (Some x) (leases w)))) (<[p := rehead l1 q (Some x) (count q 1 P)]> (pools w))) (Some (p, q)) (Some x) /\
    queues_ok (D ∪ {[x]}) w' (upd Q p q (l1 ++ x :: l2)).
Proof.
  intros HQ Hx Ec Ep Eq EP. set (c' := set_sort_time (event_time w c) c). pose proof (q_out _ _ _ HQ x c Ec Hx) as Enx.
  set (w1 := with_leases w (<[x := c']> (leases w))). assert (queues_ok D w1 Q) as HQ1 by (eapply queues_ok_put; [exact HQ|exact Hx|exact Ec|exact Enx]). pose proof HQ1 as [Hc Hm Hn Ho Hp Hu Hk Hf].
  assert (x ∉ Q p q) as Hxq by (by intros [? _]%Hm). pose proof (Hc p P q EP) as Hs. assert (leases w1 !! x = Some c') as Ec1 by apply lookup_insert_eq.
  set (w2 := with_leases (with_pools w (<[p := count q 1 P]> (pools w))) (<[x := c']> (leases w))).
  destruct (lease_insert_spec w2 p (count q 1 P) q x c' (Q p q)) as (l1 & l2 & El & H1 & H2 & E); [apply lookup_insert_eq|exact Ec1|exact Enx|rewrite count_heads; exact Hs|apply Hn|exact Hxq|apply Ho|by intros Hq Hl; apply Hf|].
  exists l1, l2. eexists. split; [done|]. assert (x ∉ l1 ++ l2) as Hx12 by (by rewrite <- El). assert (x ∉ l1) as Hx1 by set_solver. split; [|split; [reflexivity|]].
  { unfold lease_enqueue. rewrite (get_in _ _ _ Ec), bind_ret, Ep, Eq. rewrite (put_pool_in _ _ _ _ EP), bind_ret. erewrite put_in by exact Ec. rewrite bind_ret. fold c'. change (with_leases (with_pools w _) _) with w2. rewrite E, bind_ret. cbn. by rewrite insert_insert_eq, relink_under. }
  destruct (rehead_counts l1 q (Some x) (count q 1 P)) as [R1 R2]. destruct (count_counts q 1 P) as [C1 C2].
  assert (Zlen (l1 ++ x :: l2) = Zlen (Q p q) + 1) as Hl by (rewrite El; unfold Zlen; rewrite !length_app; cbn; lia).
  pose proof (Hn p q) as Hnd. rewrite El in Hnd, Hs. change (leases w2) with (leases w1) in H1, H2. rewrite <- (relink_under set_next l1 (Some x) (leases w) x _ c' Hx1).
  eapply (queue_changed D _ w1 _ Q x c' p P); cbn [leases pools with_insert with_pools with_leases qfollow last_lq last_insert_point]; try done.
  - rewrite (insert_view unlinked _ _ c'); [by apply relink_view|by rewrite relink_other|done].
  - set_solver.
  - intros y. rewrite El. set_solver.
  - rewrite <- Permutation_middle. by apply NoDup_cons.
  - pose proof (Ho p q) as Hpq. rewrite El in Hpq. apply StronglySorted_app in Hpq as (Hl12 & Hl1 & Hl2). assert (st (leases w1) x = sort_time c') as Est by (unfold st; by rewrite Ec1).
    apply StronglySorted_app. split; [|split; [done|]].
    + intros a b Ha [->|Hb]%elem_of_cons; [rewrite Est; by apply (proj1 (Forall_forall _ _) H1)|by apply Hl12].
    + apply StronglySorted_cons. split; [|done]. rewrite Est. exact H2.
  - rewrite rehead_heads, decide_True by done. rewrite count_heads. by apply (seg_join next set_next).
  - intros q' Hq'. rewrite rehead_heads, decide_False by done. by rewrite count_heads.
  - intros y Hy Hyx. rewrite lookup_insert_ne by done. apply relink_other. rewrite El in Hy. set_solver.
  - set_solver.
  - rewrite R1, C1, Hl. clear. case_decide; lia.
  - rewrite R2, C2, Hl. clear. case_decide; lia.
  - intros _. split; [done|]. split; [done|]. set_solver.
Qed.


End MdbQueue.
