(* ===== verification/MdbClient.v ===== *)
(** * The leases of a client as lists (server/mdb.c, server/class.c)

    The leases with one client identifier, and those with one hardware address, are
    lists that start in a hash table; [uid_hash_add], [uid_hash_delete] and their
    counterparts insert into these lists and remove from them.  The leases that are billed to
    a class are those in its table, and there are no more than its limit. *)

From Stdlib Require Import ZArith Lia.
From stdpp Require Import base list numbers option gmap.
From S2P Require Import Prelude.
From S2P Require Import Mdb.
From S2P Require Import MdbQueue.
#[local] Open Scope Z_scope.

Module MdbClient.

Import Mdb MdbQueue.

(** ** Hash tables *)

Definition stack (t : table) (key : list Z) : list positive := default [] (t !! key).

Lemma hash_lookup_stack t key : hash_lookup t key = head (stack t key).
Proof. unfold hash_lookup, stack. destruct (t !! key) as [[|x l]|]; done. Qed.

Lemma stack_add t key x key' : stack (hash_add t key x) key' = if decide (key' = key) then x :: stack t key else stack t key'.
Proof. unfold stack, hash_add. case_decide as H; [subst; by rewrite lookup_insert_eq|by rewrite lookup_insert_ne]. Qed.

Lemma stack_delete t key key' : stack (hash_delete t key) key' = if decide (key' = key) then tail (stack t key) else stack t key'.
Proof.
  unfold stack, hash_delete. case_decide as H.
  - subst. destruct (t !! key) as [[|x l]|] eqn:E; cbn; [by rewrite E|by rewrite lookup_insert_eq|by rewrite E].
  - destruct (t !! key) as [[|x l]|]; [done| |done]. by rewrite lookup_insert_ne.
Qed.

(** ** Links *)

Lemma link_set k n l : link_of k (set_link k n l) = n.
Proof. by destruct k. Qed.

Lemma set_link_set k a b l : set_link k a (set_link k b l) = set_link k a l.
Proof. by destruct k. Qed.

Lemma set_link_id k l : set_link k (link_of k l) l = l.
Proof. by destruct k, l. Qed.

Definition unlinked_of (k : link) (l : lease) : lease := set_link k None l.

Lemma unlinked_of_set k n v : unlinked_of k (set_link k n v) = unlinked_of k v.
Proof. by destruct k. Qed.
(** ** The lists of the clients *)

(** The key under which a lease is entered. *)
Definition entry (k : link) (l : lease) : option (list Z) :=
  match k with
  | by_uid => option_map snd (uid l)
  | by_hw => if bool_decide (hardware_addr l = []) || infiniband by_hw (hardware_addr l) then None else Some (hardware_addr l)
  end.

(** [D] are the leases that have been entered, [U] the lists. *)
Record clients_ok (k : link) (D : gset positive) (w : db) (U : list Z -> list positive) : Prop := ClientsOk {
  c_table key : stack (table_of k w) key = match U key with [] => [] | x :: _ => [x] end;
  c_chain key : seg (leases w) (link_of k) (head (U key)) (U key) None;
  c_mem key x : x ∈ U key <-> x ∈ D /\ exists l, leases w !! x = Some l /\ entry k l = Some key;
  c_nodup key : NoDup (U key);
  c_out x l : leases w !! x = Some l -> x ∉ D \/ entry k l = None -> link_of k l = None;
  c_key x l key : x ∈ D -> leases w !! x = Some l -> entry k l = Some key -> key <> [];
  c_dom x : x ∈ D -> is_Some (leases w !! x)
}.

Lemma entry_key k l key : entry k l = Some key -> key_of k l = key /\ infiniband k key = false.
Proof.
  destruct k; cbn.
  - destruct (uid l) as [[b u]|]; cbn; [|done]. by intros [= ->].
  - case_bool_decide as H; cbn; [done|]. case_bool_decide; cbn; [done|]. intros [= <-]. split; [done|]. by apply bool_decide_eq_false.
Qed.

Lemma find_entry k D w U l key : clients_ok k D w U -> entry k l = Some key -> key <> [] -> find_lease k w key = head (U key).
Proof.
  intros HU He Hn. destruct (entry_key k l key He) as [_ Ei]. unfold find_lease. rewrite bool_decide_false by done. rewrite Ei, hash_lookup_stack, (c_table _ _ _ _ HU). by destruct (U key).
Qed.

(** What the lists depend on. *)
Definition cview (k : link) (l : lease) : ptr * option (list Z) := (link_of k l, entry k l).

Lemma clients_ok_view k D w w' U : cview k <$> leases w' = cview k <$> leases w -> table_of k w' = table_of k w -> clients_ok k D w U -> clients_ok k D w' U.
Proof.
  intros E Et [H1 H2 H3 H4 H5 H6 H7]. assert (link_of k <$> leases w' = link_of k <$> leases w) as El by exact (fmap_weaken fst (cview k) _ _ E). split.
  - by rewrite Et.
  - intros key. eapply seg_view; [exact El|apply H2].
  - intros key x. rewrite H3. split; intros [Hx (l & Hl & He)]; (split; [done|]).
    + destruct (fmap_lookup_inv _ _ _ _ _ (eq_sym E) Hl) as (l' & Hl' & Ev). injection Ev as _ E2. exists l'. by rewrite E2.
    + destruct (fmap_lookup_inv _ _ _ _ _ E Hl) as (l' & Hl' & Ev). injection Ev as _ E2. exists l'. by rewrite E2.
  - exact H4.
  - intros x l' Hl' Hx. destruct (fmap_lookup_inv _ _ _ _ _ E Hl') as (l & Hl & Ev). injection Ev as E1 E2. rewrite <- E1. rewrite <- E2 in Hx. by eapply H5.
  - intros x l' key Hx Hl' He. destruct (fmap_lookup_inv _ _ _ _ _ E Hl') as (l & Hl & Ev). injection Ev as E1 E2. rewrite <- E2 in He. by eapply H6.
  - intros x [l Hl]%H7. destruct (fmap_lookup_inv _ _ _ _ _ (eq_sym E) Hl) as (l' & Hl' & _). by exists l'.
Qed.

(** A lease that has not been entered may change. *)
Lemma clients_ok_put k D w U x c c' : clients_ok k D w U -> x ∉ D -> leases w !! x = Some c -> link_of k c' = None -> clients_ok k D (with_leases w (<[x := c']> (leases w))) U.
Proof.
  intros [H1 H2 H3 H4 H5 H6 H7] Hx Ec En. assert (forall y, y ∈ D -> (<[x := c']> (leases w)) !! y = leases w !! y) as Hy by (intros y Hy; apply lookup_insert_ne; set_solver). split; cbn.
  - intros key. rewrite <- H1. by destruct k.
  - intros key. apply seg_other; [|apply H2]. by intros [? _]%H3.
  - intros key y. rewrite H3. split; intros [Hd H]; (split; [done|]); [by rewrite Hy|by rewrite Hy in H].
  - exact H4.
  - intros y l. destruct (decide (y = x)) as [->|Hne]; [rewrite lookup_insert_eq; by intros [= <-]|rewrite lookup_insert_ne by done; apply H5].
  - intros y l key Hd. rewrite Hy by done. by apply H6.
  - intros y Hd. rewrite Hy by done. by apply H7.
Qed.

(** A lease without a key comes and goes. *)
Lemma clients_ok_keyless k D D' w U x c : clients_ok k D w U -> leases w !! x = Some c -> entry k c = None -> (forall y, y <> x -> y ∈ D' <-> y ∈ D) -> clients_ok k D' w U.
Proof.
  intros [H1 H2 H3 H4 H5 H6 H7] Ec Ee HD. split; [done|done| |done|..].
  - intros key y. rewrite H3. destruct (decide (y = x)) as [->|Hyx]; [|by rewrite HD]. split; intros [_ (l & E & E')]; congruence.
  - intros y l E H. destruct (decide (y = x)) as [->|Hyx]; [apply (H5 x l E); right; congruence|]. apply (H5 y l E). rewrite HD in H by done. exact H.
  - intros y l key Hd E He. destruct (decide (y = x)) as [->|Hyx]; [congruence|]. apply (H6 y l); [by apply HD|done..].
  - intros y Hd. destruct (decide (y = x)) as [->|Hyx]; [by exists c|]. apply H7. by apply HD.
Qed.

Definition updl (U : list Z -> list positive) (key : list Z) (l : list positive) : list Z -> list positive := fun key' => if decide (key' = key) then l else U key'.

Lemma updl_eq U key l : updl U key l key = l.
Proof. unfold updl. by rewrite decide_True. Qed.

Lemma updl_ne U key l key' : key' <> key -> updl U key l key' = U key'.
Proof. intros H. unfold updl. by rewrite decide_False. Qed.

Lemma table_with k w h t : leases (with_table k (with_leases w h) t) = h /\ table_of k (with_table k (with_leases w h) t) = t.
Proof. by destruct k. Qed.

Lemma unlinked_of_view {B} (g : lease -> B) k (h h' : gmap positive lease) : (forall v, g (unlinked_of k v) = g v) -> unlinked_of k <$> h' = unlinked_of k <$> h -> g <$> h' = g <$> h.
Proof. intros Hg E. apply (fmap_weaken g) in E. rewrite !(map_fmap_ext (g ∘ unlinked_of k) g) in E; [exact E|intros; apply Hg..]. Qed.

(** What has to be shown when one lease comes or goes. *)
Lemma client_changed k D D' w U x c key L h' t' :
  clients_ok k D w U -> leases w !! x = Some c -> entry k c = Some key -> key <> [] ->
  unlinked_of k <$> h' = unlinked_of k <$> leases w -> (forall y, y <> x -> y ∈ D' <-> y ∈ D) ->
  (forall y, y ∈ L <-> (y ∈ U key /\ y <> x) \/ (y = x /\ x ∈ D')) -> NoDup L -> seg h' (link_of k) (head L) L None ->
  (forall y, y ∉ U key -> y <> x -> h' !! y = leases w !! y) -> (x ∉ D' -> link_of k <$> h' !! x = Some None) ->
  stack t' key = match L with [] => [] | y :: _ => [y] end -> (forall key', key' <> key -> stack t' key' = stack (table_of k w) key') ->
  clients_ok k D' (with_table k (with_leases w h') t') (updl U key L).
Proof.
  intros HU Ec Ee Hkey Eu HD HL HnL Hseg Hoth Hout Hst Hst'. pose proof HU as [H1 H2 H3 H4 H5 H6 H7]. destruct (table_with k w h' t') as [Eh Et].
  assert (forall y, entry k <$> h' !! y = entry k <$> leases w !! y) as Hent.
  { intros y. by rewrite <- !lookup_fmap, (unlinked_of_view (entry k) k (leases w) h') by (done || by destruct k). }
  assert (forall y key', y ∈ updl U key L key' <-> y ∈ D' /\ exists l, leases w !! y = Some l /\ entry k l = Some key') as Hmem.
  { intros y key'. destruct (decide (key' = key)) as [->|Hne].
    - rewrite updl_eq, HL. destruct (decide (y = x)) as [->|Hyx]; [naive_solver|]. rewrite (HD y Hyx), <- H3. naive_solver.
    - rewrite updl_ne by done. rewrite H3. destruct (decide (y = x)) as [->|Hyx]; [|by rewrite HD]. split; intros [_ (l & E & E')]; congruence. }
  split; rewrite ?Eh, ?Et.
  - intros key'. destruct (decide (key' = key)) as [->|Hne]; [by rewrite updl_eq|]. rewrite updl_ne, Hst' by done. apply H1.
  - intros key'. destruct (decide (key' = key)) as [->|Hne]; [by rewrite updl_eq|]. rewrite updl_ne by done. pose proof (H2 key') as Hs.
    assert (forall y, y ∈ U key' -> h' !! y = leases w !! y) as Hsame.
    { intros y [_ (l & E & E')]%H3. apply Hoth; [intros [_ (l' & F & F')]%H3; congruence|intros ->; congruence]. }
    revert Hs Hsame. generalize (head (U key')). clear. induction (U key') as [|y l IH]; intros a; cbn; [done|]. intros (-> & v & Ev & Hs) Hsame. split; [done|]. exists v. split; [rewrite Hsame by (by left); done|]. apply IH; [done|]. intros z Hz. apply Hsame. by right.
  - intros key' y. rewrite Hmem. specialize (Hent y). split; intros [Hd (l & E & E')]; (split; [done|]); rewrite E in Hent.
    + destruct (h' !! y) as [l'|]; [|done]. exists l'. split; [done|]. cbn in Hent. congruence.
    + destruct (leases w !! y) as [l'|]; [|done]. exists l'. split; [done|]. cbn in Hent. congruence.
  - intros key'. destruct (decide (key' = key)) as [->|Hne]; [by rewrite updl_eq|by rewrite updl_ne].
  - intros y l E H. destruct (decide (y = x)) as [->|Hyx].
    + specialize (Hent x). rewrite E, Ec in Hent. destruct H as [H|H]; [|cbn in Hent; congruence]. specialize (Hout H). rewrite E in Hout. by injection Hout.
    + assert (y ∉ U key) as Hy. { intros [Hd (l' & F & F')]%H3. rewrite HD in H by done. specialize (Hent y). rewrite E, F in Hent. cbn in Hent. destruct H; [done|congruence]. }
      rewrite Hoth in E by done. apply (H5 y l E). rewrite HD in H by done. exact H.
  - intros y l key' Hd E He. destruct (decide (y = x)) as [->|Hyx].
    + specialize (Hent x). rewrite E, Ec in Hent. cbn in Hent. congruence.
    + specialize (Hent y). rewrite E in Hent. destruct (leases w !! y) as [l'|] eqn:F; [|done]. apply (H6 y l'); [by apply HD|done|cbn in Hent; congruence].
  - intros y Hd. specialize (Hent y). assert (is_Some (leases w !! y)) as [l F] by (destruct (decide (y = x)) as [->|Hyx]; [by exists c|by apply H7, HD]). rewrite F in Hent. destruct (h' !! y); [done|done].
Qed.

(** ** A lease leaves its list *)

Lemma find_scan_spec k w x l2 e l1 : forall fuel a,
  seg (leases w) (link_of k) (Some a) ((a :: l1) ++ x :: l2) e -> x ∉ l1 -> (length l1 <= fuel)%nat -> find_scan fuel k w a x = Ret (last (a :: l1)).
Proof.
  induction l1 as [|y l1 IH]; intros fuel a (_ & v & Hv & Hs) Hx Hf.
  - destruct Hs as (El & _). destruct fuel; cbn [find_scan]; rewrite (get_in _ _ _ Hv), bind_ret, El; by rewrite decide_True.
  - apply not_elem_of_cons in Hx as [Hn Hx]. destruct fuel as [|fuel]; [cbn in Hf; lia|]. cbn [find_scan]. rewrite (get_in _ _ _ Hv), bind_ret. pose proof Hs as (El & _). rewrite El, decide_False by done.
    rewrite El in Hs. rewrite last_cons_cons. apply IH; [exact Hs|done|cbn in Hf; lia].
Qed.

(** Everything but the lists of one kind stays. *)
Record relisted (k : link) (w w' : db) : Prop := Relisted {
  rl_leases : unlinked_of k <$> leases w' = unlinked_of k <$> leases w;
  rl_rest : exists h t, w' = with_table k (with_leases w h) t
}.

Lemma put_link k w x c n : leases w !! x = Some c -> put w x (set_link k n) = Ret (with_leases w (<[x := set_link k n c]> (leases w))).
Proof. apply put_in. Qed.

Lemma unlinked_insert k (h : gmap positive lease) l1 n x c e : h !! x = Some c -> x ∉ l1 -> unlinked_of k <$> <[x := set_link k e c]> (relink (set_link k) l1 n h) = unlinked_of k <$> h.
Proof.
  intros Ec Hx. rewrite (insert_view (unlinked_of k) _ _ c); [|by rewrite relink_other|apply unlinked_of_set]. apply relink_view. intros v. apply unlinked_of_set.
Qed.

Lemma entry_deleted k D w U x c key :
  clients_ok k D w U -> x ∈ D -> leases w !! x = Some c -> entry k c = Some key ->
  exists l1 l2 h t, U key = l1 ++ x :: l2 /\ client_hash_delete k w x = Ret (with_table k (with_leases w h) t) /\ h = <[x := set_link k None c]> (relink (set_link k) l1 (head l2) (leases w)) /\
    stack t key = match l1 ++ l2 with [] => [] | y :: _ => [y] end /\ (forall key', key' <> key -> stack t key' = stack (table_of k w) key').
Proof.
  intros HU Hx Ec Ee. pose proof HU as [H1 H2 H3 H4 H5 H6 H7]. assert (x ∈ U key) as Hi by (apply H3; split; [done|by exists c]). destruct (list_elem_of_split _ _ Hi) as (l1 & l2 & El).
  pose proof (H2 key) as Hs. pose proof (H4 key) as Hn. rewrite El in Hs, Hn. destruct (entry_key k c key Ee) as [Ek Ei]. exists l1, l2.
  pose proof Hn as (Hn1 & Hd & (Hx2 & Hn2)%NoDup_cons)%NoDup_app. assert (x ∉ l1) as Hx1 by (intros H; apply (Hd x H); by left).
  assert (forall w n, leases w !! x = Some c -> link_of k c = None -> <[x := set_link k None c]> (leases w) = leases w) as Hid by (intros w0 n E E'; apply insert_id; rewrite E; f_equal; rewrite <- (set_link_id k c) at 1; by rewrite E').
  unfold client_hash_delete. rewrite (get_in _ _ _ Ec), bind_ret. cbv zeta. rewrite Ek, Ei, (find_entry k D w U c key HU Ee (H6 x c key Hx Ec Ee)), El.
  assert (link_of k c = head l2) as Elc by (apply seg_app in Hs as (m & _ & (_ & c' & Ec' & Hs2)); rewrite Ec in Ec'; injection Ec' as <-; by apply seg_head in Hs2).
  destruct l1 as [|a l1].
  - cbn [head app]. rewrite decide_True by done. rewrite Elc. destruct (head l2) as [n|] eqn:En.
    + destruct l2 as [|n' l2]; [done|]. injection En as ->. assert (n ∈ U key) as (_ & cn & Ecn & Een)%H3 by (rewrite El; set_solver). destruct (entry_key k cn key Een) as [Ekn _].
      exists (<[x := set_link k None c]> (leases w)), (hash_add (hash_delete (table_of k w) key) key n). split; [done|]. split.
      { erewrite (get_in _ n) by (destruct k; exact Ecn). rewrite bind_ret, Ekn. erewrite put_link by (destruct k; exact Ec). by destruct k. }
      split; [done|]. split; [rewrite stack_add, decide_True, stack_delete, decide_True by done; by rewrite H1, El|]. intros key' Hne. rewrite stack_add, decide_False, stack_delete, decide_False by done. done.
    + destruct l2 as [|? ?]; [|done]. exists (leases w), (hash_delete (table_of k w) key). split; [done|]. split; [by destruct k, w|]. split; [symmetry; by apply Hid|]. cbn [app].
      split; [rewrite stack_delete, decide_True by done; by rewrite H1, El|]. intros key' Hne. by rewrite stack_delete, decide_False.
  - cbn [head app]. rewrite decide_False by (intros ->; apply Hx1; by left). rewrite <- (seg_head _ _ _ _ Hs) in Hs || idtac. cbn [head app] in Hs.
    rewrite (find_scan_spec k w x l2 None l1 _ a Hs); [|set_solver|pose proof (seg_length _ _ _ _ _ Hs Hn) as Hl; cbn in Hl; rewrite length_app in Hl; lia]. rewrite bind_ret.
    destruct (last (a :: l1)) as [y|] eqn:Ey; [|by apply last_None in Ey]. assert (y ∈ a :: l1) as Hy by (by apply last_Some_elem_of). assert (x <> y) as Hxy by (by intros ->).
    destruct (seg_in _ _ _ _ _ y Hs) as [v Ev]; [set_solver|]. exists (<[x := set_link k None c]> (relink (set_link k) (a :: l1) (head l2) (leases w))), (table_of k w). split; [done|]. split; [|split; [done|]; split; [rewrite H1, El; by destruct l1|done]].
    rewrite (put_link _ _ _ _ _ Ev), bind_ret, Elc. unfold relink. rewrite Ey, (alter_in _ _ _ _ Ev). destruct (head l2) as [n|] eqn:En.
    + erewrite put_link by (cbn; apply lookup_insert_eq). rewrite bind_ret, set_link_set. erewrite put_link by (cbn; rewrite !lookup_insert_ne by done; exact Ec). cbn. rewrite insert_insert_eq. by destruct k, w.
    + rewrite (insert_id _ x); [by destruct k, w|]. rewrite lookup_insert_ne by done. rewrite Ec. f_equal. rewrite <- (set_link_id k c) at 1. by rewrite Elc.
Qed.

(** [client_hash_delete] takes an entered lease off its list. *)
Lemma client_leaves k D w U x c :
  clients_ok k D w U -> x ∈ D -> leases w !! x = Some c -> (entry k c <> None \/ hardware_addr c <> []) -> (k = by_uid -> entry k c <> None) ->
  exists w' U', client_hash_delete k w x = Ret w' /\ relisted k w w' /\ clients_ok k (D ∖ {[x]}) w' U'.
Proof.
  intros HU Hx Ec Hc1 Hc2. destruct (entry k c) as [key|] eqn:Ee.
  - destruct (entry_deleted k D w U x c key HU Hx Ec Ee) as (l1 & l2 & h & t & El & E & Eh & Ht & Ht'). pose proof HU as [H1 H2 H3 H4 H5 H6 H7].
    pose proof (H2 key) as Hs. pose proof (H4 key) as Hn. rewrite El in Hs, Hn. assert (x ∉ l1 ++ l2 /\ NoDup (l1 ++ l2)) as [Hx12 Hn12] by (apply NoDup_cons; by rewrite Permutation_middle).
    assert (unlinked_of k <$> h = unlinked_of k <$> leases w) as Eu by (rewrite Eh; apply unlinked_insert; [done|set_solver]).
    exists (with_table k (with_leases w h) t), (updl U key (l1 ++ l2)). split; [done|]. split; [split; [by destruct k|by exists h, t]|].
    eapply client_changed; [exact HU|exact Ec|exact Ee|by eapply H6|exact Eu|set_solver| |exact Hn12| | | |exact Ht|exact Ht'].
    + intros y. rewrite El. set_solver.
    + rewrite Eh. pose proof (seg_cut (link_of k) (set_link k) (leases w) _ l1 x l2 c None (link_set k) Hs Hn Ec) as Hc. destruct l1; exact Hc.
    + intros y Hy Hyx. rewrite Eh, lookup_insert_ne by done. apply relink_other. rewrite El in Hy. set_solver.
    + intros _. rewrite Eh, lookup_insert_eq. cbn. by rewrite link_set.
  - exists w, U. destruct Hc1 as [?|Hh]; [done|]. destruct k; [by specialize (Hc2 eq_refl)|]. split.
    + unfold client_hash_delete. rewrite (get_in _ _ _ Ec), bind_ret. cbv zeta. cbn [key_of]. cbn in Ee. rewrite bool_decide_false in Ee by done. cbn [orb] in Ee. cbn [infiniband]. case_bool_decide; done.
    + split; [split; [done|exists (leases w), (hw_hash w); by destruct w]|]. eapply clients_ok_keyless; [exact HU|exact Ec|exact Ee|set_solver].
Qed.

(** ** A lease is put on its list *)

Lemma find_place_spec k w c l : forall fuel p prev,
  seg (leases w) (link_of k) p l None -> (length l <= fuel)%nat -> exists l1 l2, l = l1 ++ l2 /\ find_place fuel k w c p prev = Ret (last_or prev l1).
Proof.
  induction l as [|y l IH]; intros fuel p prev Hs Hf.
  - cbn in Hs. subst p. exists [], []. by destruct fuel.
  - destruct Hs as (-> & v & Hv & Hs). destruct (client_lease_preferred v c) eqn:Et.
    + exists [], (y :: l). destruct fuel; cbn [find_place]; rewrite (get_in _ _ _ Hv), bind_ret, Et; done.
    + destruct fuel as [|fuel]; [cbn in Hf; lia|]. destruct (IH fuel (link_of k v) (Some y) Hs) as (l1 & l2 & -> & E); [cbn in Hf; lia|].
      exists (y :: l1), l2. split; [done|]. cbn [find_place]. rewrite (get_in _ _ _ Hv), bind_ret, Et. by rewrite E, last_or_cons.
Qed.

Lemma entry_added k D w U x c key :
  clients_ok k D w U -> x ∉ D -> leases w !! x = Some c -> entry k c = Some key -> key <> [] ->
  exists l1 l2 h t, U key = l1 ++ l2 /\ client_hash_add k w x = Ret (with_table k (with_leases w h) t) /\ h = <[x := set_link k (head l2) c]> (relink (set_link k) l1 (Some x) (leases w)) /\
    stack t key = match l1 ++ x :: l2 with [] => [] | y :: _ => [y] end /\ (forall key', key' <> key -> stack t key' = stack (table_of k w) key').
Proof.
  intros HU Hx Ec Ee Hkey. pose proof HU as [H1 H2 H3 H4 H5 H6 H7]. destruct (entry_key k c key Ee) as [Ek Ei]. pose proof (H5 x c Ec (or_introl Hx)) as Elc. assert (x ∉ U key) as Hxk by (by intros [? _]%H3).
  assert (set_link k None c = c) as Eid by (rewrite <- (set_link_id k c) at 2; by rewrite Elc).
  unfold client_hash_add. rewrite (get_in _ _ _ Ec), bind_ret. cbv zeta. rewrite Ek, Ei, (find_entry k D w U c key HU Ee Hkey). destruct (head (U key)) as [a|] eqn:Ea.
  - destruct (find_place_spec k w c (U key) (size (leases w)) (Some a) None) as (l1 & l2 & El & E); [rewrite <- Ea; apply H2|eapply seg_length; [apply H2|apply H4]|]. rewrite E, bind_ret. rewrite El in Hxk.
    exists l1, l2. pose proof (H2 key) as Hs. rewrite El in Hs. apply seg_app in Hs as (m & S1 & S2). pose proof (seg_head _ _ _ _ S2) as ->. destruct l1 as [|y l1' _] using rev_ind.
    + exists (<[x := set_link k (head l2) c]> (leases w)), (hash_add (hash_delete (table_of k w) key) key x). split; [done|]. split; [|split; [done|]].
      * cbn [last_or last]. rewrite (put_in _ _ _ _ Ec), bind_ret, Elc. cbn [reference]. assert (Some a = head l2) as -> by (by rewrite <- Ea, El). by destruct k.
      * split; [rewrite stack_add, decide_True, stack_delete, decide_True by done; rewrite H1, El; by destruct l2|]. intros key' Hne. by rewrite stack_add, decide_False, stack_delete, decide_False.
    + destruct (seg_in _ _ _ _ _ y S1) as [v Ev]; [apply elem_of_app; right; by apply list_elem_of_singleton|]. assert (x <> y) as Hxy by (intros ->; set_solver).
      exists (<[x := set_link k (head l2) c]> (relink (set_link k) (l1' ++ [y]) (Some x) (leases w))), (table_of k w). split; [done|]. split; [|split; [done|]; split; [rewrite H1, El; by destruct l1'|done]].
      rewrite last_or_snoc, (get_in _ _ _ Ev), bind_ret. unfold relink. rewrite last_snoc, (alter_in _ _ _ _ Ev). assert (link_of k v = head l2) as Elv by (apply seg_app in S1 as (m & _ & (_ & v' & Ev' & Hv)); cbn in Hv; congruence). rewrite Elv.
      destruct (head l2) as [n|].
      * rewrite (put_in _ _ _ _ Ec), bind_ret. erewrite put_link by (cbn; rewrite lookup_insert_ne by done; exact Ev). rewrite bind_ret. erewrite put_in by (cbn; apply lookup_insert_eq).
        rewrite Elc, link_set, set_link_set. cbn. rewrite insert_insert_eq, !(insert_insert_ne _ y x) by done. by destruct k, w.
      * rewrite bind_ret, (put_in _ _ _ _ Ev), Elv, Eid. cbn [reference]. rewrite (insert_id _ x c) by (by rewrite lookup_insert_ne). by destruct k, w.
  - assert (U key = []) as En by (by destruct (U key)). exists [], [], (leases w), (hash_add (table_of k w) key x). split; [done|]. split; [by destruct k, w|]. split; [cbn [head relink last]; symmetry; apply insert_id; by rewrite Eid|].
    split; [rewrite stack_add, decide_True by done; by rewrite H1, En|]. intros key' Hne. by rewrite stack_add, decide_False.
Qed.

(** [client_hash_add] enters a lease that has a key. *)
Lemma client_joins k D w U x c :
  clients_ok k D w U -> x ∉ D -> leases w !! x = Some c -> (entry k c <> None \/ hardware_addr c <> []) -> (k = by_uid -> entry k c <> None) -> entry k c <> Some [] ->
  exists w' U', client_hash_add k w x = Ret w' /\ relisted k w w' /\ clients_ok k (D ∪ {[x]}) w' U'.
Proof.
  intros HU Hx Ec Hc1 Hc2 Hc3. destruct (entry k c) as [key|] eqn:Ee.
  - assert (key <> []) as Hkey by congruence. destruct (entry_added k D w U x c key HU Hx Ec Ee Hkey) as (l1 & l2 & h & t & El & E & Eh & Ht & Ht'). pose proof HU as [H1 H2 H3 H4 H5 H6 H7].
    pose proof (H2 key) as Hs. pose proof (H4 key) as Hn. rewrite El in Hs, Hn. assert (x ∉ l1 ++ l2) as Hx12 by (rewrite <- El; by intros [? _]%H3).
    assert (unlinked_of k <$> h = unlinked_of k <$> leases w) as Eu by (rewrite Eh; apply unlinked_insert; [done|set_solver]).
    exists (with_table k (with_leases w h) t), (updl U key (l1 ++ x :: l2)). split; [done|]. split; [split; [by destruct k|by exists h, t]|].
    eapply client_changed; [exact HU|exact Ec|exact Ee|exact Hkey|exact Eu|set_solver| | | | | |exact Ht|exact Ht'].
    + intros y. rewrite El. set_solver.
    + rewrite <- Permutation_middle. by apply NoDup_cons.
    + rewrite Eh. pose proof (seg_join (link_of k) (set_link k) (leases w) _ l1 x l2 c (link_set k) Hs Hn Hx12) as Hc. destruct l1; exact Hc.
    + intros y Hy Hyx. rewrite Eh, lookup_insert_ne by done. apply relink_other. rewrite El in Hy. set_solver.
    + set_solver.
  - exists w, U. destruct Hc1 as [?|Hh]; [done|]. destruct k; [by specialize (Hc2 eq_refl)|]. split.
    + unfold client_hash_add. rewrite (get_in _ _ _ Ec), bind_ret. cbv zeta. cbn [key_of]. cbn in Ee. rewrite bool_decide_false in Ee by done. cbn [orb] in Ee. cbn [infiniband]. case_bool_decide; done.
    + split; [split; [done|exists (leases w), (hw_hash w); by destruct w]|]. eapply clients_ok_keyless; [exact HU|exact Ec|exact Ee|set_solver].
Qed.

(** ** Billing *)

Fixpoint used (l : list ptr) : Z := match l with [] => 0 | Some _ :: l => 1 + used l | None :: l => used l end.

(** The tables of the classes have the leases that are billed to them, each one once. *)
Record bills_ok (D : gset positive) (w : db) : Prop := BillsOk {
  b_count k K : classes w !! k = Some K -> leases_consumed K = used (billed_leases K);
  b_billed k K i x : classes w !! k = Some K -> billed_leases K !! i = Some (Some x) -> x ∈ D /\ exists l, leases w !! x = Some l /\ billing_class l = Some k;
  b_once k K i j x : classes w !! k = Some K -> billed_leases K !! i = Some (Some x) -> billed_leases K !! j = Some (Some x) -> i = j;
  b_lease x l k : x ∈ D -> leases w !! x = Some l -> billing_class l = Some k -> exists K i, classes w !! k = Some K /\ billed_leases K !! i = Some (Some x)
}.

Lemma used_range l : 0 <= used l <= Zlen l.
Proof. induction l as [|[x|] l IH]; cbn [used]; rewrite ?Zlen_cons; [done|lia|lia]. Qed.

Lemma used_insert l i p p' : l !! i = Some p -> used (<[i := p']> l) = used l + (match p' with Some _ => 1 | None => 0 end) - (match p with Some _ => 1 | None => 0 end).
Proof.
  revert i. induction l as [|y l IH]; intros [|i]; simpl; [done|done| |].
  - intros [= ->]. destruct p, p'; lia.
  - intros E. specialize (IH i E). destruct y; lia.
Qed.

Lemma find_billed_some l p i : find_billed l p = Some i -> l !! i = Some p.
Proof.
  revert i. induction l as [|y l IH]; intros i; cbn; [done|]. case_decide as H; [by intros [= <-]; subst|]. destruct (find_billed l p) as [j|]; [|done]. cbn. intros [= <-]. cbn. by apply IH.
Qed.

Lemma find_billed_none l p : find_billed l p = None -> p ∉ l.
Proof.
  induction l as [|y l IH]; cbn; [by intros _ ?%elem_of_nil|]. case_decide as H; [done|]. destruct (find_billed l p); [done|]. intros _ [->|Hp]%elem_of_cons; [done|]. by apply IH.
Qed.

(** A class has no more leases than its limit. *)
Lemma class_limited D w k K : bills_ok D w -> classes w !! k = Some K -> 0 <= leases_consumed K <= lease_limit K.
Proof. intros H E. rewrite (b_count _ _ H k K E). apply used_range. Qed.

Lemma bills_ok_view D w w' : billing_class <$> leases w' = billing_class <$> leases w -> classes w' = classes w -> bills_ok D w -> bills_ok D w'.
Proof.
  intros E Ec [H1 H2 H3 H4]. split; rewrite Ec; [done| |done|].
  - intros k K i x EK Ei. destruct (H2 k K i x EK Ei) as (Hx & l & El & Eb). split; [done|]. destruct (fmap_lookup_inv _ _ _ _ _ (eq_sym E) El) as (l' & El' & Ev). exists l'. split; [done|]. congruence.
  - intros x l' k Hx El' Eb. destruct (fmap_lookup_inv _ _ _ _ _ E El') as (l & El & Ev). apply (H4 x l k); [done|done|congruence].
Qed.

(** Only the billing of [x] and the classes change. *)
Definition rebilled (x : positive) (w w' : db) : Prop :=
  exists c b cls, leases w !! x = Some c /\ w' = with_classes (with_leases w (<[x := set_billing_class b c]> (leases w))) cls /\ (forall k, is_Some (cls !! k) <-> is_Some (classes w !! k)).

Lemma set_billing_id l : set_billing_class (billing_class l) l = l.
Proof. by destruct l. Qed.

Lemma rebilled_refl x w c : leases w !! x = Some c -> rebilled x w w.
Proof. intros E. exists c, (billing_class c), (classes w). split; [done|]. rewrite set_billing_id, insert_id by done. split; [by destruct w|done]. Qed.

Lemma rebilled_trans x w1 w2 w3 : rebilled x w1 w2 -> rebilled x w2 w3 -> rebilled x w1 w3.
Proof.
  intros (c & b & cls & E & -> & Hc) (c' & b' & cls' & E' & -> & Hc'). exists c, b', cls'. split; [done|]. cbn in E'. rewrite lookup_insert_eq in E'. injection E' as <-. cbn in *. split; [by rewrite insert_insert_eq|]. intros k. by rewrite Hc', Hc.
Qed.

Lemma unbill_ok D w x c : bills_ok D w -> x ∈ D -> leases w !! x = Some c -> exists w', unbill_class w x = Ret w' /\ bills_ok D w' /\ rebilled x w w' /\ (billing_class <$> leases w' !! x = Some None).
Proof.
  intros HB Hx Ec. pose proof HB as [H1 H2 H3 H4]. unfold unbill_class. rewrite (get_in _ _ _ Ec), bind_ret. destruct (billing_class c) as [k|] eqn:Eb.
  - destruct (H4 x c k Hx Ec Eb) as (K & i0 & EK & Ei0). unfold get_class. rewrite EK, bind_ret. destruct (find_billed (billed_leases K) (Some x)) as [i|] eqn:Ef; [|exfalso; apply find_billed_none in Ef; apply Ef; by eapply list_elem_of_lookup_2].
    apply find_billed_some in Ef. eexists. split; [by erewrite put_in by exact Ec|]. split; [|split].
    + split; cbn.
      * intros k' K'. destruct (decide (k' = k)) as [->|Hk]; [rewrite lookup_insert_eq; intros [= <-]; cbn; rewrite (used_insert _ _ _ _ Ef), (H1 k K EK); lia|rewrite lookup_insert_ne by done; apply H1].
      * intros k' K' j y EK' Ej. assert (y <> x /\ exists K0, classes w !! k' = Some K0 /\ billed_leases K0 !! j = Some (Some y)) as (Hyx & K0 & EK0 & Ej0).
        { destruct (decide (k' = k)) as [->|Hk].
          - rewrite lookup_insert_eq in EK'. injection EK' as <-. cbn in Ej. destruct (decide (j = i)) as [->|Hj]; [rewrite list_lookup_insert_eq in Ej by (by eapply lookup_lt_Some); done|]. rewrite list_lookup_insert_ne in Ej by done. split; [|by exists K]. intros ->. apply Hj. by eapply H3.
          - rewrite lookup_insert_ne in EK' by done. split; [|by exists K']. intros ->. destruct (H2 k' K' j x EK' Ej) as (_ & l & El & Ebl). congruence. }
        rewrite lookup_insert_ne by done. by apply (H2 k' K0 j y).
      * intros k' K' i' j' y EK' Ei' Ej'. destruct (decide (k' = k)) as [->|Hk]; [|rewrite lookup_insert_ne in EK' by done; by eapply H3]. rewrite lookup_insert_eq in EK'. injection EK' as <-. cbn in Ei', Ej'.
        apply list_lookup_insert_Some in Ei' as [(_ & ? & _)|(_ & Ei')]; [done|]. apply list_lookup_insert_Some in Ej' as [(_ & ? & _)|(_ & Ej')]; [done|]. by eapply H3.
      * intros y l k' Hy El Ebl. destruct (decide (y = x)) as [->|Hyx]; [rewrite lookup_insert_eq in El; by injection El as <-|]. rewrite lookup_insert_ne in El by done. destruct (H4 y l k' Hy El Ebl) as (K' & j & EK' & Ej).
        destruct (decide (k' = k)) as [->|Hk]; [|exists K', j; by rewrite lookup_insert_ne]. rewrite EK in EK'. injection EK' as <-. exists (Class (leases_consumed K - 1) (<[i := None]> (billed_leases K))), j. rewrite lookup_insert_eq. split; [done|]. cbn.
        rewrite list_lookup_insert_ne; [done|]. intros ->. congruence.
    + exists c, None, (<[k := Class (leases_consumed K - 1) (<[i := None]> (billed_leases K))]> (classes w)). split; [done|]. split; [by destruct w|]. intros k'. destruct (decide (k' = k)) as [->|Hk]; [rewrite lookup_insert_eq, EK; split; by eexists|by rewrite lookup_insert_ne].
    + cbn. by rewrite lookup_insert_eq.
  - exists w. split; [done|]. split; [done|]. split; [by eapply rebilled_refl|]. rewrite Ec. cbn. by rewrite Eb.
Qed.

Lemma bill_ok D w x c k : bills_ok D w -> x ∈ D -> leases w !! x = Some c -> is_Some (classes w !! k) ->
  exists w' r, bill_class w x k = Ret (w', r) /\ bills_ok D w' /\ rebilled x w w'.
Proof.
  intros HB Hx Ec Hk. assert (exists w1 c1, match billing_class c with Some _ => unbill_class w x | None => Ret w end = Ret w1 /\ bills_ok D w1 /\ rebilled x w w1 /\ leases w1 !! x = Some c1 /\ billing_class c1 = None) as (w1 & c1 & E1 & HB1 & R1 & Ec1 & Eb1).
  { destruct (billing_class c) as [k0|] eqn:Eb; [|exists w, c; split; [done|]; split; [done|]; split; [by eapply rebilled_refl|done]].
    destruct (unbill_ok D w x c HB Hx Ec) as (w1 & E1 & HB1 & R1 & Eb1). destruct (leases w1 !! x) as [c1|] eqn:Ec1; [|done]. injection Eb1 as Eb1. by exists w1, c1. }
  unfold bill_class. rewrite (get_in _ _ _ Ec), bind_ret, E1, bind_ret. assert (is_Some (classes w1 !! k)) as [K EK] by (destruct R1 as (? & ? & cls & _ & -> & Hc); cbn; by apply Hc).
  unfold get_class. rewrite EK, bind_ret. destruct (leases_consumed K =? lease_limit K) eqn:El; [by exists w1, false|]. destruct (find_billed (billed_leases K) None) as [i|] eqn:Ef; [|by exists w1, false].
  apply find_billed_some in Ef. eexists _, true. split; [by erewrite put_in by exact Ec1|]. pose proof HB1 as [H1 H2 H3 H4].
  assert (forall k' K' j, classes w1 !! k' = Some K' -> billed_leases K' !! j = Some (Some x) -> False) as Hnot by (intros k' K' j E E'; destruct (H2 k' K' j x E E') as (_ & l & El' & Ebl); congruence).
  split.
  - split; cbn.
    + intros k' K'. destruct (decide (k' = k)) as [->|Hk']; [rewrite lookup_insert_eq; intros [= <-]; cbn; rewrite (used_insert _ _ _ _ Ef), (H1 k K EK); lia|rewrite lookup_insert_ne by done; apply H1].
    + intros k' K' j y EK' Ej. destruct (decide (y = x)) as [->|Hyx].
      * split; [done|]. rewrite lookup_insert_eq. eexists. split; [done|]. cbn. destruct (decide (k' = k)) as [->|Hk']; [done|]. rewrite lookup_insert_ne in EK' by done. exfalso. by eapply Hnot.
      * rewrite lookup_insert_ne by done. destruct (decide (k' = k)) as [->|Hk']; [|rewrite lookup_insert_ne in EK' by done; by eapply H2]. rewrite lookup_insert_eq in EK'. injection EK' as <-. cbn in Ej.
        apply list_lookup_insert_Some in Ej as [(_ & ? & _)|(_ & Ej)]; [congruence|]. by apply (H2 k K j y).
    + intros k' K' i' j' y EK' Ei' Ej'. destruct (decide (k' = k)) as [->|Hk']; [|rewrite lookup_insert_ne in EK' by done; by eapply H3]. rewrite lookup_insert_eq in EK'. injection EK' as <-. cbn in Ei', Ej'.
      apply list_lookup_insert_Some in Ei' as [(-> & E & _)|(_ & Ei')]; apply list_lookup_insert_Some in Ej' as [(-> & E' & _)|(_ & Ej')]; [done| | |by eapply H3].
      * injection E as <-. exfalso. by eapply Hnot.
      * injection E' as <-. exfalso. by eapply Hnot.
    + intros y l k' Hy El' Ebl. destruct (decide (y = x)) as [->|Hyx].
      * rewrite lookup_insert_eq in El'. injection El' as <-. cbn in Ebl. injection Ebl as <-. eexists _, i. rewrite lookup_insert_eq. split; [done|]. cbn. apply list_lookup_insert_eq. by eapply lookup_lt_Some.
      * rewrite lookup_insert_ne in El' by done. destruct (H4 y l k' Hy El' Ebl) as (K' & j & EK' & Ej). destruct (decide (k' = k)) as [->|Hk']; [|exists K', j; by rewrite lookup_insert_ne].
        rewrite EK in EK'. injection EK' as <-. eexists _, j. rewrite lookup_insert_eq. split; [done|]. cbn. rewrite list_lookup_insert_ne; [done|]. intros ->. congruence.
  - eapply rebilled_trans; [exact R1|]. eexists c1, (Some k), _. split; [done|]. split; [reflexivity|]. intros k'. destruct (decide (k' = k)) as [->|Hk']; [rewrite lookup_insert_eq, EK; split; by eexists|by rewrite lookup_insert_ne].
Qed.


End MdbClient.
