(* ===== verification/MdbPool.v ===== *)
(** * The database of leases stays consistent (server/mdb.c)

    Every lease is on the queue of its state, on the list of its client identifier and
    on that of its hardware address, and in the table of its class, whatever is done: by
    [supersede_lease], the timer of a pool, release and abandonment.  The timer moves
    every lease whose time has come, and sets itself for the next one. *)

From Stdlib Require Import ZArith Lia Sorted.
From stdpp Require Import base list numbers option gmap sorting.
From S2P Require Import Prelude.
From S2P Require Import Expr.
From S2P Require Import FailoverLease.
From S2P Require Import FailoverState.
From S2P Require Import Mdb.
From S2P Require Import MdbQueue.
From S2P Require Import MdbClient.
#[local] Open Scope Z_scope.

Module MdbPool.

Import Mdb MdbQueue MdbClient.
#[local] Existing Instances FailoverLease.binding_state_eq_dec FailoverLease.role_eq_dec FailoverLease.service_state_eq_dec.
Abbreviation valid := FailoverLease.valid.

(** ** The parts of the invariant

    While a lease is moved it is off one list after the other, so each part has its own set of
    leases. *)

Record parts (DQ DU DH DB : gset positive) (w : db) (Q : positive -> queue -> list positive) (U H : list Z -> list positive) : Prop := Parts {
  pt_queues : queues_ok DQ w Q;
  pt_uid : clients_ok by_uid DU w U;
  pt_hw : clients_ok by_hw DH w H;
  pt_bills : bills_ok DB w;
  pt_states x l : x ∈ DB -> leases w !! x = Some l -> valid (next_binding_state l) = true
}.

(** *** Logs

    A lease that is announced at once has just been written and committed, and
    both have succeeded. *)
Definition safe (lg : list (event * bool)) : Prop := forall a x b r c, lg = a ++ (Announced x b true, r) :: c -> exists a' e, a = a' ++ [(Wrote x b e, true); (Committed, true)].

Definition ran (e : event * bool) : Prop := match e with (Ran _ _, _) => True | _ => False end.

Lemma safe_app a b : safe a -> safe b -> safe (a ++ b).
Proof.
  intros Ha Hb u x s r v E. apply app_eq_app in E as (l & [[E1 E2]|[E1 E2]]).
  - destruct l as [|e l]; cbn in E2; [destruct (Hb [] x s r v (eq_sym E2)) as (a' & e & E); by destruct a'|]. injection E2 as <- ->. by eapply Ha.
  - destruct (Hb l x s r v E2) as (a' & e & ->). exists (a ++ a'), e. by rewrite E1, app_assoc.
Qed.

Definition quiet (e : event * bool) : Prop := match e with (Announced _ _ i, _) => i = false | _ => True end.

Lemma safe_none lg : Forall quiet lg -> safe lg.
Proof. intros Hf a x b r c ->. apply Forall_app in Hf as [_ Hf]. by apply Forall_cons in Hf as [? _]. Qed.

Lemma safe_ran lg : Forall ran lg -> safe lg.
Proof. intros Hf. apply safe_none. eapply Forall_impl; [exact Hf|]. by intros [[] ?]. Qed.

(** Only the lease [x], the classes and the log change. *)
Definition local (x : positive) (w w' : db) : Prop :=
  exists c' cls lg, w' = with_log (with_classes (with_leases w (<[x := c']> (leases w))) cls) (log w ++ lg) /\ (forall k, is_Some (cls !! k) <-> is_Some (classes w !! k)) /\ Forall ran lg.

Lemma local_trans x w1 w2 w3 : local x w1 w2 -> local x w2 w3 -> local x w1 w3.
Proof.
  intros (c & cls & lg & -> & H & F) (c' & cls' & lg' & -> & H' & F'). exists c', cls', (lg ++ lg'). cbn in *. split; [by rewrite insert_insert_eq, app_assoc|]. split; [intros k; by rewrite H', H|by apply Forall_app].
Qed.

Lemma local_refl x w c : leases w !! x = Some c -> local x w w.
Proof. intros E. exists c, (classes w), []. rewrite insert_id, app_nil_r by done. split; [by destruct w|done]. Qed.

Lemma local_put x w c f : leases w !! x = Some c -> exists w', put w x f = Ret w' /\ local x w w' /\ leases w' !! x = Some (f c) /\ classes w' = classes w.
Proof.
  intros E. eexists. split; [by apply put_in|]. cbn. rewrite lookup_insert_eq. split; [|done]. exists (f c), (classes w), []. rewrite app_nil_r. split; [by destruct w|done].
Qed.

Lemma local_log x w c e : leases w !! x = Some c -> ran e -> local x w (with_log w (log w ++ [e])).
Proof. intros E He. exists c, (classes w), [e]. rewrite insert_id by done. split; [by destruct w|]. split; [done|by apply Forall_singleton]. Qed.

Lemma local_rebilled x w w' : rebilled x w w' -> local x w w'.
Proof. intros (c & b & cls & E & -> & H). exists (set_billing_class b c), cls, []. cbn. rewrite app_nil_r. split; [by destruct w|]. by split. Qed.

Lemma local_other x w w' y : local x w w' -> y <> x -> leases w' !! y = leases w !! y.
Proof. intros (c & cls & lg & -> & _) Hy. cbn. by apply lookup_insert_ne. Qed.

Lemma local_same x w w' : local x w w' -> pools w' = pools w /\ peers w' = peers w /\ qfollow w' = qfollow w /\ nosync w' = nosync w /\ ip_hash w' = ip_hash w.
Proof. by intros (c & cls & lg & -> & _). Qed.

(** The parts after a local change. *)
Lemma local_parts DQ DU DH DB DB' w w' Q U H x c c' :
  parts DQ DU DH DB w Q U H -> local x w w' -> leases w !! x = Some c -> leases w' !! x = Some c' ->
  (qview c' = qview c \/ (x ∉ DQ /\ next c' = next c)) -> (cview by_uid c' = cview by_uid c \/ (x ∉ DU /\ n_uid c' = n_uid c)) ->
  (cview by_hw c' = cview by_hw c \/ (x ∉ DH /\ n_hw c' = n_hw c)) ->
  bills_ok DB' w' -> (forall y, y <> x -> y ∈ DB' -> y ∈ DB) -> (x ∈ DB' -> valid (next_binding_state c') = true) -> parts DQ DU DH DB' w' Q U H.
Proof.
  intros [Hq Hu Hh Hb Hs] (c0 & cls & lg & -> & Hcls) Ec Ec' Vq Vu Vh HB HD Hv. cbn in Ec'. rewrite lookup_insert_eq in Ec'. injection Ec' as ->. split.
  - destruct Vq as [Vq|[Hx Vq]].
    + apply (queues_ok_view DQ w); try reflexivity; [by apply insert_view with c|exact Hq].
    + eapply queues_ok_view with (w := with_leases w (<[x := c']> (leases w))); [reflexivity..|]. eapply queues_ok_put; [exact Hq|exact Hx|exact Ec|]. rewrite Vq. by eapply (q_out _ _ _ Hq).
  - destruct Vu as [Vu|[Hx Vu]].
    + apply (clients_ok_view by_uid DU w); [by apply insert_view with c|reflexivity|exact Hu].
    + eapply clients_ok_view with (w := with_leases w (<[x := c']> (leases w))); [reflexivity..|]. eapply clients_ok_put; [exact Hu|exact Hx|exact Ec|]. cbn. rewrite Vu. by apply (c_out _ _ _ _ Hu x c Ec); left.
  - destruct Vh as [Vh|[Hx Vh]].
    + apply (clients_ok_view by_hw DH w); [by apply insert_view with c|reflexivity|exact Hh].
    + eapply clients_ok_view with (w := with_leases w (<[x := c']> (leases w))); [reflexivity..|]. eapply clients_ok_put; [exact Hh|exact Hx|exact Ec|]. cbn. rewrite Vh. by apply (c_out _ _ _ _ Hh x c Ec); left.
  - exact HB.
  - cbn. intros y l Hy E. destruct (decide (y = x)) as [->|Hyx]; [rewrite lookup_insert_eq in E; injection E as <-; by apply Hv|]. rewrite lookup_insert_ne in E by done. by eapply Hs; [apply HD|].
Qed.
(** ** The data of a sample *)

(** What is looked at of a lease on a queue. *)
Definition vital (l : lease) := (pool l, queue_of l, sort_time l, binding_state l, next_binding_state l, ends l, tsfp l).

Lemma lookup_view {A B} (g : A -> B) (h h' : gmap positive A) y : g <$> h' = g <$> h -> g <$> h' !! y = g <$> h !! y.
Proof. intros E. by rewrite <- !lookup_fmap, E. Qed.

(** The other leases stay on their queues. *)
Definition aside (x : positive) (w w' : db) : Prop :=
  nosync w' = nosync w /\ (exists lg, log w' = log w ++ lg /\ Forall ran lg) /\ forall y, y <> x -> vital <$> leases w' !! y = vital <$> leases w !! y.

Lemma aside_refl x w : aside x w w.
Proof. split; [done|]. split; [|done]. exists []. by rewrite app_nil_r. Qed.

Lemma aside_trans x w1 w2 w3 : aside x w1 w2 -> aside x w2 w3 -> aside x w1 w3.
Proof.
  intros (A1 & (l1 & E1 & F1) & B1) (A2 & (l2 & E2 & F2) & B2). split; [congruence|]. split; [exists (l1 ++ l2); split; [by rewrite E2, E1, app_assoc|by apply Forall_app]|]. intros y Hy. by rewrite B2, B1.
Qed.

Lemma aside_local x w w' : local x w w' -> aside x w w'.
Proof. intros L. pose proof L as (c & cls & lg & -> & _ & F). split; [done|]. split; [by exists lg|]. intros y Hy. by rewrite (local_other x w _ y L Hy). Qed.

Lemma with_table_leases k w h t : leases (with_table k (with_leases w h) t) = h.
Proof. by destruct k. Qed.

Lemma relisted_same k w w' : relisted k w w' -> pools w' = pools w /\ peers w' = peers w /\ qfollow w' = qfollow w /\ nosync w' = nosync w /\ classes w' = classes w /\ log w' = log w /\ last_lq w' = last_lq w /\ last_insert_point w' = last_insert_point w.
Proof. intros [_ (h & t & ->)]. by destruct k. Qed.

Lemma aside_relisted k x w w' : relisted k w w' -> aside x w w'.
Proof.
  intros R. destruct (relisted_same k w w' R) as (_ & _ & _ & N & _ & L & _). split; [done|]. split; [exists []; by rewrite app_nil_r|]. intros y _. apply lookup_view. apply (unlinked_of_view vital k); [by destruct k|apply R].
Qed.

Lemma relisted_lookup k w w' x c : relisted k w w' -> leases w !! x = Some c -> exists n, leases w' !! x = Some (set_link k n c).
Proof.
  intros [E _] Ec. destruct (fmap_lookup_inv _ _ _ _ _ (eq_sym E) Ec) as (c' & Ec' & Ev). exists (link_of k c'). rewrite Ec'. f_equal. unfold unlinked_of in Ev. rewrite <- (set_link_id k c') at 1. rewrite <- (set_link_set k (link_of k c') None c'), Ev. by rewrite set_link_set.
Qed.

Lemma relisted_parts k D DQ DU DH DB w w' Q U H V : parts DQ DU DH DB w Q U H -> relisted k w w' -> clients_ok k D w' V ->
  match k with by_uid => parts DQ D DH DB w' Q V H | by_hw => parts DQ DU D DB w' Q U V end.
Proof.
  intros [Hq Hu Hh Hb Hs] R HV. destruct (relisted_same k w w' R) as (E1 & E2 & E3 & E4 & E5 & E6 & E7 & E8). pose proof (rl_leases _ _ _ R) as Er.
  assert (queues_ok DQ w' Q) as Hq' by (eapply (queues_ok_view DQ w); [apply (unlinked_of_view qview k); [by destruct k|done]|congruence..|done]).
  assert (bills_ok DB w') as Hb' by (eapply (bills_ok_view DB w); [apply (unlinked_of_view billing_class k); [by destruct k|done]|done|done]).
  assert (forall x l, x ∈ DB -> leases w' !! x = Some l -> valid (next_binding_state l) = true) as Hs'.
  { intros x l' Hx El'. destruct (fmap_lookup_inv _ _ _ _ _ Er El') as (l & El & Ev). specialize (Hs x l Hx El). apply (f_equal next_binding_state) in Ev. destruct k; cbn in Ev; congruence. }
  destruct k; split; try done.
  - apply (clients_ok_view by_hw DH w); [by apply (unlinked_of_view (cview by_hw) by_uid)| |done]. destruct R as [_ (h & t & ->)]. done.
  - apply (clients_ok_view by_uid DU w); [by apply (unlinked_of_view (cview by_uid) by_hw)| |done]. destruct R as [_ (h & t & ->)]. done.
Qed.

(** What a caller has to give. *)
Record sample_ok (w : db) (s : lease) : Prop := SampleOk {
  s_state : valid (next_binding_state s) = true;
  s_uid b u : uid s = Some (b, u) -> u <> [] /\ (b = true -> Zlen u <= UID_BUF);
  s_class k : billing_class s = Some k -> is_Some (classes w !! k)
}.

(** The first two steps: the lease leaves the lists of its client. *)
Lemma off_lists D w Q U H x c : parts D D D D w Q U H -> x ∈ D -> leases w !! x = Some c ->
  exists w' c' U' H', (w ← match uid c with Some _ => w ← uid_hash_delete w x; put w x (set_uid None) | None => Ret w end;
    if bool_decide (hardware_addr c <> []) then hw_hash_delete w x else Ret w) = Ret w' /\
    parts D (D ∖ {[x]}) (D ∖ {[x]}) D w' Q U' H' /\ leases w' !! x = Some c' /\ qview c' = qview c /\ binding_state c' = binding_state c /\ flags c' = flags c /\ billing_class c' = billing_class c /\
    qfollow w' = qfollow w /\ classes w' = classes w /\ pools w' = pools w /\ peers w' = peers w /\ aside x w w'.
Proof.
  intros HP Hx Ec. unfold uid_hash_delete, hw_hash_delete.
  assert (exists w1 c1 U1, match uid c with Some _ => w ← client_hash_delete by_uid w x; put w x (set_uid None) | None => Ret w end = Ret w1 /\ parts D (D ∖ {[x]}) D D w1 Q U1 H /\ leases w1 !! x = Some c1 /\ qview c1 = qview c /\
    binding_state c1 = binding_state c /\ flags c1 = flags c /\ billing_class c1 = billing_class c /\ hardware_addr c1 = hardware_addr c /\ qfollow w1 = qfollow w /\ classes w1 = classes w /\ pools w1 = pools w /\ peers w1 = peers w /\ aside x w w1) as (w1 & c1 & U1 & E1 & HP1 & Ec1 & F1 & F2 & F3 & F5 & F4 & G1 & G2 & G3 & G4 & G5).
  { destruct (uid c) as [[b u]|] eqn:Eu.
    - destruct (client_leaves by_uid D w U x c (pt_uid _ _ _ _ _ _ _ _ HP) Hx Ec) as (w1 & U1 & E1 & R & HU1); [left; cbn; by rewrite Eu|intros _; cbn; by rewrite Eu|]. rewrite E1, bind_ret.
      destruct (relisted_lookup _ _ _ _ _ R Ec) as (n & Ec1). destruct (relisted_same _ _ _ R) as (S1 & S2 & S3 & S4 & S5 & _). destruct (local_put x w1 _ (set_uid None) Ec1) as (w2 & E2 & L2 & Ec2 & S6). destruct (local_same _ _ _ L2) as (T1 & T2 & T3 & T4 & _).
      pose proof (relisted_parts by_uid _ _ _ _ _ _ _ _ _ _ _ HP R HU1) as HP1. cbn in HP1. exists w2, (set_uid None (set_link by_uid n c)), U1. split; [done|]. split; [|split_and!; try done; try congruence; eapply aside_trans; [by eapply aside_relisted|by apply aside_local]].
      eapply local_parts; [exact HP1|exact L2|exact Ec1|exact Ec2|by left|right; split; [set_solver|done]|by left| |done|].
      + eapply (bills_ok_view D w1); [|done|by apply pt_bills in HP1]. destruct L2 as (c0 & cls & lg & -> & _). cbn in Ec2 |- *. rewrite lookup_insert_eq in Ec2. injection Ec2 as ->. by apply insert_view with (set_link by_uid n c).
      + intros _. exact (pt_states _ _ _ _ _ _ _ _ HP x c Hx Ec).
    - exists w, c, U. split_and!; try done; [|apply aside_refl]. split; [apply HP| |apply HP..]. eapply clients_ok_keyless; [apply HP|exact Ec|cbn; by rewrite Eu|set_solver]. }
  rewrite E1, bind_ret. case_bool_decide as Eh.
  - destruct (client_leaves by_hw D w1 H x c1 (pt_hw _ _ _ _ _ _ _ _ HP1) Hx Ec1) as (w2 & H2 & E2 & R & HH2); [right; congruence|done|]. destruct (relisted_lookup _ _ _ _ _ R Ec1) as (n & Ec2). destruct (relisted_same _ _ _ R) as (S1 & S2 & S3 & S4 & S5 & _).
    pose proof (relisted_parts by_hw _ _ _ _ _ _ _ _ _ _ _ HP1 R HH2) as HP2. cbn in HP2. exists w2, (set_link by_hw n c1), U1, H2. split_and!; try done; try congruence. eapply aside_trans; [exact G5|by eapply aside_relisted].
  - exists w1, c1, U1, H. split_and!; try done. split; [apply HP1|apply HP1| |apply HP1..]. eapply clients_ok_keyless; [apply HP1|exact Ec1|cbn; rewrite bool_decide_true; [done|]; rewrite F4; by destruct (hardware_addr c)|set_solver].
Qed.

(** A lease without its links. *)
Definition bare (l : lease) : lease := set_n_uid None (set_n_hw None l).

(** The last steps: the lease is put on the lists of its new client. *)
Lemma on_lists D DB w Q U H x c : parts D (D ∖ {[x]}) (D ∖ {[x]}) DB w Q U H -> x ∈ D -> leases w !! x = Some c -> (forall b u, uid c = Some (b, u) -> u <> []) ->
  exists w' c' U' H', (w ← match uid c with Some _ => uid_hash_add w x | None => Ret w end;
    if bool_decide (hardware_addr c <> []) then hw_hash_add w x else Ret w) = Ret w' /\
    parts D D D DB w' Q U' H' /\ leases w' !! x = Some c' /\ qview c' = qview c /\ binding_state c' = binding_state c /\ flags c' = flags c /\
    qfollow w' = qfollow w /\ classes w' = classes w /\ pools w' = pools w /\ peers w' = peers w /\ aside x w w' /\ bare <$> leases w' = bare <$> leases w.
Proof.
  intros HP Hx Ec Hu. unfold uid_hash_add, hw_hash_add. assert (D ∖ {[x]} ∪ {[x]} = D) as ED by (apply set_eq; intros y; destruct (decide (y = x)); set_solver).
  assert (exists w1 c1 U1, match uid c with Some _ => client_hash_add by_uid w x | None => Ret w end = Ret w1 /\ parts D D (D ∖ {[x]}) DB w1 Q U1 H /\ leases w1 !! x = Some c1 /\ qview c1 = qview c /\
    binding_state c1 = binding_state c /\ flags c1 = flags c /\ hardware_addr c1 = hardware_addr c /\ qfollow w1 = qfollow w /\ classes w1 = classes w /\ pools w1 = pools w /\ peers w1 = peers w /\ aside x w w1 /\ bare <$> leases w1 = bare <$> leases w) as (w1 & c1 & U1 & E1 & HP1 & Ec1 & F1 & F2 & F3 & F4 & G1 & G2 & G3 & G4 & G5 & G6).
  { destruct (uid c) as [[b u]|] eqn:Eu.
    - destruct (client_joins by_uid _ w U x c (pt_uid _ _ _ _ _ _ _ _ HP) ltac:(set_solver) Ec) as (w1 & U1 & E1 & R & HU1); [left; cbn; by rewrite Eu|intros _; cbn; by rewrite Eu|cbn; rewrite Eu; cbn; intros [= ->]; by eapply Hu|]. rewrite ED in HU1.
      destruct (relisted_lookup _ _ _ _ _ R Ec) as (n & Ec1). destruct (relisted_same _ _ _ R) as (S1 & S2 & S3 & S4 & S5 & _).
      pose proof (relisted_parts by_uid _ _ _ _ _ _ _ _ _ _ _ HP R HU1) as HP1. cbn in HP1. exists w1, (set_link by_uid n c), U1. split_and!; try done; try congruence; [by eapply aside_relisted|by apply (unlinked_of_view bare by_uid); [|apply R]].
    - exists w, c, U. split_and!; try done; [|apply aside_refl]. split; [apply HP| |apply HP..]. eapply clients_ok_keyless; [apply HP|exact Ec|cbn; by rewrite Eu|set_solver]. }
  rewrite E1, bind_ret. case_bool_decide as Eh.
  - destruct (client_joins by_hw _ w1 H x c1 (pt_hw _ _ _ _ _ _ _ _ HP1) ltac:(set_solver) Ec1) as (w2 & H2 & E2 & R & HH2); [right; congruence|done| |]. { cbn. destruct (bool_decide_reflect (hardware_addr c1 = [])) as [|Hh]; [done|]. cbn [orb]. case_bool_decide; [done|]. intros [= ?]. done. }
    rewrite ED in HH2. destruct (relisted_lookup _ _ _ _ _ R Ec1) as (n & Ec2). destruct (relisted_same _ _ _ R) as (S1 & S2 & S3 & S4 & S5 & _).
    pose proof (relisted_parts by_hw _ _ _ _ _ _ _ _ _ _ _ HP1 R HH2) as HP2. cbn in HP2. exists w2, (set_link by_hw n c1), U1, H2. split_and!; try done; try congruence; [eapply aside_trans; [exact G5|by eapply aside_relisted]|rewrite <- G6; by apply (unlinked_of_view bare by_hw); [|apply R]].
  - exists w1, c1, U1, H. split_and!; try done. split; [apply HP1|apply HP1| |apply HP1..]. eapply clients_ok_keyless; [apply HP1|exact Ec1|cbn; rewrite bool_decide_true; [done|]; rewrite F4; by destruct (hardware_addr c)|set_solver].
Qed.

Lemma local_bills D x w w' c c' : local x w w' -> classes w' = classes w -> leases w !! x = Some c -> leases w' !! x = Some c' -> billing_class c' = billing_class c -> bills_ok D w -> bills_ok D w'.
Proof.
  intros (c0 & cls & lg & -> & _) Ecl Ec Ec' Eb. cbn in Ecl, Ec'. subst cls. rewrite lookup_insert_eq in Ec'. injection Ec' as ->. apply bills_ok_view; [|done]. cbn. by apply insert_view with c.
Qed.

Lemma rebill D w x c k : bills_ok D w -> x ∈ D -> leases w !! x = Some c -> (forall k', k = Some k' -> is_Some (classes w !! k')) ->
  exists w', (if bool_decide (billing_class c <> k) then w ← unbill_class w x; match k with Some k => r ← bill_class w x k; Ret r.1 | None => Ret w end else Ret w) = Ret w' /\ bills_ok D w' /\ rebilled x w w'.
Proof.
  intros HB Hx Ec Hk. case_bool_decide; [|exists w; split; [done|]; split; [done|by eapply rebilled_refl]]. destruct (unbill_ok D w x c HB Hx Ec) as (w1 & -> & HB1 & R1 & _). rewrite bind_ret.
  destruct k as [k|]; [|by exists w1]. pose proof R1 as (c0 & b & cls & Ec0 & E & Hc). destruct (bill_ok D w1 x (set_billing_class b c0) k HB1 Hx) as (w2 & r & -> & HB2 & R2); [rewrite E; apply lookup_insert_eq|rewrite E; cbn; by apply Hc, Hk|].
  rewrite bind_ret. exists w2. split; [done|]. split; [done|]. by eapply rebilled_trans.
Qed.

Lemma take_uid_ok w s : sample_ok w s -> exists u s', take_uid s = Ret (u, s') /\ (forall b v, u = Some (b, v) -> v <> []) /\ (s' = s \/ s' = set_uid None s).
Proof.
  intros [_ Hu _]. unfold take_uid. destruct (uid s) as [[b u]|] eqn:E; [|exists None, s; split; [done|]; split; [done|by left]]. destruct (Hu b u eq_refl) as [Hn Hb]. destruct (Zlen u <=? UID_BUF) eqn:El.
  - exists (Some (true, u)), s. split; [done|]. split; [by intros ? ? [= <- <-]|by left].
  - destruct b; [specialize (Hb eq_refl); lia|]. exists (Some (false, u)), (set_uid None s). split; [done|]. split; [by intros ? ? [= <- <-]|by right].
Qed.

Lemma bind_assoc {A B C} (m : outcome A) (f : A -> outcome B) (g : B -> outcome C) : (y ← (x ← m; f x); g y) = (x ← m; y ← f x; g y).
Proof. by destruct m. Qed.

Lemma copy_sample_ok D w Q U H x c s : parts D D D D w Q U H -> x ∈ D -> leases w !! x = Some c -> sample_ok w s ->
  exists w' c' s' U' H', copy_sample w x s = Ret (w', s') /\ parts D D D D w' Q U' H' /\ leases w' !! x = Some c' /\ qview c' = qview c /\ binding_state c' = binding_state c /\ flags c' = flags c /\
    next_binding_state c' = next_binding_state s /\ ends c' = ends s /\ flags s' = flags s /\ qfollow w' = qfollow w /\ pools w' = pools w /\ peers w' = peers w /\ aside x w w'.
Proof.
  intros HP Hx Ec Hs. destruct (off_lists D w Q U H x c HP Hx Ec) as (w1 & c1 & U1 & H1 & E1 & HP1 & Ec1 & F1 & F2 & F3 & F5 & G1 & G2 & G3 & G4 & G5).
  destruct (rebill D w1 x c1 (billing_class s) (pt_bills _ _ _ _ _ _ _ _ HP1) Hx Ec1) as (w2 & E2 & HB2 & R2); [rewrite G2; apply (s_class _ _ Hs)|]. rewrite F5 in E2.
  pose proof (local_rebilled _ _ _ R2) as L2. destruct (local_same _ _ _ L2) as (S1 & S2 & S3 & _). assert (exists b, leases w2 !! x = Some (set_billing_class b c1)) as (b & Ec2).
  { destruct R2 as (c0 & b & cls & E0 & -> & _). exists b. cbn. rewrite lookup_insert_eq. congruence. }
  destruct (take_uid_ok w s Hs) as (u & s' & E3 & Hu & Hs'). destruct (local_put x w2 _ (fun c => copy_data s' c u) Ec2) as (w3 & E4 & L3 & Ec3 & S4). destruct (local_same _ _ _ L3) as (T1 & T2 & T3 & _).
  pose proof (pt_states _ _ _ _ _ _ _ _ HP1 x c1 Hx Ec1) as Hv1.
  assert (parts D (D ∖ {[x]}) (D ∖ {[x]}) D w3 Q U1 H1) as HP3.
  { eapply local_parts; [exact HP1|eapply local_trans; [exact L2|exact L3]|exact Ec1|exact Ec3|by left|right; split; [set_solver|done]|right; split; [set_solver|done]| |done|by intros _].
    by eapply local_bills; [exact L3|exact S4|exact Ec2|exact Ec3|done|]. }
  destruct (on_lists D D w3 Q U1 H1 x _ HP3 Hx Ec3) as (w4 & c4 & U4 & H4 & E5 & HP4 & Ec4 & I1 & I2 & I3 & J1 & J2 & J3 & J4 & J5 & _); [exact Hu|].
  destruct (local_put x w4 _ (copy_times (given_away s')) Ec4) as (w5 & E6 & L5 & Ec5 & S5). destruct (local_same _ _ _ L5) as (K1 & K2 & K3 & _).
  assert (next_binding_state s' = next_binding_state s /\ ends s' = ends s /\ flags s' = flags s) as (N1 & N2 & N3) by (destruct Hs' as [->| ->]; done).
  assert (forall a l, qview (copy_times a l) = qview l /\ cview by_uid (copy_times a l) = cview by_uid l /\ cview by_hw (copy_times a l) = cview by_hw l /\ binding_state (copy_times a l) = binding_state l /\ flags (copy_times a l) = flags l /\ billing_class (copy_times a l) = billing_class l /\ next_binding_state (copy_times a l) = next_binding_state a /\ ends (copy_times a l) = ends a) as Hct by (intros a l; unfold copy_times; by destruct (ddns_cb a)).
  destruct (Hct (given_away s') c4) as (V1 & V2 & V3 & V4 & V5 & V6 & V7 & V8).
  assert (qview (copy_data s' (set_billing_class b c1) u) = qview c1 /\ binding_state (copy_data s' (set_billing_class b c1) u) = binding_state c1 /\ flags (copy_data s' (set_billing_class b c1) u) = flags c1) as (M1 & M2 & M3) by done.
  assert (next_binding_state (given_away s') = next_binding_state s' /\ ends (given_away s') = ends s' /\ flags (given_away s') = flags s') as (O1 & O2 & O3) by done.
  exists w5, (copy_times (given_away s') c4), (given_away s'), U4, H4. split; [|split; [|split_and!; try done; try congruence; eapply aside_trans; [exact G5|]; eapply aside_trans; [apply aside_local; exact (local_trans _ _ _ _ L2 L3)|]; eapply aside_trans; [exact J5|by apply aside_local]]].
  - unfold copy_sample. rewrite (get_in _ _ _ Ec), bind_ret, <- bind_assoc, E1, bind_ret, E2, bind_ret, E3, bind_ret, E4, bind_ret, (get_in _ _ _ Ec3), bind_ret, <- bind_assoc, E5, bind_ret, E6. done.
  - eapply local_parts; [exact HP4|exact L5|exact Ec4|exact Ec5|by left|by left|by left| |done|intros _; rewrite V7; cbn; rewrite N1; apply (s_state _ _ Hs)].
    by eapply local_bills; [exact L5|exact S5|exact Ec4|exact Ec5|done|apply HP4].
Qed.

(** ** Transitions *)

(** What a transition leaves as it is. *)
Definition place (l : lease) := (next l, n_uid l, n_hw l, pool l, flags l, sort_time l, ends l, uid l, hardware_addr l, rewind_binding_state l).
Definition core (l : lease) := (place l, binding_state l, next_binding_state l, tsfp l).

(** A lease changes in other respects, and the billing stays in order. *)
Definition touched (D : gset positive) (x : positive) (c : lease) (w w' : db) : Prop := local x w w' /\ bills_ok D w' /\ exists c', leases w' !! x = Some c' /\ core c' = core c.

Lemma touched_put D x c w c0 f : bills_ok D w -> leases w !! x = Some c0 -> core c0 = core c -> core (f c0) = core c0 -> billing_class (f c0) = billing_class c0 ->
  exists w', put w x f = Ret w' /\ touched D x c w w'.
Proof.
  intros HB E Ec Ef Eb. destruct (local_put x w c0 f E) as (w' & E' & L & E1 & E2). exists w'. split; [done|]. split; [done|]. split; [by eapply local_bills|]. exists (f c0). split; [done|]. congruence.
Qed.

Lemma touched_twice D x c w1 w2 w3 : local x w1 w2 -> touched D x c w2 w3 -> touched D x c w1 w3.
Proof. intros L (L' & HB & H). split; [by eapply local_trans|done]. Qed.

Section Transitions.
Context (W : world) (D : gset positive) (x : positive) (c : lease) (Hx : x ∈ D).

(** A step that keeps the core of the lease. *)
Definition keeps (m : db -> outcome db) : Prop := forall w c0, bills_ok D w -> leases w !! x = Some c0 -> core c0 = core c -> exists w', m w = Ret w' /\ touched D x c w w'.

Lemma keeps_put f : (forall l, core (f l) = core l) -> (forall l, billing_class (f l) = billing_class l) -> keeps (fun w => put w x f).
Proof. intros Hf Hb w c0 HB E Ec. by eapply touched_put. Qed.

Lemma keeps_bind m n : keeps m -> keeps n -> keeps (fun w => w ← m w; n w).
Proof.
  intros Hm Hn w c0 HB E Ec. destruct (Hm w c0 HB E Ec) as (w1 & -> & L1 & HB1 & c1 & E1 & Ec1). rewrite bind_ret. destruct (Hn w1 c1 HB1 E1 Ec1) as (w2 & -> & T). exists w2. split; [done|]. by eapply touched_twice.
Qed.

Lemma keeps_ret : keeps (fun w => Ret w).
Proof. intros w c0 HB E Ec. exists w. split; [done|]. split; [by eapply local_refl|]. split; [done|]. by exists c0. Qed.

(** The next step may look at the lease. *)
Lemma keeps_get n : (forall l, core l = core c -> keeps (n l)) -> keeps (fun w => l ← get w x; n l w).
Proof. intros Hn w c0 HB E Ec. rewrite (get_in _ _ _ E), bind_ret. by eapply Hn. Qed.

Lemma keeps_names b : keeps (fun w => remove_names W w x b).
Proof. apply keeps_put; intros l; by destruct (ddns_removals W b l). Qed.

Lemma keeps_run b st : keeps (fun w => run W b w x st).
Proof.
  intros w c0 HB E Ec. unfold run. rewrite (get_in _ _ _ E), bind_ret. destruct (execute W b c0 st) as [s o] eqn:Ex. cbn [act fst]. set (r := answer W (log w) (Ran x st)). pose proof (local_log x w c0 (Ran x st, r) E I) as L.
  destruct (touched_put D x c (with_log w (log w ++ [(Ran x st, r)])) c0 (fun l => set_on_star o (set_scope s l))) as (w' & E' & T); [by apply (bills_ok_view D w)|done|done|done|done|]. exists w'. split; [done|]. by eapply touched_twice.
Qed.

Lemma keeps_forget : keeps (fun w => forget_client w x).
Proof.
  apply keeps_bind; [|by apply keeps_put]. intros w c0 HB E Ec. destruct (unbill_ok D w x c0 HB Hx E) as (w' & E' & HB' & R & _). exists w'. split; [done|]. split; [by apply local_rebilled|]. split; [done|].
  destruct R as (c1 & b & cls & E1 & -> & _). exists (set_billing_class b c1). cbn. rewrite lookup_insert_eq. split; [done|]. change (core c1 = core c). congruence.
Qed.

(** What is run when a lease expires or is released. *)
Lemma keeps_event b sel post1 post2 :
  (forall l, core (post1 l) = core l) -> (forall l, billing_class (post1 l) = billing_class l) -> (forall l, core (post2 l) = core l) -> (forall l, billing_class (post2 l) = billing_class l) ->
  keeps (fun w => w ← remove_names W w x b; l ← get w x; w ← match sel (on_star l) with [] => Ret w | st => w ← run W false w x st; put w x post1 end; w ← put w x post2; forget_client w x).
Proof.
  intros H1 H2 H3 H4. apply keeps_bind; [apply keeps_names|]. apply keeps_get. intros l _. apply keeps_bind; [|apply keeps_bind; [by apply keeps_put|apply keeps_forget]].
  destruct (sel (on_star l)) as [|s st]; [apply keeps_ret|]. apply keeps_bind; [apply keeps_run|by apply keeps_put].
Qed.

End Transitions.

(** The state that follows a state. *)
Definition following (peer : bool) (b : binding_state_t) : binding_state_t :=
  match b with
  | FTS_ACTIVE => if peer then FTS_EXPIRED else FTS_FREE
  | FTS_EXPIRED | FTS_RELEASED | FTS_ABANDONED | FTS_RESET => FTS_FREE
  | _ => b
  end.

Lemma settle_valid peer l : place (settle peer l) = place l /\ billing_class (settle peer l) = billing_class l /\ binding_state (settle peer l) = binding_state l /\
  (next_binding_state l = binding_state l -> next_binding_state (settle peer l) = following (bool_decide (peer <> None)) (binding_state l)).
Proof. unfold settle, following. destruct (binding_state l) eqn:E, peer as [f|]; try (destruct (bool_decide (me_state f = _))); split_and!; done. Qed.

Lemma transition_ok W D w x c : bills_ok D w -> x ∈ D -> leases w !! x = Some c ->
  exists w' c', make_binding_state_transition W w x = Ret w' /\ local x w w' /\ bills_ok D w' /\ leases w' !! x = Some c' /\
    place c' = place c /\ binding_state c' = next_binding_state c /\ next_binding_state c' = following (bool_decide (peer_of w c <> None)) (next_binding_state c).
Proof.
  intros HB Hx Ec. unfold make_binding_state_transition. rewrite (get_in _ _ _ Ec), bind_ret. set (peer := peer_of w c).
  assert (forall (b : bool) m, keeps D x c m -> keeps D x c (fun w => if b then m w else Ret w)) as Hif by (intros [|] m Hm; [exact Hm|apply keeps_ret]).
  match goal with |- context [(if expires ?p c then ?m else Ret w)] => destruct (Hif (expires p c) _ (keeps_event W D x c Hx true Expr.on_expiry no_expiry no_release (fun _ => eq_refl) (fun _ => eq_refl) (fun _ => eq_refl) (fun _ => eq_refl)) w c HB Ec eq_refl) as (w1 & E1 & L1 & HB1 & c1 & Ec1 & C1) end.
  cbv beta in E1. rewrite E1, bind_ret, (get_in _ _ _ Ec1), bind_ret.
  destruct (Hif (releases (bool_decide (peer <> None)) c1) _ (keeps_event W D x c Hx true Expr.on_release no_release no_expiry (fun _ => eq_refl) (fun _ => eq_refl) (fun _ => eq_refl) (fun _ => eq_refl)) w1 c1 HB1 Ec1 C1) as (w2 & E2 & L2 & HB2 & c2 & Ec2 & C2).
  cbv beta in E2. rewrite E2, bind_ret. unfold core in C2. injection C2 as P1 P2 P3 P4 P5 P6 P7 P8 P9 P10 P11 P12 P13.
  destruct (local_put x w2 c2 (fun l => set_binding_state (next_binding_state l) l) Ec2) as (w3 & E3 & L3 & Ec3 & S3). rewrite E3, bind_ret.
  destruct (local_put x w3 _ (settle peer) Ec3) as (w4 & E4 & L4 & Ec4 & S4). rewrite E4. eexists w4, _. split; [done|]. split; [exact (local_trans _ _ _ _ (local_trans _ _ _ _ L1 L2) (local_trans _ _ _ _ L3 L4))|].
  assert (bills_ok D w3) as HB3 by (by eapply local_bills; [exact L3|exact S3|exact Ec2|exact Ec3|done|]). destruct (settle_valid peer (set_binding_state (next_binding_state c2) c2)) as (V1 & V2 & V3 & V4).
  split; [by eapply local_bills|]. split; [exact Ec4|]. cbn [binding_state set_binding_state next_binding_state] in *. rewrite V1, V3, V4, P12 by done. split; [|done]. unfold place. cbn. congruence.
Qed.

(** ** Changing queues *)

(** The pools apart from their queues. *)
Definition rest_of (P : pool_t) := (next_event_time P, lease_count P, failover_peer P, timer P).

Lemma rehead_rest l q n d P : rest_of (rehead l q n (count q d P)) = rest_of P.
Proof. by destruct l, q. Qed.

Lemma peer_of_rest w w' l l' : rest_of <$> pools w' = rest_of <$> pools w -> peers w' = peers w -> pool l' = pool l -> peer_of w' l' = peer_of w l.
Proof.
  intros E Ep El. unfold peer_of. rewrite El, Ep. destruct (pool l) as [p|]; [|done]. cbn. apply (f_equal (fun m => m !! p)) in E. rewrite !lookup_fmap in E. destruct (pools w' !! p), (pools w !! p); cbn in E; [|done|done|done]. cbn. by injection E as _ _ -> _.
Qed.

Lemma rest_insert (m : gmap positive pool_t) p P P' : m !! p = Some P -> rest_of P' = rest_of P -> rest_of <$> <[p := P']> m = rest_of <$> m.
Proof. apply insert_view. Qed.

(** The parts while the queues change. *)
Lemma queues_parts DQ DQ' DU DH DB w w' Q Q' U H :
  parts DQ DU DH DB w Q U H -> queues_ok DQ' w' Q' -> unlinked <$> leases w' = unlinked <$> leases w -> uid_hash w' = uid_hash w -> hw_hash w' = hw_hash w -> classes w' = classes w ->
  parts DQ' DU DH DB w' Q' U H.
Proof.
  intros [Hq Hu Hh Hb Hs] Hq' E E1 E2 E3. split; [done|..].
  - apply (clients_ok_view by_uid DU w); [by apply (unlinked_view (cview by_uid))|done|done].
  - apply (clients_ok_view by_hw DH w); [by apply (unlinked_view (cview by_hw))|done|done].
  - apply (bills_ok_view DB w); [by apply (unlinked_view billing_class)|done|done].
  - intros x l' Hx El'. destruct (fmap_lookup_inv _ _ _ _ _ E El') as (l & El & Ev). specialize (Hs x l Hx El). apply (f_equal next_binding_state) in Ev. cbn in Ev. congruence.
Qed.

(** The lists when a lease moves from one queue of its pool to another. *)
Record moved (Q Q' : positive -> queue -> list positive) (p : positive) (q q' : queue) (x : positive) : Prop := Moved {
  mv_lists : exists l1 l2 m1 m2, Q p q = l1 ++ x :: l2 /\ upd Q p q (l1 ++ l2) p q' = m1 ++ m2 /\ Q' = upd (upd Q p q (l1 ++ l2)) p q' (m1 ++ x :: m2)
}.

Definition same_others (x : positive) (w w' : db) : Prop := forall y, y <> x -> unlinked <$> leases w' !! y = unlinked <$> leases w !! y.

Lemma local_others x w w' : local x w w' -> same_others x w w'.
Proof. intros L y Hy. by rewrite (local_other _ _ _ _ L Hy). Qed.

Lemma same_others_trans x w1 w2 w3 : same_others x w1 w2 -> same_others x w2 w3 -> same_others x w1 w3.
Proof. intros H1 H2 y Hy. by rewrite H2, H1. Qed.

Lemma unlinked_others x (w w' : db) : unlinked <$> leases w' = unlinked <$> leases w -> same_others x w w'.
Proof. intros E y _. apply (f_equal (fun m => m !! y)) in E. by rewrite !lookup_fmap in E. Qed.

Lemma change_queue_ok W D w Q U H x c s p q :
  parts D D D D w Q U H -> qfollow w = false -> x ∈ D -> leases w !! x = Some c -> pool c = Some p -> queue_of c = Some q ->
  exists w' c' q' Q', change_queue W w x s true p q = Ret (w', true) /\ parts D D D D w' Q' U H /\ moved Q Q' p q q' x /\ same_others x w w' /\ leases w' !! x = Some c' /\ pool c' = Some p /\ queue_of c' = Some q' /\
    binding_state c' = next_binding_state c /\ next_binding_state c' = following (bool_decide (peer_of w c <> None)) (next_binding_state c) /\ ends c' = ends c /\ rewind_binding_state c' = rewind_binding_state c /\ sort_time c' = event_time w c' /\
    rest_of <$> pools w' = rest_of <$> pools w /\ peers w' = peers w /\ qfollow w' = false /\ nosync w' = nosync w /\ (s = None -> flags c' = flags c) /\ exists lg, log w' = log w ++ lg /\ Forall ran lg.
Proof.
  intros HP Hfo Hx Ec Ep Eq. destruct (q_place _ _ _ (pt_queues _ _ _ _ _ _ _ _ HP) x Hx) as (c0 & p0 & P & q0 & E0 & E1 & EP & _). rewrite Ec in E0. injection E0 as <-. rewrite Ep in E1. injection E1 as <-.
  destruct (dequeue D w Q x c p P q (pt_queues _ _ _ _ _ _ _ _ HP) Hx Ec Ep Eq EP Hfo) as (l1 & l2 & w1 & El & Ed & Ew1 & HQ1).
  assert (x ∉ l1) as Hxl by (pose proof (q_nodup _ _ _ (pt_queues _ _ _ _ _ _ _ _ HP) p q) as Hn; rewrite El in Hn; apply NoDup_app in Hn as (_ & Hn & _); intros Hi; apply (Hn x Hi); by left).
  assert (unlinked <$> leases w1 = unlinked <$> leases w) as Eu1 by (rewrite Ew1; cbn; rewrite (insert_view unlinked _ _ c); [by apply relink_view|by rewrite relink_other|done]).
  assert (parts (D ∖ {[x]}) D D D w1 (upd Q p q (l1 ++ l2)) U H) as HP1 by (eapply queues_parts; [exact HP|exact HQ1|exact Eu1|by rewrite Ew1..]).
  assert (leases w1 !! x = Some (set_next None c)) as Ec1 by (rewrite Ew1; apply lookup_insert_eq).
  assert (rest_of <$> pools w1 = rest_of <$> pools w) as Er1 by (rewrite Ew1; cbn; apply rest_insert with P; [done|apply rehead_rest]).
  assert (exists w2 c2, match s with Some s => put w1 x (fun c => set_flags (Z.lor (Z.land (flags s) (Z.lnot PERSISTENT_FLAGS)) (Z.land (flags c) (Z.lnot EPHEMERAL_FLAGS))) c) | None => Ret w1 end = Ret w2 /\ local x w1 w2 /\ leases w2 !! x = Some c2 /\ bills_ok D w2 /\
    (exists f, c2 = set_flags f (set_next None c) /\ (s = None -> f = flags c))) as (w2 & c2 & E2 & L2 & Ec2 & HB2 & f & Ef & Hf).
  { destruct s as [s|]; [|exists w1, (set_next None c); split; [done|]; split; [by eapply local_refl|]; split; [done|]; split; [apply HP1|]; by exists (flags c)].
    match goal with |- context [put w1 x ?g] => destruct (local_put x w1 _ g Ec1) as (w2 & E2 & L2 & Ec2 & S2) end. eexists w2, _. split; [done|]. split; [done|]. split; [done|]. split; [by eapply local_bills; [exact L2|exact S2|exact Ec1|exact Ec2|done|apply HP1]|]. by eexists. }
  destruct (transition_ok W D w2 x c2 HB2 Hx Ec2) as (w3 & c3 & E3 & L3 & HB3 & Ec3 & V1 & V2 & V3). subst c2. cbn [next_binding_state set_flags set_next] in V2, V3. unfold place in V1. cbn in V1. injection V1 as P1 P2 P3 P4 P5 P6 P7 P8 P9 P10.
  pose proof (local_trans _ _ _ _ L2 L3) as L13. destruct (local_same _ _ _ L13) as (S1 & S2 & S3 & S4 & _). pose proof (pt_states _ _ _ _ _ _ _ _ HP x c Hx Ec) as Hv.
  assert (peer_of w2 (set_flags f (set_next None c)) = peer_of w c) as Epr by (destruct (local_same _ _ _ L2) as (T1 & T2 & _); apply peer_of_rest; [rewrite T1; done|rewrite T2, Ew1; done|done]). rewrite Epr in V3.
  assert (parts (D ∖ {[x]}) D D D w3 (upd Q p q (l1 ++ l2)) U H) as HP3.
  { eapply local_parts; [exact HP1|exact L13|exact Ec1|exact Ec3|right; split; [set_solver|done]|left|left|exact HB3|done|]; [unfold cview; cbn; unfold entry; by rewrite P2, P8|unfold cview; cbn; unfold entry; by rewrite P3, P9|].
    intros _. rewrite V3. destruct (next_binding_state c); try done. by case_bool_decide. }
  assert (exists q', queue_of c3 = Some q') as (q' & Eq3) by (unfold queue_of; rewrite V2; destruct (next_binding_state c); try done; by eexists).
  rewrite Ep in P4. assert (is_Some (pools w3 !! p)) as [P3' EP3] by (rewrite S1, Ew1; cbn; rewrite lookup_insert_eq; by eexists).
  destruct (enqueue (D ∖ {[x]}) w3 _ x c3 p P3' q' (pt_queues _ _ _ _ _ _ _ _ HP3) ltac:(set_solver) Ec3 P4 Eq3 EP3) as (m1 & m2 & w4 & Em & E4 & Ew4 & HQ4).
  assert (D ∖ {[x]} ∪ {[x]} = D) as ED by (apply set_eq; intros y; destruct (decide (y = x)); set_solver). rewrite ED in HQ4.
  assert (x ∉ m1) as Hxm by (intros Hi; assert (x ∈ upd Q p q (l1 ++ l2) p q') as [? _]%(q_mem _ _ _ (pt_queues _ _ _ _ _ _ _ _ HP3)) by (rewrite Em; set_solver); set_solver).
  assert (unlinked <$> leases w4 = unlinked <$> <[x := set_sort_time (event_time w3 c3) c3]> (leases w3)) as Eu4.
  { rewrite Ew4. cbn. rewrite <- (relink_under set_next m1 (Some x) (leases w3) x _ (set_sort_time (event_time w3 c3) c3)) by done.
    rewrite (insert_view unlinked _ _ (set_sort_time (event_time w3 c3) c3)); [by apply relink_view|rewrite relink_other by done; apply lookup_insert_eq|done]. }
  set (w3' := with_leases w3 (<[x := set_sort_time (event_time w3 c3) c3]> (leases w3))).
  assert (parts (D ∖ {[x]}) D D D w3' (upd Q p q (l1 ++ l2)) U H) as HP3'.
  { assert (local x w3 w3') as L by (exists (set_sort_time (event_time w3 c3) c3), (classes w3), []; rewrite app_nil_r; split; [by destruct w3|done]).
    eapply local_parts; [exact HP3|exact L|exact Ec3|apply lookup_insert_eq|right; split; [set_solver|done]|by left|by left| |done|intros _; exact (pt_states _ _ _ _ _ _ _ _ HP3 x c3 Hx Ec3)].
    eapply local_bills; [exact L|done|exact Ec3|apply lookup_insert_eq|done|exact HB3]. }
  assert (parts D D D D w4 (upd (upd Q p q (l1 ++ l2)) p q' (m1 ++ x :: m2)) U H) as HP4 by (eapply queues_parts; [exact HP3'|exact HQ4|exact Eu4|by rewrite Ew4..]).
  assert (rest_of <$> pools w4 = rest_of <$> pools w) as Er4.
  { rewrite Ew4. cbn. rewrite (rest_insert _ _ P3') by (done || apply rehead_rest). by rewrite S1. }
  exists w4, (set_next (head m2) (set_sort_time (event_time w3 c3) c3)), q', (upd (upd Q p q (l1 ++ l2)) p q' (m1 ++ x :: m2)).
  split; [unfold change_queue; rewrite <- bind_assoc, Ed, bind_ret, E2, bind_ret, E3, bind_ret; exact E4|]. split; [exact HP4|]. split; [split; by exists l1, l2, m1, m2|].
  split. { eapply same_others_trans; [by apply (unlinked_others x w w1)|]. eapply same_others_trans; [by apply local_others|]. intros y Hy. apply (f_equal (fun m => m !! y)) in Eu4. rewrite !lookup_fmap, lookup_insert_ne in Eu4 by done. exact Eu4. }
  split; [rewrite Ew4; apply lookup_insert_eq|]. split; [exact P4|]. split; [exact Eq3|]. split; [exact V2|]. split; [exact V3|]. split; [exact P7|]. split; [exact P10|].
  split. { cbn [sort_time set_next set_sort_time]. unfold event_time. cbn [binding_state ends tsfp set_next set_sort_time]. assert (peer_of w3 c3 = peer_of w (set_next (head m2) (set_sort_time (event_time w3 c3) c3))) as -> by (apply peer_of_rest; [by rewrite S1|by rewrite S2, Ew1|done]). done. }
  split; [exact Er4|]. split; [rewrite Ew4; cbn; by rewrite S2, Ew1|]. split; [rewrite Ew4; cbn; by rewrite S3, Ew1|]. split; [rewrite Ew4; cbn; by rewrite S4, Ew1|]. split; [intros Hs; cbn; rewrite P5; by apply Hf|].
  destruct L13 as (? & ? & lg & Ew3 & _ & HF). exists lg. rewrite Ew4, Ew3. cbn. by rewrite Ew1.
Qed.

(** ** Publication *)

(** What publication leaves as it is. *)
Definition steady (l : lease) := (qview l, cview by_uid l, cview by_hw l, billing_class l, binding_state l, next_binding_state l, ends l, tsfp l).

Record steadily (w w' : db) : Prop := Steadily {
  sd_leases : steady <$> leases w' = steady <$> leases w;
  sd_tables : uid_hash w' = uid_hash w /\ hw_hash w' = hw_hash w /\ classes w' = classes w /\ peers w' = peers w;
  sd_flags : qfollow w' = qfollow w /\ nosync w' = nosync w /\ last_lq w' = last_lq w /\ last_insert_point w' = last_insert_point w;
  sd_log : exists lg, log w' = log w ++ lg
}.

Lemma steadily_refl w : steadily w w.
Proof. split; [done|done|done|]. exists []. by rewrite app_nil_r. Qed.

Lemma steadily_trans w1 w2 w3 : steadily w1 w2 -> steadily w2 w3 -> steadily w1 w3.
Proof.
  intros [E1 (A1 & A2 & A3 & A4) (B1 & B2 & B3 & B4) (lg & L)] [F1 (C1 & C2 & C3 & C4) (D1 & D2 & D3 & D4) (lg' & L')]. split; [congruence|split_and!; congruence|split_and!; congruence|]. exists (lg ++ lg'). by rewrite L', L, app_assoc.
Qed.

Lemma steadily_put w x c f : leases w !! x = Some c -> steady (f c) = steady c -> exists w', put w x f = Ret w' /\ steadily w w' /\ pools w' = pools w /\ leases w' !! x = Some (f c).
Proof.
  intros E Ef. eexists. split; [by apply put_in|]. cbn. split; [split; cbn; [by apply insert_view with c|done|done|exists []; by rewrite app_nil_r]|]. split; [done|]. apply lookup_insert_eq.
Qed.

Lemma steadily_act W w e : steadily w (fst (act W w e)).
Proof. split; cbn; [done|done|done|]. by exists [(e, answer W (log w) e)]. Qed.

Lemma steadily_pool w p P : steadily w (with_pools w (<[p := P]> (pools w))).
Proof. split; cbn; [done|done|done|]. exists []. by rewrite app_nil_r. Qed.

Lemma steadily_parts D w w' Q U H : parts D D D D w Q U H -> steadily w w' -> pview <$> pools w' = pview <$> pools w -> parts D D D D w' Q U H.
Proof.
  intros [Hq Hu Hh Hb Hs] [E (A1 & A2 & A3 & A4) (B1 & B2 & B3 & B4) _] Ep. split.
  - apply (queues_ok_view D w); try done. exact (fmap_weaken (fun v => v.1.1.1.1.1.1.1) steady _ _ E).
  - apply (clients_ok_view by_uid D w); [exact (fmap_weaken (fun v => v.1.1.1.1.1.1.2) steady _ _ E)|done|done].
  - apply (clients_ok_view by_hw D w); [exact (fmap_weaken (fun v => v.1.1.1.1.1.2) steady _ _ E)|done|done].
  - apply (bills_ok_view D w); [exact (fmap_weaken (fun v => v.1.1.1.1.2) steady _ _ E)|done|done].
  - intros x l' Hx El'. destruct (fmap_lookup_inv _ _ _ _ _ E El') as (l & El & Ev). specialize (Hs x l Hx El). apply (f_equal (fun v => v.1.1.2)) in Ev. cbn in Ev. congruence.
Qed.

(** The bits of the update queues say nothing on reservation. *)
Lemma reserved_kept f bits : Z.land (Z.lor (Z.land f (Z.lnot PERSISTENT_FLAGS)) (Z.land bits PERSISTENT_FLAGS)) RESERVED_LEASE = Z.land f RESERVED_LEASE.
Proof. rewrite Z.land_lor_distr_l, <- !Z.land_assoc. change (Z.land (Z.lnot PERSISTENT_FLAGS) RESERVED_LEASE) with RESERVED_LEASE. change (Z.land PERSISTENT_FLAGS RESERVED_LEASE) with 0. by rewrite Z.land_0_r, Z.lor_0_r. Qed.

Lemma steadily_update W w x b i : steadily w (fst (queue_update W w x b i)) /\ pools (fst (queue_update W w x b i)) = pools w.
Proof.
  split; [|done]. split; cbn; [|done|done|by eexists]. apply map_eq. intros y. rewrite !lookup_fmap, map_lookup_imap. destruct (leases w !! y) as [l|]; [|done]. cbn. f_equal.
  destruct (announce W w x i y l) as [bits r]. unfold steady, qview, cview, queue_of. cbn. by rewrite reserved_kept.
Qed.

Lemma record_lease_ok W w x c commit prop : leases w !! x = Some c -> exists w' r lg, record_lease W w x commit prop = Ret (w', r) /\ steadily w w' /\ pools w' = pools w /\
  log w' = log w ++ lg /\ Forall quiet lg /\ (r = true -> commit = true -> nosync w = false -> exists e, lg = [(Wrote x (binding_state c) e, true); (Committed, true)]).
Proof.
  intros Ec. unfold record_lease. destruct commit; cbn [negb]; [|exists w, true, []; split_and!; try done; [apply steadily_refl|by rewrite app_nil_r]]. rewrite (get_in _ _ _ Ec), bind_ret.
  assert (forall b : bool, exists w1, (if b then put w x (fun c => set_rewind_binding_state (binding_state c) c) else Ret w) = Ret w1 /\ steadily w w1 /\ pools w1 = pools w /\ log w1 = log w) as Hb.
  { intros [|]; [|exists w; split_and!; try done; apply steadily_refl]. rewrite (put_in _ _ _ _ Ec). eexists. split; [done|]. split_and!; try done. split; cbn; [by apply insert_view with c|done|done|exists []; by rewrite app_nil_r]. }
  match goal with |- context [if ?b then put w x _ else Ret w] => destruct (Hb b) as (w1 & -> & S1 & P1 & L1) end. rewrite bind_ret. set (e := Wrote x (binding_state c) (ends c)).
  pose proof (steadily_act W w1 e) as S2. unfold act in *. cbn zeta in *. cbn [fst] in S2. set (r := answer W (log w1) e) in *. set (w2 := with_log w1 (log w1 ++ [(e, r)])) in *. assert (steadily w w2) as S by (by eapply steadily_trans). assert (log w2 = log w ++ [(e, r)]) as L2 by (cbn; by rewrite L1).
  destruct r; cbn [negb]; [|exists w2, false, [(e, false)]; split_and!; try done; by apply Forall_singleton].
  destruct (nosync w2) eqn:En; [exists w2, true, [(e, true)]; split_and!; try done; [by apply Forall_singleton|intros _ _ En'; destruct (sd_flags _ _ S) as (_ & En2 & _); congruence]|].
  eexists _, _, [(e, true); (Committed, answer W (log w2) Committed)]. split; [reflexivity|]. split; [eapply steadily_trans; [exact S|apply (steadily_act W w2 Committed)]|]. split; [done|]. split; [cbn; by rewrite L1, <- app_assoc|]. split; [by repeat constructor|]. intros -> _ _. by exists (ends c).
Qed.

(** The timer of the pool is either left alone or set to the time of the lease. *)
Definition timed (W : world) (w w' : db) (p : positive) (P : pool_t) (t : Z) : Prop :=
  pools w' = pools w \/ (cur_time W < t /\ pools w' = <[p := arm t P]> (pools w)).

Lemma publish_ok W w x c p P commit prop pimm check : leases w !! x = Some c -> pools w !! p = Some P ->
  exists w' r, publish W w x p commit prop pimm check = Ret (w', r) /\ steadily w w' /\ timed W w w' p P (sort_time c) /\
    (pimm && negb commit = false -> nosync w = false -> exists lg, log w' = log w ++ lg /\ safe lg).
Proof.
  intros Ec EP. unfold publish. rewrite (get_in _ _ _ Ec), bind_ret, (get_pool_in _ _ _ EP), bind_ret.
  match goal with |- context [if ?b then put_pool w p _ else Ret w] => assert (exists w1, (if b then put_pool w p (arm (sort_time c)) else Ret w) = Ret w1 /\ steadily w w1 /\ timed W w w1 p P (sort_time c) /\ leases w1 = leases w /\ log w1 = log w /\ nosync w1 = nosync w) as (w1 & -> & S1 & T1 & L1 & G1 & N1); [destruct b eqn:Eb|] end.
  { rewrite (put_pool_in _ _ _ _ EP). eexists. split; [done|]. split; [apply steadily_pool|]. split; [right; split; [|done]|done]. apply andb_true_iff in Eb as [Eb _]. apply andb_true_iff in Eb as [_ Eb]. lia. }
  { exists w. split; [done|]. split; [apply steadily_refl|]. split; [by left|done]. }
  rewrite bind_ret. rewrite <- L1 in Ec. destruct (record_lease_ok W w1 x c commit prop Ec) as (w2 & r2 & lg & -> & S2 & P2 & G2 & Hq & Hc). rewrite G1 in G2. rewrite bind_ret. assert (steadily w w2) as S12 by (by eapply steadily_trans).
  assert (timed W w w2 p P (sort_time c)) as T2 by (unfold timed in *; by rewrite P2). destruct r2; cbn [negb]; [|exists w2, false; split_and!; try done; intros _ _; exists lg; split; [done|by apply safe_none]].
  assert (exists w3 r3, (if prop then w ← put w2 x (fun c => set_desired_binding_state (binding_state c) c); Ret (queue_update W w x (binding_state c) pimm) else Ret (w2, true)) = Ret (w3, r3) /\ steadily w2 w3 /\ pools w3 = pools w2 /\ (log w3 = log w2 \/ exists a, log w3 = log w2 ++ [(Announced x (binding_state c) pimm, a)])) as (w3 & r3 & -> & S3 & P3 & G3).
  { destruct prop; [|exists w2, true; split_and!; try done; [apply steadily_refl|by left]]. destruct (fmap_lookup_inv _ _ _ _ _ (eq_sym (sd_leases _ _ S2)) Ec) as (c2 & Ec2 & _).
    destruct (steadily_put w2 x c2 (fun c => set_desired_binding_state (binding_state c) c) Ec2 eq_refl) as (w3 & E3 & S3 & P3 & _). assert (log w3 = log w2) as G3 by (rewrite (put_in _ _ _ _ Ec2) in E3; by injection E3 as <-). rewrite E3, bind_ret. destruct (steadily_update W w3 x (binding_state c) pimm) as [S4 P4].
    assert (exists a, log (queue_update W w3 x (binding_state c) pimm).1 = log w3 ++ [(Announced x (binding_state c) pimm, a)]) as (a & G4) by (by eexists).
    destruct (queue_update W w3 x (binding_state c) pimm) as [w4 r4]. cbn in S4, P4, G4. exists w4, r4. split_and!; try done; [by eapply steadily_trans|congruence|right; exists a; congruence]. }
  rewrite bind_ret. assert (steadily w w3) as S13 by (by eapply steadily_trans). assert (timed W w w3 p P (sort_time c)) as T3 by (unfold timed in *; by rewrite P3). assert (pimm && negb commit = false -> nosync w = false -> exists lg, log w3 = log w ++ lg /\ safe lg) as G.
  { intros Hpc Hns. destruct G3 as [-> | (a0 & ->)]; [exists lg; split; [done|by apply safe_none]|]. exists (lg ++ [(Announced x (binding_state c) pimm, a0)]). split; [by rewrite G2, app_assoc|]. destruct pimm; [|apply safe_none, Forall_app; split; [done|by apply Forall_singleton]].
    destruct commit; [|done]. destruct (Hc eq_refl eq_refl ltac:(congruence)) as (e & ->). intros a y b r d E. destruct a as [|? [|? [|? a]]]; simplify_eq/=; [by exists [], e|by destruct a]. }
  destruct (negb r3); [by exists w3, false|].
  eexists _, true. split; [reflexivity|]. destruct (check && _); [|done]. split; [eapply steadily_trans; [exact S13|apply (steadily_act W w3 (Balanced p))]|]. split; [done|]. intros Hpc Hns. destruct (G Hpc Hns) as (l & El & Hl). exists (l ++ [(Balanced p, answer W (log w3) (Balanced p))]). cbn. split; [by rewrite El, app_assoc|]. apply safe_app; [done|]. apply safe_none. by apply Forall_singleton.
Qed.

(** ** A lease moves *)

(** The lease [x] with the data [c] has moved from the queue [q] of the pool [p]. *)
Record stepped (W : world) (D : gset positive) (w w1 : db) (Q Q' : positive -> queue -> list positive) (U H : list Z -> list positive) (x : positive) (c c1 : lease) (p : positive) (q q' : queue) : Prop := Stepped {
  sp_parts : parts D D D D w1 Q' U H;
  sp_moved : moved Q Q' p q q' x;
  sp_lease : leases w1 !! x = Some c1;
  sp_pool : pool c1 = Some p;
  sp_queue : queue_of c1 = Some q';
  sp_state : binding_state c1 = next_binding_state c;
  sp_next : next_binding_state c1 = following (bool_decide (peer_of w c <> None)) (next_binding_state c);
  sp_ends : ends c1 = ends c;
  sp_sort : sort_time c1 = event_time w c1;
  sp_others y : y <> x -> vital <$> leases w1 !! y = vital <$> leases w !! y;
  sp_rest : failover_peer <$> pools w1 = failover_peer <$> pools w /\ peers w1 = peers w /\ qfollow w1 = false;
  sp_timer P : pools w !! p = Some P -> exists P1, pools w1 !! p = Some P1 /\ (rest_of P1 = rest_of P \/ cur_time W < sort_time c1);
  sp_log : nosync w1 = nosync w /\ (nosync w = false -> exists lg, log w1 = log w ++ lg /\ safe lg)
}.

Lemma vital_steady (h h' : gmap positive lease) y : steady <$> h' = steady <$> h -> vital <$> h' !! y = vital <$> h !! y.
Proof.
  intros E. apply (lookup_view steady h h' y) in E. destruct (h' !! y) as [l'|], (h !! y) as [l|]; try done. cbn in *. f_equal. unfold steady, qview in E. unfold vital. congruence.
Qed.

Lemma event_time_same w w' l l' : failover_peer <$> pools w' = failover_peer <$> pools w -> peers w' = peers w -> pool l' = pool l -> binding_state l' = binding_state l -> ends l' = ends l -> tsfp l' = tsfp l -> event_time w' l' = event_time w l.
Proof.
  intros E E1 E2 E3 E4 E5. unfold event_time. rewrite E3, E4, E5. assert (peer_of w' l' = peer_of w l) as ->; [|done]. unfold peer_of. rewrite E2, E1. destruct (pool l) as [p|]; [|done]. cbn. apply (lookup_view failover_peer _ _ p) in E. destruct (pools w' !! p), (pools w !! p); cbn in *; congruence.
Qed.

Lemma rest_peer (m m' : gmap positive pool_t) : rest_of <$> m' = rest_of <$> m -> failover_peer <$> m' = failover_peer <$> m.
Proof. exact (fmap_weaken (fun v => v.1.2) rest_of m m'). Qed.

Lemma timed_peer W w w' p P t : pools w !! p = Some P -> timed W w w' p P t -> failover_peer <$> pools w' = failover_peer <$> pools w /\ pview <$> pools w' = pview <$> pools w.
Proof. intros E [->|[_ ->]]; [done|]. split; by apply insert_view with P. Qed.

Lemma move_it_ok W T D w Q U H x c s commit prop pimm from_pool :
  parts D D D D w Q U H -> qfollow w = false -> x ∈ D -> leases w !! x = Some c -> commit || negb pimm = true ->
  exists w1 c1 p q q' Q' r, stepped W D w w1 Q Q' U H x c c1 p q q' /\ pool c = Some p /\ queue_of c = Some q /\
    move_it W T w x s commit prop pimm from_pool = (if r && negb from_pool && (sort_time c1 <? cur_time W) && bool_decide (next_binding_state c1 <> binding_state c1) then w' ← T w1 p; Ret (w', true) else Ret (w1, r)).
Proof.
  intros HP Hfo Hx Ec Hcp. unfold move_it.
  assert (exists w0 c0, (if prop then put w x (set_atsfp 0) else Ret w) = Ret w0 /\ parts D D D D w0 Q U H /\ leases w0 !! x = Some c0 /\ steady c0 = steady c /\ steadily w w0 /\ pools w0 = pools w /\ log w0 = log w) as (w0 & c0 & -> & HP0 & Ec0 & V0 & S0 & P0 & GL0).
  { destruct prop; [|exists w, c; split_and!; try done; apply steadily_refl]. destruct (steadily_put w x c (set_atsfp 0) Ec eq_refl) as (w0 & E & S & P & Ec0). assert (log w0 = log w) as GL by (rewrite (put_in _ _ _ _ Ec) in E; by injection E as <-). exists w0, (set_atsfp 0 c). split_and!; try done. eapply steadily_parts; [exact HP|exact S|by rewrite P]. }
  rewrite bind_ret, (get_in _ _ _ Ec0), bind_ret. destruct (sd_tables _ _ S0) as (_ & _ & _ & Ep0). destruct (sd_flags _ _ S0) as (Ef0 & _). unfold steady, qview in V0. injection V0 as _ A1 A2 A3 _ _ _ _ _ A4 A5 A6 A7.
  destruct (q_place _ _ _ (pt_queues _ _ _ _ _ _ _ _ HP0) x Hx) as (cx & p & P & q & Ecx & Ep & EP & Eq). rewrite Ec0 in Ecx. injection Ecx as <-. rewrite Ep, Eq. rewrite Hcp.
  destruct (change_queue_ok W D w0 Q U H x c0 s p q HP0 ltac:(congruence) Hx Ec0 Ep Eq) as (w1 & c1 & q' & Q' & -> & HP1 & Hmv & Hoth & Ec1 & Ep1 & Eq1 & B1 & B2 & B3 & _ & B4 & R1 & R2 & R3 & N1 & _ & lg1 & GL1 & GF1). rewrite bind_ret. cbn [negb].
  assert (is_Some (pools w1 !! p)) as [P1 EP1] by (destruct (fmap_lookup_inv _ _ _ _ _ (eq_sym R1) EP) as (P1 & E & _); by exists P1).
  destruct (publish_ok W w1 x c1 p P1 commit prop pimm (bool_decide (binding_state c0 = FTS_FREE) || bool_decide (binding_state c0 = FTS_BACKUP)) Ec1 EP1) as (w2 & r & -> & S2 & T2 & GP). rewrite bind_ret.
  destruct (timed_peer _ _ _ _ _ _ EP1 T2) as [TP TV]. destruct (fmap_lookup_inv _ _ _ _ _ (eq_sym (sd_leases _ _ S2)) Ec1) as (c2 & Ec2 & V2). unfold steady, qview in V2. injection V2 as _ G1 G2 G3 _ _ _ _ _ G4 G5 G6 G7.
  destruct (sd_tables _ _ S2) as (_ & _ & _ & Ep2). destruct (sd_flags _ _ S2) as (Ef2 & _).
  assert (failover_peer <$> pools w2 = failover_peer <$> pools w) as EFP by (rewrite TP, (rest_peer _ _ R1), P0; done).
  exists w2, c2, p, q, q', Q', r. split; [split|split; [congruence|split; [congruence|]]]; try congruence.
  - by eapply steadily_parts.
  - rewrite G5, B2. assert (peer_of w0 c0 = peer_of w c) as -> by (unfold peer_of; by rewrite P0, Ep0, A1). congruence.
  - rewrite G3, B4. symmetry. apply event_time_same; [by rewrite P0|done|congruence..].
  - intros y Hy. rewrite (vital_steady _ _ y (sd_leases _ _ S2)), <- (vital_steady _ _ y (sd_leases _ _ S0)). specialize (Hoth y Hy). destruct (leases w1 !! y) as [l1|], (leases w0 !! y) as [l0|]; try done. cbn in *. f_equal. apply (inj Some) in Hoth. exact (f_equal vital Hoth).
  - split; [done|]. split; congruence.
  - intros P2 EP2. rewrite <- P0 in EP2. destruct (fmap_lookup_inv _ _ _ _ _ (eq_sym R1) EP2) as (P3 & EP3 & ER). rewrite EP1 in EP3. injection EP3 as <-.
    destruct T2 as [T2|[T2 T2']]; [exists P1; rewrite T2; split; [done|by left]|]. exists (arm (sort_time c1) P1). rewrite T2', lookup_insert_eq. split; [done|]. right. congruence.
  - destruct (sd_flags _ _ S0) as (_ & M0 & _). destruct (sd_flags _ _ S2) as (_ & M2 & _). split; [congruence|]. intros Hns. destruct GP as (lg2 & GL2 & GS2); [by destruct commit, pimm|congruence|]. exists (lg1 ++ lg2). split; [by rewrite GL2, GL1, GL0, app_assoc|]. apply safe_app; [by apply safe_ran|done].
  - destruct r; cbn [negb andb]; [|done]. rewrite (get_in _ _ _ Ec2), bind_ret, andb_true_r. destruct (negb from_pool && _ && _); [|done]. done.
Qed.

(** ** The timer *)

(** The next state of a lease is the one that follows its state. *)
Definition settled (D : gset positive) (w : db) : Prop :=
  forall x l, x ∈ D -> leases w !! x = Some l -> next_binding_state l = following (bool_decide (peer_of w l <> None)) (binding_state l).

(** Without a failover peer, a lease is sorted by the time at which it ends. *)
Definition punctual (D : gset positive) (w : db) : Prop := forall x l, x ∈ D -> leases w !! x = Some l -> peer_of w l = None -> sort_time l = ends l.

Definition same_peers (w w' : db) : Prop := failover_peer <$> pools w' = failover_peer <$> pools w /\ peers w' = peers w.

Lemma peer_of_same w w' l l' : same_peers w w' -> pool l' = pool l -> peer_of w' l' = peer_of w l.
Proof.
  intros [E E1] E2. unfold peer_of. rewrite E2, E1. destruct (pool l) as [p|]; [|done]. cbn. apply (lookup_view failover_peer _ _ p) in E. destruct (pools w' !! p), (pools w !! p); cbn in *; congruence.
Qed.

Lemma step_settled W D w w1 Q Q' U H x c c1 p q q' : stepped W D w w1 Q Q' U H x c c1 p q q' -> pool c = Some p ->
  (forall y l, y ∈ D -> y <> x -> leases w !! y = Some l -> next_binding_state l = following (bool_decide (peer_of w l <> None)) (binding_state l)) -> settled D w1.
Proof.
  intros S Ep Hs y l1 Hy El1. assert (same_peers w w1) as HS by (destruct (sp_rest _ _ _ _ _ _ _ _ _ _ _ _ _ _ S) as (? & ? & _); done). destruct (decide (y = x)) as [->|Hyx].
  - rewrite (sp_lease _ _ _ _ _ _ _ _ _ _ _ _ _ _ S) in El1. injection El1 as <-. rewrite (peer_of_same w w1 c c1 HS) by (rewrite (sp_pool _ _ _ _ _ _ _ _ _ _ _ _ _ _ S); done). by rewrite (sp_next _ _ _ _ _ _ _ _ _ _ _ _ _ _ S), (sp_state _ _ _ _ _ _ _ _ _ _ _ _ _ _ S).
  - pose proof (sp_others _ _ _ _ _ _ _ _ _ _ _ _ _ _ S y Hyx) as E. rewrite El1 in E. destruct (leases w !! y) as [l|] eqn:El; [|done]. cbn in E. injection E as A1 _ _ A2 A3 _ _. rewrite (peer_of_same w w1 l l1 HS A1), A3, A2. by eapply Hs.
Qed.

Lemma event_time_alone w l : peer_of w l = None -> event_time w l = ends l.
Proof. intros E. unfold event_time. rewrite E. by destruct (binding_state l). Qed.

Lemma step_punctual W D w w1 Q Q' U H x c c1 p q q' : stepped W D w w1 Q Q' U H x c c1 p q q' ->
  (forall y l, y ∈ D -> y <> x -> leases w !! y = Some l -> peer_of w l = None -> sort_time l = ends l) -> punctual D w1.
Proof.
  intros S Hs y l1 Hy El1 En. assert (same_peers w w1) as HS by (destruct (sp_rest _ _ _ _ _ _ _ _ _ _ _ _ _ _ S) as (? & ? & _); done). destruct (decide (y = x)) as [->|Hyx].
  - rewrite (sp_lease _ _ _ _ _ _ _ _ _ _ _ _ _ _ S) in El1. injection El1 as <-. rewrite (sp_sort _ _ _ _ _ _ _ _ _ _ _ _ _ _ S). apply event_time_alone. by rewrite <- (peer_of_same w w1 c1 c1 HS eq_refl).
  - pose proof (sp_others _ _ _ _ _ _ _ _ _ _ _ _ _ _ S y Hyx) as E. rewrite El1 in E. destruct (leases w !! y) as [l|] eqn:El; [|done]. cbn in E. injection E as A1 _ A0 A2 A3 A4 A5. rewrite A0, A4. apply (Hs y l Hy Hyx El). by rewrite <- (peer_of_same w w1 l l1 HS A1).
Qed.

(** A lease that is due leaves its queue. *)
Lemma queue_left c c1 peer : next_binding_state c = following (bool_decide (peer <> None)) (binding_state c) -> next_binding_state c <> binding_state c ->
  binding_state c1 = next_binding_state (rewind peer c) -> queue_of c1 <> queue_of c /\ (peer = None -> binding_state c1 = FTS_FREE).
Proof.
  intros Hs Hp Hb. assert (binding_state c1 = next_binding_state c \/ (next_binding_state c = FTS_EXPIRED /\ (binding_state c1 = FTS_FREE \/ binding_state c1 = FTS_BACKUP))) as Hc.
  { rewrite Hb. unfold rewind. destruct peer as [f|]; [|by left]. destruct (bool_decide (service_state f = _) && _ && _) eqn:E; [|by left]. right. apply andb_true_iff in E as [E E1]. apply andb_true_iff in E as [_ E2]. apply bool_decide_eq_true in E2. split; [done|]. cbn.
    apply orb_true_iff in E1 as [E1|E1]; apply andb_true_iff in E1 as [_ E1]; apply bool_decide_eq_true in E1; auto. }
  split.
  - unfold queue_of. destruct Hc as [->|[Hn [-> | ->]]]; [|rewrite Hn in Hs|rewrite Hn in Hs]; destruct (binding_state c) eqn:Eb; try rewrite Hs; cbn in *; try done; repeat case_match; try done; congruence.
  - intros ->. destruct Hc as [->|[Hn _]]; [rewrite Hs|exfalso; rewrite Hn in Hs]; destruct (binding_state c) eqn:Eb; cbn in *; congruence.
Qed.

(** What one call for a lease that is due does. *)
Record expired_one (W : world) (D : gset positive) (w w1 : db) (Q Q' : positive -> queue -> list positive) (U H : list Z -> list positive) (x : positive) (c c1 : lease) (p : positive) (q q' : queue) : Prop := ExpiredOne {
  eo_parts : parts D D D D w1 Q' U H;
  eo_qfollow : qfollow w1 = false;
  eo_peers : same_peers w w1;
  eo_settled : settled D w1;
  eo_punctual : punctual D w -> punctual D w1;
  eo_lease : leases w1 !! x = Some c1;
  eo_pool : pool c1 = Some p;
  eo_queue : queue_of c1 = Some q' /\ q' <> q;
  eo_lists : moved Q Q' p q q' x;
  eo_others y : y <> x -> vital <$> leases w1 !! y = vital <$> leases w !! y;
  eo_alone : peer_of w c = None -> binding_state c1 = FTS_FREE /\ next_binding_state c1 = FTS_FREE /\ sort_time c1 = ends c;
  eo_timer P : pools w !! p = Some P -> exists P1, pools w1 !! p = Some P1 /\ (rest_of P1 = rest_of P \/ cur_time W < sort_time c1);
  eo_log : nosync w1 = nosync w /\ (nosync w = false -> exists lg, log w1 = log w ++ lg /\ safe lg)
}.

Lemma rewind_same f l : steady (rewind f l) = (qview l, cview by_uid l, cview by_hw l, billing_class l, binding_state l, next_binding_state (rewind f l), ends l, tsfp l) /\ (valid (next_binding_state l) = true -> valid (next_binding_state (rewind f l)) = true).
Proof.
  unfold rewind. destruct f as [f|]; [|done]. destruct (bool_decide (service_state f = _) && _ && _) eqn:E; [|done]. split; [done|]. intros _. cbn. apply andb_true_iff in E as [_ E]. apply orb_true_iff in E as [E|E]; apply andb_true_iff in E as [_ E]; apply bool_decide_eq_true in E; by rewrite E.
Qed.

Lemma expire_one W D w Q U H x c p q : parts D D D D w Q U H -> qfollow w = false -> settled D w -> x ∈ D -> leases w !! x = Some c -> pool c = Some p -> queue_of c = Some q -> next_binding_state c <> binding_state c ->
  exists w1 c1 q' Q', (w ← put w x (rewind (peer_of w c)); supersede_from_timer W w x) = Ret w1 /\ expired_one W D w w1 Q Q' U H x c c1 p q q'.
Proof.
  intros HP Hfo Hset Hx Ec Ep Eq Hpend. destruct (local_put x w c (rewind (peer_of w c)) Ec) as (w0 & E0 & L0 & Ec0 & S0). pose proof E0 as EL0. rewrite (put_in _ _ _ _ Ec) in EL0. rewrite E0, bind_ret. destruct (local_same _ _ _ L0) as (T1 & T2 & T3 & _).
  destruct (rewind_same (peer_of w c) c) as [V Vv]. unfold steady in V. set (c0 := rewind (peer_of w c) c) in *. injection V as V1 V2 V3 V4 V5 V6 V7 V8 V9 V10 V11 V12. pose proof (pt_states _ _ _ _ _ _ _ _ HP x c Hx Ec) as Hv.
  assert (parts D D D D w0 Q U H) as HP0.
  { eapply local_parts; [exact HP|exact L0|exact Ec|exact Ec0|left; unfold qview; congruence|left; unfold cview; cbn; congruence|left; unfold cview; cbn; congruence| |done|intros _; by apply Vv]. eapply local_bills; [exact L0|exact S0|exact Ec|exact Ec0|done|apply HP]. }
  destruct (move_it_ok W (fun w _ => Ret w) D w0 Q U H x c0 None true true true true HP0 ltac:(congruence) Hx Ec0 eq_refl) as (w1 & c1 & p1 & q1 & q' & Q' & r & S & Ep1 & Eq1 & E).
  assert (p1 = p) as -> by congruence. assert (q1 = q) as -> by congruence. exists w1, c1, q', Q'.
  assert (same_peers w w0) as HS0 by (split; [by rewrite T1|done]). assert (same_peers w0 w1) as HS1 by (destruct (sp_rest _ _ _ _ _ _ _ _ _ _ _ _ _ _ S) as (? & ? & _); done).
  assert (peer_of w0 c0 = peer_of w c) as Epr by (apply peer_of_same; [done|congruence]). pose proof (Hset x c Hx Ec) as Hsx.
  destruct (queue_left c c1 (peer_of w c) Hsx Hpend) as [Hql Hfree]; [exact (sp_state _ _ _ _ _ _ _ _ _ _ _ _ _ _ S)|].
  split. { unfold supersede_from_timer, supersede_lease_with. cbn [andb negb]. rewrite E. rewrite !andb_false_r. cbn [andb]. by rewrite !bind_ret. }
  assert (forall y, y <> x -> leases w0 !! y = leases w !! y) as Hoth by (intros y Hy; by apply local_other with x).
  split.
  - apply S.
  - by apply (sp_rest _ _ _ _ _ _ _ _ _ _ _ _ _ _ S).
  - destruct HS0, HS1. split; congruence.
  - eapply step_settled; [exact S|done|]. intros y l Hy Hyx El. rewrite Hoth in El by done. rewrite (peer_of_same w w0 l l HS0 eq_refl). by eapply Hset.
  - intros Hpu. eapply step_punctual; [exact S|]. intros y l Hy Hyx El En. rewrite Hoth in El by done. apply (Hpu y l Hy El). by rewrite <- (peer_of_same w w0 l l HS0 eq_refl).
  - apply S.
  - apply S.
  - split; [apply S|]. intros ->. apply Hql. rewrite Eq. apply S.
  - apply S.
  - intros y Hy. rewrite (sp_others _ _ _ _ _ _ _ _ _ _ _ _ _ _ S y Hy). by rewrite Hoth.
  - intros En. specialize (Hfree En). split; [done|]. pose proof (sp_next _ _ _ _ _ _ _ _ _ _ _ _ _ _ S) as Hn. rewrite <- (sp_state _ _ _ _ _ _ _ _ _ _ _ _ _ _ S), Hfree in Hn. split; [done|].
    rewrite (sp_sort _ _ _ _ _ _ _ _ _ _ _ _ _ _ S). unfold event_time. rewrite Hfree, (sp_ends _ _ _ _ _ _ _ _ _ _ _ _ _ _ S). congruence.
  - intros P EP. rewrite <- T1 in EP. exact (sp_timer _ _ _ _ _ _ _ _ _ _ _ _ _ _ S P EP).
  - destruct (sp_log _ _ _ _ _ _ _ _ _ _ _ _ _ _ S) as [N1 N2]. assert (nosync w0 = nosync w /\ log w0 = log w) as [<- <-]; [|done]. by injection EL0 as <-.
Qed.

Lemma split_unique {A} (x : A) a b c d : a ++ x :: b = c ++ x :: d -> x ∉ a -> x ∉ c -> a = c /\ b = d.
Proof.
  revert c. induction a as [|y a IH]; intros [|z c] E Ha Hc; cbn in E.
  - by injection E as ->.
  - injection E as <- _. exfalso. apply Hc. by left.
  - injection E as -> _. exfalso. apply Ha. by left.
  - injection E as -> E. apply not_elem_of_cons in Ha as [_ Ha], Hc as [_ Hc]. by destruct (IH c E Ha Hc) as [-> ->].
Qed.

Lemma moved_from Q Q' p q q' x a b : moved Q Q' p q q' x -> q' <> q -> NoDup (Q p q) -> Q p q = a ++ x :: b -> Q' p q = a ++ b.
Proof.
  intros [(l1 & l2 & m1 & m2 & E & _ & ->)] Hq Hn Ea. rewrite upd_ne by naive_solver. rewrite upd_eq. rewrite E in Hn. assert (x ∉ l1) as H1 by (apply NoDup_app in Hn as (_ & Hn & _); intros Hi; apply (Hn x Hi); by left).
  rewrite E in Ea. assert (x ∉ a) as H2 by (rewrite Ea in Hn; apply NoDup_app in Hn as (_ & Hn & _); intros Hi; apply (Hn x Hi); by left). by destruct (split_unique x _ _ _ _ Ea H1 H2) as [-> ->].
Qed.

(** The leases of a list are not due, and the timer is not set later than for one of them. *)
Definition calm (W : world) (w : db) (L : list positive) (ne : Z) : Prop :=
  forall y l, y ∈ L -> leases w !! y = Some l -> (next_binding_state l <> binding_state l -> cur_time W < sort_time l) /\ (cur_time W < sort_time l -> ne <= sort_time l).

(** A lease that waits for nothing. *)
Definition idle (W : world) (w : db) (y : positive) : Prop := forall l, leases w !! y = Some l -> next_binding_state l = binding_state l /\ sort_time l <= cur_time W.

Lemma calm_le W w L ne ne' : ne' <= ne -> calm W w L ne -> calm W w L ne'.
Proof. intros Hn H y l Hy El. destruct (H y l Hy El) as [H1 H2]. split; [done|]. intros Hc. specialize (H2 Hc). lia. Qed.

(** A lease whose time has not come does not change. *)
Definition early (W : world) (w w' : db) : Prop := forall y l, leases w !! y = Some l -> cur_time W < sort_time l -> vital <$> leases w' !! y = Some (vital l).

Lemma early_trans W w1 w2 w3 : early W w1 w2 -> early W w2 w3 -> early W w1 w3.
Proof.
  intros H1 H2 y l E Hc. specialize (H1 y l E Hc). destruct (leases w2 !! y) as [l2|] eqn:E2; [|done]. cbn in H1. assert (vital l2 = vital l) as V by congruence. rewrite (H2 y l2 E2); [by rewrite V|]. unfold vital in V. injection V as _ _ -> _ _ _ _. done.
Qed.

Section Timer.
Context (W : world) (D : gset positive) (U H : list Z -> list positive) (p : positive).

Lemma one_idle w w1 Q Q' x c c1 q q' P : expired_one W D w w1 Q Q' U H x c c1 p q q' -> pools w !! p = Some P -> failover_peer P = None -> pool c = Some p -> (peer_of w c = None -> sort_time c = ends c) -> sort_time c <= cur_time W ->
  next_binding_state c1 = binding_state c1 /\ sort_time c1 <= cur_time W /\ exists P1, pools w1 !! p = Some P1 /\ rest_of P1 = rest_of P.
Proof.
  intros S EP Ef Ep Es Hc. assert (peer_of w c = None) as En by (unfold peer_of; rewrite Ep; cbn; rewrite EP; cbn; by rewrite Ef). destruct (eo_alone _ _ _ _ _ _ _ _ _ _ _ _ _ _ S En) as (A1 & A2 & A3).
  specialize (Es En). assert (sort_time c1 <= cur_time W) as Hc1 by lia. split; [congruence|]. split; [done|].
  destruct (eo_timer _ _ _ _ _ _ _ _ _ _ _ _ _ _ S P EP) as (P1 & E1 & [R|R]); [by exists P1|lia].
Qed.

Lemma one_calm w w1 Q Q' x c c1 q q' q2 ne : parts D D D D w Q U H -> expired_one W D w w1 Q Q' U H x c c1 p q q' -> next_binding_state c1 = binding_state c1 -> sort_time c1 <= cur_time W -> calm W w (Q p q2) ne -> calm W w1 (Q' p q2) ne.
Proof.
  intros HP S H1 H2 Hcalm y l1 Hy El1. destruct (decide (y = x)) as [->|Hyx].
  - rewrite (eo_lease _ _ _ _ _ _ _ _ _ _ _ _ _ _ S) in El1. injection El1 as <-. split; [done|lia].
  - pose proof (eo_others _ _ _ _ _ _ _ _ _ _ _ _ _ _ S y Hyx) as E. rewrite El1 in E. destruct (leases w !! y) as [l|] eqn:El; [|done]. cbn in E. injection E as A1 A2 A3 A4 A5 _ _. rewrite A3, A4, A5. apply (Hcalm y l); [|done].
    apply (q_mem _ _ _ (pt_queues _ _ _ _ _ _ _ _ (eo_parts _ _ _ _ _ _ _ _ _ _ _ _ _ _ S))) in Hy as [Hd (l1' & E1 & E2 & E3)]. rewrite El1 in E1. injection E1 as <-. apply (q_mem _ _ _ (pt_queues _ _ _ _ _ _ _ _ HP)). split; [done|]. exists l. split; [done|]. split; congruence.
Qed.

(** What the timer has done. *)
Record ticked (w w' : db) (Q' : positive -> queue -> list positive) : Prop := Ticked {
  tk_parts : parts D D D D w' Q' U H;
  tk_qfollow : qfollow w' = false;
  tk_settled : settled D w';
  tk_peers : same_peers w w';
  tk_punctual : punctual D w -> punctual D w';
  tk_early : early W w w';
  tk_rest P : pools w !! p = Some P -> failover_peer P = None -> punctual D w -> exists P', pools w' !! p = Some P' /\ rest_of P' = rest_of P;
  tk_log : nosync w' = nosync w /\ (nosync w = false -> exists lg, log w' = log w ++ lg /\ safe lg)
}.

Lemma ticked_trans w1 w2 w3 Q2 Q3 : ticked w1 w2 Q2 -> ticked w2 w3 Q3 -> ticked w1 w3 Q3.
Proof.
  intros [A1 A2 A3 [A4 A4'] A5 A6 A8 [A9 A10]] [B1 B2 B3 [B4 B4'] B5 B6 B8 [B9 B10]]. split; [done|done|done|split; congruence|auto|by eapply early_trans| |split; [congruence|]; intros Hn; destruct (A10 Hn) as (l1 & E1 & S1); destruct B10 as (l2 & E2 & S2); [congruence|]; exists (l1 ++ l2); split; [by rewrite E2, E1, app_assoc|by apply safe_app]]. intros P E Ef Hp. destruct (A8 P E Ef Hp) as (P2 & E2 & R2). destruct (B8 P2 E2) as (P3 & E3 & R3); [|auto|].
  - unfold rest_of in R2. injection R2 as _ _ R2 _. congruence.
  - exists P3. split; [done|congruence].
Qed.

Lemma ticked_refl w Q : parts D D D D w Q U H -> qfollow w = false -> settled D w -> ticked w w Q.
Proof. intros HP Hf Hs. split; try done. - intros y l E _. by rewrite E. - intros P E _ _. by exists P. - split; [done|]. intros _. exists []. rewrite app_nil_r. split; [done|]. by apply safe_none. Qed.

Lemma one_ticked w w1 Q Q' x c c1 q q' : settled D w -> x ∈ D -> leases w !! x = Some c -> pool c = Some p -> sort_time c <= cur_time W -> expired_one W D w w1 Q Q' U H x c c1 p q q' -> ticked w w1 Q'.
Proof.
  intros Hs Hx Ec Ep Hc S. split; try apply S.
  - intros y l E Hl. destruct (decide (y = x)) as [->|Hyx]; [rewrite Ec in E; injection E as <-; lia|]. rewrite (eo_others _ _ _ _ _ _ _ _ _ _ _ _ _ _ S y Hyx). by rewrite E.
  - intros P EP Ef Hp. destruct (one_idle _ _ _ _ _ _ _ _ _ _ S EP Ef Ep (Hp x c Hx Ec) Hc) as (_ & _ & P1 & E1 & R1). by exists P1.
Qed.

(** A lease of the pool has the time. *)
Definition found (w : db) (t : Z) : Prop := exists y l, y ∈ D /\ leases w !! y = Some l /\ pool l = Some p /\ sort_time l = t.

Lemma found_early w w' t : early W w w' -> cur_time W < t -> found w t -> found w' t.
Proof.
  intros He Ht (y & l & Hy & El & Ep & <-). specialize (He y l El Ht). destruct (leases w' !! y) as [l'|] eqn:El'; [|done]. cbn in He. injection He as E1 _ E2 _ _ _ _. exists y, l'. split; [done|]. split; [done|]. split; [congruence|done].
Qed.

Lemma expire_queue_ok q R : forall fuel w Q A ne, parts D D D D w Q U H -> qfollow w = false -> settled D w -> Q p q = A ++ R -> (length R <= fuel)%nat ->
  exists w' Q' ne', expire_queue W fuel w (head R) ne = Ret (w', ne') /\ ticked w w' Q' /\
    forall P, pools w !! p = Some P -> failover_peer P = None -> punctual D w -> Forall (idle W w) A ->
      ne' <= ne /\ (ne' = ne \/ cur_time W < ne' /\ found w' ne') /\ calm W w' (Q' p q) ne' /\ forall q2, q2 <> q -> calm W w (Q p q2) ne -> calm W w' (Q' p q2) ne'.
Proof.
  induction R as [|x R IH]; intros fuel w Q A ne HP Hf Hs EQ Hl; pose proof (pt_queues _ _ _ _ _ _ _ _ HP) as HQ.
  - exists w, Q, ne. split; [by destruct fuel|]. split; [by apply ticked_refl|]. intros P EP _ _ HA. split; [lia|]. split; [by left|]. split; [|done]. rewrite EQ, app_nil_r. intros y l Hy El. destruct (proj1 (Forall_forall _ _) HA y Hy l El) as [H1 H2]. split; [done|lia].
  - assert (x ∈ Q p q) as Hi by (rewrite EQ; set_solver). pose proof (proj1 (q_mem _ _ _ HQ p q x) Hi) as (Hx & c & Ec & Ep & Eq). destruct (q_place _ _ _ HQ x Hx) as (c' & p' & P0 & q' & E1 & E2 & EP0 & _). rewrite Ec in E1. injection E1 as <-. rewrite Ep in E2. injection E2 as <-.
    pose proof (q_chain _ _ _ HQ p P0 q EP0) as Hseg. rewrite EQ in Hseg. apply seg_app in Hseg as (m & _ & (_ & v & Ev & Hseg)). rewrite Ec in Ev. injection Ev as <-. apply seg_head in Hseg.
    destruct fuel as [|fuel]; [cbn in Hl; lia|]. cbn [head expire_queue]. rewrite (get_in _ _ _ Ec), bind_ret. destruct (cur_time W <? sort_time c) eqn:Et.
    + exists w, Q, (if sort_time c <? ne then sort_time c else ne). split; [done|]. split; [by apply ticked_refl|]. intros P EP _ _ HA.
      assert ((if sort_time c <? ne then sort_time c else ne) <= ne /\ (if sort_time c <? ne then sort_time c else ne) <= sort_time c) as [Hle Hlc] by (destruct (sort_time c <? ne) eqn:E; lia). split; [done|].
      split; [destruct (sort_time c <? ne); [right; split; [lia|by exists x, c]|by left]|]. split; [|intros q2 _; by apply calm_le]. intros y l Hy El. rewrite EQ in Hy. apply elem_of_app in Hy as [Hy|Hy].
      * destruct (proj1 (Forall_forall _ _) HA y Hy l El) as [H1 H2]. split; [done|lia].
      * assert (sort_time c <= sort_time l) as Hord; [|split; lia]. pose proof (q_order _ _ _ HQ p q) as Ho. rewrite EQ in Ho. apply StronglySorted_app in Ho as (_ & _ & [Ho _]%StronglySorted_cons). apply elem_of_cons in Hy as [->|Hy]; [rewrite Ec in El; injection El as <-; lia|].
        pose proof (proj1 (Forall_forall _ _) Ho y Hy) as Hst. unfold st in Hst. by rewrite Ec, El in Hst.
    + assert (sort_time c <= cur_time W) as Hc by lia. case_bool_decide as Hpend.
      * destruct (expire_one W D w Q U H x c p q HP Hf Hs Hx Ec Ep Eq Hpend) as (w1 & c1 & q1 & Q1 & -> & S). rewrite bind_ret, Hseg. destruct (eo_queue _ _ _ _ _ _ _ _ _ _ _ _ _ _ S) as [_ Hq1].
        pose proof (one_ticked _ _ _ _ _ _ _ _ _ Hs Hx Ec Ep Hc S) as T1.
        destruct (IH fuel w1 Q1 A ne) as (w' & Q' & ne' & E & T2 & Hc2); [apply S|apply S|apply S|eapply moved_from; [apply S|done|apply HQ|done]|cbn in Hl; lia|]. exists w', Q', ne'. split; [done|]. split; [by eapply ticked_trans|].
        intros P EP Ef Hp HA. destruct (one_idle _ _ _ _ _ _ _ _ _ _ S EP Ef Ep (Hp x c Hx Ec) Hc) as (I1 & I2 & P1 & EP1 & R1). destruct (Hc2 P1 EP1) as (G1 & G2 & G3 & G4).
        { unfold rest_of in R1. injection R1 as _ _ R1 _. congruence. } { by apply S. }
        { apply Forall_forall. intros y Hy l1 El1. assert (y <> x) as Hyx by (intros ->; pose proof (q_nodup _ _ _ HQ p q) as Hn; rewrite EQ in Hn; apply NoDup_app in Hn as (_ & Hn & _); apply (Hn x Hy); by left).
          pose proof (eo_others _ _ _ _ _ _ _ _ _ _ _ _ _ _ S y Hyx) as E'. rewrite El1 in E'. destruct (leases w !! y) as [l|] eqn:El; [|done]. cbn in E'. injection E' as _ _ -> -> -> _ _. exact (proj1 (Forall_forall _ _) HA y Hy l El). }
        split; [done|]. split; [done|]. split; [done|]. intros q2 Hq2 Hcalm. apply G4; [done|]. by eapply one_calm.
      * rewrite bind_ret, Hseg. destruct (IH fuel w Q (A ++ [x]) ne HP Hf Hs) as (w' & Q' & ne' & E & T2 & Hc2); [by rewrite <- app_assoc|cbn in Hl; lia|]. exists w', Q', ne'. split; [done|]. split; [done|].
        intros P EP Ef Hp HA. apply (Hc2 P EP Ef Hp). apply Forall_app. split; [done|]. apply Forall_singleton. intros l El. rewrite Ec in El. injection El as <-. split; [|done]. destruct (decide (next_binding_state c = binding_state c)); done.
Qed.

End Timer.

Section PoolTimer.
Context (W : world) (D : gset positive) (U H : list Z -> list positive) (p : positive).

Lemma ticked_pool w w' Q' P : ticked W D U H p w w' Q' -> pools w !! p = Some P -> exists P', pools w' !! p = Some P' /\ failover_peer P' = failover_peer P.
Proof. intros T E. destruct (fmap_lookup_inv _ _ _ _ _ (eq_sym (proj1 (tk_peers _ _ _ _ _ _ _ _ T))) E) as (P' & E' & F). by exists P'. Qed.

Lemma expire_queues_ok qs : forall w Q ne P, parts D D D D w Q U H -> qfollow w = false -> settled D w -> pools w !! p = Some P ->
  exists w' Q' ne', expire_queues W qs w p ne = Ret (w', ne') /\ ticked W D U H p w w' Q' /\
    (failover_peer P = None -> punctual D w -> ne' <= ne /\ (ne' = ne \/ cur_time W < ne' /\ found D p w' ne') /\ (forall q, q ∈ qs -> calm W w' (Q' p q) ne') /\ forall q, calm W w (Q p q) ne -> calm W w' (Q' p q) ne').
Proof.
  induction qs as [|q qs IH]; intros w Q ne P HP Hf Hs EP.
  - exists w, Q, ne. split; [done|]. split; [by apply ticked_refl|]. intros _ _. split; [lia|]. split; [by left|]. split; [by intros q ?%elem_of_nil|done].
  - cbn [expire_queues]. rewrite (get_pool_in _ _ _ EP), bind_ret. pose proof (pt_queues _ _ _ _ _ _ _ _ HP) as HQ. pose proof (q_chain _ _ _ HQ p P q EP) as Hseg.
    assert (exists w1 Q1 ne1, (if skipped (pool_peer w P) q then Ret (w, ne) else expire_queue W (S (2 * size (leases w))) w (heads P q) ne) = Ret (w1, ne1) /\ ticked W D U H p w w1 Q1 /\
      (failover_peer P = None -> punctual D w -> ne1 <= ne /\ (ne1 = ne \/ cur_time W < ne1 /\ found D p w1 ne1) /\ calm W w1 (Q1 p q) ne1 /\ forall q2, q2 <> q -> calm W w (Q p q2) ne -> calm W w1 (Q1 p q2) ne1)) as (w1 & Q1 & ne1 & -> & T1 & C1).
    { destruct (skipped (pool_peer w P) q) eqn:Esk.
      - exists w, Q, ne. split; [done|]. split; [by apply ticked_refl|]. intros Ef. exfalso. unfold pool_peer in Esk. rewrite Ef in Esk. by destruct q.
      - rewrite (seg_head _ _ _ _ Hseg). destruct (expire_queue_ok W D U H p q (Q p q) (S (2 * size (leases w))) w Q [] ne HP Hf Hs eq_refl) as (w1 & Q1 & ne1 & E & T1 & C1); [pose proof (seg_length _ _ _ _ _ Hseg (q_nodup _ _ _ HQ p q)); lia|].
        exists w1, Q1, ne1. split; [done|]. split; [done|]. intros Ef Hp. by apply (C1 P EP Ef Hp). }
    rewrite bind_ret. cbn [fst snd]. destruct (ticked_pool w w1 Q1 P T1 EP) as (P1 & EP1 & Ef1). destruct (IH w1 Q1 ne1 P1) as (w' & Q' & ne' & -> & T2 & C2); [apply T1|apply T1|apply T1|done|].
    exists w', Q', ne'. split; [done|]. split; [by eapply ticked_trans|]. intros Ef Hp. destruct (C1 Ef Hp) as (A1 & A2 & A3 & A4). destruct C2 as (B1 & B2 & B3 & B4); [congruence|by apply T1|].
    split; [lia|]. split; [destruct B2 as [->|B2]; [|by right]; destruct A2 as [->|[A2 A2']]; [by left|]; right; split; [done|]; eapply found_early; [apply T2|done|done]|]. split; [intros q2 [->|Hq2]%elem_of_cons; [by apply B4|by apply B3]|]. intros q2 Hq2. apply B4. destruct (decide (q2 = q)) as [->|Hne]; [done|by apply A4].
Qed.

(** The lease of the pool has a time that is still to come. *)
Definition waiting (w : db) (x : positive) (l : lease) : Prop := x ∈ D /\ leases w !! x = Some l /\ pool l = Some p /\ cur_time W < sort_time l < MAX_TIME.

(** The timer when the pool has no failover peer and its time has come: it is set for the
    earliest of the leases that wait, or not at all when none does. *)
Definition timer_set (w : db) (P : pool_t) : Prop :=
  (timer P = Some (next_event_time P) /\ (exists x l, waiting w x l /\ sort_time l = next_event_time P) /\ forall x l, waiting w x l -> next_event_time P <= sort_time l) \/
  (next_event_time P = MIN_TIME /\ forall x l, ~ waiting w x l).

Lemma pool_timer_ok w Q P : parts D D D D w Q U H -> qfollow w = false -> settled D w -> pools w !! p = Some P ->
  exists w' Q', pool_timer W w p = Ret w' /\ parts D D D D w' Q' U H /\ qfollow w' = false /\ settled D w' /\ (punctual D w -> punctual D w') /\ early W w w' /\ (nosync w' = nosync w /\ (nosync w = false -> exists lg, log w' = log w ++ lg /\ safe lg)) /\
    (failover_peer P = None -> punctual D w ->
      (forall x l, x ∈ D -> leases w' !! x = Some l -> pool l = Some p -> next_binding_state l <> binding_state l -> cur_time W < sort_time l) /\
      (next_event_time P <= cur_time W -> exists P', pools w' !! p = Some P' /\ timer_set w' P')).
Proof.
  intros HP Hf Hs EP. destruct (expire_queues_ok all_queues w Q MAX_TIME P HP Hf Hs EP) as (w1 & Q1 & ne & E & T & C). destruct (ticked_pool w w1 Q1 P T EP) as (P1 & EP1 & Ef1).
  unfold pool_timer. rewrite E, bind_ret, (put_pool_in _ _ _ _ EP1).
  set (P' := if negb (ne =? MAX_TIME) && ((ne <? next_event_time P1) || (next_event_time P1 <=? cur_time W)) then arm ne P1 else set_event_time MIN_TIME P1). set (w' := with_pools w1 (<[p := P']> (pools w1))).
  assert (pview P' = pview P1 /\ failover_peer P' = failover_peer P1) as [EV EF] by (unfold P'; by destruct (negb _ && _)).
  assert (same_peers w1 w') as HS by (split; [by apply insert_view with P1|done]).
  exists w', Q1. split; [done|]. split; [eapply steadily_parts; [apply T|apply steadily_pool|by apply insert_view with P1]|]. split; [apply T|].
  split; [intros y l Hy El; rewrite (peer_of_same w1 w' l l HS eq_refl); by eapply (tk_settled _ _ _ _ _ _ _ _ T)|]. split; [intros Hp y l Hy El En; apply (tk_punctual _ _ _ _ _ _ _ _ T Hp y l Hy El); by rewrite <- (peer_of_same w1 w' l l HS eq_refl)|]. split; [apply T|]. split; [apply T|].
  intros Efn Hp. destruct (C Efn Hp) as (C1 & C2 & C3 & _).
  assert (forall x l, x ∈ D -> leases w' !! x = Some l -> pool l = Some p -> (next_binding_state l <> binding_state l -> cur_time W < sort_time l) /\ (cur_time W < sort_time l -> ne <= sort_time l)) as Hall.
  { intros x l Hx El Epl. destruct (q_place _ _ _ (pt_queues _ _ _ _ _ _ _ _ (tk_parts _ _ _ _ _ _ _ _ T)) x Hx) as (l' & p' & P'' & q & E1 & E2 & _ & E4). change (leases w1 !! x = Some l) in El. rewrite El in E1. injection E1 as <-. rewrite Epl in E2. injection E2 as <-.
    apply (C3 q) with x; [destruct q; unfold all_queues; set_solver| |done]. apply (q_mem _ _ _ (pt_queues _ _ _ _ _ _ _ _ (tk_parts _ _ _ _ _ _ _ _ T))). split; [done|]. by exists l. }
  split; [intros x l Hx El Epl; by apply (Hall x l)|]. intros Hnt. exists P'. split; [apply lookup_insert_eq|].
  assert (forall x l, waiting w' x l -> ne <= sort_time l) as Hmin by (intros x l (Hx & El & Epl & [Hc1 _]); by apply (Hall x l Hx El Epl)).
  destruct (tk_rest _ _ _ _ _ _ _ _ T P EP Efn Hp) as (P2 & EP2 & R). rewrite EP1 in EP2. injection EP2 as <-. unfold rest_of in R. injection R as R _ _ _. unfold timer_set, P'. destruct (Z.eqb_spec ne MAX_TIME) as [->|Hnm]; cbn [negb andb].
  - right. split; [done|]. intros x l Hw. pose proof (Hmin x l Hw). destruct Hw as (_ & _ & _ & [_ Hc]). lia.
  - left. rewrite (proj2 (Z.leb_le (next_event_time P1) _)) by lia. rewrite orb_true_r. cbn. destruct C2 as [->|[C2 (y & ly & Hy & Ely & Epy & Ety)]]; [done|].
    split; [done|]. split; [|done]. exists y, ly. split; [|done]. split; [done|]. split; [done|]. split; [done|]. lia.
Qed.

End PoolTimer.

(** ** The invariant *)

(** [D] are the leases of the database; the server is running. *)
Record db_ok (D : gset positive) (w : db) : Prop := DbOk {
  ok_running : qfollow w = false /\ nosync w = false;
  ok_settled : settled D w;
  ok_punctual : punctual D w;
  ok_parts : exists Q U H, parts D D D D w Q U H
}.

(** The log grows by announcements of what has been committed. *)
Definition logged (w w' : db) : Prop := exists lg, log w' = log w ++ lg /\ safe lg.

Lemma logged_refl w : logged w w.
Proof. exists []. rewrite app_nil_r. split; [done|]. by apply safe_none. Qed.

Lemma logged_trans w1 w2 w3 : logged w1 w2 -> logged w2 w3 -> logged w1 w3.
Proof. intros (l1 & E1 & S1) (l2 & E2 & S2). exists (l1 ++ l2). split; [by rewrite E2, E1, app_assoc|by apply safe_app]. Qed.

Lemma logged_local x w w' : local x w w' -> logged w w'.
Proof. intros (c & cls & lg & -> & _ & Hf). exists lg. split; [done|by apply safe_ran]. Qed.

(** The invariant but for the next state and the end of one lease. *)
Record nearly_ok (D : gset positive) (w : db) (x : positive) : Prop := NearlyOk {
  no_running : qfollow w = false /\ nosync w = false;
  no_settled y l : y ∈ D -> y <> x -> leases w !! y = Some l -> next_binding_state l = following (bool_decide (peer_of w l <> None)) (binding_state l);
  no_punctual y l : y ∈ D -> y <> x -> leases w !! y = Some l -> peer_of w l = None -> sort_time l = ends l;
  no_parts : exists Q U H, parts D D D D w Q U H
}.

Lemma db_nearly D w x : db_ok D w -> nearly_ok D w x.
Proof. intros [A B C E]. split; [done| | |done]; intros y l Hy _ El; [by eapply B|by apply (C y l)]. Qed.

Lemma move_ok W D w x c s commit prop pimm : nearly_ok D w x -> x ∈ D -> leases w !! x = Some c -> commit || negb pimm = true ->
  exists w' r, move_it W (pool_timer W) w x s commit prop pimm false = Ret (w', r) /\ db_ok D w' /\ logged w w'.
Proof.
  intros [[N1 N2] Hset Hpun (Q & U & H & HP)] Hx Ec Hcp. destruct (move_it_ok W (pool_timer W) D w Q U H x c s commit prop pimm false HP N1 Hx Ec Hcp) as (w1 & c1 & p & q & q' & Q' & r & S & Ep & Eq & ->).
  destruct (sp_log _ _ _ _ _ _ _ _ _ _ _ _ _ _ S) as [M1 M2]. destruct (M2 N2) as (lg & G1 & G2). assert (logged w w1) as L1 by (by exists lg).
  pose proof (step_settled _ _ _ _ _ _ _ _ _ _ _ _ _ _ S Ep Hset) as Hset1. pose proof (step_punctual _ _ _ _ _ _ _ _ _ _ _ _ _ _ S Hpun) as Hpun1. pose proof (sp_parts _ _ _ _ _ _ _ _ _ _ _ _ _ _ S) as HP1.
  destruct (sp_rest _ _ _ _ _ _ _ _ _ _ _ _ _ _ S) as (_ & _ & F1). destruct (r && _ && _ && _).
  - destruct (q_place _ _ _ (pt_queues _ _ _ _ _ _ _ _ HP1) x Hx) as (c' & p' & P & q2 & E1 & E2 & EP & _). rewrite (sp_lease _ _ _ _ _ _ _ _ _ _ _ _ _ _ S) in E1. injection E1 as <-. rewrite (sp_pool _ _ _ _ _ _ _ _ _ _ _ _ _ _ S) in E2. injection E2 as <-.
    destruct (pool_timer_ok W D U H p w1 Q' P HP1 F1 Hset1 EP) as (w2 & Q2 & -> & HP2 & F2 & Hset2 & Hpun2 & _ & [O1 O2] & _). rewrite bind_ret. exists w2, true. split; [done|]. split; [split; [split; [done|congruence]|done|by apply Hpun2|by exists Q2, U, H]|].
    eapply logged_trans; [exact L1|]. destruct O2 as (lg2 & ? & ?); [congruence|]. by exists lg2.
  - exists w1, r. split; [done|]. split; [|done]. split; [split; [done|congruence]|done|done|by exists Q', U, H].
Qed.

Lemma supersede_ok W D w x s commit prop pimm : db_ok D w -> x ∈ D -> (forall s', s = Some s' -> sample_ok w s') ->
  exists w' s' r, supersede_lease W w x s commit prop pimm false = Ret (w', s', r) /\ db_ok D w' /\ logged w w'.
Proof.
  intros HD Hx Hs. unfold supersede_lease, supersede_lease_with. destruct (pimm && negb commit) eqn:Epc; [exists w, s, false; split; [done|]; split; [done|apply logged_refl]|].
  assert (commit || negb pimm = true) as Hcp by (by destruct commit, pimm). destruct HD as [[N1 N2] Hset Hpun (Q & U & H & HP)]. destruct (q_place _ _ _ (pt_queues _ _ _ _ _ _ _ _ HP) x Hx) as (c & p & P & q & Ec & _).
  assert (db_ok D w) as HD by (split; [done|done|done|by exists Q, U, H]). destruct s as [s|].
  - destruct (negb (Z.land (flags s) STATIC_LEASE =? 0)); [exists w, (Some s), true; split; [done|]; split; [done|apply logged_refl]|].
    destruct (copy_sample_ok D w Q U H x c s HP Hx Ec (Hs s eq_refl)) as (w1 & c1 & s1 & U1 & H1 & -> & HP1 & Ec1 & _ & _ & _ & _ & _ & _ & V1 & V2 & V3 & (V4 & (lg & V5 & V5') & V6)). rewrite bind_ret. cbn [fst snd].
    assert (same_peers w w1) as HS by (split; congruence). assert (nearly_ok D w1 x) as HN.
    { split; [split; congruence| | |by exists Q, U1, H1]; intros y l1 Hy Hyx El1; specialize (V6 y Hyx); rewrite El1 in V6; (destruct (leases w !! y) as [l|] eqn:El; [|done]); cbn in V6; injection V6 as A1 _ A2 A3 A4 A5 _.
      - rewrite (peer_of_same w w1 l l1 HS A1), A3, A4. by apply (Hset y l).
      - rewrite (peer_of_same w w1 l l1 HS A1), A2, A5. by apply (Hpun y l). }
    destruct (move_ok W D w1 x c1 (Some s1) commit prop pimm HN Hx Ec1 Hcp) as (w2 & r & -> & HD2 & L2). rewrite bind_ret. exists w2, (Some s1), r. split; [done|]. split; [done|]. eapply logged_trans; [|exact L2]. exists lg. split; [done|by apply safe_ran].
  - destruct (move_ok W D w x c None commit prop pimm (db_nearly D w x HD) Hx Ec Hcp) as (w2 & r & -> & HD2 & L2). rewrite bind_ret. by exists w2, None, r.
Qed.

(** A change to one lease apart from its lists. *)
Lemma touch_ok D w w' x c c' : nearly_ok D w x -> x ∈ D -> local x w w' -> leases w !! x = Some c -> leases w' !! x = Some c' -> bills_ok D w' ->
  qview c' = qview c -> cview by_uid c' = cview by_uid c -> cview by_hw c' = cview by_hw c -> valid (next_binding_state c') = true -> nearly_ok D w' x.
Proof.
  intros [[N1 N2] Hset Hpun (Q & U & H & HP)] Hx L Ec Ec' HB Vq Vu Vh Hv. destruct (local_same _ _ _ L) as (S1 & S2 & S3 & S4 & _). assert (same_peers w w') as HS by (split; congruence).
  split; [split; congruence| | |].
  - intros y l Hy Hyx El. rewrite (peer_of_same w w' l l HS eq_refl). rewrite (local_other _ _ _ _ L Hyx) in El. by apply (Hset y l).
  - intros y l Hy Hyx El. rewrite (peer_of_same w w' l l HS eq_refl). rewrite (local_other _ _ _ _ L Hyx) in El. by apply (Hpun y l).
  - exists Q, U, H. eapply local_parts; [exact HP|exact L|exact Ec|exact Ec'|by left|by left|by left|done|done|done].
Qed.

Lemma core_views c c' : core c' = core c -> qview c' = qview c /\ cview by_uid c' = cview by_uid c /\ cview by_hw c' = cview by_hw c /\ next_binding_state c' = next_binding_state c /\ binding_state c' = binding_state c /\ sort_time c' = sort_time c /\ ends c' = ends c /\ pool c' = pool c.
Proof.
  unfold core, place. intros E. injection E as P1 P2 P3 P4 P5 P6 P7 P8 P9 P10 P11 P12 P13. unfold qview, cview, queue_of, entry. cbn. rewrite P1, P2, P3, P4, P5, P6, P8, P9, P11. done.
Qed.

(** A step that keeps the core of a lease keeps the invariant. *)
Lemma keeps_ok D w x c m : db_ok D w -> x ∈ D -> leases w !! x = Some c -> keeps D x c m -> exists w' c', m w = Ret w' /\ db_ok D w' /\ logged w w' /\ leases w' !! x = Some c' /\ core c' = core c.
Proof.
  intros HD Hx Ec Hm. pose proof HD as [[N1 N2] Hset Hpun (Q & U & H & HP)]. destruct (Hm w c (pt_bills _ _ _ _ _ _ _ _ HP) Ec eq_refl) as (w' & -> & L & HB & c' & Ec' & C). destruct (core_views c c' C) as (V1 & V2 & V3 & V4 & V5 & V6 & V7 & V8).
  pose proof (pt_states _ _ _ _ _ _ _ _ HP x c Hx Ec) as Hv. destruct (touch_ok D w w' x c c' (db_nearly D w x HD) Hx L Ec Ec' HB V1 V2 V3 ltac:(congruence)) as [M1 M2 M3 M4]. destruct (local_same _ _ _ L) as (S1 & S2 & _). assert (same_peers w w') as HS by (split; congruence).
  exists w', c'. split; [done|]. split; [|split; [by eapply logged_local|done]]. split; [done| | |done]; intros y l Hy El; (destruct (decide (y = x)) as [->|Hyx]; [rewrite Ec' in El; injection El as <-; rewrite (peer_of_same w w' c c' HS V8)|]).
  - rewrite V4, V5. by apply (Hset x c).
  - by apply (M2 y l).
  - rewrite V6, V7. by apply (Hpun x c).
  - by apply (M3 y l).
Qed.

Lemma release_lease_ok4 W D w x : db_ok D w -> x ∈ D -> exists w', release_lease W w x = Ret w' /\ db_ok D w' /\ logged w w'.
Proof.
  intros HD Hx. pose proof HD as [_ _ _ (Q & U & H & HP)]. destruct (q_place _ _ _ (pt_queues _ _ _ _ _ _ _ _ HP) x Hx) as (c & p & P & q & Ec & _). unfold release_lease.
  destruct (keeps_ok D w x c _ HD Hx Ec (keeps_names W D x c false)) as (w1 & c1 & -> & HD1 & L1 & Ec1 & _). rewrite bind_ret, (get_in _ _ _ Ec1), bind_ret.
  assert (keeps D x c1 (fun w => match Expr.on_release (on_star c1) with [] => Ret w | st => w ← run W true w x st; put w x no_release end)) as Hk.
  { destruct (Expr.on_release (on_star c1)) as [|s st]; [apply keeps_ret|]. apply keeps_bind; [apply keeps_run|by apply keeps_put]. }
  destruct (keeps_ok D w1 x c1 _ HD1 Hx Ec1 Hk) as (w2 & c2 & E2 & HD2 & L2 & Ec2 & _). cbv beta in E2. rewrite E2, bind_ret.
  destruct (keeps_ok D w2 x c2 (fun w => put w x no_expiry) HD2 Hx Ec2) as (w3 & c3 & -> & HD3 & L3 & Ec3 & _); [by apply keeps_put|]. rewrite bind_ret, (get_in _ _ _ Ec3), bind_ret. pose proof (logged_trans _ _ _ (logged_trans _ _ _ L1 L2) L3) as L.
  destruct (releasable (binding_state c3)); [|by exists w3].
  match goal with |- context [put w3 x ?f] => destruct (local_put x w3 c3 f Ec3) as (w4 & -> & L4 & Ec4 & S4) end. rewrite bind_ret.
  match goal with |- context [put w4 x ?f] => destruct (local_put x w4 _ f Ec4) as (w5 & -> & L5 & Ec5 & S5) end. rewrite bind_ret. pose proof HD3 as [_ _ _ (Q3 & U3 & H3 & HP3)].
  assert (bills_ok D w5) as HB by (eapply local_bills; [exact L5|exact S5|exact Ec4|exact Ec5|reflexivity|]; eapply local_bills; [exact L4|exact S4|exact Ec3|exact Ec4|reflexivity|apply HP3]).
  assert (nearly_ok D w5 x) as HN.
  { eapply touch_ok; [exact (db_nearly D w3 x HD3)|exact Hx|eapply local_trans; [exact L4|exact L5]|exact Ec3|exact Ec5|exact HB|reflexivity|reflexivity|reflexivity|]. cbn [next_binding_state set_next_binding_state]. destruct (peer_of w4 _) as [f|]; [|done].
    destruct (bool_decide (service_state f = _) && _) eqn:E; [|done]. cbn in E |- *. apply andb_true_iff in E as [_ E]. apply orb_true_iff in E as [E|E]; apply andb_true_iff in E as [_ E]; apply bool_decide_eq_true in E; by rewrite E. }
  destruct (move_ok W D w5 x _ None true true true HN Hx Ec5 eq_refl) as (w6 & r & E6 & HD6 & L6). unfold supersede_lease, supersede_lease_with. cbn [andb negb]. rewrite E6, !bind_ret. exists w6. split; [done|]. split; [done|].
  eapply logged_trans; [exact L|]. eapply logged_trans; [|exact L6]. eapply logged_local, local_trans; [exact L4|exact L5].
Qed.

Lemma abandon_lease_ok4 W D w x : db_ok D w -> x ∈ D -> exists w', abandon_lease W w x = Ret w' /\ db_ok D w' /\ logged w w'.
Proof.
  intros HD Hx. pose proof HD as [_ _ _ (Q & U & H & HP)]. destruct (q_place _ _ _ (pt_queues _ _ _ _ _ _ _ _ HP) x Hx) as (c & p & P & q & Ec & _). unfold abandon_lease.
  destruct (keeps_ok D w x c _ HD Hx Ec (keeps_names W D x c false)) as (w1 & c1 & -> & HD1 & L1 & Ec1 & _). rewrite bind_ret, (get_in _ _ _ Ec1), bind_ret. unfold lease_copy. destruct (memory W); [|by exists w1].
  match goal with |- context [supersede_lease W w1 x (Some ?s)] => destruct (supersede_ok W D w1 x (Some s) true true true HD1 Hx) as (w2 & s2 & r & -> & HD2 & L2) end.
  { intros s' [= <-]. split; [done|done|]. intros k Ek. cbn in Ek. destruct HD1 as [_ _ _ (Q1 & U1 & H1 & HP1)]. destruct (b_lease _ _ (pt_bills _ _ _ _ _ _ _ _ HP1) x c1 k Hx Ec1 Ek) as (K & i & EK & _). by exists K. }
  rewrite bind_ret. exists w2. split; [done|]. split; [done|]. by eapply logged_trans.
Qed.

Lemma tick_ok W D w p : db_ok D w -> is_Some (pools w !! p) -> exists w', pool_timer W w p = Ret w' /\ db_ok D w' /\ logged w w'.
Proof.
  intros [[N1 N2] Hset Hpun (Q & U & H & HP)] [P EP]. destruct (pool_timer_ok W D U H p w Q P HP N1 Hset EP) as (w' & Q' & -> & HP' & F & Hset' & Hpun' & _ & [O1 O2] & _). exists w'. split; [done|].
  split; [|by apply O2]. split; [split; [done|congruence]|done|by apply Hpun'|by exists Q', U, H].
Qed.

(** ** Sequences of operations *)

(** What is done to the database; [Peer]: a failover peer changes its state. *)
Inductive operation : Type :=
| Supersede (x : positive) (s : option lease) (commit propogate pimmediate : bool)
| Release (x : positive)
| Abandon (x : positive)
| Tick (p : positive)
| Peer (f : positive) (s : peer_t).

Definition with_peers (w : db) v : db := Db (leases w) (pools w) v (classes w) (ip_hash w) (uid_hash w) (hw_hash w) (qfollow w) (nosync w) (last_lq w) (last_insert_point w) (log w).

Definition perform (W : world) (op : operation) (w : db) : outcome db :=
  match op with
  | Supersede x s commit propogate pimmediate => r ← supersede_lease W w x s commit propogate pimmediate false; Ret r.1.1
  | Release x => release_lease W w x
  | Abandon x => abandon_lease W w x
  | Tick p => pool_timer W w p
  | Peer f s => Ret (with_peers w (<[f := s]> (peers w)))
  end.

Definition enabled (D : gset positive) (w : db) (op : operation) : Prop :=
  match op with
  | Supersede x s _ _ _ => x ∈ D /\ forall s', s = Some s' -> sample_ok w s'
  | Release x | Abandon x => x ∈ D
  | Tick p => is_Some (pools w !! p)
  | Peer f _ => is_Some (peers w !! f)
  end.

Inductive reachable (D : gset positive) (w0 : db) : db -> Prop :=
| reach_start : reachable D w0 w0
| reach_step W op w w' : reachable D w0 w -> enabled D w op -> perform W op w = Ret w' -> reachable D w0 w'.

Lemma peer_changed_ok D w f s : db_ok D w -> is_Some (peers w !! f) -> db_ok D (with_peers w (<[f := s]> (peers w))).
Proof.
  intros [N Hset Hpun (Q & U & H & HP)] [s0 Ef].
  assert (forall l, peer_of (with_peers w (<[f := s]> (peers w))) l = None <-> peer_of w l = None) as Hp.
  { intros l. unfold peer_of. destruct (pool l) as [p|]; [|done]. cbn. destruct (pools w !! p) as [P|]; [|done]. cbn. destruct (failover_peer P) as [f'|]; [|done]. cbn. destruct (decide (f' = f)) as [->|Hf]; [rewrite lookup_insert_eq, Ef; done|by rewrite lookup_insert_ne]. }
  split; [done| | |].
  - intros x l Hx El. rewrite (Hset x l Hx El). f_equal. apply bool_decide_ext. by rewrite Hp.
  - intros x l Hx El En. apply (Hpun x l Hx El). by apply Hp.
  - exists Q, U, H. destruct HP as [H1 H2 H3 H4 H5]. split; [by apply (queues_ok_view D w)|by apply (clients_ok_view by_uid D w)|by apply (clients_ok_view by_hw D w)|by apply (bills_ok_view D w)|done].
Qed.

Lemma perform_keeps W D w op : db_ok D w -> enabled D w op -> exists w', perform W op w = Ret w' /\ db_ok D w' /\ logged w w'.
Proof.
  intros HD He. destruct op; cbn in *.
  - destruct He as [Hx Hs]. destruct (supersede_ok W D w x s commit propogate pimmediate HD Hx Hs) as (w' & s' & r & -> & H). rewrite bind_ret. by exists w'.
  - by apply release_lease_ok4.
  - by apply abandon_lease_ok4.
  - by apply tick_ok.
  - eexists. split; [done|]. split; [by apply peer_changed_ok|]. exists []. cbn. rewrite app_nil_r. split; [done|by apply safe_none].
Qed.

(** C1: The database stays consistent: whatever leases are superseded, released and
    abandoned, whenever the timers run and whatever the lease file and the peers answer,
    every operation returns, and every lease stays on the queue of its state, sorted by
    time, with the leases of the queues counted, on the lists of its client, and in the
    table of its class; its next state follows its state. Whenever a lease is announced to
    the peer at once, the two actions just before are that the lease has been written in
    that state and that the file has been committed, and both have succeeded.  The server is
    running (it has read the lease file), the leases are those of the pools, and a new
    version of a lease has a known next state, a client identifier that is not empty and
    fits its place, and a class that exists ([enabled], [sample_ok]). *)
Theorem database_consistent D w0 w : db_ok D w0 -> reachable D w0 w ->
  db_ok D w /\ logged w0 w /\ forall W op, enabled D w op -> exists w', perform W op w = Ret w'.
Proof.
  intros H0 Hr. assert (db_ok D w /\ logged w0 w) as [HD HL].
  { induction Hr as [|W op w w' Hr [HD HL] He E]; [split; [done|apply logged_refl]|]. destruct (perform_keeps W D w op HD He) as (w1 & E1 & HD1 & HL1). rewrite E in E1. injection E1 as <-. split; [done|]. by eapply logged_trans. }
  split; [done|]. split; [done|]. intros W op He. destruct (perform_keeps W D w op HD He) as (w' & E & _). by exists w'.
Qed.

(** C6: The timer of a pool without a failover peer: afterwards no lease of the pool whose
    time has come waits for its transition, and no lease whose time has not come has
    changed. When the timer was due, it is afterwards set for the earliest time of the
    leases of the pool that are still to come, or, when there is no such lease, it is off; a
    lease that never ends (with the time MAX_TIME) is not waited for. *)
Theorem pool_timer_expires W D w p P : db_ok D w -> pools w !! p = Some P -> failover_peer P = None ->
  exists w', pool_timer W w p = Ret w' /\ db_ok D w' /\ early W w w' /\
    (forall x l, x ∈ D -> leases w' !! x = Some l -> pool l = Some p -> sort_time l <= cur_time W -> next_binding_state l = binding_state l) /\
    (next_event_time P <= cur_time W -> exists P', pools w' !! p = Some P' /\ timer_set W D p w' P').
Proof.
  intros [[N1 N2] Hset Hpun (Q & U & H & HP)] EP Ef. destruct (pool_timer_ok W D U H p w Q P HP N1 Hset EP) as (w' & Q' & E & HP' & F & Hset' & Hpun' & He & [O1 O2] & Hal). destruct (Hal Ef Hpun) as [A1 A2].
  exists w'. split; [done|]. split; [split; [split; [done|congruence]|done|by apply Hpun'|by exists Q', U, H]|]. split; [done|]. split; [|done]. intros x l Hx El Ep Hc. destruct (decide (next_binding_state l = binding_state l)); [done|]. specialize (A1 x l Hx El Ep n). lia.
Qed.

(** ** The start of the server *)

Lemma bills_ok_put D w x c c' : bills_ok D w -> x ∉ D -> leases w !! x = Some c -> bills_ok D (with_leases w (<[x := c']> (leases w))).
Proof.
  intros [H1 H2 H3 H4] Hx Ec. assert (forall y, y ∈ D -> (<[x := c']> (leases w)) !! y = leases w !! y) as Hy by (intros y Hy; apply lookup_insert_ne; set_solver). split; cbn; [done| |done|].
  - intros k K i y EK Ei. destruct (H2 k K i y EK Ei) as [Hd H]. split; [done|]. by rewrite Hy.
  - intros y l k Hd. rewrite Hy by done. by apply H4.
Qed.

Lemma bills_ok_join D w x c : bills_ok D w -> leases w !! x = Some c -> billing_class c = None -> bills_ok (D ∪ {[x]}) w.
Proof.
  intros [H1 H2 H3 H4] Ec Eb. split; [done| |done|].
  - intros k K i y EK Ei. destruct (H2 k K i y EK Ei) as [Hd H]. split; [set_solver|done].
  - intros y l k Hy El Ebl. destruct (decide (y = x)) as [->|Hyx]; [congruence|]. apply (H4 y l k); [set_solver|done|done].
Qed.

(** A lease that has been read and is not on any list yet. *)
Record fresh_ok (w : db) (l : lease) : Prop := FreshOk {
  fr_pool : exists p, pool l = Some p /\ is_Some (pools w !! p);
  fr_state : valid (binding_state l) = true;
  fr_next : next_binding_state l = following (bool_decide (peer_of w l <> None)) (binding_state l);
  fr_uid b u : uid l = Some (b, u) -> u <> [];
  fr_class k : billing_class l = Some k -> is_Some (classes w !! k);
  fr_links : next l = None /\ n_uid l = None /\ n_hw l = None
}.

(** What the start of a lease leaves alone. *)
Record started_one (D : gset positive) (x : positive) (w w' : db) : Prop := StartedOne {
  so_fresh y : y ∉ D ∪ {[x]} -> leases w' !! y = leases w !! y;
  so_vital y : y <> x -> vital <$> leases w' !! y = vital <$> leases w !! y;
  so_peers : same_peers w w';
  so_classes k : is_Some (classes w' !! k) <-> is_Some (classes w !! k)
}.

Lemma started_trans D x w1 w2 w3 : started_one D x w1 w2 -> started_one D x w2 w3 -> started_one D x w1 w3.
Proof. intros [A1 A2 [A3 A3'] A4] [B1 B2 [B3 B3'] B4]. split; [intros y Hy; by rewrite B1, A1|intros y Hy; by rewrite B2, A2|split; congruence|intros k; by rewrite B4]. Qed.

Lemma started_local D x w w' : local x w w' -> started_one D x w w'.
Proof.
  intros L. pose proof L as (c & cls & lg & -> & Hc & _). split; [intros y Hy; apply (local_other x w _ y L); set_solver|intros y Hy; by rewrite (local_other x w _ y L Hy)|done|done].
Qed.

Lemma start_enqueue D w Q U H x c p : parts D D D D w Q U H -> x ∉ D -> leases w !! x = Some c -> pool c = Some p -> is_Some (pools w !! p) -> valid (binding_state c) = true ->
  exists w' c' Q', lease_enqueue w x = Ret (w', true) /\ parts (D ∪ {[x]}) D D D w' Q' U H /\ started_one D x w w' /\ leases w' !! x = Some c' /\ (exists n, c' = set_next n (set_sort_time (event_time w c) c)) /\ qfollow w' = qfollow w /\ nosync w' = nosync w.
Proof.
  intros HP Hx Ec Ep [P EP] Hv. assert (exists q, queue_of c = Some q) as (q & Eq) by (unfold queue_of; destruct (binding_state c); try done; by eexists).
  destruct (enqueue D w Q x c p P q (pt_queues _ _ _ _ _ _ _ _ HP) Hx Ec Ep Eq EP) as (l1 & l2 & w' & El & E & Ew & HQ). assert (x ∉ l1) as Hxl by (intros Hi; assert (x ∈ Q p q) as [? _]%(q_mem _ _ _ (pt_queues _ _ _ _ _ _ _ _ HP)) by (rewrite El; set_solver); set_solver).
  set (c1 := set_sort_time (event_time w c) c). set (w1 := with_leases w (<[x := c1]> (leases w))).
  assert (parts D D D D w1 Q U H) as HP1.
  { assert (local x w w1) as L by (exists c1, (classes w), []; rewrite app_nil_r; split; [by destruct w|done]). eapply local_parts; [exact HP|exact L|exact Ec|apply lookup_insert_eq|right; split; [done|done]|by left|by left|by eapply bills_ok_put; [apply HP|..]|done|set_solver]. }
  assert (unlinked <$> leases w' = unlinked <$> leases w1) as Eu.
  { rewrite Ew. cbn. rewrite <- (relink_under set_next l1 (Some x) (leases w) x _ c1) by done. rewrite (insert_view unlinked _ _ c1); [by apply relink_view|rewrite relink_other by done; apply lookup_insert_eq|done]. }
  exists w', (set_next (head l2) c1), (upd Q p q (l1 ++ x :: l2)). split; [done|]. split; [eapply queues_parts; [exact HP1|exact HQ|exact Eu|by rewrite Ew..]|]. split; [|split; [rewrite Ew; apply lookup_insert_eq|split; [by eexists|by rewrite Ew]]].
  split.
  - intros y Hy. rewrite Ew. cbn. rewrite lookup_insert_ne by set_solver. apply relink_other. intros Hi. apply Hy. assert (y ∈ Q p q) as [? _]%(q_mem _ _ _ (pt_queues _ _ _ _ _ _ _ _ HP)) by (rewrite El; set_solver). set_solver.
  - intros y Hy. rewrite (lookup_view vital (leases w1) (leases w') y) by (by apply (unlinked_view vital)). cbn. by rewrite lookup_insert_ne.
  - rewrite Ew. split; [|done]. cbn. apply rest_peer, rest_insert with P; [done|apply rehead_rest].
  - by rewrite Ew.
Qed.

Lemma bare_fresh (w w' : db) y : bare <$> leases w' = bare <$> leases w -> (forall l, leases w !! y = Some l -> n_uid l = None /\ n_hw l = None) -> (forall l, leases w' !! y = Some l -> n_uid l = None /\ n_hw l = None) -> leases w' !! y = leases w !! y.
Proof.
  intros E H H'. apply (lookup_view bare _ _ y) in E. destruct (leases w' !! y) as [l'|], (leases w !! y) as [l|]; try done. cbn in E. apply (inj Some) in E. f_equal. destruct (H l eq_refl), (H' l' eq_refl).
  destruct l', l. unfold bare in E. cbn in *. subst. injection E. intros. by subst.
Qed.

Lemma fresh_links D DQ DB w Q U H y l : parts DQ D D DB w Q U H -> y ∉ D -> leases w !! y = Some l -> n_uid l = None /\ n_hw l = None.
Proof. intros HP Hy El. split; [apply (c_out _ _ _ _ (pt_uid _ _ _ _ _ _ _ _ HP) y l El); by left|apply (c_out _ _ _ _ (pt_hw _ _ _ _ _ _ _ _ HP) y l El); by left]. Qed.

(** The billing of a lease that is started. *)
Lemma start_billing D D' w Q U H x c : parts D' D' D' D w Q U H -> D' = D ∪ {[x]} -> x ∉ D -> leases w !! x = Some c -> valid (next_binding_state c) = true -> (forall k, billing_class c = Some k -> is_Some (classes w !! k)) ->
  exists w' c', match billing_class c with
    | None => Ret w
    | Some k => w ← put w x (set_billing_class None); match binding_state c with FTS_ACTIVE | FTS_EXPIRED | FTS_RELEASED | FTS_RESET => r ← bill_class w x k; Ret r.1 | _ => Ret w end
    end = Ret w' /\ parts D' D' D' D' w' Q U H /\ local x w w' /\ leases w' !! x = Some c' /\ core c' = core c.
Proof.
  intros HP -> Hx Ec Hv Hk.
  assert (forall w1 c1, local x w w1 -> leases w1 !! x = Some c1 -> core c1 = core c -> bills_ok (D ∪ {[x]}) w1 -> parts (D ∪ {[x]}) (D ∪ {[x]}) (D ∪ {[x]}) (D ∪ {[x]}) w1 Q U H) as Hparts.
  { intros w1 c1 L Ec1 Hc HB. destruct (core_views c c1 Hc) as (V1 & V2 & V3 & V4 & _). eapply local_parts; [exact HP|exact L|exact Ec|exact Ec1|by left|by left|by left|exact HB|set_solver|intros _; congruence]. }
  destruct (billing_class c) as [k|] eqn:Eb.
  - destruct (local_put x w c (set_billing_class None) Ec) as (w1 & E1 & L1 & Ec1 & S1). rewrite E1, bind_ret.
    assert (bills_ok (D ∪ {[x]}) w1) as HB1. { rewrite (put_in _ _ _ _ Ec) in E1. injection E1 as <-. eapply bills_ok_join; [by eapply bills_ok_put; [apply HP|..]|apply lookup_insert_eq|done]. }
    assert (exists w2 c2, (match binding_state c with FTS_ACTIVE | FTS_EXPIRED | FTS_RELEASED | FTS_RESET => r ← bill_class w1 x k; Ret r.1 | _ => Ret w1 end) = Ret w2 /\ bills_ok (D ∪ {[x]}) w2 /\ local x w w2 /\ leases w2 !! x = Some c2 /\ core c2 = core c) as (w2 & c2 & -> & HB2 & L2 & Ec2 & C2).
    { destruct (bill_ok (D ∪ {[x]}) w1 x _ k HB1 ltac:(set_solver) Ec1) as (w2 & r & E2 & HB2 & R2); [rewrite S1; by apply Hk|].
      assert (exists w2 c2, (r ← bill_class w1 x k; Ret r.1) = Ret w2 /\ bills_ok (D ∪ {[x]}) w2 /\ local x w w2 /\ leases w2 !! x = Some c2 /\ core c2 = core c) as Hb.
      { pose proof R2 as (c2 & b & cls & Ec2 & Ew2 & _). rewrite Ec1 in Ec2. injection Ec2 as <-. exists w2, (set_billing_class b (set_billing_class None c)). rewrite E2, bind_ret. split; [done|]. split; [done|]. split; [eapply local_trans; [exact L1|by apply local_rebilled]|]. split; [rewrite Ew2; apply lookup_insert_eq|done]. }
      destruct (binding_state c); try exact Hb; by exists w1, (set_billing_class None c). }
    exists w2, c2. split; [done|]. split; [by eapply Hparts|done].
  - exists w, c. split; [done|]. pose proof (local_refl x w c Ec) as L. split; [|done]. eapply Hparts; [done|done|done|]. by eapply bills_ok_join; [apply HP|..].
Qed.

Lemma instantiate_ok D w Q U H x l : parts D D D D w Q U H -> x ∉ D -> leases w !! x = Some l -> fresh_ok w l -> settled D w -> punctual D w ->
  exists w' Q' U' H', lease_instantiate w x = Ret w' /\ parts (D ∪ {[x]}) (D ∪ {[x]}) (D ∪ {[x]}) (D ∪ {[x]}) w' Q' U' H' /\ started_one D x w w' /\ settled (D ∪ {[x]}) w' /\ punctual (D ∪ {[x]}) w'.
Proof.
  intros HP Hx El [(p & Ep & HPp) F2 F3 F4 F5 F6] Hset Hpun. pose proof HPp as [P EP]. unfold lease_instantiate. rewrite (get_in _ _ _ El), bind_ret, Ep, (get_pool_in _ _ _ EP), bind_ret.
  (* a backup lease of a pool without a peer is free *)
  assert (exists w1 l1, (if bool_decide (binding_state l = FTS_BACKUP) && bool_decide (failover_peer P = None) then put w x (fun l => set_rewind_binding_state FTS_FREE (set_next_binding_state FTS_FREE (set_binding_state FTS_FREE l))) else Ret w) = Ret w1 /\ local x w w1 /\ leases w1 !! x = Some l1 /\ classes w1 = classes w /\
    parts D D D D w1 Q U H /\ (next l1, n_uid l1, n_hw l1, pool l1, uid l1, billing_class l1) = (next l, n_uid l, n_hw l, pool l, uid l, billing_class l) /\ valid (binding_state l1) = true /\ next_binding_state l1 = following (bool_decide (peer_of w l <> None)) (binding_state l1)) as (w1 & l1 & -> & L1 & El1 & C1 & HP1 & V1 & V2 & V3).
  { destruct (bool_decide (binding_state l = FTS_BACKUP) && bool_decide (failover_peer P = None)); [|exists w, l; split_and!; try done; by eapply local_refl].
    match goal with |- context [put w x ?f] => destruct (local_put x w l f El) as (w1 & E1 & L1 & El1 & C1) end. rewrite E1. eexists w1, _. split; [done|]. split; [done|]. split; [done|]. split; [done|]. split; [|done].
    eapply local_parts; [exact HP|exact L1|exact El|exact El1|by right|by right|by right| |done|set_solver]. rewrite (put_in _ _ _ _ El) in E1. injection E1 as <-. by eapply bills_ok_put; [apply HP|..]. }
  rewrite bind_ret. injection V1 as A1 A2 A3 A4 A5 A6. destruct (local_same _ _ _ L1) as (S1 & S2 & _). assert (same_peers w w1) as HS1 by (split; congruence).
  destruct (start_enqueue D w1 Q U H x l1 p HP1 Hx El1 ltac:(congruence) ltac:(by rewrite S1) V2) as (w2 & l2 & Q2 & -> & HP2 & O2 & El2 & (n & El2') & _). rewrite bind_ret. cbn [negb]. rewrite (get_in _ _ _ El2), bind_ret.
  assert ((D ∪ {[x]}) ∖ {[x]} = D) as ED by set_solver.
  destruct (on_lists (D ∪ {[x]}) D w2 Q2 U H x l2 ltac:(by rewrite ED) ltac:(set_solver) El2) as (w3 & l3 & U3 & H3 & E3 & HP3 & El3 & B1 & B2 & B3 & B4 & B5 & B6 & B7 & (_ & _ & B8) & B9); [intros b u Eu; apply (F4 b u); rewrite <- A5, <- Eu, El2'; done|].
  rewrite <- bind_assoc, E3, bind_ret. assert (bare l3 = bare l2) as Eb by (apply (lookup_view bare _ _ x) in B9; rewrite El3, El2 in B9; by apply (inj Some) in B9).
  assert (billing_class l2 = billing_class l3 /\ next_binding_state l2 = next_binding_state l3 /\ ends l2 = ends l3) as (D1 & D2 & D3) by (split_and!; [exact (f_equal billing_class (eq_sym Eb))|exact (f_equal next_binding_state (eq_sym Eb))|exact (f_equal ends (eq_sym Eb))]).
  assert (next_binding_state l2 = next_binding_state l1 /\ binding_state l2 = binding_state l1 /\ billing_class l2 = billing_class l1 /\ sort_time l2 = event_time w1 l1 /\ ends l2 = ends l1 /\ pool l2 = pool l1) as (G1 & G2 & G3 & G4 & G5 & G6) by (rewrite El2'; done).
  destruct (start_billing D (D ∪ {[x]}) w3 Q2 U3 H3 x l3 HP3 eq_refl Hx El3) as (w4 & l4 & E4 & HP4 & L4 & El4 & C4).
  { rewrite <- D2, G1, V3. destruct (bool_decide _), (binding_state l1); done. }
  { intros k Ek. rewrite B5. apply (so_classes _ _ _ _ O2). rewrite C1. apply F5. congruence. }
  rewrite D1, <- B2. exists w4, Q2, U3, H3. split; [exact E4|]. split; [done|].
  assert (started_one D x w w4) as O.
  { eapply started_trans; [by apply started_local|]. eapply started_trans; [exact O2|]. eapply started_trans; [|by apply started_local]. split; [|exact B8|split; congruence|by rewrite B5].
    intros y Hy. apply bare_fresh; [done|intros l0; apply (fresh_links _ _ _ _ _ _ _ _ _ HP2); set_solver|intros l0; apply (fresh_links _ _ _ _ _ _ _ _ _ HP3); set_solver]. }
  split; [exact O|]. pose proof (so_peers _ _ _ _ O) as HS. destruct (core_views l3 l4 C4) as (K1 & _ & _ & K2 & K3 & K4 & K5 & K6). unfold qview in B1. injection B1 as _ M1 _ M2.
  assert (pool l4 = pool l) as Epl by congruence.
  split; intros y ly Hy Ely; (destruct (decide (y = x)) as [->|Hyx]; [rewrite El4 in Ely; injection Ely as <-; rewrite (peer_of_same w w4 l l4 HS Epl)|pose proof (so_vital _ _ _ _ O y Hyx) as Ev; rewrite Ely in Ev; destruct (leases w !! y) as [l0|] eqn:El0; [|done]; cbn in Ev; injection Ev as N1 _ N2 N3 N4 N5 _; rewrite (peer_of_same w w4 l0 ly HS N1)]).
  - rewrite K2, K3, <- D2, B2, G1, G2. exact V3.
  - rewrite N3, N4. apply (Hset y l0); [set_solver|done].
  - intros En. rewrite K4, K5, M2, <- D3, G4, G5. apply event_time_alone. rewrite (peer_of_same w w1 l l1 HS1); [done|congruence].
  - intros En. rewrite N2, N5. apply (Hpun y l0); [set_solver|done|done].
Qed.

Lemma instantiate_all_ok xs : forall D w Q U H, parts D D D D w Q U H -> settled D w -> punctual D w -> NoDup xs -> (forall x, x ∈ xs -> x ∉ D /\ exists l, leases w !! x = Some l /\ fresh_ok w l) ->
  exists w' Q' U' H', instantiate_all w xs = Ret w' /\ parts (D ∪ list_to_set xs) (D ∪ list_to_set xs) (D ∪ list_to_set xs) (D ∪ list_to_set xs) w' Q' U' H' /\ settled (D ∪ list_to_set xs) w' /\ punctual (D ∪ list_to_set xs) w'.
Proof.
  induction xs as [|x xs IH]; intros D w Q U H HP Hs Hp Hn Hf.
  - exists w, Q, U, H. assert (D ∪ list_to_set [] = D) as -> by set_solver. done.
  - apply NoDup_cons in Hn as [Hx Hn]. destruct (Hf x ltac:(by left)) as (HxD & l & El & Hl). cbn [instantiate_all]. destruct (instantiate_ok D w Q U H x l HP HxD El Hl Hs Hp) as (w1 & Q1 & U1 & H1 & -> & HP1 & O1 & Hs1 & Hp1). rewrite bind_ret.
    destruct (IH (D ∪ {[x]}) w1 Q1 U1 H1 HP1 Hs1 Hp1 Hn) as (w2 & Q2 & U2 & H2 & -> & HP2 & Hs2 & Hp2).
    { intros y Hy. destruct (Hf y ltac:(by right)) as (HyD & ly & Ely & [(p & F1 & F1') F2 F3 F4 F5 F6]). assert (y <> x) as Hyx by (by intros ->). split; [set_solver|]. exists ly. split; [rewrite (so_fresh _ _ _ _ O1) by set_solver; done|].
      destruct (so_peers _ _ _ _ O1) as [SP SQ]. split; [|done|rewrite (peer_of_same w w1 ly ly (so_peers _ _ _ _ O1) eq_refl); done|done|intros k Ek; apply (so_classes _ _ _ _ O1); by apply F5|done]. exists p. split; [done|]. destruct F1' as [P EP]. destruct (fmap_lookup_inv _ _ _ _ _ (eq_sym SP) EP) as (P' & EP' & _). by exists P'. }
    exists w2, Q2, U2, H2. assert (D ∪ list_to_set (x :: xs) = D ∪ {[x]} ∪ list_to_set xs) as -> by set_solver. done.
Qed.

(** The database after its leases have been read. *)
Record fresh_db (w : db) : Prop := FreshDb {
  fd_links x l : leases w !! x = Some l -> next l = None /\ n_uid l = None /\ n_hw l = None;
  fd_pools p P : pools w !! p = Some P -> (forall q, heads P q = None) /\ free_leases P = 0 /\ backup_leases P = 0;
  fd_tables : uid_hash w = ∅ /\ hw_hash w = ∅;
  fd_classes k K : classes w !! k = Some K -> leases_consumed K = 0 /\ Forall (fun b => b = None) (billed_leases K);
  fd_insert : last_lq w = None
}.

Lemma fresh_clients k w : fresh_db w -> clients_ok k ∅ w (fun _ => []).
Proof.
  intros F. split; try (intros; by constructor).
  - intros key. destruct (fd_tables _ F) as [E1 E2]. destruct k; cbn; by rewrite ?E1, ?E2.
  - intros key x. split; [by intros ?%elem_of_nil|by intros [?%elem_of_empty _]].
  - intros x l El _. destruct (fd_links _ F x l El) as (_ & E1 & E2). by destruct k.
  - intros x l key H. by apply elem_of_empty in H.
  - intros x H. by apply elem_of_empty in H.
Qed.

Lemma fresh_queues w : fresh_db w -> queues_ok ∅ w (fun _ _ => []).
Proof.
  intros F. split; try (intros; by constructor).
  - intros p P q EP. by apply (fd_pools _ F p P EP).
  - intros p q x. split; [by intros ?%elem_of_nil|by intros [?%elem_of_empty _]].
  - intros x H. by apply elem_of_empty in H.
  - intros x l El _. by apply (fd_links _ F x l El).
  - intros p P EP. destruct (fd_pools _ F p P EP) as (_ & -> & ->). done.
  - intros _ p q E. by rewrite (fd_insert _ F) in E.
Qed.

Lemma fresh_bills w : fresh_db w -> bills_ok ∅ w.
Proof.
  intros F. assert (forall k K i x, classes w !! k = Some K -> billed_leases K !! i = Some (Some x) -> False) as Hn.
  { intros k K i x EK Ei. destruct (fd_classes _ F k K EK) as [_ Hf]. by apply (proj1 (Forall_lookup _ _) Hf i) in Ei. }
  split.
  - intros k K EK. destruct (fd_classes _ F k K EK) as [-> Hf]. clear EK. induction Hf as [|b l -> Hf IH]; [done|exact IH].
  - intros k K i x EK Ei. by destruct (Hn k K i x EK Ei).
  - intros k K i j x EK Ei. by destruct (Hn k K i x EK Ei).
  - intros x l k H. by apply elem_of_empty in H.
Qed.

Lemma fresh_parts w : fresh_db w -> parts ∅ ∅ ∅ ∅ w (fun _ _ => []) (fun _ => []) (fun _ => []).
Proof. intros F. split; [by apply fresh_queues|by apply fresh_clients|by apply fresh_clients|by apply fresh_bills|]. intros x l H. by apply elem_of_empty in H. Qed.

(** A database whose leases are all started is consistent. *)
Lemma start_ok w xs : fresh_db w -> NoDup xs -> (forall x, x ∈ xs -> exists l, leases w !! x = Some l /\ fresh_ok w l) ->
  exists w', instantiate_all w xs = Ret w' /\ settled (list_to_set xs) w' /\ punctual (list_to_set xs) w' /\ exists Q U H, parts (list_to_set xs) (list_to_set xs) (list_to_set xs) (list_to_set xs) w' Q U H.
Proof.
  intros F Hn Hf. destruct (instantiate_all_ok xs ∅ w _ _ _ (fresh_parts w F)) as (w' & Q & U & H & E & HP & Hs & Hp); [intros x l Hx; by apply elem_of_empty in Hx|intros x l Hx; by apply elem_of_empty in Hx|done|intros x Hx; split; [apply not_elem_of_empty|by apply Hf]|].
  rewrite (left_id_L ∅ (∪)) in HP, Hs, Hp. exists w'. split; [done|]. split; [done|]. split; [done|]. by exists Q, U, H.
Qed.

(** ** Witnesses *)

Lemma running_parts D w Q U H : parts D D D D w Q U H -> parts D D D D (with_starting w false false) Q U H.
Proof.
  intros [HQ HU HH HB HS]. split; [|by apply (clients_ok_view by_uid D w)|by apply (clients_ok_view by_hw D w)|by apply (bills_ok_view D w)|done].
  destruct HQ as [H1 H2 H3 H4 H5 H6 H7 H8]. by split.
Qed.

(** The leases read from a file, on their lists. *)
Definition running (l : list (positive * lease)) : db :=
  match instantiate_all (with_starting (db_of l) true true) (map fst l) with Ret w => with_starting w false false | _ => db_of [] end.

Lemma running_ok l : NoDup (map fst l) -> Forall (fun e => next e.2 = None /\ n_uid e.2 = None /\ n_hw e.2 = None /\ fresh_ok (with_starting (db_of l) true true) e.2) l -> db_ok (list_to_set (map fst l)) (running l).
Proof.
  intros Hn Hf. rewrite Forall_forall in Hf.
  assert (forall x v, leases (db_of l) !! x = Some v -> (x, v) ∈ l) as Hin by (intros x v E; by apply elem_of_list_to_map_2 in E).
  destruct (start_ok (with_starting (db_of l) true true) (map fst l)) as (w & E & Hs & Hp & Q & U & H & HP).
  - split; cbn; [|intros p P EP; apply lookup_singleton_Some in EP as [_ <-]; done|done|intros k K EK; by rewrite lookup_empty in EK|done].
    intros x v Ev. destruct (Hf (x, v) (Hin x v Ev)) as (? & ? & ? & _). done.
  - done.
  - intros x Hx. apply list_elem_of_fmap in Hx as ([x' v] & -> & Hx). exists v. split; [cbn; by apply elem_of_list_to_map_1|]. by apply (Hf (x', v) Hx).
  - unfold running. rewrite E. split; [done|exact Hs|exact Hp|]. exists Q, U, H. by apply running_parts.
Qed.

(** A lease in use until 100 and a free one. *)
Definition two_leases : list (positive * lease) := [(1%positive, lease_in FTS_ACTIVE FTS_FREE (Some [1]) 100); (2%positive, lease_in FTS_FREE FTS_FREE None 0)].

Lemma two_leases_ok : db_ok {[1%positive; 2%positive]} (running two_leases).
Proof.
  assert (list_to_set (map fst two_leases) = ({[1%positive; 2%positive]} : gset positive)) as <- by (vm_compute; done). apply running_ok; [by apply (bool_decide_unpack _); vm_compute|].
  repeat constructor; cbn; try done; try (by exists 1%positive; split; [done|exists pool0]); by intros b u [= _ <-].
Qed.

Lemma database_consistent_witness : exists w, perform (world_at 150) (Release 1%positive) (running two_leases) = Ret w /\ reachable {[1%positive; 2%positive]} (running two_leases) w /\
  db_ok {[1%positive; 2%positive]} w /\ logged (running two_leases) w /\ forall W op, enabled {[1%positive; 2%positive]} w op -> exists w', perform W op w = Ret w'.
Proof.
  destruct (perform (world_at 150) (Release 1%positive) (running two_leases)) as [w| |] eqn:E; [|vm_compute in E; discriminate E..].
  assert (reachable {[1%positive; 2%positive]} (running two_leases) w) as Hr by (eapply reach_step; [apply reach_start| |exact E]; cbn; set_solver).
  exists w. split; [done|]. split; [done|]. exact (database_consistent _ _ w two_leases_ok Hr).
Defined.

Lemma pool_timer_expires_witness : exists P w', pools (running two_leases) !! 1%positive = Some P /\ pool_timer (world_at 150) (running two_leases) 1 = Ret w' /\ (forall x l, x ∈ ({[1%positive; 2%positive]} : gset positive) -> leases w' !! x = Some l -> pool l = Some 1%positive -> sort_time l <= 150 -> next_binding_state l = binding_state l).
Proof.
  destruct (pools (running two_leases) !! 1%positive) as [P|] eqn:E; [|vm_compute in E; discriminate E].
  destruct (pool_timer_expires (world_at 150) _ _ 1%positive P two_leases_ok E) as (w' & E1 & _ & _ & H & _); [apply (f_equal (option_map failover_peer)) in E; vm_compute in E; by injection E|].
  exists P, w'. by split_and!.
Defined.


End MdbPool.
