(* ===== verification/Dhcp.v ===== *)
(** * The messages of DHCPv4 clients (server/dhcp.c)

    How the server finds the lease of a client, or allocates one, and what it does
    for a DHCPDISCOVER, DHCPREQUEST, DHCPRELEASE and DHCPDECLINE, on the database of
    [Mdb].  A handler ends with the answer that it gives: the call of [ack_lease] or of
    [nak_lease], which is its last one, is a value of [answer_t].

    The configuration is a record: subnets, shared networks, the permits of pools and
    the declarations of hosts.  The options of a packet are the values that the
    parser has stored; those that the configuration computes (the server identifier,
    whether declines are allowed, the classes of a client, a host found by an option)
    are functions of the record.  What is logged is left out. *)

From Stdlib Require Import ZArith Lia.
From stdpp Require Import base list numbers option gmap.
From S2P Require Import Prelude.
From S2P Require Import Inet.
From S2P Require Import Expr.
From S2P Require Import FailoverLease.
From S2P Require Import Mdb.
#[local] Open Scope Z_scope.

Module Dhcp.

Import Mdb.
#[local] Existing Instances FailoverLease.binding_state_eq_dec FailoverLease.role_eq_dec FailoverLease.service_state_eq_dec.
Abbreviation table_t := (gmap (list Z) positive).

Definition DHCPDISCOVER : Z := 1.
Definition DHCPREQUEST : Z := 3.
Definition DHCPDECLINE : Z := 4.
Definition DHCPRELEASE : Z := 7.
Definition DHCPINFORM : Z := 8.
Definition DHCPLEASEQUERY : Z := 10.
Definition DHO_DHCP_REQUESTED_ADDRESS : Z := 50.
Definition DHO_DHCP_SERVER_IDENTIFIER : Z := 54.
Definition DHO_DHCP_CLIENT_IDENTIFIER : Z := 61.
Definition DHO_SUBNET_SELECTION : Z := 118.

(** The classes of a packet come with their superclasses; [link_select] is the option
    of the relay agent. *)
Record packet_t : Type := Packet {
  packet_type : Z;
  options_valid : bool;
  htype : Z;
  hlen : Z;
  chaddr : list Z;
  ciaddr : list Z;
  giaddr : list Z;
  secs : Z;
  options : gmap Z (list Z);
  link_select : option (list Z);
  agent_universe : option Z;
  agent_options_stashed : bool;
  interface_network : ptr;
  shared_network : ptr;
  classes : list (option (positive * ptr));
  known : bool;
  authenticated : bool;
  got_requested_address : bool
}.

Definition set_known (p : packet_t) : packet_t := Packet (packet_type p) (options_valid p) (htype p) (hlen p) (chaddr p) (ciaddr p) (giaddr p) (secs p) (options p) (link_select p) (agent_universe p) (agent_options_stashed p) (interface_network p) (shared_network p) (classes p) true (authenticated p) (got_requested_address p).
Definition set_got_requested (p : packet_t) : packet_t := Packet (packet_type p) (options_valid p) (htype p) (hlen p) (chaddr p) (ciaddr p) (giaddr p) (secs p) (options p) (link_select p) (agent_universe p) (agent_options_stashed p) (interface_network p) (shared_network p) (classes p) (known p) (authenticated p) true.
Definition set_network n (p : packet_t) : packet_t := Packet (packet_type p) (options_valid p) (htype p) (hlen p) (chaddr p) (ciaddr p) (giaddr p) (secs p) (options p) (link_select p) (agent_universe p) (agent_options_stashed p) (interface_network p) n (classes p) (known p) (authenticated p) (got_requested_address p).
Definition set_agent o (p : packet_t) : packet_t := Packet (packet_type p) (options_valid p) (htype p) (hlen p) (chaddr p) (ciaddr p) (giaddr p) (secs p) (options p) (link_select p) o true (interface_network p) (shared_network p) (classes p) (known p) (authenticated p) (got_requested_address p).
Definition set_classes cs (p : packet_t) : packet_t := Packet (packet_type p) (options_valid p) (htype p) (hlen p) (chaddr p) (ciaddr p) (giaddr p) (secs p) (options p) (link_select p) (agent_universe p) (agent_options_stashed p) (interface_network p) (shared_network p) cs (known p) (authenticated p) (got_requested_address p).

Inductive permit : Type :=
| permit_unknown_clients
| permit_known_clients
| permit_authenticated_clients
| permit_unauthenticated_clients
| permit_all_clients
| permit_dynamic_bootp_clients
| permit_class (class : positive)
| permit_after (after : Z).

Record permits_t : Type := Permits { permit_list : list permit; prohibit_list : list permit }.

Record subnet_t : Type := Subnet { net : Inet.iaddr; netmask : Inet.iaddr; network : positive; subnet_authoritative : bool }.

(** [pools] and [subnets_of]: the lists of the network, in order. *)
Record share_t : Type := Share { pools_of : list positive; subnets_of : list positive; share_authoritative : bool }.

(** [fixed_addr]: whether the host has one, and its value when it can be evaluated. *)
Record host_t : Type := Host { n_ipaddr : ptr; client_identifier : list Z; interface : list Z; fixed_addr : option (option (list Z)) }.

Record config : Type := Config {
  subnets : list positive;
  subnet_table : gmap positive subnet_t;
  shares : gmap positive share_t;
  permits : gmap positive permits_t;
  hosts : gmap positive host_t;
  host_uid_hash : table_t;
  host_hw_addr_hash : table_t;
  find_hosts_by_option : packet_t -> ptr;
  load_balance : positive -> option (list Z) * Z;
  secs_byteorder : bool;
  server_id_check : bool;
  source_address : packet_t -> list Z;
  declines : packet_t -> option lease -> bool;
  classify_client : packet_t -> list (option (positive * ptr))
}.

(** What a handler answers; [Fixed] is the lease made up for a host with a fixed address. *)
Inductive target : Type := Dynamic (x : positive) | Fixed (l : lease).

Inductive answer_t : Type :=
| Silent
| Offer (t : target) (time : Z)
| Ack (t : target)
| Nak (cip : list Z)
| Inform
| LeaseQuery.

(** ** Permits *)

Definition class_matches (k : positive) (c : option (positive * ptr)) : bool :=
  match c with Some (i, super) => bool_decide (i = k) || bool_decide (super = Some k) | None => false end.

Definition permits_client (now : Z) (p : packet_t) (t : permit) : bool :=
  match t with
  | permit_unknown_clients => negb (known p)
  | permit_known_clients => known p
  | permit_authenticated_clients => authenticated p
  | permit_unauthenticated_clients => negb (authenticated p)
  | permit_all_clients => true
  | permit_dynamic_bootp_clients => negb (options_valid p) || (packet_type p =? 0)
  | permit_class k => existsb (class_matches k) (classes p)
  | permit_after t => t <? now
  end.

Fixpoint permitted (now : Z) (p : packet_t) (l : list permit) : bool :=
  match l with [] => false | t :: l => if permits_client now p t then true else permitted now p l end.

(** Whether the permits of a pool keep a client out. *)
Definition denied (now : Z) (p : packet_t) (m : permits_t) : bool :=
  (bool_decide (prohibit_list m <> []) && permitted now p (prohibit_list m)) ||
  (bool_decide (permit_list m <> []) && negb (permitted now p (permit_list m))).

(** ** Subnets *)

(** The rest of the buffer is not looked at. *)
Definition iaddr_of (a : list Z) : Inet.iaddr := Inet.Iaddr (Zlen a) (a ++ replicate (16 - length a) 0).

Section Server.
Context (W : world) (C : config).

Definition get_subnet (s : positive) : outcome subnet_t := match subnet_table C !! s with Some t => Ret t | None => Undef end.
Definition get_share (s : positive) : outcome share_t := match shares C !! s with Some t => Ret t | None => Undef end.
Definition get_permits (p : positive) : outcome permits_t := match permits C !! p with Some t => Ret t | None => Undef end.
Definition get_host (h : positive) : outcome host_t := match hosts C !! h with Some t => Ret t | None => Undef end.

(** The search of [find_subnet] and [find_grouped_subnet]. *)
Fixpoint search_subnet (l : list positive) (addr : list Z) : outcome ptr :=
  match l with
  | [] => Ret None
  | s :: l =>
    t ← get_subnet s;
    n ← Inet.subnet_number (replicate 16 0) (iaddr_of addr) (netmask t);
    e ← Inet.addr_eq n (net t);
    if (e : bool) then Ret (Some s) else search_subnet l addr
  end.

Definition find_subnet (addr : list Z) : outcome ptr := search_subnet (subnets C) addr.
Definition find_grouped_subnet (share : positive) (addr : list Z) : outcome ptr := s ← get_share share; search_subnet (subnets_of s) addr.

(** ** Hosts with fixed addresses *)

(** The address of the host that is on the network. *)
Fixpoint search_addresses (n : nat) (share : positive) (d : list Z) (i : Z) : outcome (option (positive * list Z)) :=
  if i <? Zlen d then
    match n with
    | O => Undef
    | S n =>
      a ← memread d i 4;
      s ← find_grouped_subnet share a;
      match s with Some s => Ret (Some (s, a)) | None => search_addresses n share d (i + 4) end
    end
  else Ret None.

Fixpoint find_host_for_network (fuel : nat) (share : positive) (hp : ptr) : outcome (option (positive * positive * list Z)) :=
  match hp with
  | None => Ret None
  | Some h =>
    match fuel with
    | O => Undef
    | S fuel =>
      H ← get_host h;
      r ← match fixed_addr H with
          | Some (Some d) => search_addresses (length d) share d 0
          | _ => Ret None
          end;
      match r with
      | Some (s, a) => Ret (Some (s, h, a))
      | None => find_host_for_network fuel share (n_ipaddr H)
      end
    end
  end.

(** The lease of a host: it is not in the database. *)
Definition fixed_lease (s h : positive) (a : list Z) (H : host_t) : lease :=
  Lease None None None a MIN_TIME MIN_TIME 0 None None (Some h) (Some s) None None None (Expr.OnStar [] [] [])
    (Some (Zlen (client_identifier H) <=? UID_BUF, client_identifier H)) (interface H) STATIC_LEASE
    FTS_FREE (FTS_other 0) (FTS_other 0) (FTS_other 0) 0 0 0 MIN_TIME None.

Definition mockup_lease (share hp : positive) : outcome (option lease) :=
  if negb (memory W) then Ret None
  else
    r ← find_host_for_network (size (hosts C)) share (Some hp);
    match r with
    | None => Ret None
    | Some (s, h, a) => H ← get_host h; Ret (Some (fixed_lease s h a H))
    end.

(** ** Clients *)

Definition unset_address (a : list Z) : bool := bool_decide (a = [0; 0; 0; 0]).

(** The type and the address of the hardware. *)
Definition hardware_of (p : packet_t) : outcome (list Z) := a ← memread (chaddr p) 0 (hlen p); Ret (htype p :: a).

(** The address that the client has or asks for. *)
Definition claimed_address (p : packet_t) : outcome (packet_t * option (list Z)) :=
  if negb (unset_address (ciaddr p)) then Ret (p, Some (ciaddr p))
  else
    match options p !! DHO_DHCP_REQUESTED_ADDRESS with
    | Some d => a ← memread d 0 4; Ret (set_got_requested p, Some a)
    | None => Ret (p, None)
    end.

(** The declaration of the client's host, and the lease for its fixed address. *)
Definition find_fixed (p : packet_t) (share : positive) : outcome (packet_t * option lease * ptr) :=
  r ← match options p !! DHO_DHCP_CLIENT_IDENTIFIER with
      | Some id =>
        match host_uid_hash C !! id with
        | Some hp => f ← mockup_lease share hp; Ret (set_known p, f, match f with Some _ => None | None => Some hp end)
        | None => Ret (p, None, None)
        end
      | None => Ret (p, None, None)
      end;
  match r with
  | (p, None, None) =>
    h ← hardware_of p;
    match match host_hw_addr_hash C !! h with Some hp => Some hp | None => find_hosts_by_option C p end with
    | Some hp => f ← mockup_lease share hp; Ret (set_known p, f, Some hp)
    | None => Ret (p, None, None)
    end
  | _ => Ret r
  end.

Definition fo_lease (l : lease) : FailoverLease.lease :=
  FailoverLease.Lease (binding_state l) (desired_binding_state l) (rewind_binding_state l) (ends l) (tsfp l) (cltt l)
    (match uid l with Some (_, u) => u | None => [] end) (hardware_addr l).

Definition fo_peer (f : peer_t) (b : option (list Z) * Z) : FailoverLease.peer_t :=
  FailoverLease.Peer (i_am f) (service_state f) (me_stos f) (mclt f) b.1 b.2.

(** Whether the server may give the lease to any client. *)
Definition may_reallocate (w : db) (l : lease) : outcome bool :=
  FailoverLease.lease_mine_to_reallocate (cur_time W) (fo_lease l) (option_map (fun f => fo_peer f (None, 0)) (peer_of w l)).

Definition network_of (l : lease) : outcome positive :=
  match subnet l with Some s => t ← get_subnet s; Ret (network t) | None => Undef end.

Definition pool_denied (p : packet_t) (l : lease) : outcome bool :=
  match pool l with Some q => m ← get_permits q; Ret (denied (cur_time W) p m) | None => Undef end.

(** A client identifier that is not the one of the lease. *)
Definition other_uid (id : option (list Z)) (u : list Z) : bool := bool_decide (id <> Some u).

(** Whether the lease names another client. *)
Definition other_client (id : option (list Z)) (h : list Z) (l : lease) : bool :=
  match uid l with Some (_, u) => other_uid id u | None => bool_decide (hardware_addr l <> h) end.

Definition available (l : lease) : bool := bool_decide (binding_state l = FTS_FREE) || bool_decide (binding_state l = FTS_BACKUP).

Definition release_if (b : bool) (w : db) (x : positive) : outcome db := if b then release_lease W w x else Ret w.

(** Active, last active, or free to be given away. *)
Definition extensible (w : db) (l : lease) : outcome bool :=
  if bool_decide (binding_state l <> FTS_ACTIVE) && bool_decide (rewind_binding_state l <> FTS_ACTIVE) then may_reallocate w l else Ret true.

(** The first lease with the client identifier that can be used. *)
Fixpoint uid_loop (fuel : nat) (w : db) (p : packet_t) (share : positive) (x : ptr) : outcome (db * ptr) :=
  match x with
  | None => Ret (w, None)
  | Some x =>
    match fuel with
    | O => Undef
    | S fuel =>
      let do_release := unset_address (ciaddr p) in
      l ← get w x;
      e ← extensible w l;
      if negb e then w ← release_if do_release w x; uid_loop fuel w p share (n_uid l)
      else
        n ← network_of l;
        if bool_decide (n <> share) then uid_loop fuel w p share (n_uid l)
        else
          d ← pool_denied p l;
          if (d : bool) then w ← release_if do_release w x; uid_loop fuel w p share (n_uid l)
          else Ret (w, Some x)
    end
  end.

(** The first lease with the hardware address that can be used. *)
Fixpoint hw_loop (fuel : nat) (w : db) (p : packet_t) (share : positive) (id : option (list Z)) (x : ptr) : outcome (db * ptr) :=
  match x with
  | None => Ret (w, None)
  | Some x =>
    match fuel with
    | O => Undef
    | S fuel =>
      l ← get w x;
      e ← extensible w l;
      if negb e || (negb (available l) && match uid l with Some (_, u) => other_uid id u | None => false end) then hw_loop fuel w p share id (n_hw l)
      else
        n ← network_of l;
        if bool_decide (n <> share) then hw_loop fuel w p share id (n_hw l)
        else
          d ← pool_denied p l;
          if (d : bool) then w ← release_if (unset_address (ciaddr p)) w x; l ← get w x; hw_loop fuel w p share id (n_hw l)
          else Ret (w, Some x)
    end
  end.

(** What [find_lease] has found so far. *)
Record found : Type := Found { uid_lease : ptr; hw_lease : ptr; ip_lease : ptr; fixed : option lease; ours : bool }.

Definition set_ip (x : ptr) (s : found) : found := Found (uid_lease s) (hw_lease s) x (fixed s) (ours s).
Definition set_uid_lease (x : ptr) (s : found) : found := Found x (hw_lease s) (ip_lease s) (fixed s) (ours s).
Definition set_hw_lease (x : ptr) (s : found) : found := Found (uid_lease s) x (ip_lease s) (fixed s) (ours s).
Definition set_fixed (f : option lease) (s : found) : found := Found (uid_lease s) (hw_lease s) (ip_lease s) f (ours s).
Definition set_ours (b : bool) (s : found) : found := Found (uid_lease s) (hw_lease s) (ip_lease s) (fixed s) b.

(** The lease with the address: not one of another network, nor one that another client
    has or may still have, nor one that is not to be offered. *)
Definition check_ip (w : db) (p : packet_t) (share : positive) (id : option (list Z)) (h : list Z) (s : found) : outcome found :=
  match ip_lease s with
  | None => Ret s
  | Some x =>
    l ← get w x;
    n ← network_of l;
    let s := set_ours true s in
    if bool_decide (n <> share) then Ret (set_ip None s)
    else if other_client id h l && negb (available l) then
      Ret (set_ip None (if bool_decide (binding_state l <> FTS_ACTIVE) then set_ours false s else s))
    else if bool_decide (uid_lease s <> None) || bool_decide (hw_lease s <> None) then
      e ← extensible w l;
      Ret (if negb e && (packet_type p =? DHCPDISCOVER) then set_ip None s else s)
    else Ret s
  end.

(** The client has the lease with the address and another one with its identifier. *)
Definition settle_duplicates (w : db) (p : packet_t) (share : positive) (id : option (list Z)) (s : found) : outcome (db * found) :=
  match ip_lease s with
  | None => Ret (w, s)
  | Some x =>
    l ← get w x;
    match uid l with
    | Some (_, u) =>
      if bool_decide (binding_state l = FTS_ACTIVE) && bool_decide (Some x <> uid_lease s) then
        ws ← match uid_lease s with
             | Some y =>
               if negb (other_uid id u) then
                 ly ← get w y;
                 n ← network_of ly;
                 w ← release_if (bool_decide (binding_state ly = FTS_ACTIVE) && unset_address (ciaddr p) && bool_decide (n = share) && (packet_type p =? DHCPREQUEST)) w y;
                 Ret (w, set_uid_lease (Some x) s)
               else Ret (w, s)
             | None => Ret (w, s)
             end;
        let '(w, s) := ws in
        let s := if packet_type p =? DHCPREQUEST then set_fixed None s else s in
        Ret (w, if bool_decide (Some x <> uid_lease s) then set_ip None s else s)
      else Ret (w, s)
    | None => Ret (w, s)
    end
  end.

(** The same lease is kept once; a fixed address goes before a requested one. *)
Definition drop_extra (p : packet_t) (s : found) : found :=
  let s := match fixed s with Some _ => if packet_type p =? DHCPREQUEST then set_ip None s else s | None => s end in
  let s := if bool_decide (hw_lease s <> None) && bool_decide (hw_lease s = uid_lease s) then set_hw_lease None s else s in
  let s := if bool_decide (ip_lease s <> None) && bool_decide (ip_lease s = hw_lease s) then set_hw_lease None s else s in
  if bool_decide (ip_lease s <> None) && bool_decide (ip_lease s = uid_lease s) then set_uid_lease None s else s.

(** The client may use the lease; otherwise it is released, when [r] allows it. *)
Definition check_permit (w : db) (p : packet_t) (x : ptr) (r : lease -> bool) : outcome (db * ptr) :=
  match x with
  | None => Ret (w, None)
  | Some y =>
    l ← get w y;
    d ← pool_denied p l;
    if (d : bool) then w ← release_if (unset_address (ciaddr p) && r l) w y; Ret (w, None) else Ret (w, x)
  end.

Definition check_permits (w : db) (p : packet_t) (s : found) : outcome (db * found) :=
  r ← check_permit w p (ip_lease s) (fun l => bool_decide (binding_state l = FTS_ACTIVE)); let '(w, ip) := r in
  r ← check_permit w p (uid_lease s) (fun _ => true); let '(w, u) := r in
  r ← check_permit w p (hw_lease s) (fun _ => true); let '(w, h) := r in
  Ret (w, Found u h ip (fixed s) (ours s)).

Definition uid_octets (l : lease) : list Z := match uid l with Some (_, u) => u | None => [] end.
Definition uid_len (l : lease) : Z := Zlen (uid_octets l).

(** A lease that is chosen loses the host that it had. *)
Definition choose (w : db) (x : positive) : outcome (db * option target) := w ← put w x (set_host None); Ret (w, Some (Dynamic x)).

(** The fixed address, or else the lease with the address, the client identifier or the
    hardware address. *)
Definition choose_lease (w : db) (p : packet_t) (id : option (list Z)) (s : found) : outcome (db * option target * ptr) :=
  let free := unset_address (ciaddr p) in
  let t := option_map Fixed (fixed s) in
  r ← match ip_lease s, t with
      | Some x, Some _ => w ← release_if free w x; Ret (w, t, None)
      | Some x, None => r ← choose w x; Ret (r, Some x)
      | None, _ => Ret (w, t, None)
      end;
  let '(w, t, ip) := r in
  r ← match uid_lease s, t with
      | Some x, Some _ => l ← get w x; w ← release_if (free && (packet_type p =? DHCPREQUEST) && bool_decide (binding_state l = FTS_ACTIVE)) w x; Ret (w, t)
      | Some x, None => choose w x
      | None, _ => Ret (w, t)
      end;
  let '(w, t) := r in
  r ← match hw_lease s, t with
      | Some x, None =>
        l ← get w x;
        if (uid_len l =? 0) || match id with Some i => negb (other_uid (Some i) (uid_octets l)) | None => packet_type p =? 0 end
        then choose w x else Ret (w, t)
      | _, _ => Ret (w, t)
      end;
  let '(w, t) := r in Ret (w, t, ip).

(** The first host of the chain that has no fixed address. *)
Fixpoint plain_host (fuel : nat) (hp : ptr) : outcome ptr :=
  match hp with
  | None => Ret None
  | Some h =>
    match fuel with
    | O => Undef
    | S fuel => H ← get_host h; match fixed_addr H with None => Ret (Some h) | Some _ => plain_host fuel (n_ipaddr H) end
    end
  end.

(** The declaration of the host is kept with an active lease. *)
Definition keep_host (w : db) (host : ptr) (t : option target) : outcome db :=
  match t, host with
  | Some (Dynamic x), Some hp =>
    h ← plain_host (size (hosts C)) (Some hp);
    l ← get w x;
    match h with Some h => if bool_decide (binding_state l = FTS_ACTIVE) then put w x (set_host (Some h)) else Ret w | None => Ret w end
  | _, _ => Ret w
  end.

(** An abandoned lease is for a client that asks for it. *)
Definition reclaim (w : db) (p : packet_t) (ip : ptr) (t : option target) (ours : bool) : outcome (option target * bool) :=
  match t with
  | Some (Dynamic x) =>
    l ← get w x;
    Ret (if bool_decide (binding_state l = FTS_ABANDONED) && negb (bool_decide (Some x = ip) && (packet_type p =? DHCPREQUEST)) then (None, true) else (t, ours))
  | _ => Ret (t, ours)
  end.

(** Whether the peer has leases that it can give to the client. *)
Fixpoint peer_has (w : db) (l : list positive) : outcome bool :=
  match l with
  | [] => Ret false
  | q :: l =>
    P ← get_pool w q;
    if match pool_peer w P with
       | Some f => match i_am f with primary => negb (backup_leases P =? 0) | secondary => negb (free_leases P =? 0) end
       | None => false
       end
    then Ret true else peer_has w l
  end.

Definition REQUEST_mismatch (p : packet_t) (cip : option (list Z)) (f : option lease) : bool :=
  match f with Some f => (packet_type p =? DHCPREQUEST) && bool_decide (cip <> Some (ip_addr f)) | None => false end.

(** [find_lease] without the test whether the peer has leases.  The packet is returned
    with what has been noted in it, then the lease and whether the address is ours. *)
Definition find_lease (w : db) (p : packet_t) (share : positive) (ip_lease_in : ptr) : outcome (db * packet_t * option target * bool) :=
  r ← claimed_address p; let '(p, cip) := r in
  r ← find_fixed p share; let '(p, f, host) := r in
  if REQUEST_mismatch p cip f then Ret (w, p, None, true)
  else
    let id := options p !! DHO_DHCP_CLIENT_IDENTIFIER in
    r ← uid_loop (size (leases w)) w p share (match id with Some i => find_lease_by_uid w i | None => None end); let '(w, u) := r in
    h ← hardware_of p;
    r ← hw_loop (size (leases w)) w p share id (find_lease_by_hw_addr w h); let '(w, hw) := r in
    let ip := match ip_lease_in with Some x => Some x | None => match cip with Some a => find_lease_by_ip_addr w a | None => None end end in
    s ← check_ip w p share id h (Found u hw ip f false);
    r ← settle_duplicates w p share id s; let '(w, s) := r in
    r ← check_permits w p (drop_extra p s); let '(w, s) := r in
    if (packet_type p =? DHCPREQUEST) && bool_decide (ip_lease s = None) && negb (match fixed s with Some _ => true | None => false end) then Ret (w, p, None, ours s)
    else
      r ← choose_lease w p id s; let '(w, t, ip) := r in
      w ← keep_host w host t;
      r ← reclaim w p ip t (ours s);
      Ret (w, p, r.1, r.2).

(** ** Allocation *)

Definition peek (w : db) (x : ptr) : outcome (option (positive * lease)) := match x with Some x => l ← get w x; Ret (Some (x, l)) | None => Ret None end.

(** The first lease of the peer's, when it is ours by now and older than our own. *)
Definition peer_candidate (w : db) (own theirs : option (positive * lease)) (has : bool) : outcome (option (positive * lease) * bool) :=
  match theirs with
  | None => Ret (own, has)
  | Some (_, l) =>
    if match own with None => true | Some (_, c) => ends l <? ends c end then
      m ← may_reallocate w l; Ret (if (m : bool) then (theirs, has) else (own, true))
    else Ret (own, true)
  end.

(** The lease that a pool offers for allocation, and whether the peer has some. *)
Definition candidate (w : db) (P : pool_t) (has : bool) : outcome (option (positive * lease) * bool) :=
  f ← peek w (heads P free);
  a ← peek w (heads P abandoned);
  match pool_peer w P with
  | Some peer =>
    b ← peek w (heads P backup);
    r ← match i_am peer with primary => peer_candidate w f b has | secondary => peer_candidate w b f has end;
    let '(c, has) := r in
    match c, a with
    | None, Some (_, l) => m ← may_reallocate w l; Ret (if (m : bool) then a else None, has)
    | _, _ => Ret (c, has)
    end
  | None => Ret (match f with Some _ => f | None => a end, has)
  end.

(** Whether the lease has had a client. *)
Definition used_before (l : lease) : bool := negb (uid_len l =? 0) || bool_decide (hardware_addr l <> []).

(** Whether the candidate is to be preferred. *)
Definition preferred (l c : lease) : bool :=
  let abandoned l := bool_decide (binding_state l = FTS_ABANDONED) in
  if abandoned l && (negb (abandoned c) || (ends c <? ends l)) then true
  else if abandoned c then false
  else if used_before l && (negb (used_before c) || (ends c <? ends l)) then true
  else if used_before c then false
  else ends c <? ends l.

Fixpoint allocate_loop (w : db) (p : packet_t) (ps : list positive) (best : option (positive * lease)) (has : bool) : outcome (option (positive * lease) * bool) :=
  match ps with
  | [] => Ret (best, has)
  | q :: ps =>
    m ← get_permits q;
    if denied (cur_time W) p m then allocate_loop w p ps best has
    else
      P ← get_pool w q;
      r ← candidate w P has;
      let '(c, has) := r in
      match c with
      | None => allocate_loop w p ps best has
      | Some (x, l) =>
        if bool_decide (binding_state l <> FTS_ABANDONED) && (cur_time W <? ends l) then allocate_loop w p ps best has
        else
          match best with
          | None => allocate_loop w p ps c has
          | Some (_, b) => allocate_loop w p ps (if preferred b l then c else best) has
          end
      end
  end.

Definition allocate_lease (w : db) (p : packet_t) (ps : list positive) (has : bool) : outcome (db * ptr * bool) :=
  r ← allocate_loop w p ps None has;
  match r with
  | (Some (x, _), has) => w ← put w x (set_host None); Ret (w, Some x, has)
  | (None, has) => Ret (w, None, has)
  end.

(** ** The messages *)

Definition read_lease (w : db) (t : target) : outcome lease := match t with Dynamic x => get w x | Fixed l => Ret l end.

(** The peer of the pool of a lease; a fixed lease has no pool. *)
Definition target_peer (w : db) (t : target) : outcome (option peer_t) := l ← read_lease w t; Ret (peer_of w l).

Definition keeps_silent (f : peer_t) : bool := bool_decide (service_state f = not_responding) || bool_decide (service_state f = service_startup).

(** [load_balance_mine], with the settings of the peer of the lease. *)
Definition balance_mine (w : db) (p : packet_t) (l : lease) (f : peer_t) : outcome bool :=
  let b := match pool l with Some q => match pools w !! q with Some P => match failover_peer P with Some i => load_balance C i | None => (None, 0) end | None => (None, 0) end | None => (None, 0) end in
  FailoverLease.load_balance_mine (secs_byteorder C) (FailoverLease.Packet (secs p) (options p !! DHO_DHCP_CLIENT_IDENTIFIER) (chaddr p) (hlen p)) (fo_peer f b).

(** The lease that was found is kept when the server may offer it. *)
Definition offerable (w : db) (t : option target) : outcome (option target) :=
  match t with
  | None => Ret None
  | Some t' => l ← read_lease w t'; match peer_of w l with Some _ => e ← extensible w l; Ret (if (e : bool) then t else None) | None => Ret t end
  end.

Definition dhcpdiscover (w : db) (p : packet_t) : outcome (db * answer_t) :=
  match shared_network p with
  | None => Undef
  | Some share =>
    s ← get_share share;
    has ← peer_has w (pools_of s);
    r ← find_lease w p share None; let '(w, p, t, _) := r in
    t ← offerable w t;
    r ← match t with
        | Some _ => Ret (w, t, has)
        | None => r ← allocate_lease w p (pools_of s) has; let '(w, x, has) := r in Ret (w, option_map Dynamic x, has)
        end;
    let '(w, t, has) := r in
    match t with
    | None => Ret (w, Silent)
    | Some t =>
      l ← read_lease w t;
      mine ← match peer_of w l with
             | None => Ret true
             | Some f =>
               if keeps_silent f then Ret false
               else if bool_decide (service_state f = cooperating) then m ← balance_mine w p l f; Ret ((m : bool) || negb has)
               else Ret true
             end;
      if negb mine then Ret (w, Silent)
      else
        w ← match t with
            | Dynamic x => if ends l <? cur_time W then put w x (set_scope None) else Ret w
            | Fixed _ => Ret w
            end;
        let time := cur_time W + 120 in
        Ret (w, Offer t (if time <? ends l then ends l else time))
    end
  end.

(** What failover makes of a DHCPREQUEST for the lease: an answer, or [None] to go on. *)
Definition request_failover (w : db) (p : packet_t) (cip sip : list Z) (t : option target) : outcome (option answer_t) :=
  match t with
  | None => Ret None
  | Some t =>
    l ← read_lease w t;
    match peer_of w l with
    | None => Ret None
    | Some f =>
      if keeps_silent f then Ret (Some Silent)
      else
        m ← (if bool_decide (binding_state l ∈ [FTS_FREE; FTS_BACKUP; FTS_RESET]) ||
                (bool_decide (binding_state l ∈ [FTS_RELEASED; FTS_EXPIRED]) && bool_decide (rewind_binding_state l <> FTS_ACTIVE))
             then may_reallocate w l else Ret true);
        if negb m then
          if bool_decide (binding_state l = FTS_RESET) then _ ← network_of l; Ret (Some (Nak cip)) else Ret (Some Silent)
        else if server_id_check C && bool_decide (length sip = 4%nat) && negb (unset_address sip) && bool_decide (sip <> source_address C p) then Ret (Some Silent)
        else Ret None
    end
  end.

(** The address is refused when it is not of the network that the packet came from. *)
Definition request_network (p : packet_t) (cip : list Z) (have_requested : bool) (sub : ptr) : outcome (option answer_t) :=
  if bool_decide (shared_network p = None) || (negb (unset_address (ciaddr p)) && negb (unset_address (giaddr p))) || (have_requested && unset_address (ciaddr p)) then
    match shared_network p with
    | None =>
      match sub with
      | Some s => t ← get_subnet s; Ret (Some (if subnet_authoritative t then Nak cip else Silent))
      | None => Ret (Some Silent)
      end
    | Some share =>
      g ← find_grouped_subnet share cip;
      match g with
      | Some _ => Ret None
      | None => s ← get_share share; Ret (Some (if share_authoritative s then Nak cip else Silent))
      end
    end
  else Ret None.

Definition dhcprequest (w : db) (p : packet_t) (ip_lease_in : ptr) : outcome (db * answer_t) :=
  r ← match options p !! DHO_DHCP_REQUESTED_ADDRESS with
      | Some d => a ← memread d 0 4; Ret (a, true)
      | None => Ret (ciaddr p, false)
      end;
  let '(cip, have_requested) := r in
  sub ← find_subnet cip;
  r ← match sub with
      | Some s => t ← get_subnet s; r ← find_lease w p (network t) ip_lease_in; Ret r
      | None => Ret (w, p, None, false)
      end;
  let '(w, p, t, ours) := r in
  sip ← match options p !! DHO_DHCP_SERVER_IDENTIFIER with Some d => memread d 0 4 | None => Ret [] end;
  a ← request_failover w p cip sip t;
  match a with
  | Some a => Ret (w, a)
  | None =>
    a ← request_network p cip have_requested sub;
    match a with
    | Some a => Ret (w, a)
    | None => Ret (w, match t with Some t => Ack t | None => if (ours : bool) then Nak cip else Silent end)
    end
  end.

(** The lease of the client identifier that has the address. *)
Fixpoint address_loop (fuel : nat) (w : db) (a : list Z) (x : ptr) : outcome ptr :=
  match x with
  | None => Ret None
  | Some x =>
    match fuel with
    | O => Undef
    | S fuel => l ← get w x; b ← memread (ip_addr l) 0 4; if bool_decide (b = a) then Ret (Some x) else address_loop fuel w a (n_uid l)
    end
  end.

Definition ignored (w : db) (l : lease) : bool := match peer_of w l with Some f => keeps_silent f | None => false end.

Definition dhcprelease (w : db) (p : packet_t) : outcome db :=
  x ← match options p !! DHO_DHCP_CLIENT_IDENTIFIER with
      | Some id => address_loop (size (leases w)) w (ciaddr p) (find_lease_by_uid w id)
      | None => Ret None
      end;
  match match x with Some x => Some x | None => find_lease_by_ip_addr w (ciaddr p) end with
  | None => Ret w
  | Some x =>
    l ← get w x;
    h ← hardware_of p;
    if bool_decide (hardware_addr l <> h) || ignored w l then Ret w
    else release_if (cur_time W <? ends l) w x
  end.

(** The statements of the subnet and of the classes decide whether declines are
    allowed. *)
Definition dhcpdecline (w : db) (p : packet_t) : outcome db :=
  match options p !! DHO_DHCP_REQUESTED_ADDRESS with
  | None => Ret w
  | Some d =>
    cip ← memread d 0 4;
    match find_lease_by_ip_addr w cip with
    | None => Ret w
    | Some x =>
      l ← get w x;
      _ ← network_of l;
      if declines C p (Some l) && negb (ignored w l) then abandon_lease W w x else Ret w
    end
  end.

(** ** Where a packet comes from, and what it is *)

Definition locate_network (p : packet_t) : outcome (packet_t * bool) :=
  match match link_select p with Some d => Some d | None => options p !! DHO_SUBNET_SELECTION end with
  | None =>
    if unset_address (giaddr p) then
      match interface_network p with Some n => Ret (set_network (reference (shared_network p) (Some n)) p, true) | None => Ret (p, false) end
    else
      s ← find_subnet (giaddr p);
      match s with Some s => t ← get_subnet s; Ret (set_network (reference (shared_network p) (Some (network t))) p, true) | None => Ret (p, false) end
  | Some d =>
    if negb (bool_decide (length d = 4%nat)) then Ret (p, false)
    else
      s ← find_subnet d;
      match s with Some s => t ← get_subnet s; Ret (set_network (reference (shared_network p) (Some (network t))) p, true) | None => Ret (p, false) end
  end.

(** A client that renews its lease gets the options of the relay agent that it had. *)
Definition stash_agent_options (w : db) (p : packet_t) : outcome (packet_t * ptr) :=
  if (packet_type p =? DHCPREQUEST) && negb (unset_address (ciaddr p)) && unset_address (giaddr p) && bool_decide (agent_universe p = None) then
    match find_lease_by_ip_addr w (ciaddr p) with
    | None => Ret (p, None)
    | Some x =>
      l ← get w x;
      if bool_decide (agent_options l = None) || (ends l <? cur_time W) then Ret (p, Some x)
      else
        if negb (uid_len l =? 0) then
          if other_uid (options p !! DHO_DHCP_CLIENT_IDENTIFIER) (uid_octets l) then Ret (p, Some x) else Ret (set_agent (agent_options l) p, Some x)
        else h ← hardware_of p; if bool_decide (hardware_addr l <> h) then Ret (p, Some x) else Ret (set_agent (agent_options l) p, Some x)
    end
  else Ret (p, None).

Definition dhcp (w : db) (p : packet_t) : outcome (db * answer_t) :=
  r ← locate_network p; let '(p, located) := r in
  if negb located && negb (bool_decide (packet_type p ∈ [DHCPREQUEST; DHCPINFORM; DHCPLEASEQUERY])) then Ret (w, Silent)
  else
    r ← stash_agent_options w p; let '(p, ip) := r in
    let p := set_classes (classify_client C p) p in
    let t := packet_type p in
    if t =? DHCPDISCOVER then dhcpdiscover w p
    else if t =? DHCPREQUEST then dhcprequest w p ip
    else if t =? DHCPRELEASE then w ← dhcprelease w p; Ret (w, Silent)
    else if t =? DHCPDECLINE then w ← dhcpdecline w p; Ret (w, Silent)
    else if t =? DHCPINFORM then Ret (w, Inform)
    else if t =? DHCPLEASEQUERY then Ret (w, LeaseQuery)
    else Ret (w, Silent).


End Server.

End Dhcp.
