(* ===== verification/DhcpSafe.v ===== *)
(** * What the server does with the leases of its clients (server/dhcp.c)

    The release of leases while the server looks for one leaves the clients of all
    leases as they are, and gives no lease to a client.  The handlers of [Dhcp] keep
    the database consistent, and what they offer and acknowledge is on the network of
    the client, permitted to it, and not in use by another client. *)

From Stdlib Require Import ZArith Lia.
From stdpp Require Import base list numbers option gmap.
From S2P Require Import Prelude.
From S2P Require Import Inet.
From S2P Require Import FailoverLease.
From S2P Require Import Mdb.
From S2P Require Import MdbQueue.
From S2P Require Import MdbClient.
From S2P Require Import MdbPool.
From S2P Require Import Dhcp.
#[local] Open Scope Z_scope.

Module DhcpSafe.

Import Mdb MdbQueue MdbClient MdbPool Dhcp.
#[local] Existing Instances FailoverLease.binding_state_eq_dec FailoverLease.role_eq_dec FailoverLease.service_state_eq_dec.

(** ** Release and expiry *)

(** Who a lease belongs to, and where it is. *)
Definition identity (l : lease) := (ip_addr l, subnet l, pool l, uid l, hardware_addr l, n_uid l, n_hw l).

(** No step of the lease is pending that would give it to a client. *)
Definition dormant (l : lease) : Prop := next_binding_state l <> FTS_ACTIVE /\ (available l = true -> next_binding_state l = binding_state l).

(** The lease stays with its client or becomes available. *)
Definition calmer (l l' : lease) : Prop :=
  identity l' = identity l /\ (dormant l -> dormant l' /\ (available l = true -> binding_state l' = binding_state l) /\ (binding_state l' = FTS_ACTIVE -> binding_state l = FTS_ACTIVE)).

Lemma available_state l l' : binding_state l' = binding_state l -> available l' = available l.
Proof. unfold available. by intros ->. Qed.

Lemma calmer_same l l' : identity l' = identity l -> binding_state l' = binding_state l -> next_binding_state l' = next_binding_state l -> calmer l l'.
Proof. intros E1 E2 E3. split; [done|]. unfold dormant. rewrite E3, E2, (available_state l l' E2). tauto. Qed.

#[export] Instance calmer_preorder : PreOrder calmer.
Proof.
  split; [intros l; by apply calmer_same|]. intros l1 l2 l3 [I1 H1] [I2 H2]. split; [congruence|]. intros D1. destruct (H1 D1) as (D2 & A1 & B1). destruct (H2 D2) as (D3 & A2 & B2). split; [done|]. split; [|tauto].
  intros Ha. rewrite <- (A1 Ha). apply A2. by rewrite (available_state l1 l2 (A1 Ha)).
Qed.

Lemma calmer_transition l : calmer l (set_binding_state (next_binding_state l) l).
Proof. split; [done|]. intros [D1 D2]. unfold dormant, available in *. cbn. tauto. Qed.

Lemma calmer_settle peer l : calmer l (settle peer l).
Proof.
  assert (identity (settle peer l) = identity l /\ binding_state (settle peer l) = binding_state l) as [E1 E2] by (unfold settle; destruct (binding_state l) eqn:E, peer as [f|]; try destruct (bool_decide _); cbn; by rewrite ?E).
  split; [done|]. intros [D1 D2]. rewrite E2. split; [|tauto]. unfold dormant. rewrite (available_state _ _ E2), E2. unfold settle, available in *. destruct (binding_state l) eqn:E, peer as [f|]; try destruct (bool_decide (me_state f = _)); cbn; split; try done; try (by destruct (bool_decide _)); tauto.
Qed.

Lemma calmer_next b l : b = FTS_FREE \/ b = FTS_BACKUP \/ b = FTS_RELEASED -> available l = false -> calmer l (set_next_binding_state b l).
Proof. intros Hb Ha. split; [done|]. intros [D1 D2]. unfold dormant. assert (available (set_next_binding_state b l) = false) as -> by done. split; [|by rewrite Ha]. split; [|done]. by destruct Hb as [->|[->| ->]]. Qed.

Lemma calmer_rewind f l : calmer l (rewind f l).
Proof.
  unfold rewind. destruct f as [f|]; [|reflexivity]. destruct (bool_decide (service_state f = _)); cbn; [|reflexivity].
  destruct (bool_decide_reflect (next_binding_state l = FTS_EXPIRED)) as [En|]; cbn; [|reflexivity].
  destruct (bool_decide (i_am f = primary) && bool_decide (rewind_binding_state l = FTS_FREE) || bool_decide (i_am f = secondary) && bool_decide (rewind_binding_state l = FTS_BACKUP)) eqn:E; [|reflexivity].
  assert (rewind_binding_state l = FTS_FREE \/ rewind_binding_state l = FTS_BACKUP) as Hr by (apply orb_true_iff in E as [E|E]; apply andb_true_iff in E as [_ E]; apply bool_decide_eq_true in E; tauto).
  split; [done|]. intros [D1 D2]. assert (available l = false) as Ha. { destruct (available l) eqn:Ha; [|done]. specialize (D2 eq_refl). unfold available in Ha. apply orb_true_iff in Ha as [Ha|Ha]; apply bool_decide_eq_true in Ha; congruence. }
  apply calmer_next; [tauto|done|]. split; [done|]. by rewrite Ha.
Qed.

Definition pools_stay (w w' : db) : Prop := forall q, is_Some (pools w !! q) -> is_Some (pools w' !! q).

(** The tables are left alone, and every lease gets calmer. *)
Definition frame (w w' : db) : Prop :=
  pools_stay w w' /\   (ip_hash w', uid_hash w', hw_hash w') = (ip_hash w, uid_hash w, hw_hash w) /\ forall y, option_Forall2 calmer (leases w !! y) (leases w' !! y).

#[export] Instance frame_preorder : PreOrder frame.
Proof. split; [intros w; split; [by intros q|]; split; [done|]; intros y; reflexivity|]. intros w1 w2 w3 (P1 & T1 & F1) (P2 & T2 & F2). split; [intros q Hq; by apply P2, P1|]. split; [congruence|]. intros y. specialize (F1 y). specialize (F2 y). destruct F1 as [l1 l2 C1|]; inversion F2 as [? l3 C2|]; subst; constructor. by etrans. Qed.

(** A step from [w] to the database in its result. *)
Definition follows (R : relation db) {A} (pr : A -> db) (w : db) (m : outcome A) : Prop := forall r, m = Ret r -> R w (pr r).

Abbreviation framed := (follows frame).

Lemma follows_ret (R : relation db) {A} (pr : A -> db) w r : R w (pr r) -> follows R pr w (Ret r).
Proof. by intros H r' [= <-]. Qed.

Lemma follows_bind (R : relation db) `{!Transitive R} {A B} (p1 : A -> db) (p2 : B -> db) w (m : outcome A) (f : A -> outcome B) : follows R p1 w m -> (forall a, follows R p2 (p1 a) (f a)) -> follows R p2 w (a ← m; f a).
Proof. intros H1 H2 r E. apply bind_Ret_inv in E as (a & E1 & E2). etrans; [by apply H1|by eapply H2]. Qed.

Lemma follows_read (R : relation db) {A B} (p : B -> db) w (m : outcome A) (f : A -> outcome B) : (forall a, m = Ret a -> follows R p w (f a)) -> follows R p w (a ← m; f a).
Proof. intros H r E. apply bind_Ret_inv in E as (a & E1 & E2). by eapply H. Qed.

Lemma follows_fatal (R : relation db) {A} (p : A -> db) w : follows R p w Fatal.
Proof. by intros r. Qed.

Lemma follows_undef (R : relation db) {A} (p : A -> db) w : follows R p w Undef.
Proof. by intros r. Qed.

Lemma framed_put w x f : (forall l, leases w !! x = Some l -> calmer l (f l)) -> framed id w (put w x f).
Proof.
  intros H w' E. unfold put in E. apply bind_Ret_inv in E as (l & E & [= <-]). unfold get in E. destruct (leases w !! x) as [l0|] eqn:El; [|done]. injection E as ->. split; [by intros q|]. split; [done|]. intros y. cbn. destruct (decide (y = x)) as [->|Hy]; [rewrite lookup_insert_eq, El; constructor; by apply H|by rewrite lookup_insert_ne].
Qed.

Lemma framed_put_pool w p f : framed id w (put_pool w p f).
Proof. intros w' E. unfold put_pool in E. apply bind_Ret_inv in E as (P & _ & [= <-]). split; [|split; [done|]; intros y; reflexivity]. intros q. cbn. destruct (decide (q = p)) as [->|Hq]; [rewrite lookup_insert_eq; by eexists|by rewrite lookup_insert_ne]. Qed.

Lemma frame_leases w w' : leases w' = leases w -> pools w' = pools w -> (ip_hash w', uid_hash w', hw_hash w') = (ip_hash w, uid_hash w, hw_hash w) -> frame w w'.
Proof. intros E1 E2 E3. split; [intros q; by rewrite E2|]. split; [done|]. intros y. by rewrite E1. Qed.

Lemma frame_update W w x b i : frame w (fst (queue_update W w x b i)).
Proof.
  split; [by intros q|]. split; [done|]. intros y. cbn. rewrite map_lookup_imap. destruct (leases w !! y) as [l|]; cbn; [|done]. constructor. destruct (announce W w x i y l). by apply calmer_same.
Qed.
(** ** Where the leases are *)

Definition home (l : lease) := (ip_addr l, subnet l, pool l).

Definition homed (w w' : db) : Prop := pools_stay w w' /\ ip_hash w' = ip_hash w /\ home <$> leases w' = home <$> leases w.

#[export] Instance homed_preorder : PreOrder homed.
Proof. split; [intros w; split; [by intros q|done]|]. intros w1 w2 w3 (P1 & A1 & B1) (P2 & A2 & B2). split; [intros q Hq; by apply P2, P1|split; congruence]. Qed.

Lemma homed_same w w' : leases w' = leases w -> pools w' = pools w -> ip_hash w' = ip_hash w -> homed w w'.
Proof. intros E1 E2 E3. split; [intros q; by rewrite E2|]. split; [done|by rewrite E1]. Qed.

Lemma homed_put w x f : (forall l, home (f l) = home l) -> follows homed id w (put w x f).
Proof.
  intros H w' E. unfold put in E. apply bind_Ret_inv in E as (l & E & [= <-]). unfold get in E. destruct (leases w !! x) as [l0|] eqn:El; [|done]. injection E as ->. split; [by intros q|]. split; [done|]. cbn. rewrite fmap_insert, H. apply insert_id. by rewrite lookup_fmap, El.
Qed.

Lemma frame_homed w w' : frame w w' -> homed w w'.
Proof.
  intros (HP & T & F). split; [done|]. split; [congruence|]. apply map_eq. intros y. rewrite !lookup_fmap. destruct (F y) as [l l' [I _]|]; [|done]. cbn. f_equal. unfold identity in I. unfold home. congruence.
Qed.

Lemma framed_homed {A} (pr : A -> db) w m : framed pr w m -> follows homed pr w m.
Proof. intros H r E. by apply frame_homed, H. Qed.

Ltac calm := intros; try (by apply calmer_same); auto using calmer_transition, calmer_settle, calmer_rewind.

(** The steps of an operation, one after the other. *)
Create HintDb frames discriminated.
#[export] Hint Constants Opaque : frames.
#[export] Hint Resolve framed_put_pool follows_fatal follows_undef : frames.

Ltac framing :=
  repeat match goal with
  | |- follows _ _ _ (Ret _) => apply follows_ret
  | |- frame _ _ => reflexivity
  | |- homed _ _ => reflexivity
  | |- framed _ _ (put _ _ _) => apply framed_put; by calm
  | |- follows homed _ _ (put _ _ _) => apply homed_put; done
  | |- follows _ _ _ (mbind (M := outcome) (A := db) _ _) => eapply (follows_bind _ id); [|intros]
  | |- follows _ _ _ (mbind (M := outcome) (A := (db * _)%type) _ _) => eapply (follows_bind _ fst); [|intros [? ?]; cbn [fst snd]]
  | |- follows _ _ _ (mbind (M := outcome) (A := (db * _ * _)%type) _ _) => eapply (follows_bind _ (fun r => r.1.1)); [|intros]
  | |- follows _ _ _ (mbind (M := outcome) _ _) => apply follows_read; intros
  | |- follows _ _ _ (match ?x with _ => _ end) => destruct x
  | |- follows _ _ _ (let (_, _) := ?x in _) => destruct x
  | |- follows _ _ _ _ => solve [eauto with frames]
  end.

Lemma framed_remove_names W w x b : framed id w (remove_names W w x b).
Proof. apply framed_put. intros l _. destruct (ddns_removals W b l). by apply calmer_same. Qed.

Lemma framed_run W b w x st : framed id w (run W b w x st).
Proof. unfold run. apply follows_read. intros l _. destruct (execute W b l st). intros w' E. etrans; [|by eapply framed_put; [|exact E]; calm]. by apply frame_leases. Qed.

Lemma framed_unbill w x : framed id w (unbill_class w x).
Proof.
  unfold unbill_class. apply follows_read. intros l _. destruct (billing_class l) as [k|]; [|framing]. apply follows_read. intros K _ w' E. etrans; [|by eapply framed_put; [|exact E]; calm]. destruct (find_billed _ _); [by apply frame_leases|reflexivity].
Qed.

#[export] Hint Resolve framed_remove_names framed_run framed_unbill : frames.

Lemma framed_transition W w x : framed id w (make_binding_state_transition W w x).
Proof. unfold make_binding_state_transition, forget_client. framing. Qed.

Lemma framed_remove w p q x : framed id w (lease_remove w p q x).
Proof. unfold lease_remove. framing. Qed.

Lemma framed_insert w p q x : framed id w (lease_insert w p q x).
Proof. unfold lease_insert. framing; by apply frame_leases. Qed.

#[export] Hint Resolve framed_transition framed_remove framed_insert : frames.

Lemma framed_enqueue w x : framed fst w (lease_enqueue w x).
Proof.
  unfold lease_enqueue. framing.
Qed.

Lemma framed_act W w e : frame w (fst (act W w e)).
Proof. by apply frame_leases. Qed.

#[export] Hint Resolve framed_enqueue : frames.


Lemma framed_record W w x c p : framed fst w (record_lease W w x c p).
Proof. unfold record_lease, act. framing; by apply frame_leases. Qed.

Lemma framed_change W w x s b p q : framed fst w (change_queue W w x s b p q).
Proof. unfold change_queue. framing. Qed.

#[export] Hint Resolve framed_record framed_change : frames.

Lemma framed_publish W w x p a b c d : framed fst w (publish W w x p a b c d).
Proof.
  unfold publish. framing; try (by apply frame_leases); try apply frame_update. destruct (_ && _); [by apply frame_leases|reflexivity].
Qed.

#[export] Hint Resolve framed_publish : frames.

Lemma framed_move W T w x s a b c d : (forall w p, framed id w (T w p)) -> framed fst w (move_it W T w x s a b c d).
Proof. intros HT. unfold move_it. framing. Qed.

Lemma framed_from_timer W w x : framed id w (supersede_from_timer W w x).
Proof.
  unfold supersede_from_timer, supersede_lease_with. cbn [andb negb]. intros r E. apply bind_Ret_inv in E as (a & E & [= <-]). apply bind_Ret_inv in E as (b & E & [= <-]). apply (framed_move W (fun w _ => Ret w) w x None true true true true) in E; [exact E|intros; framing].
Qed.

#[export] Hint Resolve framed_from_timer : frames.

Lemma framed_expire_queue W fuel : forall w lp ne, framed fst w (expire_queue W fuel w lp ne).
Proof. induction fuel as [|fuel IH]; intros w [x|] ne; cbn [expire_queue]; framing. Qed.

#[export] Hint Resolve framed_expire_queue : frames.

Lemma framed_expire_queues W qs : forall w p ne, framed fst w (expire_queues W qs w p ne).
Proof. induction qs as [|q qs IH]; intros w p ne; cbn [expire_queues]; framing. Qed.

#[export] Hint Resolve framed_expire_queues : frames.

Lemma framed_timer W w p : framed id w (pool_timer W w p).
Proof. unfold pool_timer. framing. Qed.

Lemma framed_supersede W w x a b c d : framed (fun r => r.1.1) w (supersede_lease W w x None a b c d).
Proof.
  unfold supersede_lease, supersede_lease_with. destruct (c && negb a); [framing|]. apply (follows_bind frame fst); [|intros; framing]. apply framed_move. apply framed_timer.
Qed.

#[export] Hint Resolve framed_timer framed_supersede : frames.

Lemma releasable_available l : releasable (binding_state l) = true -> available l = false.
Proof. unfold available. by destruct (binding_state l). Qed.

Lemma get_Ret w x l : get w x = Ret l -> leases w !! x = Some l.
Proof. unfold get. destruct (leases w !! x); [by intros [= ->]|done]. Qed.

Lemma framed_release W w x : framed id w (release_lease W w x).
Proof.
  unfold release_lease. eapply (follows_bind frame id); [framing|intros w1; cbn [id]]. apply follows_read. intros l1 _. eapply (follows_bind frame id); [framing|intros w2; cbn [id]]. eapply (follows_bind frame id); [framing|intros w3; cbn [id]].
  apply follows_read. intros l3 E3%get_Ret. destruct (releasable (binding_state l3)) eqn:Er; [|framing]. rewrite (put_in _ _ _ _ E3), bind_ret. intros r E.
  match type of E with mbind _ (put ?w4 _ _) = _ => etrans; [|refine (follows_bind frame id id w4 _ _ _ _ r E); [|intros; framing]] end.
  - apply (framed_put w3 x (fun l => set_tstp (cur_time W) (set_ends (cur_time W) (set_scope None (no_commit l))))); [intros l _; by apply calmer_same|]. by rewrite (put_in _ _ _ _ E3).
  - apply framed_put. cbn. intros l. rewrite lookup_insert_eq. intros [= <-]. apply calmer_next; [|by apply releasable_available in Er].
    destruct (peer_of _ _) as [f|]; [|by left]. destruct (_ && _) eqn:Eb; [|tauto]. apply andb_true_iff in Eb as [_ Eb]. apply orb_true_iff in Eb as [Eb|Eb]; apply andb_true_iff in Eb as [_ Eb]; apply bool_decide_eq_true in Eb; tauto.
Qed.

(** ** Abandonment *)

Lemma homed_put_at k w t x f : (forall l, home (f l) = home l) -> follows homed id w (put (with_table k w t) x f).
Proof. intros H r E. transitivity (with_table k w t); [destruct k; by apply homed_same|by apply (homed_put _ x f H)]. Qed.

Lemma homed_joins k w x : follows homed id w (client_hash_add k w x).
Proof. unfold client_hash_add. destruct k; framing; by apply homed_same. Qed.

Lemma homed_leaves k w x : follows homed id w (client_hash_delete k w x).
Proof.
  unfold client_hash_delete. destruct k; framing; try (by apply homed_same); intros r E.
  - by apply (homed_put_at by_uid w _ x (set_link by_uid None) ltac:(done)) in E.
  - by apply (homed_put_at by_hw w _ x (set_link by_hw None) ltac:(done)) in E.
Qed.

Lemma homed_bill w x k : follows homed fst w (bill_class w x k).
Proof.
  unfold bill_class. framing; try (by apply homed_same). apply framed_homed, framed_unbill.
Qed.

Lemma homed_sample w x s : follows homed fst w (copy_sample w x s).
Proof.
  assert (forall w, follows homed id w (unbill_class w x)) as Hu by (intros; apply framed_homed, framed_unbill).
  unfold copy_sample, uid_hash_add, hw_hash_add, uid_hash_delete, hw_hash_delete.
  framing; auto using homed_joins, homed_leaves, homed_bill; try (by apply homed_same). apply homed_put. intros c. unfold copy_times. by destruct (ddns_cb _).
Qed.

Lemma homed_abandon W w x : follows homed id w (abandon_lease W w x).
Proof.
  unfold abandon_lease. eapply (follows_bind _ id); [apply framed_homed, framed_remove_names|intros w1]. apply follows_read. intros l _. destruct (lease_copy W l) as [lt|]; [|framing].
  apply (follows_bind _ (fun r => r.1.1)); [|intros; framing]. unfold supersede_lease, supersede_lease_with. cbn [andb negb].
  match goal with |- context [if ?b then _ else _] => destruct b end; [framing|]. apply (follows_bind _ fst); [apply homed_sample|intros [w2 s2]]. apply (follows_bind _ fst); [|intros; framing]. apply framed_homed, framed_move, framed_timer.
Qed.


(** ** The configuration and the packet *)

Definition subnet_ok (t : subnet_t) : Prop := Inet.ia_wf (netmask t) /\ Inet.ia_len (netmask t) = 4 /\ Inet.ia_wf (net t).

(** A chain of declarations, which ends. *)
Fixpoint host_chain (C : config) (hp : ptr) (l : list positive) : Prop :=
  match l with
  | [] => hp = None
  | h :: l => hp = Some h /\ exists H, hosts C !! h = Some H /\ host_chain C (n_ipaddr H) l /\ forall d, fixed_addr H = Some (Some d) -> is_bytes d /\ exists n, length d = (4 * n)%nat
  end.

Definition host_ok (C : config) (h : positive) : Prop := exists l, host_chain C (Some h) l /\ (length l <= size (hosts C))%nat.

Record config_ok (C : config) : Prop := ConfigOk {
  cf_subnet s t : subnet_table C !! s = Some t -> subnet_ok t /\ is_Some (shares C !! network t);
  cf_subnets s : s ∈ subnets C -> is_Some (subnet_table C !! s);
  cf_share n S : shares C !! n = Some S -> (forall s, s ∈ subnets_of S -> exists t, subnet_table C !! s = Some t /\ network t = n) /\ forall q, q ∈ pools_of S -> is_Some (permits C !! q);
  cf_by_uid id h : host_uid_hash C !! id = Some h -> host_ok C h;
  cf_by_hw a h : host_hw_addr_hash C !! a = Some h -> host_ok C h;
  cf_by_option p h : find_hosts_by_option C p = Some h -> host_ok C h;
  cf_balance i b : (load_balance C i).1 = Some b -> Zlen b = 32
}.

(** What the reader of packets ensures, and that the options with addresses hold one. *)
Record packet_wf (p : packet_t) : Prop := PacketWf {
  pk_hw : is_bytes (chaddr p) /\ Zlen (chaddr p) = 16 /\ 0 <= hlen p <= 16;
  pk_addresses : (is_bytes (ciaddr p) /\ length (ciaddr p) = 4%nat) /\ is_bytes (giaddr p) /\ length (giaddr p) = 4%nat;
  pk_options c d : options p !! c = Some d -> is_bytes d /\ (c = DHO_DHCP_REQUESTED_ADDRESS \/ c = DHO_DHCP_SERVER_IDENTIFIER -> 4 <= Zlen d);
  pk_link d : link_select p = Some d -> is_bytes d
}.

(** The leases have their place in the configuration, and the table of addresses leads to them. *)
Record placed (C : config) (D : gset positive) (w : db) : Prop := Placed {
  pl_lease x l : x ∈ D -> leases w !! x = Some l -> (exists s t, subnet l = Some s /\ subnet_table C !! s = Some t) /\ (exists q, pool l = Some q /\ is_Some (permits C !! q)) /\ length (ip_addr l) = 4%nat;
  pl_network x l s t q n S : x ∈ D -> leases w !! x = Some l -> subnet l = Some s -> subnet_table C !! s = Some t -> pool l = Some q -> shares C !! n = Some S -> q ∈ pools_of S -> network t = n;
  pl_pools n S q : shares C !! n = Some S -> q ∈ pools_of S -> is_Some (pools w !! q);
  pl_address a x : find_lease_by_ip_addr w a = Some x -> x ∈ D /\ exists l, leases w !! x = Some l /\ ip_addr l = a
}.

Lemma search_subnet_ok C l a : config_ok C -> (forall s, s ∈ l -> is_Some (subnet_table C !! s)) -> is_bytes a -> length a = 4%nat -> exists r, search_subnet C l a = Ret r /\ forall s, r = Some s -> s ∈ l.
Proof.
  intros HC Hl Hb Ha. induction l as [|s l IH]; cbn [search_subnet]; [by exists None|]. destruct (Hl s ltac:(by left)) as [t Et]. unfold get_subnet. rewrite Et, bind_ret. destruct (cf_subnet _ HC s t Et) as [(M1 & M2 & M3) _].
  assert (Inet.ia_wf (iaddr_of a)) as Ia. { unfold iaddr_of. split; cbn; [rewrite length_app, length_replicate, Ha; done|]. split; [apply is_bytes_app; split; [done|by apply is_bytes_replicate]|unfold Zlen; lia]. }
  destruct (Inet.subnet_number_val (replicate 16 0) (iaddr_of a) (netmask t)) as (r & -> & R1 & R2 & _); [done|by apply is_bytes_replicate|done|done|cbn; unfold Zlen; lia|]. rewrite bind_ret.
  assert (exists b, Inet.addr_eq r (net t) = Ret b) as (b & ->).
  { unfold Inet.addr_eq. destruct R2 as (L1 & _ & L2), M3 as (L3 & _ & L4). rewrite (proj2 (Z.ltb_ge _ _)) by (unfold Inet.sizeof_iabuf; lia). destruct (negb _) eqn:E; [by eexists|]. apply negb_false_iff, Z.eqb_eq in E. rewrite !memread_in by (unfold Zlen; lia). cbn. by eexists. }
  rewrite bind_ret. destruct b; [exists (Some s); split; [done|]; intros ? [= <-]; by left|]. destruct IH as (r' & -> & Hr); [intros s' Hs; apply Hl; by right|]. exists r'. split; [done|]. intros s' Hs. right. by apply Hr.
Qed.

Section Handlers.
Context (W : world) (C : config) (D : gset positive) (HC : config_ok C).

Definition sane (w : db) : Prop := db_ok D w /\ placed C D w.

(** From one sane state to another, with the clients of the leases as they were. *)
Definition goes (w w' : db) : Prop := sane w' /\ frame w w' /\ logged w w'.

Lemma goes_refl w : sane w -> goes w w.
Proof. intros H. split; [done|]. split; [reflexivity|apply logged_refl]. Qed.

Lemma goes_trans w1 w2 w3 : goes w1 w2 -> goes w2 w3 -> goes w1 w3.
Proof. intros (_ & F1 & L1) (S2 & F2 & L2). split; [done|]. split; [by etrans|by eapply logged_trans]. Qed.

Lemma placed_homed w w' : placed C D w -> homed w w' -> placed C D w'.
Proof.
  intros [H1 H4 H2 H3] (Hp & T & E). split.
  - intros x l' Hx El'. destruct (fmap_lookup_inv home _ _ x l' E El') as (l & El & Eh). unfold home in Eh. injection Eh as E1 E2 E3. rewrite <- E1, <- E2, <- E3. by apply (H1 x l).
  - intros x l' s t q n S Hx El'. destruct (fmap_lookup_inv home _ _ x l' E El') as (l & El & Eh). unfold home in Eh. injection Eh as E1 E2 E3. rewrite <- E2, <- E3. by apply (H4 x l).
  - intros n S q ES Hq. by apply Hp, (H2 n S).
  - unfold find_lease_by_ip_addr. rewrite T. intros a x Hx. destruct (H3 a x Hx) as (Hd & l & El & Ea). split; [done|]. apply eq_sym in E. destruct (fmap_lookup_inv home _ _ x l E El) as (l' & El' & Eh). exists l'. split; [done|]. unfold home in Eh. congruence.
Qed.

Lemma db_lease w x : db_ok D w -> x ∈ D -> exists l p P q, leases w !! x = Some l /\ pool l = Some p /\ pools w !! p = Some P /\ queue_of l = Some q.
Proof. intros [_ _ _ (Q & U & H & HP)] Hx. exact (q_place _ _ _ (pt_queues _ _ _ _ _ _ _ _ HP) x Hx). Qed.

Lemma queued_valid l q : queue_of l = Some q -> FailoverLease.valid (binding_state l) = true.
Proof. unfold queue_of. by destruct (binding_state l). Qed.

Lemma settled_dormant w x l : db_ok D w -> x ∈ D -> leases w !! x = Some l -> dormant l.
Proof.
  intros HD Hx El. destruct (db_lease w x HD Hx) as (l0 & p & P & q & El0 & _ & _ & Eq). rewrite El in El0. injection El0 as <-. apply queued_valid in Eq. destruct HD as [_ Hset _ _]. specialize (Hset x l Hx El). unfold dormant, available. rewrite Hset. destruct (binding_state l), (bool_decide (peer_of w l <> None)); try done; by split.
Qed.

Lemma framed_at w w' x l : frame w w' -> leases w !! x = Some l -> exists l', leases w' !! x = Some l' /\ calmer l l'.
Proof. intros (_ & _ & F) El. specialize (F x). rewrite El in F. inversion F as [? l' Hl|]; subst. by exists l'. Qed.

Lemma may_reallocate_ok w l q : queue_of l = Some q -> exists b, may_reallocate W w l = Ret b.
Proof.
  intros Eq%queued_valid. unfold may_reallocate, FailoverLease.lease_mine_to_reallocate. destruct (peer_of w l) as [f|]; cbn; [|by eexists]. destruct (binding_state l); try done; cbn; destruct (i_am f); try (by eexists); destruct (bool_decide (rewind_binding_state l = _)); by eexists.
Qed.

Lemma extensible_ok w x l : db_ok D w -> x ∈ D -> leases w !! x = Some l -> exists b, extensible W w l = Ret b.
Proof.
  intros HD Hx El. destruct (db_lease w x HD Hx) as (l0 & p & P & q & El0 & _ & _ & Eq). rewrite El in El0. injection El0 as <-. unfold extensible. destruct (_ && _); [by eapply may_reallocate_ok|by eexists].
Qed.

Lemma network_ok w x l : placed C D w -> x ∈ D -> leases w !! x = Some l -> exists n, network_of C l = Ret n.
Proof. intros HP Hx El. destruct (pl_lease _ _ _ HP x l Hx El) as ((s & t & Es & Et) & _). unfold network_of, get_subnet. rewrite Es, Et, bind_ret. by eexists. Qed.

Lemma denied_ok w x l p : placed C D w -> x ∈ D -> leases w !! x = Some l -> exists b, pool_denied W C p l = Ret b.
Proof. intros HP Hx El. destruct (pl_lease _ _ _ HP x l Hx El) as (_ & (q & Eq & [m Em]) & _). unfold pool_denied, get_permits. rewrite Eq, Em, bind_ret. by eexists. Qed.

(** *** What does not change *)

Lemma frame_view {B} (g : lease -> B) w w' : (forall l l', identity l' = identity l -> g l' = g l) -> frame w w' -> g <$> leases w' = g <$> leases w.
Proof. intros Hg (_ & _ & F). apply map_eq. intros y. rewrite !lookup_fmap. destruct (F y) as [l l' [I _]|]; [|done]. cbn. f_equal. by apply Hg. Qed.

Lemma frame_seg k w w' p l e : frame w w' -> seg (leases w) (link_of k) p l e -> seg (leases w') (link_of k) p l e.
Proof. intros F. apply seg_view, frame_view; [|done]. intros l1 l2 E. unfold identity in E. destruct k; cbn; congruence. Qed.

Lemma frame_entry k w w' y v : frame w w' -> entry k <$> leases w !! y = v -> entry k <$> leases w' !! y = v.
Proof.
  intros F <-. rewrite <- !lookup_fmap. f_equal. apply frame_view; [|done]. intros l1 l2 E. unfold identity in E. injection E as _ _ _ E1 E2 _ _. unfold entry. destruct k; by rewrite ?E1, ?E2.
Qed.

Lemma network_view l l' : identity l' = identity l -> network_of C l' = network_of C l.
Proof. intros E. unfold identity in E. injection E as _ E _ _ _ _ _. unfold network_of. by rewrite E. Qed.

Lemma denied_view p l l' : identity l' = identity l -> pool_denied W C p l' = pool_denied W C p l.
Proof. intros E. unfold identity in E. injection E as _ _ E _ _ _ _. unfold pool_denied. by rewrite E. Qed.

Lemma client_view id h l l' : identity l' = identity l -> other_client id h l' = other_client id h l.
Proof. intros E. unfold identity in E. injection E as _ _ _ E1 E2 _ _. unfold other_client. by rewrite E1, E2. Qed.

Lemma address_view l l' : identity l' = identity l -> ip_addr l' = ip_addr l.
Proof. intros E. unfold identity in E. congruence. Qed.

(** *** Releases *)

Lemma release_if_ok b w x : sane w -> x ∈ D -> exists w', release_if W b w x = Ret w' /\ goes w w'.
Proof.
  intros [HD HP] Hx. destruct b; cbn; [|exists w; split; [done|by apply goes_refl]]. destruct (release_lease_ok4 W D w x HD Hx) as (w' & E & HD' & L). pose proof (framed_release W w x w' E) as F. exists w'. split; [done|]. split; [split; [done|]|by split]. by eapply placed_homed, frame_homed.
Qed.

Lemma touch_goes w x c f : sane w -> x ∈ D -> leases w !! x = Some c -> (forall l, core (f l) = core l) -> (forall l, billing_class (f l) = billing_class l) -> (forall l, identity (f l) = identity l) ->
  exists w', put w x f = Ret w' /\ goes w w' /\ leases w' !! x = Some (f c).
Proof.
  intros [HD HP] Hx Ec Hf Hb Hi. destruct (keeps_ok D w x c (fun w => put w x f) HD Hx Ec) as (w' & c' & E & HD' & L & Ec' & _); [by apply keeps_put|]. exists w'. split; [done|].
  assert (frame w w') as F. { apply (framed_put w x f); [|done]. intros l _. specialize (Hf l). unfold core in Hf. apply calmer_same; [done|congruence|congruence]. }
  split; [split; [split; [done|by eapply placed_homed, frame_homed]|by split]|]. rewrite (put_in _ _ _ _ Ec) in E. injection E as <-. cbn. by rewrite lookup_insert_eq.
Qed.

(** *** The leases of a client *)

(** A lease of the network that no other client uses or may still use. *)
Definition owned (share : positive) (id : option (list Z)) (h : list Z) (w : db) (x : positive) : Prop :=
  x ∈ D /\ exists l, leases w !! x = Some l /\ network_of C l = Ret share /\ (available l = true \/ other_client id h l = false).

Lemma owned_goes share id h w w' x : sane w -> goes w w' -> owned share id h w x -> owned share id h w' x.
Proof.
  intros [HD _] (_ & F & _) (Hx & l & El & En & Ho). split; [done|]. destruct (framed_at w w' x l F El) as (l' & El' & I & Hc). exists l'. split; [done|]. split; [by rewrite (network_view l l' I)|].
  destruct Ho as [Ha|Ho]; [|right; by rewrite (client_view id h l l' I)]. left. destruct (Hc (settled_dormant w x l HD Hx El)) as (_ & Hb & _). by rewrite (available_state l l' (Hb Ha)).
Qed.

(** The rest of a client's list. *)
Definition rest_of_list (k : link) (key : list Z) (w : db) (x : ptr) (R : list positive) : Prop :=
  seg (leases w) (link_of k) x R None /\ forall y, y ∈ R -> y ∈ D /\ entry k <$> leases w !! y = Some (Some key).

Lemma rest_goes k key w w' x R : goes w w' -> rest_of_list k key w x R -> rest_of_list k key w' x R.
Proof. intros (_ & F & _) [Hs Hr]. split; [by eapply frame_seg|]. intros y Hy. destruct (Hr y Hy) as [Hd He]. split; [done|]. by apply (frame_entry k w). Qed.

Lemma rest_cons k key w x R : rest_of_list k key w (Some x) R -> exists R' l, R = x :: R' /\ x ∈ D /\ leases w !! x = Some l /\ entry k l = Some key /\ rest_of_list k key w (link_of k l) R'.
Proof.
  intros [Hs Hr]. destruct R as [|x' R]; [done|]. destruct Hs as ([= ->] & l & El & Hs). exists R, l. destruct (Hr x' ltac:(by left)) as [Hx He]. rewrite El in He. cbn in He. split; [done|]. split; [done|]. split; [done|]. split; [congruence|]. split; [done|]. intros y Hy. apply Hr. by right.
Qed.

Lemma uid_loop_ok p share key fuel : forall w x R, sane w -> rest_of_list by_uid key w x R -> (length R <= fuel)%nat ->
  exists w' r, uid_loop W C fuel w p share x = Ret (w', r) /\ goes w w' /\ forall y, r = Some y -> forall h, owned share (Some key) h w' y.
Proof.
  induction fuel as [|fuel IH]; intros w [x|] R HS HR Hf; cbn [uid_loop]; try (exists w, None; split; [done|]; split; [by apply goes_refl|done]); destruct (rest_cons _ _ _ _ _ HR) as (R' & l & -> & Hx & El & Ee & HR'); [cbn in Hf; lia|].
  pose proof HS as [HD HP]. cbn in Hf. rewrite (get_in _ _ _ El), bind_ret. destruct (extensible_ok w x l HD Hx El) as (e & ->). rewrite bind_ret.
  assert (forall b, exists w' r, (w ← release_if W b w x; uid_loop W C fuel w p share (n_uid l)) = Ret (w', r) /\ goes w w' /\ forall y, r = Some y -> forall h, owned share (Some key) h w' y) as Hskip.
  { intros b. destruct (release_if_ok b w x HS Hx) as (w1 & -> & G1). rewrite bind_ret. destruct (IH w1 (n_uid l) R') as (w2 & r & -> & G2 & Hr); [apply G1|by eapply rest_goes|lia|]. exists w2, r. split; [done|]. split; [by eapply goes_trans|done]. }
  destruct (negb e); [apply Hskip|]. destruct (network_ok w x l HP Hx El) as (n & En). rewrite En, bind_ret. case_bool_decide as Hn; [destruct (IH w (n_uid l) R' HS HR' ltac:(lia)) as (w2 & r & -> & G2 & Hr); by exists w2, r|].
  destruct (denied_ok w x l p HP Hx El) as (b & ->). rewrite bind_ret. destruct b; [apply Hskip|]. exists w, (Some x). split; [done|]. split; [by apply goes_refl|]. intros y [= <-] h. split; [done|]. exists l. split; [done|]. split; [congruence|]. right.
  unfold entry in Ee. unfold other_client. destruct (uid l) as [[b u]|]; [|done]. cbn in Ee. injection Ee as ->. unfold other_uid. by apply bool_decide_eq_false; intros [].
Qed.

Lemma hw_loop_ok p share id h fuel : forall w x R, sane w -> rest_of_list by_hw h w x R -> (length R <= fuel)%nat ->
  exists w' r, hw_loop W C fuel w p share id x = Ret (w', r) /\ goes w w' /\ forall y, r = Some y -> owned share id h w' y.
Proof.
  induction fuel as [|fuel IH]; intros w [x|] R HS HR Hf; cbn [hw_loop]; try (exists w, None; split; [done|]; split; [by apply goes_refl|done]); destruct (rest_cons _ _ _ _ _ HR) as (R' & l & -> & Hx & El & Ee & HR'); [cbn in Hf; lia|].
  pose proof HS as [HD HP]. cbn in Hf. rewrite (get_in _ _ _ El), bind_ret. destruct (extensible_ok w x l HD Hx El) as (e & ->). rewrite bind_ret.
  assert (exists w' r, hw_loop W C fuel w p share id (n_hw l) = Ret (w', r) /\ goes w w' /\ forall y, r = Some y -> owned share id h w' y) as Hnext by (by apply (IH w (n_hw l) R' HS HR' ltac:(lia))).
  destruct (negb e || _) eqn:Es; [exact Hnext|]. destruct (network_ok w x l HP Hx El) as (n & En). rewrite En, bind_ret. case_bool_decide as Hn; [exact Hnext|].
  destruct (denied_ok w x l p HP Hx El) as (b & ->). rewrite bind_ret. destruct b.
  - destruct (release_if_ok (unset_address (ciaddr p)) w x HS Hx) as (w1 & -> & G1). rewrite bind_ret. pose proof (rest_goes _ _ _ _ _ _ G1 HR) as HR1. destruct (rest_cons _ _ _ _ _ HR1) as (R1 & l1 & [= <-] & _ & El1 & _ & HR1'). rewrite (get_in _ _ _ El1), bind_ret.
    destruct (IH w1 (n_hw l1) R') as (w2 & r & -> & G2 & Hr); [apply G1|done|lia|]. exists w2, r. split; [done|]. split; [by eapply goes_trans|done].
  - exists w, (Some x). split; [done|]. split; [by apply goes_refl|]. intros y [= <-]. split; [done|]. exists l. split; [done|]. split; [congruence|]. apply orb_false_iff in Es as [_ Es]. destruct (available l); [by left|right]. cbn in Es. unfold other_client. destruct (uid l) as [[b u]|]; [done|]. apply bool_decide_eq_false. intros []. unfold entry in Ee. destruct (_ || _); [done|congruence].
Qed.

(** The lists start at the entries of the tables. *)
Lemma list_found k key w : sane w -> exists R, rest_of_list k key w (Mdb.find_lease k w key) R /\ (length R <= size (leases w))%nat.
Proof.
  intros [[_ _ _ (Q & U & H & HP)] _]. assert (exists L, clients_ok k D w L) as (L & HL) by (destruct k; [exists U|exists H]; apply HP). unfold Mdb.find_lease.
  assert (exists R, rest_of_list k key w None R /\ (length R <= size (leases w))%nat) as Hnone by (exists []; split; [split; [done|by intros y ?%elem_of_nil]|cbn; lia]).
  case_bool_decide as Hk; [done|]. destruct (infiniband k key) eqn:Ei; [done|]. rewrite hash_lookup_stack, (c_table _ _ _ _ HL). pose proof (c_chain _ _ _ _ HL key) as Hc. exists (L key). split; [|eapply seg_length; [exact Hc|apply HL]].
  assert (head match L key with [] => [] | x :: _ => [x] end = head (L key)) as -> by (by destruct (L key)). split; [done|]. intros y Hy. apply (c_mem _ _ _ _ HL) in Hy as (Hd & l & El & Ee). split; [done|]. by rewrite El; cbn; rewrite Ee.
Qed.

(** *** The steps of [find_lease] *)

Definition located (cip : option (list Z)) (w : db) (x : positive) : Prop := exists l, leases w !! x = Some l /\ cip = Some (ip_addr l).

Lemma located_goes cip w w' x : goes w w' -> located cip w x -> located cip w' x.
Proof. intros (_ & F & _) (l & El & E). destruct (framed_at w w' x l F El) as (l' & El' & I & _). exists l'. split; [done|]. by rewrite (address_view l l' I). Qed.

Definition allowed (p : packet_t) (w : db) (x : positive) : Prop := exists l, leases w !! x = Some l /\ pool_denied W C p l = Ret false.

Lemma allowed_goes p w w' x : goes w w' -> allowed p w x -> allowed p w' x.
Proof. intros (_ & F & _) (l & El & E). destruct (framed_at w w' x l F El) as (l' & El' & I & _). exists l'. split; [done|]. by rewrite (denied_view p l l' I). Qed.

(** A lease for a host that has an address of the network. *)
Definition fixed_ok (share : positive) (f : lease) : Prop :=
  pool f = None /\ is_Some (subnet f) /\ find_grouped_subnet C share (ip_addr f) = Ret (subnet f).

Section Client.
Context (p : packet_t) (share : positive) (id : option (list Z)) (h : list Z) (cip : option (list Z)).

Record found_ok (w : db) (s : found) : Prop := FoundOk {
  fo_uid x : uid_lease s = Some x -> owned share id h w x;
  fo_hw x : hw_lease s = Some x -> owned share id h w x;
  fo_ip x : ip_lease s = Some x -> owned share id h w x /\ located cip w x;
  fo_fixed f : fixed s = Some f -> fixed_ok share f /\ (packet_type p = DHCPREQUEST -> cip = Some (ip_addr f))
}.

Lemma found_goes w w' s : sane w -> goes w w' -> found_ok w s -> found_ok w' s.
Proof. intros HS G [H1 H2 H3 H4]. split; try done; intros x Ex; [by eapply owned_goes; eauto|by eapply owned_goes; eauto|]. destruct (H3 x Ex). split; [by eapply owned_goes|by eapply located_goes]. Qed.

Lemma check_ip_ok w s : sane w -> (forall x, uid_lease s = Some x -> owned share id h w x) -> (forall x, hw_lease s = Some x -> owned share id h w x) ->
  (forall x, ip_lease s = Some x -> x ∈ D /\ located cip w x) -> (forall f, fixed s = Some f -> fixed_ok share f /\ (packet_type p = DHCPREQUEST -> cip = Some (ip_addr f))) ->
  exists s', check_ip W C w p share id h s = Ret s' /\ found_ok w s'.
Proof.
  intros [HD HP] H1 H2 H3 H4. unfold check_ip. destruct (ip_lease s) as [x|] eqn:Ex; [|exists s; split; [done|]; by split; try done; rewrite Ex].
  destruct (H3 x eq_refl) as (Hx & l & El & Ea). rewrite (get_in _ _ _ El), bind_ret. destruct (network_ok w x l HP Hx El) as (n & En). rewrite En, bind_ret.
  assert (forall b, found_ok w (set_ip None (set_ours b s))) as Hnone by (intros b; by split).
  case_bool_decide as Hn; [eexists; split; [done|]; apply Hnone|]. destruct (other_client id h l && negb (available l)) eqn:Eo; [eexists; split; [done|]; destruct (bool_decide _); [apply (Hnone false)|apply (Hnone true)]|].
  assert (found_ok w (set_ours true s)) as Hok.
  { split; try done. cbn. intros y Ey. rewrite Ex in Ey. injection Ey as <-. split; [|by exists l]. split; [done|]. exists l. split; [done|]. split; [congruence|]. apply andb_false_iff in Eo as [Eo|Eo]; [by right|left]. by apply negb_false_iff in Eo. }
  destruct (_ || _); [|by eexists]. destruct (extensible_ok w x l HD Hx El) as (e & ->). rewrite bind_ret. eexists. split; [done|]. destruct (negb e && _); [apply (Hnone true)|done].
Qed.

Lemma settle_duplicates_ok w s : sane w -> found_ok w s -> exists w' s', settle_duplicates W C w p share id s = Ret (w', s') /\ goes w w' /\ found_ok w' s'.
Proof.
  intros HS HF. unfold settle_duplicates. destruct (ip_lease s) as [x|] eqn:Ex; [|exists w, s; split; [done|]; split; [by apply goes_refl|done]].
  destruct (fo_ip _ _ HF x Ex) as ((Hx & l & El & En & Ho) & Hl). rewrite (get_in _ _ _ El), bind_ret. destruct (uid l) as [[b u]|]; [|exists w, s; split; [done|]; split; [by apply goes_refl|done]].
  destruct (_ && bool_decide (Some x <> _)); [|exists w, s; split; [done|]; split; [by apply goes_refl|done]].
  assert (exists w1 s1, match uid_lease s with
      | Some y => if negb (other_uid id u) then ly ← get w y; n ← network_of C ly;
          w ← release_if W (bool_decide (binding_state ly = FTS_ACTIVE) && unset_address (ciaddr p) && bool_decide (n = share) && (packet_type p =? DHCPREQUEST)) w y; Ret (w, set_uid_lease (Some x) s) else Ret (w, s)
      | None => Ret (w, s) end = Ret (w1, s1) /\ goes w w1 /\ found_ok w1 s1) as (w1 & s1 & -> & G1 & HF1).
  { destruct (uid_lease s) as [y|] eqn:Ey; [|exists w, s; split; [done|]; split; [by apply goes_refl|done]]. destruct (negb _); [|exists w, s; split; [done|]; split; [by apply goes_refl|done]].
    destruct (fo_uid _ _ HF y Ey) as (Hy & ly & Ely & Eny & _). rewrite (get_in _ _ _ Ely), bind_ret, Eny, bind_ret. match goal with |- context [release_if W ?b w y] => destruct (release_if_ok b w y HS Hy) as (w1 & -> & G1) end. rewrite bind_ret.
    exists w1, (set_uid_lease (Some x) s). split; [done|]. split; [done|]. destruct (found_goes w w1 s HS G1 HF) as [A1 A2 A3 A4]. split; try done. cbn. intros z [= <-]. by apply A3. }
  rewrite bind_ret. cbn zeta iota. eexists w1, _. split; [done|]. split; [done|]. destruct HF1 as [A1 A2 A3 A4].
  assert (found_ok w1 (if packet_type p =? DHCPREQUEST then set_fixed None s1 else s1)) as [B1 B2 B3 B4] by (destruct (packet_type p =? _); by split). match goal with |- found_ok _ (if ?b then _ else _) => destruct b end; by split.
Qed.

Lemma drop_extra_ok w s : found_ok w s -> found_ok w (drop_extra p s).
Proof.
  intros HF. unfold drop_extra. assert (forall b s, found_ok w s -> found_ok w (if (b : bool) then set_hw_lease None s else s)) as H1 by (intros [|] s0 []; by split).
  assert (forall b s, found_ok w s -> found_ok w (if (b : bool) then set_uid_lease None s else s)) as H2 by (intros [|] s0 []; by split). apply H2, H1, H1.
  destruct (fixed s) eqn:Ef; [|done]. destruct (packet_type p =? _); [|done]. destruct HF. by split.
Qed.

Lemma check_permit_ok w x r : sane w -> (forall y, x = Some y -> y ∈ D) -> exists w' x', check_permit W C w p x r = Ret (w', x') /\ goes w w' /\ (x' = None \/ x' = x) /\ forall y, x' = Some y -> allowed p w' y.
Proof.
  intros HS Hx. destruct x as [y|]; cbn [check_permit]; [|exists w, None; split; [done|]; split; [by apply goes_refl|]; split; [by left|done]].
  pose proof HS as [HD HP]. specialize (Hx y eq_refl). destruct (db_lease w y HD Hx) as (l & q & P & qq & El & _). rewrite (get_in _ _ _ El), bind_ret. destruct (denied_ok w y l p HP Hx El) as (b & Eb). rewrite Eb, bind_ret. destruct b.
  - match goal with |- context [release_if W ?b w y] => destruct (release_if_ok b w y HS Hx) as (w1 & -> & G1) end. rewrite bind_ret. exists w1, None. split; [done|]. split; [done|]. split; [by left|done].
  - exists w, (Some y). split; [done|]. split; [by apply goes_refl|]. split; [by right|]. intros z [= <-]. by exists l.
Qed.

Lemma check_permits_ok w s : sane w -> found_ok w s -> exists w' s', check_permits W C w p s = Ret (w', s') /\ goes w w' /\ found_ok w' s' /\
  (forall x, uid_lease s' = Some x \/ hw_lease s' = Some x \/ ip_lease s' = Some x -> allowed p w' x).
Proof.
  intros HS HF. unfold check_permits.
  destruct (check_permit_ok w (ip_lease s) (fun l => bool_decide (binding_state l = FTS_ACTIVE)) HS) as (w1 & ip & -> & G1 & O1 & A1); [intros y Ey; by apply (fo_ip _ _ HF)|]. rewrite bind_ret.
  pose proof (found_goes w w1 s HS G1 HF) as HF1. destruct (check_permit_ok w1 (uid_lease s) (fun _ => true)) as (w2 & u & -> & G2 & O2 & A2); [apply G1|intros y Ey; by apply (fo_uid _ _ HF1)|]. rewrite bind_ret.
  pose proof (found_goes w1 w2 s (proj1 G1) G2 HF1) as HF2. destruct (check_permit_ok w2 (hw_lease s) (fun _ => true)) as (w3 & hw & -> & G3 & O3 & A3); [apply G2|intros y Ey; by apply (fo_hw _ _ HF2)|]. rewrite bind_ret.
  destruct (found_goes w2 w3 s (proj1 G2) G3 HF2) as [B1 B2 B3 B4]. eexists w3, _. split; [done|]. split; [eapply goes_trans; [exact G1|]; by eapply goes_trans|]. split.
  - split; cbn; try done; intros x Ex; [apply B1|apply B2|apply B3]; [by destruct O2 as [->| ->]|by destruct O3 as [->| ->]|by destruct O1 as [->| ->]].
  - cbn. intros x [E|[E|E]]; [by apply (allowed_goes p w2), A2|by apply A3|]. apply (allowed_goes p w2); [done|]. by apply (allowed_goes p w1), A1.
Qed.

(** What may be given to the client. *)
Definition served (w : db) (t : target) : Prop :=
  match t with
  | Dynamic x => owned share id h w x /\ allowed p w x /\ (packet_type p = DHCPREQUEST -> located cip w x)
  | Fixed f => fixed_ok share f /\ (packet_type p = DHCPREQUEST -> cip = Some (ip_addr f))
  end.

Lemma served_goes w w' t : sane w -> goes w w' -> served w t -> served w' t.
Proof. intros HS G. destruct t as [x|f]; cbn; [|done]. intros (H1 & H2 & H3). split; [by eapply owned_goes|]. split; [by eapply allowed_goes|]. intros E. eapply located_goes; [exact G|by apply H3]. Qed.

Lemma choose_ok w x : sane w -> owned share id h w x -> exists w', choose w x = Ret (w', Some (Dynamic x)) /\ goes w w'.
Proof. intros HS (Hx & l & El & _). unfold choose. destruct (touch_goes w x l (set_host None) HS Hx El) as (w' & -> & G & _); try done. rewrite bind_ret. by exists w'. Qed.

Lemma choose_lease_ok w s : sane w -> found_ok w s -> (forall x, uid_lease s = Some x \/ hw_lease s = Some x \/ ip_lease s = Some x -> allowed p w x) ->
  (packet_type p = DHCPREQUEST -> ip_lease s <> None \/ fixed s <> None) ->
  exists w' t ip, choose_lease W w p id s = Ret (w', t, ip) /\ goes w w' /\ forall t', t = Some t' -> served w' t'.
Proof.
  intros HS HF HA Hreq. unfold choose_lease.
  assert (exists w1 t1 ip, match ip_lease s, option_map Fixed (fixed s) with
      | Some x, Some _ => w ← release_if W (unset_address (ciaddr p)) w x; Ret (w, option_map Fixed (fixed s), None)
      | Some x, None => r ← choose w x; Ret (r, Some x)
      | None, _ => Ret (w, option_map Fixed (fixed s), None) end = Ret (w1, t1, ip) /\ goes w w1 /\ (forall t', t1 = Some t' -> served w1 t') /\ (packet_type p = DHCPREQUEST -> t1 <> None)) as (w1 & t1 & ip & -> & G1 & S1 & N1).
  { destruct (ip_lease s) as [x|] eqn:Ex, (fixed s) as [f|] eqn:Ef; cbn [option_map].
    - destruct (fo_ip _ _ HF x Ex) as ((Hx & _) & _). destruct (release_if_ok (unset_address (ciaddr p)) w x HS Hx) as (w1 & -> & G1). rewrite bind_ret. exists w1, (Some (Fixed f)), None. split; [done|]. split; [done|]. split; [|done]. intros t' [= <-]. by apply (fo_fixed _ _ HF).
    - destruct (fo_ip _ _ HF x Ex) as (Ho & Hl). destruct (choose_ok w x HS Ho) as (w1 & -> & G1). rewrite bind_ret. exists w1, (Some (Dynamic x)), (Some x). split; [done|]. split; [done|]. split; [|done]. intros t' [= <-]. apply (served_goes w); [done|done|]. split; [done|]. split; [apply HA; tauto|done].
    - exists w, (Some (Fixed f)), None. split; [done|]. split; [by apply goes_refl|]. split; [|done]. intros t' [= <-]. by apply (fo_fixed _ _ HF).
    - exists w, None, None. split; [done|]. split; [by apply goes_refl|]. split; [done|]. intros E. by destruct (Hreq E). }
  rewrite bind_ret. pose proof (found_goes w w1 s HS G1 HF) as HF1. pose proof (proj1 G1) as HS1.
  assert (exists w2 t2, match uid_lease s, t1 with
      | Some x, Some _ => l ← get w1 x; w ← release_if W (unset_address (ciaddr p) && (packet_type p =? DHCPREQUEST) && bool_decide (binding_state l = FTS_ACTIVE)) w1 x; Ret (w, t1)
      | Some x, None => choose w1 x
      | None, _ => Ret (w1, t1) end = Ret (w2, t2) /\ goes w1 w2 /\ (forall t', t2 = Some t' -> served w2 t') /\ (packet_type p = DHCPREQUEST -> t2 <> None)) as (w2 & t2 & -> & G2 & S2 & N2).
  { destruct (uid_lease s) as [x|] eqn:Ex; [|exists w1, t1; split; [done|]; split; [by apply goes_refl|done]]. pose proof (fo_uid _ _ HF1 x Ex) as Ho. destruct t1 as [t1|].
    - destruct Ho as (Hx & l & El & _). rewrite (get_in _ _ _ El), bind_ret. match goal with |- context [release_if W ?b w1 x] => destruct (release_if_ok b w1 x HS1 Hx) as (w2 & -> & G2) end. rewrite bind_ret. exists w2, (Some t1). split; [done|]. split; [done|]. split; [|done]. intros t' [= <-]. apply (served_goes w1); [done|done|by apply S1].
    - destruct (choose_ok w1 x HS1 Ho) as (w2 & -> & G2). exists w2, (Some (Dynamic x)). split; [done|]. split; [done|]. split; [|done]. intros t' [= <-]. apply (served_goes w1); [done|done|]. split; [done|]. split; [apply (allowed_goes p w); [done|apply HA; tauto]|]. intros E. by destruct (N1 E). }
  rewrite bind_ret. pose proof (found_goes w1 w2 s HS1 G2 HF1) as HF2. pose proof (proj1 G2) as HS2. pose proof (goes_trans _ _ _ G1 G2) as G12.
  assert (exists w' t ip0, Ret (w2, t2, ip) = Ret (w', t, ip0) /\ goes w w' /\ forall t', t = Some t' -> served w' t') as Hsame by (exists w2, t2, ip; split; [done|]; split; [done|done]).
  destruct (hw_lease s) as [x|] eqn:Ex; [|exact Hsame]. destruct t2 as [t2|]; [exact Hsame|]. pose proof (fo_hw _ _ HF2 x Ex) as Ho. pose proof Ho as (Hx & l & El & _). rewrite (get_in _ _ _ El), bind_ret.
  destruct (_ || _); [|exact Hsame]. destruct (choose_ok w2 x HS2 Ho) as (w3 & -> & G3). rewrite bind_ret. exists w3, (Some (Dynamic x)), ip. split; [done|]. split; [by eapply goes_trans|]. intros t' [= <-]. apply (served_goes w2); [done|done|]. split; [done|]. split; [apply (allowed_goes p w); [done|apply HA; tauto]|]. intros E. by destruct (N2 E).
Qed.

End Client.

(** *** Hosts *)

Lemma memread_four d i : is_bytes d -> 0 <= i -> i + 4 <= Zlen d -> exists a, memread d i 4 = Ret a /\ is_bytes a /\ length a = 4%nat.
Proof.
  intros Hb Hi Hl. rewrite memread_in by lia. eexists. split; [done|]. split; [by apply is_bytes_take, is_bytes_drop|]. rewrite length_take, length_drop. unfold Zlen in Hl. lia.
Qed.

Lemma grouped_ok share S a : shares C !! share = Some S -> is_bytes a -> length a = 4%nat -> exists r, find_grouped_subnet C share a = Ret r.
Proof.
  intros ES Hb Ha. unfold find_grouped_subnet, get_share. rewrite ES, bind_ret. destruct (search_subnet_ok C (subnets_of S) a HC) as (r & -> & _); [|done|done|by exists r]. intros s Hs. destruct (cf_share _ HC share S ES) as [H _]. destruct (H s Hs) as (t & Et & _). by exists t.
Qed.

Lemma search_addresses_ok share S d n : is_bytes d -> shares C !! share = Some S -> forall j k, length d = (4 * k)%nat -> (k <= j + n)%nat ->
  exists r, search_addresses C n share d (4 * Z.of_nat j) = Ret r /\ forall s a, r = Some (s, a) -> find_grouped_subnet C share a = Ret (Some s).
Proof.
  intros Hb ES. induction n as [|n IH]; intros j k Hk Hn; cbn [search_addresses]; destruct (Z.ltb_spec (4 * Z.of_nat j) (Zlen d)) as [Hl|Hl]; unfold Zlen in Hl; try (by exists None); [lia|].
  destruct (memread_four d (4 * Z.of_nat j) Hb) as (a & -> & Hba & Hla); [lia|unfold Zlen; lia|]. rewrite bind_ret. destruct (grouped_ok share S a ES Hba Hla) as (r & Er). rewrite Er, bind_ret. destruct r as [s|]; [exists (Some (s, a)); split; [done|]; by intros ? ? [= <- <-]|].
  destruct (IH (Datatypes.S j) k Hk ltac:(lia)) as (r & E & Hr). exists r. split; [|done]. by replace (4 * Z.of_nat j + 4) with (4 * Z.of_nat (Datatypes.S j)) by lia.
Qed.

Lemma find_host_ok share S l : shares C !! share = Some S -> forall fuel hp, host_chain C hp l -> (length l <= fuel)%nat ->
  exists r, find_host_for_network C fuel share hp = Ret r /\ forall s h a, r = Some (s, h, a) -> is_Some (hosts C !! h) /\ find_grouped_subnet C share a = Ret (Some s).
Proof.
  intros ES. induction l as [|h l IH]; intros fuel hp Hc Hf; [cbn in Hc; subst hp; exists None; by destruct fuel|]. destruct Hc as (-> & H & EH & Hc & Hd). destruct fuel as [|fuel]; [cbn in Hf; lia|]. cbn [find_host_for_network]. unfold get_host. rewrite EH, bind_ret.
  assert (exists r, match fixed_addr H with Some (Some d) => search_addresses C (length d) share d 0 | _ => Ret None end = Ret r /\ forall s a, r = Some (s, a) -> find_grouped_subnet C share a = Ret (Some s)) as (r & -> & Hr).
  { destruct (fixed_addr H) as [[d|]|] eqn:Ed; try (by exists None). destruct (Hd d eq_refl) as (Hb & k & Hk). by apply (search_addresses_ok share S d (length d) Hb ES 0 k Hk); lia. }
  rewrite bind_ret. destruct r as [[s a]|]; [exists (Some (s, h, a)); split; [done|]; intros ? ? ? [= <- <- <-]; split; [by exists H|by apply Hr]|]. apply IH; [done|cbn in Hf; lia].
Qed.

Lemma mockup_ok share S h : shares C !! share = Some S -> host_ok C h -> exists r, mockup_lease W C share h = Ret r /\ forall f, r = Some f -> fixed_ok share f.
Proof.
  intros ES (l & Hc & Hl). unfold mockup_lease. destruct (negb (memory W)); [by exists None|]. destruct (find_host_ok share S l ES (size (hosts C)) (Some h) Hc Hl) as (r & -> & Hr). rewrite bind_ret.
  destruct r as [[[s h'] a]|]; [|by exists None]. destruct (Hr s h' a eq_refl) as [[H EH] Eg]. unfold get_host. rewrite EH, bind_ret. eexists. split; [done|]. intros f [= <-]. by split_and!; [|exists s|].
Qed.

(** What is noted in a packet while a lease is looked for. *)
Definition told (p : packet_t) := (packet_type p, options_valid p, (htype p, hlen p, chaddr p), ciaddr p, giaddr p, secs p, options p, link_select p, shared_network p, classes p).

Lemma hardware_read p : packet_wf p -> exists h, hardware_of p = Ret h.
Proof. intros [(H1 & H2 & H3) _ _ _]. unfold hardware_of. rewrite memread_in by lia. rewrite bind_ret. by eexists. Qed.

Lemma find_fixed_ok p share S : packet_wf p -> shares C !! share = Some S -> exists p' f host, find_fixed W C p share = Ret (p', f, host) /\ told p' = told p /\ (forall f', f = Some f' -> fixed_ok share f') /\ forall h, host = Some h -> host_ok C h.
Proof.
  intros Hp ES. unfold find_fixed.
  assert (exists p1 f host, match options p !! DHO_DHCP_CLIENT_IDENTIFIER with
      | Some id => match host_uid_hash C !! id with Some hp => f ← mockup_lease W C share hp; Ret (set_known p, f, match f with Some _ => None | None => Some hp end) | None => Ret (p, None, None) end
      | None => Ret (p, None, None) end = Ret (p1, f, host) /\ told p1 = told p /\ (forall f', f = Some f' -> fixed_ok share f') /\ forall h, host = Some h -> host_ok C h) as (p1 & f & host & -> & T & F & Hh).
  { destruct (options p !! _) as [id|]; [|by exists p, None, None]. destruct (host_uid_hash C !! id) as [hp|] eqn:Ei; [|by exists p, None, None]. pose proof (cf_by_uid _ HC id hp Ei) as Ho. destruct (mockup_ok share S hp ES Ho) as (r & -> & Hr). rewrite bind_ret. eexists _, _, _. split; [done|]. split; [done|]. split; [done|]. intros h Eh. destruct r; [done|congruence]. }
  rewrite bind_ret. destruct f as [f|]; [by exists p1, (Some f), host|]. destruct host as [hh|]; [by exists p1, None, (Some hh)|]. cbn zeta iota.
  assert (exists h, hardware_of p1 = Ret h) as (h & ->). { destruct (hardware_read p Hp) as (h & E). exists h. rewrite <- E. unfold hardware_of. unfold told in T. by injection T as _ _ -> -> -> _ _ _ _ _ _ _. }
  rewrite bind_ret. destruct (match host_hw_addr_hash C !! h with Some hp => Some hp | None => find_hosts_by_option C p1 end) as [hp|] eqn:Eh; [|by exists p1, None, None].
  assert (host_ok C hp) as Ho. { destruct (host_hw_addr_hash C !! h) as [hp'|] eqn:E; [injection Eh as ->; by eapply cf_by_hw|by eapply cf_by_option]. }
  destruct (mockup_ok share S hp ES Ho) as (r & -> & Hr). rewrite bind_ret. exists (set_known p1), r, (Some hp). split; [done|]. split; [done|]. split; [done|]. by intros h' [= <-].
Qed.

Lemma claimed_ok p : packet_wf p -> exists p' cip, claimed_address p = Ret (p', cip) /\ told p' = told p /\ forall a, cip = Some a -> is_bytes a /\ length a = 4%nat.
Proof.
  intros [_ [[C1 C2] _] Ho _]. unfold claimed_address. destruct (negb _); [exists p, (Some (ciaddr p)); split; [done|]; split; [done|]; by intros a [= <-]|]. destruct (options p !! _) as [d|] eqn:Ed; [|by exists p, None]. destruct (Ho _ _ Ed) as [Hb Hl]. destruct (memread_four d 0 Hb) as (a & -> & Ha); [lia|specialize (Hl ltac:(by left)); lia|]. rewrite bind_ret. exists (set_got_requested p), (Some a). split; [done|]. split; [done|]. by intros ? [= <-].
Qed.

Lemma plain_host_ok l : forall fuel hp, host_chain C hp l -> (length l <= fuel)%nat -> exists r, plain_host C fuel hp = Ret r.
Proof.
  induction l as [|h l IH]; intros fuel hp Hc Hf; [cbn in Hc; subst hp; exists None; by destruct fuel|]. destruct Hc as (-> & H & EH & Hc & _). destruct fuel as [|fuel]; [cbn in Hf; lia|]. cbn [plain_host]. unfold get_host. rewrite EH, bind_ret. destruct (fixed_addr H); [apply IH; [done|cbn in Hf; lia]|by eexists].
Qed.

Lemma keep_host_ok w host t : sane w -> (forall h, host = Some h -> host_ok C h) -> (forall x, t = Some (Dynamic x) -> x ∈ D) -> exists w', keep_host C w host t = Ret w' /\ goes w w'.
Proof.
  intros HS Hh Ht. unfold keep_host. assert (exists w', Ret w = Ret w' /\ goes w w') as Hsame by (exists w; split; [done|by apply goes_refl]). destruct t as [[x|f]|]; try exact Hsame. destruct host as [hp|]; [|exact Hsame]. destruct (Hh hp eq_refl) as (l & Hc & Hl). destruct (plain_host_ok l _ _ Hc Hl) as (r & ->). rewrite bind_ret.
  pose proof HS as [HD _]. specialize (Ht x eq_refl). destruct (db_lease w x HD Ht) as (lx & q & P & qq & El & _). rewrite (get_in _ _ _ El), bind_ret. destruct r as [hh|]; [|exact Hsame]. destruct (bool_decide _); [|exact Hsame]. destruct (touch_goes w x lx (set_host (Some hh)) HS Ht El) as (w' & -> & G & _); try done. by exists w'.
Qed.


(** *** [find_lease] *)

(** The lease passed by the caller is the one with the address of the client. *)
Definition hint_ok (w : db) (p : packet_t) (ip : ptr) : Prop := forall x, ip = Some x -> find_lease_by_ip_addr w (ciaddr p) = Some x /\ unset_address (ciaddr p) = false.

Lemma reclaim_ok w p ip t o : sane w -> (forall x, t = Some (Dynamic x) -> x ∈ D) -> exists t' o', reclaim w p ip t o = Ret (t', o') /\ (t' = None \/ t' = t) /\
  forall x l, t' = Some (Dynamic x) -> leases w !! x = Some l -> binding_state l = FTS_ABANDONED -> packet_type p = DHCPREQUEST.
Proof.
  intros [HD _] Ht. unfold reclaim. destruct t as [[x|f]|]; try (eexists _, _; split; [done|]; split; [by right|by intros]). destruct (db_lease w x HD (Ht x eq_refl)) as (l & q & P & qq & El & _). rewrite (get_in _ _ _ El), bind_ret. destruct (bool_decide_reflect (binding_state l = FTS_ABANDONED)) as [Ea|Ea]; cbn [andb].
  - destruct (bool_decide _ && _) eqn:E; cbn [negb]; [|eexists _, _; split; [done|]; split; [by left|done]]. eexists _, _. split; [done|]. split; [by right|]. intros y ly [= <-] Ely _. apply andb_true_iff in E as [_ E]. by apply Z.eqb_eq.
  - eexists _, _. split; [done|]. split; [by right|]. intros y ly [= <-] Ely Eb. rewrite El in Ely. congruence.
Qed.

Lemma told_hardware p p' : told p' = told p -> hardware_of p' = hardware_of p.
Proof. unfold told. intros T. injection T as _ _ E1 E2 E3 _ _ _ _ _ _ _. unfold hardware_of. by rewrite E1, E2, E3. Qed.

Lemma told_wf p p' : told p' = told p -> packet_wf p -> packet_wf p'.
Proof. unfold told. intros T [H1 H2 H3 H4]. injection T as E0 E1 E2 E3 E4 E5 E6 E7 E8 E9 E10 E11. split; rewrite ?E0, ?E1, ?E2, ?E3, ?E4, ?E5, ?E6, ?E7, ?E8, ?E9, ?E10, ?E11; done. Qed.

Lemma find_lease_ok w p share S ip_in : sane w -> packet_wf p -> shares C !! share = Some S -> hint_ok w p ip_in ->
  exists w' p' t o h cip p0, find_lease W C w p share ip_in = Ret (w', p', t, o) /\ hardware_of p = Ret h /\ claimed_address p = Ret (p0, cip) /\ goes w w' /\ told p' = told p /\
    (forall t', t = Some t' -> served p' share (options p !! DHO_DHCP_CLIENT_IDENTIFIER) h cip w' t') /\
    (forall x l, t = Some (Dynamic x) -> leases w' !! x = Some l -> binding_state l = FTS_ABANDONED -> packet_type p = DHCPREQUEST).
Proof.
  intros HS Hp ES Hin. unfold find_lease. destruct (claimed_ok p Hp) as (p1 & cip & E1 & T1 & Hcip). rewrite E1, bind_ret. cbn zeta iota. destruct (find_fixed_ok p1 share S (told_wf _ _ T1 Hp) ES) as (p2 & f & host & -> & T2 & Hf & Hh). rewrite bind_ret. cbn zeta iota.
  destruct (hardware_read p Hp) as (h & Eh). assert (told p2 = told p) as T by congruence. pose proof T as T'. unfold told in T'. injection T' as Ety _ _ _ _ Eci _ _ Eo _ _ _.
  destruct (REQUEST_mismatch p2 cip f) eqn:Em; [exists w, p2, None, true, h, cip, p1; split; [done|]; do 2 (split; [done|]); split; [by apply goes_refl|]; split; [done|]; split; [done|done]|].
  rewrite (told_hardware p p2 T), Eh, Eo. set (id := options p !! DHO_DHCP_CLIENT_IDENTIFIER).
  assert (exists w1 u, uid_loop W C (size (leases w)) w p2 share (match id with Some i => find_lease_by_uid w i | None => None end) = Ret (w1, u) /\ goes w w1 /\ forall y, u = Some y -> owned share id h w1 y) as (w1 & u & -> & G1 & Hu).
  { destruct id as [i|]; [|exists w, None; split; [by destruct (size (leases w))|]; split; [by apply goes_refl|done]]. destruct (list_found by_uid i w HS) as (R & HR & Hl). destruct (uid_loop_ok p2 share i _ w _ R HS HR Hl) as (w1 & u & E & G & Hu). exists w1, u. split; [done|]. split; [done|]. intros y Ey. by apply Hu. }
  rewrite bind_ret. cbn zeta iota. rewrite bind_ret. pose proof (proj1 G1) as HS1. destruct (list_found by_hw h w1 HS1) as (R & HR & Hl). destruct (hw_loop_ok p2 share id h _ w1 _ R HS1 HR Hl) as (w2 & hw & E2 & G2 & Hhw). change (find_lease_by_hw_addr w1 h) with (Mdb.find_lease by_hw w1 h). rewrite E2, bind_ret. cbn zeta iota. pose proof (proj1 G2) as HS2. pose proof (goes_trans _ _ _ G1 G2) as G12.
  set (s0 := Found u hw _ f false). destruct (check_ip_ok p2 share id h cip w2 s0 HS2) as (s1 & E3 & F1).
  { intros x Ex. eapply owned_goes; [exact HS1|exact G2|by apply Hu]. }
  { intros x Ex. by apply Hhw. }
  { cbn. intros x Ex. assert (exists a, cip = Some a /\ find_lease_by_ip_addr w2 a = Some x) as (a & -> & Ea).
    { destruct ip_in as [y|]; [|destruct cip as [a|]; [by exists a|done]]. injection Ex as ->. destruct (Hin x eq_refl) as [Ea Eu]. unfold claimed_address in E1. rewrite Eu in E1. cbn in E1. injection E1 as <- <-. exists (ciaddr p). split; [done|]. destruct G12 as (_ & (_ & F & _) & _). unfold find_lease_by_ip_addr in *. by injection F as -> _ _. }
    destruct HS2 as [_ HP2]. destruct (pl_address _ _ _ HP2 a x Ea) as (Hx & l & El & El'). split; [done|]. exists l. by rewrite El'. }
  { cbn. intros f' Ef. split; [by apply Hf|]. intros Et. subst f. cbn in Em. rewrite Et, Z.eqb_refl in Em. cbn in Em. apply bool_decide_eq_false in Em. by apply dec_stable in Em. }
  rewrite E3, bind_ret. destruct (settle_duplicates_ok p2 share id h cip w2 s1 HS2 F1) as (w3 & s2 & -> & G3 & F2). rewrite bind_ret. cbn zeta iota. destruct (check_permits_ok p2 share id h cip w3 (drop_extra p2 s2) (proj1 G3) (drop_extra_ok _ _ _ _ _ _ _ F2)) as (w4 & s3 & -> & G4 & F3 & A3). rewrite bind_ret. cbn zeta iota.
  pose proof (goes_trans _ _ _ G12 (goes_trans _ _ _ G3 G4)) as G. destruct (_ && _ && _) eqn:Er; [exists w4, p2, None, (ours s3), h, cip, p1; split; [done|]; do 3 (split; [done|]); split; [done|]; done|].
  destruct (choose_lease_ok p2 share id h cip w4 s3 (proj1 G4) F3 A3) as (w5 & t & ip & -> & G5 & S5).
  { intros Et. rewrite Et, Z.eqb_refl in Er. cbn [andb] in Er. apply andb_false_iff in Er as [Er|Er]; [left; by apply bool_decide_eq_false in Er|right]. destruct (fixed s3); done. }
  rewrite bind_ret. cbn zeta iota. assert (forall x, t = Some (Dynamic x) -> x ∈ D) as Ht by (intros x ->; destruct (S5 _ eq_refl) as [[Hx _] _]; done). destruct (keep_host_ok w5 host t (proj1 G5) Hh Ht) as (w6 & -> & G6). rewrite bind_ret.
  destruct (reclaim_ok w6 p2 ip t (ours s3) (proj1 G6) Ht) as (t' & o & -> & Hor & Hab). rewrite bind_ret. cbn [fst snd]. exists w6, p2, t', o, h, cip, p1. split; [done|]. do 2 (split; [done|]). split; [exact (goes_trans _ _ _ G (goes_trans _ _ _ G5 G6))|]. split; [done|]. split.
  - intros t1 ->. eapply served_goes; [exact (proj1 G5)|exact G6|]. apply S5. by destruct Hor as [?|<-].
  - intros x l Ex El Eb. rewrite <- Ety. by eapply Hab.
Qed.


(** *** [allocate_lease] *)

Lemma queue_head w q P qq : db_ok D w -> pools w !! q = Some P -> exists r, peek w (heads P qq) = Ret r /\
  (forall x l, r = Some (x, l) -> x ∈ D /\ leases w !! x = Some l /\ pool l = Some q /\ queue_of l = Some qq) /\
  (forall y ly, y ∈ D -> leases w !! y = Some ly -> pool ly = Some q -> queue_of ly = Some qq -> exists x l, r = Some (x, l) /\ sort_time l <= sort_time ly).
Proof.
  intros [_ _ _ (Q & U & H & HP)] EP. destruct HP as [HQ _ _ _ _]. pose proof (q_chain _ _ _ HQ q P qq EP) as Hc. pose proof (q_mem _ _ _ HQ q qq) as Hm. pose proof (q_order _ _ _ HQ q qq) as Ho. destruct (Q q qq) as [|x L].
  - cbn in Hc. rewrite Hc. exists None. split; [done|]. split; [done|]. intros y ly Hy Ely Ep Eq. exfalso. apply (not_elem_of_nil y). apply Hm. split; [done|]. by exists ly.
  - destruct Hc as (-> & v & Ev & _). cbn [peek]. rewrite (get_in _ _ _ Ev), bind_ret. exists (Some (x, v)). split; [done|]. assert (x ∈ x :: L) as Hx by (by left). apply Hm in Hx as (Hd & l & El & Hl). rewrite Ev in El. injection El as <-. destruct Hl as [Hl1 Hl2]. split; [intros ? ? [= <- <-]; by split_and!|].
    intros y ly Hy Ely Ep Eq. exists x, v. split; [done|]. assert (y ∈ x :: L) as Hin by (apply Hm; split; [done|]; by exists ly). pose proof (in_order_head _ _ (st (leases w) x) Ho ltac:(by intros ? [= <-])) as Hf. rewrite Forall_forall in Hf. specialize (Hf y Hin). unfold st in Hf. rewrite Ev, Ely in Hf. exact Hf.
Qed.

Definition in_queue (w : db) (q : positive) (qq : queue) (c : option (positive * lease)) : Prop := forall x l, c = Some (x, l) -> x ∈ D /\ leases w !! x = Some l /\ pool l = Some q /\ queue_of l = Some qq.

Lemma peer_candidate_ok w q q1 q2 own theirs : in_queue w q q1 own -> in_queue w q q2 theirs -> exists c g, (forall has, peer_candidate W w own theirs has = Ret (c, g has)) /\
  forall x l, c = Some (x, l) -> own = Some (x, l) \/ (theirs = Some (x, l) /\ may_reallocate W w l = Ret true).
Proof.
  intros H1 H2. unfold peer_candidate. destruct theirs as [[y ly]|]; [|exists own, (fun b => b); split; [done|]; intros; by left]. destruct (H2 y ly eq_refl) as (_ & _ & _ & Eq). destruct (may_reallocate_ok w ly q2 Eq) as (m & Em).
  destruct (match own with Some (_, c) => _ | None => _ end).
  - rewrite Em. destruct m; [exists (Some (y, ly)), (fun b => b)|exists own, (fun b => true)]; (split; [done|]); intros x l E; [right|by left]. split; [done|]. injection E as <- <-. done.
  - exists own, (fun b => true). split; [done|]. intros; by left.
Qed.

(** What a pool offers: a lease that is free, or else one that was abandoned; of the
    peer's only what may be reallocated. *)
Lemma candidate_ok w q P : db_ok D w -> pools w !! q = Some P -> exists c g, (forall has, candidate W w P has = Ret (c, g has)) /\
  (forall x l, c = Some (x, l) -> x ∈ D /\ leases w !! x = Some l /\ pool l = Some q /\ (queue_of l = Some free \/ queue_of l = Some backup \/ queue_of l = Some abandoned) /\ (pool_peer w P <> None -> may_reallocate W w l = Ret true) /\ (pool_peer w P = None -> queue_of l <> Some backup)) /\
  (failover_peer P = None -> forall y ly, y ∈ D -> leases w !! y = Some ly -> pool ly = Some q -> queue_of ly = Some free -> exists x l, c = Some (x, l) /\ queue_of l = Some free /\ sort_time l <= sort_time ly).
Proof.
  intros HD EP. unfold candidate. destruct (queue_head w q P free HD EP) as (f & -> & F1 & F2). destruct (queue_head w q P abandoned HD EP) as (a & -> & A1 & _). destruct (queue_head w q P backup HD EP) as (b & Eb & B1 & _).
  assert (forall l f', queue_of l = Some free -> pool l = Some q -> pool_peer w P = Some f' -> i_am f' = primary -> may_reallocate W w l = Ret true) as Mf.
  { intros l f' Eq Ep Ef Ei. unfold may_reallocate, peer_of. rewrite Ep. cbn. rewrite EP. unfold pool_peer in Ef. cbn in Ef |- *. rewrite Ef. unfold FailoverLease.lease_mine_to_reallocate. cbn. rewrite Ei. unfold queue_of in Eq. destruct (binding_state l); try done. by destruct (negb _). }
  assert (forall l f', queue_of l = Some backup -> pool l = Some q -> pool_peer w P = Some f' -> i_am f' = secondary -> may_reallocate W w l = Ret true) as Mb.
  { intros l f' Eq Ep Ef Ei. unfold may_reallocate, peer_of. rewrite Ep. cbn. rewrite EP. unfold pool_peer in Ef. cbn in Ef |- *. rewrite Ef. unfold FailoverLease.lease_mine_to_reallocate. cbn. rewrite Ei. unfold queue_of in Eq. destruct (binding_state l); try done. by destruct (negb _). }
  destruct (pool_peer w P) as [peer|] eqn:Ef.
  - assert (exists c g, (forall has, match i_am peer with primary => peer_candidate W w f b has | secondary => peer_candidate W w b f has end = Ret (c, g has)) /\
      forall x l, c = Some (x, l) -> x ∈ D /\ leases w !! x = Some l /\ pool l = Some q /\ (queue_of l = Some free \/ queue_of l = Some backup) /\ may_reallocate W w l = Ret true) as (c & g & Hg & Hc).
    { destruct (i_am peer) eqn:Ei.
      - destruct (peer_candidate_ok w q free backup f b F1 B1) as (c & g & E & Hc). exists c, g. split; [done|]. intros x l Ex. destruct (Hc x l Ex) as [E1|[E1 Hm]]; [destruct (F1 x l E1) as (? & ? & ? & ?)|destruct (B1 x l E1) as (? & ? & ? & ?)]; split_and!; try done; try tauto. by apply (Mf l peer).
      - destruct (peer_candidate_ok w q backup free b f B1 F1) as (c & g & E & Hc). exists c, g. split; [done|]. intros x l Ex. destruct (Hc x l Ex) as [E1|[E1 Hm]]; [destruct (B1 x l E1) as (? & ? & ? & ?)|destruct (F1 x l E1) as (? & ? & ? & ?)]; split_and!; try done; try tauto. by apply (Mb l peer). }
    assert (failover_peer P <> None) as Hne by (unfold pool_peer in Ef; by destruct (failover_peer P)).
    destruct c as [[x l]|]; [|destruct a as [[x l]|]].
    + exists (Some (x, l)), g. split; [intros has; by rewrite bind_ret, bind_ret, Eb, bind_ret, Hg, bind_ret|]. split; [|done]. intros ? ? [= <- <-]. destruct (Hc x l eq_refl) as (? & ? & ? & ? & ?). split_and!; try done. tauto.
    + destruct (A1 x l eq_refl) as (H1 & H2 & H3 & H4). destruct (may_reallocate_ok w l abandoned H4) as (m & Em). exists (if m then Some (x, l) else None), g. split; [intros has; by rewrite bind_ret, bind_ret, Eb, bind_ret, Hg, bind_ret, Em|]. split; [|done]. intros ? ? E. destruct m; [|done]. injection E as <- <-. split_and!; try done. tauto.
    + exists None, g. split; [intros has; by rewrite bind_ret, bind_ret, Eb, bind_ret, Hg, bind_ret|]. done.
  - exists (match f with Some _ => f | None => a end), (fun b => b). split; [done|]. split.
    + intros x l E. destruct f as [[y ly]|]; [destruct (F1 x l E) as (H1 & H2 & H3 & H4)|destruct (A1 x l E) as (H1 & H2 & H3 & H4)]; split_and!; try done; try tauto; congruence.
    + intros _ y ly Hy Ely Ep Eq. destruct (F2 y ly Hy Ely Ep Eq) as (x & l & -> & Hs). exists x, l. split; [done|]. split; [by apply (F1 x l)|done].
Qed.

(** The order of the candidates. *)
Lemma preferred_irrefl l : preferred l l = false.
Proof. unfold preferred. destruct (bool_decide _), (used_before l); cbn; rewrite ?Z.ltb_irrefl; done. Qed.

Lemma preferred_step b c e : preferred b e = false -> preferred b c = true -> preferred c e = false.
Proof.
  unfold preferred. destruct (bool_decide (binding_state b = _)), (bool_decide (binding_state c = _)), (bool_decide (binding_state e = _)), (used_before b), (used_before c), (used_before e); cbn; intros H1 H2; try done;
    destruct (Z.ltb_spec (ends e) (ends b)), (Z.ltb_spec (ends c) (ends b)), (Z.ltb_spec (ends e) (ends c)); done || lia.
Qed.

Lemma preferred_below a b c : preferred a b = false -> preferred b c = false -> preferred a c = false.
Proof.
  unfold preferred. destruct (bool_decide (binding_state a = _)), (bool_decide (binding_state b = _)), (bool_decide (binding_state c = _)), (used_before a), (used_before b), (used_before c); cbn; intros H1 H2; try done;
    destruct (Z.ltb_spec (ends b) (ends a)), (Z.ltb_spec (ends c) (ends b)), (Z.ltb_spec (ends c) (ends a)); done || lia.
Qed.

(** The order in which leases are to be given away: those that no client has had, those that
    one has had, and those that are abandoned; among equals, the one that ended first. *)
Definition grade (l : lease) : Z :=
  if decide (binding_state l = FTS_ABANDONED) then 2 else if decide (uid_len l = 0 /\ hardware_addr l = []) then 0 else 1.

Definition no_worse (l c : lease) : Prop := grade l < grade c \/ (grade l = grade c /\ ends l <= ends c).

Lemma preferred_grade l c : preferred l c = false -> no_worse l c.
Proof.
  assert (forall l, used_before l = negb (bool_decide (uid_len l = 0 /\ hardware_addr l = []))) as Hu.
  { intros x. unfold used_before. destruct (Z.eqb_spec (uid_len x) 0) as [E|E]; cbn [negb orb]; [|symmetry; apply negb_true_iff, bool_decide_false; by intros [? _]]. destruct (decide (hardware_addr x = [])) as [E2|E2]; [rewrite bool_decide_false, bool_decide_true by tauto; done|]. rewrite bool_decide_true, bool_decide_false by tauto. done. }
  unfold preferred, no_worse, grade. rewrite !Hu. destruct (decide (binding_state l = FTS_ABANDONED)) as [E1|E1], (decide (binding_state c = FTS_ABANDONED)) as [E2|E2]; rewrite ?(bool_decide_true _ E1), ?(bool_decide_false _ E1), ?(bool_decide_true _ E2), ?(bool_decide_false _ E2); cbn [negb andb orb].
  - destruct (Z.ltb_spec (ends c) (ends l)); [done|]. right. lia.
  - done.
  - destruct (decide (uid_len l = 0 /\ hardware_addr l = [])); left; lia.
  - destruct (decide (uid_len l = 0 /\ hardware_addr l = [])) as [E3|E3], (decide (uid_len c = 0 /\ hardware_addr c = [])) as [E4|E4]; rewrite ?(bool_decide_true _ E3), ?(bool_decide_false _ E3), ?(bool_decide_true _ E4), ?(bool_decide_false _ E4); cbn [negb andb orb]; destruct (Z.ltb_spec (ends c) (ends l)); try done; lia.
Qed.

(** A permitted pool offers the lease. *)
Definition offers (p : packet_t) (w : db) (q : positive) (x : positive) (l : lease) : Prop :=
  exists P m, pools w !! q = Some P /\ permits C !! q = Some m /\ denied (cur_time W) p m = false /\ (exists has, candidate W w P false = Ret (Some (x, l), has)) /\ (binding_state l = FTS_ABANDONED \/ ends l <= cur_time W).

Lemma allocate_loop_ok p w ps : db_ok D w -> (forall q, q ∈ ps -> is_Some (permits C !! q) /\ is_Some (pools w !! q)) -> forall best has,
  exists r has', allocate_loop W C w p ps best has = Ret (r, has') /\
    (r = best \/ exists q x l, q ∈ ps /\ r = Some (x, l) /\ offers p w q x l) /\
    (forall x l, best = Some (x, l) -> exists x' l', r = Some (x', l') /\ preferred l' l = false) /\
    (forall q x l, q ∈ ps -> offers p w q x l -> exists x' l', r = Some (x', l') /\ preferred l' l = false).
Proof.
  intros HD. induction ps as [|q ps IH]; intros Hps best has; cbn [allocate_loop].
  { exists best, has. split; [done|]. split; [by left|]. split; [|by intros q x l ?%elem_of_nil]. intros x l ->. exists x, l. split; [done|apply preferred_irrefl]. }
  destruct (Hps q ltac:(by left)) as [[m Em] [P EP]]. unfold get_permits. rewrite Em, bind_ret.
  assert (forall q, q ∈ ps -> is_Some (permits C !! q) /\ is_Some (pools w !! q)) as Hps' by (intros; apply Hps; by right). specialize (IH Hps').
  (* a pool that offers nothing *)
  assert (forall has0, (forall x l, ~ offers p w q x l) -> exists r has', allocate_loop W C w p ps best has0 = Ret (r, has') /\ (r = best \/ exists q0 x l, q0 ∈ q :: ps /\ r = Some (x, l) /\ offers p w q0 x l) /\
    (forall x l, best = Some (x, l) -> exists x' l', r = Some (x', l') /\ preferred l' l = false) /\ (forall q0 x l, q0 ∈ q :: ps -> offers p w q0 x l -> exists x' l', r = Some (x', l') /\ preferred l' l = false)) as Hskip.
  { intros has0 Hno. destruct (IH best has0) as (r & has' & E & H1 & H2 & H3). exists r, has'. split; [done|]. split; [destruct H1 as [->|(q0 & x & l & Hq & Hr)]; [by left|right; exists q0, x, l; split; [by right|done]]|]. split; [done|]. intros q0 x l [->|Hq]%elem_of_cons Ho; [by destruct (Hno x l)|by eapply H3]. }
  destruct (denied (cur_time W) p m) eqn:Ed; [apply Hskip; intros x l (P' & m' & _ & E & E' & _); rewrite Em in E; congruence|]. rewrite (get_pool_in _ _ _ EP), bind_ret.
  destruct (candidate_ok w q P HD EP) as (c & g & Hg & _). rewrite Hg, bind_ret. cbn zeta iota.
  assert (forall x l, offers p w q x l -> c = Some (x, l) /\ (binding_state l = FTS_ABANDONED \/ ends l <= cur_time W)) as Hoff by (intros x l (P' & m' & E1 & _ & _ & (h & E2) & E3); rewrite EP in E1; injection E1 as <-; rewrite Hg in E2; split; [congruence|done]).
  destruct c as [[x l]|]; [|apply Hskip; intros x l Ho; by destruct (Hoff x l Ho)].
  destruct (bool_decide (binding_state l <> FTS_ABANDONED) && (cur_time W <? ends l)) eqn:Ee.
  { apply Hskip. intros x0 l0 Ho. destruct (Hoff x0 l0 Ho) as [[= <- <-] H]. apply andb_true_iff in Ee as [E1 E2]. apply bool_decide_eq_true in E1. apply Z.ltb_lt in E2. destruct H; [done|lia]. }
  assert (offers p w q x l) as Ho. { exists P, m. split_and!; try done; [by exists (g false)|]. apply andb_false_iff in Ee as [E|E]; [left; apply bool_decide_eq_false in E; by apply dec_stable in E|right; by apply Z.ltb_ge]. }
  set (b' := match best with None => Some (x, l) | Some (_, b) => if preferred b l then Some (x, l) else best end).
  assert (match best with None => allocate_loop W C w p ps (Some (x, l)) (g has) | Some (_, b) => allocate_loop W C w p ps (if preferred b l then Some (x, l) else best) (g has) end = allocate_loop W C w p ps b' (g has)) as -> by (by destruct best as [[y b]|]).
  destruct (IH b' (g has)) as (r & has' & E & H1 & H2 & H3). exists r, has'. split; [done|].
  assert (exists y b, b' = Some (y, b) /\ preferred b l = false /\ forall x0 l0, best = Some (x0, l0) -> preferred b l0 = false) as (y & b & Eb & P1 & P2).
  { unfold b'. destruct best as [[y b]|]; [|exists x, l; split; [done|]; split; [apply preferred_irrefl|done]]. destruct (preferred b l) eqn:Ep; [exists x, l; split; [done|]; split; [apply preferred_irrefl|]|exists y, b; split; [done|]; split; [done|]]; intros x0 l0 [= <- <-]; [by eapply preferred_step; [apply preferred_irrefl|]|apply preferred_irrefl]. }
  destruct (H2 y b Eb) as (x' & l' & Er & Pr). assert (forall l0, preferred b l0 = false -> preferred l' l0 = false) as Htr. { intros l0 H0. destruct (preferred l' l0) eqn:E0; [|done]. by rewrite (preferred_below l' b l0 Pr H0) in E0. }
  split; [|split].
  - destruct H1 as [->|(q0 & x0 & l0 & Hq & Hr)]; [|right; exists q0, x0, l0; split; [by right|done]]. unfold b'. destruct best as [[y0 b0]|]; [destruct (preferred b0 l); [|by left]|]; right; exists q, x, l; (split; [by left|done]).
  - intros x0 l0 E0. exists x', l'. split; [done|]. by apply Htr, (P2 x0).
  - intros q0 x0 l0 [->|Hq]%elem_of_cons Ho0; [|by eapply H3]. destruct (Hoff x0 l0 Ho0) as [[= <- <-] _]. exists x', l'. split; [done|]. by apply Htr.
Qed.

Lemma queue_available l : queue_of l = Some free \/ queue_of l = Some backup -> available l = true.
Proof. unfold queue_of, available. destruct (binding_state l); try done; by intros [|]. Qed.

Lemma pool_peer_of w l q P : pool l = Some q -> pools w !! q = Some P -> peer_of w l = pool_peer w P.
Proof. intros Ep EP. unfold peer_of, pool_peer. rewrite Ep. cbn. by rewrite EP. Qed.

(** What a permitted pool offers may be given to any client. *)
Lemma offers_ok p w q x l : db_ok D w -> offers p w q x l -> x ∈ D /\ leases w !! x = Some l /\ pool l = Some q /\ pool_denied W C p l = Ret false /\ (available l = true \/ binding_state l = FTS_ABANDONED) /\
  (peer_of w l <> None -> may_reallocate W w l = Ret true).
Proof.
  intros HD (P & m & EP & Em & Ed & (has & Ec) & _). destruct (candidate_ok w q P HD EP) as (c & g & Hg & Hc & _). rewrite Hg in Ec. injection Ec as -> _. destruct (Hc x l eq_refl) as (H1 & H2 & H3 & H4 & H5 & H6). split_and!; try done.
  - unfold pool_denied, get_permits. by rewrite H3, Em, bind_ret, Ed.
  - destruct H4 as [H4|[H4|H4]]; [left; apply queue_available; tauto..|right]. unfold queue_of in H4. destruct (binding_state l); try done; by destruct (negb _).
  - rewrite (pool_peer_of w l q P H3 EP). apply H5.
Qed.

Lemma free_offered p w q P m y ly : db_ok D w -> pools w !! q = Some P -> permits C !! q = Some m -> denied (cur_time W) p m = false -> failover_peer P = None ->
  y ∈ D -> leases w !! y = Some ly -> pool ly = Some q -> queue_of ly = Some free -> ends ly <= cur_time W -> exists x l, offers p w q x l /\ binding_state l <> FTS_ABANDONED.
Proof.
  intros HD EP Em Ed Ef Hy Ely Ep Eq Hends. destruct (candidate_ok w q P HD EP) as (c & g & Hg & Hc & Hfree). destruct (Hfree Ef y ly Hy Ely Ep Eq) as (x & l & -> & Eql & Hs). destruct (Hc x l eq_refl) as (Hx & El & Epl & _). exists x, l.
  assert (forall z lz, z ∈ D -> leases w !! z = Some lz -> pool lz = Some q -> sort_time lz = ends lz) as Hpun. { destruct HD as [_ _ Hp _]. intros z lz Hz Elz Epz. apply (Hp z lz Hz Elz). unfold peer_of. rewrite Epz. cbn. rewrite EP. cbn. by rewrite Ef. }
  rewrite (Hpun x l), (Hpun y ly) in Hs by done. split; [|unfold queue_of in Eql; by destruct (binding_state l)]. exists P, m. split_and!; try done; [by exists (g false)|right; lia].
Qed.

Lemma allocate_ok p w share S has : sane w -> shares C !! share = Some S -> exists w' r has', allocate_lease W C w p (pools_of S) has = Ret (w', r, has') /\ goes w w' /\
  (forall x, r = Some x -> exists q l, q ∈ pools_of S /\ offers p w q x l /\ leases w' !! x = Some (set_host None l) /\ (forall k, peer_of w' k = peer_of w k) /\ forall q' y ly, q' ∈ pools_of S -> offers p w q' y ly -> preferred l ly = false) /\
  (forall q x l, q ∈ pools_of S -> offers p w q x l -> r <> None).
Proof.
  intros HS ES. pose proof HS as [HD HP]. unfold allocate_lease. destruct (allocate_loop_ok p w (pools_of S) HD) with (best := @None (positive * lease)) (has := has) as (r & has' & -> & H1 & _ & H3).
  { intros q Hq. split; [by apply (cf_share _ HC share S ES)|by apply (pl_pools _ _ _ HP share S)]. }
  rewrite bind_ret. destruct r as [[x l]|].
  - destruct H1 as [|(q & x0 & l0 & Hq & [= <- <-] & Ho)]; [done|]. destruct (offers_ok p w q x l HD Ho) as (Hx & El & _). destruct (touch_goes w x l (set_host None) HS Hx El) as (w' & E & G & Ex); try done. pose proof E as E'. rewrite (put_in _ _ _ _ El) in E'. rewrite E, bind_ret. exists w', (Some x), has'. split; [done|]. split; [done|]. split; [|done]. intros ? [= <-]. exists q, l. split; [done|]. split; [done|]. split; [done|]. split; [by injection E' as <-|].
    intros q' y ly Hq' Ho'. destruct (H3 q' y ly Hq' Ho') as (x' & l' & [= <- <-] & Hp). done.
  - exists w, None, has'. split; [done|]. split; [by apply goes_refl|]. split; [done|]. intros q x l Hq Ho. by destruct (H3 q x l Hq Ho) as (x' & l' & E & _).
Qed.


(** *** The handlers *)

(** What may be offered to a client or acknowledged: an address of the network that is
    permitted to the client, that no other client uses or may still use, and that the
    server may give away. *)
Definition target_ready (p : packet_t) (share : positive) (w : db) (t : target) : Prop :=
  match t with
  | Dynamic x => x ∈ D /\ exists l h, leases w !! x = Some l /\ hardware_of p = Ret h /\ network_of C l = Ret share /\ pool_denied W C p l = Ret false /\
      (available l = true \/ binding_state l = FTS_ABANDONED \/ other_client (options p !! DHO_DHCP_CLIENT_IDENTIFIER) h l = false) /\
      (forall f, peer_of w l = Some f -> binding_state l <> FTS_ABANDONED -> extensible W w l = Ret true)
  | Fixed f => fixed_ok share f
  end.

(** Failover lets the server answer for the lease. *)
Definition serving (w : db) (t : target) : Prop := forall l f, read_lease w t = Ret l -> peer_of w l = Some f -> keeps_silent f = false.

Definition target_safe (p : packet_t) (share : positive) (w : db) (t : target) : Prop := target_ready p share w t /\ serving w t.

Definition target_address (w : db) (t : target) : option (list Z) := match t with Dynamic x => ip_addr <$> leases w !! x | Fixed f => Some (ip_addr f) end.

(** An offer is for the network that the packet came from, an acknowledgement for the
    address that the client asks for. *)
Definition answer_safe (p : packet_t) (w : db) (a : answer_t) : Prop :=
  match a with
  | Offer t time => cur_time W + 120 <= time /\ exists share, shared_network p = Some share /\ target_safe p share w t
  | Ack t => (exists share, target_safe p share w t) /\ exists p0, claimed_address p = Ret (p0, target_address w t)
  | _ => True
  end.

(** A change to the lease that the answer does not depend on. *)
Lemma target_safe_touch p share w w' x l f : leases w !! x = Some l -> leases w' !! x = Some (f l) -> (forall k, peer_of w' k = peer_of w k) -> identity (f l) = identity l -> fo_lease (f l) = fo_lease l -> binding_state (f l) = binding_state l -> rewind_binding_state (f l) = rewind_binding_state l -> pool (f l) = pool l ->
  target_safe p share w (Dynamic x) -> target_safe p share w' (Dynamic x).
Proof.
  intros El El' Hp I Ef Eb Er Epl [(Hx & l0 & h & El0 & Eh & En & Ed & Ho & Hf) Hs]. rewrite El in El0. injection El0 as <-. assert (peer_of w' (f l) = peer_of w l) as Epp by (rewrite Hp; unfold peer_of; by rewrite Epl). split.
  - split; [done|]. exists (f l), h. split; [done|]. split; [done|]. rewrite (network_view l (f l) I), (denied_view p l (f l) I), (client_view _ _ l (f l) I), (available_state l (f l) Eb), Eb, Epp. split; [done|]. split; [done|]. split; [done|].
    intros g Eg Hne. rewrite <- (Hf g Eg Hne). unfold extensible, may_reallocate. by rewrite Eb, Er, Ef, Epp.
  - intros l1 g E1 E2. cbn in E1. rewrite (get_in _ _ _ El') in E1. injection E1 as <-. rewrite Epp in E2. apply (Hs l g); [by apply get_in|done].
Qed.

Lemma balance_ok w p l f : packet_wf p -> exists b, balance_mine C w p l f = Ret b.
Proof.
  intros [(H1 & H2 & H3) _ Ho _]. unfold balance_mine, FailoverLease.load_balance_mine. cbn. destruct (_ <? _); [by eexists|].
  match goal with |- context [match ?b.1 with Some _ => _ | None => _ end] => destruct (b.1) as [hb|] eqn:Eh end; [|by eexists].
  assert (Zlen hb = 32) as Hl. { destruct (pool l) as [q|]; [|done]. destruct (pools w !! q) as [P|]; [|done]. destruct (failover_peer P) as [i|]; [|done]. by eapply cf_balance. }
  assert (exists i, match options p !! DHO_DHCP_CLIENT_IDENTIFIER with Some ds => FailoverLease.loadb_p_hash ds (Zlen ds) | None => FailoverLease.loadb_p_hash (chaddr p) (hlen p) end = Ret i /\ is_byte i) as (i & -> & Hi).
  { destruct (options p !! _) as [ds|] eqn:Ed; [destruct (Ho _ _ Ed) as [Hb _]; apply FailoverLease.loadb_p_hash_ok; [done|pose proof (Zlen_nonneg ds); lia]|apply FailoverLease.loadb_p_hash_ok; [done|lia]]. }
  rewrite bind_ret. destruct (FailoverLease.hba_bit_ok hb i Hi Hl) as (b & ->). rewrite bind_ret. by eexists.
Qed.

Lemma peer_has_ok w ps : (forall q, q ∈ ps -> is_Some (pools w !! q)) -> exists b, peer_has w ps = Ret b.
Proof.
  induction ps as [|q ps IH]; intros H; cbn [peer_has]; [by eexists|]. destruct (H q ltac:(by left)) as [P EP]. rewrite (get_pool_in _ _ _ EP), bind_ret. match goal with |- context [if ?b then _ else _] => destruct b end; [by eexists|]. apply IH. intros q' Hq. apply H. by right.
Qed.

Lemma extensible_may w l b : may_reallocate W w l = Ret true -> extensible W w l = Ret b -> b = true.
Proof. unfold extensible. intros ->. destruct (_ && _); congruence. Qed.

(** What [find_lease] finds, when it may be offered. *)
Lemma offerable_ok p share id h cip w t : sane w -> id = options p !! DHO_DHCP_CLIENT_IDENTIFIER -> hardware_of p = Ret h -> (forall t', t = Some t' -> served p share id h cip w t') ->
  exists t1, offerable W w t = Ret t1 /\ (t1 = None \/ t1 = t) /\ forall t', t1 = Some t' -> target_ready p share w t'.
Proof.
  intros [HD HP] -> Eh Ht. destruct t as [[x|f]|]; cbn [offerable read_lease]; [| |by exists None; split; [done|]; split; [by left|]].
  - destruct (Ht _ eq_refl) as ((Hx & l & El & En & Ho) & (l1 & El1 & Ed) & _). rewrite El in El1. injection El1 as <-. rewrite (get_in _ _ _ El), bind_ret.
    assert ((forall f, peer_of w l = Some f -> binding_state l <> FTS_ABANDONED -> extensible W w l = Ret true) -> target_ready p share w (Dynamic x)) as Hr by (intros He; split; [done|]; exists l, h; split_and!; try done; tauto).
    destruct (peer_of w l) as [f|] eqn:Ef; [|exists (Some (Dynamic x)); split; [done|]; split; [by right|]; intros t' [= <-]; by apply Hr].
    destruct (extensible_ok w x l HD Hx El) as (e & Ee). rewrite Ee, bind_ret. destruct e; [|by exists None; split; [done|]; split; [by left|]]. exists (Some (Dynamic x)). split; [done|]. split; [by right|]. intros t' [= <-]. by apply Hr.
  - destruct (Ht _ eq_refl) as [Hf _]. rewrite bind_ret. assert (peer_of w f = None) as -> by (destruct Hf as (E & _); unfold peer_of; by rewrite E). exists (Some (Fixed f)). split; [done|]. split; [by right|]. by intros t' [= <-].
Qed.

Lemma allocated_ready p share S w w' q x l h : sane w -> shares C !! share = Some S -> hardware_of p = Ret h -> q ∈ pools_of S -> offers p w q x l -> leases w' !! x = Some (set_host None l) -> (forall k, peer_of w' k = peer_of w k) -> target_ready p share w' (Dynamic x).
Proof.
  intros [HD HP] ES Eh Hq Ho Ex Hpe. destruct (offers_ok p w q x l HD Ho) as (Hx & El & Ep & Ed & Ha & Hm). split; [done|]. exists (set_host None l), h. split; [done|]. split; [done|].
  destruct (pl_lease _ _ _ HP x l Hx El) as ((s & t & Es & Et) & _). split; [unfold network_of, get_subnet; cbn; rewrite Es, Et, bind_ret; by rewrite (pl_network _ _ _ HP x l s t q share S Hx El Es Et Ep ES Hq)|]. split; [done|]. split; [destruct Ha as [Ha|Ha]; [by left|by right; left]|].
  intros f Ef Hne. rewrite Hpe in Ef. assert (peer_of w l = Some f) as Efl by exact Ef. assert (may_reallocate W w' (set_host None l) = Ret true) as Em. { rewrite <- (Hm ltac:(by rewrite Efl)). unfold may_reallocate. rewrite Hpe. done. }
  unfold extensible. rewrite Em. by destruct (_ && _).
Qed.

Lemma discover_ok w p share S : sane w -> packet_wf p -> shared_network p = Some share -> shares C !! share = Some S ->
  exists w' a p', dhcpdiscover W C w p = Ret (w', a) /\ goes w w' /\ told p' = told p /\ answer_safe p' w' a.
Proof.
  intros HS Hp En ES. unfold dhcpdiscover. rewrite En. unfold get_share. rewrite ES, bind_ret. pose proof HS as [HD HP]. destruct (peer_has_ok w (pools_of S)) as (has & ->); [intros q Hq; by apply (pl_pools _ _ _ HP share S)|]. rewrite bind_ret.
  destruct (find_lease_ok w p share S None HS Hp ES) as (w1 & p1 & t & o & h & cip & p0 & -> & Eh & _ & G1 & T & Hserved & _); [done|]. rewrite bind_ret. cbn zeta iota. pose proof (proj1 G1) as HS1.
  assert (hardware_of p1 = Ret h) as Eh1 by (rewrite (told_hardware p p1 T); done). assert (options p1 = options p /\ shared_network p1 = shared_network p) as [Eo Esn] by (unfold told in T; by injection T as _ _ _ _ _ _ _ _ ? _ ? _).
  destruct (offerable_ok p1 share _ h cip w1 t HS1 ltac:(by rewrite Eo) Eh1 Hserved) as (t1 & -> & _ & Hready). rewrite bind_ret.
  assert (exists w2 t2 has2, match t1 with Some _ => Ret (w1, t1, has) | None => r ← allocate_lease W C w1 p1 (pools_of S) has; let '(w, x, has) := r in Ret (w, option_map Dynamic x, has) end = Ret (w2, t2, has2) /\ goes w1 w2 /\ forall t', t2 = Some t' -> target_ready p1 share w2 t') as (w2 & t2 & has2 & -> & G2 & Hready2).
  { destruct t1 as [t1|]; [exists w1, (Some t1), has; split; [done|]; split; [by apply goes_refl|done]|]. destruct (allocate_ok p1 w1 share S has HS1 ES) as (w2 & r & has2 & -> & G2 & Hr & _). rewrite bind_ret. cbn zeta iota. exists w2, (option_map Dynamic r), has2. split; [done|]. split; [done|]. intros t' Et. destruct r as [x|]; [|done]. injection Et as <-. destruct (Hr x eq_refl) as (q & l & Hq & Ho & Ex & Hpe & _). by eapply (allocated_ready p1 share S w1). }
  rewrite bind_ret. cbn zeta iota. pose proof (proj1 G2) as HS2. pose proof (goes_trans _ _ _ G1 G2) as G12. destruct t2 as [t2|]; [|exists w2, Silent, p1; by split_and!]. specialize (Hready2 t2 eq_refl).
  assert (exists l, read_lease w2 t2 = Ret l /\ (forall x, t2 = Dynamic x -> x ∈ D /\ leases w2 !! x = Some l)) as (l & El & Elx). { destruct t2 as [x|f]; [|by exists f]. destruct Hready2 as (Hx & l & _ & El & _). exists l. split; [by apply get_in|]. by intros ? [= <-]. }
  rewrite El, bind_ret.
  assert (exists b, match peer_of w2 l with None => Ret true | Some f => if keeps_silent f then Ret false else if bool_decide (service_state f = cooperating) then m ← balance_mine C w2 p1 l f; Ret ((m : bool) || negb has2) else Ret true end = Ret b /\ (b = true -> forall f, peer_of w2 l = Some f -> keeps_silent f = false)) as (b & -> & Hb).
  { destruct (peer_of w2 l) as [f|]; [|by exists true]. destruct (keeps_silent f) eqn:Ek; [by exists false|]. assert (forall b : bool, b = true -> forall f0, Some f = Some f0 -> keeps_silent f0 = false) as Hk by (by intros b _ f0 [= <-]). destruct (bool_decide _); [|by exists true; split; [done|apply Hk]]. destruct (balance_ok w2 p1 l f (told_wf _ _ T Hp)) as (m & ->). rewrite bind_ret. eexists. split; [done|apply Hk]. }
  rewrite bind_ret. destruct b; cbn [negb]; [|exists w2, Silent, p1; by split_and!].
  assert (target_safe p1 share w2 t2) as Hsafe by (split; [done|]; intros l0 f E0 Ef; rewrite El in E0; injection E0 as <-; by apply (Hb eq_refl)).
  assert (cur_time W + 120 <= (if cur_time W + 120 <? ends l then ends l else cur_time W + 120)) as Htime by (destruct (Z.ltb_spec (cur_time W + 120) (ends l)); lia).
  destruct t2 as [x|f]; [|rewrite bind_ret; eexists w2, _, p1; split; [done|]; split; [done|]; split; [done|]; split; [done|]; exists share; split; [congruence|done]].
  destruct (Elx x eq_refl) as [Hx Ex]. destruct (ends l <? cur_time W); [|rewrite bind_ret; eexists w2, _, p1; split; [done|]; split; [done|]; split; [done|]; split; [done|]; exists share; split; [congruence|done]].
  destruct (touch_goes w2 x l (set_scope None) HS2 Hx Ex) as (w3 & E3 & G3 & Ex3); try done. pose proof E3 as E3'. rewrite (put_in _ _ _ _ Ex) in E3'. rewrite E3, bind_ret. eexists w3, _, p1. split; [done|]. split; [by eapply goes_trans|]. split; [done|]. split; [done|]. exists share. split; [congruence|].
  eapply (target_safe_touch p1 share w2 w3 x l (set_scope None)); try done. by injection E3' as <-.
Qed.

Lemma find_subnet_ok a : is_bytes a -> length a = 4%nat -> exists r, find_subnet C a = Ret r /\ forall s, r = Some s -> exists t S, subnet_table C !! s = Some t /\ shares C !! network t = Some S.
Proof.
  intros Hb Ha. destruct (search_subnet_ok C (subnets C) a HC) as (r & E & Hr); [apply (cf_subnets _ HC)|done|done|]. exists r. split; [done|]. intros s Es. destruct (cf_subnets _ HC s (Hr s Es)) as [t Et]. destruct (cf_subnet _ HC s t Et) as [_ [S ES]]. by exists t, S.
Qed.

Lemma request_failover_ok p share id h cip w cip' sip t : sane w -> id = options p !! DHO_DHCP_CLIENT_IDENTIFIER -> hardware_of p = Ret h -> (forall t', t = Some t' -> served p share id h cip w t') ->
  exists a, request_failover W C w p cip' sip t = Ret a /\ (forall a', a = Some a' -> a' = Silent \/ a' = Nak cip') /\ (a = None -> forall t', t = Some t' -> target_safe p share w t').
Proof.
  intros [HD HP] -> Eh Ht. unfold request_failover. destruct t as [[x|f]|]; [| |by exists None].
  - destruct (Ht _ eq_refl) as ((Hx & l & El & En & Ho) & (l1 & El1 & Ed) & _). rewrite El in El1. injection El1 as <-. cbn [read_lease]. rewrite (get_in _ _ _ El), bind_ret.
    assert ((forall f, peer_of w l = Some f -> keeps_silent f = false /\ (binding_state l <> FTS_ABANDONED -> extensible W w l = Ret true)) -> target_safe p share w (Dynamic x)) as Hr.
    { intros He. split; [split; [done|]; exists l, h; split_and!; try done; [tauto|]; intros f Ef; exact (proj2 (He f Ef))|]. intros l0 f E0 Ef. cbn in E0. rewrite (get_in _ _ _ El) in E0. injection E0 as <-. exact (proj1 (He f Ef)). }
    destruct (peer_of w l) as [f|] eqn:Ef; [|exists None; split; [done|]; split; [done|]; intros _ t' [= <-]; by apply Hr]. destruct (keeps_silent f) eqn:Ek; [exists (Some Silent); split; [done|]; split; [intros a' [= <-]; by left|done]|].
    destruct (db_lease w x HD Hx) as (l2 & q2 & P2 & qq & El2 & _ & _ & Eq). rewrite El in El2. injection El2 as <-. destruct (may_reallocate_ok w l qq Eq) as (m & Em). rewrite Em.
    match goal with |- context [if ?b then Ret m else Ret true] => set (c := b); assert ((if c then Ret m else Ret true) = Ret (negb c || m)) as -> by (by destruct c) end. rewrite bind_ret.
    destruct (negb c || m) eqn:Ec; cbn [negb]; [|destruct (bool_decide (binding_state l = FTS_RESET)); [rewrite En, bind_ret; exists (Some (Nak cip')); split; [done|]; split; [intros a' [= <-]; by right|done]|exists (Some Silent); split; [done|]; split; [intros a' [= <-]; by left|done]]].
    destruct (server_id_check C && _ && _ && _); [exists (Some Silent); split; [done|]; split; [intros a' [= <-]; by left|done]|]. exists None. split; [done|]. split; [done|]. intros _ t' [= <-]. apply Hr. intros f' [= <-]. split; [done|]. intros Hne.
    unfold extensible. rewrite Em. destruct (bool_decide_reflect (binding_state l = FTS_ACTIVE)) as [Ea|Ea]; [by rewrite Ea|]. destruct (bool_decide_reflect (rewind_binding_state l = FTS_ACTIVE)) as [Er|Er]; [rewrite (bool_decide_false (rewind_binding_state l <> FTS_ACTIVE)) by tauto; by rewrite andb_false_r|].
    rewrite (bool_decide_true _ Ea), (bool_decide_true _ Er). f_equal. apply orb_true_iff in Ec as [Ec|Ec]; [|done]. exfalso. apply negb_true_iff in Ec. unfold c in Ec. rewrite (bool_decide_true _ Er) in Ec. apply queued_valid in Eq. destruct (binding_state l); done.
  - destruct (Ht _ eq_refl) as [Hf _]. cbn [read_lease]. rewrite bind_ret. assert (peer_of w f = None) as Ef by (destruct Hf as (E & _); unfold peer_of; by rewrite E). rewrite Ef. exists None. split; [done|]. split; [done|]. intros _ t' [= <-]. split; [done|]. intros l f' [= <-]. by rewrite Ef.
Qed.

Lemma request_network_ok p cip have sub : (forall s, sub = Some s -> is_Some (subnet_table C !! s)) -> (forall n, shared_network p = Some n -> is_Some (shares C !! n)) -> is_bytes cip -> length cip = 4%nat ->
  exists a, request_network C p cip have sub = Ret a /\ forall a', a = Some a' -> a' = Silent \/ a' = Nak cip.
Proof.
  intros Hs Hn Hb Hl. unfold request_network. destruct (_ || _ || _); [|by exists None]. destruct (shared_network p) as [n|].
  - destruct (Hn n eq_refl) as [S ES]. destruct (grouped_ok n S cip ES Hb Hl) as (r & ->). rewrite bind_ret. destruct r; [by exists None|]. unfold get_share. rewrite ES, bind_ret. eexists. split; [done|]. intros a' [= <-]. destruct (share_authoritative S); tauto.
  - destruct sub as [s|]; [|exists (Some Silent); split; [done|]; intros a' [= <-]; by left]. destruct (Hs s eq_refl) as [t Et]. unfold get_subnet. rewrite Et, bind_ret. eexists. split; [done|]. intros a' [= <-]. destruct (subnet_authoritative t); tauto.
Qed.

Lemma request_ok w p ip : sane w -> packet_wf p -> packet_type p = DHCPREQUEST -> (forall n, shared_network p = Some n -> is_Some (shares C !! n)) -> hint_ok w p ip ->
  exists w' a p', dhcprequest W C w p ip = Ret (w', a) /\ goes w w' /\ told p' = told p /\ answer_safe p' w' a.
Proof.
  intros HS Hp Hty Hn Hin. unfold dhcprequest. pose proof Hp as [_ [[C1 C2] _] Ho _].
  assert (exists cip have, match options p !! DHO_DHCP_REQUESTED_ADDRESS with Some d => a ← memread d 0 4; Ret (a, true) | None => Ret (ciaddr p, false) end = Ret (cip, have) /\ is_bytes cip /\ length cip = 4%nat) as (cip & have & -> & Hcb & Hcl).
  { destruct (options p !! _) as [d|] eqn:Ed; [|by exists (ciaddr p), false]. destruct (Ho _ _ Ed) as [Hb Hl]. destruct (memread_four d 0 Hb) as (a & -> & Ha & La); [lia|specialize (Hl ltac:(by left)); lia|]. rewrite bind_ret. by exists a, true. }
  rewrite bind_ret. cbn zeta iota. destruct (find_subnet_ok cip Hcb Hcl) as (sub & -> & Hsub). rewrite bind_ret.
  destruct (hardware_read p Hp) as (h & Eh).
  assert (exists w1 p1 t o share cip0 p0, match sub with Some s => t ← get_subnet C s; r ← find_lease W C w p (network t) ip; Ret r | None => Ret (w, p, None, false) end = Ret (w1, p1, t, o) /\ goes w w1 /\ told p1 = told p /\ claimed_address p = Ret (p0, cip0) /\
    forall t', t = Some t' -> served p1 share (options p !! DHO_DHCP_CLIENT_IDENTIFIER) h cip0 w1 t') as (w1 & p1 & t & o & share & cip0 & p0 & -> & G1 & T & Ecl & Hserved).
  { destruct sub as [s|]; [|destruct (claimed_ok p Hp) as (p0 & cip0 & E & _); exists w, p, None, false, 1%positive, cip0, p0; split; [done|]; split; [by apply goes_refl|done]].
    destruct (Hsub s eq_refl) as (t & S & Et & ES). unfold get_subnet. rewrite Et, bind_ret. destruct (find_lease_ok w p (network t) S ip HS Hp ES Hin) as (w1 & p1 & t1 & o & h1 & cip0 & p0 & -> & Eh1 & Ecl & G1 & T & Hserved & _). rewrite Eh in Eh1. injection Eh1 as <-. rewrite bind_ret. by exists w1, p1, t1, o, (network t), cip0, p0. }
  rewrite bind_ret. cbn zeta iota. pose proof T as T'. unfold told in T'. injection T' as Ety _ _ _ _ Eci _ _ Eo _ Esn _.
  assert (exists sip, match options p1 !! DHO_DHCP_SERVER_IDENTIFIER with Some d => memread d 0 4 | None => Ret [] end = Ret sip) as (sip & ->).
  { rewrite Eo. destruct (options p !! DHO_DHCP_SERVER_IDENTIFIER) as [d|] eqn:Ed; [|by eexists]. destruct (Ho _ _ Ed) as [Hb Hl]. destruct (memread_four d 0 Hb) as (a & -> & _); [lia|specialize (Hl ltac:(by right)); lia|by eexists]. }
  rewrite bind_ret. destruct (request_failover_ok p1 share _ h cip0 w1 cip sip t (proj1 G1) ltac:(by rewrite Eo) ltac:(by rewrite (told_hardware p p1 T)) Hserved) as (a & -> & Ha & Hsafe). rewrite bind_ret.
  assert (forall a', a' = Silent \/ a' = Nak cip -> answer_safe p1 w1 a') as Hquiet by (by intros a' [->| ->]).
  destruct a as [a|]; [exists w1, a, p1; split; [done|]; split; [done|]; split; [done|]; by apply Hquiet, Ha|]. destruct (request_network_ok p1 cip have sub) as (a & -> & Ha'); [intros s Es; destruct (Hsub s Es) as (? & ? & E & _); by eexists|by rewrite Esn|done|done|]. rewrite bind_ret.
  destruct a as [a|]; [exists w1, a, p1; split; [done|]; split; [done|]; split; [done|]; by apply Hquiet, Ha'|]. eexists w1, _, p1. split; [done|]. split; [done|]. split; [done|]. destruct t as [t|]; [|by destruct o]. split; [exists share; by apply Hsafe|].
  assert (exists p2, claimed_address p1 = Ret (p2, cip0)) as (p2 & E2). { unfold claimed_address in Ecl |- *. rewrite Eci, Eo. destruct (negb _); [injection Ecl as _ <-; by eexists|]. destruct (options p !! DHO_DHCP_REQUESTED_ADDRESS); [|injection Ecl as _ <-; by eexists]. apply bind_Ret_inv in Ecl as (a & -> & [= _ <-]). rewrite bind_ret. by eexists. }
  exists p2. rewrite E2. do 2 f_equal. specialize (Hserved t eq_refl). destruct t as [x|f]; cbn in Hserved |- *; [destruct Hserved as (_ & _ & Hl); destruct (Hl ltac:(congruence)) as (l & -> & ->); done|destruct Hserved as [_ Hl]; apply Hl; congruence].
Qed.

Lemma address_loop_ok a key fuel : forall w x R, sane w -> rest_of_list by_uid key w x R -> (length R <= fuel)%nat -> exists r, address_loop fuel w a x = Ret r /\ forall y, r = Some y -> y ∈ D.
Proof.
  induction fuel as [|fuel IH]; intros w [x|] R HS HR Hf; cbn [address_loop]; try (by exists None); destruct (rest_cons _ _ _ _ _ HR) as (R' & l & -> & Hx & El & _ & HR'); [cbn in Hf; lia|].
  rewrite (get_in _ _ _ El), bind_ret. pose proof HS as [_ HP]. destruct (pl_lease _ _ _ HP x l Hx El) as (_ & _ & Hl). rewrite memread_in by (unfold Zlen; lia). rewrite bind_ret. case_bool_decide; [exists (Some x); split; [done|]; by intros y [= <-]|]. apply (IH w _ R'); [done|exact HR'|cbn in Hf; lia].
Qed.

Lemma release_handled w p : sane w -> packet_wf p -> exists w', dhcprelease W w p = Ret w' /\ goes w w'.
Proof.
  intros HS Hp. unfold dhcprelease.
  assert (exists x, match options p !! DHO_DHCP_CLIENT_IDENTIFIER with Some id => address_loop (size (leases w)) w (ciaddr p) (find_lease_by_uid w id) | None => Ret None end = Ret x /\ forall y, x = Some y -> y ∈ D) as (x & -> & Hx).
  { destruct (options p !! _) as [id|]; [|by exists None]. destruct (list_found by_uid id w HS) as (R & HR & Hl). by apply (address_loop_ok (ciaddr p) id _ w _ R). }
  rewrite bind_ret. pose proof HS as [HD HP]. assert (forall y, match x with Some x => Some x | None => find_lease_by_ip_addr w (ciaddr p) end = Some y -> y ∈ D) as Hy by (intros y Ey; destruct x; [by apply Hx|by eapply (pl_address _ _ _ HP)]).
  destruct (match x with Some x => Some x | None => _ end) as [y|]; [|exists w; split; [done|by apply goes_refl]]. specialize (Hy y eq_refl). destruct (db_lease w y HD Hy) as (l & q & P & qq & El & _). rewrite (get_in _ _ _ El), bind_ret. destruct (hardware_read p Hp) as (h & ->). rewrite bind_ret. destruct (_ || _); [exists w; split; [done|by apply goes_refl]|by apply release_if_ok].
Qed.

Lemma decline_handled w p : sane w -> packet_wf p -> exists w', dhcpdecline W C w p = Ret w' /\ sane w' /\ logged w w'.
Proof.
  intros HS Hp. assert (exists w', Ret w = Ret w' /\ sane w' /\ logged w w') as Hsame by (exists w; split; [done|]; split; [done|apply logged_refl]). unfold dhcpdecline. pose proof HS as [HD HP]. pose proof Hp as [_ _ Ho _]. destruct (options p !! _) as [d|] eqn:Ed; [|exact Hsame]. destruct (Ho _ _ Ed) as [Hb Hl]. destruct (memread_four d 0 Hb) as (a & -> & _); [lia|specialize (Hl ltac:(by left)); lia|]. rewrite bind_ret.
  destruct (find_lease_by_ip_addr w a) as [x|] eqn:Ex; [|exact Hsame]. destruct (pl_address _ _ _ HP a x Ex) as (Hx & l & El & _). rewrite (get_in _ _ _ El), bind_ret. destruct (network_ok w x l HP Hx El) as (n & ->). rewrite bind_ret. destruct (_ && _); [|exact Hsame].
  destruct (abandon_lease_ok4 W D w x HD Hx) as (w' & E & HD' & L). exists w'. split; [done|]. split; [split; [done|]|done]. eapply placed_homed; [exact HP|by apply (homed_abandon W w x)].
Qed.

(** A packet that has been received; the network of its interface is configured. *)
Definition arrived (p : packet_t) : Prop := shared_network p = None /\ forall n, interface_network p = Some n -> is_Some (shares C !! n).

(** What the client and the relay agent have sent. *)
Definition sent (p : packet_t) := (packet_type p, (htype p, hlen p, chaddr p), ciaddr p, giaddr p, options p).

Lemma told_sent p p' : told p' = told p -> sent p' = sent p /\ shared_network p' = shared_network p.
Proof. unfold told, sent. intros E. injection E as -> _ -> -> -> -> -> _ -> _ -> _. done. Qed.

Lemma locate_ok p : packet_wf p -> arrived p -> exists p' b, locate_network C p = Ret (p', b) /\ sent p' = sent p /\ packet_wf p' /\ (b = true -> shared_network p' <> None) /\ forall n, shared_network p' = Some n -> is_Some (shares C !! n).
Proof.
  intros Hp [Hnone Hif]. unfold locate_network. rewrite Hnone. cbn [reference].
  assert (exists p' b, Ret (p, false) = Ret (p', b) /\ sent p' = sent p /\ packet_wf p' /\ (b = true -> shared_network p' <> None) /\ forall n, shared_network p' = Some n -> is_Some (shares C !! n)) as Hno by (exists p, false; split; [done|]; split; [done|]; split; [done|]; split; [done|]; by rewrite Hnone).
  assert (forall n, is_Some (shares C !! n) -> exists p' b, Ret (set_network (Some n) p, true) = Ret (p', b) /\ sent p' = sent p /\ packet_wf p' /\ (b = true -> shared_network p' <> None) /\ forall n, shared_network p' = Some n -> is_Some (shares C !! n)) as Hset.
  { intros n Hn. exists (set_network (Some n) p), true. split; [done|]. split; [done|]. split; [by destruct Hp; split|]. split; [done|]. by intros n' [= <-]. }
  pose proof Hp as [_ [_ [G1 G2]] Ho Hl].
  assert (forall a, is_bytes a -> length a = 4%nat -> exists p' b, (s ← find_subnet C a; match s with Some s => t ← get_subnet C s; Ret (set_network (Some (network t)) p, true) | None => Ret (p, false) end) = Ret (p', b) /\ sent p' = sent p /\ packet_wf p' /\ (b = true -> shared_network p' <> None) /\ forall n, shared_network p' = Some n -> is_Some (shares C !! n)) as Hfind.
  { intros a Ha La. destruct (find_subnet_ok a Ha La) as (r & -> & Hr). rewrite bind_ret. destruct r as [s|]; [|exact Hno]. destruct (Hr s eq_refl) as (t & S & Et & ES). unfold get_subnet. rewrite Et, bind_ret. apply Hset. by exists S. }
  destruct (match link_select p with Some d => Some d | None => _ end) as [d|] eqn:Ed.
  - assert (is_bytes d) as Hd by (destruct (link_select p) as [d'|] eqn:El; [injection Ed as ->; by apply Hl|by apply (Ho _ _ Ed)]). case_bool_decide as H4; cbn [negb]; [by apply Hfind|exact Hno].
  - destruct (unset_address (giaddr p)); [|by apply Hfind]. destruct (interface_network p) as [n|] eqn:En; [apply Hset; by apply Hif|exact Hno].
Qed.

Lemma stash_ok w p : sane w -> packet_wf p -> exists p' ip, stash_agent_options W w p = Ret (p', ip) /\ told p' = told p /\ hint_ok w p' ip.
Proof.
  intros HS Hp. unfold stash_agent_options. destruct (_ && _ && _ && _) eqn:E; [|by exists p, None]. apply andb_true_iff in E as [E _]. apply andb_true_iff in E as [E _]. apply andb_true_iff in E as [_ E]. apply negb_true_iff in E.
  destruct (find_lease_by_ip_addr w (ciaddr p)) as [x|] eqn:Ex; [|by exists p, None]. pose proof HS as [HD HP]. destruct (pl_address _ _ _ HP _ x Ex) as (Hx & l & El & _). rewrite (get_in _ _ _ El), bind_ret.
  assert (exists p' ip, Ret (p, Some x) = Ret (p', ip) /\ told p' = told p /\ hint_ok w p' ip) as H1 by (exists p, (Some x); split; [done|]; split; [done|]; by intros y [= <-]).
  assert (exists p' ip, Ret (set_agent (agent_options l) p, Some x) = Ret (p', ip) /\ told p' = told p /\ hint_ok w p' ip) as H2 by (eexists _, (Some x); split; [done|]; split; [done|]; by intros y [= <-]).
  destruct (_ || _); [exact H1|]. destruct (negb _); [destruct (other_uid _ _); [exact H1|exact H2]|]. destruct (hardware_read p Hp) as (h & ->). rewrite bind_ret. destruct (bool_decide _); [exact H1|exact H2].
Qed.


(** C9: When the server needs a lease for a client it takes one of those that the permitted
    pools of the network offer, each pool the first lease of a queue ([candidate]), and no
    other of these is better: leases that no client has had (without identifier and hardware
    address) come before those that one has had, those before abandoned ones, and among
    equals the one that ended first. When a permitted pool without a failover peer has a
    free lease that has ended, a lease is found, and not an abandoned one. *)
Theorem allocate_lease_best w p share S has : sane w -> shares C !! share = Some S ->
  exists w' r has', allocate_lease W C w p (pools_of S) has = Ret (w', r, has') /\ goes w w' /\
    (forall x, r = Some x -> exists q l, q ∈ pools_of S /\ leases w !! x = Some l /\ offers p w q x l /\ forall q' y ly, q' ∈ pools_of S -> offers p w q' y ly -> no_worse l ly) /\
    (forall q P m y ly, q ∈ pools_of S -> pools w !! q = Some P -> permits C !! q = Some m -> denied (cur_time W) p m = false -> failover_peer P = None ->
       y ∈ D -> leases w !! y = Some ly -> pool ly = Some q -> queue_of ly = Some free -> ends ly <= cur_time W -> exists x l, r = Some x /\ leases w !! x = Some l /\ binding_state l <> FTS_ABANDONED).
Proof.
  intros HS ES. pose proof HS as [HD HP]. destruct (allocate_ok p w share S has HS ES) as (w' & r & has' & E & G & Hr & Hnone). exists w', r, has'. split; [done|]. split; [done|].
  assert (forall x, r = Some x -> exists q l, q ∈ pools_of S /\ leases w !! x = Some l /\ offers p w q x l /\ forall q' y ly, q' ∈ pools_of S -> offers p w q' y ly -> no_worse l ly) as Hbest.
  { intros x Ex. destruct (Hr x Ex) as (q & l & Hq & Ho & _ & _ & Hb). exists q, l. destruct (offers_ok p w q x l HD Ho) as (_ & El & _). split_and!; [done..|]. intros q' y ly Hq' Hy. by eapply preferred_grade, Hb. }
  split; [done|]. intros q P m y ly Hq EP Em Ed Ef Hy Ely Ep Eq He. destruct (free_offered p w q P m y ly HD EP Em Ed Ef Hy Ely Ep Eq He) as (z & lz & Hz & Hna). destruct r as [x|]; [|by destruct (Hnone q z lz Hq Hz)]. destruct (Hbest x eq_refl) as (q' & l & _ & El & _ & Hb). exists x, l. split; [done|]. split; [done|]. intros Ea. specialize (Hb q z lz Hq Hz). unfold no_worse, grade in Hb. rewrite (decide_True _ _ Ea), (decide_False _ _ Hna) in Hb. destruct (decide (uid_len lz = 0 /\ hardware_addr lz = [])); lia.
Qed.


End Handlers.

(** ** A network with two leases *)

Definition address (n : Z) : list Z := [10; 0; 0; n].

Definition lease_at (n : Z) (b nx : binding_state_t) (u : option (list Z)) (t : Z) : lease :=
  Lease None None None (address n) 0 t 0 None None None (Some 1%positive) (Some 1%positive) None None no_statements (option_map (pair true) u) [] 0 b nx (FTS_other 0) FTS_FREE 0 0 0 0 None.

Definition small_net : config :=
  let a l := Inet.Iaddr 4 (l ++ replicate 12 0) in
  Config [1%positive] {[1%positive := Subnet (a [10; 0; 0; 0]) (a [255; 255; 255; 0]) 1%positive true]} {[1%positive := Share [1%positive] [1%positive] true]}
    {[1%positive := Permits [] []]} ∅ ∅ ∅ (fun _ => None) (fun _ => (None, 0)) false false (fun _ => address 254) (fun _ _ => true) (fun _ => []).

(** The leases of the file, on their lists and in the table of addresses. *)
Definition small_db (l : list (positive * lease)) : db := with_ip_hash (running l) (list_to_map (map (fun e => (ip_addr e.2, [e.1])) l)).

(** A packet of a client with the identifier [id]. *)
Definition packet_of (type : Z) (id : list Z) (requested : option (list Z)) : packet_t :=
  Packet type true 1 6 ([0; 1; 2; 3; 4; 5] ++ replicate 10 0) [0; 0; 0; 0] [0; 0; 0; 0] 0
    (match requested with Some a => {[DHO_DHCP_CLIENT_IDENTIFIER := id; DHO_DHCP_REQUESTED_ADDRESS := a]} | None => {[DHO_DHCP_CLIENT_IDENTIFIER := id]} end)
    None None false (Some 1%positive) None [] false false false.

(** A client that has a lease is offered it again; another one gets the free lease. *)
Definition two_addresses : list (positive * lease) := [(1%positive, lease_at 1 FTS_ACTIVE FTS_FREE (Some [1]) 100); (2%positive, lease_at 2 FTS_FREE FTS_FREE None 0)].

Definition answer_to (t : Z) (l : list (positive * lease)) (p : packet_t) : outcome answer_t := r ← dhcp (world_at t) small_net (small_db l) p; Ret r.2.

Example own_lease_offered : answer_to 50 two_addresses (packet_of DHCPDISCOVER [1] None) = Ret (Offer (Dynamic 1) 170).
Proof. by vm_compute. Qed.

Example free_lease_offered : answer_to 50 two_addresses (packet_of DHCPDISCOVER [2] None) = Ret (Offer (Dynamic 2) 170).
Proof. by vm_compute. Qed.

Example lease_in_use_refused : answer_to 50 two_addresses (packet_of DHCPREQUEST [2] (Some (address 1))) = Ret (Nak (address 1)) /\ answer_to 50 two_addresses (packet_of DHCPREQUEST [1] (Some (address 1))) = Ret (Ack (Dynamic 1)).
Proof. by vm_compute. Qed.

(** An abandoned lease has no client, so [find_lease] drops it, although its comment says
    that it is reclaimed for the client that asks for it. *)
Example abandoned_not_reclaimed : answer_to 50 [(1%positive, lease_at 1 FTS_ABANDONED FTS_FREE None 100)] (packet_of DHCPREQUEST [2] (Some (address 1))) = Ret Silent.
Proof. by vm_compute. Qed.

Lemma small_net_ok : config_ok small_net.
Proof.
  split; cbn.
  - intros s t E. apply lookup_singleton_Some in E as [_ <-]. split; [|by eexists]. split_and!; try done; by apply (bool_decide_unpack _); vm_compute.
  - intros s Hs. apply list_elem_of_singleton in Hs as ->. by eexists.
  - intros n S E. apply lookup_singleton_Some in E as [<- <-]. split; cbn; intros q Hq; apply list_elem_of_singleton in Hq as ->; by eexists.
  - intros id h E. by rewrite lookup_empty in E.
  - intros a h E. by rewrite lookup_empty in E.
  - done.
  - done.
Qed.

Lemma packet_of_wf type id req : is_bytes id -> (forall a, req = Some a -> is_bytes a /\ 4 <= Zlen a) -> packet_wf (packet_of type id req) /\ arrived small_net (packet_of type id req).
Proof.
  intros Hid Hreq. split; [|split; [done|]; cbn; intros n [= <-]; by eexists]. split; cbn; try done.
  - split_and!; [by apply (bool_decide_unpack _); vm_compute|done..].
  - split_and!; try done; by apply (bool_decide_unpack _); vm_compute.
  - intros c d E. destruct req as [a|]; [|apply lookup_singleton_Some in E as [<- <-]; split; [done|]; by intros [|]]. destruct (Hreq a eq_refl) as [Ha Hl].
    destruct (decide (c = DHO_DHCP_CLIENT_IDENTIFIER)) as [->|Hc]; [rewrite lookup_insert_eq in E; injection E as <-; split; [done|]; by intros [|]|]. rewrite lookup_insert_ne in E by done. apply lookup_singleton_Some in E as [<- <-]. done.
Qed.

Lemma two_addresses_sane : sane small_net {[1%positive; 2%positive]} (small_db two_addresses).
Proof.
  assert (home <$> leases (small_db two_addresses) = {[1%positive := (address 1, Some 1%positive, Some 1%positive); 2%positive := (address 2, Some 1%positive, Some 1%positive)]}) as Eh by (by vm_compute).
  assert (forall x l, leases (small_db two_addresses) !! x = Some l -> subnet l = Some 1%positive /\ pool l = Some 1%positive /\ length (ip_addr l) = 4%nat) as Hl.
  { intros x l El. apply (f_equal (fun m => m !! x)) in Eh. rewrite lookup_fmap, El in Eh. cbn in Eh. symmetry in Eh. destruct (decide (x = 1%positive)) as [->|H1]; [rewrite lookup_insert_eq in Eh; injection Eh as <- <- <-; done|]. rewrite lookup_insert_ne in Eh by done. apply lookup_singleton_Some in Eh as [_ Eh]. by injection Eh as <- <- <-. }
  split.
  - assert (db_ok (list_to_set (map fst two_addresses)) (running two_addresses)) as HD. { apply running_ok; [by apply (bool_decide_unpack _); vm_compute|]. repeat constructor; cbn; try done; try (by exists 1%positive; split; [done|exists pool0]); by intros b u [= _ <-]. }
    assert (list_to_set (map fst two_addresses) = ({[1%positive; 2%positive]} : gset positive)) as E by (vm_compute; done). rewrite E in HD. destruct HD as [H1 H2 H3 (Q & U & H & [P1 P2 P3 P4 P5])]. split; [done|exact H2|exact H3|]. exists Q, U, H.
    split; [by apply (queues_ok_view _ (running two_addresses))|by apply (clients_ok_view by_uid _ (running two_addresses))|by apply (clients_ok_view by_hw _ (running two_addresses))|by apply (bills_ok_view _ (running two_addresses))|exact P5].
  - split.
    + intros x l _ El. destruct (Hl x l El) as (-> & -> & ?). split; [by eexists _, _|]. split; [by eexists _; split; [|eexists]|done].
    + intros x l s t q n S _ El Es Et Ep ES Hq. cbn in Et, ES. apply lookup_singleton_Some in Et as [_ <-]. apply lookup_singleton_Some in ES as [<- _]. done.
    + intros n S q ES Hq. cbn in ES. apply lookup_singleton_Some in ES as [_ <-]. cbn in Hq. apply list_elem_of_singleton in Hq as ->. by eexists; vm_compute.
    + intros a x E. unfold find_lease_by_ip_addr, hash_lookup in E. change (ip_hash (small_db two_addresses)) with (<[address 1 := [1%positive]]> (<[address 2 := [2%positive]]> (∅ : gmap (list Z) (list positive)))) in E.
      destruct (decide (a = address 1)) as [->|H1]; [rewrite lookup_insert_eq in E; injection E as <-; split; [set_solver|]|rewrite lookup_insert_ne in E by done; destruct (decide (a = address 2)) as [->|H2]; [rewrite lookup_insert_eq in E; injection E as <-; split; [set_solver|]|by rewrite lookup_insert_ne, lookup_empty in E]].
      * apply (f_equal (fun m => m !! 1%positive)) in Eh. rewrite lookup_fmap in Eh. destruct (leases (small_db two_addresses) !! 1%positive) as [l|]; [|done]. exists l. split; [done|]. cbn in Eh. by injection Eh.
      * apply (f_equal (fun m => m !! 2%positive)) in Eh. rewrite lookup_fmap in Eh. destruct (leases (small_db two_addresses) !! 2%positive) as [l|]; [|done]. exists l. split; [done|]. cbn in Eh. by injection Eh.
Qed.


Lemma allocate_lease_best_witness : exists w' r has', allocate_lease (world_at 50) small_net (small_db two_addresses) (packet_of DHCPDISCOVER [2] None) [1%positive] false = Ret (w', r, has') /\ exists x l, r = Some x /\ leases (small_db two_addresses) !! x = Some l /\ binding_state l <> FTS_ABANDONED.
Proof.
  destruct (allocate_lease_best (world_at 50) small_net {[1%positive; 2%positive]} small_net_ok (small_db two_addresses) (packet_of DHCPDISCOVER [2] None) 1%positive (Share [1%positive] [1%positive] true) false two_addresses_sane) as (w' & r & has' & E & _ & _ & H); [reflexivity|].
  exists w', r, has'. split; [exact E|]. destruct (pools (small_db two_addresses) !! 1%positive) as [P|] eqn:EP; [|vm_compute in EP; discriminate EP]. destruct (leases (small_db two_addresses) !! 2%positive) as [l|] eqn:El; [|vm_compute in El; discriminate El].
  apply (H 1%positive P (Permits [] []) 2%positive l); [by left|done|done|done| | |done| | |].
  - apply (f_equal (option_map failover_peer)) in EP. vm_compute in EP. by injection EP.
  - set_solver.
  - apply (f_equal (option_map pool)) in El. vm_compute in El. by injection El.
  - apply (f_equal (option_map queue_of)) in El. vm_compute in El. by injection El.
  - assert (ends l = 0) as -> by (apply (f_equal (option_map ends)) in El; vm_compute in El; by injection El). cbn. lia.
Defined.

(** Four octets are copied from an option with an address, whatever its length. *)
Lemma short_address_option : dhcp (world_at 50) small_net (small_db two_addresses) (packet_of DHCPREQUEST [1] (Some [10; 0])) = Undef.
Proof. vm_compute. reflexivity. Qed.

End DhcpSafe.
