(* ===== verification/DhcToken.v ===== *)
(** * The tokens of the configuration language (includes/dhctoken.h, common/conflex.c)

    The numbers of the tokens, and [intern], which tells the keywords from the names.
    The nested comparisons of [intern] are a tree: a [Word] is a call of [strcasecmp]
    with the rest of the atom, a [Group] one of [strncasecmp], or a comparison of one
    character, with the comparisons inside of it; when none of them matches,
    a [Group] leaves the [switch] or, where the code has no [break], goes on behind it. *)

From Stdlib Require Import ZArith Lia String Ascii.
From stdpp Require Import base list numbers option.
From S2P Require Import Prelude.
#[local] Open Scope Z_scope.

Module DhcToken.

Definition SEMI : Z := 59.
Definition DOT : Z := 46.
Definition COLON : Z := 58.
Definition COMMA : Z := 44.
Definition SLASH : Z := 47.
Definition LBRACE : Z := 123.
Definition RBRACE : Z := 125.
Definition LPAREN : Z := 40.
Definition RPAREN : Z := 41.
Definition EQUAL : Z := 61.
Definition TILDE : Z := 126.
Definition BANG : Z := 33.
Definition PERCENT : Z := 37.
Definition PLUS : Z := 43.
Definition MINUS : Z := 45.
Definition ASTERISK : Z := 42.
Definition AMPERSAND : Z := 38.
Definition PIPE : Z := 124.
Definition CARET : Z := 94.
Definition ENDOFLINE : Z := 10.
Definition QUESTIONMARK : Z := 63.
Definition HOST : Z := 256.
Definition FIRST_TOKEN : Z := 256.
Definition HARDWARE : Z := 257.
Definition FILENAME : Z := 258.
Definition FIXED_ADDR : Z := 259.
Definition OPTION : Z := 260.
Definition ETHERNET : Z := 261.
Definition STRING : Z := 262.
Definition NUMBER : Z := 263.
Definition NUMBER_OR_NAME : Z := 264.
Definition NAME : Z := 265.
Definition TIMESTAMP : Z := 266.
Definition STARTS : Z := 267.
Definition ENDS : Z := 268.
Definition UID : Z := 269.
Definition CLASS : Z := 270.
Definition LEASE : Z := 271.
Definition RANGE : Z := 272.
Definition PACKET : Z := 273.
Definition CIADDR : Z := 274.
Definition YIADDR : Z := 275.
Definition SIADDR : Z := 276.
Definition GIADDR : Z := 277.
Definition SUBNET : Z := 278.
Definition NETMASK : Z := 279.
Definition DEFAULT_LEASE_TIME : Z := 280.
Definition MAX_LEASE_TIME : Z := 281.
Definition VENDOR_CLASS : Z := 282.
Definition USER_CLASS : Z := 283.
Definition SHARED_NETWORK : Z := 284.
Definition SERVER_NAME : Z := 285.
Definition DYNAMIC_BOOTP : Z := 286.
Definition SERVER_IDENTIFIER : Z := 287.
Definition DYNAMIC_BOOTP_LEASE_CUTOFF : Z := 288.
Definition DYNAMIC_BOOTP_LEASE_LENGTH : Z := 289.
Definition BOOT_UNKNOWN_CLIENTS : Z := 290.
Definition NEXT_SERVER : Z := 291.
Definition TOKEN_RING : Z := 292.
Definition GROUP : Z := 293.
Definition ONE_LEASE_PER_CLIENT : Z := 294.
Definition GET_LEASE_HOSTNAMES : Z := 295.
Definition USE_HOST_DECL_NAMES : Z := 296.
Definition SEND : Z := 297.
Definition CLIENT_IDENTIFIER : Z := 298.
Definition REQUEST : Z := 299.
Definition REQUIRE : Z := 300.
Definition TIMEOUT : Z := 301.
Definition RETRY : Z := 302.
Definition SELECT_TIMEOUT : Z := 303.
Definition SCRIPT : Z := 304.
Definition INTERFACE : Z := 305.
Definition RENEW : Z := 306.
Definition REBIND : Z := 307.
Definition EXPIRE : Z := 308.
Definition UNKNOWN_CLIENTS : Z := 309.
Definition ALLOW : Z := 310.
Definition DENY : Z := 312.
Definition BOOTING : Z := 313.
Definition DEFAULT : Z := 314.
Definition MEDIA : Z := 315.
Definition MEDIUM : Z := 316.
Definition ALIAS : Z := 317.
Definition REBOOT : Z := 318.
Definition TOKEN_ABANDONED : Z := 319.
Definition BACKOFF_CUTOFF : Z := 320.
Definition INITIAL_INTERVAL : Z := 321.
Definition NAMESERVER : Z := 322.
Definition DOMAIN : Z := 323.
Definition SEARCH : Z := 324.
Definition SUPERSEDE : Z := 325.
Definition APPEND : Z := 326.
Definition PREPEND : Z := 327.
Definition HOSTNAME : Z := 328.
Definition CLIENT_HOSTNAME : Z := 329.
Definition REJECT : Z := 330.
Definition USE_LEASE_ADDR_FOR_DEFAULT_ROUTE : Z := 331.
Definition MIN_LEASE_TIME : Z := 332.
Definition MIN_SECS : Z := 333.
Definition AND : Z := 334.
Definition OR : Z := 335.
Definition SUBSTRING : Z := 337.
Definition SUFFIX : Z := 338.
Definition CHECK : Z := 339.
Definition EXTRACT_INT : Z := 340.
Definition IF : Z := 341.
Definition TOKEN_ADD : Z := 342.
Definition BREAK : Z := 343.
Definition ELSE : Z := 344.
Definition ELSIF : Z := 345.
Definition SUBCLASS : Z := 346.
Definition MATCH : Z := 347.
Definition SPAWN : Z := 348.
Definition WITH : Z := 349.
Definition EXISTS : Z := 350.
Definition POOL : Z := 351.
Definition UNKNOWN : Z := 352.
Definition CLIENTS : Z := 353.
Definition KNOWN : Z := 354.
Definition AUTHENTICATED : Z := 355.
Definition UNAUTHENTICATED : Z := 356.
Definition ALL : Z := 357.
Definition DYNAMIC : Z := 358.
Definition MEMBERS : Z := 359.
Definition OF : Z := 360.
Definition PSEUDO : Z := 361.
Definition LIMIT : Z := 362.
Definition BILLING : Z := 363.
Definition PEER : Z := 364.
Definition FAILOVER : Z := 365.
Definition MY : Z := 366.
Definition PARTNER : Z := 367.
Definition PRIMARY : Z := 368.
Definition SECONDARY : Z := 369.
Definition IDENTIFIER : Z := 370.
Definition PORT : Z := 371.
Definition MAX_TRANSMIT_IDLE : Z := 372.
Definition MAX_RESPONSE_DELAY : Z := 373.
Definition PARTNER_DOWN : Z := 374.
Definition NORMAL : Z := 375.
Definition COMMUNICATIONS_INTERRUPTED : Z := 376.
Definition POTENTIAL_CONFLICT : Z := 377.
Definition RECOVER : Z := 378.
Definition TOKEN_FDDI : Z := 379.
Definition AUTHORITATIVE : Z := 380.
Definition TOKEN_NOT : Z := 381.
Definition AUTHENTICATION : Z := 383.
Definition IGNORE : Z := 384.
Definition ACCEPT : Z := 385.
Definition PREFER : Z := 386.
Definition DONT : Z := 387.
Definition CODE : Z := 388.
Definition ARRAY : Z := 389.
Definition BOOLEAN : Z := 390.
Definition INTEGER : Z := 391.
Definition SIGNED : Z := 392.
Definition UNSIGNED : Z := 393.
Definition IP_ADDRESS : Z := 394.
Definition TEXT : Z := 395.
Definition STRING_TOKEN : Z := 396.
Definition SPACE : Z := 397.
Definition CONCAT : Z := 398.
Definition ENCODE_INT : Z := 399.
Definition REVERSE : Z := 402.
Definition LEASED_ADDRESS : Z := 403.
Definition BINARY_TO_ASCII : Z := 404.
Definition PICK : Z := 405.
Definition CONFIG_OPTION : Z := 406.
Definition HOST_DECL_NAME : Z := 407.
Definition ON : Z := 408.
Definition EXPIRY : Z := 409.
Definition RELEASE : Z := 410.
Definition COMMIT : Z := 411.
Definition DNS_UPDATE : Z := 412.
Definition LEASE_TIME : Z := 413.
Definition STATIC : Z := 414.
Definition NEVER : Z := 415.
Definition INFINITE : Z := 416.
Definition TOKEN_DELETED : Z := 417.
Definition UPDATED_DNS_RR : Z := 418.
Definition DNS_DELETE : Z := 419.
Definition DUPLICATES : Z := 420.
Definition DECLINES : Z := 421.
Definition TSTP : Z := 422.
Definition TSFP : Z := 423.
Definition OWNER : Z := 424.
Definition IS : Z := 425.
Definition HBA : Z := 426.
Definition MAX_UNACKED_UPDATES : Z := 427.
Definition MCLT : Z := 428.
Definition SPLIT : Z := 429.
Definition AT : Z := 430.
Definition TOKEN_NO : Z := 431.
Definition TOKEN_DELETE : Z := 432.
Definition NS_UPDATE : Z := 433.
Definition UPDATE : Z := 434.
Definition SWITCH : Z := 435.
Definition CASE : Z := 436.
Definition NS_FORMERR : Z := 437.
Definition NS_NOERROR : Z := 438.
Definition NS_NOTAUTH : Z := 439.
Definition NS_NOTIMP : Z := 440.
Definition NS_NOTZONE : Z := 441.
Definition NS_NXDOMAIN : Z := 442.
Definition NS_NXRRSET : Z := 443.
Definition NS_REFUSED : Z := 444.
Definition NS_SERVFAIL : Z := 445.
Definition NS_YXDOMAIN : Z := 446.
Definition NS_YXRRSET : Z := 447.
Definition TOKEN_NULL : Z := 448.
Definition TOKEN_SET : Z := 449.
Definition DEFINED : Z := 450.
Definition UNSET : Z := 451.
Definition EVAL : Z := 452.
Definition LET : Z := 453.
Definition FUNCTION : Z := 454.
Definition DEFINE : Z := 455.
Definition ZONE : Z := 456.
Definition KEY : Z := 457.
Definition SECRET : Z := 458.
Definition ALGORITHM : Z := 459.
Definition LOAD : Z := 460.
Definition BALANCE : Z := 461.
Definition TOKEN_MAX : Z := 462.
Definition SECONDS : Z := 463.
Definition ADDRESS : Z := 464.
Definition RESOLUTION_INTERRUPTED : Z := 465.
Definition STATE : Z := 466.
Definition UNKNOWN_STATE : Z := 567.
Definition CLTT : Z := 568.
Definition INCLUDE : Z := 569.
Definition BINDING : Z := 570.
Definition TOKEN_FREE : Z := 571.
Definition TOKEN_ACTIVE : Z := 572.
Definition TOKEN_EXPIRED : Z := 573.
Definition TOKEN_RELEASED : Z := 574.
Definition TOKEN_RESET : Z := 575.
Definition TOKEN_BACKUP : Z := 576.
Definition TOKEN_RESERVED : Z := 577.
Definition TOKEN_BOOTP : Z := 578.
Definition TOKEN_NEXT : Z := 579.
Definition OMAPI : Z := 580.
Definition LOG : Z := 581.
Definition FATAL : Z := 582.
Definition ERROR : Z := 583.
Definition TOKEN_DEBUG : Z := 584.
Definition INFO : Z := 585.
Definition RETURN : Z := 586.
Definition PAUSED : Z := 587.
Definition RECOVER_DONE : Z := 588.
Definition SHUTDOWN : Z := 589.
Definition STARTUP : Z := 590.
Definition ENCAPSULATE : Z := 591.
Definition VENDOR : Z := 592.
Definition CLIENT_STATE : Z := 593.
Definition INIT_REBOOT : Z := 594.
Definition TOKEN_INIT : Z := 595.
Definition SELECT : Z := 596.
Definition BOUND : Z := 597.
Definition RENEWING : Z := 598.
Definition REBINDING : Z := 599.
Definition RECONTACT_INTERVAL : Z := 600.
Definition CLIENT_UPDATES : Z := 601.
Definition TOKEN_NEW : Z := 601.
Definition TRANSMISSION : Z := 602.
Definition TOKEN_CLOSE : Z := 603.
Definition TOKEN_CREATE : Z := 604.
Definition TOKEN_OPEN : Z := 605.
Definition TOKEN_HELP : Z := 606.
Definition END_OF_FILE : Z := 607.
Definition RECOVER_WAIT : Z := 608.
Definition TOKEN_SERVER : Z := 609.
Definition CONNECT : Z := 610.
Definition REMOVE : Z := 611.
Definition REFRESH : Z := 612.
Definition DOMAIN_NAME : Z := 613.
Definition DO_FORWARD_UPDATE : Z := 614.
Definition KNOWN_CLIENTS : Z := 615.
Definition ATSFP : Z := 616.
Definition LCASE : Z := 617.
Definition UCASE : Z := 618.
Definition WIDTH : Z := 619.
Definition LENGTH : Z := 620.
Definition HASH : Z := 621.
Definition SIZE : Z := 622.
Definition EPOCH : Z := 623.
Definition DB_TIME_FORMAT : Z := 624.
Definition LOCAL : Z := 625.
Definition MAX_LEASE_MISBALANCE : Z := 626.
Definition MAX_LEASE_OWNERSHIP : Z := 627.
Definition MAX_BALANCE : Z := 628.
Definition MIN_BALANCE : Z := 629.
Definition DOMAIN_LIST : Z := 630.
Definition LEASEQUERY : Z := 631.
Definition EXECUTE : Z := 632.
Definition IP6_ADDRESS : Z := 633.
Definition FIXED_ADDR6 : Z := 634.
Definition COMPRESSED : Z := 635.
Definition SUBNET6 : Z := 636.
Definition HOST_IDENTIFIER : Z := 637.
Definition IA_NA : Z := 638.
Definition IA_TA : Z := 639.
Definition IA_PD : Z := 640.
Definition IAADDR : Z := 641.
Definition IAPREFIX : Z := 642.
Definition LEASE6 : Z := 643.
Definition PREFERRED_LIFE : Z := 644.
Definition MAX_LIFE : Z := 645.
Definition DEFAULT_DUID : Z := 646.
Definition SERVER_DUID : Z := 647.
Definition LLT : Z := 648.
Definition EN : Z := 649.
Definition LL : Z := 650.
Definition RANGE6 : Z := 651.
Definition WHITESPACE : Z := 652.
Definition TOKEN_ALSO : Z := 653.
Definition AFTER : Z := 654.
Definition ZEROLEN : Z := 655.
Definition TEMPORARY : Z := 656.
Definition PREFIX6 : Z := 657.
Definition FIXED_PREFIX6 : Z := 658.
Definition ANYCAST_MAC : Z := 659.
Definition CONFLICT_DONE : Z := 660.
Definition AUTO_PARTNER_DOWN : Z := 661.
Definition GETHOSTNAME : Z := 662.
Definition REWIND : Z := 663.
Definition INITIAL_DELAY : Z := 664.
Definition GETHOSTBYNAME : Z := 665.
Definition PRIMARY6 : Z := 666.
Definition SECONDARY6 : Z := 667.
Definition TOKEN_INFINIBAND : Z := 668.
Definition POOL6 : Z := 669.
Definition V6RELAY : Z := 670.
Definition V6RELOPT : Z := 671.
Definition PARSE_VENDOR_OPT : Z := 672.
Definition AUTHORING_BYTE_ORDER : Z := 673.
Definition TOKEN_LITTLE_ENDIAN : Z := 674.
Definition TOKEN_BIG_ENDIAN : Z := 675.
Definition LEASE_ID_FORMAT : Z := 676.
Definition TOKEN_HEX : Z := 677.
Definition TOKEN_OCTAL : Z := 678.

Definition is_identifier (x : Z) : bool :=
  (FIRST_TOKEN <=? x) && negb (x =? STRING) && negb (x =? NUMBER) && negb (x =? END_OF_FILE).

(** ** Keywords *)

Definition chars (s : string) : list Z := List.map (fun c => Z.of_N (N_of_ascii c)) (list_ascii_of_string s).

Definition isascii (c : Z) : bool := (0 <=? c) && (c <=? 127).
Definition tolower (c : Z) : Z := if (65 <=? c) && (c <=? 90) then c + 32 else c.

(** Whether the strings are equal but for case. *)
Definition strcasecmp (a b : list Z) : bool := bool_decide (List.map tolower a = List.map tolower b).

(** Whether the first string starts with the second. *)
Definition strncasecmp (a b : list Z) : bool := strcasecmp (take (length b) a) b.

Inductive keyword : Type :=
| Word (s : string) (t : Z)
| Group (s : string) (final : bool) (l : list keyword).

Inductive verdict : Type := Return (t : Z) | Break | Next.

Fixpoint attempt (k : keyword) (a : list Z) : verdict :=
  match k with
  | Word s t => if strcasecmp a (chars s) then Return t else Next
  | Group s final l =>
    if strncasecmp a (chars s) then
      match
        (fix first (l : list keyword) : verdict :=
           match l with
           | [] => Next
           | k :: l => match attempt k (drop (length (chars s)) a) with Next => first l | v => v end
           end) l
      with
      | Next => if final then Break else Next
      | v => v
      end
    else Next
  end.

Fixpoint attempts (l : list keyword) (a : list Z) : verdict :=
  match l with
  | [] => Next
  | k :: l => match attempt k a with Next => attempts l a | v => v end
  end.

Definition case_minus : keyword := Group "-" true [
  Word "" MINUS].

Definition case_a : keyword := Group "a" true [
  Word "bandoned" TOKEN_ABANDONED; Word "ctive" TOKEN_ACTIVE;
  Group "dd" true [
    Word "" TOKEN_ADD; Word "ress" ADDRESS];
  Word "fter" AFTER;
  Group "l" true [
    Word "gorithm" ALGORITHM; Word "ias" ALIAS;
    Group "l" true [
      Word "" ALL; Word "ow" ALLOW];
    Word "so" TOKEN_ALSO];
  Group "n" true [
    Word "d" AND; Word "ycast-mac" ANYCAST_MAC];
  Word "ppend" APPEND; Word "rray" ARRAY;
  Group "t" true [
    Word "" AT; Word "sfp" ATSFP];
  Word "uthoring-byte-order" AUTHORING_BYTE_ORDER;
  Group "ut" true [
    Group "h" true [
      Group "enticat" true [
        Word "ed" AUTHENTICATED; Word "ion" AUTHENTICATION];
      Word "oritative" AUTHORITATIVE];
    Word "o-partner-down" AUTO_PARTNER_DOWN]].

Definition case_b : keyword := Group "b" true [
  Word "ackup" TOKEN_BACKUP; Word "ootp" TOKEN_BOOTP; Word "inding" BINDING;
  Word "inary-to-ascii" BINARY_TO_ASCII; Word "ackoff-cutoff" BACKOFF_CUTOFF; Word "ooting" BOOTING;
  Word "oot-unknown-clients" BOOT_UNKNOWN_CLIENTS; Word "reak" BREAK; Word "illing" BILLING;
  Word "oolean" BOOLEAN; Word "alance" BALANCE; Word "ound" BOUND; Word "ig-endian" TOKEN_BIG_ENDIAN].

Definition case_c : keyword := Group "c" true [
  Word "ase" CASE; Word "heck" CHECK; Word "iaddr" CIADDR;
  Group "l" true [
    Word "ass" CLASS;
    Group "ient" true [
      Word "s" CLIENTS;
      Group "-" true [
        Word "hostname" CLIENT_HOSTNAME; Word "identifier" CLIENT_IDENTIFIER; Word "state" CLIENT_STATE;
        Word "updates" CLIENT_UPDATES]];
    Word "ose" TOKEN_CLOSE; Word "tt" CLTT];
  Group "o" true [
    Word "de" CODE;
    Group "m" true [
      Word "mit" COMMIT; Word "munications-interrupted" COMMUNICATIONS_INTERRUPTED; Word "pressed" COMPRESSED];
    Group "n" true [
      Word "cat" CONCAT; Word "fig-option" CONFIG_OPTION; Word "flict-done" CONFLICT_DONE; Word "nect" CONNECT]];
  Word "reate" TOKEN_CREATE].

Definition case_d : keyword := Group "d" true [
  Word "b-time-format" DB_TIME_FORMAT; Word "omain" DOMAIN;
  Group "omain-" false [
    Word "name" DOMAIN_NAME; Word "list" DOMAIN_LIST];
  Word "o-forward-updates" DO_FORWARD_UPDATE; Word "o-forward-update" DO_FORWARD_UPDATE;
  Word "ebug" TOKEN_DEBUG; Word "eny" DENY; Word "eleted" TOKEN_DELETED; Word "elete" TOKEN_DELETE;
  Group "efault" true [
    Word "" DEFAULT; Word "-duid" DEFAULT_DUID; Word "-lease-time" DEFAULT_LEASE_TIME];
  Group "ynamic" false [
    Word "" DYNAMIC;
    Group "-bootp" true [
      Word "" DYNAMIC_BOOTP; Word "-lease-cutoff" DYNAMIC_BOOTP_LEASE_CUTOFF;
      Word "-lease-length" DYNAMIC_BOOTP_LEASE_LENGTH]];
  Word "uplicates" DUPLICATES; Word "eclines" DECLINES;
  Group "efine" false [
    Word "d" DEFINED; Word "" DEFINE]].

Definition case_e : keyword := Group "e" true [
  Group "x" false [
    Word "tract-int" EXTRACT_INT; Word "ists" EXISTS; Word "piry" EXPIRY; Word "pire" EXPIRE;
    Word "pired" TOKEN_EXPIRED];
  Word "ncode-int" ENCODE_INT; Word "poch" EPOCH; Word "thernet" ETHERNET; Word "nds" ENDS;
  Group "ls" true [
    Word "e" ELSE; Word "if" ELSIF];
  Word "rror" ERROR; Word "val" EVAL; Word "ncapsulate" ENCAPSULATE; Word "xecute" EXECUTE; Word "n" EN].

Definition case_f : keyword := Group "f" true [
  Word "atal" FATAL; Word "ilename" FILENAME; Word "ixed-address" FIXED_ADDR; Word "ixed-address6" FIXED_ADDR6;
  Word "ixed-prefix6" FIXED_PREFIX6; Word "ddi" TOKEN_FDDI; Word "ormerr" NS_FORMERR; Word "unction" FUNCTION;
  Word "ailover" FAILOVER; Word "ree" TOKEN_FREE].

Definition case_g : keyword := Group "g" true [
  Group "et" true [
    Word "-lease-hostnames" GET_LEASE_HOSTNAMES; Word "hostbyname" GETHOSTBYNAME; Word "hostname" GETHOSTNAME];
  Word "iaddr" GIADDR; Word "roup" GROUP].

Definition case_h : keyword := Group "h" true [
  Word "ash" HASH; Word "ba" HBA; Word "ost" HOST; Word "ost-decl-name" HOST_DECL_NAME;
  Word "ost-identifier" HOST_IDENTIFIER; Word "ardware" HARDWARE; Word "ostname" HOSTNAME;
  Word "elp" TOKEN_HELP; Word "ex" TOKEN_HEX].

Definition case_i : keyword := Group "i" true [
  Word "a-na" IA_NA; Word "a-ta" IA_TA; Word "a-pd" IA_PD; Word "aaddr" IAADDR; Word "aprefix" IAPREFIX;
  Word "nclude" INCLUDE; Word "nteger" INTEGER; Word "nfiniband" TOKEN_INFINIBAND; Word "nfinite" INFINITE;
  Word "nfo" INFO; Word "p-address" IP_ADDRESS; Word "p6-address" IP6_ADDRESS;
  Word "nitial-interval" INITIAL_INTERVAL; Word "nitial-delay" INITIAL_DELAY; Word "nterface" INTERFACE;
  Word "dentifier" IDENTIFIER; Word "f" IF; Word "s" IS; Word "gnore" IGNORE].

Definition case_k : keyword := Group "k" true [
  Group "nown" true [
    Word "-clients" KNOWN_CLIENTS; Word "" KNOWN];
  Word "ey" KEY].

Definition case_l : keyword := Group "l" true [
  Word "case" LCASE; Word "ease" LEASE; Word "ease6" LEASE6; Word "eased-address" LEASED_ADDRESS;
  Word "ease-time" LEASE_TIME; Word "easequery" LEASEQUERY; Word "ength" LENGTH; Word "imit" LIMIT;
  Word "et" LET; Word "oad" LOAD; Word "ocal" LOCAL; Word "og" LOG; Word "lt" LLT; Word "l" LL;
  Word "ittle-endian" TOKEN_LITTLE_ENDIAN; Word "ease-id-format" LEASE_ID_FORMAT].

Definition case_m : keyword := Group "m" true [
  Group "ax" false [
    Word "" TOKEN_MAX; Word "-balance" MAX_BALANCE;
    Group "-lease-" false [
      Word "misbalance" MAX_LEASE_MISBALANCE; Word "ownership" MAX_LEASE_OWNERSHIP; Word "time" MAX_LEASE_TIME];
    Word "-life" MAX_LIFE; Word "-transmit-idle" MAX_TRANSMIT_IDLE; Word "-response-delay" MAX_RESPONSE_DELAY;
    Word "-unacked-updates" MAX_UNACKED_UPDATES];
  Group "in-" true [
    Word "balance" MIN_BALANCE; Word "lease-time" MIN_LEASE_TIME; Word "secs" MIN_SECS];
  Group "edi" true [
    Word "a" MEDIA; Word "um" MEDIUM];
  Word "atch" MATCH; Word "embers" MEMBERS; Word "y" MY; Word "clt" MCLT].

Definition case_n : keyword := Group "n" true [
  Word "ormal" NORMAL; Word "ameserver" NAMESERVER; Word "etmask" NETMASK; Word "ever" NEVER;
  Word "ext-server" NEXT_SERVER; Word "ot" TOKEN_NOT; Word "o" TOKEN_NO; Word "oerror" NS_NOERROR;
  Word "otauth" NS_NOTAUTH; Word "otimp" NS_NOTIMP; Word "otzone" NS_NOTZONE; Word "xdomain" NS_NXDOMAIN;
  Word "xrrset" NS_NXRRSET; Word "ull" TOKEN_NULL; Word "ext" TOKEN_NEXT; Word "ew" TOKEN_NEW].

Definition case_o : keyword := Group "o" true [
  Word "mapi" OMAPI; Word "r" OR; Word "n" ON; Word "pen" TOKEN_OPEN; Word "ption" OPTION;
  Word "ne-lease-per-client" ONE_LEASE_PER_CLIENT; Word "f" OF; Word "wner" OWNER; Word "ctal" TOKEN_OCTAL].

Definition case_p : keyword := Group "p" true [
  Word "arse-vendor-option" PARSE_VENDOR_OPT; Word "repend" PREPEND; Word "referred-life" PREFERRED_LIFE;
  Word "acket" PACKET; Word "ool" POOL; Word "ool6" POOL6; Word "refix6" PREFIX6; Word "seudo" PSEUDO;
  Word "eer" PEER; Word "rimary" PRIMARY; Word "rimary6" PRIMARY6;
  Group "artner" false [
    Word "" PARTNER; Word "-down" PARTNER_DOWN];
  Word "ort" PORT; Word "otential-conflict" POTENTIAL_CONFLICT; Word "ick-first-value" PICK; Word "ick" PICK;
  Word "aused" PAUSED].

Definition case_r : keyword := Group "r" true [
  Word "ange" RANGE; Word "ange6" RANGE6;
  Group "e" true [
    Word "bind" REBIND; Word "boot" REBOOT; Word "contact-interval" RECONTACT_INTERVAL;
    Group "cover" true [
      Word "" RECOVER; Word "-done" RECOVER_DONE; Word "-wait" RECOVER_WAIT];
    Word "fresh" REFRESH; Word "fused" NS_REFUSED; Word "ject" REJECT; Word "lease" RELEASE;
    Word "leased" TOKEN_RELEASED; Word "move" REMOVE; Word "new" RENEW; Word "quest" REQUEST;
    Word "quire" REQUIRE;
    Group "s" true [
      Word "erved" TOKEN_RESERVED; Word "et" TOKEN_RESET; Word "olution-interrupted" RESOLUTION_INTERRUPTED];
    Word "try" RETRY; Word "turn" RETURN; Word "verse" REVERSE; Word "wind" REWIND]].

Definition case_s : keyword := Group "s" true [
  Word "cript" SCRIPT;
  Group "e" true [
    Word "arch" SEARCH;
    Group "c" true [
      Group "ond" true [
        Word "ary" SECONDARY; Word "ary6" SECONDARY6; Word "s" SECONDS];
      Word "ret" SECRET];
    Group "lect" true [
      Word "" SELECT; Word "-timeout" SELECT_TIMEOUT];
    Word "nd" SEND;
    Group "rv" true [
      Group "er" true [
        Word "" TOKEN_SERVER;
        Group "-" true [
          Word "duid" SERVER_DUID; Word "name" SERVER_NAME; Word "identifier" SERVER_IDENTIFIER]];
      Word "fail" NS_SERVFAIL];
    Word "t" TOKEN_SET];
  Group "h" true [
    Word "ared-network" SHARED_NETWORK; Word "utdown" SHUTDOWN];
  Group "i" true [
    Word "addr" SIADDR; Word "gned" SIGNED; Word "ze" SIZE];
  Group "p" true [
    Group "a" true [
      Word "ce" SPACE; Word "wn" SPAWN];
    Word "lit" SPLIT];
  Group "t" true [
    Group "a" false [
      Group "rt" true [
        Word "s" STARTS; Word "up" STARTUP];
      Group "t" true [
        Word "e" STATE; Word "ic" STATIC]];
    Word "ring" STRING_TOKEN];
  Group "ub" true [
    Word "class" SUBCLASS; Word "net" SUBNET; Word "net6" SUBNET6; Word "string" SUBSTRING];
  Group "u" false [
    Word "ffix" SUFFIX; Word "persede" SUPERSEDE];
  Word "witch" SWITCH].

Definition case_t : keyword := Group "t" true [
  Word "imestamp" TIMESTAMP; Word "imeout" TIMEOUT; Word "oken-ring" TOKEN_RING; Word "ext" TEXT;
  Word "stp" TSTP; Word "sfp" TSFP; Word "ransmission" TRANSMISSION; Word "emporary" TEMPORARY].

Definition case_u : keyword := Group "u" true [
  Word "case" UCASE; Word "nset" UNSET; Word "nsigned" UNSIGNED; Word "id" UID;
  Group "se" true [
    Word "r-class" USER_CLASS; Word "-host-decl-names" USE_HOST_DECL_NAMES;
    Word "-lease-addr-for-default-route" USE_LEASE_ADDR_FOR_DEFAULT_ROUTE];
  Group "nknown" true [
    Word "-clients" UNKNOWN_CLIENTS; Word "-state" UNKNOWN_STATE; Word "" UNKNOWN];
  Word "nauthenticated" UNAUTHENTICATED; Word "pdate" UPDATE].

Definition case_v : keyword := Group "v" true [
  Word "6relay" V6RELAY; Word "6relopt" V6RELOPT; Word "endor-class" VENDOR_CLASS; Word "endor" VENDOR].

Definition case_w : keyword := Group "w" true [
  Word "ith" WITH; Word "idth" WIDTH].

Definition case_y : keyword := Group "y" true [
  Word "iaddr" YIADDR; Word "xdomain" NS_YXDOMAIN; Word "xrrset" NS_YXRRSET].

Definition case_z : keyword := Group "z" true [
  Word "erolen" ZEROLEN; Word "one" ZONE].

Definition keywords : list keyword := [case_minus; case_a; case_b; case_c; case_d; case_e; case_f; case_g; case_h; case_i; case_k; case_l; case_m; case_n; case_o; case_p; case_r; case_s; case_t; case_u; case_v; case_w; case_y; case_z].

Definition intern (atom : list Z) (dfv : Z) : Z :=
  match atom with
  | [] => dfv
  | c :: _ => if isascii c then match attempts keywords atom with Return t => t | _ => dfv end else dfv
  end.
(** ** The keywords as a table *)

(** The words of a tree, each behind the characters that led to it. *)
Fixpoint words (p : list Z) (k : keyword) : list (list Z * Z) :=
  match k with
  | Word s t => [(p ++ chars s, t)]
  | Group s _ l => (fix all (l : list keyword) := match l with [] => [] | k :: l => words (p ++ chars s) k ++ all l end) l
  end.

(** The keywords of the language, in the order of the alphabet, with their tokens. *)
Definition keyword_table : list (string * Z) := [
  ("-", MINUS); ("abandoned", TOKEN_ABANDONED); ("active", TOKEN_ACTIVE); ("add", TOKEN_ADD); ("address", ADDRESS); ("after", AFTER);
  ("algorithm", ALGORITHM); ("alias", ALIAS); ("all", ALL); ("allow", ALLOW); ("also", TOKEN_ALSO); ("and", AND); ("anycast-mac",
  ANYCAST_MAC); ("append", APPEND); ("array", ARRAY); ("at", AT); ("atsfp", ATSFP); ("authenticated", AUTHENTICATED); ("authentication",
  AUTHENTICATION); ("authoring-byte-order", AUTHORING_BYTE_ORDER); ("authoritative", AUTHORITATIVE); ("auto-partner-down",
  AUTO_PARTNER_DOWN); ("backoff-cutoff", BACKOFF_CUTOFF); ("backup", TOKEN_BACKUP); ("balance", BALANCE); ("big-endian", TOKEN_BIG_ENDIAN);
  ("billing", BILLING); ("binary-to-ascii", BINARY_TO_ASCII); ("binding", BINDING); ("boolean", BOOLEAN); ("boot-unknown-clients",
  BOOT_UNKNOWN_CLIENTS); ("booting", BOOTING); ("bootp", TOKEN_BOOTP); ("bound", BOUND); ("break", BREAK); ("case", CASE); ("check", CHECK);
  ("ciaddr", CIADDR); ("class", CLASS); ("client-hostname", CLIENT_HOSTNAME); ("client-identifier", CLIENT_IDENTIFIER); ("client-state",
  CLIENT_STATE); ("client-updates", CLIENT_UPDATES); ("clients", CLIENTS); ("close", TOKEN_CLOSE); ("cltt", CLTT); ("code", CODE);
  ("commit", COMMIT); ("communications-interrupted", COMMUNICATIONS_INTERRUPTED); ("compressed", COMPRESSED); ("concat", CONCAT);
  ("config-option", CONFIG_OPTION); ("conflict-done", CONFLICT_DONE); ("connect", CONNECT); ("create", TOKEN_CREATE); ("db-time-format",
  DB_TIME_FORMAT); ("debug", TOKEN_DEBUG); ("declines", DECLINES); ("default", DEFAULT); ("default-duid", DEFAULT_DUID);
  ("default-lease-time", DEFAULT_LEASE_TIME); ("define", DEFINE); ("defined", DEFINED); ("delete", TOKEN_DELETE); ("deleted",
  TOKEN_DELETED); ("deny", DENY); ("do-forward-update", DO_FORWARD_UPDATE); ("do-forward-updates", DO_FORWARD_UPDATE); ("domain", DOMAIN);
  ("domain-list", DOMAIN_LIST); ("domain-name", DOMAIN_NAME); ("duplicates", DUPLICATES); ("dynamic", DYNAMIC); ("dynamic-bootp",
  DYNAMIC_BOOTP); ("dynamic-bootp-lease-cutoff", DYNAMIC_BOOTP_LEASE_CUTOFF); ("dynamic-bootp-lease-length", DYNAMIC_BOOTP_LEASE_LENGTH);
  ("else", ELSE); ("elsif", ELSIF); ("en", EN); ("encapsulate", ENCAPSULATE); ("encode-int", ENCODE_INT); ("ends", ENDS); ("epoch", EPOCH);
  ("error", ERROR); ("ethernet", ETHERNET); ("eval", EVAL); ("execute", EXECUTE); ("exists", EXISTS); ("expire", EXPIRE); ("expired",
  TOKEN_EXPIRED); ("expiry", EXPIRY); ("extract-int", EXTRACT_INT); ("failover", FAILOVER); ("fatal", FATAL); ("fddi", TOKEN_FDDI);
  ("filename", FILENAME); ("fixed-address", FIXED_ADDR); ("fixed-address6", FIXED_ADDR6); ("fixed-prefix6", FIXED_PREFIX6); ("formerr",
  NS_FORMERR); ("free", TOKEN_FREE); ("function", FUNCTION); ("get-lease-hostnames", GET_LEASE_HOSTNAMES); ("gethostbyname", GETHOSTBYNAME);
  ("gethostname", GETHOSTNAME); ("giaddr", GIADDR); ("group", GROUP); ("hardware", HARDWARE); ("hash", HASH); ("hba", HBA); ("help",
  TOKEN_HELP); ("hex", TOKEN_HEX); ("host", HOST); ("host-decl-name", HOST_DECL_NAME); ("host-identifier", HOST_IDENTIFIER); ("hostname",
  HOSTNAME); ("ia-na", IA_NA); ("ia-pd", IA_PD); ("ia-ta", IA_TA); ("iaaddr", IAADDR); ("iaprefix", IAPREFIX); ("identifier", IDENTIFIER);
  ("if", IF); ("ignore", IGNORE); ("include", INCLUDE); ("infiniband", TOKEN_INFINIBAND); ("infinite", INFINITE); ("info", INFO);
  ("initial-delay", INITIAL_DELAY); ("initial-interval", INITIAL_INTERVAL); ("integer", INTEGER); ("interface", INTERFACE); ("ip-address",
  IP_ADDRESS); ("ip6-address", IP6_ADDRESS); ("is", IS); ("key", KEY); ("known", KNOWN); ("known-clients", KNOWN_CLIENTS); ("lcase", LCASE);
  ("lease", LEASE); ("lease-id-format", LEASE_ID_FORMAT); ("lease-time", LEASE_TIME); ("lease6", LEASE6); ("leased-address",
  LEASED_ADDRESS); ("leasequery", LEASEQUERY); ("length", LENGTH); ("let", LET); ("limit", LIMIT); ("little-endian", TOKEN_LITTLE_ENDIAN);
  ("ll", LL); ("llt", LLT); ("load", LOAD); ("local", LOCAL); ("log", LOG); ("match", MATCH); ("max", TOKEN_MAX); ("max-balance",
  MAX_BALANCE); ("max-lease-misbalance", MAX_LEASE_MISBALANCE); ("max-lease-ownership", MAX_LEASE_OWNERSHIP); ("max-lease-time",
  MAX_LEASE_TIME); ("max-life", MAX_LIFE); ("max-response-delay", MAX_RESPONSE_DELAY); ("max-transmit-idle", MAX_TRANSMIT_IDLE);
  ("max-unacked-updates", MAX_UNACKED_UPDATES); ("mclt", MCLT); ("media", MEDIA); ("medium", MEDIUM); ("members", MEMBERS); ("min-balance",
  MIN_BALANCE); ("min-lease-time", MIN_LEASE_TIME); ("min-secs", MIN_SECS); ("my", MY); ("nameserver", NAMESERVER); ("netmask", NETMASK);
  ("never", NEVER); ("new", TOKEN_NEW); ("next", TOKEN_NEXT); ("next-server", NEXT_SERVER); ("no", TOKEN_NO); ("noerror", NS_NOERROR);
  ("normal", NORMAL); ("not", TOKEN_NOT); ("notauth", NS_NOTAUTH); ("notimp", NS_NOTIMP); ("notzone", NS_NOTZONE); ("null", TOKEN_NULL);
  ("nxdomain", NS_NXDOMAIN); ("nxrrset", NS_NXRRSET); ("octal", TOKEN_OCTAL); ("of", OF); ("omapi", OMAPI); ("on", ON);
  ("one-lease-per-client", ONE_LEASE_PER_CLIENT); ("open", TOKEN_OPEN); ("option", OPTION); ("or", OR); ("owner", OWNER); ("packet",
  PACKET); ("parse-vendor-option", PARSE_VENDOR_OPT); ("partner", PARTNER); ("partner-down", PARTNER_DOWN); ("paused", PAUSED); ("peer",
  PEER); ("pick", PICK); ("pick-first-value", PICK); ("pool", POOL); ("pool6", POOL6); ("port", PORT); ("potential-conflict",
  POTENTIAL_CONFLICT); ("preferred-life", PREFERRED_LIFE); ("prefix6", PREFIX6); ("prepend", PREPEND); ("primary", PRIMARY); ("primary6",
  PRIMARY6); ("pseudo", PSEUDO); ("range", RANGE); ("range6", RANGE6); ("rebind", REBIND); ("reboot", REBOOT); ("recontact-interval",
  RECONTACT_INTERVAL); ("recover", RECOVER); ("recover-done", RECOVER_DONE); ("recover-wait", RECOVER_WAIT); ("refresh", REFRESH);
  ("refused", NS_REFUSED); ("reject", REJECT); ("release", RELEASE); ("released", TOKEN_RELEASED); ("remove", REMOVE); ("renew", RENEW);
  ("request", REQUEST); ("require", REQUIRE); ("reserved", TOKEN_RESERVED); ("reset", TOKEN_RESET); ("resolution-interrupted",
  RESOLUTION_INTERRUPTED); ("retry", RETRY); ("return", RETURN); ("reverse", REVERSE); ("rewind", REWIND); ("script", SCRIPT); ("search",
  SEARCH); ("secondary", SECONDARY); ("secondary6", SECONDARY6); ("seconds", SECONDS); ("secret", SECRET); ("select", SELECT);
  ("select-timeout", SELECT_TIMEOUT); ("send", SEND); ("server", TOKEN_SERVER); ("server-duid", SERVER_DUID); ("server-identifier",
  SERVER_IDENTIFIER); ("server-name", SERVER_NAME); ("servfail", NS_SERVFAIL); ("set", TOKEN_SET); ("shared-network", SHARED_NETWORK);
  ("shutdown", SHUTDOWN); ("siaddr", SIADDR); ("signed", SIGNED); ("size", SIZE); ("space", SPACE); ("spawn", SPAWN); ("split", SPLIT);
  ("starts", STARTS); ("startup", STARTUP); ("state", STATE); ("static", STATIC); ("string", STRING_TOKEN); ("subclass", SUBCLASS);
  ("subnet", SUBNET); ("subnet6", SUBNET6); ("substring", SUBSTRING); ("suffix", SUFFIX); ("supersede", SUPERSEDE); ("switch", SWITCH);
  ("temporary", TEMPORARY); ("text", TEXT); ("timeout", TIMEOUT); ("timestamp", TIMESTAMP); ("token-ring", TOKEN_RING); ("transmission",
  TRANSMISSION); ("tsfp", TSFP); ("tstp", TSTP); ("ucase", UCASE); ("uid", UID); ("unauthenticated", UNAUTHENTICATED); ("unknown", UNKNOWN);
  ("unknown-clients", UNKNOWN_CLIENTS); ("unknown-state", UNKNOWN_STATE); ("unset", UNSET); ("unsigned", UNSIGNED); ("update", UPDATE);
  ("use-host-decl-names", USE_HOST_DECL_NAMES); ("use-lease-addr-for-default-route", USE_LEASE_ADDR_FOR_DEFAULT_ROUTE); ("user-class",
  USER_CLASS); ("v6relay", V6RELAY); ("v6relopt", V6RELOPT); ("vendor", VENDOR); ("vendor-class", VENDOR_CLASS); ("width", WIDTH); ("with",
  WITH); ("yiaddr", YIADDR); ("yxdomain", NS_YXDOMAIN); ("yxrrset", NS_YXRRSET); ("zerolen", ZEROLEN); ("zone", ZONE)]%string.

Definition table : list (list Z * Z) := List.map (fun e => (chars e.1, e.2)) keyword_table.

Definition lookup_word (atom : list Z) : option Z := snd <$> List.find (fun e => strcasecmp atom e.1) table.

Section KeywordInd.
Context (P : keyword -> Prop) (PW : forall s t, P (Word s t)) (PG : forall s f l, Forall P l -> P (Group s f l)).

Fixpoint keyword_tree_ind (k : keyword) : P k :=
  match k with
  | Word s t => PW s t
  | Group s f l => PG s f l ((fix go (l : list keyword) : Forall P l := match l with [] => Forall_nil_2 P | k :: l => Forall_cons_2 P k l (keyword_tree_ind k) (go l) end) l)
  end.

End KeywordInd.

Lemma attempt_group s f l a : attempt (Group s f l) a = if strncasecmp a (chars s) then match attempts l (drop (length (chars s)) a) with Next => if f then Break else Next | v => v end else Next.
Proof. cbn. destruct (strncasecmp _ _); [|done]. assert (forall l', (fix first (l : list keyword) : verdict := match l with [] => Next | k :: l => match attempt k (drop (length (chars s)) a) with Next => first l | v => v end end) l' = attempts l' (drop (length (chars s)) a)) as ->; [|done]. intros l'. induction l' as [|k l' IH]; [done|]. cbn. destruct (attempt k _); [done|done|exact IH]. Qed.

Lemma words_group p s f l e : e ∈ words p (Group s f l) <-> exists k, k ∈ l /\ e ∈ words (p ++ chars s) k.
Proof.
  cbn. induction l as [|k l IH]; [split; [intros H; by apply elem_of_nil in H|intros (k & H & _); by apply elem_of_nil in H]|]. rewrite elem_of_app, IH. split.
  - intros [H|(k' & Hk & H)]; [exists k|exists k']; split; try done; [by left|by right].
  - intros (k' & Hk & H). apply elem_of_cons in Hk as [->|Hk]; [by left|]. right. by exists k'.
Qed.

Lemma strcasecmp_fold a b : strcasecmp (List.map tolower a) b = strcasecmp a b.
Proof.
  unfold strcasecmp. rewrite List.map_map. do 2 f_equal. apply bool_decide_ext. enough (List.map (fun x => tolower (tolower x)) a = List.map tolower a) as -> by done. apply List.map_ext. intros c. unfold tolower. repeat case_match; naive_solver lia.
Qed.

Lemma attempt_fold k : forall a, attempt k (List.map tolower a) = attempt k a.
Proof.
  induction k as [s t|s f l IH] using keyword_tree_ind; intros a; [cbn; by rewrite strcasecmp_fold|]. rewrite !attempt_group. unfold strncasecmp. rewrite List.firstn_map, strcasecmp_fold, List.skipn_map. destruct (strcasecmp _ _); [|done].
  assert (forall b, attempts l (List.map tolower b) = attempts l b) as ->; [|done]. intros b. induction IH as [|k l Hk _ IHl]; [done|]. cbn. rewrite Hk. destruct (attempt k b); [done|done|exact IHl].
Qed.

Lemma attempts_fold l a : attempts l (List.map tolower a) = attempts l a.
Proof. induction l as [|k l IH]; [done|]. cbn. rewrite attempt_fold, IH. done. Qed.

(** A keyword that is recognised is one of the words. *)
Lemma attempt_sound k : forall p a t, attempt k a = Return t -> exists w, (p ++ w, t) ∈ words p k /\ strcasecmp a w = true.
Proof.
  induction k as [s t0|s f l IH] using keyword_tree_ind; intros p a t.
  - cbn. destruct (strcasecmp a (chars s)) eqn:E; [|done]. intros [= <-]. exists (chars s). split; [by left|done].
  - rewrite attempt_group. destruct (strncasecmp a (chars s)) eqn:E; [|done]. intros H. assert (attempts l (drop (length (chars s)) a) = Return t) as H' by (destruct (attempts _ _), f; done).
    assert (exists k w, k ∈ l /\ ((p ++ chars s) ++ w, t) ∈ words (p ++ chars s) k /\ strcasecmp (drop (length (chars s)) a) w = true) as (k & w & Hk & Hw & Ec).
    { clear H. induction IH as [|k l Hk _ IHl]; [done|]. cbn in H'. destruct (attempt k (drop (length (chars s)) a)) as [t'| |] eqn:Ea; [|done|].
      - injection H' as ->. destruct (Hk (p ++ chars s) _ _ Ea) as (w & ? & ?). exists k, w. split; [by left|done].
      - destruct (IHl H') as (k' & w & ? & ? & ?). exists k', w. split; [by right|done]. }
    exists (chars s ++ w). split; [apply words_group; exists k; split; [done|]; by rewrite (assoc_L (++))|]. unfold strncasecmp, strcasecmp in *. apply bool_decide_eq_true in E, Ec. apply bool_decide_eq_true. rewrite List.map_app, <- E, <- Ec, <- List.map_app. by rewrite take_drop.
Qed.

(** C10: [intern], with its tree of comparisons of prefixes, finds exactly the keywords of
    [keyword_table], a plain list of the 305 words of the language with their tokens,
    whatever the case of their letters; any other atom stays the name or number that it was.
    *)
Theorem intern_exact atom dfv : intern atom dfv = default dfv (lookup_word atom).
Proof.
  assert (forallb (fun e => existsb (fun e' => (e.2 =? e'.2) && bool_decide (e.1 = e'.1)) table) (List.concat (List.map (words []) keywords)) = true) as Et by (by vm_compute). rewrite List.forallb_forall in Et.
  assert (Forall (fun e => attempts keywords e.1 = Return e.2 /\ exists c r, e.1 = c :: r /\ (isascii c = true /\ tolower c = c)) table) as Hall.
  { assert (forallb (fun e => match attempts keywords e.1 with Return t => t =? e.2 | _ => false end && match e.1 with c :: _ => isascii c && (tolower c =? c) | [] => false end) table = true) as H by (by vm_compute). rewrite List.forallb_forall in H. apply List.Forall_forall. intros e He. specialize (H e He). apply andb_true_iff in H as [H1 H2]. destruct (attempts keywords e.1); [|done..]. apply Z.eqb_eq in H1 as ->. split; [done|]. destruct e.1 as [|c r]; [done|]. apply andb_true_iff in H2 as [? ?%Z.eqb_eq]. by exists c, r. }
  assert (forall t, attempts keywords atom = Return t -> exists w, (w, t) ∈ table /\ strcasecmp atom w = true) as Hs.
  { intros t H. assert (exists k, k ∈ keywords /\ attempt k atom = Return t) as (k & Hk & Ha). { clear - H. induction keywords as [|k l IH]; [done|]. cbn in H. destruct (attempt k atom) eqn:E; [injection H as ->; exists k; split; [by left|done]|done|destruct (IH H) as (k' & ? & ?); exists k'; split; [by right|done]]. }
    destruct (attempt_sound k [] atom t Ha) as (w & Hw & Ec). exists w. split; [|done]. destruct (proj1 (List.existsb_exists _ _) (Et (w, t) ltac:(apply List.in_concat; exists (words [] k); split; [apply List.in_map; by apply list_elem_of_In|by apply list_elem_of_In]))) as ([w' t'] & Hin & Heq). apply andb_true_iff in Heq as [E1%Z.eqb_eq E2%bool_decide_eq_true]. cbn in E1, E2. subst. by apply list_elem_of_In. }
  unfold lookup_word. destruct (List.find _ table) as [[w t]|] eqn:Ef.
  - apply List.find_some in Ef as [Hin Ec]. cbn in Ec. rewrite List.Forall_forall in Hall. destruct (Hall _ Hin) as (Ha & c & r & Ew & Hc & Hl). change (attempts keywords w = Return t) in Ha. cbn in Ew. subst w. unfold strcasecmp in Ec. apply bool_decide_eq_true in Ec. destruct atom as [|c' r']; [done|]. unfold intern.
    assert (isascii c' = true) as -> by (injection Ec as Ec _; rewrite Hl in Ec; unfold isascii in *; apply andb_true_iff in Hc as [?%Z.leb_le ?%Z.leb_le]; apply andb_true_iff; rewrite !Z.leb_le; revert Ec; unfold tolower; destruct ((65 <=? c') && (c' <=? 90)) eqn:E; [apply andb_true_iff in E as [?%Z.leb_le ?%Z.leb_le]|]; lia). rewrite <- attempts_fold, Ec, attempts_fold, Ha. done.
  - cbn. unfold intern. destruct atom as [|c r]; [done|]. destruct (isascii c); [|done]. destruct (attempts keywords (c :: r)) as [t| |] eqn:E; [|done..]. destruct (Hs t eq_refl) as (w & Hw & Ec). exfalso. apply (proj1 (list_elem_of_In _ _)) in Hw. pose proof (List.find_none _ _ Ef _ Hw) as E2. cbn in E2. by rewrite Ec in E2.
Qed.

End DhcToken.
