(* ===== verification/ConfLex.v ===== *)
(** * The lexer of the configuration language (common/conflex.c)

    The text of a configuration or lease file is taken apart into tokens, whose texts
    are kept in a buffer of 1500 octets.  The positions and the lines that are kept for
    messages are part of the state; the messages themselves are not.  An octet of
    the text is a [char], which has a sign: 255 is taken for the end of the file. *)

From Stdlib Require Import ZArith Lia.
From stdpp Require Import base list numbers option.
From S2P Require Import Prelude.
From S2P Require Import DhcToken.
#[local] Open Scope Z_scope.

Module ConfLex.

Import DhcToken.

Definition EOF : Z := -1.
Definition EOL : Z := 10.
Definition TOKBUF : Z := 1500.

(** ** Characters *)

Definition isspace (c : Z) : bool := (c =? 32) || ((9 <=? c) && (c <=? 13)).
Definition isdigit (c : Z) : bool := (48 <=? c) && (c <=? 57).
Definition isalpha (c : Z) : bool := ((65 <=? c) && (c <=? 90)) || ((97 <=? c) && (c <=? 122)).
Definition isalnum (c : Z) : bool := isdigit c || isalpha c.
Definition isxdigit (c : Z) : bool := isdigit c || ((65 <=? c) && (c <=? 70)) || ((97 <=? c) && (c <=? 102)).

(** ** The state *)

(** The two buffers for the lines of messages. *)
Inductive side : Type := line1 | line2.

Record place : Type := Place {
  lexline : Z;
  lexchar : Z;
  token_line : side;
  prev_line : side;
  cur_line : side;
  first_line : list Z;
  second_line : list Z;
  lpos : Z;
  line : Z;
  tlpos : Z;
  tline : Z;
  ugflag : bool
}.

(** Where the text of the token is. *)
Inductive buffer : Type := no_buffer | in_tokbuf | in_tb.

Record parse : Type := Parse {
  inbuf : list Z;
  bufix : Z;
  eol_token : bool;
  token : Z;
  tval : buffer;
  tlen : Z;
  tokbuf : list Z;
  tb : Z;
  warnings_occurred : bool;
  where_ : place
}.

Definition set_bufix i s := Parse (inbuf s) i (eol_token s) (token s) (tval s) (tlen s) (tokbuf s) (tb s) (warnings_occurred s) (where_ s).
Definition set_token t s := Parse (inbuf s) (bufix s) (eol_token s) t (tval s) (tlen s) (tokbuf s) (tb s) (warnings_occurred s) (where_ s).
Definition set_tlen n s := Parse (inbuf s) (bufix s) (eol_token s) (token s) (tval s) n (tokbuf s) (tb s) (warnings_occurred s) (where_ s).
Definition set_tval v n s := Parse (inbuf s) (bufix s) (eol_token s) (token s) v n (tokbuf s) (tb s) (warnings_occurred s) (where_ s).
Definition set_tokbuf b s := Parse (inbuf s) (bufix s) (eol_token s) (token s) (tval s) (tlen s) b (tb s) (warnings_occurred s) (where_ s).
Definition set_tb c s := Parse (inbuf s) (bufix s) (eol_token s) (token s) (tval s) (tlen s) (tokbuf s) c (warnings_occurred s) (where_ s).
Definition set_where w s := Parse (inbuf s) (bufix s) (eol_token s) (token s) (tval s) (tlen s) (tokbuf s) (tb s) (warnings_occurred s) w.
Definition parse_warn s := Parse (inbuf s) (bufix s) (eol_token s) (token s) (tval s) (tlen s) (tokbuf s) (tb s) true (where_ s).

Definition set_lex l c w := Place l c (token_line w) (prev_line w) (cur_line w) (first_line w) (second_line w) (lpos w) (line w) (tlpos w) (tline w) (ugflag w).
Definition set_tpos l c w := Place (lexline w) (lexchar w) (token_line w) (prev_line w) (cur_line w) (first_line w) (second_line w) (lpos w) (line w) c l (ugflag w).
Definition set_token_line t w := Place (lexline w) (lexchar w) t (prev_line w) (cur_line w) (first_line w) (second_line w) (lpos w) (line w) (tlpos w) (tline w) (ugflag w).
Definition set_ugflag u w := Place (lexline w) (lexchar w) (token_line w) (prev_line w) (cur_line w) (first_line w) (second_line w) (lpos w) (line w) (tlpos w) (tline w) u.

Definition line_of (d : side) (w : place) : list Z := match d with line1 => first_line w | line2 => second_line w end.
Definition set_line (d : side) (b : list Z) (p : Z) (w : place) : place :=
  match d with
  | line1 => Place (lexline w) (lexchar w) (token_line w) (prev_line w) (cur_line w) b (second_line w) p (line w) (tlpos w) (tline w) (ugflag w)
  | line2 => Place (lexline w) (lexchar w) (token_line w) (prev_line w) (cur_line w) (first_line w) b p (line w) (tlpos w) (tline w) (ugflag w)
  end.

(** The lines change their roles. *)
Definition new_line (w : place) : outcome place :=
  let d := match cur_line w with line1 => line2 | line2 => line1 end in
  b ← wr (line_of d w) 0 0;
  Ret (set_line d b 1 (Place (lexline w) (lexchar w) (token_line w) (cur_line w) d (first_line w) (second_line w) (lpos w) (line w + 1) (tlpos w) (tline w) (ugflag w))).

(** A configuration in memory; one in a file differs in where the text is. *)
Definition new_parse (text : list Z) (eolp : bool) : parse :=
  Parse text 0 eolp 0 no_buffer 0 (replicate 1500 0) 0 false
    (Place 0 0 line1 line2 line1 (replicate 81 0) (replicate 81 0) 1 1 0 0 false).

(** What is noted of a character for messages. *)
Definition note_char (c : Z) (w : place) : outcome place :=
  if ugflag w then Ret (set_ugflag false w)
  else if c =? EOL then new_line w
  else if negb (c =? EOF) then
    b ← (if lpos w <=? 80 then b ← wr (line_of (cur_line w) w) (lpos w - 1) (u8 c); wr b (lpos w) 0 else Ret (line_of (cur_line w) w));
    Ret (set_line (cur_line w) b (lpos w + 1) w)
  else Ret w.

Definition get_char (s : parse) : outcome (parse * Z) :=
  r ← (if bufix s =? Zlen (inbuf s) then Ret (s, EOF)
       else c ← rd (inbuf s) (bufix s); Ret (set_bufix (bufix s + 1) s, s8 c));
  let '(s, c) := r in
  w ← note_char c (where_ s);
  Ret (set_where w s, c).

Definition unget_char (s : parse) (c : Z) : parse :=
  if c =? EOF then s else set_where (set_ugflag true (where_ s)) (set_bufix (bufix s - 1) s).

(** How much of the text is left, as the fuel of the loops. *)
Definition left (s : parse) : nat := Z.to_nat (Zlen (inbuf s) - bufix s).

(** ** Tokens *)

Fixpoint skip_to_eol_loop (fuel : nat) (s : parse) : outcome parse :=
  match fuel with
  | O => Undef
  | S fuel => r ← get_char s; if (r.2 =? EOF) || (r.2 =? EOL) then Ret r.1 else skip_to_eol_loop fuel r.1
  end.

Definition skip_to_eol (s : parse) : outcome parse := skip_to_eol_loop (S (left s)) s.

(** Whether the character is white space that is skipped. *)
Definition blank (s : parse) (c : Z) : bool := negb ((c =? 10) && eol_token s) && isascii c && isspace c.

Definition store (s : parse) (i c : Z) : outcome parse := b ← wr (tokbuf s) i (u8 c); Ret (set_tokbuf b s).

(** The end of a token that is in the buffer. *)
Definition finish (s : parse) (i : Z) : outcome parse := s ← store s i 0; Ret (set_tval in_tokbuf i s).

Fixpoint whitespace_loop (fuel : nat) (s : parse) (ofs c : Z) : outcome (parse * Z) :=
  match fuel with
  | O => Undef
  | S fuel =>
    if TOKBUF - 1 <=? ofs then Fatal
    else
      s ← store s ofs c;
      r ← get_char s; let '(s, c) := r in
      if c =? EOF then Ret (s, END_OF_FILE)
      else if blank s c then whitespace_loop fuel s (ofs + 1) c
      else s ← finish (unget_char s c) (ofs + 1); Ret (s, WHITESPACE)
  end.

Definition read_whitespace (c : Z) (s : parse) : outcome (parse * Z) := whitespace_loop (S (left s)) s 0 c.

(** The character that stands for one behind a backslash. *)
Definition escape (c : Z) : Z := if c =? 116 then 9 else if c =? 114 then 13 else if c =? 110 then 10 else if c =? 98 then 8 else c.

Definition hex_digit (c : Z) : option Z :=
  if isdigit c then Some (c - 48)
  else if (97 <=? c) && (c <=? 102) then Some (c - 97 + 10)
  else if (65 <=? c) && (c <=? 70) then Some (c - 65 + 10)
  else None.

(** [bs] tells how far an escape has been read. *)
Fixpoint string_loop (fuel : nat) (s : parse) (i bs value : Z) (hex : bool) : outcome (parse * Z) :=
  if negb (i <? TOKBUF) then Ret (s, i)
  else
    match fuel with
    | O => Undef
    | S fuel =>
      r ← get_char s; let '(s, c) := r in
      if c =? EOF then Ret (parse_warn s, i)
      else if bs =? 1 then
        if (48 <=? c) && (c <=? 51) then string_loop fuel s i 2 (c - 48) false
        else if c =? 120 then string_loop fuel s i 2 0 true
        else s ← store s i (escape c); string_loop fuel s (i + 1) 0 value hex
      else if 1 <? bs then
        if hex then
          match hex_digit c with
          | Some d =>
            let value := value * 16 + d in
            if bs + 1 =? 4 then s ← store s i value; string_loop fuel s (i + 1) 0 value hex
            else string_loop fuel s i (bs + 1) value hex
          | None => string_loop fuel (parse_warn s) (i + 1) 0 value hex
          end
        else if (48 <=? c) && (c <=? 55) then
          let value := value * 8 + (c - 48) in
          if bs + 1 =? 4 then s ← store s i value; string_loop fuel s (i + 1) 0 value hex
          else string_loop fuel s i (bs + 1) value hex
        else if negb (value =? 0) then string_loop fuel (parse_warn s) (i + 1) bs value hex
        else s ← store s i 0; string_loop fuel s i 1 value hex
      else if c =? 92 then string_loop fuel s i 1 value hex
      else if c =? 34 then Ret (s, i)
      else s ← store s i c; string_loop fuel s (i + 1) 0 value hex
    end.

(** A token that fills the buffer is cut. *)
Definition cut (s : parse) (i : Z) : parse * Z := if i =? TOKBUF then (parse_warn s, i - 1) else (s, i).

Definition read_string (s : parse) : outcome (parse * Z) :=
  r ← string_loop (S (left s)) s 0 0 0 false; let '(s, i) := cut r.1 r.2 in
  s ← finish s i; Ret (s, STRING).

(** What a number becomes with one more character: [None] at its end. *)
Definition promote (s : parse) (t i c : Z) : outcome (option Z) :=
  if negb (isascii c) then Ret None
  else if (t =? NUMBER) && isdigit c then Ret (Some t)
  else if ((t =? NUMBER) || (t =? NUMBER_OR_NAME)) && isxdigit c then Ret (Some NUMBER_OR_NAME)
  else
    b0 ← rd (tokbuf s) 0;
    b1 ← rd (tokbuf s) 1;
    if (i =? 2) && isxdigit c && (b0 =? 48) && ((b1 =? 120) || (b1 =? 88)) then Ret (Some NUMBER_OR_NAME)
    else if (c =? 45) || (c =? 95) || isalnum c then Ret (Some NAME)
    else Ret None.

Fixpoint number_loop (fuel : nat) (s : parse) (i t : Z) : outcome (parse * Z * Z) :=
  if negb (i <? TOKBUF) then let '(s, i) := cut s i in Ret (s, i, t)
  else
    match fuel with
    | O => Undef
    | S fuel =>
      r ← get_char s; let '(s, c) := r in
      p ← promote s t i c;
      match p with
      | Some t => s ← store s i c; number_loop fuel s (i + 1) t
      | None => Ret (unget_char s c, i, t)
      end
    end.

Definition read_number (c : Z) (s : parse) : outcome (parse * Z) :=
  s ← store s 0 c;
  r ← number_loop (S (left s)) s 1 NUMBER; let '(s, i, t) := r in
  s ← finish s i;
  b ← rd (tokbuf s) i;
  Ret (s, if (i =? 1) && (b =? 45) then MINUS else t).

Fixpoint name_loop (fuel : nat) (s : parse) (i rv : Z) : outcome (parse * Z * Z) :=
  if negb (i <? TOKBUF) then let '(s, i) := cut s i in Ret (s, i, rv)
  else
    match fuel with
    | O => Undef
    | S fuel =>
      r ← get_char s; let '(s, c) := r in
      if negb (isascii c) || (negb (c =? 45) && negb (c =? 95) && negb (isalnum c)) then Ret (unget_char s c, i, rv)
      else s ← store s i c; name_loop fuel s (i + 1) (if isxdigit c then rv else NAME)
    end.

(** The string up to its first zero. *)
Fixpoint c_string (b : list Z) : list Z := match b with [] => [] | c :: b => if c =? 0 then [] else c :: c_string b end.

(** The text of the token, as the caller sees it. *)
Definition val (s : parse) : outcome (list Z) :=
  match tval s with no_buffer => Undef | in_tokbuf => Ret (c_string (tokbuf s)) | in_tb => Ret (c_string [tb s]) end.

(** The octets of the token: a string may contain zeros. *)
Definition val_len (s : parse) : outcome (list Z) :=
  match tval s with no_buffer => Undef | in_tokbuf => memread (tokbuf s) 0 (tlen s) | in_tb => memread [tb s; 0] 0 (tlen s) end.

Definition read_num_or_name (c : Z) (s : parse) : outcome (parse * Z) :=
  s ← store s 0 c;
  r ← name_loop (S (left s)) s 1 NUMBER_OR_NAME; let '(s, i, rv) := r in
  s ← finish s i;
  v ← val s;
  Ret (s, intern v rv).

Fixpoint raw_loop (fuel : nat) (s : parse) : outcome (parse * Z) :=
  match fuel with
  | O => Undef
  | S fuel =>
    let l := line (where_ s) in
    let p := lpos (where_ s) in
    r ← get_char s; let '(s, c) := r in
    let at_ := set_where (set_lex l p (where_ s)) s in
    if blank s c then read_whitespace c s
    else if c =? 35 then s ← skip_to_eol s; raw_loop fuel s
    else if c =? 34 then read_string at_
    else if (isascii c && isdigit c) || (c =? 45) then read_number c at_
    else if isascii c && isalpha c then read_num_or_name c at_
    else if c =? EOF then Ret (set_tlen 0 s, END_OF_FILE)
    else Ret (set_tval in_tb 1 (set_tb (u8 c) at_), c)
  end.

Definition get_raw_token (s : parse) : outcome (parse * Z) := raw_loop (S (left s)) s.

(** A token read at once: the line it is on is the current one. *)
Definition fresh_token (s : parse) : outcome (parse * Z) :=
  r ← get_raw_token s; Ret (set_where (set_token_line (cur_line (where_ r.1)) (where_ r.1)) r.1, r.2).

Fixpoint skip_white (fuel : nat) (s : parse) (rv : Z) : outcome (parse * Z) :=
  if negb (rv =? WHITESPACE) then Ret (s, rv)
  else match fuel with O => Undef | S fuel => r ← fresh_token s; skip_white fuel r.1 r.2 end.

Definition get_next_token (s : parse) (raw : bool) : outcome (parse * Z) :=
  r ← (if negb (token s =? 0) then
         let w := where_ s in
         let w := if lexline w =? tline w then w else set_token_line (cur_line w) w in
         Ret (set_token 0 (set_where (set_lex (tline w) (tlpos w) w) s), token s)
       else fresh_token s);
  if raw then Ret r else skip_white (S (left r.1)) r.1 r.2.

Definition next_token (s : parse) : outcome (parse * Z) := get_next_token s false.
Definition next_raw_token (s : parse) : outcome (parse * Z) := get_next_token s true.

Fixpoint peek_loop (fuel : nat) (s : parse) (raw : bool) : outcome parse :=
  match fuel with
  | O => Undef
  | S fuel => r ← get_raw_token s; let s := set_token r.2 r.1 in if negb raw && (r.2 =? WHITESPACE) then peek_loop fuel s raw else Ret s
  end.

Definition do_peek_token (s : parse) (raw : bool) : outcome (parse * Z) :=
  s ← (if (token s =? 0) || (negb raw && (token s =? WHITESPACE)) then
         let s := set_where (set_tpos (lexline (where_ s)) (lexchar (where_ s)) (where_ s)) s in
         s ← peek_loop (S (left s)) s raw;
         let w := where_ s in
         let w := if lexline w =? tline w then w else set_token_line (prev_line w) w in
         Ret (set_where (set_tpos (lexline w) (lexchar w) (set_lex (tline w) (tlpos w) w)) s)
       else Ret s);
  Ret (s, token s).

Definition peek_token (s : parse) : outcome (parse * Z) := do_peek_token s false.
Definition peek_raw_token (s : parse) : outcome (parse * Z) := do_peek_token s true.

(** ** Going back *)

(** The state that is saved is kept with the parser; [None] when there is none. *)
Definition save_parse_state (memory : bool) (p : parse * option parse) : (parse * option parse) * bool :=
  if memory then ((p.1, Some p.1), true) else ((p.1, None), false).

(** The text of a token of one character is in a static variable, which is not restored. *)
Definition restore_parse_state (p : parse * option parse) : (parse * option parse) * bool :=
  match p.2 with
  | None => (p, false)
  | Some s => ((set_tb (tb p.1) s, None), true)
  end.

End ConfLex.
