(* ===== verification/Print.v ===== *)
(** * The texts that the server writes (common/print.c)

    Strings with escapes, octets in hexadecimal, hardware addresses and dates, as they
    are written to the lease file and read by the lexer of [ConfLex].  Buffers are
    written with their bounds; [sprintf], [gmtime] and [strftime] are those
    of the C library. *)

From Stdlib Require Import ZArith Lia String.
From stdpp Require Import base list numbers option.
From S2P Require Import Prelude.
From S2P Require Import DhcToken.
From S2P Require Import ConfLex.
#[local] Open Scope Z_scope.

Module Print.

Import DhcToken ConfLex.

Definition isprint (c : Z) : bool := (32 <=? c) && (c <=? 126).

(** ** Strings with escapes *)

Definition plain (c : Z) : bool := isascii c && isprint c.

(** The room that a character takes. *)
Definition quote_size (c : Z) : Z :=
  if c =? 32 then 1 else if negb (plain c) then 4 else if (c =? 34) || (c =? 92) then 2 else 1.

(** ["\\%03o"] *)
Definition octal (c : Z) : list Z := [92; 48 + c / 64; 48 + c / 8 mod 8; 48 + c mod 8].

(** The characters are written at [nsp]; [sprintf] writes a zero behind its own. *)
Fixpoint quote_loop (s : list Z) (buf : list Z) (nsp : Z) : outcome (list Z * Z) :=
  match s with
  | [] => Ret (buf, nsp)
  | c :: s =>
    if c =? 32 then buf ← wr buf nsp 32; quote_loop s buf (nsp + 1)
    else if negb (plain c) then buf ← memcpy buf nsp (octal c ++ [0]); quote_loop s buf (nsp + 4)
    else if (c =? 34) || (c =? 92) then buf ← memcpy buf nsp [92; c]; quote_loop s buf (nsp + 2)
    else buf ← wr buf nsp c; quote_loop s buf (nsp + 1)
  end.

Definition sum_sizes (s : list Z) : Z := foldr (fun c n => quote_size c + n) 0 s.

(** The string ends at its first zero. *)
Definition quotify_string (memory : bool) (s : list Z) : outcome (option (list Z)) :=
  if negb memory then Ret None
  else
    let s := c_string s in
    r ← quote_loop s (replicate (Z.to_nat (sum_sizes s + 1)) 0) 0;
    buf ← wr r.1 r.2 0; Ret (Some buf).

Definition quotify_buf (memory : bool) (s : list Z) (enclose_char : Z) : outcome (option (list Z)) :=
  if negb memory then Ret None
  else
    let e := negb (enclose_char =? 0) in
    let nulen := sum_sizes s + (if e then 2 else 0) in
    let buf := replicate (Z.to_nat (nulen + 1)) 0 in
    r ← (if e then buf ← wr buf 0 enclose_char; Ret (buf, 1) else Ret (buf, 0));
    r ← quote_loop s r.1 r.2;
    r ← (if e then buf ← wr r.1 r.2 enclose_char; Ret (buf, r.2 + 1) else Ret r);
    buf ← wr r.1 r.2 0; Ret (Some buf).

(** ** Hexadecimal *)

Definition hex_char (d : Z) : Z := if d <? 10 then 48 + d else 87 + d.
(** ["%02x"] *)
Definition hex2 (c : Z) : list Z := [hex_char (c / 16); hex_char (c mod 16)].

Fixpoint hw_loop (data : list Z) (habuf : list Z) (s : Z) : outcome (list Z * Z) :=
  match data with
  | [] => Ret (habuf, s)
  | c :: data => habuf ← memcpy habuf s (hex2 c ++ [0]); habuf ← wr habuf (s + 2) 58; hw_loop data habuf (s + 3)
  end.

(** The static buffer has 49 characters. *)
Definition print_hw_addr (habuf data : list Z) : outcome (list Z) :=
  match data with
  | [] => wr habuf 0 0
  | _ => r ← hw_loop data habuf 0; wr r.1 (r.2 - 1) 0
  end.

Fixpoint hex_loop (data : list Z) (first : bool) (buf : list Z) (p : Z) : outcome (list Z) :=
  match data with
  | [] => Ret buf
  | c :: data =>
    r ← (if first then Ret (buf, p) else buf ← wr buf p 58; Ret (buf, p + 1));
    buf ← memcpy r.1 r.2 (hex2 c ++ [0]);
    hex_loop data false buf (r.2 + 2)
  end.

Definition print_hex_only (data : list Z) (limit : Z) (buf : list Z) : outcome (list Z) :=
  if limit =? 0 then Ret buf
  else if bool_decide (data = []) || (limit <? u32 (Zlen data * 3)) then wr buf 0 0
  else hex_loop data true buf 0.

Definition buf_to_hex (memory : bool) (s : list Z) : outcome (option (list Z)) :=
  if negb memory then Ret None
  else if bool_decide (s = []) then Ret (Some [0])
  else
    let nulen := u32 (Zlen s * 3) in
    buf ← print_hex_only s nulen (replicate (Z.to_nat nulen) 0);
    Ret (Some buf).

Definition format_lease_id (memory : bool) (s : list Z) (format : Z) : outcome (option (list Z)) :=
  if format =? TOKEN_HEX then buf_to_hex memory s else quotify_buf memory s 34.

(** ** Dates *)

(** Decimal digits; ["%02d"]. *)
Fixpoint digits (fuel : nat) (n : Z) : list Z :=
  match fuel with
  | O => []
  | S fuel => if n <? 10 then [48 + n] else digits fuel (n / 10) ++ [48 + n mod 10]
  end.
Definition dec (n : Z) : list Z := digits (S (Z.to_nat (Z.log2 n))) n.
Definition dec2 (n : Z) : list Z := [48 + n / 10; 48 + n mod 10].

(** The calendar of [gmtime]. *)
Definition leap (y : Z) : bool := ((y mod 4 =? 0) && negb (y mod 100 =? 0)) || (y mod 400 =? 0).
Definition year_days (y : Z) : Z := if leap y then 366 else 365.
Definition month_days (y m : Z) : Z := nthZ [31; if leap y then 29 else 28; 31; 30; 31; 30; 31; 31; 30; 31; 30; 31] m.

Fixpoint year_loop (fuel : nat) (y d : Z) : Z * Z :=
  match fuel with O => (y, d) | S fuel => if d <? year_days y then (y, d) else year_loop fuel (y + 1) (d - year_days y) end.

Fixpoint month_loop (fuel : nat) (y m d : Z) : Z * Z :=
  match fuel with O => (m, d) | S fuel => if d <? month_days y m then (m, d) else month_loop fuel y (m + 1) (d - month_days y m) end.

Record tm : Type := Tm { tm_sec : Z; tm_min : Z; tm_hour : Z; tm_mday : Z; tm_mon : Z; tm_year : Z; tm_wday : Z }.

Definition gmtime (t : Z) : tm :=
  let d := t / 86400 in
  let s := t mod 86400 in
  let '(y, yd) := year_loop (S (Z.to_nat (d / 365))) 1970 d in
  let '(m, md) := month_loop 12 y 0 yd in
  Tm (s mod 60) (s / 60 mod 60) (s / 3600) (md + 1) m (y - 1900) ((d + 4) mod 7).

(** ["%w %Y/%m/%d %H:%M:%S;"] *)
Definition strftime (t : tm) : list Z :=
  dec (tm_wday t) ++ [32] ++ dec (tm_year t + 1900) ++ [47] ++ dec2 (tm_mon t + 1) ++ [47] ++ dec2 (tm_mday t) ++ [32] ++
  dec2 (tm_hour t) ++ [58] ++ dec2 (tm_min t) ++ [58] ++ dec2 (tm_sec t) ++ [59].

Definition MAX_TIME : Z := 2147483647.

(** The size of the static buffer of [print_time]. *)
Definition TIME_BUF : Z := 60.

(** With the local format the text of the local time follows, which is for humans. *)
Definition print_time (local_format : option (Z -> list Z)) (t : Z) : option (list Z) :=
  if t =? MAX_TIME then Some (chars "never;")
  else if t <? 0 then None
  else
    let text := match local_format with
                | Some local => chars "epoch " ++ dec t ++ chars "; " ++ local t
                | None => strftime (gmtime t)
                end in
    if Zlen text <? TIME_BUF then Some text else None.

End Print.
