(* ===== verification/ConfParse.v ===== *)
(** * Parsing of simple values (common/parse.c)

    Semicolons and braces, strings, host names, numbers and lists of numbers,
    addresses, hardware addresses and dates, over the tokens of [ConfLex].  Memory is
    taken to be available.  [atoi] is that of the C library: the value of [strtol], cut to
    the width of an [int]. *)

From Stdlib Require Import ZArith Lia String.
From stdpp Require Import base list numbers option.
From S2P Require Import Prelude.
From S2P Require Import Convert.
From S2P Require Import DhcToken.
From S2P Require Import ConfLex.
From S2P Require Import Print.
#[local] Open Scope Z_scope.

Module ConfParse.

Import DhcToken ConfLex.

(** ** Skipping *)

(** A token that has been looked at already. *)
Definition skip_token (s : parse) : outcome parse := r ← next_token s; Ret r.1.

Fixpoint skip_loop (fuel : nat) (s : parse) (brace_count : Z) : outcome parse :=
  match fuel with
  | O => Undef
  | S fuel =>
    r ← peek_token s; let '(s, t) := r in
    let again s n := r ← next_token s; if r.2 =? END_OF_FILE then Ret r.1 else skip_loop fuel r.1 n in
    if t =? RBRACE then
      let n := if 0 <? brace_count then brace_count - 1 else brace_count in
      if n =? 0 then skip_token s else again s n
    else if t =? LBRACE then again s (brace_count + 1)
    else if (t =? SEMI) && (brace_count =? 0) then skip_token s
    else if t =? EOL then skip_token s
    else again s brace_count
  end.

Definition skip_to_rbrace (s : parse) (brace_count : Z) : outcome parse := skip_loop (S (S (left s))) s brace_count.
Definition skip_to_semi (s : parse) : outcome parse := skip_to_rbrace s 0.

Definition parse_semi (s : parse) : outcome (parse * bool) :=
  r ← next_token s;
  if r.2 =? SEMI then Ret (r.1, true) else s ← skip_to_semi (parse_warn r.1); Ret (s, false).

Definition parse_lbrace (s : parse) : outcome (parse * bool) :=
  r ← next_token s;
  if r.2 =? LBRACE then Ret (r.1, true) else s ← skip_to_semi (parse_warn r.1); Ret (s, false).

(** ** Strings and names *)

Definition parse_string (s : parse) : outcome (parse * option (list Z)) :=
  r ← next_token s; let '(s, t) := r in
  if t =? STRING then
    v ← val_len s;
    r ← parse_semi s;
    Ret (r.1, if (r.2 : bool) then Some v else None)
  else s ← skip_to_semi (parse_warn s); Ret (s, None).

(** The identifiers, last one first, and whether a dot is at the end. *)
Fixpoint name_list (fuel : nat) (s : parse) (c : list (list Z)) (ltid : bool) : outcome (parse * list (list Z) * bool) :=
  match fuel with
  | O => Undef
  | S fuel =>
    r ← peek_token s; let '(s, t) := r in
    if negb (is_identifier t) && negb (t =? NUMBER) then Ret (s, c, ltid)
    else
      s ← skip_token s;
      v ← val s;
      r ← peek_token s; let '(s, t) := r in
      if t =? DOT then s ← skip_token s; name_list fuel s (v :: c) true else Ret (s, v :: c, false)
  end.

(** The identifiers with dots between them. *)
Fixpoint join (c : list (list Z)) : list Z := match c with [] => [] | [v] => v | v :: c => join c ++ [46] ++ v end.

Definition parse_host_name (s : parse) : outcome (parse * option (list Z)) :=
  r ← name_list (S (S (left s))) s [] false; let '(s, c, ltid) := r in
  Ret (s, match c with [] => @None (list Z) | _ => Some (join c ++ (if (ltid : bool) then [46] else [])) end).

(** ** Numbers *)

Definition digit_value (c : Z) : option Z :=
  if 97 <=? c then Some (c - 97 + 10) else if 65 <=? c then Some (c - 65 + 10) else if 48 <=? c then Some (c - 48) else None.

(** The digits up to one that is not of the base; the flag tells of such a one. *)
Fixpoint convert_loop (str : list Z) (base v : Z) : Z * bool :=
  match str with
  | [] => (v, false)
  | c :: str =>
    match digit_value c with
    | Some d => if base <=? d then (v, true) else convert_loop str base (u32 (v * base + d))
    | None => (v, true)
    end
  end.

(** The base of a number, from its text. *)
Definition guess_base (str : list Z) : Z * list Z :=
  match str with
  | c :: str' =>
    if c =? 48 then
      match str' with
      | d :: str'' => if d =? 120 then (16, str'') else if isascii d && isdigit d then (8, str') else (10, str)
      | [] => (10, str)
      end
    else (10, str)
  | [] => (10, str)
  end.

(** An empty text is a bogus number too.  [None]: the size is not one of an integer. *)
Definition convert_num (s : parse) (str : list Z) (base size : Z) : outcome (parse * option (list Z)) :=
  let '(negative, str) := match str with c :: str' => if c =? 45 then (true, str') else (false, str) | [] => (false, str) end in
  let '(base, str) := if base =? 0 then guess_base str else (base, str) in
  let '(v, bogus) := match str with [] => (0, true) | _ => convert_loop str base 0 end in
  let max := s32 (2 ^ (size - 1) + (if negative then 0 else 2 ^ (size - 1) - 1)) in
  let s := if bogus then parse_warn s else s in
  let s := if u32 max <? v then parse_warn s else s in
  let z n := replicate n 0 in
  if negative then
    if size =? 8 then Ret (s, Some [u8 (- v)])
    else if size =? 16 then b ← Convert.putShort (z 2%nat) (- v); Ret (s, Some b)
    else if size =? 32 then b ← Convert.putLong (z 4%nat) (- v); Ret (s, Some b)
    else Ret (parse_warn s, None)
  else
    if size =? 8 then Ret (s, Some [u8 v])
    else if size =? 16 then b ← Convert.putUShort (z 2%nat) (u16 v); Ret (s, Some b)
    else if size =? 32 then b ← Convert.putULong (z 4%nat) v; Ret (s, Some b)
    else Ret (parse_warn s, None).

(** The number is written at a place of the buffer. *)
Definition convert_at (s : parse) (buf : list Z) (off : Z) (str : list Z) (base size : Z) : outcome (parse * list Z) :=
  r ← convert_num s str base size;
  match r.2 with Some b => buf ← memcpy buf off b; Ret (r.1, buf) | None => Ret (r.1, buf) end.

(** The numbers of a list, last one first, are written from the end of the buffer. *)
Fixpoint convert_back (s : parse) (buf : list Z) (off : Z) (c : list (list Z)) (base size : Z) : outcome (parse * list Z) :=
  match c with
  | [] => Ret (s, buf)
  | str :: c => r ← convert_at s buf off str base size; convert_back r.1 r.2 (off - size / 8) c base size
  end.

(** The numbers with the separator between them: they are written to the buffer, or
    kept when there is none.  [None]: an error. *)
Fixpoint aggregate_loop (fuel : nat) (s : parse) (count : Z) (buf : option (list Z)) (off : Z) (c : list (list Z)) (max separator base size : Z)
  : outcome (parse * option (Z * option (list Z) * list (list Z))) :=
  match fuel with
  | O => Undef
  | S fuel =>
    let number s :=
      r ← next_token s; let '(s, t) := r in
      if t =? END_OF_FILE then Ret (parse_warn s, Some (count, buf, c))
      else if negb (t =? NUMBER) && (negb (base =? 16) || negb (t =? NUMBER_OR_NAME)) then s ← skip_to_semi (parse_warn s); Ret (s, None)
      else
        v ← val s;
        r ← match buf with
            | Some b => r ← convert_at s b off v base size; Ret (r.1, Some r.2, c)
            | None => Ret (s, None, v :: c)
            end;
        let '(s, buf, c) := r in
        if count + 1 =? max then Ret (s, Some (count + 1, buf, c))
        else aggregate_loop fuel s (count + 1) buf (off + size / 8) c max separator base size
    in
    if negb (count =? 0) then
      r ← peek_token s; let '(s, t) := r in
      if t =? separator then s ← skip_token s; number s
      else if max =? 0 then Ret (s, Some (count, buf, c))
      else
        r ← (if negb (t =? RBRACE) && negb (t =? LBRACE) then next_token s else Ret (s, t)); let '(s, t) := r in
        let s := parse_warn s in
        s ← (if t =? SEMI then Ret s else skip_to_semi s);
        Ret (s, None)
    else number s
  end.

(** The buffer and the number of its elements. *)
Definition parse_numeric_aggregate (s : parse) (buf : option (list Z)) (max separator base size : Z) : outcome (parse * option (list Z) * Z) :=
  let bufp := match buf with Some _ => buf | None => if max =? 0 then None else Some (replicate (Z.to_nat (max * size / 8)) 0) end in
  r ← aggregate_loop (S (S (left s))) s 0 bufp 0 [] max separator base size;
  match r with
  | (s, None) => Ret (s, None, max)
  | (s, Some (count, bufp, c)) =>
    match c with
    | [] => Ret (s, bufp, max)
    | _ => r ← convert_back s (replicate (Z.to_nat (count * size / 8)) 0) (count - size / 8) c base size; Ret (r.1, Some r.2, count)
    end
  end.

Definition parse_ip_addr (s : parse) : outcome (parse * option (list Z)) :=
  r ← parse_numeric_aggregate s (Some (replicate 4 0)) 4 DOT 10 8; Ret r.1.

(** The digits at the start of a text, behind white space and a sign. *)
Fixpoint strtol_digits (str : list Z) (v : Z) : Z := match str with c :: str => if isdigit c then strtol_digits str (v * 10 + (c - 48)) else v | [] => v end.

Fixpoint strtol (str : list Z) : Z :=
  match str with
  | c :: str' => if isspace c then strtol str' else if c =? 45 then - strtol_digits str' 0 else if c =? 43 then strtol_digits str' 0 else strtol_digits str 0
  | [] => 0
  end.

(** [strtol] stays within a [long]. *)
Definition atol (str : list Z) : Z := Z.max (- 2 ^ 63) (Z.min (2 ^ 63 - 1) (strtol str)).
Definition atoi (str : list Z) : Z := s32 (atol str).

(** ** Hardware addresses *)

Definition HTYPE_ETHER : Z := 1.
Definition HTYPE_IEEE802 : Z := 6.
Definition HTYPE_FDDI : Z := 8.
Definition HTYPE_INFINIBAND : Z := 32.
Definition HBUF : Z := 21.

Record hardware : Type := Hardware { hlen : Z; hbuf : list Z }.

Definition hardware_type (t : Z) (v : list Z) : option Z :=
  if t =? ETHERNET then Some HTYPE_ETHER
  else if t =? TOKEN_RING then Some HTYPE_IEEE802
  else if t =? TOKEN_FDDI then Some HTYPE_FDDI
  else if t =? TOKEN_INFINIBAND then Some HTYPE_INFINIBAND
  else if bool_decide (take 8 v = chars "unknown-") then Some (u8 (atoi (drop 8 v)))
  else None.

Definition end_semi (s : parse) : outcome parse :=
  r ← next_token s; if r.2 =? SEMI then Ret r.1 else skip_to_semi (parse_warn r.1).

Definition parse_hardware_param (s : parse) (h : hardware) : outcome (parse * hardware) :=
  r ← next_token s; let '(s, t) := r in
  v ← val s;
  match hardware_type t v with
  | None => s ← skip_to_semi (parse_warn s); Ret (s, h)
  | Some type =>
    b ← wr (hbuf h) 0 type;
    r ← peek_token s; let '(s, t) := r in
    if t =? SEMI then s ← end_semi s; Ret (s, Hardware 1 b)
    else
      r ← parse_numeric_aggregate s None 0 COLON 16 8;
      match r with
      | (s, None, _) => Ret (s, Hardware 1 b)
      | (s, Some d, n) =>
        if HBUF <? u32 (n + 1) then s ← end_semi (parse_warn s); Ret (s, Hardware (hlen h) b)
        else
          d ← memread d 0 n;
          b ← memcpy b 1 d;
          b ← memcpy b (n + 1) (replicate (Z.to_nat (HBUF - n - 1)) 0);
          s ← end_semi s;
          Ret (s, Hardware (n + 1) b)
      end
  end.

(** ** Dates *)

(** The next token must be [t]; a semicolon is left where it is. *)
Definition expect (s : parse) (t : Z) : outcome (parse * option (list Z)) :=
  r ← peek_token s; let '(s, t') := r in
  if t' =? t then s ← skip_token s; v ← val s; Ret (s, Some v)
  else s ← (if t' =? SEMI then Ret s else skip_token s); Ret (parse_warn s, None).

(** The numbers and marks of a date, in their order; the numbers are collected. *)
Fixpoint expects (s : parse) (l : list Z) (acc : list Z) : outcome (parse * option (list Z)) :=
  match l with
  | [] => Ret (s, Some acc)
  | t :: l =>
    r ← expect s t;
    match r with
    | (s, Some v) => expects s l (if t =? NUMBER then acc ++ [atoi v] else acc)
    | (s, None) => Ret (s, None)
    end
  end.

Definition months : list Z := [31; 59; 90; 120; 151; 181; 212; 243; 273; 304; 334].

(** The time of a date: [year] since 1900, [mon] from zero. *)
Definition guess (year mon mday hour min sec tzoff : Z) : outcome Z :=
  m ← (if mon =? 0 then Ret 0 else rd months (mon - 1));
  let leap := if (1 <? mon) && (Z.land (year - 72) 3 =? 0) then 1 else 0 in
  Ret (s32 (((((365 * (year - 70) + Z.quot (year - 69) 4 + m + leap + mday - 1) * 24 + hour) * 60) + min) * 60 + sec + tzoff)).

Definition parse_date_core (s : parse) : outcome (parse * Z) :=
  r ← peek_token s; let '(s, t) := r in
  if t =? NEVER then s ← skip_token s; Ret (s, Print.MAX_TIME)
  else if t =? EPOCH then
    s ← skip_token s;
    r ← expect s NUMBER;
    Ret (r.1, match r.2 with Some v => atoi v | None => 0 end)
  else
    r ← expects s [NUMBER; NUMBER; SLASH; NUMBER; SLASH; NUMBER; NUMBER; COLON; NUMBER; COLON; NUMBER] [];
    match r with
    | (s, Some [_; y; mon; mday; hour; min; sec]) =>
      let year := if 1900 <? y then y - 1900 else y in
      r ← peek_token s; let '(s, t) := r in
      let finish s tzoff := if 138 <=? year then Ret (s, Print.MAX_TIME) else g ← guess year (s32 (mon - 1)) mday hour min sec tzoff; Ret (s, g) in
      if t =? NUMBER then s ← skip_token s; v ← val s; finish s (atoi v)
      else if t =? SEMI then finish s 0
      else s ← skip_token s; Ret (parse_warn s, 0)
    | (s, _) => Ret (s, 0)
    end.

Definition parse_date (s : parse) : outcome (parse * Z) :=
  r ← parse_date_core s;
  q ← parse_semi r.1;
  Ret (q.1, if (q.2 : bool) then r.2 else 0).

End ConfParse.
