(* ===== verification/LeaseFile.v ===== *)
(** * The lease file (server/db.c, server/confpars.c)

    [write_lease] writes a lease as a declaration, and [parse_lease_declaration] reads one,
    when the server starts.  What is written and read of classes, of the
    options of relay agents and of statements is left to parameters; the text
    of the file is returned, and writes to the file succeed. *)

From Stdlib Require Import ZArith Lia String.
From stdpp Require Import base list numbers option.
From S2P Require Import Prelude.
From S2P Require Import FailoverLease.
From S2P Require Import Mdb.
From S2P Require Import DhcToken.
From S2P Require Import ConfLex.
From S2P Require Import Print.
From S2P Require Import ConfParse.
#[local] Open Scope Z_scope.

Module LeaseFile.

Import FailoverLease DhcToken ConfLex Print ConfParse.

Inductive binding_value : Type :=
| binding_data (data : option (list Z))
| binding_numeric (intval : Z)
| binding_boolean (b : bool)
| binding_dns
| binding_function.

Record binding : Type := Binding { name : list Z; value : option binding_value }.

(** [K], [A] and [E]: classes, options of relay agents, and statements. *)
Section File.
Context {K A E : Type}.

Record lease : Type := Lease {
  ip_addr : list Z;
  starts : Z;
  ends : Z;
  tstp : Z;
  tsfp : Z;
  atsfp : Z;
  cltt : Z;
  binding_state : binding_state_t;
  next_binding_state : binding_state_t;
  rewind_binding_state : binding_state_t;
  flags : Z;
  billing_class : option K;
  hardware_addr : hardware;
  uid : option (list Z);
  scope : option (list binding);
  agent_options : option (list A);
  client_hostname : option (list Z);
  on_expiry : option E;
  on_release : option E
}.

Definition set_starts v l := Lease (ip_addr l) v (ends l) (tstp l) (tsfp l) (atsfp l) (cltt l) (binding_state l) (next_binding_state l) (rewind_binding_state l) (flags l) (billing_class l) (hardware_addr l) (uid l) (scope l) (agent_options l) (client_hostname l) (on_expiry l) (on_release l).
Definition set_ends v l := Lease (ip_addr l) (starts l) v (tstp l) (tsfp l) (atsfp l) (cltt l) (binding_state l) (next_binding_state l) (rewind_binding_state l) (flags l) (billing_class l) (hardware_addr l) (uid l) (scope l) (agent_options l) (client_hostname l) (on_expiry l) (on_release l).
Definition set_tstp v l := Lease (ip_addr l) (starts l) (ends l) v (tsfp l) (atsfp l) (cltt l) (binding_state l) (next_binding_state l) (rewind_binding_state l) (flags l) (billing_class l) (hardware_addr l) (uid l) (scope l) (agent_options l) (client_hostname l) (on_expiry l) (on_release l).
Definition set_tsfp v l := Lease (ip_addr l) (starts l) (ends l) (tstp l) v (atsfp l) (cltt l) (binding_state l) (next_binding_state l) (rewind_binding_state l) (flags l) (billing_class l) (hardware_addr l) (uid l) (scope l) (agent_options l) (client_hostname l) (on_expiry l) (on_release l).
Definition set_atsfp v l := Lease (ip_addr l) (starts l) (ends l) (tstp l) (tsfp l) v (cltt l) (binding_state l) (next_binding_state l) (rewind_binding_state l) (flags l) (billing_class l) (hardware_addr l) (uid l) (scope l) (agent_options l) (client_hostname l) (on_expiry l) (on_release l).
Definition set_cltt v l := Lease (ip_addr l) (starts l) (ends l) (tstp l) (tsfp l) (atsfp l) v (binding_state l) (next_binding_state l) (rewind_binding_state l) (flags l) (billing_class l) (hardware_addr l) (uid l) (scope l) (agent_options l) (client_hostname l) (on_expiry l) (on_release l).
Definition set_states b n r l := Lease (ip_addr l) (starts l) (ends l) (tstp l) (tsfp l) (atsfp l) (cltt l) b n r (flags l) (billing_class l) (hardware_addr l) (uid l) (scope l) (agent_options l) (client_hostname l) (on_expiry l) (on_release l).
Definition add_flag f l := Lease (ip_addr l) (starts l) (ends l) (tstp l) (tsfp l) (atsfp l) (cltt l) (binding_state l) (next_binding_state l) (rewind_binding_state l) (Z.lor (flags l) f) (billing_class l) (hardware_addr l) (uid l) (scope l) (agent_options l) (client_hostname l) (on_expiry l) (on_release l).
Definition set_billing k l := Lease (ip_addr l) (starts l) (ends l) (tstp l) (tsfp l) (atsfp l) (cltt l) (binding_state l) (next_binding_state l) (rewind_binding_state l) (flags l) k (hardware_addr l) (uid l) (scope l) (agent_options l) (client_hostname l) (on_expiry l) (on_release l).
Definition set_hardware h l := Lease (ip_addr l) (starts l) (ends l) (tstp l) (tsfp l) (atsfp l) (cltt l) (binding_state l) (next_binding_state l) (rewind_binding_state l) (flags l) (billing_class l) h (uid l) (scope l) (agent_options l) (client_hostname l) (on_expiry l) (on_release l).
Definition set_uid u l := Lease (ip_addr l) (starts l) (ends l) (tstp l) (tsfp l) (atsfp l) (cltt l) (binding_state l) (next_binding_state l) (rewind_binding_state l) (flags l) (billing_class l) (hardware_addr l) u (scope l) (agent_options l) (client_hostname l) (on_expiry l) (on_release l).
Definition set_scope x l := Lease (ip_addr l) (starts l) (ends l) (tstp l) (tsfp l) (atsfp l) (cltt l) (binding_state l) (next_binding_state l) (rewind_binding_state l) (flags l) (billing_class l) (hardware_addr l) (uid l) x (agent_options l) (client_hostname l) (on_expiry l) (on_release l).
Definition set_agent o l := Lease (ip_addr l) (starts l) (ends l) (tstp l) (tsfp l) (atsfp l) (cltt l) (binding_state l) (next_binding_state l) (rewind_binding_state l) (flags l) (billing_class l) (hardware_addr l) (uid l) (scope l) o (client_hostname l) (on_expiry l) (on_release l).
Definition set_client_hostname n l := Lease (ip_addr l) (starts l) (ends l) (tstp l) (tsfp l) (atsfp l) (cltt l) (binding_state l) (next_binding_state l) (rewind_binding_state l) (flags l) (billing_class l) (hardware_addr l) (uid l) (scope l) (agent_options l) n (on_expiry l) (on_release l).
Definition set_on x r l := Lease (ip_addr l) (starts l) (ends l) (tstp l) (tsfp l) (atsfp l) (cltt l) (binding_state l) (next_binding_state l) (rewind_binding_state l) (flags l) (billing_class l) (hardware_addr l) (uid l) (scope l) (agent_options l) (client_hostname l) x r.

(** A lease that has been allocated, with its address. *)
Definition new_lease (a : list Z) : lease :=
  Lease a 0 0 0 0 0 0 (FTS_other 0) (FTS_other 0) (FTS_other 0) 0 None (Hardware 0 (replicate 21 0)) None None None None None None.

(** What the two functions use of the rest of the server. *)
Record services : Type := Services {
  now : Z;
  memory : bool;
  local_format : option (Z -> list Z);
  lease_id_format : Z;
  write_class : K -> list Z * bool;
  write_option : A -> option (list Z);
  write_statements : E -> list Z;
  same_statements : E -> E -> bool;
  find_class : list Z -> option K;
  parse_class_declaration : parse -> outcome (parse * option K);
  parse_on_statement : parse -> outcome (parse * option (bool * bool * option E));
  parse_option_decl : parse -> outcome (parse * option (bool * A));
  other_declaration : Z -> parse -> outcome parse
}.
Context (V : services).

(** ** Writing *)

(** The text so far, and whether there have been no errors. *)
Definition file : Type := list Z * bool.
Definition fprintf (t : list Z) (f : file) : file := (f.1 ++ t, f.2).
Definition error (f : file) : file := (f.1, false).

(** [inet_ntop] of an IPv4 address. *)
Fixpoint dotted (a : list Z) : list Z := match a with [] => [] | [c] => dec c | c :: a => dec c ++ [46] ++ dotted a end.

(** A time of zero is left out. *)
Definition write_time (key : string) (t : Z) (f : file) : file :=
  if t =? 0 then f
  else match print_time (local_format V) t with Some v => fprintf (chars ("
  " ++ key ++ " ")%string ++ v) f | None => error f end.

Definition state_name (b : binding_state_t) : string :=
  match b with
  | FTS_FREE => "free" | FTS_ACTIVE => "active" | FTS_EXPIRED => "expired" | FTS_RELEASED => "released" | FTS_ABANDONED => "abandoned"
  | FTS_RESET => "reset" | FTS_BACKUP => "backup" | FTS_other _ => "abandoned"
  end%string.

Definition write_states (l : lease) (f : file) : file :=
  let f := fprintf (chars "
  binding state " ++ chars (state_name (binding_state l)) ++ chars ";") f in
  let f := if decide (binding_state l = next_binding_state l) then f
           else fprintf (chars "
  next binding state " ++ chars (state_name (next_binding_state l)) ++ chars ";") f in
  if bool_decide (binding_state l <> rewind_binding_state l) && valid (rewind_binding_state l)
  then fprintf (chars "
  rewind binding state " ++ chars (state_name (rewind_binding_state l)) ++ chars ";") f
  else f.

Definition hardware_types (t : Z) : list Z :=
  if t =? 1 then chars "ethernet" else if t =? 6 then chars "token-ring" else if t =? 8 then chars "fddi" else if t =? 32 then chars "infiniband"
  else chars "unknown-" ++ dec t.

Definition write_hardware (l : lease) (f : file) : outcome file :=
  let h := hardware_addr l in
  if hlen h =? 0 then Ret f
  else
    t ← rd (hbuf h) 0;
    d ← memread (hbuf h) 1 (hlen h - 1);
    a ← print_hw_addr (replicate 49 0) d;
    Ret (fprintf (chars "
  hardware " ++ hardware_types t ++ [32] ++ c_string a ++ chars ";") f).

Definition write_uid (l : lease) (f : file) : outcome file :=
  match uid l with
  | Some ((_ :: _) as u) =>
    r ← format_lease_id (memory V) u (lease_id_format V);
    Ret (match r with Some b => fprintf (chars "
  uid " ++ c_string b ++ chars ";") f | None => error f end)
  | _ => Ret f
  end.

(** ["%ld"] *)
Definition long (n : Z) : list Z := if n <? 0 then 45 :: dec (- n) else dec n.

Definition write_binding_scope (b : binding) (v : binding_value) (f : file) : outcome file :=
  let set t := fprintf (chars "
  set " ++ name b ++ chars " = " ++ t ++ chars ";") f in
  match v with
  | binding_data (Some d) => r ← quotify_buf (memory V) d 34; Ret (match r with Some t => set (c_string t) | None => error f end)
  | binding_data None => Ret f
  | binding_numeric n => Ret (set (37 :: long n))
  | binding_boolean b => Ret (set (if b then chars "true" else chars "false"))
  | binding_dns | binding_function => Ret f
  end.

Fixpoint write_scope (l : list binding) (f : file) : outcome file :=
  match l with
  | [] => Ret f
  | b :: l => f ← match value b with Some v => write_binding_scope b v f | None => Ret f end; write_scope l f
  end.

(** An option without data is left out. *)
Fixpoint write_agent (l : list A) (f : file) : file :=
  match l with
  | [] => f
  | o :: l => write_agent l (match write_option V o with Some t => fprintf (chars "
  option agent." ++ t ++ chars ";") f | None => f end)
  end.

Definition db_printable (s : list Z) : bool := forallb (fun c => plain c && negb (c =? 34) && negb (c =? 92)) (c_string s).

Definition write_hostname (l : lease) (f : file) : outcome file :=
  match client_hostname l with
  | Some n =>
    if db_printable n then
      r ← quotify_string (memory V) n;
      Ret (match r with Some t => fprintf (chars "
  client-hostname " ++ [34] ++ c_string t ++ [34] ++ chars ";") f | None => error f end)
    else Ret f
  | None => Ret f
  end.

Definition write_on (l : lease) (f : file) : file :=
  let same := match on_expiry l, on_release l with Some x, Some r => same_statements V x r | _, _ => false end in
  let f := match on_expiry l with
           | Some x => fprintf (chars "
  on expiry" ++ (if same then chars " or release" else []) ++ chars " {" ++ write_statements V x ++ chars "
  }") f
           | None => f
           end in
  match on_release l with
  | Some r => if same then f else fprintf (chars "
  on release {" ++ write_statements V r ++ chars "
  }") f
  | None => f
  end.

(** [corrupt]: the file is, unless [new_lease_file] makes a new one; the text,
    whether the file is corrupt now, and the result. *)
Definition write_lease (corrupt new_lease_file : bool) (l : lease) : outcome (list Z * bool * bool) :=
  if corrupt && negb new_lease_file then Ret ([], corrupt, false)
  else
    let f := fprintf (chars "lease " ++ dotted (ip_addr l) ++ chars " {") ([], true) in
    let f := write_time "starts" (starts l) f in
    let f := write_time "ends" (ends l) f in
    let f := write_time "tstp" (tstp l) f in
    let f := write_time "tsfp" (tsfp l) f in
    let f := write_time "atsfp" (atsfp l) f in
    let f := write_time "cltt" (cltt l) f in
    let f := write_states l f in
    let f := if Z.land (flags l) Mdb.RESERVED_LEASE =? 0 then f else fprintf (chars "
  reserved;") f in
    let f := if Z.land (flags l) Mdb.BOOTP_LEASE =? 0 then f else fprintf (chars "
  dynamic-bootp;") f in
    let f := match billing_class l with
             | Some k => if now V <? ends l then let '(t, ok) := write_class V k in (f.1 ++ t, f.2 && ok) else f
             | None => f
             end in
    f ← write_hardware l f;
    f ← write_uid l f;
    f ← match scope l with Some b => write_scope b f | None => Ret f end;
    let f := match agent_options l with Some o => write_agent o f | None => f end in
    f ← write_hostname l f;
    let f := write_on l f in
    let f := fprintf (chars "
}
") f in
    Ret (f.1, negb f.2, f.2).

(** ** Reading *)

(** The right side of a [set]. *)
Definition parse_binding_value (s : parse) : outcome (parse * option binding_value) :=
  r ← peek_token s; let '(s, t) := r in
  let bad s t := s ← (if t =? SEMI then Ret (parse_warn s) else skip_to_semi (parse_warn s)); Ret (s, None) in
  if t =? STRING then s ← skip_token s; v ← val_len s; Ret (s, Some (binding_data (Some v)))
  else if t =? NUMBER_OR_NAME then
    r ← parse_numeric_aggregate s None 0 COLON 16 8;
    match r with
    | (s, None, _) => s ← skip_to_semi s; Ret (s, None)
    | (s, Some d, n) => if n =? 0 then Ret (s, Some (binding_data None)) else d ← memread d 0 n; Ret (s, Some (binding_data (Some d)))
    end
  else if t =? PERCENT then
    s ← skip_token s;
    r ← next_token s; let '(s, t) := r in
    if t =? NUMBER then v ← val s; Ret (s, Some (binding_numeric (atol v))) else bad s t
  else if t =? NAME then
    r ← next_token s; let '(s, t) := r in
    v ← val s;
    if strcasecmp v (chars "true") then Ret (s, Some (binding_boolean true))
    else if strcasecmp v (chars "false") then Ret (s, Some (binding_boolean false))
    else bad s t
  else bad s t.

(** The binding with the name gets the value, or a new one is put in front. *)
Fixpoint replace_binding (l : list binding) (n : list Z) (v : binding_value) : option (list binding) :=
  match l with
  | [] => None
  | b :: l => if strcasecmp n (name b) then Some (Binding (name b) (Some v) :: l) else option_map (cons b) (replace_binding l n v)
  end.

Definition set_binding (sc : option (list binding)) (n : list Z) (v : binding_value) : list binding :=
  let l := match sc with Some l => l | None => [] end in
  match replace_binding l n v with Some l => l | None => Binding n (Some v) :: l end.

(** What a parameter does: the lease goes on, with the bit of the parameter, or the
    declaration is given up. *)
Definition result : Type := parse * option (lease * Z).

Definition special_set (s : parse) (l : lease) (n : list Z) (noequal : bool) (seenbit : Z) : outcome result :=
  r ← (if noequal then Ret (s, true)
       else r ← next_token s; if r.2 =? EQUAL then Ret (r.1, true) else s ← skip_to_semi (parse_warn r.1); Ret (s, false));
  let '(s, ok) := r in
  if negb ok then Ret (s, None)
  else
    r ← parse_binding_value s;
    match r with
    | (s, None) => Ret (s, None)
    | (s, Some v) => r ← parse_semi s; Ret (r.1, Some (set_scope (Some (set_binding (scope l) n v)) l, seenbit))
    end.

Definition state_of (t : Z) : option (binding_state_t * Z) :=
  if t =? TOKEN_ABANDONED then Some (FTS_ABANDONED, 0)
  else if t =? TOKEN_FREE then Some (FTS_FREE, 0)
  else if t =? TOKEN_ACTIVE then Some (FTS_ACTIVE, 0)
  else if t =? TOKEN_EXPIRED then Some (FTS_EXPIRED, 0)
  else if t =? TOKEN_RELEASED then Some (FTS_RELEASED, 0)
  else if t =? TOKEN_RESET then Some (FTS_RESET, 0)
  else if t =? TOKEN_BACKUP then Some (FTS_BACKUP, 0)
  else if t =? TOKEN_RESERVED then Some (FTS_ACTIVE, Mdb.RESERVED_LEASE)
  else if t =? TOKEN_BOOTP then Some (FTS_ACTIVE, Mdb.BOOTP_LEASE)
  else None.

Definition do_binding_state (s : parse) (l : lease) (seenmask seenbit : Z) : outcome result :=
  r ← next_token s; let '(s, t) := r in
  if negb (t =? STATE) then s ← skip_to_semi (parse_warn s); Ret (s, Some (l, seenbit))
  else
    r ← next_token s; let '(s, t) := r in
    match state_of t with
    | None => s ← skip_to_semi (parse_warn s); Ret (s, None)
    | Some (b, f) =>
      let l := if f =? 0 then l else add_flag f l in
      let l := if seenbit =? 256 then
                 set_states b (if Z.land seenmask 128 =? 0 then b else next_binding_state l) (if Z.land seenmask 512 =? 0 then b else rewind_binding_state l) l
               else if seenbit =? 128 then set_states (binding_state l) b (rewind_binding_state l) l
               else set_states (binding_state l) (next_binding_state l) b l in
      r ← parse_semi s; Ret (r.1, Some (l, seenbit))
    end.

(** The length of an identifier is a [short]. *)
Definition parse_uid (s : parse) (l : lease) : outcome result :=
  r ← peek_token s; let '(s, t) := r in
  if t =? STRING then
    s ← skip_token s;
    v ← val_len s;
    r ← parse_semi s; Ret (r.1, Some (set_uid (Some v) l, 8))
  else
    r ← parse_numeric_aggregate s None 0 COLON 16 8;
    match r with
    | (s, None, _) => Ret (s, None)
    | (s, Some d, n) =>
      if u16 n =? 0 then r ← parse_semi (parse_warn s); Ret (r.1, Some (set_uid None l, 0))
      else d ← memread d 0 (u16 n); r ← parse_semi s; Ret (r.1, Some (set_uid (Some d) l, 8))
    end.

Definition parse_client_hostname (s : parse) (l : lease) : outcome result :=
  r ← peek_token s; let '(s, t) := r in
  if t =? STRING then
    r ← parse_string s;
    Ret (r.1, match r.2 with Some n => Some (set_client_hostname (Some (c_string n)) l, 1024) | None => None end)
  else
    r ← parse_host_name s;
    match r with
    | (s, Some n) => r ← parse_semi s; Ret (r.1, Some (set_client_hostname (Some n) l, 1024))
    | (s, None) => s ← skip_to_semi (parse_warn s); Ret (s, None)
    end.

Definition parse_billing (s : parse) (l : lease) : outcome result :=
  r ← next_token s; let '(s, t) := r in
  if t =? CLASS then
    r ← next_token s; let '(s, t) := r in
    if negb (t =? STRING) then s ← (if t =? SEMI then Ret (parse_warn s) else skip_to_semi (parse_warn s)); Ret (s, Some (l, 2048))
    else
      v ← val s;
      let k := find_class V v in
      let s := match k with Some _ => s | None => parse_warn s end in
      r ← parse_semi s; Ret (r.1, Some (set_billing k l, 2048))
  else if t =? SUBCLASS then r ← parse_class_declaration V s; Ret (r.1, Some (set_billing r.2 l, 2048))
  else s ← (if t =? SEMI then Ret (parse_warn s) else skip_to_semi (parse_warn s)); Ret (s, Some (l, 2048)).

(** New statements take the place of those that there are. *)
Definition parse_on (s : parse) (l : lease) : outcome result :=
  r ← parse_on_statement V s;
  match r with
  | (s, None) => s ← skip_to_rbrace s 1; Ret (s, None)
  | (s, Some (x, r, st)) =>
    let some := match st with Some _ => true | None => false end in
    Ret (s, Some (set_on (if x && some then st else on_expiry l) (if r && some then st else on_release l) l,
                  (if x && some then 16384 else 0) + (if r && some then 32768 else 0)))
  end.

Definition parse_agent (s : parse) (l : lease) : outcome result :=
  r ← parse_option_decl V s;
  match r with
  | (s, Some (true, o)) => Ret (s, Some (set_agent (Some (match agent_options l with Some a => a | None => [] end ++ [o])) l, 0))
  | (s, Some (false, _)) => Ret (parse_warn s, Some (l, 0))
  | (s, None) => Ret (s, Some (l, 0))
  end.

(** A date; [TIMESTAMP] is among them but not expected. *)
Definition parse_time (s : parse) (t : Z) (l : lease) : outcome result :=
  r ← parse_date s; let '(s, d) := r in
  if t =? STARTS then Ret (s, Some (set_starts d l, 1))
  else if t =? ENDS then Ret (s, Some (set_ends d l, 2))
  else if t =? TSTP then Ret (s, Some (set_tstp d l, 65536))
  else if t =? TSFP then Ret (s, Some (set_tsfp d l, 131072))
  else if t =? ATSFP then Ret (s, Some (set_atsfp d l, 262144))
  else if t =? CLTT then Ret (s, Some (set_cltt d l, 524288))
  else Fatal.

(** A word and a semicolon. *)
Definition and_semi (s : parse) (l : lease) (seenbit : Z) : outcome result := r ← parse_semi s; Ret (r.1, Some (l, seenbit)).

Definition lease_parameter (s : parse) (t : Z) (l : lease) (seenmask : Z) : outcome result :=
  v ← val s;
  if bool_decide (t ∈ [STARTS; ENDS; TIMESTAMP; TSTP; TSFP; ATSFP; CLTT]) then parse_time s t l
  else if t =? UID then parse_uid s l
  else if t =? CLASS then
    r ← next_token s; let '(s, t) := r in
    if is_identifier t then and_semi s l 32
    else s ← (if t =? SEMI then Ret s else skip_to_rbrace s 1); Ret (s, None)
  else if t =? HARDWARE then r ← parse_hardware_param s (hardware_addr l); Ret (r.1, Some (set_hardware r.2 l, 64))
  else if t =? TOKEN_RESERVED then and_semi s (add_flag Mdb.RESERVED_LEASE l) 0
  else if t =? DYNAMIC_BOOTP then and_semi s (add_flag Mdb.BOOTP_LEASE l) 0
  else if t =? TOKEN_ABANDONED then and_semi s (set_states FTS_ABANDONED FTS_ABANDONED (rewind_binding_state l) l) 256
  else if (t =? TOKEN_NEXT) || (t =? REWIND) then
    let seenbit := if t =? TOKEN_NEXT then 128 else 512 in
    r ← next_token s; let '(s, t) := r in
    if t =? BINDING then do_binding_state s l seenmask seenbit else s ← skip_to_semi (parse_warn s); Ret (s, Some (l, seenbit))
  else if t =? BINDING then do_binding_state s l seenmask 256
  else if t =? CLIENT_HOSTNAME then parse_client_hostname s l
  else if t =? BILLING then parse_billing s l
  else if t =? ON then parse_on s l
  else if (t =? OPTION) || (t =? SUPERSEDE) then parse_agent s l
  else if t =? TOKEN_SET then
    r ← next_token s; let '(s, t) := r in
    if negb (t =? NAME) && negb (t =? NUMBER_OR_NAME) then s ← skip_to_semi (parse_warn s); Ret (s, None)
    else n ← val s; special_set s l n false 0
  else if strcasecmp v (chars "ddns-fwd-name") then special_set s l v true 4096
  else if strcasecmp v (chars "ddns-rev-name") then special_set s l v true 8192
  else s ← skip_to_semi (parse_warn s); Ret (s, None).

Fixpoint lease_loop (fuel : nat) (s : parse) (l : lease) (seenmask : Z) : outcome (parse * option (lease * Z)) :=
  match fuel with
  | O => Undef
  | S fuel =>
    r ← next_token s; let '(s, t) := r in
    if t =? RBRACE then Ret (s, Some (l, seenmask))
    else if t =? END_OF_FILE then Ret (parse_warn s, Some (l, seenmask))
    else
      r ← lease_parameter s t l seenmask;
      match r with
      | (s, None) => Ret (s, None)
      | (s, Some (l, seenbit)) =>
        if negb (Z.land seenmask seenbit =? 0) then lease_loop fuel (parse_warn s) l seenmask
        else lease_loop fuel s l (Z.lor seenmask seenbit)
      end
  end.

(** A lease that has just been read has no pool yet. *)
Definition made_up (l : lease) : lease :=
  let b := if (now V <? ends l) || match on_expiry l, on_release l with None, None => false | _, _ => true end then FTS_ACTIVE else FTS_FREE in
  set_states b FTS_FREE b l.

Definition parse_lease_declaration (s : parse) : outcome (parse * option lease) :=
  r ← parse_numeric_aggregate s (Some (replicate 4 0)) 4 DOT 10 8;
  match r with
  | (s, None, _) => Ret (s, None)
  | (s, Some a, n) =>
    a ← memread a 0 n;
    r ← parse_lbrace s; let '(s, ok) := r in
    if negb ok then Ret (s, None)
    else
      r ← lease_loop (S (S (left s))) s (new_lease a) 0;
      match r with
      | (s, None) => Ret (s, None)
      | (s, Some (l, seenmask)) =>
        let l := if Z.land seenmask 256 =? 0 then made_up l else l in
        Ret (s, Some (if Z.land seenmask 65536 =? 0 then set_tstp (ends l) l else l))
      end
  end.

(** The leases that are entered, in their order. *)
Fixpoint subparse_loop (fuel : nat) (s : parse) (ls : list lease) : outcome (parse * list lease) :=
  match fuel with
  | O => Undef
  | S fuel =>
    r ← next_token s; let '(s, t) := r in
    if t =? END_OF_FILE then Ret (s, ls)
    else if t =? LEASE then
      r ← parse_lease_declaration s;
      match r with
      | (s, Some l) => subparse_loop fuel s (ls ++ [l])
      | (s, None) => subparse_loop fuel (parse_warn s) ls
      end
    else if bool_decide (t ∈ [IA_NA; IA_TA; IA_PD; CLASS; SUBCLASS; HOST; GROUP; FAILOVER; SERVER_DUID; AUTHORING_BYTE_ORDER]) then
      s ← other_declaration V t s; subparse_loop fuel s ls
    else s ← skip_to_semi s; subparse_loop fuel s ls
  end.

Definition lease_file_subparse (s : parse) : outcome (parse * list lease) := subparse_loop (S (S (left s))) s [].

End File.

End LeaseFile.
