(* ===== verification/LexText.v ===== *)
(** * Texts and their tokens

    What the lexer of [ConfLex] makes of a text that is put together from pieces: blanks,
    comments, words, numbers, marks and strings.  [lexes s ts] says that the tokens [ts]
    are still to be read; [next_token] and [peek_token] give the first of them.  The
    parsers are then reasoned about with tokens instead of octets. *)

From Stdlib Require Import ZArith Lia String.
From stdpp Require Import base list numbers option.
From S2P Require Import Prelude.
From S2P Require Import DhcToken.
From S2P Require Import ConfLex.
From S2P Require Import Print.
#[local] Open Scope Z_scope.

Module LexText.

Import DhcToken ConfLex Print.

(** ** States of the lexer *)

Record lex_ok (s : parse) : Prop := {
  lo_bufix : 0 <= bufix s <= Zlen (inbuf s);
  lo_bytes : is_bytes (inbuf s);
  lo_tokbuf : Zlen (tokbuf s) = TOKBUF;
  lo_first : Zlen (first_line (where_ s)) = 81;
  lo_second : Zlen (second_line (where_ s)) = 81;
  lo_lpos : 1 <= lpos (where_ s)
}.

(** What is left of the text. *)
Definition rest (s : parse) : list Z := drop (Z.to_nat (bufix s)) (inbuf s).

(** Everything but the position. *)
Definition core (s : parse) := (inbuf s, eol_token s, token s, tval s, tlen s, tokbuf s, tb s, warnings_occurred s).

Lemma left_rest s : lex_ok s -> left s = length (rest s).
Proof. intros [H _ _ _ _ _]. unfold left, rest, Zlen in *. rewrite length_drop. lia. Qed.

Lemma set_line_ok d b p w : Zlen b = 81 -> Zlen (first_line w) = 81 -> Zlen (second_line w) = 81 -> Zlen (first_line (set_line d b p w)) = 81 /\ Zlen (second_line (set_line d b p w)) = 81 /\ lpos (set_line d b p w) = p.
Proof. by destruct d. Qed.

Lemma note_char_ok c w : Zlen (first_line w) = 81 -> Zlen (second_line w) = 81 -> 1 <= lpos w -> exists w', note_char c w = Ret w' /\ Zlen (first_line w') = 81 /\ Zlen (second_line w') = 81 /\ 1 <= lpos w'.
Proof.
  intros H1 H2 H3. assert (forall d, Zlen (line_of d w) = 81) as Hd by (by intros []). unfold note_char. destruct (ugflag w); [by eexists|]. destruct (c =? EOL).
  - unfold new_line. set (d := match cur_line w with line1 => line2 | line2 => line1 end). rewrite wrA_in by (rewrite Hd; lia). rewrite bind_ret. eexists. split; [done|]. destruct (set_line_ok d (<[Z.to_nat 0:=0]> (line_of d w)) 1 (Place (lexline w) (lexchar w) (token_line w) (cur_line w) d (first_line w) (second_line w) (lpos w) (line w + 1) (tlpos w) (tline w) (ugflag w))) as (-> & -> & ->); [by rewrite Zlen_insert|done|done|lia].
  - destruct (negb _); [|by eexists]. destruct (Z.leb_spec (lpos w) 80).
    + rewrite wrA_in by (rewrite Hd; lia). rewrite bind_ret, wrA_in by (rewrite Zlen_insert, Hd; lia). rewrite bind_ret. eexists. split; [done|]. destruct (set_line_ok (cur_line w) (<[Z.to_nat (lpos w):=0]> (<[Z.to_nat (lpos w - 1):=u8 c]> (line_of (cur_line w) w))) (lpos w + 1) w) as (-> & -> & ->); [by rewrite !Zlen_insert|done|done|lia].
    + rewrite bind_ret. eexists. split; [done|]. destruct (set_line_ok (cur_line w) (line_of (cur_line w) w) (lpos w + 1) w) as (-> & -> & ->); [done..|lia].
Qed.

(** The next character, and the end of the text. *)
Lemma get_char_cons s c r : lex_ok s -> rest s = c :: r -> exists s', get_char s = Ret (s', s8 c) /\ lex_ok s' /\ rest s' = r /\ core s' = core s /\ bufix s' = bufix s + 1.
Proof.
  intros [Hb HB Ht H1 H2 H3] Er. unfold rest, Zlen in *. assert (inbuf s !! Z.to_nat (bufix s) = Some c) as Ec by (pose proof (lookup_drop (inbuf s) (Z.to_nat (bufix s)) 0) as Hd; rewrite Er in Hd; cbn in Hd; by rewrite Nat.add_0_r in Hd).
  apply lookup_lt_Some in Ec as Hlt. unfold get_char, Zlen. rewrite (proj2 (Z.eqb_neq _ _)) by lia. rewrite (rdA_lookup _ _ c) by (done || lia). rewrite !bind_ret. cbn zeta iota.
  destruct (note_char_ok (s8 c) (where_ (set_bufix (bufix s + 1) s))) as (w & -> & ? & ? & ?); [done..|]. rewrite bind_ret. eexists. split; [done|]. split; [split; cbn; unfold Zlen; try done; lia|]. split; [|done]. unfold rest. cbn. rewrite Z2Nat.inj_add by lia. rewrite <- drop_drop, Er. done.
Qed.

Lemma get_char_nil s : lex_ok s -> rest s = [] -> exists s', get_char s = Ret (s', EOF) /\ lex_ok s' /\ rest s' = [] /\ core s' = core s.
Proof.
  intros [Hb HB Ht H1 H2 H3] Er. unfold rest, Zlen in *. assert (bufix s = Z.of_nat (length (inbuf s))) as Eb by (apply (f_equal length) in Er; rewrite length_drop in Er; cbn in Er; lia).
  unfold get_char, Zlen. rewrite Eb, Z.eqb_refl, bind_ret. cbn zeta iota. destruct (note_char_ok EOF (where_ s)) as (w & -> & ? & ? & ?); [done..|]. rewrite bind_ret. eexists. split; [done|]. split; [split; cbn; unfold Zlen; try done; lia|]. split; [|done]. unfold rest. cbn. by rewrite Er.
Qed.
(** What reading a token does not change. *)
Definition env (s : parse) := (inbuf s, eol_token s, token s, warnings_occurred s).

(** The lexer has gone on to [r]. *)
Definition goes (s s' : parse) (r : list Z) : Prop := lex_ok s' /\ rest s' = r /\ env s' = env s.

Lemma goes_on s1 s2 s3 r2 r3 : goes s1 s2 r2 -> goes s2 s3 r3 -> goes s1 s3 r3.
Proof. intros (_ & _ & E1) (H & R & E2). split; [done|]. split; [done|congruence]. Qed.

Lemma core_env s s' : core s' = core s -> env s' = env s /\ tokbuf s' = tokbuf s.
Proof. unfold core, env. intros E. by injection E as -> -> -> _ _ -> _ ->. Qed.

Lemma read_char s c r : lex_ok s -> rest s = c :: r -> 0 <= c < 128 -> exists s', get_char s = Ret (s', c) /\ goes s s' r /\ tokbuf s' = tokbuf s /\ bufix s' = bufix s + 1.
Proof.
  intros H E Hc. destruct (get_char_cons s c r H E) as (s' & Eg & H' & R & Ec & B). rewrite s8_small in Eg by lia. exists s'. apply core_env in Ec as [? ?]. split; [done|]. done.
Qed.

Lemma unget_goes s s1 c r : lex_ok s -> goes s s1 r -> bufix s1 = bufix s + 1 -> c <> EOF -> goes s (unget_char s1 c) (rest s) /\ tokbuf (unget_char s1 c) = tokbuf s1.
Proof.
  intros [Hb _ _ _ _ _] ([B1 B2 B3 B4 B5 B6] & R & Ev) Hx Hc. unfold unget_char. rewrite (proj2 (Z.eqb_neq _ _) Hc). split; [|done]. assert (inbuf s1 = inbuf s) as Ei by (unfold env in Ev; congruence). split; [split; cbn; rewrite ?Ei in *; try done; lia|]. split; [|done]. unfold rest. cbn. rewrite Ei, Hx. f_equal. f_equal. lia.
Qed.

(** The buffer starts with [l]. *)
Definition holding (s : parse) (l : list Z) : Prop := take (length l) (tokbuf s) = l.

Lemma store_goes s l c : lex_ok s -> holding s l -> Zlen l < TOKBUF -> exists s', store s (Zlen l) c = Ret s' /\ goes s s' (rest s) /\ holding s' (l ++ [u8 c]) /\ bufix s' = bufix s.
Proof.
  intros [Hb HB Ht H1 H2 H3] Hh Hl. pose proof (Zlen_nonneg l). unfold store. rewrite wrA_in by (rewrite Ht; lia). rewrite bind_ret. eexists. split; [done|]. split; [|split; [|done]].
  - split; [split; cbn; rewrite ?Zlen_insert; done|done].
  - unfold holding. cbn. rewrite length_app, Nat.add_1_r. unfold Zlen in *. rewrite Nat2Z.id. assert (length l < length (tokbuf s))%nat as Hlt by lia. rewrite (take_S_r _ _ (u8 c)) by (by apply list_lookup_insert_eq). rewrite take_insert_ge by lia. by rewrite Hh.
Qed.

Lemma c_string_app l r : c_string (l ++ 0 :: r) = c_string l.
Proof. induction l as [|c l IH]; [done|]. cbn. by rewrite IH. Qed.

(** The token has the text [v]. *)
Definition shows (s : parse) (v : list Z) : Prop := val_len s = Ret v /\ val s = Ret (c_string v).

Lemma finish_goes s l : lex_ok s -> holding s l -> Zlen l < TOKBUF -> exists s', finish s (Zlen l) = Ret s' /\ goes s s' (rest s) /\ shows s' l /\ tokbuf s' !! length l = Some 0.
Proof.
  intros H Hh Hl. unfold finish. destruct (store_goes s l 0 H Hh Hl) as (s' & -> & (G1 & G2 & G3) & Hh' & _). rewrite bind_ret. eexists. split; [done|]. split; [split; [|done]; by destruct G1|]. unfold holding in Hh'. change (u8 0) with 0 in Hh'. rewrite length_app in Hh'. cbn in Hh'. destruct G1 as [_ _ Ht _ _ _].
  assert (tokbuf s' = l ++ 0 :: drop (S (length l)) (tokbuf s')) as Et by (rewrite <- (take_drop (length l + 1) (tokbuf s')) at 1; rewrite Hh', <- (assoc_L (++)); cbn; by rewrite Nat.add_1_r).
  split; [|cbn; rewrite Et; by rewrite lookup_app_r, Nat.sub_diag by lia].
  split; cbn; [|rewrite Et, c_string_app; done]. unfold val_len. cbn. unfold memread, Zlen in *. rewrite bool_decide_true by lia. rewrite Nat2Z.id, drop_0. rewrite Et. by rewrite take_app_length.
Qed.
(** ** Loops over characters *)

Definition isname (c : Z) : bool := (c =? 45) || (c =? 95) || isalnum c.

(** The text is at its end, or goes on with a character that is not one of [f]. *)
Definition stops (f : Z -> bool) (r : list Z) : Prop := match r with [] => True | c :: _ => 0 <= c < 128 /\ f c = false end.

Definition ascii_of (f : Z -> bool) (l : list Z) : Prop := Forall (fun c => 0 <= c < 128 /\ f c = true) l.

Lemma isascii_in c : 0 <= c < 128 -> isascii c = true.
Proof. intros. unfold isascii. apply andb_true_iff. rewrite !Z.leb_le. lia. Qed.

Lemma u8_ascii c : 0 <= c < 128 -> u8 c = c.
Proof. intros. apply u8_small. unfold is_byte. lia. Qed.

Lemma not_eof c : 0 <= c < 128 -> c <> EOF.
Proof. unfold EOF. lia. Qed.

(** The character behind a token: it is put back. *)
Lemma read_stop f s r : lex_ok s -> rest s = r -> stops f r -> exists s' c, get_char s = Ret (s', c) /\ goes s (unget_char s' c) r /\ tokbuf (unget_char s' c) = tokbuf s /\ tokbuf s' = tokbuf s /\ (isascii c = false \/ isascii c = true /\ f c = false).
Proof.
  intros H E Hs. destruct r as [|c r].
  - destruct (get_char_nil s H E) as (s' & -> & H' & R & Ec). apply core_env in Ec as [? ?]. exists s', EOF. split; [done|]. unfold unget_char. cbn. split; [done|]. split; [done|]. split; [done|]. by left.
  - destruct Hs as [Hc Hf]. destruct (read_char s c r H E Hc) as (s' & -> & G & Et & B). exists s', c. split; [done|]. destruct (unget_goes s s' c r H G B (not_eof c Hc)) as [G' Et']. rewrite E in G'. split; [done|]. split; [congruence|]. split; [done|]. right. split; [by apply isascii_in|done].
Qed.

Lemma name_loop_ok l : forall fuel s h rv r, lex_ok s -> rest s = l ++ r -> ascii_of isname l -> stops isname r -> holding s h -> Zlen h + Zlen l < TOKBUF -> (length l < fuel)%nat ->
  exists s', name_loop fuel s (Zlen h) rv = Ret (s', Zlen (h ++ l), if forallb isxdigit l then rv else NAME) /\ goes s s' r /\ holding s' (h ++ l).
Proof.
  induction l as [|c l IH]; intros [|fuel] s h rv r H E Hl Hs Hh Hn Hf; cbn in Hf; try lia; cbn [name_loop]; unfold Zlen in *; cbn [length] in Hn.
  - rewrite (proj2 (Z.ltb_lt _ _)) by lia. cbn [negb]. destruct (read_stop isname s r H E Hs) as (s' & c & -> & G & Et & _ & Hc). rewrite bind_ret. cbn zeta iota. rewrite app_nil_r.
    assert (negb (isascii c) || (negb (c =? 45) && negb (c =? 95) && negb (isalnum c)) = true) as ->. { destruct Hc as [->|[-> Hc]]; [done|]. unfold isname in Hc. apply orb_false_iff in Hc as [Hc ->]. apply orb_false_iff in Hc as [-> ->]. done. }
    exists (unget_char s' c). split; [done|]. split; [done|]. unfold holding. by rewrite Et.
  - rewrite (proj2 (Z.ltb_lt _ _)) by lia. cbn [negb]. apply Forall_cons_1 in Hl as [[Hc Hn'] Hl]. destruct (read_char s c (l ++ r) H E Hc) as (s1 & -> & G1 & Et & _). rewrite bind_ret. cbn zeta iota. pose proof G1 as (H1 & R1 & _).
    assert (negb (isascii c) || (negb (c =? 45) && negb (c =? 95) && negb (isalnum c)) = false) as ->. { rewrite (isascii_in c Hc). unfold isname in Hn'. cbn. destruct (c =? 45), (c =? 95), (isalnum c); done. }
    destruct (store_goes s1 h c H1) as (s2 & Es & G2 & Hh2 & _); [unfold holding; by rewrite Et|unfold Zlen; lia|]. pose proof G2 as (H2 & R2 & _). unfold Zlen in Es. rewrite Es, bind_ret. rewrite (u8_ascii c Hc) in Hh2.
    destruct (IH fuel s2 (h ++ [c]) (if isxdigit c then rv else NAME) r H2) as (s3 & E3 & G3 & Hh3); [by rewrite R2, R1|done|done|done|unfold Zlen; rewrite length_app; cbn; lia|lia|]. unfold Zlen in E3. rewrite length_app in E3. cbn [length] in E3. rewrite Nat2Z.inj_add in E3. change (Z.of_nat 1) with 1 in E3. rewrite E3. exists s3. rewrite <- (assoc_L (++)). cbn. split; [f_equal; f_equal; destruct (isxdigit c), (forallb isxdigit l); done|]. split; [exact (goes_on _ _ _ _ _ G1 (goes_on _ _ _ _ _ G2 G3))|by rewrite <- (assoc_L (++)) in Hh3].
Qed.
(** A character is read, and [d] is kept. *)
Lemma read_store s c r h d : lex_ok s -> rest s = c :: r -> 0 <= c < 128 -> holding s h -> Zlen h < TOKBUF ->
  exists s1 s2, get_char s = Ret (s1, c) /\ tokbuf s1 = tokbuf s /\ goes s s1 r /\ store s1 (Zlen h) d = Ret s2 /\ goes s s2 r /\ holding s2 (h ++ [u8 d]).
Proof.
  intros H E Hc Hh Hn. destruct (read_char s c r H E Hc) as (s1 & E1 & G1 & Et & _). pose proof G1 as (H1 & R1 & _). destruct (store_goes s1 h d H1) as (s2 & E2 & G2 & Hh2 & _); [unfold holding; by rewrite Et|done|]. rewrite R1 in G2. exists s1, s2. split_and!; try done. by eapply goes_on.
Qed.

Lemma Zlen_last {X} (l : list X) x : Zlen (l ++ [x]) = Zlen l + 1.
Proof. unfold Zlen. rewrite length_app. cbn. lia. Qed.

Lemma number_loop_ok l : forall fuel s h t r, lex_ok s -> rest s = l ++ r -> ascii_of isxdigit l -> stops isname r -> holding s h -> Zlen h + Zlen l < TOKBUF -> (length l < fuel)%nat -> t = NUMBER \/ t = NUMBER_OR_NAME ->
  exists s', number_loop fuel s (Zlen h) t = Ret (s', Zlen (h ++ l), if forallb isdigit l then t else NUMBER_OR_NAME) /\ goes s s' r /\ holding s' (h ++ l).
Proof.
  induction l as [|c l IH]; intros [|fuel] s h t r H E Hl Hs Hh Hn Hf Ht; cbn in Hf; try lia; cbn [number_loop]; pose proof (Zlen_nonneg h) as Hh0.
  - change (Zlen []) with 0 in Hn. rewrite (proj2 (Z.ltb_lt _ _)) by lia. cbn [negb]. destruct (read_stop isname s r H E Hs) as (s' & c & -> & G & Et & Et' & Hc). rewrite bind_ret. cbn zeta iota. rewrite app_nil_r.
    assert (promote s' t (Zlen h) c = Ret None) as ->. { unfold promote. destruct Hc as [->|[-> Hc]]; [done|]. cbn [negb]. destruct H as [_ _ Hk _ _ _]. rewrite !rd_in by (rewrite Et', Hk; unfold TOKBUF; lia). rewrite !bind_ret. unfold isname, isalnum in Hc. apply orb_false_iff in Hc as [Hc Hd]. apply orb_false_iff in Hc as [-> ->]. apply orb_false_iff in Hd as [Hd Ha].
      assert (isxdigit c = false) as Hx. { unfold isxdigit. rewrite Hd. unfold isalpha in Ha. apply orb_false_iff in Ha as [H1 H2]. apply andb_false_iff in H1, H2. rewrite !Z.leb_gt in H1, H2. cbn. apply orb_false_iff. rewrite !andb_false_iff, !Z.leb_gt. lia. }
      rewrite Hd, Hx, !andb_false_r. unfold isalnum. by rewrite Hd, Ha. }
    exists (unget_char s' c). split; [done|]. split; [done|]. unfold holding. by rewrite Et.
  - pose proof (Zlen_nonneg l) as Hl0. assert (Zlen (c :: l) = Zlen l + 1) as Ec by (unfold Zlen; cbn [length]; lia). rewrite (proj2 (Z.ltb_lt _ _)) by lia. cbn [negb]. apply Forall_cons_1 in Hl as [[Hc Hx] Hl]. destruct (read_store s c (l ++ r) h c H E Hc Hh) as (s1 & s2 & -> & Et & _ & Es & G2 & Hh2); [lia|]. rewrite bind_ret. cbn zeta iota. pose proof G2 as (H2 & R2 & _). rewrite (u8_ascii c Hc) in Hh2.
    assert (promote s1 t (Zlen h) c = Ret (Some (if isdigit c then t else NUMBER_OR_NAME))) as ->. { unfold promote. rewrite (isascii_in c Hc). cbn [negb]. destruct Ht as [->| ->]; [destruct (isdigit c) eqn:Ed; [done|]; by rewrite Hx|]. rewrite Hx. cbn. by destruct (isdigit c). }
    rewrite bind_ret, Es, bind_ret. destruct (IH fuel s2 (h ++ [c]) (if isdigit c then t else NUMBER_OR_NAME) r H2 R2 Hl Hs Hh2) as (s3 & E3 & G3 & Hh3); [rewrite Zlen_last; lia|lia|destruct (isdigit c); tauto|]. rewrite Zlen_last in E3. rewrite E3. exists s3. rewrite <- (assoc_L (++)) in *. cbn in *. split; [f_equal; f_equal; destruct (isdigit c), (forallb isdigit l); done|]. split; [by eapply goes_on|done].
Qed.

Lemma whitespace_loop_ok l : forall fuel s h c r, lex_ok s -> eol_token s = false -> rest s = l ++ r -> ascii_of isspace l -> stops isspace r -> holding s h -> Zlen h + Zlen l < TOKBUF - 1 -> (length l < fuel)%nat ->
  exists s', whitespace_loop fuel s (Zlen h) c = Ret (s', if decide (r = []) then END_OF_FILE else WHITESPACE) /\ goes s s' r.
Proof.
  induction l as [|d l IH]; intros [|fuel] s h c r H Ee E Hl Hs Hh Hn Hf; cbn in Hf; try lia; cbn [whitespace_loop]; pose proof (Zlen_nonneg h) as Hh0.
  - change (Zlen []) with 0 in Hn. rewrite (proj2 (Z.leb_gt _ _)) by lia. destruct (store_goes s h c H Hh) as (s1 & -> & G1 & Hh1 & _); [lia|]. rewrite bind_ret. pose proof G1 as (H1 & R1 & Ev1). cbn in E. rewrite E in R1. destruct r as [|d r].
    + destruct (get_char_nil s1 H1 R1) as (s2 & -> & H2 & R2 & Ec2). apply core_env in Ec2 as [Ev2 _]. rewrite bind_ret. cbn. exists s2. split; [done|]. split; [done|]. split; [done|congruence].
    + destruct Hs as [Hd Hb]. destruct (read_char s1 d r H1 R1 Hd) as (s2 & -> & G2 & Et2 & B2). rewrite bind_ret. cbn zeta iota. rewrite (proj2 (Z.eqb_neq _ _) (not_eof d Hd)). unfold blank. rewrite Hb, andb_false_r. destruct (unget_goes s1 s2 d r H1 G2 B2 (not_eof d Hd)) as [G3 Et3]. pose proof G3 as (H3 & R3 & _).
      destruct (finish_goes (unget_char s2 d) (h ++ [u8 c]) H3) as (s4 & E4 & G4 & _); [unfold holding; by rewrite Et3, Et2|rewrite Zlen_last; lia|]. rewrite Zlen_last in E4. rewrite E4, bind_ret. exists s4. split; [by rewrite decide_False by done|]. rewrite R3, R1 in G4. rewrite R1 in G3. rewrite E in G1. exact (goes_on _ _ _ _ _ G1 (goes_on _ _ _ _ _ G3 G4)).
  - pose proof (Zlen_nonneg l) as Hl0. assert (Zlen (d :: l) = Zlen l + 1) as Ec by (unfold Zlen; cbn [length]; lia). rewrite (proj2 (Z.leb_gt _ _)) by lia. apply Forall_cons_1 in Hl as [[Hd Hb] Hl]. destruct (store_goes s h c H Hh) as (s1 & -> & G1 & Hh1 & _); [lia|]. rewrite bind_ret. pose proof G1 as (H1 & R1 & Ev1). cbn in E. rewrite E in R1, G1. destruct (read_char s1 d (l ++ r) H1 R1 Hd) as (s2 & -> & G2 & Et2 & _). rewrite bind_ret. cbn zeta iota. rewrite (proj2 (Z.eqb_neq _ _) (not_eof d Hd)). pose proof G2 as (H2 & R2 & Ev2).
    assert (eol_token s2 = false) as Ee2 by (unfold env in *; congruence). unfold blank. rewrite Ee2, Hb, (isascii_in d Hd), andb_false_r. cbn [negb andb]. destruct (IH fuel s2 (h ++ [u8 c]) d r H2 Ee2 R2 Hl Hs) as (s3 & E3 & G3); [unfold holding; by rewrite Et2|rewrite Zlen_last; lia|lia|]. rewrite Zlen_last in E3. rewrite E3. exists s3. split; [done|]. exact (goes_on _ _ _ _ _ G1 (goes_on _ _ _ _ _ G2 G3)).
Qed.

Lemma skip_to_eol_ok l : forall fuel s r, lex_ok s -> rest s = l ++ 10 :: r -> ascii_of (fun c => negb (c =? 10)) l -> (length l < fuel)%nat -> exists s', skip_to_eol_loop fuel s = Ret s' /\ goes s s' r.
Proof.
  induction l as [|c l IH]; intros [|fuel] s r H E Hl Hf; cbn in Hf; try lia; cbn [skip_to_eol_loop]; cbn in E.
  - destruct (read_char s 10 r H E) as (s1 & -> & G1 & _); [lia|]. rewrite bind_ret. by exists s1.
  - apply Forall_cons_1 in Hl as [[Hc Hn] Hl]. destruct (read_char s c (l ++ 10 :: r) H E Hc) as (s1 & -> & G1 & _). rewrite bind_ret. cbn. rewrite (proj2 (Z.eqb_neq _ _) (not_eof c Hc)). apply negb_true_iff in Hn. unfold EOL. rewrite Hn. cbn. pose proof G1 as (H1 & R1 & _). destruct (IH fuel s1 r H1 R1 Hl ltac:(lia)) as (s2 & -> & G2). exists s2. split; [done|]. by eapply goes_on.
Qed.
(** ** Strings *)

(** The text of a character in a string. *)
Definition quote (c : Z) : list Z := if c =? 32 then [32] else if negb (plain c) then octal c else if (c =? 34) || (c =? 92) then [92; c] else [c].
Definition quotes (l : list Z) : list Z := List.flat_map quote l.

Lemma plain_range c : plain c = true -> 32 <= c < 127.
Proof. unfold plain, isascii, isprint. rewrite !andb_true_iff, !Z.leb_le. lia. Qed.

Lemma octal_digits c : is_byte c -> 48 <= 48 + c / 64 <= 51 /\ 48 <= 48 + c / 8 mod 8 <= 55 /\ 48 <= 48 + c mod 8 <= 55 /\ ((c / 64) * 8 + c / 8 mod 8) * 8 + c mod 8 = c.
Proof.
  unfold is_byte. intros Hc. pose proof (Z.mod_pos_bound c 8 ltac:(lia)). pose proof (Z.mod_pos_bound (c / 8) 8 ltac:(lia)). pose proof (Z.div_mod c 8 ltac:(lia)). pose proof (Z.div_mod (c / 8) 8 ltac:(lia)). assert (c / 64 = c / 8 / 8) as E by (by rewrite Z.div_div by lia). rewrite E in *. assert (0 <= c / 8 / 8 < 4) by (split; [apply Z.div_pos; [apply Z.div_pos|]|apply Z.div_lt_upper_bound; [|apply Z.div_lt_upper_bound]]; lia). lia.
Qed.

Lemma in_range a b c : a <= c <= b -> (a <=? c) && (c <=? b) = true.
Proof. rewrite andb_true_iff, !Z.leb_le. lia. Qed.

(** One turn of the loop, by what has been read before. *)
Section StringStep.
Context (fuel : nat) (s s1 : parse) (i v c : Z) (hex : bool) (Hi : i < TOKBUF) (Hg : get_char s = Ret (s1, c)) (Hc : 0 <= c < 128).

Ltac string_step := cbn [string_loop]; rewrite (proj2 (Z.ltb_lt _ _) Hi), Hg, bind_ret; cbn zeta iota beta delta [negb]; rewrite (proj2 (Z.eqb_neq _ _) (not_eof c Hc)); cbn zeta iota beta delta [Z.eqb Z.ltb Z.compare Pos.eqb Pos.compare Pos.compare_cont Z.add Pos.add].

Lemma step_backslash : c = 92 -> string_loop (S fuel) s i 0 v hex = string_loop fuel s1 i 1 v hex.
Proof. intros E. string_step. by rewrite E. Qed.

Lemma step_end : c = 34 -> string_loop (S fuel) s i 0 v hex = Ret (s1, i).
Proof. intros E. string_step. by rewrite E. Qed.

Lemma step_plain : c <> 92 -> c <> 34 -> string_loop (S fuel) s i 0 v hex = (s2 ← store s1 i c; string_loop fuel s2 (i + 1) 0 v hex).
Proof. intros E1 E2. string_step. by rewrite (proj2 (Z.eqb_neq _ _) E1), (proj2 (Z.eqb_neq _ _) E2). Qed.

Lemma step_escape : c = 34 \/ c = 92 -> string_loop (S fuel) s i 1 v hex = (s2 ← store s1 i c; string_loop fuel s2 (i + 1) 0 v hex).
Proof. intros E. string_step. by destruct E as [-> | ->]. Qed.

Lemma step_octal1 : 48 <= c <= 51 -> string_loop (S fuel) s i 1 v hex = string_loop fuel s1 i 2 (c - 48) false.
Proof. intros E. string_step. by rewrite (in_range 48 51). Qed.

Lemma step_octal2 : 48 <= c <= 55 -> string_loop (S fuel) s i 2 v false = string_loop fuel s1 i 3 (v * 8 + (c - 48)) false.
Proof. intros E. string_step. by rewrite (in_range 48 55). Qed.

Lemma step_octal3 : 48 <= c <= 55 -> string_loop (S fuel) s i 3 v false = (s2 ← store s1 i (v * 8 + (c - 48)); string_loop fuel s2 (i + 1) 0 (v * 8 + (c - 48)) false).
Proof. intros E. string_step. by rewrite (in_range 48 55). Qed.

End StringStep.

(** An octal escape is read. *)
Lemma read_octal fuel s h c r v hex : lex_ok s -> is_byte c -> rest s = octal c ++ r -> holding s h -> Zlen h < TOKBUF ->
  exists s', string_loop (S (S (S (S fuel)))) s (Zlen h) 0 v hex = string_loop fuel s' (Zlen h + 1) 0 c false /\ goes s s' r /\ holding s' (h ++ [c]).
Proof.
  intros H Hc E Hh Hn. destruct (octal_digits c Hc) as (D1 & D2 & D3 & Ev). unfold octal in E. cbn [app] in E.
  destruct (read_char s _ _ H E) as (s1 & E1 & G1 & T1 & _); [lia|]. pose proof G1 as (H1 & R1 & _). destruct (read_char s1 _ _ H1 R1) as (s2 & E2 & G2 & T2 & _); [lia|]. pose proof G2 as (H2 & R2 & _). destruct (read_char s2 _ _ H2 R2) as (s3 & E3 & G3 & T3 & _); [lia|]. pose proof G3 as (H3 & R3 & _).
  destruct (read_store s3 _ _ h c H3 R3) as (s4 & s5 & E4 & _ & _ & E5 & G5 & Hh5); [lia|unfold holding; by rewrite T3, T2, T1|done|]. rewrite (u8_small c Hc) in Hh5.
  rewrite (step_backslash _ s s1 _ v 92), (step_octal1 _ s1 s2 _ v (48 + c / 64)), (step_octal2 _ s2 s3 _ _ (48 + c / 8 mod 8)), (step_octal3 _ s3 s4 _ _ (48 + c mod 8)) by (done || lia).
  replace ((48 + c / 64 - 48) * 8 + (48 + c / 8 mod 8 - 48)) with ((c / 64) * 8 + c / 8 mod 8) by lia. replace (((c / 64) * 8 + c / 8 mod 8) * 8 + (48 + c mod 8 - 48)) with c by lia. rewrite E5, bind_ret. exists s5. split; [done|]. split; [|done]. exact (goes_on _ _ _ _ _ G1 (goes_on _ _ _ _ _ G2 (goes_on _ _ _ _ _ G3 G5))).
Qed.

Lemma string_loop_ok l : forall fuel s h r v hex, lex_ok s -> is_bytes l -> rest s = quotes l ++ 34 :: r -> holding s h -> Zlen h + Zlen l < TOKBUF -> (length (quotes l) < fuel)%nat ->
  exists s', string_loop fuel s (Zlen h) 0 v hex = Ret (s', Zlen (h ++ l)) /\ goes s s' r /\ holding s' (h ++ l).
Proof.
  induction l as [|c l IH]; intros fuel s h r v hex H Hb E Hh Hn Hf; pose proof (Zlen_nonneg h) as Hh0.
  - destruct fuel as [|fuel]; [cbn in Hf; lia|]. change (Zlen []) with 0 in Hn. cbn in E. destruct (read_char s 34 r H E) as (s1 & E1 & G1 & T1 & _); [lia|]. rewrite (step_end _ s s1 _ v 34) by (done || lia). rewrite app_nil_r. exists s1. split; [done|]. split; [done|]. unfold holding. by rewrite T1.
  - apply Forall_cons_1 in Hb as [Hc Hb]. pose proof (Zlen_nonneg l) as Hl0. assert (Zlen (c :: l) = Zlen l + 1) as Ec by (unfold Zlen; cbn [length]; lia). change (quotes (c :: l)) with (quote c ++ quotes l) in *. rewrite <- (assoc_L (++)) in E. rewrite length_app in Hf.
    assert (forall fuel s1 v hex, goes s s1 (quotes l ++ 34 :: r) -> holding s1 (h ++ [c]) -> (length (quotes l) < fuel)%nat -> exists s', string_loop fuel s1 (Zlen h + 1) 0 v hex = Ret (s', Zlen (h ++ c :: l)) /\ goes s s' r /\ holding s' (h ++ c :: l)) as Hgo.
    { intros f s1 v1 x1 G1 Hh1 Hf1. pose proof G1 as (H1 & R1 & _). destruct (IH f s1 (h ++ [c]) r v1 x1 H1 Hb R1 Hh1) as (s2 & E2 & G2 & Hh2); [rewrite Zlen_last; lia|done|]. rewrite Zlen_last in E2. rewrite E2. rewrite <- (assoc_L (++)) in *. exists s2. split; [done|]. split; [by eapply goes_on|done]. }
    unfold quote in E, Hf. destruct (Z.eqb_spec c 32) as [->|N32].
    { destruct fuel as [|fuel]; [cbn in Hf; lia|]. cbn [app] in E. destruct (read_store s 32 _ h 32 H E) as (s1 & s2 & E1 & _ & _ & E2 & G2 & Hh2); [lia|done|lia|]. rewrite (step_plain _ s s1 _ v 32), E2, bind_ret by (done || lia). apply Hgo; [done|done|cbn in Hf; lia]. }
    destruct (plain c) eqn:Ep; cbn [negb] in E, Hf.
    + apply plain_range in Ep. destruct ((c =? 34) || (c =? 92)) eqn:Eq.
      * destruct fuel as [|[|fuel]]; [cbn in Hf; lia..|]. cbn [app] in E. destruct (read_char s 92 _ H E) as (s1 & E1 & G1 & T1 & _); [lia|]. pose proof G1 as (H1 & R1 & _). assert (c = 34 \/ c = 92) as Hq by (apply orb_true_iff in Eq as [?%Z.eqb_eq|?%Z.eqb_eq]; tauto). destruct (read_store s1 c _ h c H1 R1) as (s2 & s3 & E2 & _ & _ & E3 & G3 & Hh3); [lia|unfold holding; by rewrite T1|lia|]. rewrite u8_ascii in Hh3 by lia.
        rewrite (step_backslash _ s s1 _ v 92), (step_escape _ s1 s2 _ v c), E3, bind_ret by (done || lia). apply Hgo; [by eapply goes_on|done|cbn in Hf; lia].
      * destruct fuel as [|fuel]; [cbn in Hf; lia|]. cbn [app] in E. apply orb_false_iff in Eq as [Q1%Z.eqb_neq Q2%Z.eqb_neq]. destruct (read_store s c _ h c H E) as (s1 & s2 & E1 & _ & _ & E2 & G2 & Hh2); [lia|done|lia|]. rewrite u8_ascii in Hh2 by lia. rewrite (step_plain _ s s1 _ v c), E2, bind_ret by (done || lia). apply Hgo; [done|done|cbn in Hf; lia].
    + destruct fuel as [|[|[|[|fuel]]]]; [cbn in Hf; lia..|]. destruct (read_octal fuel s h c (quotes l ++ 34 :: r) v hex H Hc E Hh) as (s1 & -> & G1 & Hh1); [lia|]. apply Hgo; [done|done|cbn in Hf; lia].
Qed.
(** ** Pieces of a text *)

Inductive piece : Type :=
| Blank (l : list Z)
| Remark (l : list Z)
| Name (l : list Z)
| Num (l : list Z)
| Mark (c : Z)
| Quote (l : list Z).

(** The newline at the end of a comment is that of the blank behind it. *)
Definition render1 (p : piece) : list Z :=
  match p with
  | Blank l => l
  | Remark l => 35 :: l
  | Name l => l
  | Num l => l
  | Mark c => [c]
  | Quote l => 34 :: quotes l ++ [34]
  end.

Definition render (ps : list piece) : list Z := List.flat_map render1 ps.

Definition token_of (p : piece) : list (Z * list Z) :=
  match p with
  | Blank _ | Remark _ => []
  | Name l => [(intern l (if forallb isxdigit (tail l) then NUMBER_OR_NAME else NAME), l)]
  | Num l => [(if forallb isdigit (tail l) then NUMBER else NUMBER_OR_NAME, l)]
  | Mark c => [(c, [c])]
  | Quote l => [(STRING, l)]
  end.

Definition toks (ps : list piece) : list (Z * list Z) := List.flat_map token_of ps.

(** Characters that are tokens of their own. *)
Definition ismark (c : Z) : bool := negb (isspace c) && negb (isalnum c) && negb (c =? 35) && negb (c =? 34) && negb (c =? 45) && negb (c =? 0).

(** Tokens that are not told from the end of the text or from blanks are not among them. *)
Definition tok_ok (t : Z) : bool := negb (t =? 0) && negb (t =? WHITESPACE) && negb (t =? END_OF_FILE).

Definition piece_ok (p : piece) (r : list Z) : Prop :=
  match p with
  | Blank l => l <> [] /\ Zlen l < TOKBUF - 1 /\ ascii_of isspace l /\ stops isspace r
  | Remark l => ascii_of (fun c => negb (c =? 10)) l
  | Name l => exists c l', l = c :: l' /\ 0 <= c < 128 /\ isalpha c = true /\ ascii_of isname l' /\ Zlen l < TOKBUF /\ stops isname r /\ tok_ok (intern l (if forallb isxdigit l' then NUMBER_OR_NAME else NAME)) = true
  | Num l => exists c l', l = c :: l' /\ 0 <= c < 128 /\ isdigit c || (c =? 45) = true /\ ascii_of isxdigit l' /\ Zlen l < TOKBUF /\ stops isname r
  | Mark c => 0 <= c < 128 /\ ismark c = true
  | Quote l => is_bytes l /\ Zlen l < TOKBUF
  end.

Definition starts_line (ps : list piece) : Prop := match ps with Blank (c :: _) :: _ => c = 10 | _ => False end.

Fixpoint pieces_ok (ps : list piece) : Prop :=
  match ps with
  | [] => True
  | p :: ps => piece_ok p (render ps) /\ match p with Remark _ => starts_line ps | _ => True end /\ pieces_ok ps
  end.

(** The tests of [raw_loop] on the first character of a piece. *)
Definition kind (c : Z) : Z :=
  if isspace c then 0 else if c =? 35 then 1 else if c =? 34 then 2 else if isdigit c || (c =? 45) then 3 else if isalpha c then 4 else if c =? 0 then 5 else 6.

Lemma kind_name c : 0 <= c < 128 -> isalpha c = true -> kind c = 4.
Proof. intros Hc Ha. assert (implb (isalpha c && (c <? 128)) (kind c =? 4) = true) as H by (apply (byte_forall (fun c => implb (isalpha c && (c <? 128)) (kind c =? 4))); [by vm_compute|unfold is_byte; lia]). rewrite Ha, (proj2 (Z.ltb_lt _ _)) in H by lia. by apply Z.eqb_eq. Qed.

Lemma kind_num c : 0 <= c < 128 -> isdigit c || (c =? 45) = true -> kind c = 3.
Proof. intros Hc Ha. assert (implb ((isdigit c || (c =? 45)) && (c <? 128)) (kind c =? 3) = true) as H by (apply (byte_forall (fun c => implb ((isdigit c || (c =? 45)) && (c <? 128)) (kind c =? 3))); [by vm_compute|unfold is_byte; lia]). rewrite Ha, (proj2 (Z.ltb_lt _ _)) in H by lia. by apply Z.eqb_eq. Qed.

Lemma kind_mark c : 0 <= c < 128 -> ismark c = true -> kind c = 6 /\ c <> 0.
Proof. intros Hc Ha. assert (implb (ismark c && (c <? 128)) ((kind c =? 6) && negb (c =? 0)) = true) as H by (apply (byte_forall (fun c => implb (ismark c && (c <? 128)) ((kind c =? 6) && negb (c =? 0)))); [by vm_compute|unfold is_byte; lia]). rewrite Ha, (proj2 (Z.ltb_lt _ _)) in H by lia. apply andb_true_iff in H as [?%Z.eqb_eq H]. split; [done|]. by apply negb_true_iff, Z.eqb_neq in H. Qed.

(** One turn of [raw_loop]. *)
Lemma raw_step fuel s s1 c : get_char s = Ret (s1, c) -> 0 <= c < 128 -> eol_token s1 = false ->
  exists w, raw_loop (S fuel) s =
    (if kind c =? 0 then read_whitespace c s1
    else if kind c =? 1 then (s2 ← skip_to_eol s1; raw_loop fuel s2)
    else if kind c =? 2 then read_string (set_where w s1)
    else if kind c =? 3 then read_number c (set_where w s1)
    else if kind c =? 4 then read_num_or_name c (set_where w s1)
    else Ret (set_tval in_tb 1 (set_tb (u8 c) (set_where w s1)), c))
  /\ first_line w = first_line (where_ s1) /\ second_line w = second_line (where_ s1) /\ lpos w = lpos (where_ s1).
Proof.
  intros Hg Hc He. exists (set_lex (line (where_ s)) (lpos (where_ s)) (where_ s1)). split; [|done]. cbn [raw_loop]. rewrite Hg, bind_ret. cbn zeta iota. unfold blank, kind. rewrite He, (isascii_in c Hc), andb_false_r, (proj2 (Z.eqb_neq _ _) (not_eof c Hc)). cbn [negb andb].
  destruct (isspace c); [done|]. destruct (c =? 35); [done|]. destruct (c =? 34); [done|]. destruct (isdigit c || (c =? 45)); [done|]. destruct (isalpha c); [done|]. by destruct (c =? 0).
Qed.

Lemma set_where_goes s w r : lex_ok s -> rest s = r -> Zlen (first_line w) = 81 -> Zlen (second_line w) = 81 -> 1 <= lpos w -> goes s (set_where w s) r.
Proof. intros [H1 H2 H3 H4 H5 H6] E ? ? ?. split; [by split|done]. Qed.
(** A token that is read, with the pieces behind it. *)
Definition reads (s s' : parse) (t : Z) (ps ps' : list piece) : Prop :=
  goes s s' (render ps') /\ pieces_ok ps' /\ (length (rest s') <= length (rest s))%nat /\
  ((t = WHITESPACE /\ toks ps' = toks ps /\ (length (rest s') < length (rest s))%nat) \/
   (exists v, toks ps = (t, v) :: toks ps' /\ shows s' v /\ tok_ok t = true /\ (length (rest s') < length (rest s))%nat) \/
   (t = END_OF_FILE /\ toks ps = [] /\ toks ps' = [])).

Lemma render_nil ps : pieces_ok ps -> render ps = [] -> ps = [].
Proof.
  destruct ps as [|p ps]; [done|]. intros (Hp & _) E. exfalso. cbn in E. apply app_eq_nil in E as [E _]. destruct p; cbn in E, Hp; try done; [by destruct Hp|destruct Hp as (? & ? & -> & _); done..].
Qed.

Lemma holding_nil s : holding s [].
Proof. done. Qed.

Section RawToken.
Context (fuel : nat) (s : parse) (ps : list piece) (H : lex_ok s) (He : eol_token s = false) (Hf : (length (rest s) < S fuel)%nat).

(** The first character of a piece. *)
Lemma raw_first c r : rest s = c :: r -> 0 <= c < 128 -> exists s1 w, get_char s = Ret (s1, c) /\ goes s s1 r /\ goes s (set_where w s1) r /\ raw_loop (S fuel) s =
    (if kind c =? 0 then read_whitespace c s1
    else if kind c =? 1 then (s2 ← skip_to_eol s1; raw_loop fuel s2)
    else if kind c =? 2 then read_string (set_where w s1)
    else if kind c =? 3 then read_number c (set_where w s1)
    else if kind c =? 4 then read_num_or_name c (set_where w s1)
    else Ret (set_tval in_tb 1 (set_tb (u8 c) (set_where w s1)), c)).
Proof.
  intros E Hc. destruct (read_char s c r H E Hc) as (s1 & E1 & G1 & _). pose proof G1 as (H1 & R1 & V1). assert (eol_token s1 = false) as He1 by (unfold env in V1; congruence). destruct (raw_step fuel s s1 c E1 Hc He1) as (w & Er & W1 & W2 & W3). exists s1, w. split; [done|]. split; [done|]. split; [|done]. destruct H1 as [? ? ? ? ? ?] eqn:EH. eapply goes_on; [exact G1|]. apply set_where_goes; [done|done|by rewrite W1|by rewrite W2|by rewrite W3].
Qed.

Lemma raw_blank l : rest s = render (Blank l :: ps) -> pieces_ok (Blank l :: ps) -> exists s' t ps', raw_loop (S fuel) s = Ret (s', t) /\ reads s s' t (Blank l :: ps) ps'.
Proof.
  intros E (Hp & _ & Hps). cbn in Hp. destruct Hp as (Hne & Hl & Ha & Hs). destruct l as [|c l]; [done|]. apply Forall_cons_1 in Ha as [[Hc Hb] Ha]. change (render (Blank (c :: l) :: ps)) with (c :: l ++ render ps) in E. destruct (raw_first c _ E Hc) as (s1 & w & _ & G1 & _ & ->). assert (kind c = 0) as -> by (unfold kind; by rewrite Hb). cbn [Z.eqb]. pose proof G1 as (H1 & R1 & V1). assert (eol_token s1 = false) as He1 by (unfold env in V1; congruence).
  assert (Zlen (c :: l) = Zlen l + 1) as Ec by (unfold Zlen; cbn [length]; lia). destruct (whitespace_loop_ok l (S (left s1)) s1 [] c (render ps) H1 He1 R1 Ha Hs (holding_nil s1)) as (s2 & E2 & G2); [change (Zlen []) with 0; lia|rewrite (left_rest s1 H1), R1, length_app; lia|]. unfold read_whitespace. change (Zlen []) with 0 in E2. rewrite E2. pose proof G2 as (H2 & R2 & V2).
  assert (length (rest s2) < length (rest s))%nat as Hlt by (rewrite R2, E; cbn [length]; rewrite length_app; lia). destruct (decide (render ps = [])) as [Er|Er].
  - apply (render_nil ps Hps) in Er as Ep. subst ps. exists s2, END_OF_FILE, []. split; [done|]. split; [by eapply goes_on|]. split; [done|]. split; [lia|]. right; right. done.
  - exists s2, WHITESPACE, ps. split; [done|]. split; [by eapply goes_on|]. split; [done|]. split; [lia|]. by left.
Qed.

Lemma raw_name l : rest s = render (Name l :: ps) -> pieces_ok (Name l :: ps) -> exists s' t ps', raw_loop (S fuel) s = Ret (s', t) /\ reads s s' t (Name l :: ps) ps'.
Proof.
  intros E (Hp & _ & Hps). destruct Hp as (c & l' & -> & Hc & Ha & Hl & Hn & Hs & Ht). change (render (Name (c :: l') :: ps)) with (c :: l' ++ render ps) in E. destruct (raw_first c _ E Hc) as (s1 & w & _ & _ & G1 & ->). rewrite (kind_name c Hc Ha). cbn [Z.eqb Pos.eqb]. set (s2 := set_where w s1) in *. pose proof G1 as (H2 & R2 & V2). assert (Zlen (c :: l') = Zlen l' + 1) as Ec by (unfold Zlen; cbn [length]; lia). pose proof (Zlen_nonneg l').
  unfold read_num_or_name. destruct (store_goes s2 [] c H2 (holding_nil s2)) as (s3 & E3 & G3 & Hh3 & _); [done|]. change (Zlen []) with 0 in E3. rewrite E3, bind_ret. rewrite (u8_ascii c Hc) in Hh3. rewrite R2 in G3. pose proof G3 as (H3 & R3 & V3).
  destruct (name_loop_ok l' (S (left s3)) s3 [c] NUMBER_OR_NAME (render ps) H3 R3 Hl Hs Hh3) as (s4 & E4 & G4 & Hh4); [change (Zlen [c]) with 1; lia|rewrite (left_rest s3 H3), R3, length_app; lia|]. change (Zlen [c]) with 1 in E4. rewrite E4, bind_ret. cbn zeta iota. pose proof G4 as (H4 & R4 & _). destruct (finish_goes s4 ([c] ++ l') H4 Hh4) as (s5 & -> & G5 & Hv & _); [done|]. rewrite bind_ret. rewrite R4 in G5. destruct Hv as [Hv1 Hv2].
  assert (c_string ([c] ++ l') = c :: l') as Ecs. { cbn [app]. assert (Forall (fun c => c <> 0) (c :: l')) as Hz. { constructor; [intros Ex; by rewrite Ex in Ha|]. refine (List.Forall_impl _ _ Hl). cbn. intros x [_ Hx] Ex. by rewrite Ex in Hx. } clear - Hz. induction Hz as [|x l Hx _ IH]; [done|]. cbn [c_string]. by rewrite (proj2 (Z.eqb_neq _ _) Hx), IH. }
  rewrite Hv2, bind_ret, Ecs. exists s5, (intern (c :: l') (if forallb isxdigit l' then NUMBER_OR_NAME else NAME)), ps. split; [done|]. pose proof (goes_on _ _ _ _ _ G1 (goes_on _ _ _ _ _ G3 (goes_on _ _ _ _ _ G4 G5))) as G. assert (length (rest s5) < length (rest s))%nat as Hlt by (destruct G as (_ & -> & _); rewrite E; cbn [length]; rewrite length_app; lia). split; [done|]. split; [done|]. split; [lia|]. right; left. exists (c :: l'). split; [done|]. split; [by split|]. done.
Qed.

Lemma raw_num l : rest s = render (Num l :: ps) -> pieces_ok (Num l :: ps) -> exists s' t ps', raw_loop (S fuel) s = Ret (s', t) /\ reads s s' t (Num l :: ps) ps'.
Proof.
  intros E (Hp & _ & Hps). destruct Hp as (c & l' & -> & Hc & Ha & Hl & Hn & Hs). change (render (Num (c :: l') :: ps)) with (c :: l' ++ render ps) in E. destruct (raw_first c _ E Hc) as (s1 & w & _ & _ & G1 & ->). rewrite (kind_num c Hc Ha). cbn [Z.eqb Pos.eqb]. set (s2 := set_where w s1) in *. pose proof G1 as (H2 & R2 & V2). assert (Zlen (c :: l') = Zlen l' + 1) as Ec by (unfold Zlen; cbn [length]; lia). pose proof (Zlen_nonneg l').
  unfold read_number. destruct (store_goes s2 [] c H2 (holding_nil s2)) as (s3 & E3 & G3 & Hh3 & _); [done|]. change (Zlen []) with 0 in E3. rewrite E3, bind_ret. rewrite (u8_ascii c Hc) in Hh3. rewrite R2 in G3. pose proof G3 as (H3 & R3 & V3).
  destruct (number_loop_ok l' (S (left s3)) s3 [c] NUMBER (render ps) H3 R3 Hl Hs Hh3) as (s4 & E4 & G4 & Hh4); [change (Zlen [c]) with 1; lia|rewrite (left_rest s3 H3), R3, length_app; lia|by left|]. change (Zlen [c]) with 1 in E4. rewrite E4, bind_ret. cbn zeta iota. pose proof G4 as (H4 & R4 & _). destruct (finish_goes s4 ([c] ++ l') H4 Hh4) as (s5 & -> & G5 & Hv & Hz); [done|]. rewrite bind_ret. rewrite R4 in G5. assert (rd (tokbuf s5) (Zlen ([c] ++ l')) = Ret 0) as -> by (apply rdA_lookup; [apply Zlen_nonneg|]; unfold Zlen; by rewrite Nat2Z.id). rewrite bind_ret, andb_false_r.
  exists s5, (if forallb isdigit l' then NUMBER else NUMBER_OR_NAME), ps. split; [done|]. pose proof (goes_on _ _ _ _ _ G1 (goes_on _ _ _ _ _ G3 (goes_on _ _ _ _ _ G4 G5))) as G. assert (length (rest s5) < length (rest s))%nat as Hlt by (destruct G as (_ & -> & _); rewrite E; cbn [length]; rewrite length_app; lia). split; [done|]. split; [done|]. split; [lia|]. right; left. exists (c :: l'). split; [done|]. split; [done|]. split; [by destruct (forallb isdigit l')|done].
Qed.

Lemma raw_mark c : rest s = render (Mark c :: ps) -> pieces_ok (Mark c :: ps) -> exists s' t ps', raw_loop (S fuel) s = Ret (s', t) /\ reads s s' t (Mark c :: ps) ps'.
Proof.
  intros E ([Hc Hm] & _ & Hps). change (render (Mark c :: ps)) with (c :: render ps) in E. destruct (raw_first c _ E Hc) as (s1 & w & _ & _ & G1 & ->). destruct (kind_mark c Hc Hm) as [-> Hz]. cbn [Z.eqb Pos.eqb]. rewrite (u8_ascii c Hc). eexists _, _, ps. split; [done|]. pose proof G1 as (H1 & R1 & V1). assert (length (render ps) < length (rest s))%nat as Hlt by (rewrite E; cbn; lia). split; [split; [by destruct H1|by split]|]. split; [done|]. unfold rest in *. cbn in *. rewrite R1. split; [lia|]. right; left. exists [c]. split; [done|]. split; [split; [done|]; cbn; done|]. split; [|done]. unfold tok_ok. rewrite (proj2 (Z.eqb_neq _ _) Hz). assert (c <> WHITESPACE /\ c <> END_OF_FILE) as [?%Z.eqb_neq ?%Z.eqb_neq] by (unfold WHITESPACE, END_OF_FILE; lia). cbn. by rewrite H0, H2.
Qed.

Lemma raw_quote l : rest s = render (Quote l :: ps) -> pieces_ok (Quote l :: ps) -> exists s' t ps', raw_loop (S fuel) s = Ret (s', t) /\ reads s s' t (Quote l :: ps) ps'.
Proof.
  intros E ([Hb Hn] & _ & Hps). assert (render (Quote l :: ps) = 34 :: quotes l ++ 34 :: render ps) as Er by (cbn; by rewrite <- (assoc_L (++))). rewrite Er in E. destruct (raw_first 34 _ E ltac:(lia)) as (s1 & w & _ & _ & G1 & ->). cbn [kind]. change (kind 34) with 2. cbn [Z.eqb Pos.eqb]. set (s2 := set_where w s1) in *. pose proof G1 as (H2 & R2 & V2).
  unfold read_string. destruct (string_loop_ok l (S (left s2)) s2 [] (render ps) 0 false H2 Hb R2 (holding_nil s2)) as (s3 & E3 & G3 & Hh3); [change (Zlen []) with 0; lia|rewrite (left_rest s2 H2), R2, length_app; lia|]. change (Zlen []) with 0 in E3. rewrite E3, bind_ret. cbn [app fst snd]. unfold cut. rewrite (proj2 (Z.eqb_neq _ _)) by lia. cbn zeta iota. pose proof G3 as (H3 & R3 & _). destruct (finish_goes s3 l H3 Hh3 Hn) as (s4 & -> & G4 & Hv & _). rewrite bind_ret. rewrite R3 in G4. pose proof (goes_on _ _ _ _ _ G1 (goes_on _ _ _ _ _ G3 G4)) as G.
  exists s4, STRING, ps. split; [done|]. assert (length (rest s4) < length (rest s))%nat as Hlt by (destruct G as (_ & -> & _); rewrite E; cbn [length]; rewrite length_app; cbn; lia). split; [done|]. split; [done|]. split; [lia|]. right; left. by exists l.
Qed.

End RawToken.
(** What is left of a blank. *)
Definition blanks (l : list Z) (ps : list piece) : list piece := match l with [] => ps | _ => Blank l :: ps end.

Lemma raw_end fuel s : lex_ok s -> rest s = [] -> exists s', raw_loop (S fuel) s = Ret (s', END_OF_FILE) /\ reads s s' END_OF_FILE [] [].
Proof.
  intros H E. cbn [raw_loop]. destruct (get_char_nil s H E) as (s1 & -> & H1 & R1 & Ec). rewrite bind_ret. cbn zeta iota. unfold blank. change (isascii EOF) with false. rewrite !andb_false_r. cbn. exists (set_tlen 0 s1). split; [done|]. apply core_env in Ec as [Ev _]. split; [split; [by destruct H1|by split]|]. split; [done|]. unfold rest in *. cbn [bufix inbuf set_tlen]. rewrite R1. split; [cbn [length]; lia|]. by right; right.
Qed.

Lemma raw_token fuel : forall s ps, lex_ok s -> eol_token s = false -> rest s = render ps -> pieces_ok ps -> (length (rest s) < fuel)%nat -> exists s' t ps', raw_loop fuel s = Ret (s', t) /\ reads s s' t ps ps'.
Proof.
  induction fuel as [|fuel IH]; intros s ps H He E Hp Hf; [lia|]. destruct ps as [|[l|l|l|l|c|l] ps].
  - destruct (raw_end fuel s H E) as (s' & ? & ?). by exists s', END_OF_FILE, [].
  - by apply raw_blank.
  - destruct Hp as (Hl & Hsl & Hp). destruct ps as [|[[|c b]|?|?|?|?|?] ps]; try done. cbn in Hsl. subst c. assert (render (Remark l :: Blank (10 :: b) :: ps) = 35 :: l ++ 10 :: (b ++ render ps)) as Er by done. rewrite Er in E. destruct (raw_first fuel s H He 35 _ E ltac:(lia)) as (s1 & w & _ & G1 & _ & ->). change (kind 35) with 1. cbn [Z.eqb Pos.eqb]. pose proof G1 as (H1 & R1 & V1).
    unfold skip_to_eol. destruct (skip_to_eol_ok l (S (left s1)) s1 (b ++ render ps) H1 R1 Hl) as (s2 & -> & G2); [rewrite (left_rest s1 H1), R1, length_app; lia|]. rewrite bind_ret. pose proof G2 as (H2 & R2 & V2). assert (goes s s2 (b ++ render ps)) as G02 by (by eapply goes_on). assert (length (rest s2) < length (rest s))%nat as Hlt by (rewrite R2, E; cbn [length]; rewrite !length_app; cbn [length]; rewrite ?length_app; lia).
    destruct Hp as ((_ & Hn & Ha & Hs) & _ & Hps). apply Forall_cons_1 in Ha as [_ Ha]. destruct (IH s2 (blanks b ps) H2) as (s3 & t & ps' & -> & G3 & Hp3 & L3 & Hc); [unfold env in *; congruence|rewrite R2; by destruct b|destruct b; [done|split; [|done]; split; [done|]; split; [unfold Zlen in *; cbn [length] in *; lia|done]]|lia|].
    exists s3, t, ps'. split; [done|]. split; [by eapply goes_on|]. split; [done|]. split; [lia|]. assert (toks (blanks b ps) = toks (Remark l :: Blank (10 :: b) :: ps)) as Et by (by destruct b). rewrite Et in Hc. destruct Hc as [(? & ? & ?)|[(v & ? & ? & ? & ?)|?]]; [left; split_and!; [done|done|lia]|right; left; exists v; split_and!; [done..|lia]|by right; right].
  - by apply raw_name.
  - by apply raw_num.
  - by apply raw_mark.
  - by apply raw_quote.
Qed.

Lemma get_raw_ok s ps : lex_ok s -> eol_token s = false -> rest s = render ps -> pieces_ok ps -> exists s' t ps', get_raw_token s = Ret (s', t) /\ reads s s' t ps ps'.
Proof. intros. apply raw_token; [done..|]. rewrite (left_rest s); [lia|done]. Qed.

(** ** The tokens that are still to be read *)

(** The text that is left consists of [ps]. *)
Definition at_text (s : parse) (ps : list piece) : Prop := lex_ok s /\ eol_token s = false /\ rest s = render ps /\ pieces_ok ps.

(** The tokens [ts] follow; the first of them may have been looked at. *)
Definition lexes (s : parse) (ts : list (Z * list Z)) : Prop :=
  exists ps, at_text s ps /\
    ((token s = 0 /\ toks ps = ts) \/ (exists v, tok_ok (token s) = true /\ ts = (token s, v) :: toks ps /\ shows s v) \/ (token s = END_OF_FILE /\ ts = [] /\ toks ps = [])).

Definition quiet (s s' : parse) : Prop := warnings_occurred s' = warnings_occurred s.

Lemma at_text_where s ps w : at_text s ps -> Zlen (first_line w) = 81 -> Zlen (second_line w) = 81 -> 1 <= lpos w -> at_text (set_where w s) ps.
Proof. intros ([] & ? & ? & ?) ? ? ?. split; [by split|done]. Qed.

Lemma at_text_places s ps : at_text s ps -> Zlen (first_line (where_ s)) = 81 /\ Zlen (second_line (where_ s)) = 81 /\ 1 <= lpos (where_ s).
Proof. by intros ([] & _). Qed.

Lemma at_text_token s ps t : at_text s ps -> at_text (set_token t s) ps.
Proof. intros ([] & ? & ? & ?). split; [by split|done]. Qed.

Lemma reads_text s s' t ps ps' : at_text s ps -> reads s s' t ps ps' -> at_text s' ps' /\ token s' = token s /\ quiet s s'.
Proof. intros (H & He & E & Hp) ((H' & R' & V) & Hp' & _). unfold env, quiet in *. split; [split; [done|]; split; [congruence|done]|]. split; congruence. Qed.

(** A token read by [fresh_token], or blanks. *)
Lemma fresh_reads s ps : at_text s ps -> exists s' t ps', fresh_token s = Ret (s', t) /\ at_text s' ps' /\ token s' = token s /\ quiet s s' /\ (length (rest s') <= length (rest s))%nat /\
  ((t = WHITESPACE /\ toks ps' = toks ps /\ (length (rest s') < length (rest s))%nat) \/ (exists v, toks ps = (t, v) :: toks ps' /\ shows s' v /\ tok_ok t = true /\ (length (rest s') < length (rest s))%nat) \/ (t = END_OF_FILE /\ toks ps = [] /\ toks ps' = [])).
Proof.
  intros Ht. pose proof Ht as (H & He & E & Hp). unfold fresh_token. destruct (get_raw_ok s ps H He E Hp) as (s1 & t & ps' & -> & R). rewrite bind_ret. cbn [fst snd]. destruct (reads_text _ _ _ _ _ Ht R) as (Ht1 & Tk & Q). destruct (at_text_places _ _ Ht1) as (? & ? & ?). eexists _, t, ps'. split; [done|]. split; [by apply at_text_where|]. split; [done|]. split; [done|]. destruct R as (_ & _ & L & C). split; [done|]. destruct C as [?|[(v & ? & [V1 V2] & ?)|?]]; [by left|right; left; by exists v|by right; right].
Qed.

Lemma tok_ok_inv t : tok_ok t = true -> t <> 0 /\ t <> WHITESPACE /\ t <> END_OF_FILE.
Proof. unfold tok_ok. rewrite !andb_true_iff, !negb_true_iff, !Z.eqb_neq. tauto. Qed.

(** What [next_token] and [peek_token] end with. *)
Definition ends_with (s : parse) (t : Z) (ts ts' : list (Z * list Z)) (ps' : list piece) : Prop :=
  (exists v, ts = (t, v) :: ts' /\ shows s v /\ tok_ok t = true /\ toks ps' = ts') \/ (t = END_OF_FILE /\ ts = [] /\ ts' = [] /\ toks ps' = []).

Lemma skip_white_ok fuel : forall s ps t, at_text s ps -> (length (rest s) < fuel)%nat -> t = WHITESPACE -> exists s' t' ts' ps', skip_white fuel s t = Ret (s', t') /\ at_text s' ps' /\ token s' = token s /\ quiet s s' /\ ends_with s' t' (toks ps) ts' ps'.
Proof.
  induction fuel as [|fuel IH]; intros s ps t Ht Hf ->; [lia|]. cbn [skip_white]. cbn [negb Z.eqb Pos.eqb]. change (WHITESPACE =? WHITESPACE) with true. cbn [negb]. destruct (fresh_reads s ps Ht) as (s1 & t & ps1 & -> & Ht1 & Tk & Q & L & C). rewrite bind_ret. cbn [fst snd]. destruct C as [(-> & Et & Hlt)|[(v & Et & Hv & Ho & _)|(-> & Et & Et')]].
  - destruct (IH s1 ps1 WHITESPACE Ht1 ltac:(lia) eq_refl) as (s2 & t2 & ts2 & ps2 & -> & Ht2 & Tk2 & Q2 & En). exists s2, t2, ts2, ps2. rewrite Et in En. unfold quiet in *. split_and!; [done|done|congruence|congruence|done].
  - destruct (tok_ok_inv t Ho) as (_ & Hw & _). exists s1, t, (toks ps1), ps1. destruct fuel; cbn [skip_white]; rewrite (proj2 (Z.eqb_neq _ _) Hw); cbn [negb]; (split; [done|]; split; [done|]; split; [done|]; split; [done|]; left; by exists v).
  - exists s1, END_OF_FILE, [], ps1. destruct fuel; cbn [skip_white]; (split; [done|]; split; [done|]; split; [done|]; split; [done|]; by right).
Qed.

Lemma peek_loop_ok fuel : forall s ps, at_text s ps -> (length (rest s) < fuel)%nat -> exists s' ts' ps', peek_loop fuel s false = Ret s' /\ at_text s' ps' /\ quiet s s' /\ ends_with s' (token s') (toks ps) ts' ps'.
Proof.
  induction fuel as [|fuel IH]; intros s ps Ht Hf; [lia|]. cbn [peek_loop]. pose proof Ht as (H & He & E & Hp). destruct (get_raw_ok s ps H He E Hp) as (s1 & t & ps1 & -> & R). rewrite bind_ret. cbn [fst snd negb andb]. destruct (reads_text _ _ _ _ _ Ht R) as (Ht1 & Tk & Q). destruct R as (_ & _ & L & C). destruct C as [(-> & Et & Hlt)|[(v & Et & Hv & Ho & _)|(-> & Et & Et')]].
  - change (WHITESPACE =? WHITESPACE) with true. cbn iota. destruct (IH (set_token WHITESPACE s1) ps1) as (s2 & ts2 & ps2 & -> & Ht2 & Q2 & En); [by apply at_text_token|unfold rest in *; cbn; lia|]. exists s2, ts2, ps2. rewrite Et in En. split; [done|]. split; [done|]. split; [unfold quiet in *; cbn in *; congruence|done].
  - destruct (tok_ok_inv t Ho) as (_ & Hw & _). rewrite (proj2 (Z.eqb_neq _ _) Hw). exists (set_token t s1), (toks ps1), ps1. split; [done|]. split; [by apply at_text_token|]. split; [done|]. left. exists v. split; [done|]. split; [exact Hv|]. done.
  - exists (set_token END_OF_FILE s1), [], ps1. split; [done|]. split; [by apply at_text_token|]. split; [done|]. by right.
Qed.
Lemma skip_white_other fuel s t : t <> WHITESPACE -> skip_white fuel s t = Ret (s, t).
Proof. intros Hw. destruct fuel; cbn [skip_white]; by rewrite (proj2 (Z.eqb_neq _ _) Hw). Qed.

(** The token that has been looked at is taken. *)
Lemma take_peeked s ps : at_text s ps -> token s <> 0 -> token s <> WHITESPACE -> exists s', next_token s = Ret (s', token s) /\ at_text s' ps /\ token s' = 0 /\ quiet s s' /\ forall v, shows s v -> shows s' v.
Proof.
  intros Ht H0 Hw. unfold next_token, get_next_token. rewrite (proj2 (Z.eqb_neq _ _) H0). cbn [negb]. rewrite bind_ret. cbn [fst snd]. rewrite skip_white_other by done. destruct (at_text_places _ _ Ht) as (? & ? & ?). eexists. split; [done|]. split; [apply at_text_token; apply at_text_where; [done|..]; by destruct (_ =? _)|]. done.
Qed.

Lemma next_text s ps : at_text s ps -> token s = 0 -> exists s' t ts' ps', next_token s = Ret (s', t) /\ at_text s' ps' /\ token s' = 0 /\ quiet s s' /\ ends_with s' t (toks ps) ts' ps'.
Proof.
  intros Ht H0. unfold next_token, get_next_token. rewrite H0. cbn [Z.eqb negb]. destruct (fresh_reads s ps Ht) as (s1 & t & ps1 & -> & Ht1 & Tk & Q & L & C). rewrite bind_ret. cbn [fst snd]. destruct C as [(-> & Et & Hlt)|[(v & Et & Hv & Ho & _)|(-> & Et & Et')]].
  - destruct (skip_white_ok (S (left s1)) s1 ps1 WHITESPACE Ht1) as (s2 & t2 & ts2 & ps2 & -> & Ht2 & Tk2 & Q2 & En); [destruct Ht1 as (H1 & _); rewrite (left_rest s1 H1); lia|done|]. exists s2, t2, ts2, ps2. rewrite Et in En. unfold quiet in *. split_and!; [done|done|congruence|congruence|done].
  - destruct (tok_ok_inv t Ho) as (_ & Hw & _). rewrite skip_white_other by done. exists s1, t, (toks ps1), ps1. split_and!; [done|done|congruence|done|]. left. by exists v.
  - rewrite skip_white_other by done. exists s1, END_OF_FILE, [], ps1. split_and!; [done|done|congruence|done|]. by right.
Qed.

Lemma next_lexes s t v ts : lexes s ((t, v) :: ts) -> exists s', next_token s = Ret (s', t) /\ shows s' v /\ lexes s' ts /\ quiet s s' /\ tok_ok t = true.
Proof.
  intros (ps & Ht & [[H0 E]|[(v' & Ho & E & Hv)|(_ & E & _)]]); [| |done].
  - destruct (next_text s ps Ht H0) as (s1 & t1 & ts1 & ps1 & -> & Ht1 & Tk & Q & [(v1 & E1 & Hv1 & Ho & Et)|(_ & E1 & _)]); [|by rewrite E in E1]. rewrite E in E1. injection E1 as <- <- <-. exists s1. split; [done|]. split; [done|]. split; [exists ps1; split; [done|]; by left|done].
  - injection E as -> -> ->. destruct (tok_ok_inv _ Ho) as (? & ? & ?). destruct (take_peeked s ps Ht) as (s1 & -> & Ht1 & Tk & Q & Hs); [done..|]. exists s1. split; [done|]. split; [by apply Hs|]. split; [exists ps; split; [done|]; by left|done].
Qed.

Lemma next_end s : lexes s [] -> exists s', next_token s = Ret (s', END_OF_FILE) /\ lexes s' [] /\ quiet s s'.
Proof.
  intros (ps & Ht & [[H0 E]|[(v' & Ho & E & Hv)|(He & _ & E)]]); [|done|].
  - destruct (next_text s ps Ht H0) as (s1 & t1 & ts1 & ps1 & -> & Ht1 & Tk & Q & [(v1 & E1 & _)|(-> & E1 & _ & Et)]); [by rewrite E in E1|]. exists s1. split; [done|]. split; [exists ps1; split; [done|]; by left|done].
  - destruct (take_peeked s ps Ht) as (s1 & E1 & Ht1 & Tk & Q & Hs); [by rewrite He..|]. rewrite He in E1. exists s1. split; [done|]. split; [exists ps; split; [done|]; by left|done].
Qed.

Lemma peek_lexes s t v ts : lexes s ((t, v) :: ts) -> exists s', peek_token s = Ret (s', t) /\ shows s' v /\ lexes s' ((t, v) :: ts) /\ quiet s s' /\ tok_ok t = true.
Proof.
  intros (ps & Ht & [[H0 E]|[(v' & Ho & E & Hv)|(_ & E & _)]]); [| |done].
  - unfold peek_token, do_peek_token. rewrite H0. cbn [Z.eqb orb]. destruct (at_text_places _ _ Ht) as (? & ? & ?). set (s0 := set_where _ s). assert (at_text s0 ps) as Ht0 by (by apply at_text_where). destruct (peek_loop_ok (S (left s0)) s0 ps Ht0) as (s1 & ts1 & ps1 & -> & Ht1 & Q & [(v1 & E1 & Hv1 & Ho & Et)|(_ & E1 & _)]); [destruct Ht0 as (H' & _); rewrite (left_rest s0 H'); lia| |by rewrite E in E1]. rewrite !bind_ret. rewrite E in E1. injection E1 as -> -> ->. destruct (at_text_places _ _ Ht1) as (? & ? & ?).
    eexists. split; [done|]. split; [exact Hv1|]. split; [|done]. exists ps1. split; [apply at_text_where; [done|..]; by destruct (_ =? _)|]. right; left. exists v1. cbn. by rewrite Et.
  - injection E as -> -> ->. destruct (tok_ok_inv _ Ho) as (H0 & Hw & _). unfold peek_token, do_peek_token. rewrite (proj2 (Z.eqb_neq _ _) H0), (proj2 (Z.eqb_neq _ _) Hw). cbn [orb andb negb]. rewrite bind_ret. exists s. split; [done|]. split; [done|]. split; [|done]. exists ps. split; [done|]. right; left. by exists v'.
Qed.

(** There is at least a character for each token. *)
Lemma toks_length ps : pieces_ok ps -> (length (toks ps) <= length (render ps))%nat.
Proof.
  induction ps as [|p ps IH]; [done|]. intros (Hp & _ & Hps). change (toks (p :: ps)) with (token_of p ++ toks ps). change (render (p :: ps)) with (render1 p ++ render ps). rewrite !length_app. specialize (IH Hps). enough (length (token_of p) <= length (render1 p))%nat by lia. destruct p; cbn in Hp |- *; try lia; destruct Hp as (? & ? & -> & _); cbn; lia.
Qed.

Lemma lexes_left s ts : lexes s ts -> (length ts <= S (left s))%nat.
Proof.
  intros (ps & (H & _ & E & Hp) & C). rewrite (left_rest s H), E. pose proof (toks_length ps Hp). destruct C as [[_ <-]|[(v & _ & -> & _)|(_ & -> & _)]]; cbn; lia.
Qed.

(** A text is read from its start. *)
Lemma lexes_new ps : pieces_ok ps -> is_bytes (render ps) -> lexes (new_parse (render ps) false) (toks ps).
Proof.
  intros Hp Hb. exists ps. split; [|by left]. split; [|done]. split; cbn; try done. pose proof (Zlen_nonneg (render ps)). lia.
Qed.

Lemma render_app ps1 ps2 : render (ps1 ++ ps2) = render ps1 ++ render ps2.
Proof. unfold render. by rewrite List.flat_map_app. Qed.

Lemma toks_app ps1 ps2 : toks (ps1 ++ ps2) = toks ps1 ++ toks ps2.
Proof. unfold toks. by rewrite List.flat_map_app. Qed.

(** Pieces that are followed by [k]. *)
Fixpoint open_ok (ps k : list piece) : Prop :=
  match ps with
  | [] => True
  | p :: ps => piece_ok p (render (ps ++ k)) /\ match p with Remark _ => starts_line (ps ++ k) | _ => True end /\ open_ok ps k
  end.

Lemma open_pieces ps k : open_ok ps k -> pieces_ok k -> pieces_ok (ps ++ k).
Proof. induction ps as [|p ps IH]; [done|]. intros (H1 & H2 & H3) Hk. split; [done|]. split; [done|]. by apply IH. Qed.

Lemma open_app ps1 ps2 k : open_ok ps1 (ps2 ++ k) -> open_ok ps2 k -> open_ok (ps1 ++ ps2) k.
Proof. induction ps1 as [|p ps1 IH]; [done|]. intros (H1 & H2 & H3) Hk. cbn. rewrite <- (assoc_L (++)). split; [done|]. split; [done|]. by apply IH. Qed.

End LexText.
