(* ===== verification/LeaseText.v ===== *)
(** * The words of the lease file

    The numbers, dates, strings and addresses that [write_lease] writes are pieces of [LexText], and the
    parsers of [ConfParse] read them from their tokens. *)

From Stdlib Require Import ZArith Lia String.
From stdpp Require Import base list numbers option.
From S2P Require Import Prelude.
From S2P Require Import FailoverLease.
From S2P Require Import Mdb.
From S2P Require Import DhcToken.
From S2P Require Import ConfLex.
From S2P Require Import Print.
From S2P Require Import ConfParse.
From S2P Require Import LeaseFile.
From S2P Require Import LexText.
#[local] Open Scope Z_scope.

Module LeaseText.

Import FailoverLease DhcToken ConfLex Print ConfParse LeaseFile LexText.

(** ** Decimal numbers *)

Definition is_digits (l : list Z) : Prop := Forall (fun c => 48 <= c <= 57) l.

Lemma digits_all f : forall n, 0 <= n -> is_digits (digits f n).
Proof.
  induction f as [|f IH]; intros n Hn; cbn; [constructor|]. destruct (Z.ltb_spec n 10); [repeat constructor; lia|]. apply Forall_app. split; [apply IH, Z.div_pos; lia|]. pose proof (Z.mod_pos_bound n 10 ltac:(lia)). repeat constructor; lia.
Qed.

Lemma digits_length f : forall n, (length (digits f n) <= f)%nat.
Proof. induction f as [|f IH]; intros n; cbn; [lia|]. destruct (n <? 10); cbn; [lia|]. rewrite length_app. cbn. specialize (IH (n / 10)). lia. Qed.

Lemma isdigit_in c : 48 <= c <= 57 -> isdigit c = true.
Proof. intros. by apply in_range. Qed.

Lemma strtol_app a : forall b v, is_digits a -> strtol_digits (a ++ b) v = strtol_digits b (strtol_digits a v).
Proof. induction a as [|c a IH]; intros b v Ha; [done|]. apply Forall_cons_1 in Ha as [Hc Ha]. cbn. rewrite (isdigit_in c Hc). by apply IH. Qed.

Lemma digits_value f : forall n, 0 <= n < 2 ^ Z.of_nat f -> strtol_digits (digits f n) 0 = n.
Proof.
  induction f as [|f IH]; intros n Hn; [cbn in *; lia|]. cbn [digits]. destruct (Z.ltb_spec n 10).
  - cbn. rewrite isdigit_in by lia. lia.
  - rewrite Nat2Z.inj_succ, Z.pow_succ_r in Hn by lia. assert (0 <= n / 10 < 2 ^ Z.of_nat f) as Hd by (split; [apply Z.div_pos; lia|apply Z.div_lt_upper_bound; lia]). rewrite strtol_app by (apply digits_all; lia). rewrite IH by done. pose proof (Z.mod_pos_bound n 10 ltac:(lia)). pose proof (Z.div_mod n 10 ltac:(lia)). cbn. rewrite isdigit_in by lia. lia.
Qed.

Lemma dec_digits n : 0 <= n -> is_digits (dec n).
Proof. apply digits_all. Qed.

Lemma dec_value n : 0 <= n -> strtol_digits (dec n) 0 = n.
Proof.
  intros Hn. apply digits_value. split; [done|]. rewrite Nat2Z.inj_succ, Z2Nat.id by apply Z.log2_nonneg. destruct (Z.eq_dec n 0) as [->|]; [done|]. apply Z.log2_spec. lia.
Qed.

Lemma dec_cons n : 0 <= n -> exists c l, dec n = c :: l /\ 48 <= c <= 57 /\ is_digits l.
Proof.
  intros Hn. pose proof (dec_digits n Hn) as Hd. destruct (dec n) as [|c l] eqn:E.
  - exfalso. unfold dec in E. cbn in E. destruct (n <? 10); [done|]. by apply app_eq_nil in E as [_ ?].
  - apply Forall_cons_1 in Hd as [? ?]. by exists c, l.
Qed.

Lemma dec_short n : 0 <= n < 2 ^ 64 -> (length (dec n) <= 64)%nat.
Proof.
  intros Hn. etrans; [apply digits_length|]. destruct (Z.eq_dec n 0) as [->|]; [cbn; lia|]. assert (Z.log2 n < 64) by (apply Z.log2_lt_pow2; lia). pose proof (Z.log2_nonneg n). lia.
Qed.

(** A text of digits is a number for [strtol]. *)
Lemma strtol_digits_only c l : 48 <= c <= 57 -> strtol (c :: l) = strtol_digits (c :: l) 0.
Proof. intros Hc. cbn [strtol]. assert (isspace c = false) as -> by (unfold isspace; rewrite orb_false_iff, andb_false_iff, Z.eqb_neq, !Z.leb_gt; lia). by rewrite !(proj2 (Z.eqb_neq _ _)) by lia. Qed.

Lemma atol_dec n : 0 <= n < 2 ^ 63 -> atol (dec n) = n.
Proof. intros Hn. destruct (dec_cons n) as (c & l & E & Hc & _); [lia|]. unfold atol. rewrite E, strtol_digits_only, <- E, dec_value by lia. lia. Qed.

Lemma atoi_dec n : 0 <= n < 2 ^ 31 -> atoi (dec n) = n.
Proof. intros Hn. unfold atoi. rewrite atol_dec by lia. apply s32_small. lia. Qed.

Lemma dec2_digits n : 0 <= n < 100 -> 48 <= 48 + n / 10 <= 57 /\ 48 <= 48 + n mod 10 <= 57.
Proof. intros. pose proof (Z.mod_pos_bound n 10 ltac:(lia)). assert (0 <= n / 10 < 10) by (split; [apply Z.div_pos|apply Z.div_lt_upper_bound]; lia). lia. Qed.

Lemma atoi_dec2 n : 0 <= n < 100 -> atoi (dec2 n) = n.
Proof.
  intros Hn. destruct (dec2_digits n Hn) as [H1 H2]. pose proof (Z.div_mod n 10 ltac:(lia)). unfold atoi, atol, dec2. rewrite strtol_digits_only by done. cbn [strtol_digits]. rewrite !isdigit_in by done. replace ((0 * 10 + (48 + n / 10 - 48)) * 10 + (48 + n mod 10 - 48)) with n by lia. rewrite Z.min_r, Z.max_r by lia. apply s32_small. lia.
Qed.

(** ** Numbers of the lexer *)

Lemma digit_ascii c : 48 <= c <= 57 -> 0 <= c < 128 /\ isxdigit c = true.
Proof. intros. split; [lia|]. unfold isxdigit. by rewrite isdigit_in. Qed.

Lemma digits_xdigits l : is_digits l -> ascii_of isxdigit l /\ forallb isdigit l = true.
Proof. intros H. split; [refine (List.Forall_impl _ _ H); intros c; apply digit_ascii|]. apply List.forallb_forall. intros c Hc. unfold is_digits in H. rewrite List.Forall_forall in H. by apply isdigit_in, H. Qed.

(** A text of digits, or one with a sign before it. *)
Lemma num_ok c l r : 48 <= c <= 57 \/ c = 45 -> is_digits l -> Zlen (c :: l) < TOKBUF -> stops isname r -> piece_ok (Num (c :: l)) r /\ token_of (Num (c :: l)) = [(NUMBER, c :: l)].
Proof.
  intros Hc Hl Hn Hr. destruct (digits_xdigits l Hl) as [Hx Hd]. split; [|cbn; by rewrite Hd]. exists c, l. split; [done|]. split; [lia|]. split; [|done]. destruct Hc as [Hc| ->]; [by rewrite isdigit_in|done].
Qed.

Lemma dec_ok n r : 0 <= n < 2 ^ 64 -> stops isname r -> piece_ok (Num (dec n)) r /\ token_of (Num (dec n)) = [(NUMBER, dec n)].
Proof.
  intros Hn Hr. destruct (dec_cons n) as (c & l & E & Hc & Hl); [lia|]. pose proof (dec_short n Hn) as Hs. rewrite E in *. apply num_ok; [by left|done|unfold Zlen, TOKBUF; lia|done].
Qed.

Lemma dec2_ok n r : 0 <= n < 100 -> stops isname r -> piece_ok (Num (dec2 n)) r /\ token_of (Num (dec2 n)) = [(NUMBER, dec2 n)].
Proof. intros Hn Hr. destruct (dec2_digits n Hn) as [H1 H2]. apply num_ok; [by left|repeat constructor; lia|done|done]. Qed.
(** ** Dates *)

(** The days before a year, which is counted from 1970, up to 2038. *)
Definition first_day (k : Z) : Z := 365 * k + (k + 1) / 4.

(** The first day of 2038. *)
Definition DAY_2038 : Z := 24837.

Lemma year_ok k : 0 <= k < 68 -> year_days (1970 + k) = first_day (k + 1) - first_day k /\ leap (1970 + k) = (Z.land (70 + k - 72) 3 =? 0) /\ first_day k = 365 * (70 + k - 70) + Z.quot (70 + k - 69) 4.
Proof.
  intros Hk. assert (forallb (fun k => (year_days (1970 + k) =? first_day (k + 1) - first_day k) && eqb (leap (1970 + k)) (Z.land (70 + k - 72) 3 =? 0) && (first_day k =? 365 * (70 + k - 70) + Z.quot (70 + k - 69) 4)) (seqZ 0 68) = true) as H by (by vm_compute). rewrite List.forallb_forall in H. specialize (H k). rewrite !andb_true_iff, !Z.eqb_eq, eqb_true_iff in H. destruct H as [[? ?] ?]; [|done]. apply list_elem_of_In, elem_of_seqZ. lia.
Qed.

Lemma year_loop_ok n : forall fuel j d, (n < fuel)%nat -> 0 <= j -> j + Z.of_nat n < 68 -> first_day (j + Z.of_nat n) <= d < first_day (j + Z.of_nat n + 1) -> year_loop fuel (1970 + j) (d - first_day j) = (1970 + (j + Z.of_nat n), d - first_day (j + Z.of_nat n)).
Proof.
  induction n as [|n IH]; intros [|fuel] j d Hf Hj Hk Hd; try lia; cbn [year_loop]; destruct (year_ok j) as [Ey _]; try lia; rewrite Ey.
  - rewrite Z.add_0_r in *. by rewrite (proj2 (Z.ltb_lt _ _)) by lia.
  - assert (first_day (j + 1) <= first_day (j + Z.of_nat (S n))) as Hle. { unfold first_day. assert ((j + 1 + 1) / 4 <= (j + Z.of_nat (S n) + 1) / 4) by (apply Z.div_le_mono; lia). lia. }
    rewrite (proj2 (Z.ltb_ge _ _)) by lia. replace (d - first_day j - (first_day (j + 1) - first_day j)) with (d - first_day (j + 1)) by lia. rewrite <- Z.add_assoc. replace (j + Z.of_nat (S n)) with (j + 1 + Z.of_nat n) in * by lia. apply IH; lia.
Qed.

Lemma month_loop_leap y y' : leap y = leap y' -> forall f m d, month_loop f y m d = month_loop f y' m d.
Proof. intros E f. induction f as [|f IH]; intros m d; [done|]. cbn [month_loop]. unfold month_days. rewrite E. destruct (_ <? _); [done|]. apply IH. Qed.

(** What [guess] adds for the month. *)
Definition before_month (m : Z) : Z := if m =? 0 then 0 else nthZ months (m - 1).

Definition month_fits (y yd : Z) : bool :=
  let '(m, md) := month_loop 12 y 0 yd in
  (0 <=? m) && (m <? 12) && (0 <=? md) && (md <? 31) && (before_month m + (if (1 <? m) && leap y then 1 else 0) + md =? yd).

Lemma month_ok y yd : 0 <= yd < year_days y -> month_fits y yd = true.
Proof.
  intros Hd. assert (forallb (month_fits 2000) (seqZ 0 366) && forallb (month_fits 2001) (seqZ 0 365) = true) as H by (by vm_compute). apply andb_true_iff in H as [H1 H2]. rewrite List.forallb_forall in H1, H2.
  assert (month_fits y yd = month_fits (if leap y then 2000 else 2001) yd) as -> by (unfold month_fits; rewrite (month_loop_leap y (if leap y then 2000 else 2001)) by (by destruct (leap y)); destruct (month_loop _ _ _ _); by destruct (leap y)).
  unfold year_days in Hd. destruct (leap y); [apply H1|apply H2]; apply list_elem_of_In, elem_of_seqZ; lia.
Qed.

Record date_ok (t : Z) (g : tm) : Prop := {
  dt_year : 70 <= tm_year g < 138;
  dt_mon : 0 <= tm_mon g < 12;
  dt_mday : 1 <= tm_mday g < 32;
  dt_wday : 0 <= tm_wday g < 7;
  dt_hour : 0 <= tm_hour g < 24;
  dt_min : 0 <= tm_min g < 60;
  dt_sec : 0 <= tm_sec g < 60;
  dt_guess : guess (tm_year g) (tm_mon g) (tm_mday g) (tm_hour g) (tm_min g) (tm_sec g) 0 = Ret t
}.

(** The year of a day. *)
Lemma year_of d : 0 <= d < DAY_2038 -> exists k, 0 <= k < 68 /\ first_day k <= d < first_day (k + 1).
Proof.
  intros Hd. assert (forall n, (n <= 68)%nat -> d < first_day (Z.of_nat n) -> exists k, 0 <= k < Z.of_nat n /\ first_day k <= d < first_day (k + 1)) as H.
  { induction n as [|n IH]; intros Hn Hlt; [change (first_day (Z.of_nat 0)) with 0 in Hlt; lia|]. destruct (Z_lt_le_dec d (first_day (Z.of_nat n))) as [Hl|Hg]; [destruct (IH ltac:(lia) Hl) as (k & ? & ?); exists k; lia|]. exists (Z.of_nat n). replace (Z.of_nat n + 1) with (Z.of_nat (S n)) by lia. lia. }
  destruct (H 68%nat) as (k & ? & ?); [lia|unfold DAY_2038 in Hd; change (first_day (Z.of_nat 68)) with 24837; lia|]. by exists k.
Qed.

(** [guess] is the inverse of [gmtime] up to the end of 2037. *)
Lemma gmtime_guess t : 0 <= t < 86400 * DAY_2038 -> date_ok t (gmtime t).
Proof.
  intros Ht. assert (0 <= t / 86400 < DAY_2038) as Hd by (split; [apply Z.div_pos|apply Z.div_lt_upper_bound]; lia). pose proof (Z.mod_pos_bound t 86400 ltac:(lia)) as Hs. pose proof (Z.div_mod t 86400 ltac:(lia)) as Et. unfold gmtime. set (x := t mod 86400) in *. set (d := t / 86400) in *. destruct (year_of d Hd) as (k & Hk & Hfd). destruct (year_ok k Hk) as (Ey & El & Ef).
  assert (k <= d / 365) as Hkd. { apply Z.div_le_lower_bound; [lia|]. unfold first_day in Hfd. pose proof (Z.div_pos (k + 1) 4 ltac:(lia) ltac:(lia)). lia. }
  pose proof (year_loop_ok (Z.to_nat k) (S (Z.to_nat (d / 365))) 0 d ltac:(lia) ltac:(lia)) as Hy. rewrite Z2Nat.id, Z.add_0_l in Hy by lia. specialize (Hy ltac:(lia) Hfd). change (first_day 0) with 0 in Hy. rewrite Z.sub_0_r in Hy. change (1970 + 0) with 1970 in Hy. rewrite Hy. pose proof (month_ok (1970 + k) (d - first_day k) ltac:(lia)) as Hm. unfold month_fits in Hm. destruct (month_loop 12 (1970 + k) 0 (d - first_day k)) as [m md]. rewrite !andb_true_iff, !Z.leb_le, !Z.ltb_lt, Z.eqb_eq in Hm. destruct Hm as ((((Hm1 & Hm2) & Hm3) & Hm4) & Hm5).
  pose proof (Z.mod_pos_bound x 60 ltac:(lia)). pose proof (Z.mod_pos_bound (x / 60) 60 ltac:(lia)). pose proof (Z.div_mod x 60 ltac:(lia)) as E1. pose proof (Z.div_mod (x / 60) 60 ltac:(lia)) as E2. assert (x / 3600 = x / 60 / 60) as E3 by (by rewrite Z.div_div by lia). assert (0 <= x / 60 / 60 < 24) by (rewrite <- E3; split; [apply Z.div_pos|apply Z.div_lt_upper_bound]; lia). pose proof (Z.mod_pos_bound (d + 4) 7 ltac:(lia)).
  split; cbn [tm_year tm_mon tm_mday tm_wday tm_hour tm_min tm_sec]; try lia. unfold guess. assert ((if m =? 0 then Ret 0 else rd months (m - 1)) = Ret (before_month m)) as ->. { unfold before_month. destruct (Z.eqb_spec m 0); [done|]. apply rd_in. change (Zlen months) with 11. lia. } rewrite bind_ret. cbn zeta. f_equal. rewrite E3. replace (1970 + k - 1900) with (70 + k) by lia. rewrite <- El.
  unfold DAY_2038 in *. etrans; [|apply (s32_small t); lia]. f_equal. lia.
Qed.
(** ** What the printing functions write *)

Lemma memcpy_split (pre suf l : list Z) : Zlen l <= Zlen suf -> memcpy (pre ++ suf) (Zlen pre) l = Ret (pre ++ l ++ drop (length l) suf).
Proof.
  intros H. unfold memcpy. pose proof (Zlen_nonneg pre). rewrite bool_decide_true by (unfold Zlen in *; rewrite length_app; lia). unfold Zlen. rewrite Nat2Z.id. by rewrite take_app_length, drop_app_add.
Qed.

Lemma wr_split (pre suf : list Z) x c : wr (pre ++ x :: suf) (Zlen pre) c = Ret (pre ++ c :: suf).
Proof. rewrite wrA_in by (unfold Zlen; rewrite length_app; cbn; lia). unfold Zlen. by rewrite Nat2Z.id, insert_app_r_alt, Nat.sub_diag by lia. Qed.

Lemma quote_length c : Zlen (quote c) = quote_size c.
Proof. unfold quote, quote_size. repeat case_match; done. Qed.

Lemma quotes_length s : Zlen (quotes s) = sum_sizes s.
Proof. induction s as [|c s IH]; [done|]. change (quotes (c :: s)) with (quote c ++ quotes s). rewrite Zlen_app, quote_length, IH. done. Qed.

Lemma quote_loop_ok s : forall pre suf, sum_sizes s + 1 <= Zlen suf -> exists suf', quote_loop s (pre ++ suf) (Zlen pre) = Ret (pre ++ quotes s ++ suf', Zlen (pre ++ quotes s)) /\ Zlen suf' = Zlen suf - sum_sizes s.
Proof.
  induction s as [|c s IH]; intros pre suf Hn; [exists suf; cbn; rewrite app_nil_r; split; [done|lia]|]. change (quotes (c :: s)) with (quote c ++ quotes s). change (sum_sizes (c :: s)) with (quote_size c + sum_sizes s) in *. rewrite <- (quote_length c) in *. cbn [quote_loop]. pose proof (quotes_length s) as Hq. pose proof (Zlen_nonneg (quotes s)).
  assert (forall l, quote c = l -> forall suf1, Zlen suf1 = Zlen suf - Zlen l -> exists suf', quote_loop s (pre ++ l ++ suf1) (Zlen pre + Zlen l) = Ret (pre ++ (l ++ quotes s) ++ suf', Zlen (pre ++ l ++ quotes s)) /\ Zlen suf' = Zlen suf - (Zlen l + sum_sizes s)) as Hgo.
  { intros l El suf1 Hs1. rewrite El in *. rewrite (assoc_L (++)). rewrite <- Zlen_app. destruct (IH (pre ++ l) suf1) as (suf' & -> & Hs'); [lia|]. exists suf'. rewrite <- !(assoc_L (++)). split; [done|lia]. }
  unfold quote in *. destruct (c =? 32) eqn:E32.
  { destruct suf as [|x suf]; [cbn in Hn; unfold Zlen in *; cbn in *; lia|]. rewrite wr_split, bind_ret. apply (Hgo [32] eq_refl). unfold Zlen. cbn [length]. lia. }
  destruct (plain c) eqn:Ep; cbn [negb] in *.
  - destruct ((c =? 34) || (c =? 92)) eqn:Eq.
    + rewrite memcpy_split by (unfold Zlen in *; cbn in *; lia). rewrite bind_ret. apply (Hgo [92; c] eq_refl). unfold Zlen in *. rewrite length_drop. cbn [length] in *. lia.
    + destruct suf as [|x suf]; [unfold Zlen in *; cbn in *; lia|]. rewrite wr_split, bind_ret. apply (Hgo [c] eq_refl). unfold Zlen. cbn [length]. lia.
  - rewrite memcpy_split by (unfold Zlen in *; cbn in *; lia). rewrite bind_ret. rewrite <- (assoc_L (++)). apply (Hgo (octal c) eq_refl). unfold Zlen in *. rewrite length_app, length_drop. cbn [length app octal] in *. lia.
Qed.

Lemma replicate_Zlen {X} n (x : X) : 0 <= n -> Zlen (replicate (Z.to_nat n) x) = n.
Proof. intros. unfold Zlen. rewrite length_replicate. lia. Qed.

Lemma quotify_buf_ok s : quotify_buf true s 34 = Ret (Some (34 :: quotes s ++ [34; 0])).
Proof.
  unfold quotify_buf. cbn [negb Z.eqb]. cbn zeta. rewrite <- (quotes_length s). pose proof (Zlen_nonneg (quotes s)) as Hq. assert (Zlen (replicate (Z.to_nat (Zlen (quotes s) + 2 + 1)) 0) = Zlen (quotes s) + 3) as Hr by (rewrite replicate_Zlen; lia). destruct (replicate _ 0) as [|x suf]; [unfold Zlen in *; cbn in *; lia|]. pose proof (wr_split [] suf x 34) as Ew. cbn [app] in Ew. change (Zlen []) with 0 in Ew. rewrite Ew, !bind_ret. cbn [fst snd].
  assert (Zlen suf = Zlen (quotes s) + 2) as Hs by (unfold Zlen in *; cbn [length] in *; lia). destruct (quote_loop_ok s [34] suf) as (suf' & E & Hs'); [rewrite <- (quotes_length s); lia|]. cbn [app] in E. change (Zlen [34]) with 1 in E. rewrite E, bind_ret. cbn [fst snd]. rewrite <- (quotes_length s) in Hs'. destruct suf' as [|y [|z [|]]]; unfold Zlen in Hs'; cbn [length] in Hs'; try (unfold Zlen in *; lia).
  change (34 :: quotes s ++ [y; z]) with ((34 :: quotes s) ++ y :: [z]). rewrite wr_split, !bind_ret. cbn [fst snd]. replace ((34 :: quotes s) ++ [34; z]) with ((34 :: quotes s ++ [34]) ++ [z]) by (cbn; by rewrite <- (assoc_L (++))). replace (Zlen (34 :: quotes s) + 1) with (Zlen (34 :: quotes s ++ [34])) by (unfold Zlen; cbn [length]; rewrite length_app; cbn; lia). rewrite wr_split, bind_ret. do 2 f_equal. cbn. by rewrite <- (assoc_L (++)).
Qed.

Lemma quotify_string_ok s : c_string s = s -> quotify_string true s = Ret (Some (quotes s ++ [0])).
Proof.
  intros Es. unfold quotify_string. cbn [negb]. rewrite Es. cbn zeta. pose proof (quotes_length s) as Eq. pose proof (Zlen_nonneg (quotes s)). destruct (quote_loop_ok s [] (replicate (Z.to_nat (sum_sizes s + 1)) 0)) as (suf' & E & Hs'); [rewrite replicate_Zlen; lia|]. rewrite replicate_Zlen in Hs' by lia. cbn [app] in E. change (Zlen []) with 0 in E. rewrite E, bind_ret. cbn [fst snd]. destruct suf' as [|y [|]]; unfold Zlen in Hs'; cbn [length] in Hs'; try lia. by rewrite wr_split, bind_ret.
Qed.

Lemma c_string_all l : Forall (fun c => c <> 0) l -> c_string l = l.
Proof. induction 1 as [|c l Hc _ IH]; [done|]. cbn [c_string]. by rewrite (proj2 (Z.eqb_neq _ _) Hc), IH. Qed.

Lemma quotes_nonzero s : is_bytes s -> Forall (fun c => c <> 0) (quotes s).
Proof.
  induction 1 as [|c s Hc _ IH]; [constructor|]. change (quotes (c :: s)) with (quote c ++ quotes s). apply Forall_app. split; [|done]. unfold quote. destruct (Z.eqb_spec c 32); [by repeat constructor|]. destruct (plain c) eqn:Ep; cbn [negb].
  - apply plain_range in Ep. destruct (_ || _); repeat constructor; lia.
  - destruct (octal_digits c Hc) as (? & ? & ? & _). unfold octal. repeat constructor; lia.
Qed.

(** ** Hexadecimal *)

(** Octets with colons between them. *)
Fixpoint hextext (d : list Z) : list Z := match d with [] => [] | [c] => hex2 c | c :: d => hex2 c ++ [58] ++ hextext d end.

Lemma hex_loop_ok d : forall pre suf (first : bool), d <> [] -> 3 * Zlen d <= Zlen suf + (if first then 0 else -1) -> exists suf', hex_loop d first (pre ++ suf) (Zlen pre) = Ret (pre ++ (if first then [] else [58]) ++ hextext d ++ 0 :: suf') /\ Zlen suf' = Zlen suf - 3 * Zlen d + (if first then 0 else -1).
Proof.
  induction d as [|c d IH]; intros pre suf first Hne Hn; [done|]. cbn [hex_loop]. assert (Zlen (c :: d) = Zlen d + 1) as Ec by (unfold Zlen; cbn [length]; lia). pose proof (Zlen_nonneg d).
  assert (forall pre suf, 3 * Zlen (c :: d) <= Zlen suf -> exists suf', (buf ← memcpy (pre ++ suf) (Zlen pre) (hex2 c ++ [0]); hex_loop d false buf (Zlen pre + 2)) = Ret (pre ++ hextext (c :: d) ++ 0 :: suf') /\ Zlen suf' = Zlen suf - 3 * Zlen (c :: d)) as Hgo.
  { clear pre suf Hn first. intros pre suf Hn. rewrite memcpy_split by (unfold Zlen in *; cbn [length app hex2] in *; lia). rewrite bind_ret. assert (Zlen (drop (length (hex2 c ++ [0])) suf) = Zlen suf - 3) as Hd by (unfold Zlen in *; rewrite length_drop; cbn [length app hex2] in *; lia). destruct d as [|e d].
    - exists (drop 3 suf). split; [done|]. cbn in Hd. change (Zlen [c]) with 1. lia.
    - change (pre ++ (hex2 c ++ [0]) ++ drop (length (hex2 c ++ [0])) suf) with (pre ++ hex2 c ++ 0 :: drop (length (hex2 c ++ [0])) suf). rewrite (assoc_L (++)). replace (Zlen pre + 2) with (Zlen (pre ++ hex2 c)) by (rewrite Zlen_app; done). destruct (IH (pre ++ hex2 c) (0 :: drop (length (hex2 c ++ [0])) suf) false) as (suf' & -> & Hs'); [done|unfold Zlen in *; cbn [length] in *; lia|]. exists suf'. rewrite <- !(assoc_L (++)). split; [done|]. unfold Zlen in *; cbn [length] in *; lia. }
  destruct first; [rewrite bind_ret; cbn [fst snd]; destruct (Hgo pre suf) as (suf' & -> & ?); [lia|]; exists suf'; split; [done|lia]|]. destruct suf as [|x suf]; [unfold Zlen in *; cbn in *; lia|]. rewrite wr_split, !bind_ret. cbn [fst snd]. change (pre ++ 58 :: suf) with (pre ++ [58] ++ suf). rewrite (assoc_L (++)). replace (Zlen pre + 1) with (Zlen (pre ++ [58])) by (rewrite Zlen_app; done). assert (Zlen (x :: suf) = Zlen suf + 1) by (unfold Zlen; cbn [length]; lia). destruct (Hgo (pre ++ [58]) suf) as (suf' & -> & ?); [lia|]. exists suf'. rewrite <- (assoc_L (++)). split; [done|lia].
Qed.
Lemma hex_char_range d : 0 <= d < 16 -> 48 <= hex_char d <= 57 \/ 97 <= hex_char d <= 102.
Proof. intros. unfold hex_char. destruct (Z.ltb_spec d 10); lia. Qed.

Lemma hex2_range c : is_byte c -> exists a b, hex2 c = [a; b] /\ a <> 0 /\ b <> 0.
Proof.
  unfold is_byte. intros Hc. exists (hex_char (c / 16)), (hex_char (c mod 16)). split; [done|]. pose proof (Z.mod_pos_bound c 16 ltac:(lia)). assert (0 <= c / 16 < 16) by (split; [apply Z.div_pos|apply Z.div_lt_upper_bound]; lia). destruct (hex_char_range (c / 16)), (hex_char_range (c mod 16)); lia.
Qed.

Lemma hextext_nonzero d : is_bytes d -> Forall (fun c => c <> 0) (hextext d).
Proof.
  induction 1 as [|c d Hc _ IH]; [constructor|]. destruct (hex2_range c Hc) as (a & b & E & Ha & Hb). destruct d as [|e d]; [cbn [hextext]; rewrite E; by repeat constructor|]. change (hextext (c :: e :: d)) with (hex2 c ++ [58] ++ hextext (e :: d)). rewrite E. cbn [app]. constructor; [done|]. constructor; [done|]. by constructor.
Qed.

Lemma hextext_length d : d <> [] -> Zlen (hextext d) = 3 * Zlen d - 1.
Proof.
  induction d as [|c d IH]; [done|]. intros _. destruct d as [|e d]; [done|]. change (hextext (c :: e :: d)) with (hex2 c ++ [58] ++ hextext (e :: d)). rewrite !Zlen_app, IH by done. change (Zlen (hex2 c)) with 2. change (Zlen [58]) with 1. unfold Zlen. cbn [length]. lia.
Qed.

Lemma buf_to_hex_ok d : d <> [] -> 3 * Zlen d < 2 ^ 32 -> buf_to_hex true d = Ret (Some (hextext d ++ [0])).
Proof.
  intros Hne Hl. unfold buf_to_hex. cbn [negb]. rewrite bool_decide_false by done. cbn zeta. pose proof (Zlen_nonneg d). assert (0 < Zlen d) as Hp by (destruct d; [done|unfold Zlen; cbn [length]; lia]). rewrite (u32_small (Zlen d * 3)) by lia. unfold print_hex_only. rewrite (proj2 (Z.eqb_neq _ _)) by lia. rewrite bool_decide_false by done. rewrite (u32_small (Zlen d * 3)) by lia. rewrite Z.ltb_irrefl. cbn [orb].
  destruct (hex_loop_ok d [] (replicate (Z.to_nat (Zlen d * 3)) 0) true Hne) as (suf' & E & Hs); [rewrite replicate_Zlen; lia|]. rewrite replicate_Zlen in Hs by lia. cbn [app] in E. change (Zlen []) with 0 in E. rewrite E, bind_ret. destruct suf'; [done|unfold Zlen in Hs; cbn [length] in Hs; lia].
Qed.

Lemma hw_text_ok d : forall pre suf, 3 * Zlen d <= Zlen suf -> exists suf', hw_loop d (pre ++ suf) (Zlen pre) = Ret (pre ++ List.flat_map (fun c => hex2 c ++ [58]) d ++ suf', Zlen (pre ++ List.flat_map (fun c => hex2 c ++ [58]) d)).
Proof.
  induction d as [|c d IH]; intros pre suf Hn; [exists suf; cbn; by rewrite app_nil_r|]. assert (Zlen (c :: d) = Zlen d + 1) as Ec by (unfold Zlen; cbn [length]; lia). pose proof (Zlen_nonneg d). cbn [hw_loop List.flat_map]. rewrite memcpy_split by (unfold Zlen in *; cbn [length app hex2] in *; lia). rewrite bind_ret. assert (Zlen (drop (length (hex2 c ++ [0])) suf) = Zlen suf - 3) as Hd by (unfold Zlen in *; rewrite length_drop; cbn [length app hex2] in *; lia).
  change (pre ++ (hex2 c ++ [0]) ++ drop (length (hex2 c ++ [0])) suf) with (pre ++ hex2 c ++ 0 :: drop (length (hex2 c ++ [0])) suf). rewrite (assoc_L (++)). replace (Zlen pre + 2) with (Zlen (pre ++ hex2 c)) by (rewrite Zlen_app; done). rewrite wr_split, bind_ret. replace ((pre ++ hex2 c) ++ 58 :: drop (length (hex2 c ++ [0])) suf) with ((pre ++ hex2 c ++ [58]) ++ drop (length (hex2 c ++ [0])) suf) by (by rewrite <- !(assoc_L (++))). replace (Zlen pre + 3) with (Zlen (pre ++ hex2 c ++ [58])) by (rewrite !Zlen_app; change (Zlen (hex2 c)) with 2; change (Zlen [58]) with 1; lia).
  destruct (IH (pre ++ hex2 c ++ [58]) (drop (length (hex2 c ++ [0])) suf)) as (suf' & ->); [lia|]. exists suf'. by rewrite <- !(assoc_L (++)).
Qed.

Lemma flat_hextext d : d <> [] -> List.flat_map (fun c => hex2 c ++ [58]) d = hextext d ++ [58].
Proof.
  induction d as [|c d IH]; [done|]. intros _. destruct d as [|e d]; [done|]. change (List.flat_map (fun c => hex2 c ++ [58]) (c :: e :: d)) with ((hex2 c ++ [58]) ++ List.flat_map (fun c => hex2 c ++ [58]) (e :: d)). rewrite IH by done. change (hextext (c :: e :: d)) with (hex2 c ++ [58] ++ hextext (e :: d)). by rewrite <- !(assoc_L (++)).
Qed.

(** The buffer has room for sixteen octets. *)
Lemma print_hw_addr_ok d : is_bytes d -> Zlen d <= 16 -> exists b, print_hw_addr (replicate 49 0) d = Ret b /\ c_string b = hextext d.
Proof.
  intros Hb Hl. destruct d as [|c d]; [by eexists|]. unfold print_hw_addr. destruct (hw_text_ok (c :: d) [] (replicate 49 0)) as (suf' & E); [change (Zlen (replicate 49 0)) with 49; lia|]. cbn [app] in E. change (Zlen []) with 0 in E. rewrite E, bind_ret. cbn [fst snd]. rewrite flat_hextext by done. rewrite <- (assoc_L (++)). rewrite Zlen_app. change (Zlen [58]) with 1. rewrite Z.add_simpl_r. cbn [app]. rewrite wr_split. eexists. split; [done|]. rewrite c_string_app. apply c_string_all. by apply hextext_nonzero.
Qed.

(** The text of a client identifier. *)
Definition id_text (format : Z) (u : list Z) : list Z := if format =? TOKEN_HEX then hextext u else 34 :: quotes u ++ [34].

Lemma format_lease_id_ok u format : is_bytes u -> u <> [] -> Zlen u < TOKBUF -> exists b, format_lease_id true u format = Ret (Some b) /\ c_string b = id_text format u.
Proof.
  intros Hb Hne Hl. unfold format_lease_id, id_text. unfold TOKBUF in Hl. destruct (format =? TOKEN_HEX).
  - rewrite buf_to_hex_ok by (done || lia). eexists. split; [done|]. rewrite c_string_app. apply c_string_all. by apply hextext_nonzero.
  - rewrite quotify_buf_ok. eexists. split; [done|]. change (34 :: quotes u ++ [34; 0]) with ([34] ++ quotes u ++ [34; 0]). replace ([34] ++ quotes u ++ [34; 0]) with ((34 :: quotes u ++ [34]) ++ 0 :: []) by (cbn; by rewrite <- (assoc_L (++))). rewrite c_string_app. apply c_string_all. constructor; [done|]. apply Forall_app. split; [by apply quotes_nonzero|by repeat constructor].
Qed.

(** The pieces of the octets. *)
Definition hexpiece (c : Z) : piece := if c / 16 <? 10 then Num (hex2 c) else Name (hex2 c).
Fixpoint hexpieces (d : list Z) : list piece := match d with [] => [] | [c] => [hexpiece c] | c :: d => hexpiece c :: Mark 58 :: hexpieces d end.

Lemma render_hexpieces d : render (hexpieces d) = hextext d.
Proof.
  assert (forall c, render1 (hexpiece c) = hex2 c) as H by (intros c; unfold hexpiece; by destruct (_ <? _)). induction d as [|c d IH]; [done|]. destruct d as [|e d]; [cbn; by rewrite H|]. change (hexpieces (c :: e :: d)) with (hexpiece c :: Mark 58 :: hexpieces (e :: d)). change (render (hexpiece c :: Mark 58 :: hexpieces (e :: d))) with (render1 (hexpiece c) ++ [58] ++ render (hexpieces (e :: d))). by rewrite IH, H.
Qed.

Definition hex_fits (c : Z) : bool :=
  let a := hex_char (c / 16) in
  let b := hex_char (c mod 16) in
  (0 <=? a) && (a <? 128) && (0 <=? b) && (b <? 128) && isxdigit b && isname b && negb (a =? 45) && negb (b =? 0) && negb (a =? 0) &&
  (let '(v, e) := convert_loop [a; b] 16 0 in (v =? c) && negb e) &&
  (if c / 16 <? 10 then isdigit a else isalpha a && (intern [a; b] NUMBER_OR_NAME =? NUMBER_OR_NAME)).

Lemma hex_fits_all c : is_byte c -> hex_fits c = true.
Proof. apply (byte_forall hex_fits). by vm_compute. Qed.

Lemma hexpiece_ok c r : is_byte c -> stops isname r -> piece_ok (hexpiece c) r /\ exists t, token_of (hexpiece c) = [(t, hex2 c)] /\ (t = NUMBER \/ t = NUMBER_OR_NAME).
Proof.
  intros Hc Hr. pose proof (hex_fits_all c Hc) as H. unfold hex_fits in H. rewrite !andb_true_iff, !Z.leb_le, !Z.ltb_lt in H. destruct H as [[[[[[[[[[? ?] ?] ?] Hx] Hnm] ?] ?] ?] _] Hk]. unfold hexpiece, hex2. destruct (c / 16 <? 10).
  - split.
    + exists (hex_char (c / 16)), [hex_char (c mod 16)]. split; [done|]. split; [lia|]. split; [by rewrite Hk|]. split; [by repeat constructor|]. done.
    + cbn. eexists. split; [done|]. destruct (_ && _); tauto.
  - apply andb_true_iff in Hk as [Ha Hi%Z.eqb_eq]. assert (forallb isxdigit [hex_char (c mod 16)] = true) as Hf by (cbn; by rewrite Hx). split.
    + exists (hex_char (c / 16)), [hex_char (c mod 16)]. split; [done|]. split; [lia|]. split; [done|]. split; [by repeat constructor|]. split; [done|]. split; [done|]. by rewrite Hf, Hi.
    + cbn [token_of tail]. rewrite Hf, Hi. eexists. split; [done|]. by right.
Qed.

Lemma hexpieces_ok d k : is_bytes d -> stops isname (render k) -> open_ok (hexpieces d) k.
Proof.
  intros Hb Hk. induction Hb as [|c d Hc Hd IH]; [done|]. destruct d as [|e d].
  - split; [by apply hexpiece_ok|]. split; [unfold hexpiece; by destruct (_ <? _)|done].
  - change (hexpieces (c :: e :: d)) with (hexpiece c :: Mark 58 :: hexpieces (e :: d)). split; [by apply hexpiece_ok|]. split; [unfold hexpiece; by destruct (_ <? _)|]. split; [done|]. split; [done|]. exact IH.
Qed.
(** ** Parsers over tokens *)

Definition tokens : Type := list (Z * list Z).

Lemma quiet_trans s1 s2 s3 : quiet s1 s2 -> quiet s2 s3 -> quiet s1 s3.
Proof. unfold quiet. congruence. Qed.

Lemma quiet_refl s : quiet s s.
Proof. done. Qed.

Lemma skip_lexes s t v ts : lexes s ((t, v) :: ts) -> exists s', skip_token s = Ret s' /\ shows s' v /\ lexes s' ts /\ quiet s s'.
Proof. intros H. destruct (next_lexes _ _ _ _ H) as (s' & E & ? & ? & ? & _). exists s'. split; [|done]. unfold skip_token. by rewrite E. Qed.

Lemma semi_lexes s ts : lexes s ((SEMI, [59]) :: ts) -> exists s', parse_semi s = Ret (s', true) /\ lexes s' ts /\ quiet s s'.
Proof. intros H. destruct (next_lexes _ _ _ _ H) as (s' & E & ? & ? & ? & _). exists s'. split; [|done]. unfold parse_semi. by rewrite E, bind_ret. Qed.

Lemma lbrace_lexes s ts : lexes s ((LBRACE, [123]) :: ts) -> exists s', parse_lbrace s = Ret (s', true) /\ lexes s' ts /\ quiet s s'.
Proof. intros H. destruct (next_lexes _ _ _ _ H) as (s' & E & ? & ? & ? & _). exists s'. split; [|done]. unfold parse_lbrace. by rewrite E, bind_ret. Qed.

Lemma end_semi_lexes s ts : lexes s ((SEMI, [59]) :: ts) -> exists s', end_semi s = Ret s' /\ lexes s' ts /\ quiet s s'.
Proof. intros H. destruct (next_lexes _ _ _ _ H) as (s' & E & ? & ? & ? & _). exists s'. split; [|done]. unfold end_semi. by rewrite E, bind_ret. Qed.

Lemma shows_val s v : shows s v -> c_string v = v -> val s = Ret v.
Proof. intros [_ ->] Ev. by rewrite Ev. Qed.

(** *** Numbers *)

Definition conv_ok (str : list Z) (base c : Z) : bool :=
  match str with c0 :: _ => negb (c0 =? 45) | [] => false end && (let '(v, e) := convert_loop str base 0 in (v =? c) && negb e).

Lemma convert_num_ok s str base c : is_byte c -> base <> 0 -> conv_ok str base c = true -> convert_num s str base 8 = Ret (s, Some [c]).
Proof.
  intros Hc Hb H. unfold conv_ok in H. apply andb_true_iff in H as [H1 H2]. unfold convert_num. destruct str as [|c0 str]; [done|]. apply negb_true_iff in H1. rewrite H1. cbn zeta iota. rewrite (proj2 (Z.eqb_neq _ _) Hb). cbn zeta iota. destruct (convert_loop (c0 :: str) base 0) as [v e]. apply andb_true_iff in H2 as [->%Z.eqb_eq He]. apply negb_true_iff in He as ->. change (u32 (s32 (2 ^ (8 - 1) + (2 ^ (8 - 1) - 1)))) with 255. unfold is_byte in Hc. rewrite (proj2 (Z.ltb_ge _ _)) by lia. cbn. by rewrite u8_small by (unfold is_byte; lia).
Qed.

Lemma dec_conv c : is_byte c -> conv_ok (dec c) 10 c = true.
Proof. apply (byte_forall (fun c => conv_ok (dec c) 10 c)). by vm_compute. Qed.

Lemma hex_conv c : is_byte c -> conv_ok (hex2 c) 16 c = true.
Proof. apply (byte_forall (fun c => conv_ok (hex2 c) 16 c)). by vm_compute. Qed.

Lemma hex2_string c : is_byte c -> c_string (hex2 c) = hex2 c.
Proof. intros Hc. destruct (hex2_range c Hc) as (a & b & -> & ? & ?). apply c_string_all. by repeat constructor. Qed.

Lemma digits_string l : is_digits l -> c_string l = l.
Proof. intros H. apply c_string_all. refine (List.Forall_impl _ _ H). intros. lia. Qed.

(** The octets of a list in hexadecimal are collected. *)
Lemma hex_tokens c d k : is_byte c -> exists t, toks (hexpieces (c :: d)) ++ k = (t, hex2 c) :: (match d with [] => k | _ => (COLON, [58]) :: toks (hexpieces d) ++ k end) /\ (t = NUMBER \/ t = NUMBER_OR_NAME).
Proof.
  intros Hc. destruct (hexpiece_ok c [] Hc I) as (_ & t & Et & Ht). exists t. split; [|done]. destruct d as [|e d]; [cbn; by rewrite Et|]. change (toks (hexpieces (c :: e :: d))) with (token_of (hexpiece c) ++ (58, [58]) :: toks (hexpieces (e :: d))). by rewrite Et.
Qed.

Lemma collect_hex d : forall fuel s count off acc t v ts, is_bytes d -> d <> [] -> 0 <= count -> t <> COLON ->
  lexes s ((if count =? 0 then [] else [(COLON, [58])]) ++ toks (hexpieces d) ++ (t, v) :: ts) -> (length d < fuel)%nat ->
  exists s', aggregate_loop fuel s count None off acc 0 COLON 16 8 = Ret (s', Some (count + Zlen d, None, rev (List.map hex2 d) ++ acc)) /\ lexes s' ((t, v) :: ts) /\ quiet s s'.
Proof.
  induction d as [|c d IH]; intros [|fuel] s count off acc t v ts Hb Hne Hcnt Ht Hl Hf; try done; [cbn in Hf; lia|]. apply Forall_cons_1 in Hb as [Hc Hb]. destruct (hex_tokens c d ((t, v) :: ts) Hc) as (t1 & E1 & Ht1). cbn [aggregate_loop]. rewrite E1 in Hl. assert (Zlen (c :: d) = Zlen d + 1) as Ec by (unfold Zlen; cbn [length]; lia).
  assert (forall s0, quiet s s0 -> lexes s0 ((t1, hex2 c) :: match d with [] => (t, v) :: ts | _ => (COLON, [58]) :: toks (hexpieces d) ++ (t, v) :: ts end) -> exists s',
     (r ← next_token s0; let '(s, t) := r in
      if t =? END_OF_FILE then Ret (parse_warn s, Some (count, None, acc))
      else if negb (t =? NUMBER) && (negb (16 =? 16) || negb (t =? NUMBER_OR_NAME)) then s ← skip_to_semi (parse_warn s); Ret (s, None)
      else
        v ← val s;
        r ← Ret (s, None, v :: acc);
        let '(s, buf, c) := r in
        if count + 1 =? 0 then Ret (s, Some (count + 1, buf, c))
        else aggregate_loop fuel s (count + 1) buf (off + 8 / 8) c 0 COLON 16 8) = Ret (s', Some (count + Zlen (c :: d), None, rev (List.map hex2 (c :: d)) ++ acc)) /\ lexes s' ((t, v) :: ts) /\ quiet s s') as Hnum.
  { intros s0 Q0 Hl0. destruct (next_lexes _ _ _ _ Hl0) as (s1 & -> & Hv & Hl1 & Q1 & Ho). rewrite bind_ret. cbn zeta iota. destruct (tok_ok_inv _ Ho) as (_ & _ & He). rewrite (proj2 (Z.eqb_neq _ _) He). assert (negb (t1 =? NUMBER) && (negb (16 =? 16) || negb (t1 =? NUMBER_OR_NAME)) = false) as -> by (by destruct Ht1 as [->| ->]). rewrite (shows_val s1 (hex2 c) Hv) by (by apply hex2_string). rewrite !bind_ret. cbn zeta iota. rewrite (proj2 (Z.eqb_neq _ _)) by lia. destruct d as [|e d].
    - destruct fuel as [|fuel]; [cbn in Hf; lia|]. cbn [aggregate_loop]. rewrite (proj2 (Z.eqb_neq _ _)) by lia. cbn [negb]. destruct (peek_lexes _ _ _ _ Hl1) as (s2 & -> & _ & Hl2 & Q2 & _). rewrite bind_ret. cbn zeta iota. rewrite (proj2 (Z.eqb_neq _ _) Ht). cbn. exists s2. split; [done|]. split; [done|]. by eapply quiet_trans; [|eapply quiet_trans].
    - destruct (IH fuel s1 (count + 1) (off + 8 / 8) (hex2 c :: acc) t v ts Hb) as (s2 & -> & Hl2 & Q2); [done|lia|done|rewrite (proj2 (Z.eqb_neq _ _)) by lia; exact Hl1|cbn in Hf |- *; lia|]. exists s2. rewrite Ec. split; [|split; [done|]; by eapply quiet_trans; [|eapply quiet_trans]]. change (rev (List.map hex2 (c :: e :: d))) with (rev (List.map hex2 (e :: d)) ++ [hex2 c]). rewrite <- (assoc_L (++)). replace (count + 1 + Zlen (e :: d)) with (count + (Zlen (e :: d) + 1)) by lia. done. }
  destruct (Z.eqb_spec count 0) as [->|Hn0]; cbn [app negb] in Hl |- *; [by apply Hnum|]. destruct (peek_lexes _ _ _ _ Hl) as (s1 & -> & _ & Hl1 & Q1 & _). rewrite bind_ret. cbn zeta iota. rewrite Z.eqb_refl. destruct (skip_lexes _ _ _ _ Hl1) as (s2 & -> & _ & Hl2 & Q2). rewrite bind_ret. apply Hnum; [by eapply quiet_trans|done].
Qed.

Lemma convert_back_ok s d : forall suf, is_bytes d -> convert_back s (replicate (length d) 0 ++ suf) (Zlen d - 1) (rev (List.map hex2 d)) 16 8 = Ret (s, d ++ suf).
Proof.
  induction d as [|c d IH] using rev_ind; intros suf Hb; [done|]. apply Forall_app in Hb as [Hd Hc]. apply Forall_cons_1 in Hc as [Hc _]. rewrite List.map_app, List.rev_app_distr. cbn [List.map rev app convert_back]. unfold convert_at. rewrite (convert_num_ok s (hex2 c) 16 c Hc) by (done || by apply hex_conv). rewrite bind_ret. cbn [fst snd]. rewrite Zlen_app. change (Zlen [c]) with 1. rewrite Z.add_simpl_r. rewrite length_app. cbn [length]. rewrite replicate_add, <- (assoc_L (++)). cbn [replicate app].
  replace (Zlen d) with (Zlen (replicate (length d) 0)) at 1 by (unfold Zlen; by rewrite length_replicate). rewrite memcpy_split by (unfold Zlen; cbn [length]; lia). rewrite !bind_ret. cbn [fst snd length drop app]. change (8 / 8) with 1. rewrite IH by done. by rewrite <- (assoc_L (++)).
Qed.

(** A list of octets in hexadecimal is read. *)
Lemma aggregate_hex s d t v ts : is_bytes d -> d <> [] -> t <> COLON -> lexes s (toks (hexpieces d) ++ (t, v) :: ts) -> exists s', parse_numeric_aggregate s None 0 COLON 16 8 = Ret (s', Some d, Zlen d) /\ lexes s' ((t, v) :: ts) /\ quiet s s'.
Proof.
  intros Hb Hne Ht Hl. unfold parse_numeric_aggregate. cbn [Z.eqb]. assert (length d <= length (toks (hexpieces d)))%nat as Hlen. { clear - Hb. induction Hb as [|c d Hc Hd IH]; [done|]. destruct (hex_tokens c d [] Hc) as (t & E & _). rewrite app_nil_r in E. rewrite E. destruct d; [cbn; lia|]. rewrite app_nil_r. cbn [length] in *. lia. }
  pose proof (lexes_left s _ Hl) as Hleft. rewrite length_app in Hleft. destruct (collect_hex d (S (S (left s))) s 0 0 [] t v ts Hb Hne) as (s1 & -> & Hl1 & Q1); [lia|done|exact Hl|cbn in Hleft; lia|]. rewrite bind_ret, app_nil_r, Z.add_0_l. destruct (rev (List.map hex2 d)) as [|x l] eqn:Er; [exfalso; apply (f_equal (@length _)) in Er; rewrite length_rev, List.length_map in Er; by destruct d|]. rewrite <- Er. rewrite Z.div_mul by lia. change (8 / 8) with 1. pose proof (convert_back_ok s1 d [] Hb) as Ecb. rewrite !app_nil_r in Ecb. replace (Z.to_nat (Zlen d)) with (length d) by (unfold Zlen; lia). rewrite Ecb, bind_ret. by exists s1.
Qed.

(** *** Words and blanks of a text *)

Definition name_fits (l : list Z) : bool :=
  match l with
  | c :: l' => (0 <=? c) && (c <? 128) && isalpha c && forallb (fun c => (0 <=? c) && (c <? 128) && isname c) l' && (Zlen l <? TOKBUF) &&
               tok_ok (intern l (if forallb isxdigit l' then NUMBER_OR_NAME else NAME))
  | [] => false
  end.

Lemma ascii_forallb f l : forallb (fun c => (0 <=? c) && (c <? 128) && f c) l = true -> ascii_of f l.
Proof. intros H. rewrite List.forallb_forall in H. apply List.Forall_forall. intros c Hc. specialize (H c Hc). cbn beta in H. rewrite !andb_true_iff, Z.leb_le, Z.ltb_lt in H. tauto. Qed.

Lemma name_ok l r : name_fits l = true -> stops isname r -> piece_ok (Name l) r.
Proof.
  intros H Hr. destruct l as [|c l]; [done|]. unfold name_fits in H. rewrite !andb_true_iff, Z.leb_le, !Z.ltb_lt in H. destruct H as [[[[[? ?] ?] H1] ?] ?]. exists c, l. split; [done|]. split; [lia|]. split; [done|]. split; [by apply ascii_forallb|]. done.
Qed.

Definition space : piece := Blank [32].
Definition indent : piece := Blank [10; 32; 32].

Lemma space_ok r : stops isspace r -> piece_ok space r.
Proof. intros H. split; [done|]. split; [done|]. split; [|done]. repeat constructor; lia. Qed.

Lemma indent_ok r : stops isspace r -> piece_ok indent r.
Proof. intros H. split; [done|]. split; [done|]. split; [|done]. repeat constructor; lia. Qed.

(** Numbers, names and strings do not begin with a blank. *)
Definition inked (p : piece) : Prop := match p with Blank _ | Remark _ => False | _ => True end.

Lemma not_space c : 0 <= c < 128 -> isalpha c = true \/ isdigit c || (c =? 45) = true \/ ismark c = true -> isspace c = false.
Proof.
  intros Hc H. assert (implb ((isalpha c || (isdigit c || (c =? 45)) || ismark c) && (c <? 128)) (negb (isspace c)) = true) as Hb by (apply (byte_forall (fun c => implb ((isalpha c || (isdigit c || (c =? 45)) || ismark c) && (c <? 128)) (negb (isspace c)))); [by vm_compute|unfold is_byte; lia]).
  rewrite (proj2 (Z.ltb_lt _ _)), andb_true_r in Hb by lia. apply negb_true_iff. destruct (isspace c); [|done]. destruct H as [H|[H|H]]; rewrite H in Hb; rewrite ?orb_true_r in Hb; done.
Qed.

Lemma inked_stops p r r' : inked p -> piece_ok p r -> stops isspace (render1 p ++ r').
Proof.
  destruct p as [| |l|l|c|l]; try done; intros _.
  - intros (c & l' & -> & Hc & Ha & _). split; [done|]. by apply not_space; [|left].
  - intros (c & l' & -> & Hc & Ha & _). split; [done|]. by apply not_space; [|right; left].
  - intros (Hc & Hm). split; [done|]. by apply not_space; [|right; right].
Qed.

(** A blank before a piece with ink. *)
Lemma open_blank b p ps k : b = space \/ b = indent -> inked p -> open_ok (p :: ps) k -> open_ok (b :: p :: ps) k.
Proof.
  intros Hb Hi H. assert (stops isspace (render ((p :: ps) ++ k))) as Hs by (destruct H as [H _]; by eapply inked_stops). split; [destruct Hb as [-> | ->]; [by apply space_ok|by apply indent_ok]|]. split; [by destruct Hb as [-> | ->]|done].
Qed.

Lemma open_piece p ps k : inked p -> piece_ok p (render (ps ++ k)) -> open_ok ps k -> open_ok (p :: ps) k.
Proof. intros Hi H1 H2. split; [done|]. split; [by destruct p|done]. Qed.

Lemma open_mark c ps k : (0 <=? c) && (c <? 128) && ismark c = true -> open_ok ps k -> open_ok (Mark c :: ps) k.
Proof. rewrite !andb_true_iff, Z.leb_le, Z.ltb_lt. intros [? ?] ?. by apply open_piece. Qed.

(** What a word or a number is followed by. *)
Definition bounds (ps : list piece) : Prop := match ps with Mark c :: _ => 0 <= c < 128 /\ isname c = false | Blank (c :: _) :: _ => 0 <= c < 128 /\ isname c = false | _ => False end.

Lemma bounds_stops ps k : bounds ps -> stops isname (render (ps ++ k)).
Proof. destruct ps as [|[[|c l]| | | |c|] ps]; try done. Qed.

Lemma open_name l ps k : name_fits l = true -> bounds ps -> open_ok ps k -> open_ok (Name l :: ps) k.
Proof. intros ? ? ?. apply open_piece; [done| |done]. apply name_ok; [done|by apply bounds_stops]. Qed.

Lemma open_dec n ps k : 0 <= n < 2 ^ 64 -> bounds ps -> open_ok ps k -> open_ok (Num (dec n) :: ps) k.
Proof. intros ? ? ?. apply open_piece; [done| |done]. apply dec_ok; [done|by apply bounds_stops]. Qed.

Lemma open_dec2 n ps k : 0 <= n < 100 -> bounds ps -> open_ok ps k -> open_ok (Num (dec2 n) :: ps) k.
Proof. intros ? ? ?. apply open_piece; [done| |done]. apply dec2_ok; [done|by apply bounds_stops]. Qed.

Lemma open_quote l ps k : is_bytes l -> Zlen l < TOKBUF -> open_ok ps k -> open_ok (Quote l :: ps) k.
Proof. intros ? ? ?. by apply open_piece. Qed.

Ltac bound := split; [lia|reflexivity].
Ltac open := repeat first
  [ apply open_blank; [by (left + right)|exact I|]
  | apply open_mark; [reflexivity|]
  | apply open_name; [reflexivity|bound|]
  | apply open_dec; [lia|bound|]
  | apply open_dec2; [lia|bound|]
  | exact I ].

(** *** Dates *)

Definition date_pieces (g : tm) : list piece :=
  [Num (dec (tm_wday g)); space; Num (dec (tm_year g + 1900)); Mark 47; Num (dec2 (tm_mon g + 1)); Mark 47; Num (dec2 (tm_mday g)); space;
   Num (dec2 (tm_hour g)); Mark 58; Num (dec2 (tm_min g)); Mark 58; Num (dec2 (tm_sec g)); Mark 59].

Definition date_tokens (g : tm) : tokens :=
  [(NUMBER, dec (tm_wday g)); (NUMBER, dec (tm_year g + 1900)); (SLASH, [47]); (NUMBER, dec2 (tm_mon g + 1)); (SLASH, [47]); (NUMBER, dec2 (tm_mday g));
   (NUMBER, dec2 (tm_hour g)); (COLON, [58]); (NUMBER, dec2 (tm_min g)); (COLON, [58]); (NUMBER, dec2 (tm_sec g))].

Lemma dec_token n : 0 <= n < 2 ^ 64 -> token_of (Num (dec n)) = [(NUMBER, dec n)].
Proof. intros H. by apply (dec_ok n []). Qed.

Lemma dec2_token n : 0 <= n < 100 -> token_of (Num (dec2 n)) = [(NUMBER, dec2 n)].
Proof. intros H. by apply (dec2_ok n []). Qed.

Lemma dec2_string n : 0 <= n < 100 -> c_string (dec2 n) = dec2 n.
Proof. intros H. destruct (dec2_digits n H). apply digits_string. constructor; [done|]. constructor; [done|constructor]. Qed.

Lemma dec_string n : 0 <= n -> c_string (dec n) = dec n.
Proof. intros H. by apply digits_string, dec_digits. Qed.

Lemma toks_cons p ps : toks (p :: ps) = token_of p ++ toks ps.
Proof. done. Qed.

Lemma date_toks t g : date_ok t g -> toks (date_pieces g) = date_tokens g ++ [(SEMI, [59])].
Proof. intros []. unfold date_pieces. rewrite !toks_cons, !dec_token, !dec2_token by lia. done. Qed.

Lemma expect_lexes s t v ts : lexes s ((t, v) :: ts) -> c_string v = v -> exists s', expect s t = Ret (s', Some v) /\ lexes s' ts /\ quiet s s'.
Proof.
  intros H Hv. unfold expect. destruct (peek_lexes _ _ _ _ H) as (s1 & -> & _ & H1 & Q1 & _). rewrite bind_ret. cbn zeta iota. rewrite Z.eqb_refl. destruct (skip_lexes _ _ _ _ H1) as (s2 & -> & Hs & H2 & Q2). rewrite bind_ret, (shows_val _ _ Hs Hv), bind_ret. exists s2. split; [done|]. split; [done|]. by eapply quiet_trans.
Qed.

Definition numbers (l : tokens) : list Z := List.flat_map (fun p => if p.1 =? NUMBER then [atoi p.2] else []) l.

Lemma expects_lexes l : forall s acc ts, Forall (fun p => c_string p.2 = p.2) l -> lexes s (l ++ ts) -> exists s', expects s (List.map fst l) acc = Ret (s', Some (acc ++ numbers l)) /\ lexes s' ts /\ quiet s s'.
Proof.
  induction l as [|[t v] l IH]; intros s acc ts Hv H; [exists s; cbn; by rewrite app_nil_r|]. apply Forall_cons_1 in Hv as [Hv Hl]. cbn [List.map expects fst]. destruct (expect_lexes s t v (l ++ ts) H Hv) as (s1 & -> & H1 & Q1). rewrite bind_ret. cbn iota. destruct (IH s1 (if t =? NUMBER then acc ++ [atoi v] else acc) ts Hl H1) as (s2 & -> & H2 & Q2). exists s2. split; [|split; [done|by eapply quiet_trans]].
  change (numbers ((t, v) :: l)) with ((if t =? NUMBER then [atoi v] else []) ++ numbers l). destruct (t =? NUMBER); [by rewrite <- (assoc_L (++))|done].
Qed.

Lemma numbers_date t g : date_ok t g -> numbers (date_tokens g) = [tm_wday g; tm_year g + 1900; tm_mon g + 1; tm_mday g; tm_hour g; tm_min g; tm_sec g].
Proof.
  intros []. change (numbers (date_tokens g)) with [atoi (dec (tm_wday g)); atoi (dec (tm_year g + 1900)); atoi (dec2 (tm_mon g + 1)); atoi (dec2 (tm_mday g)); atoi (dec2 (tm_hour g)); atoi (dec2 (tm_min g)); atoi (dec2 (tm_sec g))]. by rewrite !atoi_dec, !atoi_dec2 by lia.
Qed.

Lemma date_strings t g : date_ok t g -> Forall (fun p => c_string p.2 = p.2) (date_tokens g).
Proof. intros []. repeat constructor; cbn [snd]; (apply dec_string || apply dec2_string); lia. Qed.

Lemma parse_date_text s t ts : 0 <= t < 86400 * DAY_2038 -> lexes s (toks (date_pieces (gmtime t)) ++ ts) -> exists s', parse_date s = Ret (s', t) /\ lexes s' ts /\ quiet s s'.
Proof.
  intros Ht H. pose proof (gmtime_guess t Ht) as Hd. set (g := gmtime t) in *. rewrite (date_toks t g Hd), <- (assoc_L (++)) in H. unfold parse_date, parse_date_core. destruct (peek_lexes s NUMBER (dec (tm_wday g)) _ H) as (s1 & -> & _ & H1 & Q1 & _). rewrite bind_ret. cbn zeta iota. change (NUMBER =? NEVER) with false. change (NUMBER =? EPOCH) with false. cbn iota.
  destruct (expects_lexes (date_tokens g) s1 [] _ (date_strings t g Hd) H1) as (s2 & E & H2 & Q2). change (List.map fst (date_tokens g)) with [NUMBER; NUMBER; SLASH; NUMBER; SLASH; NUMBER; NUMBER; COLON; NUMBER; COLON; NUMBER] in E. rewrite E, (numbers_date t g Hd). cbn [app]. rewrite bind_ret. cbn zeta iota. destruct (peek_lexes s2 SEMI [59] ts H2) as (s3 & -> & _ & H3 & Q3 & _). destruct Hd. rewrite bind_ret. cbn zeta iota. change (SEMI =? NUMBER) with false. change (SEMI =? SEMI) with true. cbn iota.
  rewrite (proj2 (Z.ltb_lt 1900 _)) by lia. rewrite Z.add_simpl_r. rewrite (proj2 (Z.leb_gt 138 _)) by lia. rewrite Z.add_simpl_r, s32_small by lia. rewrite dt_guess0, !bind_ret. cbn [fst snd]. destruct (semi_lexes s3 ts H3) as (s4 & -> & H4 & Q4). rewrite bind_ret. cbn [fst snd]. exists s4. split; [done|]. split; [done|]. eapply quiet_trans; [done|]. eapply quiet_trans; [done|]. by eapply quiet_trans.
Qed.

Lemma strftime_pieces g : strftime g = render (date_pieces g).
Proof. unfold strftime, date_pieces. cbn [render List.flat_map render1 space]. done. Qed.

Lemma date_open t g k : date_ok t g -> open_ok (date_pieces g) k.
Proof. intros []. unfold date_pieces. open. Qed.

Lemma digits_short f : forall n k, 0 <= n < 10 ^ Z.of_nat k -> (1 <= k)%nat -> (length (digits f n) <= k)%nat.
Proof.
  induction f as [|f IH]; intros n k Hn Hk; cbn [digits]; [cbn; lia|]. destruct (Z.ltb_spec n 10); [cbn; lia|]. destruct k as [|k]; [lia|]. rewrite Nat2Z.inj_succ, Z.pow_succ_r in Hn by lia. assert (1 <= k)%nat by (destruct k; [cbn in Hn; lia|lia]). rewrite length_app. cbn [length]. assert (length (digits f (n / 10)) <= k)%nat by (apply IH; [split; [apply Z.div_pos|apply Z.div_lt_upper_bound]; lia|done]). lia.
Qed.

Lemma dec_length n k : 0 <= n < 10 ^ Z.of_nat k -> (1 <= k)%nat -> Zlen (dec n) <= Z.of_nat k.
Proof. intros Hn Hk. unfold Zlen, dec. pose proof (digits_short (S (Z.to_nat (Z.log2 n))) n k Hn Hk). lia. Qed.

Lemma strftime_short t g : date_ok t g -> Zlen (strftime g) <? TIME_BUF = true.
Proof.
  intros []. pose proof (dec_length (tm_wday g) 1 ltac:(cbn; lia) ltac:(lia)). pose proof (dec_length (tm_year g + 1900) 4 ltac:(cbn; lia) ltac:(lia)). unfold strftime. rewrite !Zlen_app. apply Z.ltb_lt. unfold TIME_BUF. assert (forall n, Zlen (dec2 n) = 2) as E2 by done. rewrite !E2. change (Zlen [32]) with 1. change (Zlen [47]) with 1. change (Zlen [58]) with 1. change (Zlen [59]) with 1. lia.
Qed.

(** The text of the local time is a comment of at most 32 characters. *)
Definition local_ok (f : Z -> list Z) : Prop := forall t, exists r, f t = 35 :: r /\ ascii_of (fun c => negb (c =? 10)) r /\ Zlen r < 32.

Definition format_ok (f : option (Z -> list Z)) : Prop := match f with Some f => local_ok f | None => True end.

(** The times that are not lost: the dates before 2038, or all those of 31 bits. *)
Definition time_fits (f : option (Z -> list Z)) (t : Z) : Prop := t = Print.MAX_TIME \/ 0 <= t < match f with Some _ => 2 ^ 31 | None => 86400 * DAY_2038 end.

Definition time_pieces (f : option (Z -> list Z)) (t : Z) : list piece :=
  if t =? Print.MAX_TIME then [Name (chars "never"); Mark 59]
  else match f with
       | Some f => [Name (chars "epoch"); space; Num (dec t); Mark 59; space; Remark (tail (f t))]
       | None => date_pieces (gmtime t)
       end.

Lemma time_text f t : format_ok f -> time_fits f t -> print_time f t = Some (render (time_pieces f t)).
Proof.
  intros Hf Ht. unfold print_time, time_pieces. destruct (Z.eqb_spec t Print.MAX_TIME) as [->|Hn]; [done|]. destruct Ht as [?|Ht]; [done|]. rewrite (proj2 (Z.ltb_ge _ _)) by (destruct f; lia). destruct f as [f|].
  - destruct (Hf t) as (r & E & Hr & Hl). rewrite E. pose proof (dec_length t 10 ltac:(cbn; lia) ltac:(lia)) as Hd. rewrite (proj2 (Z.ltb_lt _ _)); [cbn [tail render List.flat_map render1 space]; by rewrite app_nil_r|]. rewrite !Zlen_app. change (Zlen (chars "epoch ")) with 6. change (Zlen (chars "; ")) with 2. unfold TIME_BUF. unfold Zlen in *. cbn [length]. lia.
  - pose proof (gmtime_guess t Ht) as Hd. by rewrite (strftime_short t _ Hd), strftime_pieces.
Qed.

Lemma time_open f t k : format_ok f -> time_fits f t -> starts_line k -> open_ok (time_pieces f t) k.
Proof.
  intros Hf Ht Hk. unfold time_pieces. destruct (Z.eqb_spec t Print.MAX_TIME) as [->|Hn]; [open|]. destruct Ht as [?|Ht]; [done|]. destruct f as [f|]; [|by eapply date_open, gmtime_guess]. destruct (Hf t) as (r & E & Hr & _). rewrite E. open. split; [apply space_ok; split; [lia|done]|]. split; [done|]. split; [done|]. done.
Qed.

Lemma time_lexes f t s ts : format_ok f -> time_fits f t -> lexes s (toks (time_pieces f t) ++ ts) -> exists s', parse_date s = Ret (s', t) /\ lexes s' ts /\ quiet s s'.
Proof.
  intros Hf Ht. unfold time_pieces. destruct (Z.eqb_spec t Print.MAX_TIME) as [->|Hn].
  - intros H. unfold parse_date, parse_date_core. destruct (peek_lexes s NEVER (chars "never") _ H) as (s1 & -> & _ & H1 & Q1 & _). rewrite bind_ret. cbn zeta iota. change (NEVER =? NEVER) with true. cbn iota. destruct (skip_lexes _ _ _ _ H1) as (s2 & -> & _ & H2 & Q2). rewrite !bind_ret. cbn [fst snd]. destruct (semi_lexes s2 ts H2) as (s3 & -> & H3 & Q3). exists s3. split; [done|]. split; [done|]. eapply quiet_trans; [done|]. by eapply quiet_trans.
  - destruct Ht as [?|Ht]; [done|]. destruct f as [f|]; [|by apply parse_date_text]. intros H. rewrite !toks_cons, dec_token in H by lia. unfold parse_date, parse_date_core. destruct (peek_lexes s EPOCH (chars "epoch") ((NUMBER, dec t) :: (SEMI, [59]) :: ts) H) as (s1 & -> & _ & H1 & Q1 & _). rewrite bind_ret. cbn zeta iota. change (EPOCH =? NEVER) with false. change (EPOCH =? EPOCH) with true. cbn iota. destruct (skip_lexes _ _ _ _ H1) as (s2 & -> & _ & H2 & Q2). rewrite bind_ret. destruct (expect_lexes s2 NUMBER (dec t) _ H2) as (s3 & -> & H3 & Q3); [apply dec_string; lia|]. rewrite !bind_ret. cbn [fst snd]. rewrite atoi_dec by lia. destruct (semi_lexes s3 ts H3) as (s4 & -> & H4 & Q4). exists s4. split; [done|]. split; [done|]. eapply quiet_trans; [done|]. eapply quiet_trans; [done|]. by eapply quiet_trans.
Qed.

(** ** Addresses *)

Fixpoint dotted_pieces (a : list Z) : list piece := match a with [] => [] | [c] => [Num (dec c)] | c :: a => Num (dec c) :: Mark 46 :: dotted_pieces a end.

Lemma dotted_text a : render (dotted_pieces a) = dotted a.
Proof. induction a as [|c a IH]; [done|]. destruct a as [|e a]; [cbn; by rewrite app_nil_r|]. change (dotted_pieces (c :: e :: a)) with (Num (dec c) :: Mark 46 :: dotted_pieces (e :: a)). change (render (Num (dec c) :: Mark 46 :: dotted_pieces (e :: a))) with (dec c ++ [46] ++ render (dotted_pieces (e :: a))). by rewrite IH. Qed.

Lemma dotted_open a k : is_bytes a -> stops isname (render k) -> open_ok (dotted_pieces a) k.
Proof.
  intros Hb Hk. induction Hb as [|c a Hc Ha IH]; [done|]. unfold is_byte in Hc. destruct a as [|e a].
  - apply open_piece; [done| |done]. apply dec_ok; [lia|done].
  - change (dotted_pieces (c :: e :: a)) with (Num (dec c) :: Mark 46 :: dotted_pieces (e :: a)). apply open_dec; [lia|bound|]. by apply open_mark.
Qed.

Lemma dotted_tokens c a k : is_byte c -> toks (dotted_pieces (c :: a)) ++ k = (NUMBER, dec c) :: (match a with [] => k | _ => (DOT, [46]) :: toks (dotted_pieces a) ++ k end).
Proof.
  unfold is_byte. intros Hc. destruct a as [|e a]; [change (toks (dotted_pieces [c])) with (token_of (Num (dec c)) ++ []); by rewrite dec_token by lia|]. change (toks (dotted_pieces (c :: e :: a))) with (token_of (Num (dec c)) ++ (DOT, [46]) :: toks (dotted_pieces (e :: a))). by rewrite dec_token by lia.
Qed.

Lemma dotted_loop a : forall fuel s pre ts, is_bytes a -> a <> [] -> lexes s ((if Zlen pre =? 0 then [] else [(DOT, [46])]) ++ toks (dotted_pieces a) ++ ts) -> (length a <= fuel)%nat ->
  exists s', aggregate_loop fuel s (Zlen pre) (Some (pre ++ replicate (length a) 0)) (Zlen pre) [] (Zlen (pre ++ a)) DOT 10 8 = Ret (s', Some (Zlen (pre ++ a), Some (pre ++ a), [])) /\ lexes s' ts /\ quiet s s'.
Proof.
  induction a as [|c a IH]; intros [|fuel] s pre ts Hb Hne H Hf; try done; [cbn in Hf; lia|]. apply Forall_cons_1 in Hb as [Hc Hb]. rewrite (dotted_tokens c a ts Hc) in H. cbn [aggregate_loop]. assert (Zlen (pre ++ [c]) = Zlen pre + 1) as Ep by (rewrite Zlen_app; done). pose proof (Zlen_nonneg pre) as Hpre.
  assert (forall s0, quiet s s0 -> lexes s0 ((NUMBER, dec c) :: match a with [] => ts | _ => (DOT, [46]) :: toks (dotted_pieces a) ++ ts end) -> exists s',
    (r ← next_token s0; let '(s, t) := r in
      if t =? END_OF_FILE then Ret (parse_warn s, Some (Zlen pre, Some (pre ++ replicate (length (c :: a)) 0), []))
      else if negb (t =? NUMBER) && (negb (10 =? 16) || negb (t =? NUMBER_OR_NAME)) then s ← skip_to_semi (parse_warn s); Ret (s, None)
      else
        v ← val s;
        r ← (r ← convert_at s (pre ++ replicate (length (c :: a)) 0) (Zlen pre) v 10 8; Ret (r.1, Some r.2, []));
        let '(s, buf, x) := r in
        if Zlen pre + 1 =? Zlen (pre ++ c :: a) then Ret (s, Some (Zlen pre + 1, buf, x))
        else aggregate_loop fuel s (Zlen pre + 1) buf (Zlen pre + 8 / 8) x (Zlen (pre ++ c :: a)) DOT 10 8) = Ret (s', Some (Zlen (pre ++ c :: a), Some (pre ++ c :: a), [])) /\ lexes s' ts /\ quiet s s') as Hnum.
  { intros s0 Q0 H0. destruct (next_lexes _ _ _ _ H0) as (s1 & -> & Hv & H1 & Q1 & _). rewrite bind_ret. cbn zeta iota. change (NUMBER =? END_OF_FILE) with false. change (negb (NUMBER =? NUMBER) && (negb (10 =? 16) || negb (NUMBER =? NUMBER_OR_NAME))) with false. cbn iota. rewrite (shows_val _ _ Hv) by (apply dec_string; unfold is_byte in Hc; lia). rewrite bind_ret. unfold convert_at. rewrite (convert_num_ok s1 (dec c) 10 c Hc) by (done || by apply dec_conv). rewrite bind_ret. cbn [fst snd length replicate]. rewrite memcpy_split by (unfold Zlen; cbn [length]; lia). rewrite !bind_ret. cbn [fst snd length drop]. rewrite (drop_0 (replicate (length a) 0)). rewrite (assoc_L (++)), <- Ep. replace (Zlen pre + 8 / 8) with (Zlen (pre ++ [c])) by (rewrite Ep; done). replace (pre ++ c :: a) with ((pre ++ [c]) ++ a) by (by rewrite <- (assoc_L (++))). destruct a as [|e a].
    - rewrite !app_nil_r, Z.eqb_refl. exists s1. split; [done|]. split; [done|]. by eapply quiet_trans.
    - rewrite (proj2 (Z.eqb_neq _ _)) by (rewrite (Zlen_app (pre ++ [c])); unfold Zlen; cbn [length]; lia). destruct (IH fuel s1 (pre ++ [c]) ts Hb) as (s2 & -> & H2 & Q2); [done|rewrite (proj2 (Z.eqb_neq _ _)) by lia; exact H1|cbn in Hf |- *; lia|]. exists s2. split; [done|]. split; [done|]. eapply quiet_trans; [done|]. by eapply quiet_trans. }
  destruct (Z.eqb_spec (Zlen pre) 0) as [E0|Hn0]; cbn [app negb] in H |- *; [by apply Hnum|]. destruct (peek_lexes _ _ _ _ H) as (s1 & -> & _ & H1 & Q1 & _). rewrite bind_ret. cbn zeta iota. rewrite Z.eqb_refl. destruct (skip_lexes _ _ _ _ H1) as (s2 & -> & _ & H2 & Q2). rewrite bind_ret. apply Hnum; [by eapply quiet_trans|done].
Qed.

Lemma address_lexes a s ts : is_bytes a -> length a = 4%nat -> lexes s (toks (dotted_pieces a) ++ ts) -> exists s', parse_numeric_aggregate s (Some (replicate 4 0)) 4 DOT 10 8 = Ret (s', Some a, 4) /\ lexes s' ts /\ quiet s s'.
Proof.
  intros Hb Hl H. pose proof (lexes_left s _ H) as Hleft. assert (length a <= length (toks (dotted_pieces a) ++ ts))%nat as Hlen. { clear - Hb. induction Hb as [|c a Hc Ha IH]; [cbn; lia|]. rewrite (dotted_tokens c a ts Hc). destruct a as [|e a]; [cbn; lia|]. cbn [length] in *. lia. }
  unfold parse_numeric_aggregate. destruct (dotted_loop a (S (S (left s))) s [] ts Hb) as (s1 & E1 & H1 & Q1); [by destruct a|done|lia|]. cbn [app] in E1. change (Zlen []) with 0 in E1. assert (Zlen a = 4) as E4 by (unfold Zlen; by rewrite Hl). rewrite Hl, E4 in E1. rewrite E1, bind_ret. by exists s1.
Qed.

Lemma quote_bytes c : is_byte c -> is_bytes (quote c).
Proof.
  intros Hc. pose proof (octal_digits c Hc) as (? & ? & ? & _). unfold quote. destruct (c =? 32); [repeat constructor; unfold is_byte; lia|]. destruct (plain c); cbn [negb]; [destruct (_ || _)|unfold octal]; repeat (constructor; [unfold is_byte in *; lia|]); constructor.
Qed.

Lemma ascii_bytes f l : ascii_of f l -> is_bytes l.
Proof. intros H. refine (List.Forall_impl _ _ H). intros c [? _]. unfold is_byte. lia. Qed.

Lemma pieces_bytes ps : pieces_ok ps -> is_bytes (render ps).
Proof.
  induction ps as [|p ps IH]; [constructor|]. intros (Hp & _ & Hps). change (render (p :: ps)) with (render1 p ++ render ps). apply Forall_app. split; [|by apply IH]. assert (forall c, 0 <= c < 128 -> is_byte c) as Hb by (intros; unfold is_byte; lia). destruct p as [l|l|l|l|c|l]; cbn [render1 piece_ok] in *.
  - destruct Hp as (_ & _ & Hp & _). by eapply ascii_bytes.
  - constructor; [by apply Hb|]. by eapply ascii_bytes.
  - destruct Hp as (c & l' & -> & Hc & _ & Hl & _). constructor; [by apply Hb|]. by eapply ascii_bytes.
  - destruct Hp as (c & l' & -> & Hc & _ & Hl & _). constructor; [by apply Hb|]. by eapply ascii_bytes.
  - destruct Hp as [Hc _]. constructor; [by apply Hb|constructor].
  - destruct Hp as [Hl _]. constructor; [by apply Hb|]. apply Forall_app. split; [|repeat constructor; by apply Hb]. induction Hl as [|c l Hc _ IHl]; [constructor|]. change (quotes (c :: l)) with (quote c ++ quotes l). apply Forall_app. split; [by apply quote_bytes|done].
Qed.

End LeaseText.
