(* ===== verification/LeaseTrip.v ===== *)
(** * What is written to the lease file is read again

    The declaration that [write_lease] writes is a sequence of pieces of [LexText]; the
    parsers read its tokens and put the lease together again. *)

From Stdlib Require Import ZArith Lia String.
From stdpp Require Import base list numbers option.
From S2P Require Import Prelude.
From S2P Require Import FailoverLease.
From S2P Require Import Mdb.
From S2P Require Import DhcToken.
From S2P Require Import ConfLex.
From S2P Require Import Print.
From S2P Require Import ConfParse.
From S2P Require Import LeaseFile.
From S2P Require Import LexText.
From S2P Require Import LeaseText.
#[local] Open Scope Z_scope.

Module LeaseTrip.

Import FailoverLease DhcToken ConfLex Print ConfParse LeaseFile LexText LeaseText.

(** ** The statements of a declaration *)

Section Trip.
Context {K A E : Type} (V : @services K A E).

(** The statement [ps] makes [l'] of [l], when [m] has been seen, and [b] is seen with it. *)
Definition takes (ps : list piece) (l : @lease K A E) (m : Z) (l' : @lease K A E) (b : Z) : Prop :=
  starts_line ps /\ (forall k, starts_line k -> open_ok ps k) /\
  exists t v qs, toks ps = (t, v) :: qs /\ t <> RBRACE /\
    forall s ts, shows s v -> lexes s (qs ++ ts) -> exists s', lease_parameter V s t l m = Ret (s', Some (l', b)) /\ lexes s' ts /\ quiet s s'.

Inductive body : list piece -> @lease K A E -> Z -> @lease K A E -> Z -> Prop :=
| body_nil l m : body [] l m l m
| body_cons ps qs l m l1 b l' m' : takes ps l m l1 b -> Z.land m b = 0 -> body qs l1 (Z.lor m b) l' m' -> body (ps ++ qs) l m l' m'.

Lemma body_app ps qs l m l1 m1 l2 m2 : body ps l m l1 m1 -> body qs l1 m1 l2 m2 -> body (ps ++ qs) l m l2 m2.
Proof. induction 1 as [|ps ps' l m l0 b l1 m1 H1 H2 _ IH]; [done|]. intros H. rewrite <- (assoc_L (++)). eapply body_cons; [done..|]. by apply IH. Qed.

Lemma body_one ps l m l1 b : takes ps l m l1 b -> Z.land m b = 0 -> body ps l m l1 (Z.lor m b).
Proof. intros H1 H2. rewrite <- (app_nil_r ps). eapply body_cons; [done..|]. constructor. Qed.

Lemma starts_app ps k : starts_line ps -> starts_line (ps ++ k).
Proof. by destruct ps as [|[[]| | | | |] ps]. Qed.

Lemma body_open ps l m l' m' k : body ps l m l' m' -> starts_line k -> open_ok ps k /\ starts_line (ps ++ k).
Proof.
  induction 1 as [|ps qs l m l1 b l' m' (H1 & H2 & _) _ _ IH]; intros Hk; [done|]. destruct (IH Hk) as [IH1 IH2]. split; [apply open_app; [by apply H2|done]|]. rewrite <- (assoc_L (++)). by apply starts_app.
Qed.

(** The loop over the statements. *)
Lemma body_loop ps l m l' m' : body ps l m l' m' -> forall fuel s ts, (length (toks ps) < fuel)%nat -> lexes s (toks ps ++ (RBRACE, [125]) :: ts) ->
  exists s', lease_loop V fuel s l m = Ret (s', Some (l', m')) /\ lexes s' ts /\ quiet s s'.
Proof.
  induction 1 as [l m|ps qs l m l1 b l' m' (_ & _ & t & v & rs & E1 & Hr & Hp) Hb _ IH]; intros [|fuel] s ts Hf H; try lia; cbn [lease_loop].
  - destruct (next_lexes _ _ _ _ H) as (s1 & -> & _ & H1 & Q1 & _). rewrite bind_ret. cbn zeta iota. rewrite Z.eqb_refl. by exists s1.
  - rewrite toks_app, E1 in H. rewrite toks_app, E1 in Hf. cbn [app] in H, Hf. rewrite <- (assoc_L (++)) in H. destruct (next_lexes _ _ _ _ H) as (s1 & -> & Hv & H1 & Q1 & Ho). rewrite bind_ret. cbn zeta iota. destruct (tok_ok_inv _ Ho) as (_ & _ & He). rewrite (proj2 (Z.eqb_neq _ _) Hr), (proj2 (Z.eqb_neq _ _) He). destruct (Hp s1 (toks qs ++ (RBRACE, [125]) :: ts)) as (s2 & -> & H2 & Q2); [done|done|]. rewrite bind_ret. cbn iota. rewrite Hb, Z.eqb_refl. cbn [negb]. cbn iota. destruct (IH fuel s2 ts) as (s3 & -> & H3 & Q3); [cbn in Hf; rewrite length_app in Hf; lia|done|]. exists s3. split; [done|]. split; [done|]. eapply quiet_trans; [done|]. by eapply quiet_trans.
Qed.

(** *** Times *)

Context (Hformat : format_ok (local_format V)).

Lemma chars_app a b : chars (a ++ b)%string = chars a ++ chars b.
Proof. induction a as [|x a IH]; [done|]. change (chars (String x a ++ b)) with (Z.of_N (Ascii.N_of_ascii x) :: chars (a ++ b)). by rewrite IH. Qed.

Definition time_stmt (key : string) (t : Z) : list piece := if t =? 0 then [] else indent :: Name (chars key) :: space :: time_pieces (local_format V) t.

Lemma fprintf_nil (f : file) : f = fprintf [] f.
Proof. destruct f as [x y]. unfold fprintf. by rewrite app_nil_r. Qed.

Lemma write_time_stmt key t f : time_fits (local_format V) t -> write_time V key t f = fprintf (render (time_stmt key t)) f.
Proof.
  intros Ht. unfold write_time, time_stmt. destruct (t =? 0); [apply fprintf_nil|]. rewrite time_text by done. f_equal. rewrite !chars_app. cbn [render List.flat_map render1 space indent]. rewrite <- !(assoc_L (++)). done.
Qed.

Lemma time_body key tok bit (set : Z -> lease -> lease) t l m : time_fits (local_format V) t -> name_fits (chars key) = true -> token_of (Name (chars key)) = [(tok, chars key)] -> tok <> RBRACE ->
  (forall s s' v t, val s = Ret v -> parse_date s = Ret (s', t) -> lease_parameter V s tok l m = Ret (s', Some (set t l, bit))) -> set 0 l = l -> Z.land m bit = 0 ->
  body (time_stmt key t) l m (set t l) (Z.lor m (if t =? 0 then 0 else bit)).
Proof.
  intros Ht Hn Htok Hr Hp H0 Hm. unfold time_stmt. destruct (Z.eqb_spec t 0) as [->|Hne]; [rewrite H0, Z.lor_0_r; constructor|]. apply body_one; [|done]. split; [done|]. split.
  - intros k Hk. pose proof (time_open (local_format V) t k Hformat Ht Hk) as Ho. apply open_blank; [by right|done|]. apply open_name; [done|bound|]. unfold time_pieces in *. destruct (t =? _); [apply open_blank; [by left|done|done]|]. destruct (local_format V); (apply open_blank; [by left|done|done]).
  - exists tok, (chars key), (toks (time_pieces (local_format V) t)). split; [rewrite !toks_cons, Htok; done|]. split; [done|]. intros s ts Hv Hl. destruct (time_lexes _ t s ts Hformat Ht Hl) as (s' & Ed & Hl' & Q). exists s'. split; [|done]. destruct Hv as [_ Hv]. by eapply Hp.
Qed.

(** The times of a lease, in the order of the file. *)
Definition times_stmt (l : @lease K A E) : list piece :=
  time_stmt "starts" (starts l) ++ time_stmt "ends" (ends l) ++ time_stmt "tstp" (tstp l) ++ time_stmt "tsfp" (tsfp l) ++ time_stmt "atsfp" (atsfp l) ++ time_stmt "cltt" (cltt l).

Definition times_seen (l : @lease K A E) : Z :=
  Z.lor (Z.lor (Z.lor (Z.lor (Z.lor (Z.lor 0 (if starts l =? 0 then 0 else 1)) (if ends l =? 0 then 0 else 2)) (if tstp l =? 0 then 0 else 65536)) (if tsfp l =? 0 then 0 else 131072)) (if atsfp l =? 0 then 0 else 262144)) (if cltt l =? 0 then 0 else 524288).

Definition times_fit (l : @lease K A E) : Prop := Forall (time_fits (local_format V)) [starts l; ends l; tstp l; tsfp l; atsfp l; cltt l].

Definition with_times (l : @lease K A E) : @lease K A E :=
  set_cltt (cltt l) (set_atsfp (atsfp l) (set_tsfp (tsfp l) (set_tstp (tstp l) (set_ends (ends l) (set_starts (starts l) (new_lease (ip_addr l))))))).

Lemma land_flag (b : bool) x y : Z.land x y = 0 -> Z.land (if b then 0 else x) y = 0.
Proof. by destruct b. Qed.

(** A bit is not among those that may have been seen. *)
Ltac unseen := rewrite ?Z.land_lor_distr_l, ?Z.lor_eq_0_iff; split_and?; try apply land_flag; reflexivity.

Ltac time_key key tok bit set := apply (time_body key tok bit set); [done|reflexivity|reflexivity|done| |reflexivity|unseen]; intros ? ? ? ? Hv Hd; unfold lease_parameter; rewrite Hv, bind_ret; unfold parse_time; rewrite Hd; reflexivity.

Lemma times_body l : times_fit l -> body (times_stmt l) (new_lease (ip_addr l)) 0 (with_times l) (times_seen l).
Proof.
  intros H. unfold times_fit in H. rewrite !List.Forall_cons_iff in H. destruct H as (? & ? & ? & ? & ? & ? & _). unfold times_stmt, times_seen, with_times. eapply body_app; [time_key "starts"%string STARTS 1 (@set_starts K A E)|]. eapply body_app; [time_key "ends"%string ENDS 2 (@set_ends K A E)|]. eapply body_app; [time_key "tstp"%string TSTP 65536 (@set_tstp K A E)|]. eapply body_app; [time_key "tsfp"%string TSFP 131072 (@set_tsfp K A E)|]. eapply body_app; [time_key "atsfp"%string ATSFP 262144 (@set_atsfp K A E)|]. time_key "cltt"%string CLTT 524288 (@set_cltt K A E).
Qed.

(** *** States *)

Definition state_stmt (ps : list piece) (b : binding_state_t) : list piece :=
  indent :: ps ++ [Name (chars "binding"); space; Name (chars "state"); space; Name (chars (state_name b)); Mark 59].

Lemma state_name_fits b : name_fits (chars (state_name b)) = true.
Proof. by destruct b. Qed.

Lemma state_open ps b k : (ps = [] \/ exists w, ps = [Name (chars w); space] /\ name_fits (chars w) = true) -> open_ok (state_stmt ps b) k.
Proof.
  intros H. assert (open_ok [Name (chars "binding"); space; Name (chars "state"); space; Name (chars (state_name b)); Mark 59] k) as Ho.
  { apply open_name; [done|bound|]. apply open_blank; [by left|done|]. apply open_name; [done|bound|]. apply open_blank; [by left|done|]. apply open_name; [apply state_name_fits|bound|]. open. }
  unfold state_stmt. destruct H as [->|(w & -> & Hw)]; cbn [app]; (apply open_blank; [by right|done|]); [done|]. apply open_name; [done|bound|]. apply open_blank; [by left|done|done].
Qed.

(** What the token of a state sets. *)
Definition put_state (b : binding_state_t) (m bit : Z) (l : @lease K A E) : @lease K A E :=
  if bit =? 256 then set_states b (if Z.land m 128 =? 0 then b else next_binding_state l) (if Z.land m 512 =? 0 then b else rewind_binding_state l) l
  else if bit =? 128 then set_states (binding_state l) b (rewind_binding_state l) l
  else set_states (binding_state l) (next_binding_state l) b l.

Lemma state_lexes b s l m bit ts : valid b = true -> lexes s (toks [Name (chars "state"); space; Name (chars (state_name b)); Mark 59] ++ ts) ->
  exists s', do_binding_state s l m bit = Ret (s', Some (put_state b m bit l, bit)) /\ lexes s' ts /\ quiet s s'.
Proof.
  intros Hb H. unfold do_binding_state. destruct (next_lexes s STATE (chars "state") _ H) as (s1 & -> & _ & H1 & Q1 & _). rewrite bind_ret. cbn zeta iota. change (STATE =? STATE) with true. cbn [negb].
  assert (exists t, token_of (Name (chars (state_name b))) = [(t, chars (state_name b))] /\ state_of t = Some (b, 0)) as (t & Et & Es) by (destruct b; try done; by eexists).
  change (lexes s1 (token_of (Name (chars (state_name b))) ++ (SEMI, [59]) :: ts)) in H1. rewrite Et in H1. destruct (next_lexes _ _ _ _ H1) as (s2 & -> & _ & H2 & Q2 & _). rewrite bind_ret. cbn zeta iota. rewrite Es. cbn iota. rewrite Z.eqb_refl. destruct (semi_lexes s2 ts H2) as (s3 & -> & H3 & Q3). rewrite bind_ret. exists s3. split; [done|]. split; [done|]. eapply quiet_trans; [done|]. by eapply quiet_trans.
Qed.

Lemma state_takes b l m : valid b = true -> takes (state_stmt [] b) l m (put_state b m 256 l) 256.
Proof.
  intros Hb. split; [done|]. split; [intros k _; apply state_open; by left|]. exists BINDING, (chars "binding"), (toks [Name (chars "state"); space; Name (chars (state_name b)); Mark 59]). split; [done|]. split; [done|]. intros s ts [_ Hv] H. destruct (state_lexes b s l m 256 ts Hb H) as (s' & E1 & H' & Q). exists s'. split; [|done]. unfold lease_parameter. rewrite Hv, bind_ret. exact E1.
Qed.

Lemma state2_takes w t bit b l m : valid b = true -> (w, t, bit) = ("next"%string, TOKEN_NEXT, 128) \/ (w, t, bit) = ("rewind"%string, REWIND, 512) -> takes (state_stmt [Name (chars w); space] b) l m (put_state b m bit l) bit.
Proof.
  intros Hb Hw. assert (name_fits (chars w) = true /\ token_of (Name (chars w)) = [(t, chars w)] /\ t <> RBRACE) as (Hn & Et & Hr) by (by destruct Hw as [Ew|Ew]; injection Ew as -> -> ->). split; [done|]. split; [intros k _; apply state_open; right; by eexists|]. exists t, (chars w), ((BINDING, chars "binding") :: toks [Name (chars "state"); space; Name (chars (state_name b)); Mark 59]). split; [unfold state_stmt; cbn [app]; rewrite !toks_cons, Et; done|]. split; [done|].
  intros s ts [_ Hv] H. destruct (next_lexes _ _ _ _ H) as (s1 & E0 & _ & H1 & Q1 & _). destruct (state_lexes b s1 l m bit ts Hb H1) as (s' & E1 & H' & Q). exists s'. split; [|split; [done|by eapply quiet_trans]]. unfold lease_parameter. rewrite Hv, bind_ret. destruct Hw as [Ew|Ew]; injection Ew as -> -> ->; rewrite E0, bind_ret in *; exact E1.
Qed.

Definition states_stmt (l : @lease K A E) : list piece :=
  state_stmt [] (binding_state l) ++
  (if decide (binding_state l = next_binding_state l) then [] else state_stmt [Name (chars "next"); space] (next_binding_state l)) ++
  (if bool_decide (binding_state l <> rewind_binding_state l) && valid (rewind_binding_state l) then state_stmt [Name (chars "rewind"); space] (rewind_binding_state l) else []).

Definition states_fit (l : @lease K A E) : Prop :=
  valid (binding_state l) = true /\ valid (next_binding_state l) = true /\ valid (rewind_binding_state l) = true.

Lemma fprintf_app a b (f : file) : fprintf b (fprintf a f) = fprintf (a ++ b) f.
Proof. unfold fprintf. cbn [fst snd]. by rewrite (assoc_L (++)). Qed.

Lemma write_states_stmt l f : write_states l f = fprintf (render (states_stmt l)) f.
Proof.
  assert (forall b, render (state_stmt [] b) = chars "
  binding state " ++ chars (state_name b) ++ chars ";") as E1 by done.
  assert (forall b, render (state_stmt [Name (chars "next"); space] b) = chars "
  next binding state " ++ chars (state_name b) ++ chars ";") as E2 by done.
  assert (forall b, render (state_stmt [Name (chars "rewind"); space] b) = chars "
  rewind binding state " ++ chars (state_name b) ++ chars ";") as E3 by done.
  unfold write_states, states_stmt. cbn zeta. rewrite !render_app, E1. destruct (decide _), (_ && _); rewrite ?E2, ?E3, ?fprintf_app; unfold render; cbn [List.flat_map]; rewrite ?app_nil_r, <- ?(assoc_L (++)); reflexivity.
Qed.

Definition states_seen (l : @lease K A E) (m : Z) : Z :=
  Z.lor (Z.lor (Z.lor m 256) (if bool_decide (binding_state l = next_binding_state l) then 0 else 128)) (if bool_decide (binding_state l = rewind_binding_state l) then 0 else 512).

Lemma states_body l l0 m : states_fit l -> Z.land m 256 = 0 -> Z.land m 128 = 0 -> Z.land m 512 = 0 ->
  body (states_stmt l) l0 m (set_states (binding_state l) (next_binding_state l) (rewind_binding_state l) l0) (states_seen l m).
Proof.
  intros (H1 & H2 & H3) M1 M2 M3. unfold states_stmt, states_seen. eapply body_app; [apply body_one; [by apply state_takes|done]|]. unfold put_state. rewrite M2, M3. cbn [Z.eqb Pos.eqb]. eapply (body_app _ _ _ _ (set_states (binding_state l) (next_binding_state l) (binding_state l) l0) (Z.lor (Z.lor m 256) (if bool_decide (binding_state l = next_binding_state l) then 0 else 128))).
  - destruct (decide _) as [E1|E1]; [rewrite bool_decide_true, Z.lor_0_r, <- E1 by done; constructor|]. rewrite bool_decide_false by done. apply (body_one _ (set_states (binding_state l) (binding_state l) (binding_state l) l0) _ (set_states (binding_state l) (next_binding_state l) (binding_state l) l0)); [by apply (state2_takes "next" TOKEN_NEXT 128 (next_binding_state l) (set_states (binding_state l) (binding_state l) (binding_state l) l0)); [|left]|]. rewrite Z.land_lor_distr_l, M2. done.
  - rewrite H3, andb_true_r. destruct (decide (binding_state l = rewind_binding_state l)) as [E1|E1]; [rewrite (bool_decide_false (binding_state l <> rewind_binding_state l)) by (intros Hx; by apply Hx); rewrite (bool_decide_true (binding_state l = rewind_binding_state l)), Z.lor_0_r by done; rewrite <- E1; constructor|]. rewrite (bool_decide_true (binding_state l <> rewind_binding_state l)), (bool_decide_false (binding_state l = rewind_binding_state l)) by done. apply (body_one _ (set_states (binding_state l) (next_binding_state l) (binding_state l) l0)); [by apply (state2_takes "rewind" REWIND 512 (rewind_binding_state l) (set_states (binding_state l) (next_binding_state l) (binding_state l) l0)); [|right]|]. rewrite !Z.land_lor_distr_l, M3. by destruct (bool_decide _).
Qed.

(** *** Flags *)

Definition flag_stmt (w : string) (z : Z) : list piece := if z =? 0 then [] else [indent; Name (chars w); Mark 59].

Lemma write_flag w z f : (if z =? 0 then f else fprintf (chars ("
  " ++ w ++ ";")%string) f) = fprintf (render (flag_stmt w z)) f.
Proof. unfold flag_stmt. destruct (z =? 0); [apply fprintf_nil|]. by rewrite !chars_app. Qed.

Lemma flag_body w t flag z l m : name_fits (chars w) = true -> (w, t, flag) = ("reserved"%string, TOKEN_RESERVED, Mdb.RESERVED_LEASE) \/ (w, t, flag) = ("dynamic-bootp"%string, DYNAMIC_BOOTP, Mdb.BOOTP_LEASE) -> body (flag_stmt w z) l m (if z =? 0 then l else add_flag flag l) m.
Proof.
  intros Hn Hw. unfold flag_stmt. destruct (z =? 0); [constructor|]. rewrite <- (Z.lor_0_r m) at 2. apply body_one; [|apply Z.land_0_r]. assert (token_of (Name (chars w)) = [(t, chars w)] /\ t <> RBRACE) as (Et & Hr) by (by destruct Hw as [Ew|Ew]; injection Ew as -> -> ->). split; [done|]. split; [intros k _; apply open_blank; [by right|done|]; apply open_name; [done|bound|]; open|].
  exists t, (chars w), [(SEMI, [59])]. split; [rewrite !toks_cons, Et; done|]. split; [done|]. intros s ts [_ Hv] H. destruct (semi_lexes s ts H) as (s1 & E1 & H1 & Q1). exists s1. split; [|done]. unfold lease_parameter. rewrite Hv, bind_ret. destruct Hw as [Ew|Ew]; injection Ew as -> -> ->; unfold and_semi; rewrite E1; reflexivity.
Qed.

(** *** Hardware addresses *)

Definition hardware_fits (h : hardware) : Prop :=
  h = Hardware 0 (replicate 21 0) \/ exists t d, is_byte t /\ is_bytes d /\ Zlen d <= 16 /\ h = Hardware (Zlen d + 1) (t :: d ++ replicate (20 - length d) 0).

Definition hardware_stmt (h : hardware) : list piece :=
  if hlen h =? 0 then [] else
  match hbuf h with
  | t :: b => [indent; Name (chars "hardware"); space; Name (hardware_types t); space] ++ hexpieces (take (Z.to_nat (hlen h - 1)) b) ++ [Mark 59]
  | [] => []
  end.

Definition type_fits (t : Z) : bool :=
  name_fits (hardware_types t) && bool_decide (c_string (hardware_types t) = hardware_types t) &&
  match token_of (Name (hardware_types t)) with [(tok, _)] => bool_decide (hardware_type tok (hardware_types t) = Some t) | _ => false end.

Lemma type_fits_all t : is_byte t -> type_fits t = true.
Proof. apply (byte_forall type_fits). by vm_compute. Qed.

Lemma hexpieces_inked d : d <> [] -> exists p ps, hexpieces d = p :: ps /\ inked p.
Proof. destruct d as [|c [|e d]]; [done|..]; intros _; eexists _, _; (split; [done|]); unfold hexpiece; by destruct (_ <? _). Qed.

Lemma hardware_parts t (d : list Z) : Zlen d <= 16 ->
  let b := t :: d ++ replicate (20 - length d) 0 in
  memread b 1 (Zlen d + 1 - 1) = Ret d /\ take (Z.to_nat (Zlen d + 1 - 1)) (d ++ replicate (20 - length d) 0) = d.
Proof.
  intros Hd b. rewrite Z.add_simpl_r. assert (Z.to_nat (Zlen d) = length d) as E1 by (unfold Zlen; lia). split; [|by rewrite E1, take_app_length]. rewrite memread_in by (unfold b, Zlen in *; cbn [length]; rewrite ?length_app; lia). change (Z.to_nat 1) with 1%nat. unfold b. cbn [drop]. rewrite drop_0. by rewrite E1, take_app_length.
Qed.

Lemma write_hardware_stmt (l : @lease K A E) f : hardware_fits (hardware_addr l) -> write_hardware l f = Ret (fprintf (render (hardware_stmt (hardware_addr l))) f).
Proof.
  intros [H|(t & d & Ht & Hd & Hl & H)]; unfold write_hardware, hardware_stmt; rewrite H; [cbn; by rewrite <- fprintf_nil|]. cbn [hlen hbuf]. pose proof (Zlen_nonneg d). rewrite (proj2 (Z.eqb_neq _ _)) by lia. destruct (hardware_parts t d Hl) as [E1 E2]. change (rd (t :: d ++ replicate (20 - length d) 0) 0) with (Ret t). rewrite bind_ret, E1, E2, bind_ret. destruct (print_hw_addr_ok d Hd Hl) as (b & -> & Eb). rewrite bind_ret, Eb. f_equal. f_equal. rewrite render_app, render_app, render_hexpieces. cbn [render List.flat_map render1 indent space]. rewrite <- !(assoc_L (++)). reflexivity.
Qed.

Lemma hardware_open h k : hardware_fits h -> open_ok (hardware_stmt h) k.
Proof.
  intros [->|(t & d & Ht & Hd & Hl & ->)]; [done|]. unfold hardware_stmt. cbn [hlen hbuf]. pose proof (Zlen_nonneg d). rewrite (proj2 (Z.eqb_neq _ _)) by lia. destruct (hardware_parts t d Hl) as [_ ->]. pose proof (type_fits_all t Ht) as Hf. unfold type_fits in Hf. rewrite !andb_true_iff in Hf. destruct Hf as [[Hn _] _]. cbn [app]. apply open_blank; [by right|done|]. apply open_name; [done|bound|]. apply open_blank; [by left|done|]. apply open_name; [done|bound|].
  assert (open_ok (hexpieces d ++ [Mark 59]) k) as Ho by (apply open_app; [apply hexpieces_ok; [done|split; [lia|done]]|open]). destruct d as [|c d]; [by apply open_blank; [left|..]|]. destruct (hexpieces_inked (c :: d)) as (p & ps & E1 & Hp); [done|]. rewrite E1 in *. by apply open_blank; [left|..].
Qed.

(** The address behind the type. *)
Lemma hardware_lexes t d s ts h : is_byte t -> is_bytes d -> Zlen d <= 16 -> hbuf h = replicate 21 0 -> lexes s (token_of (Name (hardware_types t)) ++ toks (hexpieces d) ++ (SEMI, [59]) :: ts) ->
  exists s', parse_hardware_param s h = Ret (s', Hardware (Zlen d + 1) (t :: d ++ replicate (20 - length d) 0)) /\ lexes s' ts /\ quiet s s'.
Proof.
  intros Ht Hd Hl Eh H. pose proof (type_fits_all t Ht) as Hf. unfold type_fits in Hf. rewrite !andb_true_iff in Hf. destruct Hf as [[_ Hc%bool_decide_eq_true_1] Hk]. unfold parse_hardware_param. cbn [token_of] in H, Hk. set (tok := intern _ _) in *. apply bool_decide_eq_true_1 in Hk. destruct (next_lexes _ _ _ _ H) as (s1 & -> & Hv & H1 & Q1 & _). rewrite bind_ret. cbn zeta iota. rewrite (shows_val _ _ Hv Hc), bind_ret, Hk, Eh. change (wr (replicate 21 0) 0 t) with (Ret (t :: replicate 20 0)). rewrite bind_ret. destruct d as [|c d].
  - destruct (peek_lexes s1 SEMI [59] ts H1) as (s2 & -> & _ & H2 & Q2 & _). rewrite bind_ret. cbn zeta iota. change (SEMI =? SEMI) with true. cbn iota. destruct (end_semi_lexes s2 ts H2) as (s3 & -> & H3 & Q3). exists s3. split; [done|]. split; [done|]. eapply quiet_trans; [done|]. by eapply quiet_trans.
  - apply Forall_cons_1 in Hd as Hd'. destruct Hd' as [Hc0 _]. destruct (hex_tokens c d ((SEMI, [59]) :: ts) Hc0) as (t1 & E1 & Ht1). pose proof H1 as H1'. rewrite E1 in H1'. destruct (peek_lexes _ _ _ _ H1') as (s2 & -> & _ & H2 & Q2 & _). rewrite bind_ret. cbn zeta iota. assert (t1 =? SEMI = false) as -> by (by destruct Ht1 as [-> | ->]). rewrite <- E1 in H2. destruct (aggregate_hex s2 (c :: d) SEMI [59] ts) as (s3 & -> & H3 & Q3); [done..|]. rewrite bind_ret. set (dd := c :: d) in *. pose proof (Zlen_nonneg dd). rewrite (proj2 (Z.ltb_ge _ _)) by (unfold HBUF; rewrite u32_small; lia).
    assert (Z.to_nat (Zlen dd) = length dd) as En by (unfold Zlen; lia). rewrite memread_in by lia. change (Z.to_nat 0) with 0%nat. rewrite drop_0, En, take_ge by lia. rewrite bind_ret. assert (replicate 20 0 = replicate (length dd + (20 - length dd)) 0) as -> by (f_equal; unfold Zlen in Hl; lia). pose proof (memcpy_split [t] (replicate (length dd + (20 - length dd)) 0) dd) as Em. change (Zlen [t]) with 1 in Em. change ([t] ++ replicate (length dd + (20 - length dd)) 0) with (t :: replicate (length dd + (20 - length dd)) 0) in Em. rewrite Em by (unfold Zlen; rewrite length_replicate; lia). rewrite bind_ret. rewrite drop_replicate. replace (length dd + (20 - length dd) - length dd)%nat with (20 - length dd)%nat by lia.
    pose proof (memcpy_split ([t] ++ dd) (replicate (20 - length dd) 0) (replicate (Z.to_nat (HBUF - Zlen dd - 1)) 0)) as Em2. rewrite Zlen_app, Z.add_comm in Em2. change (Zlen [t]) with 1 in Em2. rewrite <- (assoc_L (++)) in Em2. rewrite Em2 by (unfold Zlen in *; rewrite !length_replicate; unfold HBUF; lia). rewrite bind_ret. destruct (end_semi_lexes s3 ts H3) as (s4 & -> & H4 & Q4). rewrite bind_ret. exists s4. split; [|split; [done|]; eapply quiet_trans; [done|]; eapply quiet_trans; [done|]; by eapply quiet_trans]. replace (Z.to_nat (HBUF - Zlen dd - 1)) with (20 - length dd)%nat by (unfold Zlen, HBUF in *; lia). rewrite length_replicate, drop_replicate, Nat.sub_diag. cbn [replicate]. by rewrite app_nil_r, <- (assoc_L (++)).
Qed.

Lemma hardware_body h l m : hardware_fits h -> hardware_addr l = Hardware 0 (replicate 21 0) -> Z.land m 64 = 0 -> body (hardware_stmt h) l m (set_hardware h l) (Z.lor m (if hlen h =? 0 then 0 else 64)).
Proof.
  intros Hh El Hm. pose proof (fun k => hardware_open h k Hh) as Ho. destruct Hh as [->|(t & d & Ht & Hd & Hl & ->)].
  - cbn. rewrite Z.lor_0_r. replace (set_hardware _ l) with l; [constructor|]. destruct l. cbn in El |- *. by subst.
  - pose proof (Zlen_nonneg d). unfold hardware_stmt in *. cbn [hlen hbuf] in *. rewrite (proj2 (Z.eqb_neq _ _)) in * by lia. destruct (hardware_parts t d Hl) as [_ E2]. rewrite E2 in *. apply body_one; [|done]. split; [done|]. split; [by intros|]. exists HARDWARE, (chars "hardware"), (token_of (Name (hardware_types t)) ++ toks (hexpieces d) ++ [(SEMI, [59])]). split; [rewrite !toks_app; reflexivity|]. split; [done|]. intros s ts [_ Hv] H1. rewrite <- !(assoc_L (++)) in H1. destruct (hardware_lexes t d s ts (hardware_addr l) Ht Hd Hl) as (s1 & E1 & H2 & Q); [by rewrite El|done|]. exists s1. split; [|done]. unfold lease_parameter. rewrite Hv, bind_ret, E1. reflexivity.
Qed.

(** *** Client identifiers and host names *)

Context (Hmemory : memory V = true).

Definition uid_fits (u : option (list Z)) : Prop := match u with Some u => is_bytes u /\ u <> [] /\ Zlen u < TOKBUF | None => True end.

Definition id_pieces (u : list Z) : list piece := if lease_id_format V =? TOKEN_HEX then hexpieces u else [Quote u].

Definition uid_stmt (u : option (list Z)) : list piece :=
  match u with Some u => [indent; Name (chars "uid"); space] ++ id_pieces u ++ [Mark 59] | None => [] end.

Lemma write_uid_stmt (l : @lease K A E) f : uid_fits (uid l) -> write_uid V l f = Ret (fprintf (render (uid_stmt (uid l))) f).
Proof.
  unfold write_uid, uid_stmt. destruct (uid l) as [u|]; [|intros _; by rewrite (fprintf_nil f) at 1]. intros (Hb & Hn & Hl). destruct u as [|c u]; [done|]. rewrite Hmemory. destruct (format_lease_id_ok (c :: u) (lease_id_format V) Hb Hn Hl) as (b & -> & Eb). rewrite bind_ret, Eb. f_equal. f_equal. rewrite !render_app. assert (render (id_pieces (c :: u)) = id_text (lease_id_format V) (c :: u)) as ->; [|reflexivity]. unfold id_pieces, id_text. destruct (_ =? _); [by rewrite render_hexpieces|]. unfold render. cbn [List.flat_map render1]. by rewrite app_nil_r.
Qed.

Lemma id_lexes u s ts (l : @lease K A E) : is_bytes u -> u <> [] -> Zlen u < TOKBUF -> lexes s (toks (id_pieces u) ++ (SEMI, [59]) :: ts) -> exists s', parse_uid s l = Ret (s', Some (set_uid (Some u) l, 8)) /\ lexes s' ts /\ quiet s s'.
Proof.
  intros Hb Hn Hlen H. unfold parse_uid, id_pieces in *. destruct (_ =? TOKEN_HEX).
  - destruct u as [|c u]; [done|]. apply Forall_cons_1 in Hb as Hb'. destruct Hb' as [Hc _]. destruct (hex_tokens c u ((SEMI, [59]) :: ts) Hc) as (t1 & E1 & Ht1). pose proof H as H'. rewrite E1 in H'. destruct (peek_lexes _ _ _ _ H') as (s1 & -> & _ & H1 & Q1 & _). rewrite bind_ret. cbn zeta iota. assert (t1 =? STRING = false) as -> by (by destruct Ht1 as [-> | ->]). rewrite <- E1 in H1. destruct (aggregate_hex s1 (c :: u) SEMI [59] ts) as (s2 & -> & H2 & Q2); [done..|]. rewrite bind_ret. set (d := c :: u) in *. assert (0 < Zlen d) by (unfold d, Zlen; cbn [length]; lia). rewrite (u16_small (Zlen d)) by (unfold TOKBUF in Hlen; lia). rewrite (proj2 (Z.eqb_neq _ _)) by lia. rewrite memread_in by lia. change (Z.to_nat 0) with 0%nat. rewrite drop_0, take_ge by (unfold Zlen; lia). rewrite bind_ret. destruct (semi_lexes s2 ts H2) as (s3 & -> & H3 & Q3). rewrite bind_ret. exists s3. split; [done|]. split; [done|]. eapply quiet_trans; [done|]. by eapply quiet_trans.
  - destruct (peek_lexes s STRING u _ H) as (s1 & -> & _ & H1 & Q1 & _). rewrite bind_ret. cbn zeta iota. change (STRING =? STRING) with true. cbn iota. destruct (skip_lexes _ _ _ _ H1) as (s2 & -> & [Hv _] & H2 & Q2). rewrite bind_ret, Hv, bind_ret. destruct (semi_lexes s2 ts H2) as (s3 & -> & H3 & Q3). rewrite bind_ret. exists s3. split; [done|]. split; [done|]. eapply quiet_trans; [done|]. by eapply quiet_trans.
Qed.

Lemma id_open u k : is_bytes u -> u <> [] -> Zlen u < TOKBUF -> open_ok ([indent; Name (chars "uid"); space] ++ id_pieces u ++ [Mark 59]) k.
Proof.
  intros Hb Hn Hl. cbn [app]. apply open_blank; [by right|done|]. apply open_name; [done|bound|]. unfold id_pieces. destruct (_ =? _).
  - assert (open_ok (hexpieces u ++ [Mark 59]) k) as Ho by (apply open_app; [apply hexpieces_ok; [done|split; [lia|done]]|open]). destruct (hexpieces_inked u Hn) as (p & ps & E1 & Hp). rewrite E1 in *. by apply open_blank; [left|..].
  - cbn [app]. apply open_blank; [by left|done|]. apply open_quote; [done..|]. open.
Qed.

Lemma uid_body u l m : uid_fits u -> uid l = None -> Z.land m 8 = 0 -> body (uid_stmt u) l m (set_uid u l) (Z.lor m (match u with None => 0 | Some _ => 8 end)).
Proof.
  intros Hu El Hm. destruct u as [u|]; [|rewrite Z.lor_0_r; replace (set_uid None l) with l by (destruct l; cbn in El |- *; by subst); constructor]. destruct Hu as (Hb & Hn & Hl). apply body_one; [|done]. split; [done|]. split; [intros k _; by apply id_open|]. exists UID, (chars "uid"), (toks (id_pieces u) ++ [(SEMI, [59])]). split; [unfold uid_stmt; rewrite !toks_app; reflexivity|]. split; [done|]. intros s ts [_ Hv] H. rewrite <- (assoc_L (++)) in H. destruct (id_lexes u s ts l Hb Hn Hl H) as (s' & E1 & H1 & Q). exists s'. split; [|done]. unfold lease_parameter. rewrite Hv, bind_ret. exact E1.
Qed.

Definition hostname_fits (n : option (list Z)) : Prop := match n with Some n => db_printable n = true /\ c_string n = n /\ Zlen n < TOKBUF | None => True end.

Definition hostname_stmt (n : option (list Z)) : list piece :=
  match n with Some n => [indent; Name (chars "client-hostname"); space; Quote n; Mark 59] | None => [] end.

Lemma printable_bytes n : db_printable n = true -> c_string n = n -> is_bytes n.
Proof.
  unfold db_printable. intros H E1. rewrite E1 in H. rewrite List.forallb_forall in H. apply List.Forall_forall. intros c Hc. specialize (H c Hc). cbn beta in H. rewrite !andb_true_iff in H. destruct H as [[H _] _]. apply plain_range in H. unfold is_byte. lia.
Qed.

Lemma write_hostname_stmt (l : @lease K A E) f : hostname_fits (client_hostname l) -> write_hostname V l f = Ret (fprintf (render (hostname_stmt (client_hostname l))) f).
Proof.
  unfold write_hostname, hostname_stmt. destruct (client_hostname l) as [n|]; [|intros _; by rewrite (fprintf_nil f) at 1]. intros (Hp & Hc & Hl). rewrite Hp, Hmemory, quotify_string_ok, bind_ret by done. f_equal. f_equal. rewrite c_string_app, c_string_all by (by apply quotes_nonzero, printable_bytes). unfold render. cbn [List.flat_map render1 indent space]. rewrite <- ?(assoc_L (++)). cbn [app]. rewrite <- ?(assoc_L (++)). reflexivity.
Qed.

Lemma hostname_body n l m : hostname_fits n -> client_hostname l = None -> Z.land m 1024 = 0 -> body (hostname_stmt n) l m (set_client_hostname n l) (Z.lor m (match n with None => 0 | Some _ => 1024 end)).
Proof.
  intros Hu El Hm. destruct n as [n|]; [|rewrite Z.lor_0_r; replace (set_client_hostname None l) with l by (destruct l; cbn in El |- *; by subst); constructor]. destruct Hu as (Hp & Hc & Hl). apply body_one; [|done]. split; [done|]. split; [intros k _; apply open_blank; [by right|done|]; apply open_name; [done|bound|]; apply open_blank; [by left|done|]; apply open_quote; [by apply printable_bytes|done|]; open|]. exists CLIENT_HOSTNAME, (chars "client-hostname"), [(STRING, n); (SEMI, [59])]. split; [reflexivity|]. split; [done|]. intros s ts [_ Hv] H. unfold lease_parameter. rewrite Hv, bind_ret.
  destruct (peek_lexes _ _ _ _ H) as (s1 & E1 & _ & H1 & Q1 & _). destruct (next_lexes _ _ _ _ H1) as (s2 & E2 & [Hn _] & H2 & Q2 & _). destruct (semi_lexes s2 ts H2) as (s3 & E3 & H3 & Q3). exists s3. split; [|split; [done|]; eapply quiet_trans; [done|]; by eapply quiet_trans]. change (parse_client_hostname s l = Ret (s3, Some (set_client_hostname (Some n) l, 1024))). unfold parse_client_hostname, parse_string. rewrite E1, bind_ret. cbn zeta iota. change (STRING =? STRING) with true. cbn iota. rewrite E2, bind_ret. cbn zeta iota. change (STRING =? STRING) with true. cbn iota. rewrite Hn, bind_ret, E3, bind_ret. cbn [fst snd]. rewrite bind_ret. cbn [fst snd]. by rewrite Hc.
Qed.

(** *** Variables *)

Definition value_fits (v : binding_value) : Prop :=
  match v with
  | binding_data (Some d) => is_bytes d /\ Zlen d < TOKBUF
  | binding_numeric n => - 2 ^ 63 <= n < 2 ^ 63
  | binding_boolean _ => True
  | _ => False
  end.

(** A name that is no keyword. *)
Definition variable (n : list Z) : bool :=
  name_fits n && match token_of (Name n) with [(t, _)] => (t =? NAME) || (t =? NUMBER_OR_NAME) | _ => false end.

Definition binding_fits (b : binding) : Prop := variable (name b) = true /\ exists v, value b = Some v /\ value_fits v.

Definition value_pieces (v : binding_value) : list piece :=
  match v with
  | binding_data (Some d) => [Quote d]
  | binding_numeric n => [Mark 37; Num (long n)]
  | binding_boolean b => [Name (if b then chars "true" else chars "false")]
  | _ => []
  end.

Definition set_pieces (n : list Z) (v : binding_value) : list piece := [indent; Name (chars "set"); space; Name n; space; Mark 61; space] ++ value_pieces v ++ [Mark 59].

Lemma write_value_stmt b v f : value_fits v -> write_binding_scope V b v f = Ret (fprintf (render (set_pieces (name b) v)) f).
Proof.
  intros Hv. unfold set_pieces. rewrite !render_app. destruct v as [[d|]|n|x| |]; try done; unfold write_binding_scope; cbn zeta.
  - destruct Hv as [Hb _]. rewrite Hmemory, quotify_buf_ok, bind_ret. f_equal. f_equal. replace (34 :: quotes d ++ [34; 0]) with ((34 :: quotes d ++ [34]) ++ 0 :: []) by (cbn; by rewrite <- (assoc_L (++))). rewrite c_string_app, c_string_all; [|constructor; [done|]; apply Forall_app; split; [by apply quotes_nonzero|by repeat constructor]]. unfold render. cbn [List.flat_map render1 indent space value_pieces]. rewrite ?app_nil_r. repeat first [rewrite <- (assoc_L (++)) | progress cbn [app]]. reflexivity.
  - f_equal. f_equal. unfold render. cbn [List.flat_map render1 indent space value_pieces]. rewrite ?app_nil_r. repeat first [rewrite <- (assoc_L (++)) | progress cbn [app]]. reflexivity.
  - f_equal. f_equal. unfold render. cbn [List.flat_map render1 indent space value_pieces]. rewrite ?app_nil_r. repeat first [rewrite <- (assoc_L (++)) | progress cbn [app]]. by destruct x.
Qed.

Lemma long_ok n : - 2 ^ 63 <= n < 2 ^ 63 -> (forall r, stops isname r -> piece_ok (Num (long n)) r) /\ token_of (Num (long n)) = [(NUMBER, long n)] /\ c_string (long n) = long n /\ atol (long n) = n.
Proof.
  intros Hn. unfold long. destruct (Z.ltb_spec n 0).
  - pose proof (dec_digits (- n) ltac:(lia)) as Hd. pose proof (dec_short (- n) ltac:(lia)). assert (forall r, stops isname r -> piece_ok (Num (45 :: dec (- n))) r /\ token_of (Num (45 :: dec (- n))) = [(NUMBER, 45 :: dec (- n))]) as Ho by (intros r Hr; apply num_ok; [by right|done|unfold Zlen, TOKBUF; cbn [length]; lia|done]). split_and!; [by apply Ho|by apply (Ho [])| |].
    + cbn [c_string Z.eqb]. by rewrite digits_string.
    + unfold atol. change (strtol (45 :: dec (- n))) with (- strtol_digits (dec (- n)) 0). rewrite dec_value by lia. lia.
  - split_and!; [intros r Hr; by apply dec_ok; [lia|]|apply dec_token; lia|by apply dec_string|apply atol_dec; lia].
Qed.

Lemma value_open n v k : variable n = true -> value_fits v -> open_ok (set_pieces n v) k.
Proof.
  unfold variable. rewrite andb_true_iff. intros [Hn _] Hv. unfold set_pieces. cbn [app]. apply open_blank; [by right|done|]. apply open_name; [done|bound|]. apply open_blank; [by left|done|]. apply open_name; [done|bound|]. apply open_blank; [by left|done|]. apply open_mark; [done|]. destruct v as [[d|]|z|x| |]; try done; cbn [value_pieces app]; (apply open_blank; [by left|done|]).
  - destruct Hv. apply open_quote; [done..|]. open.
  - apply open_mark; [done|]. apply open_piece; [done| |open]. apply (long_ok z Hv). bound.
  - apply open_name; [by destruct x|bound|]. open.
Qed.

Lemma value_lexes v s ts : value_fits v -> lexes s (toks (value_pieces v) ++ ts) -> exists s', parse_binding_value s = Ret (s', Some v) /\ lexes s' ts /\ quiet s s'.
Proof.
  intros Hv H. unfold parse_binding_value. destruct v as [[d|]|n|x| |]; try done.
  - destruct (peek_lexes s STRING d ts H) as (s1 & -> & _ & H1 & Q1 & _). rewrite bind_ret. cbn zeta iota. change (STRING =? STRING) with true. cbn iota. destruct (skip_lexes _ _ _ _ H1) as (s2 & -> & [Hd _] & H2 & Q2). rewrite bind_ret, Hd, bind_ret. exists s2. split; [done|]. split; [done|]. by eapply quiet_trans.
  - destruct (long_ok n Hv) as (_ & Et & Ec & Ea). change (lexes s ((PERCENT, [37]) :: token_of (Num (long n)) ++ ts)) in H. rewrite Et in H. destruct (peek_lexes s _ _ _ H) as (s1 & -> & _ & H1 & Q1 & _). rewrite bind_ret. cbn zeta. change (PERCENT =? STRING) with false. change (PERCENT =? NUMBER_OR_NAME) with false. change (PERCENT =? PERCENT) with true. cbn iota. destruct (skip_lexes _ _ _ _ H1) as (s2 & -> & _ & H2 & Q2). rewrite bind_ret. destruct (next_lexes _ _ _ _ H2) as (s3 & -> & Hs & H3 & Q3 & _). rewrite bind_ret. cbn zeta iota. change (NUMBER =? NUMBER) with true. cbn iota. rewrite (shows_val _ _ Hs Ec), bind_ret, Ea. exists s3. split; [done|]. split; [done|]. eapply quiet_trans; [done|]. by eapply quiet_trans.
  - set (w := if x then chars "true" else chars "false"). assert (lexes s ((NAME, w) :: ts)) as H' by (by destruct x). destruct (peek_lexes s _ _ _ H') as (s1 & -> & _ & H1 & Q1 & _). rewrite bind_ret. cbn zeta. change (NAME =? STRING) with false. change (NAME =? NUMBER_OR_NAME) with false. change (NAME =? PERCENT) with false. change (NAME =? NAME) with true. cbn iota. destruct (next_lexes _ _ _ _ H1) as (s2 & -> & Hs & H2 & Q2 & _). rewrite bind_ret. cbn zeta iota. rewrite (shows_val _ _ Hs) by (by destruct x). rewrite bind_ret. exists s2. split; [by destruct x|]. split; [done|]. by eapply quiet_trans.
Qed.

Lemma name_string n : name_fits n = true -> c_string n = n.
Proof.
  intros H. apply c_string_all. destruct (name_ok n [] H I) as (c & l & -> & Hc & Ha & Hl & _). assert (forall c, 0 <= c < 128 -> isalpha c = true \/ isname c = true -> c <> 0) as Hz by (intros c1 _ [Hx|Hx] ->; done). constructor; [by apply Hz; [|left]|]. apply (List.Forall_impl (P := fun c => 0 <= c < 128 /\ isname c = true)); [|done]. intros c1 [? ?]. by apply Hz; [|right].
Qed.

Lemma binding_takes n v l m : variable n = true -> value_fits v -> takes (set_pieces n v) l m (set_scope (Some (set_binding (scope l) n v)) l) 0.
Proof.
  intros Hn Hv. split; [done|]. split; [intros k _; by apply value_open|]. unfold variable in Hn. rewrite andb_true_iff in Hn. destruct Hn as [Hn Ht]. cbn [token_of] in Ht. exists TOKEN_SET, (chars "set"), (token_of (Name n) ++ (EQUAL, [61]) :: toks (value_pieces v) ++ [(SEMI, [59])]). split; [unfold set_pieces; rewrite !toks_app; cbn [toks List.flat_map]; rewrite ?app_nil_r; reflexivity|]. split; [done|]. intros s ts [_ Hs] H. rewrite <- (assoc_L (++)) in H. cbn [token_of app] in H. set (t := intern _ _) in *. unfold lease_parameter. rewrite Hs, bind_ret.
  destruct (next_lexes _ _ _ _ H) as (s1 & E1 & Hs1 & H1 & Q1 & _). destruct (next_lexes _ _ _ _ H1) as (s2 & E2 & _ & H2 & Q2 & _). rewrite <- (assoc_L (++)) in H2. destruct (value_lexes v s2 _ Hv H2) as (s3 & E3 & H3 & Q3). destruct (semi_lexes s3 ts H3) as (s4 & E4 & H4 & Q4). exists s4. split; [|split; [done|]; eapply quiet_trans; [done|]; eapply quiet_trans; [done|]; by eapply quiet_trans].
  rewrite E1, bind_ret. assert (negb (t =? NAME) && negb (t =? NUMBER_OR_NAME) = false) as Et by (by rewrite <- negb_orb, Ht).
  transitivity (if negb (t =? NAME) && negb (t =? NUMBER_OR_NAME) then s ← skip_to_semi (parse_warn s1); Ret (s, None) else n ← val s1; special_set s1 l n false 0); [reflexivity|]. rewrite Et, (shows_val _ _ Hs1 (name_string n Hn)), bind_ret. unfold special_set. rewrite E2, bind_ret. cbn [fst snd]. change (EQUAL =? EQUAL) with true. cbn iota. rewrite bind_ret. cbn [negb]. rewrite E3, bind_ret, E4. reflexivity.
Qed.

Fixpoint scope_pieces (bs : list binding) : list piece :=
  match bs with [] => [] | b :: bs => match value b with Some v => set_pieces (name b) v | None => [] end ++ scope_pieces bs end.

(** The names differ, whatever their case. *)
Fixpoint distinct (bs : list binding) : Prop :=
  match bs with [] => True | b :: bs => Forall (fun c => strcasecmp (name c) (name b) = false) bs /\ distinct bs end.

Definition scope_fits (sc : option (list binding)) : Prop := match sc with Some bs => bs <> [] /\ Forall binding_fits bs /\ distinct bs | None => True end.

Definition scope_stmt (sc : option (list binding)) : list piece := match sc with Some bs => scope_pieces bs | None => [] end.

Lemma write_scope_stmt bs : forall f, Forall binding_fits bs -> write_scope V bs f = Ret (fprintf (render (scope_pieces bs)) f).
Proof.
  induction bs as [|b bs IH]; intros f H; [cbn; by rewrite <- fprintf_nil|]. apply Forall_cons_1 in H as [(_ & v & Ev & Hv) H]. cbn [write_scope scope_pieces]. rewrite Ev, (write_value_stmt b v f Hv), bind_ret, IH, fprintf_app, render_app by done. done.
Qed.

Lemma replace_none n v bs : Forall (fun b => strcasecmp n (name b) = false) bs -> replace_binding bs n v = None.
Proof. induction 1 as [|b bs Hb _ IH]; [done|]. cbn [replace_binding]. by rewrite Hb, IH. Qed.

Lemma scope_body bs : forall l m old, (match scope l with Some o => o | None => [] end) = old -> bs <> [] -> Forall binding_fits bs -> distinct bs -> Forall (fun c => Forall (fun b => strcasecmp (name c) (name b) = false) old) bs ->
  body (scope_pieces bs) l m (set_scope (Some (rev bs ++ old)) l) m.
Proof.
  induction bs as [|b bs IH]; intros l m old El Hne Hf Hd Ho; [done|]. apply Forall_cons_1 in Hf as [(Hn & v & Ev & Hv) Hf]. apply Forall_cons_1 in Ho as [Ho1 Ho]. destruct Hd as [Hd1 Hd]. cbn [scope_pieces]. rewrite Ev.
  assert (set_binding (scope l) (name b) v = b :: old) as Es by (unfold set_binding; rewrite El, replace_none by done; destruct b; cbn in *; by subst). pose proof (binding_takes (name b) v l m Hn Hv) as Ht. rewrite Es in Ht. assert (body (set_pieces (name b) v) l m (set_scope (Some (b :: old)) l) m) as H1 by (rewrite <- (Z.lor_0_r m) at 2; apply body_one; [done|apply Z.land_0_r]). destruct bs as [|b2 bs]; [cbn [scope_pieces rev app]; by rewrite app_nil_r|]. eapply body_app; [exact H1|].
  replace (set_scope (Some (rev (b :: b2 :: bs) ++ old)) l) with (set_scope (Some (rev (b2 :: bs) ++ b :: old)) (set_scope (Some (b :: old)) l)); [apply IH; try done|].
  - clear - Hd1 Ho. set (cs := b2 :: bs) in *. induction cs as [|c cs IH]; [constructor|]. apply Forall_cons_1 in Ho as [? ?]. apply Forall_cons_1 in Hd1 as [? ?]. constructor; [by constructor|by apply IH].
  - change (rev (b :: b2 :: bs)) with (rev (b2 :: bs) ++ [b]). by rewrite <- (assoc_L (++)).
Qed.

Lemma scope_stmt_body sc l m : scope_fits sc -> scope l = None -> body (scope_stmt sc) l m (set_scope (option_map (@rev binding) sc) l) m.
Proof.
  intros H El. destruct sc as [bs|]; cbn [scope_stmt option_map]; [|replace (set_scope None l) with l by (destruct l; cbn in El |- *; by subst); constructor]. destruct H as (Hne & Hf & Hd). pose proof (scope_body bs l m [] ltac:(by rewrite El) Hne Hf Hd) as H. rewrite app_nil_r in H. apply H. apply List.Forall_forall. intros. constructor.
Qed.

(** *** The whole declaration *)

Definition flags_fit (x : Z) : Prop := x = 0 \/ x = Mdb.RESERVED_LEASE \/ x = Mdb.BOOTP_LEASE \/ x = Z.lor Mdb.RESERVED_LEASE Mdb.BOOTP_LEASE.

Definition flags_stmt (x : Z) : list piece := flag_stmt "reserved" (Z.land x Mdb.RESERVED_LEASE) ++ flag_stmt "dynamic-bootp" (Z.land x Mdb.BOOTP_LEASE).

Lemma flags_body x l m : flags_fit x -> flags l = 0 -> body (flags_stmt x) l m (add_flag x l) m.
Proof.
  intros Hx El. unfold flags_stmt. pose proof (flag_body "reserved" TOKEN_RESERVED Mdb.RESERVED_LEASE (Z.land x Mdb.RESERVED_LEASE) l m eq_refl (or_introl eq_refl)) as H1. pose proof (fun l => flag_body "dynamic-bootp" DYNAMIC_BOOTP Mdb.BOOTP_LEASE (Z.land x Mdb.BOOTP_LEASE) l m eq_refl (or_intror eq_refl)) as H2. pose proof (body_app _ _ _ _ _ _ _ _ H1 (H2 _)) as H. clear H1 H2. destruct l. cbn in El. subst. by destruct Hx as [->|[->|[->| ->]]].
Qed.

(** The leases that are read as they were written, without classes, options of relay agents and statements. *)
Record fits (l : @lease K A E) : Prop := {
  fit_address : is_bytes (ip_addr l) /\ length (ip_addr l) = 4%nat;
  fit_times : times_fit l;
  fit_states : states_fit l;
  fit_flags : flags_fit (flags l);
  fit_class : billing_class l = None;
  fit_hardware : hardware_fits (hardware_addr l);
  fit_uid : uid_fits (uid l);
  fit_scope : scope_fits (scope l);
  fit_agent : agent_options l = None;
  fit_hostname : hostname_fits (client_hostname l);
  fit_on : on_expiry l = None /\ on_release l = None
}.

(** What is read of a lease: its variables are in the other order, and [tstp] is [ends] if it was zero. *)
Definition reread (l : @lease K A E) : @lease K A E := set_tstp (if tstp l =? 0 then ends l else tstp l) (set_scope (option_map (@rev binding) (scope l)) l).

Definition body_pieces (l : @lease K A E) : list piece :=
  times_stmt l ++ states_stmt l ++ flags_stmt (flags l) ++ hardware_stmt (hardware_addr l) ++ uid_stmt (uid l) ++ scope_stmt (scope l) ++ hostname_stmt (client_hostname l).

Definition end_pieces : list piece := [Blank [10]; Mark 125; Blank [10]].

Definition lease_pieces (l : @lease K A E) : list piece :=
  [Name (chars "lease"); space] ++ dotted_pieces (ip_addr l) ++ [space; Mark 123] ++ body_pieces l ++ end_pieces.

Lemma write_lease_pieces new l : fits l -> write_lease V false new l = Ret (render (lease_pieces l), false, true).
Proof.
  intros [[_ _] Ht Hs Hg Hc Hh Hu Hsc Ha Hn [Hx Hr]]. unfold write_lease. cbn [andb]. cbn zeta. unfold times_fit in Ht. rewrite !List.Forall_cons_iff in Ht. destruct Ht as (? & ? & ? & ? & ? & ? & _). rewrite !write_time_stmt by done. rewrite write_states_stmt. rewrite (write_flag "reserved"), (write_flag "dynamic-bootp"), Hc, write_hardware_stmt, bind_ret, write_uid_stmt, bind_ret by done.
  assert (forall f, match scope l with Some b => write_scope V b f | None => Ret f end = Ret (fprintf (render (scope_stmt (scope l))) f)) as Es by (intros f; unfold scope_fits in Hsc; destruct (scope l); [destruct Hsc as (? & ? & ?); by apply write_scope_stmt|cbn; by rewrite <- fprintf_nil]). rewrite Es, bind_ret, Ha, write_hostname_stmt, bind_ret by done. unfold write_on. rewrite Hx, Hr. rewrite !fprintf_app. unfold fprintf. cbn [fst snd negb]. do 3 f_equal. unfold lease_pieces, body_pieces, times_stmt, flags_stmt. rewrite !render_app, dotted_text. cbn [app]. rewrite <- !(assoc_L (++)). reflexivity.
Qed.

Definition body_seen (l : @lease K A E) : Z :=
  Z.lor (Z.lor (Z.lor (states_seen l (times_seen l)) (if hlen (hardware_addr l) =? 0 then 0 else 64)) (match uid l with None => 0 | Some _ => 8 end)) (match client_hostname l with None => 0 | Some _ => 1024 end).

Definition body_lease (l : @lease K A E) : @lease K A E :=
  set_client_hostname (client_hostname l) (set_scope (option_map (@rev binding) (scope l)) (set_uid (uid l) (set_hardware (hardware_addr l) (add_flag (flags l) (set_states (binding_state l) (next_binding_state l) (rewind_binding_state l) (with_times l)))))).

Lemma land_opt {X} (o : option X) x y : Z.land x y = 0 -> Z.land (match o with None => 0 | Some _ => x end) y = 0.
Proof. by destruct o. Qed.

Ltac unseen2 := unfold states_seen, times_seen; rewrite ?Z.land_lor_distr_l, ?Z.lor_eq_0_iff; split_and?; try apply land_flag; try apply land_opt; reflexivity.

Lemma body_body l : fits l -> body (body_pieces l) (new_lease (ip_addr l)) 0 (body_lease l) (body_seen l).
Proof.
  intros [_ Ht Hs Hg _ Hh Hu Hsc _ Hn _]. unfold body_pieces, body_lease, body_seen. eapply body_app; [by apply times_body|]. eapply body_app; [apply states_body; [done|unseen2..]|]. eapply body_app; [by apply flags_body|]. eapply body_app; [apply hardware_body; [done|done|unseen2]|]. eapply body_app; [apply uid_body; [done|done|unseen2]|]. eapply body_app; [by apply scope_stmt_body|]. apply hostname_body; [done|done|unseen2].
Qed.

Lemma body_seen_state l : Z.land (body_seen l) 256 =? 0 = false.
Proof.
  apply Z.eqb_neq. intros H. unfold body_seen, states_seen in H. rewrite !Z.land_lor_distr_l, !Z.lor_eq_0_iff in H. destruct H as [[[[[[_ H] _] _] _] _] _]. done.
Qed.

Lemma body_seen_tstp l : Z.land (body_seen l) 65536 =? 0 = (tstp l =? 0).
Proof.
  assert (Z.land (body_seen l) 65536 = if tstp l =? 0 then 0 else 65536) as ->; [|by destruct (tstp l =? 0)]. unfold body_seen, states_seen, times_seen. rewrite !Z.land_lor_distr_l. rewrite (land_flag _ 1 65536 eq_refl), (land_flag _ 2 65536 eq_refl), (land_flag _ 131072 65536 eq_refl), (land_flag _ 262144 65536 eq_refl), (land_flag _ 524288 65536 eq_refl), (land_flag _ 128 65536 eq_refl), (land_flag _ 512 65536 eq_refl), (land_flag _ 64 65536 eq_refl), (land_opt _ 8 65536 eq_refl), (land_opt _ 1024 65536 eq_refl). change (Z.land 0 65536) with 0. change (Z.land 256 65536) with 0. rewrite !Z.lor_0_r, Z.lor_0_l. by destruct (tstp l =? 0).
Qed.

Lemma lease_open l k : fits l -> stops isspace (render k) -> open_ok (lease_pieces l) k.
Proof.
  intros H Hk. destruct (fit_address l H) as [Hb H4]. destruct (body_open _ _ _ _ _ (end_pieces ++ k) (body_body l H) eq_refl) as [Ho _]. assert (forall r, stops isspace r -> piece_ok (Blank [10]) r) as Hnl by (intros r Hr; split; [done|]; split; [done|]; split; [repeat constructor; lia|done]). assert (open_ok end_pieces k) as He by (split; [apply Hnl; split; [lia|done]|]; split; [done|]; apply open_mark; [done|]; split; [by apply Hnl|done]).
  assert (open_ok ([space; Mark 123] ++ body_pieces l ++ end_pieces) k) as Hm by (apply open_blank; [by left|done|]; apply open_mark; [done|]; by apply open_app). assert (open_ok (dotted_pieces (ip_addr l) ++ [space; Mark 123] ++ body_pieces l ++ end_pieces) k) as Hd by (apply open_app; [apply dotted_open; [done|split; [lia|done]]|done]). unfold lease_pieces. apply open_name; [done|bound|]. destruct (ip_addr l) as [|c [|e a]]; [done|by apply open_blank; [left|..]|]. change (dotted_pieces (c :: e :: a)) with (Num (dec c) :: Mark 46 :: dotted_pieces (e :: a)) in *. by apply open_blank; [left|..].
Qed.

Lemma parse_declaration l s ts : fits l -> lexes s (toks (dotted_pieces (ip_addr l)) ++ (LBRACE, [123]) :: toks (body_pieces l) ++ (RBRACE, [125]) :: ts) -> exists s', parse_lease_declaration V s = Ret (s', Some (reread l)) /\ lexes s' ts /\ quiet s s'.
Proof.
  intros H Hl. destruct (fit_address l H) as [Hb H4]. unfold parse_lease_declaration. destruct (address_lexes _ s _ Hb H4 Hl) as (s1 & -> & H1 & Q1). rewrite bind_ret. rewrite memread_in by (unfold Zlen; lia). change (Z.to_nat 0) with 0%nat. change (Z.to_nat 4) with 4%nat. rewrite drop_0, take_ge, bind_ret by lia. destruct (lbrace_lexes _ _ H1) as (s2 & -> & H2 & Q2). rewrite bind_ret. cbn [negb]. pose proof (lexes_left s2 _ H2) as Hleft. rewrite length_app in Hleft. destruct (body_loop _ _ _ _ _ (body_body l H) (S (S (left s2))) s2 ts) as (s3 & -> & H3 & Q3); [cbn [length] in Hleft; lia|done|]. rewrite bind_ret. cbn iota zeta. rewrite body_seen_state, body_seen_tstp. exists s3. split; [|split; [done|]; eapply quiet_trans; [done|]; by eapply quiet_trans]. do 3 f_equal. destruct H as [_ _ _ Hg Hc _ _ _ Ha _ [Hx Hr]]. unfold reread, body_lease, with_times. destruct l. cbn in *. subst. by destruct (tstp0 =? 0); destruct Hg as [->|[->|[->| ->]]].
Qed.

(** ** The whole file *)

Definition file_pieces (ls : list (@lease K A E)) : list piece := List.flat_map lease_pieces ls.

Lemma file_ok ls : Forall fits ls -> pieces_ok (file_pieces ls) /\ stops isspace (render (file_pieces ls)).
Proof.
  induction 1 as [|l ls Hl _ [IH1 IH2]]; [done|]. change (file_pieces (l :: ls)) with (lease_pieces l ++ file_pieces ls). split; [apply open_pieces; [by apply lease_open|done]|]. change (0 <= 108 < 128 /\ isspace 108 = false). split; [lia|done].
Qed.

Lemma file_loop ls : forall fuel s ls0, Forall fits ls -> lexes s (toks (file_pieces ls)) -> (length ls < fuel)%nat -> exists s', subparse_loop V fuel s ls0 = Ret (s', ls0 ++ List.map reread ls) /\ quiet s s'.
Proof.
  induction ls as [|l ls IH]; intros [|fuel] s ls0 Hf H Hn; try lia; cbn [subparse_loop].
  - destruct (next_end s H) as (s1 & -> & _ & Q1). rewrite bind_ret. cbn zeta iota. rewrite Z.eqb_refl, app_nil_r. by exists s1.
  - apply Forall_cons_1 in Hf as [Hl Hf]. change (file_pieces (l :: ls)) with (lease_pieces l ++ file_pieces ls) in H. unfold lease_pieces in H. rewrite !toks_app in H. change (toks end_pieces) with [(RBRACE, [125])] in H. change (toks [space; Mark 123]) with [(LBRACE, [123])] in H. rewrite <- !(assoc_L (++)) in H. destruct (next_lexes s LEASE (chars "lease") _ H) as (s1 & -> & _ & H1 & Q1 & _). rewrite bind_ret. cbn zeta iota. change (LEASE =? END_OF_FILE) with false. change (LEASE =? LEASE) with true. cbn iota. destruct (parse_declaration l s1 _ Hl H1) as (s2 & -> & H2 & Q2). rewrite bind_ret. cbn iota. destruct (IH fuel s2 (ls0 ++ [reread l]) Hf H2) as (s3 & -> & Q3); [cbn in Hn; lia|]. exists s3. rewrite <- (assoc_L (++)). split; [done|]. eapply quiet_trans; [done|]. by eapply quiet_trans.
Qed.

Lemma file_length ls : (length ls <= length (toks (file_pieces ls)))%nat.
Proof.
  induction ls as [|l ls IH]; [cbn; lia|]. change (file_pieces (l :: ls)) with (lease_pieces l ++ file_pieces ls). rewrite toks_app, length_app. change (toks (lease_pieces l)) with ((LEASE, chars "lease") :: toks ([space] ++ dotted_pieces (ip_addr l) ++ [space; Mark 123] ++ body_pieces l ++ end_pieces)). cbn [length]. lia.
Qed.

(** C3: The lease file is read as it was written: when the server writes any leases whose
    fields fit what the file can hold, with the dates in UTC or as seconds, and the client
    identifiers in either notation, then [write_lease] succeeds on each of them, and reading
    the file that their declarations make up gives the same leases in the same order,
    without a warning; the variables of a lease come in the other order, and a [tstp] of
    zero becomes [ends].  The leases that fit ([fits]) are those without a billing class,
    agent options and on-statements; memory is available to the reader. *)
Theorem lease_file_roundtrip ls : Forall fits ls ->
  exists texts, Forall2 (fun l t => write_lease V false false l = Ret (t, false, true)) ls texts /\
    exists s, lease_file_subparse V (new_parse (List.concat texts) false) = Ret (s, List.map reread ls) /\ warnings_occurred s = false.
Proof.
  intros H. exists (List.map (fun l => render (lease_pieces l)) ls). split; [induction H as [|l ls Hl _ IH]; [constructor|]; constructor; [by apply write_lease_pieces|done]|]. destruct (file_ok ls H) as [Hok _]. pose proof (lexes_new _ Hok (pieces_bytes _ Hok)) as Hl. assert (List.concat (List.map (fun l => render (lease_pieces l)) ls) = render (file_pieces ls)) as -> by (clear; induction ls as [|l ls IH]; [done|]; change (file_pieces (l :: ls)) with (lease_pieces l ++ file_pieces ls); rewrite render_app, <- IH; done).
  pose proof (lexes_left _ _ Hl) as Hn. pose proof (file_length ls). destruct (file_loop ls (S (S (left (new_parse (render (file_pieces ls)) false)))) _ [] H Hl) as (s & E1 & Q); [lia|]. by exists s.
Qed.

End Trip.

(** ** An example *)

Definition plain_services : @services unit unit unit :=
  Services 1500000000 true None 0 (fun _ => ([], true)) (fun _ => None) (fun _ => []) (fun _ _ => true) (fun _ => None)
    (fun s => Ret (s, None)) (fun s => Ret (s, None)) (fun s => Ret (s, None)) (fun _ s => Ret s).

Definition lease1 : @lease unit unit unit :=
  Lease [10; 0; 0; 7] 1400000000 Print.MAX_TIME 1400003600 0 0 1400000000 FTS_ACTIVE FTS_FREE FTS_ACTIVE Mdb.RESERVED_LEASE None
    (Hardware 7 (1 :: [0; 17; 34; 51; 68; 255] ++ replicate 14 0)) (Some [1; 0; 17; 34; 92; 255])
    (Some [Binding (chars "ddns-name") (Some (binding_data (Some (chars "a.example")))); Binding (chars "n") (Some (binding_numeric (-5)))])
    None (Some (chars "client")) None None.

Definition lease2 : @lease unit unit unit :=
  Lease [192; 168; 1; 254] 0 0 0 0 0 0 FTS_FREE FTS_FREE FTS_FREE 0 None (Hardware 0 (replicate 21 0)) None None None None None None.

Lemma lease_file_roundtrip_witness :
  exists texts, Forall2 (fun l t => write_lease plain_services false false l = Ret (t, false, true)) [lease1; lease2] texts /\
    exists s, lease_file_subparse plain_services (new_parse (List.concat texts) false) = Ret (s, List.map reread [lease1; lease2]) /\ warnings_occurred s = false.
Proof.
  apply (lease_file_roundtrip plain_services I eq_refl).
  assert (forall l, forallb (fun c => (0 <=? c) && (c <? 256)) l = true -> is_bytes l) as Hb by (intros l H; rewrite List.forallb_forall in H; apply List.Forall_forall; intros c Hc; specialize (H c Hc); cbn beta in H; rewrite andb_true_iff, Z.leb_le, Z.ltb_lt in H; unfold is_byte; lia).
  constructor; [|constructor; [|constructor]]; split; try reflexivity.
  - split; [by apply Hb|done].
  - do 6 (constructor; [first [by left | right; cbn; unfold DAY_2038; lia]|]). constructor.
  - done.
  - by right; left.
  - right. exists 1, [0; 17; 34; 51; 68; 255]. split; [by vm_compute|]. split; [by apply Hb|]. split; [by vm_compute|done].
  - split; [by apply Hb|]. split; [done|by vm_compute].
  - split; [done|]. split; [|by repeat constructor]. constructor; [|constructor; [|constructor]]; (split; [reflexivity|]); eexists; (split; [reflexivity|]); [split; [by apply Hb|by vm_compute]|cbn; lia].
  - by split; [|split; [|vm_compute]].
  - done.
  - split; [by apply Hb|done].
  - do 6 (constructor; [right; cbn; unfold DAY_2038; lia|]). constructor.
  - done.
  - by left.
  - by left.
  - done.
Defined.

End LeaseTrip.
